(* ===== verification/_CoqProject ===== *)
-Q . S2P
Prelude.v
GoStr.v
Paths.v
GoFloat.v
AgentTypes.v
Tokens.v
Plan.v
PlanDag.v
Blackboard.v
Persist.v
Nudges.v
Fence.v
Prompt.v
Json.v
JsonFacts.v
JsonEncode.v
Window.v
WindowFacts.v
Conversation.v
AnyJson.v
RefExpand.v
Sanitize.v
SchemaMerge.v
SanitizeFacts.v
ModelTable.v
Schema.v
Registry.v
Router.v
ModelRegistry.v
ModelRegistryFacts.v
ToolCache.v
Watchdog.v
ToolSyntax.v
Oneshot.v
PathChecks.v
Judge.v
Symlink.v
FileSys.v
SafeIo.v
FileFacts.v
Planner.v
FileTools.v
FileToolFacts.v
FileWrites.v
Sse.v
McpServer.v
McpGateway.v
McpFacts.v
Chunker.v
ShellAnalysis.v
ShellInvocation.v
ShellFacts.v
ExecState.v
Breaker.v
ToolResult.v
Finish.v
Executor.v
ExecutorFacts.v
RunFacts.v
SubAgent.v
Conductor.v
Reasoning.v
OpenAI.v
Responses.v
Anthropic.v
Reflector.v
TaskRouter.v
Google.v
Task.v
TaskFacts.v
