(* ===== verification/Prelude.v ===== *)
(** * sp4rk: a verification library

    A model of the core of the sp4rk agent SDK (Go) and the theorems that make
    it correct.  Definitions carry the names of the Go functions they translate
    and follow their control flow: guards, early returns, order of effects.

    ** The program and the files

    sp4rk runs a language model in a loop of thoughts, tool calls and
    observations (package agent), under a conductor or on the steps of a plan
    whose results are shared through a blackboard (packages orchestration and
    planner; task.go at the root drives them); what the model is shown of the run is rendered, pruned and
    compacted by a context window (package memory).  A tool call is validated,
    judged and looked up in a registry of tools (package
    tools); a model call is routed to a provider with the metadata of the model
    and schemas in the provider's dialect (package llm).

    Shared ground:
    - [Prelude]: scope, error type [res], lemmas and tactics used everywhere.
    - [GoStr]: Go strings as bytes, UTF-8 decoding, the functions of package
      strings that are called, and strutil/truncate.go.  [GoFloat]: float64 as
      an interface.  [Paths]: path/filepath and pathutil/pathutil.go on POSIX
      paths.
    - [AgentTypes]: messages, steps, results (llm/message.go, agent/types.go,
      tools/tool.go).  [Tokens]: llm/tokencount.go and content blocks.
    - [Fence]: the untrusted-content tags of security/wrap.go.  [Prompt]:
      the builder of prompt sections (package prompt).
    - [Json], [JsonFacts], [JsonEncode]: encoding/json as far as it is used.
      [AnyJson]: decoded values and llm/schema_order.go.

    Plans and results:
    - [Plan], [PlanDag]: orchestration/dag.go (scheduling, carry-forward,
      aggregation) and validatePlanDAG of planner/planner.go; [Planner]: the
      other paths of planner/planner.go, from prompts to checked plans.
    - [Blackboard]: MapBlackboard, the step output store, RestoreBlackboard.
      [Persist]: CheckpointedBlackboard as a transition system of writers,
      worker and shutdown.

    What the model is shown:
    - [Window], [WindowFacts]: memory/context.go, memory/steps.go and the
      compaction strategies; [Conversation]: memory/compaction_conversation.go,
      the same strategies on a plain conversation and their forecast.

    Calls to the model:
    - [Router]: model identifiers, errors, llm/router.go and its back-off.
      [ModelTable], [ModelRegistry], [ModelRegistryFacts]: llm/modelregistry.go,
      llm/family.go, llm/protocol.go: the catalog and the tiers above and below
      it.  [Reasoning]: llm/reasoning.go and llm/reasoning_openai.go, the effort
      of a call.  [OpenAI]: llm/provider_openai.go and llm/provider_helpers.go,
      requests, answers and streams of chat completions; [Responses], [Anthropic],
      [Google]: the same for llm/provider_openai_responses.go,
      llm/provider_anthropic.go and llm/provider_google.go.  [Oneshot]: one call with retries and the JSON in its answer.
    - [RefExpand], [Sanitize]: llm/schema_sanitize.go and llm/schema_google.go,
      tool schemas inlined and reduced to the dialects of the providers;
      [SchemaMerge]: what one level of that is to do, and does;
      [SanitizeFacts]: the dialects, at every place of a schema.  [Sse]: llm/sse_sanitize.go, the repair of event streams.

    Tools:
    - [Schema]: tools/inputvalidate.go, the validation of tool input.  [Registry]:
      tools/registry.go, groups and policies.  [PathChecks], [Judge]: the
      decisions on calls of tools/judge.go, by paths and by asking a model.  [Symlink]:
      tools/symlink.go, the gate on commands that go through links.
      [ShellAnalysis], [ShellInvocation], [ShellFacts]: tools/shellanalysis.go
      and its neighbours, the verdict on a shell command given the report of the
      analyzer.  [FileSys]: package os over a tree of files, directories and
      links, whose calls may fail at any time; [SafeIo]: package safeio on it;
      [FileTools]: tools/builtins/file_edit.go, file_write.go, file_delete.go,
      file_mkdir.go and file_rmdir.go, with their judges.  [FileFacts] holds the
      rules for calls and trees, [FileToolFacts] and [FileWrites] the theorems.
    - [McpServer]: tools/mcp/server.go, mcptool.go and redirect.go, one external
      tool server; [McpGateway]: tools/mcp/gateway.go, the servers of a process;
      [McpFacts]: the theorems about both.
    - [Chunker]: embedding/chunker.go, files cut into chunks for an index.

    The loop:
    - [Nudges], [ToolSyntax]: the texts the loop sends to the model, tool-call
      syntax printed as text, checklists.  [ToolCache]: agent/tool_cache.go.
      [Watchdog]: the select loop of agent/tool_watchdog.go.
    - [ExecState]: Executor and runState, the configuration, and the
      environment; [Breaker], [ToolResult], [Finish], [Executor]: the loop of
      agent/executor.go, agent/executor_run.go and agent/verify_on_edit.go,
      handler by handler, up to [Run]; [ExecutorFacts], [RunFacts]: what the
      handlers keep, and the theorems about [Run].
    - [SubAgent]: agent/subagent.go, one sub-agent and the parallel runner;
      [Conductor]: orchestration/conductor.go.
    - [Task], [TaskFacts]: task.go, the plan, execute, reflect loop around the
      conductor; [Reflector]: agent/reflector/reflector.go and the environment
      block of tools/envinfo.go; [TaskRouter]: agent/router/router.go, the
      classification of a request.

    Components meet where the code calls: the loop stores results through
    [ToolCache.Store] and shows cached ones through [ToolCache.Get], runs tools
    through [Watchdog.executeToolCall], and detects leaked calls through
    [ToolSyntax]; [Window] renders the steps the loop adds, fences them with
    [Fence] and splits the system prompt where [Prompt] marked it; [Blackboard]
    supplies the state [Persist] saves; [OpenAI] spells on the wire the effort
    [Reasoning] chose, the providers send the schemas [Sanitize] made, and their
    errors are what [Router] retries; [Plan] schedules what [PlanDag]
    accepted, and [Planner] only returns plans [PlanDag] accepted, built with
    [Prompt] and read through [Oneshot.Do]; the model judge of [Judge] asks
    through [Oneshot.Do], behind the checks of [PathChecks], which like
    [Symlink] stand on [Paths]; the file tools resolve and judge paths with
    [PathChecks] before they write; the gateway of [McpGateway] registers the
    tools of its servers in the [Registry]; [Sanitize] runs on what [RefExpand] inlined.
    [Conductor] and [SubAgent] run executors: the conductor the [Run] of
    [Executor] over any context manager, the parallel runner over any ending of
    its agents.  [Task] schedules with [Plan] and writes the [Blackboard]; the
    conductor, planner, reflector and router it drives are any functions of its
    trace ([Task.TaskWorld]), so that its theorems hold for theirs.  The loop
    of [Executor] itself sees the window through the calls it makes on
    it and the answers of its [World].

    ** How state and effects are modelled

    A type whose methods hold a mutex for their whole body is a record, a
    method a function on it.  Where goroutines interleave ([Persist],
    [SubAgent]) the critical sections are the steps of an inductive relation.
    The loop threads one state [xstate]: the Executor's fields that change, the
    runState, and the trace of everything it makes observable (events,
    context-manager calls, model calls, questions to the human).  Its
    environment [World] answers as functions of that trace, so a theorem over
    every [World] holds for every behaviour of model, tools, human, clock and
    map iteration order, also one that depends on the past.  The file tools run
    in a state monad over the tree, the count of calls made, the trees of the
    past, which a crash could leave, and the marks of the edit checker; the host
    [FileSys.Os] decides which call fails, after how many bytes.  Servers run in
    a writer monad over the trace of what is done to the client library, which
    answers ([McpServer.Wire]) as a function of it.  Go maps are
    [gmap]s; where the code ranges over one and the order matters, the order is
    an argument or the map a list of members.  A Go int is a [Z]: the counters
    are bounded by lengths and configured limits, far from 64 bits.  Floats
    (context fill, shares of a history) go through the class [GoFloat.Float64],
    whose instance for the examples is the rationals; the one theorem that needs
    laws of them states them ([Conversation.FloatLaws]).  A token counter is the
    class [Tokens.TokenCounter].

    Parameters, each standing for code outside the repository or for the
    environment: the tiktoken counters, the providers and their answers, the
    client libraries of the tool servers and of the providers, net/url, strings.EqualFold, the
    sampling presets, the model that summarizes (a function of the texts it was
    given so far), fmt.Sprint of decoded JSON, SHA-256 (the theorems that need
    it assume that its hex digest has 64 characters, and name collisions where
    they matter), clocks and the cancellation of waits, os.Stat, lstat and
    os.Getwd, the faults of file operations, the names of temporary files and
    the texts of errors ([FileSys.Os]), the checker of concurrent edits,
    strings.ToLower beyond ASCII, the texts of JSON errors and of
    float64s, quoting by the q verb, the parser of shell commands, the analyzer of
    shell commands, its report and the names of its kinds and modes, the judge's
    prompts, the delegation registry, how the runs of sub-agents end, the
    answers of metadata probes, the reading of times from JSON, and the fields of
    [World] and [Task.TaskWorld].

    ** Fuel

    Loops without a structural argument take fuel, and a theorem says how much
    is enough: [BuildCarryForward] one unit per plan step and one more,
    [validatePlanDAG] one per step and one more, the persistence worker a
    measure of its queue, path resolution and os.MkdirAll the length of the path, the JSON
    readers the length of the text, reference inlining one level per definition,
    the sanitizers the height of the schema, stripping of identifiers their
    length, [Do] its attempts, [Run] the steps left and two more when the human
    never lifts a limit (with one who does, the loop need not end, and the
    theorems about results hold for any fuel), a task as much as its plans take:
    there is an amount from which on the outcome is the same.

    ** What the theorems show

    - The loop: a result holds the whole trajectory, which continues the
      resumed one; response groups are fresh; the step budget bounds the model
      calls and the run ends; the cache stays consistent.  The circuit breakers
      act at their thresholds and on the human's answer; a finish is accepted
      exactly past the guard and the gates that are due; the implicit finish;
      what is cut from a result is in the cache, under the hash the model is
      shown, until it expires; a tool call returns
      the tool's result whenever it is there.  A conductor's report says how the
      run ended; parallel sub-agents all settle, each under its own index.
    - A task: it comes to an end within its budgets of replans and attempts,
      whatever the parts it drives answer; steps wait for their dependencies and
      run on the execution model; the status says what happened.  What the
      task router and the reflector return, and the effort a call asks for.
    - The cache: a hash once issued never names other content; what is stored
      can be read; the shortest free prefix is issued; coherence.
    - Plans: validation accepts exactly the acyclic plans with unique IDs and
      known dependencies; an accepted plan is scheduled to its end; the largest
      consistent set of results to carry over; every path of the planner
      returns checked plans, and data cannot act as prompt sections.
    - The blackboard: reads after writes, summaries, facts, attachments;
      restoring a checkpoint is invisible to every reader.
    - Persistence: the queue is bounded and first in first out, no wake-up is
      lost, the checkpoint is the memory at quiescence, shutdown drains.
    - The context window: every prompt of every reachable window is well-formed
      for the model API; untrusted output never leaves its fence, and the fence
      cannot be closed from the inside; which outputs stay whole and what stands
      for the others; tool schemas never use up the budget; compaction with
      nothing to leave out changes nothing; the forecast of a compaction agrees
      with the compaction.
    - Model calls: what the router retries, on which provider, within which
      limits; what a model resolves to, tier by tier, and when a failed probe is
      repeated; a stream gives the answer the synchronous call gives, however it
      is cut and whatever its last event leaves out; the effort chosen is what
      the endpoint is told; requests carry nothing their endpoints reject, and
      calls come back with their results; schemas lose the
      keywords of other dialects, keep what a merge brings in and stay within a
      budget, with the keywords that are left after all named; an event stream is repaired without losing an event that can be dispatched.
    - Tools: input validation is the schema's meaning; what the registry runs is
      permitted by groups and policies; what the judge lets pass was inside the
      roots or allowed by a valid verdict about this very call; the link gate
      reports every first link that leads out, but for the system's own and the
      spellings it cleans away; what the verdict
      on a shell command follows from, and what a command taken for a workspace
      verification can touch; an edit replaces one occurrence or nothing, at
      every moment; a deletion takes one entry and never follows a link; what
      the judge approved changes the tree only within the roots.  No connection
      to a tool server leaks or is used after it was closed; a reconfiguration
      leaves alone the servers whose recorded configuration is the wanted one,
      connects the others with it, and cleans up after the rest.
    - Chunks of a file are slices of it at the lines they claim.
    - Strings: truncation within its bounds, on rune and line boundaries.

    ** What is not modelled

    Paths are POSIX paths.  The overflow of a back-off after very many attempts,
    the nesting limit of encoding/json, and the rounding of number literals are
    left out, and copies made so that callers share no memory are not seen.
    In the file system no other process interferes, permissions matter only as
    faults, hard links and the sizes and times of directories are absent.
    The construction of clients and their credentials, the tools that read, run commands or fetch, and embedding are
    input and output around third-party libraries; the framework facade
    assembles parts, which a task takes as resolved.  The analyzer of shell commands is third-party code. *)

From Stdlib Require Import ZArith Lia.
From stdpp Require Import base gmap strings list sorting.

(** ** Scopes and notations *)

Declare Scope sp4rk_scope.
Delimit Scope sp4rk_scope with sp4rk.

(** Go string concatenation. *)
Notation "a +s+ b" := (String.append a b)
  (at level 60, right associativity) : sp4rk_scope.

(** ** Fallible results: a value, or a Go [error] of which the model keeps the
    text [Error()] returns. *)

Inductive res (A : Type) : Type :=
| Ok (a : A)
| Err (msg : string).
Arguments Ok {A} _.
Arguments Err {A} _.

Definition is_ok {A} (r : res A) : bool :=
  match r with Ok _ => true | Err _ => false end.

Lemma is_ok_true {A} (r : res A) : is_ok r = true <-> exists a, r = Ok a.
Proof. destruct r; simpl; split; [eauto|done|done|intros [? ?]; done]. Qed.

(** ** Automation *)

(** Database of the components' characterising lemmas. *)
Create HintDb sp4rk.

(** Case analysis on the innermost [match]/[if] of the goal, keeping the
    equation: the tactic that follows a handler through its early returns. *)
Ltac step_match :=
  match goal with
  | |- context [match ?x with _ => _ end] =>
      lazymatch x with
      | context [match _ with _ => _ end] => fail
      | _ => let E := fresh "E" in destruct x eqn:E
      end
  end.

(** The same, on a hypothesis. *)
Ltac step_match_in H :=
  match type of H with
  | context [match ?x with _ => _ end] =>
      lazymatch x with
      | context [match _ with _ => _ end] => fail
      | _ => let E := fresh "E" in destruct x eqn:E
      end
  end.

(** Boolean hypotheses and goals to propositions. *)
Ltac boolean :=
  repeat match goal with
  | H : _ && _ = true |- _ => apply andb_true_iff in H; destruct H
  | H : _ || _ = false |- _ => apply orb_false_iff in H; destruct H
  | H : negb _ = true |- _ => apply negb_true_iff in H
  | H : negb _ = false |- _ => apply negb_false_iff in H
  | H : bool_decide _ = true |- _ => apply bool_decide_eq_true in H
  | H : bool_decide _ = false |- _ => apply bool_decide_eq_false in H
  | H : (_ <=? _)%Z = true |- _ => apply Z.leb_le in H
  | H : (_ <=? _)%Z = false |- _ => apply Z.leb_gt in H
  | H : (_ <? _)%Z = true |- _ => apply Z.ltb_lt in H
  | H : (_ <? _)%Z = false |- _ => apply Z.ltb_ge in H
  | H : (_ =? _)%Z = true |- _ => apply Z.eqb_eq in H
  | H : (_ =? _)%Z = false |- _ => apply Z.eqb_neq in H
  end.

(** ** Lists *)

Section lists.
Context {A : Type}.
Implicit Types (l : list A).

(** [existsb]/[forallb] as stdpp's [Exists]/[Forall]. *)
Lemma forallb_Forall (f : A -> bool) l :
  forallb f l = true <-> Forall (fun x => f x = true) l.
Proof.
  induction l as [|x l IH]; simpl; [split; auto|].
  rewrite andb_true_iff, IH, Forall_cons. done.
Qed.

Lemma existsb_elem (f : A -> bool) l :
  existsb f l = true <-> exists x, x ∈ l /\ f x = true.
Proof.
  rewrite existsb_exists. split; intros (x & ? & ?); exists x;
    rewrite ?list_elem_of_In in *; auto.
Qed.

Lemma existsb_false_elem (f : A -> bool) l :
  existsb f l = false <-> forall x, x ∈ l -> f x = false.
Proof.
  rewrite <- not_true_iff_false, existsb_elem. split.
  - intros H x Hx. destruct (f x) eqn:E; [|done]. exfalso; eauto.
  - intros H (x & Hx & E). rewrite (H x Hx) in E. done.
Qed.

(** Membership in the keep-if-true filter of Go's [append] loops. *)
Lemma elem_of_List_filter (f : A -> bool) l x :
  x ∈ List.filter f l <-> x ∈ l /\ f x = true.
Proof. rewrite !list_elem_of_In. apply filter_In. Qed.

Lemma List_filter_sublist (f : A -> bool) l : List.filter f l `sublist_of` l.
Proof.
  induction l as [|x l IH]; simpl; [done|].
  destruct (f x); [by constructor|by constructor].
Qed.

Lemma List_filter_nil (f : A -> bool) l :
  List.filter f l = [] <-> forall x, x ∈ l -> f x = false.
Proof.
  induction l as [|x l IH]; simpl; [split; [intros _ y Hy; set_solver|done]|].
  destruct (f x) eqn:E; split.
  - done.
  - intros H. specialize (H x). rewrite H in E; [done|]. set_solver.
  - intros H y. rewrite elem_of_cons. intros [->|Hy]; [done|].
    by apply IH.
  - intros H. apply IH. intros y Hy. apply H. set_solver.
Qed.
End lists.

(** ** Go loops that append to a slice *)

Lemma fold_left_append_if {A} (f : A -> bool) (l acc : list A) :
  fold_left (fun acc x => if f x then acc ++ [x] else acc) l acc = acc ++ List.filter f l.
Proof.
  revert acc; induction l as [|x l IH]; intros acc; simpl; [by rewrite app_nil_r|].
  rewrite IH. destruct (f x); [by rewrite <- app_assoc|done].
Qed.

Lemma fold_left_append_omap {A B} (g : A -> option B) (l : list A) (acc : list B) :
  fold_left (fun acc x => match g x with Some y => acc ++ [y] | None => acc end) l acc
  = acc ++ omap g l.
Proof.
  revert acc; induction l as [|x l IH]; intros acc; simpl; [by rewrite app_nil_r|].
  rewrite IH. destruct (g x); [by rewrite <- app_assoc|done].
Qed.

Lemma fold_left_append_concat {A B} (g : A -> list B) (l : list A) (acc : list B) :
  fold_left (fun acc x => acc ++ g x) l acc = acc ++ (l ≫= g).
Proof.
  revert acc; induction l as [|x l IH]; intros acc; simpl; [by rewrite app_nil_r|].
  by rewrite IH, <- app_assoc.
Qed.

(** Two loop bodies that agree give the same loop. *)
Lemma fold_left_ext {A B} (f g : A -> B -> A) (l : list B) (a : A) :
  (forall a b, b ∈ l -> f a b = g a b) -> fold_left f l a = fold_left g l a.
Proof.
  revert a; induction l as [|x l IH]; intros a H; simpl; [done|].
  rewrite (H a x) by set_solver. apply IH. intros a' b Hb. apply H. set_solver.
Qed.

(** An invariant of a loop body is an invariant of the loop. *)
Lemma fold_left_inv {A B} (P : A -> Prop) (f : A -> B -> A) (l : list B) (a : A) :
  P a -> (forall a b, b ∈ l -> P a -> P (f a b)) -> P (fold_left f l a).
Proof.
  revert a; induction l as [|x l IH]; intros a Ha H; simpl; [done|].
  apply IH; [apply H; [set_solver|done]|]. intros a' b Hb. apply H. set_solver.
Qed.

(** A loop that appends where [g] is defined, as the elements it keeps. *)
Lemma omap_filter {A B} (g h : A -> option B) (l : list A) :
  (forall x, x ∈ l -> is_Some (g x) -> g x = h x) ->
  omap g l = omap h (List.filter (fun x => bool_decide (is_Some (g x))) l).
Proof.
  induction l as [|x l IH]; intros H; csimpl; [done|].
  rewrite IH by (intros; apply H; [by right|done]).
  destruct (g x) as [y|] eqn:E; csimpl; [|done].
  rewrite <- (H x) by (rewrite ?E; first [by left|by eexists]). by rewrite E.
Qed.

Lemma omap_nil {A B} (g : A -> option B) (l : list A) :
  omap g l = [] <-> forall x, x ∈ l -> g x = None.
Proof.
  induction l as [|x l IH]; csimpl; [split; [intros _ x Hx; by apply not_elem_of_nil in Hx|done]|].
  destruct (g x) eqn:E; split.
  - done.
  - intros H. rewrite (H x) in E by by left. done.
  - intros H y. rewrite elem_of_cons. intros [->|Hy]; [done|]. by apply IH.
  - intros H. apply IH. intros y Hy. apply H. by right.
Qed.

(** Members of a string list as a set of IDs. *)
Definition ids_of (l : list string) : gset string := list_to_set l.

Lemma elem_of_ids_of l x : x ∈ ids_of l <-> x ∈ l.
Proof. unfold ids_of. apply elem_of_list_to_set. Qed.

Lemma size_list_to_set_le (l : list string) : size (list_to_set l : gset string) <= length l.
Proof.
  induction l as [|x l IH]; [vm_compute; lia|]. simpl.
  rewrite size_union_alt, size_singleton.
  assert (size (list_to_set l ∖ {[x]} : gset string) <= size (list_to_set l : gset string))
    by (apply subseteq_size; set_solver). lia.
Qed.

#[export] Hint Rewrite @elem_of_List_filter elem_of_ids_of : sp4rk.
