(* ===== verification/GoStr.v ===== *)
(** * Go strings

    The parts of Go's [strings], [strconv] and [unicode/utf8] packages the
    modelled code calls, on Go strings as byte sequences ([String.string]:
    one [ascii] per byte), and [src/strutil/truncate.go].

    - [itoa] is [strconv.Itoa] / the [%d] verb;
    - [split_byte], [join], [contains], [has_prefix], [trim_space],
      [trim_right_byte] are the functions of package [strings];
    - [runes] is the conversion [[]rune(s)] (an ill-formed byte decodes to
      U+FFFD and advances by one), [string_of_runes] the conversion back;
    - [TruncateUTF8], [TruncateUTF8AtLineBoundary] and [HasVisibleContent]
      are the functions of package [strutil]. *)

From Stdlib Require Import ZArith Lia Ascii DecimalString.
From stdpp Require Import base list strings.
From S2P Require Import Prelude.

Local Open Scope Z_scope.
Local Open Scope sp4rk_scope.

(** ** Bytes *)

Definition byte_of (c : ascii) : Z := Z.of_N (N_of_ascii c).
Definition ascii_of (b : Z) : ascii := ascii_of_N (Z.to_N b).

Lemma byte_of_range c : 0 <= byte_of c < 256.
Proof. unfold byte_of. pose proof (N_ascii_bounded c). lia. Qed.

Lemma byte_of_ascii_of b : 0 <= b < 256 -> byte_of (ascii_of b) = b.
Proof.
  intros ?. unfold byte_of, ascii_of. rewrite N_ascii_embedding; lia.
Qed.

Lemma ascii_of_byte_of c : ascii_of (byte_of c) = c.
Proof. unfold byte_of, ascii_of. rewrite N2Z.id. apply ascii_N_embedding. Qed.

(** A newline, and a blank line between paragraphs. *)
Definition nl : string := String "010" "".
Definition nl2 : string := nl +s+ nl.

(** [len(s)] *)
Definition slen (s : string) : Z := Z.of_nat (String.length s).

Lemma slen_app a b : slen (a +s+ b) = slen a + slen b.
Proof.
  unfold slen. assert (String.length (a +s+ b) = String.length a + String.length b)%nat as ->; [|lia].
  induction a as [|c a IH]; [done|]. simpl. f_equal. apply IH.
Qed.

Lemma slen_nonneg s : 0 <= slen s.
Proof. unfold slen. lia. Qed.

Lemma sapp_assoc a b c : (a +s+ b) +s+ c = a +s+ (b +s+ c).
Proof. induction a as [|x a IH]; [done|]. unfold String.append in *. simpl. f_equal. apply IH. Qed.

Lemma sapp_nil_r a : a +s+ "" = a.
Proof. induction a as [|x a IH]; [done|]. unfold String.append in *. simpl. f_equal. apply IH. Qed.

(** ** Reversal *)

Lemma length_sapp a b : String.length (a +s+ b) = (String.length a + String.length b)%nat.
Proof. induction a as [|c a IH]; [done|]. simpl. by rewrite <- IH. Qed.

Lemma rev_app_rev s acc : String.rev_app s acc = String.rev s +s+ acc.
Proof.
  unfold String.rev. revert acc. induction s as [|c s IH]; intros acc; [done|]. cbn [String.rev_app].
  rewrite (IH (String c "")), IH, sapp_assoc. done.
Qed.
Lemma rev_cons c s : String.rev (String c s) = String.rev s +s+ String c "".
Proof. unfold String.rev at 1. cbn [String.rev_app]. apply rev_app_rev. Qed.
Lemma rev_sapp a b : String.rev (a +s+ b) = String.rev b +s+ String.rev a.
Proof.
  induction a as [|c a IH]; [by rewrite sapp_nil_r|].
  change (String c a +s+ b) with (String c (a +s+ b)). by rewrite !rev_cons, IH, sapp_assoc.
Qed.
Lemma rev_rev s : String.rev (String.rev s) = s.
Proof. induction s as [|c s IH]; [done|]. by rewrite rev_cons, rev_sapp, IH. Qed.

(** ** [strconv.Itoa] *)

Definition itoa (z : Z) : string := NilZero.string_of_int (Z.to_int z).

(** ** [strings.Split] on a one-byte separator, [strings.Join] *)

Fixpoint split_byte (sep : ascii) (s : string) : list string :=
  match s with
  | EmptyString => [EmptyString]
  | String c r =>
      if Ascii.eqb c sep then EmptyString :: split_byte sep r
      else match split_byte sep r with
           | [] => [String c EmptyString]
           | w :: ws => String c w :: ws
           end
  end.

Fixpoint join (sep : string) (l : list string) : string :=
  match l with
  | [] => ""
  | [x] => x
  | x :: r => x +s+ sep +s+ join sep r
  end.

Lemma split_byte_nonempty sep s : split_byte sep s <> [].
Proof.
  destruct s as [|c s]; simpl; [done|].
  destruct (Ascii.eqb c sep); [done|]. destruct (split_byte sep s); done.
Qed.

(** Splitting then joining on the same byte is the identity. *)
Lemma join_split sep s : join (String sep "") (split_byte sep s) = s.
Proof.
  induction s as [|c s IH]; [done|]. simpl.
  pose proof (split_byte_nonempty sep s) as Hne.
  destruct (split_byte sep s) as [|w ws] eqn:E; [done|].
  destruct (Ascii.eqb c sep) eqn:Ec.
  - apply Ascii.eqb_eq in Ec as ->. cbn [join]. unfold String.append. simpl.
    f_equal. exact IH.
  - destruct ws as [|w' ws]; cbn [join] in *; unfold String.append in *; simpl in *; congruence.
Qed.

(** ** Substring tests *)

Fixpoint has_prefix (s p : string) : bool :=
  match p, s with
  | EmptyString, _ => true
  | String _ _, EmptyString => false
  | String c p', String d s' => Ascii.eqb d c && has_prefix s' p'
  end.
Definition contains (s sub : string) : bool :=
  match String.index 0 sub s with Some _ => true | None => false end.
(** [s[:n]] and [s[n:]]. *)
Fixpoint str_drop (n : nat) (s : string) : string :=
  match n, s with
  | O, _ => s
  | S n', String _ r => str_drop n' r
  | S _, EmptyString => ""
  end.

Fixpoint take_str (n : nat) (s : string) : string :=
  match n, s with
  | O, _ => ""
  | S n', String c r => String c (take_str n' r)
  | S _, EmptyString => ""
  end.

Lemma take_drop_str n s : take_str n s +s+ str_drop n s = s.
Proof.
  revert s; induction n as [|n IH]; intros [|c s]; try done.
  unfold String.append in *. simpl. f_equal. apply IH.
Qed.

Lemma length_take_str n s : String.length (take_str n s) = Nat.min n (String.length s).
Proof. revert s; induction n as [|n IH]; intros [|c s]; simpl; auto. Qed.

Lemma has_prefix_take n s : has_prefix s (take_str n s) = true.
Proof.
  revert s; induction n as [|n IH]; intros [|c s]; simpl; auto.
  rewrite Ascii.eqb_refl. apply IH.
Qed.

Lemma has_prefix_spec s p : has_prefix s p = true <-> exists t, s = p +s+ t.
Proof.
  revert s; induction p as [|c p IH]; intros s; simpl.
  - split; [intros _; exists s; reflexivity|intros _; by destruct s].
  - destruct s as [|c' s].
    + split; [done|]. intros (t & Ht). discriminate Ht.
    + simpl. rewrite andb_true_iff, Ascii.eqb_eq, IH. split.
      * intros (-> & t & ->). exists t. reflexivity.
      * intros (t & Ht). injection Ht as -> ->. eauto.
Qed.

(** ** UTF-8

    The well-formed sequences of [unicode/utf8], byte class by byte class
    (the [first]/[acceptRanges] tables of that package). *)

Definition is_cont (b : Z) : bool := (128 <=? b) && (b <=? 191).

Definition utf8_2 (b0 b1 : Z) : bool :=
  (194 <=? b0) && (b0 <=? 223) && is_cont b1.

Definition utf8_3 (b0 b1 b2 : Z) : bool :=
  (((b0 =? 224) && (160 <=? b1) && (b1 <=? 191)) ||
   ((225 <=? b0) && (b0 <=? 236) && is_cont b1) ||
   ((b0 =? 237) && (128 <=? b1) && (b1 <=? 159)) ||
   ((238 <=? b0) && (b0 <=? 239) && is_cont b1)) && is_cont b2.

Definition utf8_4 (b0 b1 b2 b3 : Z) : bool :=
  (((b0 =? 240) && (144 <=? b1) && (b1 <=? 191)) ||
   ((241 <=? b0) && (b0 <=? 243) && is_cont b1) ||
   ((b0 =? 244) && (128 <=? b1) && (b1 <=? 143))) && is_cont b2 && is_cont b3.

(** U+FFFD, [utf8.RuneError]. *)
Definition rune_error : Z := 65533.

Definition rune2 (b0 b1 : Z) : Z := (b0 - 192) * 64 + (b1 - 128).
Definition rune3 (b0 b1 b2 : Z) : Z := (b0 - 224) * 4096 + (b1 - 128) * 64 + (b2 - 128).
Definition rune4 (b0 b1 b2 b3 : Z) : Z :=
  (b0 - 240) * 262144 + (b1 - 128) * 4096 + (b2 - 128) * 64 + (b3 - 128).

(** [[]rune(s)] *)
Fixpoint runes (s : string) : list Z :=
  match s with
  | EmptyString => []
  | String c0 s1 =>
      let b0 := byte_of c0 in
      if b0 <? 128 then b0 :: runes s1
      else match s1 with
      | EmptyString => [rune_error]
      | String c1 s2 =>
          let b1 := byte_of c1 in
          if utf8_2 b0 b1 then rune2 b0 b1 :: runes s2
          else match s2 with
          | EmptyString => rune_error :: runes s1
          | String c2 s3 =>
              let b2 := byte_of c2 in
              if utf8_3 b0 b1 b2 then rune3 b0 b1 b2 :: runes s3
              else match s3 with
              | EmptyString => rune_error :: runes s1
              | String c3 s4 =>
                  let b3 := byte_of c3 in
                  if utf8_4 b0 b1 b2 b3 then rune4 b0 b1 b2 b3 :: runes s4
                  else rune_error :: runes s1
              end
          end
      end
  end.

(** A Unicode scalar value: what [utf8.ValidRune] accepts. *)
Definition valid_rune (r : Z) : bool :=
  ((0 <=? r) && (r <? 55296)) || ((57344 <=? r) && (r <=? 1114111)).

(** The bytes [utf8.AppendRune] writes (an invalid rune writes U+FFFD). *)
Definition encode_rune (r : Z) : list Z :=
  if negb (valid_rune r) then [239; 191; 189]
  else if r <? 128 then [r]
  else if r <? 2048 then [192 + r / 64; 128 + r mod 64]
  else if r <? 65536 then [224 + r / 4096; 128 + (r / 64) mod 64; 128 + r mod 64]
  else [240 + r / 262144; 128 + (r / 4096) mod 64; 128 + (r / 64) mod 64; 128 + r mod 64].

Fixpoint string_of_bytes (l : list Z) : string :=
  match l with
  | [] => EmptyString
  | b :: r => String (ascii_of b) (string_of_bytes r)
  end.

(** [string(rs)] *)
Fixpoint string_of_runes (l : list Z) : string :=
  match l with
  | [] => EmptyString
  | r :: rs => string_of_bytes (encode_rune r) +s+ string_of_runes rs
  end.

(** [utf8.RuneCountInString(s)] *)
Definition rune_count (s : string) : Z := Z.of_nat (length (runes s)).

(** "…", U+2026. *)
Definition ellipsis : string := string_of_runes [8230].

Lemma string_of_bytes_app a b : string_of_bytes (a ++ b) = string_of_bytes a +s+ string_of_bytes b.
Proof. induction a as [|x a IH]; [done|]. simpl. unfold String.append in *. simpl. by rewrite IH. Qed.

Lemma string_of_runes_app a b : string_of_runes (a ++ b) = string_of_runes a +s+ string_of_runes b.
Proof. induction a as [|x a IH]; [done|]. simpl. by rewrite IH, sapp_assoc. Qed.

(** ** Round trip of the UTF-8 codec *)

Lemma valid_rune_range r : valid_rune r = true -> (0 <= r < 55296 \/ 57344 <= r <= 1114111).
Proof. unfold valid_rune. intros H. apply orb_true_iff in H as [H|H]; boolean; lia. Qed.

Ltac div_facts r k :=
  pose proof (Z.div_mod r k ltac:(lia)); pose proof (Z.mod_pos_bound r k ltac:(lia)).

Lemma runes_encode r s :
  valid_rune r = true -> runes (string_of_bytes (encode_rune r) +s+ s) = r :: runes s.
Proof.
  intros Hv. pose proof (valid_rune_range r Hv) as Hr.
  unfold encode_rune. rewrite Hv. simpl negb. cbn iota.
  destruct (r <? 128) eqn:E1; [|destruct (r <? 2048) eqn:E2; [|destruct (r <? 65536) eqn:E3]];
    boolean; unfold String.append; cbn [string_of_bytes runes]; fold String.append.
  - rewrite byte_of_ascii_of by lia.
    assert ((r <? 128) = true) as -> by (apply Z.ltb_lt; lia). done.
  - div_facts r 64. rewrite !byte_of_ascii_of by lia.
    assert ((192 + r / 64 <? 128) = false) as -> by (apply Z.ltb_ge; lia).
    assert (utf8_2 (192 + r / 64) (128 + r mod 64) = true) as ->.
    { unfold utf8_2, is_cont. rewrite !andb_true_iff, !Z.leb_le. lia. }
    f_equal. unfold rune2. lia.
  - div_facts r 64. div_facts r 4096. div_facts (r / 64) 64.
    assert (r / 64 / 64 = r / 4096) as Hd by (rewrite Z.div_div by lia; f_equal).
    rewrite !byte_of_ascii_of by lia.
    assert ((224 + r / 4096 <? 128) = false) as -> by (apply Z.ltb_ge; lia).
    assert (utf8_2 (224 + r / 4096) (128 + (r / 64) mod 64) = false) as ->.
    { unfold utf8_2, is_cont. rewrite !andb_false_iff, !Z.leb_gt. lia. }
    assert (utf8_3 (224 + r / 4096) (128 + (r / 64) mod 64) (128 + r mod 64) = true) as ->.
    { unfold utf8_3, is_cont.
      rewrite !andb_true_iff, !orb_true_iff, !andb_true_iff, !Z.leb_le, !Z.eqb_eq. lia. }
    f_equal. unfold rune3. lia.
  - div_facts r 64. div_facts r 4096. div_facts (r / 64) 64. div_facts (r / 4096) 64.
    assert (r / 64 / 64 = r / 4096) as Hd by (rewrite Z.div_div by lia; f_equal).
    assert (r / 4096 / 64 = r / 262144) as Hd' by (rewrite Z.div_div by lia; f_equal).
    rewrite !byte_of_ascii_of by lia.
    assert ((240 + r / 262144 <? 128) = false) as -> by (apply Z.ltb_ge; lia).
    assert (utf8_2 (240 + r / 262144) (128 + (r / 4096) mod 64) = false) as ->.
    { unfold utf8_2, is_cont. rewrite !andb_false_iff, !Z.leb_gt. lia. }
    assert (utf8_3 (240 + r / 262144) (128 + (r / 4096) mod 64) (128 + (r / 64) mod 64) = false) as ->.
    { unfold utf8_3, is_cont.
      rewrite !andb_false_iff, !orb_false_iff, !andb_false_iff, !Z.leb_gt, !Z.eqb_neq. lia. }
    assert (utf8_4 (240 + r / 262144) (128 + (r / 4096) mod 64) (128 + (r / 64) mod 64) (128 + r mod 64) = true) as ->.
    { unfold utf8_4, is_cont.
      rewrite !andb_true_iff, !orb_true_iff, !andb_true_iff, !Z.leb_le, !Z.eqb_eq. lia. }
    f_equal. unfold rune4. lia.
Qed.

(** Decoding what was encoded from valid runes gives them back. *)
Lemma runes_string_of_runes l :
  Forall (fun r => valid_rune r = true) l -> runes (string_of_runes l) = l.
Proof. induction 1 as [|r l Hr Hl IH]; [done|]. simpl. by rewrite runes_encode, IH. Qed.

Lemma rune2_valid b0 b1 : utf8_2 b0 b1 = true -> valid_rune (rune2 b0 b1) = true.
Proof.
  unfold utf8_2, is_cont, rune2, valid_rune. intros H. boolean.
  apply orb_true_iff; left. rewrite andb_true_iff, Z.leb_le, Z.ltb_lt. lia.
Qed.

Lemma rune3_valid b0 b1 b2 : utf8_3 b0 b1 b2 = true -> valid_rune (rune3 b0 b1 b2) = true.
Proof.
  unfold utf8_3, is_cont, rune3, valid_rune.
  rewrite !andb_true_iff, !orb_true_iff, !andb_true_iff, !Z.leb_le, !Z.ltb_lt, !Z.eqb_eq. lia.
Qed.

Lemma rune4_valid b0 b1 b2 b3 :
  utf8_4 b0 b1 b2 b3 = true -> valid_rune (rune4 b0 b1 b2 b3) = true.
Proof.
  unfold utf8_4, is_cont, rune4, valid_rune.
  rewrite !andb_true_iff, !orb_true_iff, !andb_true_iff, !Z.leb_le, !Z.ltb_lt, !Z.eqb_eq. lia.
Qed.

(** Every rune Go decodes is a valid rune (U+FFFD for ill-formed bytes). *)
Lemma runes_valid s : Forall (fun r => valid_rune r = true) (runes s).
Proof.
  remember (String.length s) as n eqn:Hn.
  revert s Hn; induction n as [n IH] using lt_wf_ind; intros s ->.
  destruct s as [|c0 s1]; [constructor|]. cbn [runes].
  assert (Forall (fun r => valid_rune r = true) (runes s1)) as H1 by (eapply IH; [|done]; simpl; lia).
  destruct (byte_of c0 <? 128) eqn:E0.
  { constructor; [|done]. boolean. pose proof (byte_of_range c0).
    unfold valid_rune. apply orb_true_iff; left. rewrite andb_true_iff, Z.leb_le, Z.ltb_lt. lia. }
  destruct s1 as [|c1 s2]; [by repeat constructor|].
  destruct (utf8_2 _ _) eqn:E2.
  { constructor; [by apply rune2_valid|]. eapply IH; [|done]. simpl; lia. }
  destruct s2 as [|c2 s3]; [by constructor|].
  destruct (utf8_3 _ _ _) eqn:E3.
  { constructor; [by apply rune3_valid|]. eapply IH; [|done]. simpl; lia. }
  destruct s3 as [|c3 s4]; [by constructor|].
  destruct (utf8_4 _ _ _ _) eqn:E4; [|by constructor].
  constructor; [by apply rune4_valid|]. eapply IH; [|done]. simpl; lia.
Qed.

(** ** Trimming

    [trim_left_by p1 p2 p3] drops the leading runes whose UTF-8 encoding is
    one of the byte sequences the three predicates accept (one, two and three
    bytes).  No accepted sequence is a prefix of an ill-formed one, so this is
    what Go's rune-by-rune [TrimLeftFunc] does; from the right, the predicates
    see the bytes of a sequence last first. *)

Fixpoint trim_left_by (p1 : Z -> bool) (p2 : Z -> Z -> bool) (p3 : Z -> Z -> Z -> bool)
    (s : string) : string :=
  match s with
  | EmptyString => EmptyString
  | String c0 s1 =>
      if p1 (byte_of c0) then trim_left_by p1 p2 p3 s1
      else match s1 with
      | EmptyString => s
      | String c1 s2 =>
          if p2 (byte_of c0) (byte_of c1) then trim_left_by p1 p2 p3 s2
          else match s2 with
          | EmptyString => s
          | String c2 s3 =>
              if p3 (byte_of c0) (byte_of c1) (byte_of c2) then trim_left_by p1 p2 p3 s3 else s
          end
      end
  end.

Definition trim_right_by (p1 : Z -> bool) (p2 : Z -> Z -> bool) (p3 : Z -> Z -> Z -> bool)
    (s : string) : string :=
  String.rev (trim_left_by p1 (fun a b => p2 b a) (fun a b c => p3 c b a) (String.rev s)).

(** [unicode.IsSpace] *)
Definition space1 (b : Z) : bool := ((9 <=? b) && (b <=? 13)) || (b =? 32).
Definition space2 (b0 b1 : Z) : bool := (b0 =? 194) && ((b1 =? 133) || (b1 =? 160)).
Definition space3 (b0 b1 b2 : Z) : bool :=
  ((b0 =? 225) && (b1 =? 154) && (b2 =? 128)) ||
  ((b0 =? 226) && (b1 =? 128) &&
     (((128 <=? b2) && (b2 <=? 138)) || (b2 =? 168) || (b2 =? 169) || (b2 =? 175))) ||
  ((b0 =? 226) && (b1 =? 129) && (b2 =? 159)) ||
  ((b0 =? 227) && (b1 =? 128) && (b2 =? 128)).

(** [strings.TrimSpace] *)
Definition trim_space (s : string) : string :=
  trim_right_by space1 space2 space3 (trim_left_by space1 space2 space3 s).

(** [strings.TrimRight(s, c)] for a one-byte cutset. *)
Definition trim_right_byte (c : ascii) (s : string) : string :=
  trim_right_by (fun b => b =? byte_of c) (fun _ _ => false) (fun _ _ _ => false) s.

(** ** Package [strutil] *)

(** The runes of [InvisibleTrimSet]: blanks, NUL, U+200B..U+200D, U+FEFF. *)
Definition invisible1 (b : Z) : bool :=
  (b =? 32) || (b =? 9) || (b =? 10) || (b =? 13) || (b =? 0) || (b =? 12) || (b =? 11).
Definition invisible3 (b0 b1 b2 : Z) : bool :=
  ((b0 =? 226) && (b1 =? 128) && ((b2 =? 139) || (b2 =? 140) || (b2 =? 141))) ||
  ((b0 =? 239) && (b1 =? 187) && (b2 =? 191)).

Definition trim_invisible (s : string) : string :=
  trim_right_by invisible1 (fun _ _ => false) invisible3 s.

Definition HasVisibleContent (s : string) : bool := negb (String.eqb (trim_invisible s) "").

Definition TruncateUTF8 (s : string) (maxChars : Z) : string :=
  if maxChars <=? 0 then ""
  else
    let rs := runes s in
    let runesLen := rune_count s in
    if runesLen <=? maxChars then s
    else if maxChars <=? 1 then string_of_runes (take (Z.to_nat maxChars) rs) +s+ ellipsis
    else string_of_runes (take (Z.to_nat (maxChars - 1)) rs) +s+ ellipsis.

(** The loop [for i := maxChars - 1; i >= 0; i--] looking for a newline:
    [k] is [i + 1]; the result is the length of the prefix kept. *)
Fixpoint last_newline (rs : list Z) (k : nat) : option nat :=
  match k with
  | O => None
  | S i => if bool_decide (rs !! i = Some 10) then Some (S i) else last_newline rs i
  end.

Definition TruncateUTF8AtLineBoundary (s : string) (maxChars : Z) : string :=
  if maxChars <=? 0 then ""
  else
    let rs := runes s in
    if Z.of_nat (length rs) <=? maxChars then s
    else match last_newline rs (Z.to_nat maxChars) with
         | Some k => string_of_runes (take k rs)
         | None => string_of_runes (take (Z.to_nat maxChars) rs)
         end.

(** ** Truncation bounds *)

Lemma runes_truncated s k :
  runes (string_of_runes (take k (runes s)) +s+ ellipsis) = take k (runes s) ++ [8230].
Proof.
  unfold ellipsis. rewrite <- string_of_runes_app. apply runes_string_of_runes.
  apply Forall_app; split; [|by repeat constructor].
  apply Forall_take, runes_valid.
Qed.

Lemma last_newline_spec rs k j :
  last_newline rs k = Some j ->
  (0 < j <= k)%nat /\ rs !! (j - 1)%nat = Some 10 /\ forall i, (j <= i < k)%nat -> rs !! i <> Some 10.
Proof.
  revert j; induction k as [|k IH]; intros j; simpl; [done|].
  case_bool_decide as Hd.
  - intros [= <-]. repeat split; [lia|lia| |].
    + by replace (S k - 1)%nat with k by lia.
    + intros i ?. lia.
  - intros H. destruct (IH j H) as (Hj & Hn & Hi). repeat split; [lia|lia|done|].
    intros i Hr. destruct (decide (i = k)) as [->|]; [done|]. apply Hi. lia.
Qed.

Lemma last_newline_none rs k :
  last_newline rs k = None -> forall i, (i < k)%nat -> rs !! i <> Some 10.
Proof.
  induction k as [|k IH]; simpl; [lia|]. case_bool_decide as Hd; [done|].
  intros H i Hi. destruct (decide (i = k)) as [->|]; [done|]. apply IH; [done|lia].
Qed.

(** A rune takes at least one byte. *)
Lemma rune_count_le_slen s : rune_count s <= slen s.
Proof.
  unfold rune_count, slen. remember (String.length s) as n eqn:Hn.
  revert s Hn; induction n as [n IH] using lt_wf_ind; intros s ->.
  assert (forall t, (String.length t < String.length s)%nat ->
            Z.of_nat (length (runes t)) <= Z.of_nat (String.length t)) as H by (intros; by eapply IH).
  clear IH. destruct s as [|c0 s1]; [done|]. simpl in *.
  pose proof (H s1 ltac:(lia)). destruct (byte_of c0 <? 128); [simpl; lia|].
  destruct s1 as [|c1 s2]; [simpl; lia|]. simpl in *.
  pose proof (H s2 ltac:(lia)). destruct (utf8_2 _ _); [simpl; lia|].
  destruct s2 as [|c2 s3]; [simpl in *; lia|]. simpl in *.
  pose proof (H s3 ltac:(lia)). destruct (utf8_3 _ _ _); [simpl; lia|].
  destruct s3 as [|c3 s4]; [simpl in *; lia|]. simpl in *.
  pose proof (H s4 ltac:(lia)). destruct (utf8_4 _ _ _ _); simpl in *; lia.
Qed.

(** ** Properties of [TruncateUTF8] *)

(** What the runes of the result are, on every branch. *)
Lemma TruncateUTF8_runes s m :
  runes (TruncateUTF8 s m) =
    if m <=? 0 then []
    else if rune_count s <=? m then runes s
    else take (Z.to_nat (Z.max 1 (m - 1))) (runes s) ++ [8230].
Proof.
  unfold TruncateUTF8.
  destruct (m <=? 0) eqn:E0; [done|]. destruct (rune_count s <=? m) eqn:E1; [done|].
  boolean. destruct (m <=? 1) eqn:E2; boolean; rewrite runes_truncated.
  - replace m with 1 by lia. done.
  - by replace (Z.max 1 (m - 1)) with (m - 1) by lia.
Qed.

(** [TruncateUTF8(s, maxChars)] with a cap of at least two returns a
    string of at most [maxChars] runes: [s] itself when it fits, and otherwise
    exactly [maxChars] runes, the first [maxChars - 1] runes of [s] followed
    by the ellipsis. *)
Theorem TruncateUTF8_bound s m (Hm : 2 <= m) :
  rune_count (TruncateUTF8 s m) <= m /\
  (rune_count s <= m -> TruncateUTF8 s m = s) /\
  (m < rune_count s ->
     rune_count (TruncateUTF8 s m) = m /\
     runes (TruncateUTF8 s m) = take (Z.to_nat (m - 1)) (runes s) ++ runes ellipsis).
Proof.
  assert (rune_count s <= m \/ m < rune_count s) as [Hle|Hgt] by lia.
  - assert (TruncateUTF8 s m = s) as ->; [|split; [done|split; [done|intros; exfalso; lia]]].
    unfold TruncateUTF8. by rewrite (proj2 (Z.leb_gt m 0)), (proj2 (Z.leb_le (rune_count s) m)) by lia.
  - assert (runes (TruncateUTF8 s m) = take (Z.to_nat (m - 1)) (runes s) ++ [8230]) as Hr.
    { rewrite TruncateUTF8_runes, (proj2 (Z.leb_gt m 0)), (proj2 (Z.leb_gt (rune_count s) m)) by lia.
      by rewrite Z.max_r by lia. }
    assert (rune_count (TruncateUTF8 s m) = m) as Hc.
    { unfold rune_count in *. rewrite Hr, length_app, length_take. simpl. lia. }
    split; [lia|]. split; [intros; exfalso; lia|]. intros _. split; [exact Hc|]. exact Hr.
Qed.

Lemma TruncateUTF8_bound_witness :
  2 <= 3 /\ rune_count (TruncateUTF8 "hello" 3) <= 3 /\
  TruncateUTF8 "hello" 3 = "he" +s+ ellipsis.
Proof.
  split; [lia|]. split; [exact (proj1 (TruncateUTF8_bound "hello" 3 ltac:(lia)))|].
  vm_compute. reflexivity.
Defined.

(** The cap, as the callers use it. *)
Lemma TruncateUTF8_cap s m : 2 <= m -> rune_count (TruncateUTF8 s m) <= m.
Proof.
  intros Hm. unfold rune_count. rewrite TruncateUTF8_runes.
  destruct (m <=? 0) eqn:E0; [simpl; lia|]. destruct (rune_count s <=? m) eqn:E1; boolean; [done|].
  rewrite length_app, length_take, Z.max_r by lia. change (length [8230]) with 1%nat. lia.
Qed.

(** The cap of one is not respected: the result has two runes. *)
Lemma TruncateUTF8_one_exceeds s :
  1 < rune_count s -> rune_count (TruncateUTF8 s 1) = 2.
Proof.
  intros H. unfold rune_count in *. rewrite TruncateUTF8_runes.
  unfold rune_count. rewrite (proj2 (Z.leb_gt (Z.of_nat (length (runes s))) 1)) by lia.
  change (Z.to_nat (Z.max 1 (1 - 1))) with 1%nat. change (1 <=? 0) with false. cbn iota.
  rewrite length_app, length_take. change (length [8230]) with 1%nat. lia.
Qed.

(** [TruncateUTF8AtLineBoundary(s, maxChars)] keeps a prefix of the runes
    of [s], never more than [maxChars] of them; a string that fits is returned
    whole; otherwise, when the first [maxChars] runes hold a newline, the
    result ends with the last one of them, and when they hold none the result
    is exactly [maxChars] runes. *)
Theorem TruncateUTF8AtLineBoundary_prefix s m (Hm : 0 < m) :
  exists k,
    runes (TruncateUTF8AtLineBoundary s m) = take k (runes s) /\
    (rune_count s <= m -> TruncateUTF8AtLineBoundary s m = s) /\
    rune_count (TruncateUTF8AtLineBoundary s m) <= m /\
    (m < rune_count s ->
       (k = Z.to_nat m /\ forall i, (i < k)%nat -> runes s !! i <> Some 10) \/
       ((0 < k <= Z.to_nat m)%nat /\ runes s !! (k - 1)%nat = Some 10 /\
        forall i, (k <= i < Z.to_nat m)%nat -> runes s !! i <> Some 10)).
Proof.
  unfold TruncateUTF8AtLineBoundary, rune_count.
  rewrite (proj2 (Z.leb_gt m 0)) by lia.
  assert (forall k, runes (string_of_runes (take k (runes s))) = take k (runes s)) as Hrt.
  { intros k. apply runes_string_of_runes, Forall_take, runes_valid. }
  destruct (Z.of_nat (length (runes s)) <=? m) eqn:E; boolean.
  - exists (length (runes s)). rewrite take_ge by done.
    split; [done|]. split; [done|]. split; [done|]. intros; exfalso; lia.
  - destruct (last_newline (runes s) (Z.to_nat m)) as [k|] eqn:Ek.
    + pose proof (last_newline_spec _ _ _ Ek) as (Hk & Hn & Hi).
      exists k. rewrite Hrt, length_take. split; [done|].
      split; [intros; exfalso; lia|]. split; [lia|]. intros _. right. auto.
    + exists (Z.to_nat m). rewrite Hrt, length_take. split; [done|].
      split; [intros; exfalso; lia|]. split; [lia|]. intros _. left. split; [done|]. by apply last_newline_none.
Qed.

Lemma TruncateUTF8AtLineBoundary_prefix_witness :
  0 < 4 /\ (exists k, runes (TruncateUTF8AtLineBoundary "ab" 4) = take k (runes "ab")).
Proof.
  split; [lia|].
  destruct (TruncateUTF8AtLineBoundary_prefix "ab" 4 ltac:(lia)) as (k & H & _).
  exists k. exact H.
Defined.
