(* ===== verification/Paths.v ===== *)
(** * File paths and containment (pathutil/pathutil.go)

    Resolution of symbolic links on paths that may not exist yet, and the test
    whether a path lies within a directory, on a POSIX host.  [path/filepath]'s
    Clean, Join and EvalSymlinks are written out on path components; the file
    system is [lstat], an argument.  [resolves] is the POSIX rule for walking a
    path; [EvalSymlinks_iff] says that EvalSymlinks is that rule with a limit on
    the links, [IsWithinPath_correct] that containment is containment of
    locations, not of spellings. *)

From Stdlib Require Import ZArith Lia Ascii.
From stdpp Require Import base gmap strings list.
From S2P Require Import Prelude GoStr.
Open Scope sp4rk_scope.

(** ** Path strings and their components *)

Definition slash : ascii := "/"%char.
Definition sep : string := String slash "".
Definition pieces (s : string) : list string := split_byte slash s.

(** A component that names an entry. *)
Definition is_slash (c : ascii) : bool := Ascii.eqb c slash.
Fixpoint has_char (p : ascii -> bool) (s : string) : bool :=
  match s with "" => false | String c r => p c || has_char p r end.
Definition ordinary (c : string) : bool :=
  negb (String.eqb c "" || String.eqb c "." || String.eqb c ".." || has_char is_slash c).

(** [..] climbs; at the root it stays, at the top of a relative path it is kept. *)
Definition climb (rooted : bool) (dest : list string) : list string :=
  match reverse dest with
  | [] => if rooted then [] else [".."]
  | c :: r => if String.eqb c ".." then dest ++ [".."] else reverse r
  end.

(** [filepath.Clean]. *)
Fixpoint clean_comps (rooted : bool) (dest comps : list string) : list string :=
  match comps with
  | [] => dest
  | c :: rest =>
      if String.eqb c "" || String.eqb c "." then clean_comps rooted dest rest
      else if String.eqb c ".." then clean_comps rooted (climb rooted dest) rest
      else clean_comps rooted (dest ++ [c]) rest
  end.
Definition path_string (rooted : bool) (l : list string) : string :=
  if rooted then sep +s+ join sep l else match l with [] => "." | _ => join sep l end.
Definition is_abs (p : string) : bool := has_prefix p sep.
Definition Clean (p : string) : string :=
  path_string (is_abs p) (clean_comps (is_abs p) [] (pieces p)).

(** [filepath.Join] of two elements. *)
Definition Join2 (a b : string) : string :=
  if String.eqb a "" then (if String.eqb b "" then "" else Clean b) else
  if String.eqb b "" then Clean a else Clean (a +s+ sep +s+ b).

(** [SplitPathComponents]; POSIX paths have no volume. *)
Definition SplitPathComponents (absPath : string) : list string :=
  List.filter (fun part => negb (String.eqb part "")) (pieces absPath).

(** ** The file system and [filepath.EvalSymlinks] *)

Inductive Stat := SDir | SFile | SLink (target : string) | SNoent | SErr.

(** [os.ErrNotExist], and every other error. *)
Inductive path_error := ENOENT | EOTHER.

Section fs.
(** [os.Lstat] and [os.Readlink] of a path given as its components, from the
    root or from the working directory. *)
Variable lstat : bool -> list string -> Stat.

(** The walk; [links] symbolic links may still be followed. *)
Fixpoint walk (links : nat) : bool -> list string -> list string -> (bool * list string) + path_error :=
  fix go (rooted : bool) (dest comps : list string) {struct comps} :=
    match comps with
    | [] => inl (rooted, dest)
    | c :: rest =>
        if String.eqb c "" || String.eqb c "." then go rooted dest rest
        else if String.eqb c ".." then go rooted (climb rooted dest) rest
        else
          match lstat rooted (dest ++ [c]) with
          | SNoent => inr ENOENT
          | SErr => inr EOTHER
          | SDir => go rooted (dest ++ [c]) rest
          | SFile => match rest with [] => inl (rooted, dest ++ [c]) | _ => inr EOTHER end
          | SLink target =>
              match links with
              | O => inr EOTHER
              | S links =>
                  if is_abs target then walk links true [] (pieces target ++ rest)
                  else walk links rooted dest (pieces target ++ rest)
              end
          end
    end.

Definition maxLinks : nat := 255.
Definition eval_comps (p : string) : (bool * list string) + path_error := walk maxLinks (is_abs p) [] (pieces p).
Definition EvalSymlinks (p : string) : string + path_error :=
  match eval_comps p with
  | inl (rooted, l) => inl (path_string rooted l)
  | inr e => inr e
  end.

(** ** [pathutil] *)

(** The end of a candidate path: [rawParent] cuts the last component, the run
    of separators before it, but not the root. *)
Fixpoint cut_back (rev : string) : string :=
  match rev with
  | "" => ""
  | String c r => if is_slash c then rev else cut_back r
  end.
Fixpoint drop_slashes (rev : string) : string :=
  match rev with
  | "" => ""
  | String c r => if is_slash c then drop_slashes r else rev
  end.
Definition rawParent (candidate : string) : option string :=
  match cut_back (String.rev candidate) with
  | "" => None
  | r => match String.rev (drop_slashes r) with "" => Some sep | p => Some p end
  end.

(** [ResolveExistingPrefix]: the loop takes one unit of fuel per candidate;
    [None] is out of fuel, which [ResolveExistingPrefix_spec] excludes. *)
Fixpoint resolve_loop (fuel : nat) (path candidate : string) : option string :=
  match fuel with
  | O => None
  | S fuel =>
      match EvalSymlinks candidate with
      | inl resolved =>
          Some (if String.eqb candidate path then resolved
                else Join2 resolved (str_drop (String.length candidate) path))
      | inr ENOENT =>
          match rawParent candidate with
          | None => Some path
          | Some parent => resolve_loop fuel path parent
          end
      | inr EOTHER => Some path
      end
  end.
Definition ResolveExistingPrefix (path : string) : string :=
  default path (resolve_loop (S (String.length path)) path path).

(** [isWithinPath]; [None] is the error.  [to_lower] is [strings.ToLower]. *)
Variable to_lower : string -> string.

Definition has_suffix_sep (s : string) : bool :=
  match String.rev s with String c _ => is_slash c | "" => false end.
Definition isWithinPath (parent child : string) (fold : bool) : option bool :=
  if String.eqb parent "" then None
  else
    let low s := if fold then to_lower s else s in
    let parentResolved := low (ResolveExistingPrefix (Clean parent)) in
    let childResolved := low (ResolveExistingPrefix child) in
    let parentResolved := if has_suffix_sep parentResolved then parentResolved else parentResolved +s+ sep in
    Some (String.eqb childResolved (take_str (String.length parentResolved - 1) parentResolved)
          || has_prefix childResolved parentResolved).
Definition IsWithinPath (parent child : string) : option bool := isWithinPath parent child false.
Definition IsWithinPathFold (parent child : string) : option bool := isWithinPath parent child true.

End fs.

(** [DetectCaseInsensitive]: the directories that exist, and the probe; the
    memo is the state. *)
Section probe.
Variable is_dir : string -> bool.
Variable probe : string -> bool.

Definition Dir (p : string) : string :=
  match cut_back (String.rev p) with
  | "" => "."
  | r => Clean (String.rev r)
  end.
Fixpoint existingAncestorDir (fuel : nat) (dir : string) : option string :=
  match fuel with
  | O => None
  | S fuel =>
      if is_dir dir then Some dir
      else if String.eqb (Dir dir) dir then None else existingAncestorDir fuel (Dir dir)
  end.

(** The answer, the memo, and the directories probed. *)
Definition DetectCaseInsensitive (known : gmap string bool) (dir : string) : bool * gmap string bool * list string :=
  match existingAncestorDir (S (S (String.length (Clean dir)))) (Clean dir) with
  | None => (false, known, [])
  | Some probeDir =>
      match known !! probeDir with
      | Some ci => (ci, known, [])
      | None => (probe probeDir, <[probeDir := probe probeDir]> known, [probeDir])
      end
  end.
End probe.

(** ** Components *)

Lemma pieces_sep a b : pieces (a +s+ sep +s+ b) = pieces a ++ pieces b.
Proof.
  unfold pieces. induction a as [|c a IH]; [done|].
  change (String c a +s+ sep +s+ b) with (String c (a +s+ sep +s+ b)). cbn [split_byte].
  destruct (Ascii.eqb c slash); [by rewrite IH|]. rewrite IH.
  destruct (split_byte slash a) as [|w ws] eqn:E; [by apply split_byte_nonempty in E|done].
Qed.
Lemma has_char_app p a b : has_char p (a +s+ b) = has_char p a || has_char p b.
Proof. induction a as [|c a IH]; [done|]. simpl. by rewrite <- orb_assoc, <- IH. Qed.
Lemma pieces_slash_free s : Forall (fun c => has_char is_slash c = false) (pieces s).
Proof.
  unfold pieces. induction s as [|c s IH]; [by repeat constructor|]. cbn [split_byte].
  destruct (Ascii.eqb c slash) eqn:E; [by constructor|].
  destruct (split_byte slash s) as [|w ws]; [constructor; [|done]|].
  - simpl. unfold is_slash. by rewrite E.
  - inversion IH; subst. constructor; [|done]. simpl. unfold is_slash at 1. by rewrite E.
Qed.
Lemma pieces_word c : has_char is_slash c = false -> pieces c = [c].
Proof.
  unfold pieces. induction c as [|x c IH]; [done|]. cbn [has_char split_byte]. unfold is_slash at 1.
  destruct (Ascii.eqb x slash); [done|]. intros H. by rewrite IH.
Qed.
Lemma pieces_join l : l <> [] -> Forall (fun c => has_char is_slash c = false) l -> pieces (join sep l) = l.
Proof.
  induction l as [|c [|d l] IH]; intros Hne Hl; [done| |].
  - apply pieces_word. by inversion Hl.
  - inversion Hl; subst. change (join sep (c :: d :: l)) with (c +s+ sep +s+ join sep (d :: l)).
    rewrite pieces_sep, (pieces_word c), IH; done.
Qed.

Lemma ordinary_slash_free c : ordinary c = true -> has_char is_slash c = false.
Proof. unfold ordinary. rewrite negb_true_iff, !orb_false_iff. tauto. Qed.
Lemma ordinary_names l : Forall (fun c => ordinary c = true) l -> Forall (fun c => has_char is_slash c = false) l.
Proof. intros H. eapply Forall_impl; [exact H|]. apply ordinary_slash_free. Qed.
Lemma ordinary_intro c :
  String.eqb c "" || String.eqb c "." = false -> String.eqb c ".." = false -> has_char is_slash c = false ->
  ordinary c = true.
Proof. intros H1 H2 H3. unfold ordinary. by rewrite H1, H2, H3. Qed.
Lemma ordinary_tests c :
  ordinary c = true -> String.eqb c "" || String.eqb c "." = false /\ String.eqb c ".." = false.
Proof. unfold ordinary. rewrite negb_true_iff, !orb_false_iff. tauto. Qed.

Lemma climb_spec rooted l c :
  ordinary c = true -> climb rooted (l ++ [c]) = l.
Proof.
  intros [_ H]%ordinary_tests. unfold climb. rewrite reverse_app. simpl. rewrite H. apply reverse_involutive.
Qed.
Lemma climb_ordinary l :
  Forall (fun c => ordinary c = true) l -> exists k, climb true l = take k l.
Proof.
  intros Hl. destruct l as [|x l _] using rev_ind; [by exists 0%nat|].
  apply Forall_app in Hl as [Hl Hx]. inversion Hx; subst. exists (length l).
  rewrite climb_spec by done. by rewrite take_app_length.
Qed.

Lemma clean_comps_app rooted d a b :
  clean_comps rooted d (a ++ b) = clean_comps rooted (clean_comps rooted d a) b.
Proof. revert d. induction a as [|c a IH]; intros d; [done|]. simpl. repeat case_match; apply IH. Qed.
Lemma clean_comps_ordinary rooted d l :
  Forall (fun c => ordinary c = true) l -> clean_comps rooted d l = d ++ l.
Proof.
  revert d. induction l as [|c l IH]; intros d Hl; [by rewrite app_nil_r|]. inversion Hl as [|?? Hc Hl']; subst.
  apply ordinary_tests in Hc as [H1 H2]. simpl. rewrite H1, H2, IH by done. by rewrite <- app_assoc.
Qed.
Lemma clean_comps_result d l :
  Forall (fun c => ordinary c = true) d -> Forall (fun c => has_char is_slash c = false) l ->
  Forall (fun c => ordinary c = true) (clean_comps true d l).
Proof.
  revert d. induction l as [|c l IH]; intros d Hd Hl; [done|]. inversion Hl; subst. simpl.
  destruct (String.eqb c "" || String.eqb c ".") eqn:E1; [by apply IH|].
  destruct (String.eqb c "..") eqn:E2; apply IH; try done.
  - destruct (climb_ordinary d Hd) as [k ->]. by apply Forall_take.
  - apply Forall_app. split; [done|]. constructor; [|done]. by apply ordinary_intro.
Qed.

(** An absolute path of ordinary components. *)
Notation root_path := (path_string true).
Lemma pieces_root_path d l :
  Forall (fun c => ordinary c = true) l -> clean_comps true d (pieces (root_path l)) = d ++ l.
Proof.
  intros Hl. unfold path_string. change (sep +s+ join sep l) with ("" +s+ sep +s+ join sep l).
  rewrite pieces_sep. change (pieces "") with [""]. simpl.
  destruct l as [|c l]; [by rewrite app_nil_r|].
  rewrite pieces_join by (done || by apply ordinary_names). by apply clean_comps_ordinary.
Qed.
Lemma has_prefix_nil s : has_prefix s "" = true.
Proof. by destruct s. Qed.
Lemma is_abs_root l s : is_abs (root_path l +s+ s) = true.
Proof. unfold is_abs, path_string. rewrite sapp_assoc. simpl. apply has_prefix_nil. Qed.
Lemma root_abs l : is_abs (root_path l) = true.
Proof. rewrite <- (sapp_nil_r (root_path l)). apply is_abs_root. Qed.
Lemma Join2_root l rest :
  rest <> "" -> Forall (fun c => ordinary c = true) l ->
  Join2 (root_path l) rest = root_path (clean_comps true l (pieces rest)).
Proof.
  intros Hr Hl. unfold Join2. change (String.eqb (root_path l) "") with false. cbv iota.
  rewrite (proj2 (String.eqb_neq rest "") Hr). unfold Clean.
  rewrite is_abs_root, pieces_sep, clean_comps_app, pieces_root_path by done. done.
Qed.

(** ** Prefixes of spellings and of component lists *)

Fixpoint slashes (l : list string) : string :=
  match l with [] => "" | c :: l => sep +s+ c +s+ slashes l end.
Lemma root_path_slashes l : l <> [] -> root_path l = slashes l.
Proof.
  unfold path_string. induction l as [|c [|d l] IH]; intros Hne; [done| |].
  - cbn. by rewrite sapp_nil_r.
  - change (join sep (c :: d :: l)) with (c +s+ sep +s+ join sep (d :: l)).
    change (slashes (c :: d :: l)) with (sep +s+ c +s+ slashes (d :: l)). by rewrite <- IH.
Qed.
Lemma word_prefix c d x y :
  has_char is_slash c = false -> has_char is_slash d = false -> (y = "" \/ has_prefix y sep = true) ->
  has_prefix (d +s+ y) (c +s+ sep +s+ x) = String.eqb c d && has_prefix y (sep +s+ x).
Proof.
  revert d. induction c as [|a c IH]; intros d Hc Hd Hy.
  - destruct d as [|b d]; [done|]. change ("" +s+ sep +s+ x) with (sep +s+ x).
    simpl in *. unfold is_slash in Hd. apply orb_false_iff in Hd as [Hb _]. by rewrite Hb.
  - simpl in Hc. apply orb_false_iff in Hc as [Ha Hc]. destruct d as [|b d].
    + destruct Hy as [->|Hy]; [done|]. destruct y as [|b y]; [done|]. simpl in *.
      destruct (Ascii.eqb_spec b slash) as [->|]; [|done]. unfold is_slash in Ha.
      rewrite Ascii.eqb_sym. by rewrite Ha.
    + simpl in Hd. apply orb_false_iff in Hd as [Hb Hd]. simpl.
      change ((c ++ String slash x)%string) with (c +s+ sep +s+ x). rewrite (IH d) by done.
      rewrite (Ascii.eqb_sym b a). destruct (Ascii.eqb a b) eqn:E; [|done]. done.
Qed.
Lemma slashes_start l : slashes l = "" \/ has_prefix (slashes l) sep = true.
Proof. destruct l; [by left|right; apply has_prefix_nil]. Qed.
Lemma prefix_sep x y : has_prefix (sep +s+ x) (sep +s+ y) = has_prefix x y.
Proof. done. Qed.
Lemma slashes_prefix a b :
  Forall (fun c => has_char is_slash c = false) a -> Forall (fun c => has_char is_slash c = false) b ->
  has_prefix (slashes b) (slashes a +s+ sep) = true <-> exists c r, b = a ++ c :: r.
Proof.
  revert b. induction a as [|c a IH]; intros b Ha Hb.
  - destruct b as [|d b]; simpl; [split; [done|by intros (? & ? & ?)]|].
    split; [by eauto|intros _; apply has_prefix_nil].
  - inversion Ha as [|?? Hc Ha']; subst. destruct b as [|d b]; [simpl; split; [done|by intros (? & ? & ?)]|].
    inversion Hb as [|?? Hd Hb']; subst. cbn [slashes].
    rewrite !sapp_assoc, prefix_sep.
    assert (Hx : exists x, slashes a +s+ sep = sep +s+ x).
    { destruct a as [|e a]; [by exists ""|]. cbn [slashes]. rewrite sapp_assoc. eauto. }
    destruct Hx as [x Hx].
    rewrite Hx, word_prefix, andb_true_iff, String.eqb_eq, <- Hx by (done || apply slashes_start).
    rewrite IH by done. split.
    + intros (-> & e & r & ->). eauto.
    + intros (e & r & [= -> ->]). eauto.
Qed.
Lemma root_path_inj a b :
  Forall (fun c => ordinary c = true) a -> Forall (fun c => ordinary c = true) b -> root_path a = root_path b -> a = b.
Proof.
  intros Ha Hb H. pose proof (pieces_root_path [] a Ha) as H1. pose proof (pieces_root_path [] b Hb) as H2.
  rewrite H in H1. by rewrite H1 in H2.
Qed.

(** ** What the walk does *)

(** The POSIX rule: the current directory, the components left, the links
    followed and the place reached. *)
Inductive resolves (lstat : bool -> list string -> Stat) :
    nat -> bool -> list string -> list string -> bool * list string -> Prop :=
| rs_done rooted dest : resolves lstat 0 rooted dest [] (rooted, dest)
| rs_stay n rooted dest c rest out :
    String.eqb c "" || String.eqb c "." = true -> resolves lstat n rooted dest rest out ->
    resolves lstat n rooted dest (c :: rest) out
| rs_up n rooted dest rest out :
    resolves lstat n rooted (climb rooted dest) rest out -> resolves lstat n rooted dest (".." :: rest) out
| rs_dir n rooted dest c rest out :
    String.eqb c "" || String.eqb c "." = false -> c <> ".." -> lstat rooted (dest ++ [c]) = SDir ->
    resolves lstat n rooted (dest ++ [c]) rest out -> resolves lstat n rooted dest (c :: rest) out
| rs_file rooted dest c :
    String.eqb c "" || String.eqb c "." = false -> c <> ".." -> lstat rooted (dest ++ [c]) = SFile ->
    resolves lstat 0 rooted dest [c] (rooted, dest ++ [c])
| rs_link n rooted dest c rest target out :
    String.eqb c "" || String.eqb c "." = false -> c <> ".." -> lstat rooted (dest ++ [c]) = SLink target ->
    resolves lstat n (is_abs target || rooted) (if is_abs target then [] else dest) (pieces target ++ rest) out ->
    resolves lstat (S n) rooted dest (c :: rest) out.

Section walk.
Context (lstat : bool -> list string -> Stat).

Lemma walk_nil links rooted dest : walk lstat links rooted dest [] = inl (rooted, dest).
Proof. by destruct links. Qed.
Lemma walk_cons links rooted dest c rest :
  walk lstat links rooted dest (c :: rest) =
  if String.eqb c "" || String.eqb c "." then walk lstat links rooted dest rest
  else if String.eqb c ".." then walk lstat links rooted (climb rooted dest) rest
  else
    match lstat rooted (dest ++ [c]) with
    | SNoent => inr ENOENT
    | SErr => inr EOTHER
    | SDir => walk lstat links rooted (dest ++ [c]) rest
    | SFile => match rest with [] => inl (rooted, dest ++ [c]) | _ => inr EOTHER end
    | SLink target =>
        match links with
        | O => inr EOTHER
        | S links =>
            if is_abs target then walk lstat links true [] (pieces target ++ rest)
            else walk lstat links rooted dest (pieces target ++ rest)
        end
    end.
Proof. by destruct links. Qed.

Lemma walk_resolves links rooted dest comps out :
  walk lstat links rooted dest comps = inl out -> exists n, (n <= links)%nat /\ resolves lstat n rooted dest comps out.
Proof.
  revert rooted dest comps. induction links as [|links IHl]; intros rooted dest comps;
    revert rooted dest; induction comps as [|c rest IH]; intros rooted dest;
    try (rewrite walk_nil; intros [= <-]; exists 0%nat; split; [lia|constructor]);
    rewrite walk_cons;
    destruct (String.eqb c "" || String.eqb c ".") eqn:E1;
    try (intros (n & ? & ?)%IH; exists n; split; [done|by apply rs_stay]);
    destruct (String.eqb_spec c "..") as [->|E2];
    try (intros (n & ? & ?)%IH; exists n; split; [done|by apply rs_up]);
    destruct (lstat rooted (dest ++ [c])) as [| |target| |] eqn:E3; try done;
    try (intros (n & ? & ?)%IH; exists n; split; [done|by apply rs_dir]);
    try (destruct rest; [intros [= <-]; exists 0%nat; split; [lia|by apply rs_file]|done]).
  destruct (is_abs target) eqn:E4; intros (n & ? & ?)%IHl; exists (S n); (split; [lia|]);
    (by eapply rs_link; [..|rewrite E4]).
Qed.
Lemma resolves_walk n rooted dest comps out links :
  resolves lstat n rooted dest comps out -> (n <= links)%nat -> walk lstat links rooted dest comps = inl out.
Proof.
  intros H. revert links. induction H as [|n rooted dest c rest out H1 _ IH|n rooted dest rest out _ IH
    |n rooted dest c rest out H1 H2 H3 _ IH|rooted dest c H1 H2 H3|n rooted dest c rest target out H1 H2 H3 _ IH]; intros links Hn.
  - apply walk_nil.
  - rewrite walk_cons, H1. auto.
  - rewrite walk_cons. simpl. auto.
  - rewrite walk_cons, H1, (proj2 (String.eqb_neq _ _) H2), H3. auto.
  - rewrite walk_cons, H1, (proj2 (String.eqb_neq _ _) H2), H3. done.
  - rewrite walk_cons, H1, (proj2 (String.eqb_neq _ _) H2), H3. destruct links as [|links]; [lia|].
    destruct (is_abs target); apply IH; lia.
Qed.

(** A place without symbolic links: every component is a directory, the last
    one perhaps a file. *)
Definition dirs (l : list string) : Prop :=
  forall a b, l = a ++ b -> a <> [] -> lstat true a = SDir.
Definition physical (l : list string) : Prop :=
  Forall (fun c => ordinary c = true) l /\
  (dirs l \/ exists d c, l = d ++ [c] /\ dirs d /\ lstat true l = SFile).

Lemma dirs_nil : dirs [].
Proof. intros [|? ?] b H Hne; done. Qed.
Lemma dirs_take k l : dirs l -> dirs (take k l).
Proof. intros H a b Hl Hne. apply (H a (b ++ drop k l)); [|done]. by rewrite app_assoc, <- Hl, take_drop. Qed.
Lemma dirs_snoc l c : dirs l -> lstat true (l ++ [c]) = SDir -> dirs (l ++ [c]).
Proof.
  intros H Hc a b Hl Hne. destruct b as [|x b _] using rev_ind.
  - rewrite app_nil_r in Hl. by subst.
  - rewrite app_assoc in Hl. apply app_inj_tail in Hl as [Hl _]. by eapply H.
Qed.

Lemma resolves_physical n rooted dest comps out :
  resolves lstat n rooted dest comps out ->
  rooted = true -> dirs dest -> Forall (fun c => ordinary c = true) dest ->
  Forall (fun c => has_char is_slash c = false) comps ->
  exists l, out = (true, l) /\ physical l.
Proof.
  induction 1 as [rooted dest|n rooted dest c rest out H1 _ IH|n rooted dest rest out _ IH
    |n rooted dest c rest out H1 H2 H3 _ IH|rooted dest c H1 H2 H3|n rooted dest c rest target out H1 H2 H3 _ IH];
    intros -> Hd Ho Hs.
  - exists dest. split; [done|]. split; [done|by left].
  - inversion Hs; subst. by apply IH.
  - inversion Hs; subst. destruct (climb_ordinary dest Ho) as [k Hk]. rewrite Hk in IH.
    apply IH; [done|by apply dirs_take|by apply Forall_take|done].
  - inversion Hs; subst. apply IH; [done|by apply dirs_snoc| |done].
    apply Forall_app. split; [done|]. constructor; [|done]. apply ordinary_intro; try done. by apply String.eqb_neq.
  - inversion Hs; subst. exists (dest ++ [c]). split; [done|]. split.
    + apply Forall_app. split; [done|]. constructor; [|done]. apply ordinary_intro; try done. by apply String.eqb_neq.
    + right. by exists dest, c.
  - inversion Hs; subst. assert (Forall (fun c => has_char is_slash c = false) (pieces target ++ rest))
      by (apply Forall_app; split; [apply pieces_slash_free|done]).
    apply IH; [by apply orb_true_r|destruct (is_abs target); [apply dirs_nil|done]|by destruct (is_abs target)|done].
Qed.

Lemma eval_comps_walk p : eval_comps lstat p = walk lstat maxLinks (is_abs p) [] (pieces p).
Proof. reflexivity. Qed.
Lemma eval_physical p rooted l :
  is_abs p = true -> eval_comps lstat p = inl (rooted, l) -> rooted = true /\ physical l.
Proof.
  intros Ha He. rewrite eval_comps_walk, Ha in He. apply walk_resolves in He as (n & _ & He).
  destruct (resolves_physical _ _ _ _ _ He) as (l' & [= -> ->] & Hp);
    [reflexivity|apply dirs_nil|apply Forall_nil_2|apply pieces_slash_free|split; [reflexivity|exact Hp]].
Qed.

(** ** Where a path that may not exist yet is *)

(** The deepest spelling in front that resolves, followed by the rest of the
    components; [blocked]: one of the spellings tried fails for another reason
    than absence. *)
Inductive located_from (path : string) : string -> list string -> Prop :=
| loc_here cand rest l :
    path = cand +s+ rest -> eval_comps lstat cand = inl (true, l) ->
    located_from path cand (clean_comps true l (pieces rest))
| loc_up cand p l :
    eval_comps lstat cand = inr ENOENT -> rawParent cand = Some p -> located_from path p l ->
    located_from path cand l.
Definition located (path : string) : list string -> Prop := located_from path path.

Inductive blocked_from : string -> Prop :=
| blocked_here cand : eval_comps lstat cand = inr EOTHER -> blocked_from cand
| blocked_up cand p : eval_comps lstat cand = inr ENOENT -> rawParent cand = Some p -> blocked_from p -> blocked_from cand.

Definition blocked (path : string) : Prop := blocked_from path.

Lemma cut_back_spec s : exists x, s = x +s+ cut_back s /\ (cut_back s = "" \/ exists r, cut_back s = String slash r).
Proof.
  induction s as [|c s (x & Hx & IH)]; [exists ""; auto|]. cbn [cut_back].
  destruct (is_slash c) eqn:E.
  - exists "". split; [done|]. right. exists s. apply Ascii.eqb_eq in E. by subst.
  - exists (String c x). split; [exact (f_equal (String c) Hx)|done].
Qed.
Lemma drop_slashes_spec s :
  exists x, s = x +s+ drop_slashes s /\ String.rev x = x /\ (x = "" \/ is_abs x = true).
Proof.
  assert (H : exists n, s = Nat.iter n (String slash) "" +s+ drop_slashes s).
  { induction s as [|c s [n Hn]]; [by exists 0%nat|]. cbn [drop_slashes]. destruct (is_slash c) eqn:E; [|by exists 0%nat].
    apply Ascii.eqb_eq in E as ->. exists (S n). exact (f_equal (String slash) Hn). }
  destruct H as [n Hn]. exists (Nat.iter n (String slash) ""). split; [done|].
  assert (Hsnoc : forall n, Nat.iter n (String slash) "" +s+ sep = String slash (Nat.iter n (String slash) "")).
  { intros m. induction m as [|m IH]; [done|]. exact (f_equal (String slash) IH). }
  split.
  - clear Hn. induction n as [|n IH]; [done|]. simpl. rewrite rev_cons, IH. apply Hsnoc.
  - destruct n; [by left|right]. simpl. apply has_prefix_nil.
Qed.
Lemma is_abs_app p r : p <> "" -> is_abs (p +s+ r) = is_abs p.
Proof. destruct p as [|c p]; [done|]. intros _. unfold is_abs. simpl. by rewrite !has_prefix_nil. Qed.
Lemma is_abs_spec s : is_abs s = true -> exists t, s = sep +s+ t.
Proof. unfold is_abs. rewrite has_prefix_spec. done. Qed.
Lemma length_rev s : String.length (String.rev s) = String.length s.
Proof. induction s as [|b s IH]; [done|]. rewrite rev_cons, length_sapp, IH. simpl. lia. Qed.
Lemma rawParent_spec c p :
  rawParent c = Some p ->
  (exists rest, c = p +s+ rest) /\ (c = sep \/ (String.length p < String.length c)%nat) /\ p <> "" /\
  is_abs p = is_abs c.
Proof.
  unfold rawParent. destruct (cut_back_spec (String.rev c)) as (x & Hx & Hr).
  apply (f_equal String.rev) in Hx. rewrite rev_rev, rev_sapp in Hx.
  destruct (cut_back (String.rev c)) as [|a r]; [done|]. destruct Hr as [?|[r' [= -> <-]]]; [done|].
  destruct (drop_slashes_spec (String slash r)) as (y & Hy & Hyr & Hya).
  set (d := drop_slashes (String slash r)) in *.
  rewrite Hy, rev_sapp, Hyr, sapp_assoc in Hx.
  assert (Hy0 : y <> "").
  { intros ->. change (String slash r = d) in Hy. unfold d in Hy. cbn [drop_slashes] in Hy.
    change (is_slash slash) with true in Hy. cbv iota in Hy.
    destruct (drop_slashes_spec r) as (z & Hz & _). apply (f_equal String.length) in Hy, Hz.
    rewrite length_sapp in Hz. simpl in Hy. lia. }
  destruct Hya as [?|Hya]; [done|].
  destruct (String.rev d) as [|b p'] eqn:Ed; intros [= <-].
  - destruct (is_abs_spec _ Hya) as [t ->]. rewrite sapp_assoc in Hx. simpl in Hx.
    split; [by eexists|]. subst c. split; [|split; [done|]].
    + destruct (t +s+ String.rev x) eqn:E; [by left|right; simpl; lia].
    + unfold is_abs. simpl. by rewrite has_prefix_nil.
  - split; [eauto|]. split; [right|split; [done|]].
    + rewrite Hx, !length_sapp. destruct y; [done|]. simpl. lia.
    + subst c. by rewrite is_abs_app.
Qed.

Lemma sapp_cancel_l p a b : p +s+ a = p +s+ b -> a = b.
Proof. induction p as [|c p IH]; [done|]. intros H. apply IH. by injection H. Qed.
Lemma str_drop_app p r : str_drop (String.length p) (p +s+ r) = r.
Proof. induction p as [|c p IH]; [by destruct r|]. exact IH. Qed.
Lemma eval_root : eval_comps lstat sep = inl (true, []).
Proof.
  rewrite eval_comps_walk. change (is_abs sep) with true. change (pieces sep) with [""; ""].
  rewrite !walk_cons. change (String.eqb "" "" || String.eqb "" ".") with true. cbv iota. apply walk_nil.
Qed.

(** A candidate is in front of the path, which is absolute. *)
Definition candidate (path c : string) : Prop :=
  (exists rest, path = c +s+ rest) /\ is_abs c = true /\ c <> "".
Lemma candidate_self path : is_abs path = true -> candidate path path.
Proof. intros Ha. split; [exists ""; by rewrite sapp_nil_r|]. split; [done|]. by intros ->. Qed.
Lemma candidate_parent path c p :
  candidate path c -> rawParent c = Some p ->
  candidate path p /\ (c = sep \/ (String.length p < String.length c)%nat).
Proof.
  intros ((r & ->) & Ha & Hn) Hp. destruct (rawParent_spec _ _ Hp) as ((r' & ->) & Hl & Hne & Hab).
  split; [|done]. split; [|split; [by rewrite Hab|done]]. exists (r' +s+ r). by rewrite sapp_assoc.
Qed.
Lemma rawParent_abs c : is_abs c = true -> exists p, rawParent c = Some p.
Proof.
  intros Ha. unfold rawParent. destruct (cut_back_spec (String.rev c)) as (x & Hx & Hr).
  destruct Hr as [Hr|[r ->]]; [|destruct (String.rev (drop_slashes _)); eauto].
  exfalso. destruct (is_abs_spec _ Ha) as [t ->].
  assert (H : forall s, has_char is_slash s = true -> cut_back s <> "").
  { intros s. induction s as [|a s IH]; [done|]. cbn [has_char cut_back]. by destruct (is_slash a). }
  eapply H, Hr. rewrite rev_sapp, has_char_app. apply orb_true_r.
Qed.

Lemma resolve_loop_abs fuel path cand :
  candidate path cand -> (String.length cand < fuel)%nat ->
  (exists l, located_from path cand l /\ Forall (fun c => ordinary c = true) l /\
     resolve_loop lstat fuel path cand = Some (root_path l)) \/
  (blocked_from cand /\ resolve_loop lstat fuel path cand = Some path).
Proof.
  revert cand. induction fuel as [|fuel IH]; intros cand Hc Hf; [lia|].
  pose proof Hc as ((rest & Hp) & Ha & Hne). cbn [resolve_loop]. unfold EvalSymlinks.
  destruct (eval_comps lstat cand) as [[rooted l]|[]] eqn:E.
  - destruct (eval_physical _ _ _ Ha E) as [-> [Ho _]]. left.
    exists (clean_comps true l (pieces rest)). split; [by econstructor|]. split.
    { apply clean_comps_result; [done|apply pieces_slash_free]. }
    f_equal. destruct (String.eqb_spec cand path) as [Heq|Hneq].
    + assert (rest = "") as -> by (apply (sapp_cancel_l cand); rewrite sapp_nil_r; by rewrite <- Hp). done.
    + rewrite Hp, str_drop_app. apply Join2_root; [|done]. intros ->. apply Hneq. by rewrite Hp, sapp_nil_r.
  - destruct (rawParent_abs cand Ha) as [p Hpar]. rewrite Hpar.
    destruct (candidate_parent _ _ _ Hc Hpar) as [Hc' [->|Hl]]; [by rewrite eval_root in E|].
    destruct (IH p Hc' ltac:(lia)) as [(l & ? & ? & ?)|[? ?]].
    + left. exists l. split; [by eapply loc_up|done].
    + right. split; [by eapply blocked_up|done].
  - right. split; [by constructor|done].
Qed.

Lemma located_unique path cand l l' :
  located_from path cand l -> located_from path cand l' -> l = l'.
Proof.
  intros H. revert l'. induction H as [cand rest l Hp He|cand p l He Hp H IH]; intros l' H'; inversion H'; subst.
  - assert (rest0 = rest) as -> by by eapply sapp_cancel_l. congruence.
  - congruence.
  - congruence.
  - apply IH. congruence.
Qed.
Lemma located_not_blocked path cand l : located_from path cand l -> blocked_from cand -> False.
Proof.
  induction 1 as [cand rest l Hp He|cand p l He Hp H IH]; inversion 1; subst; try congruence.
Qed.

Lemma resolve_located path l :
  is_abs path = true -> located path l ->
  ResolveExistingPrefix lstat path = root_path l /\ Forall (fun c => ordinary c = true) l.
Proof.
  intros Ha Hl. unfold ResolveExistingPrefix.
  destruct (resolve_loop_abs (S (String.length path)) path path (candidate_self path Ha) ltac:(lia))
    as [(l' & Hl' & Ho & ->)|[Hb _]].
  - by rewrite (located_unique _ _ _ _ Hl Hl').
  - exfalso. by eapply located_not_blocked.
Qed.
Lemma located_walk path cand l :
  candidate path cand -> located_from path cand l ->
  exists c rest loc n, path = c +s+ rest /\ resolves lstat n true [] (pieces c) (true, loc) /\ (n <= maxLinks)%nat /\
    physical loc /\ l = clean_comps true loc (pieces rest).
Proof.
  intros Hc Hl. induction Hl as [cand rest loc Hp He|cand p l He Hp Hl IH].
  - destruct Hc as (_ & Hac & _). exists cand, rest, loc.
    pose proof (proj2 (eval_physical _ _ _ Hac He)) as Hphys. rewrite eval_comps_walk, Hac in He.
    apply walk_resolves in He as (n & Hn & He). by exists n.
  - apply IH. by apply (candidate_parent _ _ _ Hc Hp).
Qed.
Lemma located_existing path l :
  eval_comps lstat path = inl (true, l) -> located path l.
Proof.
  intros He. change l with (clean_comps true l (pieces "")). apply loc_here; [by rewrite sapp_nil_r|done].
Qed.
End walk.

(** On an absolute path the climb to the deepest existing prefix ends, one
    candidate per unit of fuel, and has two outcomes.  Either some spelling in
    front resolves - to a place without symbolic links, by the POSIX rule with
    at most 255 of them - and the result is that place followed by the other
    components, cleaned.  Or a spelling fails for another reason than absence,
    and the path comes back as it was spelled. *)
Theorem ResolveExistingPrefix_spec lstat path :
  is_abs path = true ->
  exists r, resolve_loop lstat (S (String.length path)) path path = Some r /\ ResolveExistingPrefix lstat path = r /\
  ((exists l cand rest loc n, r = path_string true l /\ path = cand +s+ rest /\
      resolves lstat n true [] (pieces cand) (true, loc) /\ (n <= 255)%nat /\ physical lstat loc /\
      l = clean_comps true loc (pieces rest)) \/
   (blocked lstat path /\ r = path)).
Proof.
  intros Ha. pose proof (candidate_self path Ha) as Hc. unfold ResolveExistingPrefix.
  destruct (resolve_loop_abs lstat (S (String.length path)) path path Hc ltac:(lia)) as [(l & Hl & _ & ->)|[Hb ->]].
  - exists (path_string true l). split; [done|]. split; [done|]. left.
    destruct (located_walk _ _ _ _ Hc Hl) as (c & rest & loc & n & ? & ? & Hn & ? & ?).
    exists l, c, rest, loc, n. repeat (split; [done|]). done.
  - exists path. split; [done|]. split; [done|]. by right.
Qed.

(** ** Containment *)

Lemma slashes_app a b : slashes (a ++ b) = slashes a +s+ slashes b.
Proof. induction a as [|c a IH]; [done|]. simpl. by rewrite IH, !sapp_assoc. Qed.
Lemma has_char_rev p s : has_char p (String.rev s) = has_char p s.
Proof. induction s as [|c s IH]; [done|]. rewrite rev_cons, has_char_app, IH. simpl. by rewrite orb_false_r, orb_comm. Qed.
Lemma slashes_no_suffix l :
  l <> [] -> Forall (fun c => ordinary c = true) l -> has_suffix_sep (slashes l) = false.
Proof.
  intros Hne Hl. destruct l as [|c l _] using rev_ind; [done|]. apply Forall_app in Hl as [_ Hc].
  inversion Hc as [|?? Ho _]; subst. rewrite slashes_app. unfold has_suffix_sep. simpl.
  change (String slash (c +s+ "")) with (sep +s+ c +s+ ""). rewrite sapp_nil_r, !rev_sapp.
  pose proof (ordinary_slash_free c Ho) as Hs. rewrite <- has_char_rev in Hs.
  destruct (String.rev c) as [|x r] eqn:E.
  - apply (f_equal String.rev) in E. rewrite rev_rev in E. by subst c.
  - simpl in *. by apply orb_false_iff in Hs as [-> _].
Qed.
Lemma take_str_app a b : take_str (String.length a) (a +s+ b) = a.
Proof. induction a as [|c a IH]; [by destruct b|]. simpl. f_equal. exact IH. Qed.

(** The prefix test on spellings is the prefix test on components. *)
Lemma prefix_test a b :
  Forall (fun c => ordinary c = true) a -> Forall (fun c => ordinary c = true) b ->
  let p := if has_suffix_sep (root_path a) then root_path a else root_path a +s+ sep in
  String.eqb (root_path b) (take_str (String.length p - 1) p) || has_prefix (root_path b) p =
  bool_decide (a `prefix_of` b).
Proof.
  intros Ha Hb p. apply eq_true_iff_eq. rewrite orb_true_iff, String.eqb_eq, bool_decide_eq_true. unfold p.
  destruct (decide (a = [])) as [->|Hne].
  { change (root_path []) with sep. change (has_suffix_sep sep) with true. cbv iota. split; [intros _; apply prefix_nil|].
    intros _. right. unfold path_string. simpl. apply has_prefix_nil. }
  rewrite (root_path_slashes a Hne), slashes_no_suffix by done.
  rewrite length_sapp. change (String.length sep) with 1%nat. rewrite Nat.add_sub, take_str_app.
  assert (Heq : root_path b = slashes a <-> b = a).
  { rewrite <- root_path_slashes by done. split; [|by intros ->]. by apply root_path_inj. }
  rewrite Heq. destruct (decide (b = [])) as [->|Hbn].
  - split.
    + intros [->|H]; [done|]. apply has_prefix_spec in H as [t H]. apply (f_equal String.length) in H.
      rewrite !length_sapp in H. destruct a as [|c a]; [done|]. cbn in H. rewrite ?length_sapp in H. simpl in H. lia.
    + intros [r Hr]. destruct a; done.
  - rewrite (root_path_slashes b Hbn), slashes_prefix by by apply ordinary_names. split.
    + intros [->|(c & r & ->)]; [done|by apply prefix_app_r].
    + intros [[|c r] ->]; [left; by rewrite app_nil_r|right; eauto].
Qed.

Lemma Clean_abs p : is_abs p = true -> is_abs (Clean p) = true.
Proof. intros H. unfold Clean. rewrite H. unfold is_abs, path_string. simpl. apply has_prefix_nil. Qed.

Lemma IsWithinPath_located lstat to_lower parent child lp lc :
  is_abs parent = true -> is_abs child = true ->
  located lstat (Clean parent) lp -> located lstat child lc ->
  IsWithinPath lstat to_lower parent child = Some (bool_decide (lp `prefix_of` lc)).
Proof.
  intros Hpa Hca Hp Hc. pose proof (Clean_abs _ Hpa) as Hcl.
  unfold IsWithinPath, isWithinPath. destruct (String.eqb_spec parent "") as [->|_]; [done|].
  destruct (resolve_located _ _ _ Hcl Hp) as [-> Hlp]. destruct (resolve_located _ _ _ Hca Hc) as [-> Hlc].
  cbv zeta. by rewrite prefix_test.
Qed.

(** C19: containment is decided on places: for a root and a path that resolve as
    far as they exist, the path is within the root exactly when the components
    of the root's place are a prefix of the components of the path's place.  A
    link on the way is followed before [..] climbs, a sibling whose name begins
    alike is outside, and the root contains everything.  The place of a path
    that exists is the one the walk reaches, without symbolic links. *)
Theorem IsWithinPath_correct lstat to_lower parent child lp lc :
  is_abs parent = true -> is_abs child = true ->
  located lstat (Clean parent) lp -> located lstat child lc ->
  IsWithinPath lstat to_lower parent child = Some (bool_decide (lp `prefix_of` lc)) /\
  (forall n l, (n <= 255)%nat -> resolves lstat n true [] (pieces child) (true, l) -> lc = l /\ physical lstat l).
Proof.
  intros Hpa Hca Hp Hc. split; [by apply IsWithinPath_located|].
  intros n l Hn Hr. assert (He : eval_comps lstat child = inl (true, l)).
  { rewrite eval_comps_walk, Hca. eapply resolves_walk; [exact Hr|exact Hn]. }
  split; [|by apply (eval_physical _ _ _ _ Hca He)].
  by apply (located_unique lstat child child), located_existing.
Qed.

(** ** The probed directory *)

Lemma cut_back_word w r : has_char is_slash w = false -> cut_back (w +s+ sep +s+ r) = sep +s+ r.
Proof.
  induction w as [|c w IH]; [done|]. cbn [has_char]. intros [H1 H2]%orb_false_iff.
  change (String c w +s+ sep +s+ r) with (String c (w +s+ sep +s+ r)). cbn [cut_back]. rewrite H1. auto.
Qed.
Lemma Clean_slashes l : Forall (fun c => ordinary c = true) l -> Clean (slashes l +s+ sep) = root_path l.
Proof.
  intros Hl. destruct (decide (l = [])) as [->|Hne]; [done|]. rewrite <- root_path_slashes by done.
  unfold Clean. rewrite is_abs_root. change sep with (sep +s+ "") at 1. rewrite pieces_sep, clean_comps_app, pieces_root_path by done.
  done.
Qed.
Lemma Dir_root l c : Forall (fun c => ordinary c = true) (l ++ [c]) -> Dir (root_path (l ++ [c])) = root_path l.
Proof.
  intros Hl. rewrite root_path_slashes by by destruct l. apply Forall_app in Hl as [Hl Hc].
  inversion Hc as [|?? Ho _]; subst. rewrite slashes_app. simpl.
  change (String slash (c +s+ "")) with (sep +s+ c +s+ ""). rewrite sapp_nil_r.
  unfold Dir. rewrite !rev_sapp. change (String.rev sep) with sep. rewrite sapp_assoc.
  rewrite cut_back_word by (rewrite has_char_rev; by apply ordinary_slash_free).
  change (match sep +s+ String.rev (slashes l) with "" => "." | r => Clean (String.rev r) end)
    with (Clean (String.rev (sep +s+ String.rev (slashes l)))).
  rewrite rev_sapp, rev_rev. by apply Clean_slashes.
Qed.

(** A place and the directories above it, deepest first. *)
Definition ancestors (l : list string) : list string := map (fun n => root_path (take n l)) (reverse (seq 0 (S (length l)))).
Lemma ancestors_snoc l c : ancestors (l ++ [c]) = root_path (l ++ [c]) :: ancestors l.
Proof.
  unfold ancestors. rewrite length_app, Nat.add_comm. change (length [c] + length l)%nat with (S (length l)).
  rewrite (seq_S (S (length l))), reverse_app.
  change (reverse [(0 + S (length l))%nat]) with [S (length l)]. cbn [map app].
  f_equal; [by rewrite take_ge by (rewrite length_app; simpl; lia)|].
  apply map_ext_in. intros n Hn. f_equal. apply take_app_le.
  apply list_elem_of_In in Hn. rewrite elem_of_reverse in Hn. apply elem_of_seq in Hn. lia.
Qed.

(** The climb ends within the components and finds the deepest directory. *)
Lemma existingAncestorDir_spec is_dir l fuel :
  Forall (fun c => ordinary c = true) l -> (length l < fuel)%nat ->
  existingAncestorDir is_dir fuel (root_path l) = head (List.filter is_dir (ancestors l)).
Proof.
  revert fuel. induction l as [|c l IH] using rev_ind; intros [|fuel] Hl Hf; try lia.
  - cbn. by destruct (is_dir _).
  - rewrite ancestors_snoc. cbn [existingAncestorDir List.filter]. destruct (is_dir _); [done|].
    rewrite Dir_root by done. rewrite length_app in Hf. simpl in Hf. apply Forall_app in Hl as [Hl Hc].
    destruct (String.eqb_spec (root_path l) (root_path (l ++ [c]))) as [E|_]; [|apply IH; [done|lia]].
    apply root_path_inj in E; [|done|by apply Forall_app].
    apply (f_equal length) in E. rewrite length_app in E. simpl in E. lia.
Qed.

Lemma length_slashes l : (length l <= String.length (slashes l))%nat.
Proof. induction l as [|c l IH]; [done|]. cbn [slashes]. rewrite !length_sapp. simpl. lia. Qed.
(** The fuel of [DetectCaseInsensitive] is enough. *)
Lemma Detect_dir is_dir dir :
  is_abs dir = true ->
  existingAncestorDir is_dir (S (S (String.length (Clean dir)))) (Clean dir) =
  head (List.filter is_dir (ancestors (clean_comps true [] (pieces dir)))).
Proof.
  intros Ha. unfold Clean. rewrite Ha. set (l := clean_comps true [] (pieces dir)).
  assert (Hl : Forall (fun c => ordinary c = true) l) by (apply clean_comps_result; [done|apply pieces_slash_free]).
  apply existingAncestorDir_spec; [done|]. destruct (decide (l = [])) as [->|Hne]; [simpl; lia|].
  rewrite root_path_slashes by done. pose proof (length_slashes l). lia.
Qed.

(** A process: calls one after another, each with the directories and the
    probe of its time; the answers and the directories probed. *)
Definition call : Type := (string -> bool) * (string -> bool) * string.
Fixpoint detect_all (known : gmap string bool) (calls : list call) : list bool * list string :=
  match calls with
  | [] => ([], [])
  | (is_dir, probe, dir) :: calls =>
      let '(ans, known, probed) := DetectCaseInsensitive is_dir probe known dir in
      let '(answers, more) := detect_all known calls in
      (ans :: answers, probed ++ more)
  end.

Lemma detect_all_fresh known calls :
  NoDup (snd (detect_all known calls)) /\ forall d, d ∈ snd (detect_all known calls) -> known !! d = None.
Proof.
  revert known. induction calls as [|[[is_dir probe] dir] calls IH]; intros known; [split; [constructor|by intros ? ?%not_elem_of_nil]|].
  cbn [detect_all]. unfold DetectCaseInsensitive. destruct (existingAncestorDir _ _ _) as [p|].
  2:{ specialize (IH known). by destruct (detect_all known calls). }
  destruct (known !! p) as [ci|] eqn:Ek.
  { specialize (IH known). by destruct (detect_all known calls). }
  destruct (IH (<[p:=probe p]> known)) as [Hn Hf]. destruct (detect_all _ calls) as [answers more]. simpl in *. split.
  - constructor; [|done]. intros Hp. specialize (Hf p Hp). by rewrite lookup_insert_eq in Hf.
  - intros d [->|Hd]%elem_of_cons; [done|]. specialize (Hf d Hd).
    destruct (decide (d = p)) as [->|Hne]; [done|]. by rewrite lookup_insert_ne in Hf.
Qed.

(** ** Paths as resolution returns them *)

Lemma walk_dirs lstat links d l rest :
  dirs lstat (d ++ l) -> Forall (fun c => ordinary c = true) l ->
  walk lstat links true d (l ++ rest) = walk lstat links true (d ++ l) rest.
Proof.
  revert d. induction l as [|c l IH]; intros d Hd Ho; [by rewrite app_nil_r|]. inversion Ho as [|?? Hc Hl]; subst.
  destruct (ordinary_tests c Hc) as [H1 H2]. cbn [app]. rewrite walk_cons, H1, H2.
  assert (Hs : lstat true (d ++ [c]) = SDir).
  { apply (Hd (d ++ [c]) l); [by rewrite <- app_assoc|by destruct d]. }
  rewrite Hs, IH by (done || by rewrite <- app_assoc). by rewrite <- app_assoc.
Qed.
Lemma eval_root_path lstat l :
  Forall (fun c => ordinary c = true) l ->
  eval_comps lstat (root_path l) = walk lstat maxLinks true [] l.
Proof.
  intros Hl. rewrite eval_comps_walk, root_abs. unfold path_string. change (sep +s+ join sep l) with ("" +s+ sep +s+ join sep l).
  rewrite pieces_sep. change (pieces "") with [""]. cbn [app]. rewrite walk_cons.
  change (String.eqb "" "" || String.eqb "" ".") with true. cbv iota.
  destruct l as [|c l]; [|by rewrite pieces_join by (done || by apply ordinary_names)].
  change (pieces (join sep [])) with [""]. rewrite walk_cons.
  change (String.eqb "" "" || String.eqb "" ".") with true. cbv iota. done.
Qed.

(** A path that is its own place: all of it exists, without links, or the end
    of it does not. *)
Definition settled (lstat : bool -> list string -> Stat) (l : list string) : Prop :=
  physical lstat l \/
  exists d c rest, l = d ++ c :: rest /\ Forall (fun c => ordinary c = true) l /\ dirs lstat d /\
    lstat true (d ++ [c]) = SNoent.

Lemma physical_eval lstat l : physical lstat l -> eval_comps lstat (root_path l) = inl (true, l).
Proof.
  intros [Ho Hd]. rewrite eval_root_path by done. destruct Hd as [Hd|(d & c & -> & Hd & Hs)].
  - rewrite <- (app_nil_r l) at 1. rewrite walk_dirs by done. apply walk_nil.
  - apply Forall_app in Ho as [Ho Hc]. inversion Hc as [|?? Hc' _]; subst.
    rewrite walk_dirs by done. destruct (ordinary_tests c Hc') as [H1 H2].
    rewrite walk_cons, H1, H2. cbn [app]. by rewrite Hs.
Qed.
Lemma missing_eval lstat d c rest :
  Forall (fun c => ordinary c = true) (d ++ c :: rest) -> dirs lstat d -> lstat true (d ++ [c]) = SNoent ->
  eval_comps lstat (root_path (d ++ c :: rest)) = inr ENOENT.
Proof.
  intros Ho Hd Hs. rewrite eval_root_path by done. apply Forall_app in Ho as [Ho Hc].
  inversion Hc as [|?? Hc' _]; subst. destruct (ordinary_tests c Hc') as [H1 H2].
  rewrite walk_dirs by done. rewrite walk_cons, H1, H2. cbn [app]. by rewrite Hs.
Qed.
Lemma rawParent_root l c :
  Forall (fun c => ordinary c = true) (l ++ [c]) -> rawParent (root_path (l ++ [c])) = Some (root_path l).
Proof.
  intros Hl. rewrite root_path_slashes by by destruct l. apply Forall_app in Hl as [Hl Hc].
  inversion Hc as [|?? Ho _]; subst. rewrite slashes_app. cbn [slashes]. rewrite sapp_nil_r.
  unfold rawParent. rewrite !rev_sapp. change (String.rev sep) with sep. rewrite sapp_assoc.
  rewrite cut_back_word by (rewrite has_char_rev; by apply ordinary_slash_free).
  destruct (decide (l = [])) as [->|Hne]; [done|]. rewrite root_path_slashes by done.
  change (drop_slashes (sep +s+ String.rev (slashes l))) with (drop_slashes (String.rev (slashes l))).
  pose proof (slashes_no_suffix l Hne Hl) as Hn. unfold has_suffix_sep in Hn.
  change (match sep +s+ String.rev (slashes l) with "" => None | r => match String.rev (drop_slashes r) with "" => Some sep | p => Some p end end)
    with (match String.rev (drop_slashes (String.rev (slashes l))) with "" => Some sep | p => Some p end).
  assert (Hd : drop_slashes (String.rev (slashes l)) = String.rev (slashes l)).
  { destruct (String.rev (slashes l)) as [|x r]; [done|]. cbn [drop_slashes]. by rewrite Hn. }
  rewrite Hd, rev_rev. destruct l; [done|]. reflexivity.
Qed.
Lemma root_path_app d l : d <> [] -> l <> [] -> root_path (d ++ l) = root_path d +s+ root_path l.
Proof. intros Hd Hl. rewrite !root_path_slashes by (done || by destruct d). apply slashes_app. Qed.
Lemma root_path_rest d l :
  l <> [] -> Forall (fun c => ordinary c = true) l ->
  exists rest, root_path (d ++ l) = root_path d +s+ rest /\ clean_comps true d (pieces rest) = d ++ l.
Proof.
  intros Hl Ho. destruct (decide (d = [])) as [->|Hd].
  - exists (join sep l). split; [done|]. rewrite pieces_join by (done || by apply ordinary_names).
    by apply clean_comps_ordinary.
  - exists (root_path l). split; [by apply root_path_app|]. by apply pieces_root_path.
Qed.
Lemma settled_ordinary lstat l : settled lstat l -> Forall (fun c => ordinary c = true) l.
Proof. by intros [[? _]|(? & ? & ? & -> & ? & _)]. Qed.
Lemma settled_located lstat l : settled lstat l -> located lstat (root_path l) l.
Proof.
  intros [Hp|(d & c & rest & -> & Ho & Hd & Hs)]; [by apply located_existing, physical_eval|].
  destruct (root_path_rest d (c :: rest)) as (r & Hr & Hcl); [done|by apply Forall_app in Ho as [_ ?]|].
  assert (H : forall k, located_from lstat (root_path (d ++ c :: rest)) (root_path (d ++ take k (c :: rest))) (d ++ c :: rest)).
  { induction k as [|k IH].
    - cbn [take]. rewrite app_nil_r. rewrite <- Hcl at 2. eapply loc_here; [exact Hr|]. apply physical_eval.
      split; [by apply Forall_app in Ho as [? _]|by left].
    - destruct (decide (length rest < k)%nat) as [Hk|Hk].
      { rewrite take_ge in * by (simpl; lia). exact IH. }
      destruct (lookup_lt_is_Some_2 (c :: rest) k) as [x Hx]; [simpl; lia|].
      rewrite (take_S_r _ _ _ Hx), app_assoc.
      assert (Hox : Forall (fun c => ordinary c = true) ((d ++ take k (c :: rest)) ++ [x])).
      { rewrite <- app_assoc, <- (take_S_r _ _ _ Hx). apply Forall_app in Ho as [? ?]. apply Forall_app. split; [done|].
        by apply Forall_take. }
      eapply loc_up; [|by apply rawParent_root|exact IH].
      rewrite <- app_assoc, <- (take_S_r _ _ _ Hx) in Hox |- *. cbn [take] in *. by apply missing_eval. }
  specialize (H (S (length rest))). rewrite take_ge in H by (simpl; lia). exact H.
Qed.
Lemma Clean_root l : Forall (fun c => ordinary c = true) l -> Clean (root_path l) = root_path l.
Proof.
  intros Hl. unfold Clean. rewrite root_abs. by rewrite pieces_root_path.
Qed.

(** ** Examples *)

(** [/ws] with a link out of it and a regular file, and [/etc]. *)
Definition demo_fs (rooted : bool) (l : list string) : Stat :=
  if bool_decide (l = ["ws"]) || bool_decide (l = ["etc"]) then SDir
  else if bool_decide (l = ["ws"; "link"]) then SLink "/etc"
  else if bool_decide (l = ["ws"; "f"]) || bool_decide (l = ["etc"; "passwd"]) then SFile
  else SNoent.
Local Notation within := (IsWithinPath demo_fs (fun s => s)).

Lemma ResolveExistingPrefix_spec_witness :
  exists r, resolve_loop demo_fs 13 "/ws/link/new" "/ws/link/new" = Some r /\ r = "/etc/new".
Proof.
  destruct (ResolveExistingPrefix_spec demo_fs "/ws/link/new" eq_refl) as (r & H & _).
  exists r. split; [exact H|]. vm_compute in H. by injection H.
Defined.

Lemma IsWithinPath_correct_witness : within "/ws/" "/ws/link/../shadow" = Some false.
Proof.
  assert (Hp : located demo_fs (Clean "/ws/") ["ws"]) by (apply located_existing; vm_compute; reflexivity).
  assert (Hc : located demo_fs "/ws/link/../shadow" ["shadow"]).
  { unfold located. eapply loc_up; [vm_compute; reflexivity|vm_compute; reflexivity|].
    apply (loc_here _ _ "/ws/link/.." "/shadow" []); [reflexivity|vm_compute; reflexivity]. }
  exact (proj1 (IsWithinPath_correct demo_fs (fun s => s) "/ws/" "/ws/link/../shadow" _ _ eq_refl eq_refl Hp Hc)).
Defined.

(** A sibling whose name begins alike, the root itself, the root of all. *)
Example within_examples :
  within "/ws" "/wsx/a" = Some false /\ within "/ws" "/ws" = Some true /\ within "/" "/etc/passwd" = Some true /\
  within "/ws" "/ws/new/file" = Some true /\ within "/ws" "/ws/link/passwd" = Some false /\ within "" "/ws" = None.
Proof. vm_compute. done. Qed.

(** A spelling that fails for another reason than absence is judged by its
    text: [..] behind a regular file is within the root. *)
Example blocked_is_within :
  within "/ws" "/ws/f/../../etc/passwd" = Some true /\ Clean "/ws/f/../../etc/passwd" = "/etc/passwd".
Proof. vm_compute. done. Qed.

(** Behind a component that does not exist, [..] is collapsed and a link that
    follows stays unresolved. *)
Example link_behind_missing :
  within "/ws" "/ws/new/../link/passwd" = Some true /\ Clean "/ws/new/../link/passwd" = "/ws/link/passwd" /\
  within "/ws" "/ws/link/passwd" = Some false.
Proof. vm_compute. done. Qed.
