(* ===== verification/GoFloat.v ===== *)
(** * Floating point

    [float64] is used for fill percentages and shares of a history; the
    operations the code applies are an interface, so the theorems hold for any
    rounding.  The instance of exact rationals serves the examples. *)

From Stdlib Require Import ZArith QArith Qround.
From stdpp Require Import base strings.
From S2P Require Import Prelude GoStr.

Class Float64 := {
  F : Type;
  f_of_int : Z -> F;
  f_add : F -> F -> F;
  f_mul : F -> F -> F;
  f_div : F -> F -> F;
  f_le : F -> F -> bool;
  f_lt : F -> F -> bool;
  f_eq : F -> F -> bool;
  f_finite : F -> bool;       (** neither NaN nor an infinity *)
  f_to_int : F -> Z;          (** Go's [int(x)] *)
  f_fmt : nat -> F -> string; (** ["%.nf"] *)
}.

#[export] Instance Float64_Q : Float64 := {|
  F := Q;
  f_of_int := inject_Z;
  f_add := Qplus;
  f_mul := Qmult;
  f_div := Qdiv;
  f_le := Qle_bool;
  f_lt x y := negb (Qle_bool y x);
  f_eq := Qeq_bool;
  f_finite _ := true;
  f_to_int x := Z.quot (Qnum x) (Z.pos (Qden x));
  f_fmt _ x := itoa (Qfloor (x + (1 # 2))%Q);
|}.
