(* ===== verification/AgentTypes.v ===== *)
(** * Data shared by the agent loop, the orchestrator and the memory package

    Records of [src/llm/message.go], [src/agent/types.go] and
    [src/tools/tool.go].  A Go slice the code compares with [nil] is an
    [option (list _)] ([None] is the nil slice, [sl] what [range] and [len]
    see); any other slice is a list.  A raw JSON message is the string of its
    bytes. *)

From Stdlib Require Import ZArith.
From stdpp Require Import base list strings.
From S2P Require Import Prelude.

(** The elements [range] visits. *)
Definition sl {A} (s : option (list A)) : list A := default [] s.

(** The sentinel errors the code looks for with [errors.Is]. *)
Inductive Sentinel :=
| ErrPaused
| ErrToolTimeout
| ContextCanceled
| DeadlineExceeded
| ContextExceeded.

(** A non-nil Go [error]: what [Error()] returns and the sentinels found in
    its chain by [errors.Is]. *)
Record gerror := mkErr {
  err_text : string;
  err_chain : list Sentinel;
}.

#[export] Instance Sentinel_eq_dec : EqDecision Sentinel.
Proof. solve_decision. Defined.
#[export] Instance gerror_eq_dec : EqDecision gerror.
Proof. solve_decision. Defined.

(** [errors.Is(err, target)] *)
Definition errors_Is (err : option gerror) (target : Sentinel) : bool :=
  match err with None => false | Some e => bool_decide (target ∈ err_chain e) end.

Record ReasoningItem := mkReasoningItem {
  ri_id : string;
  ri_summary : string;
  ri_encrypted : string;
}.

Record ContentBlock := mkContentBlock {
  cb_type : string;
  cb_text : string;
  cb_image_b64 : string;
  cb_media_type : string;
}.

Record ToolCall := mkToolCall {
  tc_id : string;
  tc_name : string;
  tc_input : string;
}.

Record Message := mkMessage {
  m_role : string;
  m_content : string;
  m_blocks : list ContentBlock;
  m_reasoning : string;
  m_tool_calls : list ToolCall;
  m_tool_call_id : string;
  m_reasoning_items : list ReasoningItem;
}.

Record TokenUsage := mkTokenUsage {
  u_in : Z;
  u_out : Z;
}.

Record ChatResponse := mkChatResponse {
  r_model : string;
  r_family : string;
  r_message : Message;
  r_reasoning : string;
  r_usage : TokenUsage;
  r_stop_reason : string;
}.

(** [agent.Step] *)
Record Step := mkStep {
  s_thought : string;
  s_reasoning : string;
  s_reasoning_items : list ReasoningItem;
  s_action : ToolCall;
  s_observation : string;
  s_is_error : bool;
  s_tokens : Z;
  s_nudge : string;
  s_group : Z;
  s_untrusted : bool;
  s_cache_hash : string;
}.

Definition no_tool_call : ToolCall := mkToolCall "" "" "".
Definition no_message : Message := mkMessage "" "" [] "" [] "" [].

(** A step literal [Step{UserNudge: n}]: every other field is zero. *)
Definition nudge_step (n : string) : Step :=
  mkStep "" "" [] no_tool_call "" false 0 n 0 false "".

(** [tools.ToolResult] *)
Record ToolResult := mkToolResult {
  tr_content : string;
  tr_is_error : bool;
}.

(** [agent.ExecutorResult] *)
Record ExecutorResult := mkExecutorResult {
  er_output : string;
  er_steps : list Step;
  er_finished : bool;
  er_abort_reason : string;
  er_summary : string;
}.

(** [agent.StepLimitResponse]: a Go string type with four named values. *)
Inductive StepLimitResponse :=
| StepLimitAllowOnce
| StepLimitAllowMore
| StepLimitAllowAlways
| StepLimitDeny
| StepLimitOther (s : string).

(** [agent.CircuitBreakerConfig] *)
Record CircuitBreakerConfig := mkCircuitBreakerConfig {
  RepeatNudgeThreshold : Z;
  RepeatAbortThreshold : Z;
  TruncationAbortThreshold : Z;
  ParseErrorAbortThreshold : Z;
  FruitlessNudgeThreshold : Z;
  FruitlessAbortThreshold : Z;
  FruitlessMaxResultLen : Z;
  SameToolRepeatNudgeThreshold : Z;
  SameToolRepeatAbortThreshold : Z;
  SameToolResultSizeDelta : Z;
}.

#[export] Instance ToolCall_eq_dec : EqDecision ToolCall.
Proof. solve_decision. Defined.
#[export] Instance ReasoningItem_eq_dec : EqDecision ReasoningItem.
Proof. solve_decision. Defined.
#[export] Instance Step_eq_dec : EqDecision Step.
Proof. solve_decision. Defined.
#[export] Instance StepLimitResponse_eq_dec : EqDecision StepLimitResponse.
Proof. solve_decision. Defined.
