(* ===== verification/Tokens.v ===== *)
(** * Counting tokens: [src/llm/tokencount.go], content blocks of [src/llm/message.go]

    A token counter is an interface the context window is written against; its
    instances here are the approximate counter of the package and the counter
    that counts nothing.  The tiktoken counter calls a third-party library and
    is one more instance a client may supply. *)

From Stdlib Require Import ZArith Lia.
From stdpp Require Import base strings list.
From S2P Require Import Prelude GoStr AgentTypes.
Open Scope sp4rk_scope.
Open Scope Z_scope.

(** [TokenCounter]: counts are never negative. *)
Class TokenCounter := {
  Count : string -> Z;
  CountMessages : list Message -> Z;
  Count_nonneg : forall s, 0 <= Count s;
  CountMessages_nonneg : forall l, 0 <= CountMessages l;
}.

(** [NormalizeContentBlocks] *)
Definition NormalizeContentBlocks (msg : Message) : list ContentBlock :=
  match m_blocks msg with
  | [] => []
  | _ :: _ =>
      let hasText := existsb (fun blk => String.eqb (cb_type blk) "text") (m_blocks msg) in
      if negb hasText && negb (String.eqb (m_content msg) "")
      then mkContentBlock "text" (m_content msg) "" "" :: m_blocks msg
      else m_blocks msg
  end.

(** [ValidateContentBlocks]: the error of the first invalid block. *)
Fixpoint validate_from (i : Z) (blocks : list ContentBlock) : option string :=
  match blocks with
  | [] => None
  | blk :: rest =>
      if String.eqb (cb_type blk) "text" then
        if String.eqb (cb_text blk) "" then Some ("content block " +s+ itoa i +s+ ": text block missing text")
        else validate_from (i + 1) rest
      else if String.eqb (cb_type blk) "image" then
        if String.eqb (cb_media_type blk) ""
        then Some ("content block " +s+ itoa i +s+ ": image block missing media_type")
        else if String.eqb (cb_image_b64 blk) ""
        then Some ("content block " +s+ itoa i +s+ ": image block missing image_b64")
        else validate_from (i + 1) rest
      else validate_from (i + 1) rest
  end.
Definition ValidateContentBlocks (blocks : list ContentBlock) : option string := validate_from 0 blocks.

Definition estimatedTokensPerChar : Z := 4.
Definition estimatedTokensPerImage : Z := 765.
Definition estimatedAnthropicTokensPerImage : Z := 85.

Fixpoint sumZ (l : list Z) : Z := match l with [] => 0 | x :: r => x + sumZ r end.

Lemma sumZ_nonneg {A} (f : A -> Z) l : (forall x, 0 <= f x) -> 0 <= sumZ (map f l).
Proof. intros Hf. induction l as [|x l IH]; simpl; [lia|]. specialize (Hf x). lia. Qed.

(** [countContentTokens] *)
Definition countContentTokens (count : string -> Z) (msg : Message) (imageEstimate : Z) : Z :=
  match NormalizeContentBlocks msg with
  | [] => count (m_content msg)
  | blocks =>
      sumZ (map (fun blk =>
        if String.eqb (cb_type blk) "text" then count (cb_text blk)
        else if String.eqb (cb_type blk) "image" then imageEstimate
        else 0) blocks)
  end.

(** [SimpleTokenCounter] *)
Definition simple_Count (text : string) : Z :=
  if String.eqb text "" then 0 else (slen text + estimatedTokensPerChar - 1) / estimatedTokensPerChar.

Definition simple_message (imageTokenEstimate : Z) (msg : Message) : Z :=
  simple_Count (m_role msg) + countContentTokens simple_Count msg imageTokenEstimate +
  sumZ (map (fun tc => simple_Count (tc_name tc) + simple_Count (tc_input tc)) (m_tool_calls msg)) + 4.

Definition simple_CountMessages (imageTokenEstimate : Z) (msgs : list Message) : Z :=
  sumZ (map (simple_message imageTokenEstimate) msgs).

Lemma simple_Count_nonneg s : 0 <= simple_Count s.
Proof.
  unfold simple_Count, estimatedTokensPerChar. destruct (String.eqb s ""); [lia|].
  pose proof (slen_nonneg s). apply Z.div_pos; lia.
Qed.

Lemma simple_message_nonneg k m : 0 <= k -> 0 <= simple_message k m.
Proof.
  intros Hk. unfold simple_message, countContentTokens.
  pose proof (simple_Count_nonneg (m_role m)). pose proof (simple_Count_nonneg (m_content m)).
  assert (0 <= sumZ (map (fun tc => simple_Count (tc_name tc) + simple_Count (tc_input tc)) (m_tool_calls m))).
  { apply sumZ_nonneg. intros tc. pose proof (simple_Count_nonneg (tc_name tc)).
    pose proof (simple_Count_nonneg (tc_input tc)). lia. }
  destruct (NormalizeContentBlocks m) as [|b l]; [lia|].
  assert (0 <= sumZ (map (fun blk =>
        if String.eqb (cb_type blk) "text" then simple_Count (cb_text blk)
        else if String.eqb (cb_type blk) "image" then k else 0) (b :: l))).
  { apply sumZ_nonneg. intros blk. pose proof (simple_Count_nonneg (cb_text blk)).
    destruct (String.eqb _ _); [lia|]. destruct (String.eqb _ _); lia. }
  lia.
Qed.

(** [SimpleTokenCounter] as a counter, for an estimate per image. *)
Program Definition SimpleTokenCounter (imageTokenEstimate : Z) (Hk : 0 <= imageTokenEstimate) : TokenCounter := {|
  Count := simple_Count;
  CountMessages := simple_CountMessages imageTokenEstimate;
  Count_nonneg := simple_Count_nonneg;
|}.
Next Obligation. intros k Hk l. apply sumZ_nonneg. intros m. by apply simple_message_nonneg. Qed.

Lemma image_estimate_nonneg : 0 <= estimatedTokensPerImage.
Proof. unfold estimatedTokensPerImage. lia. Qed.

Definition NewSimpleTokenCounter : TokenCounter := SimpleTokenCounter estimatedTokensPerImage image_estimate_nonneg.

Lemma anthropic_estimate_nonneg : 0 <= estimatedAnthropicTokensPerImage.
Proof. unfold estimatedAnthropicTokensPerImage. lia. Qed.

(** [NewTokenCounter], with the error that is reported besides the counter;
    [tiktoken]: the third-party counter of an encoding. *)
Definition NewTokenCounter (tiktoken : string -> res TokenCounter) (tokenizerType : string)
    : TokenCounter * option string :=
  if has_prefix tokenizerType "tiktoken/" then
    let encoding := str_drop 9 tokenizerType in
    match tiktoken encoding with
    | Err err =>
        (NewSimpleTokenCounter,
         Some ("failed to create tiktoken counter for encoding " +s+ encoding +s+ ": " +s+ err))
    | Ok counter => (counter, None)
    end
  else if String.eqb tokenizerType "anthropic-api" then
    (SimpleTokenCounter estimatedAnthropicTokensPerImage anthropic_estimate_nonneg, None)
  else if String.eqb tokenizerType "approximate" || String.eqb tokenizerType "" then (NewSimpleTokenCounter, None)
  else (NewSimpleTokenCounter, Some ("unknown tokenizer type: " +s+ tokenizerType)).

(** [noopCounter] of [src/memory/context.go] *)
Program Definition noopCounter : TokenCounter := {|
  Count _ := 0;
  CountMessages _ := 0;
|}.
Next Obligation. lia. Qed.
Next Obligation. lia. Qed.

(** ** Tool definitions *)

Record ToolDefinition := mkToolDefinition {
  td_name : string;
  td_description : string;
  td_input_schema : string;
}.

Definition estimatedTokensPerToolOverhead : Z := 20.

(** [sanitize]: the schema as a provider receives it. *)
Definition sanitizedSchemaTokenEstimate (sanitize : string -> string) (raw : string) : Z :=
  (slen (sanitize raw) + estimatedTokensPerChar - 1) / estimatedTokensPerChar.

Definition EstimateToolDefinitions (sanitize : string -> string) (defs : list ToolDefinition) : Z :=
  sumZ (map (fun d =>
    (slen (td_name d) + estimatedTokensPerChar - 1) / estimatedTokensPerChar +
    (slen (td_description d) + estimatedTokensPerChar - 1) / estimatedTokensPerChar +
    sanitizedSchemaTokenEstimate sanitize (td_input_schema d) +
    estimatedTokensPerToolOverhead) defs).

(** ** [ContextTokenTracker] *)

Record ContextTokenTracker := mkTracker {
  lastKnownUsed : Z;
  pendingDelta : Z;
}.

Definition NewContextTokenTracker : ContextTokenTracker := mkTracker 0 0.
Definition EstimateTotal (t : ContextTokenTracker) : Z := lastKnownUsed t + pendingDelta t.
Definition AddDelta `{TokenCounter} (text : string) (t : ContextTokenTracker) : ContextTokenTracker :=
  mkTracker (lastKnownUsed t) (pendingDelta t + Count text).
Definition Correct (apiInputTokens : Z) (t : ContextTokenTracker) : ContextTokenTracker :=
  mkTracker apiInputTokens 0.
Definition Reset (t : ContextTokenTracker) : ContextTokenTracker := mkTracker 0 0.
Definition EstimateMessages `{TokenCounter} (t : ContextTokenTracker) (msgs : list Message) : Z :=
  CountMessages msgs.
