(* ===== verification/Plan.v ===== *)
(** * Plans and carry-forward: [src/orchestration/types.go], [src/orchestration/dag.go]

    A plan is a list of steps with string IDs and dependency lists; the
    completed steps are a map from step ID.  [FindReadySteps] schedules,
    [BuildCarryForward] decides which results of an old plan survive a replan,
    [BuildPlanExecutionSteps] and [AggregateOutput] render the outcome. *)

From Stdlib Require Import ZArith Lia.
From stdpp Require Import base gmap strings list.
From S2P Require Import Prelude GoStr AgentTypes.

Local Open Scope sp4rk_scope.

(** [orchestration.PlanStep]; [Profile any] is opaque to this package: the
    model keeps its JSON. *)
Record PlanStep := mkPlanStep {
  ps_id : string;
  ps_summary : string;
  ps_description : string;
  ps_depends_on : option (list string);
  ps_parallelizable : bool;
  ps_estimated_tools : option (list string);
  ps_agent : string;
  ps_profile : option string;
}.

Record Plan := mkPlan {
  p_steps : list PlanStep;
  p_exploration : string;
}.

(** [Error error]: [None] is the nil error. *)
Record CompletedStep := mkCompletedStep {
  cs_step_id : string;
  cs_output : string;
  cs_error : option gerror;
  cs_steps : list Step;
}.

(** Dependencies as [range step.DependsOn] sees them. *)
Definition deps_of (s : PlanStep) : list string := sl (ps_depends_on s).
Definition step_ids (p : Plan) : list string := map ps_id (p_steps p).

(** ** Operations *)

(** The inner loop of [FindReadySteps], with its [break]. *)
Fixpoint allDepsComplete (completed : gmap string CompletedStep) (deps : list string) : bool :=
  match deps with
  | [] => true
  | depID :: rest =>
      match completed !! depID with
      | None => false
      | Some cs => if cs_error cs is Some _ then false else allDepsComplete completed rest
      end
  end.

Definition FindReadySteps (plan : option Plan) (completed : gmap string CompletedStep)
    : list PlanStep :=
  match plan with
  | None => []
  | Some p =>
      fold_left (fun ready step =>
        match completed !! ps_id step with
        | Some _ => ready
        | None => if allDepsComplete completed (deps_of step) then ready ++ [step] else ready
        end) (p_steps p) []
  end.

(** Phase 1 of [BuildCarryForward]. *)
Definition carry_candidates (newStepIDs : gset string) (completed : list CompletedStep)
    : gmap string CompletedStep :=
  fold_left (fun carried cs =>
    if bool_decide (cs_step_id cs ∈ newStepIDs) then
      if cs_error cs is Some _ then carried else <[cs_step_id cs := cs]> carried
    else carried) completed ∅.

(** The inner loop of phase 2: some dependency is a step of the new plan that
    is not carried. *)
Fixpoint stale_dep (newStepIDs : gset string) (carried : gmap string CompletedStep)
    (deps : list string) : bool :=
  match deps with
  | [] => false
  | depID :: rest =>
      if bool_decide (depID ∈ newStepIDs) then
        match carried !! depID with
        | None => true
        | Some _ => stale_dep newStepIDs carried rest
        end
      else stale_dep newStepIDs carried rest
  end.

(** One pass of phase 2 over the plan's steps: the map and [changed]. *)
Definition carry_sweep (newStepIDs : gset string) (steps : list PlanStep)
    (carried : gmap string CompletedStep) : gmap string CompletedStep * bool :=
  fold_left (fun '(carried, changed) s =>
    match carried !! ps_id s with
    | None => (carried, changed)
    | Some _ =>
        if stale_dep newStepIDs carried (deps_of s)
        then (delete (ps_id s) carried, true)
        else (carried, changed)
    end) steps (carried, false).

(** [for changed]: one unit of fuel per pass. *)
Fixpoint carry_loop (fuel : nat) (newStepIDs : gset string) (steps : list PlanStep)
    (carried : gmap string CompletedStep) : option (gmap string CompletedStep) :=
  match fuel with
  | O => None
  | S fuel' =>
      let '(carried', changed) := carry_sweep newStepIDs steps carried in
      if changed then carry_loop fuel' newStepIDs steps carried' else Some carried'
  end.

(** The outer option is running out of fuel, the inner one Go's nil map. *)
Definition BuildCarryForward (fuel : nat) (completed : list CompletedStep) (newPlan : option Plan)
    : option (option (gmap string CompletedStep)) :=
  match newPlan with
  | None => Some None
  | Some p =>
      let newStepIDs := list_to_set (step_ids p) in
      match carry_loop fuel newStepIDs (p_steps p) (carry_candidates newStepIDs completed) with
      | None => None
      | Some carried => Some (if decide (size carried = 0) then None else Some carried)
      end
  end.

Definition BuildPlanExecutionSteps (completedList : list CompletedStep) (plan : option Plan)
    : list Step :=
  match plan with
  | None => []
  | Some p =>
      let stepDescriptions : gmap string string :=
        fold_left (fun m ps => <[ps_id ps := ps_description ps]> m) (p_steps p) ∅ in
      fold_left (fun steps cs =>
        if decide (0 < length (cs_steps cs)) then steps ++ cs_steps cs
        else
          let desc := default "" (stepDescriptions !! cs_step_id cs) in
          let thought := "Executing plan step " +s+ cs_step_id cs +s+ ": " +s+ desc in
          let observation :=
            match cs_error cs with
            | Some e => "STEP FAILED: " +s+ err_text e +s+ nl +s+ "Output: " +s+ cs_output cs
            | None => cs_output cs
            end in
          steps ++ [mkStep thought "" [] no_tool_call observation false 0 "" 0 false ""])
        completedList []
  end.

(** [dependedUpon] of [AggregateOutput] (and [dependedOn] of the planner's
    [findTerminalSteps]). *)
Definition dependedUpon (p : Plan) : gset string :=
  fold_left (fun acc step =>
    fold_left (fun acc depID => {[depID]} ∪ acc) (deps_of step) acc) (p_steps p) ∅.

(** The output [AggregateOutput] takes from a step: it must be completed and
    error-free. *)
Definition ok_output (completedSteps : gmap string CompletedStep) (id : string) : option string :=
  match completedSteps !! id with
  | Some completed => if cs_error completed is Some _ then None else Some (cs_output completed)
  | None => None
  end.

Definition terminal_outputs (completedSteps : gmap string CompletedStep) (p : Plan)
    (preCompletedIDs : gset string) : list string :=
  fold_left (fun outputs step =>
    if bool_decide (ps_id step ∈ preCompletedIDs) then outputs
    else if bool_decide (ps_id step ∈ dependedUpon p) then outputs
    else match ok_output completedSteps (ps_id step) with
         | Some o => outputs ++ [o]
         | None => outputs
         end) (p_steps p) [].

Definition all_outputs (completedSteps : gmap string CompletedStep) (p : Plan)
    (preCompletedIDs : gset string) : list string :=
  fold_left (fun outputs step =>
    if bool_decide (ps_id step ∈ preCompletedIDs) then outputs
    else match ok_output completedSteps (ps_id step) with
         | Some o => outputs ++ [o]
         | None => outputs
         end) (p_steps p) [].

Definition AggregateOutput (completedSteps : gmap string CompletedStep) (plan : option Plan)
    (preCompletedIDs : gset string) : string :=
  match plan with
  | None => ""
  | Some p =>
      let outputs := terminal_outputs completedSteps p preCompletedIDs in
      let outputs := if decide (length outputs = 0)
                     then all_outputs completedSteps p preCompletedIDs else outputs in
      join nl2 outputs
  end.

(** ** Scheduling *)

Definition completed_ok (completed : gmap string CompletedStep) (id : string) : Prop :=
  exists cs, completed !! id = Some cs /\ cs_error cs = None.

#[export] Instance completed_ok_dec completed id : Decision (completed_ok completed id).
Proof.
  unfold completed_ok. destruct (completed !! id) as [cs|]; [destruct (cs_error cs) eqn:E|].
  - right. intros (cs' & [= <-] & ?). congruence.
  - left. eauto.
  - right. intros (? & ? & _). done.
Defined.

Lemma allDepsComplete_spec completed deps :
  allDepsComplete completed deps = true <-> forall d, d ∈ deps -> completed_ok completed d.
Proof.
  induction deps as [|d deps IH]; simpl; [split; [set_solver|done]|].
  destruct (completed !! d) as [cs|] eqn:E; [destruct (cs_error cs) eqn:Ee|].
  - split; [done|]. intros H. destruct (H d) as (cs' & ? & ?); [set_solver|]. congruence.
  - rewrite IH. split; intros H x.
    + rewrite elem_of_cons. intros [->|Hx]; [by exists cs|auto].
    + intros Hx. apply H. set_solver.
  - split; [done|]. intros H. destruct (H d) as (cs' & ? & ?); [set_solver|]. congruence.
Qed.

(** A step [FindReadySteps] selects, as a test on one step. *)
Definition ready_step (completed : gmap string CompletedStep) (step : PlanStep) : bool :=
  bool_decide (completed !! ps_id step = None) && allDepsComplete completed (deps_of step).

Lemma FindReadySteps_filter p completed :
  FindReadySteps (Some p) completed = List.filter (ready_step completed) (p_steps p).
Proof.
  unfold FindReadySteps.
  rewrite (fold_left_ext _ (fun acc x => if ready_step completed x then acc ++ [x] else acc)).
  - by rewrite fold_left_append_if.
  - intros acc step _. unfold ready_step. destruct (completed !! ps_id step) eqn:E.
    + done.
    + by rewrite bool_decide_eq_true_2.
Qed.

Lemma ready_step_spec completed step :
  ready_step completed step = true <->
  completed !! ps_id step = None /\ forall d, d ∈ deps_of step -> completed_ok completed d.
Proof.
  unfold ready_step. rewrite andb_true_iff, bool_decide_eq_true, allDepsComplete_spec. done.
Qed.

(** [FindReadySteps] returns, in plan order, exactly the steps that are
    not completed yet and whose dependencies have all completed without an
    error; a nil plan has none. *)
Theorem FindReadySteps_spec plan completed :
  FindReadySteps plan completed `sublist_of` (default [] (p_steps <$> plan)) /\
  forall step, step ∈ FindReadySteps plan completed <->
    step ∈ default [] (p_steps <$> plan) /\ completed !! ps_id step = None /\
    forall d, d ∈ deps_of step ->
      exists cs, completed !! d = Some cs /\ cs_error cs = None.
Proof.
  destruct plan as [p|]; simpl; [|split; [done|set_solver]].
  change (fold_left _ (p_steps p) []) with (FindReadySteps (Some p) completed).
  rewrite FindReadySteps_filter. split; [apply List_filter_sublist|].
  intros step. rewrite elem_of_List_filter, ready_step_spec. done.
Qed.

(** ** Carry-forward *)

Section carry.
Context (newIDs : gset string) (steps : list PlanStep).
Implicit Types (carried : gmap string CompletedStep) (C : gset string).

(** A set of step IDs is closed when no step of it depends on a step of the
    new plan outside it. *)
Definition carry_closed C : Prop :=
  forall s, s ∈ steps -> ps_id s ∈ C ->
    forall d, d ∈ deps_of s -> d ∈ newIDs -> d ∈ C.

Lemma stale_dep_true carried deps :
  stale_dep newIDs carried deps = true <->
  exists d, d ∈ deps /\ d ∈ newIDs /\ carried !! d = None.
Proof.
  induction deps as [|d deps IH]; simpl; [split; [done|intros (? & H & _); set_solver]|].
  case_bool_decide as Hd.
  - destruct (carried !! d) eqn:E.
    + rewrite IH. split; intros (x & Hx & ? & ?); exists x.
      * set_solver.
      * apply elem_of_cons in Hx as [->|]; [congruence|done].
    + split; [|done]. intros _. exists d. set_solver.
  - rewrite IH. split; intros (x & Hx & ? & ?); exists x.
    + set_solver.
    + apply elem_of_cons in Hx as [->|]; done.
Qed.

Lemma stale_dep_false carried deps :
  stale_dep newIDs carried deps = false <->
  forall d, d ∈ deps -> d ∈ newIDs -> is_Some (carried !! d).
Proof.
  rewrite <- not_true_iff_false, stale_dep_true. split.
  - intros H d Hd Hn. destruct (carried !! d) eqn:E; [eauto|]. exfalso; eauto.
  - intros H (d & Hd & Hn & E). destruct (H d Hd Hn). congruence.
Qed.

(** The sweep, from any starting map and flag. *)
Definition carry_sweep_from (l : list PlanStep) (acc : gmap string CompletedStep * bool) :=
  fold_left (fun '(carried, changed) s =>
    match carried !! ps_id s with
    | None => (carried, changed)
    | Some _ =>
        if stale_dep newIDs carried (deps_of s)
        then (delete (ps_id s) carried, true)
        else (carried, changed)
    end) l acc.

Lemma carry_sweep_cons s l carried b :
  carry_sweep_from (s :: l) (carried, b) =
  carry_sweep_from l
    match carried !! ps_id s with
    | None => (carried, b)
    | Some _ =>
        if stale_dep newIDs carried (deps_of s)
        then (delete (ps_id s) carried, true) else (carried, b)
    end.
Proof. reflexivity. Qed.

(** What one pass does: it only deletes; it reports a change exactly when it
    deleted something; and it never deletes a member of a closed set. *)
Lemma carry_sweep_facts l carried b :
  (forall s, s ∈ l -> s ∈ steps) ->
  let '(carried', changed) := carry_sweep_from l (carried, b) in
  carried' ⊆ carried /\
  (changed = false -> b = false /\ carried' = carried /\
     forall s, s ∈ l -> is_Some (carried !! ps_id s) ->
       stale_dep newIDs carried (deps_of s) = false) /\
  (changed = true -> b = true \/ size carried' < size carried) /\
  (forall C, carry_closed C -> C ⊆ dom carried -> C ⊆ dom carried').
Proof.
  revert carried b; induction l as [|s l IH]; intros carried b Hl.
  { simpl. repeat split; try done; [set_solver|auto]. }
  rewrite carry_sweep_cons.
  assert (forall x, x ∈ l -> x ∈ steps) as Hl' by set_solver.
  destruct (carried !! ps_id s) as [cs|] eqn:Es;
    [destruct (stale_dep newIDs carried (deps_of s)) eqn:Est|].
  - specialize (IH (delete (ps_id s) carried) true Hl').
    destruct (carry_sweep_from l _) as [carried' changed] eqn:Ec.
    destruct IH as (Hsub & Hf & Ht & HC).
    assert (size carried = S (size (delete (ps_id s) carried))) as Hsz.
    { rewrite map_size_delete_Some by eauto.
      pose proof (map_size_ne_0_lookup_2 carried (ps_id s) ltac:(eauto)). lia. }
    split; [|split; [|split]].
    + etrans; [done|apply delete_subseteq].
    + intros Hch. destruct (Hf Hch). done.
    + intros _. right. apply map_subseteq_size in Hsub. lia.
    + intros C Hcl HCd. apply HC; [done|]. rewrite dom_delete_L.
      intros x Hx. apply elem_of_difference; split; [by apply HCd|].
      intros ->%elem_of_singleton.
      apply stale_dep_true in Est as (d & Hd & Hn & Hnone).
      assert (d ∈ C) as HdC by (eapply (Hcl s); [apply Hl; set_solver|done..]).
      apply HCd, elem_of_dom in HdC as [? ?]. congruence.
  - specialize (IH carried b Hl').
    destruct (carry_sweep_from l _) as [carried' changed] eqn:Ec.
    destruct IH as (Hsub & Hf & Ht & HC).
    split; [done|]. split; [|done]. intros H. destruct (Hf H) as (-> & -> & Hall).
    repeat split. intros x. rewrite elem_of_cons. intros [->|Hx]; [done|auto].
  - specialize (IH carried b Hl').
    destruct (carry_sweep_from l _) as [carried' changed] eqn:Ec.
    destruct IH as (Hsub & Hf & Ht & HC).
    split; [done|]. split; [|done]. intros H. destruct (Hf H) as (-> & -> & Hall).
    repeat split. intros x. rewrite elem_of_cons. intros [->|Hx]; [|auto].
    intros [? ?]. congruence.
Qed.

(** Enough fuel: one more pass than there are entries to delete. *)
Lemma carry_loop_facts fuel carried :
  size carried < fuel ->
  exists carried',
    carry_loop fuel newIDs steps carried = Some carried' /\
    carried' ⊆ carried /\ carry_closed (dom carried') /\
    (forall C, carry_closed C -> C ⊆ dom carried -> C ⊆ dom carried').
Proof.
  revert carried; induction fuel as [|fuel IH]; intros carried Hf; [lia|]. simpl.
  pose proof (carry_sweep_facts steps carried false (fun _ H => H)) as Hsw.
  change (carry_sweep_from steps (carried, false)) with (carry_sweep newIDs steps carried) in Hsw.
  destruct (carry_sweep newIDs steps carried) as [carried1 changed].
  destruct Hsw as (Hsub & Hff & Ht & HC). destruct changed.
  - destruct (Ht eq_refl) as [?|Hlt]; [done|].
    destruct (IH carried1 ltac:(lia)) as (c' & -> & Hs & Hcl & HC').
    exists c'. split; [done|]. split; [by etrans|]. split; [done|]. auto.
  - destruct (Hff eq_refl) as (_ & -> & Hall). exists carried.
    split; [done|]. split; [done|]. split; [|done].
    intros s Hs Hid d Hd Hn. apply elem_of_dom.
    eapply stale_dep_false; [|done..]. apply Hall; [done|]. by apply elem_of_dom.
Qed.
End carry.

(** The last error-free result recorded for a step. *)
Definition last_ok (completed : list CompletedStep) (id : string) : option CompletedStep :=
  last (List.filter (fun cs => bool_decide (cs_step_id cs = id) && bool_decide (cs_error cs = None))
                    completed).

Lemma carry_candidates_snoc newIDs l cs :
  carry_candidates newIDs (l ++ [cs]) =
    if bool_decide (cs_step_id cs ∈ newIDs) then
      if cs_error cs is Some _ then carry_candidates newIDs l
      else <[cs_step_id cs := cs]> (carry_candidates newIDs l)
    else carry_candidates newIDs l.
Proof. unfold carry_candidates. by rewrite fold_left_app. Qed.

Lemma carry_candidates_lookup newIDs completed id :
  carry_candidates newIDs completed !! id =
    if bool_decide (id ∈ newIDs) then last_ok completed id else None.
Proof.
  induction completed as [|cs l IH] using rev_ind; [by case_bool_decide|].
  rewrite carry_candidates_snoc. unfold last_ok in *.
  rewrite List.filter_app, last_app. simpl.
  destruct (cs_error cs) as [e|] eqn:Ee; simpl.
  - rewrite andb_false_r. simpl. destruct (bool_decide (cs_step_id cs ∈ newIDs)); exact IH.
  - rewrite andb_true_r. destruct (decide (cs_step_id cs = id)) as [Heq|Hne].
    + rewrite (bool_decide_eq_true_2 (cs_step_id cs = id)) by done. simpl. rewrite Heq.
      destruct (bool_decide (id ∈ newIDs)) eqn:Hid; [by rewrite lookup_insert_eq|].
      exact IH.
    + rewrite (bool_decide_eq_false_2 (cs_step_id cs = id)) by done. simpl.
      destruct (bool_decide (cs_step_id cs ∈ newIDs)); [rewrite lookup_insert_ne by done|]; exact IH.
Qed.

Lemma carry_candidates_size p completed :
  size (carry_candidates (list_to_set (step_ids p)) completed) <= length (p_steps p).
Proof.
  rewrite <- size_dom.
  transitivity (size (list_to_set (step_ids p) : gset string)).
  - apply subseteq_size. intros id Hid. apply elem_of_dom in Hid as [cs Hcs].
    rewrite carry_candidates_lookup in Hcs. by case_bool_decide.
  - etrans; [apply size_list_to_set_le|]. unfold step_ids. by rewrite length_map.
Qed.

(** C36: [BuildCarryForward] terminates (one pass more than the plan has steps
    is enough) and returns the LARGEST set of results that may be carried over:
    every carried entry is the last error-free result of a step of the new
    plan, no carried step depends on a plan step that is not carried, and
    every other set with these two properties is contained in it.  A nil plan,
    and only an empty selection otherwise, gives the nil map. *)
Theorem BuildCarryForward_greatest completed p fuel (Hfuel : length (p_steps p) < fuel) :
  let newIDs : gset string := list_to_set (step_ids p) in
  exists carried : gmap string CompletedStep,
    BuildCarryForward fuel completed (Some p) =
      Some (if decide (size carried = 0) then None else Some carried) /\
    (forall id cs, carried !! id = Some cs -> id ∈ newIDs /\ last_ok completed id = Some cs) /\
    carry_closed newIDs (p_steps p) (dom carried) /\
    (forall C : gset string,
       carry_closed newIDs (p_steps p) C ->
       (forall id, id ∈ C -> id ∈ newIDs /\ is_Some (last_ok completed id)) ->
       C ⊆ dom carried).
Proof.
  intros newIDs.
  pose proof (carry_candidates_size p completed) as Hsz.
  destruct (carry_loop_facts newIDs (p_steps p) fuel (carry_candidates newIDs completed))
    as (carried & Hloop & Hsub & Hcl & HC); [unfold newIDs; lia|].
  exists carried. split; [|split; [|split; [done|]]].
  - unfold BuildCarryForward. fold newIDs. by rewrite Hloop.
  - intros id cs Hid. pose proof (lookup_weaken _ _ _ _ Hid Hsub) as Hc.
    rewrite carry_candidates_lookup in Hc. case_bool_decide; done.
  - intros C HCc HCi. apply HC; [done|]. intros id Hid.
    destruct (HCi id Hid) as [Hn [cs Hcs]]. apply elem_of_dom. exists cs.
    rewrite carry_candidates_lookup, bool_decide_eq_true_2; done.
Qed.

Definition example_step (id : string) (deps : list string) : PlanStep :=
  mkPlanStep id "" "" (Some deps) false None "" None.
Definition example_done (id : string) (e : option gerror) : CompletedStep :=
  mkCompletedStep id "out" e [].

Definition example_plan : Plan :=
  mkPlan [example_step "s1" []; example_step "s2" ["s1"]] "".

(** Step b depends on a re-executed step a: only c survives. *)
Definition example_carry : option (option (gmap string CompletedStep)) :=
  BuildCarryForward 4
    [example_done "a" (Some (mkErr "boom" [])); example_done "b" None; example_done "c" None]
    (Some (mkPlan [example_step "a" []; example_step "b" ["a"]; example_step "c" []] "")).

Lemma BuildCarryForward_greatest_witness :
  (exists carried : gmap string CompletedStep,
     example_carry = Some (if decide (size carried = 0) then None else Some carried)) /\
  example_carry = Some (Some {[ "c" := example_done "c" None ]}).
Proof.
  split; [|vm_compute; reflexivity].
  destruct (BuildCarryForward_greatest
    [example_done "a" (Some (mkErr "boom" [])); example_done "b" None; example_done "c" None]
    (mkPlan [example_step "a" []; example_step "b" ["a"]; example_step "c" []] "")
    4 ltac:(simpl; lia)) as (carried & H & _).
  exists carried. exact H.
Defined.

(** ** Output aggregation *)

Lemma elem_of_dependedUpon p id :
  id ∈ dependedUpon p <-> exists s, s ∈ p_steps p /\ id ∈ deps_of s.
Proof.
  unfold dependedUpon.
  assert (forall deps (acc : gset string),
    fold_left (fun acc depID => {[depID]} ∪ acc) deps acc = list_to_set deps ∪ acc) as Hin.
  { induction deps as [|d deps IH]; intros acc; simpl; [set_solver|]. rewrite IH. set_solver. }
  assert (forall l (acc : gset string), id ∈ fold_left (fun acc step =>
      fold_left (fun acc depID => {[depID]} ∪ acc) (deps_of step) acc) l acc <->
      (exists s, s ∈ l /\ id ∈ deps_of s) \/ id ∈ acc) as H.
  { induction l as [|s l IH]; intros acc; simpl.
    - split; [by right|]. intros [(s & Hs & _)|]; [set_solver|done].
    - rewrite IH, Hin, elem_of_union, elem_of_list_to_set. split.
      + intros [(x & ? & ?)|[?|?]]; [left; exists x; set_solver|left; exists s; set_solver|by right].
      + intros [(x & Hx & ?)|?]; [|auto].
        apply elem_of_cons in Hx as [->|]; [auto|left; eauto]. }
  rewrite H. set_solver.
Qed.

(** The outputs both loops collect, as filters over the plan. *)
Definition output_of (completed : gmap string CompletedStep) (pre : gset string) (step : PlanStep)
    : option string :=
  if bool_decide (ps_id step ∈ pre) then None else ok_output completed (ps_id step).

Lemma all_outputs_omap completed p pre :
  all_outputs completed p pre = omap (output_of completed pre) (p_steps p).
Proof.
  unfold all_outputs. rewrite <- (app_nil_l (omap _ _)), <- fold_left_append_omap.
  apply fold_left_ext. intros acc s _. unfold output_of. by case_bool_decide.
Qed.

Lemma terminal_outputs_omap completed p pre :
  terminal_outputs completed p pre =
  omap (fun s => if bool_decide (ps_id s ∈ dependedUpon p) then None else output_of completed pre s)
    (p_steps p).
Proof.
  unfold terminal_outputs. rewrite <- (app_nil_l (omap _ _)), <- fold_left_append_omap.
  apply fold_left_ext. intros acc s _. unfold output_of. repeat case_bool_decide; done.
Qed.

Lemma output_of_spec completed pre s :
  is_Some (output_of completed pre s) <-> ps_id s ∉ pre /\ completed_ok completed (ps_id s).
Proof.
  unfold output_of, ok_output, completed_ok. case_bool_decide as Hp.
  - split; [intros [? ?]; done|intros [? ?]; done].
  - destruct (completed !! ps_id s) as [cs|]; [destruct (cs_error cs) eqn:E|]; split.
    + intros [? ?]; done.
    + intros [_ (? & [= <-] & ?)]. congruence.
    + eauto.
    + eauto.
    + intros [? ?]; done.
    + intros [_ (? & ? & _)]. done.
Qed.

Lemma output_of_eq completed pre s :
  is_Some (output_of completed pre s) -> output_of completed pre s = ok_output completed (ps_id s).
Proof. unfold output_of. case_bool_decide; [intros [? ?]|]; done. Qed.

(** The answer of a plan is the blank-line-separated list, in plan order,
    of the outputs of the steps that completed without error, were not
    inherited from a previous turn, and on which no step of the plan depends;
    only when no such step exists is it the list of all the non-inherited
    error-free outputs. *)
Theorem AggregateOutput_spec completed p pre :
  exists chosen,
    chosen `sublist_of` p_steps p /\
    AggregateOutput completed (Some p) pre =
      join nl2 (omap (fun s => ok_output completed (ps_id s)) chosen) /\
    (forall s, s ∈ chosen <->
       s ∈ p_steps p /\ (ps_id s ∉ pre /\ completed_ok completed (ps_id s)) /\
       (ps_id s ∉ dependedUpon p \/
        forall t, t ∈ p_steps p -> ps_id t ∉ pre /\ completed_ok completed (ps_id t) ->
          ps_id t ∈ dependedUpon p)).
Proof.
  set (g := fun s => if bool_decide (ps_id s ∈ dependedUpon p) then None
                     else output_of completed pre s).
  assert (forall s, is_Some (g s) <-> ps_id s ∉ dependedUpon p /\ is_Some (output_of completed pre s)) as Hg.
  { intros s. unfold g. case_bool_decide; [|tauto]. split; [intros [? ?]; done|tauto]. }
  assert (forall s, is_Some (g s) -> g s = ok_output completed (ps_id s)) as Hge.
  { intros s Hs. rewrite <- (output_of_eq completed pre) by (by apply Hg). unfold g in *.
    case_bool_decide; [by destruct Hs|done]. }
  unfold AggregateOutput. rewrite terminal_outputs_omap, all_outputs_omap. fold g.
  case_decide as Hlen.
  - apply nil_length_inv in Hlen. rewrite omap_nil in Hlen.
    exists (List.filter (fun s => bool_decide (is_Some (output_of completed pre s))) (p_steps p)).
    split; [apply List_filter_sublist|]. split.
    { f_equal. apply omap_filter. intros s _. apply output_of_eq. }
    intros s. rewrite elem_of_List_filter, bool_decide_eq_true, output_of_spec.
    split; [|tauto]. intros [Hs Ho]. split; [done|]. split; [done|]. right. intros t Ht Hto.
    apply dec_stable. intros Hn. assert (is_Some (g t)) as [? Hsome]
      by (apply Hg; rewrite output_of_spec; done).
    rewrite Hlen in Hsome by done. done.
  - exists (List.filter (fun s => bool_decide (is_Some (g s))) (p_steps p)).
    split; [apply List_filter_sublist|]. split.
    { f_equal. apply omap_filter. intros s _. apply Hge. }
    intros s. rewrite elem_of_List_filter, bool_decide_eq_true, Hg, output_of_spec.
    split; [tauto|]. intros (Hs & Ho & [Hd|Hall]); [tauto|]. exfalso. apply Hlen.
    apply length_zero_iff_nil, omap_nil. intros t Ht. apply eq_None_not_Some.
    rewrite Hg, output_of_spec. intros [Hnd Hto]. apply Hnd. by apply Hall.
Qed.
