(* ===== verification/PlanDag.v ===== *)
(** * Plan validation: [validatePlanDAG] of [src/planner/planner.go]

    The three checks of the planner on a parsed plan: unique step IDs, known
    dependencies, and no cycle, the last one by the three-colour depth-first
    search of the source.  The colour map of the search holds [Gray] and
    [Black] entries; an ID it does not hold is white, as Go's zero value is. *)

From Stdlib Require Import ZArith Lia Relations.
From stdpp Require Import base gmap strings list relations.
From S2P Require Import Prelude GoStr AgentTypes Plan.

Inductive Color := Gray | Black.

(** The error messages of [validatePlanDAG], by the check that fails. *)
Inductive dag_error :=
| DuplicateID (id : string)
| UnknownDep (id dep : string)
| Cycle (id : string).

(** First loop: [ids], or the first ID seen twice. *)
Fixpoint collect_ids (steps : list PlanStep) (ids : gset string) : gset string + dag_error :=
  match steps with
  | [] => inl ids
  | step :: rest =>
      if bool_decide (ps_id step ∈ ids) then inr (DuplicateID (ps_id step))
      else collect_ids rest ({[ps_id step]} ∪ ids)
  end.

(** Second loop: the first dependency that is neither a step of the plan nor
    a known prior ID. *)
Fixpoint unknown_in (ids prior : gset string) (id : string) (deps : list string) : option dag_error :=
  match deps with
  | [] => None
  | dep :: rest =>
      if bool_decide (dep ∉ ids) && bool_decide (dep ∉ prior) then Some (UnknownDep id dep)
      else unknown_in ids prior id rest
  end.

Fixpoint check_deps (ids prior : gset string) (steps : list PlanStep) : option dag_error :=
  match steps with
  | [] => None
  | step :: rest =>
      match unknown_in ids prior (ps_id step) (deps_of step) with
      | Some e => Some e
      | None => check_deps ids prior rest
      end
  end.

(** The in-plan edges of the graph. *)
Definition in_plan_deps (ids : gset string) (steps : list PlanStep) : gmap string (list string) :=
  fold_left (fun deps step =>
    <[ps_id step := List.filter (fun dep => bool_decide (dep ∈ ids)) (deps_of step)]> deps) steps ∅.

Definition deps_at (deps : gmap string (list string)) (id : string) : list string :=
  default [] (deps !! id).

(** The outcome of a visit; [VFuel] is the model running out of depth. *)
Inductive visited :=
| VOk (color : gmap string Color)
| VErr (e : dag_error)
| VFuel.

(** The loop over the dependencies inside [visit]. *)
Fixpoint visit_all (visit : gmap string Color -> string -> visited) (color : gmap string Color)
    (ids : list string) : visited :=
  match ids with
  | [] => VOk color
  | dep :: rest =>
      match visit color dep with
      | VOk color' => visit_all visit color' rest
      | other => other
      end
  end.

Fixpoint visit (fuel : nat) (deps : gmap string (list string)) (color : gmap string Color)
    (id : string) : visited :=
  match fuel with
  | O => VFuel
  | S fuel' =>
      match color !! id with
      | Some Gray => VErr (Cycle id)
      | Some Black => VOk color
      | None =>
          match visit_all (visit fuel' deps) (<[id := Gray]> color) (deps_at deps id) with
          | VOk color' => VOk (<[id := Black]> color')
          | other => other
          end
      end
  end.

(** [None]: out of fuel; [Some None]: valid; [Some (Some e)]: rejected. *)
Definition validatePlanDAG (fuel : nat) (p : Plan) (knownPriorIDs : gset string)
    : option (option dag_error) :=
  match collect_ids (p_steps p) ∅ with
  | inr e => Some (Some e)
  | inl ids =>
      match check_deps ids knownPriorIDs (p_steps p) with
      | Some e => Some (Some e)
      | None =>
          match visit_all (visit fuel (in_plan_deps ids (p_steps p))) ∅ (step_ids p) with
          | VOk _ => Some None
          | VErr e => Some (Some e)
          | VFuel => None
          end
      end
  end.

(** ** The first two checks *)

Lemma collect_ids_ok steps ids :
  match collect_ids steps ids with
  | inl r => r = list_to_set (map ps_id steps) ∪ ids /\ NoDup (map ps_id steps) /\
             forall x, x ∈ map ps_id steps -> x ∉ ids
  | inr e => exists id, e = DuplicateID id /\ id ∈ map ps_id steps /\
             (~ NoDup (map ps_id steps) \/ id ∈ ids)
  end.
Proof.
  revert ids; induction steps as [|s l IH]; intros ids; simpl.
  { repeat split; [set_solver|constructor|set_solver]. }
  case_bool_decide as Hs; [exists (ps_id s); set_solver|].
  specialize (IH ({[ps_id s]} ∪ ids)). destruct (collect_ids _ _) as [r|e].
  - destruct IH as (-> & Hnd & Hx). repeat split; [set_solver| |set_solver].
    constructor; [|done]. intros Hin. specialize (Hx _ Hin). set_solver.
  - destruct IH as (id & -> & Hin & Hor). exists id. split; [done|]. split; [set_solver|].
    destruct Hor as [Hnd|Hid].
    + left. intros Hn. apply NoDup_cons in Hn as [_ Hn]. done.
    + apply elem_of_union in Hid as [->%elem_of_singleton|Hid]; [|by right].
      left. intros Hn. apply NoDup_cons in Hn as [Hn _]. done.
Qed.

Lemma unknown_in_spec ids prior id deps :
  match unknown_in ids prior id deps with
  | None => forall d, d ∈ deps -> d ∈ ids \/ d ∈ prior
  | Some e => exists d, e = UnknownDep id d /\ d ∈ deps /\ d ∉ ids /\ d ∉ prior
  end.
Proof.
  induction deps as [|d deps IH]; simpl; [set_solver|].
  destruct (bool_decide (d ∉ ids) && bool_decide (d ∉ prior)) eqn:E.
  - boolean. exists d. set_solver.
  - apply andb_false_iff in E. rewrite !bool_decide_eq_false in E.
    destruct (unknown_in _ _ _ _) as [e|].
    + destruct IH as (x & ? & ? & ?). exists x. set_solver.
    + intros x. rewrite elem_of_cons. intros [->|Hx]; [|auto].
      destruct E as [E|E]; apply dec_stable in E; auto.
Qed.

Lemma check_deps_spec ids prior steps :
  match check_deps ids prior steps with
  | None => forall s, s ∈ steps -> forall d, d ∈ deps_of s -> d ∈ ids \/ d ∈ prior
  | Some e => exists s d, e = UnknownDep (ps_id s) d /\ s ∈ steps /\ d ∈ deps_of s /\
                d ∉ ids /\ d ∉ prior
  end.
Proof.
  induction steps as [|s l IH]; simpl; [set_solver|].
  pose proof (unknown_in_spec ids prior (ps_id s) (deps_of s)) as Hu.
  destruct (unknown_in _ _ _ _) as [e|].
  - destruct Hu as (d & -> & ? & ? & ?). exists s, d. set_solver.
  - destruct (check_deps _ _ _) as [e|].
    + destruct IH as (x & d & ? & ? & ?). exists x, d. set_solver.
    + intros x. rewrite elem_of_cons. intros [->|Hx]; [exact Hu|by apply IH].
Qed.

(** With unique IDs, the edges of a step are its in-plan dependencies. *)
Lemma in_plan_deps_spec ids steps :
  NoDup (map ps_id steps) ->
  forall s, s ∈ steps ->
    deps_at (in_plan_deps ids steps) (ps_id s) =
    List.filter (fun dep => bool_decide (dep ∈ ids)) (deps_of s).
Proof.
  unfold in_plan_deps, deps_at. induction steps as [|x l IH] using rev_ind; [set_solver|].
  rewrite map_app, NoDup_app. intros (Hnd & Hdis & _) s. rewrite elem_of_app, list_elem_of_singleton.
  rewrite fold_left_app. simpl. intros [Hs| ->].
  - rewrite lookup_insert_ne; [by apply IH|]. intros Heq.
    apply (Hdis (ps_id s)); [|rewrite <- Heq; set_solver].
    apply list_elem_of_fmap. eauto.
  - by rewrite lookup_insert_eq.
Qed.

(** ** The depth-first search *)

Section dfs.
Context (deps : gmap string (list string)) (nodes : gset string).

(** [edge x y]: step [x] depends on step [y]. *)
Definition edge (x y : string) : Prop := y ∈ deps_at deps x.

Hypothesis closed : forall x y, x ∈ nodes -> edge x y -> y ∈ nodes.

Definition gray (c : gmap string Color) (x : string) : Prop := c !! x = Some Gray.
Definition black (c : gmap string Color) (x : string) : Prop := c !! x = Some Black.

(** Finished steps have no infinite dependency chain. *)
Definition black_wf (c : gmap string Color) : Prop :=
  forall x, black c x -> Acc (fun y x => edge x y) x.

(** What a visit of [targets] from colouring [c] guarantees. *)
Definition visit_post (c : gmap string Color) (targets : list string) (r : visited) : Prop :=
  match r with
  | VFuel => False
  | VErr e => exists x, e = Cycle x /\ tc edge x x
  | VOk c' =>
      (forall x, x ∈ targets -> black c' x) /\
      (forall x, gray c' x <-> gray c x) /\
      (forall x, black c x -> black c' x) /\
      black_wf c' /\ dom c ⊆ dom c'
  end.

(** Every gray step reaches [x]: the gray steps are the current path. *)
Definition on_path (c : gmap string Color) (x : string) : Prop :=
  forall g, gray c g -> tc edge g x.

Definition visit_spec (fuel : nat) : Prop :=
  forall c id, id ∈ nodes -> size (nodes ∖ dom c) < fuel -> on_path c id -> black_wf c ->
    visit_post c [id] (visit fuel deps c id).

Lemma visit_all_facts fuel (H : visit_spec fuel) l c :
  (forall x, x ∈ l -> x ∈ nodes) -> size (nodes ∖ dom c) < fuel ->
  (forall x, x ∈ l -> on_path c x) -> black_wf c ->
  visit_post c l (visit_all (visit fuel deps) c l).
Proof.
  revert c; induction l as [|x l IH]; intros c Hn Hf Hp Hb; simpl.
  { split; [set_solver|]. done. }
  pose proof (H c x (Hn x ltac:(set_solver)) Hf (Hp x ltac:(set_solver)) Hb) as Hx.
  destruct (visit fuel deps c x) as [c1|e|]; [|done|done].
  destruct Hx as (Hxb & Hg & Hbl & Hwf & Hd).
  assert (visit_post c1 l (visit_all (visit fuel deps) c1 l)) as Hr.
  { apply IH; [set_solver| | |done].
    - eapply Nat.le_lt_trans; [|done]. apply subseteq_size. set_solver.
    - intros y Hy g Hgy. apply (Hp y ltac:(set_solver) g). by apply Hg. }
  destruct (visit_all _ c1 l) as [c2|e|]; [|done|done].
  destruct Hr as (Hlb & Hg2 & Hbl2 & Hwf2 & Hd2).
  split; [|split; [|split; [|split; [done|set_solver]]]].
  - intros y. rewrite elem_of_cons. intros [->|Hy]; [apply Hbl2, Hxb; set_solver|auto].
  - intros y. by rewrite Hg2.
  - auto.
Qed.

Lemma visit_facts fuel : visit_spec fuel.
Proof.
  induction fuel as [|fuel IH]; intros c id Hid Hf Hp Hb; [lia|]. simpl.
  destruct (c !! id) as [[|]|] eqn:Ec.
  - exists id. split; [done|]. by apply Hp.
  - split; [|done]. by intros x ->%list_elem_of_singleton.
  - assert (forall x, gray (<[id:=Gray]> c) x <-> x = id \/ gray c x) as Hgi.
    { intros x. unfold gray. destruct (decide (x = id)) as [->|Hne].
      - rewrite lookup_insert_eq. tauto.
      - rewrite lookup_insert_ne by done. naive_solver. }
    assert (forall x, black (<[id:=Gray]> c) x <-> black c x) as Hbi.
    { intros x. unfold black. destruct (decide (x = id)) as [->|Hne].
      - rewrite lookup_insert_eq, Ec. naive_solver.
      - by rewrite lookup_insert_ne by done. }
    assert (visit_post (<[id:=Gray]> c) (deps_at deps id)
              (visit_all (visit fuel deps) (<[id:=Gray]> c) (deps_at deps id))) as Hr.
    { apply visit_all_facts; [done| | | |].
      - intros x Hx. by apply (closed id).
      - rewrite dom_insert_L.
        assert (id ∈ nodes ∖ dom c) as Hin.
        { apply elem_of_difference; split; [done|]. by apply not_elem_of_dom. }
        assert (size (nodes ∖ ({[id]} ∪ dom c)) < size (nodes ∖ dom c)); [|lia].
        apply subset_size. split; [set_solver|]. set_solver.
      - intros x Hx g Hgx. apply Hgi in Hgx as [->|Hgx]; [by apply tc_once|].
        eapply tc_r; [by apply Hp|done].
      - intros x Hx. apply Hb. by apply Hbi. }
    destruct (visit_all _ _ _) as [c1|e|]; [|done|done].
    destruct Hr as (Hbl & Hg & Hmono & Hwf & Hd).
    assert (id ∈ dom c1) as Hidd by (rewrite dom_insert_L in Hd; set_solver).
    split; [|split; [|split; [|split]]].
    + intros x ->%list_elem_of_singleton. apply lookup_insert_eq.
    + intros x. unfold gray. destruct (decide (x = id)) as [->|Hne].
      * rewrite lookup_insert_eq, Ec. naive_solver.
      * rewrite lookup_insert_ne by done. rewrite (Hg x), Hgi. naive_solver.
    + intros x Hx. unfold black. destruct (decide (x = id)) as [->|Hne].
      * by rewrite lookup_insert_eq.
      * rewrite lookup_insert_ne by done. apply Hmono, Hbi, Hx.
    + intros x Hx. unfold black in Hx. destruct (decide (x = id)) as [->|Hne].
      * constructor. intros y Hy. apply Hwf, Hbl, Hy.
      * rewrite lookup_insert_ne in Hx by done. by apply Hwf.
    + rewrite dom_insert_L. rewrite dom_insert_L in Hd. set_solver.
Qed.

(** A cycle contradicts well-foundedness. *)
Lemma Acc_no_cycle x : Acc (fun y x => edge x y) x -> ~ tc edge x x.
Proof.
  assert (forall x y, Acc (fun y x => edge x y) x -> tc edge x y -> Acc (fun y x => edge x y) y) as Hinv.
  { intros a b Ha Hab. induction Hab as [a b Hab|a b c Hab _ IH].
    - by apply Ha.
    - apply IH. by apply Ha. }
  induction 1 as [x Hacc IH]. intros Hc.
  inversion Hc as [a b Hab|a b c Hab Hbc]; subst.
  - eapply IH; [exact Hab|]. by apply tc_once.
  - eapply IH; [exact Hab|]. eapply tc_r; [exact Hbc|exact Hab].
Qed.
End dfs.

(** ** Correctness of the validation *)

(** [plan_edge p x y]: a step with ID [x] depends on [y], a step of the plan. *)
Definition plan_edge (p : Plan) (x y : string) : Prop :=
  exists s, s ∈ p_steps p /\ ps_id s = x /\ y ∈ deps_of s /\ y ∈ step_ids p.

(** What the planner promises of a plan it accepts. *)
Record valid_plan (p : Plan) (prior : gset string) : Prop := {
  vp_unique : NoDup (step_ids p);
  vp_known : forall s, s ∈ p_steps p -> forall d, d ∈ deps_of s -> d ∈ step_ids p \/ d ∈ prior;
  vp_acyclic : forall x, ~ tc (plan_edge p) x x;
}.

(** The defect an error message names. *)
Definition dag_error_holds (p : Plan) (prior : gset string) (e : dag_error) : Prop :=
  match e with
  | DuplicateID id => id ∈ step_ids p /\ ~ NoDup (step_ids p)
  | UnknownDep id dep => exists s, s ∈ p_steps p /\ ps_id s = id /\ dep ∈ deps_of s /\
                           dep ∉ step_ids p /\ dep ∉ prior
  | Cycle id => tc (plan_edge p) id id
  end.

Lemma edge_plan_edge p x y :
  NoDup (step_ids p) ->
  edge (in_plan_deps (list_to_set (step_ids p)) (p_steps p)) x y <-> plan_edge p x y.
Proof.
  intros Hnd. unfold edge, plan_edge. split.
  - intros Hy. destruct (decide (x ∈ step_ids p)) as [Hx|Hx].
    + unfold step_ids in Hx. apply list_elem_of_fmap in Hx as (s & -> & Hs).
      rewrite (in_plan_deps_spec _ _ Hnd s Hs), elem_of_List_filter, bool_decide_eq_true,
        elem_of_list_to_set in Hy. exists s. naive_solver.
    + exfalso. apply Hx. unfold deps_at, in_plan_deps in Hy. clear Hx Hnd.
      assert (forall l (m : gmap string (list string)),
        y ∈ default [] (fold_left (fun deps step =>
          <[ps_id step := List.filter (fun dep => bool_decide (dep ∈ (list_to_set (step_ids p) : gset string)))
              (deps_of step)]> deps) l m !! x) ->
        x ∈ map ps_id l \/ y ∈ default [] (m !! x)) as Hg.
      { induction l as [|s l IH]; intros m; simpl; [by right|]. intros H%IH.
        destruct H as [H|H]; [left; set_solver|].
        destruct (decide (x = ps_id s)) as [->|Hne]; [left; set_solver|].
        rewrite lookup_insert_ne in H by done. by right. }
      apply Hg in Hy as [Hy|Hy]; [done|]. rewrite lookup_empty in Hy. set_solver.
  - intros (s & Hs & <- & Hy & Hin).
    rewrite (in_plan_deps_spec _ _ Hnd s Hs), elem_of_List_filter, bool_decide_eq_true,
      elem_of_list_to_set. done.
Qed.

Lemma tc_iff {A} (R S : A -> A -> Prop) x y :
  (forall a b, R a b <-> S a b) -> tc R x y <-> tc S x y.
Proof.
  intros H. split; induction 1 as [a b Hab|a b c Hab _ IH];
    solve [apply tc_once; by apply H | eapply tc_l; [by apply H|done]].
Qed.

(** The outcome of a validation with enough fuel. *)
Lemma validatePlanDAG_outcome p prior fuel :
  length (p_steps p) < fuel ->
  exists o, validatePlanDAG fuel p prior = Some o /\
    match o with
    | None => valid_plan p prior /\ forall x, x ∈ step_ids p -> Acc (fun y x => plan_edge p x y) x
    | Some e => dag_error_holds p prior e
    end.
Proof.
  intros Hfuel. unfold validatePlanDAG.
  pose proof (collect_ids_ok (p_steps p) ∅) as Hc.
  destruct (collect_ids _ _) as [ids|e].
  2:{ destruct Hc as (id & -> & Hin & [Hnd|?]); [|set_solver]. eexists. split; [done|]. done. }
  destruct Hc as (-> & Hnd & _). rewrite union_empty_r_L.
  change (map ps_id (p_steps p)) with (step_ids p) in *.
  pose proof (check_deps_spec (list_to_set (step_ids p)) prior (p_steps p)) as Hd.
  destruct (check_deps _ _ _) as [e|].
  { destruct Hd as (s & d & -> & Hs & Hdd & Hn & Hp). eexists. split; [done|]. exists s.
    rewrite elem_of_list_to_set in Hn. done. }
  set (deps := in_plan_deps (list_to_set (step_ids p)) (p_steps p)).
  assert (Hv : visit_post deps ∅ (step_ids p) (visit_all (visit fuel deps) ∅ (step_ids p))).
  { assert (Hcl : forall x y, x ∈ (list_to_set (step_ids p) : gset string) -> edge deps x y ->
                    y ∈ (list_to_set (step_ids p) : gset string)).
    { intros x y _ (? & _ & _ & _ & Hy)%edge_plan_edge; [|done]. by apply elem_of_list_to_set. }
    apply (visit_all_facts deps (list_to_set (step_ids p))); [done|by apply visit_facts| | | |].
    - intros x Hx. by apply elem_of_list_to_set.
    - rewrite dom_empty_L, difference_empty_L. eapply Nat.le_lt_trans; [apply size_list_to_set_le|].
      unfold step_ids. by rewrite length_map.
    - intros x _ g Hg. unfold gray in Hg. by rewrite lookup_empty in Hg.
    - intros x Hx. unfold black in Hx. by rewrite lookup_empty in Hx. }
  assert (Hee : forall a b, edge deps a b <-> plan_edge p a b) by (intros; by apply edge_plan_edge).
  destruct (visit_all _ _ _) as [c|e|]; [| |done]; eexists; (split; [done|]).
  - destruct Hv as (Hb & _ & _ & Hwf & _).
    assert (Hacc : forall x, x ∈ step_ids p -> Acc (fun y x => plan_edge p x y) x).
    { intros x Hx. specialize (Hwf x (Hb x Hx)). clear -Hwf Hee.
      induction Hwf as [x _ IH]. constructor. intros y Hy. apply IH. by apply Hee. }
    split; [|done]. constructor; [done| |].
    + intros s Hs d Hds. destruct (Hd s Hs d Hds) as [Hi|?]; [|by right].
      left. by apply elem_of_list_to_set in Hi.
    + intros x Hx. apply (Acc_no_cycle deps x).
      * apply Hwf, Hb. clear -Hx. inversion Hx as [a b (s & Hs & <- & _)|a b c (s & Hs & <- & _)]; subst;
          apply list_elem_of_fmap; eauto.
      * by apply (tc_iff _ _ x x Hee).
  - destruct Hv as (x & -> & Hx). by apply (tc_iff _ _ x x Hee).
Qed.

(** The verdict of a validation with enough fuel is exact. *)
Lemma validatePlanDAG_iff p prior fuel :
  length (p_steps p) < fuel -> (validatePlanDAG fuel p prior = Some None <-> valid_plan p prior).
Proof.
  intros Hfuel. destruct (validatePlanDAG_outcome p prior fuel Hfuel) as (o & -> & Ho).
  destruct o as [e|]; [|tauto]. split; [done|]. intros [Hu Hk Ha]. exfalso.
  destruct e as [id|id d|id]; simpl in Ho.
  - destruct Ho as [_ Ho]. done.
  - destruct Ho as (s & Hs & _ & Hd & Hn & Hp). destruct (Hk s Hs d Hd); done.
  - by apply (Ha id).
Qed.

(** The dependency order of a valid plan is well-founded. *)
Lemma valid_plan_acc p prior :
  valid_plan p prior -> forall x, x ∈ step_ids p -> Acc (fun y x => plan_edge p x y) x.
Proof.
  intros Hv. destruct (validatePlanDAG_outcome p prior (S (length (p_steps p))) ltac:(lia)) as (o & Hval & Ho).
  rewrite (proj2 (validatePlanDAG_iff p prior (S (length (p_steps p))) ltac:(lia)) Hv) in Hval. injection Hval as <-. apply Ho.
Qed.

(** C37: [validatePlanDAG] terminates (its recursion never goes deeper than the
    number of steps) and accepts exactly the plans whose step IDs are unique,
    whose dependencies are steps of the plan or known prior IDs, and whose
    in-plan dependency graph has no cycle; an error it reports names a defect
    the plan really has. *)
Theorem validatePlanDAG_correct p prior fuel (Hfuel : length (p_steps p) < fuel) :
  (validatePlanDAG fuel p prior = Some None <-> valid_plan p prior) /\
  (forall e, validatePlanDAG fuel p prior = Some (Some e) -> dag_error_holds p prior e) /\
  validatePlanDAG fuel p prior <> None.
Proof.
  split; [by apply validatePlanDAG_iff|].
  destruct (validatePlanDAG_outcome p prior fuel Hfuel) as (o & -> & Ho).
  split; [by intros e [= ->]|done].
Qed.

Definition example_cyclic : Plan :=
  mkPlan [example_step "a" ["b"]; example_step "b" ["a"]] "".
Definition example_diamond : Plan :=
  mkPlan [example_step "d" ["b"; "c"]; example_step "b" ["a"]; example_step "c" ["a"; "p"];
          example_step "a" []] "".

Lemma validatePlanDAG_correct_witness :
  valid_plan example_diamond {["p"]} /\
  validatePlanDAG 3 example_cyclic ∅ = Some (Some (Cycle "a")).
Proof.
  split; [|vm_compute; reflexivity].
  apply (validatePlanDAG_correct example_diamond {["p"]} 5 ltac:(simpl; lia)).
  vm_compute. reflexivity.
Defined.

(** ** Scheduling of a validated plan *)

(** The scheduler never gets stuck on an accepted plan: as long as some
    step is not completed, and no completed step (nor any prior step the plan
    refers to) has failed, [FindReadySteps] returns at least one step. *)
Theorem FindReadySteps_progress p prior completed
  (Hvalid : valid_plan p prior)
  (Hprior : forall d, d ∈ prior -> completed_ok completed d)
  (Hok : forall id cs, completed !! id = Some cs -> cs_error cs = None)
  (Hleft : exists s, s ∈ p_steps p /\ completed !! ps_id s = None) :
  FindReadySteps (Some p) completed <> [].
Proof.
  pose proof (valid_plan_acc p prior Hvalid) as Hacc.
  destruct Hleft as (s & Hs & Hnone).
  assert (Hids : ps_id s ∈ step_ids p) by (apply list_elem_of_fmap; eauto).
  remember (ps_id s) as x eqn:Hx. specialize (Hacc x Hids).
  revert s Hs Hx Hnone. induction Hacc as [x _ IH]. intros s Hs -> Hnone.
  destruct (allDepsComplete completed (deps_of s)) eqn:E.
  - intros Hnil. apply (not_elem_of_nil s). rewrite <- Hnil.
    rewrite FindReadySteps_filter, elem_of_List_filter, ready_step_spec.
    rewrite allDepsComplete_spec in E. done.
  - assert (Hd : exists d, d ∈ deps_of s /\ ~ completed_ok completed d).
    { destruct (decide (Forall (completed_ok completed) (deps_of s))) as [H|H].
      - rewrite <- not_true_iff_false, allDepsComplete_spec in E. exfalso. apply E.
        intros d Hd. rewrite Forall_forall in H. auto.
      - apply not_Forall_Exists in H; [|apply _]. apply Exists_exists in H. done. }
    destruct Hd as (d & Hd & Hnok).
    destruct (vp_known _ _ Hvalid s Hs d Hd) as [Hin|Hpr]; [|by destruct Hnok; auto].
    assert (Hdn : completed !! d = None).
    { destruct (completed !! d) as [cs|] eqn:Ec; [|done]. destruct Hnok. exists cs. eauto. }
    unfold step_ids in Hin. apply list_elem_of_fmap in Hin as (s' & -> & Hs').
    apply (IH (ps_id s')) with (s := s'); try done.
    + exists s. split_and!; try done. apply list_elem_of_fmap. eauto.
    + apply list_elem_of_fmap. eauto.
Qed.

Lemma FindReadySteps_progress_witness :
  FindReadySteps (Some example_diamond)
    {[ "p" := example_done "p" None; "a" := example_done "a" None ]} <> [].
Proof.
  apply (FindReadySteps_progress example_diamond {["p"]}).
  - apply (validatePlanDAG_iff example_diamond {["p"]} 5 ltac:(simpl; lia)).
    vm_compute. reflexivity.
  - intros d ->%elem_of_singleton. exists (example_done "p" None).
    split; vm_compute; reflexivity.
  - intros id cs H. apply lookup_insert_Some in H as [[_ <-]|[_ H]]; [done|].
    apply lookup_singleton_Some in H as [_ <-]. done.
  - exists (example_step "b" ["a"]). split; [|vm_compute; reflexivity].
    right. left.
Defined.

(** *** Rounds of scheduling *)

(** One round: a step that is ready is run and completes without an error. *)
Inductive round (p : Plan) : gmap string CompletedStep -> gmap string CompletedStep -> Prop :=
| round_completes completed s cs :
    s ∈ FindReadySteps (Some p) completed -> cs_error cs = None ->
    round p completed (<[ps_id s := cs]> completed).
Inductive rounds (p : Plan) : nat -> gmap string CompletedStep -> gmap string CompletedStep -> Prop :=
| rounds_none completed : rounds p 0 completed completed
| rounds_more n completed completed' completed'' :
    round p completed completed' -> rounds p n completed' completed'' -> rounds p (S n) completed completed''.

Definition left_of (p : Plan) (completed : gmap string CompletedStep) : list PlanStep :=
  List.filter (fun s => bool_decide (completed !! ps_id s = None)) (p_steps p).

Lemma ready_is_left p completed s :
  s ∈ FindReadySteps (Some p) completed -> s ∈ p_steps p /\ completed !! ps_id s = None.
Proof.
  rewrite FindReadySteps_filter, elem_of_List_filter, ready_step_spec. intros [Hs [Hn _]]. done.
Qed.
Lemma left_of_insert p completed s cs :
  s ∈ p_steps p -> completed !! ps_id s = None ->
  (length (left_of p (<[ps_id s := cs]> completed)) < length (left_of p completed))%nat.
Proof.
  intros Hs Hn. unfold left_of.
  set (f := fun s' => bool_decide (<[ps_id s:=cs]> completed !! ps_id s' = None)).
  set (g := fun s' => bool_decide (completed !! ps_id s' = None)).
  assert (Hfg : forall x, f x = true -> g x = true).
  { intros x. unfold f, g. rewrite !bool_decide_eq_true. intros [H _]%lookup_insert_None. done. }
  assert (Hle : forall l, (length (List.filter f l) <= length (List.filter g l))%nat).
  { induction l as [|x l IH]; [done|]. cbn [List.filter]. specialize (Hfg x).
    destruct (f x); [rewrite Hfg by done|destruct (g x)]; cbn [length]; lia. }
  assert (Hf : f s = false) by (unfold f; rewrite lookup_insert_eq; by apply bool_decide_eq_false).
  assert (Hg : g s = true) by by apply bool_decide_eq_true.
  induction (p_steps p) as [|x l IH]; [by apply elem_of_nil in Hs|]. cbn [List.filter].
  apply elem_of_cons in Hs as [<-|Hs].
  - rewrite Hf, Hg. specialize (Hle l). cbn [length]. lia.
  - specialize (IH Hs). specialize (Hfg x). destruct (f x); [rewrite Hfg by done|destruct (g x)]; cbn [length]; lia.
Qed.

(** What the rounds keep: the prior steps stay completed and nothing failed. *)
Definition sound_so_far (prior : gset string) (completed : gmap string CompletedStep) : Prop :=
  (forall d, d ∈ prior -> completed_ok completed d) /\ (forall id cs, completed !! id = Some cs -> cs_error cs = None).
Lemma round_keeps p prior completed completed' :
  sound_so_far prior completed -> round p completed completed' ->
  sound_so_far prior completed' /\ (length (left_of p completed') < length (left_of p completed))%nat.
Proof.
  intros [Hp Hok] Hr. destruct Hr as [completed s cs Hs He]. destruct (ready_is_left _ _ _ Hs) as [Hin Hn].
  split; [|by apply left_of_insert]. split.
  - intros d Hd. destruct (Hp d Hd) as (cd & Hd1 & Hd2). exists cd. split; [|done].
    rewrite lookup_insert_ne; [done|]. intros E. rewrite E in Hn. congruence.
  - intros id c' [[_ <-]|[_ H]]%lookup_insert_Some; [done|by eapply Hok].
Qed.
Lemma rounds_keep p prior n completed completed' :
  sound_so_far prior completed -> rounds p n completed completed' ->
  sound_so_far prior completed' /\ (n + length (left_of p completed') <= length (left_of p completed))%nat.
Proof.
  intros Hs Hr. induction Hr as [completed|n completed completed' completed'' H _ IH]; [split; [done|lia]|].
  destruct (round_keeps _ _ _ _ Hs H) as [Hs' Hl]. destruct (IH Hs') as [Hs'' Hl']. split; [done|lia].
Qed.

(** C38: scheduling a validated plan to its end: whatever ready steps are chosen
    and in whatever order, as long as they complete without an error the rounds
    end after at most as many as there are steps, and they end only when every
    step of the plan is completed. *)
Theorem scheduling_completes p prior n completed completed'
  (Hvalid : valid_plan p prior) (Hstart : sound_so_far prior completed) (Hrun : rounds p n completed completed') :
  (n <= length (p_steps p))%nat /\
  ((forall next, ~ round p completed' next) <-> (forall s, s ∈ p_steps p -> is_Some (completed' !! ps_id s))).
Proof.
  destruct (rounds_keep _ _ _ _ _ Hstart Hrun) as [[Hp Hok] Hl]. split.
  - pose proof (filter_length_le (fun s => bool_decide (completed !! ps_id s = None)) (p_steps p)) as Hf.
    unfold left_of in Hl at 2. lia.
  - split.
    + intros Hstuck s Hs. destruct (completed' !! ps_id s) as [cs|] eqn:E; [done|exfalso].
      pose proof (FindReadySteps_progress p prior completed' Hvalid Hp Hok (ex_intro _ s (conj Hs E))) as Hne.
      destruct (FindReadySteps (Some p) completed') as [|r ready] eqn:Er; [done|].
      apply (Hstuck (<[ps_id r := mkCompletedStep (ps_id r) "" None []]> completed')). constructor; [|done]. rewrite Er. left.
    + intros Hall next Hr. destruct Hr as [c s cs Hs _]. destruct (ready_is_left _ _ _ Hs) as [Hin Hn].
      destruct (Hall s Hin) as [? ?]. congruence.
Qed.

Lemma scheduling_completes_witness :
  (1 <= length (p_steps example_diamond))%nat /\
  ((forall next, ~ round example_diamond (<["a" := example_done "a" None]> {[ "p" := example_done "p" None ]}) next) <->
   (forall s, s ∈ p_steps example_diamond ->
      is_Some ((<["a" := example_done "a" None]> ({[ "p" := example_done "p" None ]} : gmap string CompletedStep)) !! ps_id s))).
Proof.
  apply (scheduling_completes example_diamond {["p"]} 1 {[ "p" := example_done "p" None ]}).
  - apply (validatePlanDAG_iff example_diamond {["p"]} 5 ltac:(simpl; lia)). vm_compute. reflexivity.
  - split.
    + intros d ->%elem_of_singleton. exists (example_done "p" None). split; vm_compute; reflexivity.
    + intros id cs [_ <-]%lookup_singleton_Some. done.
  - eapply rounds_more; [|apply rounds_none].
    apply (round_completes example_diamond _ (example_step "a" [])); [vm_compute; left|done].
Defined.
