(* ===== verification/Blackboard.v ===== *)
(** * The blackboard: [src/orchestration/blackboard.go],
      [src/orchestration/stepoutput_adapter.go] and the restoration of
      [src/orchestration/persistent_blackboard.go]

    [MapBlackboard] is the shared state of a task.  Every method of the source
    holds the blackboard's mutex for its whole body, so a method is one
    function on the state.  Copies ([copyPlan], [copyStepResult], ...) are
    written out field by field: what they must not do is lose one.

    - [lower_rune] is the part of the Unicode tables [strings.ToLower] uses
      beyond ASCII;
    - [SearchFacts] sorts with [sort.Slice], which is not stable, and [Search]
      ranges over a Go map: both are relations over the orders Go may choose;
    - times are integers, 0 the zero [time.Time]; [now] is [time.Now()]. *)

From Stdlib Require Import ZArith Lia Ascii.
From stdpp Require Import base gmap strings list sorting.
From S2P Require Import Prelude GoStr AgentTypes Plan.

Local Open Scope sp4rk_scope.

Record StepResult := mkStepResult {
  sr_step_id : string;
  sr_summary : string;
  sr_full_output : string;
  sr_error : option gerror;
  sr_steps : option (list Step);
}.

Record BlackboardEntry := mkEntry {
  be_type : string;
  be_key : string;
  be_summary : string;
}.

Record Reflection := mkReflection {
  rf_summary : string;
  rf_hypotheses : list string;
  rf_suggested_action : string;
  rf_reasoning : string;
  rf_failure_analysis : string;
  rf_root_cause : string;
  rf_action_plan : string;
  rf_timestamp : Z;
}.

Record Fact := mkFact {
  f_keywords : option (list string);
  f_content : string;
  f_author : string;
}.

Record Attachment := mkAttachment {
  a_id : string;
  a_original_name : string;
  a_original_path : string;
  a_format : string;
  a_size : Z;
  a_markdown : string;
  a_attached_at : Z;
}.

Record MapBlackboard := mkBB {
  bb_request : string;
  bb_plan : option Plan;
  bb_results : gmap string StepResult;
  bb_reflections : option (list Reflection);
  bb_final : string;
  bb_max_summary : Z;
  bb_facts : option (list Fact);
  bb_attachments : option (list Attachment);
}.

(** [NewMapBlackboard(WithMaxSummaryLen(n))]; without the option, [n] is 0. *)
Definition NewMapBlackboard (n : Z) : MapBlackboard :=
  mkBB "" None ∅ None "" n None None.

(** ** Copies *)

(** [make]+[copy] of a slice behind a nil test keeps nil-ness. *)
Definition copy_slice {A} (s : option (list A)) : option (list A) :=
  match s with None => None | Some l => Some l end.

Definition copyPlan (p : Plan) : Plan :=
  mkPlan
    (map (fun s => mkPlanStep (ps_id s) (ps_summary s) (ps_description s)
                     (copy_slice (ps_depends_on s)) (ps_parallelizable s)
                     (copy_slice (ps_estimated_tools s)) (ps_agent s) (ps_profile s))
         (p_steps p))
    (p_exploration p).

Definition copyStepResult (r : StepResult) : StepResult :=
  mkStepResult (sr_step_id r) (sr_summary r) (sr_full_output r) (sr_error r)
    (copy_slice (sr_steps r)).

(** ** Summaries *)

(** The loop [for n < len(s) && s[n] == '#']. *)
Fixpoint leading_hashes (s : string) : nat :=
  match s with
  | String c r => if Ascii.eqb c "#"%char then S (leading_hashes r) else O
  | EmptyString => O
  end.

Definition isATXHeading (s : string) : bool :=
  let n := leading_hashes s in
  if bool_decide (n = 0) || bool_decide (6 < n) then false
  else bool_decide (n = String.length s) ||
       match String.get n s with
       | Some c => Ascii.eqb c " "%char || Ascii.eqb c "009"%char
       | None => false
       end.

Fixpoint allSameByte (s : string) (b : ascii) : bool :=
  match s with
  | EmptyString => true
  | String c r => Ascii.eqb c b && allSameByte r b
  end.

Definition isSetextUnderline (s : string) : bool :=
  negb (String.eqb s "") && (allSameByte s "="%char || allSameByte s "-"%char).

(** The loop of [skipLeadingHeadings]: the lines from index [i] on when it
    stops. *)
Fixpoint skip_headings (lines : list string) : list string :=
  match lines with
  | [] => []
  | l :: rest =>
      let line := trim_space l in
      if String.eqb line "" then skip_headings rest
      else if isATXHeading line then skip_headings rest
      else match rest with
           | next :: rest' =>
               if isSetextUnderline (trim_space next) then skip_headings rest' else lines
           | [] => lines
           end
  end.

Definition skipLeadingHeadings (s : string) : string :=
  match skip_headings (split_byte "010"%char s) with
  | [] => s
  | lines => join nl lines
  end.

Definition GenerateSummary (output : string) (maxLen : Z) : string :=
  if String.eqb output "" then ""
  else
    let maxLen := if (maxLen =? 0)%Z then 500%Z else maxLen in
    let body := skipLeadingHeadings output in
    let paragraph := match String.index 0 nl2 body with
                     | Some idx => take_str idx body
                     | None => body
                     end in
    if (maxLen <? slen paragraph)%Z then TruncateUTF8 paragraph maxLen else paragraph.

(** ** Read methods *)

Definition GetOriginalRequest (b : MapBlackboard) : string := bb_request b.
Definition GetPlan (b : MapBlackboard) : option Plan := copyPlan <$> bb_plan b.
Definition GetStepResult (b : MapBlackboard) (stepID : string) : option StepResult :=
  copyStepResult <$> (bb_results b !! stepID).
Definition GetStepSummary (b : MapBlackboard) (stepID : string) : string :=
  match bb_results b !! stepID with None => "" | Some r => sr_summary r end.
Definition GetAllStepResults (b : MapBlackboard) : gmap string StepResult :=
  copyStepResult <$> bb_results b.
Definition GetReflections (b : MapBlackboard) : option (list Reflection) :=
  copy_slice (bb_reflections b).
Definition GetFinalResult (b : MapBlackboard) : string := bb_final b.

Definition GetFacts (b : MapBlackboard) : option (list Fact) :=
  if decide (length (sl (bb_facts b)) = 0) then None
  else Some (map (fun f => mkFact (Some (sl (f_keywords f))) (f_content f) (f_author f))
                 (sl (bb_facts b))).

Definition GetAttachments (b : MapBlackboard) : option (list Attachment) :=
  if decide (length (sl (bb_attachments b)) = 0) then None else Some (sl (bb_attachments b)).

Fixpoint find_attachment (l : list Attachment) (id : string) : option Attachment :=
  match l with
  | [] => None
  | a :: rest => if String.eqb (a_id a) id then Some a else find_attachment rest id
  end.
Definition GetAttachment (b : MapBlackboard) (id : string) : option Attachment :=
  find_attachment (sl (bb_attachments b)) id.

(** ** Write methods *)

Definition SetOriginalRequest (req : string) (b : MapBlackboard) : MapBlackboard :=
  mkBB req (bb_plan b) (bb_results b) (bb_reflections b) (bb_final b) (bb_max_summary b)
    (bb_facts b) (bb_attachments b).

Definition SetPlan (plan : option Plan) (b : MapBlackboard) : MapBlackboard :=
  mkBB (bb_request b) (copyPlan <$> plan) (bb_results b) (bb_reflections b) (bb_final b)
    (bb_max_summary b) (bb_facts b) (bb_attachments b).

Definition put_result (stepID : string) (r : StepResult) (b : MapBlackboard) : MapBlackboard :=
  mkBB (bb_request b) (bb_plan b) (<[stepID := r]> (bb_results b)) (bb_reflections b)
    (bb_final b) (bb_max_summary b) (bb_facts b) (bb_attachments b).

Definition SetStepResult (stepID output : string) (err : option gerror) (steps : list Step)
    (b : MapBlackboard) : MapBlackboard :=
  let maxLen := if (bb_max_summary b =? 0)%Z then 500%Z else bb_max_summary b in
  let summary := GenerateSummary output maxLen in
  put_result stepID (mkStepResult stepID summary output err (Some steps)) b.

Definition SetStepResultRaw (stepID : string) (sr : StepResult) (b : MapBlackboard)
    : MapBlackboard := put_result stepID (copyStepResult sr) b.

Definition AddReflection (r : Reflection) (b : MapBlackboard) : MapBlackboard :=
  mkBB (bb_request b) (bb_plan b) (bb_results b) (Some (sl (bb_reflections b) ++ [r]))
    (bb_final b) (bb_max_summary b) (bb_facts b) (bb_attachments b).

Definition SetFinalResult (result : string) (b : MapBlackboard) : MapBlackboard :=
  mkBB (bb_request b) (bb_plan b) (bb_results b) (bb_reflections b) result (bb_max_summary b)
    (bb_facts b) (bb_attachments b).

Definition put_facts (fs : option (list Fact)) (b : MapBlackboard) : MapBlackboard :=
  mkBB (bb_request b) (bb_plan b) (bb_results b) (bb_reflections b) (bb_final b)
    (bb_max_summary b) fs (bb_attachments b).
Definition StoreFact (f : Fact) (b : MapBlackboard) : MapBlackboard :=
  put_facts (Some (sl (bb_facts b) ++ [f])) b.
Definition SetFacts (facts : option (list Fact)) (b : MapBlackboard) : MapBlackboard :=
  put_facts
    (match facts with
     | None => None
     | Some l => Some (map (fun f => mkFact (copy_slice (f_keywords f)) (f_content f) (f_author f)) l)
     end) b.

Definition put_attachments (l : option (list Attachment)) (b : MapBlackboard) : MapBlackboard :=
  mkBB (bb_request b) (bb_plan b) (bb_results b) (bb_reflections b) (bb_final b)
    (bb_max_summary b) (bb_facts b) l.

(** The loop of [AddAttachment] that replaces the first entry with the ID. *)
Fixpoint replace_attachment (l : list Attachment) (a : Attachment) : option (list Attachment) :=
  match l with
  | [] => None
  | existing :: rest =>
      if String.eqb (a_id existing) (a_id a) then Some (a :: rest)
      else cons existing <$> replace_attachment rest a
  end.

Definition AddAttachment (now : Z) (a : Attachment) (b : MapBlackboard) : MapBlackboard :=
  let a := if (a_attached_at a =? 0)%Z
           then mkAttachment (a_id a) (a_original_name a) (a_original_path a) (a_format a)
                  (a_size a) (a_markdown a) now
           else a in
  put_attachments
    (match replace_attachment (sl (bb_attachments b)) a with
     | Some l => Some l
     | None => Some (sl (bb_attachments b) ++ [a])
     end) b.

(** Shift down from the first entry with the ID. *)
Fixpoint remove_attachment (l : list Attachment) (id : string) : option (list Attachment) :=
  match l with
  | [] => None
  | a :: rest => if String.eqb (a_id a) id then Some rest else cons a <$> remove_attachment rest id
  end.

Definition RemoveAttachment (id : string) (b : MapBlackboard) : MapBlackboard * bool :=
  match remove_attachment (sl (bb_attachments b)) id with
  | Some l => (put_attachments (Some l) b, true)
  | None => (b, false)
  end.

Definition SetAttachments (attachments : option (list Attachment)) (b : MapBlackboard)
    : MapBlackboard := put_attachments (copy_slice attachments) b.

(** ** Searches *)

Section search.
Context (lower_rune : Z -> Z).

(** [unicode.ToLower] and [strings.ToLower]. *)
Definition unicode_ToLower (r : Z) : Z :=
  (if (65 <=? r) && (r <=? 90) then r + 32 else if r <? 128 then r else lower_rune r)%Z.
Definition ToLower (s : string) : string := string_of_runes (map unicode_ToLower (runes s)).

(** [matchCount]: how many keywords of the fact are searched for. *)
Definition fact_score (lowerKeywords : list string) (f : Fact) : nat :=
  length (List.filter (fun fk => existsb (fun qk => String.eqb (ToLower fk) qk) lowerKeywords)
            (sl (f_keywords f))).

(** The scored results, before sorting. *)
Definition search_scored (keywords : list string) (facts : list Fact) : list (Fact * nat) :=
  let lowerKeywords := map ToLower keywords in
  fold_left (fun results f =>
    let matchCount := fact_score lowerKeywords f in
    if decide (0 < matchCount)
    then results ++ [(mkFact (Some (sl (f_keywords f))) (f_content f) (f_author f), matchCount)]
    else results) facts [].

(** The results of [SearchFacts]: any order [sort.Slice] may produce. *)
Definition SearchFacts (b : MapBlackboard) (keywords : list string) (out : option (list Fact))
    : Prop :=
  if decide (length keywords = 0 \/ length (sl (bb_facts b)) = 0) then out = None
  else exists sorted,
    sorted ≡ₚ search_scored keywords (sl (bb_facts b)) /\
    StronglySorted (fun x y => snd y <= snd x) sorted /\
    out = Some (map fst sorted).

Definition result_matches (q : string) (sr : StepResult) : bool :=
  contains (ToLower (sr_summary sr)) q || contains (ToLower (sr_full_output sr)) q.

(** [Search] with [order] the iteration order of the step results. *)
Definition Search (b : MapBlackboard) (query : string) (order : list (string * StepResult))
    : list BlackboardEntry :=
  let q := ToLower query in
  let entries :=
    fold_left (fun entries '(id, sr) =>
      if result_matches q sr then entries ++ [mkEntry "step_result" id (sr_summary sr)]
      else entries) order [] in
  fold_left (fun entries '(i, r) =>
    if contains (ToLower (rf_summary r)) q
    then entries ++ [mkEntry "reflection" ("reflection_" +s+ itoa (Z.of_nat i)) (rf_summary r)]
    else entries) (imap pair (sl (bb_reflections b))) entries.
End search.

(** ** Step outputs: [src/orchestration/stepoutput_adapter.go] *)

Definition pausedCheckpointOutput : string :=
  "[paused checkpoint " +s+ string_of_runes [8212%Z] +s+ " no final output yet]".
(** [agent.ErrPaused.Error()] *)
Definition err_paused_text : string := "executor paused at step boundary".

(** [strings.HasSuffix] *)
Definition has_suffix (s suffix : string) : bool :=
  bool_decide (String.length suffix <= String.length s) &&
  String.eqb (str_drop (String.length s - String.length suffix) s) suffix.

Definition isPausedStepErr (err : option gerror) : bool :=
  match err with
  | None => false
  | Some e => errors_Is err ErrPaused || has_suffix (err_text e) err_paused_text
  end.

(** [(s, true)] is [Some s], [("", false)] is [None]. *)
Definition GetStepOutput (b : MapBlackboard) (stepID : string) : option string :=
  match GetStepResult b stepID with
  | None => None
  | Some sr =>
      if String.eqb (sr_full_output sr) "" && negb (isPausedStepErr (sr_error sr)) then None
      else match sr_error sr with
           | Some _ => if isPausedStepErr (sr_error sr) then Some pausedCheckpointOutput else None
           | None => Some (sr_full_output sr)
           end
  end.

Definition step_output_entry (sr : StepResult) : option string :=
  if bool_decide (sr_error sr = None) && negb (String.eqb (sr_full_output sr) "")
  then Some (sr_full_output sr)
  else if isPausedStepErr (sr_error sr) then Some pausedCheckpointOutput else None.

(** [ListStepOutputs]: the keys of a map are distinct, so the sorted order is
    unique whatever the iteration order. *)
Definition ListStepOutputs (b : MapBlackboard) : list (string * string) :=
  merge_sort (fun x y => String.le (fst x) (fst y))
    (omap (fun '(id, sr) => pair id <$> step_output_entry sr) (map_to_list (GetAllStepResults b))).

(** ** Restoration: [RestoreBlackboard] of a loaded checkpoint

    [order] is the order in which the map of step results is ranged over. *)
Definition RestoreBlackboard (n : Z) (restored : MapBlackboard) (order : list (string * StepResult))
    : MapBlackboard :=
  let mb := SetOriginalRequest (GetOriginalRequest restored) (NewMapBlackboard n) in
  let mb := match GetPlan restored with Some plan => SetPlan (Some plan) mb | None => mb end in
  let mb := fold_left (fun mb '(stepID, sr) => SetStepResultRaw stepID sr mb) order mb in
  let mb := fold_left (fun mb r => AddReflection r mb) (sl (GetReflections restored)) mb in
  let mb := if decide (0 < length (sl (GetFacts restored))) then SetFacts (GetFacts restored) mb
            else mb in
  let mb := if decide (0 < length (sl (GetAttachments restored)))
            then SetAttachments (GetAttachments restored) mb else mb in
  if negb (String.eqb (GetFinalResult restored) "") then SetFinalResult (GetFinalResult restored) mb
  else mb.

(** ** Copies lose nothing *)

Lemma copy_slice_id {A} (s : option (list A)) : copy_slice s = s.
Proof. by destruct s. Qed.

Lemma copyPlan_id p : copyPlan p = p.
Proof.
  destruct p as [steps e]. unfold copyPlan. simpl. f_equal.
  rewrite <- (list_fmap_id steps) at 2. apply map_ext. intros [id su de d pa et ag pr]. simpl.
  by rewrite !copy_slice_id.
Qed.

Lemma copyStepResult_id r : copyStepResult r = r.
Proof. destruct r. unfold copyStepResult. simpl. by rewrite copy_slice_id. Qed.

Lemma GetAllStepResults_id b : GetAllStepResults b = bb_results b.
Proof.
  unfold GetAllStepResults. rewrite <- (map_fmap_id (bb_results b)) at 2.
  apply map_fmap_ext. intros i x _. apply copyStepResult_id.
Qed.

#[export] Hint Rewrite @copy_slice_id copyPlan_id copyStepResult_id GetAllStepResults_id : sp4rk.

(** ** Observational equality

    Two blackboards a reader cannot tell apart: nil and empty slices read the
    same, and the summary cap is not read back. *)

Definition fact_norm (f : Fact) : Fact := mkFact (Some (sl (f_keywords f))) (f_content f) (f_author f).

Record bb_equiv (b1 b2 : MapBlackboard) : Prop := {
  be_request : bb_request b1 = bb_request b2;
  be_plan : bb_plan b1 = bb_plan b2;
  be_results : bb_results b1 = bb_results b2;
  be_reflections : sl (bb_reflections b1) = sl (bb_reflections b2);
  be_final : bb_final b1 = bb_final b2;
  be_facts : map fact_norm (sl (bb_facts b1)) = map fact_norm (sl (bb_facts b2));
  be_attachments : sl (bb_attachments b1) = sl (bb_attachments b2);
}.

#[export] Instance bb_equiv_equivalence : Equivalence bb_equiv.
Proof.
  split.
  - intros b. by constructor.
  - intros b1 b2 []. by constructor.
  - intros b1 b2 b3 [] []. constructor; by etrans.
Qed.

(** Every read method respects it. *)
#[export] Instance GetPlan_proper : Proper (bb_equiv ==> eq) GetPlan.
Proof. intros b1 b2 []. unfold GetPlan. congruence. Qed.
#[export] Instance GetStepResult_proper : Proper (bb_equiv ==> eq ==> eq) GetStepResult.
Proof. intros b1 b2 [] ? id ->. unfold GetStepResult. congruence. Qed.
#[export] Instance GetAllStepResults_proper : Proper (bb_equiv ==> eq) GetAllStepResults.
Proof. intros b1 b2 []. unfold GetAllStepResults. congruence. Qed.
#[export] Instance GetAttachment_proper : Proper (bb_equiv ==> eq ==> eq) GetAttachment.
Proof. intros b1 b2 [] ? id ->. unfold GetAttachment. congruence. Qed.
#[export] Instance GetAttachments_proper : Proper (bb_equiv ==> eq) GetAttachments.
Proof. intros b1 b2 []. unfold GetAttachments. by rewrite be_attachments0. Qed.
#[export] Instance GetStepOutput_proper : Proper (bb_equiv ==> eq ==> eq) GetStepOutput.
Proof. intros b1 b2 H ? id ->. unfold GetStepOutput. by rewrite H. Qed.
#[export] Instance GetFacts_proper : Proper (bb_equiv ==> eq) GetFacts.
Proof.
  intros b1 b2 []. unfold GetFacts.
  change (map (fun f => mkFact _ _ _)) with (map fact_norm). rewrite be_facts0.
  assert (length (sl (bb_facts b1)) = length (sl (bb_facts b2))) as ->; [|done].
  apply (f_equal length) in be_facts0. by rewrite !length_map in be_facts0.
Qed.

(** ** Restoration *)

Lemma restore_results_fold order b :
  NoDup order.*1 ->
  fold_left (fun mb '(stepID, sr) => SetStepResultRaw stepID sr mb) order b =
  mkBB (bb_request b) (bb_plan b) (list_to_map order ∪ bb_results b) (bb_reflections b)
    (bb_final b) (bb_max_summary b) (bb_facts b) (bb_attachments b).
Proof.
  revert b; induction order as [|[id sr] order IH]; intros b Hnd; simpl.
  { rewrite map_empty_union. by destruct b. }
  apply NoDup_cons in Hnd as [Hni Hnd]. rewrite IH by done. simpl.
  f_equal. rewrite copyStepResult_id. apply map_eq. intros i. rewrite !lookup_union.
  destruct (decide (i = id)) as [->|Hne].
  - rewrite not_elem_of_list_to_map_1 by done. rewrite !lookup_insert_eq.
    by destruct (bb_results b !! id).
  - by rewrite !lookup_insert_ne by done.
Qed.

Lemma restore_reflections_fold rs b :
  fold_left (fun mb r => AddReflection r mb) rs b =
  mkBB (bb_request b) (bb_plan b) (bb_results b)
    (if decide (rs = []) then bb_reflections b else Some (sl (bb_reflections b) ++ rs))
    (bb_final b) (bb_max_summary b) (bb_facts b) (bb_attachments b).
Proof.
  revert b; induction rs as [|r rs IH]; intros b; simpl; [by destruct b|].
  rewrite IH. simpl. f_equal. case_decide; subst; [done|].
  by rewrite <- app_assoc.
Qed.

(** The two first stages: the request and the plan. *)
Lemma restore_plan_stage n b :
  match GetPlan b with
  | Some plan => SetPlan (Some plan) (SetOriginalRequest (GetOriginalRequest b) (NewMapBlackboard n))
  | None => SetOriginalRequest (GetOriginalRequest b) (NewMapBlackboard n)
  end = mkBB (bb_request b) (bb_plan b) ∅ None "" n None None.
Proof.
  unfold GetPlan, SetPlan. destruct (bb_plan b); simpl; [by rewrite !copyPlan_id|done].
Qed.

Lemma GetFacts_norm b : map fact_norm (sl (GetFacts b)) = map fact_norm (sl (bb_facts b)).
Proof.
  unfold GetFacts. case_decide as Hl; [by rewrite (nil_length_inv _ Hl)|]. simpl.
  rewrite map_map. by apply map_ext.
Qed.

(** The conditional stages of the restoration, on the fields they set. *)
Lemma restore_facts_stage b mb :
  bb_facts mb = None ->
  map fact_norm (sl (bb_facts
    (if decide (0 < length (sl (GetFacts b))) then SetFacts (GetFacts b) mb else mb))) =
  map fact_norm (sl (bb_facts b)).
Proof.
  intros Hn. rewrite <- (GetFacts_norm b). case_decide as Hl.
  - destruct (GetFacts b) as [l|]; [|simpl in Hl; lia]. simpl. rewrite map_map. apply map_ext.
    intros [k c a]. unfold fact_norm. simpl. by rewrite copy_slice_id.
  - rewrite Hn. destruct (sl (GetFacts b)) as [|f l]; [reflexivity|]. simpl in Hl. lia.
Qed.

Lemma restore_attachments_stage b mb :
  bb_attachments mb = None ->
  sl (bb_attachments (if decide (0 < length (sl (GetAttachments b)))
                      then SetAttachments (GetAttachments b) mb else mb)) =
  sl (bb_attachments b).
Proof.
  intros Hn. unfold GetAttachments. destruct (decide (length (sl (bb_attachments b)) = 0)) as [Hl|Hl].
  - rewrite decide_False by (simpl; lia). by rewrite Hn, (nil_length_inv _ Hl).
  - by rewrite decide_True by (simpl; lia).
Qed.

(** Restoring a checkpoint loses nothing: whatever order Go ranges over
    the stored step results in, the restored blackboard answers every read of
    the request, plan, step results, reflections, facts, attachments and final
    result like the checkpointed one. *)
Theorem RestoreBlackboard_equiv n b order (Horder : order ≡ₚ map_to_list (GetAllStepResults b)) :
  let r := RestoreBlackboard n b order in
  bb_equiv r b /\
  (forall id, GetStepResult r id = GetStepResult b id) /\ GetPlan r = GetPlan b /\
  GetFacts r = GetFacts b /\ GetAttachments r = GetAttachments b /\
  (forall id, GetStepOutput r id = GetStepOutput b id).
Proof.
  intros r.
  assert (bb_equiv r b) as Heq; [|split; [done|]; split_and!; intros; by rewrite Heq].
  assert (Hnd : NoDup order.*1) by (rewrite Horder; apply NoDup_fst_map_to_list).
  assert (Hmap : list_to_map order = bb_results b).
  { rewrite <- (GetAllStepResults_id b), (list_to_map_proper _ _ Hnd Horder).
    apply list_to_map_to_list. }
  subst r. unfold RestoreBlackboard.
  rewrite restore_plan_stage, restore_results_fold, restore_reflections_fold by done. simpl.
  rewrite Hmap, map_union_empty.
  set (mb := mkBB _ _ _ _ _ _ _ _).
  set (mb1 := if decide (0 < length (sl (GetFacts b))) then _ else mb).
  set (mb2 := if decide (0 < length (sl (GetAttachments b))) then _ else mb1).
  assert (Hf : map fact_norm (sl (bb_facts mb1)) = map fact_norm (sl (bb_facts b)))
    by (by apply restore_facts_stage).
  assert (Ha : sl (bb_attachments mb2) = sl (bb_attachments b)).
  { apply restore_attachments_stage. subst mb1. by case_decide. }
  assert (Hr : sl (bb_reflections mb) = sl (bb_reflections b)).
  { subst mb. simpl. unfold GetReflections. rewrite copy_slice_id. case_decide as E; [by rewrite E|done]. }
  assert (Hfin : bb_final mb = "") by done.
  destruct (negb (String.eqb (GetFinalResult b) "")) eqn:Ef.
  - constructor; simpl; subst mb2 mb1; repeat case_decide; try done.
  - boolean. apply String.eqb_eq in Ef.
    constructor; subst mb2 mb1; repeat case_decide; simpl; try done.
Qed.

Definition example_bb : MapBlackboard :=
  AddReflection (mkReflection "r" [] "retry" "" "" "" "" 0)
    (StoreFact (mkFact None "content" "s1")
      (SetStepResult "s1" "done" None []
        (SetPlan (Some example_plan) (SetOriginalRequest "do it" (NewMapBlackboard 0))))).

Lemma RestoreBlackboard_equiv_witness :
  [("s1", mkStepResult "s1" "done" "done" None (Some []))] ≡ₚ map_to_list (GetAllStepResults example_bb) /\
  bb_equiv (RestoreBlackboard 7 example_bb
              [("s1", mkStepResult "s1" "done" "done" None (Some []))]) example_bb.
Proof.
  assert ([("s1", mkStepResult "s1" "done" "done" None (Some []))] ≡ₚ
          map_to_list (GetAllStepResults example_bb)) as H by (vm_compute; reflexivity).
  split; [exact H|]. exact (proj1 (RestoreBlackboard_equiv 7 example_bb _ H)).
Defined.

(** ** Summaries *)

(** With a cap of at least two (the default is 500), a summary has at most
    [maxLen] runes, and the stored result of a step keeps the full output, the
    error and the trajectory next to a summary within the blackboard's cap. *)
Theorem SetStepResult_stored b stepID output err steps
  (Hcap : (bb_max_summary b = 0 \/ 2 <= bb_max_summary b)%Z) :
  exists summary,
    GetStepResult (SetStepResult stepID output err steps b) stepID =
      Some (mkStepResult stepID summary output err (Some steps)) /\
    summary = GetStepSummary (SetStepResult stepID output err steps b) stepID /\
    (rune_count summary <= if bb_max_summary b =? 0 then 500 else bb_max_summary b)%Z /\
    (forall id, id <> stepID ->
       GetStepResult (SetStepResult stepID output err steps b) id = GetStepResult b id).
Proof.
  set (m := (if (bb_max_summary b =? 0) then 500 else bb_max_summary b)%Z).
  assert (2 <= m)%Z as Hm by (subst m; destruct (bb_max_summary b =? 0)%Z eqn:E; boolean; lia).
  exists (GenerateSummary output m).
  unfold GetStepResult, GetStepSummary, SetStepResult, put_result. simpl. fold m.
  rewrite lookup_insert_eq. simpl. split; [done|]. split; [done|]. split.
  - unfold GenerateSummary. destruct (String.eqb output ""); [change (rune_count "") with 0%Z; lia|].
    rewrite (proj2 (Z.eqb_neq m 0)) by lia.
    set (par := match String.index 0 nl2 _ with Some _ => _ | None => _ end).
    destruct (m <? slen par)%Z eqn:E; boolean.
    + apply TruncateUTF8_cap; lia.
    + etrans; [apply rune_count_le_slen|done].
  - intros id Hid. by rewrite lookup_insert_ne.
Qed.

Lemma SetStepResult_stored_witness :
  (0 <= 0)%Z /\
  exists summary,
    GetStepResult (SetStepResult "s" "# Title" None [] (NewMapBlackboard 0)) "s" =
      Some (mkStepResult "s" summary "# Title" None (Some [])).
Proof.
  split; [lia|].
  destruct (SetStepResult_stored (NewMapBlackboard 0) "s" "# Title" None [] ltac:(left; reflexivity))
    as (summary & H & _).
  exists summary. exact H.
Defined.

(** The skipped headings do give a content line. *)
Example GenerateSummary_skips_title :
  GenerateSummary ("# Title" +s+ nl2 +s+ "Body." +s+ nl2 +s+ "More.") 0 = "Body.".
Proof. vm_compute. reflexivity. Qed.

(** An output of blank lines and headings only is summarised as itself up to
    its first blank line, which may be nothing. *)
Example GenerateSummary_may_be_empty : GenerateSummary (nl2 +s+ "# Title") 0 = "".
Proof. vm_compute. reflexivity. Qed.

(** ** Attachments *)

Definition attachment_ids (b : MapBlackboard) : list string := map a_id (sl (bb_attachments b)).

Lemma find_attachment_spec l id a :
  find_attachment l id = Some a -> a ∈ l /\ a_id a = id.
Proof.
  induction l as [|x l IH]; simpl; [done|]. destruct (String.eqb (a_id x) id) eqn:E.
  - intros [= ->]. apply String.eqb_eq in E. set_solver.
  - intros H%IH. set_solver.
Qed.

Lemma find_attachment_app l1 l2 id :
  find_attachment (l1 ++ l2) id =
  match find_attachment l1 id with Some a => Some a | None => find_attachment l2 id end.
Proof. induction l1 as [|x l IH]; simpl; [done|]. by destruct (String.eqb _ _). Qed.

Lemma replace_attachment_spec l a :
  match replace_attachment l a with
  | None => a_id a ∉ map a_id l
  | Some l' => map a_id l' = map a_id l /\
               forall id, find_attachment l' id =
                 if String.eqb (a_id a) id then Some a else find_attachment l id
  end.
Proof.
  induction l as [|x l IH]; simpl; [set_solver|]. destruct (String.eqb (a_id x) (a_id a)) eqn:E.
  - apply String.eqb_eq in E. simpl. split; [congruence|]. intros id. rewrite E.
    by destruct (String.eqb (a_id a) id).
  - apply String.eqb_neq in E. destruct (replace_attachment l a) as [l'|]; simpl; [|set_solver].
    destruct IH as [Hm Hf]. split; [by rewrite Hm|]. intros id. rewrite Hf.
    destruct (String.eqb (a_id x) id) eqn:E1; [|done]. destruct (String.eqb (a_id a) id) eqn:E2; [|done].
    apply String.eqb_eq in E1, E2. congruence.
Qed.

Lemma remove_attachment_spec l id :
  NoDup (map a_id l) ->
  match remove_attachment l id with
  | None => id ∉ map a_id l
  | Some l' => id ∈ map a_id l /\ NoDup (map a_id l') /\ id ∉ map a_id l' /\
      (forall x, x ∈ map a_id l' -> x ∈ map a_id l) /\
      forall id', id' <> id -> find_attachment l' id' = find_attachment l id'
  end.
Proof.
  induction l as [|x l IH]; simpl; [set_solver|]. intros Hnd. apply NoDup_cons in Hnd as [Hni Hnd].
  destruct (String.eqb (a_id x) id) eqn:E.
  - apply String.eqb_eq in E as <-. split_and!; [set_solver|done|done|set_solver|].
    intros id' Hne. destruct (String.eqb (a_id x) id') eqn:E'; [|done]. apply String.eqb_eq in E'. congruence.
  - apply String.eqb_neq in E. specialize (IH Hnd).
    destruct (remove_attachment l id) as [l'|]; simpl; [|set_solver].
    destruct IH as (Hin & Hnd' & Hni' & Hsub & Hf). split_and!; [set_solver| |set_solver|set_solver|].
    + constructor; [|done]. intros H. apply Hni. by apply Hsub.
    + intros id' Hne. rewrite (Hf id' Hne). done.
Qed.

Lemma find_attachment_none l id : find_attachment l id = None <-> id ∉ map a_id l.
Proof.
  induction l as [|x l IH]; simpl; [set_solver|]. destruct (String.eqb (a_id x) id) eqn:E.
  - apply String.eqb_eq in E as <-. set_solver.
  - apply String.eqb_neq in E. rewrite IH. set_solver.
Qed.

(** The attachments behave as a map keyed by ID: their IDs stay distinct
    under [AddAttachment] and [RemoveAttachment]; the last attachment added
    under an ID is the one read back, stamped with the current time when its
    own is unset; adding or removing one ID leaves every other one alone;
    and [RemoveAttachment] reports whether the ID was there. *)
Theorem attachments_map b now a id (Hnd : NoDup (attachment_ids b)) :
  let b' := AddAttachment now a b in
  let '(b'', removed) := RemoveAttachment id b in
  NoDup (attachment_ids b') /\ NoDup (attachment_ids b'') /\
  GetAttachment b' (a_id a) =
    Some (mkAttachment (a_id a) (a_original_name a) (a_original_path a) (a_format a) (a_size a)
            (a_markdown a) (if (a_attached_at a =? 0)%Z then now else a_attached_at a)) /\
  (forall x, x <> a_id a -> GetAttachment b' x = GetAttachment b x) /\
  GetAttachment b'' id = None /\ (removed = true <-> is_Some (GetAttachment b id)) /\
  (forall x, x <> id -> GetAttachment b'' x = GetAttachment b x).
Proof.
  intros b'. unfold attachment_ids in *.
  set (a' := mkAttachment (a_id a) (a_original_name a) (a_original_path a) (a_format a) (a_size a)
            (a_markdown a) (if (a_attached_at a =? 0)%Z then now else a_attached_at a)).
  assert (Hadd : sl (bb_attachments b') =
    default (sl (bb_attachments b) ++ [a']) (replace_attachment (sl (bb_attachments b)) a')).
  { subst b' a'. unfold AddAttachment, put_attachments. simpl.
    destruct (a_attached_at a =? 0)%Z; [|destruct a]; simpl; by destruct (replace_attachment _ _). }
  pose proof (replace_attachment_spec (sl (bb_attachments b)) a') as Hr.
  pose proof (remove_attachment_spec _ id Hnd) as Hm.
  unfold GetAttachment, RemoveAttachment. rewrite Hadd. clearbody b'.
  assert (H1 : NoDup (map a_id (default (sl (bb_attachments b) ++ [a'])
             (replace_attachment (sl (bb_attachments b)) a'))) /\
    forall x, find_attachment (default (sl (bb_attachments b) ++ [a'])
                (replace_attachment (sl (bb_attachments b)) a')) x =
              if String.eqb (a_id a) x then Some a' else find_attachment (sl (bb_attachments b)) x).
  { destruct (replace_attachment _ _) as [l'|]; simpl.
    - destruct Hr as [-> Hf]. split; [done|exact Hf].
    - rewrite map_app, NoDup_app. split.
      + split_and!; [done|set_solver|apply NoDup_singleton].
      + intros x. rewrite find_attachment_app. simpl. destruct (String.eqb (a_id a) x) eqn:E.
        * apply String.eqb_eq in E as <-. by rewrite (proj2 (find_attachment_none _ (a_id a)) Hr).
        * by destruct (find_attachment _ x). }
  destruct H1 as [Hnd' Hf]. destruct (remove_attachment _ id) as [l''|]; simpl.
  - destruct Hm as (Hin & Hnd'' & Hni & _ & Hf'').
    split_and!; [done|done| | | |split; [|done]|done].
    + by rewrite Hf, String.eqb_refl.
    + intros x Hx. rewrite Hf. destruct (String.eqb (a_id a) x) eqn:E; [|done].
      apply String.eqb_eq in E. congruence.
    + by apply find_attachment_none.
    + intros _. apply not_eq_None_Some. intros Hn. by apply find_attachment_none in Hn.
  - split_and!; [done|done| | | |split; [done|]|done].
    + by rewrite Hf, String.eqb_refl.
    + intros x Hx. rewrite Hf. destruct (String.eqb (a_id a) x) eqn:E; [|done].
      apply String.eqb_eq in E. congruence.
    + by apply find_attachment_none.
    + intros [y Hy]. apply find_attachment_none in Hm. congruence.
Qed.

Lemma attachments_map_witness :
  NoDup (attachment_ids (NewMapBlackboard 0)) /\
  GetAttachment (AddAttachment 5 (mkAttachment "x" "" "" "" 0 "md" 0) (NewMapBlackboard 0)) "x" =
    Some (mkAttachment "x" "" "" "" 0 "md" 5).
Proof.
  assert (NoDup (attachment_ids (NewMapBlackboard 0))) as H by constructor.
  split; [exact H|].
  exact (proj1 (proj2 (proj2 (attachments_map (NewMapBlackboard 0) 5
    (mkAttachment "x" "" "" "" 0 "md" 0) "y" H)))).
Defined.

(** ** Searching facts *)

Section search_facts.
Context (lower_rune : Z -> Z).
Implicit Types (f : Fact) (kws : list string).

Lemma fact_score_norm kws f : fact_score lower_rune kws (fact_norm f) = fact_score lower_rune kws f.
Proof. done. Qed.

Lemma search_scored_map kws facts :
  search_scored lower_rune kws facts =
  map (fun f => (fact_norm f, fact_score lower_rune (map (ToLower lower_rune) kws) f))
    (List.filter (fun f => bool_decide (0 < fact_score lower_rune (map (ToLower lower_rune) kws) f)) facts).
Proof.
  unfold search_scored.
  assert (forall acc, fold_left (fun results f =>
    if decide (0 < fact_score lower_rune (map (ToLower lower_rune) kws) f)
    then results ++ [(mkFact (Some (sl (f_keywords f))) (f_content f) (f_author f),
                      fact_score lower_rune (map (ToLower lower_rune) kws) f)]
    else results) facts acc = acc ++
    map (fun f => (fact_norm f, fact_score lower_rune (map (ToLower lower_rune) kws) f))
      (List.filter (fun f => bool_decide (0 < fact_score lower_rune (map (ToLower lower_rune) kws) f)) facts)) as H.
  { induction facts as [|f l IH]; intros acc; simpl; [by rewrite app_nil_r|]. rewrite IH.
    destruct (decide (0 < _)) as [Hd|Hd].
    - rewrite bool_decide_eq_true_2 by done. simpl. by rewrite <- app_assoc.
    - by rewrite bool_decide_eq_false_2 by done. }
  apply H.
Qed.

(** A search with at least one keyword returns, for every order the
    unstable sort may choose, exactly the facts with at least one matching
    keyword, each as often as it is stored, with no fact before one that
    matches more keywords; and there is always such a result. *)
Theorem SearchFacts_complete b kws (Hk : kws <> []) (Hf : sl (bb_facts b) <> []) :
  let score := fact_score lower_rune (map (ToLower lower_rune) kws) in
  (exists out, SearchFacts lower_rune b kws out) /\
  forall out, SearchFacts lower_rune b kws out ->
    exists l, out = Some l /\
      l ≡ₚ map fact_norm (List.filter (fun f => bool_decide (0 < score f)) (sl (bb_facts b))) /\
      StronglySorted (fun x y => score y <= score x) l.
Proof.
  intros score. unfold SearchFacts.
  destruct (decide (length kws = 0 \/ length (sl (bb_facts b)) = 0)) as [[H|H]|_];
    [by apply length_zero_iff_nil in H..|].
  rewrite search_scored_map. fold score. split.
  - set (R := fun x y : Fact * nat => snd y <= snd x).
    assert (TotalOrder_R : Total R) by (intros x y; unfold R; lia).
    assert (Transitive R) by (intros x y z; unfold R; lia).
    assert (RelDecision R) as HRd by (intros x y; unfold R; apply _).
    eexists. exists (merge_sort R (map (fun f => (fact_norm f, score f))
      (List.filter (fun f => bool_decide (0 < score f)) (sl (bb_facts b))))).
    split; [apply merge_sort_Permutation|]. split; [by apply (StronglySorted_merge_sort R)|done].
  - intros out (sorted & Hp & Hs & ->). exists (map fst sorted). split; [done|]. split.
    + rewrite Hp, map_map. simpl. done.
    + assert (Hall : forall x, x ∈ sorted -> snd x = score (fst x)).
      { intros x Hx. rewrite Hp in Hx. apply list_elem_of_fmap in Hx as (f & -> & _). done. }
      clear Hp. induction Hs as [|x l Hl IH Hx]; simpl; constructor.
      * apply IH. intros y Hy. apply Hall. by right.
      * apply Forall_forall. intros y (z & -> & Hz)%list_elem_of_fmap.
        rewrite Forall_forall in Hx. rewrite <- (Hall x), <- (Hall z) by (by left || by right).
        by apply Hx.
Qed.
End search_facts.

Definition example_facts_bb : MapBlackboard :=
  StoreFact (mkFact (Some ["go"; "DAG"]) "two" "s2")
    (StoreFact (mkFact (Some ["Go"]) "one" "s1") (NewMapBlackboard 0)).

Lemma SearchFacts_complete_witness :
  ["dag"; "go"] <> [] /\ sl (bb_facts example_facts_bb) <> [] /\
  (exists out, SearchFacts (fun r => r) example_facts_bb ["dag"; "go"] out) /\
  map snd (search_scored (fun r => r) ["dag"; "go"] (sl (bb_facts example_facts_bb))) = [1; 2].
Proof.
  split; [discriminate|]. split; [discriminate|]. split; [|vm_compute; reflexivity].
  exact (proj1 (SearchFacts_complete (fun r => r) example_facts_bb ["dag"; "go"]
    ltac:(discriminate) ltac:(discriminate))).
Defined.

(** ** Step outputs *)

(** The step-output view of a blackboard: a step is readable exactly when
    it succeeded with a non-empty output (its full output is returned) or is
    paused (the paused marker is returned); a failed step is hidden; and the
    listing holds exactly the readable steps, in increasing ID order. *)
Theorem step_outputs_view b :
  (forall id, GetStepOutput b id =
     match bb_results b !! id with None => None | Some sr => step_output_entry sr end) /\
  (forall id o, (id, o) ∈ ListStepOutputs b <-> GetStepOutput b id = Some o) /\
  StronglySorted (fun x y => String.le (fst x) (fst y)) (ListStepOutputs b) /\
  NoDup (ListStepOutputs b).*1.
Proof.
  assert (Hget : forall id, GetStepOutput b id =
     match bb_results b !! id with None => None | Some sr => step_output_entry sr end).
  { intros id. unfold GetStepOutput, GetStepResult. destruct (bb_results b !! id) as [sr|]; [|done].
    cbn [fmap option_fmap option_map]. rewrite copyStepResult_id. unfold step_output_entry.
    destruct (sr_error sr) as [e|] eqn:Ee.
    - rewrite (bool_decide_eq_false_2 (Some e = None)) by done.
      by destruct (String.eqb (sr_full_output sr) ""), (isPausedStepErr (Some e)).
    - rewrite (bool_decide_eq_true_2 (@None gerror = None)) by done.
      destruct (String.eqb (sr_full_output sr) ""); done. }
  set (raw := omap (fun '(id, sr) => pair id <$> step_output_entry sr)
                (map_to_list (GetAllStepResults b))).
  assert (Hin : forall id o, (id, o) ∈ raw <-> GetStepOutput b id = Some o).
  { intros id o. subst raw. rewrite GetAllStepResults_id, list_elem_of_omap, Hget. split.
    - intros ([id' sr] & Hm & He). apply elem_of_map_to_list in Hm.
      destruct (step_output_entry sr) as [o'|] eqn:E; simpl in He; [|done].
      injection He as -> ->. by rewrite Hm.
    - destruct (bb_results b !! id) as [sr|] eqn:E; [|done]. intros Ho. exists (id, sr).
      split; [by apply elem_of_map_to_list|]. by rewrite Ho. }
  assert (Hraw : NoDup raw.*1).
  { assert (raw.*1 `sublist_of` (map_to_list (GetAllStepResults b)).*1) as Hsub.
    { subst raw. generalize (map_to_list (GetAllStepResults b)) as l.
      induction l as [|[id sr] l IH]; csimpl; [done|].
      destruct (step_output_entry sr); csimpl; by constructor. }
    eapply sublist_NoDup; [|exact Hsub]. apply NoDup_fst_map_to_list. }
  pose (R := fun x y : string * string => String.le (fst x) (fst y)).
  assert (Total R) by (intros x y; apply (total String.le)).
  assert (Transitive R) by (intros x y z; unfold R; apply transitivity).
  pose proof (merge_sort_Permutation R raw) as Hp.
  split; [done|]. change (ListStepOutputs b) with (merge_sort R raw). split; [|split].
  - intros id o. by rewrite Hp.
  - by apply (StronglySorted_merge_sort R).
  - by rewrite Hp.
Qed.
