(* ===== verification/Persist.v ===== *)
(** * Checkpointing: [src/orchestration/persistent_blackboard.go]

    [CheckpointedBlackboard] as a transition system.  Each write method first
    updates the in-memory blackboard, then offers a persistence operation to
    the queue ([persistSafe]); one worker goroutine drains the queue and saves
    the blackboard it finds in memory at that moment; [Shutdown] sets the
    closed flag and closes the wake-up channel.  Writers, worker and shutdown
    interleave freely: a state machine whose steps are the critical sections
    of the source.

    - [p_writers] holds the operations of writers between their in-memory
      write and their critical section in [persistSafe];
    - [p_signal] is the one-slot buffered channel [queueCh], [p_chan_closed]
      whether it has been closed;
    - [p_saved] is the last checkpoint the [Checkpointer] accepted; a save
      reads the blackboard at one instant while its operation runs.  Saves may
      fail (an error, a panic, the deadline): [p_failed];
    - an operation refused by [persistSafe] (queue full, or shut down) is only
      logged: [p_lost].

    The caller's bounded wait for its operation changes no state and is not
    modelled. *)

From Stdlib Require Import ZArith Lia Relations.
From stdpp Require Import base gmap strings list relations.
From S2P Require Import Prelude GoStr AgentTypes Plan Blackboard.

(** The write methods of [CheckpointedBlackboard] and their arguments. *)
Inductive write :=
| WSetOriginalRequest (req : string)
| WSetPlan (plan : option Plan)
| WSetStepResult (stepID output : string) (err : option gerror) (steps : list Step)
| WAddReflection (r : Reflection)
| WStoreFact (f : Fact)
| WAddAttachment (now : Z) (a : Attachment)
| WRemoveAttachment (id : string)
| WSetFinalResult (result : string).

(** A write on the embedded blackboard, and the operation it persists, if
    any: removing an absent attachment persists nothing. *)
Definition apply_write (w : write) (b : MapBlackboard) : MapBlackboard * option string :=
  match w with
  | WSetOriginalRequest req => (SetOriginalRequest req b, Some "set_original_request")
  | WSetPlan plan => (SetPlan plan b, Some "set_plan")
  | WSetStepResult id o e st => (SetStepResult id o e st b, Some "set_step_result")
  | WAddReflection r => (AddReflection r b, Some "add_reflection")
  | WStoreFact f => (StoreFact f b, Some "store_fact")
  | WAddAttachment now a => (AddAttachment now a b, Some "add_attachment")
  | WRemoveAttachment id =>
      let '(b', removed) := RemoveAttachment id b in
      (b', if removed then Some "remove_attachment" else None)
  | WSetFinalResult r => (SetFinalResult r b, Some "set_final_result")
  end.

Definition maxPersistenceQueue : nat := 128.

Inductive wstate :=
| WIdle             (** waiting in [range pb.queueCh] *)
| WDrain            (** at the head of the inner loop *)
| WRun (op : string)  (** executing [op.fn] *)
| WRan (op : string)  (** about to send on [op.done] *)
| WExited.

Record pstate := mkP {
  p_mem : MapBlackboard;
  p_writers : list string;
  p_queue : list string;
  p_signal : bool;
  p_closed : bool;
  p_chan_closed : bool;
  p_worker : wstate;
  p_saved : MapBlackboard;
  p_accepted : list string;   (** every operation ever queued, in order *)
  p_executed : list string;   (** every operation the worker finished, in order *)
  p_lost : bool;
  p_failed : bool;
}.

(** [NewCheckpointedBlackboard] and [RestoreBlackboard]: what is saved is what
    is in memory, and the worker waits. *)
Definition p_init (b : MapBlackboard) : pstate :=
  mkP b [] [] false false false WIdle b [] [] false false.

(** ** The critical sections *)

(** The in-memory half of a write method. *)
Definition do_write (w : write) (s : pstate) : pstate :=
  let '(b, op) := apply_write w (p_mem s) in
  mkP b (p_writers s ++ option_list op) (p_queue s) (p_signal s) (p_closed s) (p_chan_closed s)
    (p_worker s) (p_saved s) (p_accepted s) (p_executed s) (p_lost s) (p_failed s).

(** [persistSafe], for a writer that has reached it: [ws] are the writers
    still on their way. *)
Definition persistSafe (operation : string) (ws : list string) (s : pstate) : pstate :=
  if p_closed s then
    mkP (p_mem s) ws (p_queue s) (p_signal s) (p_closed s) (p_chan_closed s)
      (p_worker s) (p_saved s) (p_accepted s) (p_executed s) true (p_failed s)
  else if decide (maxPersistenceQueue <= length (p_queue s)) then
    mkP (p_mem s) ws (p_queue s) (p_signal s) (p_closed s) (p_chan_closed s)
      (p_worker s) (p_saved s) (p_accepted s) (p_executed s) true (p_failed s)
  else
    mkP (p_mem s) ws (p_queue s ++ [operation]) true (p_closed s) (p_chan_closed s)
      (p_worker s) (p_saved s) (p_accepted s ++ [operation]) (p_executed s) (p_lost s) (p_failed s).

Definition set_worker (w : wstate) (s : pstate) : pstate :=
  mkP (p_mem s) (p_writers s) (p_queue s) (p_signal s) (p_closed s) (p_chan_closed s)
    w (p_saved s) (p_accepted s) (p_executed s) (p_lost s) (p_failed s).

(** The worker's next move; [ok] is whether [SaveCheckpoint] succeeds.  [None]:
    the worker is blocked on the empty open channel, or has returned. *)
Definition persistenceWorker (ok : bool) (s : pstate) : option pstate :=
  match p_worker s with
  | WIdle =>
      if p_signal s then
        Some (mkP (p_mem s) (p_writers s) (p_queue s) false (p_closed s) (p_chan_closed s)
                WDrain (p_saved s) (p_accepted s) (p_executed s) (p_lost s) (p_failed s))
      else if p_chan_closed s then Some (set_worker WExited s) else None
  | WDrain =>
      match p_queue s with
      | [] => Some (set_worker WIdle s)
      | op :: rest =>
          Some (mkP (p_mem s) (p_writers s) rest (p_signal s) (p_closed s) (p_chan_closed s)
                  (WRun op) (p_saved s) (p_accepted s) (p_executed s) (p_lost s) (p_failed s))
      end
  | WRun op =>
      Some (mkP (p_mem s) (p_writers s) (p_queue s) (p_signal s) (p_closed s) (p_chan_closed s)
              (WRan op) (if ok then p_mem s else p_saved s) (p_accepted s) (p_executed s)
              (p_lost s) (if ok then p_failed s else true))
  | WRan op =>
      Some (mkP (p_mem s) (p_writers s) (p_queue s) (p_signal s) (p_closed s) (p_chan_closed s)
              WDrain (p_saved s) (p_accepted s) (p_executed s ++ [op]) (p_lost s) (p_failed s))
  | WExited => None
  end.

(** The two halves of [Shutdown]. *)
Definition shutdown_flag (s : pstate) : pstate :=
  mkP (p_mem s) (p_writers s) (p_queue s) (p_signal s) true (p_chan_closed s)
    (p_worker s) (p_saved s) (p_accepted s) (p_executed s) (p_lost s) (p_failed s).
Definition shutdown_close (s : pstate) : pstate :=
  mkP (p_mem s) (p_writers s) (p_queue s) (p_signal s) (p_closed s) true
    (p_worker s) (p_saved s) (p_accepted s) (p_executed s) (p_lost s) (p_failed s).

Inductive pstep : pstate -> pstate -> Prop :=
| PWrite w s : pstep s (do_write w s)
| PPersist l op r s : p_writers s = l ++ op :: r -> pstep s (persistSafe op (l ++ r) s)
| PWorker ok s s' : persistenceWorker ok s = Some s' -> pstep s s'
| PShutdownFlag s : pstep s (shutdown_flag s)
| PShutdownClose s : p_closed s = true -> pstep s (shutdown_close s).

Definition preachable (b : MapBlackboard) (s : pstate) : Prop := rtc pstep (p_init b) s.

(** ** Invariant *)

Definition running (w : wstate) : list string :=
  match w with WRun op | WRan op => [op] | _ => [] end.

Record pinv (s : pstate) : Prop := {
  pi_cap : length (p_queue s) <= maxPersistenceQueue;
  pi_wakeup : p_worker s = WIdle -> p_queue s <> [] -> p_signal s = true;
  pi_exited : p_worker s = WExited -> p_queue s = [] /\ p_closed s = true;
  pi_close : p_chan_closed s = true -> p_closed s = true;
  pi_fifo : p_accepted s = p_executed s ++ running (p_worker s) ++ p_queue s;
  pi_saved : p_lost s = false -> p_failed s = false ->
    p_writers s = [] -> p_queue s = [] -> (forall op, p_worker s <> WRun op) ->
    p_saved s = p_mem s;
}.

Lemma pinv_init b : pinv (p_init b).
Proof. constructor; simpl; try done. unfold maxPersistenceQueue. lia. Qed.

(** A write that persists nothing changes nothing. *)
Lemma apply_write_none w b b' : apply_write w b = (b', None) -> b' = b.
Proof.
  destruct w; simpl; try done. unfold RemoveAttachment.
  destruct (remove_attachment _ _); simpl; congruence.
Qed.

Lemma pinv_write w s : pinv s -> pinv (do_write w s).
Proof.
  intros []. unfold do_write. destruct (apply_write w (p_mem s)) as [b op] eqn:E.
  constructor; simpl; try done. intros Hl Hf Hw Hq Hr.
  apply app_eq_nil in Hw as [Hw Ho]. destruct op; [done|].
  apply apply_write_none in E as ->. auto.
Qed.

Lemma pinv_persist op l r s :
  p_writers s = l ++ op :: r -> pinv s -> pinv (persistSafe op (l ++ r) s).
Proof.
  intros Hw []. unfold persistSafe. destruct (p_closed s) eqn:Ec;
    [constructor; simpl; rewrite ?Ec; done|].
  destruct (decide _) as [Hd|Hd]; constructor; simpl; rewrite ?Ec; try done.
  - rewrite length_app. simpl. lia.
  - intros Hx. by destruct (pi_exited0 Hx).
  - rewrite pi_fifo0, !app_assoc. done.
  - intros _ _ _ Hq. by apply app_eq_nil in Hq as [_ ?].
Qed.

Lemma pinv_worker ok s s' : persistenceWorker ok s = Some s' -> pinv s -> pinv s'.
Proof.
  intros Hs []. unfold persistenceWorker in Hs.
  destruct (p_worker s) as [| |op|op|] eqn:Ew.
  - destruct (p_signal s) eqn:Esig; [|destruct (p_chan_closed s) eqn:Ecc; [|done]];
      injection Hs as <-; constructor; simpl; try done; try (intros; by apply pi_saved0).
    + intros _. split; [|auto]. destruct (p_queue s) eqn:Eq; [done|].
      by discriminate pi_wakeup0.
    + intros _. by apply pi_close0.
  - destruct (p_queue s) as [|op rest] eqn:Eq; injection Hs as <-;
      constructor; simpl in *; rewrite ?Eq; try done; try lia;
      try (intros; by apply pi_saved0).
    + intros _ _ _ _ Hr. by destruct (Hr op).
  - injection Hs as <-. constructor; simpl; try done.
    destruct ok; [done|]. intros _ ?. done.
  - injection Hs as <-. constructor; simpl in *; try done.
    + rewrite pi_fifo0, <- !app_assoc. done.
    + intros ? ? ? ? _. by apply pi_saved0.
  - done.
Qed.

Lemma pinv_step s s' : pstep s s' -> pinv s -> pinv s'.
Proof.
  intros [w t|l op r t Hw|ok t t' Ht|t|t Hc] Hi.
  - by apply pinv_write.
  - by apply pinv_persist.
  - by eapply pinv_worker.
  - destruct Hi. constructor; simpl; try done. intros ?. destruct pi_exited0; done.
  - destruct Hi. by constructor.
Qed.

Lemma preachable_inv b s : preachable b s -> pinv s.
Proof.
  unfold preachable. intros H. remember (p_init b) as s0 eqn:E.
  assert (pinv s0) as H0 by (subst; apply pinv_init). clear E.
  induction H as [s|s0 s1 s2 Hst _ IH]; [done|]. apply IH. by eapply pinv_step.
Qed.

#[export] Hint Resolve pinv_init pinv_step preachable_inv : sp4rk.

(** ** Safety *)

Lemma worker_blocked b s ok :
  preachable b s -> persistenceWorker ok s = None ->
  p_queue s = [] /\ p_executed s = p_accepted s /\ running (p_worker s) = [].
Proof.
  intros Hs Hn. destruct (preachable_inv _ _ Hs). unfold persistenceWorker in Hn.
  assert (p_queue s = [] /\ running (p_worker s) = []) as [Hq Hr].
  { destruct (p_worker s) eqn:Ew; try done.
    - destruct (p_signal s) eqn:Esig; [done|]. destruct (p_chan_closed s); [done|].
      destruct (p_queue s) eqn:Eq; [done|]. by discriminate pi_wakeup0.
    - by destruct (p_queue s).
    - by destruct (pi_exited0 eq_refl). }
  split; [done|]. split; [|done]. by rewrite pi_fifo0, Hq, Hr, !app_nil_r.
Qed.

(** C35: whatever the interleaving of writers, worker and shutdown: the queue
    never exceeds its cap; the operations the worker has executed, the one it
    is executing and the queued ones are exactly the accepted operations, in
    the order they were accepted; and a wake-up is never lost, so the worker
    is only ever blocked (or gone) when the queue is empty. *)
Theorem persistence_queue_safe b s (Hs : preachable b s) :
  length (p_queue s) <= maxPersistenceQueue /\
  p_accepted s = p_executed s ++ running (p_worker s) ++ p_queue s /\
  (forall ok, persistenceWorker ok s = None ->
     p_queue s = [] /\ p_executed s = p_accepted s).
Proof.
  destruct (preachable_inv _ _ Hs). split; [done|]. split; [done|].
  intros ok Hn. by destruct (worker_blocked b s ok Hs Hn) as (? & ? & _).
Qed.

(** Checkpoints are eventually consistent: once every writer has passed
    [persistSafe] and the worker has nothing left to do, and unless an
    operation was refused or a save failed, the last saved checkpoint IS the
    blackboard in memory, every write included. *)
Theorem checkpoint_consistent b s ok (Hs : preachable b s)
  (Hquiet : p_writers s = [] /\ persistenceWorker ok s = None)
  (Hclean : p_lost s = false /\ p_failed s = false) :
  p_saved s = p_mem s.
Proof.
  destruct Hquiet as [Hw Hn], Hclean as [Hl Hf].
  destruct (worker_blocked b s ok Hs Hn) as (Hq & _ & Hr).
  destruct (preachable_inv _ _ Hs). apply pi_saved0; try done.
  intros op Hop. by rewrite Hop in Hr.
Qed.

(** ** Shutdown *)

(** The work left to the worker. *)
Definition worker_measure (s : pstate) : nat :=
  4 * length (p_queue s) + (if p_signal s then 3 else 0) +
  match p_worker s with WIdle => 1 | WDrain => 2 | WRun _ => 5 | WRan _ => 4 | WExited => 0 end.

Lemma worker_measure_decreases ok s s' :
  persistenceWorker ok s = Some s' -> worker_measure s' < worker_measure s.
Proof.
  unfold persistenceWorker, worker_measure. intros H.
  destruct (p_worker s) eqn:Ew; try done;
    repeat step_match_in H; simplify_eq; simpl; rewrite ?E, ?Ew; simpl; lia.
Qed.

(** The worker alone, [ok] telling the fate of each save. *)
Fixpoint run_worker (fuel : nat) (ok : nat -> bool) (s : pstate) : pstate :=
  match fuel with
  | O => s
  | S fuel' =>
      match persistenceWorker (ok fuel') s with
      | Some s' => run_worker fuel' ok s'
      | None => s
      end
  end.

Lemma run_worker_reachable b fuel ok s : preachable b s -> preachable b (run_worker fuel ok s).
Proof.
  revert s; induction fuel as [|fuel IH]; intros s Hs; simpl; [done|].
  destruct (persistenceWorker _ s) eqn:E; [|done]. apply IH. eapply rtc_r; [done|]. by econstructor.
Qed.

Lemma run_worker_frame fuel ok s :
  p_chan_closed (run_worker fuel ok s) = p_chan_closed s /\
  p_accepted (run_worker fuel ok s) = p_accepted s.
Proof.
  revert s; induction fuel as [|fuel IH]; intros s; simpl; [done|].
  destruct (persistenceWorker (ok fuel) s) as [s'|] eqn:E; [|done].
  destruct (IH s') as [-> ->]. unfold persistenceWorker in E.
  repeat step_match_in E; by simplify_eq.
Qed.

Lemma run_worker_done fuel ok s :
  worker_measure s < fuel -> exists k, persistenceWorker (ok k) (run_worker fuel ok s) = None.
Proof.
  revert s; induction fuel as [|fuel IH]; intros s Hm; [lia|]. simpl.
  destruct (persistenceWorker (ok fuel) s) as [s'|] eqn:E; [|eauto].
  apply IH. apply worker_measure_decreases in E. lia.
Qed.

(** [Shutdown] drains: from any reachable state in which the channel has
    been closed, the worker by itself stops after a bounded number of steps,
    has then exited, and has executed every operation that was ever accepted,
    whether or not the saves succeed. *)
Theorem shutdown_drains b s ok fuel (Hs : preachable b s) (Hclosed : p_chan_closed s = true)
  (Hfuel : worker_measure s < fuel) :
  let s' := run_worker fuel ok s in
  p_worker s' = WExited /\ p_queue s' = [] /\ p_executed s' = p_accepted s.
Proof.
  intros s'. pose proof (run_worker_reachable b fuel ok s Hs) as Hs'.
  destruct (run_worker_frame fuel ok s) as [Hcc Ha].
  destruct (run_worker_done fuel ok s Hfuel) as [k Hk].
  destruct (worker_blocked b _ _ Hs' Hk) as (Hq & He & _).
  fold s' in Hk, Hcc, Ha, Hq, He. rewrite Hclosed in Hcc. split; [|split; [done|]].
  - unfold persistenceWorker in Hk. rewrite Hcc in Hk.
    destruct (p_worker s'); try done; repeat step_match_in Hk; done.
  - by rewrite <- Ha.
Qed.

(** A run: two writes, both persisted, then a shutdown. *)
Definition example_run : pstate :=
  shutdown_close (shutdown_flag
    (persistSafe "set_original_request" ["store_fact"]
      (do_write (WStoreFact (mkFact None "c" "s"))
        (do_write (WSetOriginalRequest "do it") (p_init (NewMapBlackboard 0)))))).

Lemma example_run_reachable : preachable (NewMapBlackboard 0) example_run.
Proof.
  unfold preachable, example_run.
  eapply rtc_l; [apply (PWrite (WSetOriginalRequest "do it"))|].
  eapply rtc_l; [apply (PWrite (WStoreFact (mkFact None "c" "s")))|].
  eapply rtc_l; [apply (PPersist [] "set_original_request" ["store_fact"]); reflexivity|].
  eapply rtc_l; [apply PShutdownFlag|].
  eapply rtc_l; [apply PShutdownClose; reflexivity|]. apply rtc_refl.
Qed.

Lemma persistence_queue_safe_witness :
  preachable (NewMapBlackboard 0) example_run /\
  length (p_queue example_run) <= maxPersistenceQueue /\ p_queue example_run = ["set_original_request"].
Proof.
  split; [exact example_run_reachable|]. split; [|reflexivity].
  exact (proj1 (persistence_queue_safe _ _ example_run_reachable)).
Defined.

Definition example_quiet : pstate :=
  run_worker 20 (fun _ => true)
    (persistSafe "set_original_request" []
      (do_write (WSetOriginalRequest "do it") (p_init (NewMapBlackboard 0)))).

Lemma example_quiet_reachable : preachable (NewMapBlackboard 0) example_quiet.
Proof.
  apply run_worker_reachable. unfold preachable.
  eapply rtc_l; [apply (PWrite (WSetOriginalRequest "do it"))|].
  eapply rtc_l; [apply (PPersist [] "set_original_request" []); reflexivity|]. apply rtc_refl.
Qed.

Lemma checkpoint_consistent_witness :
  p_saved example_quiet = p_mem example_quiet /\ bb_request (p_saved example_quiet) = "do it".
Proof.
  split; [|vm_compute; reflexivity].
  apply (checkpoint_consistent (NewMapBlackboard 0) example_quiet true example_quiet_reachable).
  - split; vm_compute; reflexivity.
  - split; vm_compute; reflexivity.
Defined.

Lemma shutdown_drains_witness :
  p_worker (run_worker 20 (fun _ => false) example_run) = WExited /\
  p_executed (run_worker 20 (fun _ => false) example_run) = ["set_original_request"].
Proof.
  destruct (shutdown_drains (NewMapBlackboard 0) example_run (fun _ => false) 20
    example_run_reachable eq_refl ltac:(vm_compute; lia)) as (H & _ & H').
  split; [exact H|exact H'].
Defined.
