(* ===== verification/Nudges.v ===== *)
(** * The texts the executor puts into the conversation

    The nudge and abort messages of [src/agent/executor.go] and
    [src/agent/executor_run.go], with their [fmt.Sprintf] verbs as arguments. *)

From Stdlib Require Import ZArith Ascii.
From stdpp Require Import base strings.
From S2P Require Import Prelude GoStr.
Open Scope sp4rk_scope.

(** The double quote. *)
Definition dq : string := String "034" "".

Definition executorNudge : string :=
  "[System] You have tools available that can help answer this request. Before " +s+
  "finishing, try using relevant tools to discover the answer. Do NOT say you cannot " +s+
  "determine something without first attempting to use your tools.".

Definition executorToolCallSyntaxNudge : string :=
  "[System] You printed a tool call as text in your response instead of invoking it " +s+
  "through the tool_use block — either a fenced code block (e.g. ```bash_exec) or a JSON " +s+
  "object (e.g. {" +s+
  dq +s+
  "answer" +s+
  dq +s+
  ": " +s+
  dq +s+
  "..." +s+
  dq +s+
  "}). This is an error — tools must be called via the tool_use mechanism, not typed as " +s+
  "text. Re-issue your tool call correctly using the tool_use block.".

Definition executorWrapUpNudge (n : Z) : string :=
  "[System] You are running low on tool call iterations. You have " +s+
  itoa n +s+
  " iteration(s) remaining. Prioritize wrapping up your work: summarize your findings " +s+
  "and call finish, and do not start new explorations. However, if your task is still in " +s+
  "progress and you genuinely need more iterations to complete it, you may continue " +s+
  "working instead of finishing — the user will be asked to grant additional iterations " +s+
  "if you exceed the limit.".

Definition executorWrapUpNudgeActive (n : Z) : string :=
  "[System] You are running low on tool call iterations. You have " +s+
  itoa n +s+
  " iteration(s) remaining, but your recent steps show active progress (successful file " +s+
  "changes). Continue completing the work in progress rather than abandoning it. If you " +s+
  "need more iterations beyond the limit, keep working — the user will be asked to grant " +s+
  "additional iterations when you reach the limit, and you can call finish once the task " +s+
  "is done. Do not finish prematurely.".

Definition executorFinishNudge : string :=
  "[System] You must call the finish tool to complete your task. Simply responding with " +s+
  "text does not count as completion. Call the finish tool now with your final answer.".

Definition executorMutationNudge : string :=
  "[System] You are finishing a step that requires code modifications, but you have not " +s+
  "made any file changes (no write_file, edit_file, create_directory, delete_file, or " +s+
  "delete_directory calls). If the task genuinely requires no changes, explain why " +s+
  "explicitly in your finish answer. Otherwise, make the required changes NOW before " +s+
  "calling finish.".

Definition executorChecklistMissingNudge : string :=
  "[System] You are finishing a non-trivial step without having called update_checklist. " +s+
  "A checklist tracks the sub-tasks of your current step and gives the user visibility " +s+
  "into progress. Call update_checklist now with the sub-tasks for this step (mark " +s+
  "completed ones as '- [x]'), then continue. If this step is genuinely trivial, explain " +s+
  "why in your finish answer.".

Definition executorChecklistUncheckedNudge (n : Z) : string :=
  "[System] Your last checklist has " +s+
  itoa n +s+
  " unchecked item(s). Either complete the remaining work, or call update_checklist " +s+
  "again with all relevant items checked and explain in your finish answer why any were " +s+
  "skipped.".

Definition executorChecklistStaleNudge (n : Z) : string :=
  "[System] You have made " +s+
  itoa n +s+
  " tool calls since your last update_checklist. If you have completed any sub-task in " +s+
  "that time, call update_checklist now to mark it done. Update ONE item at a time (do " +s+
  "not batch several items in a single call) so your progress stays visible to the user " +s+
  "throughout the step.".

Definition checklistBatchPositiveSuffix : string :=
  "[System] Good — one item marked complete. Keep updating the checklist right after " +s+
  "each piece of work, one item at a time.".

Definition checklistBatchWarningFmt (n : Z) : string :=
  "[System] You just marked " +s+
  itoa n +s+
  " items complete in a single update_checklist call. Update the checklist incrementally " +s+
  "— one item per call, immediately after completing each sub-task — so progress stays " +s+
  "visible throughout the step. Do not batch multiple items in one call.".

Definition repeatNudgeMessage : string :=
  "[System] You have called the same tool with identical arguments multiple times in a " +s+
  "row. Identical calls always produce identical results — this is an infinite loop. " +s+
  "Change your approach: use different arguments, a different tool, or call finish if " +s+
  "the task cannot be completed.".

Definition repeatErrorNudgeMessage : string :=
  "[System] The previous call to this tool with identical arguments returned an error, " +s+
  "and you are repeating it unchanged — it will fail the same way. Retrying after you " +s+
  "have genuinely fixed the failing argument is legitimate and will not be flagged; " +s+
  "repeating identical arguments is not. Fix the failing argument, use a different tool, " +s+
  "or call finish if the task cannot be completed.".

Definition truncationMessage (tool : string) : string :=
  "[System] Your tool call to '" +s+
  tool +s+
  "' was NOT executed because your output was cut off by the model's maximum output " +s+
  "token limit. The tool call arguments are incomplete/truncated. You MUST use a " +s+
  "different approach that produces smaller output — for example, break large file " +s+
  "writes into multiple smaller operations, use read_file with line ranges instead of " +s+
  "reading entire files, or reduce the content size.".

Definition parseErrorNudgeFmt (n : Z) (err : string) (max : Z) (raw : string) : string :=
  "[System] This tool has now failed to parse input " +s+
  itoa n +s+
  " times in a row. The arguments you are generating are malformed." +s+
  nl +s+
  "Parse error: " +s+
  err +s+
  nl +s+
  "Your raw output as received (truncated to ~" +s+
  itoa max +s+
  " chars): " +s+
  raw +s+
  nl +s+
  "Respond with ONLY a valid JSON tool call — no prose before or after it, no markdown " +s+
  "code fences. Try a completely different approach: reduce the size of your arguments, " +s+
  "use a different tool, or break the operation into smaller steps.".

Definition executorFruitlessNudge (n : Z) : string :=
  "[System] Your last " +s+
  itoa n +s+
  " tool calls returned empty or minimal results. Continuing to search with different " +s+
  "parameters is unlikely to yield new information. Summarize what you have found so far " +s+
  "and call the finish tool.".

Definition executorSameToolRepeatNudge (tool : string) (n : Z) : string :=
  "[System] You have called '" +s+
  tool +s+
  "' " +s+
  itoa n +s+
  " times in a row with different arguments but consistently similar results. Varying " +s+
  "arguments alone is not narrowing the results. Refine the formulation of your query to " +s+
  "target different information, or use a different tool. If the information likely does " +s+
  "not exist, summarize your findings and call the finish tool.".

Definition step_limit_once_nudge : string :=
  "[System] The user granted you exactly ONE additional tool call iteration. Use it " +s+
  "wisely to wrap up your work. The user may deny further extensions.".

Definition step_limit_more_nudge (grant : Z) : string :=
  "[System] The user granted you " +s+
  itoa grant +s+
  " additional tool call iterations. Continue making progress on your task. The user may " +s+
  "deny further extensions if you exceed this budget.".

Definition step_limit_always_nudge : string :=
  "[System] The user granted you unlimited tool call iterations for this step. You have " +s+
  "the freedom to make as many tool calls as needed to complete your work.".

(** The reprieve a user grants at a circuit breaker. *)
Definition reprieve (more : bool) : string :=
  if more then "let you continue" else "granted you ONE more chance".

Definition repeat_ack_nudge (more : bool) : string :=
  "[System] The user acknowledged the circuit breaker and " +s+
  reprieve more +s+
  ". You MUST change your approach immediately — do NOT repeat the same tool call.".

Definition repeat_override_nudge : string :=
  "[System] The user has overridden the circuit breaker. You may continue, but try to " +s+
  "vary your approach to avoid repeating the same failing pattern.".

Definition fruitless_ack_nudge (more : bool) : string :=
  "[System] The user acknowledged the fruitless-results circuit breaker and " +s+
  reprieve more +s+
  ". Try a fundamentally different approach to find the information you need.".

Definition fruitless_override_nudge : string :=
  "[System] The user has overridden the fruitless-results circuit breaker. You may " +s+
  "continue searching, but consider varying your approach.".

Definition same_ack_nudge (more : bool) : string :=
  "[System] The user acknowledged the same-tool circuit breaker and " +s+
  reprieve more +s+
  ". Try a completely different tool or approach instead of repeating the same tool.".

Definition same_override_nudge : string :=
  "[System] The user has overridden the same-tool circuit breaker. You may continue, but " +s+
  "consider using different tools or approaches.".

Definition parse_ack_nudge (more : bool) : string :=
  "[System] The user acknowledged the parse-error circuit breaker and " +s+
  reprieve more +s+
  ". You MUST fix your tool call arguments — they are malformed. Try a simpler approach.".

Definition parse_override_nudge : string :=
  "[System] The user has overridden the parse-error circuit breaker. You may continue, " +s+
  "but fix your tool call argument formatting.".

Definition truncation_ack_nudge (more : bool) : string :=
  "[System] The user acknowledged the truncation circuit breaker and " +s+
  reprieve more +s+
  ". You MUST use smaller operations to avoid hitting the output token limit.".

Definition truncation_override_nudge : string :=
  "[System] The user has overridden the truncation circuit breaker. You may continue, " +s+
  "but try to produce smaller outputs.".

Definition repeat_reason (tool : string) (n : Z) : string :=
  "Tool '" +s+
  tool +s+
  "' called " +s+
  itoa n +s+
  " times consecutively with identical arguments".

Definition repeat_abort (tool : string) (n : Z) : string :=
  "Aborted: tool '" +s+
  tool +s+
  "' called " +s+
  itoa n +s+
  " times consecutively with identical arguments".

Definition fruitless_reason (n : Z) : string :=
  itoa n +s+
  " consecutive tool calls returned empty or minimal results".

Definition fruitless_abort (n : Z) : string :=
  "Aborted: " +s+
  itoa n +s+
  " consecutive tool calls returned empty or minimal results".

Definition same_reason (tool : string) (n : Z) : string :=
  "Tool '" +s+
  tool +s+
  "' called " +s+
  itoa n +s+
  " times in a row with different arguments but similar results".

Definition same_abort (tool : string) (n : Z) : string :=
  "Aborted: tool '" +s+
  tool +s+
  "' called " +s+
  itoa n +s+
  " times in a row with different arguments but similar results".

Definition parse_reason (tool : string) (n : Z) : string :=
  "Tool '" +s+
  tool +s+
  "' failed to parse input " +s+
  itoa n +s+
  " times consecutively".

Definition parse_abort (tool : string) (n : Z) : string :=
  "Aborted: tool '" +s+
  tool +s+
  "' failed to parse input " +s+
  itoa n +s+
  " times consecutively".

Definition truncation_reason (tool : string) (n : Z) : string :=
  "Tool '" +s+
  tool +s+
  "' output was truncated " +s+
  itoa n +s+
  " times consecutively by max output token limit".

Definition truncation_abort (tool : string) (n : Z) : string :=
  "Aborted: tool '" +s+
  tool +s+
  "' output was truncated " +s+
  itoa n +s+
  " times consecutively by max output token limit".

Definition syntax_abort : string :=
  "Aborted: model repeatedly printed tool-call syntax as text instead of using tool_use " +s+
  "blocks".

