(* ===== verification/Fence.v ===== *)
(** * The untrusted-content fence: [src/security/wrap.go]

    Tool output from outside is put between [<untrusted-content>] tags before a
    model reads it.  The theorem of this file is that the fence cannot be
    closed or reopened from the inside: whatever the content, the source and
    the metadata are, the wrapped text holds one opening and one closing tag,
    its own.

    The two patterns [(?i)<\s*untrusted-content] and
    [(?i)<\s*/\s*untrusted-content] are functions from the text at a position
    to the text behind a match.  Under [(?i)] Go's regexp folds by Unicode:
    besides its upper case, [s] matches U+017F (two bytes); [\s] is one of
    blank, tab, newline, form feed and carriage return. *)

From Stdlib Require Import ZArith Lia Ascii.
From stdpp Require Import base gmap strings list sorting.
From S2P Require Import Prelude GoStr Nudges.
Open Scope sp4rk_scope.

Definition UntrustedTag : string := "untrusted-content".

(** ** The patterns *)

(** [\s] *)
Definition re_s (c : ascii) : bool :=
  let b := byte_of c in (Z.eqb b 32 || Z.eqb b 9 || Z.eqb b 10 || Z.eqb b 12 || Z.eqb b 13).

Fixpoint skip_s (s : string) : string :=
  match s with
  | String c r => if re_s c then skip_s r else s
  | "" => ""
  end.

(** A letter of the pattern, in lower case, against the text. *)
Definition lower_ascii (c : ascii) : ascii :=
  let b := byte_of c in if (65 <=? b)%Z && (b <=? 90)%Z then ascii_of (b + 32) else c.

Definition match_letter (p : ascii) (s : string) : option string :=
  match s with
  | "" => None
  | String c r =>
      if Ascii.eqb (lower_ascii c) p then Some r
      else if Ascii.eqb p "s" && Ascii.eqb c "197" then
        match r with
        | String d r' => if Ascii.eqb d "191" then Some r' else None
        | "" => None
        end
      else None
  end.

Fixpoint match_word (w s : string) : option string :=
  match w with
  | "" => Some s
  | String p w' => match match_letter p s with Some r => match_word w' r | None => None end
  end.

(** A pattern behind its [<]. *)
Definition open_tail (s : string) : option string := match_word UntrustedTag (skip_s s).
Definition close_tail (s : string) : option string :=
  match skip_s s with
  | String c r => if Ascii.eqb c "/" then match_word UntrustedTag (skip_s r) else None
  | "" => None
  end.

(** [tagOpenRe], [tagCloseRe] at a position. *)
Definition tag_at (tail : string -> option string) (s : string) : option string :=
  match s with
  | String c r => if Ascii.eqb c "<" then tail r else None
  | "" => None
  end.
Definition tagOpenRe : string -> option string := tag_at open_tail.
Definition tagCloseRe : string -> option string := tag_at close_tail.

(** ** [StripUntrustedTags] *)

(** [re.ReplaceAllStringFunc(content, ...)] with the replacement that turns the
    leading [<] into [&lt;]: [skip] bytes of the current match are still to be
    copied before the search goes on. *)
Fixpoint replace_lt (re : string -> option string) (skip : nat) (s : string) : string :=
  match s with
  | "" => ""
  | String c r =>
      match skip with
      | S k => String c (replace_lt re k r)
      | O =>
          match re s with
          | Some rest => "&lt;" +s+ replace_lt re (String.length r - String.length rest) r
          | None => String c (replace_lt re 0 r)
          end
      end
  end.

Definition StripUntrustedTags (content : string) : string :=
  replace_lt tagCloseRe 0 (replace_lt tagOpenRe 0 content).

(** ** [WrapUntrustedContent] *)

Definition escape_char (c : ascii) : string :=
  if Ascii.eqb c "&" then "&amp;"
  else if Ascii.eqb c "<" then "&lt;"
  else if Ascii.eqb c ">" then "&gt;"
  else if Ascii.eqb c "034" then "&quot;"
  else String c "".

(** [attributeValueEscaper.Replace] *)
Fixpoint escape_value (s : string) : string :=
  match s with
  | "" => ""
  | String c r => escape_char c +s+ escape_value r
  end.

Definition is_letter (c : ascii) : bool :=
  let b := byte_of c in ((65 <=? b)%Z && (b <=? 90)%Z) || ((97 <=? b)%Z && (b <=? 122)%Z).
Definition key_char (c : ascii) : bool :=
  let b := byte_of c in
  is_letter c || ((48 <=? b)%Z && (b <=? 57)%Z) || Ascii.eqb c "_" || Ascii.eqb c "-".
Fixpoint all_chars (p : ascii -> bool) (s : string) : bool :=
  match s with
  | "" => true
  | String c r => p c && all_chars p r
  end.

(** [metadataKeyRe.MatchString] *)
Definition metadataKeyRe (key : string) : bool :=
  match key with
  | "" => false
  | String c r => is_letter c && all_chars key_char r
  end.

(** [sort.Strings]: bytewise. *)
Definition str_le (a b : string) : Prop := String.leb a b = true.
#[export] Instance str_le_dec : RelDecision str_le.
Proof. intros a b. unfold str_le. apply _. Defined.
#[export] Instance str_le_total : Total str_le.
Proof. intros a b. apply String.leb_total. Qed.

#[export] Instance str_le_trans : Transitive str_le.
Proof.
  unfold str_le, String.leb. intros a. induction a as [|x a IH]; intros [|y b] [|z c]; simpl; try done.
  destruct (Ascii.compare x y) eqn:E1, (Ascii.compare y z) eqn:E2; try done; try (intros; done); intros H1 H2.
  - apply Ascii.compare_eq_iff in E1, E2. subst. unfold Ascii.compare. rewrite N.compare_refl. eauto.
  - apply Ascii.compare_eq_iff in E1. subst. by rewrite E2.
  - apply Ascii.compare_eq_iff in E2. subst. by rewrite E1.
  - unfold Ascii.compare in *. rewrite N.compare_lt_iff in E1, E2.
    replace (N_of_ascii x ?= N_of_ascii z)%N with Lt; [done|]. symmetry. apply N.compare_lt_iff. lia.
Qed.

#[export] Instance str_le_antisym : AntiSymm (=) str_le.
Proof.
  intros a b. unfold str_le, String.leb. rewrite (String.compare_antisym a b). destruct (String.compare b a) eqn:E; [|done|done].
  apply String.compare_eq_iff in E. done.
Qed.

Definition sorted_keys (metadata : gmap string string) : list string :=
  merge_sort str_le (map fst (map_to_list metadata)).

Definition attribute (metadata : gmap string string) (key : string) : string :=
  if metadataKeyRe key
  then " " +s+ key +s+ "=" +s+ dq +s+ escape_value (default "" (metadata !! key)) +s+ dq
  else "".

Definition WrapUntrustedContent (content source : string) (metadata : gmap string string) : string :=
  let sanitized := StripUntrustedTags content in
  let attrs := "source=" +s+ dq +s+ escape_value source +s+ dq +s+
               join "" (map (attribute metadata) (sorted_keys metadata)) in
  "<" +s+ UntrustedTag +s+ " " +s+ attrs +s+ ">" +s+ nl +s+ sanitized +s+ nl +s+ "</" +s+ UntrustedTag +s+ ">".

(** ** What a reader of the text sees as tags *)

Fixpoint count_matches (re : string -> option string) (s : string) : nat :=
  match s with
  | "" => 0
  | String _ r => (if re s then 1 else 0) + count_matches re r
  end.
Definition opening_tags : string -> nat := count_matches tagOpenRe.
Definition closing_tags : string -> nat := count_matches tagCloseRe.

Example upper_case_and_blanks : closing_tags ("x <  / " +s+ nl +s+ "UNTRUSTED-Content>") = 1%nat.
Proof. reflexivity. Qed.
Example long_s_folds : opening_tags ("<untru" +s+ String "197" (String "191" "ted-content>")) = 1%nat.
Proof. reflexivity. Qed.
Example strips : StripUntrustedTags "a </untrusted-content> < b <untrusted-content x" =
  "a &lt;/untrusted-content> < b &lt;untrusted-content x".
Proof. reflexivity. Qed.

Lemma sapp_cons c a b : String c a +s+ b = String c (a +s+ b).
Proof. done. Qed.

Lemma sapp_one c s : String c "" +s+ s = String c s.
Proof. done. Qed.


(** ** Texts alike up to the next [<] or [&]

    A match never runs over one of these two characters, so it depends on the
    text up to the next one only. *)

Definition stop (c : ascii) : bool := Ascii.eqb c "<" || Ascii.eqb c "&".
Definition plain_char (c : ascii) : bool := negb (Ascii.eqb c "<").

Inductive sim : string -> string -> Prop :=
| sim_nil : sim "" ""
| sim_same c r r' : stop c = false -> sim r r' -> sim (String c r) (String c r')
| sim_stop c c' r r' : stop c = true -> stop c' = true -> sim (String c r) (String c' r').

Definition osim (a b : option string) : Prop :=
  match a, b with
  | Some x, Some y => sim x y
  | None, None => True
  | _, _ => False
  end.

Definition hit (o : option string) : bool := if o then true else false.

Lemma osim_hit a b : osim a b -> hit a = hit b.
Proof. by destruct a, b. Qed.

Lemma stop_cases c : stop c = true -> c = "<"%char \/ c = "&"%char.
Proof. unfold stop. intros [H|H]%orb_true_iff; apply Ascii.eqb_eq in H; auto. Qed.

Lemma stop_not_s c : stop c = true -> re_s c = false.
Proof. by intros [->| ->]%stop_cases. Qed.

Lemma stop_no_letter c p r : stop c = true -> stop p = false -> match_letter p (String c r) = None.
Proof.
  intros Hc Hp. unfold match_letter.
  assert (Ascii.eqb (lower_ascii c) p = false) as ->.
  { apply Ascii.eqb_neq. intros <-. destruct (stop_cases c Hc) as [-> | ->]; discriminate Hp. }
  destruct (stop_cases c Hc) as [-> | ->]; by rewrite andb_false_r.
Qed.

Lemma skip_s_sim s s' : sim s s' -> sim (skip_s s) (skip_s s').
Proof.
  induction 1 as [|c r r' Hc Hr IH|c c' r r' Hc Hc']; simpl; [constructor| |].
  - destruct (re_s c); [done|by constructor].
  - rewrite !stop_not_s by done. by constructor.
Qed.

Lemma match_letter_sim p s s' : stop p = false -> sim s s' -> osim (match_letter p s) (match_letter p s').
Proof.
  intros Hp [|c r r' Hc Hr|c c' r r' Hc Hc']; [done| |by rewrite !stop_no_letter].
  unfold match_letter. destruct (Ascii.eqb (lower_ascii c) p); [done|]. destruct (_ && _); [|done].
  destruct Hr as [|d q q' Hd Hq|d d' q q' Hd Hd']; [done|by destruct (Ascii.eqb d "191")|].
  by destruct (stop_cases d Hd) as [-> | ->], (stop_cases d' Hd') as [-> | ->].
Qed.

Lemma match_word_sim w s s' :
  all_chars (fun c => negb (stop c)) w = true -> sim s s' -> osim (match_word w s) (match_word w s').
Proof.
  revert s s'; induction w as [|p w IH]; intros s s' Hw Hs; [done|]. simpl in *.
  apply andb_true_iff in Hw as [Hp%negb_true_iff Hw].
  pose proof (match_letter_sim p s s' Hp Hs) as Hm.
  destruct (match_letter p s), (match_letter p s'); try done. by apply IH.
Qed.

(** ** What a match consumes *)

Lemma skip_s_pre s : exists pre, s = pre +s+ skip_s s /\ all_chars plain_char pre = true.
Proof.
  induction s as [|c r (pre & Hr & Hp)]; simpl; [by exists ""|].
  destruct (re_s c) eqn:Ec; [|by exists ""]. exists (String c pre). split.
  - by rewrite Hr at 1.
  - simpl. rewrite Hp, andb_true_r. unfold plain_char. destruct (Ascii.eqb_spec c "<"); [by subst|done].
Qed.

Lemma match_letter_pre p s r :
  stop p = false -> match_letter p s = Some r -> exists pre, s = pre +s+ r /\ all_chars plain_char pre = true.
Proof.
  intros Hp. destruct s as [|c s]; [done|].
  assert (Hc : stop c = true -> match_letter p (String c s) = None) by (intros; by apply stop_no_letter).
  assert (Hplain : match_letter p (String c s) <> None -> plain_char c = true).
  { intros Hn. unfold plain_char. destruct (Ascii.eqb_spec c "<"); [|done]. subst. by rewrite Hc in Hn. }
  intros Hm. rewrite Hm in Hplain. specialize (Hplain ltac:(done)). clear Hc. unfold match_letter in Hm.
  destruct (Ascii.eqb (lower_ascii c) p).
  - injection Hm as <-. exists (String c ""). split; [done|]. simpl. by rewrite Hplain.
  - destruct (_ && _); [|done]. destruct s as [|d s]; [done|].
    destruct (Ascii.eqb_spec d "191"); [|done]. injection Hm as <-. subst d.
    exists (String c (String "191" "")). split; [done|]. simpl. by rewrite Hplain.
Qed.

Lemma all_chars_app p a b : all_chars p (a +s+ b) = all_chars p a && all_chars p b.
Proof. induction a as [|c a IH]; [done|]. simpl. unfold String.append in *. by rewrite IH, andb_assoc. Qed.

Lemma match_word_pre w s r :
  all_chars (fun c => negb (stop c)) w = true -> match_word w s = Some r ->
  exists pre, s = pre +s+ r /\ all_chars plain_char pre = true.
Proof.
  revert s; induction w as [|p w IH]; intros s Hw; simpl in *; [intros [= ->]; by exists ""|].
  apply andb_true_iff in Hw as [Hp%negb_true_iff Hw]. destruct (match_letter p s) as [s1|] eqn:E; [|done].
  intros Hm. destruct (match_letter_pre p s s1 Hp E) as (pre1 & -> & H1).
  destruct (IH s1 Hw Hm) as (pre2 & -> & H2). exists (pre1 +s+ pre2).
  by rewrite sapp_assoc, all_chars_app, H1, H2.
Qed.

(** ** The closing line of the fence *)

(** What follows the wrapped text: a newline and the closing tag. *)
Definition fence_end (t : string) : string := nl +s+ String "<" t.

Lemma skip_s_end a t :
  skip_s (a +s+ fence_end t) =
  if String.eqb (skip_s a) "" then String "<" t else skip_s a +s+ fence_end t.
Proof.
  induction a as [|c a IH]; [done|]. simpl. destruct (re_s c); [exact IH|done].
Qed.

Lemma match_letter_end p a t :
  stop p = false -> p <> "010"%char ->
  match_letter p (a +s+ fence_end t) =
  match match_letter p a with Some r => Some (r +s+ fence_end t) | None => None end.
Proof.
  intros Hp Hn. destruct a as [|c a].
  - change ("" +s+ fence_end t) with (String "010" (String "<" t)). unfold match_letter.
    assert (Ascii.eqb (lower_ascii "010") p = false) as ->.
    { apply Ascii.eqb_neq. change (lower_ascii "010") with "010"%char. congruence. }
    by destruct (Ascii.eqb p "s").
  - unfold match_letter. rewrite ?sapp_cons. destruct (Ascii.eqb (lower_ascii c) p); [done|].
    destruct (_ && _); [|done]. destruct a as [|d a]; [done|]. rewrite ?sapp_cons.
    by destruct (Ascii.eqb d "191").
Qed.

Definition tag_letter (c : ascii) : bool := negb (stop c) && negb (Ascii.eqb c "010").

Lemma match_word_end w a t :
  all_chars tag_letter w = true -> hit (match_word w (a +s+ fence_end t)) = hit (match_word w a).
Proof.
  revert a; induction w as [|p w IH]; intros a Hw; [done|]. simpl in *.
  apply andb_true_iff in Hw as [Hp Hw]. apply andb_true_iff in Hp as [Hp Hn]. apply negb_true_iff in Hp, Hn.
  rewrite match_letter_end; [|done|by apply Ascii.eqb_neq].
  destruct (match_letter p a); [by apply IH|done].
Qed.

(** A word with a first letter does not match at a [<]. *)
Lemma match_word_lt w p t : stop p = false -> match_word (String p w) (String "<" t) = None.
Proof. intros Hp. cbn [match_word]. by rewrite stop_no_letter. Qed.

(** ** What both patterns share *)

Class TagTail (tail : string -> option string) := {
  tail_sim : forall s s', sim s s' -> osim (tail s) (tail s');
  tail_pre : forall s r, tail s = Some r -> exists pre, s = pre +s+ r /\ all_chars plain_char pre = true;
  tail_end : forall a t, hit (tail (a +s+ fence_end t)) = hit (tail a);
}.

#[export] Instance open_TagTail : TagTail open_tail.
Proof.
  constructor; unfold open_tail.
  - intros s s' Hs. apply match_word_sim; [done|by apply skip_s_sim].
  - intros s r Hm. destruct (skip_s_pre s) as (p1 & Hs & H1).
    destruct (match_word_pre UntrustedTag (skip_s s) r eq_refl Hm) as (p2 & H2 & H3).
    exists (p1 +s+ p2). rewrite sapp_assoc, <- H2, <- Hs, all_chars_app, H1, H3. done.
  - intros a t. rewrite skip_s_end. destruct (String.eqb_spec (skip_s a) "") as [->|Hne].
    + unfold UntrustedTag. by rewrite match_word_lt.
    + by apply match_word_end.
Qed.

#[export] Instance close_TagTail : TagTail close_tail.
Proof.
  constructor; unfold close_tail.
  - intros s s' Hs. apply skip_s_sim in Hs. destruct Hs as [|c r r' Hc Hr|c c' r r' Hc Hc']; [done| |].
    + destruct (Ascii.eqb c "/"); [|done]. apply match_word_sim; [done|by apply skip_s_sim].
    + by destruct (stop_cases c Hc) as [-> | ->], (stop_cases c' Hc') as [-> | ->].
  - intros s r Hm. destruct (skip_s_pre s) as (p1 & Hs & H1). destruct (skip_s s) as [|c q]; [done|].
    destruct (Ascii.eqb_spec c "/"); [|done]. subst c.
    destruct (skip_s_pre q) as (p2 & Hq & H2).
    destruct (match_word_pre UntrustedTag (skip_s q) r eq_refl Hm) as (p3 & H3 & H4).
    exists (p1 +s+ String "/" (p2 +s+ p3)). split.
    + rewrite Hs, sapp_assoc. f_equal. rewrite ?sapp_cons. f_equal. by rewrite sapp_assoc, <- H3.
    + rewrite all_chars_app, H1. simpl. by rewrite all_chars_app, H2, H4.
  - intros a t. rewrite skip_s_end. destruct (String.eqb_spec (skip_s a) "") as [->|Hne]; [done|].
    destruct (skip_s a) as [|c q]; [done|]. rewrite ?sapp_cons. destruct (Ascii.eqb c "/"); [|done].
    rewrite skip_s_end. destruct (String.eqb_spec (skip_s q) "") as [->|Hq].
    + unfold UntrustedTag. by rewrite match_word_lt.
    + by apply match_word_end.
Qed.

(** ** Counting *)

Section counting.
Context (tail : string -> option string) `{!TagTail tail}.

Lemma tag_at_hit c r : hit (tag_at tail (String c r)) = Ascii.eqb c "<" && hit (tail r).
Proof. simpl. by destruct (Ascii.eqb c "<"). Qed.

Lemma count_cons c r :
  count_matches (tag_at tail) (String c r) =
  ((if Ascii.eqb c "<" && hit (tail r) then 1 else 0) + count_matches (tag_at tail) r)%nat.
Proof. rewrite <- tag_at_hit. cbn [count_matches]. by destruct (tag_at tail (String c r)). Qed.

(** No tag starts in a text without [<]. *)
Lemma count_plain a b :
  all_chars plain_char a = true -> count_matches (tag_at tail) (a +s+ b) = count_matches (tag_at tail) b.
Proof.
  induction a as [|c a IH]; [done|]. cbn [all_chars]. intros [Hc Ha]%andb_true_iff.
  rewrite sapp_cons, count_cons. apply negb_true_iff in Hc as ->. by apply IH.
Qed.

(** The tags before the closing line are those of the text itself. *)
Lemma count_end a t :
  count_matches (tag_at tail) (a +s+ fence_end t) =
  (count_matches (tag_at tail) a + count_matches (tag_at tail) (String "<" t))%nat.
Proof.
  induction a as [|c a IH].
  - exact (count_plain nl (String "<" t) eq_refl).
  - by rewrite sapp_cons, (count_cons c (a +s+ _)), (count_cons c a), IH, tail_end, Nat.add_assoc.
Qed.
End counting.

(** Escaping without the bookkeeping of the match: no match starts inside one. *)
Fixpoint escaped (re : string -> option string) (s : string) : string :=
  match s with
  | "" => ""
  | String c r => (if hit (re s) then "&lt;" else String c "") +s+ escaped re r
  end.

Section escaping.
Context (tail : string -> option string) `{!TagTail tail}.

Lemma replace_escaped pre s :
  all_chars plain_char pre = true ->
  replace_lt (tag_at tail) (String.length pre) (pre +s+ s) = escaped (tag_at tail) (pre +s+ s).
Proof.
  remember (pre +s+ s) as text eqn:Et. revert pre s Et.
  induction text as [|c r IH]; intros pre s Et Hp; [done|]. cbn [replace_lt escaped].
  destruct pre as [|d pre].
  - cbn [String.length]. rewrite tag_at_hit. simpl tag_at.
    destruct (Ascii.eqb c "<"); [|f_equal; exact (IH "" r eq_refl eq_refl)].
    destruct (tail r) as [rest|] eqn:Em; cbn [andb hit]; [|f_equal; exact (IH "" r eq_refl eq_refl)].
    destruct (tail_pre r rest Em) as (pre & -> & Hpre). f_equal.
    replace (String.length (pre +s+ rest) - String.length rest)%nat with (String.length pre)
      by (rewrite length_sapp; lia). by apply (IH pre rest).
  - rewrite sapp_cons in Et. injection Et as -> ->. simpl in Hp. apply andb_true_iff in Hp as [Hd Hp].
    cbn [String.length]. rewrite tag_at_hit. apply negb_true_iff in Hd as ->. cbn [andb].
    change (String d "" +s+ escaped (tag_at tail) (pre +s+ s)) with (String d (escaped (tag_at tail) (pre +s+ s))).
    f_equal. by apply (IH pre s).
Qed.

Lemma replace_is_escaped s : replace_lt (tag_at tail) 0 s = escaped (tag_at tail) s.
Proof. exact (replace_escaped "" s eq_refl). Qed.

Lemma sim_escaped s : sim s (escaped (tag_at tail) s).
Proof.
  induction s as [|c r IH]; [constructor|]. cbn [escaped]. rewrite tag_at_hit.
  destruct (Ascii.eqb_spec c "<"); [subst; destruct (hit (tail r)); by apply sim_stop|].
  simpl. destruct (stop c) eqn:Ec; [by apply sim_stop|by apply sim_same].
Qed.

(** The pattern itself is gone, another one is no more frequent. *)
Lemma count_escaped (tail' : string -> option string) `{!TagTail tail'} s :
  (count_matches (tag_at tail') (escaped (tag_at tail) s) <= count_matches (tag_at tail') s)%nat.
Proof.
  induction s as [|c r IH]; [done|]. cbn [escaped]. rewrite tag_at_hit, count_cons.
  destruct (Ascii.eqb_spec c "<") as [->|Hne]; cbn [andb].
  - destruct (hit (tail r)).
    + rewrite (count_plain tail' "&lt;") by done. lia.
    + rewrite sapp_one, count_cons.
      rewrite <- (osim_hit _ _ (tail_sim r _ (sim_escaped r))). simpl. lia.
  - rewrite sapp_one, count_cons, (proj2 (Ascii.eqb_neq _ _) Hne). simpl. lia.
Qed.

Lemma count_escaped_self s : count_matches (tag_at tail) (escaped (tag_at tail) s) = 0%nat.
Proof.
  induction s as [|c r IH]; [done|]. cbn [escaped]. rewrite tag_at_hit.
  destruct (Ascii.eqb_spec c "<") as [->|Hne]; cbn [andb].
  - destruct (hit (tail r)) eqn:Eh.
    + by rewrite (count_plain tail "&lt;").
    + rewrite sapp_one, count_cons, <- (osim_hit _ _ (tail_sim r _ (sim_escaped r))), Eh. exact IH.
  - rewrite sapp_one, count_cons, (proj2 (Ascii.eqb_neq _ _) Hne). exact IH.
Qed.

Lemma escaped_none s : count_matches (tag_at tail) s = 0%nat -> escaped (tag_at tail) s = s.
Proof.
  induction s as [|c r IH]; [done|]. rewrite count_cons. cbn [escaped]. rewrite tag_at_hit.
  destruct (Ascii.eqb c "<" && hit (tail r)); [discriminate|]. intros Hr. simpl. by rewrite IH.
Qed.
End escaping.

Lemma strip_open s : opening_tags (StripUntrustedTags s) = 0%nat.
Proof.
  unfold StripUntrustedTags, tagCloseRe, tagOpenRe, opening_tags. rewrite !replace_is_escaped by apply _.
  pose proof (count_escaped close_tail open_tail (escaped (tag_at open_tail) s)) as Hle.
  pose proof (count_escaped_self open_tail s). unfold tagOpenRe in *. lia.
Qed.

Lemma strip_close s : closing_tags (StripUntrustedTags s) = 0%nat.
Proof.
  unfold StripUntrustedTags, tagCloseRe, closing_tags. rewrite replace_is_escaped by apply _.
  apply (count_escaped_self close_tail).
Qed.

Lemma strip_none s : opening_tags s = 0%nat -> closing_tags s = 0%nat -> StripUntrustedTags s = s.
Proof.
  intros Ho Hc. unfold StripUntrustedTags, tagCloseRe, tagOpenRe. rewrite !replace_is_escaped by apply _.
  rewrite (escaped_none open_tail s Ho). exact (escaped_none close_tail s Hc).
Qed.

(** ** The attributes *)

Lemma escape_value_plain s : all_chars plain_char (escape_value s) = true.
Proof.
  induction s as [|c r IH]; [done|]. cbn [escape_value]. rewrite all_chars_app, IH, andb_true_r.
  unfold escape_char. repeat (case_match; [done|]). simpl. rewrite andb_true_r. unfold plain_char.
  destruct (Ascii.eqb c "<"); done.
Qed.

Lemma key_plain key : metadataKeyRe key = true -> all_chars plain_char key = true.
Proof.
  assert (Hl : forall c, is_letter c = true -> plain_char c = true).
  { intros c Hc. unfold plain_char. destruct (Ascii.eqb_spec c "<"); [by subst|done]. }
  assert (Hk : forall c, key_char c = true -> plain_char c = true).
  { intros c Hc. unfold plain_char. destruct (Ascii.eqb_spec c "<"); [by subst|done]. }
  destruct key as [|c r]; [done|]. simpl. intros [Hc Hr]%andb_true_iff. rewrite (Hl c Hc). simpl.
  induction r as [|d r IH]; [done|]. simpl in *. apply andb_true_iff in Hr as [Hd Hr].
  by rewrite (Hk d Hd), IH.
Qed.

Lemma attribute_plain metadata key : all_chars plain_char (attribute metadata key) = true.
Proof.
  unfold attribute. destruct (metadataKeyRe key) eqn:E; [|done].
  by rewrite !all_chars_app, (key_plain key E), escape_value_plain.
Qed.

Lemma join_plain l : Forall (fun s => all_chars plain_char s = true) l -> all_chars plain_char (join "" l) = true.
Proof.
  induction 1 as [|s l Hs Hl IH]; [done|]. destruct l as [|s' l]; [done|].
  cbn [join] in *. by rewrite !all_chars_app, Hs, IH.
Qed.

(** Untrusted content cannot leave its fence: whatever the content, the
    source and the metadata are, the wrapped text holds exactly one opening and
    one closing tag in the sense of the two patterns - it starts with the
    first and ends with the second - around the content without tags, and a
    content that holds none is there unchanged. *)
Theorem WrapUntrustedContent_sealed content source metadata :
  let w := WrapUntrustedContent content source metadata in
  opening_tags w = 1%nat /\ closing_tags w = 1%nat /\
  (exists attrs, all_chars plain_char attrs = true /\
     w = "<untrusted-content " +s+ attrs +s+ ">" +s+ nl +s+ StripUntrustedTags content +s+
         nl +s+ "</untrusted-content>") /\
  (opening_tags content = 0%nat -> closing_tags content = 0%nat -> StripUntrustedTags content = content) /\
  StripUntrustedTags (StripUntrustedTags content) = StripUntrustedTags content.
Proof.
  cbv zeta. unfold WrapUntrustedContent. set (attrs := "source=" +s+ _). set (body := StripUntrustedTags content).
  assert (Ha : all_chars plain_char attrs = true).
  { unfold attrs. rewrite !all_chars_app, escape_value_plain, join_plain; [done|].
    apply Forall_fmap, Forall_true. intros key. apply attribute_plain. }
  clearbody attrs.
  set (head := UntrustedTag +s+ " " +s+ attrs +s+ ">" +s+ nl).
  assert (Hh : all_chars plain_char head = true) by (unfold head; by rewrite !all_chars_app, Ha).
  assert (Hw : "<" +s+ UntrustedTag +s+ " " +s+ attrs +s+ ">" +s+ nl +s+ body +s+ nl +s+ "</" +s+ UntrustedTag +s+ ">"
    = String "<" (head +s+ (body +s+ fence_end "/untrusted-content>")))
    by (unfold head; by rewrite !sapp_assoc).
  assert (Hcount : forall tail, TagTail tail ->
    count_matches (tag_at tail) (String "<" (head +s+ (body +s+ fence_end "/untrusted-content>"))) =
    ((if hit (tail (head +s+ (body +s+ fence_end "/untrusted-content>"))) then 1 else 0) +
     (count_matches (tag_at tail) body + count_matches (tag_at tail) "</untrusted-content>"))%nat).
  { intros tail Ht. rewrite count_cons, count_plain, count_end by done. done. }
  rewrite Hw. unfold opening_tags, closing_tags, tagOpenRe, tagCloseRe. rewrite !Hcount by apply _.
  pose proof (strip_open content) as Ho. pose proof (strip_close content) as Hc.
  unfold opening_tags, closing_tags, tagOpenRe, tagCloseRe in Ho, Hc. fold body in Ho, Hc. rewrite Ho, Hc.
  split; [reflexivity|]. split; [reflexivity|]. split.
  { exists attrs. split; [done|]. by rewrite <- Hw. }
  split; [apply strip_none|]. by apply strip_none.
Qed.
