(* ===== verification/Prompt.v ===== *)
(** * System prompts: src/prompt/builder.go

    The builder of prompts: sections, trusted substitutions that may nest, and
    substitutions of untrusted values, which come last and are not scanned
    again; the marker that separates what a provider may cache.  The order of a
    range over a Go map is a parameter. *)

From Stdlib Require Import ZArith Lia Ascii.
From stdpp Require Import base gmap strings list sorting.
From S2P Require Import Prelude GoStr Fence.
Open Scope sp4rk_scope.

(** ** Searching and replacing *)

Definition CacheBreakMarker : string :=
  String (ascii_of 0) "" +s+ "CACHE_BREAK" +s+ String (ascii_of 0) "".
Fixpoint split_on (fuel : nat) (sep s : string) : list string :=
  match fuel with
  | O => [s]
  | S f =>
      match String.index 0 sep s with
      | Some n => take_str n s :: split_on f sep (str_drop (n + String.length sep) s)
      | None => [s]
      end
  end.
Definition SplitCacheBreak (systemPrompt : string) : list string :=
  List.filter (fun p => negb (String.eqb p ""))
    (map trim_space (split_on (String.length systemPrompt) CacheBreakMarker systemPrompt)).

(** The bytes of the first UTF-8 sequence; of an invalid one, one. *)
Definition first_width (s : string) : nat :=
  match s with
  | String c0 (String c1 s2) =>
      if utf8_2 (byte_of c0) (byte_of c1) then 2
      else match s2 with
      | String c2 s3 =>
          if utf8_3 (byte_of c0) (byte_of c1) (byte_of c2) then 3
          else match s3 with
          | String c3 _ => if utf8_4 (byte_of c0) (byte_of c1) (byte_of c2) (byte_of c3) then 4 else 1
          | "" => 1
          end
      | "" => 1
      end
  | _ => 1
  end%nat.

(** [strings.ReplaceAll]: [skip] bytes are matched already; an empty text
    matches in front of every UTF-8 sequence and at the end. *)
Fixpoint replace_all (old new : string) (skip : nat) (s : string) : string :=
  match s with
  | "" => ""
  | String c r =>
      match skip with
      | S k => replace_all old new k r
      | O => if has_prefix s old then new +s+ replace_all old new (String.length old - 1) r
             else String c (replace_all old new 0 r)
      end
  end.
Fixpoint insert_all (new : string) (skip : nat) (s : string) : string :=
  match s with
  | "" => new
  | String c r =>
      match skip with
      | S k => String c (insert_all new k r)
      | O => new +s+ String c (insert_all new (first_width s - 1) r)
      end
  end.
Definition ReplaceAll (s old new : string) : string :=
  if String.eqb old "" then insert_all new 0 s else replace_all old new 0 s.

(** [strings.NewReplacer(...).Replace]: from left to right, at each place the
    first of the texts that matches; an empty text matches where no other does. *)
Definition pair_at (pairs : list (string * string)) (s : string) : option (string * string) :=
  List.find (fun p => has_prefix s (fst p)) pairs.
Fixpoint Replacer (pairs : list (string * string)) (skip : nat) (s : string) : string :=
  match s with
  | "" => match pair_at pairs "" with Some (_, new) => new | None => "" end
  | String c r =>
      match skip with
      | S k => Replacer pairs k r
      | O =>
          match pair_at pairs s with
          | Some (old, new) =>
              if String.eqb old "" then new +s+ String c (Replacer pairs 0 r)
              else new +s+ Replacer pairs (String.length old - 1) r
          | None => String c (Replacer pairs 0 r)
          end
      end
  end.

(** ** The builder *)

Record Builder := mkBuilder {
  b_sections : list string;
  b_substitutions : gmap string string;
  b_dataSubstitutions : gmap string string;
  b_cacheBreakIdx : option nat; (** [None]: -1 *)
}.
Definition NewBuilder : Builder := mkBuilder [] ∅ ∅ None.
Definition Core (content : string) (b : Builder) : Builder :=
  mkBuilder (b_sections b ++ [content]) (b_substitutions b) (b_dataSubstitutions b) (b_cacheBreakIdx b).
Definition Replace (placeholder value : string) (b : Builder) : Builder :=
  mkBuilder (b_sections b) (<[placeholder := value]> (b_substitutions b)) (b_dataSubstitutions b) (b_cacheBreakIdx b).
Definition Builder_ReplaceAll (substitutions : gmap string string) (b : Builder) : Builder :=
  mkBuilder (b_sections b) (substitutions ∪ b_substitutions b) (b_dataSubstitutions b) (b_cacheBreakIdx b).
Definition ReplaceData (placeholder value : string) (b : Builder) : Builder :=
  mkBuilder (b_sections b) (b_substitutions b) (<[placeholder := value]> (b_dataSubstitutions b)) (b_cacheBreakIdx b).
Definition ReplaceDataAll (substitutions : gmap string string) (b : Builder) : Builder :=
  mkBuilder (b_sections b) (b_substitutions b) (substitutions ∪ b_dataSubstitutions b) (b_cacheBreakIdx b).
Definition CacheBreak (b : Builder) : Builder :=
  mkBuilder (b_sections b) (b_substitutions b) (b_dataSubstitutions b) (Some (length (b_sections b))).

Definition joinSections (sections : list string) : string :=
  join nl2 (List.filter (fun s => negb (String.eqb s "")) sections).

(** The longer placeholders first. *)
Definition key_le (a b : string) : Prop :=
  (String.length b < String.length a)%nat \/ (String.length a = String.length b /\ str_le a b).
#[export] Instance key_le_dec : RelDecision key_le.
Proof. intros a b. unfold key_le. apply _. Defined.
Definition data_keys (substitutions : gmap string string) : list string :=
  merge_sort key_le (map fst (map_to_list substitutions)).
Definition applyDataSubstitutions (text : string) (substitutions : gmap string string) : string :=
  if bool_decide (substitutions = ∅) then text
  else Replacer (map (fun k => (k, default "" (substitutions !! k))) (data_keys substitutions)) 0 text.

Definition maxSubstitutionPasses : nat := 5.

Section build.
(** The order in which the [n]-th range over a map goes. *)
Variable iterate : nat -> gmap string string -> list (string * string).

Definition substitute (st : string * bool) (kv : string * string) : string * bool :=
  if contains (fst st) (fst kv) then (ReplaceAll (fst st) (fst kv) (snd kv), true) else st.
Fixpoint sub_passes (tries n : nat) (text : string) (substitutions : gmap string string) : string :=
  match tries with
  | O => text
  | S tries =>
      let '(text, changed) := fold_left substitute (iterate n substitutions) (text, false) in
      if changed then sub_passes tries (S n) text substitutions else text
  end.
Definition applySubstitutionsIteratively (n : nat) (text : string) (substitutions : gmap string string) : string :=
  sub_passes maxSubstitutionPasses n text substitutions.

Definition one_part (n : nat) (b : Builder) (sections : list string) : string :=
  applyDataSubstitutions (applySubstitutionsIteratively n (joinSections sections) (b_substitutions b)) (b_dataSubstitutions b).
Definition BuildParts (b : Builder) : string * string :=
  match b_cacheBreakIdx b with
  | None => (one_part 0 b (b_sections b), "")
  | Some i => (one_part 0 b (take i (b_sections b)), one_part maxSubstitutionPasses b (drop i (b_sections b)))
  end.
Definition Build (b : Builder) : string :=
  match b_cacheBreakIdx b with
  | Some _ =>
      let '(stable, dynamic) := BuildParts b in
      if String.eqb dynamic "" then stable else stable +s+ CacheBreakMarker +s+ dynamic
  | None => one_part 0 b (b_sections b)
  end.
End build.

(** ** What scanning sees *)

(** A text, cut into the placeholders a single scan finds and the characters
    between them. *)
Inductive seg := Lit (c : ascii) | Key (k : string).
Fixpoint render (value : string -> string) (segs : list seg) : string :=
  match segs with
  | [] => ""
  | Lit c :: segs => String c (render value segs)
  | Key k :: segs => value k +s+ render value segs
  end.
Inductive scans (keys : list string) : string -> list seg -> Prop :=
| scans_end : scans keys "" []
| scans_key k t segs :
    k ∈ keys -> (forall k', k' ∈ keys -> has_prefix (k +s+ t) k' = true -> (String.length k' <= String.length k)%nat) ->
    scans keys t segs -> scans keys (k +s+ t) (Key k :: segs)
| scans_lit c t segs :
    (forall k, k ∈ keys -> has_prefix (String c t) k = false) -> scans keys t segs ->
    scans keys (String c t) (Lit c :: segs).

#[export] Instance key_le_total : Total key_le.
Proof.
  intros a b. unfold key_le. destruct (Nat.lt_total (String.length a) (String.length b)) as [|[E|]]; [by right; left| |by left; left].
  destruct (str_le_total a b); [left|right]; right; done.
Qed.
#[export] Instance key_le_trans : Transitive key_le.
Proof. intros a b c [H|[H1 H2]] [H'|[H1' H2']]; unfold key_le; [left; lia..|right]. split; [lia|by etransitivity]. Qed.

Lemma elem_of_data_keys subs k : k ∈ data_keys subs <-> k ∈ dom subs.
Proof.
  unfold data_keys. rewrite (merge_sort_Permutation key_le), elem_of_dom. rewrite list_elem_of_fmap. split.
  - intros ([k' v] & -> & H%elem_of_map_to_list). by exists v.
  - intros [v H]. exists (k, v). split; [done|by apply elem_of_map_to_list].
Qed.

Lemma Replacer_skip pairs k s : Replacer pairs k s = Replacer pairs 0 (str_drop k s).
Proof. revert s. induction k as [|k IH]; intros [|c s]; try done. simpl. apply IH. Qed.
Lemma has_prefix_app_self k t : has_prefix (k +s+ t) k = true.
Proof. apply has_prefix_spec. by exists t. Qed.
Lemma str_drop_sapp a b : str_drop (String.length a) (a +s+ b) = b.
Proof. induction a as [|c a IH]; [by destruct b|exact IH]. Qed.

Lemma sapp_same_length a b x y : String.length a = String.length b -> a +s+ x = b +s+ y -> a = b.
Proof.
  revert b. induction a as [|c a IH]; intros [|d b] Hl H; try done. injection H as -> H. injection Hl as Hl.
  exact (f_equal (String d) (IH b Hl H)).
Qed.

(** The pair a sorted list gives is of the longest placeholder. *)
Lemma pair_at_longest (keys : list string) (value : string -> string) s :
  StronglySorted key_le keys ->
  match pair_at (map (fun k => (k, value k)) keys) s with
  | Some (k, v) => v = value k /\ k ∈ keys /\ has_prefix s k = true /\
      forall k', k' ∈ keys -> has_prefix s k' = true -> (String.length k' <= String.length k)%nat
  | None => forall k, k ∈ keys -> has_prefix s k = false
  end.
Proof.
  induction 1 as [|k keys HS IH HF]; [by intros k ?%not_elem_of_nil|]. simpl.
  destruct (has_prefix s k) eqn:E.
  - split; [done|]. split; [left|]. split; [done|]. intros k' [->|Hk]%elem_of_cons _; [done|].
    eapply Forall_forall in HF; [|exact Hk]. destruct HF as [|[-> _]]; lia.
  - destruct (pair_at _ s) as [[k1 v1]|].
    + destruct IH as (-> & Hin & Hp & Hl). split; [done|]. split; [by right|]. split; [done|].
      intros k' [->|Hk]%elem_of_cons Hpk; [congruence|auto].
    + intros k' [->|Hk]%elem_of_cons; auto.
Qed.

Lemma Replacer_render keys (value : string -> string) s segs :
  StronglySorted key_le keys -> "" ∉ keys -> scans keys s segs ->
  Replacer (map (fun k => (k, value k)) keys) 0 s = render value segs.
Proof.
  intros HS He. induction 1 as [|k t segs Hk Hmax Hs IH|c t segs Hno Hs IH].
  - pose proof (pair_at_longest keys value "" HS) as H. simpl. destruct (pair_at _ "") as [[k v]|]; [|done].
    destruct H as (_ & Hk & Hp & _). by destruct k.
  - destruct k as [|c k]; [done|]. pose proof (pair_at_longest keys value (String c k +s+ t) HS) as H.
    change (String c k +s+ t) with (String c (k +s+ t)) in *. cbn [Replacer].
    destruct (pair_at _ _) as [[k1 v1]|].
    + destruct H as (-> & Hin1 & Hp1 & Hmax1). pose proof (Hmax _ Hin1 Hp1) as L1.
      pose proof (Hmax1 _ Hk (has_prefix_app_self (String c k) t)) as L2.
      apply has_prefix_spec in Hp1 as [t1 Ht1]. assert (k1 = String c k) as ->.
      { symmetry. apply (sapp_same_length _ _ t t1); [lia|exact Ht1]. }
      cbn [render String.eqb]. rewrite Replacer_skip. cbn [String.length]. rewrite Nat.sub_succ, Nat.sub_0_r, str_drop_sapp.
      by rewrite IH.
    + specialize (H _ Hk). by rewrite (has_prefix_app_self (String c k) t : has_prefix (String c (k +s+ t)) (String c k) = true) in H.
  - pose proof (pair_at_longest keys value (String c t) HS) as H. cbn [Replacer render].
    destruct (pair_at _ _) as [[k1 v1]|]; [|by rewrite IH].
    destruct H as (_ & Hk & Hp & _). by rewrite (Hno _ Hk) in Hp.
Qed.

Lemma scans_total keys s : "" ∉ keys -> StronglySorted key_le keys -> exists segs, scans keys s segs.
Proof.
  intros He HS. remember (String.length s) as n eqn:Hn. revert s Hn. induction n as [n IH] using lt_wf_ind. intros [|c t] ->; [by exists []; constructor|].
  pose proof (pair_at_longest keys (fun k => k) (String c t) HS) as H. destruct (pair_at _ _) as [[k v]|].
  - destruct H as (_ & Hk & [t' Ht]%has_prefix_spec & Hmax). destruct k as [|d k]; [done|].
    destruct (IH (String.length t')) with (s := t') as [segs Hs]; [|done|].
    { rewrite Ht, length_sapp. simpl. lia. }
    exists (Key (String d k) :: segs). rewrite Ht in *. by constructor.
  - destruct (IH (String.length t)) with (s := t) as [segs Hs]; [simpl; lia|done|].
    exists (Lit c :: segs). by constructor.
Qed.
(** There is one way to cut a text. *)
Lemma scans_unique keys s segs segs' : "" ∉ keys -> scans keys s segs -> scans keys s segs' -> segs = segs'.
Proof.
  intros He H. revert segs'. induction H as [|k t segs Hk Hmax Hs IH|c t segs Hno Hs IH]; intros segs' H'.
  - inversion H' as [|[|] ? ? Hk|]; subst; done.
  - destruct k as [|c k]; [done|]. inversion H' as [|k' t' segs2 Hk' Hmax' Hs' Et|c' t' segs2 Hno' Hs' Et]; subst segs'.
    + assert (k' = String c k) as ->.
      { apply (sapp_same_length _ _ t' t); [|exact Et]. apply Nat.le_antisymm.
        - apply Hmax; [done|]. rewrite <- Et. apply has_prefix_app_self.
        - apply Hmax'; [done|]. rewrite Et. apply has_prefix_app_self. }
      apply (f_equal (str_drop (String.length (String c k)))) in Et. rewrite !str_drop_sapp in Et. subst t'.
      by rewrite (IH segs2).
    + exfalso. specialize (Hno' _ Hk). subst. by rewrite (has_prefix_app_self (String c k) t : has_prefix (String c (k +s+ t)) _ = _) in Hno'.
  - inversion H' as [|k' t' segs2 Hk' Hmax' Hs' Et|c' t' segs2 Hno' Hs']; subst.
    + exfalso. specialize (Hno _ Hk'). rewrite <- Et in Hno. by rewrite has_prefix_app_self in Hno.
    + by rewrite (IH segs2).
Qed.

(** What the scan of a text finds does not depend on what is put in. *)
Lemma applyData_once keys text :
  "" ∉ keys -> exists segs, scans keys text segs /\
    forall subs, (forall k, k ∈ dom subs <-> k ∈ keys) ->
      applyDataSubstitutions text subs = render (fun k => default "" (subs !! k)) segs.
Proof.
  intros He. pose (K := merge_sort key_le keys).
  assert (HK : forall k, k ∈ K <-> k ∈ keys) by (intros k; unfold K; by rewrite (merge_sort_Permutation key_le)).
  destruct (scans_total K text) as [segs Hs]; [by rewrite HK|apply (StronglySorted_merge_sort key_le)|].
  assert (Hx : forall K', (forall k, k ∈ K' <-> k ∈ keys) -> scans K' text segs).
  { intros K' HK'. clear He. induction Hs as [|k t segs Hk Hmax Hs IH|c t segs Hno Hs IH]; constructor; try done.
    - by rewrite HK', <- HK.
    - intros k' Hk'. apply Hmax. by rewrite HK, <- HK'.
    - intros k Hk. apply Hno. by rewrite HK, <- HK'. }
  exists segs. split; [by apply Hx|]. intros subs Hd. unfold applyDataSubstitutions. case_bool_decide as E.
  - assert (Hn : forall k, k ∉ keys) by (intros k; rewrite <- Hd, E; set_solver).
    specialize (Hx [] (fun k => conj (fun H => match not_elem_of_nil k H with end) (fun H => match Hn k H with end))).
    clear -Hx. remember [] as K eqn:EK. induction Hx as [|k t segs Hk|c t segs _ _ IH]; [done|by subst; apply not_elem_of_nil in Hk|].
    simpl. by rewrite <- IH.
  - apply Replacer_render; [apply (StronglySorted_merge_sort key_le)|by rewrite elem_of_data_keys, Hd|].
    apply Hx. intros k. by rewrite elem_of_data_keys, Hd.
Qed.

Definition with_data (data : gmap string string) (b : Builder) : Builder :=
  mkBuilder (b_sections b) (b_substitutions b) data (b_cacheBreakIdx b).

(** The texts the two parts have before the untrusted values. *)
Definition trusted_texts (iterate : nat -> gmap string string -> list (string * string)) (b : Builder) : string * string :=
  let text n sections := applySubstitutionsIteratively iterate n (joinSections sections) (b_substitutions b) in
  match b_cacheBreakIdx b with
  | None => (text 0%nat (b_sections b), "")
  | Some i => (text 0%nat (take i (b_sections b)), text maxSubstitutionPasses (drop i (b_sections b)))
  end.
Definition put_in (data : gmap string string) (parts : list seg * list seg) : string :=
  let value k := default "" (data !! k) in
  render value (fst parts) +s+
  (if String.eqb (render value (snd parts)) "" then "" else CacheBreakMarker +s+ render value (snd parts)).
Lemma Build_render iterate b keys :
  "" ∉ keys ->
  exists parts, scans keys (fst (trusted_texts iterate b)) (fst parts) /\ scans keys (snd (trusted_texts iterate b)) (snd parts) /\
    forall data, (forall k, k ∈ dom data <-> k ∈ keys) -> Build iterate (with_data data b) = put_in data parts.
Proof.
  intros He. unfold Build, BuildParts, one_part, trusted_texts.
  cbn [with_data b_cacheBreakIdx b_sections b_substitutions b_dataSubstitutions].
  destruct (b_cacheBreakIdx b) as [i|]; cbn [fst snd].
  - set (t1 := applySubstitutionsIteratively _ 0 _ _). set (t2 := applySubstitutionsIteratively _ maxSubstitutionPasses _ _).
    destruct (applyData_once keys t1 He) as (s1 & H1 & E1), (applyData_once keys t2 He) as (s2 & H2 & E2).
    exists (s1, s2). split; [done|]. split; [done|]. intros data Hd.
    rewrite (E1 data Hd), (E2 data Hd). unfold put_in. cbn [fst snd]. destruct (String.eqb _ ""); [by rewrite sapp_nil_r|done].
  - set (t1 := applySubstitutionsIteratively _ 0 _ _). destruct (applyData_once keys t1 He) as (s1 & H1 & E1).
    exists (s1, []). split; [done|]. split; [constructor|]. intros data Hd.
    rewrite (E1 data Hd). unfold put_in. cbn. by rewrite sapp_nil_r.
Qed.

(** C29: untrusted values are inert in a prompt.  The sections and the trusted
    substitutions alone fix, for each part, which placeholders stand where, in
    one way; whatever the untrusted values hold, other placeholders included,
    the prompt is the parts with each value put in as it is at the places of its
    placeholder, the longest one that begins there, and the marker between the
    parts when the second one is not empty. *)
Theorem Build_data_inert iterate b keys :
  "" ∉ keys ->
  exists parts,
    (forall parts', scans keys (fst (trusted_texts iterate b)) (fst parts') /\ scans keys (snd (trusted_texts iterate b)) (snd parts') <->
                    parts' = parts) /\
    forall data, (forall k, k ∈ dom data <-> k ∈ keys) -> Build iterate (with_data data b) = put_in data parts.
Proof.
  intros He. destruct (Build_render iterate b keys He) as ([s1 s2] & H1 & H2 & Hb). exists (s1, s2). split; [|exact Hb].
  intros [s1' s2']. cbn [fst snd] in *. split.
  - intros [H1' H2']. by rewrite (scans_unique _ _ _ _ He H1' H1), (scans_unique _ _ _ _ He H2' H2).
  - by intros [= -> ->].
Qed.

(** ** The marker *)

Definition nul_free (s : string) : Prop := all_chars (fun c => negb (Ascii.eqb c "000")) s = true.
Lemma nul_free_cons c s : nul_free (String c s) <-> c <> "000"%char /\ nul_free s.
Proof. unfold nul_free. simpl. by rewrite andb_true_iff, negb_true_iff, Ascii.eqb_neq. Qed.
Lemma nul_free_app a b : nul_free (a +s+ b) <-> nul_free a /\ nul_free b.
Proof. unfold nul_free. by rewrite all_chars_app, andb_true_iff. Qed.
Lemma nul_free_join sep l : nul_free sep -> Forall nul_free l -> nul_free (join sep l).
Proof. intros Hs. induction 1 as [|x [|y l] Hx _ IH]; [done|done|]. cbn [join]. by rewrite !nul_free_app. Qed.
Lemma nul_free_replace old new s : nul_free new -> nul_free s -> nul_free (ReplaceAll s old new).
Proof.
  intros Hn Hs. unfold ReplaceAll.
  assert (H1 : forall k, nul_free (insert_all new k s)).
  { induction s as [|c s IH]; intros k; [done|]. apply nul_free_cons in Hs as [Hc Hs]. specialize (IH Hs).
    simpl. destruct k as [|k]; rewrite ?nul_free_app, nul_free_cons; auto. }
  assert (H2 : forall k, nul_free (replace_all old new k s)).
  { clear H1. induction s as [|c s IH]; intros k; [done|]. apply nul_free_cons in Hs as [Hc Hs]. specialize (IH Hs).
    cbn [replace_all]. destruct k as [|k]; [|done]. destruct (has_prefix _ _); rewrite ?nul_free_app, ?nul_free_cons; auto. }
  by destruct (String.eqb old "").
Qed.
Lemma nul_free_render value segs t keys :
  scans keys t segs -> (forall k, nul_free (value k)) -> nul_free t -> nul_free (render value segs).
Proof.
  intros Hs Hv. induction Hs as [|k t segs _ _ _ IH|c t segs _ _ IH]; [done| |].
  - rewrite nul_free_app. intros [_ ?]. simpl. rewrite nul_free_app. auto.
  - rewrite nul_free_cons. intros [? ?]. simpl. rewrite nul_free_cons. auto.
Qed.

Lemma marker_head c s : c <> "000"%char -> String.prefix CacheBreakMarker (String c s) = false.
Proof.
  intros H. change CacheBreakMarker with (String "000" (str_drop 1 CacheBreakMarker)).
  change ((if Ascii.ascii_dec "000" c then String.prefix (str_drop 1 CacheBreakMarker) s else false) = false).
  destruct (Ascii.ascii_dec "000" c); [congruence|done].
Qed.
Lemma index_marker a b : nul_free a -> String.index 0 CacheBreakMarker (a +s+ CacheBreakMarker +s+ b) = Some (String.length a).
Proof.
  induction a as [|c a IH]; [intros _; by destruct b|]. rewrite nul_free_cons. intros [Hc Ha].
  change (String c a +s+ CacheBreakMarker +s+ b) with (String c (a +s+ CacheBreakMarker +s+ b)).
  cbn [String.index]. by rewrite (IH Ha), marker_head.
Qed.
Lemma index_nul_free a : nul_free a -> String.index 0 CacheBreakMarker a = None.
Proof.
  induction a as [|c a IH]; [done|]. rewrite nul_free_cons. intros [Hc Ha]. cbn [String.index].
  by rewrite (IH Ha), marker_head.
Qed.
Lemma split_marker a b : nul_free a -> nul_free b ->
  SplitCacheBreak (a +s+ CacheBreakMarker +s+ b) = List.filter (fun p => negb (String.eqb p "")) [trim_space a; trim_space b].
Proof.
  intros Ha Hb. unfold SplitCacheBreak.
  assert (Hl : exists f, String.length (a +s+ CacheBreakMarker +s+ b) = S f).
  { rewrite !length_sapp. change (String.length CacheBreakMarker) with 13%nat. exists (String.length a + 12 + String.length b)%nat. lia. }
  destruct Hl as [f ->]. cbn [split_on]. rewrite (index_marker a b Ha).
  replace (take_str (String.length a) _) with a by (clear; induction a as [|c a IH]; [by destruct b|simpl; by rewrite <- IH]).
  rewrite <- length_sapp, <- sapp_assoc, str_drop_sapp.
  destruct f as [|f]; [done|]. cbn [split_on]. by rewrite (index_nul_free b Hb).
Qed.
Lemma split_plain a : nul_free a -> SplitCacheBreak a = List.filter (fun p => negb (String.eqb p "")) [trim_space a].
Proof. intros Ha. unfold SplitCacheBreak. destruct (String.length a); cbn [split_on]; [done|]. by rewrite (index_nul_free a Ha). Qed.

Section marker.
Context (iterate : nat -> gmap string string -> list (string * string)).
Context (iterate_range : forall n m, iterate n m ≡ₚ map_to_list m).

Lemma sub_passes_nul_free tries n text subs :
  map_Forall (fun _ v => nul_free v) subs -> nul_free text -> nul_free (sub_passes iterate tries n text subs).
Proof.
  intros Hs. revert n text. induction tries as [|tries IH]; [done|]. intros n text Ht. simpl.
  assert (HF : forall l st, l ⊆ map_to_list subs -> nul_free st.1 -> nul_free (fold_left substitute l st).1).
  { induction l as [|[k v] l IHl]; intros st Hl Hst; [done|]. simpl. apply IHl; [set_solver|].
    unfold substitute. destruct (contains _ _); [|done]. apply nul_free_replace; [|done].
    apply (Hs k), elem_of_map_to_list, Hl. left. }
  specialize (HF (iterate n subs) (text, false)). destruct (fold_left _ _ _) as [t c]. simpl in HF.
  assert (nul_free t) by (apply HF; [by rewrite iterate_range|done]). destruct c; [by apply IH|done].
Qed.

(** The marker splits what it should: when neither the sections nor the
    substituted values hold a NUL byte, the parts consumers split a built
    prompt into are the stable and the dynamic part, each without the space
    around it and without an empty one; never more than two. *)
Theorem SplitCacheBreak_Build b :
  Forall nul_free (b_sections b) -> map_Forall (fun _ v => nul_free v) (b_substitutions b) ->
  map_Forall (fun _ v => nul_free v) (b_dataSubstitutions b) -> "" ∉ dom (b_dataSubstitutions b) ->
  SplitCacheBreak (Build iterate b) =
  List.filter (fun p => negb (String.eqb p "")) [trim_space (fst (BuildParts iterate b)); trim_space (snd (BuildParts iterate b))].
Proof.
  intros Hsec Hsub Hdata He.
  assert (Hone : forall n sections, Forall nul_free sections -> nul_free (one_part iterate n b sections)).
  { intros n sections Hs. unfold one_part. set (t := applySubstitutionsIteratively _ _ _ _).
    assert (Ht : nul_free t).
    { apply sub_passes_nul_free; [done|]. apply nul_free_join; [done|]. apply Forall_forall. intros x [Hx _]%elem_of_List_filter.
      by eapply Forall_forall in Hs. }
    destruct (applyData_once (map fst (map_to_list (b_dataSubstitutions b))) t) as (segs & Hseg & Hr).
    - rewrite list_elem_of_fmap. intros ([k v] & Ek & Hk%elem_of_map_to_list). apply He, elem_of_dom. simpl in Ek. subst k. by exists v.
    - rewrite Hr.
      + eapply nul_free_render; [exact Hseg| |done]. intros k. destruct (_ !! k) eqn:E; [exact (Hdata _ _ E)|done].
      + intros k. rewrite elem_of_dom, list_elem_of_fmap. split.
        * intros [v Hv]. exists (k, v). split; [done|by apply elem_of_map_to_list].
        * intros ([k' v] & -> & Hv%elem_of_map_to_list). by exists v. }
  unfold Build, BuildParts. destruct (b_cacheBreakIdx b) as [i|]; cbn [fst snd].
  - pose proof (Hone 0%nat (take i (b_sections b)) (Forall_take _ _ _ Hsec)) as H1.
    pose proof (Hone maxSubstitutionPasses (drop i (b_sections b)) (Forall_drop _ _ _ Hsec)) as H2.
    destruct (String.eqb_spec (one_part iterate maxSubstitutionPasses b (drop i (b_sections b))) "") as [E|_].
    + rewrite (split_plain _ H1), E. simpl. by destruct (negb _).
    + by apply split_marker.
  - rewrite (split_plain _ (Hone 0%nat _ Hsec)). simpl. by destruct (negb _).
Qed.
End marker.

(** ** Concrete inputs *)

Definition in_order (n : nat) (m : gmap string string) : list (string * string) := map_to_list m.
Definition backwards (n : nat) (m : gmap string string) : list (string * string) := reverse (map_to_list m).
Definition demo_data : gmap string string := {["REFLECTIONS" := "see TOOLS"; "TOOLS" := "none REFLECTIONS"]}.
Definition demo_prompt : Builder :=
  with_data demo_data (Replace "MODE" "REFLECTIONS!" (CacheBreak (Core "TOOLS then MODE" (Core "You plan." NewBuilder)))).
Definition demo_keys : list string := ["REFLECTIONS"; "TOOLS"].

Lemma demo_keys_named : "" ∉ demo_keys.
Proof. intros H. by apply elem_of_cons in H as [H|[H|H%not_elem_of_nil]%elem_of_cons]. Qed.
Lemma demo_dom k : k ∈ dom demo_data <-> k ∈ demo_keys.
Proof.
  unfold demo_data, demo_keys. rewrite dom_insert, dom_singleton, elem_of_union, !elem_of_singleton, !elem_of_cons.
  pose proof (not_elem_of_nil k). tauto.
Qed.
Example demo_build : Build in_order demo_prompt = "You plan." +s+ nl2 +s+ "none REFLECTIONS then see TOOLS!".
Proof. vm_compute. reflexivity. Qed.

Lemma Build_data_inert_witness :
  exists parts, scans demo_keys ("You plan." +s+ nl2 +s+ "TOOLS then REFLECTIONS!") (fst parts) /\
    Build in_order demo_prompt = put_in demo_data parts.
Proof.
  destruct (Build_data_inert in_order demo_prompt demo_keys demo_keys_named) as (parts & Hp & Hb).
  destruct (proj2 (Hp parts) eq_refl) as [H1 _]. exists parts. split.
  - assert (E : fst (trusted_texts in_order demo_prompt) = "You plan." +s+ nl2 +s+ "TOOLS then REFLECTIONS!") by (vm_compute; reflexivity).
    rewrite <- E. exact H1.
  - assert (E : with_data demo_data demo_prompt = demo_prompt) by reflexivity. rewrite <- E. exact (Hb demo_data demo_dom).
Defined.

Lemma SplitCacheBreak_Build_witness :
  SplitCacheBreak (Build in_order (Core "Now: TOOLS" (CacheBreak (Core " You plan. " (with_data demo_data NewBuilder))))) =
  ["You plan."; "Now: none REFLECTIONS"].
Proof.
  rewrite (SplitCacheBreak_Build in_order).
  - vm_compute. reflexivity.
  - intros n m. reflexivity.
  - repeat constructor.
  - apply map_Forall_empty.
  - intros k v. cbn [b_dataSubstitutions Core CacheBreak with_data]. unfold demo_data.
    rewrite lookup_insert_Some, lookup_singleton_Some. intros [[_ <-]|[_ [_ <-]]]; done.
  - cbn [b_dataSubstitutions Core CacheBreak with_data]. rewrite demo_dom. exact demo_keys_named.
Defined.

(** Trusted values that nest deeper than the passes come out differently with
    the order of the map. *)
Definition nested : gmap string string :=
  {["%1" := "%2"; "%2" := "%3"; "%3" := "%4"; "%4" := "%5"; "%5" := "%6"; "%6" := "%7"; "%7" := "end"]}.
Definition sorted_range (n : nat) (m : gmap string string) : list (string * string) :=
  map (fun k => (k, default "" (m !! k))) (sorted_keys m).
Example nesting_depends_on_order :
  applySubstitutionsIteratively sorted_range 0 "%1" nested = "end" /\
  applySubstitutionsIteratively (fun n m => reverse (sorted_range n m)) 0 "%1" nested = "%6".
Proof. vm_compute. done. Qed.

(** An untrusted value with the marker makes a part of its own. *)
Example marker_in_data :
  SplitCacheBreak (Build in_order (ReplaceData "USER" ("x" +s+ CacheBreakMarker +s+ "y") (Core "b" (CacheBreak (Core "a USER" NewBuilder))))) =
  ["a x"; "y"; "b"].
Proof. vm_compute. reflexivity. Qed.
