(* ===== verification/Json.v ===== *)
(** * JSON as [encoding/json] reads it

    The part of the standard library's JSON the sources use: validity of a
    text, [json.Compact], and decoding one level of a value with nested values
    kept as raw text, the way [json.RawMessage] does.  The nesting limit of the
    decoder (10000) is not modelled. *)

From Stdlib Require Import ZArith Lia Ascii.
From stdpp Require Import base strings list.
From S2P Require Import Prelude GoStr Nudges.
Open Scope sp4rk_scope.

Definition is_ws (c : ascii) : bool :=
  let b := byte_of c in ((b =? 32) || (b =? 9) || (b =? 10) || (b =? 13))%Z.

Fixpoint skip_ws (s : string) : string :=
  match s with
  | String c r => if is_ws c then skip_ws r else s
  | EmptyString => s
  end.

Definition is_digit (c : ascii) : bool := let b := byte_of c in ((48 <=? b) && (b <=? 57))%Z.

Definition hex_val (c : ascii) : option Z :=
  let b := byte_of c in
  if ((48 <=? b) && (b <=? 57))%Z then Some (b - 48)%Z
  else if ((97 <=? b) && (b <=? 102))%Z then Some (b - 87)%Z
  else if ((65 <=? b) && (b <=? 70))%Z then Some (b - 55)%Z
  else None.

Definition hex4 (a b c d : ascii) : option Z :=
  match hex_val a, hex_val b, hex_val c, hex_val d with
  | Some w, Some x, Some y, Some z => Some (((w * 16 + x) * 16 + y) * 16 + z)%Z
  | _, _, _, _ => None
  end.

(** What a one-letter escape stands for. *)
Definition escape_char (c : ascii) : option ascii :=
  if bool_decide (c ∈ [ "034"; "\"; "/" ]%char) then Some c
  else if Ascii.eqb c "b" then Some "008"%char
  else if Ascii.eqb c "f" then Some "012"%char
  else if Ascii.eqb c "n" then Some "010"%char
  else if Ascii.eqb c "r" then Some "013"%char
  else if Ascii.eqb c "t" then Some "009"%char
  else None.

(** After the opening quote: the text behind the closing one. *)
Fixpoint skip_string (s : string) : option string :=
  match s with
  | EmptyString => None
  | String "034" r => Some r
  | String "\" (String "u" (String a (String b (String c (String d r))))) =>
      match hex4 a b c d with Some _ => skip_string r | None => None end
  | String "\" (String c r) =>
      match escape_char c with Some _ => skip_string r | None => None end
  | String c r => if (byte_of c <? 32)%Z then None else skip_string r
  end.

Definition is_surrogate (z : Z) : bool := ((55296 <=? z) && (z <? 57344))%Z.

(** [utf16.DecodeRune] *)
Definition decode_surrogates (hi lo : Z) : option Z :=
  if ((55296 <=? hi) && (hi <? 56320) && (56320 <=? lo) && (lo <? 57344))%Z
  then Some ((hi - 55296) * 1024 + (lo - 56320) + 65536)%Z else None.

(** The bytes of a valid string literal after its opening quote; [hi] is the
    surrogate just read.  A surrogate that pairs with nothing is U+FFFD. *)
Fixpoint unescape (s : string) : string :=
  match s with
  | EmptyString => EmptyString
  | String "034" _ => EmptyString
  | String "\" (String "u" (String a (String b (String c (String d r))))) =>
      let z := default rune_error (hex4 a b c d) in
      match r with
      | String "\" (String "u" (String a' (String b' (String c' (String d' r'))))) =>
          match decode_surrogates z (default 0%Z (hex4 a' b' c' d')) with
          | Some x => string_of_runes [x] +s+ unescape r'
          | None => string_of_runes [z] +s+ unescape r
          end
      | _ => string_of_runes [z] +s+ unescape r
      end
  | String "\" (String c r) => String (default c (escape_char c)) (unescape r)
  | String c r => String c (unescape r)
  end.

(** Invalid UTF-8 becomes U+FFFD. *)
Definition unquote (s : string) : string := string_of_runes (runes (unescape s)).

(** ** Numbers and literals *)

Fixpoint skip_digits (s : string) : string :=
  match s with
  | String c r => if is_digit c then skip_digits r else s
  | EmptyString => s
  end.

Definition digits1 (s : string) : option string :=
  match s with
  | String c r => if is_digit c then Some (skip_digits r) else None
  | EmptyString => None
  end.

Definition skip_frac (s : string) : option string :=
  match s with String "." r => digits1 r | _ => Some s end.

Definition skip_exp (s : string) : option string :=
  match s with
  | String c r =>
      if Ascii.eqb c "e" || Ascii.eqb c "E" then
        match r with
        | String c' r' => if Ascii.eqb c' "+" || Ascii.eqb c' "-" then digits1 r' else digits1 r
        | EmptyString => None
        end
      else Some s
  | EmptyString => Some s
  end.

Definition skip_number (s : string) : option string :=
  let s := match s with String "-" r => r | _ => s end in
  match s with
  | String "0" r => skip_frac r ≫= skip_exp
  | String c r => if is_digit c then skip_frac (skip_digits r) ≫= skip_exp else None
  | EmptyString => None
  end.

Definition skip_lit (lit s : string) : option string :=
  if has_prefix s lit then Some (str_drop (String.length lit) s) else None.

(** ** Values *)

(** The text behind the JSON value at the start of [s]; [fuel] bounds the
    nesting and the elements, the length of the text is enough. *)
Fixpoint skip_value (fuel : nat) (s : string) : option string :=
  match fuel with
  | O => None
  | S f =>
      match skip_ws s with
      | EmptyString => None
      | String c r as s' =>
          if Ascii.eqb c "034" then skip_string r
          else if Ascii.eqb c "t" then skip_lit "true" s'
          else if Ascii.eqb c "f" then skip_lit "false" s'
          else if Ascii.eqb c "n" then skip_lit "null" s'
          else if Ascii.eqb c "[" then
            match skip_ws r with
            | String "]" r' => Some r'
            | _ => skip_elements f r
            end
          else if Ascii.eqb c "{" then
            match skip_ws r with
            | String "}" r' => Some r'
            | _ => skip_members f r
            end
          else skip_number s'
      end
  end
with skip_elements (fuel : nat) (s : string) : option string :=
  match fuel with
  | O => None
  | S f =>
      match skip_value f s with
      | None => None
      | Some r =>
          match skip_ws r with
          | String "]" r' => Some r'
          | String "," r' => skip_elements f r'
          | _ => None
          end
      end
  end
with skip_members (fuel : nat) (s : string) : option string :=
  match fuel with
  | O => None
  | S f =>
      match skip_ws s with
      | String "034" r =>
          match skip_string r with
          | None => None
          | Some r1 =>
              match skip_ws r1 with
              | String ":" r2 =>
                  match skip_value f r2 with
                  | None => None
                  | Some r3 =>
                      match skip_ws r3 with
                      | String "}" r' => Some r'
                      | String "," r' => skip_members f r'
                      | _ => None
                      end
                  end
              | _ => None
              end
          end
      | _ => None
      end
  end.

Definition json_fuel (s : string) : nat := S (2 * String.length s).

(** [json.Valid] *)
Definition json_valid (s : string) : bool :=
  match skip_value (json_fuel s) s with
  | Some r => String.eqb (skip_ws r) ""
  | None => false
  end.

(** One level of a value, nested values as raw text. *)
Inductive jvalue :=
| JNull
| JBool (b : bool)
| JNum (raw : string)
| JStr (s : string)
| JArr (l : list string)
| JObj (l : list (string * string)).

(** The prefix of [s] in front of its suffix [r]. *)
Definition before (s r : string) : string := take_str (String.length s - String.length r) s.

Fixpoint elements (fuel : nat) (s : string) : list string :=
  match fuel with
  | O => []
  | S f =>
      let s := skip_ws s in
      match skip_value f s with
      | None => []
      | Some r =>
          before s r :: match skip_ws r with String "," r' => elements f r' | _ => [] end
      end
  end.

Fixpoint members (fuel : nat) (s : string) : list (string * string) :=
  match fuel with
  | O => []
  | S f =>
      match skip_ws s with
      | String "034" k =>
          match skip_string k with
          | None => []
          | Some r1 =>
              let v := skip_ws (str_drop 1 (skip_ws r1)) in
              match skip_value f v with
              | None => []
              | Some r =>
                  (unquote k, before v r) ::
                  match skip_ws r with String "," r' => members f r' | _ => [] end
              end
          end
      | _ => []
      end
  end.

(** [json.Unmarshal] of a valid text, one level deep. *)
Definition json_decode (s : string) : option jvalue :=
  if negb (json_valid s) then None
  else match skip_ws s with
  | EmptyString => None
  | String c r =>
      Some (if Ascii.eqb c "034" then JStr (unquote r)
            else if Ascii.eqb c "t" then JBool true
            else if Ascii.eqb c "f" then JBool false
            else if Ascii.eqb c "n" then JNull
            else if Ascii.eqb c "[" then
              JArr (match skip_ws r with String "]" _ => [] | _ => elements (json_fuel s) r end)
            else if Ascii.eqb c "{" then
              JObj (match skip_ws r with String "}" _ => [] | _ => members (json_fuel s) r end)
            else JNum (trim_space s))
  end.

(** ** Number literals *)

Section numbers.
Open Scope Z_scope.

(** The digits of a literal up to an exponent: mantissa and the number of
    fractional digits. *)
Fixpoint mantissa (s : string) (frac : bool) (m k : Z) : Z * Z * string :=
  match s with
  | String c r =>
      if is_digit c then mantissa r frac (10 * m + (byte_of c - 48)) (if frac then k + 1 else k)
      else if Ascii.eqb c "." then mantissa r true m k
      else (m, k, s)
  | "" => (m, k, s)
  end.

Fixpoint digits_value (s : string) (acc : Z) : Z :=
  match s with
  | String c r => if is_digit c then digits_value r (10 * acc + (byte_of c - 48)) else acc
  | "" => acc
  end.

(** The exponent behind [e]. *)
Definition exponent (s : string) : Z :=
  match s with
  | String _ (String c r) =>
      if Ascii.eqb c "-" then - digits_value r 0
      else if Ascii.eqb c "+" then digits_value r 0
      else digits_value (String c r) 0
  | _ => 0
  end.

(** A literal as an integer and a power of ten. *)
Definition number_parts (raw : string) : Z * Z :=
  let negative := has_prefix raw "-" in
  let '(m, k, rest) := mantissa (if negative then str_drop 1 raw else raw) false 0 0 in
  (if negative then - m else m, exponent rest - k).
(** A [float64] holds it: it does not round to an infinity. *)
Definition float_bound : Z := 2 ^ 1024 - 2 ^ 970.
Definition float_fits (raw : string) : bool :=
  let '(m, e) := number_parts raw in
  if 0 <=? e then Z.abs m * 10 ^ e <? float_bound else Z.abs m <? float_bound * 10 ^ (- e).
End numbers.

(** [json.Unmarshal] into an interface value: any JSON whose numbers a
    [float64] holds; [fuel] bounds the nesting. *)
Fixpoint any_fits (fuel : nat) (raw : string) : bool :=
  match fuel with
  | O => true
  | S f =>
      match json_decode raw with
      | Some (JNum n) => float_fits n
      | Some (JArr l) => forallb (any_fits f) l
      | Some (JObj l) => forallb (fun kv => any_fits f (snd kv)) l
      | Some _ => true
      | None => false
      end
  end.
Definition any_decodes (raw : string) : bool := any_fits (S (String.length raw)) raw.

(** Members decoded into a map: the last of equal keys wins. *)
Definition obj_get (k : string) (l : list (string * string)) : option string :=
  fold_left (fun acc kv => if String.eqb (fst kv) k then Some (snd kv) else acc) l None.

(** Case folding to lower-case ASCII letters, for the field names of a struct
    ([json] matches them case-insensitively): ſ (U+017F) folds to s, the kelvin
    sign to k. *)
Definition fold_char (c : ascii) : ascii :=
  let b := byte_of c in if ((65 <=? b) && (b <=? 90))%Z then ascii_of (b + 32) else c.
Fixpoint fold_ascii (s : string) : string :=
  match s with
  | EmptyString => ""
  | String c r =>
      match r with
      | String d r2 =>
          if Ascii.eqb c "197" && Ascii.eqb d "191" then String "s" (fold_ascii r2)
          else match r2 with
          | String e r3 =>
              if Ascii.eqb c "226" && Ascii.eqb d "132" && Ascii.eqb e "170" then String "k" (fold_ascii r3)
              else String (fold_char c) (fold_ascii r)
          | EmptyString => String (fold_char c) (fold_ascii r)
          end
      | EmptyString => String (fold_char c) (fold_ascii r)
      end
  end.

(** A string field of a struct: [None] when a member of that name holds
    something else than a string or null, [default] when there is none.  Every
    member of the name is decoded in turn. *)
Definition string_field (name dflt : string) (l : list (string * string)) : option string :=
  fold_left (fun acc kv =>
    match acc with
    | None => None
    | Some old =>
        if String.eqb (fold_ascii (fst kv)) (fold_ascii name) then
          match json_decode (snd kv) with
          | Some (JStr s) => Some s
          | Some JNull => Some old
          | _ => None
          end
        else acc
    end) l (Some dflt).

(** [json.Unmarshal] into a struct with the one string field [name]. *)
Definition unmarshal_string_field (name s : string) : option string :=
  match json_decode s with
  | Some (JObj l) => string_field name "" l
  | Some JNull => Some ""
  | _ => None
  end.

(** [json.Compact]: the whitespace outside string literals removed. *)
Fixpoint strip_ws (in_str esc : bool) (s : string) : string :=
  match s with
  | EmptyString => EmptyString
  | String c r =>
      if in_str then
        String c (if esc then strip_ws true false r
                  else if Ascii.eqb c "\" then strip_ws true true r
                  else strip_ws (negb (Ascii.eqb c "034")) false r)
      else if is_ws c then strip_ws false false r
      else String c (strip_ws (Ascii.eqb c "034") false r)
  end.

Definition json_compact (s : string) : option string :=
  if json_valid s then Some (strip_ws false false s) else None.

Definition q (s : string) : string := dq +s+ s +s+ dq.

Example json_decode_object :
  json_decode (" { " +s+ q "a" +s+ " : [1, 2] , " +s+ q "b" +s+ ":" +s+ q "x\n" +s+ "}") =
  Some (JObj [("a", "[1, 2]"); ("b", q "x\n")]).
Proof. vm_compute. reflexivity. Qed.
Example json_compact_object :
  json_compact (" { " +s+ q "a b" +s+ " : [1, 2] } ") = Some ("{" +s+ q "a b" +s+ ":[1,2]}").
Proof. vm_compute. reflexivity. Qed.
Example json_invalid : json_valid "{1}" = false /\ json_valid "01" = false /\ json_valid "-1.5e+3" = true.
Proof. vm_compute. repeat split; reflexivity. Qed.
