(* ===== verification/JsonFacts.v ===== *)
(** * Lengths of JSON texts

    The scanner of [Json] never returns more than it was given, so a value
    inside an array or object is shorter than its container: recursion over
    nested values ends. *)

From Stdlib Require Import ZArith Lia Ascii.
From stdpp Require Import base gmap strings list.
From S2P Require Import Prelude GoStr Json.
Open Scope sp4rk_scope.
Local Notation len := String.length.

(** A character, bit by bit: decides a match on literal characters. *)
Ltac each_char c := destruct c as [[] [] [] [] [] [] [] []].

Lemma skip_ws_len s : (len (skip_ws s) <= len s)%nat.
Proof. induction s as [|c s IH]; [done|]. simpl. destruct (is_ws c); simpl; lia. Qed.
Lemma skip_digits_len s : (len (skip_digits s) <= len s)%nat.
Proof. induction s as [|c s IH]; [done|]. simpl. destruct (is_digit c); simpl; lia. Qed.
Lemma digits1_len s r : digits1 s = Some r -> (len r <= len s)%nat.
Proof. destruct s as [|c s]; [done|]. simpl. destruct (is_digit c); [|done]. intros [= <-]. pose proof (skip_digits_len s). lia. Qed.
Lemma skip_frac_len s r : skip_frac s = Some r -> (len r <= len s)%nat.
Proof.
  destruct s as [|c s]; [by intros [= <-]|].
  each_char c; try (by intros [= <-]). cbn [skip_frac]. intros H%digits1_len. simpl. lia.
Qed.
Lemma skip_exp_len s r : skip_exp s = Some r -> (len r <= len s)%nat.
Proof.
  destruct s as [|c s]; [by intros [= <-]|]. cbn [skip_exp]. destruct (_ || _); [|by intros [= <-]].
  destruct s as [|d s]; [done|]. destruct (_ || _); intros H%digits1_len; simpl in *; lia.
Qed.
Lemma frac_exp_len s r : skip_frac s ≫= skip_exp = Some r -> (len r <= len s)%nat.
Proof. intros (x & H1%skip_frac_len & H2%skip_exp_len)%bind_Some. lia. Qed.
Definition unsigned (s : string) : option string :=
  match s with
  | String "0" r => skip_frac r ≫= skip_exp
  | String c r => if is_digit c then skip_frac (skip_digits r) ≫= skip_exp else None
  | EmptyString => None
  end.
Lemma unsigned_cons c r :
  unsigned (String c r) =
  if Ascii.eqb c "0" then skip_frac r ≫= skip_exp
  else if is_digit c then skip_frac (skip_digits r) ≫= skip_exp else None.
Proof. each_char c; reflexivity. Qed.
Lemma skip_number_cons c r : skip_number (String c r) = if Ascii.eqb c "-" then unsigned r else unsigned (String c r).
Proof. each_char c; reflexivity. Qed.
Lemma unsigned_len s r : unsigned s = Some r -> (len r <= len s)%nat.
Proof.
  destruct s as [|c s]; [done|]. rewrite unsigned_cons. pose proof (skip_digits_len s). simpl.
  destruct (Ascii.eqb c "0"); [intros H'%frac_exp_len; lia|]. destruct (is_digit c); [|done].
  intros H'%frac_exp_len. lia.
Qed.
Lemma skip_number_len s r : skip_number s = Some r -> (len r <= len s)%nat.
Proof.
  destruct s as [|c s]; [done|]. rewrite skip_number_cons. destruct (Ascii.eqb c "-"); intros H%unsigned_len; simpl in *; lia.
Qed.
Lemma skip_string_cons c s :
  skip_string (String c s) =
  if Ascii.eqb c "034" then Some s
  else if Ascii.eqb c "\" then
    match s with
    | String d r =>
        if Ascii.eqb d "u" then
          match r with
          | String a (String b (String e (String f r))) => match hex4 a b e f with Some _ => skip_string r | None => None end
          | _ => None
          end
        else match escape_char d with Some _ => skip_string r | None => None end
    | "" => None
    end
  else if (byte_of c <? 32)%Z then None else skip_string s.
Proof.
  each_char c; try reflexivity. destruct s as [|d s]; [reflexivity|].
  each_char d; reflexivity.
Qed.
Lemma skip_string_len n s r : (len s <= n)%nat -> skip_string s = Some r -> (len r < len s)%nat.
Proof.
  revert s r. induction n as [|n IH]; intros s r Hn; (destruct s as [|c s]; [done|]); simpl in Hn; [lia|].
  rewrite skip_string_cons. simpl. destruct (Ascii.eqb c "034"); [intros [= <-]; lia|].
  destruct (Ascii.eqb c "\").
  - destruct s as [|d s]; [done|]. simpl in *. destruct (Ascii.eqb d "u").
    + destruct s as [|a [|b [|e [|f s]]]]; try done. destruct (hex4 a b e f); [|done]. simpl in *. intros H%IH; lia.
    + destruct (escape_char d); [|done]. intros H%IH; lia.
  - destruct (_ <? _)%Z; [done|]. intros H%IH; lia.
Qed.
Lemma skip_lit_len l s r : skip_lit l s = Some r -> (len r <= len s)%nat.
Proof.
  unfold skip_lit. destruct (has_prefix s l) eqn:E; [|done]. intros [= <-].
  pose proof (f_equal len (take_drop_str (len l) s)) as H. rewrite length_sapp in H. lia.
Qed.

(** What follows an element or a member. *)
Definition tail_of {A} (close : ascii) (stop : string -> A) (more : string -> A) (other : A) (s : string) : A :=
  match s with
  | "" => other
  | String c r => if Ascii.eqb c close then stop r else if Ascii.eqb c "," then more r else other
  end.
Lemma skip_elements_S f s :
  skip_elements (S f) s =
  match skip_value f s with
  | None => None
  | Some r => tail_of "]" Some (skip_elements f) None (skip_ws r)
  end.
Proof.
  cbn [skip_elements]. destruct (skip_value f s) as [r|]; [|done]. destruct (skip_ws r) as [|c x]; [done|].
  each_char c; reflexivity.
Qed.
Lemma skip_members_S f s :
  skip_members (S f) s =
  match skip_ws s with
  | String c r =>
      if Ascii.eqb c "034" then
        match skip_string r with
        | None => None
        | Some r1 =>
            match skip_ws r1 with
            | String d r2 =>
                if Ascii.eqb d ":" then
                  match skip_value f r2 with
                  | None => None
                  | Some r3 => tail_of "}" Some (skip_members f) None (skip_ws r3)
                  end
                else None
            | "" => None
            end
        end
      else None
  | "" => None
  end.
Proof.
  cbn [skip_members]. destruct (skip_ws s) as [|c r]; [done|]. each_char c; try reflexivity. cbn [Ascii.eqb Bool.eqb].
  destruct (skip_string r) as [r1|]; [|done]. destruct (skip_ws r1) as [|d r2]; [done|].
  each_char d; try reflexivity. cbn [Ascii.eqb Bool.eqb]. destruct (skip_value f r2) as [r3|]; [|done].
  destruct (skip_ws r3) as [|e x]; [done|]. each_char e; reflexivity.
Qed.
Lemma skip_value_len f :
  (forall s r, skip_value f s = Some r -> (len r <= len s)%nat) /\
  (forall s r, skip_elements f s = Some r -> (len r <= len s)%nat) /\
  (forall s r, skip_members f s = Some r -> (len r <= len s)%nat).
Proof.
  induction f as [|f (IHv & IHe & IHm)]; [done|]. split; [|split].
  - intros s r. pose proof (skip_ws_len s) as Hw. cbn [skip_value].
    destruct (skip_ws s) as [|c x]; [done|]. simpl in Hw.
    destruct (Ascii.eqb c "034"); [intros H%(skip_string_len (len x)); lia|].
    destruct (Ascii.eqb c "t"); [intros H%skip_lit_len; simpl in *; lia|].
    destruct (Ascii.eqb c "f"); [intros H%skip_lit_len; simpl in *; lia|].
    destruct (Ascii.eqb c "n"); [intros H%skip_lit_len; simpl in *; lia|].
    pose proof (skip_ws_len x) as Hx.
    destruct (Ascii.eqb c "["); [|destruct (Ascii.eqb c "{"); [|intros H%skip_number_len; simpl in *; lia]].
    + intros H. assert (H' : skip_elements f x = Some r \/ exists c', skip_ws x = String c' r).
      { destruct (skip_ws x) as [|d y]; [by left|]. each_char d; try (by left). injection H as ->. right. eauto. }
      destruct H' as [H'%IHe|[c' H']]; [lia|]. rewrite H' in Hx. simpl in Hx. lia.
    + intros H. assert (H' : skip_members f x = Some r \/ exists c', skip_ws x = String c' r).
      { destruct (skip_ws x) as [|d y]; [by left|]. each_char d; try (by left). injection H as ->. right. eauto. }
      destruct H' as [H'%IHm|[c' H']]; [lia|]. rewrite H' in Hx. simpl in Hx. lia.
  - intros s r. rewrite skip_elements_S. destruct (skip_value f s) as [y|] eqn:E; [|done]. apply IHv in E.
    pose proof (skip_ws_len y) as Hy. unfold tail_of. destruct (skip_ws y) as [|d z]; [done|]. simpl in Hy.
    destruct (Ascii.eqb d "]"); [intros [= <-]; lia|]. destruct (Ascii.eqb d ","); [intros H%IHe; lia|done].
  - intros s r. rewrite skip_members_S. pose proof (skip_ws_len s) as Hs. destruct (skip_ws s) as [|c x]; [done|].
    simpl in Hs. destruct (Ascii.eqb c "034"); [|done].
    destruct (skip_string x) as [x1|] eqn:E1; [|done]. apply (skip_string_len (len x)) in E1; [|lia].
    pose proof (skip_ws_len x1). destruct (skip_ws x1) as [|d x2]; [done|]. simpl in *.
    destruct (Ascii.eqb d ":"); [|done]. destruct (skip_value f x2) as [x3|] eqn:E3; [|done]. apply IHv in E3.
    pose proof (skip_ws_len x3). unfold tail_of. destruct (skip_ws x3) as [|e z]; [done|]. simpl in *.
    destruct (Ascii.eqb e "}"); [intros [= <-]; lia|]. destruct (Ascii.eqb e ","); [intros H'%IHm; lia|done].
Qed.
Lemma before_len s r : (len (before s r) <= len s)%nat.
Proof. unfold before. rewrite length_take_str. lia. Qed.
Lemma elements_len f s x : x ∈ elements f s -> (len x <= len s)%nat.
Proof.
  revert s. induction f as [|f IH]; intros s; [by intros ?%not_elem_of_nil|]. cbn [elements].
  pose proof (skip_ws_len s) as Hs. destruct (skip_value f (skip_ws s)) as [r|] eqn:E; [|by intros ?%not_elem_of_nil].
  apply skip_value_len in E. rewrite elem_of_cons. intros [->|Hx]; [pose proof (before_len (skip_ws s) r); lia|].
  pose proof (skip_ws_len r) as Hr.
  assert (Hc : exists c r', skip_ws r = String c r' /\ x ∈ elements f r').
  { destruct (skip_ws r) as [|c r']; [by apply not_elem_of_nil in Hx|]. exists c, r'. split; [done|].
    each_char c; first [exact Hx|by apply not_elem_of_nil in Hx]. }
  destruct Hc as (c & r' & Hc & Hx'). rewrite Hc in Hr. apply IH in Hx'. simpl in Hr. lia.
Qed.
Lemma members_len f s k x : (k, x) ∈ members f s -> (len x <= len s)%nat.
Proof.
  revert s. induction f as [|f IH]; intros s; [by intros ?%not_elem_of_nil|]. cbn [members].
  pose proof (skip_ws_len s) as Hs. intros Hx.
  assert (Hc : exists c y, skip_ws s = String c y /\ exists r1, skip_string y = Some r1 /\
    let v := skip_ws (str_drop 1 (skip_ws r1)) in exists r, skip_value f v = Some r /\
    (x = before v r \/ (k, x) ∈ match skip_ws r with String "," r' => members f r' | _ => [] end)).
  { destruct (skip_ws s) as [|c y]; [by apply not_elem_of_nil in Hx|]. exists c, y. split; [done|].
    each_char c; try (by apply not_elem_of_nil in Hx).
    destruct (skip_string y) as [r1|]; [|by apply not_elem_of_nil in Hx]. exists r1. split; [done|]. cbv zeta in *.
    destruct (skip_value f _) as [r|]; [|by apply not_elem_of_nil in Hx]. exists r. split; [done|].
    apply elem_of_cons in Hx as [[= _ ->]|Hx]; [by left|by right]. }
  destruct Hc as (c & y & Hc & r1 & H1 & r & Hr & Hx'). rewrite Hc in Hs. simpl in Hs.
  apply (skip_string_len (len y)) in H1; [|lia]. set (v := skip_ws (str_drop 1 (skip_ws r1))) in *.
  assert (Hv : (len v <= len r1)%nat).
  { unfold v. pose proof (skip_ws_len (str_drop 1 (skip_ws r1))). pose proof (skip_ws_len r1).
    destruct (skip_ws r1); simpl in *; [lia|]. destruct s0; simpl in *; lia. }
  destruct Hx' as [->|Hx']; [pose proof (before_len v r); lia|]. apply skip_value_len in Hr.
  pose proof (skip_ws_len r) as Hr'.
  assert (Hd : exists d r', skip_ws r = String d r' /\ (k, x) ∈ members f r').
  { destruct (skip_ws r) as [|d r']; [by apply not_elem_of_nil in Hx'|]. exists d, r'. split; [done|].
    each_char d; first [exact Hx'|by apply not_elem_of_nil in Hx']. }
  destruct Hd as (d & r' & Hd & Hx''). rewrite Hd in Hr'. apply IH in Hx''. simpl in Hr'. lia.
Qed.

(** A value inside another is shorter. *)
Lemma decode_array_len raw l x : json_decode raw = Some (JArr l) -> x ∈ l -> (len x < len raw)%nat.
Proof.
  unfold json_decode. destruct (negb _); [done|]. pose proof (skip_ws_len raw) as Hw.
  destruct (skip_ws raw) as [|c r]; [done|]. simpl in Hw.
  repeat (destruct (Ascii.eqb c _); [first [discriminate|idtac]|]); try discriminate.
  generalize (json_fuel raw). intros fuel [= <-] Hx. assert (Hx' : exists y, x ∈ elements fuel y /\ (len y <= len r)%nat).
  { destruct (skip_ws r) as [|d y]; [by exists r|].
    exists r. each_char d; first [split; [exact Hx|lia]|by apply not_elem_of_nil in Hx]. }
  destruct Hx' as (y & Hy & Hyr). apply elements_len in Hy. lia.
Qed.
Lemma decode_object_len raw l k x : json_decode raw = Some (JObj l) -> (k, x) ∈ l -> (len x < len raw)%nat.
Proof.
  unfold json_decode. destruct (negb _); [done|]. pose proof (skip_ws_len raw) as Hw.
  destruct (skip_ws raw) as [|c r]; [done|]. simpl in Hw.
  repeat (destruct (Ascii.eqb c _); [first [discriminate|idtac]|]); try discriminate.
  generalize (json_fuel raw). intros fuel [= <-] Hx. assert (Hx' : exists y, (k, x) ∈ members fuel y /\ (len y <= len r)%nat).
  { destruct (skip_ws r) as [|d y]; [by exists r|].
    exists r. each_char d; first [split; [exact Hx|lia]|by apply not_elem_of_nil in Hx]. }
  destruct Hx' as (y & Hy & Hyr). apply members_len in Hy. lia.
Qed.

Lemma obj_get_elem k l x : obj_get k l = Some x -> (k, x) ∈ l.
Proof.
  unfold obj_get.
  assert (H : forall acc, fold_left (fun acc kv => if String.eqb (fst kv) k then Some (snd kv) else acc) l acc = Some x ->
    acc = Some x \/ (k, x) ∈ l).
  { induction l as [|[k' y] l IH]; intros acc; simpl; [by left|]. intros [H|H]%IH; [|right; by right].
    destruct (String.eqb_spec k' k) as [->|]; [|by left]. injection H as ->. right. by left. }
  intros [?|?]%H; [done|done].
Qed.
