(* ===== verification/JsonEncode.v ===== *)
(** * Encoding to JSON

    [json.Encoder] with HTML escaping off, for strings and for objects of
    strings, and the round trips: what is encoded decodes to the text with its
    invalid UTF-8 replaced, whatever the text holds, and an object to its
    fields. *)

From Stdlib Require Import ZArith Lia Ascii.
From stdpp Require Import base gmap strings list.
From S2P Require Import Prelude GoStr Json JsonFacts.
Open Scope sp4rk_scope.
Open Scope Z_scope.

(** ** Strings *)

Definition hex_digit (z : Z) : ascii := if z <? 10 then ascii_of (48 + z) else ascii_of (87 + z).
Definition backslash (c : ascii) : string := String "\" (String c "").
Definition esc_ascii (c : ascii) : string :=
  let b := byte_of c in
  if Ascii.eqb c "034" || Ascii.eqb c "\" then backslash c
  else if b =? 8 then backslash "b"
  else if b =? 12 then backslash "f"
  else if b =? 10 then backslash "n"
  else if b =? 13 then backslash "r"
  else if b =? 9 then backslash "t"
  else if b <? 32 then "\u00" +s+ String (hex_digit (b / 16)) (String (hex_digit (b mod 16)) "")
  else String c "".
Definition replacement : string := "\ufffd".

Fixpoint enc_body (s : string) : string :=
  match s with
  | "" => ""
  | String c0 s1 =>
      let b0 := byte_of c0 in
      if b0 <? 128 then esc_ascii c0 +s+ enc_body s1
      else match s1 with
      | "" => replacement
      | String c1 s2 =>
          let b1 := byte_of c1 in
          if utf8_2 b0 b1 then String c0 (String c1 (enc_body s2))
          else match s2 with
          | "" => replacement +s+ enc_body s1
          | String c2 s3 =>
              let b2 := byte_of c2 in
              if utf8_3 b0 b1 b2 then
                (if rune3 b0 b1 b2 =? 8232 then "\u2028" +s+ enc_body s3
                 else if rune3 b0 b1 b2 =? 8233 then "\u2029" +s+ enc_body s3
                 else String c0 (String c1 (String c2 (enc_body s3))))
              else match s3 with
              | "" => replacement +s+ enc_body s1
              | String c3 s4 =>
                  if utf8_4 b0 b1 b2 (byte_of c3) then String c0 (String c1 (String c2 (String c3 (enc_body s4))))
                  else replacement +s+ enc_body s1
              end
          end
      end
  end.
Definition dquote : string := String "034" "".
Definition json_string (s : string) : string := dquote +s+ enc_body s +s+ dquote.

(** ** Scanning and decoding a string *)

Lemma skip_esc c t : skip_string (esc_ascii c +s+ t) = skip_string t.
Proof. each_char c; reflexivity. Qed.
Lemma skip_high c t : 128 <= byte_of c -> skip_string (String c t) = skip_string t.
Proof.
  intros H. rewrite skip_string_cons. destruct (Ascii.eqb_spec c "034") as [->|_]; [by vm_compute in H|].
  destruct (Ascii.eqb_spec c "\") as [->|_]; [by vm_compute in H|]. destruct (Z.ltb_spec (byte_of c) 32); [lia|done].
Qed.
Lemma utf8_2_high b0 b1 : utf8_2 b0 b1 = true -> 128 <= b0 /\ 128 <= b1.
Proof. unfold utf8_2, is_cont. intros H. boolean. lia. Qed.
Lemma utf8_3_high b0 b1 b2 : utf8_3 b0 b1 b2 = true -> 128 <= b0 /\ 128 <= b1 /\ 128 <= b2.
Proof. unfold utf8_3, is_cont. rewrite !andb_true_iff, !orb_true_iff, !andb_true_iff, !Z.leb_le, !Z.eqb_eq. lia. Qed.
Lemma utf8_4_high b0 b1 b2 b3 : utf8_4 b0 b1 b2 b3 = true -> 128 <= b0 /\ 128 <= b1 /\ 128 <= b2 /\ 128 <= b3.
Proof. unfold utf8_4, is_cont. rewrite !andb_true_iff, !orb_true_iff, !andb_true_iff, !Z.leb_le, !Z.eqb_eq. lia. Qed.

Lemma unescape_high c t : 128 <= byte_of c -> unescape (String c t) = String c (unescape t).
Proof. intros H. each_char c; first [reflexivity|by vm_compute in H]. Qed.
(** An escape of four hex digits that is no surrogate. *)
Lemma unescape_u a b c d t z :
  hex4 a b c d = Some z -> (55296 <=? z) && (z <? 56320) = false ->
  unescape (String "\" (String "u" (String a (String b (String c (String d t)))))) = string_of_runes [z] +s+ unescape t.
Proof.
  intros Hz Hs. assert (Hd : forall lo, decode_surrogates z lo = None).
  { intros lo. unfold decode_surrogates. by rewrite Hs. }
  cbn [unescape]. rewrite Hz. cbn [default from_option id].
  destruct t as [|x t]; [done|]. each_char x; try reflexivity.
  destruct t as [|y t]; [done|]. each_char y; try reflexivity.
  destruct t as [|a' [|b' [|c' [|d' t]]]]; try reflexivity. by rewrite Hd.
Qed.
Lemma unescape_esc c t :
  byte_of c < 128 -> exists z, unescape (esc_ascii c +s+ t) = string_of_runes [z] +s+ unescape t /\ z = byte_of c.
Proof.
  intros H. exists (byte_of c). split; [|done].
  apply Z.ltb_lt in H. each_char c; first [discriminate H|reflexivity|idtac];
    (etransitivity; [apply unescape_u; vm_compute; reflexivity|reflexivity]).
Qed.

Lemma separator mark r t s rest :
  (mark = "\u2028" /\ r = 8232) \/ (mark = "\u2029" /\ r = 8233) ->
  skip_string (t +s+ dquote +s+ rest) = Some rest /\ runes (unescape (t +s+ dquote +s+ rest)) = runes s ->
  skip_string ((mark +s+ t) +s+ dquote +s+ rest) = Some rest /\
  runes (unescape ((mark +s+ t) +s+ dquote +s+ rest)) = r :: runes s.
Proof.
  intros Hl [H1 H2]. rewrite sapp_assoc. set (u := t +s+ dquote +s+ rest) in *.
  destruct Hl as [[-> ->]|[-> ->]]; (split; [exact H1|]);
    (etransitivity; [apply (f_equal runes); eapply unescape_u; [vm_compute; reflexivity|done]|]);
    cbn [string_of_runes]; rewrite sapp_nil_r, runes_encode by done; by f_equal.
Qed.
Lemma enc_body_spec n s rest :
  (String.length s <= n)%nat ->
  skip_string (enc_body s +s+ dquote +s+ rest) = Some rest /\
  runes (unescape (enc_body s +s+ dquote +s+ rest)) = runes s.
Proof.
  revert s. induction n as [|n IH]; intros s Hn; (destruct s as [|c0 s1]; [done|]); simpl in Hn; [lia|].
  assert (Hrep : forall t, skip_string (replacement +s+ t) = skip_string t) by done.
  assert (Hrepu : forall t, runes (unescape (replacement +s+ t)) = rune_error :: runes (unescape t)).
  { intros t. change (replacement +s+ t) with (String "\" (String "u" (String "f" (String "f" (String "f" (String "d" t)))))).
    rewrite (unescape_u _ _ _ _ _ rune_error) by done.
    cbn [string_of_runes]. rewrite sapp_nil_r. by apply runes_encode. }
  destruct (IH s1 ltac:(lia)) as [IH1 IH1'].
  cbn [enc_body runes]. destruct (Z.ltb_spec (byte_of c0) 128) as [Hlt|Hge].
  { rewrite sapp_assoc, skip_esc. split; [done|].
    destruct (unescape_esc c0 (enc_body s1 +s+ dquote +s+ rest) Hlt) as (z & -> & ->).
    pose proof (byte_of_range c0). cbn [string_of_runes]. rewrite sapp_nil_r.
    rewrite (runes_encode (byte_of c0)); [by rewrite IH1'|]. unfold valid_rune. lia. }
  assert (Hbad : skip_string ((replacement +s+ enc_body s1) +s+ dquote +s+ rest) = Some rest /\
    runes (unescape ((replacement +s+ enc_body s1) +s+ dquote +s+ rest)) = rune_error :: runes s1).
  { rewrite sapp_assoc, Hrep, Hrepu, IH1'. done. }
  assert (Hh0 : (byte_of c0 <? 128) = false) by lia.
  destruct s1 as [|c1 s2]; [by rewrite Hrep, Hrepu|]. simpl in Hn.
  destruct (utf8_2 (byte_of c0) (byte_of c1)) eqn:E2.
  { destruct (IH s2 ltac:(lia)) as [IH2 IH2']. destruct (utf8_2_high _ _ E2) as [H0 H1].
    change (String c0 (String c1 (enc_body s2)) +s+ dquote +s+ rest) with (String c0 (String c1 (enc_body s2 +s+ dquote +s+ rest))).
    rewrite !skip_high, !unescape_high by done. split; [done|].
    cbn [runes]. by rewrite Hh0, E2, IH2'. }
  destruct s2 as [|c2 s3]; [exact Hbad|]. simpl in Hn.
  destruct (utf8_3 (byte_of c0) (byte_of c1) (byte_of c2)) eqn:E3.
  { destruct (IH s3 ltac:(lia)) as [IH3 IH3']. destruct (utf8_3_high _ _ _ E3) as (H0 & H1 & H2).
    destruct (Z.eqb_spec (rune3 (byte_of c0) (byte_of c1) (byte_of c2)) 8232) as [->|_]; [apply separator; auto|].
    destruct (Z.eqb_spec (rune3 (byte_of c0) (byte_of c1) (byte_of c2)) 8233) as [->|_]; [apply separator; auto|].
    change (String c0 (String c1 (String c2 (enc_body s3))) +s+ dquote +s+ rest)
      with (String c0 (String c1 (String c2 (enc_body s3 +s+ dquote +s+ rest)))).
    rewrite !skip_high, !unescape_high by done. split; [done|].
    cbn [runes]. by rewrite Hh0, E2, E3, IH3'. }
  destruct s3 as [|c3 s4]; [exact Hbad|]. simpl in Hn.
  destruct (utf8_4 (byte_of c0) (byte_of c1) (byte_of c2) (byte_of c3)) eqn:E4; [|exact Hbad].
  destruct (IH s4 ltac:(lia)) as [IH4 IH4']. destruct (utf8_4_high _ _ _ _ E4) as (H0 & H1 & H2 & H3).
  change (String c0 (String c1 (String c2 (String c3 (enc_body s4)))) +s+ dquote +s+ rest)
    with (String c0 (String c1 (String c2 (String c3 (enc_body s4 +s+ dquote +s+ rest))))).
  rewrite !skip_high, !unescape_high by done. split; [done|].
  cbn [runes]. by rewrite Hh0, E2, E3, E4, IH4'.
Qed.
Close Scope Z_scope.

(** A text with its invalid UTF-8 replaced. *)
Definition to_valid (s : string) : string := string_of_runes (runes s).
Lemma unquote_enc s rest : unquote (enc_body s +s+ dquote +s+ rest) = to_valid s.
Proof. unfold unquote, to_valid. by rewrite (proj2 (enc_body_spec _ s rest (le_n _))). Qed.
Lemma skip_value_string f s rest : skip_value (S f) (json_string s +s+ rest) = Some rest.
Proof.
  unfold json_string. rewrite !sapp_assoc. change (dquote +s+ ?x) with (String "034" x).
  exact (proj1 (enc_body_spec _ s rest (le_n _))).
Qed.
Lemma json_string_decode s : json_decode (json_string s) = Some (JStr (to_valid s)).
Proof.
  unfold json_decode, json_valid. pose proof (skip_value_string (2 * String.length (json_string s)) s "") as H.
  rewrite sapp_nil_r in H. unfold json_fuel. rewrite H. cbn [negb skip_ws String.eqb].
  change (json_string s) with (String "034" (enc_body s +s+ dquote)).
  change (Some (JStr (unquote (enc_body s +s+ dquote))) = Some (JStr (to_valid s))).
  rewrite <- (sapp_nil_r dquote). by rewrite unquote_enc.
Qed.

(** ** Objects of strings *)

Definition member_text (kv : string * string) : string := json_string (fst kv) +s+ ":" +s+ json_string (snd kv).
Definition json_object (fields : list (string * string)) : string := "{" +s+ join "," (map member_text fields) +s+ "}".

Lemma skip_member k v f t :
  skip_members (S (S f)) (member_text (k, v) +s+ t) = tail_of "}" Some (skip_members (S f)) None (skip_ws t).
Proof.
  rewrite skip_members_S. unfold member_text. cbn [fst snd]. unfold json_string at 1. rewrite !sapp_assoc.
  change (skip_ws (dquote +s+ enc_body k +s+ dquote +s+ ":" +s+ json_string v +s+ t))
    with (String "034" (enc_body k +s+ dquote +s+ ":" +s+ json_string v +s+ t)).
  cbv iota beta. change (Ascii.eqb "034" "034") with true. cbv iota.
  rewrite (proj1 (enc_body_spec _ k _ (le_n _))).
  change (skip_ws (":" +s+ json_string v +s+ t)) with (String ":" (json_string v +s+ t)). cbv iota beta.
  change (Ascii.eqb ":" ":") with true. cbv iota. by rewrite skip_value_string.
Qed.
Lemma before_app a b : before (a +s+ b) b = a.
Proof.
  unfold before. rewrite length_sapp, Nat.add_sub. induction a as [|c a IH]; [by destruct b|].
  simpl. f_equal. exact IH.
Qed.
Definition more_members (f : nat) (s : string) : list (string * string) :=
  match s with String c r => if Ascii.eqb c "," then members f r else [] | "" => [] end.
Lemma members_S f s :
  members (S f) s =
  match skip_ws s with
  | String c k =>
      if Ascii.eqb c "034" then
        match skip_string k with
        | None => []
        | Some r1 =>
            match skip_value f (skip_ws (str_drop 1 (skip_ws r1))) with
            | None => []
            | Some r => (unquote k, before (skip_ws (str_drop 1 (skip_ws r1))) r) :: more_members f (skip_ws r)
            end
        end
      else []
  | "" => []
  end.
Proof.
  cbn [members]. destruct (skip_ws s) as [|c k]; [done|]. each_char c; try reflexivity. cbn [Ascii.eqb Bool.eqb].
  destruct (skip_string k) as [r1|]; [|done]. cbv zeta. destruct (skip_value f _) as [r|]; [|done].
  f_equal. unfold more_members. destruct (skip_ws r) as [|d y]; [done|]. each_char d; reflexivity.
Qed.
Lemma members_member k v f t :
  members (S (S f)) (member_text (k, v) +s+ t) = (to_valid k, json_string v) :: more_members (S f) (skip_ws t).
Proof.
  rewrite members_S. unfold member_text. cbn [fst snd]. unfold json_string at 1. rewrite !sapp_assoc.
  change (skip_ws (dquote +s+ enc_body k +s+ dquote +s+ ":" +s+ json_string v +s+ t))
    with (String "034" (enc_body k +s+ dquote +s+ ":" +s+ json_string v +s+ t)).
  cbv iota beta. change (Ascii.eqb "034" "034") with true. cbv iota.
  rewrite (proj1 (enc_body_spec _ k _ (le_n _))).
  change (skip_ws (str_drop 1 (skip_ws (":" +s+ json_string v +s+ t)))) with (json_string v +s+ t).
  rewrite skip_value_string. by rewrite unquote_enc, before_app.
Qed.

Lemma members_text fields f :
  fields <> [] -> (length fields < f)%nat ->
  skip_members f (join "," (map member_text fields) +s+ "}") = Some "" /\
  members f (join "," (map member_text fields) +s+ "}") = map (fun kv => (to_valid (fst kv), json_string (snd kv))) fields.
Proof.
  revert f. induction fields as [|[k v] fields IH]; intros f Hne Hf; [done|]. simpl in Hf.
  destruct f as [|[|f]]; [lia|lia|]. destruct fields as [|kv fields].
  - cbn [map join]. rewrite skip_member, members_member. done.
  - destruct (IH (S f) ltac:(done) ltac:(simpl in *; lia)) as [H1 H2].
    change (join "," (map member_text ((k, v) :: kv :: fields)))
      with (member_text (k, v) +s+ "," +s+ join "," (map member_text (kv :: fields))).
    rewrite !sapp_assoc, skip_member, members_member.
    change (skip_ws ("," +s+ join "," (map member_text (kv :: fields)) +s+ "}"))
      with (String "," (join "," (map member_text (kv :: fields)) +s+ "}")). cbn [tail_of].
    split; [exact H1|exact (f_equal (cons (to_valid k, json_string v)) H2)].
Qed.
Lemma length_member kv : (5 <= String.length (member_text kv))%nat.
Proof. unfold member_text, json_string. rewrite !length_sapp. simpl. lia. Qed.
Lemma length_members fields : (length fields <= String.length (join "," (map member_text fields)))%nat.
Proof.
  induction fields as [|kv fields IH]; [done|]. pose proof (length_member kv). destruct fields as [|kv' fields]; [simpl in *; lia|].
  change (join "," (map member_text (kv :: kv' :: fields)))
    with (member_text kv +s+ "," +s+ join "," (map member_text (kv' :: fields))).
  rewrite !length_sapp. simpl in *. lia.
Qed.

Lemma skip_value_object f r : skip_value (S f) (String "{" (String "034" r)) = skip_members f (String "034" r).
Proof. reflexivity. Qed.

(** An object decodes to its fields, in order, whatever their values hold. *)
Lemma json_object_decode fields :
  fields <> [] ->
  json_decode (json_object fields) = Some (JObj (map (fun kv => (to_valid (fst kv), json_string (snd kv))) fields)).
Proof.
  intros Hne.
  assert (Hq : exists r, join "," (map member_text fields) +s+ "}" = String "034" r).
  { destruct fields as [|[k v] [|? ?]]; [done| |]; eexists; reflexivity. }
  destruct Hq as [r Hr].
  assert (Hlen : (length fields < String.length (String "034" r))%nat).
  { rewrite <- Hr, length_sapp. pose proof (length_members fields). simpl. lia. }
  destruct (members_text fields (json_fuel (String "{" (String "034" r))) Hne) as [_ Hm]; [unfold json_fuel; simpl in *; lia|].
  destruct (members_text fields (2 * String.length (String "{" (String "034" r))) Hne) as [Hs _]; [simpl in *; lia|].
  rewrite Hr in Hm, Hs. unfold json_object. change ("{" +s+ ?x) with (String "{" x). rewrite Hr.
  unfold json_decode, json_valid. unfold json_fuel at 1. rewrite skip_value_object, Hs. cbn [negb String.eqb skip_ws].
  change (match String "{" (String "034" r) with "" => None | String c r0 => Some (JObj (members (json_fuel (String "{" (String "034" r))) (String "034" r))) end
    = Some (JObj (map (fun kv => (to_valid (fst kv), json_string (snd kv))) fields))).
  cbv iota. by rewrite Hm.
Qed.
