(* ===== verification/Window.v ===== *)
(** * The context window: [src/memory/context.go], [src/memory/steps.go] and
      the compaction strategies

    [ContextWindow] holds the steps of a run and renders them as the messages
    of the next prompt: task, plan, the steps - one assistant message per
    response, its tool results, its nudge - with old tool outputs pruned or
    replaced by cache references, and untrusted ones fenced.  [Compact] freezes
    a shorter rendering of the steps so far.

    Parameters: the token counter ([TokenCounter]), floating point, the [%q]
    verb, [fmt.Sprint] of a decoded JSON value, and the model that summarizes
    ([Summarize]: the texts it has already been given, then the new one). *)

From Stdlib Require Import ZArith Lia.
From stdpp Require Import base gmap strings list sorting.
From S2P Require Import Prelude GoStr GoFloat AgentTypes Tokens Nudges Json Fence Prompt.
Open Scope sp4rk_scope.
Open Scope Z_scope.

(** ** Rendering steps: [src/memory/steps.go] *)

Definition no_output : string := "(no output)".

(** [assistantMsgFromStep], and [buildAssistantMsg], the same function. *)
Definition assistantMsgFromStep (thought reasoning : string) (items : list ReasoningItem)
    (calls : list ToolCall) : Message :=
  let content := trim_invisible thought in
  let content := if String.eqb content "" && bool_decide (calls = []) then "(proceeding)" else content in
  mkMessage "assistant" content [] reasoning calls "" items.

Definition tool_msg (content id : string) : Message := mkMessage "tool" content [] "" [] id [].
Definition user_msg (content : string) : Message := mkMessage "user" content [] "" [] "" [].
Definition system_msg (content : string) : Message := mkMessage "system" content [] "" [] "" [].

Definition has_call (s : Step) : bool := negb (String.eqb (tc_id (s_action s)) "").

(** The calls of the steps of one response. *)
Definition calls_of_steps (l : list Step) : list ToolCall := map s_action (List.filter has_call l).

Definition isNudgeOnlyStep (thought reasoning : string) (items : list ReasoningItem)
    (calls : list ToolCall) (nudge : string) : bool :=
  String.eqb (trim_invisible thought) "" && String.eqb reasoning "" && bool_decide (items = []) &&
  bool_decide (calls = []) && negb (String.eqb nudge "").

(** The text of a tool result before anything replaces it. *)
Definition visible_output (s : Step) : string :=
  let o := trim_invisible (s_observation s) in if String.eqb o "" then no_output else o.

(** The elements of a list with their indices from [k] on. *)
Fixpoint number {A} (k : nat) (l : list A) : list (nat * A) :=
  match l with
  | [] => []
  | x :: r => (k, x) :: number (S k) r
  end.

(** The run of steps of group [g] at the head of [l]. *)
Fixpoint same_group (g : Z) (l : list Step) : nat :=
  match l with
  | s :: r => if s_group s =? g then S (same_group g r) else O
  | [] => O
  end.

(** The loop over the steps from index [i] on: a step of a group is rendered
    with all that follow it in the group, any other alone. *)
Fixpoint walk (grouped : nat -> list Step -> list Message) (single : nat -> Step -> list Message)
    (fuel i : nat) (l : list Step) : list Message :=
  match fuel, l with
  | S f, step :: rest =>
      if 0 <? s_group step then
        let n := S (same_group (s_group step) rest) in
        grouped i (take n l) ++ walk grouped single f (i + n)%nat (drop n l)
      else single i step ++ walk grouped single f (S i) rest
  | _, _ => []
  end.

(** A whole response: [stepsToMessages] on one group. *)
Definition plain_group (steps : list Step) : list Message :=
  match steps with
  | [] => []
  | first :: _ =>
      let calls := calls_of_steps steps in
      let nudge := trim_invisible (match last steps with Some s => s_nudge s | None => "" end) in
      (if isNudgeOnlyStep (s_thought first) (s_reasoning first) (s_reasoning_items first) calls nudge then []
       else [assistantMsgFromStep (s_thought first) (s_reasoning first) (s_reasoning_items first) calls]) ++
      map (fun s => tool_msg (visible_output s) (tc_id (s_action s))) (List.filter has_call steps) ++
      (if String.eqb nudge "" then [] else [user_msg nudge])
  end.

Definition plain_step (step : Step) : list Message := plain_group [step].

Definition stepsToMessages (steps : list Step) : list Message :=
  walk (fun _ => plain_group) (fun _ => plain_step) (length steps) 0 steps.

Definition default_placeholder : string :=
  "[Tool output pruned — not available in context. Use search_facts for stored findings, or re-read the file if needed. Do NOT fabricate content you cannot see.]".

(** ** Compaction strategies *)

Section strategies.
Context `{Float64} `{TokenCounter}.
(** [deps.Summarize]: the texts it was given before, the text. *)
Definition summarizer : Type := list string -> string -> res string.

Inductive CompactionStrategy :=
| SlidingWindow (keepFirst keepLast : Z)
| Summarization (blockSize keepLast observationTruncate : Z) (summarize : option summarizer)
    (counts : bool) (maxSummarizeTokens : Z)
| Hierarchical (distantRatio middleRatio recentRatio : F) (observationTruncate : Z)
    (summarize : option summarizer) (counts : bool) (maxSummarizeTokens : Z).

Definition NewSlidingWindowStrategy (keepFirst keepLast : Z) : CompactionStrategy :=
  SlidingWindow (if keepFirst <? 0 then 0 else keepFirst) (if keepLast <? 0 then 0 else keepLast).

Definition NewSummarizationStrategy (blockSize keepLast observationTruncate : Z)
    (summarize : option summarizer) (counts : bool) (maxSummarizeTokens : Z) : CompactionStrategy :=
  Summarization (if blockSize <=? 0 then 10 else blockSize) (if keepLast <=? 0 then 5 else keepLast)
    (if observationTruncate <=? 0 then 500 else observationTruncate) summarize counts
    (if maxSummarizeTokens <=? 0 then 16000 else maxSummarizeTokens).

(** A decimal constant: [a / b], correctly rounded. *)
Definition ratio (a b : Z) : F := f_div (f_of_int a) (f_of_int b).

Definition usableRatio (r : F) : bool := f_lt (f_of_int 0) r && f_finite r.

Definition NewHierarchicalStrategy (distant middle recent : F) (observationTruncate : Z)
    (summarize : option summarizer) (counts : bool) (maxSummarizeTokens : Z) : CompactionStrategy :=
  let total := f_add (f_add distant middle) recent in
  let '(d, m, r) :=
    if negb (usableRatio distant) || negb (usableRatio middle) || negb (usableRatio recent)
    then (ratio 4 10, ratio 3 10, ratio 3 10)
    else if negb (f_eq total (f_of_int 1)) then (f_div distant total, f_div middle total, f_div recent total)
    else (distant, middle, recent) in
  Hierarchical d m r (if observationTruncate <=? 0 then 500 else observationTruncate) summarize counts
    (if maxSummarizeTokens <=? 0 then 16000 else maxSummarizeTokens).

(** [CompactionConfig] and the parts of [CompactionDeps] a strategy uses. *)
Record CompactionConfig := mkCompaction {
  cc_keepFirst : Z; cc_keepLast : Z;
  cc_blockSize : Z; cc_sumKeepLast : Z; cc_observationTruncate : Z;
  cc_distant : F; cc_middle : F; cc_recent : F;
}.

Definition NewCompactionStrategy (name : string) (cfg : CompactionConfig) (summarize : option summarizer)
    (counts : bool) (maxSummarizeTokens : Z) : CompactionStrategy :=
  let maxTokens := if maxSummarizeTokens <=? 0 then 16000 else maxSummarizeTokens in
  let keepFirst := if cc_keepFirst cfg <=? 0 then 3 else cc_keepFirst cfg in
  let keepLast := if cc_keepLast cfg <=? 0 then 10 else cc_keepLast cfg in
  let obsTruncate := if cc_observationTruncate cfg <=? 0 then 500 else cc_observationTruncate cfg in
  if String.eqb name "summarization" then
    match summarize with
    | None => NewSlidingWindowStrategy keepFirst keepLast
    | Some _ =>
        NewSummarizationStrategy (if cc_blockSize cfg <=? 0 then 10 else cc_blockSize cfg)
          (if cc_sumKeepLast cfg <=? 0 then 5 else cc_sumKeepLast cfg) obsTruncate summarize counts maxTokens
    end
  else if String.eqb name "hierarchical" then
    match summarize with
    | None => NewSlidingWindowStrategy keepFirst keepLast
    | Some _ =>
        let pos r d := if f_le r (f_of_int 0) then d else r in
        NewHierarchicalStrategy (pos (cc_distant cfg) (ratio 4 10)) (pos (cc_middle cfg) (ratio 3 10))
          (pos (cc_recent cfg) (ratio 3 10)) obsTruncate summarize counts maxTokens
    end
  else NewSlidingWindowStrategy keepFirst keepLast.

(** The slices of a loop by blocks. *)
Fixpoint blocks {A} (fuel : nat) (size : nat) (l : list A) : list (list A) :=
  match fuel, l with
  | S f, _ :: _ => take size l :: blocks f size (drop size l)
  | _, _ => []
  end.

Definition truncateToTokenBudget (text : string) (maxTokens : Z) : string :=
  let maxChars := maxTokens * 3 in
  if slen text <=? maxChars then text
  else TruncateUTF8 text maxChars +s+ nl +s+ "[... truncated for summarization ...]".

Definition fit_budget (counts : bool) (maxSummarizeTokens : Z) (text : string) : string :=
  if counts && (0 <? maxSummarizeTokens) && (maxSummarizeTokens <? Count text)
  then truncateToTokenBudget text maxSummarizeTokens else text.

(** An observation as a summarizer sees it. *)
Definition block_observation (maxLen : Z) (s : Step) : string :=
  let obs := if maxLen <? slen (s_observation s) then TruncateUTF8 (s_observation s) maxLen else s_observation s in
  if s_untrusted s then WrapUntrustedContent obs (tc_name (s_action s)) ∅ else obs.

(** [SummarizationStrategy.buildBlockText] *)
Definition summary_step (observationTruncate : Z) (i : nat) (s : Step) : string :=
  "Step " +s+ itoa (Z.of_nat i + 1) +s+ ":" +s+ nl +s+
  (if String.eqb (s_thought s) "" then "" else "  Thought: " +s+ s_thought s +s+ nl) +s+
  (if String.eqb (tc_name (s_action s)) "" then "" else "  Action: " +s+ tc_name (s_action s) +s+ nl) +s+
  (if String.eqb (s_observation s) "" then ""
   else "  Observation: " +s+ block_observation observationTruncate s +s+ nl).
Definition summary_block_text (observationTruncate : Z) (block : list Step) : string :=
  join nl (imap (summary_step observationTruncate) block).

(** [HierarchicalStrategy.buildBlockText] *)
Definition zone_step (observationTruncate : Z) (zone : string) (i : nat) (s : Step) : string :=
  nl +s+ "Step " +s+ itoa (Z.of_nat i + 1) +s+ ":" +s+
  (if String.eqb (s_thought s) "" then "" else nl +s+ "  Thought: " +s+ s_thought s) +s+
  (if String.eqb (tc_name (s_action s)) "" then "" else nl +s+ "  Action: " +s+ tc_name (s_action s)) +s+
  (if String.eqb (s_observation s) "" then ""
   else nl +s+ "  Observation: " +s+
        block_observation (if String.eqb zone "middle" then observationTruncate
                           else Z.quot (observationTruncate * 6) 10) s).
Definition zone_block_text (observationTruncate : Z) (zone : string) (block : list Step) : string :=
  join "" (("Summarize the following " +s+ itoa (Z.of_nat (length block)) +s+ " steps from the " +s+ zone +s+
            " zone:") :: imap (zone_step observationTruncate zone) block).

(** The summaries of the blocks, the texts asked for so far in [asked]. *)
Fixpoint summarize_blocks (summarize : summarizer) (text : list Step -> string)
    (failed : nat -> list Step -> string -> string) (n : nat) (asked : list string)
    (bs : list (list Step)) : list Message * list string :=
  match bs with
  | [] => ([], asked)
  | block :: rest =>
      let t := text block in
      let summary := match summarize asked t with Ok a => a | Err e => failed n block e end in
      let '(ms, asked') := summarize_blocks summarize text failed (n + length block)%nat (asked ++ [t]) rest in
      (system_msg summary :: ms, asked')
  end.

Definition summary_failed (n : nat) (block : list Step) (err : string) : string :=
  "[Summary of steps " +s+ itoa (Z.of_nat n + 1) +s+ "-" +s+ itoa (Z.of_nat (n + length block)) +s+
  " failed: " +s+ err +s+ "]".
Definition zone_failed (zone : string) (_ : nat) (block : list Step) (err : string) : string :=
  "[" +s+ zone +s+ " zone: " +s+ itoa (Z.of_nat (length block)) +s+ " steps summarized (error: " +s+ err +s+ ")]".

Definition clampZ (x lo hi : Z) : Z := Z.min (Z.max x lo) hi.

(** The zone boundaries of [HierarchicalStrategy.Compact], [n > 5]. *)
Definition zone_bounds (distantRatio middleRatio : F) (n : Z) : Z * Z :=
  let distantEnd := clampZ (f_to_int (f_mul (f_of_int n) distantRatio)) 0 n in
  let middleEnd := clampZ (f_to_int (f_mul (f_of_int n) (f_add distantRatio middleRatio))) 0 n in
  let distantEnd := if (distantEnd <? 1) && (3 <? n) then 1 else distantEnd in
  let middleEnd := if (middleEnd <=? distantEnd) && (distantEnd + 1 <? n) then distantEnd + 1 else middleEnd in
  let middleEnd := if n <=? middleEnd then n - 1 else middleEnd in
  let distantEnd := if middleEnd <? distantEnd then middleEnd else distantEnd in
  (distantEnd, middleEnd).

(** [Compact] of the three strategies. *)
Definition strategy_Compact (s : CompactionStrategy) (steps : list Step) : list Message :=
  let n := Z.of_nat (length steps) in
  match s with
  | SlidingWindow keepFirst keepLast =>
      if n <=? keepFirst + keepLast then stepsToMessages steps
      else
        stepsToMessages (take (Z.to_nat keepFirst) steps) ++
        [system_msg ("[... " +s+ itoa (n - keepFirst - keepLast) +s+ " steps omitted ...]")] ++
        stepsToMessages (drop (Z.to_nat (n - keepLast)) steps)
  | Summarization blockSize keepLast observationTruncate summarize counts maxTokens =>
      if n <=? keepLast then stepsToMessages steps
      else match summarize with
      | None => stepsToMessages steps
      | Some summarize =>
          let old := take (Z.to_nat (n - keepLast)) steps in
          fst (summarize_blocks summarize
                 (fun b => fit_budget counts maxTokens (summary_block_text observationTruncate b))
                 summary_failed 0 [] (blocks (length old) (Z.to_nat blockSize) old)) ++
          stepsToMessages (drop (Z.to_nat (n - keepLast)) steps)
      end
  | Hierarchical distantRatio middleRatio _ observationTruncate summarize counts maxTokens =>
      if n <=? 5 then stepsToMessages steps
      else match summarize with
      | None => stepsToMessages steps
      | Some summarize =>
          let '(distantEnd, middleEnd) := zone_bounds distantRatio middleRatio n in
          let text zone b := fit_budget counts maxTokens (zone_block_text observationTruncate zone b) in
          let distant := take (Z.to_nat distantEnd) steps in
          let middle := take (Z.to_nat (middleEnd - distantEnd)) (drop (Z.to_nat distantEnd) steps) in
          let '(ms1, asked) := summarize_blocks summarize (text "distant") (zone_failed "distant") 0 []
                                 (blocks (length distant) 15 distant) in
          let '(ms2, _) := summarize_blocks summarize (text "middle") (zone_failed "middle") 0 asked
                             (blocks (length middle) 5 middle) in
          ms1 ++ ms2 ++ stepsToMessages (drop (Z.to_nat middleEnd) steps)
      end
  end.

(** ** The window *)

Record CompactionThresholds := mkThresholds {
  PredictivePercent : Z;
  WarningPercent : Z;
  EmergencyPercent : Z;
}.

Record ToolOutputPruning := mkPruning {
  KeepLastN : Z;
  ProtectedTools : list string;
  PlaceholderText : string;
  ThresholdPercent : F;
}.

Record HistoryMutation := mkMutation {
  ToolResultEvictionStep : Z;
  EvictStepStatus : bool;
  DedupRepeatedReads : bool;
}.

Record ContextWindow := mkWindow {
  systemPrompt : string;
  taskContent : string;
  taskContentBlocks : list ContentBlock;
  planContent : string;
  steps : list Step;
  strategy : option CompactionStrategy;
  tracker : ContextTokenTracker;
  modelWindow : Z;       (** [modelMeta.ContextWindow] *)
  modelOutputLimit : Z;  (** [modelMeta.OutputLimit] *)
  thresholds : CompactionThresholds;
  pruning : ToolOutputPruning;
  mutation : HistoryMutation;
  safetyMargin : Z;
  toolOverhead : Z;
  priorConversation : list Message;
  injectionDefenseEnabled : bool;
  compactedMessages : option (list Message); (** [None]: nil *)
  compactedThroughIndex : nat;
  pendingUserInterjection : string;
}.

(** Fields that are written together. *)
Definition set_task (task : string) (bs : list ContentBlock) (c : ContextWindow) : ContextWindow :=
  mkWindow (systemPrompt c) task bs (planContent c) (steps c) (strategy c) (tracker c) (modelWindow c)
    (modelOutputLimit c) (thresholds c) (pruning c) (mutation c) (safetyMargin c) (toolOverhead c)
    (priorConversation c) (injectionDefenseEnabled c) (compactedMessages c) (compactedThroughIndex c)
    (pendingUserInterjection c).
Definition set_history (st : list Step) (t : ContextTokenTracker) (frozen : option (list Message)) (k : nat)
    (c : ContextWindow) : ContextWindow :=
  mkWindow (systemPrompt c) (taskContent c) (taskContentBlocks c) (planContent c) st (strategy c) t (modelWindow c)
    (modelOutputLimit c) (thresholds c) (pruning c) (mutation c) (safetyMargin c) (toolOverhead c)
    (priorConversation c) (injectionDefenseEnabled c) frozen k (pendingUserInterjection c).
Definition set_config (plan : string) (s : option CompactionStrategy) (m : HistoryMutation) (overhead : Z)
    (prior : list Message) (pending : string) (c : ContextWindow) : ContextWindow :=
  mkWindow (systemPrompt c) (taskContent c) (taskContentBlocks c) plan (steps c) s (tracker c) (modelWindow c)
    (modelOutputLimit c) (thresholds c) (pruning c) m (safetyMargin c) overhead
    prior (injectionDefenseEnabled c) (compactedMessages c) (compactedThroughIndex c) pending.

Definition defaultSafetyMargin : Z := 5.
Definition DefaultCompactionThresholds : CompactionThresholds := mkThresholds 85 92 98.
Definition DefaultToolOutputPruning : ToolOutputPruning := mkPruning 3 [] "" (f_of_int 50).

Record ContextWindowConfig := mkWindowConfig {
  cfg_SystemPrompt : string;
  cfg_ContextWindow : Z;
  cfg_OutputLimit : Z;
  cfg_Tracker : ContextTokenTracker; (** nil: [NewContextTokenTracker], the window being over [noopCounter] *)
  cfg_Thresholds : CompactionThresholds;
  cfg_Strategy : option CompactionStrategy;
  cfg_SafetyMarginPercent : Z;
  cfg_InjectionDefenseEnabled : bool;
  cfg_Pruning : ToolOutputPruning;
}.

Definition or_default (x d : Z) : Z := if x =? 0 then d else x.

Definition NewContextWindow (cfg : ContextWindowConfig) : ContextWindow :=
  let def := DefaultCompactionThresholds in
  let t := cfg_Thresholds cfg in let p := cfg_Pruning cfg in
  mkWindow (cfg_SystemPrompt cfg) "" [] "" [] (cfg_Strategy cfg)
    (cfg_Tracker cfg)
    (or_default (cfg_ContextWindow cfg) 128000) (or_default (cfg_OutputLimit cfg) 4096)
    (mkThresholds (or_default (PredictivePercent t) (PredictivePercent def))
       (or_default (WarningPercent t) (WarningPercent def))
       (or_default (EmergencyPercent t) (EmergencyPercent def)))
    (mkPruning (KeepLastN p) (ProtectedTools p)
       (if String.eqb (PlaceholderText p) "" then default_placeholder else PlaceholderText p) (ThresholdPercent p))
    (mkMutation 0 false false)
    (if cfg_SafetyMarginPercent cfg <=? 0 then defaultSafetyMargin else cfg_SafetyMarginPercent cfg)
    0 [] (cfg_InjectionDefenseEnabled cfg) None 0 "".

(** ** The budget *)

Definition EffectiveMax (c : ContextWindow) : Z :=
  let margin := Z.quot (modelWindow c * safetyMargin c) 100 in
  modelWindow c - modelOutputLimit c - margin - toolOverhead c.

Definition toolOverheadMaxReservePercent : Z := 80.

Definition SetToolOverhead (tokens : Z) (c : ContextWindow) : ContextWindow :=
  let tokens := if tokens <? 0 then 0 else tokens in
  let maxReserve := modelWindow c - modelOutputLimit c - Z.quot (modelWindow c * safetyMargin c) 100 in
  let maxReserve := if maxReserve <? 0 then 0 else maxReserve in
  let limit := Z.quot (maxReserve * toolOverheadMaxReservePercent) 100 in
  let tokens := if limit <? tokens then limit else tokens in
  set_config (planContent c) (strategy c) (mutation c) tokens (priorConversation c) (pendingUserInterjection c) c.

Definition ContextWindowSize (c : ContextWindow) : Z := modelWindow c.
Definition OutputLimit (c : ContextWindow) : Z := modelOutputLimit c.

Definition percent_of (used max : Z) : F := f_mul (f_div (f_of_int used) (f_of_int max)) (f_of_int 100).

Definition FillPercent (c : ContextWindow) : F :=
  let effectiveMax := EffectiveMax c in
  if effectiveMax <=? 0 then f_of_int 100 else percent_of (EstimateTotal (tracker c)) effectiveMax.

Definition AvailableTokens (c : ContextWindow) : Z :=
  let available := EffectiveMax c - EstimateTotal (tracker c) in
  if available <? 0 then 0 else available.

(** [FillCheck]: percent, status, used, max. *)
Definition CheckFill (c : ContextWindow) : F * string * Z * Z :=
  let used := EstimateTotal (tracker c) in
  let effectiveMax := EffectiveMax c in
  if effectiveMax <=? 0 then (f_of_int 100, "reject", used, effectiveMax)
  else
    let percent := percent_of used effectiveMax in
    let status :=
      if f_le (f_of_int 100) percent then "reject"
      else if f_le (f_of_int (EmergencyPercent (thresholds c))) percent then "emergency"
      else if f_le (f_of_int (WarningPercent (thresholds c))) percent then "warning"
      else if f_le (f_of_int (PredictivePercent (thresholds c))) percent then "compact"
      else "ok" in
    (percent, status, used, effectiveMax).

(** ** Plain setters *)

Definition CorrectTokenCount (n : Z) (c : ContextWindow) : ContextWindow :=
  set_history (steps c) (Correct n (tracker c)) (compactedMessages c) (compactedThroughIndex c) c.
Definition SetHistoryMutation (m : HistoryMutation) (c : ContextWindow) : ContextWindow :=
  set_config (planContent c) (strategy c) m (toolOverhead c) (priorConversation c) (pendingUserInterjection c) c.
Definition SetTask (task : string) (c : ContextWindow) : ContextWindow := set_task task [] c.
Definition SetTaskWithBlocks (task : string) (bs : list ContentBlock) (c : ContextWindow) : ContextWindow :=
  set_task task bs c.
Definition SetPlan (plan : string) (c : ContextWindow) : ContextWindow :=
  set_config plan (strategy c) (mutation c) (toolOverhead c) (priorConversation c) (pendingUserInterjection c) c.
Definition SetPriorConversation (msgs : list Message) (c : ContextWindow) : ContextWindow :=
  set_config (planContent c) (strategy c) (mutation c) (toolOverhead c) msgs (pendingUserInterjection c) c.
Definition SetPendingUserInterjection (msg : string) (c : ContextWindow) : ContextWindow :=
  set_config (planContent c) (strategy c) (mutation c) (toolOverhead c) (priorConversation c) msg c.
Definition ConsumePendingUserInterjection (c : ContextWindow) : ContextWindow := SetPendingUserInterjection "" c.
Definition SetStrategy (s : option CompactionStrategy) (c : ContextWindow) : ContextWindow :=
  set_config (planContent c) s (mutation c) (toolOverhead c) (priorConversation c) (pendingUserInterjection c) c.

(** ** Steps *)

Definition step_text (s : Step) : string :=
  s_thought s +s+ " " +s+ tc_name (s_action s) +s+ " " +s+ tc_input (s_action s) +s+ " " +s+ s_observation s.

Definition AddStep (step : Step) (c : ContextWindow) : ContextWindow :=
  set_history (steps c ++ [step]) (AddDelta (step_text step) (tracker c)) (compactedMessages c)
    (compactedThroughIndex c) c.

Definition SeedSteps (l : list Step) (c : ContextWindow) : ContextWindow :=
  set_history l (fold_left (fun t s => AddDelta (step_text s) t) l (Reset (tracker c))) None 0 c.
End strategies.

(** ** Pruning *)

Section window.
Context `{Float64} `{TokenCounter}.
(** ["%q"], and [fmt.Sprint] of a decoded JSON value that is not a string
    ([None]: [json.Unmarshal] fails on it). *)
Variable quote : string -> string.
Variable sprint : string -> option string.

(** The indices of [l] whose step satisfies [p]. *)
Definition indices (p : Step -> bool) (l : list Step) : list nat :=
  omap (fun '(i, s) => if p s : bool then Some i else None) (number 0 l).

Definition isProtectedTool (c : ContextWindow) (toolName : string) : bool :=
  existsb (fun t => String.eqb t toolName) (ProtectedTools (pruning c)).

Definition below_threshold (c : ContextWindow) : bool :=
  f_lt (f_of_int 0) (ThresholdPercent (pruning c)) && f_lt (FillPercent c) (ThresholdPercent (pruning c)).

(** The groups with a protected step. *)
Definition protected_groups (protected : gset nat) (l : list Step) : list Z :=
  omap (fun '(i, s) => if (0 <? s_group s) && bool_decide (i ∈ protected) then Some (s_group s) else None)
    (number 0 l).

Definition computeProtectedIndices (c : ContextWindow) : gset nat :=
  let l := steps c in
  if KeepLastN (pruning c) <=? 0 then ∅
  else if below_threshold c then list_to_set (indices has_call l)
  else
    let toolResultIndices := indices has_call l in
    let start := Z.of_nat (length toolResultIndices) - KeepLastN (pruning c) in
    let start := if start <? 0 then 0 else start in
    let protected : gset nat := list_to_set (drop (Z.to_nat start) toolResultIndices) in
    let protected := protected ∪
      list_to_set (indices (fun s => has_call s && isProtectedTool c (tc_name (s_action s))) l) in
    let groups := protected_groups protected l in
    protected ∪ list_to_set (indices (fun s => (0 <? s_group s) && bool_decide (s_group s ∈ groups)) l).

(** [extractInputHint] *)
Fixpoint first_some {A B} (f : A -> option B) (l : list A) : option B :=
  match l with
  | [] => None
  | x :: r => match f x with Some b => Some b | None => first_some f r end
  end.

(** A member's value in the decoded map: the last of equal keys. *)
Definition member_value (raw : string) : option (string * bool) :=
  match json_decode raw with
  | Some (JStr s) => Some (s, true)
  | _ => match sprint raw with Some s => Some (s, false) | None => None end
  end.

Definition extractInputHint (input : string) : string :=
  if String.eqb input "" then ""
  else match json_decode input with
  | Some (JObj l) =>
      if negb (forallb (fun kv => bool_decide (is_Some (member_value (snd kv)))) l) then ""
      else
        let value k := match obj_get k l with Some raw => member_value raw | None => None end in
        let hint s := if 60 <? slen s then TruncateUTF8 s 60 else s in
        match first_some value ["path"; "file_path"; "file"; "pattern"; "query"; "command"; "url"] with
        | Some (s, _) => hint s
        | None =>
            let keys := merge_sort str_le (remove_dups (map fst l)) in
            default "" (first_some (fun k =>
              match value k with
              | Some (s, true) => if negb (String.eqb s "") && (slen s <=? 60) then Some s else None
              | _ => None
              end) keys)
        end
  | _ => ""
  end.

Definition VulnerableOutputs (c : ContextWindow) : list (string * string) :=
  if (KeepLastN (pruning c) <=? 0) || bool_decide (steps c = []) then []
  else if below_threshold c then []
  else
    let protected := computeProtectedIndices c in
    omap (fun '(i, s) =>
      if negb (has_call s) then None
      else if bool_decide (i ∈ protected) then None
      else Some (tc_name (s_action s), extractInputHint (tc_input (s_action s)))) (number 0 (steps c)).

(** ** The prompt *)

Definition buildNudgeMsg (nudge : string) : list Message :=
  if HasVisibleContent nudge then [user_msg (trim_invisible nudge)] else [].

Definition evictionReferenceText (hash : string) : string :=
  "[Result evicted to cache. Use tool_result_read(hash=" +s+ quote hash +s+
  ", start_line=1, num_lines=N) to retrieve the full content.]".
Definition stepStatusEvictedText : string := "[checklist update — evicted]".

Definition isEarlierDuplicateHash (c : ContextWindow) (idx : nat) (hash : string) : bool :=
  if String.eqb hash "" then false
  else existsb (fun s => negb (String.eqb (s_cache_hash s) "") && String.eqb (s_cache_hash s) hash)
         (take idx (steps c)).

Definition applyHistoryMutation (c : ContextWindow) (step : Step) (idx : nat) (observation : string) : string :=
  let toolName := tc_name (s_action step) in
  let m := mutation c in
  if isProtectedTool c toolName then observation
  else if EvictStepStatus m && (String.eqb toolName "update_checklist" || String.eqb toolName "set_step_status")
  then stepStatusEvictedText
  else if (0 <? ToolResultEvictionStep m) && negb (String.eqb (s_cache_hash step) "") &&
          (ToolResultEvictionStep m <? Z.of_nat (length (steps c)) - Z.of_nat idx)
  then evictionReferenceText (s_cache_hash step)
  else if DedupRepeatedReads m && negb (String.eqb (s_cache_hash step) "") &&
          isEarlierDuplicateHash c idx (s_cache_hash step)
  then evictionReferenceText (s_cache_hash step)
  else observation.

Definition buildToolMsg (c : ContextWindow) (protected : gset nat) (idx : nat) (step : Step) : Message :=
  let observation := visible_output step in
  let kept := bool_decide (idx ∈ protected) in
  let original := observation in
  let observation := if kept then observation else applyHistoryMutation c step idx observation in
  let mutated := negb kept && negb (String.eqb observation original) in
  let observation :=
    if negb kept && (0 <? KeepLastN (pruning c)) && negb mutated
    then PlaceholderText (pruning c) else observation in
  let observation :=
    if injectionDefenseEnabled c && s_untrusted step
    then WrapUntrustedContent observation (tc_name (s_action step)) ∅ else observation in
  tool_msg observation (tc_id (s_action step)).

(** The results of the calls of a response, then its nudge. *)
Definition buildGroupedMessages (c : ContextWindow) (protected : gset nat) (groupStart : nat)
    (groupSteps : list Step) : list Message :=
  match groupSteps with
  | [] => []
  | first :: _ =>
      assistantMsgFromStep (s_thought first) (s_reasoning first) (s_reasoning_items first)
        (calls_of_steps groupSteps) ::
      omap (fun '(idx, gs) => if has_call gs then Some (buildToolMsg c protected idx gs) else None)
        (number groupStart groupSteps) ++
      match last groupSteps with Some gs => buildNudgeMsg (s_nudge gs) | None => [] end
  end.

Definition buildStandaloneMessages (c : ContextWindow) (protected : gset nat) (i : nat) (step : Step)
    : list Message :=
  let toolCalls := calls_of_steps [step] in
  let nudgeOnly := String.eqb (trim_invisible (s_thought step)) "" && String.eqb (s_reasoning step) "" &&
    bool_decide (s_reasoning_items step = []) && negb (has_call step) && HasVisibleContent (s_nudge step) in
  (if nudgeOnly then []
   else [assistantMsgFromStep (s_thought step) (s_reasoning step) (s_reasoning_items step) toolCalls]) ++
  (if has_call step then [buildToolMsg c protected i step] else []) ++
  buildNudgeMsg (s_nudge step).

Definition buildStepMessages (c : ContextWindow) : list Message :=
  let startIdx := match compactedMessages c with Some _ => compactedThroughIndex c | None => O end in
  let protected := computeProtectedIndices c in
  default [] (compactedMessages c) ++
  walk (buildGroupedMessages c protected) (buildStandaloneMessages c protected)
    (length (steps c)) startIdx (drop startIdx (steps c)).

Definition BuildPrompt (c : ContextWindow) : list Message :=
  (if String.eqb (systemPrompt c) "" then [] else map system_msg (SplitCacheBreak (systemPrompt c))) ++
  priorConversation c ++
  (if negb (bool_decide (taskContentBlocks c = []))
   then [mkMessage "user" (taskContent c) (taskContentBlocks c) "" [] "" []]
   else if String.eqb (taskContent c) "" then [] else [user_msg (taskContent c)]) ++
  (if String.eqb (planContent c) "" then [] else [system_msg (planContent c)]) ++
  buildStepMessages c ++
  buildNudgeMsg (pendingUserInterjection c).

(** ** Compaction *)

(** The tool name of the last untrusted step with an identifier. *)
Definition untrusted_source (l : list Step) (id : string) : option string :=
  fold_left (fun acc s =>
    if s_untrusted s && has_call s && String.eqb (tc_id (s_action s)) id
    then Some (tc_name (s_action s)) else acc) l None.

Definition fence_msg (l : list Step) (m : Message) : Message :=
  if negb (String.eqb (m_role m) "tool") || String.eqb (m_tool_call_id m) "" then m
  else match untrusted_source l (m_tool_call_id m) with
  | Some source =>
      mkMessage (m_role m) (WrapUntrustedContent (m_content m) source ∅) (m_blocks m) (m_reasoning m)
        (m_tool_calls m) (m_tool_call_id m) (m_reasoning_items m)
  | None => m
  end.

Definition wrapUntrustedInFrozenPrefix (defense : bool) (l : list Step) (frozen : list Message) : list Message :=
  if negb defense then frozen else map (fence_msg l) frozen.

(** [Compact]: the new window, and the percentages before and after. *)
Definition Compact (c : ContextWindow) : option (F * F) * ContextWindow :=
  match strategy c, steps c with
  | None, _ | _, [] => (None, c)
  | Some s, _ =>
      let '(before, _, _, _) := CheckFill c in
      let frozen := wrapUntrustedInFrozenPrefix (injectionDefenseEnabled c) (steps c)
                      (strategy_Compact s (steps c)) in
      let effectiveMax := EffectiveMax c in
      let baseTokens :=
        CountMessages [system_msg (systemPrompt c);
                       mkMessage "user" (taskContent c) (taskContentBlocks c) "" [] "" []] in
      let baseTokens := if String.eqb (planContent c) "" then baseTokens
                        else baseTokens + CountMessages [system_msg (planContent c)] in
      let baseTokens := if bool_decide (priorConversation c = []) then baseTokens
                        else baseTokens + CountMessages (priorConversation c) in
      let estimatedTotal := baseTokens + CountMessages frozen in
      let afterPercent := if 0 <? effectiveMax then percent_of estimatedTotal effectiveMax else f_of_int 0 in
      (Some (before, afterPercent),
       set_history (steps c) (Correct estimatedTotal (tracker c)) (Some frozen) (length (steps c)) c)
  end.
End window.
