(* ===== verification/Conversation.v ===== *)
(** * Compaction of a conversation: [src/memory/compaction_conversation.go]

    [CompactConversationHistory] shortens a list of messages by one of three
    strategies, [PredictCompaction] forecasts what it would do without doing
    it.  The theorem of this file is that the two agree: the forecast says
    whether the history will change and how many tokens stay verbatim, and the
    compaction keeps exactly that part, the last message included.

    Parameters: the token counter, floating point with the laws the zones rely
    on ([FloatLaws]), the ["%q"] verb and the model that summarizes. *)

From Stdlib Require Import ZArith QArith Lia Lqa.
From stdpp Require Import base strings list.
From S2P Require Import Prelude GoStr GoFloat AgentTypes Tokens Nudges Window.
Open Scope sp4rk_scope.
Open Scope Z_scope.

Section conversation.
Context `{Float64} `{TokenCounter}.
Variable quote : string -> string.

Record CompactionForecast := mkForecast {
  SummarizationRatio : F;
  HierarchicalDistantRatio : F;
  HierarchicalMiddleRatio : F;
}.

Record CompactionDeps := mkDeps {
  d_counts : bool; (** [TokenCounter != nil] *)
  d_Summarize : option summarizer;
  d_MaxSummarizeTokens : Z;
  d_Forecast : CompactionForecast;
}.

Definition positive_or (x d : Z) : Z := if x <=? 0 then d else x.

Definition unknown_strategy (strategy : string) : string :=
  "memory: unknown conversation compaction strategy " +s+ quote strategy.

Definition known_strategy (strategy : string) : bool :=
  String.eqb strategy "sliding_window" || String.eqb strategy "summarization" || String.eqb strategy "hierarchical".

(** ** The strategies *)

Definition omission_note (omitted : Z) : Message :=
  system_msg ("[... " +s+ itoa omitted +s+ " earlier conversation messages omitted by sliding-window compaction ...]").

Definition compactConversationSliding (msgs : list Message) (cfg : CompactionConfig) : list Message :=
  let keepFirst := positive_or (cc_keepFirst cfg) 3 in
  let keepLast := positive_or (cc_keepLast cfg) 10 in
  let n := Z.of_nat (length msgs) in
  if n <=? keepFirst + keepLast then msgs
  else take (Z.to_nat keepFirst) msgs ++ [omission_note (n - keepFirst - keepLast)] ++
       drop (Z.to_nat (n - keepLast)) msgs.

Definition userMessageText (msg : Message) : string :=
  match NormalizeContentBlocks msg with
  | [] => m_content msg
  | bs =>
      join "" (map (fun blk =>
        if String.eqb (cb_type blk) "text" then cb_text blk
        else if String.eqb (cb_type blk) "image" then "[image attached]"
        else "") bs)
  end.

Definition conversationBlockText (msgs : list Message) (truncateChars : Z) : string :=
  join "" (map (fun m =>
    let text := if String.eqb (m_role m) "user" then userMessageText m else m_content m in
    let text := if (0 <? truncateChars) && (truncateChars <? slen text) then TruncateUTF8 text truncateChars else text in
    m_role m +s+ ": " +s+ text +s+ nl) msgs).

(** The loop of [summarizeConversationBlocks] over its blocks, from message [i];
    [asked]: the texts the model was given before. *)
Fixpoint summarize_conversation (summarize : summarizer) (text : list Message -> string) (i : nat)
    (asked : list string) (bs : list (list Message)) : res (list Message * list string) :=
  match bs with
  | [] => Ok ([], asked)
  | block :: rest =>
      let t := text block in
      match summarize asked t with
      | Err e =>
          Err ("memory: conversation summarization failed (block " +s+ itoa (Z.of_nat i + 1) +s+ "-" +s+
               itoa (Z.of_nat (i + length block)) +s+ "): " +s+ e)
      | Ok summary =>
          match summarize_conversation summarize text (i + length block)%nat (asked ++ [t]) rest with
          | Err e => Err e
          | Ok (ms, asked') => Ok (system_msg summary :: ms, asked')
          end
      end
  end.

Definition summarizeConversationBlocks (asked : list string) (msgs : list Message) (blockSize : Z)
    (cfg : CompactionConfig) (deps : CompactionDeps) (summarize : summarizer) : res (list Message * list string) :=
  let truncateChars := positive_or (cc_observationTruncate cfg) 500 in
  let maxSummarizeTokens := positive_or (d_MaxSummarizeTokens deps) 16000 in
  let text block :=
    let t := conversationBlockText block truncateChars in
    if d_counts deps && (maxSummarizeTokens <? Count t) then truncateToTokenBudget t maxSummarizeTokens else t in
  summarize_conversation summarize text 0 asked (blocks (length msgs) (Z.to_nat blockSize) msgs).

Definition no_summarizer : string :=
  "memory: conversation summarization requires a non-nil Summarize dependency".
Definition no_hierarchical_summarizer : string :=
  "memory: hierarchical conversation compaction requires a non-nil Summarize dependency".

Definition compactConversationSummarizing (msgs : list Message) (cfg : CompactionConfig) (deps : CompactionDeps)
    : res (list Message) :=
  let blockSize := positive_or (cc_blockSize cfg) 10 in
  let keepLast := positive_or (cc_sumKeepLast cfg) 5 in
  let n := Z.of_nat (length msgs) in
  if n <=? keepLast then Ok msgs
  else match d_Summarize deps with
  | None => Err no_summarizer
  | Some summarize =>
      let numToSummarize := Z.to_nat (n - keepLast) in
      match summarizeConversationBlocks [] (take numToSummarize msgs) blockSize cfg deps summarize with
      | Err e => Err e
      | Ok (summaries, _) => Ok (summaries ++ drop numToSummarize msgs)
      end
  end.

Definition conversationHierarchicalZones (n : Z) (cfg : CompactionConfig) : Z * Z :=
  let or_ratio r d := if usableRatio r then r else d in
  let distantRatio := or_ratio (cc_distant cfg) (ratio 4 10) in
  let middleRatio := or_ratio (cc_middle cfg) (ratio 3 10) in
  let recentRatio := or_ratio (cc_recent cfg) (ratio 3 10) in
  let total := f_add (f_add distantRatio middleRatio) recentRatio in
  let normalize := f_lt (f_of_int 0) total && negb (f_eq total (f_of_int 1)) in
  let distantRatio := if normalize then f_div distantRatio total else distantRatio in
  let middleRatio := if normalize then f_div middleRatio total else middleRatio in
  let distant := f_to_int (f_mul (f_of_int n) distantRatio) in
  let middleEnd := f_to_int (f_mul (f_of_int n) (f_add distantRatio middleRatio)) in
  let middleEnd := if n <=? middleEnd then n - 1 else middleEnd in
  let distant := if middleEnd <? distant then middleEnd else distant in
  if distant =? 0 then (0, 0) else (distant, middleEnd - distant).

Definition ConversationHierarchicalZones (n : Z) (cfg : CompactionConfig) : Z * Z := conversationHierarchicalZones n cfg.

(** [msgs[a:b]] *)
Definition msg_slice (a b : Z) (msgs : list Message) : list Message :=
  take (Z.to_nat (b - a)) (drop (Z.to_nat a) msgs).

Definition compactConversationHierarchical (msgs : list Message) (cfg : CompactionConfig) (deps : CompactionDeps)
    : res (list Message) :=
  let '(distant, middle) := conversationHierarchicalZones (Z.of_nat (length msgs)) cfg in
  if distant + middle <=? 0 then Ok msgs
  else match d_Summarize deps with
  | None => Err no_hierarchical_summarizer
  | Some summarize =>
      match summarizeConversationBlocks [] (msg_slice 0 distant msgs) distant cfg deps summarize with
      | Err e => Err e
      | Ok (distantBlocks, asked) =>
          match summarizeConversationBlocks asked (msg_slice distant (distant + middle) msgs)
                  (positive_or (cc_blockSize cfg) 10) cfg deps summarize with
          | Err e => Err e
          | Ok (middleBlocks, _) =>
              Ok (distantBlocks ++ middleBlocks ++ drop (Z.to_nat (distant + middle)) msgs)
          end
      end
  end.

Definition CompactConversationHistory (msgs : list Message) (strategy : string) (cfg : CompactionConfig)
    (deps : CompactionDeps) : res (list Message) :=
  if bool_decide (msgs = []) then Ok msgs
  else if negb (known_strategy strategy) then Err (unknown_strategy strategy)
  else if String.eqb strategy "sliding_window" then Ok (compactConversationSliding msgs cfg)
  else if String.eqb strategy "summarization" then compactConversationSummarizing msgs cfg deps
  else compactConversationHierarchical msgs cfg deps.

(** ** The prediction

    [CompactionPrediction] without the name of the strategy it was asked for. *)

Record CompactionPrediction := mkPrediction {
  WillCompact : bool;
  BeforeTokens : Z;
  AfterTokens : Z;
  VerbatimTokens : Z;
  Reclaim : Z;
  Exact : bool;
}.

Definition countMessages (deps : CompactionDeps) (msgs : list Message) : Z :=
  if d_counts deps then CountMessages msgs else 0.
Definition textTokens (deps : CompactionDeps) (text : string) : Z := if d_counts deps then Count text else 0.

Definition clampSummarizeTokens (inputTokens maxSummarizeTokens : Z) : Z :=
  if maxSummarizeTokens <? inputTokens then maxSummarizeTokens else inputTokens.

Definition forecastSummaryTokens (inputTokens : Z) (r : F) : Z :=
  if inputTokens <=? 0 then 0 else Z.max 1 (f_to_int (f_mul (f_of_int inputTokens) r)).

(** A history that stays as it is. *)
Definition unchanged (before : Z) : CompactionPrediction := mkPrediction false before before before 0 true.

Definition compacted (before after verbatim : Z) (exact : bool) : CompactionPrediction :=
  mkPrediction true before after verbatim (Z.max 0 (before - after)) exact.

Definition predictConversationSliding (msgs : list Message) (cfg : CompactionConfig) (deps : CompactionDeps)
    (before : Z) : CompactionPrediction :=
  let keepFirst := positive_or (cc_keepFirst cfg) 3 in
  let keepLast := positive_or (cc_keepLast cfg) 10 in
  let n := Z.of_nat (length msgs) in
  if n <=? keepFirst + keepLast then unchanged before
  else
    let verbatim := countMessages deps (take (Z.to_nat keepFirst) msgs ++ drop (Z.to_nat (n - keepLast)) msgs) in
    let after := verbatim + countMessages deps [omission_note (n - keepFirst - keepLast)] in
    compacted before after verbatim (d_counts deps).

(** The tokens of the blocks a strategy would have summarized. *)
Definition block_tokens (deps : CompactionDeps) (cfg : CompactionConfig) (block : list Message) : Z :=
  clampSummarizeTokens (textTokens deps (conversationBlockText block (positive_or (cc_observationTruncate cfg) 500)))
    (positive_or (d_MaxSummarizeTokens deps) 16000).

Definition forecast_ratio (r d : F) : F := if usableRatio r then r else d.

Definition predictConversationSummarizing (msgs : list Message) (cfg : CompactionConfig) (deps : CompactionDeps)
    (before : Z) : CompactionPrediction :=
  let keepLast := positive_or (cc_sumKeepLast cfg) 5 in
  let n := Z.of_nat (length msgs) in
  if n <=? keepLast then unchanged before
  else
    let verbatim := countMessages deps (drop (Z.to_nat (n - keepLast)) msgs) in
    let r := forecast_ratio (SummarizationRatio (d_Forecast deps)) (ratio 3 10) in
    let older := take (Z.to_nat (n - keepLast)) msgs in
    let summarized := sumZ (map (fun b => forecastSummaryTokens (block_tokens deps cfg b) r)
      (blocks (length older) (Z.to_nat (positive_or (cc_blockSize cfg) 10)) older)) in
    compacted before (verbatim + summarized) verbatim false.

Definition predictConversationHierarchical (msgs : list Message) (cfg : CompactionConfig) (deps : CompactionDeps)
    (before : Z) : CompactionPrediction :=
  let '(distant, middle) := conversationHierarchicalZones (Z.of_nat (length msgs)) cfg in
  if distant + middle <=? 0 then unchanged before
  else
    let verbatim := countMessages deps (drop (Z.to_nat (distant + middle)) msgs) in
    let distantRatio := forecast_ratio (HierarchicalDistantRatio (d_Forecast deps)) (ratio 15 100) in
    let middleRatio := forecast_ratio (HierarchicalMiddleRatio (d_Forecast deps)) (ratio 3 10) in
    let distantTokens := block_tokens deps cfg (msg_slice 0 distant msgs) in
    let middleMsgs := msg_slice distant (distant + middle) msgs in
    let middleTokens := sumZ (map (block_tokens deps cfg)
      (blocks (length middleMsgs) (Z.to_nat (positive_or (cc_blockSize cfg) 10)) middleMsgs)) in
    compacted before
      (verbatim + forecastSummaryTokens distantTokens distantRatio + forecastSummaryTokens middleTokens middleRatio)
      verbatim false.

Definition PredictCompaction (msgs : list Message) (strategy : string) (cfg : CompactionConfig)
    (deps : CompactionDeps) : res CompactionPrediction :=
  if negb (known_strategy strategy) then Err (unknown_strategy strategy)
  else if bool_decide (msgs = []) then Ok (mkPrediction false 0 0 0 0 true)
  else
    let before := countMessages deps msgs in
    Ok (if String.eqb strategy "sliding_window" then predictConversationSliding msgs cfg deps before
        else if String.eqb strategy "summarization" then predictConversationSummarizing msgs cfg deps before
        else predictConversationHierarchical msgs cfg deps before).
(** ** Zones *)

Definition in_unit (x : F) : Prop := f_le (f_of_int 0) x = true /\ f_le x (f_of_int 1) = true.

(** What IEEE 754 doubles promise about shares of a history. *)
Class FloatLaws := {
  ratio_usable : forall a b, 0 < a <= b -> b <= 100 -> usableRatio (ratio a b) = true;
  usable_sum : forall a b c, usableRatio a = true -> usableRatio b = true -> usableRatio c = true ->
    let t := f_add (f_add a b) c in
    f_lt (f_of_int 0) t = true /\ f_le a t = true /\ f_le b t = true;
  share_unit : forall a t, usableRatio a = true -> f_lt (f_of_int 0) t = true -> f_le a t = true -> in_unit (f_div a t);
  part_unit : forall a t, usableRatio a = true -> f_le a t = true -> f_eq t (f_of_int 1) = true -> in_unit a;
  scaled : forall n x, 0 <= n < 2 ^ 53 -> in_unit x -> 0 <= f_to_int (f_mul (f_of_int n) x);
  scaled_sum : forall n x y, 0 <= n < 2 ^ 53 -> in_unit x -> in_unit y -> 0 <= f_to_int (f_mul (f_of_int n) (f_add x y));
}.
Context `{FloatLaws}.

Lemma or_ratio_usable r a b : 0 < a <= b -> b <= 100 -> usableRatio (if usableRatio r then r else ratio a b) = true.
Proof. intros. destruct (usableRatio r) eqn:E; [done|by apply ratio_usable]. Qed.

Lemma zones_fit n cfg :
  0 < n < 2 ^ 53 ->
  let '(distant, middle) := conversationHierarchicalZones n cfg in
  distant + middle <= 0 \/ (0 < distant /\ 0 <= middle /\ distant + middle < n).
Proof.
  intros Hn. unfold conversationHierarchicalZones. cbv zeta.
  set (d := if usableRatio (cc_distant cfg) then _ else _).
  set (m := if usableRatio (cc_middle cfg) then _ else _).
  set (r := if usableRatio (cc_recent cfg) then _ else _).
  assert (Hd : usableRatio d = true) by (by apply or_ratio_usable).
  assert (Hm : usableRatio m = true) by (by apply or_ratio_usable).
  assert (Hr : usableRatio r = true) by (by apply or_ratio_usable).
  destruct (usable_sum d m r Hd Hm Hr) as (Ht & Hdt & Hmt). clearbody d m r.
  set (t := f_add (f_add d m) r) in *. rewrite Ht. cbn [andb].
  set (d' := if negb _ then f_div d t else d). set (m' := if negb _ then f_div m t else m).
  assert (Hu : in_unit d' /\ in_unit m').
  { unfold d', m'. destruct (f_eq t (f_of_int 1)) eqn:E; cbn [negb]; split;
      (by apply share_unit) || (by eapply part_unit). }
  destruct Hu as [Hd' Hm'].
  pose proof (scaled n d' ltac:(lia) Hd') as Hz1. pose proof (scaled_sum n d' m' ltac:(lia) Hd' Hm') as Hz2.
  set (z2 := f_to_int (f_mul _ (f_add d' m'))) in *. set (z1 := f_to_int (f_mul _ d')) in *. clearbody z1 z2.
  set (e := if n <=? z2 then n - 1 else z2).
  assert (He : 0 <= e < n) by (unfold e; destruct (Z.leb_spec n z2); lia). clearbody e.
  destruct (Z.ltb_spec e z1) as [Hlt|Hge].
  - destruct (Z.eqb_spec e 0); lia.
  - destruct (Z.eqb_spec z1 0); lia.
Qed.

(** ** Summaries *)

Definition system_role (m : Message) : Prop := m_role m = "system".

Lemma summarize_conversation_ok summarize text i asked bs ms asked' :
  summarize_conversation summarize text i asked bs = Ok (ms, asked') ->
  Forall system_role ms /\ length ms = length bs.
Proof.
  revert i asked ms asked'; induction bs as [|b bs IH]; intros i asked ms asked'; simpl; [by intros [= <- _]|].
  destruct (summarize asked (text b)) as [summary|e]; [|done].
  destruct (summarize_conversation _ _ _ _ bs) as [[ms2 a2]|e] eqn:E; [|done].
  intros [= <- _]. destruct (IH _ _ _ _ E) as [Hf Hl]. simpl. split; [by constructor|by rewrite Hl].
Qed.

Lemma blocks_ne {A} size (l : list A) : l <> [] -> blocks (length l) size l <> [].
Proof. by destruct l. Qed.

Lemma summarized_blocks asked msgs size cfg deps sm ms asked' :
  summarizeConversationBlocks asked msgs size cfg deps sm = Ok (ms, asked') ->
  Forall system_role ms /\ (msgs <> [] -> ms <> []).
Proof.
  unfold summarizeConversationBlocks. cbv zeta. intros E. apply summarize_conversation_ok in E as [Hf Hl].
  split; [done|]. intros Hne%(blocks_ne (Z.to_nat size)) ->. by destruct (blocks _ _ msgs).
Qed.

(** [out] is [msgs] with a part replaced by notes. *)
Definition replaces (msgs out kept_verbatim : list Message) : Prop :=
  exists head gone tail notes,
    msgs = head ++ gone ++ tail /\ gone <> [] /\ tail <> [] /\ notes <> [] /\ Forall system_role notes /\
    out = head ++ notes ++ tail /\ kept_verbatim = head ++ tail.

Lemma split_replaces msgs a b notes :
  (a < b)%nat -> (b < length msgs)%nat -> notes <> [] -> Forall system_role notes ->
  replaces msgs (take a msgs ++ notes ++ drop b msgs) (take a msgs ++ drop b msgs).
Proof.
  intros Hab Hb Hne Hs. exists (take a msgs), (take (b - a) (drop a msgs)), (drop b msgs), notes.
  replace (drop b msgs) with (drop (b - a) (drop a msgs)) at 1 by (rewrite drop_drop; f_equal; lia).
  rewrite (take_drop (b - a)), take_drop. split; [done|].
  split; [intros Hn; apply (f_equal length) in Hn; rewrite length_take, length_drop in Hn; simpl in Hn; lia|].
  split; [intros Hn; apply (f_equal length) in Hn; rewrite length_drop in Hn; simpl in Hn; lia|].
  done.
Qed.

Lemma positive_or_pos x d : 0 < d -> 0 < positive_or x d.
Proof. unfold positive_or. destruct (Z.leb_spec x 0); lia. Qed.

(** What a prediction promises about the compaction that follows. *)
Definition agrees (deps : CompactionDeps) (msgs : list Message) (p : CompactionPrediction) (run : res (list Message)) : Prop :=
  BeforeTokens p = countMessages deps msgs /\
  (WillCompact p = false -> run = Ok msgs /\ AfterTokens p = BeforeTokens p /\ Reclaim p = 0) /\
  (WillCompact p = true ->
   Reclaim p = Z.max 0 (BeforeTokens p - AfterTokens p) /\
   forall out, run = Ok out -> exists verbatim,
     replaces msgs out verbatim /\ VerbatimTokens p = countMessages deps verbatim /\
     (Exact p = true -> AfterTokens p = countMessages deps out)).

Section agreement.
Hypothesis count_app : forall a b, CountMessages (a ++ b) = CountMessages a + CountMessages b.
Variable cfg : CompactionConfig.
Variable deps : CompactionDeps.
Variable msgs : list Message.

Lemma unchanged_agrees : agrees deps msgs (unchanged (countMessages deps msgs)) (Ok msgs).
Proof. split; [done|]. split; [done|]. discriminate. Qed.

Lemma sliding_agrees :
  agrees deps msgs (predictConversationSliding msgs cfg deps (countMessages deps msgs))
    (Ok (compactConversationSliding msgs cfg)).
Proof.
  unfold predictConversationSliding, compactConversationSliding. cbv zeta.
  pose proof (positive_or_pos (cc_keepFirst cfg) 3 eq_refl). pose proof (positive_or_pos (cc_keepLast cfg) 10 eq_refl).
  set (kf := positive_or _ 3) in *. set (kl := positive_or _ 10) in *.
  destruct (Z.leb_spec (Z.of_nat (length msgs)) (kf + kl)); [apply unchanged_agrees|].
  split; [done|]. split; [discriminate|]. intros _. split; [done|]. intros out [= <-].
  exists (take (Z.to_nat kf) msgs ++ drop (Z.to_nat (Z.of_nat (length msgs) - kl)) msgs).
  split; [apply (split_replaces msgs _ _ [omission_note _]); [lia|lia|done|by repeat constructor]|]. split; [done|].
  intros _. cbn [AfterTokens compacted]. unfold countMessages. destruct (d_counts deps); [|lia].
  set (note := omission_note _). pose proof (count_app [note] (drop (Z.to_nat (Z.of_nat (length msgs) - kl)) msgs)).
  simpl app in *. rewrite !count_app. lia.
Qed.

Lemma summarizing_agrees :
  agrees deps msgs (predictConversationSummarizing msgs cfg deps (countMessages deps msgs))
    (compactConversationSummarizing msgs cfg deps).
Proof.
  unfold predictConversationSummarizing, compactConversationSummarizing. cbv zeta.
  pose proof (positive_or_pos (cc_sumKeepLast cfg) 5 eq_refl). set (kl := positive_or _ 5) in *.
  destruct (Z.leb_spec (Z.of_nat (length msgs)) kl); [apply unchanged_agrees|].
  split; [done|]. split; [discriminate|]. intros _. split; [done|]. intros out.
  destruct (d_Summarize deps) as [sm|]; [|done].
  destruct (summarizeConversationBlocks _ _ _ _ _ _) as [[ms asked]|e] eqn:E; [|done]. intros [= <-].
  apply summarized_blocks in E as [Hs Hne]. eexists. split; [|split; [reflexivity|discriminate]].
  apply (split_replaces msgs 0 (Z.to_nat (Z.of_nat (length msgs) - kl)) ms); [lia|lia| |done].
  apply Hne. intros Hn. apply (f_equal length) in Hn. rewrite length_take in Hn. simpl in Hn. lia.
Qed.

Lemma hierarchical_agrees :
  0 < Z.of_nat (length msgs) < 2 ^ 53 ->
  agrees deps msgs (predictConversationHierarchical msgs cfg deps (countMessages deps msgs))
    (compactConversationHierarchical msgs cfg deps).
Proof.
  intros Hn. unfold predictConversationHierarchical, compactConversationHierarchical. cbv zeta.
  pose proof (zones_fit (Z.of_nat (length msgs)) cfg Hn) as Hz.
  destruct (conversationHierarchicalZones _ cfg) as [d m].
  destruct (Z.leb_spec (d + m) 0); [apply unchanged_agrees|]. destruct Hz as [|(Hd & Hm & Hdm)]; [lia|].
  split; [done|]. split; [discriminate|]. intros _. split; [done|]. intros out.
  destruct (d_Summarize deps) as [sm|]; [|done].
  destruct (summarizeConversationBlocks [] _ _ _ _ _) as [[ms1 asked]|e] eqn:E1; [|done].
  destruct (summarizeConversationBlocks asked _ _ _ _ _) as [[ms2 asked2]|e] eqn:E2; [|done]. intros [= <-].
  apply summarized_blocks in E1 as [Hs1 Hne1]. apply summarized_blocks in E2 as [Hs2 _].
  eexists. split; [|split; [reflexivity|discriminate]]. rewrite app_assoc.
  apply (split_replaces msgs 0 (Z.to_nat (d + m)) (ms1 ++ ms2)); [lia|lia| |by apply Forall_app].
  intros [Hnil _]%app_nil. apply Hne1; [|done]. intros Hn1. apply (f_equal length) in Hn1.
  unfold msg_slice in Hn1. rewrite length_take, length_drop in Hn1. simpl in Hn1. lia.
Qed.

(** The forecast of a compaction can be trusted: when it says the history
    stays as it is, running the strategy returns it unchanged; otherwise a run
    that succeeds replaces a non-empty part of the history by system notes,
    keeps the rest verbatim - the last message included -, the forecast counts
    exactly the tokens of what is kept, and the total is exact where it says so. *)
Theorem prediction_agrees strategy p
    (Hn : Z.of_nat (length msgs) < 2 ^ 53) (Hp : PredictCompaction msgs strategy cfg deps = Ok p) :
  agrees deps msgs p (CompactConversationHistory msgs strategy cfg deps).
Proof.
  unfold PredictCompaction in Hp. unfold CompactConversationHistory.
  destruct (known_strategy strategy); [|done]. cbn [negb] in *.
  destruct (decide (msgs = [])) as [He|He].
  - rewrite bool_decide_true in * by done. injection Hp as <-. rewrite He. split; [|done].
    unfold countMessages. destruct (d_counts deps); [|done]. pose proof (count_app [] []) as Hc. simpl in *. lia.
  - rewrite bool_decide_false in * by done. injection Hp as <-.
    destruct (String.eqb strategy "sliding_window"); [apply sliding_agrees|].
    destruct (String.eqb strategy "summarization"); [apply summarizing_agrees|].
    apply hierarchical_agrees. destruct msgs; [done|]. simpl length in *. lia.
Qed.
End agreement.
End conversation.

(** ** The laws hold of exact rationals *)

Lemma Qlt_bool_iff x y : @f_lt Float64_Q x y = true <-> (x < y)%Q.
Proof.
  cbn. rewrite negb_true_iff. split.
  - intros Hf. apply Qnot_le_lt. intros Hle. apply Qle_bool_iff in Hle. congruence.
  - intros Hlt. destruct (Qle_bool y x) eqn:E; [|done]. apply Qle_bool_iff in E. by apply Qlt_not_le in Hlt.
Qed.

Lemma usable_Q x : @usableRatio Float64_Q x = true <-> (0 < x)%Q.
Proof. unfold usableRatio. cbn [f_finite Float64_Q]. rewrite andb_true_r. apply Qlt_bool_iff. Qed.

Lemma unit_Q x : @in_unit Float64_Q x <-> (0 <= x <= 1)%Q.
Proof. unfold in_unit. cbn. by rewrite !Qle_bool_iff. Qed.

Lemma to_int_nonneg x : (0 <= x)%Q -> 0 <= @f_to_int Float64_Q x.
Proof. destruct x as [n d]. unfold Qle. cbn. intros Hx. apply Z.quot_pos; lia. Qed.

Lemma int_nonneg n : 0 <= n -> (0 <= inject_Z n)%Q.
Proof. intros Hn. change (inject_Z 0 <= inject_Z n)%Q. by rewrite <- Zle_Qle. Qed.

#[export] Instance FloatLaws_Q : @FloatLaws Float64_Q.
Proof.
  split.
  - intros a b Ha Hb. apply usable_Q. cbn. apply Qlt_shift_div_l; [|rewrite Qmult_0_l]; change 0%Q with (inject_Z 0);
      rewrite <- Zlt_Qlt; lia.
  - intros a b c Ha%usable_Q Hb%usable_Q Hc%usable_Q. cbv zeta. rewrite Qlt_bool_iff. cbn in *. rewrite !Qle_bool_iff.
    change (inject_Z 0) with 0%Q. split; [lra|split; lra].
  - intros a t Ha%usable_Q Ht%Qlt_bool_iff Hle. apply unit_Q. cbn in *. apply Qle_bool_iff in Hle. split.
    + apply Qle_shift_div_l; [done|]. rewrite Qmult_0_l. by apply Qlt_le_weak.
    + apply Qle_shift_div_r; [done|]. by rewrite Qmult_1_l.
  - intros a t Ha%usable_Q Hle Ht. apply unit_Q. cbn in *. apply Qle_bool_iff in Hle. apply Qeq_bool_iff in Ht.
    rewrite Ht in Hle. split; [by apply Qlt_le_weak|done].
  - intros n x [Hn _] [Hx _]%unit_Q. apply to_int_nonneg. cbn. apply Qmult_le_0_compat; [by apply int_nonneg|done].
  - intros n x y [Hn _] [Hx _]%unit_Q [Hy _]%unit_Q. apply to_int_nonneg. cbn.
    apply Qmult_le_0_compat; [by apply int_nonneg|lra].
Qed.

(** ** A conversation *)

Lemma simple_count_app k a b :
  simple_CountMessages k (a ++ b) = simple_CountMessages k a + simple_CountMessages k b.
Proof. unfold simple_CountMessages. induction a as [|m a IH]; simpl; [done|]. rewrite IH. lia. Qed.

Definition quoted (s : string) : string := dq +s+ s +s+ dq.

Definition talk : list Message := map (fun n => user_msg (itoa (Z.of_nat n))) (seq 1 9).

Definition talk_config : CompactionConfig := mkCompaction 2 3 2 3 0 (ratio 1 2) (ratio 1 4) (ratio 1 4).
Definition talk_deps : CompactionDeps :=
  mkDeps true (Some (fun asked text => Ok ("summary " +s+ itoa (Z.of_nat (length asked))))) 0
    (mkForecast (f_of_int 0) (f_of_int 0) (f_of_int 0)).
Definition talk_prediction : CompactionPrediction :=
  @predictConversationHierarchical _ NewSimpleTokenCounter talk talk_config talk_deps
    (@countMessages _ NewSimpleTokenCounter talk_deps talk).

Lemma prediction_agrees_witness :
  WillCompact talk_prediction = true /\
  agrees (H0 := NewSimpleTokenCounter) talk_deps talk talk_prediction
    (@CompactConversationHistory _ NewSimpleTokenCounter quoted talk "hierarchical" talk_config talk_deps) /\
  @CompactConversationHistory _ NewSimpleTokenCounter quoted talk "hierarchical" talk_config talk_deps =
    Ok (map system_msg ["summary 0"; "summary 1"] ++ drop 6 talk).
Proof.
  split; [vm_compute; reflexivity|]. split; [|vm_compute; reflexivity].
  exact (prediction_agrees (H0 := NewSimpleTokenCounter) quoted (simple_count_app _) talk_config talk_deps talk
           "hierarchical" talk_prediction eq_refl eq_refl).
Defined.

(** An empty history has a zone of minus one message. *)
Example empty_zones : ConversationHierarchicalZones 0 talk_config = (-1, 0).
Proof. vm_compute. reflexivity. Qed.

(** An unknown strategy fails the prediction of an empty history, not its
    compaction. *)
Example unknown_on_empty :
  @PredictCompaction _ NewSimpleTokenCounter quoted [] "zip" talk_config talk_deps = Err (unknown_strategy quoted "zip") /\
  @CompactConversationHistory _ NewSimpleTokenCounter quoted [] "zip" talk_config talk_deps = Ok [].
Proof. by vm_compute. Qed.
