(* ===== verification/AnyJson.v ===== *)
(** * Decoded JSON values and their printing in the order of a source

    Models llm/schema_order.go and the values [json.Unmarshal] makes of a text
    when the target is [map[string]any].  An object is the list of its members
    in the order a range over the Go map takes; nothing of that order is fixed,
    so that what holds for a list holds for every iteration order.  A number is
    the text [json.Marshal] gives for the [float64] of its literal; that text
    is a parameter. *)

From Stdlib Require Import ZArith Lia Ascii.
From stdpp Require Import base gmap strings list sorting.
From S2P Require Import Prelude GoStr Fence Json JsonFacts JsonEncode.
Open Scope sp4rk_scope.

Unset Elimination Schemes.
Inductive any :=
| ANull
| ABool (b : bool)
| ANum (text : string)
| AStr (s : string)
| AArr (l : list any)
| AObj (m : list (string * any)).
Set Elimination Schemes.

(** Induction with hypotheses for the elements and the members. *)
Section induction.
Variable P : any -> Prop.
Hypothesis P_null : P ANull.
Hypothesis P_bool : forall b, P (ABool b).
Hypothesis P_num : forall t, P (ANum t).
Hypothesis P_str : forall s, P (AStr s).
Hypothesis P_arr : forall l, Forall P l -> P (AArr l).
Hypothesis P_obj : forall m, Forall (fun kv => P (snd kv)) m -> P (AObj m).

Fixpoint any_ind (v : any) : P v :=
  match v with
  | ANull => P_null
  | ABool b => P_bool b
  | ANum t => P_num t
  | AStr s => P_str s
  | AArr l => P_arr l ((fix all (l : list any) : Forall P l :=
        match l with [] => Forall_nil_2 _ | x :: l => Forall_cons_2 _ _ _ (any_ind x) (all l) end) l)
  | AObj m =>
      P_obj m ((fix all (m : list (string * any)) : Forall (fun kv => P (snd kv)) m := match m with
        | [] => Forall_nil_2 _
        | (k, x) :: m => Forall_cons_2 (fun kv => P (snd kv)) (k, x) _ (any_ind x) (all m)
        end) m)
  end.
End induction.

Notation members_of := (list (string * any)) (only parsing).

(** ** Go maps *)

Fixpoint map_get (k : string) (m : members_of) : option any :=
  match m with
  | [] => None
  | (k', v) :: m => if String.eqb k k' then Some v else map_get k m
  end.
Fixpoint map_set (k : string) (v : any) (m : members_of) : members_of :=
  match m with
  | [] => [(k, v)]
  | (k', v') :: m => if String.eqb k k' then (k, v) :: m else (k', v') :: map_set k v m
  end.
Definition map_without (drop : string -> bool) (m : members_of) : members_of :=
  List.filter (fun kv => negb (drop (fst kv))) m.
Definition map_delete (k : string) : members_of -> members_of := map_without (String.eqb k).
Definition map_has (k : string) (m : members_of) : bool := if map_get k m is Some _ then true else false.

(** The type assertions [x.(map[string]any)], [x.([]any)], [x.(string)]. *)
Definition as_map (v : option any) : option members_of := if v is Some (AObj m) then Some m else None.
Definition as_list (v : option any) : option (list any) := if v is Some (AArr l) then Some l else None.
Definition as_string (v : option any) : option string := if v is Some (AStr s) then Some s else None.

(** ** Decoding *)

Section text.
Variable float_text : string -> string.

Fixpoint unmarshal_any (fuel : nat) (raw : string) : option any :=
  match fuel with
  | O => None
  | S f =>
      match json_decode raw with
      | Some JNull => Some ANull
      | Some (JBool b) => Some (ABool b)
      | Some (JNum n) => if float_fits n then Some (ANum (float_text n)) else None
      | Some (JStr s) => Some (AStr s)
      | Some (JArr l) => AArr <$> mapM (unmarshal_any f) l
      | Some (JObj l) =>
          AObj <$> fold_left (fun acc kv =>
            match acc, unmarshal_any f (snd kv) with
            | Some m, Some v => Some (map_set (fst kv) v m)
            | _, _ => None
            end) l (Some [])
      | None => None
      end
  end.
Definition Unmarshal_any (raw : string) : option any := unmarshal_any (S (String.length raw)) raw.
(** Into a [map[string]any]: an object, or [null], which leaves a nil map. *)
Definition Unmarshal_map (raw : string) : option (option members_of) :=
  match Unmarshal_any raw with
  | Some (AObj m) => Some (Some m)
  | Some ANull => Some None
  | _ => None
  end.
End text.

(** ** The order of a source *)

Inductive orderNode :=
| OScalar
| OObj (kv : list (string * orderNode))
| OArr (elems : list orderNode) (scalars : list (option string)).

(** [readOrderNode], over the value instead of the token stream: a member that
    is written twice is listed twice.  Of the scalar elements of an array only
    the strings are ever looked at. *)
Fixpoint readOrderNode (fuel : nat) (raw : string) : orderNode :=
  match fuel with
  | O => OScalar
  | S f =>
      match json_decode raw with
      | Some (JObj l) => OObj (map (fun kv => (fst kv, readOrderNode f (snd kv))) l)
      | Some (JArr l) =>
          OArr (map (readOrderNode f) l) (map (fun e => match json_decode e with Some (JStr s) => Some s | _ => None end) l)
      | _ => OScalar
      end
  end.
(** The text is one that has been decoded. *)
Definition parseJSONKeyOrder (raw : string) : option orderNode :=
  if json_valid raw then Some (readOrderNode (S (String.length raw)) raw) else None.

(** *** [reorderScalars] *)

Fixpoint first_position (i : Z) (s : string) (declared : list (option string)) : option Z :=
  match declared with
  | [] => None
  | Some d :: rest => if String.eqb d s then Some i else first_position (i + 1) s rest
  | None :: rest => first_position (i + 1) s rest
  end.
Definition distinct_strings (declared : list (option string)) : Z := Z.of_nat (length (remove_dups (omap id declared))).
Fixpoint ranked (declared : list (option string)) (i : Z) (items : list string) : list (string * Z) :=
  match items with
  | [] => []
  | s :: rest =>
      (s, match first_position 0 s declared with Some p => p | None => (distinct_strings declared + i)%Z end)
      :: ranked declared (i + 1) rest
  end.
(** A stable sort by rank. *)
Fixpoint insert_ranked (x : string * Z) (l : list (string * Z)) : list (string * Z) :=
  match l with
  | [] => [x]
  | y :: l' => if (snd y <=? snd x)%Z then y :: insert_ranked x l' else x :: l
  end.
Definition sort_ranked (l : list (string * Z)) : list (string * Z) := fold_left (fun acc x => insert_ranked x acc) l [].
Definition reorder_strings (items : list string) (declared : list (option string)) : list string :=
  if bool_decide (declared = []) then items else map fst (sort_ranked (ranked declared 0 items)).
(** [None]: an item that is not a string; the items stay as they are. *)
Definition strings_of (items : list any) : option (list string) := mapM (fun v => as_string (Some v)) items.

(** ** Printing *)

(** [json.Marshal] of a string: [JsonEncode.json_string] with the three HTML
    characters escaped. *)
Fixpoint html_escape (s : string) : string :=
  match s with
  | "" => ""
  | String c s =>
      (if Ascii.eqb c "<" then "\u003c" else if Ascii.eqb c ">" then "\u003e" else if Ascii.eqb c "&" then "\u0026"
       else String c "") +s+ html_escape s
  end.
Definition marshal_string (s : string) : string := html_escape (json_string s).

Definition order_of_member (orig : option orderNode) (k : string) : option orderNode :=
  match orig with
  | Some (OObj kv) => snd <$> List.find (fun e => String.eqb (fst e) k) kv
  | _ => None
  end.
Definition order_of_element (orig : option orderNode) (i : nat) : option orderNode :=
  match orig with Some (OArr elems _) => elems !! i | _ => None end.

(** The keys in the order they are written: those of the source, each once,
    then the others sorted. *)
Definition written_keys (keys : list string) (orig : option orderNode) : list string :=
  let declared := match orig with Some (OObj kv) => map fst kv | _ => [] end in
  let front := fold_left (fun acc k => if bool_decide (k ∈ acc) || negb (bool_decide (k ∈ keys)) then acc else acc ++ [k]) declared [] in
  front ++ merge_sort str_le (List.filter (fun k => negb (bool_decide (k ∈ front))) keys).

Fixpoint numbered {A} (i : nat) (l : list A) : list (nat * A) :=
  match l with [] => [] | x :: l => (i, x) :: numbered (S i) l end.

(** The text of a [required] array of strings in the declared order. *)
Definition required_text (k : string) (v : any) (child : option orderNode) : option string :=
  if negb (String.eqb k "required") then None
  else match v, child with
  | AArr items, Some (OArr _ scalars) =>
      match strings_of items with
      | Some ss => Some ("[" +s+ join "," (map marshal_string (reorder_strings ss scalars)) +s+ "]")
      | None => None
      end
  | _, _ => None
  end.

Fixpoint writeOrderedJSON (v : any) : option orderNode -> string :=
  match v with
  | ANull => fun _ => "null"
  | ABool b => fun _ => if b then "true" else "false"
  | ANum t => fun _ => t
  | AStr s => fun _ => marshal_string s
  | AArr l =>
      let texts := map writeOrderedJSON l in
      fun orig => "[" +s+ join "," (map (fun '(i, write) => write (order_of_element orig i)) (numbered 0 texts)) +s+ "]"
  | AObj m =>
      let texts := map (fun kv => let '(k, v) := kv in
        (k, fun child => marshal_string k +s+ ":" +s+
              match required_text k v child with Some t => t | None => writeOrderedJSON v child end)) m in
      fun orig =>
        "{" +s+ join "," (omap (fun k => (fun write => write (order_of_member orig k)) <$>
                  (snd <$> List.find (fun e => String.eqb (fst e) k) texts)) (written_keys (map fst m) orig)) +s+ "}"
  end.
(** [json.Marshal] sorts the members. *)
Definition marshalAlphabetical (v : any) : string := writeOrderedJSON v None.
Definition marshalPreservingKeyOrder (raw : string) (vals : option members_of) : string :=
  match vals with
  | None => "null"
  | Some m =>
      match parseJSONKeyOrder raw with
      | Some order => writeOrderedJSON (AObj m) (Some order)
      | None => marshalAlphabetical (AObj m)
      end
  end.

(** ** Facts about maps *)

Lemma map_get_set k v m k' : map_get k' (map_set k v m) = if String.eqb k' k then Some v else map_get k' m.
Proof.
  induction m as [|[k2 v2] m IH]; cbn [map_set map_get]; [done|].
  destruct (String.eqb_spec k k2) as [<-|Hk]; cbn [map_get]; [by destruct (String.eqb k' k)|].
  destruct (String.eqb_spec k' k2) as [->|Hk']; [|exact IH].
  destruct (String.eqb_spec k2 k) as [->|]; [by destruct Hk|done].
Qed.
Lemma map_get_without drop m k : map_get k (map_without drop m) = if drop k then None else map_get k m.
Proof.
  induction m as [|[k2 v2] m IH]; cbn [map_get]; [by destruct (drop k)|].
  unfold map_without in *. cbn [List.filter fst]. destruct (drop k2) eqn:E; cbn [negb map_get].
  - rewrite IH. destruct (String.eqb_spec k k2) as [->|]; [|done]. by rewrite E.
  - destruct (String.eqb_spec k k2) as [->|]; [|exact IH]. by rewrite E.
Qed.
Lemma map_get_in k m v : map_get k m = Some v -> (k, v) ∈ m.
Proof.
  induction m as [|[k2 v2] m IH]; cbn [map_get]; [done|].
  destruct (String.eqb_spec k k2) as [->|]; [intros [= ->]; left|intros H; right; by apply IH].
Qed.
Lemma map_get_is_Some k m : is_Some (map_get k m) <-> k ∈ map fst m.
Proof.
  induction m as [|[k2 v2] m IH]; cbn [map_get map fst].
  - split; [by intros [? ?]|by intros ?%elem_of_nil].
  - rewrite elem_of_cons, <- IH. destruct (String.eqb_spec k k2) as [->|Hk]; [|naive_solver].
    split; [by left|intros _; eauto].
Qed.
Lemma map_get_fmap (f : any -> any) m k : map_get k (map (fun kv => (fst kv, f (snd kv))) m) = f <$> map_get k m.
Proof.
  induction m as [|[k2 v2] m IH]; cbn [map map_get fst snd]; [done|]. by destruct (String.eqb k k2).
Qed.

Lemma as_map_Some v m : as_map v = Some m -> v = Some (AObj m).
Proof. destruct v as [[]|]; intros H; try discriminate H. by injection H as ->. Qed.
Lemma as_list_Some v l : as_list v = Some l -> v = Some (AArr l).
Proof. destruct v as [[]|]; intros H; try discriminate H. by injection H as ->. Qed.

(** ** Examples *)

(** The keys come back in the order of the source and a member written twice
    once; what is new is last.  The members of [z] are sorted: its first value
    in the source has none. *)
Example ordered_printing :
  let raw := "{" +s+ q "z" +s+ ":1," +s+ q "required" +s+ ":[" +s+ q "q" +s+ "," +s+ q "b" +s+ "]," +s+ q "z" +s+ ":{" +s+ q "y" +s+
             ":1," +s+ q "x" +s+ ":2}," +s+ q "a" +s+ ":[]}" in
  option_map (fun m => marshalPreservingKeyOrder raw (option_map (map_set "a<b" (AStr "ü")) m)) (Unmarshal_map (fun n => n) raw) =
  Some ("{" +s+ q "z" +s+ ":{" +s+ q "x" +s+ ":2," +s+ q "y" +s+ ":1}," +s+ q "required" +s+ ":[" +s+ q "q" +s+ "," +s+ q "b" +s+
        "]," +s+ q "a" +s+ ":[]," +s+ q "a\u003cb" +s+ ":" +s+ q "ü" +s+ "}").
Proof. vm_compute. done. Qed.

(** An item the source does not declare may come in front of one it declares:
    the rank of the undeclared counts the distinct names, that of the declared
    the position, repetitions included. *)
Example undeclared_in_front :
  reorder_strings ["a"; "b"] [Some "x"; Some "x"; Some "x"; Some "b"] = ["a"; "b"].
Proof. vm_compute. done. Qed.
