(* ===== verification/RefExpand.v ===== *)
(** * Inlining the definitions of a schema

    Models the [refExpander] of llm/schema_sanitize.go: references to the
    definitions of a document are replaced by the definitions, cycles by a
    fallback, under a weight budget.  The walk over one definition is
    structural; going into a definition lowers [levels], of which one more than
    there are definitions are enough ([resolve_name_levels]). *)

From Stdlib Require Import ZArith Lia Ascii.
From stdpp Require Import base gmap strings list sorting.
From S2P Require Import Prelude GoStr Paths Json AnyJson.
Open Scope sp4rk_scope.
Open Scope Z_scope.

(** ** The expander *)

Definition maxSchemaExpansionNodes : Z := 50000.

Record refExpansion := mkExpansion {
  re_schema : list (string * any);
  re_names : gset string;
  re_breaks : gset string;
  re_nodes : Z;
}.
(** The table of definitions is a parameter of the operations. *)
Record refExpander := mkExpander {
  ex_memo : gmap string refExpansion;
  ex_names : option (gset string);
  ex_nodes : Z;
}.
Definition new_expander : refExpander := mkExpander ∅ None 0.

Definition safeFallbackSchema : list (string * any) :=
  [("type", AStr "object"); ("properties", AObj []); ("required", AArr []); ("additionalProperties", ABool false)].

(** [splitRefPath]: the segments behind [#]. *)
Definition splitRefPath (ref : string) : list string :=
  match ref with
  | String c rest =>
      if Ascii.eqb c "#" then
        let trimmed := if has_prefix rest "/" then str_drop 1 rest else rest in
        List.filter (fun part => negb (String.eqb part "")) (pieces trimmed)
      else []
  | "" => []
  end.

(** [extractDefs] *)
Definition extractDefs (schema : list (string * any)) : option (list (string * any)) :=
  match as_map (map_get "$defs" schema) with
  | Some d => Some d
  | None => as_map (map_get "definitions" schema)
  end.

(** [resolveRef], one level. *)
Definition resolveRef (schema : list (string * any)) (defs : option (list (string * any))) : list (string * any) :=
  match as_string (map_get "$ref" schema), defs with
  | Some ref, Some defs =>
      match last (splitRefPath ref) with
      | None => safeFallbackSchema
      | Some name => default safeFallbackSchema (as_map (map_get name defs))
      end
  | _, _ => schema
  end.

Definition charge (n : Z) (e : refExpander) : refExpander := mkExpander (ex_memo e) (ex_names e) (ex_nodes e + n).
Definition within_budget (e : refExpander) : bool := ex_nodes e <=? maxSchemaExpansionNodes.
Definition fallbackCharged (e : refExpander) : list (string * any) * refExpander := (safeFallbackSchema, charge 4 e).
Definition recordNames (names : gset string) (e : refExpander) : refExpander :=
  mkExpander (ex_memo e) (Some (default ∅ (ex_names e) ∪ names)) (ex_nodes e).
Definition canSplice (exp : refExpansion) (visited : gset string) : bool :=
  bool_decide (visited ∩ re_names exp ⊆ re_breaks exp) &&
  (size (visited ∩ re_names exp) =? size (re_breaks exp))%nat.

(** A list under a state. *)
Section state.
Context {A B S : Type} (f : A -> S -> B * S).
Fixpoint map_state (l : list A) (s : S) : list B * S :=
  match l with
  | [] => ([], s)
  | x :: l => let '(y, s1) := f x s in let '(ys, s2) := map_state l s1 in (y :: ys, s2)
  end.
End state.

Section defs.
Variable defs : option (list (string * any)).

(** What a reference is for the walk: [None]: the object is no reference. *)
Definition reference (m : list (string * any)) : option (option string) :=
  match as_string (map_get "$ref" m), defs with
  | Some ref, Some _ => Some (last (splitRefPath ref))
  | _, _ => None
  end.

(** [cloneSchema] and [cloneValue]; [resolve] resolves the name of a
    definition. *)
Section clone.
Variable resolve : string -> gset string -> refExpander -> list (string * any) * refExpander.

Fixpoint cloneValue (v : any) (visited : gset string) (e : refExpander) : any * refExpander :=
  match v with
  | AObj m =>
      match reference m with
      | Some None => let '(m', e') := fallbackCharged e in (AObj m', e')
      | Some (Some name) => let '(m', e') := resolve name visited e in (AObj m', e')
      | None =>
          let '(m', e') := map_state (fun kv e => let '(k, v) := kv in let '(v', e') := cloneValue v visited e in ((k, v'), e'))
            m (charge 1 e) in
          (AObj m', e')
      end
  | AArr l =>
      let '(l', e') := map_state (fun v e => cloneValue v visited e) l (charge (1 + Z.of_nat (length l)) e) in
      (AArr l', e')
  | AStr s => (v, charge ((slen s + 63) / 64) e)
  | _ => (v, charge 1 e)
  end.
Definition cloneSchema (m : list (string * any)) (visited : gset string) (e : refExpander) : list (string * any) * refExpander :=
  let '(v, e') := cloneValue (AObj m) visited e in (default [] (as_map (Some v)), e').

(** [expandDefinition]; [visited] has the name. *)
Definition expandDefinition (name : string) (visited : gset string) (e : refExpander) : list (string * any) * refExpander :=
  let savedNames := ex_names e in
  let savedNodes := ex_nodes e in
  let e := mkExpander (ex_memo e) (Some {[ name ]}) (ex_nodes e) in
  let '(resolved, e) :=
    match as_map (map_get name (default [] defs)) with
    | Some defMap => cloneSchema defMap visited e
    | None => fallbackCharged e
    end in
  let names := default ∅ (ex_names e) in
  let memo :=
    match ex_memo e !! name with
    | Some _ => ex_memo e
    | None => <[name := mkExpansion resolved names (visited ∩ names) (ex_nodes e - savedNodes)]> (ex_memo e)
    end in
  (resolved, mkExpander memo ((fun s => s ∪ names) <$> savedNames) (ex_nodes e)).

Definition resolve_step (name : string) (visited : gset string) (e : refExpander) : list (string * any) * refExpander :=
  if bool_decide (name ∈ visited) then fallbackCharged e
  else match (match ex_memo e !! name with Some exp => if canSplice exp visited then Some exp else None | None => None end) with
  | Some exp =>
      let e := charge (re_nodes exp) (recordNames (re_names exp) e) in
      if within_budget e then (re_schema exp, e) else fallbackCharged e
  | None =>
      if maxSchemaExpansionNodes <=? ex_nodes e then fallbackCharged e
      else expandDefinition name ({[ name ]} ∪ visited) e
  end.
End clone.

(** [resolveRefName] *)
Fixpoint resolveRefName (levels : nat) : string -> gset string -> refExpander -> list (string * any) * refExpander :=
  match levels with
  | O => fun _ _ e => fallbackCharged e
  | S levels => resolve_step (resolveRefName levels)
  end.
Definition levels_enough : nat := S (length (default [] defs)).

(** [resolveDocument]: the table itself is not walked. *)
Definition is_table (k : string) : bool := String.eqb k "$defs" || String.eqb k "definitions".
Definition without_table (schema : list (string * any)) : list (string * any) :=
  if map_has "$ref" schema then schema else map_without is_table schema.
Definition resolveDocument (schema : list (string * any)) (e : refExpander) : list (string * any) * refExpander :=
  cloneSchema (resolveRefName levels_enough) (without_table schema) ∅ e.
Definition resolveRefRecursive (schema : list (string * any)) : list (string * any) := fst (resolveDocument schema new_expander).

(** ** The reference: inlining at every site, without memo or budget *)

Section inline.
Variable resolve : string -> gset string -> list (string * any).
Fixpoint inline_value (v : any) (visited : gset string) : any :=
  match v with
  | AObj m =>
      AObj (match reference m with
      | Some None => safeFallbackSchema
      | Some (Some name) => resolve name visited
      | None => map (fun kv => let '(k, v) := kv in (k, inline_value v visited)) m
      end)
  | AArr l => AArr (map (fun v => inline_value v visited) l)
  | _ => v
  end.
Definition inline_step (name : string) (visited : gset string) : list (string * any) :=
  if bool_decide (name ∈ visited) then safeFallbackSchema
  else match as_map (map_get name (default [] defs)) with
  | Some defMap => default [] (as_map (Some (inline_value (AObj defMap) ({[ name ]} ∪ visited))))
  | None => safeFallbackSchema
  end.
End inline.
Fixpoint inline_name (levels : nat) : string -> gset string -> list (string * any) :=
  match levels with
  | O => fun _ _ => safeFallbackSchema
  | S levels => inline_step (inline_name levels)
  end.
Definition inline_document (schema : list (string * any)) : list (string * any) :=
  default [] (as_map (Some (inline_value (inline_name levels_enough) (AObj (without_table schema)) ∅))).
End defs.

(** ** Weights *)

(** The weight the budget counts; the members' keys are not counted. *)
Fixpoint weight (v : any) : Z :=
  match v with
  | AObj m => 1 + fold_right (fun kv acc => (let '(_, v) := kv in weight v) + acc) 0 m
  | AArr l => 1 + Z.of_nat (length l) + fold_right (fun v acc => weight v + acc) 0 l
  | AStr s => (slen s + 63) / 64
  | _ => 1
  end.
Definition weights (l : list any) : Z := fold_right (fun v acc => weight v + acc) 0 l.
Lemma weight_obj m : weight (AObj m) = 1 + weights (map snd m).
Proof. cbn [weight]. f_equal. induction m as [|[k v] m IH]; [done|]. cbn [fold_right map snd weights]. unfold weights in IH. by rewrite IH. Qed.
Lemma weight_arr l : weight (AArr l) = 1 + Z.of_nat (length l) + weights l.
Proof. done. Qed.
Lemma weight_nonneg v : 0 <= weight v.
Proof.
  assert (Hs : forall l, Forall (fun v => 0 <= weight v) l -> 0 <= weights l).
  { induction 1; cbn [weights fold_right]; [lia|]. unfold weights in *. lia. }
  induction v as [| | |s|l IH|m IH] using any_ind; try (cbn; lia).
  - cbn [weight]. pose proof (slen_nonneg s). apply Z.div_pos; lia.
  - rewrite weight_arr. specialize (Hs l IH). lia.
  - rewrite weight_obj. assert (0 <= weights (map snd m)) by (apply Hs, (List.Forall_map snd (fun v => 0 <= weight v)), IH). lia.
Qed.
Lemma weights_nonneg l : 0 <= weights l.
Proof. induction l as [|v l IH]; cbn [weights fold_right]; [lia|]. pose proof (weight_nonneg v). unfold weights in IH. lia. Qed.
Lemma weight_obj_pos m : 1 <= weight (AObj m).
Proof. rewrite weight_obj. pose proof (weights_nonneg (map snd m)). lia. Qed.

(** ** The memo is never used *)

(** Every remembered expansion lists its own name among its breaks: the path it
    was computed with held that name already. *)
Definition memo_ok (e : refExpander) : Prop := forall name exp, ex_memo e !! name = Some exp -> name ∈ re_breaks exp.

Lemma canSplice_own_name exp visited name : name ∈ re_breaks exp -> name ∉ visited -> canSplice exp visited = false.
Proof.
  intros Hb Hv. unfold canSplice. apply andb_false_iff. destruct (bool_decide_reflect (visited ∩ re_names exp ⊆ re_breaks exp)) as [Hs|]; [right|by left].
  apply Nat.eqb_neq. intros Hsize. apply Hv.
  assert (He : visited ∩ re_names exp = re_breaks exp) by (apply set_subseteq_size_eq; [done|lia]). set_solver.
Qed.

(** *** Threading a state through a list *)

Inductive threaded {A B S} (R : A -> S -> B -> S -> Prop) : list A -> S -> list B -> S -> Prop :=
| threaded_nil s : threaded R [] s [] s
| threaded_cons x l y ys s s1 s2 : R x s y s1 -> threaded R l s1 ys s2 -> threaded R (x :: l) s (y :: ys) s2.
Lemma map_state_threaded {A B S} (f : A -> S -> B * S) (I : S -> Prop) (R : A -> S -> B -> S -> Prop) l s :
  Forall (fun x => forall s, I s -> let '(y, s') := f x s in R x s y s' /\ I s') l -> I s ->
  let '(ys, s') := map_state f l s in threaded R l s ys s' /\ I s'.
Proof.
  intros Hl. revert s. induction Hl as [|x l Hx _ IH]; intros s Hs; cbn [map_state]; [split; [constructor|done]|].
  specialize (Hx s Hs). destruct (f x s) as [y s1]. destruct Hx as [Hx Hs1]. specialize (IH s1 Hs1).
  destruct (map_state f l s1) as [ys s2]. destruct IH as [IH Hs2]. split; [by econstructor|done].
Qed.

(** ** What one walk does *)

Section walk.
Variable defs : option (list (string * any)).

(** The weight of the definitions that are not on the path. *)
Definition weight_off (visited : gset string) : Z :=
  weights (map snd (List.filter (fun kv => negb (bool_decide (kv.1 ∈ visited))) (default [] defs))).

(** No object is a reference. *)
Inductive ref_free : any -> Prop :=
| free_scalar v : (if v is AObj _ then False else if v is AArr _ then False else True) -> ref_free v
| free_arr l : Forall ref_free l -> ref_free (AArr l)
| free_obj m : reference defs m = None -> Forall (fun kv => ref_free kv.2) m -> ref_free (AObj m).

(** From the weight [n] charged before to the weight [n'] charged after, with a
    value [v] of the source, its inlining [u] and the result [v']. *)
Record charged (visited : gset string) (bound : Z) (u : any) (n : Z) (v' : any) (n' : Z) : Prop := {
  ch_weight : 4 * weight v' <= 5 * (n' - n);
  ch_over : maxSchemaExpansionNodes <= n -> n' <= n + bound;
  ch_under : n <= maxSchemaExpansionNodes -> n' <= maxSchemaExpansionNodes + bound + 4 * weight_off visited;
  ch_exact : n + weight u <= maxSchemaExpansionNodes -> v' = u /\ n' <= n + weight u;
  ch_free : ref_free v';
}.

(** The invariant of a walk: the memo is as it should be, and the names [N] are
    recorded. *)
Definition sound (N : gset string) (e : refExpander) : Prop := memo_ok e /\ N ⊆ default ∅ (ex_names e).
Definition resolves_ok (resolve : string -> gset string -> refExpander -> list (string * any) * refExpander)
    (inline : string -> gset string -> list (string * any)) : Prop :=
  forall N name visited e, sound N e ->
    let '(m, e') := resolve name visited e in
    charged visited 4 (AObj (inline name visited)) (ex_nodes e) (AObj m) (ex_nodes e') /\ sound N e'.

Lemma weight_off_nonneg visited : 0 <= weight_off visited.
Proof. apply weights_nonneg. Qed.

Lemma charge_memo N n e : sound N e -> sound N (charge n e).
Proof. done. Qed.
Lemma fallback_free : ref_free (AObj safeFallbackSchema).
Proof.
  apply free_obj; [unfold reference; done|]. repeat constructor; simpl; done.
Qed.
Lemma fallback_charged visited u e :
  1 <= weight u -> (ex_nodes e + weight u <= maxSchemaExpansionNodes -> u = AObj safeFallbackSchema) ->
  charged visited 4 u (ex_nodes e) (AObj safeFallbackSchema) (ex_nodes e + 4).
Proof.
  intros Hw Hu. pose proof (weight_off_nonneg visited). split; try lia.
  - change (weight (AObj safeFallbackSchema)) with 5. lia.
  - intros Hx. rewrite (Hu Hx) in *. split; [done|]. change (weight (AObj safeFallbackSchema)) with 5. lia.
  - exact fallback_free.
Qed.

(** Lists of values. *)
Lemma charged_list visited (g : any -> any) (vs : list any) n n' vs' :
  threaded (fun v n v' n' => charged visited (4 * weight v) (g v) n v' n') vs n vs' n' ->
  4 * weights vs' <= 5 * (n' - n) /\ length vs' = length vs /\
  (maxSchemaExpansionNodes <= n -> n' <= n + 4 * weights vs) /\
  (n <= maxSchemaExpansionNodes -> n' <= maxSchemaExpansionNodes + 4 * weights vs + 4 * weight_off visited) /\
  (n + weights (map g vs) <= maxSchemaExpansionNodes -> vs' = map g vs /\ n' <= n + weights (map g vs)) /\ Forall ref_free vs'.
Proof.
  intros H. pose proof (weight_off_nonneg visited).
  induction H as [n|v vs v' vs' n n1 n2 [c1 c2 c3 c4 c5] _ (Hw & Hlen & Ho & Hu & Hex & Hf)].
  { unfold weights. cbn [map fold_right length]. split_and!; try done; try lia. intros ?. split; [done|lia]. }
  pose proof (weights_nonneg vs) as P1. pose proof (weights_nonneg (map g vs)) as P2.
  pose proof (weight_nonneg v) as P3. pose proof (weight_nonneg (g v)) as P4.
  cbn [map length]. unfold weights in *. cbn [fold_right length] in *. split_and!.
  - lia.
  - by rewrite Hlen.
  - intros Hn. specialize (c2 Hn). pose proof (weight_nonneg v'). pose proof (weights_nonneg vs'). specialize (Ho ltac:(lia)). lia.
  - intros Hn. specialize (c3 Hn). destruct (Z.le_ge_cases n1 maxSchemaExpansionNodes) as [Hn1|Hn1]; [specialize (Hu Hn1)|specialize (Ho ltac:(lia))]; lia.
  - intros Hn. destruct (c4 ltac:(lia)) as [-> Hn1]. destruct (Hex ltac:(lia)) as [-> Hn2]. split; [done|lia].
  - by constructor.
Qed.

(** *** One value *)

Lemma reference_clone m m' :
  map fst m' = map fst m -> Forall2 (fun kv kv' => as_string (Some kv'.2) = as_string (Some kv.2)) m m' ->
  reference defs m = None -> reference defs m' = None.
Proof.
  intros Hk Hv. unfold reference. destruct defs as [d|]; [|intros _; by destruct (as_string (map_get "$ref" m'))].
  assert (E : as_string (map_get "$ref" m') = as_string (map_get "$ref" m)).
  { revert Hk. induction Hv as [|[k v] [k' v'] m m' H _ IH]; intros Hk; [done|].
    injection Hk as -> Hk. cbn [map_get]. destruct (String.eqb "$ref" k); [exact H|by apply IH]. }
  by rewrite E.
Qed.

(** Threading through the members of an object threads through their values. *)
Lemma threaded_members {S} (R : any -> S -> any -> S -> Prop) (m : list (string * any)) s m' s' :
  threaded (fun kv s kv' s' => kv'.1 = kv.1 /\ R kv.2 s kv'.2 s') m s m' s' ->
  map fst m' = map fst m /\ threaded R (map snd m) s (map snd m') s'.
Proof.
  induction 1 as [s|kv m kv' m' s s1 s2 [Hk Hr] _ [IH1 IH2]]; [split; [done|constructor]|].
  cbn [map]. split; [by rewrite Hk, IH1|by econstructor].
Qed.
Lemma threaded_nodes {A B} (f : A -> any) (f' : B -> any) (R : any -> Z -> any -> Z -> Prop) l e l' e' :
  threaded (fun a e b e' => R (f a) (ex_nodes e) (f' b) (ex_nodes e')) l e l' e' ->
  threaded R (map f l) (ex_nodes e) (map f' l') (ex_nodes e').
Proof. induction 1; cbn [map]; econstructor; eauto. Qed.
Lemma threaded_impl {A B S} (R R' : A -> S -> B -> S -> Prop) l s l' s' :
  (forall x s y s', R x s y s' -> R' x s y s') -> threaded R l s l' s' -> threaded R' l s l' s'.
Proof. intros H. induction 1; econstructor; eauto. Qed.
Lemma threaded_Forall2 {A B S} (R : A -> S -> B -> S -> Prop) (P : A -> B -> Prop) l s l' s' :
  (forall x s y s', R x s y s' -> P x y) -> threaded R l s l' s' -> Forall2 P l l'.
Proof. intros H. induction 1; constructor; eauto. Qed.

Section clone.
Variable resolve : string -> gset string -> refExpander -> list (string * any) * refExpander.
Variable inline : string -> gset string -> list (string * any).
Hypothesis resolve_ok : resolves_ok resolve inline.

(** What the clone of a value keeps of its shape. *)
Definition cloned (visited : gset string) (v : any) (e : refExpander) (v' : any) (e' : refExpander) : Prop :=
  charged visited (4 * weight v) (inline_value defs inline v visited) (ex_nodes e) v' (ex_nodes e') /\
  as_string (Some v') = as_string (Some v).

Lemma charged_scalar visited v n :
  (if v is AObj _ then False else if v is AArr _ then False else True) -> inline_value defs inline v visited = v ->
  charged visited (4 * weight v) (inline_value defs inline v visited) n v (n + weight v).
Proof.
  intros Hs Hi. rewrite Hi. pose proof (weight_nonneg v). pose proof (weight_off_nonneg visited).
  split; try lia; [intros _; split; [done|lia]|by constructor].
Qed.
Lemma cloneValue_spec N v visited e :
  sound N e -> let '(v', e') := cloneValue defs resolve v visited e in cloned visited v e v' e' /\ sound N e'.
Proof.
  revert e. induction v as [|b|t|s|l IH|m IH] using any_ind; intros e He; cbn [cloneValue].
  1-4: (split; [split; [by apply charged_scalar|done]|done]).
  - pose proof (map_state_threaded (fun v e => cloneValue defs resolve v visited e) (sound N) (fun v e v' e' => cloned visited v e v' e') l
      (charge (1 + Z.of_nat (length l)) e)) as Ht.
    destruct (map_state _ l (charge _ e)) as [l' e'].
    destruct (Ht (Forall_impl _ _ _ IH (fun v H e He => H e He)) (charge_memo _ _ _ He)) as [Hth He']. clear Ht.
    split; [|done]. split; [|done].
    apply (threaded_impl _ (fun v e v' e' => charged visited (4 * weight v) (inline_value defs inline v visited) (ex_nodes e) v' (ex_nodes e'))) in Hth; [|intros ???? H; exact (proj1 H)].
    apply (threaded_nodes id id (fun v n v' n' => charged visited (4 * weight v) (inline_value defs inline v visited) n v' n')) in Hth.
    rewrite !map_id in Hth. apply charged_list in Hth as (H1 & Hlen & H2 & H3 & H4 & H5).
    cbn [ex_nodes charge inline_value] in *. pose proof (weights_nonneg l). pose proof (weights_nonneg (map (fun v => inline_value defs inline v visited) l)).
    pose proof (weight_off_nonneg visited). split; rewrite ?weight_arr, ?length_map, ?Hlen.
    + lia.
    + intros Hn. specialize (H2 ltac:(lia)). lia.
    + intros Hn. destruct (Z.le_ge_cases (ex_nodes e + (1 + Z.of_nat (length l))) maxSchemaExpansionNodes) as [Hn1|Hn1];
        [specialize (H3 Hn1)|specialize (H2 ltac:(lia))]; lia.
    + intros Hn. destruct (H4 ltac:(lia)) as [-> Hn']. split; [done|lia].
    + by apply free_arr.
  - destruct (reference defs m) as [[name|]|] eqn:Er.
    + specialize (resolve_ok N name visited e He). destruct (resolve name visited e) as [m' e'].
      destruct resolve_ok as [[c1 c2 c3 c4 c5] He']. split; [|done]. split; [|done]. cbn [inline_value]. rewrite Er.
      pose proof (weight_obj_pos m). split; [done|intros Hn; specialize (c2 Hn); lia|intros Hn; specialize (c3 Hn); lia|exact c4|done].
    + unfold fallbackCharged. split; [|done]. split; [|done]. cbn [inline_value]. rewrite Er.
      destruct (fallback_charged visited (AObj safeFallbackSchema) e) as [c1 c2 c3 c4 c5]; [by vm_compute|done|].
      pose proof (weight_obj_pos m). cbn [ex_nodes charge]. split; [done|intros Hn; specialize (c2 Hn); lia|intros Hn; specialize (c3 Hn); lia|exact c4|done].
    + pose proof (map_state_threaded (fun kv e => let '(k, v) := kv in let '(v', e') := cloneValue defs resolve v visited e in ((k, v'), e'))
        (sound N) (fun kv e kv' e' => kv'.1 = kv.1 /\ cloned visited kv.2 e kv'.2 e') m (charge 1 e)) as Ht.
      destruct (map_state _ m (charge 1 e)) as [m' e'].
      destruct Ht as [Hth He']; [|done|].
      { eapply Forall_impl; [exact IH|]. intros [k v] H e1 He1. cbn [snd] in *. specialize (H e1 He1).
        destruct (cloneValue defs resolve v visited e1) as [v' e2]. destruct H as [H H']. by split. }
      split; [|done]. split; [|done].
      assert (Hsh : Forall2 (fun kv kv' => as_string (Some kv'.2) = as_string (Some kv.2)) m m').
      { eapply threaded_Forall2; [|exact Hth]. intros ???? [_ [_ H]]. exact H. }
      apply threaded_members in Hth as [Hk Hth].
      apply (threaded_impl _ (fun v e v' e' => charged visited (4 * weight v) (inline_value defs inline v visited) (ex_nodes e) v' (ex_nodes e'))) in Hth; [|intros ???? H; exact (proj1 H)].
      apply (threaded_nodes id id (fun v n v' n' => charged visited (4 * weight v) (inline_value defs inline v visited) n v' n')) in Hth.
      rewrite !map_id in Hth. apply charged_list in Hth as (H1 & Hlen & H2 & H3 & H4 & H5).
      cbn [ex_nodes charge inline_value] in *. rewrite Er.
      assert (Hm : map snd (map (fun kv => let '(k, v) := kv in (k, inline_value defs inline v visited)) m) =
        map (fun v => inline_value defs inline v visited) (map snd m)).
      { rewrite !map_map. apply map_ext. by intros [??]. }
      pose proof (weights_nonneg (map snd m)). pose proof (weights_nonneg (map (fun v => inline_value defs inline v visited) (map snd m))).
      pose proof (weight_off_nonneg visited). split; rewrite ?weight_obj, ?Hm.
      * lia.
      * intros Hn. specialize (H2 ltac:(lia)). lia.
      * intros Hn. destruct (Z.le_ge_cases (ex_nodes e + 1) maxSchemaExpansionNodes) as [Hn1|Hn1];
          [specialize (H3 Hn1)|specialize (H2 ltac:(lia))]; lia.
      * intros Hn. destruct (H4 ltac:(lia)) as [Hv Hn']. split; [|lia]. f_equal.
        clear -Hk Hv. revert m' Hk Hv. induction m as [|[k v] m IH]; intros [|[k' v'] m'] Hk Hv; try done.
        cbn [map fst snd] in *. injection Hk as -> Hk. injection Hv as -> Hv. f_equal. by apply IH.
      * apply free_obj; [by eapply reference_clone|]. by apply (List.Forall_map snd ref_free).
Qed.
End clone.

(** *** One reference *)

Lemma weight_off_name visited name def :
  name ∉ visited -> as_map (map_get name (default [] defs)) = Some def ->
  weight (AObj def) + weight_off ({[ name ]} ∪ visited) <= weight_off visited.
Proof.
  intros Hv Hd. unfold weight_off. induction (default [] defs) as [|[k v] l IH]; [done|]. cbn [map_get] in Hd. cbn [List.filter fst].
  assert (Hle : forall l : list (string * any), weights (map snd (List.filter (fun kv => negb (bool_decide (kv.1 ∈ ({[ name ]} ∪ visited)))) l)) <=
    weights (map snd (List.filter (fun kv => negb (bool_decide (kv.1 ∈ visited))) l))).
  { intros l'. induction l' as [|[k' v'] l' IHl]; [done|]. cbn [List.filter fst]. pose proof (weight_nonneg v').
    destruct (bool_decide_reflect (k' ∈ visited)) as [H1|H1]; destruct (bool_decide_reflect (k' ∈ {[ name ]} ∪ visited)) as [H2|H2];
      cbn [negb]; try (exfalso; apply H2; by apply elem_of_union_r); unfold weights in *; cbn [map snd fold_right]; lia. }
  destruct (String.eqb_spec name k) as [<-|Hk].
  - destruct v; try done. injection Hd as ->. rewrite (bool_decide_eq_false_2 _ Hv), bool_decide_eq_true_2 by by apply elem_of_union_l, elem_of_singleton.
    cbn [negb map snd]. specialize (Hle l). unfold weights in *. cbn [fold_right]. lia.
  - specialize (IH Hd). pose proof (weight_nonneg v).
    destruct (bool_decide_reflect (k ∈ visited)) as [H1|H1].
    + rewrite bool_decide_eq_true_2 by by apply elem_of_union_r. cbn [negb]. done.
    + rewrite bool_decide_eq_false_2 by (rewrite elem_of_union, elem_of_singleton; intros [->|?]; done).
      cbn [negb map snd]. unfold weights in *. cbn [fold_right]. lia.
Qed.

Lemma inline_value_obj inline m visited : exists m', inline_value defs inline (AObj m) visited = AObj m'.
Proof. eexists. reflexivity. Qed.

Section step.
Variable resolve : string -> gset string -> refExpander -> list (string * any) * refExpander.
Variable inline : string -> gset string -> list (string * any).
Hypothesis resolve_ok : resolves_ok resolve inline.

Lemma cloneSchema_spec N m visited e :
  sound N e -> let '(m', e') := cloneSchema defs resolve m visited e in
    charged visited (4 * weight (AObj m)) (inline_value defs inline (AObj m) visited) (ex_nodes e) (AObj m') (ex_nodes e') /\ sound N e'.
Proof.
  intros He. unfold cloneSchema. pose proof (cloneValue_spec resolve inline resolve_ok N (AObj m) visited e He) as H.
  destruct (cloneValue defs resolve (AObj m) visited e) as [v e'] eqn:E.
  assert (Hobj : exists m', v = AObj m').
  { cbn [cloneValue] in E. destruct (reference defs m) as [[name|]|]; [destruct (resolve _ _ _)|cbn in E|destruct (map_state _ _ _)];
      injection E as <- <-; eauto. }
  destruct Hobj as [m' ->]. cbn [as_map default]. destruct H as [[H _] He']. done.
Qed.

Lemma expandDefinition_spec N name visited e :
  sound N e -> name ∉ visited -> ex_nodes e < maxSchemaExpansionNodes ->
  let '(m, e') := expandDefinition defs resolve name ({[ name ]} ∪ visited) e in
  charged visited 4 (AObj (inline_step defs inline name visited)) (ex_nodes e) (AObj m) (ex_nodes e') /\ sound N e'.
Proof.
  intros He Hv Hn. unfold expandDefinition, inline_step. rewrite (bool_decide_eq_false_2 _ Hv).
  set (e0 := mkExpander (ex_memo e) (Some {[ name ]}) (ex_nodes e)).
  assert (Hend : forall m e', sound {[ name ]} e' ->
    sound N (mkExpander (match ex_memo e' !! name with Some _ => ex_memo e' | None =>
      <[name := mkExpansion m (default ∅ (ex_names e')) (({[ name ]} ∪ visited) ∩ default ∅ (ex_names e')) (ex_nodes e' - ex_nodes e)]> (ex_memo e') end)
      ((fun s => s ∪ default ∅ (ex_names e')) <$> ex_names e) (ex_nodes e'))).
  { intros m e' [He' Hin]. split.
    - intros k exp. cbn [ex_memo]. destruct (ex_memo e' !! name) eqn:Em; [apply He'|].
      intros [[<- <-]|[_ H]]%lookup_insert_Some; [|by eapply He']. cbn [re_breaks].
      apply elem_of_intersection. split; [by apply elem_of_union_l, elem_of_singleton|]. by apply Hin, elem_of_singleton.
    - cbn [ex_names]. destruct He as [_ He]. destruct (ex_names e) as [s|]; cbn in *; [|done].
      intros x Hx. apply elem_of_union_l. by apply He. }
  assert (He0 : sound {[ name ]} e0) by (split; [apply He|done]).
  destruct (as_map (map_get name (default [] defs))) as [def|] eqn:Ed.
  - pose proof (cloneSchema_spec {[ name ]} def ({[ name ]} ∪ visited) e0 He0) as Hc.
    destruct (cloneSchema defs resolve def _ e0) as [m e'] eqn:Ec. destruct Hc as [[c1 c2 c3 c4 c5] He'].
    split; [|by apply Hend].
    pose proof (weight_off_name visited name def Hv Ed). cbn [ex_nodes e0] in *.
    destruct (inline_value_obj inline def ({[ name ]} ∪ visited)) as [u Hu]. rewrite Hu in *. cbn [as_map default].
    split; [done|lia|intros _; specialize (c3 ltac:(lia)); lia|exact c4|done].
  - unfold fallbackCharged. split; [|by apply (Hend safeFallbackSchema (charge 4 e0))].
    apply fallback_charged; [by vm_compute|done].
Qed.
Lemma resolve_step_ok : resolves_ok (resolve_step defs resolve) (inline_step defs inline).
Proof.
  intros N name visited e He. unfold resolve_step. destruct (bool_decide_reflect (name ∈ visited)) as [Hv|Hv].
  { unfold fallbackCharged. split; [|done]. unfold inline_step. rewrite (bool_decide_eq_true_2 _ Hv).
    by apply fallback_charged; [vm_compute|]. }
  assert (E : match ex_memo e !! name with Some exp => if canSplice exp visited then Some exp else None | None => None end = None).
  { destruct (ex_memo e !! name) as [exp|] eqn:Em; [|done]. rewrite (canSplice_own_name exp visited name); [done| |done].
    by apply (proj1 He name exp). }
  rewrite E. destruct (Z.leb_spec maxSchemaExpansionNodes (ex_nodes e)) as [Hn|Hn]; [|by apply expandDefinition_spec].
  unfold fallbackCharged. split; [|done]. pose proof (weight_obj_pos (inline_step defs inline name visited)).
  apply fallback_charged; [done|lia].
Qed.
End step.

Lemma resolveRefName_ok levels : resolves_ok (resolveRefName defs levels) (inline_name defs levels).
Proof.
  induction levels as [|levels IH]; [|by apply resolve_step_ok].
  intros N name visited e He. unfold resolveRefName, fallbackCharged. split; [|done]. by apply fallback_charged; [vm_compute|].
Qed.
End walk.

(** ** The whole document *)

Lemma weights_filter (f : string * any -> bool) m : weights (map snd (List.filter f m)) <= weights (map snd m).
Proof.
  induction m as [|kv m IH]; [done|]. cbn [List.filter]. pose proof (weight_nonneg kv.2).
  destruct (f kv); unfold weights in *; cbn [map fold_right]; lia.
Qed.
Lemma without_table_weight schema : weight (AObj (without_table schema)) <= weight (AObj schema).
Proof. unfold without_table. destruct (map_has _ _); [lia|]. rewrite !weight_obj. pose proof (weights_filter (fun kv => negb (is_table kv.1)) schema). unfold map_without. lia. Qed.

Lemma resolveDocument_charged defs schema :
  charged defs ∅ (4 * weight (AObj (without_table schema))) (AObj (inline_document defs schema)) 0
    (AObj (resolveRefRecursive defs schema)) (ex_nodes (snd (resolveDocument defs schema new_expander))).
Proof.
  pose proof (cloneSchema_spec defs (resolveRefName defs (levels_enough defs)) (inline_name defs (levels_enough defs))
    (resolveRefName_ok defs _) ∅ (without_table schema) ∅ new_expander) as H.
  unfold resolveRefRecursive, resolveDocument. destruct (cloneSchema _ _ _ _ _) as [m e].
  destruct H as [H _]; [by split|]. unfold inline_document. cbn [inline_value as_map default fst snd] in *. exact H.
Qed.

Lemma resolve_ref_free defs schema : ref_free defs (AObj (resolveRefRecursive defs schema)).
Proof. apply (ch_free _ _ _ _ _ _ _ (resolveDocument_charged defs schema)). Qed.

(** *** One more level than there are definitions is enough *)

Lemma cloneValue_ext defs r1 r2 v visited e :
  (forall name e, r1 name visited e = r2 name visited e) -> cloneValue defs r1 v visited e = cloneValue defs r2 v visited e.
Proof.
  intros Hr. revert e. induction v as [|b|t|s|l IH|m IH] using any_ind; intros e; cbn [cloneValue]; try done.
  - assert (H : forall e, map_state (fun v e => cloneValue defs r1 v visited e) l e = map_state (fun v e => cloneValue defs r2 v visited e) l e).
    { induction IH as [|v l Hv _ IHl]; intros e1; [done|]. cbn [map_state]. rewrite Hv. destruct (cloneValue _ _ _ _ _). by rewrite IHl. }
    by rewrite H.
  - destruct (reference defs m) as [[name|]|]; [by rewrite Hr|done|].
    assert (H : forall e, map_state (fun kv e => let '(k, v) := kv in let '(v', e') := cloneValue defs r1 v visited e in ((k, v'), e')) m e =
      map_state (fun kv e => let '(k, v) := kv in let '(v', e') := cloneValue defs r2 v visited e in ((k, v'), e')) m e).
    { induction IH as [|[k v] m Hv _ IHm]; intros e1; [done|]. cbn [map_state snd] in *. rewrite Hv. destruct (cloneValue _ _ _ _ _). by rewrite IHm. }
    by rewrite H.
Qed.
Lemma inline_value_ext defs r1 r2 v visited :
  (forall name, r1 name visited = r2 name visited) -> inline_value defs r1 v visited = inline_value defs r2 v visited.
Proof.
  intros Hr. induction v as [|b|t|s|l IH|m IH] using any_ind; cbn [inline_value]; try done.
  - f_equal. by apply map_ext_Forall.
  - f_equal. destruct (reference defs m) as [[name|]|]; [by rewrite Hr|done|]. apply map_ext_Forall.
    eapply Forall_impl; [exact IH|]. intros [k v] E. cbn [snd] in E. by rewrite E.
Qed.

Definition names_off (defs : option (list (string * any))) (visited : gset string) : gset string :=
  list_to_set (map fst (default [] defs)) ∖ visited.
Lemma names_off_step defs visited name def :
  name ∉ visited -> map_get name (default [] defs) = Some def ->
  (size (names_off defs ({[ name ]} ∪ visited)) < size (names_off defs visited))%nat.
Proof.
  intros Hv Hd. apply subset_size. unfold names_off.
  assert (Hin : name ∈ (list_to_set (map fst (default [] defs)) : gset string)).
  { apply elem_of_list_to_set, map_get_is_Some. eauto. }
  split; [set_solver|]. intros H. assert (Hn : name ∈ (list_to_set (map fst (default [] defs)) : gset string) ∖ visited) by set_solver.
  apply H in Hn. set_solver.
Qed.

Lemma resolveRefName_levels defs n name visited e :
  (size (names_off defs visited) < n)%nat -> resolveRefName defs (S n) name visited e = resolveRefName defs n name visited e.
Proof.
  revert name visited e. induction n as [|n IH]; intros name visited e Hn; [lia|].
  change (resolve_step defs (resolveRefName defs (S n)) name visited e = resolve_step defs (resolveRefName defs n) name visited e).
  unfold resolve_step. case_bool_decide as Hv; [done|]. destruct (match ex_memo e !! name with Some _ => _ | None => _ end); [done|].
  destruct (_ <=? _); [done|]. unfold expandDefinition.
  destruct (as_map (map_get name (default [] defs))) as [def|] eqn:Ed; [|done].
  destruct (map_get name (default [] defs)) as [d|] eqn:Eg; [|done].
  pose proof (names_off_step defs visited name d Hv Eg) as Hlt. unfold cloneSchema.
  by rewrite (cloneValue_ext defs (resolveRefName defs (S n)) (resolveRefName defs n)) by (intros; apply IH; lia).
Qed.
Lemma inline_name_levels defs n name visited :
  (size (names_off defs visited) < n)%nat -> inline_name defs (S n) name visited = inline_name defs n name visited.
Proof.
  revert name visited. induction n as [|n IH]; intros name visited Hn; [lia|].
  change (inline_step defs (inline_name defs (S n)) name visited = inline_step defs (inline_name defs n) name visited).
  unfold inline_step. case_bool_decide as Hv; [done|].
  destruct (as_map (map_get name (default [] defs))) as [def|] eqn:Ed; [|done].
  destruct (map_get name (default [] defs)) as [d|] eqn:Eg; [|done].
  pose proof (names_off_step defs visited name d Hv Eg) as Hlt.
  by rewrite (inline_value_ext defs (inline_name defs (S n)) (inline_name defs n)) by (intros; apply IH; lia).
Qed.
Lemma names_off_bound defs visited : (size (names_off defs visited) < levels_enough defs)%nat.
Proof.
  unfold levels_enough, names_off. apply Nat.lt_succ_r.
  etransitivity; [apply subseteq_size, subseteq_difference_l; reflexivity|]. etransitivity; [apply size_list_to_set_le|]. by rewrite length_map.
Qed.
Lemma inline_name_enough defs n name visited :
  (levels_enough defs <= n)%nat -> inline_name defs n name visited = inline_name defs (levels_enough defs) name visited.
Proof.
  intros Hn. induction Hn as [|n Hn IH]; [done|]. rewrite inline_name_levels; [done|]. pose proof (names_off_bound defs visited). lia.
Qed.
Lemma resolveRefName_enough defs n name visited e :
  (levels_enough defs <= n)%nat -> resolveRefName defs n name visited e = resolveRefName defs (levels_enough defs) name visited e.
Proof.
  intros Hn. induction Hn as [|n Hn IH]; [done|]. rewrite resolveRefName_levels; [done|]. pose proof (names_off_bound defs visited). lia.
Qed.

(** C26: inlining the definitions of a document: what comes out holds no
    reference, and its weight is bounded by the budget and the weight of the
    document, whatever the references do.  When the document with every
    reference replaced by its definition, one by one, is within the budget, that
    document is the result: cycles are cut where a definition meets itself, and
    nothing else is.  No definition is entered twice on one path, so that more
    levels change nothing. *)
Theorem resolveRefRecursive_contract defs schema :
  let result := AObj (resolveRefRecursive defs schema) in
  let inlined := AObj (inline_document defs schema) in
  ref_free defs result /\
  4 * weight result <= 5 * (maxSchemaExpansionNodes + 4 * (weight (AObj schema) + weights (map snd (default [] defs)))) /\
  (weight inlined <= maxSchemaExpansionNodes -> result = inlined) /\
  (forall levels name visited e, (levels_enough defs <= levels)%nat ->
    resolveRefName defs levels name visited e = resolveRefName defs (levels_enough defs) name visited e /\
    inline_name defs levels name visited = inline_name defs (levels_enough defs) name visited).
Proof.
  cbv zeta. destruct (resolveDocument_charged defs schema) as [c1 c2 c3 c4 c5].
  split; [done|]. split; [|split].
  - specialize (c3 ltac:(by vm_compute)). pose proof (without_table_weight schema). unfold weight_off in c3.
    match type of c3 with context [List.filter ?f ?l] => pose proof (weights_filter f l) end. lia.
  - intros H. by apply c4.
  - intros levels name visited e Hl. split; [by apply resolveRefName_enough|by apply inline_name_enough].
Qed.

(** ** Examples *)

Definition ref_to (name : string) : any := AObj [("$ref", AStr ("#/$defs/" +s+ name))].
Definition object_of (props : list (string * any)) : any := AObj [("type", AStr "object"); ("properties", AObj props)].

(** A definition that refers to itself is cut where it meets itself, one that is
    missing at once. *)
Definition tree_defs : list (string * any) := [("Tree", object_of [("left", ref_to "Tree"); ("tag", ref_to "Tag")])].
Definition tree_document : list (string * any) := [("$defs", AObj tree_defs); ("type", AStr "object"); ("properties", AObj [("root", ref_to "Tree")])].
Example tree_inlined :
  resolveRefRecursive (extractDefs tree_document) tree_document =
  [("type", AStr "object"); ("properties", AObj [("root", object_of [("left", AObj safeFallbackSchema); ("tag", AObj safeFallbackSchema)])])].
Proof. vm_compute. done. Qed.

Lemma resolveRefRecursive_contract_witness :
  weight (AObj (inline_document (extractDefs tree_document) tree_document)) <= maxSchemaExpansionNodes /\
  AObj (resolveRefRecursive (extractDefs tree_document) tree_document) = AObj (inline_document (extractDefs tree_document) tree_document).
Proof.
  assert (H : weight (AObj (inline_document (extractDefs tree_document) tree_document)) <= maxSchemaExpansionNodes) by by vm_compute.
  split; [exact H|].
  exact (proj1 (proj2 (proj2 (resolveRefRecursive_contract (extractDefs tree_document) tree_document))) H).
Defined.

(** The memo is dead: at a site that is not on the path of the name, a
    remembered expansion of it is never taken. *)
Lemma memo_unused e name exp visited :
  memo_ok e -> ex_memo e !! name = Some exp -> name ∉ visited -> canSplice exp visited = false.
Proof. intros He Hm Hv. apply (canSplice_own_name exp visited name); [by apply (He name)|done]. Qed.

(** A chain of definitions, each with the next one twice. *)
Definition level_name (i : nat) : string := "D" +s+ itoa (Z.of_nat i).
Fixpoint diamond_defs (levels : nat) (leaf : string) : list (string * any) :=
  match levels with
  | O => [(level_name 0, object_of [(leaf, AObj [("type", AStr "string")])])]
  | S n => (level_name (S n), object_of [("left", ref_to (level_name n)); ("right", ref_to (level_name n))]) :: diamond_defs n leaf
  end.
Fixpoint key_bytes (v : any) : Z :=
  match v with
  | AObj m => fold_right (fun kv acc => (let '(k, v) := kv in slen k + key_bytes v) + acc) 0 m
  | AArr l => fold_right (fun v acc => key_bytes v + acc) 0 l
  | _ => 0
  end.
(** Keys are not charged: a definition with a key of two thousand bytes, in
    thirty-two places, comes out as more than 64000 bytes at a charge of 255,
    while a string of that length is charged 32 in each place.  At twelve levels,
    still within the budget, it is eight million. *)
Example keys_not_charged :
  let defs := diamond_defs 5 (join "" (repeat "k" 2000)) in
  let document := [("properties", AObj [("root", ref_to (level_name 5))])] in
  let '(m, e) := resolveDocument (Some defs) document new_expander in
  ex_nodes e = 255 /\ 64000 < key_bytes (AObj m).
Proof. vm_compute. done. Qed.
