(* ===== verification/Sanitize.v ===== *)
(** * Tool schemas for the providers

    Models llm/schema_sanitize.go behind the inlining of references
    ([RefExpand]) and llm/schema_google.go: the forms of a JSON schema that
    OpenAI, Anthropic and Google accept.  The recursion is over schemas that are
    inlined again at every level; its fuel is the height of the first inlining
    ([Sanitize.fuel_of]), which the theorems show to be enough. *)

From Stdlib Require Import ZArith Lia Ascii.
From stdpp Require Import base gmap strings list sorting.
From S2P Require Import Prelude GoStr Fence Json AnyJson RefExpand.
Open Scope sp4rk_scope.

Notation schema := (list (string * any)) (only parsing).

(** ** Shared *)

Definition getTypes (typeVal : option any) : list string :=
  match typeVal with
  | Some (AStr s) => [s]
  | Some (AArr l) => omap (fun t => as_string (Some t)) l
  | _ => []
  end.
Definition toStringSlice (val : option any) : list string := omap (fun t => as_string (Some t)) (default [] (as_list val)).

Definition strings_any (l : list string) : any := AArr (map AStr l).
Definition sorted_names (l : list string) : list string := merge_sort str_le (remove_dups l).

(** A schema at a place where one is expected; anything else stays. *)
Definition in_map (f : schema -> schema) (v : any) : any := match v with AObj m => AObj (f m) | _ => v end.
(** The schemas under [properties]. *)
Definition map_properties (f : schema -> schema) (result : schema) : schema :=
  match as_map (map_get "properties" result) with
  | Some props => map_set "properties" (AObj (map (fun kv => (fst kv, in_map f (snd kv))) props)) result
  | None => result
  end.
Definition map_items (f : schema -> schema) (result : schema) : schema :=
  match map_get "items" result with
  | Some (AObj m) => map_set "items" (AObj (f m)) result
  | Some (AArr l) => map_set "items" (AArr (map (in_map f) l)) result
  | _ => result
  end.
Definition map_list (f : schema -> schema) (result : schema) (key : string) : schema :=
  match as_list (map_get key result) with
  | Some l => map_set key (AArr (map (in_map f) l)) result
  | None => result
  end.

(** ** OpenAI *)

Definition openai_forbidden (k : string) : bool :=
  bool_decide (k ∈ ["$schema"; "$id"; "$comment"; "$defs"; "definitions"; "default"; "examples"]).

Definition is_empty_type (types : list string) : bool := bool_decide (types = [""]).
Definition infer_openai_type (result : schema) : schema * list string :=
  let types := getTypes (map_get "type" result) in
  let '(result, types) :=
    if (bool_decide (types = []) || is_empty_type types) && (map_has "properties" result || map_has "required" result)
    then (map_set "type" (AStr "object") result, ["object"]) else (result, types) in
  (if is_empty_type types then map_delete "type" result else result, types).

Definition declared_required (props : schema) (required : list any) : list string :=
  List.filter (fun r => map_has r props) (omap (fun t => as_string (Some t)) required).
Definition object_constraints (strict : bool) (result : schema) : schema :=
  let result := map_set "additionalProperties" (ABool false) result in
  let result := match as_map (map_get "properties" result) with Some _ => result | None => map_set "properties" (AObj []) result end in
  let props := default [] (as_map (map_get "properties" result)) in
  if strict then
    map_set "required"
      (if bool_decide (props = []) then AArr []
       else strings_any (sorted_names (declared_required props (default [] (as_list (map_get "required" result))) ++ map fst props)))
      result
  else
    match as_list (map_get "required" result) with
    | Some required => map_set "required" (strings_any (sorted_names (declared_required props required))) result
    | None => result
    end.

Definition openai_level (strict : bool) (s : schema) : schema :=
  let '(result, types) := infer_openai_type (map_without openai_forbidden s) in
  if bool_decide (types = ["object"]) then object_constraints strict result else result.
Definition composition_keys : list string := ["anyOf"; "oneOf"; "allOf"].
Fixpoint sanitizeOpenAISchemaWithDefs (fuel : nat) (defs : option schema) (strict : bool) (s : schema) : schema :=
  match fuel with
  | O => s
  | S fuel =>
      let f := sanitizeOpenAISchemaWithDefs fuel defs strict in
      fold_left (map_list f) composition_keys (map_items f (map_properties f (openai_level strict (resolveRefRecursive defs s))))
  end.

(** The height of a value. *)
Fixpoint height (v : any) : nat :=
  match v with
  | AObj m => S (fold_right (fun kv acc => Nat.max (let '(_, v) := kv in height v) acc) O m)
  | AArr l => S (fold_right (fun v acc => Nat.max (height v) acc) O l)
  | _ => 1
  end.
Definition fuel_of (defs : option schema) (s : schema) : nat := height (AObj (resolveRefRecursive defs s)).

Section texts.
Variable float_text : string -> string.

Definition sanitize_text (f : option schema -> schema -> schema) (raw : string) : string :=
  if String.eqb raw "" then raw
  else match Unmarshal_map float_text raw with
  | None => raw
  | Some m => marshalPreservingKeyOrder raw ((fun m => f (extractDefs m) m) <$> m)
  end.
Definition sanitizeSchemaForOpenAI (raw : string) (strict : bool) : string :=
  sanitize_text (fun defs m => sanitizeOpenAISchemaWithDefs (fuel_of defs m) defs strict m) raw.
Definition SanitizeSchemaForOpenAI (raw : string) : string := sanitizeSchemaForOpenAI raw true.
Definition SanitizeSchemaForOpenAINonStrict (raw : string) : string := sanitizeSchemaForOpenAI raw false.
End texts.

(** ** Merging *)

Definition copySchemaExcluding (s : schema) (excludeKey : string) : schema := map_delete excludeKey s.
(** Members that are there already win. *)
Definition add_absent (dst src : schema) : schema :=
  fold_left (fun acc kv => if map_has (fst kv) acc then acc else map_set (fst kv) (snd kv) acc) src dst.
Definition merge_member (result : schema) (kv : string * any) : schema :=
  let '(k, v) := kv in
  if String.eqb k "properties" then
    match as_map (Some v) with
    | Some srcProps => map_set "properties" (AObj (add_absent (default [] (as_map (map_get "properties" result))) srcProps)) result
    | None => result
    end
  else if String.eqb k "required" then
    let dstReq := toStringSlice (map_get "required" result) in
    let more := fold_left (fun acc r => if bool_decide (r ∈ acc) then acc else acc ++ [r]) (toStringSlice (Some v)) dstReq in
    map_set "required" (strings_any more) result
  else if map_has k result then result else map_set k v result.
Definition mergeSchemas (dst src : schema) : schema := fold_left merge_member src dst.

(** ** Anthropic *)

Definition merge_all (defs : option schema) (merged : schema) (entries : list any) : schema :=
  fold_left (fun merged entry =>
    match entry with AObj item => mergeSchemas merged (resolveRef item defs) | _ => merged end) entries merged.
Definition first_variant (key : string) (defs : option schema) (s : schema) : option schema :=
  match as_list (map_get key s) with
  | Some (AObj item :: _) => Some (map_delete key (mergeSchemas s (resolveRef item defs)))
  | _ => None
  end.
Definition variants (s : schema) (defs : option schema) : schema :=
  match first_variant "oneOf" defs s with
  | Some merged => merged
  | None => default s (first_variant "anyOf" defs s)
  end.
Definition flattenAnthropicComposition (s : schema) (defs : option schema) : schema :=
  match as_list (map_get "allOf" s) with
  | Some [AObj item] => map_delete "allOf" (mergeSchemas s (resolveRef item defs))
  | Some (e1 :: e2 :: rest) => merge_all defs (copySchemaExcluding s "allOf") (e1 :: e2 :: rest)
  | _ => variants s defs
  end.

Definition anthropic_unsupported (k : string) : bool :=
  bool_decide (k ∈ ["$schema"; "$id"; "$comment"; "$defs"; "definitions"; "patternProperties"; "$ref"]).
Definition infer_anthropic_type (result : schema) : schema :=
  if bool_decide (getTypes (map_get "type" result) = []) && (map_has "properties" result || map_has "required" result)
  then map_set "type" (AStr "object") result else result.
Definition anthropic_level (defs : option schema) (s : schema) : schema :=
  infer_anthropic_type (map_without anthropic_unsupported (flattenAnthropicComposition s defs)).
Definition map_value (f : schema -> schema) (result : schema) (key : string) : schema :=
  match as_map (map_get key result) with Some m => map_set key (AObj (f m)) result | None => result end.
Fixpoint sanitizeAnthropicSchema (fuel : nat) (defs : option schema) (s : schema) : schema :=
  match fuel with
  | O => s
  | S fuel =>
      let f := sanitizeAnthropicSchema fuel defs in
      fold_left (map_list f) composition_keys
        (fold_left (map_value f) ["additionalProperties"] (map_items f (map_properties f (anthropic_level defs (resolveRefRecursive defs s)))))
  end.
Definition SanitizeSchemaForAnthropic (float_text : string -> string) : string -> string :=
  sanitize_text float_text (fun defs m => sanitizeAnthropicSchema (fuel_of defs m) defs m).

(** ** Google *)

Definition googleUnsupportedSchemaKeywords : list string :=
  ["$anchor"; "$comment"; "$defs"; "$dynamicAnchor"; "$dynamicRef"; "$id"; "$ref"; "$schema"; "$vocabulary";
   "additionalProperties"; "const"; "contains"; "contentMediaType"; "contentSchema"; "default"; "definitions";
   "dependencies"; "dependentRequired"; "dependentSchemas"; "else"; "examples"; "exclusiveMaximum"; "exclusiveMinimum";
   "if"; "multipleOf"; "not"; "patternProperties"; "propertyNames"; "strict"; "then"; "unevaluatedItems";
   "unevaluatedProperties"; "uniqueItems"].
Definition google_unsupported (k : string) : bool := bool_decide (k ∈ googleUnsupportedSchemaKeywords).
Definition googleScalarTypes : list string := ["boolean"; "integer"; "number"; "string"].

Definition flattenGoogleComposition (s : schema) : schema :=
  let s :=
    match as_list (map_get "allOf" s) with
    | Some (e :: rest) =>
        fold_left (fun merged entry => match entry with AObj item => mergeSchemas merged item | _ => merged end) (e :: rest)
          (copySchemaExcluding s "allOf")
    | _ => s
    end in
  match as_list (map_get "oneOf" s) with
  | Some oneOf => map_delete "oneOf" (if map_has "anyOf" s then s else map_set "anyOf" (AArr oneOf) s)
  | None => s
  end.
Definition chosen_type (nonNull : list string) : string :=
  match nonNull with
  | [] => "string"
  | first :: _ => if bool_decide ("string" ∈ nonNull) then "string" else first
  end.
Definition collapseGoogleTypeUnion (s : schema) : schema :=
  match as_list (map_get "type" s) with
  | None => s
  | Some l =>
      let members := omap (fun t => as_string (Some t)) l in
      let chosen := chosen_type (List.filter (fun t => negb (String.eqb t "null")) members) in
      let s := map_set "type" (AStr chosen) s in
      let s := if bool_decide ("null" ∈ members)
        then match map_get "nullable" s with Some (ABool true) => s | _ => map_set "nullable" (ABool true) s end else s in
      if bool_decide (chosen ∈ googleScalarTypes) then map_delete "items" s else s
  end.
Definition google_level (s : schema) : schema :=
  collapseGoogleTypeUnion (map_without google_unsupported (flattenGoogleComposition s)).
Fixpoint sanitizeGoogleSchema (fuel : nat) (s : schema) : schema :=
  match fuel with
  | O => s
  | S fuel => let f := sanitizeGoogleSchema fuel in map_list f (map_items f (map_properties f (google_level s))) "anyOf"
  end.
Definition SanitizeSchemaForGoogle (float_text : string -> string) (raw : string) : string :=
  if String.eqb raw "" then raw
  else
    let sanitized := SanitizeSchemaForOpenAINonStrict float_text raw in
    if String.eqb sanitized "" then sanitized
    else match Unmarshal_map float_text sanitized with
    | Some (Some m) => marshalPreservingKeyOrder raw (Some (sanitizeGoogleSchema (height (AObj m)) m))
    | _ => sanitized
    end.

(** ** Examples *)

Definition obj (l : list (string * string)) : string := "{" +s+ join "," (map (fun kv => q (fst kv) +s+ ":" +s+ snd kv) l) +s+ "}".
Definition arr (l : list string) : string := "[" +s+ join "," l +s+ "]".
Definition of_type (t : string) : string := obj [("type", q t)].

Example openai_examples :
  let raw := obj [("type", q "object"); ("properties", obj [("path", of_type "string"); ("lines", obj [("$ref", q "#/$defs/L")])]);
                  ("required", arr [q "path"; q "gone"]); ("$defs", obj [("L", obj [("properties", obj []); ("default", "3")])])] in
  SanitizeSchemaForOpenAINonStrict (fun n => n) raw =
    obj [("type", q "object"); ("properties", obj [("path", of_type "string");
           ("lines", obj [("additionalProperties", "false"); ("properties", obj []); ("type", q "object")])]);
         ("required", arr [q "path"]); ("additionalProperties", "false")] /\
  SanitizeSchemaForOpenAI (fun n => n) raw =
    obj [("type", q "object"); ("properties", obj [("path", of_type "string");
           ("lines", obj [("additionalProperties", "false"); ("properties", obj []); ("required", "[]"); ("type", q "object")])]);
         ("required", arr [q "path"; q "lines"]); ("additionalProperties", "false")].
Proof. vm_compute. done. Qed.

(** A nullable object is not closed. *)
Example nullable_object_open :
  let raw := obj [("type", arr [q "object"; q "null"]); ("properties", obj [("a", of_type "string")])] in
  SanitizeSchemaForOpenAI (fun n => n) raw = raw.
Proof. vm_compute. done. Qed.

Example google_examples :
  SanitizeSchemaForGoogle (fun n => n)
    (obj [("type", arr [q "array"; q "null"; q "string"]); ("items", of_type "string"); ("uniqueItems", "true")]) =
  obj [("type", q "string"); ("nullable", "true")].
Proof. vm_compute. done. Qed.
