(* ===== verification/SchemaMerge.v ===== *)
(** * What merging schemas gives

    The specification of one level of the forms in [Sanitize], by the members of
    the schema before and after: what an [allOf] and the first variant of a
    [oneOf] contribute, and that everything the level does not name is kept. *)

From Stdlib Require Import ZArith Lia Ascii.
From stdpp Require Import base gmap strings list sorting.
From S2P Require Import Prelude GoStr Fence Json AnyJson RefExpand Sanitize.
Open Scope sp4rk_scope.

Notation schema := (list (string * any)) (only parsing).

(** ** Contributions *)

(** The schema of a property, and the names that are required. *)
Definition prop (p : string) (s : schema) : option any := as_map (map_get "properties" s) ≫= map_get p.
Definition names (v : any) : list string := match v with AArr l => omap (fun t => as_string (Some t)) l | _ => [] end.
Definition required_names (s : schema) : list string := default [] (names <$> map_get "required" s).
(** The first of the schemas that has it. *)
Definition first {A} (f : schema -> option A) (parts : list schema) : option A := head (omap f parts).

(** [r] is [base] with [items] merged into it.  A member that is not an object of
    properties or a list of names is that of the first schema that has it; every
    property of one is a property of the result and every one of the result
    comes from one, with the schema the first gives it (the members of an object
    have different names); the required names are those of all. *)
Record conjoined (base : schema) (items : list schema) (r : schema) : Prop := mkConjoined {
  cj_member k : k <> "properties" -> k <> "required" -> map_get k r = first (map_get k) (base :: items);
  cj_kept p v : prop p base = Some v -> prop p r = Some v;
  cj_given p item : item ∈ items -> is_Some (prop p item) -> is_Some (prop p r);
  cj_property p : (forall item, item ∈ items -> NoDup (map fst item)) -> prop p r = first (prop p) (base :: items);
  cj_from p v : prop p r = Some v ->
    prop p base = Some v \/ exists item m, item ∈ items /\ ("properties", AObj m) ∈ item /\ map_get p m = Some v;
  cj_required n : n ∈ required_names r <->
    n ∈ required_names base \/ exists item v, item ∈ items /\ ("required", v) ∈ item /\ n ∈ names v;
}.

Lemma names_strings l : names (strings_any l) = l.
Proof. unfold names, strings_any. induction l as [|s l IH]; [done|]. exact (f_equal (cons s) IH). Qed.
Lemma toStringSlice_names v : toStringSlice (Some v) = names v.
Proof. by destruct v. Qed.
Lemma toStringSlice_required s : toStringSlice (map_get "required" s) = required_names s.
Proof. unfold required_names. destruct (map_get "required" s) as [v|]; [by rewrite toStringSlice_names|done]. Qed.

(** *** One member *)

Lemma map_has_get k m : map_has k m = if map_get k m is Some _ then true else false.
Proof. done. Qed.
Lemma get_add_absent p dst src : map_get p (add_absent dst src) = match map_get p dst with Some v => Some v | None => map_get p src end.
Proof.
  unfold add_absent. revert dst. induction src as [|[k v] src IH]; intros dst; cbn [fold_left fst snd map_get]; [by destruct (map_get p dst)|].
  rewrite IH, map_has_get. destruct (map_get k dst) as [w|] eqn:E.
  - destruct (map_get p dst) eqn:E2; [done|]. destruct (String.eqb_spec p k) as [->|]; [congruence|done].
  - rewrite map_get_set. destruct (String.eqb_spec p k) as [->|]; [by rewrite E|done].
Qed.
Lemma names_union n (l acc : list string) :
  n ∈ fold_left (fun acc r => if bool_decide (r ∈ acc) then acc else acc ++ [r]) l acc <-> n ∈ acc \/ n ∈ l.
Proof.
  revert acc. induction l as [|x l IH]; intros acc; cbn [fold_left].
  - split; [by left|by intros [?|?%elem_of_nil]].
  - rewrite IH, elem_of_cons. case_bool_decide as Hx; [naive_solver|]. rewrite elem_of_app, list_elem_of_singleton. naive_solver.
Qed.
Lemma merge_member_get k s k' v :
  k <> "properties" -> k <> "required" ->
  map_get k (merge_member s (k', v)) = match map_get k s with Some w => Some w | None => if String.eqb k k' then Some v else None end.
Proof.
  intros H1 H2. unfold merge_member. assert (Hs : map_get k s = match map_get k s with Some w => Some w | None => None end) by by destruct (map_get k s).
  destruct (String.eqb_spec k' "properties") as [->|H3].
  { rewrite (proj2 (String.eqb_neq k "properties")) by done. destruct (as_map (Some v)); [|done].
    by rewrite map_get_set, (proj2 (String.eqb_neq k "properties")). }
  destruct (String.eqb_spec k' "required") as [->|H4].
  { by rewrite map_get_set, (proj2 (String.eqb_neq k "required")). }
  rewrite map_has_get. destruct (map_get k' s) as [w|] eqn:E; destruct (String.eqb_spec k k') as [->|Hne]; try (by rewrite ?E).
  - by rewrite map_get_set, String.eqb_refl, E.
  - by rewrite map_get_set, (proj2 (String.eqb_neq k k')).
Qed.
Lemma merge_member_prop p s k' v :
  prop p (merge_member s (k', v)) =
  match prop p s with Some w => Some w | None => if String.eqb k' "properties" then as_map (Some v) ≫= map_get p else None end.
Proof.
  assert (Hs : prop p s = match prop p s with Some w => Some w | None => None end) by by destruct (prop p s).
  unfold merge_member. destruct (String.eqb_spec k' "properties") as [->|H3].
  { destruct (as_map (Some v)) as [src|]; [|exact Hs]. unfold prop at 1. rewrite map_get_set, String.eqb_refl. cbn [as_map mbind option_bind].
    rewrite get_add_absent. unfold prop. by destruct (as_map (map_get "properties" s)). }
  assert (Hsame : forall r, map_get "properties" r = map_get "properties" s -> prop p r = match prop p s with Some w => Some w | None => None end).
  { intros r Hr. unfold prop. rewrite Hr. exact Hs. }
  destruct (String.eqb_spec k' "required") as [->|H4]; [apply Hsame; by rewrite map_get_set|].
  destruct (map_has k' s); [by apply Hsame|]. apply Hsame. rewrite map_get_set, (proj2 (String.eqb_neq "properties" k')) by congruence. done.
Qed.
Lemma required_set v s : required_names (map_set "required" v s) = names v.
Proof. unfold required_names. by rewrite map_get_set. Qed.
Lemma merge_member_required n s k' v :
  n ∈ required_names (merge_member s (k', v)) <-> n ∈ required_names s \/ k' = "required" /\ n ∈ names v.
Proof.
  unfold merge_member. destruct (String.eqb_spec k' "properties") as [->|H3].
  { transitivity (n ∈ required_names s); [|naive_solver]. destruct (as_map (Some v)); [|done]. unfold required_names. by rewrite map_get_set. }
  destruct (String.eqb_spec k' "required") as [->|H4].
  { rewrite required_set, names_strings, names_union, toStringSlice_required, toStringSlice_names. naive_solver. }
  transitivity (n ∈ required_names s); [|naive_solver]. destruct (map_has k' s); [done|]. unfold required_names.
  by rewrite map_get_set, (proj2 (String.eqb_neq "required" k')) by congruence.
Qed.

(** *** One schema, and several *)

Lemma first_cons {A} (f : schema -> option A) s parts : first f (s :: parts) = match f s with Some v => Some v | None => first f parts end.
Proof. unfold first. cbn. by destruct (f s). Qed.
Lemma merge_get k dst src :
  k <> "properties" -> k <> "required" ->
  map_get k (mergeSchemas dst src) = match map_get k dst with Some v => Some v | None => map_get k src end.
Proof.
  intros H1 H2. unfold mergeSchemas. revert dst. induction src as [|[k' v] src IH]; intros dst; cbn [fold_left map_get]; [by destruct (map_get k dst)|].
  rewrite IH, merge_member_get by done. destruct (map_get k dst); [done|]. by destruct (String.eqb k k').
Qed.
Lemma merge_prop_kept p v dst src : prop p dst = Some v -> prop p (mergeSchemas dst src) = Some v.
Proof.
  unfold mergeSchemas. revert dst. induction src as [|[k' v'] src IH]; intros dst H; [done|]. apply IH. by rewrite merge_member_prop, H.
Qed.
Lemma merge_prop_new p v dst src : prop p dst = None -> prop p src = Some v -> prop p (mergeSchemas dst src) = Some v.
Proof.
  unfold mergeSchemas. revert dst. induction src as [|[k' v'] src IH]; intros dst Hd Hs; [done|]. cbn [fold_left].
  unfold prop in Hs. cbn [map_get] in Hs. destruct (String.eqb_spec "properties" k') as [<-|Hne].
  - apply merge_prop_kept. rewrite merge_member_prop, Hd. exact Hs.
  - apply IH; [|exact Hs]. rewrite merge_member_prop, Hd. by rewrite (proj2 (String.eqb_neq k' "properties")) by congruence.
Qed.
Lemma merge_prop_from p v dst src :
  prop p (mergeSchemas dst src) = Some v -> prop p dst = Some v \/ exists m, ("properties", AObj m) ∈ src /\ map_get p m = Some v.
Proof.
  unfold mergeSchemas. revert dst. induction src as [|[k' v'] src IH]; intros dst; cbn [fold_left]; [by left|].
  intros [H|(m & Hm & Hp)]%IH; [|right; exists m; split; [by right|done]].
  rewrite merge_member_prop in H. destruct (prop p dst) as [w|]; [by left|]. right.
  destruct (String.eqb_spec k' "properties") as [->|]; [|done]. destruct v' as [| | | | |m]; try done. exists m. split; [by left|exact H].
Qed.
Lemma merge_required n dst src :
  n ∈ required_names (mergeSchemas dst src) <-> n ∈ required_names dst \/ exists v, ("required", v) ∈ src /\ n ∈ names v.
Proof.
  unfold mergeSchemas. revert dst. induction src as [|[k' v'] src IH]; intros dst; cbn [fold_left].
  - split; [by left|]. intros [?|(v & ?%elem_of_nil & _)]; done.
  - rewrite IH, merge_member_required. setoid_rewrite elem_of_cons. naive_solver.
Qed.

Lemma merge_prop_exact p dst src :
  NoDup (map fst src) -> prop p (mergeSchemas dst src) = match prop p dst with Some v => Some v | None => prop p src end.
Proof.
  intros Hn. destruct (prop p dst) as [v|] eqn:Ed; [by apply merge_prop_kept|].
  destruct (prop p src) as [v|] eqn:Es; [by apply merge_prop_new|].
  destruct (prop p (mergeSchemas dst src)) as [v|] eqn:E; [|done]. exfalso.
  apply merge_prop_from in E as [E|(m & Hm & Hp)]; [congruence|].
  assert (Hg : map_get "properties" src = Some (AObj m)).
  { clear -Hn Hm. induction src as [|[k v] src IH]; [by apply elem_of_nil in Hm|]. cbn [map fst] in Hn. apply NoDup_cons in Hn as [Hk Hn].
    cbn [map_get]. apply elem_of_cons in Hm as [[= <- <-]|Hm]; [done|].
    destruct (String.eqb_spec "properties" k) as [<-|]; [|by apply IH]. destruct Hk. apply list_elem_of_fmap. by exists ("properties", AObj m). }
  unfold prop in Es. rewrite Hg in Es. cbn in Es. congruence.
Qed.

Lemma conjoined_fold base items : conjoined base items (fold_left mergeSchemas items base).
Proof.
  induction items as [|item items IH] using rev_ind.
  { split; cbn [fold_left].
    - intros k _ _. rewrite first_cons. by destruct (map_get k base).
    - done.
    - by intros p item ?%elem_of_nil.
    - intros p _. rewrite first_cons. by destruct (prop p base).
    - by left.
    - split; [by left|]. intros [?|(item & v & ?%elem_of_nil & _)]; done. }
  rewrite fold_left_app. cbn [fold_left]. set (r := fold_left mergeSchemas items base) in *. destruct IH as [H1 H2 H3 H4 H5 H6].
  assert (Hf : forall A (f : schema -> option A),
    first f (base :: items ++ [item]) = match first f (base :: items) with Some v => Some v | None => f item end).
  { intros A f. unfold first. rewrite app_comm_cons, omap_app. destruct (omap f (base :: items)); [cbn; by destruct (f item)|done]. }
  assert (Hin : forall x, x ∈ items ++ [item] <-> x ∈ items \/ x = item) by (intros x; by rewrite elem_of_app, list_elem_of_singleton).
  split.
  - intros k Hp Hr. by rewrite merge_get, H1, Hf.
  - intros p v H. by apply merge_prop_kept, H2.
  - intros p x [Hx| ->]%Hin Hs.
    + destruct (H3 p x Hx Hs) as [w Hw]. exists w. by apply merge_prop_kept.
    + destruct (prop p r) as [w|] eqn:E; [exists w; by apply merge_prop_kept|]. destruct Hs as [w Hw]. exists w. by apply merge_prop_new.
  - intros p Hn. rewrite merge_prop_exact by (apply Hn, Hin; by right). rewrite Hf, H4; [done|]. intros x Hx. apply Hn, Hin. by left.
  - intros p v [H|(m & Hm & Hp)]%merge_prop_from.
    + destruct (H5 p v H) as [?|(x & m & Hx & Hm)]; [by left|right]. exists x, m. split; [apply Hin; by left|done].
    + right. exists item, m. split; [apply Hin; by right|done].
  - intros n. rewrite merge_required, H6. setoid_rewrite Hin. naive_solver.
Qed.

(** ** Google *)

Definition objects (l : list any) : list schema := omap (fun v => as_map (Some v)) l.
(** A non-empty [allOf] is merged into the schema around it. *)
Definition allOf_merged (s r : schema) : Prop :=
  match map_get "allOf" s with
  | Some (AArr (e :: l)) => conjoined (map_delete "allOf" s) (objects (e :: l)) r
  | _ => r = s
  end.
(** The one type for a union: a string where one is allowed, else the first that
    is not null. *)
Definition one_type (members : list string) (t : string) : Prop :=
  if bool_decide ("string" ∈ members) then t = "string"
  else match List.filter (fun m => negb (String.eqb m "null")) members with [] => t = "string" | m :: _ => t = m end.
(** What a level makes of a schema whose [allOf] is merged, [s]. *)
Record google_from (s r : schema) : Prop := mkGoogle {
  gg_dropped k : google_unsupported k = true -> map_get k r = None;
  gg_kept k : google_unsupported k = false -> k ∉ ["type"; "nullable"; "items"; "oneOf"; "anyOf"] -> map_get k r = map_get k s;
  gg_oneOf : map_get "oneOf" r = match map_get "oneOf" s with Some (AArr _) => None | v => v end;
  gg_anyOf : map_get "anyOf" r =
    match map_get "anyOf" s, map_get "oneOf" s with Some v, _ => Some v | None, Some (AArr l) => Some (AArr l) | _, _ => None end;
  gg_type :
    match map_get "type" s with
    | Some (AArr l) =>
        exists t, map_get "type" r = Some (AStr t) /\ one_type (names (AArr l)) t /\
          map_get "nullable" r = (if bool_decide ("null" ∈ names (AArr l)) then Some (ABool true) else map_get "nullable" s) /\
          map_get "items" r = (if bool_decide (t ∈ ["boolean"; "integer"; "number"; "string"]) then None else map_get "items" s)
    | v => map_get "type" r = v /\ map_get "nullable" r = map_get "nullable" s /\ map_get "items" r = map_get "items" s
    end;
}.
Definition google_made (s r : schema) : Prop := exists s', allOf_merged s s' /\ google_from s' r.

Lemma fold_objects (g : schema -> schema) l base :
  (forall item, AObj item ∈ l -> g item = item) ->
  fold_left (fun merged entry => match entry with AObj item => mergeSchemas merged (g item) | _ => merged end) l base =
  fold_left mergeSchemas (objects l) base.
Proof.
  revert base. induction l as [|v l IH]; intros base Hg; [done|]. cbn [fold_left].
  rewrite IH by (intros item Hi; apply Hg; by right). destruct v as [| | | | |item]; try done.
  by rewrite (Hg item) by by left.
Qed.
Lemma allOf_flattened s :
  allOf_merged s (match as_list (map_get "allOf" s) with
    | Some (e :: rest) =>
        fold_left (fun merged entry => match entry with AObj item => mergeSchemas merged item | _ => merged end) (e :: rest)
          (copySchemaExcluding s "allOf")
    | _ => s
    end).
Proof.
  unfold allOf_merged. destruct (map_get "allOf" s) as [[| | | |[|e l]|]|]; cbn [as_list]; try done.
  rewrite (fold_objects (fun item => item)) by done. apply conjoined_fold.
Qed.
Lemma chosen_one members :
  one_type members (chosen_type (List.filter (fun t => negb (String.eqb t "null")) members)).
Proof.
  unfold one_type, chosen_type. set (nn := List.filter _ members).
  assert (Hs : "string" ∈ nn <-> "string" ∈ members).
  { unfold nn. rewrite elem_of_List_filter. split; [by intros [? _]|by split]. }
  rewrite (bool_decide_ext _ _ Hs). by destruct nn, (bool_decide ("string" ∈ members)).
Qed.
Lemma collapse_made s :
  let r := collapseGoogleTypeUnion s in
  match map_get "type" s with
  | Some (AArr l) =>
      exists t, map_get "type" r = Some (AStr t) /\ one_type (names (AArr l)) t /\
        map_get "nullable" r = (if bool_decide ("null" ∈ names (AArr l)) then Some (ABool true) else map_get "nullable" s) /\
        map_get "items" r = (if bool_decide (t ∈ ["boolean"; "integer"; "number"; "string"]) then None else map_get "items" s)
  | v => map_get "type" r = v /\ map_get "nullable" r = map_get "nullable" s /\ map_get "items" r = map_get "items" s
  end.
Proof.
  cbv zeta. unfold collapseGoogleTypeUnion. destruct (map_get "type" s) as [[| | | |l|]|] eqn:E; cbn [as_list]; try (rewrite E; done). cbv zeta.
  change (omap (fun t => as_string (Some t)) l) with (names (AArr l)). set (t := chosen_type _). exists t.
  set (s2 := if bool_decide ("null" ∈ names (AArr l)) then _ else _).
  assert (H2 : map_get "type" s2 = Some (AStr t) /\ map_get "items" s2 = map_get "items" s /\
    map_get "nullable" s2 = if bool_decide ("null" ∈ names (AArr l)) then Some (ABool true) else map_get "nullable" s).
  { unfold s2. destruct (bool_decide ("null" ∈ names (AArr l))); [|by rewrite !map_get_set].
    destruct (map_get "nullable" (map_set "type" (AStr t) s)) as [[|[]| | | |]|] eqn:En; rewrite ?En, !map_get_set; done. }
  destruct H2 as (H2 & H3 & H4). change (t ∈ googleScalarTypes) with (t ∈ ["boolean"; "integer"; "number"; "string"]).
  split; [|split; [apply chosen_one|]]; destruct (bool_decide (t ∈ ["boolean"; "integer"; "number"; "string"])); unfold map_delete;
    rewrite ?map_get_without; done.
Qed.
Lemma get_collapse s k : k ∉ ["type"; "nullable"; "items"] -> map_get k (collapseGoogleTypeUnion s) = map_get k s.
Proof.
  intros Hk. rewrite !elem_of_cons in Hk.
  assert (H1 : String.eqb k "type" = false) by (apply String.eqb_neq; tauto).
  assert (H2 : String.eqb k "nullable" = false) by (apply String.eqb_neq; tauto).
  assert (H3 : String.eqb "items" k = false) by (apply String.eqb_neq; intros <-; tauto).
  unfold collapseGoogleTypeUnion. destruct (as_list (map_get "type" s)) as [l|]; [|done]. cbv zeta.
  destruct (bool_decide (_ ∈ googleScalarTypes)), (bool_decide ("null" ∈ _)); unfold map_delete;
    try (destruct (map_get "nullable" _) as [[|[]| | | |]|]); by rewrite ?map_get_without, ?H3, ?map_get_set, ?H2, ?H1.
Qed.
Lemma rename_get k s :
  map_get k (match as_list (map_get "oneOf" s) with
    | Some l => map_delete "oneOf" (if map_has "anyOf" s then s else map_set "anyOf" (AArr l) s)
    | None => s
    end) =
  (if String.eqb k "oneOf" then match map_get "oneOf" s with Some (AArr _) => None | v => v end
   else if String.eqb k "anyOf" then
     match map_get "anyOf" s, map_get "oneOf" s with Some v, _ => Some v | None, Some (AArr l) => Some (AArr l) | _, _ => None end
   else map_get k s).
Proof.
  rewrite map_has_get. unfold map_delete.
  destruct (String.eqb_spec k "oneOf") as [->|H1]; [|destruct (String.eqb_spec k "anyOf") as [->|H2]];
    destruct (map_get "oneOf" s) as [[| | | |l|]|] eqn:E1; cbn [as_list]; rewrite ?map_get_without, ?E1; try done;
    try (by destruct (map_get "anyOf" s)); rewrite ?(proj2 (String.eqb_neq "oneOf" k)) by congruence;
    destruct (map_get "anyOf" s) eqn:E2; rewrite ?map_get_set, ?(proj2 (String.eqb_neq k "anyOf")) by done; done.
Qed.
Lemma google_level_made s : google_made s (google_level s).
Proof.
  unfold google_level, flattenGoogleComposition. cbv zeta. set (s' := match as_list (map_get "allOf" s) with Some (_ :: _) => _ | _ => _ end).
  exists s'. split; [apply allOf_flattened|]. set (r1 := match as_list (map_get "oneOf" s') with Some _ => _ | None => _ end).
  assert (Hr1 : forall k, map_get k (map_without google_unsupported r1) = if google_unsupported k then None else
    if String.eqb k "oneOf" then match map_get "oneOf" s' with Some (AArr _) => None | v => v end
    else if String.eqb k "anyOf" then
      match map_get "anyOf" s', map_get "oneOf" s' with Some v, _ => Some v | None, Some (AArr l) => Some (AArr l) | _, _ => None end
    else map_get k s') by (intros k; rewrite map_get_without; unfold r1; by rewrite rename_get).
  set (r2 := map_without google_unsupported r1) in *. pose proof (collapse_made r2) as Hc. cbv zeta in Hc.
  assert (Hout : forall k, k ∉ ["type"; "nullable"; "items"] -> map_get k (collapseGoogleTypeUnion r2) = map_get k r2) by apply get_collapse.
  split.
  - intros k Hk. rewrite Hout, Hr1, Hk; [done|]. rewrite !elem_of_cons. intros [->|[->|[->|?%elem_of_nil]]]; done.
  - intros k Hk Hn. rewrite !elem_of_cons in Hn. rewrite Hout, Hr1, Hk by (rewrite !elem_of_cons; tauto).
    rewrite (proj2 (String.eqb_neq k "oneOf")), (proj2 (String.eqb_neq k "anyOf")) by naive_solver. done.
  - rewrite Hout, Hr1 by (apply (bool_decide_unpack _); by vm_compute). done.
  - rewrite Hout, Hr1 by (apply (bool_decide_unpack _); by vm_compute). done.
  - pose proof (Hr1 "type") as Ht. pose proof (Hr1 "nullable") as Hn. pose proof (Hr1 "items") as Hi.
    change (google_unsupported "type") with false in Ht. change (google_unsupported "nullable") with false in Hn.
    change (google_unsupported "items") with false in Hi. cbn [String.eqb Ascii.eqb Bool.eqb] in Ht, Hn, Hi.
    rewrite Ht, Hn, Hi in Hc. exact Hc.
Qed.

(** ** Anthropic *)

(** The first variant of a list of them. *)
Definition first_object (key : string) (s item : schema) : Prop := exists rest, map_get key s = Some (AArr (AObj item :: rest)).
(** There is no [allOf] to merge: none, an empty one, or one other value. *)
Definition no_allOf (s : schema) : Prop :=
  match map_get "allOf" s with Some (AArr (_ :: _ :: _)) => False | Some (AArr [AObj _]) => False | _ => True end.
(** The composition of a schema, flattened: its [allOf] merged, else the first
    variant of its [oneOf], else that of its [anyOf]; only the keyword that was
    merged goes. *)
Inductive composed (s : schema) : schema -> Prop :=
  | composed_one item r : map_get "allOf" s = Some (AArr [AObj item]) -> conjoined s [item] r -> composed s (map_delete "allOf" r)
  | composed_all e1 e2 l r : map_get "allOf" s = Some (AArr (e1 :: e2 :: l)) ->
      conjoined (map_delete "allOf" s) (objects (e1 :: e2 :: l)) r -> composed s r
  | composed_oneOf item r : no_allOf s -> first_object "oneOf" s item -> conjoined s [item] r -> composed s (map_delete "oneOf" r)
  | composed_anyOf item r : no_allOf s -> (forall i, ~ first_object "oneOf" s i) -> first_object "anyOf" s item -> conjoined s [item] r ->
      composed s (map_delete "anyOf" r)
  | composed_not : no_allOf s -> (forall i, ~ first_object "oneOf" s i) -> (forall i, ~ first_object "anyOf" s i) -> composed s s.
Record anthropic_from (s r : schema) : Prop := mkAnthropic {
  ga_dropped k : anthropic_unsupported k = true -> map_get k r = None;
  ga_kept k : anthropic_unsupported k = false -> k <> "type" -> map_get k r = map_get k s;
  ga_type : map_get "type" r = Some (AStr "object") /\ getTypes (map_get "type" s) = [] \/ map_get "type" r = map_get "type" s;
}.
Definition anthropic_made (s r : schema) : Prop := exists s', composed s s' /\ anthropic_from s' r.

(** The entries of the lists are no references. *)
Definition entries_resolved (defs : option schema) (s : schema) : Prop :=
  forall key l item, map_get key s = Some (AArr l) -> AObj item ∈ l -> resolveRef item defs = item.
Lemma conjoined_one base item : conjoined base [item] (mergeSchemas base item).
Proof. exact (conjoined_fold base [item]). Qed.
Lemma first_variant_Some key defs s r :
  entries_resolved defs s -> first_variant key defs s = Some r ->
  exists item, first_object key s item /\ r = map_delete key (mergeSchemas s item).
Proof.
  intros Hr. unfold first_variant. destruct (map_get key s) as [[| | | |[|[| | | | |item] rest]|]|] eqn:E; cbn [as_list]; try done.
  intros [= <-]. exists item. split; [by exists rest|]. by rewrite (Hr _ _ _ E ltac:(by left)).
Qed.
Lemma first_variant_None key defs s : first_variant key defs s = None -> forall i, ~ first_object key s i.
Proof. intros H i [rest E]. unfold first_variant in H. by rewrite E in H. Qed.
Lemma flatten_composed defs s : entries_resolved defs s -> composed s (flattenAnthropicComposition s defs).
Proof.
  intros Hr. assert (Hv : no_allOf s -> composed s (variants s defs)).
  { intros Hno. unfold variants. destruct (first_variant "oneOf" defs s) as [r|] eqn:E1.
    - apply first_variant_Some in E1 as (item & Hi & ->); [|done]. eapply composed_oneOf; [done|exact Hi|apply conjoined_one].
    - pose proof (first_variant_None _ _ _ E1) as Hn1. destruct (first_variant "anyOf" defs s) as [r|] eqn:E2; cbn [default].
      + apply first_variant_Some in E2 as (item & Hi & ->); [|done]. eapply composed_anyOf; [done|done|exact Hi|apply conjoined_one].
      + apply composed_not; [done|done|by eapply first_variant_None]. }
  unfold flattenAnthropicComposition, no_allOf in *.
  destruct (map_get "allOf" s) as [[| | | |[|v [|v2 rest]]|]|] eqn:E; cbn [as_list]; try by apply Hv.
  - destruct v as [| | | | |item]; try by apply Hv. rewrite (Hr _ _ item E ltac:(by left)).
    by eapply composed_one; [exact E|apply conjoined_one].
  - assert (H : composed s (merge_all defs (copySchemaExcluding s "allOf") (v :: v2 :: rest))).
    { eapply composed_all; [exact E|]. unfold merge_all. rewrite (fold_objects (fun item => resolveRef item defs)); [apply conjoined_fold|].
      intros item Hin. by apply (Hr _ _ _ E). }
    by destruct v.
Qed.
Lemma anthropic_level_made defs s : entries_resolved defs s -> anthropic_made s (anthropic_level defs s).
Proof.
  intros Hr. exists (flattenAnthropicComposition s defs). split; [by apply flatten_composed|].
  unfold anthropic_level, infer_anthropic_type. set (s' := flattenAnthropicComposition s defs).
  assert (Hg : forall k, map_get k (map_without anthropic_unsupported s') = if anthropic_unsupported k then None else map_get k s')
    by (intros k; apply map_get_without).
  pose proof (Hg "type") as Ht. change (anthropic_unsupported "type") with false in Ht. cbv iota in Ht.
  destruct (_ && _) eqn:E.
  - apply andb_true_iff in E as [E%bool_decide_eq_true _]. rewrite Ht in E. split.
    + intros k Hk. rewrite map_get_set, (proj2 (String.eqb_neq k "type")), Hg, Hk by (intros ->; done). done.
    + intros k Hk Hn. by rewrite map_get_set, (proj2 (String.eqb_neq k "type")), Hg, Hk by done.
    + left. by rewrite map_get_set.
  - split; [intros k Hk; by rewrite Hg, Hk|intros k Hk _; by rewrite Hg, Hk|by right].
Qed.

(** ** OpenAI *)

Record openai_made (s r : schema) : Prop := mkOpenAI {
  go_dropped k : openai_forbidden k = true -> map_get k r = None;
  go_kept k : openai_forbidden k = false -> k ∉ ["type"; "additionalProperties"; "properties"; "required"] -> map_get k r = map_get k s;
  go_property p v : prop p s = Some v -> prop p r = Some v;
}.
