(* ===== verification/SanitizeFacts.v ===== *)
(** * What the providers' schemas satisfy

    The forms [Sanitize] produces, at the root and at every place where a schema
    is expected, that each is made level by level as [SchemaMerge] says, and
    that the fuel reaches all of them. *)

From Stdlib Require Import ZArith Lia Ascii.
From stdpp Require Import base gmap strings list sorting.
From S2P Require Import Prelude GoStr Fence Json AnyJson RefExpand Sanitize SchemaMerge.
Open Scope sp4rk_scope.

(** ** The places of schemas *)

(** The values at the places where schemas are expected: the properties, the
    items, the values of [maps] and the elements of the [lists]. *)
Definition subschemas (maps lists : list string) (s : list (string * any)) : list any :=
  map snd (default [] (as_map (map_get "properties" s))) ++
  (match map_get "items" s with Some (AObj m) => [AObj m] | Some (AArr l) => l | _ => [] end) ++
  (maps ≫= fun k => match map_get k s with Some (AObj m) => [AObj m] | _ => [] end) ++
  (lists ≫= fun k => default [] (as_list (map_get k s))).

(** A property of schemas at the root and at every such place. *)
Inductive everywhere (maps lists : list string) (P : list (string * any) -> Prop) (s : list (string * any)) : Prop :=
  everywhere_here : P s -> (forall m, AObj m ∈ subschemas maps lists s -> everywhere maps lists P m) -> everywhere maps lists P s.

Definition sub_origin (maps lists : list string) (s : list (string * any)) (v : any) : Prop :=
  (exists props k, map_get "properties" s = Some (AObj props) /\ (k, v) ∈ props) \/
  (map_get "items" s = Some v /\ exists m, v = AObj m) \/ (exists l, map_get "items" s = Some (AArr l) /\ v ∈ l) \/
  (exists k m, k ∈ maps /\ map_get k s = Some (AObj m) /\ v = AObj m) \/
  (exists k l, k ∈ lists /\ map_get k s = Some (AArr l) /\ v ∈ l).
Lemma elem_of_subschemas maps lists s v : v ∈ subschemas maps lists s <-> sub_origin maps lists s v.
Proof.
  unfold subschemas, sub_origin. rewrite !elem_of_app, !list_elem_of_bind, list_elem_of_fmap. split.
  - intros [([k v'] & -> & Hin)|[Hin|[(k & Hin & Hk)|(k & Hin & Hk)]]].
    + left. destruct (map_get "properties" s) as [[| | | | |props]|]; try (by apply elem_of_nil in Hin). by exists props, k.
    + right. destruct (map_get "items" s) as [[| | | |l|m]|]; try (by apply elem_of_nil in Hin).
      * right. left. by exists l.
      * left. apply list_elem_of_singleton in Hin as ->. eauto.
    + do 3 right. left. destruct (map_get k s) as [[| | | | |m]|] eqn:E; try (by apply elem_of_nil in Hin).
      apply list_elem_of_singleton in Hin as ->. by exists k, m.
    + do 4 right. destruct (map_get k s) as [[| | | |l|]|] eqn:E; try (by apply elem_of_nil in Hin). by exists k, l.
  - intros [(props & k & -> & Hin)|[(-> & m & ->)|[(l & -> & Hin)|[(k & m & Hk & E & ->)|(k & l & Hk & E & Hin)]]]].
    + left. by exists (k, v).
    + right. left. by apply list_elem_of_singleton.
    + right. by left.
    + do 2 right. left. exists k. rewrite E. split; [by apply list_elem_of_singleton|done].
    + do 3 right. exists k. by rewrite E.
Qed.

(** ** Heights and references below a place *)

Lemma height_pos v : (1 <= height v)%nat.
Proof. destruct v; cbn [height]; lia. Qed.
Lemma height_member k v m : (k, v) ∈ m -> (height v < height (AObj m))%nat.
Proof.
  cbn [height]. induction m as [|[k' v'] m IH]; [by intros ?%elem_of_nil|]. cbn [fold_right].
  intros [[= -> ->]|Hin]%elem_of_cons; [lia|]. specialize (IH Hin). lia.
Qed.
Lemma height_element v l : v ∈ l -> (height v < height (AArr l))%nat.
Proof.
  cbn [height]. induction l as [|v' l IH]; [by intros ?%elem_of_nil|]. cbn [fold_right].
  intros [->|Hin]%elem_of_cons; [lia|]. specialize (IH Hin). lia.
Qed.
Lemma height_get k v s : map_get k s = Some v -> (height v < height (AObj s))%nat.
Proof. intros H. eapply height_member, map_get_in, H. Qed.
Lemma sub_height maps lists s v : v ∈ subschemas maps lists s -> (height v < height (AObj s))%nat.
Proof.
  rewrite elem_of_subschemas.
  intros [(props & k & E & Hin)|[(E & _)|[(l & E & Hin)|[(k & m & _ & E & ->)|(k & l & _ & E & Hin)]]]];
    apply height_get in E; try done; try (pose proof (height_member _ _ _ Hin); lia); pose proof (height_element _ _ Hin); lia.
Qed.
Lemma free_member defs k v m : ref_free defs (AObj m) -> (k, v) ∈ m -> ref_free defs v.
Proof. inversion 1 as [?|?|? _ Hf]; subst; [done|]. intros Hin. rewrite Forall_forall in Hf. exact (Hf _ Hin). Qed.
Lemma free_element defs v l : ref_free defs (AArr l) -> v ∈ l -> ref_free defs v.
Proof. inversion 1 as [?|? Hf|?]; subst; [done|]. intros Hin. rewrite Forall_forall in Hf. exact (Hf _ Hin). Qed.
Lemma free_get defs k v s : ref_free defs (AObj s) -> map_get k s = Some v -> ref_free defs v.
Proof. intros H Hk. eapply free_member; [exact H|by apply map_get_in]. Qed.
Lemma sub_free defs maps lists s v : ref_free defs (AObj s) -> v ∈ subschemas maps lists s -> ref_free defs v.
Proof.
  intros Hf. rewrite elem_of_subschemas.
  intros [(props & k & E & Hin)|[(E & _)|[(l & E & Hin)|[(k & m & _ & E & ->)|(k & l & _ & E & Hin)]]]];
    pose proof (free_get _ _ _ _ Hf E) as Hv; try done; [by eapply free_member| |]; by eapply free_element.
Qed.

(** *** Inlining leaves what has no references *)

Lemma cloneValue_free defs resolve v visited e :
  ref_free defs v -> exists e', cloneValue defs resolve v visited e = (v, e').
Proof.
  revert e. induction v as [|b|t|s|l IH|m IH] using any_ind; intros e Hf; cbn [cloneValue]; try by eexists.
  - assert (H : forall e, exists e', map_state (fun v e => cloneValue defs resolve v visited e) l e = (l, e')).
    { inversion Hf as [?|? Hl|?]; subst; [done|]. clear Hf. induction IH as [|v l Hv _ IHl]; intros e1; [by eexists|].
      inversion Hl as [|?? Hv' Hl']; subst. cbn [map_state]. destruct (Hv e1 Hv') as [e2 ->]. destruct (IHl Hl' e2) as [e3 ->]. by eexists. }
    destruct (H (charge (1 + Z.of_nat (length l)) e)) as [e' ->]. by eexists.
  - inversion Hf as [?|?|? Hr Hm]; subst; [done|]. rewrite Hr.
    assert (H : forall e, exists e', map_state (fun kv e => let '(k, v) := kv in let '(v', e') := cloneValue defs resolve v visited e in ((k, v'), e')) m e = (m, e')).
    { clear Hf Hr. induction IH as [|[k v] m Hv _ IHm]; intros e1; [by eexists|].
      inversion Hm as [|?? Hv' Hm']; subst. cbn [map_state snd] in *. destruct (Hv e1 Hv') as [e2 ->]. destruct (IHm Hm' e2) as [e3 ->]. by eexists. }
    destruct (H (charge 1 e)) as [e' ->]. by eexists.
Qed.
Lemma without_table_free defs s : ref_free defs (AObj s) -> ref_free defs (AObj (without_table s)).
Proof.
  intros Hf. unfold without_table. destruct (map_has "$ref" s) eqn:E; [done|].
  inversion Hf as [?|?|? Hr Hm]; subst; [done|]. apply free_obj.
  - unfold reference. rewrite (map_get_without is_table s "$ref"). change (is_table "$ref") with false. cbv iota.
    exact Hr.
  - rewrite Forall_forall in *. intros kv Hin. apply Hm. unfold map_without in Hin. by apply elem_of_List_filter in Hin as [? _].
Qed.
Lemma resolve_free defs s : ref_free defs (AObj s) -> resolveRefRecursive defs s = without_table s.
Proof.
  intros Hf. apply without_table_free in Hf. unfold resolveRefRecursive, resolveDocument, cloneSchema.
  destruct (cloneValue_free defs (resolveRefName defs (levels_enough defs)) _ ∅ new_expander Hf) as [e' ->]. done.
Qed.
Lemma height_filter f m : (height (AObj (List.filter f m)) <= height (AObj m))%nat.
Proof.
  cbn [height]. apply le_n_S. induction m as [|[k v] m IH]; [done|]. cbn [List.filter]. destruct (f (k, v)); cbn [fold_right]; lia.
Qed.
Lemma height_without_table s : (height (AObj (without_table s)) <= height (AObj s))%nat.
Proof. unfold without_table. destruct (map_has _ _); [done|]. apply height_filter. Qed.

(** ** Rewriting the places *)

Definition nested (f : list (string * any) -> list (string * any)) (maps lists : list string) (s : list (string * any)) : list (string * any) :=
  fold_left (map_list f) lists (fold_left (map_value f) maps (map_items f (map_properties f s))).

Section places.
Variable f : list (string * any) -> list (string * any).

Definition props_value (v : any) : any := match v with AObj props => AObj (map (fun kv => (fst kv, in_map f (snd kv))) props) | _ => v end.
Definition items_value (v : any) : any := match v with AObj m => AObj (f m) | AArr l => AArr (map (in_map f) l) | _ => v end.
Definition list_value (v : any) : any := match v with AArr l => AArr (map (in_map f) l) | _ => v end.

(** One place rewritten: the value of its key goes through [g]. *)
Ltac rewritten key :=
  match goal with |- map_get ?k _ = _ <$> map_get ?k ?s =>
    destruct (map_get key s) as [v|] eqn:E;
      [destruct v; cbn [as_map as_list]; rewrite ?map_get_set; destruct (String.eqb_spec k key) as [->|]; rewrite ?E; try done; by destruct (map_get k s)
      |cbn [as_map as_list]; destruct (String.eqb_spec k key) as [->|]; [by rewrite E|by destruct (map_get k s)]]
  end.
Lemma get_map_properties s k :
  map_get k (map_properties f s) = (if String.eqb k "properties" then props_value else id) <$> map_get k s.
Proof. unfold map_properties. rewritten "properties". Qed.
Lemma get_map_items s k :
  map_get k (map_items f s) = (if String.eqb k "items" then items_value else id) <$> map_get k s.
Proof. unfold map_items. rewritten "items". Qed.
Lemma get_map_list s key k :
  map_get k (map_list f s key) = (if String.eqb k key then list_value else id) <$> map_get k s.
Proof. unfold map_list. rewritten key. Qed.
Lemma get_map_value s key k :
  map_get k (map_value f s key) = (if String.eqb k key then in_map f else id) <$> map_get k s.
Proof. unfold map_value. rewritten key. Qed.

Lemma get_fold (step : list (string * any) -> string -> list (string * any)) (g : any -> any) keys s k :
  (forall s key k, map_get k (step s key) = (if String.eqb k key then g else id) <$> map_get k s) ->
  NoDup keys -> map_get k (fold_left step keys s) = (if bool_decide (k ∈ keys) then g else id) <$> map_get k s.
Proof.
  intros Hs Hn. revert s. induction Hn as [|key keys Hk _ IH]; intros s; cbn [fold_left].
  - by destruct (map_get k s).
  - rewrite IH, Hs, <- option_fmap_compose. destruct (String.eqb_spec k key) as [->|Hne].
    + rewrite (bool_decide_eq_false_2 (key ∈ keys)), (bool_decide_eq_true_2 (key ∈ key :: keys)) by (done || by left). done.
    + rewrite (bool_decide_ext (k ∈ key :: keys) (k ∈ keys)); [done|]. rewrite elem_of_cons. naive_solver.
Qed.

(** The value a key holds afterwards. *)
Definition place_value (maps lists : list string) (k : string) (v : any) : any :=
  if String.eqb k "properties" then props_value v else if String.eqb k "items" then items_value v
  else if bool_decide (k ∈ maps) then in_map f v else if bool_decide (k ∈ lists) then list_value v else v.
Definition plain_places (maps lists : list string) : Prop := NoDup ("properties" :: "items" :: maps ++ lists).
Lemma nested_get maps lists s k :
  plain_places maps lists -> map_get k (nested f maps lists s) = place_value maps lists k <$> map_get k s.
Proof.
  intros (Hp & (Hi & (Hm & Hd & Hl)%NoDup_app)%NoDup_cons)%NoDup_cons.
  rewrite elem_of_cons, elem_of_app in Hp. rewrite elem_of_app in Hi.
  unfold nested. rewrite (get_fold _ list_value), (get_fold _ (in_map f)), get_map_items, get_map_properties
    by (done || apply get_map_list || apply get_map_value).
  unfold place_value. destruct (map_get k s) as [v|]; [|by destruct (bool_decide (k ∈ lists)), (bool_decide (k ∈ maps))].
  destruct (String.eqb_spec k "properties") as [->|H1].
  { rewrite (bool_decide_eq_false_2 ("properties" ∈ lists)), (bool_decide_eq_false_2 ("properties" ∈ maps)) by naive_solver. done. }
  destruct (String.eqb_spec k "items") as [->|H2].
  { rewrite (bool_decide_eq_false_2 ("items" ∈ lists)), (bool_decide_eq_false_2 ("items" ∈ maps)) by naive_solver. done. }
  destruct (bool_decide_reflect (k ∈ maps)) as [H|H]; [|by destruct (bool_decide (k ∈ lists))].
  rewrite (bool_decide_eq_false_2 (k ∈ lists)) by by apply Hd. done.
Qed.

Lemma nested_sub maps lists s v :
  plain_places maps lists -> v ∈ subschemas maps lists (nested f maps lists s) ->
  exists v0, v0 ∈ subschemas maps lists s /\ v = in_map f v0.
Proof.
  intros Hl. pose proof Hl as (Hp & (Hi & (_ & Hd & _)%NoDup_app)%NoDup_cons)%NoDup_cons.
  rewrite elem_of_cons, elem_of_app in Hp. rewrite elem_of_app in Hi. rewrite elem_of_subschemas.
  assert (Hother : forall k, k ∈ maps \/ k ∈ lists -> String.eqb k "properties" = false /\ String.eqb k "items" = false).
  { intros k Hk. split; apply String.eqb_neq; intros ->; tauto. }
  intros [(props & k & E & Hin)|[(E & m & ->)|[(l & E & Hin)|[(k & m & Hk & E & ->)|(k & l & Hk & E & Hin)]]]];
    rewrite nested_get in E by done; unfold place_value in E.
  - destruct (map_get "properties" s) as [w|] eqn:Ew; [|done]. injection E as E.
    destruct w as [| | | | |props0]; try done. injection E as <-.
    apply list_elem_of_fmap in Hin as ([k0 v0] & [= -> ->] & Hin). exists v0. split; [|done].
    apply elem_of_subschemas. left. by exists props0, k0.
  - destruct (map_get "items" s) as [w|] eqn:Ew; [|done]. injection E as E.
    destruct w as [| | | | |m0]; try done. injection E as <-. exists (AObj m0). split; [|done].
    apply elem_of_subschemas. right. left. split; [done|by eexists].
  - destruct (map_get "items" s) as [w|] eqn:Ew; [|done]. injection E as E.
    destruct w as [| | | |l0|]; try done. injection E as <-. apply list_elem_of_fmap in Hin as (v0 & -> & Hin). exists v0. split; [|done].
    apply elem_of_subschemas. do 2 right. left. by exists l0.
  - destruct (Hother k (or_introl Hk)) as [-> ->] in E. rewrite (bool_decide_eq_true_2 _ Hk) in E.
    destruct (map_get k s) as [w|] eqn:Ew; [|done]. injection E as E. destruct w as [| | | | |m0]; try done. injection E as <-.
    exists (AObj m0). split; [|done]. apply elem_of_subschemas. do 3 right. left. by exists k, m0.
  - destruct (Hother k (or_intror Hk)) as [E1 E2]. rewrite E1, E2 in E. rewrite (bool_decide_eq_false_2 (k ∈ maps)) in E by (intros H; by apply (Hd k)).
    rewrite (bool_decide_eq_true_2 _ Hk) in E.
    destruct (map_get k s) as [w|] eqn:Ew; [|done]. injection E as E. destruct w as [| | | |l0|]; try done. injection E as <-.
    apply list_elem_of_fmap in Hin as (v0 & -> & Hin). exists v0. split; [|done]. apply elem_of_subschemas. do 4 right. by exists k, l0.
Qed.
End places.

(** One level: what holds of the level and of the results below holds
    everywhere. *)
Lemma everywhere_step maps lists P f s :
  plain_places maps lists -> P (nested f maps lists s) ->
  (forall m, AObj m ∈ subschemas maps lists s -> everywhere maps lists P (f m)) -> everywhere maps lists P (nested f maps lists s).
Proof.
  intros Hp Hs Hf. constructor; [done|]. intros m Hm. destruct (nested_sub f maps lists s _ Hp Hm) as ([| | | | |m0] & Hin & E); try discriminate E.
  cbn [in_map] in E; injection E as ->. by apply Hf.
Qed.
(** A schema made from another: a level [made] from it, in which the schema at
    every place is replaced by one made from it in turn, after [pre]. *)
Inductive derived (pre : list (string * any) -> list (string * any)) (made : list (string * any) -> list (string * any) -> Prop)
    (maps lists : list string) (s r : list (string * any)) : Prop :=
  derived_at r1 f : made s r1 -> r = nested f maps lists r1 ->
    (forall m, AObj m ∈ subschemas maps lists r1 -> derived pre made maps lists (pre m) (f m)) -> derived pre made maps lists s r.

Lemma composition_plain : plain_places [] composition_keys.
Proof. unfold plain_places. apply (bool_decide_unpack _). by vm_compute. Qed.
Lemma additional_plain : plain_places ["additionalProperties"] composition_keys.
Proof. unfold plain_places. apply (bool_decide_unpack _). by vm_compute. Qed.
Lemma anyOf_plain : plain_places [] ["anyOf"].
Proof. unfold plain_places. apply (bool_decide_unpack _). by vm_compute. Qed.

Lemma map_has_nested f maps lists s k : plain_places maps lists -> map_has k (nested f maps lists s) = map_has k s.
Proof. intros Hp. unfold map_has. rewrite nested_get by done. by destruct (map_get k s). Qed.
Lemma nested_get_other f maps lists s k :
  plain_places maps lists -> k ∉ "properties" :: "items" :: maps ++ lists -> map_get k (nested f maps lists s) = map_get k s.
Proof.
  intros Hp Hk. rewrite nested_get by done. unfold place_value. rewrite !elem_of_cons, elem_of_app in Hk.
  rewrite (proj2 (String.eqb_neq k "properties")), (proj2 (String.eqb_neq k "items")) by naive_solver.
  rewrite !bool_decide_eq_false_2 by naive_solver. by destruct (map_get k s).
Qed.
Lemma nested_get_props f maps lists s props :
  plain_places maps lists -> map_get "properties" s = Some (AObj props) ->
  exists props', map_get "properties" (nested f maps lists s) = Some (AObj props') /\ map fst props' = map fst props.
Proof.
  intros Hp E. rewrite nested_get, E by done. eexists. split; [reflexivity|]. rewrite map_map. done.
Qed.

(** ** OpenAI *)

Definition object_ok (strict : bool) (s : list (string * any)) : Prop :=
  map_get "additionalProperties" s = Some (ABool false) /\
  exists props, map_get "properties" s = Some (AObj props) /\
    (map_get "required" s = None /\ strict = false \/
     (exists v, map_get "required" s = Some v /\ strict = false /\ as_list (Some v) = None) \/
     exists names, map_get "required" s = Some (strings_any names) /\ NoDup names /\ StronglySorted str_le names /\
       (forall n, n ∈ names -> n ∈ map fst props) /\ (strict = true -> forall n, n ∈ map fst props -> n ∈ names)).
Definition openai_ok (strict : bool) (s : list (string * any)) : Prop :=
  (forall k, openai_forbidden k = true -> map_get k s = None) /\
  (map_has "properties" s || map_has "required" s = true -> getTypes (map_get "type" s) <> []) /\
  getTypes (map_get "type" s) <> [""] /\
  (getTypes (map_get "type" s) = ["object"] -> object_ok strict s).

Lemma openai_ok_nested strict f s : openai_ok strict s -> openai_ok strict (nested f [] composition_keys s).
Proof.
  intros (H1 & H2 & H3 & H4). pose proof composition_plain as Hp.
  assert (Ho : forall k, k ∈ ["type"; "required"; "additionalProperties"] \/ openai_forbidden k = true ->
    map_get k (nested f [] composition_keys s) = map_get k s).
  { intros k Hk. apply nested_get_other; [done|]. intros Hin.
    assert (Hb : bool_decide (k ∈ ["type"; "required"; "additionalProperties"]) || openai_forbidden k = false).
    { change (k ∈ ["properties"; "items"; "anyOf"; "oneOf"; "allOf"]) in Hin. rewrite !elem_of_cons in Hin.
      destruct Hin as [->|[->|[->|[->|[->|?%elem_of_nil]]]]]; (done || by vm_compute). }
    apply orb_false_iff in Hb as [Hb1 Hb2]. apply bool_decide_eq_false in Hb1. destruct Hk; [done|congruence]. }
  assert (Ht : map_get "type" (nested f [] composition_keys s) = map_get "type" s) by (apply Ho; left; left).
  unfold openai_ok. rewrite !map_has_nested, !Ht by done. split_and!; try done.
  - intros k Hk. rewrite Ho by by right. by apply H1.
  - intros Hobj. destruct (H4 Hobj) as (Ha & props & E & Hr). split; [rewrite Ho; [done|left; do 2 right; left]|].
    destruct (nested_get_props f _ _ s props Hp E) as (props' & E' & Hk). exists props'. split; [done|].
    rewrite (Ho "required"), Hk by (left; right; left). done.
Qed.

Lemma sorted_names_spec l n : n ∈ sorted_names l <-> n ∈ l.
Proof. unfold sorted_names. rewrite (merge_sort_Permutation str_le). apply elem_of_remove_dups. Qed.
Lemma sorted_names_NoDup l : NoDup (sorted_names l).
Proof. unfold sorted_names. rewrite (merge_sort_Permutation str_le). apply NoDup_remove_dups. Qed.
Lemma sorted_names_sorted l : StronglySorted str_le (sorted_names l).
Proof. apply (StronglySorted_merge_sort str_le). Qed.
Lemma declared_required_props props required n : n ∈ declared_required props required -> n ∈ map fst props.
Proof.
  unfold declared_required. rewrite elem_of_List_filter. intros [_ Hh]. apply map_get_is_Some.
  unfold map_has in Hh. destruct (map_get n props); [eauto|done].
Qed.

Lemma get_object_constraints strict s k :
  k ∉ ["additionalProperties"; "properties"; "required"] -> map_get k (object_constraints strict s) = map_get k s.
Proof.
  rewrite !elem_of_cons. intros Hk. unfold object_constraints.
  assert (H1 : String.eqb k "additionalProperties" = false) by (apply String.eqb_neq; naive_solver).
  assert (H2 : String.eqb k "properties" = false) by (apply String.eqb_neq; naive_solver).
  assert (H3 : String.eqb k "required" = false) by (apply String.eqb_neq; naive_solver).
  destruct (as_map (map_get "properties" (map_set _ _ s))), strict; cbv zeta;
    try (destruct (as_list (map_get "required" _))); by rewrite ?map_get_set, ?H3, ?H2, ?H1.
Qed.
Lemma object_constraints_ok strict s : object_ok strict (object_constraints strict s).
Proof.
  unfold object_constraints. set (s1 := map_set "additionalProperties" (ABool false) s).
  set (s2 := match as_map (map_get "properties" s1) with Some _ => s1 | None => map_set "properties" (AObj []) s1 end).
  assert (Ha : map_get "additionalProperties" s2 = Some (ABool false)).
  { unfold s2. destruct (as_map _); unfold s1; by rewrite ?map_get_set. }
  assert (Hp : exists props, map_get "properties" s2 = Some (AObj props)).
  { unfold s2. destruct (as_map (map_get "properties" s1)) as [m|] eqn:E; [|eexists; by rewrite map_get_set].
    destruct (map_get "properties" s1) as [[]|]; try done. eauto. }
  destruct Hp as [props Hp]. rewrite Hp. cbn [as_map default]. cbv zeta.
  assert (Hset : forall v, map_get "additionalProperties" (map_set "required" v s2) = Some (ABool false) /\
    map_get "properties" (map_set "required" v s2) = Some (AObj props) /\ map_get "required" (map_set "required" v s2) = Some v).
  { intros v. rewrite !map_get_set. done. }
  destruct strict.
  - edestruct Hset as (H1 & H2 & H3). split; [exact H1|]. exists props. split; [exact H2|]. do 2 right. rewrite H3.
    case_bool_decide as E.
    + unfold id in E. subst props. exists []. split_and!; [done|constructor|constructor|by intros ? ?%elem_of_nil|intros _ n Hn; exact Hn].
    + eexists. split; [reflexivity|]. split; [apply sorted_names_NoDup|]. split; [apply sorted_names_sorted|].
      split; [|intros _ n Hn; apply sorted_names_spec, elem_of_app; by right].
      intros n Hn. apply (proj1 (sorted_names_spec _ _)) in Hn. apply elem_of_app in Hn as [Hn|Hn]; [by eapply declared_required_props|done].
  - destruct (map_get "required" s2) as [v|] eqn:Er.
    + destruct (as_list (Some v)) as [l|] eqn:El.
      * edestruct Hset as (H1 & H2 & H3). split; [exact H1|]. exists props. split; [exact H2|]. do 2 right. rewrite H3.
        eexists. split; [reflexivity|]. split; [apply sorted_names_NoDup|]. split; [apply sorted_names_sorted|].
        split; [|done]. intros n Hn. apply (proj1 (sorted_names_spec _ _)) in Hn. by eapply declared_required_props.
      * split; [exact Ha|]. exists props. split; [exact Hp|]. right. left. by exists v.
    + split; [exact Ha|]. exists props. split; [exact Hp|]. by left.
Qed.

Lemma get_infer_openai s k : k <> "type" -> map_get k (fst (infer_openai_type s)) = map_get k s.
Proof.
  intros Hk. unfold infer_openai_type. destruct (_ && _); cbn [fst]; destruct (is_empty_type _); unfold map_delete;
    rewrite ?map_get_without, ?map_get_set, ?(proj2 (String.eqb_neq k "type")) by done; try done;
    by rewrite (proj2 (String.eqb_neq "type" k)) by congruence.
Qed.
(** The type that is inferred, and the one the result declares. *)
Lemma infer_openai_type_ok s :
  let '(r, types) := infer_openai_type s in
  (types = getTypes (map_get "type" r) /\ (map_has "properties" r || map_has "required" r = true -> types <> []) /\ types <> [""]) \/
  (types = [""] /\ map_get "type" r = None /\ map_has "properties" r || map_has "required" r = false).
Proof.
  pose proof (get_infer_openai s) as Hg. unfold infer_openai_type in *.
  destruct ((bool_decide (getTypes (map_get "type" s) = []) || is_empty_type (getTypes (map_get "type" s))) &&
    (map_has "properties" s || map_has "required" s)) eqn:E.
  - change (is_empty_type ["object"]) with false. cbv iota beta. left. split; [|done]. by rewrite map_get_set.
  - destruct (is_empty_type (getTypes (map_get "type" s))) eqn:Ee; cbn [fst] in *.
    + right. unfold is_empty_type in Ee. apply bool_decide_eq_true in Ee. split; [done|].
      split; [unfold map_delete; by rewrite map_get_without|].
      unfold map_has in *. rewrite (Hg "properties"), (Hg "required") by done. by rewrite orb_true_r in E.
    + left. split; [done|]. unfold is_empty_type in Ee. apply bool_decide_eq_false in Ee. split; [|done].
      intros Hh Hn. rewrite Hn, (bool_decide_eq_true_2 _ eq_refl), Hh in E. done.
Qed.
Lemma openai_level_ok strict s : openai_ok strict (openai_level strict s).
Proof.
  unfold openai_level. pose proof (infer_openai_type_ok (map_without openai_forbidden s)) as Hi.
  pose proof (get_infer_openai (map_without openai_forbidden s)) as Hg.
  destruct (infer_openai_type (map_without openai_forbidden s)) as [r types]. cbn [fst] in Hg.
  assert (Hforb : forall k, openai_forbidden k = true -> map_get k r = None).
  { intros k Hk. rewrite Hg by (intros ->; done). by rewrite map_get_without, Hk. }
  destruct (bool_decide_reflect (types = ["object"])) as [->|Hne].
  - destruct Hi as [(Ht & _ & _)|(? & _)]; [|done].
    assert (Htype : map_get "type" (object_constraints strict r) = map_get "type" r).
    { apply get_object_constraints. apply (bool_decide_unpack _). by vm_compute. }
    split_and!.
    + intros k Hk. rewrite get_object_constraints; [by apply Hforb|]. intros Hin.
      rewrite !elem_of_cons in Hin. destruct Hin as [->|[->|[->|?%elem_of_nil]]]; done.
    + rewrite Htype, <- Ht. done.
    + rewrite Htype, <- Ht. done.
    + intros _. apply object_constraints_ok.
  - destruct Hi as [(Ht & Hh & He)|(-> & Hn & Hh)]; (split_and!; [done|..]).
    + rewrite <- Ht. done.
    + by rewrite <- Ht.
    + rewrite <- Ht. done.
    + rewrite Hh. done.
    + by rewrite Hn.
    + by rewrite Hn.
Qed.

(** A level has no other places than the schema. *)
Lemma subschemas_mono maps lists s s' v :
  plain_places maps lists ->
  (forall k v, k ∈ "properties" :: "items" :: maps ++ lists -> map_get k s = Some v -> map_get k s' = Some v \/ v = AObj [] /\ k = "properties") ->
  v ∈ subschemas maps lists s -> v ∈ subschemas maps lists s'.
Proof.
  intros (Hp & _)%NoDup_cons H. rewrite !elem_of_subschemas. unfold sub_origin.
  intros [(props & k & E & Hin)|[(E & Hm)|[(l & E & Hin)|[(k & m & Hk & E & ->)|(k & l & Hk & E & Hin)]]]].
  - destruct (H _ _ ltac:(by left) E) as [E'|[[= ->] _]]; [left; by exists props, k|by apply elem_of_nil in Hin].
  - destruct (H _ _ ltac:(right; by left) E) as [E'|[_ ?]]; [right; by left|done].
  - destruct (H _ _ ltac:(right; by left) E) as [E'|[_ ?]]; [do 2 right; left; by exists l|done].
  - destruct (H k _ ltac:(do 2 right; apply elem_of_app; by left) E) as [E'|[[= ->] ->]]; [do 3 right; left; by exists k, m|].
    destruct Hp. right. apply elem_of_app. by left.
  - destruct (H k _ ltac:(do 2 right; apply elem_of_app; by right) E) as [E'|[? _]]; [do 4 right; by exists k, l|done].
Qed.

Lemma openai_level_sub strict s v :
  v ∈ subschemas [] composition_keys (openai_level strict s) -> v ∈ subschemas [] composition_keys s.
Proof.
  apply subschemas_mono; [exact composition_plain|]. intros k w Hk. unfold openai_level.
  pose proof (get_infer_openai (map_without openai_forbidden s)) as Hg.
  destruct (infer_openai_type (map_without openai_forbidden s)) as [r types]. cbn [fst] in Hg.
  change (k ∈ ["properties"; "items"; "anyOf"; "oneOf"; "allOf"]) in Hk.
  assert (Hkt : k <> "type" /\ openai_forbidden k = false).
  { rewrite !elem_of_cons in Hk. destruct Hk as [->|[->|[->|[->|[->|?%elem_of_nil]]]]]; done. }
  destruct Hkt as [Hkt Hkf]. assert (Hr : map_get k r = map_get k s) by (rewrite Hg, map_get_without, Hkf by done; done).
  destruct (bool_decide (types = ["object"])); [|rewrite Hr; by left].
  destruct (String.eqb_spec k "properties") as [->|Hp].
  - intros E. destruct (object_constraints_ok strict r) as (_ & props & E2 & _).
    assert (Hobj : map_get "properties" (object_constraints strict r) =
      match as_map (map_get "properties" r) with Some p => Some (AObj p) | None => Some (AObj []) end).
    { unfold object_constraints. rewrite map_get_set. change (String.eqb "properties" "additionalProperties") with false. cbv iota.
      destruct (as_map (map_get "properties" r)) as [p|] eqn:Ep; cbv zeta.
      - apply as_map_Some in Ep as Ep'. destruct strict; [|destruct (as_list _)]; rewrite ?map_get_set; exact Ep'.
      - destruct strict; [|destruct (as_list _)]; by rewrite ?map_get_set. }
    rewrite Hobj in E. destruct (as_map (map_get "properties" r)) as [p|] eqn:Ep; [left|right; by injection E as <-].
    rewrite <- Hr. apply as_map_Some in Ep. congruence.
  - rewrite get_object_constraints; [rewrite Hr; by left|].
    rewrite !elem_of_cons in Hk. destruct Hk as [->|[->|[->|[->|[->|?%elem_of_nil]]]]]; try done; apply (bool_decide_unpack _); by vm_compute.
Qed.

Lemma openai_level_made strict s : openai_made s (openai_level strict s).
Proof.
  pose proof (openai_level_ok strict s) as (Hdrop & _). split; [exact Hdrop| |].
  - intros k Hk. rewrite !elem_of_cons. intros Hn. unfold openai_level. pose proof (get_infer_openai (map_without openai_forbidden s)) as Hg.
    destruct (infer_openai_type (map_without openai_forbidden s)) as [r types]. cbn [fst] in Hg.
    assert (Hr : map_get k r = map_get k s) by (rewrite Hg, map_get_without, Hk by tauto; done).
    destruct (bool_decide (types = ["object"])); [|exact Hr]. rewrite get_object_constraints; [exact Hr|]. rewrite !elem_of_cons. tauto.
  - intros p v Hp. unfold openai_level. pose proof (get_infer_openai (map_without openai_forbidden s)) as Hg.
    destruct (infer_openai_type (map_without openai_forbidden s)) as [r types]. cbn [fst] in Hg.
    assert (Hr : map_get "properties" r = map_get "properties" s) by (rewrite Hg, map_get_without by done; done).
    unfold prop in *. rewrite <- Hr in Hp. destruct (bool_decide (types = ["object"])); [|exact Hp].
    destruct (map_get "properties" r) as [[| | | | |props]|] eqn:E; try done.
    assert (Ho : map_get "properties" (object_constraints strict r) = Some (AObj props)); [|by rewrite Ho].
    unfold object_constraints. rewrite !map_get_set. change (String.eqb "properties" "additionalProperties") with false. cbv iota. rewrite E. cbn [as_map]. cbv zeta.
    destruct strict; [|destruct (as_list _)]; by rewrite ?map_get_set.
Qed.
Lemma openai_derived defs strict fuel s :
  (height (AObj (resolveRefRecursive defs s)) <= fuel)%nat ->
  derived without_table openai_made [] composition_keys (resolveRefRecursive defs s) (sanitizeOpenAISchemaWithDefs fuel defs strict s).
Proof.
  revert s. induction fuel as [|fuel IH]; intros s Hh; [pose proof (height_pos (AObj (resolveRefRecursive defs s))); lia|].
  apply (derived_at _ _ _ _ _ _ (openai_level strict (resolveRefRecursive defs s)) (sanitizeOpenAISchemaWithDefs fuel defs strict));
    [apply openai_level_made|reflexivity|].
  intros m Hm%openai_level_sub. pose proof (sub_height _ _ _ _ Hm). pose proof (sub_free _ _ _ _ _ (resolve_ref_free defs s) Hm) as Hf.
  rewrite <- (resolve_free _ _ Hf). apply IH. rewrite (resolve_free _ _ Hf). pose proof (height_without_table m). lia.
Qed.

Lemma openai_everywhere defs strict fuel s :
  (height (AObj (resolveRefRecursive defs s)) <= fuel)%nat ->
  everywhere [] composition_keys (openai_ok strict) (sanitizeOpenAISchemaWithDefs fuel defs strict s).
Proof.
  revert s. induction fuel as [|fuel IH]; intros s Hh; [pose proof (height_pos (AObj (resolveRefRecursive defs s))); lia|].
  change (everywhere [] composition_keys (openai_ok strict) (nested (sanitizeOpenAISchemaWithDefs fuel defs strict) [] composition_keys
    (openai_level strict (resolveRefRecursive defs s)))).
  apply everywhere_step; [exact composition_plain|apply openai_ok_nested, openai_level_ok|].
  intros m Hm%openai_level_sub. apply IH.
  pose proof (sub_height _ _ _ _ Hm). pose proof (sub_free _ _ _ _ _ (resolve_ref_free defs s) Hm) as Hf.
  rewrite (resolve_free _ _ Hf). pose proof (height_without_table m). lia.
Qed.

(** ** Merged schemas *)

(** A value without references of a height up to [h]; the keys whose values the
    levels write themselves hold no schemas. *)
Definition good (defs : option (list (string * any))) (h : nat) (v : any) : Prop := ref_free defs v /\ (height v <= h)%nat.
Definition own_keys : list string := ["required"; "type"; "nullable"].
Definition goods defs h (s : list (string * any)) : Prop := Forall (fun kv => kv.1 ∈ own_keys \/ good defs h kv.2) s.

Section merge.
Variables (defs : option (list (string * any))) (h : nat).

Lemma goods_get s k v : goods defs h s -> k ∉ own_keys -> map_get k s = Some v -> good defs h v.
Proof. intros Hs Hk E%map_get_in. unfold goods in Hs. rewrite Forall_forall in Hs. destruct (Hs _ E); [done|done]. Qed.
Lemma goods_set s k v : goods defs h s -> k ∈ own_keys \/ good defs h v -> goods defs h (map_set k v s).
Proof.
  intros Hs Hv. induction Hs as [|[k' v'] s H Hs IH]; cbn [map_set]; [constructor; [exact Hv|constructor]|].
  by destruct (String.eqb k k'); constructor.
Qed.
Lemma goods_without drop s : goods defs h s -> goods defs h (map_without drop s).
Proof. intros Hs. unfold goods, map_without in *. rewrite Forall_forall in *. intros kv [Hin _]%elem_of_List_filter. by apply Hs. Qed.
Lemma goods_members s : ref_free defs (AObj s) -> (height (AObj s) <= S h)%nat -> goods defs h s.
Proof.
  intros Hf Hh. unfold goods. rewrite Forall_forall. intros [k v] Hin. right. split; [by eapply free_member|].
  pose proof (height_member _ _ _ Hin). cbn [snd]. lia.
Qed.
Lemma good_sub maps lists s v :
  goods defs h s -> plain_places maps lists -> (forall k, k ∈ maps ++ lists -> k ∉ own_keys) ->
  v ∈ subschemas maps lists s -> good defs h v.
Proof.
  intros Hs Hp Hk. rewrite elem_of_subschemas.
  assert (Hprops : "properties" ∉ own_keys) by (apply (bool_decide_unpack _); by vm_compute).
  assert (Hitems : "items" ∉ own_keys) by (apply (bool_decide_unpack _); by vm_compute).
  intros [(props & k & E & Hin)|[(E & _)|[(l & E & Hin)|[(k & m & Hm & E & ->)|(k & l & Hl & E & Hin)]]]].
  - destruct (goods_get _ _ _ Hs Hprops E) as [Hf Hh]. split; [by eapply free_member|]. pose proof (height_member _ _ _ Hin). lia.
  - by apply (goods_get _ _ _ Hs Hitems).
  - destruct (goods_get _ _ _ Hs Hitems E) as [Hf Hh]. split; [by eapply free_element|]. pose proof (height_element _ _ Hin). lia.
  - eapply goods_get; [done|apply Hk, elem_of_app; by left|done].
  - destruct (goods_get s k _ Hs (Hk k ltac:(apply elem_of_app; by right)) E) as [Hf Hh].
    split; [by eapply free_element|]. pose proof (height_element _ _ Hin). lia.
Qed.

(** Objects whose members are good, and are no reference. *)
Lemma good_obj_inv n m : good defs (S n) (AObj m) -> reference defs m = None /\ Forall (fun kv => good defs n kv.2) m.
Proof.
  intros [Hf Hh]. split; [by inversion Hf|]. rewrite Forall_forall. intros [k v] Hin. split; [by eapply free_member|].
  pose proof (height_member _ _ _ Hin). cbn [snd]. lia.
Qed.
Lemma good_obj n m : reference defs m = None -> Forall (fun kv => good defs n kv.2) m -> good defs (S n) (AObj m).
Proof.
  intros Hr Hm. split; [apply free_obj; [done|]; eapply Forall_impl; [exact Hm|by intros ? [? _]]|].
  cbn [height]. apply le_n_S. clear Hr. induction Hm as [|[k v] m [_ Hv] _ IH]; cbn [fold_right snd] in *; lia.
Qed.

Lemma map_get_app k m1 m2 : map_get k (m1 ++ m2) = match map_get k m1 with Some v => Some v | None => map_get k m2 end.
Proof. induction m1 as [|[k' v'] m1 IH]; [done|]. cbn [app map_get]. by destruct (String.eqb k k'). Qed.
Lemma map_set_absent k v m : map_get k m = None -> map_set k v m = m ++ [(k, v)].
Proof.
  induction m as [|[k' v'] m IH]; [done|]. cbn [map_get map_set]. destruct (String.eqb k k'); [done|]. intros H. by rewrite IH.
Qed.
Lemma add_absent_good n dst src :
  reference defs dst = None -> reference defs src = None -> Forall (fun kv => good defs n kv.2) dst -> Forall (fun kv => good defs n kv.2) src ->
  reference defs (add_absent dst src) = None /\ Forall (fun kv => good defs n kv.2) (add_absent dst src).
Proof.
  intros Hd Hs Fd Fs. unfold add_absent.
  assert (H : forall src dst, Forall (fun kv => good defs n kv.2) dst -> Forall (fun kv => good defs n kv.2) src ->
    let r := fold_left (fun acc kv => if map_has (fst kv) acc then acc else map_set (fst kv) (snd kv) acc) src dst in
    Forall (fun kv => good defs n kv.2) r /\ map_get "$ref" r = match map_get "$ref" dst with Some v => Some v | None => map_get "$ref" src end).
  { clear. induction src as [|[k v] src IH]; intros dst Fd Fs; cbn [fold_left fst snd map_get]; cbv zeta; [split; [done|by destruct (map_get _ dst)]|].
    inversion Fs as [|?? Hv Fs']; subst.
    assert (Eh : map_has k dst = if map_get k dst is Some _ then true else false) by done. rewrite Eh. clear Eh. destruct (map_get k dst) as [w|] eqn:E.
    - destruct (IH dst Fd Fs') as [H1 H2]. split; [done|]. rewrite H2. destruct (map_get "$ref" dst) eqn:E2; [done|].
      destruct (String.eqb_spec "$ref" k) as [<-|]; [congruence|done].
    - destruct (IH (map_set k v dst)) as [H1 H2]; [rewrite map_set_absent by done; apply Forall_app; split; [done|constructor; [exact Hv|constructor]]|done|].
      split; [done|]. rewrite H2, map_get_set. destruct (String.eqb_spec "$ref" k) as [<-|]; [by rewrite E|done]. }
  destruct (H src dst Fd Fs) as [H1 H2]. split; [|done]. unfold reference in *. rewrite H2. destruct (map_get "$ref" dst); [done|exact Hs].
Qed.

Lemma merge_member_goods s kv :
  goods defs h s -> kv.1 ∈ own_keys \/ good defs h kv.2 -> goods defs h (merge_member s kv).
Proof.
  destruct kv as [k v]. cbn [fst snd]. intros Hs Hv. unfold merge_member.
  assert (Hprops : "properties" ∉ own_keys) by (apply (bool_decide_unpack _); by vm_compute).
  destruct (String.eqb_spec k "properties") as [->|_].
  - destruct (as_map (Some v)) as [srcProps|] eqn:E; [|done]. apply as_map_Some in E as [= ->]. destruct Hv as [?|Hv]; [done|].
    apply goods_set; [done|right].
    assert (Hn : exists n, h = S n) by (exists (pred h); destruct Hv as [_ Hv]; pose proof (height_pos (AObj srcProps)); lia).
    destruct Hn as [n Hn]. rewrite Hn in Hv |- *. apply good_obj_inv in Hv as [Hr Hm].
    assert (Hd : reference defs (default [] (as_map (map_get "properties" s))) = None /\
      Forall (fun kv => good defs n kv.2) (default [] (as_map (map_get "properties" s)))).
    { destruct (as_map (map_get "properties" s)) as [d|] eqn:Ed; [|by split; [unfold reference|constructor]].
      apply as_map_Some in Ed. apply good_obj_inv. rewrite <- Hn. by apply (goods_get s "properties"). }
    destruct Hd as [Hd1 Hd2]. destruct (add_absent_good n _ _ Hd1 Hr Hd2 Hm). by apply good_obj.
  - destruct (String.eqb_spec k "required") as [->|_].
    { apply goods_set; [done|left]. apply (bool_decide_unpack _). by vm_compute. }
    destruct (map_has k s); [done|by apply goods_set].
Qed.
Lemma mergeSchemas_goods dst src : goods defs h dst -> goods defs h src -> goods defs h (mergeSchemas dst src).
Proof.
  intros Hd Hs. unfold mergeSchemas. revert dst Hd. induction Hs as [|kv src H _ IH]; intros dst Hd; [done|]. cbn [fold_left].
  by apply IH, merge_member_goods.
Qed.
Lemma merge_fold_goods (g : list (string * any) -> list (string * any)) entries s :
  goods defs h s -> (forall item, AObj item ∈ entries -> goods defs h (g item)) ->
  goods defs h (fold_left (fun merged entry => match entry with AObj item => mergeSchemas merged (g item) | _ => merged end) entries s).
Proof.
  revert s. induction entries as [|v entries IH]; intros s Hs He; [done|]. cbn [fold_left]. apply IH.
  - destruct v as [| | | | |item]; try done. apply mergeSchemas_goods; [done|]. apply He. left.
  - intros item Hi. apply He. by right.
Qed.

(** An entry of a list of schemas. *)
Lemma entry_goods s k l item :
  ref_free defs (AObj s) -> (height (AObj s) <= S h)%nat -> map_get k s = Some (AArr l) -> AObj item ∈ l ->
  resolveRef item defs = item /\ goods defs h item.
Proof.
  intros Hf Hh E Hin. pose proof (free_element _ _ _ (free_get _ _ _ _ Hf E) Hin) as Hi.
  pose proof (height_get _ _ _ E). pose proof (height_element _ _ Hin). split; [|apply goods_members; [done|lia]].
  inversion Hi as [?|?|? Hr _]; subst; [done|]. unfold resolveRef. unfold reference in Hr.
  destruct (as_string (map_get "$ref" item)); [|done]. by destruct defs.
Qed.
End merge.

(** ** Anthropic *)

Lemma flattenAnthropic_goods defs h s :
  ref_free defs (AObj s) -> (height (AObj s) <= S h)%nat -> goods defs h (flattenAnthropicComposition s defs).
Proof.
  intros Hf Hh. pose proof (goods_members defs h s Hf Hh) as Hs.
  assert (Hone : forall key s1, first_variant key defs s = Some s1 -> goods defs h s1).
  { intros key s1. unfold first_variant. destruct (as_list (map_get key s)) as [[|[| | | | |item] rest]|] eqn:E; try done.
    intros [= <-]. apply as_list_Some in E. destruct (entry_goods defs h s key _ item Hf Hh E ltac:(by left)) as [-> Hi].
    by apply goods_without, mergeSchemas_goods. }
  assert (Hv : goods defs h (variants s defs)).
  { unfold variants. destruct (first_variant "oneOf" defs s) eqn:E1; [by eapply Hone|].
    destruct (first_variant "anyOf" defs s) eqn:E2; [by eapply Hone|done]. }
  unfold flattenAnthropicComposition. destruct (as_list (map_get "allOf" s)) as [[|v [|v2 rest]]|] eqn:E; try done.
  - destruct v as [| | | | |item]; try done. apply as_list_Some in E.
    destruct (entry_goods defs h s "allOf" _ item Hf Hh E ltac:(by left)) as [-> Hi]. by apply goods_without, mergeSchemas_goods.
  - apply as_list_Some in E. assert (Hg : goods defs h (merge_all defs (copySchemaExcluding s "allOf") (v :: v2 :: rest))).
    { apply (merge_fold_goods defs h (fun item => resolveRef item defs)); [by apply goods_without|].
      intros item Hin. by destruct (entry_goods defs h s "allOf" _ item Hf Hh E Hin) as [-> Hi]. }
    by destruct v.
Qed.

Definition anthropic_ok (s : list (string * any)) : Prop :=
  (forall k, anthropic_unsupported k = true -> map_get k s = None) /\
  (map_has "properties" s || map_has "required" s = true -> getTypes (map_get "type" s) <> []).
Lemma anthropic_ok_nested f s : anthropic_ok s -> anthropic_ok (nested f ["additionalProperties"] composition_keys s).
Proof.
  intros [H1 H2]. pose proof additional_plain as Hp. split.
  - intros k Hk. rewrite nested_get by done. by rewrite H1.
  - rewrite !map_has_nested, (nested_get_other _ _ _ _ "type") by (done || (apply (bool_decide_unpack _); by vm_compute)). exact H2.
Qed.
Lemma anthropic_level_ok defs s : anthropic_ok (anthropic_level defs s).
Proof.
  unfold anthropic_level, infer_anthropic_type. set (r := map_without anthropic_unsupported (flattenAnthropicComposition s defs)).
  assert (Hr : forall k, anthropic_unsupported k = true -> map_get k r = None).
  { intros k Hk. unfold r. by rewrite map_get_without, Hk. }
  destruct (bool_decide (getTypes (map_get "type" r) = []) && (map_has "properties" r || map_has "required" r)) eqn:E; split; try done.
  - intros k Hk. rewrite map_get_set. destruct (String.eqb_spec k "type") as [->|]; [done|by apply Hr].
  - by rewrite map_get_set.
  - intros Hh Ht. by rewrite (bool_decide_eq_true_2 _ Ht), Hh in E.
Qed.
Lemma anthropic_level_goods defs h s :
  ref_free defs (AObj s) -> (height (AObj s) <= S h)%nat -> goods defs h (anthropic_level defs s).
Proof.
  intros Hf Hh. unfold anthropic_level, infer_anthropic_type. pose proof (goods_without _ _ anthropic_unsupported _ (flattenAnthropic_goods defs h s Hf Hh)) as Hg.
  destruct (_ && _); [|done]. apply goods_set; [done|left]. apply (bool_decide_unpack _). by vm_compute.
Qed.
Lemma sanitizeAnthropicSchema_S fuel defs s :
  sanitizeAnthropicSchema (S fuel) defs s =
  nested (sanitizeAnthropicSchema fuel defs) ["additionalProperties"] composition_keys (anthropic_level defs (resolveRefRecursive defs s)).
Proof. cbn [sanitizeAnthropicSchema]. cbv zeta. unfold nested. reflexivity. Qed.
Lemma anthropic_everywhere defs fuel s :
  (height (AObj (resolveRefRecursive defs s)) <= fuel)%nat ->
  everywhere ["additionalProperties"] composition_keys anthropic_ok (sanitizeAnthropicSchema fuel defs s).
Proof.
  revert s. induction fuel as [|fuel IH]; intros s Hh; [pose proof (height_pos (AObj (resolveRefRecursive defs s))); lia|].
  rewrite sanitizeAnthropicSchema_S.
  apply everywhere_step; [exact additional_plain|apply anthropic_ok_nested, anthropic_level_ok|].
  intros m Hm. apply IH.
  destruct (good_sub defs fuel _ _ _ _ (anthropic_level_goods defs fuel _ (resolve_ref_free defs s) Hh) additional_plain ltac:(intros k Hk; clear Hm; revert k Hk; apply Forall_forall; apply (bool_decide_unpack _); by vm_compute) Hm) as [Hf Hm'].
  rewrite (resolve_free _ _ Hf). pose proof (height_without_table m). lia.
Qed.

Lemma free_entries defs s : ref_free defs (AObj s) -> entries_resolved defs s.
Proof.
  intros Hf key l item E Hin. by destruct (entry_goods defs (height (AObj s)) s key l item Hf ltac:(lia) E Hin) as [-> _].
Qed.
Lemma anthropic_derived defs fuel s :
  (height (AObj (resolveRefRecursive defs s)) <= fuel)%nat ->
  derived without_table anthropic_made ["additionalProperties"] composition_keys (resolveRefRecursive defs s) (sanitizeAnthropicSchema fuel defs s).
Proof.
  revert s. induction fuel as [|fuel IH]; intros s Hh; [pose proof (height_pos (AObj (resolveRefRecursive defs s))); lia|].
  rewrite sanitizeAnthropicSchema_S.
  apply (derived_at _ _ _ _ _ _ (anthropic_level defs (resolveRefRecursive defs s)) (sanitizeAnthropicSchema fuel defs));
    [apply anthropic_level_made, free_entries, resolve_ref_free|reflexivity|].
  intros m Hm.
  destruct (good_sub defs fuel _ _ _ _ (anthropic_level_goods defs fuel _ (resolve_ref_free defs s) Hh) additional_plain ltac:(intros k Hk; clear Hm; revert k Hk; apply Forall_forall; apply (bool_decide_unpack _); by vm_compute) Hm) as [Hf Hm'].
  rewrite <- (resolve_free _ _ Hf). apply IH. rewrite (resolve_free _ _ Hf). pose proof (height_without_table m). lia.
Qed.

(** ** Google *)

Lemma free_without_definitions v : ref_free None v.
Proof.
  induction v as [|b|t|s|l IH|m IH] using any_ind; try by constructor.
  apply free_obj; [unfold reference; by destruct (as_string (map_get "$ref" m))|done].
Qed.

Definition google_ok (s : list (string * any)) : Prop :=
  (forall k, google_unsupported k = true -> map_get k s = None) /\ as_list (map_get "oneOf" s) = None /\ as_list (map_get "type" s) = None.
Lemma google_ok_nested f s : google_ok s -> google_ok (nested f [] ["anyOf"] s).
Proof.
  intros (H1 & H2 & H3). pose proof anyOf_plain as Hp. split; [|split].
  - intros k Hk. rewrite nested_get by done. by rewrite H1.
  - rewrite nested_get_other by (done || (apply (bool_decide_unpack _); by vm_compute)). done.
  - rewrite nested_get_other by (done || (apply (bool_decide_unpack _); by vm_compute)). done.
Qed.
Lemma collapse_type s : as_list (map_get "type" (collapseGoogleTypeUnion s)) = None.
Proof.
  unfold collapseGoogleTypeUnion. destruct (as_list (map_get "type" s)) as [l|] eqn:E; [|exact E]. cbv zeta.
  destruct (bool_decide (_ ∈ googleScalarTypes)), (bool_decide ("null" ∈ _)); unfold map_delete;
    try (destruct (map_get "nullable" _) as [[|[]| | | |]|]); by rewrite ?map_get_without, ?map_get_set.
Qed.
Lemma google_level_ok s : google_ok (google_level s).
Proof.
  unfold google_level. split; [|split; [|apply collapse_type]].
  - intros k Hk. rewrite get_collapse, map_get_without, Hk; [done|].
    rewrite !elem_of_cons. intros [->|[->|[->|?%elem_of_nil]]]; done.
  - rewrite get_collapse, map_get_without by (apply (bool_decide_unpack _); by vm_compute). change (google_unsupported "oneOf") with false. cbv iota.
    unfold flattenGoogleComposition.
    destruct (as_list (map_get "oneOf" (match as_list (map_get "allOf" s) with Some (_ :: _) => _ | _ => _ end))) as [l|] eqn:E; [|exact E].
    unfold map_delete. by rewrite map_get_without.
Qed.
Lemma google_level_goods h s : (height (AObj s) <= S h)%nat -> goods None h (google_level s).
Proof.
  intros Hh. pose proof (free_without_definitions (AObj s)) as Hf. pose proof (goods_members None h s Hf Hh) as Hs.
  assert (Hfl : goods None h (flattenGoogleComposition s)).
  { unfold flattenGoogleComposition.
    set (s1 := match as_list (map_get "allOf" s) with Some (_ :: _) => _ | _ => s end).
    assert (H1 : goods None h s1).
    { unfold s1. destruct (as_list (map_get "allOf" s)) as [[|v rest]|] eqn:E; try done. apply as_list_Some in E.
      apply (merge_fold_goods None h (fun item => item)); [by apply goods_without|].
      intros item Hin. by apply (entry_goods None h s "allOf" _ item Hf Hh E Hin). }
    destruct (as_list (map_get "oneOf" s1)) as [l|] eqn:E; [|done]. apply goods_without. destruct (map_has "anyOf" s1); [done|].
    apply goods_set; [done|right]. apply as_list_Some in E.
    apply (goods_get None h s1 "oneOf"); [done|apply (bool_decide_unpack _); by vm_compute|done]. }
  unfold google_level. set (r := map_without google_unsupported (flattenGoogleComposition s)).
  assert (Hr : goods None h r) by by apply goods_without.
  unfold collapseGoogleTypeUnion. destruct (as_list (map_get "type" r)) as [l|]; [|done]. cbv zeta.
  set (r1 := map_set "type" _ r).
  assert (Hr1 : goods None h r1) by (apply goods_set; [done|left; apply (bool_decide_unpack _); by vm_compute]).
  assert (Hn : goods None h (map_set "nullable" (ABool true) r1)) by (apply goods_set; [done|left; apply (bool_decide_unpack _); by vm_compute]).
  assert (Hd : forall (b : bool) s, goods None h s -> goods None h (if b then map_delete "items" s else s)).
  { intros [] s' Hs'; [by apply goods_without|done]. }
  apply Hd. destruct (bool_decide ("null" ∈ _)); [|done]. by destruct (map_get "nullable" r1) as [[|[]| | | |]|].
Qed.
Lemma google_everywhere fuel s :
  (height (AObj s) <= fuel)%nat -> everywhere [] ["anyOf"] google_ok (sanitizeGoogleSchema fuel s).
Proof.
  revert s. induction fuel as [|fuel IH]; intros s Hh; [pose proof (height_pos (AObj s)); lia|].
  change (everywhere [] ["anyOf"] google_ok (nested (sanitizeGoogleSchema fuel) [] ["anyOf"] (google_level s))).
  apply everywhere_step; [exact anyOf_plain|apply google_ok_nested, google_level_ok|].
  intros m Hm. apply IH.
  by destruct (good_sub None fuel _ _ _ _ (google_level_goods fuel s Hh) anyOf_plain
    ltac:(intros k Hk; clear Hm; revert k Hk; apply Forall_forall; apply (bool_decide_unpack _); by vm_compute) Hm) as [_ Hm'].
Qed.

Lemma google_derived fuel s :
  (height (AObj s) <= fuel)%nat -> derived id google_made [] ["anyOf"] s (sanitizeGoogleSchema fuel s).
Proof.
  revert s. induction fuel as [|fuel IH]; intros s Hh; [pose proof (height_pos (AObj s)); lia|].
  apply (derived_at _ _ _ _ _ _ (google_level s) (sanitizeGoogleSchema fuel)); [apply google_level_made|reflexivity|].
  intros m Hm. apply IH.
  by destruct (good_sub None fuel _ _ _ _ (google_level_goods fuel s Hh) anyOf_plain
    ltac:(intros k Hk; clear Hm; revert k Hk; apply Forall_forall; apply (bool_decide_unpack _); by vm_compute) Hm) as [_ Hm'].
Qed.

(** C27: what each provider is sent, at the root of a tool's schema and at every
    place below where a schema is expected, however deep.
    OpenAI: none of the forbidden keywords, a type wherever there are
    properties, and every schema whose one type is object closed, with its
    properties given and its required names among them, sorted and each once -
    in strict mode all of them (an object that may be null is left open).
    Anthropic: none of the unsupported keywords and a type wherever there are
    properties.  A non-empty [allOf] is merged into the schema around it
    (a single entry only when it is an object), otherwise the first variant of a
    [oneOf] or else of an [anyOf], when it is an object; only the keyword that
    was merged goes, so another one beside it, or one of the merged schema, is
    still sent.
    Google: none of the unsupported keywords, a [oneOf] renamed to [anyOf], one
    type instead of a union, and a non-empty [allOf] merged; one of a merged
    schema, or an empty one, is still sent.
    A merge keeps every property and every required name of the schemas that are
    merged, and the schema around wins; whatever a level does not name, it
    keeps.  Google's form is made from OpenAI's, read back; where the text of
    that does not decode to an object, it is sent as it is.  A text that is no
    object is passed on. *)
Theorem provider_schemas float_text raw :
  match Unmarshal_map float_text raw with
  | Some (Some m) =>
      (forall strict, exists r, sanitizeSchemaForOpenAI float_text raw strict = marshalPreservingKeyOrder raw (Some r) /\
        everywhere [] composition_keys (openai_ok strict) r /\
        derived without_table openai_made [] composition_keys (resolveRefRecursive (extractDefs m) m) r) /\
      (exists r, SanitizeSchemaForAnthropic float_text raw = marshalPreservingKeyOrder raw (Some r) /\
        everywhere ["additionalProperties"] composition_keys anthropic_ok r /\
        derived without_table anthropic_made ["additionalProperties"] composition_keys (resolveRefRecursive (extractDefs m) m) r) /\
      match Unmarshal_map float_text (SanitizeSchemaForOpenAINonStrict float_text raw) with
      | Some (Some m') =>
          exists r, SanitizeSchemaForGoogle float_text raw = marshalPreservingKeyOrder raw (Some r) /\
            everywhere [] ["anyOf"] google_ok r /\ derived id google_made [] ["anyOf"] m' r
      | _ => SanitizeSchemaForGoogle float_text raw = SanitizeSchemaForOpenAINonStrict float_text raw
      end
  | Some None => True
  | None => (forall strict, sanitizeSchemaForOpenAI float_text raw strict = raw) /\ SanitizeSchemaForAnthropic float_text raw = raw /\
      SanitizeSchemaForGoogle float_text raw = raw
  end.
Proof.
  destruct (Unmarshal_map float_text raw) as [[m|]|] eqn:E; [|done|].
  - assert (Hne : String.eqb raw "" = false) by (apply String.eqb_neq; intros ->; by vm_compute in E).
    split_and!.
    + intros strict. eexists. unfold sanitizeSchemaForOpenAI, sanitize_text. rewrite Hne, E. split; [reflexivity|].
      split; [by apply openai_everywhere|by apply openai_derived].
    + eexists. unfold SanitizeSchemaForAnthropic, sanitize_text. rewrite Hne, E. split; [reflexivity|].
      split; [by apply anthropic_everywhere|by apply anthropic_derived].
    + unfold SanitizeSchemaForGoogle. cbv zeta. rewrite Hne. set (text := SanitizeSchemaForOpenAINonStrict float_text raw).
      destruct (Unmarshal_map float_text text) as [[m'|]|] eqn:Em; [|by destruct (String.eqb text "")|by destruct (String.eqb text "")].
      assert (Ht : String.eqb text "" = false) by (apply String.eqb_neq; intros Ht; rewrite Ht in Em; by vm_compute in Em).
      rewrite Ht. eexists. split; [reflexivity|]. split; [by apply google_everywhere|by apply google_derived].
  - assert (Ho : forall strict, sanitizeSchemaForOpenAI float_text raw strict = raw).
    { intros strict. unfold sanitizeSchemaForOpenAI, sanitize_text. rewrite E. by destruct (String.eqb raw ""). }
    split_and!; [done|unfold SanitizeSchemaForAnthropic, sanitize_text; rewrite E; by destruct (String.eqb raw "")|].
    unfold SanitizeSchemaForGoogle, SanitizeSchemaForOpenAINonStrict. rewrite Ho, E. by destruct (String.eqb raw "").
Qed.

(** ** Examples *)

Definition all_schema : string :=
  obj [("allOf", arr [obj [("properties", obj [("a", of_type "string")]); ("required", arr [q "a"])];
                      obj [("properties", obj [("b", of_type "integer")])]])].
Definition first_part : list (string * any) :=
  [("properties", AObj [("a", AObj [("type", AStr "string")])]); ("required", AArr [AStr "a"]); ("additionalProperties", ABool false);
   ("type", AStr "object")].
(** The properties of the merged schemas are those of the one that is sent. *)
Lemma provider_schemas_witness :
  exists r, SanitizeSchemaForGoogle (fun n => n) all_schema = marshalPreservingKeyOrder all_schema (Some r) /\
    everywhere [] ["anyOf"] google_ok r /\ is_Some (map_get "properties" r) /\ map_get "allOf" r = None.
Proof.
  pose proof (provider_schemas (fun n => n) all_schema) as H.
  set (decoded := Unmarshal_map (fun n => n) all_schema) in H. assert (E : exists m, decoded = Some (Some m)) by (vm_compute; by eexists).
  destruct E as [m E]. rewrite E in H. destruct H as (_ & _ & H).
  set (text := SanitizeSchemaForOpenAINonStrict (fun n => n) all_schema) in H.
  assert (Em : Unmarshal_map (fun n => n) text =
    Some (Some [("allOf", AArr [AObj first_part;
                                AObj [("properties", AObj [("b", AObj [("type", AStr "integer")])]); ("additionalProperties", ABool false); ("type", AStr "object")]])])) by (vm_compute; reflexivity).
  rewrite Em in H. destruct H as (r & Hr & Hev & [r1 f (s' & Hall & Hfrom) -> _]). eexists. split; [exact Hr|]. split; [exact Hev|].
  pose proof anyOf_plain as Hp. cbn [allOf_merged map_get String.eqb Ascii.eqb Bool.eqb] in Hall. destruct Hall as [Hm _ Hg _ _ _], Hfrom as [_ Hk _ _ _].
  clear -Hm Hg Hk Hp.
  assert (Hget : forall k, k ∉ ["type"; "nullable"; "items"; "oneOf"; "anyOf"] -> google_unsupported k = false ->
    map_get k (nested f [] ["anyOf"] r1) = place_value f [] ["anyOf"] k <$> map_get k s').
  { intros k Hn Hu. rewrite nested_get by exact Hp. by rewrite Hk. }
  split; rewrite Hget; [|by apply (bool_decide_unpack _)|vm_compute; reflexivity| |by apply (bool_decide_unpack _)|vm_compute; reflexivity].
  - destruct (Hg "a" first_part) as [v Hv]; [left|vm_compute; by eexists|].
    unfold prop in Hv. destruct (map_get "properties" s') as [w|]; [by eexists|done].
  - rewrite (Hm "allOf"); [reflexivity|discriminate..].
Defined.

(** An [allOf] inside a merged one is left in the schema, a keyword Google does
    not have; so is an empty one. *)
Example google_allOf_left :
  SanitizeSchemaForGoogle (fun n => n) (obj [("allOf", arr [obj [("allOf", arr [of_type "string"])]])]) =
    obj [("allOf", arr [of_type "string"])] /\
  SanitizeSchemaForGoogle (fun n => n) (obj [("type", q "string"); ("allOf", "[]")]) = obj [("type", q "string"); ("allOf", "[]")].
Proof. vm_compute. done. Qed.

(** Only the first of the variants is left, at every level. *)
Example anthropic_variants :
  SanitizeSchemaForAnthropic (fun n => n)
    (obj [("type", q "object"); ("properties", obj [("note", obj [("anyOf", arr [of_type "string"; of_type "null"])])])]) =
  obj [("type", q "object"); ("properties", obj [("note", of_type "string")])].
Proof. vm_compute. done. Qed.
