(* ===== verification/ModelTable.v ===== *)
(** * The built-in catalog of models

    The table of [makeBuiltInRegistry] in llm/modelregistry.go, entry by entry
    and in its order, in parts of at most 150 lines of the source. *)

From Stdlib Require Import ZArith.
From stdpp Require Import base gmap strings list.
From S2P Require Import Prelude.
Open Scope sp4rk_scope.
Open Scope Z_scope.

Record ModelCapabilities := mkCaps { Attachment : bool; Reasoning : bool; Temperature : bool; ToolCall : bool }.
#[export] Instance ModelCapabilities_eq_dec : EqDecision ModelCapabilities.
Proof. solve_decision. Defined.

(** [Capabilities] is a pointer: [None], nil. *)
Record ModelMetadata := mkMeta {
  ContextWindow : Z;
  OutputLimit : Z;
  TokenizerType : string;
  Family : string;
  Protocol : string;
  Capabilities : option ModelCapabilities;
  GuessedCapabilities : bool;
}.
#[export] Instance ModelMetadata_eq_dec : EqDecision ModelMetadata.
Proof. solve_decision. Defined.

Definition entry (window limit : Z) (tokenizer family : string) (caps : ModelCapabilities) : ModelMetadata :=
  mkMeta window limit tokenizer family "" (Some caps) false.

Definition catalog_1 : list (string * ModelMetadata) := [
  ("gpt-6-astra", entry 1050000 128000 "tiktoken/o200k_base" "openai_flagship" (mkCaps true true false true));
  ("gpt-6.1-sol", entry 1050000 128000 "tiktoken/o200k_base" "openai_flagship" (mkCaps true true false true));
  ("gpt-6-sol", entry 1050000 128000 "tiktoken/o200k_base" "openai_flagship" (mkCaps true true false true));
  ("gpt-6-luna", entry 1050000 128000 "tiktoken/o200k_base" "openai_flagship" (mkCaps true true false true));
  ("gpt-5.6", entry 1050000 128000 "tiktoken/o200k_base" "openai_flagship" (mkCaps true true false true));
  ("gpt-5.6-sol", entry 1050000 128000 "tiktoken/o200k_base" "openai_flagship" (mkCaps true true false true));
  ("gpt-5.6-terra", entry 1050000 128000 "tiktoken/o200k_base" "openai_flagship" (mkCaps true true false true));
  ("gpt-5.6-luna", entry 1050000 128000 "tiktoken/o200k_base" "openai_flagship" (mkCaps true true false true));
  ("gpt-5.6-cyber", entry 400000 128000 "tiktoken/o200k_base" "openai_flagship" (mkCaps true true false true));
  ("gpt-5.5", entry 1050000 128000 "tiktoken/o200k_base" "openai_flagship" (mkCaps true true false true));
  ("gpt-5.5-pro", entry 1050000 128000 "tiktoken/o200k_base" "openai_flagship" (mkCaps true true false true));
  ("gpt-5.4", entry 1050000 128000 "tiktoken/o200k_base" "openai_flagship" (mkCaps true true false true));
  ("gpt-5.4-mini", entry 400000 128000 "tiktoken/o200k_base" "openai_flagship" (mkCaps true true false true));
  ("gpt-5.4-nano", entry 400000 128000 "tiktoken/o200k_base" "openai_flagship" (mkCaps true true false true));
  ("gpt-5.4-pro", entry 1050000 128000 "tiktoken/o200k_base" "openai_flagship" (mkCaps true true false true));
  ("gpt-5.2", entry 400000 128000 "tiktoken/o200k_base" "openai_flagship" (mkCaps true true false true));
  ("gpt-5.2-pro", entry 400000 128000 "tiktoken/o200k_base" "openai_flagship" (mkCaps true true false true));
  ("gpt-5.1", entry 400000 128000 "tiktoken/o200k_base" "openai_flagship" (mkCaps true true false true));
  ("gpt-5", entry 400000 128000 "tiktoken/o200k_base" "openai_flagship" (mkCaps true true false true));
  ("gpt-5-mini", entry 400000 128000 "tiktoken/o200k_base" "openai_flagship" (mkCaps true true false true))].

Definition catalog_2 : list (string * ModelMetadata) := [
  ("gpt-5-nano", entry 400000 128000 "tiktoken/o200k_base" "openai_flagship" (mkCaps true true false true));
  ("gpt-5-pro", entry 400000 272000 "tiktoken/o200k_base" "openai_flagship" (mkCaps true true false true));
  ("gpt-4.1", entry 1047576 32768 "tiktoken/o200k_base" "openai_standard" (mkCaps true false true true));
  ("gpt-4.1-mini", entry 1047576 32768 "tiktoken/o200k_base" "openai_standard" (mkCaps true false true true));
  ("gpt-4.1-nano", entry 1047576 32768 "tiktoken/o200k_base" "openai_standard" (mkCaps true false true true));
  ("o4-mini", entry 200000 100000 "tiktoken/o200k_base" "openai_flagship" (mkCaps true true false true));
  ("o3", entry 200000 100000 "tiktoken/o200k_base" "openai_flagship" (mkCaps true true false true));
  ("o3-mini", entry 200000 100000 "tiktoken/o200k_base" "openai_flagship" (mkCaps false true false true));
  ("o1", entry 200000 100000 "tiktoken/o200k_base" "openai_flagship" (mkCaps true true false true));
  ("o1-mini", entry 128000 65536 "tiktoken/o200k_base" "openai_flagship" (mkCaps false true false true));
  ("gpt-4o", entry 128000 16384 "tiktoken/o200k_base" "openai_flagship" (mkCaps true false true true));
  ("gpt-4o-mini", entry 128000 16384 "tiktoken/o200k_base" "openai_flagship" (mkCaps true false true true));
  ("codex-mini-latest", entry 200000 100000 "tiktoken/o200k_base" "openai_codex" (mkCaps true true false true));
  ("gpt-5.3-codex", entry 400000 128000 "tiktoken/o200k_base" "openai_codex" (mkCaps true true false true));
  ("claude-fable-5", entry 1000000 128000 "anthropic-api" "anthropic" (mkCaps true true false true));
  ("claude-opus-5", entry 1000000 128000 "anthropic-api" "anthropic" (mkCaps true true false true));
  ("claude-sonnet-5", entry 1000000 128000 "anthropic-api" "anthropic" (mkCaps true true false true));
  ("claude-opus-4-8", entry 1000000 128000 "anthropic-api" "anthropic" (mkCaps true true false true));
  ("claude-opus-4-7", entry 1000000 128000 "anthropic-api" "anthropic" (mkCaps true true false true))].

Definition catalog_3 : list (string * ModelMetadata) := [
  ("claude-opus-4-6", entry 1000000 128000 "anthropic-api" "anthropic" (mkCaps true true true true));
  ("claude-sonnet-4-6", entry 1000000 128000 "anthropic-api" "anthropic" (mkCaps true true true true));
  ("claude-haiku-4-5", entry 200000 64000 "anthropic-api" "anthropic" (mkCaps true true true true));
  ("claude-sonnet-4-5", entry 200000 64000 "anthropic-api" "anthropic" (mkCaps true true true true));
  ("claude-opus-4-5", entry 200000 64000 "anthropic-api" "anthropic" (mkCaps true true true true));
  ("claude-sonnet-4", entry 200000 64000 "anthropic-api" "anthropic" (mkCaps true true true true));
  ("claude-opus-4", entry 200000 32000 "anthropic-api" "anthropic" (mkCaps true true true true));
  ("claude-3.5-sonnet", entry 200000 8192 "anthropic-api" "anthropic" (mkCaps true false true true));
  ("claude-3.5-haiku", entry 200000 8192 "anthropic-api" "anthropic" (mkCaps true false true true));
  ("gemini-3.6-flash", entry 1048576 65536 "approximate" "google" (mkCaps true true true true));
  ("gemini-3.5-flash-lite", entry 1048576 65536 "approximate" "google" (mkCaps true false true true));
  ("gemini-3.1-pro", entry 1048576 65536 "approximate" "google" (mkCaps true true true true));
  ("gemini-3.1-flash-lite", entry 1048576 65536 "approximate" "google" (mkCaps true false true true));
  ("gemini-3-flash", entry 1048576 65536 "approximate" "google" (mkCaps true true true true));
  ("gemini-2.5-pro", entry 1048576 65536 "approximate" "google" (mkCaps true true true true));
  ("gemini-2.5-flash", entry 1048576 65536 "approximate" "google" (mkCaps true true true true));
  ("gemini-2.5-flash-lite", entry 1048576 65536 "approximate" "google" (mkCaps true false true true));
  ("gemini-2.0-flash", entry 1048576 8192 "approximate" "google" (mkCaps true false true true));
  ("gemma-4-31b-it", entry 256000 32768 "approximate" "google" (mkCaps true true true true))].

Definition catalog_4 : list (string * ModelMetadata) := [
  ("deepseek-v4-pro", entry 1000000 384000 "approximate" "deepseek" (mkCaps false true true true));
  ("deepseek-v4-flash", entry 1000000 384000 "approximate" "deepseek" (mkCaps false true true true));
  ("deepseek-flash", entry 1000000 384000 "approximate" "deepseek" (mkCaps true true true true));
  ("deepseek-v4-flash-vision-exp", entry 1000000 384000 "approximate" "deepseek" (mkCaps true true true true));
  ("kimi-k3", entry 1000000 131072 "approximate" "kimi" (mkCaps true true false true));
  ("k3", entry 1000000 131072 "approximate" "kimi" (mkCaps true true false true));
  ("k3-256k", entry 262144 65536 "approximate" "kimi" (mkCaps true true false true));
  ("kimi-k2.7-code", entry 262144 65536 "approximate" "kimi" (mkCaps true true false true));
  ("kimi-k2.7-code-highspeed", entry 262144 65536 "approximate" "kimi" (mkCaps true true false true));
  ("kimi-for-coding", entry 262144 65536 "approximate" "kimi" (mkCaps true true false true));
  ("kimi-for-coding-highspeed", entry 262144 65536 "approximate" "kimi" (mkCaps true true false true));
  ("kimi-k2.6", entry 262144 65536 "approximate" "kimi" (mkCaps true true true true));
  ("kimi-k2.5", entry 262144 65536 "approximate" "kimi" (mkCaps true true true true));
  ("kimi-k2", entry 131072 32768 "approximate" "kimi" (mkCaps false false true true))].

Definition catalog_5 : list (string * ModelMetadata) := [
  ("kimi-k2-thinking", entry 131072 32768 "approximate" "kimi" (mkCaps false true false true));
  ("qwen3.8-max", entry 1048576 131072 "approximate" "qwen" (mkCaps true true true true));
  ("qwen3.7-max", entry 1000000 65536 "approximate" "qwen" (mkCaps false true true true));
  ("qwen3.7-plus", entry 1000000 65536 "approximate" "qwen" (mkCaps false true true true));
  ("qwen3.6-flash", entry 1000000 65536 "approximate" "qwen" (mkCaps false true true true));
  ("qwen3-coder-plus", entry 1000000 65536 "approximate" "qwen" (mkCaps false true true true));
  ("qwen-plus", entry 1000000 8192 "approximate" "qwen" (mkCaps false true true true));
  ("qwen-max", entry 128000 8192 "approximate" "qwen" (mkCaps false false true true));
  ("qwq-plus", entry 128000 16384 "approximate" "qwen" (mkCaps false true false true));
  ("glm-5.3", entry 1000000 128000 "approximate" "glm" (mkCaps false true true true));
  ("glm-5.2", entry 1000000 128000 "approximate" "glm" (mkCaps false true true true));
  ("glm-5.1", entry 200000 128000 "approximate" "glm" (mkCaps false true true true));
  ("glm-5", entry 200000 128000 "approximate" "glm" (mkCaps false true true true));
  ("glm-4.7", entry 200000 128000 "approximate" "glm" (mkCaps false true true true));
  ("glm-z1-32b", entry 128000 16384 "approximate" "glm" (mkCaps false true false true));
  ("grok-4.5", entry 500000 32768 "approximate" "default" (mkCaps true false true true))].

Definition catalog_6 : list (string * ModelMetadata) := [
  ("grok-4.3", entry 1000000 32768 "approximate" "default" (mkCaps true false true true));
  ("grok-4.20", entry 1000000 32768 "approximate" "default" (mkCaps true false true true));
  ("grok-4", entry 256000 32768 "approximate" "default" (mkCaps false false true true));
  ("grok-3", entry 131072 32768 "approximate" "default" (mkCaps false false true true));
  ("grok-3-mini", entry 131072 32768 "approximate" "default" (mkCaps false true true true));
  ("qwen/qwen3-4b-2507", entry 262144 65536 "approximate" "qwen" (mkCaps false false true true));
  ("qwen/qwen3-4b-thinking-2507", entry 262144 65536 "approximate" "qwen" (mkCaps false true true true));
  ("qwen/qwen3-30b-a3b-2507", entry 262144 65536 "approximate" "qwen" (mkCaps false false true true));
  ("qwen/qwen3-30b-a3b-thinking-2507", entry 262144 65536 "approximate" "qwen" (mkCaps false true true true));
  ("qwen/qwen3-235b-a22b-2507", entry 262144 65536 "approximate" "qwen" (mkCaps false false true true));
  ("qwen/qwen3-235b-a22b-thinking-2507", entry 262144 65536 "approximate" "qwen" (mkCaps false true true true));
  ("qwen/qwen3-4b", entry 131072 32768 "approximate" "qwen" (mkCaps false true true true));
  ("qwen/qwen3-8b", entry 131072 32768 "approximate" "qwen" (mkCaps false true true true));
  ("qwen/qwen3-14b", entry 131072 32768 "approximate" "qwen" (mkCaps false true true true));
  ("qwen/qwen3-32b", entry 131072 32768 "approximate" "qwen" (mkCaps false true true true));
  ("qwen/qwen3-30b-a3b", entry 131072 32768 "approximate" "qwen" (mkCaps false true true true));
  ("qwen/qwen3-235b-a22b", entry 131072 32768 "approximate" "qwen" (mkCaps false true true true));
  ("qwen/qwen3.5-2b", entry 262144 65536 "approximate" "qwen" (mkCaps true true true true))].

Definition catalog_7 : list (string * ModelMetadata) := [
  ("qwen/qwen3.5-4b", entry 262144 65536 "approximate" "qwen" (mkCaps true true true true));
  ("qwen/qwen3.5-9b", entry 262144 65536 "approximate" "qwen" (mkCaps true true true true));
  ("qwen/qwen3.5-27b", entry 262144 65536 "approximate" "qwen" (mkCaps true true true true));
  ("qwen/qwen3.5-35b-a3b", entry 262144 65536 "approximate" "qwen" (mkCaps true true true true));
  ("qwen/qwen3.5-397b-a17b-fp8", entry 262144 65536 "approximate" "qwen" (mkCaps true true true true));
  ("qwen/qwen3.5-122b-a10b-fp8", entry 262144 65536 "approximate" "qwen" (mkCaps true true true true));
  ("qwen/qwen3.6-27b", entry 262144 65536 "approximate" "qwen" (mkCaps true true true true));
  ("qwen/qwen3.6-35b-a3b", entry 262144 65536 "approximate" "qwen" (mkCaps true true true true));
  ("qwen/qwen3.6-35b-a3b-fp8", entry 262144 65536 "approximate" "qwen" (mkCaps true true true true));
  ("qwen/qwen3.8-27b", entry 262144 65536 "approximate" "qwen" (mkCaps true true true true));
  ("qwen/qwen3.8-2.4t-a95b", entry 262144 65536 "approximate" "qwen" (mkCaps false true true true));
  ("qwen/qwen3.8-2.4t-a95b-fp8", entry 262144 65536 "approximate" "qwen" (mkCaps false true true true));
  ("qwen/qwen3.8-27b-fp8", entry 262144 65536 "approximate" "qwen" (mkCaps true true true true));
  ("prism-ml/ternary-bonsai-2-27b", entry 262144 32768 "approximate" "qwen" (mkCaps true true true true))].

Definition catalog_8 : list (string * ModelMetadata) := [
  ("bonsai 2 27b", entry 262144 32768 "approximate" "qwen" (mkCaps true true true true));
  ("qwen/qwen3.8-flash-next", entry 262144 65536 "approximate" "qwen" (mkCaps true true true true));
  ("qwen/qwen3.8-flash", entry 1048576 65536 "approximate" "qwen" (mkCaps true true true true));
  ("qwen/qwen3-coder-30b", entry 262144 65536 "approximate" "qwen" (mkCaps false false true true));
  ("qwen/qwen3-coder-480b", entry 262144 65536 "approximate" "qwen" (mkCaps false false true true));
  ("qwen/qwen3-coder-next", entry 262144 65536 "approximate" "qwen" (mkCaps false false true true));
  ("qwen/qwen3-next-80b", entry 262144 65536 "approximate" "qwen" (mkCaps false false true true));
  ("qwen/qwen3-vl-2b", entry 262144 65536 "approximate" "qwen" (mkCaps true true true true));
  ("qwen/qwen3-vl-4b", entry 262144 65536 "approximate" "qwen" (mkCaps true true true true));
  ("qwen/qwen3-vl-8b", entry 262144 65536 "approximate" "qwen" (mkCaps true true true true));
  ("qwen/qwen3-vl-30b", entry 262144 65536 "approximate" "qwen" (mkCaps true true true true));
  ("qwen/qwen3-vl-32b", entry 262144 65536 "approximate" "qwen" (mkCaps true true true true));
  ("qwen/qwen2.5-vl-3b", entry 128000 8192 "approximate" "qwen" (mkCaps true false true true));
  ("qwen/qwen2.5-vl-7b", entry 128000 8192 "approximate" "qwen" (mkCaps true false true true));
  ("qwen/qwen2.5-vl-32b", entry 128000 8192 "approximate" "qwen" (mkCaps true false true true));
  ("qwen/qwen2.5-vl-72b", entry 128000 8192 "approximate" "qwen" (mkCaps true false true true));
  ("deepseek/deepseek-r1-0528-qwen3-8b", entry 131072 32768 "approximate" "deepseek" (mkCaps false true true false));
  ("deepseek/deepseek-r1-distill-qwen-7b", entry 131072 32768 "approximate" "deepseek" (mkCaps false true true false))].

Definition catalog_9 : list (string * ModelMetadata) := [
  ("deepseek/deepseek-r1-distill-llama-8b", entry 131072 32768 "approximate" "deepseek" (mkCaps false true true false));
  ("deepseek/deepseek-r1-distill-qwen-14b", entry 131072 32768 "approximate" "deepseek" (mkCaps false true true false));
  ("deepseek/deepseek-r1-distill-qwen-32b", entry 131072 32768 "approximate" "deepseek" (mkCaps false true true false));
  ("deepseek/deepseek-r1-distill-llama-70b", entry 131072 32768 "approximate" "deepseek" (mkCaps false true true false));
  ("zai-org/glm-4.7-flash", entry 202752 32768 "approximate" "glm" (mkCaps false true true true));
  ("zai-org/glm-4.6v-flash", entry 131072 32768 "approximate" "glm" (mkCaps true true true true));
  ("zai-org/glm-5.2-fp8", entry 1048576 65536 "approximate" "glm" (mkCaps false true true true));
  ("zai-org/glm-5.3-flash", entry 1048576 128000 "approximate" "glm" (mkCaps true true true true));
  ("google/gemma-4-e2b", entry 131072 32768 "approximate" "google" (mkCaps true true true true));
  ("google/gemma-4-e4b", entry 131072 32768 "approximate" "google" (mkCaps true true true true));
  ("google/gemma-4-12b", entry 262144 65536 "approximate" "google" (mkCaps true true true true));
  ("google/gemma-4-26b-a4b", entry 262144 65536 "approximate" "google" (mkCaps true true true true));
  ("google/gemma-4-31b", entry 262144 65536 "approximate" "google" (mkCaps true true true true));
  ("google/gemma-4-12b-qat", entry 262144 65536 "approximate" "google" (mkCaps true true true true));
  ("google/gemma-4-26b-a4b-qat", entry 262144 65536 "approximate" "google" (mkCaps true true true true));
  ("google/gemma-4-31b-qat", entry 262144 65536 "approximate" "google" (mkCaps true true true true));
  ("google/gemma-4-31b-it-fp8", entry 262144 65536 "approximate" "google" (mkCaps true true true true))].

Definition catalog_10 : list (string * ModelMetadata) := [
  ("google/gemma-3-270m", entry 32768 8192 "approximate" "google" (mkCaps false false true false));
  ("google/gemma-3-1b", entry 32768 8192 "approximate" "google" (mkCaps false false true true));
  ("google/gemma-3-4b", entry 131072 8192 "approximate" "google" (mkCaps true false true true));
  ("google/gemma-3-12b", entry 131072 8192 "approximate" "google" (mkCaps true false true true));
  ("google/gemma-3-27b", entry 131072 8192 "approximate" "google" (mkCaps true false true true));
  ("google/gemma-3n-e2b", entry 32768 8192 "approximate" "google" (mkCaps true false true false));
  ("google/gemma-3n-e4b", entry 32768 8192 "approximate" "google" (mkCaps true false true false));
  ("google/functiongemma-270m", entry 32768 8192 "approximate" "google" (mkCaps false false true true));
  ("mistralai/mistral-7b-instruct-v0.3", entry 32768 8192 "approximate" "mistral" (mkCaps false false true true));
  ("mistralai/mistral-nemo-instruct-2407", entry 131072 32768 "approximate" "mistral" (mkCaps false false true true));
  ("mistralai/mistral-small-3.2", entry 131072 32768 "approximate" "mistral" (mkCaps true false true true));
  ("mistralai/magistral-small-2509", entry 131072 32768 "approximate" "mistral" (mkCaps true true true true));
  ("mistralai/magistral-small", entry 131072 32768 "approximate" "mistral" (mkCaps false true true true));
  ("mistralai/devstral-small-2507", entry 131072 32768 "approximate" "mistral" (mkCaps false false true true));
  ("mistralai/devstral-small-2505", entry 131072 32768 "approximate" "mistral" (mkCaps false false true true));
  ("mistralai/devstral-small-2-2512", entry 131072 32768 "approximate" "mistral" (mkCaps true false true true));
  ("mistralai/devstral-2-2512", entry 262144 65536 "approximate" "mistral" (mkCaps true false true true));
  ("mistralai/codestral-22b-v0.1", entry 32768 8192 "approximate" "mistral" (mkCaps false false true true));
  ("mistralai/ministral-3-3b", entry 262144 65536 "approximate" "mistral" (mkCaps true false true true));
  ("mistralai/ministral-3-8b", entry 262144 65536 "approximate" "mistral" (mkCaps true false true true))].

Definition catalog_11 : list (string * ModelMetadata) := [
  ("mistralai/ministral-3-14b", entry 262144 65536 "approximate" "mistral" (mkCaps true false true true));
  ("openai/gpt-oss-20b", entry 131072 32768 "approximate" "default" (mkCaps false true true true));
  ("openai/gpt-oss-120b", entry 131072 32768 "approximate" "default" (mkCaps false true true true));
  ("openai/gpt-oss-safeguard-20b", entry 131072 32768 "approximate" "default" (mkCaps false false true false));
  ("openai/gpt-oss-safeguard-120b", entry 131072 32768 "approximate" "default" (mkCaps false false true false));
  ("bytedance/seed-oss-36b", entry 524288 16384 "approximate" "default" (mkCaps false true true true));
  ("baidu/ernie-4.5-21b-a3b", entry 131072 32768 "approximate" "default" (mkCaps false false true true));
  ("nvidia/nemotron-3-nano", entry 1048576 16384 "approximate" "default" (mkCaps false true true true));
  ("nvidia/nemotron-3-nano-omni", entry 131072 32768 "approximate" "default" (mkCaps true true true true));
  ("nvidia/nemotron-3-super", entry 1048576 16384 "approximate" "default" (mkCaps false true true true));
  ("ibm/granite-4-h-micro", entry 131072 32768 "approximate" "default" (mkCaps false false true true));
  ("ibm/granite-4-micro", entry 131072 32768 "approximate" "default" (mkCaps false false true true));
  ("ibm/granite-4-h-tiny", entry 131072 32768 "approximate" "default" (mkCaps false false true true));
  ("ibm/granite-4-h-small", entry 131072 32768 "approximate" "default" (mkCaps false false true true));
  ("ibm/granite-4.1-3b", entry 131072 32768 "approximate" "default" (mkCaps false false true true));
  ("ibm/granite-4.1-8b", entry 131072 32768 "approximate" "default" (mkCaps false false true true));
  ("ibm/granite-4.1-30b", entry 131072 32768 "approximate" "default" (mkCaps false false true true));
  ("liquid/lfm2-350m", entry 32768 8192 "approximate" "default" (mkCaps false false true false))].

Definition catalog_12 : list (string * ModelMetadata) := [
  ("liquid/lfm2-700m", entry 32768 8192 "approximate" "default" (mkCaps false false true false));
  ("liquid/lfm2-1.2b", entry 32768 8192 "approximate" "default" (mkCaps false false true false));
  ("liquid/lfm2-24b-a2b", entry 32768 8192 "approximate" "default" (mkCaps false false true true));
  ("allenai/olmo-3-7b", entry 65536 16384 "approximate" "default" (mkCaps false false true true));
  ("allenai/olmo-3-7b-think", entry 65536 16384 "approximate" "default" (mkCaps false true true true));
  ("allenai/olmo-3-32b-think", entry 65536 16384 "approximate" "default" (mkCaps false true true true));
  ("allenai/olmocr-2-7b", entry 128000 16384 "approximate" "default" (mkCaps true false true false));
  ("essentialai/rnj-1", entry 32768 8192 "approximate" "default" (mkCaps false true true true));
  ("minimax/minimax-m2", entry 196608 32768 "approximate" "default" (mkCaps false true true true));
  ("microsoft/phi-4", entry 16384 4096 "approximate" "default" (mkCaps false false true false));
  ("microsoft/phi-4-mini", entry 131072 32768 "approximate" "default" (mkCaps false false true false));
  ("microsoft/phi-4-mini-reasoning", entry 131072 32768 "approximate" "default" (mkCaps false true true true));
  ("microsoft/phi-4-reasoning", entry 32768 8192 "approximate" "default" (mkCaps false true true true));
  ("microsoft/phi-4-reasoning-plus", entry 32768 8192 "approximate" "default" (mkCaps false true true true))].

Definition catalog : list (string * ModelMetadata) :=
  catalog_1 ++ catalog_2 ++ catalog_3 ++ catalog_4 ++ catalog_5 ++ catalog_6 ++ catalog_7 ++ catalog_8 ++ catalog_9 ++ catalog_10 ++ catalog_11 ++ catalog_12.
Definition makeBuiltInRegistry : gmap string ModelMetadata := list_to_map catalog.
