(* ===== verification/Schema.v ===== *)
(** * Validation of tool input: [src/tools/inputvalidate.go]

    Before a tool is dispatched its input is checked against the tool's JSON
    schema: an object with the required parameters, no unknown ones, and values
    of the declared types, recursively.  What the validator does not model
    passes.  The theorem of this file is that it accepts exactly the inputs
    that conform, so that a rejected call is really at fault and an accepted
    one has what the schema asks for.

    A schema is decoded with [Json]; names of struct fields are matched up to
    ASCII case.  [%q] is a parameter. *)

From Stdlib Require Import ZArith Lia Ascii.
From stdpp Require Import base gmap strings list sorting.
From S2P Require Import Prelude GoStr Nudges Fence Json.
Open Scope sp4rk_scope.
Open Scope Z_scope.

Definition maxValidationDepth : nat := 16.

Record InputValidationError := mkInputError {
  ie_tool : string;
  ie_path : string;
  ie_reason : string;
  ie_valid_params : list string;
}.

(** ** A level of a schema *)

Record schemaNode := mkNode {
  n_properties : gmap string string;
  n_required : list string;
  n_additional : string; (** raw; empty: absent *)
  n_items : string;
  n_ref : string;
  n_type : string;
}.

Definition empty_node : schemaNode := mkNode ∅ [] "" "" "" "".

(** A JSON array of strings, null for the empty one. *)
Fixpoint decode_strings (l : list string) : option (list string) :=
  match l with
  | [] => Some []
  | raw :: r =>
      match json_decode raw, decode_strings r with
      | Some (JStr s), Some t => Some (s :: t)
      | Some JNull, Some t => Some ("" :: t)
      | _, _ => None
      end
  end.

(** One member of the object decoded into the struct; [None]: the type of the
    value does not fit the field. *)
Definition set_field (node : schemaNode) (key raw : string) : option schemaNode :=
  let named name := String.eqb (fold_ascii key) (fold_ascii name) in
  let '(mkNode props req add items ref typ) := node in
  if named "properties" then
    match json_decode raw with
    | Some (JObj l) => Some (mkNode (fold_left (fun m kv => <[fst kv := snd kv]> m) l props) req add items ref typ)
    | Some JNull => Some (mkNode ∅ req add items ref typ)
    | _ => None
    end
  else if named "required" then
    match json_decode raw with
    | Some (JArr l) =>
        match decode_strings l with Some s => Some (mkNode props s add items ref typ) | None => None end
    | Some JNull => Some (mkNode props [] add items ref typ)
    | _ => None
    end
  else if named "additionalProperties" then Some (mkNode props req raw items ref typ)
  else if named "items" then Some (mkNode props req add raw ref typ)
  else if named "$ref" then
    match json_decode raw with
    | Some (JStr s) => Some (mkNode props req add items s typ)
    | Some JNull => Some node
    | _ => None
    end
  else if named "type" then Some (mkNode props req add items ref raw)
  else Some node.

(** [json.Unmarshal(raw, &node)] *)
Definition decode_node (raw : string) : option schemaNode :=
  match json_decode raw with
  | Some (JObj l) =>
      fold_left (fun acc kv => match acc with Some n => set_field n (fst kv) (snd kv) | None => None end) l
        (Some empty_node)
  | Some JNull => Some empty_node
  | _ => None
  end.

(** [json.Unmarshal] into a [map[string]json.RawMessage], a [[]json.RawMessage]. *)
Definition decode_object (raw : string) : option (gmap string string) :=
  match json_decode raw with
  | Some (JObj l) => Some (fold_left (fun m kv => <[fst kv := snd kv]> m) l ∅)
  | Some JNull => Some ∅
  | _ => None
  end.
Definition decode_array (raw : string) : option (list string) :=
  match json_decode raw with
  | Some (JArr l) => Some l
  | Some JNull => Some []
  | _ => None
  end.

Definition propertyNames (props : gmap string string) : list string :=
  merge_sort str_le (map fst (map_to_list props)).

Definition additionalPropertiesAllowed (raw : string) (closedByDefault : bool) : bool :=
  let trimmed := trim_space raw in
  if String.eqb trimmed "" || String.eqb trimmed "null" then negb closedByDefault
  else match json_decode raw with Some (JBool b) => b | _ => true end.

Definition decodeSchemaTypes (raw : string) : list string :=
  let trimmed := trim_space raw in
  if String.eqb trimmed "" || String.eqb trimmed "null" then []
  else match json_decode raw with
  | Some (JStr single) => if String.eqb single "" then [] else [single]
  | Some (JArr l) =>
      match decode_strings l with
      | Some many => List.filter (fun t => negb (String.eqb t "")) many
      | None => []
      end
  | _ => []
  end.

Definition jsonTypeNameOf (raw : string) : string :=
  match trim_space raw with
  | "" => "null"
  | String c _ =>
      if Ascii.eqb c "034" then "string"
      else if Ascii.eqb c "t" || Ascii.eqb c "f" then "boolean"
      else if Ascii.eqb c "n" then "null"
      else if Ascii.eqb c "[" then "array"
      else if Ascii.eqb c "{" then "object"
      else "number"
  end.

(** ** Numbers *)

(** [m / 10^k] rounded to a double - the nearest one, ties to even - is an
    integer. *)
Definition rounds_to_integer (m k : Z) : bool :=
  let d := 10 ^ k in
  let e := if m <? d then Z.log2 m - Z.log2 d else Z.log2 (m / d) in
  let e := if (m <? d) && (m * 2 ^ (- e) <? d) then e - 1 else e in
  let quantum := Z.max (e - 52) (-1074) in
  if 0 <=? quantum then true
  else
    let scaled := m * 2 ^ (- quantum) in
    let down := scaled / d in let rest := scaled mod d in
    let r := if 2 * rest <? d then down else if d <? 2 * rest then down + 1
             else if Z.even down then down else down + 1 in
    (r mod 2 ^ (- quantum) =? 0).

(** An integer literal is one whatever its size; anything else is read as a
    double, and one that is out of range counts as an integer. *)
Definition isIntegralJSONNumber (raw : string) : bool :=
  let text := trim_space raw in
  let text := if has_prefix text "-" then str_drop 1 text else text in
  let '(m, k, rest) := mantissa text false 0 0 in
  let k := k - exponent rest in
  if (m =? 0) || (k <=? 0) then true else rounds_to_integer m k.

Definition typeValueCompatible (want value : string) : bool :=
  let actual := jsonTypeNameOf value in
  if String.eqb want actual then true
  else if String.eqb want "integer" && String.eqb actual "number" then isIntegralJSONNumber value
  else false.

(** ** The validator *)

Definition joinPath (path key : string) : string :=
  if String.eqb path "" then key else path +s+ "." +s+ key.

Section validator.
Variable quote : string -> string.
Variable tool : string.
Variable closedByDefault : bool.

Definition first_error {A} (check : A -> option InputValidationError) (l : list A) : option InputValidationError :=
  foldr (fun x acc => match check x with Some e => Some e | None => acc end) None l.

(** [validateSchemaObject]; [value name path schema raw names]: the check of a
    declared value one level deeper. *)
Definition validateSchemaObject
    (value : string -> string -> string -> string -> list string -> option InputValidationError)
    (path : string) (node : schemaNode) (obj : gmap string string) : option InputValidationError :=
  let names := propertyNames (n_properties node) in
  let argNames := propertyNames obj in
  match first_error (fun req =>
      match obj !! req with
      | Some _ => None
      | None => Some (mkInputError tool path ("missing required parameter " +s+ quote req) names)
      end) (n_required node) with
  | Some e => Some e
  | None =>
      let additionalAllowed := additionalPropertiesAllowed (n_additional node) closedByDefault in
      match first_error (fun k =>
          match n_properties node !! k with
          | None =>
              if additionalAllowed then None
              else Some (mkInputError tool path ("unknown parameter " +s+ quote k +s+
                     " (not accepted by this tool; check the tool's parameter list)") names)
          | Some _ => None
          end) argNames with
      | Some e => Some e
      | None =>
          first_error (fun k =>
            match n_properties node !! k, obj !! k with
            | Some prop, Some raw => value k (joinPath path k) prop raw names
            | _, _ => None
            end) argNames
      end
  end.

Fixpoint numbered {A} (i : Z) (l : list A) : list (Z * A) :=
  match l with [] => [] | x :: r => (i, x) :: numbered (i + 1) r end.

(** [validateSchemaValue]: [levels] levels may still be entered, this one
    included. *)
Fixpoint validateSchemaValue (levels : nat) (name path schemaRaw value : string) (validParams : list string)
    : option InputValidationError :=
  match levels with
  | O => None
  | S levels =>
      match decode_node schemaRaw with
      | None => None
      | Some node =>
          if negb (String.eqb (n_ref node) "") then None
          else
            let allowed := decodeSchemaTypes (n_type node) in
            let kind := jsonTypeNameOf value in
            if negb (bool_decide (allowed = [])) && negb (existsb (fun want => typeValueCompatible want value) allowed)
            then
              let validParams :=
                if bool_decide (n_properties node = ∅) then validParams else propertyNames (n_properties node) in
              Some (mkInputError tool path ("parameter " +s+ quote name +s+ " must be of type " +s+
                     join "|" allowed +s+ ", got " +s+ kind) validParams)
            else if String.eqb kind "object" && negb (bool_decide (n_properties node = ∅)) then
              match decode_object value with
              | None => None
              | Some obj =>
                  validateSchemaObject (fun name path schema raw names =>
                    validateSchemaValue levels name path schema raw names) path node obj
              end
            else if String.eqb kind "array" && negb (String.eqb (n_items node) "") then
              match decode_array value with
              | None => None
              | Some arr =>
                  first_error (fun ie =>
                    let elemPath := path +s+ "[" +s+ itoa (fst ie) +s+ "]" in
                    validateSchemaValue levels elemPath elemPath (n_items node) (snd ie) []) (numbered 0 arr)
              end
            else None
      end
  end.

Definition validateToolInput (schema input : string) : option InputValidationError :=
  match decode_node schema with
  | None => None
  | Some node =>
      if negb (String.eqb (n_ref node) "") then None
      else if bool_decide (n_properties node = ∅) then None
      else
        match (if String.eqb (trim_space input) "" then Some ∅ else decode_object input) with
        | None => Some (mkInputError tool "" "input must be a JSON object" (propertyNames (n_properties node)))
        | Some obj => validateSchemaObject (validateSchemaValue maxValidationDepth) "" node obj
        end
  end.
End validator.

(** [ValidateToolInput], [ValidateToolInputForCategory] *)
Definition ValidateToolInput (quote : string -> string) (tool schema input : string) : option InputValidationError :=
  validateToolInput quote tool true schema input.
Definition ValidateToolInputForCategory (quote : string -> string) (tool schema input category : string)
    : option InputValidationError :=
  validateToolInput quote tool (negb (String.eqb category "mcp")) schema input.

(** [InputValidationError.Error] *)
Definition input_error_text (quote : string -> string) (e : InputValidationError) : string :=
  (if negb (String.eqb (ie_path e) "") && negb (contains (ie_reason e) (dq +s+ ie_path e +s+ dq))
   then "input for " +s+ quote (ie_tool e) +s+ " is invalid at " +s+ ie_path e +s+ ": " +s+ ie_reason e
   else "input for " +s+ quote (ie_tool e) +s+ " is invalid: " +s+ ie_reason e) +s+
  (if bool_decide (ie_valid_params e = []) then ""
   else "; valid parameters: " +s+ join ", " (ie_valid_params e)).

(** ** What conforms

    The specification speaks of sets of names and of values, not of the order
    in which the validator finds a fault. *)

(** The declared type, if any, is met. *)
Definition type_ok (node : schemaNode) (value : string) : Prop :=
  decodeSchemaTypes (n_type node) = [] \/
  exists want, want ∈ decodeSchemaTypes (n_type node) /\ typeValueCompatible want value = true.

(** An object has what a level requires, nothing it excludes, and values that
    are right for the declared names. *)
Definition fits (closedByDefault : bool) (value_ok : string -> string -> Prop) (node : schemaNode)
    (obj : gmap string string) : Prop :=
  (forall req, req ∈ n_required node -> is_Some (obj !! req)) /\
  (additionalPropertiesAllowed (n_additional node) closedByDefault = false ->
   forall k, is_Some (obj !! k) -> is_Some (n_properties node !! k)) /\
  (forall k prop raw, n_properties node !! k = Some prop -> obj !! k = Some raw -> value_ok prop raw).

Fixpoint conforms (closedByDefault : bool) (levels : nat) (schema value : string) : Prop :=
  match levels with
  | O => True
  | S levels =>
      forall node, decode_node schema = Some node -> n_ref node = "" ->
        type_ok node value /\
        (jsonTypeNameOf value = "object" -> n_properties node <> ∅ ->
         forall obj, decode_object value = Some obj -> fits closedByDefault (conforms closedByDefault levels) node obj) /\
        (jsonTypeNameOf value = "array" -> n_items node <> "" ->
         forall arr, decode_array value = Some arr ->
         forall x, x ∈ arr -> conforms closedByDefault levels (n_items node) x)
  end.

Definition input_conforms (closedByDefault : bool) (schema input : string) : Prop :=
  forall node, decode_node schema = Some node -> n_ref node = "" -> n_properties node <> ∅ ->
    exists obj, (if String.eqb (trim_space input) "" then Some ∅ else decode_object input) = Some obj /\
      fits closedByDefault (conforms closedByDefault maxValidationDepth) node obj.

Section correctness.
Variable quote : string -> string.
Variable tool : string.
Variable closed : bool.

Lemma first_error_none {A} (check : A -> option InputValidationError) l :
  first_error check l = None <-> forall x, x ∈ l -> check x = None.
Proof.
  induction l as [|x l IH]; simpl.
  - split; [by intros _ y ?%not_elem_of_nil|done].
  - destruct (check x) eqn:E; split; try done.
    + intros Hall. rewrite <- E. apply Hall. by left.
    + intros Hl y [->|Hy]%elem_of_cons; [done|]. by apply IH.
    + intros Hall. apply IH. intros y Hy. apply Hall. by right.
Qed.

Lemma elem_propertyNames k m : k ∈ propertyNames m <-> is_Some (m !! k).
Proof.
  unfold propertyNames. rewrite (merge_sort_Permutation str_le). rewrite list_elem_of_fmap. split.
  - intros ([k' v] & -> & Hin). apply elem_of_map_to_list in Hin. by eexists.
  - intros [v Hv]. exists (k, v). split; [done|]. by apply elem_of_map_to_list.
Qed.

Lemma validateSchemaObject_iff value value_ok path node obj :
  (forall name path prop raw names, value name path prop raw names = None <-> value_ok prop raw) ->
  validateSchemaObject quote tool closed value path node obj = None <-> fits closed value_ok node obj.
Proof.
  intros Hv. unfold validateSchemaObject, fits. cbv zeta.
  set (allowed := additionalPropertiesAllowed (n_additional node) closed).
  match goal with |- match first_error ?f ?l with _ => _ end = None <-> _ =>
    pose proof (first_error_none f l) as H1; destruct (first_error f l) as [e|] end.
  { split; [done|]. intros (Hreq & _ & _). apply H1. intros req Hin. by destruct (Hreq req Hin) as [v ->]. }
  match goal with |- match first_error ?f ?l with _ => _ end = None <-> _ =>
    pose proof (first_error_none f l) as H2; destruct (first_error f l) as [e|] end.
  { split; [done|]. intros (_ & Hclosed & _). apply H2. intros k Hk%elem_propertyNames.
    destruct (n_properties node !! k) eqn:Ep; [done|]. destruct allowed; [done|].
    destruct (Hclosed eq_refl k Hk) as [v Hs]. congruence. }
  rewrite first_error_none. split.
  - intros H3. split; [|split].
    + intros req Hin. pose proof (proj1 H1 eq_refl req Hin) as Hr. by destruct (obj !! req) eqn:E; [eexists|].
    + intros Hfalse k Hk. pose proof (proj1 H2 eq_refl k (proj2 (elem_propertyNames k obj) Hk)) as Hr.
      destruct (n_properties node !! k); [by eexists|]. by rewrite Hfalse in Hr.
    + intros k prop raw Hp Hk. pose proof (H3 k (proj2 (elem_propertyNames k obj) (mk_is_Some _ _ Hk))) as Hr.
      rewrite Hp, Hk in Hr. by apply Hv in Hr.
  - intros (_ & _ & Hvalues) k _. destruct (n_properties node !! k) eqn:Ep; [|done].
    destruct (obj !! k) eqn:Ek; [|done]. apply Hv. by eapply Hvalues.
Qed.

Lemma type_ok_iff node value :
  (negb (bool_decide (decodeSchemaTypes (n_type node) = [])) &&
   negb (existsb (fun want => typeValueCompatible want value) (decodeSchemaTypes (n_type node)))) = false <->
  type_ok node value.
Proof.
  unfold type_ok. rewrite andb_false_iff, !negb_false_iff, bool_decide_eq_true, existsb_exists.
  split; (intros [?|(w & Hin & ?)]; [by left|right; exists w; split; [by apply list_elem_of_In|done]]).
Qed.

Lemma elem_numbered {A} i (l : list A) x : x ∈ l <-> exists j, (j, x) ∈ numbered i l.
Proof.
  revert i; induction l as [|y l IH]; intros i; simpl.
  - split; [by intros ?%not_elem_of_nil|by intros [j ?%not_elem_of_nil]].
  - rewrite elem_of_cons, (IH (i + 1)). setoid_rewrite elem_of_cons. split.
    + intros [->|[j Hj]]; [exists i; by left|exists j; by right].
    + intros [j [[= _ ->]|Hj]]; [by left|right; by exists j].
Qed.

Lemma validateSchemaValue_iff levels name path schema value names :
  validateSchemaValue quote tool closed levels name path schema value names = None <-> conforms closed levels schema value.
Proof.
  revert name path schema value names; induction levels as [|levels IH]; intros name path schema value names; [done|].
  cbn [validateSchemaValue conforms]. destruct (decode_node schema) as [node|] eqn:En; [|done].
  destruct (String.eqb_spec (n_ref node) "") as [Hr|Hr]; cbn [negb]; [|split; [by intros _ n [= <-]|done]].
  cbv zeta. pose proof (type_ok_iff node value) as Ht.
  destruct (negb (bool_decide _) && negb (existsb _ _)).
  { split; [done|]. intros Hc. destruct (Hc node eq_refl Hr) as [Hok _]. by apply Ht in Hok. }
  assert (Hok : type_ok node value) by by apply Ht. clear Ht.
  destruct (String.eqb_spec (jsonTypeNameOf value) "object") as [Hk|Hk]; cbn [andb].
  - destruct (bool_decide (n_properties node = ∅)) eqn:Ep; cbn [negb].
    { rewrite Hk. cbn [String.eqb Ascii.eqb Bool.eqb andb]. split; [|done].
      intros _ n [= <-] _. apply bool_decide_eq_true in Ep. split; [done|]. split; [done|]. discriminate. }
    apply bool_decide_eq_false in Ep. destruct (decode_object value) as [obj|] eqn:Eo.
    + rewrite validateSchemaObject_iff by (intros; apply IH). split.
      * intros Hf n [= <-] _. split; [done|]. split; [by intros _ _ o [= <-]|]. rewrite Hk. discriminate.
      * intros Hc. destruct (Hc node eq_refl Hr) as (_ & Hobj & _). by apply Hobj.
    + split; [|done]. intros _ n [= <-] _. split; [done|]. split; [done|]. rewrite Hk. discriminate.
  - destruct (String.eqb_spec (jsonTypeNameOf value) "array") as [Ha|Ha]; cbn [andb];
      [|split; [by intros _ n [= <-]|done]].
    destruct (String.eqb_spec (n_items node) "") as [Hi|Hi]; cbn [negb]; [split; [by intros _ n [= <-]|done]|].
    destruct (decode_array value) as [arr|] eqn:Eo; [|split; [by intros _ n [= <-]|done]].
    rewrite first_error_none. split.
    + intros Hall n [= <-] _. split; [done|]. split; [done|]. intros _ _ a [= <-] x Hx.
      apply (elem_numbered 0) in Hx as [j Hj]. by apply (Hall (j, x)), IH in Hj.
    + intros Hc [j x] Hj. destruct (Hc node eq_refl Hr) as (_ & _ & Harr). cbn [fst snd].
      apply IH, (Harr Ha Hi arr eq_refl). apply (elem_numbered 0). by exists j.
Qed.

Lemma validateToolInput_conforms schema input :
  validateToolInput quote tool closed schema input = None <-> input_conforms closed schema input.
Proof.
  unfold validateToolInput, input_conforms. destruct (decode_node schema) as [node|]; [|done].
  destruct (String.eqb_spec (n_ref node) "") as [Hr|Hr]; cbn [negb]; [|split; [by intros _ n [= <-]|done]].
  destruct (bool_decide (n_properties node = ∅)) eqn:Ep.
  { apply bool_decide_eq_true in Ep. split; [by intros _ n [= <-]|done]. }
  apply bool_decide_eq_false in Ep.
  destruct (if String.eqb _ "" then _ else decode_object input) as [obj|].
  - rewrite validateSchemaObject_iff by (intros; apply validateSchemaValue_iff). split.
    + intros Hf n [= <-] _ _. by exists obj.
    + intros Hc. by destruct (Hc node eq_refl Hr Ep) as (o & [= <-] & Hf).
  - split; [done|]. intros Hc. by destruct (Hc node eq_refl Hr Ep) as (o & ? & _).
Qed.
End correctness.

Lemma additional_open raw :
  additionalPropertiesAllowed raw true = true -> additionalPropertiesAllowed raw false = true.
Proof. unfold additionalPropertiesAllowed. cbv zeta. by destruct (_ || _). Qed.

Lemma fits_open (P Q : string -> string -> Prop) node obj :
  (forall s v, P s v -> Q s v) -> fits true P node obj -> fits false Q node obj.
Proof.
  intros Hpq (Hreq & Hclosed & Hv). split; [done|]. split; [|by eauto].
  intros Hf. apply Hclosed. destruct (additionalPropertiesAllowed (n_additional node) true) eqn:E; [|done].
  apply additional_open in E. congruence.
Qed.

Lemma conforms_open levels schema value : conforms true levels schema value -> conforms false levels schema value.
Proof.
  revert schema value; induction levels as [|levels IH]; intros schema value; [done|].
  intros Hc node Hn Hr. destruct (Hc node Hn Hr) as (Ht & Ho & Ha). split; [done|]. split.
  - intros Hk Hp obj Hobj. eapply fits_open; [exact IH|]. by apply Ho.
  - intros Hk Hi arr Harr x Hx. by eapply IH, Ha.
Qed.

(** C15: the validator accepts an input exactly when it conforms to the schema:
    at every modelled level required parameters are there, unknown ones only
    where the level is open, and declared ones - in objects and in the elements
    of arrays, sixteen levels deep - have a declared type; a schema without
    properties, with a reference or that is not JSON accepts everything.  What
    a built-in tool accepts, an MCP tool with that schema accepts too. *)
Theorem validateToolInput_iff quote tool schema input :
  (ValidateToolInput quote tool schema input = None <-> input_conforms true schema input) /\
  (ValidateToolInputForCategory quote tool schema input "mcp" = None <-> input_conforms false schema input) /\
  (ValidateToolInput quote tool schema input = None ->
   forall category, ValidateToolInputForCategory quote tool schema input category = None).
Proof.
  unfold ValidateToolInput, ValidateToolInputForCategory.
  split; [apply validateToolInput_conforms|]. split; [apply validateToolInput_conforms|].
  intros Hv category. destruct (String.eqb category "mcp"); [|exact Hv]. cbn [negb].
  apply validateToolInput_conforms. apply validateToolInput_conforms in Hv. intros node Hn Hr Hp.
  destruct (Hv node Hn Hr Hp) as (obj & Hobj & Hf). exists obj. split; [done|].
  eapply fits_open; [apply conforms_open|exact Hf].
Qed.
