(* ===== verification/Registry.v ===== *)
(** * The tool registry: [src/tools/registry.go]

    The registry holds the tools an agent may call, where they come from, and
    the policies that override their own; [Execute] validates a call, applies
    the policy and runs the tool.  Theorems: what a registration can replace,
    and that a tool runs only when validation, policy, judge and user allow it.

    A [Tool] is a record of its methods; those of its optional interfaces may
    be missing.  [Execute] takes the registry lock anew for each of its parts,
    so it is a function of the registries it finds there; a call without
    concurrent changes finds the same one four times.  Parameters: the tools,
    the judges, the confirmation callback, the [%q] verb. *)

From Stdlib Require Import ZArith Lia.
From stdpp Require Import base gmap strings list sorting.
From S2P Require Import Prelude GoStr AgentTypes Fence Schema.
Open Scope sp4rk_scope.
Open Scope Z_scope.

(** ** Tools: [src/tools/tool.go], [group.go], [safety.go], [cache_mode.go] *)

(** [ToolPolicy] is an int: any other value is treated like the first. *)
Definition PolicyAlwaysAllow : Z := 0.
Definition PolicyAlwaysDeny : Z := 1.
Definition PolicyUserConfirm : Z := 2.

Definition ParseToolPolicy (s : string) : Z :=
  if String.eqb s "always_allow" then PolicyAlwaysAllow
  else if String.eqb s "always_deny" then PolicyAlwaysDeny
  else if String.eqb s "user_confirm" then PolicyUserConfirm
  else PolicyUserConfirm.

Inductive JudgeSeverity := JudgeSeverityHard | JudgeSeveritySoft.

Record JudgeOutcome := mkOutcome {
  jo_allow : bool;
  jo_reason : string;
  jo_severity : JudgeSeverity;
  jo_reason_code : string;
}.

Record Tool := mkTool {
  t_name : string;
  t_description : string;
  t_schema : string;
  t_execute : string -> ToolResult * option string;
  t_policy : Z;
  t_untrusted : bool;
  t_group : option string;                    (** [GroupProvider] *)
  t_judge : option (string -> JudgeOutcome);  (** [ToolJudger] *)
  t_content_backed : option (string -> bool); (** [ContentBackedReader] *)
}.

Definition ToolGroupOf (t : Tool) : string := default "" (t_group t).

Definition AllToolGroups : list string :=
  ["execute"; "local_read"; "local_write"; "remote_read"; "remote_write"; "system"; "local_mcp"; "remote_mcp"].
Definition IsValidToolGroup (g : string) : bool := existsb (String.eqb g) AllToolGroups.
Definition MCPToolGroup (transport : string) : string :=
  if String.eqb transport "http" then "remote_mcp" else "local_mcp".

Definition SourceCategoryCore : string := "core".
Definition SourceCategoryMCP : string := "mcp".

Record ToolDescriptor := mkDescriptor {
  desc_name : string;
  desc_description : string;
  desc_schema : string;
  desc_source : string;
  desc_category : string;
  desc_group : string;
}.

(** [FilterToolsByProfile]; [None]: nil. *)
Definition FilterToolsByProfile (allTools : list ToolDescriptor) (allowedNames : option (list string))
    : list ToolDescriptor :=
  match allowedNames with
  | None => allTools
  | Some names => List.filter (fun t => existsb (String.eqb (desc_name t)) names) allTools
  end.

Record ConfirmationRequest := mkConfirm {
  cr_tool : string;
  cr_input : string;
  cr_reasoning : string;
  cr_severity : JudgeSeverity;
  cr_reason_code : string;
}.

Definition ConfirmAllowOnce : Z := 0.
Definition ConfirmDeny : Z := 1.
Definition ConfirmDenyAndStop : Z := 2.

(** ** The registry *)

Record ToolRegistry := mkRegistry {
  tools : gmap string Tool;
  toolSources : gmap string string;
  toolCategories : gmap string string;
  policyOverrides : gmap string Z;
  confirmFunc : option (ConfirmationRequest -> Z * option string);
  inputValidationEnabled : bool;
}.

Definition NewToolRegistry : ToolRegistry := mkRegistry ∅ ∅ ∅ ∅ None true.

Definition SetInputValidationEnabled (enabled : bool) (r : ToolRegistry) : ToolRegistry :=
  mkRegistry (tools r) (toolSources r) (toolCategories r) (policyOverrides r) (confirmFunc r) enabled.
Definition SetConfirmFunc (fn : option (ConfirmationRequest -> Z * option string)) (r : ToolRegistry) : ToolRegistry :=
  mkRegistry (tools r) (toolSources r) (toolCategories r) (policyOverrides r) fn (inputValidationEnabled r).
Definition SetPolicyOverride (name : string) (policy : Z) (r : ToolRegistry) : ToolRegistry :=
  mkRegistry (tools r) (toolSources r) (toolCategories r) (<[name := policy]> (policyOverrides r)) (confirmFunc r)
    (inputValidationEnabled r).
Definition ClearPolicyOverride (name : string) (r : ToolRegistry) : ToolRegistry :=
  mkRegistry (tools r) (toolSources r) (toolCategories r) (delete name (policyOverrides r)) (confirmFunc r)
    (inputValidationEnabled r).

Definition categoryForLocked (r : ToolRegistry) (name : string) : string :=
  match toolCategories r !! name with
  | Some cat => cat
  | None =>
      match toolSources r !! name with
      | Some source => if has_prefix source "mcp" then SourceCategoryMCP else SourceCategoryCore
      | None => SourceCategoryCore
      end
  end.

(** [source]: [None] when there is none. *)
Definition registerLocked (tool : Tool) (source : option string) (category : string) (r : ToolRegistry)
    : bool * ToolRegistry :=
  let name := t_name tool in
  let shadows :=
    match tools r !! name with
    | Some _ => String.eqb category SourceCategoryMCP && negb (String.eqb (categoryForLocked r name) SourceCategoryMCP)
    | None => false
    end in
  if shadows then (false, r)
  else
    (true,
     mkRegistry (<[name := tool]> (tools r))
       (match source with Some s => <[name := s]> (toolSources r) | None => delete name (toolSources r) end)
       (<[name := category]> (toolCategories r)) (delete name (policyOverrides r)) (confirmFunc r)
       (inputValidationEnabled r)).

Section registry.
Variable quote : string -> string.

Definition Register (tool : Tool) (r : ToolRegistry) : ToolRegistry :=
  snd (registerLocked tool None SourceCategoryCore r).

Definition shadow_error (tool : Tool) (source : string) : string :=
  "tool " +s+ quote (t_name tool) +s+ " from source " +s+ quote source +s+
  " not registered: MCP tools may not shadow non-MCP tools".

Definition RegisterWithSourceCategory (tool : Tool) (source category : string) (r : ToolRegistry)
    : option string * ToolRegistry :=
  let '(ok, r') := registerLocked tool (Some source) category r in
  (if ok then None else Some (shadow_error tool source), r').

Definition RegisterWithSource (tool : Tool) (source : string) (r : ToolRegistry) : option string * ToolRegistry :=
  RegisterWithSourceCategory tool source
    (if has_prefix source "mcp" then SourceCategoryMCP else SourceCategoryCore) r.

Definition Unregister (name : string) (r : ToolRegistry) : ToolRegistry :=
  mkRegistry (delete name (tools r)) (delete name (toolSources r)) (delete name (toolCategories r))
    (delete name (policyOverrides r)) (confirmFunc r) (inputValidationEnabled r).

(** The names with the source. *)
Definition UnregisterBySource (source : string) (r : ToolRegistry) : ToolRegistry :=
  foldr Unregister r (map fst (map_to_list (filter (fun '(_, s) => s = source) (toolSources r)))).

Definition Get (name : string) (r : ToolRegistry) : option Tool := tools r !! name.

Definition descriptor (r : ToolRegistry) (tool : Tool) : ToolDescriptor :=
  mkDescriptor (t_name tool) (t_description tool) (t_schema tool)
    (default "core" (toolSources r !! t_name tool)) (categoryForLocked r (t_name tool)) (ToolGroupOf tool).

(** [ListFiltered], the names of the registry in the order [order] the map is
    ranged over. *)
Definition ListFiltered (excludeNames : gset string) (order : list string) (r : ToolRegistry) : list ToolDescriptor :=
  omap (fun name =>
    match tools r !! name with
    | Some tool => if bool_decide (t_name tool ∈ excludeNames) then None else Some (descriptor r tool)
    | None => None
    end) order.
Definition ListTools (order : list string) (r : ToolRegistry) : list ToolDescriptor := ListFiltered ∅ order r.

Definition GetToolSource (name : string) (r : ToolRegistry) : string :=
  match tools r !! name with
  | None => ""
  | Some _ => default "core" (toolSources r !! name)
  end.

Definition IsToolUntrusted (name : string) (r : ToolRegistry) : bool :=
  match tools r !! name with
  | None => false
  | Some tool => if t_untrusted tool then true else String.eqb (categoryForLocked r name) SourceCategoryMCP
  end.

(** [CacheStrategy]: whether the mode is [CacheModeContentBacked]. *)
Definition CacheStrategy (name input : string) (r : ToolRegistry) : bool :=
  match tools r !! name with
  | None => false
  | Some tool => match t_content_backed tool with Some backed => backed input | None => false end
  end.

(** ** [ToolNotFoundResult]: [src/tools/tool_not_found.go] *)

(** [scope]: the catalog of the run, if any. *)
Definition catalogContains (scope : option (gset string)) (name : string) : bool :=
  match scope with None => true | Some s => bool_decide (name ∈ s) end.

Definition ToolNotFoundResult (scope : option (gset string)) (name : string) (available : string -> bool) : ToolResult :=
  let content := "tool not found: " +s+ name in
  let candidate := if has_prefix name "functions." then str_drop 10 name else "" in
  mkToolResult
    (if negb (String.eqb candidate "") && catalogContains scope candidate && available candidate
     then content +s+ "; use the exact catalog name " +s+ quote candidate +s+
          " in batch.calls[].tool or as the direct tool call name, without adding the functions. namespace"
     else content) true.

(** ** [Execute] *)

(** What a call does besides its result. *)
Inductive action :=
| Judged (tool input : string)
| Confirmed (req : ConfirmationRequest)
| Ran (tool : Tool) (input : string).

Definition outcome : Type := list action * (ToolResult * option string).

Definition no_result : ToolResult := mkToolResult "" false.

Definition run_tool (tool : Tool) (input : string) : outcome := ([Ran tool input], t_execute tool input).

Definition confirmAndExecute (r : ToolRegistry) (tool : Tool) (name input : string) (o : JudgeOutcome) : outcome :=
  match confirmFunc r with
  | None =>
      ([], (mkToolResult
              ("tool " +s+ quote name +s+ " requires confirmation but no ConfirmFunc is configured; " +s+
               "set one via ToolRegistry.SetConfirmFunc (or sp4rk.Config.ConfirmFunc when using the Framework), " +s+
               "or explicitly override the policy via SetPolicyOverride(" +s+ quote name +s+ ", PolicyAlwaysAllow)")
              true, None))
  | Some confirm =>
      let req := mkConfirm name input (jo_reason o) (jo_severity o) (jo_reason_code o) in
      let '(acts, res) :=
        match confirm req with
        | (_, Some err) => ([], (no_result, Some err))
        | (resp, None) =>
            if resp =? ConfirmAllowOnce then run_tool tool input
            else if resp =? ConfirmDeny then
              ([], (mkToolResult
                      (if String.eqb (jo_reason o) "" then "Tool execution denied by user."
                       else "Tool execution denied by user." +s+ " Judge reasoning for flagging this call: " +s+
                            jo_reason o) true, None))
            else if resp =? ConfirmDenyAndStop then ([], (no_result, Some "context canceled"))
            else ([], (no_result, Some ("unknown confirmation response: " +s+ itoa resp)))
        end in
      (Confirmed req :: acts, res)
  end.

Definition plain_gate : JudgeOutcome := mkOutcome false "" JudgeSeverityHard "".

(** [Execute]: the registry at the lookup, at the validation, at the policy and
    at the confirmation. *)
Definition Execute (scope : option (gset string)) (r_get r_validate r_policy r_confirm : ToolRegistry)
    (name input : string) : outcome :=
  match Get name r_get with
  | None =>
      ([], (ToolNotFoundResult scope name (fun candidate => bool_decide (is_Some (Get candidate r_get))), None))
  | Some tool =>
      let closedByDefault := negb (String.eqb (categoryForLocked r_validate name) SourceCategoryMCP) in
      let invalid :=
        if inputValidationEnabled r_validate
        then validateToolInput quote (t_name tool) closedByDefault (t_schema tool) input else None in
      match invalid with
      | Some e => ([], (mkToolResult (input_error_text quote e) true, None))
      | None =>
          let policy := default (t_policy tool) (policyOverrides r_policy !! name) in
          if policy =? PolicyAlwaysDeny then
            ([], (mkToolResult ("tool " +s+ quote name +s+ " blocked by security policy") true, None))
          else if policy =? PolicyUserConfirm then confirmAndExecute r_confirm tool name input plain_gate
          else
            match t_judge tool with
            | Some judge =>
                let o := judge input in
                let '(acts, res) :=
                  if negb (jo_allow o) && negb (String.eqb (jo_reason o) "")
                  then confirmAndExecute r_confirm tool name input o else run_tool tool input in
                (Judged name input :: acts, res)
            | None => run_tool tool input
            end
      end
  end.

(** ** Registration *)

Inductive rstep : ToolRegistry -> ToolRegistry -> Prop :=
| R_register t r : rstep r (Register t r)
| R_source t s r : rstep r (snd (RegisterWithSource t s r))
| R_category t s c r : rstep r (snd (RegisterWithSourceCategory t s c r))
| R_unregister n r : rstep r (Unregister n r)
| R_unregister_source s r : rstep r (UnregisterBySource s r)
| R_override n p r : rstep r (SetPolicyOverride n p r)
| R_clear n r : rstep r (ClearPolicyOverride n r)
| R_confirm f r : rstep r (SetConfirmFunc f r)
| R_validation b r : rstep r (SetInputValidationEnabled b r).

Inductive rreach : ToolRegistry -> Prop :=
| R_new : rreach NewToolRegistry
| R_step r r' : rreach r -> rstep r r' -> rreach r'.

(** A tool is filed under its name, has a category, and nothing else has a
    source or a category. *)
Definition registry_ok (r : ToolRegistry) : Prop :=
  forall n, match tools r !! n with
            | Some t => t_name t = n /\ is_Some (toolCategories r !! n)
            | None => toolSources r !! n = None /\ toolCategories r !! n = None
            end.

Lemma registerLocked_ok t s c r : registry_ok r -> registry_ok (snd (registerLocked t s c r)).
Proof.
  intros Hr. unfold registerLocked. cbv zeta. destruct (match tools r !! t_name t with Some _ => _ | None => _ end); [done|].
  intros n. cbn [snd tools toolSources toolCategories]. destruct (decide (t_name t = n)) as [<-|Hne].
  - rewrite !lookup_insert_eq. split; [done|by eexists].
  - rewrite !lookup_insert_ne by done. specialize (Hr n). destruct (tools r !! n); [done|].
    destruct Hr as [Hs Hcat]. split; [|done]. destruct s; [by rewrite lookup_insert_ne|by rewrite lookup_delete_ne].
Qed.

Lemma Unregister_ok n r : registry_ok r -> registry_ok (Unregister n r).
Proof.
  intros Hr m. cbn [Unregister tools toolSources toolCategories]. destruct (decide (n = m)) as [<-|Hne].
  - by rewrite !lookup_delete_eq.
  - rewrite !lookup_delete_ne by done. apply Hr.
Qed.

Lemma RegisterWithSourceCategory_snd t s c r :
  snd (RegisterWithSourceCategory t s c r) = snd (registerLocked t (Some s) c r).
Proof. unfold RegisterWithSourceCategory. by destruct (registerLocked _ _ _ _). Qed.

Lemma rreach_ok r : rreach r -> registry_ok r.
Proof.
  induction 1 as [|r r' _ IH Hs]; [done|]. destruct Hs; try exact IH.
  - by apply registerLocked_ok.
  - unfold RegisterWithSource. rewrite RegisterWithSourceCategory_snd. by apply registerLocked_ok.
  - rewrite RegisterWithSourceCategory_snd. by apply registerLocked_ok.
  - by apply Unregister_ok.
  - unfold UnregisterBySource. induction (map fst _); [exact IH|by apply Unregister_ok].
Qed.

(** All a registry knows under a name. *)
Definition entry (r : ToolRegistry) (n : string) : option Tool * option string * option string * option Z :=
  (tools r !! n, toolSources r !! n, toolCategories r !! n, policyOverrides r !! n).

(** No tool of an MCP server can take the place of one of another kind: in
    every reachable registry a registration is refused exactly when it is of
    category mcp and the name belongs to a tool of another category, and then
    changes nothing; one that is accepted files the tool with its source and
    without the policy override of a predecessor, is untrusted if it is of
    category mcp, and touches no other name. *)
Theorem registration_safe r t source category (Hr : rreach r) :
  let ok := fst (registerLocked t source category r) in
  let r' := snd (registerLocked t source category r) in
  (ok = false <-> category = SourceCategoryMCP /\ is_Some (tools r !! t_name t) /\
                  toolCategories r !! t_name t <> Some SourceCategoryMCP) /\
  (ok = false -> r' = r) /\
  (ok = true -> entry r' (t_name t) = (Some t, source, Some category, None) /\
     Get (t_name t) r' = Some t /\ GetToolSource (t_name t) r' = default "core" source /\
     (category = SourceCategoryMCP -> IsToolUntrusted (t_name t) r' = true)) /\
  (forall n, n <> t_name t -> entry r' n = entry r n).
Proof.
  cbv zeta. pose proof (rreach_ok r Hr (t_name t)) as Hok. unfold registerLocked. cbv zeta.
  assert (Hcat : forall c, toolCategories r !! t_name t = Some c -> categoryForLocked r (t_name t) = c)
    by (intros c Hc; unfold categoryForLocked; by rewrite Hc).
  assert (Hnew : forall r', r' = mkRegistry (<[t_name t := t]> (tools r))
       (match source with Some s => <[t_name t := s]> (toolSources r) | None => delete (t_name t) (toolSources r) end)
       (<[t_name t := category]> (toolCategories r)) (delete (t_name t) (policyOverrides r)) (confirmFunc r)
       (inputValidationEnabled r) ->
     (entry r' (t_name t) = (Some t, source, Some category, None) /\
      Get (t_name t) r' = Some t /\ GetToolSource (t_name t) r' = default "core" source /\
      (category = SourceCategoryMCP -> IsToolUntrusted (t_name t) r' = true)) /\
     (forall n, n <> t_name t -> entry r' n = entry r n)).
  { intros r' ->. split.
    - unfold entry, Get, GetToolSource, IsToolUntrusted, categoryForLocked. cbn.
      rewrite !lookup_insert_eq, lookup_delete_eq. destruct source; rewrite ?lookup_insert_eq, ?lookup_delete_eq;
        (split; [done|]; split; [done|]; split; [done|]; intros ->; by destruct (t_untrusted t)).
    - intros n Hn. unfold entry. cbn. rewrite !lookup_insert_ne, lookup_delete_ne by done.
      destruct source; by rewrite ?lookup_insert_ne, ?lookup_delete_ne. }
  destruct (tools r !! t_name t) as [old|] eqn:Et.
  - destruct Hok as [_ [c Hc]]. rewrite (Hcat c Hc), Hc.
    destruct (String.eqb_spec category SourceCategoryMCP) as [->|Hcm]; cbn [andb].
    + destruct (String.eqb_spec c SourceCategoryMCP) as [->|Hne]; cbn [negb fst snd].
      * split; [split; [done|by intros (_ & _ & ?)]|]. split; [done|]. destruct (Hnew _ eq_refl). by split.
      * split; [split; [|done]; intros _; split; [done|]; split; [by eexists|congruence]|]. split; [done|]. split; done.
    + cbn [fst snd]. split; [split; [done|by intros [? _]]|]. split; [done|]. destruct (Hnew _ eq_refl). by split.
  - cbn [fst snd]. split; [split; [done|by intros (_ & [? ?] & _)]|]. split; [done|]. destruct (Hnew _ eq_refl). by split.
Qed.

(** ** Execution *)

Definition confirms (r : ToolRegistry) (name input : string) (o : JudgeOutcome) : Prop :=
  exists confirm, confirmFunc r = Some confirm /\
    confirm (mkConfirm name input (jo_reason o) (jo_severity o) (jo_reason_code o)) = (ConfirmAllowOnce, None).

(** What has to hold for a call of [tool] to reach it. *)
Definition permitted (r_validate r_policy r_confirm : ToolRegistry) (name input : string) (tool : Tool) : Prop :=
  let policy := default (t_policy tool) (policyOverrides r_policy !! name) in
  (inputValidationEnabled r_validate = true ->
   input_conforms (negb (String.eqb (categoryForLocked r_validate name) SourceCategoryMCP)) (t_schema tool) input) /\
  policy <> PolicyAlwaysDeny /\
  (policy = PolicyUserConfirm -> confirms r_confirm name input plain_gate) /\
  (policy <> PolicyUserConfirm -> forall judge, t_judge tool = Some judge ->
   jo_allow (judge input) = false -> jo_reason (judge input) <> "" -> confirms r_confirm name input (judge input)).

(** A call that ran the tool once, or failed without. *)
Definition ran_iff (P : Prop) (tool : Tool) (input : string) (out : outcome) : Prop :=
  (P /\ exists before, fst out = before ++ [Ran tool input] /\ Forall (fun a => forall t i, a <> Ran t i) before /\
        snd out = t_execute tool input) \/
  (~ P /\ Forall (fun a => forall t i, a <> Ran t i) (fst out) /\
   (tr_is_error (fst (snd out)) = true \/ is_Some (snd (snd out)))).

Lemma run_tool_iff (P : Prop) tool input : P -> ran_iff P tool input (run_tool tool input).
Proof. intros HP. left. split; [done|]. by exists []. Qed.

Lemma confirm_iff r tool name input o :
  ran_iff (confirms r name input o) tool input (confirmAndExecute r tool name input o).
Proof.
  unfold confirmAndExecute, confirms. destruct (confirmFunc r) as [confirm|].
  2: { right. split; [by intros (c & ? & _)|]. split; [constructor|by left]. }
  set (req := mkConfirm _ _ _ _ _).
  assert (Hq : forall t i, Confirmed req <> Ran t i) by done.
  destruct (confirm req) as [resp [err|]] eqn:Ec.
  { right. split; [intros (c & [= <-] & Hc); congruence|]. split; [by repeat constructor|right; by eexists]. }
  destruct (Z.eqb_spec resp ConfirmAllowOnce) as [->|Hne].
  { left. split; [by exists confirm|]. exists [Confirmed req]. split; [done|]. split; [by repeat constructor|done]. }
  right. split; [intros (c & [= <-] & Hc); congruence|].
  destruct (resp =? ConfirmDeny); [split; [by repeat constructor|by left]|].
  destruct (resp =? ConfirmDenyAndStop); (split; [by repeat constructor|right; by eexists]).
Qed.

Lemma ran_iff_ext (P Q : Prop) tool input out : (P <-> Q) -> ran_iff P tool input out -> ran_iff Q tool input out.
Proof. unfold ran_iff. intros [H1 H2] [[? ?]|[? ?]]; [left|right]; split; auto. Qed.

Lemma ran_iff_cons (P : Prop) tool input a out :
  (forall t i, a <> Ran t i) -> ran_iff P tool input out -> ran_iff P tool input (a :: fst out, snd out).
Proof.
  intros Ha [(HP & before & -> & Hb & ->)|(HP & Hb & He)]; [left|right]; (split; [done|]).
  - exists (a :: before). split; [done|]. split; [by constructor|done].
  - split; [by constructor|done].
Qed.

(** C6: fail closed: a call runs the registered tool, once and as the last thing
    it does, exactly when the input conforms to its schema (if validation is
    on), the effective policy does not forbid it, and the user confirmed it
    where the policy asks for that or the tool's own judge objects; in every
    other case the tool does not run and the result is an error. *)
Theorem Execute_permitted scope r_get r_validate r_policy r_confirm name input :
  let out := Execute scope r_get r_validate r_policy r_confirm name input in
  match Get name r_get with
  | None => fst out = [] /\ tr_is_error (fst (snd out)) = true
  | Some tool => ran_iff (permitted r_validate r_policy r_confirm name input tool) tool input out
  end.
Proof.
  cbv zeta. unfold Execute. destruct (Get name r_get) as [tool|]; [|done]. cbv zeta.
  set (closed := negb _). pose proof (validateToolInput_conforms quote (t_name tool) closed (t_schema tool) input) as Hv.
  unfold permitted. fold closed. cbv zeta.
  set (invalid := if inputValidationEnabled r_validate then _ else None).
  assert (Hinv : invalid = None <->
    (inputValidationEnabled r_validate = true -> input_conforms closed (t_schema tool) input)).
  { unfold invalid. destruct (inputValidationEnabled r_validate); [|done]. rewrite Hv. naive_solver. }
  destruct invalid as [e|].
  { right. split; [|split; [constructor|by left]]. intros [Hc _]. by apply Hinv in Hc. }
  assert (Hc : inputValidationEnabled r_validate = true -> input_conforms closed (t_schema tool) input) by by apply Hinv.
  set (policy := default _ _).
  destruct (Z.eqb_spec policy PolicyAlwaysDeny) as [->|Hd].
  { right. split; [by intros (_ & ? & _)|]. split; [constructor|by left]. }
  destruct (Z.eqb_spec policy PolicyUserConfirm) as [->|Hu].
  { eapply ran_iff_ext; [|apply confirm_iff]. split; [|tauto]. intros Hf. repeat split; try done. }
  destruct (t_judge tool) as [judge|]; [|apply run_tool_iff; repeat split; done].
  set (out := if negb (jo_allow (judge input)) && _ then _ else _).
  match goal with |- ran_iff ?P _ _ _ => enough (Hout : ran_iff P tool input out) end.
  { clearbody out. destruct out as [acts res]. by apply (ran_iff_cons _ _ _ (Judged name input) (acts, res)). }
  unfold out.
  destruct (jo_allow (judge input)) eqn:Ea; cbn [negb andb].
  { apply run_tool_iff. repeat split; try done. intros _ j [= <-]. congruence. }
  destruct (String.eqb_spec (jo_reason (judge input)) "") as [Er|Er]; cbn [negb].
  { apply run_tool_iff. repeat split; try done. intros _ j [= <-]. congruence. }
  eapply ran_iff_ext; [|apply confirm_iff]. split.
  - intros Hf. repeat split; try done. by intros _ j [= <-].
  - intros (_ & _ & _ & Hj). by apply Hj.
Qed.
End registry.

(** ** A registry at work *)

Definition show (s : string) : string := "<" +s+ s +s+ ">".
Definition demo_tool (name : string) (policy : Z) (judge : option (string -> JudgeOutcome)) : Tool :=
  mkTool name "" "{}" (fun input => (mkToolResult ("ran on " +s+ input) false, None)) policy false None judge None.
Definition wary (input : string) : JudgeOutcome := mkOutcome (String.eqb input "safe") "looks bad" JudgeSeveritySoft "".
Definition demo_registry : ToolRegistry :=
  SetPolicyOverride "shell" PolicyAlwaysAllow
    (Register (demo_tool "read" PolicyAlwaysAllow (Some wary)) (Register (demo_tool "shell" PolicyUserConfirm None)
      NewToolRegistry)).

Lemma demo_registry_reach : rreach show demo_registry.
Proof. unfold demo_registry. eapply R_step; [|apply R_override]. do 2 (eapply R_step; [|apply R_register]). apply R_new. Qed.

Definition intruder : Tool := demo_tool "shell" PolicyAlwaysAllow None.

Lemma registration_safe_witness :
  rreach show demo_registry /\
  fst (registerLocked intruder (Some "mcp-x") SourceCategoryMCP demo_registry) = false /\
  snd (registerLocked intruder (Some "mcp-x") SourceCategoryMCP demo_registry) = demo_registry.
Proof.
  split; [exact demo_registry_reach|].
  destruct (registration_safe show demo_registry intruder (Some "mcp-x") SourceCategoryMCP demo_registry_reach)
    as (Hiff & Hsame & _).
  assert (Hf : fst (registerLocked intruder (Some "mcp-x") SourceCategoryMCP demo_registry) = false) by reflexivity.
  split; [exact Hf|exact (Hsame Hf)].
Defined.

Example judge_escalates :
  let call input := Execute show None demo_registry demo_registry demo_registry demo_registry "read" input in
  snd (call "safe") = (mkToolResult "ran on safe" false, None) /\
  fst (call "other") = [Judged "read" "other"] /\ tr_is_error (fst (snd (call "other"))) = true.
Proof. vm_compute. repeat split; reflexivity. Qed.

Example override_goes_with_the_tool :
  policyOverrides (Register (demo_tool "shell" PolicyUserConfirm None) demo_registry) !! "shell" = None.
Proof. reflexivity. Qed.
