(* ===== verification/Router.v ===== *)
(** * Routing model calls: [src/llm/router.go], [modelid.go], [errors.go]

    The router sends a request to the active model of its providers: it fills
    in defaults, rejects what cannot fit the context window, and repeats an
    attempt that failed for a passing reason - but never one whose output has
    already been shown.  Theorems: what [Call] does for any provider, and that
    the active model is always one that a provider offers.

    Parameters: the providers (a function of request and attempt), the model
    registry, the sampling presets, floating point, the token counter, whether
    the context is cancelled during a wait, the [%q] verb.  The jitter of a wait
    and its clock are left out. *)

From Stdlib Require Import ZArith Lia Ascii.
From stdpp Require Import base gmap strings list sorting.
From S2P Require Import Prelude GoStr GoFloat AgentTypes Tokens Fence.
Open Scope sp4rk_scope.
Open Scope Z_scope.

(** ** Model identifiers: [src/llm/modelid.go] *)

Definition CompositeModelID (provider model : string) : string := provider +s+ "/" +s+ model.

(** The text before and behind the first slash. *)
Fixpoint split_slash (s : string) : option (string * string) :=
  match s with
  | "" => None
  | String c r =>
      if Ascii.eqb c "/"%char then Some ("", r)
      else match split_slash r with Some (a, b) => Some (String c a, b) | None => None end
  end.

Definition ParseCompositeModelID (id : string) : string * string * bool :=
  match split_slash id with
  | Some (provider, model) => (provider, model, true)
  | None => ("", id, false)
  end.
Definition IsCompositeModelID (id : string) : bool := snd (ParseCompositeModelID id).
Definition BareModel (id : string) : string := snd (fst (ParseCompositeModelID id)).
Definition providerOf (id : string) : string := fst (fst (ParseCompositeModelID id)).

(** ** Errors: [src/llm/errors.go] *)

Definition errKindForStatus (statusCode : Z) : string :=
  if statusCode =? 429 then "rate_limit" else if statusCode =? 529 then "overloaded" else "".

Record Error := mkError {
  e_provider : string;
  e_status : Z;
  e_retryable : bool;
  e_kind : string;
  e_text : string; (** of the wrapped error *)
}.

Definition NewError (provider : string) (statusCode : Z) (retryable : bool) (err : string) : Error :=
  mkError provider statusCode retryable (errKindForStatus statusCode) err.

(** An error value: its text, and the [*Error] in its chain, if any. *)
Definition error : Type := string * option Error.

Definition error_text (e : Error) : string :=
  "llm [" +s+ e_provider e +s+ "] error (HTTP " +s+ itoa (e_status e) +s+ ", retryable=" +s+
  (if e_retryable e then "true" else "false") +s+ "): " +s+ e_text e.
Definition of_Error (e : Error) : error := (error_text e, Some e).

Definition IsRetryable (err : error) : bool :=
  match snd err with Some e => e_retryable e | None => false end.

Definition classifyHTTPStatus (code : Z) : bool :=
  existsb (Z.eqb code) [408; 429; 500; 502; 503; 504; 520; 521; 522; 523; 524; 529].

(** [transient]: [classifyNetError] of the error. *)
Definition WrapProviderError (provider : string) (statusCode : Z) (err : string) (transient : bool) : Error :=
  let retryable := if 0 <? statusCode then classifyHTTPStatus statusCode else false in
  NewError provider statusCode (if retryable then true else transient) err.

Definition NewContextWindowError (quote : string -> string) (model : string)
    (estimatedTokens effectiveMax contextWindow outputReserve : Z) : Error :=
  mkError "router" 0 false ""
    ("context window exceeded: estimated " +s+ itoa estimatedTokens +s+ " tokens, model " +s+ quote model +s+
     " allows " +s+ itoa effectiveMax +s+ " (context_window=" +s+ itoa contextWindow +s+ ", output_reserve=" +s+
     itoa outputReserve +s+ ")").

(** ** Requests and metadata *)

Definition Deterministic (purpose : string) : bool :=
  String.eqb purpose "routing" || String.eqb purpose "compaction" || String.eqb purpose "summarization".

Section router.
Context `{Float64} `{TokenCounter}.
Variable quote : string -> string.

Record SamplingDefaults := mkSampling {
  sd_Temperature : option F;
  sd_TopP : option F;
  sd_TopK : option Z;
  sd_RepetitionPenalty : option F;
  sd_PresencePenalty : option F;
}.
Definition no_sampling : SamplingDefaults := mkSampling None None None None None.

(** [ChatRequest] as far as the router touches it; [rq_sink]: a [DeltaSink] is
    set. *)
Record ChatRequest := mkRequest {
  rq_Model : string;
  rq_ModelFamily : string;
  rq_Protocol : string;
  rq_Messages : list Message;
  rq_CallPurpose : string;
  rq_sampling : SamplingDefaults;
  rq_sink : bool;
}.

(** [ModelMetadata]; [mm_temperature]: [Capabilities.Temperature], [None] for
    nil capabilities. *)
Record ModelMetadata := mkMeta {
  mm_ContextWindow : Z;
  mm_OutputLimit : Z;
  mm_Family : string;
  mm_Protocol : string;
  mm_TokenizerType : string;
  mm_temperature : option bool;
  mm_GuessedCapabilities : bool;
}.
Definition no_meta : ModelMetadata := mkMeta 0 0 "" "" "" None false.

Definition DeterministicTemperature (family : string) : F :=
  if String.eqb family "google" || String.eqb family "kimi" then f_of_int 1
  else if String.eqb family "qwen" then f_div (f_of_int 6) (f_of_int 10)
  else f_of_int 0.

(** ** The router *)

(** What a provider does with one attempt: the deltas it streams, and its
    answer; [None]: a nil response without an error. *)
Record attempt := mkAttempt {
  at_deltas : list string;
  at_answer : option ChatResponse + error;
}.

Record Provider := mkProvider {
  p_Name : string;
  p_ChatCompletion : ChatRequest -> nat -> attempt;
}.

Record Router := mkRouter {
  providers : gmap string Provider;
  modelToProvider : gmap string string;
  activeProvider : Provider;
  activeModel : string;
  activeBareModel : string;
  activeProviderName : string;
  maxRetries : Z;
  initialBackoff : Z; (** nanoseconds *)
  maxBackoff : Z;
  registry : option (string -> ModelMetadata); (** [Resolve] *)
  sampling : option (string -> SamplingDefaults);
  safetyMarginPercent : Z;
  outputTokenReserve : Z;
}.

Record ProviderEntry := mkEntry {
  pe_Name : string;
  pe_ProviderType : string;
  pe_Models : list string;
}.

Record RouterConfig := mkRouterConfig {
  rc_Providers : list ProviderEntry;
  rc_MaxRetries : Z;
  rc_InitialBackoff : Z;
  rc_MaxBackoff : Z;
  rc_SafetyMarginPercent : Z;
  rc_OutputTokenReserve : Z;
  rc_SamplingFunc : option (string -> SamplingDefaults);
}.

(** Zero stands for the default, a negative value for zero. *)
Definition sentinel (x dflt : Z) : Z := if x =? 0 then dflt else if x <? 0 then 0 else x.

Definition second : Z := 1000000000.

(** The loop over the entries; [create]: [createProviderFromConfig]. *)
Fixpoint add_entries (create : ProviderEntry -> res Provider) (l : list ProviderEntry)
    (ps : gmap string Provider) (ms : gmap string string) : res (gmap string Provider * gmap string string) :=
  match l with
  | [] => Ok (ps, ms)
  | entry :: rest =>
      if String.eqb (pe_ProviderType entry) "" then Err ("provider " +s+ quote (pe_Name entry) +s+ " has no type")
      else match create entry with
      | Err err => Err ("failed to create provider " +s+ quote (pe_Name entry) +s+ ": " +s+ err)
      | Ok provider =>
          add_entries create rest (<[pe_Name entry := provider]> ps)
            (fold_left (fun ms m => <[CompositeModelID (pe_Name entry) m := pe_Name entry]> ms) (pe_Models entry) ms)
      end
  end.

Definition NewRouter (create : ProviderEntry -> res Provider) (cfg : RouterConfig)
    (reg : option (string -> ModelMetadata)) : res Router :=
  match rc_Providers cfg with
  | [] => Err "no providers configured"
  | first :: _ =>
      match add_entries create (rc_Providers cfg) ∅ ∅ with
      | Err e => Err e
      | Ok (ps, ms) =>
          match pe_Models first with
          | [] => Err ("provider " +s+ quote (pe_Name first) +s+ " has no enabled models")
          | m :: _ =>
              match ps !! pe_Name first with
              | None => Err ("provider " +s+ quote (pe_Name first) +s+ " not found")
              | Some p =>
                  Ok (mkRouter ps ms p (CompositeModelID (pe_Name first) m) m (pe_Name first)
                        (sentinel (rc_MaxRetries cfg) 3) (sentinel (rc_InitialBackoff cfg) second)
                        (sentinel (rc_MaxBackoff cfg) (30 * second)) reg (rc_SamplingFunc cfg)
                        (if rc_SafetyMarginPercent cfg <=? 0 then 5 else rc_SafetyMarginPercent cfg)
                        (if rc_OutputTokenReserve cfg <=? 0 then 4096 else rc_OutputTokenReserve cfg))
              end
          end
      end
  end.

Definition set_active (p : Provider) (model bare name : string) (r : Router) : Router :=
  mkRouter (providers r) (modelToProvider r) p model bare name (maxRetries r) (initialBackoff r) (maxBackoff r)
    (registry r) (sampling r) (safetyMarginPercent r) (outputTokenReserve r).

Definition not_enabled (model : string) : string := "model " +s+ quote model +s+ " is not enabled in any provider".

(** The composite identifiers with the bare model, sorted. *)
Definition bare_matches (model : string) (r : Router) : list string :=
  merge_sort str_le (List.filter (fun id => String.eqb (BareModel id) model) (map fst (map_to_list (modelToProvider r)))).

Definition activate (model bare : string) (r : Router) : option string * Router :=
  match modelToProvider r !! model with
  | None => (Some (not_enabled model), r)
  | Some name =>
      match providers r !! name with
      | None => (Some ("provider " +s+ quote name +s+ " not found"), r)
      | Some p => (None, set_active p model bare name r)
      end
  end.

(** [SetModel]: the error, if any. *)
Definition SetModel (model : string) (r : Router) : option string * Router :=
  if IsCompositeModelID model then activate model (BareModel model) r
  else match bare_matches model r with
  | [] => (Some (not_enabled model), r)
  | compositeID :: _ => activate compositeID model r
  end.

(** ** Preparing a request *)

Definition keep {A} (x d : option A) : option A := match x with Some _ => x | None => d end.

(** The defaults of a call whose model takes sampling parameters. *)
Definition preset_sampling (r : Router) (s : SamplingDefaults) (purpose family : string) : SamplingDefaults :=
  if Deterministic purpose
  then mkSampling (keep (sd_Temperature s) (Some (DeterministicTemperature family))) (sd_TopP s) (sd_TopK s)
         (sd_RepetitionPenalty s) (sd_PresencePenalty s)
  else
    let preset := match sampling r with Some f => f family | None => no_sampling end in
    let fallback := match sampling r with None => Some (f_of_int 0) | Some _ => None end in
    mkSampling (keep (sd_Temperature s) (keep (sd_Temperature preset) fallback))
      (keep (sd_TopP s) (sd_TopP preset)) (keep (sd_TopK s) (sd_TopK preset))
      (keep (sd_RepetitionPenalty s) (sd_RepetitionPenalty preset))
      (keep (sd_PresencePenalty s) (sd_PresencePenalty preset)).

Definition applyDefaultSampling (r : Router) (req : ChatRequest) (meta : ModelMetadata) : SamplingDefaults :=
  let s := rq_sampling req in
  let preset := preset_sampling r s (rq_CallPurpose req) (mm_Family meta) in
  match registry r with
  | None => preset
  | Some _ =>
      match mm_temperature meta with
      | Some accepts =>
          if negb accepts && negb (mm_GuessedCapabilities meta) then no_sampling
          else if mm_GuessedCapabilities meta then s
          else preset
      | None => s
      end
  end.

Definition validateContextWindow (r : Router) (model : string) (msgs : list Message) (meta : ModelMetadata)
    : option Error :=
  match registry r with
  | None => None
  | Some _ =>
      if mm_ContextWindow meta =? 0 then None
      else
        let outputReserve := if mm_OutputLimit meta <=? 0 then outputTokenReserve r else mm_OutputLimit meta in
        let effectiveMax := mm_ContextWindow meta - outputReserve in
        if effectiveMax <=? 0 then None
        else
          let margin := f_div (f_of_int (safetyMarginPercent r)) (f_of_int 100) in
          let share := f_add (f_of_int 1) (f_mul (f_of_int (-1)) margin) in
          let effectiveMax := f_to_int (f_mul (f_of_int effectiveMax) share) in
          let estimated := CountMessages msgs in
          if effectiveMax <? estimated
          then Some (NewContextWindowError quote model estimated effectiveMax (mm_ContextWindow meta) outputReserve)
          else None
  end.

Definition or_else (s d : string) : string := if String.eqb s "" then d else s.

Definition prepareRequest (r : Router) (req : ChatRequest) (bareModel : string) : ChatRequest * option Error :=
  let model := or_else (rq_Model req) bareModel in
  let meta := match registry r with Some resolve => resolve model | None => no_meta end in
  let req := mkRequest model
    (match registry r with Some _ => or_else (rq_ModelFamily req) (mm_Family meta) | None => rq_ModelFamily req end)
    (match registry r with Some _ => or_else (rq_Protocol req) (mm_Protocol meta) | None => rq_Protocol req end)
    (rq_Messages req) (rq_CallPurpose req) (rq_sampling req) (rq_sink req) in
  let req := mkRequest (rq_Model req) (rq_ModelFamily req) (rq_Protocol req) (rq_Messages req) (rq_CallPurpose req)
    (applyDefaultSampling r req meta) (rq_sink req) in
  (req, validateContextWindow r (rq_Model req) (rq_Messages req) meta).

(** ** The call *)

Definition normalizeResponse (resp : ChatResponse) : ChatResponse :=
  let m := r_message resp in
  mkChatResponse (r_model resp) (r_family resp)
    (mkMessage (m_role m) (trim_invisible (m_content m)) (m_blocks m) (trim_invisible (m_reasoning m)) (m_tool_calls m)
       (m_tool_call_id m) (m_reasoning_items m))
    (trim_invisible (r_reasoning resp)) (r_usage resp) (r_stop_reason resp).

(** An answer completed with model and family. *)
Definition finish_response (r : Router) (req : ChatRequest) (resp : ChatResponse) : ChatResponse :=
  let model := or_else (r_model resp) (rq_Model req) in
  let family := match registry r with
    | Some resolve => or_else (r_family resp) (mm_Family (resolve model))
    | None => r_family resp
    end in
  normalizeResponse (mkChatResponse model family (r_message resp) (r_reasoning resp) (r_usage resp) (r_stop_reason resp)).

(** What the host and the provider see of a call. *)
Inductive cevent :=
| Attempt (n : nat)
| Delta (text : string)
| Wait (backoff : Z).

Definition nil_response (p : Provider) : error :=
  of_Error (NewError (p_Name p) 0 true "llm: provider returned a nil response with no error").

Definition answer_of (p : Provider) (a : attempt) : ChatResponse + error :=
  match at_answer a with
  | inl (Some resp) => inl resp
  | inl None => inr (nil_response p)
  | inr e => inr e
  end.

(** The retry loop from attempt [n] on; [wait n]: the wait behind attempt [n]
    ends before the context is cancelled. *)
Fixpoint call_loop (r : Router) (p : Provider) (req : ChatRequest) (wait : nat -> bool) (fuel n : nat)
    (backoff : Z) (lastErr : error) : list cevent * (ChatResponse + error) :=
  match fuel with
  | O => ([], inr lastErr)
  | S f =>
      let a := p_ChatCompletion p req n in
      let deltas := if rq_sink req then at_deltas a else [] in
      let seen := Attempt n :: map Delta deltas in
      match answer_of p a with
      | inl resp => (seen, inl (finish_response r req resp))
      | inr err =>
          if bool_decide (deltas <> []) then (seen, inr err)
          else if negb (IsRetryable err) || (Z.of_nat n =? maxRetries r) then (seen, inr err)
          else if negb (wait n) then (seen ++ [Wait backoff], inr err)
          else
            let backoff' := if maxBackoff r <? backoff * 2 then maxBackoff r else backoff * 2 in
            let '(tr, out) := call_loop r p req wait f (S n) backoff' err in
            (seen ++ Wait backoff :: tr, out)
      end
  end.

Definition no_error : error := ("", None).

Definition Call (r : Router) (req : ChatRequest) (wait : nat -> bool) : list cevent * (ChatResponse + error) :=
  let '(req, invalid) := prepareRequest r req (activeBareModel r) in
  match invalid with
  | Some e => ([], inr (of_Error e))
  | None =>
      call_loop r (activeProvider r) req wait (Z.to_nat (maxRetries r + 1)) 0 (initialBackoff r) no_error
  end.
End router.

(** ** Model identifiers *)

Lemma split_slash_composite name m :
  IsCompositeModelID name = false -> split_slash (CompositeModelID name m) = Some (name, m).
Proof.
  unfold IsCompositeModelID, ParseCompositeModelID, CompositeModelID.
  induction name as [|c name IH]; simpl; [done|].
  destruct (Ascii.eqb c "/"%char); [done|]. destruct (split_slash name) as [[? ?]|]; [done|].
  intros H. by rewrite IH.
Qed.

Lemma BareModel_composite name m :
  IsCompositeModelID name = false -> BareModel (CompositeModelID name m) = m.
Proof. intros H. unfold BareModel, ParseCompositeModelID. by rewrite split_slash_composite. Qed.

(** The identifier determines provider and model. *)
Lemma CompositeModelID_inj n1 m1 n2 m2 :
  IsCompositeModelID n1 = false -> IsCompositeModelID n2 = false ->
  CompositeModelID n1 m1 = CompositeModelID n2 m2 -> n1 = n2 /\ m1 = m2.
Proof.
  intros H1 H2 E. apply (f_equal split_slash) in E. rewrite !split_slash_composite in E by done. by simplify_eq.
Qed.

Lemma IsComposite_composite name m : IsCompositeModelID (CompositeModelID name m) = true.
Proof.
  unfold IsCompositeModelID, ParseCompositeModelID, CompositeModelID.
  induction name as [|c name IH]; simpl; [done|].
  destruct (Ascii.eqb c "/"%char); [done|].
  revert IH. by destruct (split_slash _) as [[? ?]|].
Qed.

(** The first of the sorted list is the least. *)
Lemma merge_sort_min (l : list string) x k y :
  merge_sort str_le l = x :: k -> y ∈ l -> str_le x y.
Proof.
  intros E Hy. pose proof (StronglySorted_merge_sort str_le l) as HS. rewrite E in HS.
  rewrite <- (merge_sort_Permutation str_le l), E in Hy. apply StronglySorted_inv in HS as [_ HF].
  apply elem_of_cons in Hy as [->|Hy]; [|by eapply Forall_forall in HF; [exact HF|]].
  by destruct (str_le_total x x).
Qed.

(** ** The active model *)

Section active.
Context `{Float64} `{TokenCounter}.
Variable quote : string -> string.
Variable create : ProviderEntry -> res Provider.
Variable cfg : RouterConfig.
Variable reg : option (string -> ModelMetadata).

(** What the configuration enables. *)
Definition enabled (l : list ProviderEntry) (name model : string) : Prop :=
  exists e, e ∈ l /\ pe_Name e = name /\ model ∈ pe_Models e.

(** The index of models and the providers it refers to are those of [l]. *)
Definition index_of (l : list ProviderEntry) (ps : gmap string Provider) (ms : gmap string string) : Prop :=
  (forall id name, ms !! id = Some name -> exists model, enabled l name model /\ id = CompositeModelID name model) /\
  (forall name model, enabled l name model -> is_Some (ms !! CompositeModelID name model)) /\
  (forall name p, ps !! name = Some p -> exists e, e ∈ l /\ pe_Name e = name /\ create e = Ok p) /\
  (forall e, e ∈ l -> is_Some (ps !! pe_Name e)).

Lemma enabled_snoc l e name model :
  enabled (l ++ [e]) name model <-> enabled l name model \/ (pe_Name e = name /\ model ∈ pe_Models e).
Proof.
  unfold enabled. split.
  - intros (x & Hx & ? & ?). apply elem_of_app in Hx as [Hx|Hx]; [left; eauto|].
    apply list_elem_of_singleton in Hx as ->. by right.
  - intros [(x & ? & ? & ?)|[? ?]]; [exists x|exists e]; rewrite elem_of_app, ?list_elem_of_singleton; auto.
Qed.

(** The models of one entry. *)
Lemma add_models name l (ms : gmap string string) id :
  fold_left (fun ms m => <[CompositeModelID name m := name]> ms) l ms !! id =
  if bool_decide (id ∈ map (CompositeModelID name) l) then Some name else ms !! id.
Proof.
  revert ms. induction l as [|m l IH]; intros ms; simpl; [done|]. rewrite IH.
  case_bool_decide as H1; case_bool_decide as H2; try done.
  - exfalso. apply H2. by right.
  - apply elem_of_cons in H2 as [->|]; [by rewrite lookup_insert_eq|done].
  - rewrite lookup_insert_ne; [done|]. intros <-. apply H2. by left.
Qed.

Lemma index_of_snoc l e p ps ms :
  index_of l ps ms -> create e = Ok p ->
  index_of (l ++ [e]) (<[pe_Name e := p]> ps)
    (fold_left (fun ms m => <[CompositeModelID (pe_Name e) m := pe_Name e]> ms) (pe_Models e) ms).
Proof.
  intros (H1 & H2 & H3 & H4) Ec. repeat split.
  - intros id name. rewrite add_models. case_bool_decide as Hin.
    + intros [= <-]. apply list_elem_of_fmap in Hin as (m & -> & Hm). exists m. rewrite enabled_snoc. auto.
    + intros Hid. destruct (H1 _ _ Hid) as (m & ? & ->). exists m. rewrite enabled_snoc. auto.
  - intros name m. rewrite enabled_snoc, add_models. case_bool_decide as Hin; [eauto|].
    intros [?|[<- ?]]; [auto|]. destruct Hin. apply list_elem_of_fmap. eauto.
  - intros name q. destruct (decide (pe_Name e = name)) as [<-|Hn].
    + rewrite lookup_insert_eq. intros [= <-]. exists e. rewrite elem_of_app, list_elem_of_singleton. auto.
    + rewrite lookup_insert_ne by done. intros Hq. destruct (H3 _ _ Hq) as (e' & ? & ? & ?).
      exists e'. rewrite elem_of_app. auto.
  - intros e' He'. destruct (decide (pe_Name e = pe_Name e')) as [->|Hn].
    + rewrite lookup_insert_eq. eauto.
    + rewrite lookup_insert_ne by done. apply elem_of_app in He' as [?|He']; [auto|].
      apply list_elem_of_singleton in He' as ->. done.
Qed.

Lemma add_entries_index l seen ps ms ps' ms' :
  index_of seen ps ms -> add_entries quote create l ps ms = Ok (ps', ms') -> index_of (seen ++ l) ps' ms'.
Proof.
  revert seen ps ms. induction l as [|e l IH]; intros seen ps ms HI; simpl.
  { intros. simplify_eq. by rewrite app_nil_r. }
  destruct (String.eqb _ _); [done|]. destruct (create e) as [p|] eqn:Ec; [|done]. intros HA.
  rewrite (cons_middle e seen l), app_assoc. eapply IH; [by apply index_of_snoc|exact HA].
Qed.

(** The routers a host can hold: a new one, switched any number of times. *)
Inductive routers : Router -> Prop :=
| new_router r : NewRouter quote create cfg reg = Ok r -> routers r
| set_model r model : routers r -> routers (snd (SetModel quote model r)).

Record router_inv (r : Router) : Prop := {
  inv_index : index_of (rc_Providers cfg) (providers r) (modelToProvider r);
  inv_enabled : enabled (rc_Providers cfg) (activeProviderName r) (activeBareModel r);
  inv_model : activeModel r = CompositeModelID (activeProviderName r) (activeBareModel r);
  inv_provider : providers r !! activeProviderName r = Some (activeProvider r);
}.

Lemma NewRouter_inv r : NewRouter quote create cfg reg = Ok r -> router_inv r.
Proof.
  unfold NewRouter. destruct (rc_Providers cfg) as [|first rest] eqn:Ep; [done|].
  destruct (add_entries _ _ _ _ _) as [[ps ms]|] eqn:Ea; [|done].
  destruct (pe_Models first) as [|m l] eqn:Em; [done|]. destruct (ps !! pe_Name first) eqn:El; [|done].
  intros [= <-]. split; simpl; [|exists first; rewrite Ep, Em; repeat split; by left|done|done].
  rewrite Ep. apply (add_entries_index _ [] ∅ ∅); [|done].
  repeat split.
  - intros id name. by rewrite lookup_empty.
  - intros name model (e & He & _). by apply not_elem_of_nil in He.
  - intros name q. by rewrite lookup_empty.
  - intros e He. by apply not_elem_of_nil in He.
Qed.

Hypothesis names : Forall (fun e => IsCompositeModelID (pe_Name e) = false) (rc_Providers cfg).

Lemma enabled_name name m : enabled (rc_Providers cfg) name m -> IsCompositeModelID name = false.
Proof. intros (e & He & <- & _). by eapply Forall_forall in names. Qed.

(** An identifier in the index can be activated. *)
Lemma activate_enabled r name m :
  router_inv r -> enabled (rc_Providers cfg) name m ->
  exists p, providers r !! name = Some p /\
  activate quote (CompositeModelID name m) m r = (None, set_active p (CompositeModelID name m) m name r).
Proof.
  intros [(H1 & H2 & H3 & H4) _ _ _] He. unfold activate. destruct (H2 _ _ He) as [name' Hn]. rewrite Hn.
  destruct (H1 _ _ Hn) as (m' & He' & E).
  apply CompositeModelID_inj in E as [<- <-]; [|by eapply enabled_name..].
  destruct He as (e & He & <- & _). destruct (H4 e He) as [p Hp]. rewrite Hp. eauto.
Qed.

Lemma set_active_inv r p name m :
  router_inv r -> enabled (rc_Providers cfg) name m -> providers r !! name = Some p ->
  router_inv (set_active p (CompositeModelID name m) m name r).
Proof. intros [? ? ? ?] ? ?. by split. Qed.

Lemma bare_matches_spec r m id :
  router_inv r -> id ∈ bare_matches m r <-> exists name, enabled (rc_Providers cfg) name m /\ id = CompositeModelID name m.
Proof.
  intros [(H1 & H2 & _) _ _ _]. unfold bare_matches.
  rewrite (merge_sort_Permutation str_le), elem_of_List_filter, list_elem_of_fmap. split.
  - intros [([id' name] & -> & Hin) Eb]. apply elem_of_map_to_list in Hin. simpl in *.
    destruct (H1 _ _ Hin) as (m' & He & ->). apply String.eqb_eq in Eb.
    rewrite BareModel_composite in Eb by by eapply enabled_name. subst. eauto.
  - intros (name & He & ->). destruct (H2 _ _ He) as [name' Hn]. split.
    + exists (CompositeModelID name m, name'). by rewrite elem_of_map_to_list.
    + apply String.eqb_eq, BareModel_composite. by eapply enabled_name.
Qed.

(** What [SetModel] does: it refuses and changes nothing, or activates. *)
Lemma SetModel_cases r model :
  router_inv r ->
  (SetModel quote model r = (Some (not_enabled quote model), r) /\
   forall name m, enabled (rc_Providers cfg) name m -> model <> CompositeModelID name m /\
     (IsCompositeModelID model = false -> model <> m)) \/
  exists name m p, enabled (rc_Providers cfg) name m /\ providers r !! name = Some p /\
    SetModel quote model r = (None, set_active p (CompositeModelID name m) m name r) /\
    (if IsCompositeModelID model then model = CompositeModelID name m
     else model = m /\ forall name', enabled (rc_Providers cfg) name' m ->
       str_le (CompositeModelID name m) (CompositeModelID name' m)).
Proof.
  intros HI. unfold SetModel. destruct (IsCompositeModelID model) eqn:Ec.
  - destruct (modelToProvider r !! model) as [name|] eqn:El.
    + right. destruct (inv_index _ HI) as (H1 & _). destruct (H1 _ _ El) as (m & He & ->).
      rewrite BareModel_composite by by eapply enabled_name.
      destruct (activate_enabled _ _ _ HI He) as (p & Hp & ->). eauto 10.
    + left. unfold activate. rewrite El. split; [done|]. intros name m He. split; [|done].
      intros ->. destruct (inv_index _ HI) as (_ & H2 & _). destruct (H2 _ _ He). congruence.
  - destruct (bare_matches model r) as [|id k] eqn:Eb.
    + left. split; [done|]. intros name m He. split.
      * intros ->. by rewrite IsComposite_composite in Ec.
      * intros _ ->. assert (Hin : CompositeModelID name m ∈ bare_matches m r) by (apply bare_matches_spec; eauto).
        rewrite Eb in Hin. by apply not_elem_of_nil in Hin.
    + right. assert (Hin : id ∈ bare_matches model r) by (rewrite Eb; by left).
      apply bare_matches_spec in Hin as (name & He & ->); [|done].
      destruct (activate_enabled _ _ _ HI He) as (p & Hp & ->).
      exists name, model, p. repeat split; try done. intros name' He'.
      eapply merge_sort_min; [exact Eb|]. rewrite <- (merge_sort_Permutation str_le).
      apply bare_matches_spec; eauto.
Qed.

Lemma routers_inv r : routers r -> router_inv r.
Proof.
  induction 1 as [r Hr|r model _ IH]; [by apply NewRouter_inv|].
  destruct (SetModel_cases r model IH) as [[-> _]|(name & m & p & He & Hp & -> & _)]; [done|].
  by apply set_active_inv.
Qed.
End active.

(** When no provider's name holds a slash, the router's selection is
    correct at every point of its life: the active model is one that the
    configuration enables, the active provider was created from an entry of
    that name, and [SetModel] succeeds exactly on a composite identifier of an
    enabled model and on a bare name of one.  It then activates that model - for
    a bare name the one with the least identifier - and otherwise changes
    nothing. *)
Theorem SetModel_correct `{Float64} `{TokenCounter} quote create cfg reg r model :
  Forall (fun e => IsCompositeModelID (pe_Name e) = false) (rc_Providers cfg) ->
  routers quote create cfg reg r ->
  let on := enabled (rc_Providers cfg) in
  let '(err, r') := SetModel quote model r in
  (on (activeProviderName r') (activeBareModel r') /\
   activeModel r' = CompositeModelID (activeProviderName r') (activeBareModel r') /\
   exists e, e ∈ rc_Providers cfg /\ pe_Name e = activeProviderName r' /\ create e = Ok (activeProvider r')) /\
  (err = None <-> exists name m, on name m /\
     (model = CompositeModelID name m \/ (IsCompositeModelID model = false /\ model = m))) /\
  (err <> None -> r' = r) /\
  (err = None -> if IsCompositeModelID model then activeModel r' = model
   else activeBareModel r' = model /\
     forall name, on name model -> str_le (activeModel r') (CompositeModelID name model)).
Proof.
  intros Hn Hr on. pose proof (routers_inv _ _ _ _ Hn _ Hr) as HI.
  assert (Hactive : forall r', router_inv create cfg r' ->
    on (activeProviderName r') (activeBareModel r') /\
    activeModel r' = CompositeModelID (activeProviderName r') (activeBareModel r') /\
    exists e, e ∈ rc_Providers cfg /\ pe_Name e = activeProviderName r' /\ create e = Ok (activeProvider r')).
  { intros r' [(_ & _ & H3 & _) He Hm Hp]. destruct (H3 _ _ Hp) as (e & ? & ? & ?). eauto 10. }
  destruct (SetModel_cases quote _ _ Hn _ model HI) as [[-> Hno]|(name & m & p & He & Hp & -> & Hsel)].
  - split; [by apply Hactive|]. repeat split; try done.
    intros (name & m & He & [->|[Ec ->]]); destruct (Hno _ _ He) as [? Hb]; [done|by destruct Hb].
  - split; [by apply Hactive, set_active_inv|]. split; [|split; [done|]].
    + split; [|done]. intros _. exists name, m. destruct (IsCompositeModelID model); [auto|]. destruct Hsel. auto.
    + intros _. destruct (IsCompositeModelID model); [done|]. destruct Hsel as [-> ?]. done.
Qed.

(** ** The retry loop *)

Section call.
Context `{Float64} `{TokenCounter}.
Variable r : Router.
Variable req : ChatRequest.
Variable wait : nat -> bool.
Let p := activeProvider r.

(** The wait behind attempt [n]. *)
Fixpoint backoff_at (n : nat) : Z :=
  match n with
  | O => initialBackoff r
  | S k => Z.min (2 * backoff_at k) (maxBackoff r)
  end.

Definition shown (n : nat) : list string := if rq_sink req then at_deltas (p_ChatCompletion p req n) else [].

(** Attempt [n] failed in a way that allows another one. *)
Definition passing (n : nat) : Prop :=
  shown n = [] /\ exists err, answer_of p (p_ChatCompletion p req n) = inr err /\ IsRetryable err = true.

(** Failed attempts and the waits behind them, from attempt [n] on. *)
Fixpoint failed_trace (n k : nat) : list cevent :=
  match k with
  | O => []
  | S k' => Attempt n :: Wait (backoff_at n) :: failed_trace (S n) k'
  end.

Definition outcome (n : nat) : ChatResponse + error :=
  match answer_of p (p_ChatCompletion p req n) with
  | inl resp => inl (finish_response r req resp)
  | inr err => inr err
  end.

Lemma call_loop_spec fuel n lastErr :
  Z.of_nat n + Z.of_nat fuel = maxRetries r + 1 -> (0 < fuel)%nat ->
  exists k, Z.of_nat (n + k) <= maxRetries r /\
    (forall i, (n <= i < n + k)%nat -> passing i /\ wait i = true) /\
    let final := (n + k)%nat in
    exists stop,
    call_loop r p req wait fuel n (backoff_at n) lastErr =
      (failed_trace n k ++ Attempt final :: map Delta (shown final) ++ stop, outcome final) /\
    ((stop = [] /\ (~ passing final \/ Z.of_nat final = maxRetries r)) \/
     (stop = [Wait (backoff_at final)] /\ passing final /\ wait final = false)).
Proof.
  revert n lastErr. induction fuel as [|f IH]; intros n lastErr Hf Hpos; [lia|]. simpl.
  assert (Hhere : forall out stop,
    ((stop = [] /\ (~ passing n \/ Z.of_nat n = maxRetries r)) \/
     (stop = [Wait (backoff_at n)] /\ passing n /\ wait n = false)) -> out = outcome n ->
    exists k, Z.of_nat (n + k) <= maxRetries r /\ (forall i, (n <= i < n + k)%nat -> passing i /\ wait i = true) /\
    exists stop', (Attempt n :: map Delta (shown n) ++ stop, out) =
      (failed_trace n k ++ Attempt (n + k) :: map Delta (shown (n + k)) ++ stop', outcome (n + k)) /\
    ((stop' = [] /\ (~ passing (n + k) \/ Z.of_nat (n + k) = maxRetries r)) \/
     (stop' = [Wait (backoff_at (n + k))] /\ passing (n + k) /\ wait (n + k) = false))).
  { intros out stop Hs ->. exists 0%nat. rewrite Nat.add_0_r. split; [lia|]. split; [lia|]. exists stop. done. }
  fold (shown n). destruct (answer_of p _) as [resp|err] eqn:Ea.
  - rewrite <- (app_nil_r (map Delta (shown n))). apply Hhere; [|by unfold outcome; rewrite Ea].
    left. split; [done|]. left. intros (_ & e & He & _). congruence.
  - assert (Ho : inr err = outcome n) by by unfold outcome; rewrite Ea.
    case_bool_decide as Hd; simpl.
    { rewrite <- (app_nil_r (map Delta (shown n))). apply Hhere; [|done]. left. split; [done|]. left. by intros [? _]. }
    destruct (IsRetryable err) eqn:Er; simpl.
    2:{ rewrite <- (app_nil_r (map Delta (shown n))). apply Hhere; [|done]. left. split; [done|]. left.
        intros (_ & e & He & ?). congruence. }
    assert (Hp : passing n) by (split; eauto).
    destruct (Z.eqb_spec (Z.of_nat n) (maxRetries r)) as [Hm|Hm].
    { rewrite <- (app_nil_r (map Delta (shown n))). apply Hhere; auto. }
    destruct (wait n) eqn:Ew; simpl; [|apply Hhere; auto].
    destruct (IH (S n) err) as (k & Hk & Hpass & stop & Hcall & Hstop); [lia|lia|].
    assert (Hb : backoff_at (S n) = if maxBackoff r <? backoff_at n * 2 then maxBackoff r else backoff_at n * 2).
    { simpl. destruct (Z.ltb_spec (maxBackoff r) (backoff_at n * 2)); lia. }
    rewrite <- Hb. exists (S k). replace (n + S k)%nat with (S n + k)%nat in * by lia. split; [done|]. split.
    { intros i Hi. destruct (decide (i = n)) as [->|]; [done|]. apply Hpass. lia. }
    exists stop. split; [|done]. rewrite Hcall. cbn [failed_trace]. by rewrite Hd.
Qed.

Lemma backoff_bound n : (0 < n)%nat -> backoff_at n <= maxBackoff r.
Proof. destruct n; simpl; lia. Qed.
End call.

(** C9: a call that fits the context window is attempted at most
    [MaxRetries] times more.  Each attempt but the last failed with a
    retryable error before it showed any text to the host, and the call waited
    between attempts, doubling the wait up to the maximum; the last one
    succeeded, failed for good, showed text, ran out of retries or was
    cancelled while waiting; its answer is the call's.  So text once shown is
    never replayed, and the host sees exactly the text of the last attempt.  A
    request that does not fit never reaches the provider. *)
Theorem Call_contract `{Float64} `{TokenCounter} quote r req0 wait :
  0 <= maxRetries r ->
  let '(req, invalid) := prepareRequest quote r req0 (activeBareModel r) in
  match invalid with
  | Some e => Call quote r req0 wait = ([], inr (of_Error e)) /\ IsRetryable (of_Error e) = false
  | None =>
      exists n stop, Z.of_nat n <= maxRetries r /\
      Call quote r req0 wait =
        (failed_trace r 0 n ++ Attempt n :: map Delta (shown r req n) ++ stop, outcome r req n) /\
      (forall i, (i < n)%nat -> passing r req i /\ wait i = true) /\
      (forall i, (0 < i)%nat -> backoff_at r i <= maxBackoff r) /\
      ((stop = [] /\ (~ passing r req n \/ Z.of_nat n = maxRetries r)) \/
       (stop = [Wait (backoff_at r n)] /\ passing r req n /\ wait n = false))
  end.
Proof.
  intros Hm. unfold Call. destruct (prepareRequest _ _ _ _) as [req [e|]] eqn:Ep.
  - split; [done|]. unfold prepareRequest in Ep. injection Ep as _ Ev.
    unfold validateContextWindow in Ev. repeat case_match; simplify_eq; done.
  - destruct (call_loop_spec r req wait (Z.to_nat (maxRetries r + 1)) 0 no_error) as (k & Hk & Hpass & stop & Hc & Hs);
      [lia|lia|].
    exists k, stop. split; [done|]. split; [exact Hc|]. split; [intros; apply Hpass; lia|].
    split; [apply backoff_bound|done].
Qed.

(** ** Examples *)

Local Existing Instance Float64_Q.
#[local] Instance demo_counter : TokenCounter := NewSimpleTokenCounter.

Definition demo_response : ChatResponse :=
  mkChatResponse "" "" (mkMessage "assistant" " hello " [] "" [] "" []) "" (mkTokenUsage 1 1) "stop".

(** Overloaded twice, then answers, streaming two deltas. *)
Definition demo_provider (name : string) : Provider :=
  mkProvider name (fun _ n => match n with
    | O | 1%nat => mkAttempt [] (inr (of_Error (NewError name 529 true "busy")))
    | _ => mkAttempt ["hel"; "lo"] (inl (Some demo_response))
    end).
Definition demo_create (e : ProviderEntry) : res Provider := Ok (demo_provider (pe_Name e)).
Definition demo_entries : list ProviderEntry :=
  [mkEntry "openai" "openai" ["gpt-4"; "o3"]; mkEntry "lmstudio" "openai" ["gpt-4"; "meta-llama/Llama-3-70b"]].
Definition demo_cfg : RouterConfig := mkRouterConfig demo_entries 0 (20 * second) 0 0 0 None.
Definition demo_q (s : string) : string := s.
Definition demo_router : Router :=
  match NewRouter demo_q demo_create demo_cfg None with
  | Ok r => r
  | Err _ => mkRouter ∅ ∅ (demo_provider "") "" "" "" 0 0 0 None None 0 0
  end.
Definition demo_request : ChatRequest := mkRequest "" "" "" [] "" no_sampling true.

Lemma SetModel_correct_witness :
  activeModel (snd (SetModel demo_q "gpt-4" demo_router)) = "lmstudio/gpt-4" /\
  (None = None :> option string <-> exists name m, enabled demo_entries name m /\
     ("gpt-4" = CompositeModelID name m \/ (IsCompositeModelID "gpt-4" = false /\ "gpt-4" = m))).
Proof.
  split; [vm_compute; reflexivity|].
  exact (proj1 (proj2 (SetModel_correct demo_q demo_create demo_cfg None demo_router "gpt-4"
    ltac:(repeat constructor) (new_router demo_q demo_create demo_cfg None demo_router eq_refl)))).
Defined.

(** Two waits - the second capped - and the answer of the third attempt. *)
Lemma Call_contract_witness :
  Call demo_q demo_router demo_request (fun _ => true) =
    ([Attempt 0; Wait (20 * second); Attempt 1; Wait (30 * second); Attempt 2; Delta "hel"; Delta "lo"],
     inl (mkChatResponse "gpt-4" "" (mkMessage "assistant" " hello" [] "" [] "" []) "" (mkTokenUsage 1 1) "stop")) /\
  exists n stop, Z.of_nat n <= 3 /\
      Call demo_q demo_router demo_request (fun _ => true) =
        (failed_trace demo_router 0 n ++ Attempt n ::
           map Delta (shown demo_router (fst (prepareRequest demo_q demo_router demo_request "gpt-4")) n) ++ stop,
         outcome demo_router (fst (prepareRequest demo_q demo_router demo_request "gpt-4")) n).
Proof.
  split; [vm_compute; reflexivity|].
  destruct (Call_contract demo_q demo_router demo_request (fun _ => true) ltac:(vm_compute; discriminate))
    as (n & stop & Hn & Hc & _).
  exists n, stop. exact (conj Hn Hc).
Defined.

(** A bare model name that holds a slash, which the identifiers allow for, is
    taken for a composite identifier: it cannot be selected without its
    provider. *)
Example slashed_model_rejected :
  fst (SetModel demo_q "meta-llama/Llama-3-70b" demo_router) =
    Some (not_enabled demo_q "meta-llama/Llama-3-70b") /\
  fst (SetModel demo_q "lmstudio/meta-llama/Llama-3-70b" demo_router) = None.
Proof. vm_compute. split; reflexivity. Qed.

(** The identifier does not determine the provider when a provider's name
    holds a slash: the later entry takes over the earlier one's model. *)
Example slashed_provider_collides :
  let cfg := mkRouterConfig [mkEntry "a" "openai" ["b/c"]; mkEntry "a/b" "openai" ["c"]] 0 0 0 0 0 None in
  match NewRouter demo_q demo_create cfg None with
  | Ok r => activeProviderName (snd (SetModel demo_q "a/b/c" r)) = "a/b"
  | Err _ => False
  end.
Proof. vm_compute. reflexivity. Qed.

(** The first wait is not capped. *)
Example first_wait_uncapped :
  let r := mkRouter ∅ ∅ (demo_provider "p") "p/m" "m" "p" 3 (60 * second) (30 * second) None None 5 4096 in
  fst (Call demo_q r demo_request (fun _ => false)) = [Attempt 0; Wait (60 * second)].
Proof. vm_compute. reflexivity. Qed.
