(* ===== verification/ModelRegistry.v ===== *)
(** * The registry of models

    Models llm/modelregistry.go, llm/family.go and llm/protocol.go: the tiers a
    model's metadata are resolved through, the normalized index that bridges
    spellings, the cache and the record of failed probes.  A pointer to
    capabilities is the value it points to: the copies the code makes so that
    callers share nothing with the registry are not seen.  [strings.ToLower],
    the clock, the sources and the answer of a probe are parameters. *)

From Stdlib Require Import ZArith Lia Ascii.
From stdpp Require Import base gmap strings list sorting.
From S2P Require Import Prelude GoStr Fence Json AgentTypes Router ModelTable.
Open Scope sp4rk_scope.
Open Scope Z_scope.

Section registry.
Variable to_lower : string -> string.

(** ** Families and protocols *)

Definition any_contains (id : string) (l : list string) : bool := existsb (contains id) l.
Definition DetectFamily (modelID : string) : string :=
  let id := to_lower modelID in
  if String.eqb id "" then "default"
  else if contains id "codex" then "openai_codex"
  else if contains id "gpt-4.1" then "openai_standard"
  else if any_contains id ["gpt-4"; "gpt-5"; "gpt-6"; "o1"; "o3"; "o4"] then "openai_flagship"
  else if contains id "claude" then "anthropic"
  else if any_contains id ["gemini"; "gemma"] then "google"
  else if any_contains id ["mistral"; "devstral"; "codestral"] then "mistral"
  else if contains id "deepseek" then "deepseek"
  else if any_contains id ["qwen"; "qwq"] then "qwen"
  else if contains id "glm" then "glm"
  else if contains id "kimi" then "kimi"
  else "default".
Definition DetectProtocol (modelID : string) : string :=
  let id := to_lower modelID in
  if String.eqb id "" then "chat_completions"
  else if any_contains id ["gpt-5"; "gpt-6"; "codex"] then "responses"
  else if contains id "claude" then "anthropic"
  else if any_contains id ["gemini"; "gemma"] then "google"
  else "chat_completions".

(** ** Normalized identifiers *)

(** [s] without the suffix [p]. *)
Definition without_suffix (s p : string) : option string :=
  if (String.length p <=? String.length s)%nat && String.eqb (str_drop (String.length s - String.length p) s) p
  then Some (take_str (String.length s - String.length p) s) else None.

Definition postfix_cores : list string :=
  ["safetensors"; "32bit"; "16bit"; "gguf"; "ggml"; "onnx"; "gptq"; "8bit"; "6bit"; "5bit"; "4bit"; "3bit"; "2bit"; "awq"; "nf4"; "mlx"].
Definition buildModelIDPostfixes : list string :=
  postfix_cores ≫= fun core =>
    ["-" +s+ core; "_" +s+ core] ++
    match without_suffix core "bit" with
    | Some prefix => ["-"; "_"] ≫= fun lead => map (fun sep => lead +s+ prefix +s+ sep +s+ "bit") ["-"; "_"]
    | None => []
    end.
Definition modelIDPostfixes : list string := Eval vm_compute in buildModelIDPostfixes.

(** [modelIDVariantPostfixPattern] *)
Definition digits_then (ends : list string) (s : string) : bool :=
  match digits1 s with Some rest => existsb (String.eqb rest) ends | None => false end.
Definition is_variant (tok : string) : bool :=
  String.eqb tok "mtp" ||
  (has_prefix tok "oq" && digits_then ["e"] (str_drop 2 tok)) ||
  existsb (fun p => has_prefix tok p && digits_then ["bit"; "b"; ""] (str_drop (String.length p) tok)) ["fp"; "q"; "bf"].

Definition is_sep (c : ascii) : bool := Ascii.eqb c "-" || Ascii.eqb c "_".
(** Around the last separator. *)
Fixpoint cut_last_sep (s : string) : option (string * string) :=
  match s with
  | "" => None
  | String c r =>
      match cut_last_sep r with
      | Some (a, b) => Some (String c a, b)
      | None => if is_sep c then Some ("", r) else None
      end
  end.
Definition longest_postfix (id : string) : string :=
  fold_left (fun best p => if (String.length best <? String.length p)%nat && (if without_suffix id p is Some _ then true else false) then p else best)
    modelIDPostfixes "".
(** One pass; [None]: nothing is left to strip. *)
Definition strip_once (id : string) : option string :=
  let p := longest_postfix id in
  if negb (String.eqb p "") then without_suffix id p
  else match cut_last_sep id with
  | Some (front, tok) => if is_variant tok then Some front else None
  | None => None
  end.
Fixpoint strip_loop (fuel : nat) (id : string) : string :=
  match fuel with
  | O => id
  | S fuel => match strip_once id with Some id' => strip_loop fuel id' | None => id end
  end.
Definition stripModelIDPostfixes (id : string) : string := strip_loop (S (String.length id)) id.

Fixpoint drop_separators (s : string) : string :=
  match s with
  | "" => ""
  | String c r => if is_sep c || Ascii.eqb c "." then drop_separators r else String c (drop_separators r)
  end.
Fixpoint until_at (s : string) : string :=
  match s with "" => "" | String c r => if Ascii.eqb c "@" then "" else String c (until_at r) end.
Definition normalizeModelID (id : string) : string :=
  drop_separators (stripModelIDPostfixes (until_at (to_lower (BareModel id)))).

(** [buildNormalizedIndex]: the entries and the keys they came from. *)
Definition str_lt (a b : string) : bool := String.ltb a b.
Definition beats (k winner : string) : bool :=
  let lk := to_lower k in let lw := to_lower winner in
  str_lt lk lw || (String.eqb lk lw && str_lt k winner).
Definition index_step (acc : gmap string (string * ModelMetadata)) (kv : string * ModelMetadata) : gmap string (string * ModelMetadata) :=
  let '(k, v) := kv in
  let norm := normalizeModelID k in
  if String.eqb norm "" then acc
  else match acc !! norm with
  | None => <[norm := (k, v)]> acc
  | Some (winner, _) => if beats k winner then <[norm := (k, v)]> acc else acc
  end.
Definition buildNormalizedIndex (m : gmap string ModelMetadata) : gmap string ModelMetadata :=
  snd <$> fold_left index_step (map_to_list m) ∅.

(** ** Records *)

Definition resolveFamily (modelID : string) (meta : ModelMetadata) : string :=
  if String.eqb (Family meta) "" then DetectFamily modelID else Family meta.
Definition resolveProtocol (modelID : string) (meta : ModelMetadata) : string :=
  if String.eqb (Protocol meta) "" then DetectProtocol modelID else Protocol meta.
Definition defaultUnknownCapabilities : ModelCapabilities := mkCaps true false false false.
Definition fallbackMetadata : ModelMetadata := mkMeta 128000 32768 "approximate" "" "" (Some defaultUnknownCapabilities) true.
Definition finalizeMeta (model : string) (meta : ModelMetadata) : ModelMetadata :=
  mkMeta (ContextWindow meta) (OutputLimit meta) (TokenizerType meta) (resolveFamily model meta) (resolveProtocol model meta)
    (Some (default defaultUnknownCapabilities (Capabilities meta)))
    (if Capabilities meta is Some _ then GuessedCapabilities meta else true).

Definition is_full (o : ModelMetadata) : bool :=
  negb (ContextWindow o =? 0) && negb (OutputLimit o =? 0) && negb (String.eqb (TokenizerType o) "") &&
  negb (String.eqb (Family o) "") && (if Capabilities o is Some _ then true else false).
Definition enrichPartialWith (override lower : ModelMetadata) : ModelMetadata :=
  if is_full override then override
  else mkMeta
    (if ContextWindow override =? 0 then ContextWindow lower else ContextWindow override)
    (if OutputLimit override =? 0 then OutputLimit lower else OutputLimit override)
    (if String.eqb (TokenizerType override) "" then TokenizerType lower else TokenizerType override)
    (if String.eqb (Family override) "" then Family lower else Family override)
    (Protocol override)
    (if Capabilities override is Some c then Some c else Capabilities lower)
    (if Capabilities override is Some _ then GuessedCapabilities override else GuessedCapabilities lower).

(** ** The registry *)

Record ModelRegistry := mkRegistry {
  overrides : gmap string ModelMetadata;
  overridesIndex : gmap string ModelMetadata;
  runtime : gmap string ModelMetadata;
  runtimeIndex : gmap string ModelMetadata;
  cache : gmap string ModelMetadata;
  negativeCache : gmap string Z;
  mr_sources : list (string -> option ModelMetadata);
}.
Variable builtIn : gmap string ModelMetadata.
Definition builtInIndex : gmap string ModelMetadata := buildNormalizedIndex builtIn.

(** Of two keys that differ in case only, one is kept, as in the range. *)
Definition lower_keys (m : gmap string ModelMetadata) : gmap string ModelMetadata :=
  list_to_map (map (fun kv => (to_lower (fst kv), snd kv)) (map_to_list m)).
Definition NewModelRegistry (o : gmap string ModelMetadata) : ModelRegistry :=
  let copied := lower_keys o in mkRegistry copied (buildNormalizedIndex copied) ∅ ∅ ∅ ∅ [].

Definition with_cache (c : gmap string ModelMetadata) (r : ModelRegistry) : ModelRegistry :=
  mkRegistry (overrides r) (overridesIndex r) (runtime r) (runtimeIndex r) c (negativeCache r) (mr_sources r).
Definition with_negative (n : gmap string Z) (r : ModelRegistry) : ModelRegistry :=
  mkRegistry (overrides r) (overridesIndex r) (runtime r) (runtimeIndex r) (cache r) n (mr_sources r).

Definition ApplyOverrides (o : gmap string ModelMetadata) (r : ModelRegistry) : ModelRegistry :=
  if decide (o = ∅) then r
  else
    let copied := lower_keys o in
    let stored := copied ∪ overrides r in
    let affected := map fst (map_to_list copied) in
    let affectedIDs := List.filter (fun n => negb (String.eqb n "")) (map normalizeModelID affected) in
    mkRegistry stored (buildNormalizedIndex stored) (runtime r) (runtimeIndex r)
      (filter (fun kv => ~ (fst kv ∈ affected \/ normalizeModelID (fst kv) ∈ affectedIDs)) (cache r))
      (negativeCache r) (mr_sources r).

Definition cacheResolved (key : string) (meta : ModelMetadata) (r : ModelRegistry) : ModelRegistry :=
  with_cache (<[key := meta]> (cache r)) r.
Definition RegisterSource (src : string -> option ModelMetadata) (r : ModelRegistry) : ModelRegistry :=
  mkRegistry (overrides r) (overridesIndex r) (runtime r) (runtimeIndex r) (cache r) (negativeCache r) (mr_sources r ++ [src]).

Definition resolveSpecOrCache (r : ModelRegistry) (model key : string) : ModelMetadata :=
  match builtIn !! key with
  | Some meta => meta
  | None =>
      let want := normalizeModelID model in
      match (if String.eqb want "" then None else builtInIndex !! want) with
      | Some meta => meta
      | None => default fallbackMetadata (cache r !! key)
      end
  end.
Definition resolveBuiltinOrCache (r : ModelRegistry) (model key : string) : ModelMetadata :=
  match runtime r !! key with
  | Some meta => enrichPartialWith meta (resolveSpecOrCache r model key)
  | None => resolveSpecOrCache r model key
  end.
Definition enrichPartialOverride (r : ModelRegistry) (model key : string) (o : ModelMetadata) : ModelMetadata :=
  enrichPartialWith o (resolveBuiltinOrCache r model key).

Definition fuzzyLookup (r : ModelRegistry) (model : string) : option ModelMetadata :=
  let want := normalizeModelID model in
  if String.eqb want "" then None
  else match overridesIndex r !! want with
  | Some meta => Some (enrichPartialOverride r model (to_lower model) meta)
  | None =>
      match runtimeIndex r !! want with
      | Some meta => Some (enrichPartialWith meta (resolveSpecOrCache r model (to_lower model)))
      | None => builtInIndex !! want
      end
  end.

Definition ResolveLocal (r : ModelRegistry) (model : string) : ModelMetadata * bool * ModelRegistry :=
  let key := to_lower model in
  match overrides r !! key with
  | Some meta => (finalizeMeta model (enrichPartialOverride r model key meta), true, r)
  | None =>
  match runtime r !! key with
  | Some meta => (finalizeMeta model (enrichPartialWith meta (resolveSpecOrCache r model key)), true, r)
  | None =>
  match builtIn !! key with
  | Some meta => (finalizeMeta model meta, true, r)
  | None =>
  match fuzzyLookup r model with
  | Some meta => let meta := finalizeMeta model meta in (meta, true, cacheResolved key meta r)
  | None =>
  match cache r !! key with
  | Some meta => (finalizeMeta model meta, true, r)
  | None => (finalizeMeta model fallbackMetadata, false, r)
  end end end end end.

(** *** Probes *)

Definition negativeCacheTTL : Z := 10 * 60 * 1000000000.
(** [negativeCacheFresh], with the sweep of what has expired. *)
Definition negativeCacheFresh (now : Z) (key : string) (r : ModelRegistry) : bool * ModelRegistry :=
  let swept := filter (fun kv => now - snd kv < negativeCacheTTL) (negativeCache r) in
  (if swept !! key is Some _ then true else false, with_negative swept r).

(** What a successful probe yields from [max_position_embeddings]. *)
Definition fetched_metadata (window : Z) : ModelMetadata :=
  mkMeta window 32768 "approximate" "" "" (Some defaultUnknownCapabilities) true.

(** A window of zero is none. *)
Definition probe_window (answer : option Z) : option Z :=
  match answer with Some w => if w =? 0 then None else Some w | None => None end.

(** What a call meets: the time of the check, the answer of a probe, whether the
    caller's context is still live behind it, and the time then. *)
Record Probe := mkProbe { pr_now : Z; pr_answer : option Z; pr_live : bool; pr_end : Z }.

Fixpoint try_sources (model : string) (l : list (string -> option ModelMetadata)) : option ModelMetadata :=
  match l with
  | [] => None
  | src :: l => match src model with Some m => Some m | None => try_sources model l end
  end.
Definition resolve_sources (r : ModelRegistry) (model : string) : ModelMetadata * bool * ModelRegistry :=
  match try_sources model (mr_sources r) with
  | Some m => let m := finalizeMeta model m in (m, true, cacheResolved (to_lower model) m r)
  | None => (finalizeMeta model fallbackMetadata, false, r)
  end.
(** [Resolve], and whether it probed. *)
Definition Resolve (r : ModelRegistry) (model : string) (p : Probe) : ModelMetadata * bool * ModelRegistry * bool :=
  let '(meta, ok, r1) := ResolveLocal r model in
  if ok then (meta, true, r1, false)
  else
    let key := to_lower model in
    let '(fresh, r2) := negativeCacheFresh (pr_now p) key r1 in
    if fresh then (resolve_sources r2 model, false)
    else match probe_window (pr_answer p) with
    | Some window =>
        let meta := finalizeMeta model (fetched_metadata window) in
        (meta, true, with_negative (delete key (negativeCache r2)) (cacheResolved key meta r2), true)
    | None =>
        let r3 := if pr_live p then with_negative (<[key := pr_end p]> (negativeCache r2)) r2 else r2 in
        (resolve_sources r3 model, true)
    end.

(** *** Writes *)

Definition Invalidate (model : string) (r : ModelRegistry) : ModelRegistry :=
  let key := to_lower model in
  let norm := normalizeModelID key in
  let gone k := k = key \/ (norm <> "" /\ normalizeModelID k = norm) in
  let rt := delete key (runtime r) in
  mkRegistry (overrides r) (overridesIndex r) rt (buildNormalizedIndex rt)
    (filter (fun kv => ~ gone (fst kv)) (cache r)) (filter (fun kv => ~ gone (fst kv)) (negativeCache r)) (mr_sources r).
Definition SetCachedMetadata (model : string) (meta : ModelMetadata) (r : ModelRegistry) : ModelRegistry :=
  with_cache (<[to_lower model := mkMeta (ContextWindow meta) (OutputLimit meta) (TokenizerType meta) (resolveFamily model meta)
    (resolveProtocol model meta) (Capabilities meta) (GuessedCapabilities meta)]> (cache r)) r.
Definition SetRuntimeMetadata (model : string) (meta : ModelMetadata) (r : ModelRegistry) : ModelRegistry :=
  let rt := <[to_lower model := meta]> (runtime r) in
  mkRegistry (overrides r) (overridesIndex r) rt (buildNormalizedIndex rt) (cache r) (negativeCache r) (mr_sources r).
Definition RuntimeMetadata (r : ModelRegistry) (model : string) : ModelMetadata * bool :=
  let meta := default (mkMeta 0 0 "" "" "" None false) (runtime r !! to_lower model) in
  (match Capabilities meta with
   | Some _ => meta
   | None => mkMeta (ContextWindow meta) (OutputLimit meta) (TokenizerType meta) (Family meta) (Protocol meta) (Some defaultUnknownCapabilities) true
   end, if runtime r !! to_lower model is Some _ then true else false).

(** *** The catalog alone *)

Definition BuiltInModelNames (tokenizerType : string) : list string :=
  merge_sort str_le (map fst (List.filter (fun kv => String.eqb tokenizerType "" || String.eqb (TokenizerType (snd kv)) tokenizerType)
    (map_to_list builtIn))).
Definition ResolveBuiltInModel (model : string) : ModelMetadata * bool :=
  match builtIn !! to_lower model with
  | Some meta => (finalizeMeta model meta, true)
  | None =>
      let want := normalizeModelID model in
      match (if String.eqb want "" then None else builtInIndex !! want) with
      | Some meta => (finalizeMeta model meta, true)
      | None => (finalizeMeta model fallbackMetadata, false)
      end
  end.
End registry.
