(* ===== verification/ModelRegistryFacts.v ===== *)
(** * What the registry of models answers

    The layers a model's metadata come from, that reading the registry is not
    seen by later reads, when a failed probe is not repeated, and what holds of
    the built-in catalog. *)

From Stdlib Require Import ZArith Lia Ascii.
From stdpp Require Import base gmap strings list sorting.
From S2P Require Import Prelude GoStr Fence Json AgentTypes Router ModelTable ModelRegistry.
Open Scope sp4rk_scope.
Open Scope Z_scope.

Section facts.
Variable to_lower : string -> string.
Variable builtIn : gmap string ModelMetadata.
Local Notation norm := (normalizeModelID to_lower).
Local Notation resolve_local := (ResolveLocal to_lower builtIn).
Local Notation resolve := (Resolve to_lower builtIn).
Local Notation spec_of := (resolveSpecOrCache to_lower builtIn).
Local Notation finalize := (finalizeMeta to_lower).

(** ** Layers *)

Definition first_nonzero (l : list Z) : Z := fold_right (fun x acc => if x =? 0 then acc else x) 0 l.
Definition first_nonempty (l : list string) : string := fold_right (fun x acc => if String.eqb x "" then acc else x) "" l.

(** The records above the specification: an override, an observed runtime entry,
    by their keys or, when no key is known, by the normalized identifier. *)
Definition layers (r : ModelRegistry) (model : string) : list ModelMetadata :=
  let key := to_lower model in
  let fuzzy index := if String.eqb (norm model) "" then None else index !! norm model in
  match overrides r !! key, runtime r !! key, builtIn !! key with
  | Some o, Some t, _ => [o; t]
  | Some o, None, _ => [o]
  | None, Some t, _ => [t]
  | None, None, Some _ => []
  | None, None, None =>
      match fuzzy (overridesIndex r), fuzzy (runtimeIndex r) with
      | Some o, _ => [o]
      | None, Some t => [t]
      | None, None => []
      end
  end.

(** A record over the one below it, field by field. *)
Definition over (o lower : ModelMetadata) : ModelMetadata :=
  mkMeta (first_nonzero [ContextWindow o; ContextWindow lower]) (first_nonzero [OutputLimit o; OutputLimit lower])
    (first_nonempty [TokenizerType o; TokenizerType lower]) (first_nonempty [Family o; Family lower]) (Protocol o)
    (if Capabilities o is Some c then Some c else Capabilities lower)
    (if Capabilities o is Some _ then GuessedCapabilities o else GuessedCapabilities lower).

Lemma first_nonzero_2 a b : first_nonzero [a; b] = if a =? 0 then b else a.
Proof. cbn. destruct (a =? 0); [|done]. destruct (Z.eqb_spec b 0); congruence. Qed.
Lemma first_nonempty_2 a b : first_nonempty [a; b] = if String.eqb a "" then b else a.
Proof. cbn. destruct (String.eqb a ""); [|done]. by destruct (String.eqb_spec b ""). Qed.
Lemma enrich_over o lower : enrichPartialWith o lower = over o lower.
Proof.
  unfold enrichPartialWith, over. rewrite !first_nonzero_2, !first_nonempty_2. destruct (is_full o) eqn:E; [|done].
  unfold is_full in E. destruct o as [w l t f p [c|] g]; cbn in *; [|by rewrite andb_false_r in E].
  rewrite andb_true_r in E. apply andb_true_iff in E as [E Hf]. apply andb_true_iff in E as [E Ht]. apply andb_true_iff in E as [Hw Hl].
  apply negb_true_iff in Hw, Hl, Ht, Hf. by rewrite Hw, Hl, Ht, Hf.
Qed.

(** Whether a tier knows the model. *)
Definition known (r : ModelRegistry) (model : string) : bool :=
  let key := to_lower model in
  let has (m : gmap string ModelMetadata) k := if m !! k is Some _ then true else false in
  has (overrides r) key || has (runtime r) key || has builtIn key || has (cache r) key ||
  (negb (String.eqb (norm model) "") &&
   (has (overridesIndex r) (norm model) || has (runtimeIndex r) (norm model) || has (builtInIndex to_lower builtIn) (norm model))).

Lemma ResolveLocal_answer r model :
  let '(meta, ok, r') := resolve_local r model in
  meta = finalize model (fold_right over (spec_of r model (to_lower model)) (layers r model)) /\ ok = known r model /\
  (r' = r \/ exists k m, r' = cacheResolved k m r).
Proof.
  unfold ResolveLocal, layers, known, enrichPartialOverride, resolveBuiltinOrCache. cbv zeta.
  destruct (overrides r !! to_lower model) as [o|]; destruct (runtime r !! to_lower model) as [t|] eqn:Er; cbn [orb fold_right];
    rewrite ?enrich_over; try (split_and!; (done || by left)).
  destruct (builtIn !! to_lower model) as [b|] eqn:Eb; cbn [orb fold_right].
  { unfold resolveSpecOrCache. rewrite Eb. split_and!; [done|done|by left]. }
  unfold fuzzyLookup, enrichPartialOverride, resolveBuiltinOrCache. cbv zeta. rewrite Er.
  destruct (String.eqb (norm model) "") eqn:En; cbn [orb negb andb fold_right].
  { unfold resolveSpecOrCache. rewrite Eb, En. destruct (cache r !! to_lower model) as [c|]; (split_and!; [done|done|by left]). }
  destruct (overridesIndex r !! norm model) as [o|]; [|destruct (runtimeIndex r !! norm model) as [t|]]; cbn [orb fold_right].
  - rewrite enrich_over. split_and!; [done|by rewrite orb_true_r|right; by eexists _, _].
  - rewrite enrich_over. split_and!; [done|by rewrite orb_true_r|right; by eexists _, _].
  - destruct (builtInIndex to_lower builtIn !! norm model) as [b|] eqn:Ei.
    + unfold resolveSpecOrCache. rewrite Eb, En, Ei. split_and!; [done|by rewrite orb_true_r|right; by eexists _, _].
    + unfold resolveSpecOrCache. rewrite Eb, En, Ei. destruct (cache r !! to_lower model) as [c|]; (split_and!; [done|done|by left]).
Qed.

(** ** Reading twice *)

Hypothesis lower_bare : forall id, to_lower (BareModel id) = BareModel (to_lower id).

Lemma norm_lower m q : to_lower m = to_lower q -> norm m = norm q.
Proof. intros H. unfold normalizeModelID. by rewrite !lower_bare, H. Qed.
Lemma detect_lower m q : to_lower m = to_lower q -> DetectFamily to_lower m = DetectFamily to_lower q.
Proof. intros H. unfold DetectFamily. by rewrite H. Qed.
Lemma DetectFamily_nonempty m : DetectFamily to_lower m <> "".
Proof. unfold DetectFamily. by repeat case_match. Qed.

(** Not unfolded in the proofs below. *)
#[local] Opaque normalizeModelID DetectFamily DetectProtocol builtInIndex buildNormalizedIndex.

(** Over the record it resolved to, finalized, a record resolves to the same. *)
Lemma finalize_over m q o s :
  to_lower m = to_lower q -> finalize m (over o (finalize q (over o s))) = finalize m (over o s).
Proof.
  intros Hl. pose proof (DetectFamily_nonempty q) as Hd. apply String.eqb_neq in Hd.
  pose proof (detect_lower m q Hl) as Hdl. unfold finalizeMeta, over, resolveFamily, resolveProtocol.
  cbn [ContextWindow OutputLimit TokenizerType Family Protocol Capabilities GuessedCapabilities]. rewrite !first_nonzero_2, !first_nonempty_2.
  f_equal.
  - by destruct (ContextWindow o =? 0).
  - by destruct (OutputLimit o =? 0).
  - by destruct (String.eqb (TokenizerType o) "").
  - destruct (String.eqb (Family o) "") eqn:Ef; [|by rewrite Ef]. destruct (String.eqb (Family s) "") eqn:Es; rewrite ?Hd, ?Es; done.
  - by destruct (Capabilities o), (Capabilities s).
  - by destruct (Capabilities o), (Capabilities s).
Qed.

(** A local read that caches: the model is known by its normalized identifier
    only. *)
Lemma ResolveLocal_effect r q :
  let '(meta, ok, r') := resolve_local r q in
  r' = r \/
  (r' = cacheResolved (to_lower q) meta r /\ ok = true /\ overrides r !! to_lower q = None /\ runtime r !! to_lower q = None /\
   builtIn !! to_lower q = None /\ exists found, fuzzyLookup to_lower builtIn r q = Some found /\ meta = finalize q found).
Proof.
  unfold ResolveLocal. destruct (overrides r !! to_lower q); [by left|]. destruct (runtime r !! to_lower q); [by left|].
  destruct (builtIn !! to_lower q); [by left|]. destruct (fuzzyLookup to_lower builtIn r q) as [found|] eqn:Ef.
  - right. split_and!; eauto.
  - destruct (cache r !! to_lower q); by left.
Qed.

Lemma layers_cache r k v model : layers (cacheResolved k v r) model = layers r model.
Proof. done. Qed.

Lemma read_unseen r q m :
  let '(_, _, r') := resolve_local r q in fst (resolve_local r' m) = fst (resolve_local r m).
Proof.
  pose proof (ResolveLocal_effect r q) as He. destruct (resolve_local r q) as [[meta ok] r'].
  destruct He as [->|(-> & -> & Ho & Hr & Hb & found & Hf & ->)]; [done|].
  pose proof (ResolveLocal_answer r m) as A1. pose proof (ResolveLocal_answer (cacheResolved (to_lower q) (finalize q found) r) m) as A2.
  destruct (resolve_local r m) as [[m1 ok1] r1]. destruct (resolve_local (cacheResolved _ _ r) m) as [[m2 ok2] r2].
  destruct A1 as (-> & -> & _). destruct A2 as (-> & -> & _). cbn [fst]. rewrite layers_cache.
  destruct (decide (to_lower m = to_lower q)) as [Hl|Hl].
  - pose proof (norm_lower _ _ Hl) as Hn. unfold fuzzyLookup, enrichPartialOverride, resolveBuiltinOrCache in Hf. cbv zeta in Hf.
    destruct (String.eqb (norm q) "") eqn:En; [done|].
    assert (Hk : known r m = true /\ known (cacheResolved (to_lower q) (finalize q found) r) m = true).
    { unfold known. cbv zeta. rewrite Hl, Hn, En, Ho, Hr, Hb. cbn [orb negb andb cacheResolved with_cache cache overrides runtime overridesIndex runtimeIndex].
      rewrite lookup_insert_eq. rewrite Ho, Hr. split; [|done].
      destruct (overridesIndex r !! norm q); [by rewrite orb_true_r|]. destruct (runtimeIndex r !! norm q); [by rewrite !orb_true_r|].
      by rewrite Hf, !orb_true_r. }
    destruct Hk as [-> ->]. f_equal. unfold layers. cbv zeta. rewrite Hl, Hn, En, Ho, Hr, Hb. rewrite Hr in Hf.
    assert (Hspec : forall r, spec_of r m (to_lower q) = spec_of r q (to_lower q)) by (intros r0; unfold resolveSpecOrCache; by rewrite Hn).
    rewrite !Hspec.
    destruct (overridesIndex r !! norm q) as [o|]; [|destruct (runtimeIndex r !! norm q) as [t|]]; cbn [fold_right].
    + injection Hf as <-. rewrite enrich_over. unfold resolveSpecOrCache at 1. rewrite Hb, En.
      destruct (builtInIndex to_lower builtIn !! norm q) as [b|] eqn:Ei; [unfold resolveSpecOrCache; by rewrite Hb, En, Ei|].
      cbn [cacheResolved with_cache cache]. rewrite lookup_insert_eq. cbn [default]. by apply finalize_over.
    + injection Hf as <-. rewrite enrich_over. unfold resolveSpecOrCache at 1. rewrite Hb, En.
      destruct (builtInIndex to_lower builtIn !! norm q) as [b|] eqn:Ei; [unfold resolveSpecOrCache; by rewrite Hb, En, Ei|].
      cbn [cacheResolved with_cache cache]. rewrite lookup_insert_eq. cbn [default]. by apply finalize_over.
    + unfold resolveSpecOrCache. by rewrite Hb, En, Hf.
  - f_equal.
    + unfold resolveSpecOrCache. cbn [cacheResolved with_cache cache]. by rewrite lookup_insert_ne.
    + unfold known. cbv zeta. cbn [cacheResolved with_cache cache overrides runtime overridesIndex runtimeIndex]. by rewrite lookup_insert_ne.
Qed.

(** Any number of local reads. *)
Definition after_reads (r : ModelRegistry) (qs : list string) : ModelRegistry :=
  fold_left (fun r q => snd (resolve_local r q)) qs r.
Lemma reads_unseen r qs m : fst (resolve_local (after_reads r qs) m) = fst (resolve_local r m).
Proof.
  revert r. induction qs as [|q qs IH]; intros r; [done|]. unfold after_reads in *. cbn [fold_left]. rewrite IH.
  pose proof (read_unseen r q m) as H. by destruct (resolve_local r q) as [[? ?] r'].
Qed.

(** ** Probes *)

Inductive op :=
| OpLocal (q : string)
| OpResolve (q : string) (p : Probe)
| OpOverrides (o : gmap string ModelMetadata)
| OpCached (q : string) (meta : ModelMetadata)
| OpRuntime (q : string) (meta : ModelMetadata)
| OpSource (src : string -> option ModelMetadata).
(** An operation, and the key it probed, if it did. *)
Definition run_op (o : op) (r : ModelRegistry) : ModelRegistry * list string :=
  match o with
  | OpLocal q => (snd (resolve_local r q), [])
  | OpResolve q p => let '(_, _, r', probed) := resolve r q p in (r', if probed then [to_lower q] else [])
  | OpOverrides ov => (ApplyOverrides to_lower ov r, [])
  | OpCached q meta => (SetCachedMetadata to_lower q meta r, [])
  | OpRuntime q meta => (SetRuntimeMetadata to_lower q meta r, [])
  | OpSource src => (RegisterSource src r, [])
  end.
Fixpoint run_ops (ops : list op) (r : ModelRegistry) : ModelRegistry * list string :=
  match ops with
  | [] => (r, [])
  | o :: ops => let '(r1, k1) := run_op o r in let '(r2, k2) := run_ops ops r1 in (r2, k1 ++ k2)
  end.
Definition before (t : Z) (o : op) : Prop := match o with OpResolve _ p => pr_now p < t | _ => True end.

Lemma ResolveLocal_negative r q : negativeCache (snd (resolve_local r q)) = negativeCache r.
Proof.
  pose proof (ResolveLocal_answer r q) as H. destruct (resolve_local r q) as [[meta ok] r']. destruct H as (_ & _ & [->|(k & m & ->)]); done.
Qed.
Lemma resolve_sources_negative r q : negativeCache (snd (resolve_sources to_lower r q)) = negativeCache r.
Proof. unfold resolve_sources. by destruct (try_sources q (mr_sources r)). Qed.
(** A record of a failed probe that has not expired stays, and its key is not
    probed. *)
Lemma Resolve_keeps r q p key t :
  negativeCache r !! key = Some t -> pr_now p < t + negativeCacheTTL ->
  let '(_, _, r', probed) := resolve r q p in
  negativeCache r' !! key = Some t /\ (probed = true -> to_lower q <> key).
Proof.
  intros Hk Ht. unfold Resolve. pose proof (ResolveLocal_negative r q) as Hl. destruct (resolve_local r q) as [[meta ok] r1]. cbn [snd] in Hl.
  destruct ok; [by rewrite Hl|]. unfold negativeCacheFresh. rewrite Hl.
  set (swept := filter (fun kv => pr_now p - snd kv < negativeCacheTTL) (negativeCache r)).
  assert (Hs : swept !! key = Some t) by (apply map_lookup_filter_Some; cbn [snd]; split; [done|lia]).
  set (r2 := with_negative swept r1). destruct (swept !! to_lower q) as [t'|] eqn:Eq.
  - pose proof (resolve_sources_negative r2 q) as Hsrc. destruct (resolve_sources to_lower r2 q) as [[m ok] r']. cbn [snd] in Hsrc.
    split; [|done]. by rewrite Hsrc.
  - assert (Hne : to_lower q <> key) by congruence. destruct (probe_window (pr_answer p)) as [w|].
    + split; [|done]. cbn [with_negative negativeCache]. by rewrite lookup_delete_ne.
    + set (r3 := if pr_live p then _ else r2). pose proof (resolve_sources_negative r3 q) as Hsrc.
      destruct (resolve_sources to_lower r3 q) as [[m ok] r']. cbn [snd] in Hsrc. split; [|done]. rewrite Hsrc.
      unfold r3. destruct (pr_live p); [|done]. cbn [with_negative negativeCache]. by rewrite lookup_insert_ne.
Qed.
Lemma run_op_keeps o r key t :
  negativeCache r !! key = Some t -> before (t + negativeCacheTTL) o ->
  negativeCache (fst (run_op o r)) !! key = Some t /\ key ∉ snd (run_op o r).
Proof.
  intros Hk Ho. destruct o as [q|q p|ov|q meta|q meta|src]; cbn [run_op fst snd].
  - rewrite ResolveLocal_negative. split; [done|apply not_elem_of_nil].
  - pose proof (Resolve_keeps r q p key t Hk Ho) as H. destruct (resolve r q p) as [[[m ok] r'] probed]. destruct H as [H1 H2].
    split; [done|]. cbn [snd]. destruct probed; [|apply not_elem_of_nil]. rewrite list_elem_of_singleton. intros ->. by apply H2.
  - unfold ApplyOverrides. split; [|apply not_elem_of_nil]. by destruct (decide (ov = ∅)).
  - split; [done|apply not_elem_of_nil].
  - split; [done|apply not_elem_of_nil].
  - split; [done|apply not_elem_of_nil].
Qed.
Lemma run_ops_keep ops r key t :
  negativeCache r !! key = Some t -> Forall (before (t + negativeCacheTTL)) ops ->
  negativeCache (fst (run_ops ops r)) !! key = Some t /\ key ∉ snd (run_ops ops r).
Proof.
  intros Hk Hf. revert r Hk. induction Hf as [|o ops Ho _ IH]; intros r Hk; cbn [run_ops]; [split; [done|apply not_elem_of_nil]|].
  destruct (run_op_keeps o r key t Hk Ho) as [H1 H2]. destruct (run_op o r) as [r1 k1]. destruct (IH r1 H1) as [H3 H4].
  destruct (run_ops ops r1) as [r2 k2]. cbn [fst snd] in *. split; [done|]. rewrite elem_of_app. tauto.
Qed.

(** What a failed probe leaves, and when the next one is made. *)
Lemma Resolve_failed r model p :
  let '(_, _, r', probed) := resolve r model p in
  probed = true -> probe_window (pr_answer p) = None -> pr_live p = true -> negativeCache r' !! to_lower model = Some (pr_end p).
Proof.
  unfold Resolve. destruct (resolve_local r model) as [[meta ok] r1]. destruct ok; [done|].
  destruct (negativeCacheFresh (pr_now p) (to_lower model) r1) as [fresh r2]. destruct fresh.
  { by destruct (resolve_sources to_lower r2 model) as [[? ?] ?]. }
  destruct (probe_window (pr_answer p)) as [w|] eqn:Ew; [done|]. set (r3 := if pr_live p then _ else r2).
  pose proof (resolve_sources_negative r3 model) as Hsrc. destruct (resolve_sources to_lower r3 model) as [[m ok] r']. cbn [snd] in Hsrc.
  intros _ _ Hl. rewrite Hsrc. unfold r3. rewrite Hl. cbn [with_negative negativeCache]. apply lookup_insert_eq.
Qed.
Lemma Resolve_probes r model p :
  known r model = false -> (forall t, negativeCache r !! to_lower model = Some t -> t + negativeCacheTTL <= pr_now p) ->
  snd (resolve r model p) = true.
Proof.
  intros Hk Hn. unfold Resolve. pose proof (ResolveLocal_answer r model) as Ha. pose proof (ResolveLocal_negative r model) as Hl.
  destruct (resolve_local r model) as [[meta ok] r1]. cbn [snd] in Hl. destruct Ha as (_ & -> & _). rewrite Hk. unfold negativeCacheFresh. rewrite Hl.
  destruct (filter _ (negativeCache r) !! to_lower model) as [t|] eqn:E.
  - exfalso. apply map_lookup_filter_Some in E as [E Ht]. cbn [snd] in Ht. specialize (Hn t E). lia.
  - destruct (probe_window (pr_answer p)); [done|]. by destruct (resolve_sources to_lower _ model) as [[? ?] ?].
Qed.
End facts.

(** C28: how a model resolves without the network, whatever was read before:
    every field is the one of the highest record that has it - an override, then
    what was observed at runtime, then the specification: the catalog's entry,
    the catalog's entry of the same normalized identifier, the cache, the
    fallback - except the protocol, which only the highest record can pin.  What
    an override says is what comes back.  Reads leave nothing behind that a
    later read would answer differently for. *)
Theorem ResolveLocal_layers to_lower builtIn r qs model :
  (forall id, to_lower (BareModel id) = BareModel (to_lower id)) ->
  let '(meta, ok, _) := ResolveLocal to_lower builtIn (after_reads to_lower builtIn r qs) model in
  meta = finalizeMeta to_lower model
    (fold_right over (resolveSpecOrCache to_lower builtIn r model (to_lower model)) (layers to_lower builtIn r model)) /\
  ok = known to_lower builtIn r model /\ Capabilities meta <> None /\ Family meta <> "" /\
  (forall o, overrides r !! to_lower model = Some o ->
    (ContextWindow o <> 0 -> ContextWindow meta = ContextWindow o) /\ (OutputLimit o <> 0 -> OutputLimit meta = OutputLimit o) /\
    (TokenizerType o <> "" -> TokenizerType meta = TokenizerType o) /\ (Family o <> "" -> Family meta = Family o) /\
    (Protocol o <> "" -> Protocol meta = Protocol o) /\ (Capabilities o <> None -> Capabilities meta = Capabilities o)).
Proof.
  intros Hlow. pose proof (reads_unseen to_lower builtIn Hlow r qs model) as Hr.
  pose proof (ResolveLocal_answer to_lower builtIn r model) as Ha.
  destruct (ResolveLocal to_lower builtIn (after_reads to_lower builtIn r qs) model) as [[meta ok] r1].
  destruct (ResolveLocal to_lower builtIn r model) as [[meta2 ok2] r2]. cbn [fst] in Hr. injection Hr as -> ->.
  destruct Ha as (-> & -> & _). split_and!; [done|done|done| |].
  - unfold finalizeMeta, resolveFamily. cbn [Family]. destruct (String.eqb_spec (Family (fold_right over
      (resolveSpecOrCache to_lower builtIn r model (to_lower model)) (layers to_lower builtIn r model))) "") as [_|H]; [apply DetectFamily_nonempty|exact H].
  - intros o Ho. unfold layers. cbv zeta. rewrite Ho.
    assert (Hl : exists lower, fold_right over (resolveSpecOrCache to_lower builtIn r model (to_lower model))
      (match runtime r !! to_lower model with Some t => [o; t] | None => [o] end) = over o lower).
    { destruct (runtime r !! to_lower model); cbn [fold_right]; eauto. }
    destruct Hl as [lower Hl]. rewrite Hl. clear Hl.
    unfold finalizeMeta, resolveFamily, resolveProtocol, over. rewrite !first_nonzero_2, !first_nonempty_2.
    cbn [ContextWindow OutputLimit TokenizerType Family Protocol Capabilities].
    split_and!.
    + intros H. by rewrite (proj2 (Z.eqb_neq _ _) H).
    + intros H. by rewrite (proj2 (Z.eqb_neq _ _) H).
    + intros H. by rewrite (proj2 (String.eqb_neq _ _) H).
    + intros H. by rewrite !(proj2 (String.eqb_neq _ _) H).
    + intros H. by rewrite (proj2 (String.eqb_neq _ _) H).
    + by destruct (Capabilities o).
Qed.

(** A model nobody knows costs one probe in ten minutes: after a probe that
    failed while the caller's context was live, no operation - reads, resolutions
    of other models and spellings, writes of overrides, of the cache, of runtime
    entries - makes another one for the same key until the window has passed, at
    which point the next resolution does.  ([Invalidate], whose purpose is to
    forget the record, is not among the operations.) *)
Theorem failed_probe_not_repeated to_lower builtIn r model p ops :
  let '(_, _, r1, probed) := Resolve to_lower builtIn r model p in
  probed = true -> probe_window (pr_answer p) = None -> pr_live p = true ->
  Forall (before (pr_end p + negativeCacheTTL)) ops ->
  let '(r2, keys) := run_ops to_lower builtIn ops r1 in
  to_lower model ∉ keys /\
  (forall p', known to_lower builtIn r2 model = false ->
    snd (Resolve to_lower builtIn r2 model p') = negb (pr_now p' <? pr_end p + negativeCacheTTL)).
Proof.
  pose proof (Resolve_failed to_lower builtIn r model p) as Hf.
  destruct (Resolve to_lower builtIn r model p) as [[[meta ok] r1] probed]. intros Hp Ha Hl Hops. specialize (Hf Hp Ha Hl).
  destruct (run_ops_keep to_lower builtIn ops r1 _ _ Hf Hops) as [H1 H2]. destruct (run_ops to_lower builtIn ops r1) as [r2 keys]. cbn [fst snd] in *.
  split; [done|]. intros p' Hk. destruct (Z.ltb_spec (pr_now p') (pr_end p + negativeCacheTTL)) as [Ht|Ht]; cbn [negb].
  - pose proof (Resolve_keeps to_lower builtIn r2 model p' _ _ H1 Ht) as H.
    destruct (Resolve to_lower builtIn r2 model p') as [[[m ok'] r3] probed']. destruct H as [_ H]. cbn [snd]. destruct probed'; [by destruct H|done].
  - apply Resolve_probes; [done|]. intros t Et. rewrite H1 in Et. injection Et as <-. done.
Qed.

(** ** The normalized index *)

Section index.
Variable to_lower : string -> string.
Transparent normalizeModelID buildNormalizedIndex.

Lemma str_lt_spec a b : str_lt a b = true <-> str_le a b /\ a <> b.
Proof.
  assert (Hr : forall c, String.compare c c <> Lt).
  { intros c H. pose proof (String.compare_antisym c c) as H2. rewrite H in H2. done. }
  unfold str_lt, str_le, String.ltb, String.leb. destruct (String.compare a b) eqn:E.
  - apply String.compare_eq_iff in E. naive_solver.
  - split; [intros _|done]. split; [done|]. intros ->. by eapply Hr.
  - naive_solver.
Qed.
Lemma str_lt_total a b : str_lt a b = true \/ a = b \/ str_lt b a = true.
Proof. rewrite !str_lt_spec. destruct (decide (a = b)) as [->|Hne]; [by right; left|]. destruct (str_le_total a b); [by left|do 2 right; by split]. Qed.
Lemma str_lt_trans a b c : str_lt a b = true -> str_lt b c = true -> str_lt a c = true.
Proof.
  rewrite !str_lt_spec. intros [H1 H2] [H3 H4]. split; [by transitivity b|]. intros ->. apply H4. by apply (anti_symm str_le).
Qed.
Lemma beats_spec a b :
  beats to_lower a b = true <-> str_lt (to_lower a) (to_lower b) = true \/ to_lower a = to_lower b /\ str_lt a b = true.
Proof. unfold beats. by rewrite orb_true_iff, andb_true_iff, String.eqb_eq. Qed.
Lemma beats_total a b : a = b \/ beats to_lower a b = true \/ beats to_lower b a = true.
Proof.
  rewrite !beats_spec. destruct (str_lt_total (to_lower a) (to_lower b)) as [H|[H|H]]; [tauto| |tauto].
  destruct (str_lt_total a b) as [H2|[H2|H2]]; [tauto|tauto|]. right. right. right. by split.
Qed.
Lemma beats_trans a b c : beats to_lower a b = true -> beats to_lower b c = true -> beats to_lower a c = true.
Proof.
  rewrite !beats_spec. intros [H1|[E1 H1]] [H2|[E2 H2]].
  - left. by eapply str_lt_trans.
  - left. by rewrite <- E2.
  - left. by rewrite E1.
  - right. split; [congruence|by eapply str_lt_trans].
Qed.

(** The entry under a normalized identifier is that of the least key with it,
    whatever the order of the range. *)
Definition least (l : list (string * ModelMetadata)) (n : string) (o : option (string * ModelMetadata)) : Prop :=
  match o with
  | Some (k, v) => (k, v) ∈ l /\ normalizeModelID to_lower k = n /\ n <> "" /\
      forall k' v', (k', v') ∈ l -> normalizeModelID to_lower k' = n -> k' = k \/ beats to_lower k k' = true
  | None => n = "" \/ forall k' v', (k', v') ∈ l -> normalizeModelID to_lower k' <> n
  end.
Lemma index_step_least l acc kv n :
  (forall n, least l n (acc !! n)) -> least (l ++ [kv]) n (index_step to_lower acc kv !! n).
Proof.
  intros Hacc. destruct kv as [k v]. unfold index_step. set (norm := normalizeModelID to_lower k).
  assert (Hother : forall o, least l n o -> n <> norm -> least (l ++ [(k, v)]) n o).
  { intros [[k0 v0]|] Ho Hn; cbn [least] in *.
    - destruct Ho as (H1 & H2 & H3 & H4). split_and!; [apply elem_of_app; by left|done|done|].
      intros k' v' [Hin|[= -> ->]%list_elem_of_singleton]%elem_of_app; [by eapply H4|done].
    - destruct Ho as [Ho|Ho]; [by left|right]. intros k' v' [Hin|[= -> ->]%list_elem_of_singleton]%elem_of_app; [by eapply Ho|done]. }
  destruct (String.eqb_spec norm "") as [En|En].
  { specialize (Hacc n). destruct (decide (n = "")) as [->|Hn]; [|apply Hother; congruence].
    destruct (acc !! "") as [[k0 v0]|]; [|by left]. by destruct Hacc as (_ & _ & ? & _). }
  destruct (decide (n = norm)) as [->|Hn].
  - pose proof (Hacc norm) as Ho. destruct (acc !! norm) as [[w vw]|] eqn:E.
    + destruct Ho as (H1 & H2 & H3 & H4). destruct (beats to_lower k w) eqn:Eb.
      * rewrite lookup_insert_eq. split_and!; [apply elem_of_app; right; by apply list_elem_of_singleton|done|done|].
        intros k' v' [Hin|[= -> ->]%list_elem_of_singleton]%elem_of_app Hk'; [|by left]. right.
        destruct (H4 k' v' Hin Hk') as [->|Hb]; [done|by eapply beats_trans].
      * rewrite E. split_and!; [apply elem_of_app; by left|done|done|].
        intros k' v' [Hin|[= -> ->]%list_elem_of_singleton]%elem_of_app Hk'; [by eapply H4|].
        destruct (beats_total k w) as [?|[?|?]]; [by left|congruence|by right].
    + destruct Ho as [?|Ho]; [done|]. rewrite lookup_insert_eq. split_and!; [apply elem_of_app; right; by apply list_elem_of_singleton|done|done|].
      intros k' v' [Hin|[= -> ->]%list_elem_of_singleton]%elem_of_app Hk'; [by destruct (Ho k' v' Hin)|by left].
  - assert (E : forall kv', (<[norm := kv']> acc) !! n = acc !! n) by (intros; by rewrite lookup_insert_ne).
    specialize (Hacc n). destruct (acc !! norm) as [[w vw]|]; [destruct (beats to_lower k w)|]; rewrite ?E; by apply Hother.
Qed.
Lemma index_fold_least l done acc :
  (forall n, least done n (acc !! n)) -> forall n, least (done ++ l) n (fold_left (index_step to_lower) l acc !! n).
Proof.
  revert done acc. induction l as [|kv l IH]; intros d acc Hacc n; cbn [fold_left]; [by rewrite app_nil_r|].
  rewrite (app_assoc d [kv] l : d ++ kv :: l = (d ++ [kv]) ++ l). apply IH. intros n'. by apply index_step_least.
Qed.
Lemma buildNormalizedIndex_least m n :
  match buildNormalizedIndex to_lower m !! n with
  | Some v => n <> "" /\ exists k, m !! k = Some v /\ normalizeModelID to_lower k = n /\
      forall k' v', m !! k' = Some v' -> normalizeModelID to_lower k' = n -> k' = k \/ beats to_lower k k' = true
  | None => n = "" \/ forall k' v', m !! k' = Some v' -> normalizeModelID to_lower k' <> n
  end.
Proof.
  unfold buildNormalizedIndex. rewrite lookup_fmap.
  assert (H0 : forall n, least [] n ((∅ : gmap string (string * ModelMetadata)) !! n)).
  { intros n'. rewrite lookup_empty. right. by intros k' v' ?%elem_of_nil. }
  pose proof (index_fold_least (map_to_list m) [] ∅ H0 n) as H. cbn [app] in H.
  destruct (fold_left (index_step to_lower) (map_to_list m) ∅ !! n) as [[k v]|]; cbn [fmap option_fmap option_map snd least] in *.
  - destruct H as (H1 & H2 & H3 & H4). split; [done|]. exists k. apply elem_of_map_to_list in H1. split_and!; [done|done|].
    intros k' v' Hk' Hn. eapply H4; [by apply elem_of_map_to_list|done].
  - destruct H as [H|H]; [by left|right]. intros k' v' Hk'. eapply H. by apply elem_of_map_to_list.
Qed.
End index.

(** ** Stripping ends where nothing is left to strip *)

Lemma without_suffix_spec s p s' : without_suffix s p = Some s' -> s = s' +s+ p.
Proof.
  unfold without_suffix. destruct (_ && _) eqn:E; [|done]. apply andb_true_iff in E as [_ E]. apply String.eqb_eq in E.
  intros [= <-]. rewrite <- E at 2. by rewrite take_drop_str.
Qed.
Lemma cut_last_sep_length s a b : cut_last_sep s = Some (a, b) -> (String.length a < String.length s)%nat.
Proof.
  revert a. induction s as [|c s IH]; intros a; cbn [cut_last_sep]; [done|].
  destruct (cut_last_sep s) as [[a' b']|]; [intros [= <- <-]; specialize (IH _ eq_refl); simpl; lia|].
  destruct (is_sep c); [|done]. intros [= <- _]. simpl. lia.
Qed.
Lemma strip_once_length s s' : strip_once s = Some s' -> (String.length s' < String.length s)%nat.
Proof.
  unfold strip_once. destruct (String.eqb_spec (longest_postfix s) "") as [E|E]; cbn [negb].
  - destruct (cut_last_sep s) as [[a b]|] eqn:Ec; [|done]. destruct (is_variant b); [|done]. intros [= <-]. by eapply cut_last_sep_length.
  - intros H. apply without_suffix_spec in H. rewrite H, length_sapp. destruct (longest_postfix s); [done|]. simpl. lia.
Qed.
Lemma strip_loop_end fuel s : (String.length s < fuel)%nat -> strip_once (strip_loop fuel s) = None.
Proof.
  revert s. induction fuel as [|fuel IH]; intros s Hf; [lia|]. cbn [strip_loop].
  destruct (strip_once s) as [s'|] eqn:E; [|done]. apply IH. apply strip_once_length in E. lia.
Qed.
Lemma stripModelIDPostfixes_end id : strip_once (stripModelIDPostfixes id) = None.
Proof. apply strip_loop_end. lia. Qed.

(** ** At concrete inputs *)

Definition lower_ascii (c : ascii) : ascii :=
  let n := nat_of_ascii c in if (65 <=? n)%nat && (n <=? 90)%nat then ascii_of_nat (n + 32) else c.
Fixpoint lower (s : string) : string := match s with "" => "" | String c r => String (lower_ascii c) (lower r) end.

Lemma lower_slash c : Ascii.eqb (lower_ascii c) "/" = Ascii.eqb c "/".
Proof. by destruct c as [[] [] [] [] [] [] [] []]. Qed.

(** *** The catalog *)

Definition entry_ok (kv : string * ModelMetadata) : bool :=
  let '(k, v) := kv in
  String.eqb (lower k) k && (0 <? OutputLimit v) && (OutputLimit v <? ContextWindow v) &&
  existsb (String.eqb (TokenizerType v)) ["tiktoken/o200k_base"; "anthropic-api"; "approximate"] &&
  negb (String.eqb (Family v) "") && (if Capabilities v is Some _ then true else false) && negb (GuessedCapabilities v) &&
  negb (String.eqb (drop_separators (BareModel k)) "").
Fixpoint keys_distinct (l : list string) : bool :=
  match l with [] => true | k :: l => negb (existsb (String.eqb k) l) && keys_distinct l end.

Lemma existsb_eqb k l : existsb (String.eqb k) l = true <-> k ∈ l.
Proof.
  rewrite existsb_exists, list_elem_of_In. split; [intros (x & Hx & ->%String.eqb_eq); done|intros H; exists k; split; [done|apply String.eqb_refl]].
Qed.
Lemma keys_distinct_NoDup l : keys_distinct l = true -> NoDup l.
Proof.
  induction l as [|k l IH]; cbn [keys_distinct]; intros H; [constructor|]. apply andb_true_iff in H as [H1 H2].
  constructor; [|by apply IH]. apply negb_true_iff in H1. intros Hin. apply existsb_eqb in Hin. congruence.
Qed.
Lemma catalog_checked : forallb entry_ok catalog = true /\ keys_distinct (map fst catalog) = true.
Proof. split; vm_compute; reflexivity. Qed.

Lemma entry_ok_spec k v :
  entry_ok (k, v) = true ->
  0 < OutputLimit v < ContextWindow v /\
  In (TokenizerType v) ["tiktoken/o200k_base"; "anthropic-api"; "approximate"] /\ Capabilities v <> None /\ Family v <> "".
Proof.
  unfold entry_ok. intros H. repeat (apply andb_true_iff in H as [H ?]).
  split_and!; [by apply Z.ltb_lt|by apply Z.ltb_lt| |by destruct (Capabilities v)|by apply String.eqb_neq, negb_true_iff].
  by apply list_elem_of_In, existsb_eqb.
Qed.

(** Every model of the catalog is found under its name, however it is cased, with
    the record of the catalog as it stands: a positive answer limit below the
    window, a tokenizer the counting knows, declared capabilities. *)
Lemma catalog_resolves k v model :
  (k, v) ∈ catalog -> lower model = k ->
  ResolveBuiltInModel lower makeBuiltInRegistry model = (finalizeMeta lower model v, true) /\
  0 < OutputLimit v < ContextWindow v /\
  In (TokenizerType v) ["tiktoken/o200k_base"; "anthropic-api"; "approximate"] /\ Capabilities v <> None /\ Family v <> "".
Proof.
  intros Hin Hk. destruct catalog_checked as [Hall Hd]. apply keys_distinct_NoDup in Hd.
  assert (Hl : makeBuiltInRegistry !! lower model = Some v) by (rewrite Hk; by apply elem_of_list_to_map_1).
  split; [unfold ResolveBuiltInModel; rewrite Hl; reflexivity|clear Hl].
  apply (proj1 (forallb_forall _ _)) with (x := (k, v)) in Hall; [|by apply list_elem_of_In].
  by apply (entry_ok_spec k).
Qed.

Lemma lower_bare id : lower (BareModel id) = BareModel (lower id).
Proof.
  unfold BareModel, ParseCompositeModelID.
  assert (H : split_slash (lower id) = match split_slash id with Some (a, b) => Some (lower a, lower b) | None => None end).
  { induction id as [|c id IH]; [done|]. cbn [lower split_slash]. rewrite lower_slash. destruct (Ascii.eqb c "/"); [done|].
    rewrite IH. by destruct (split_slash id) as [[a b]|]. }
  rewrite H. by destruct (split_slash id) as [[a b]|].
Qed.

Definition window (w : Z) : ModelMetadata := mkMeta w 0 "" "" "" None false.
Definition small_catalog : gmap string ModelMetadata := {["acme/m-1" := entry 64000 8000 "approximate" "qwen" (mkCaps false false true true)]}.
Definition demo_registry : ModelRegistry := SetRuntimeMetadata lower "acme/m-1" (window 8192) (NewModelRegistry lower ∅).

(** The window observed at runtime, the rest of the catalog, under another spelling. *)
Lemma ResolveLocal_layers_witness :
  (forall id, lower (BareModel id) = BareModel (lower id)) /\
  let answer := ResolveLocal lower small_catalog (after_reads lower small_catalog demo_registry ["M1-GGUF"]) "m.1" in
  fst (fst answer) = finalizeMeta lower "m.1"
    (fold_right over (resolveSpecOrCache lower small_catalog demo_registry "m.1" "m.1") (layers lower small_catalog demo_registry "m.1")) /\
  fst answer = (mkMeta 8192 8000 "approximate" "qwen" "chat_completions" (Some (mkCaps false false true true)) false, true).
Proof.
  split; [apply lower_bare|]. split; [|vm_compute; reflexivity].
  pose proof (ResolveLocal_layers lower small_catalog demo_registry ["M1-GGUF"] "m.1" lower_bare) as H.
  destruct (ResolveLocal lower small_catalog (after_reads lower small_catalog demo_registry ["M1-GGUF"]) "m.1") as [[meta ok] r].
  exact (proj1 H).
Defined.

Definition minute : Z := 60 * 1000000000.
Definition fails_at (t : Z) : Probe := mkProbe t None true t.
Definition first_try := Resolve lower ∅ (NewModelRegistry lower ∅) "A/b" (fails_at 0).
Definition meanwhile : list op := [OpResolve "a/B" (fails_at minute); OpLocal "a/b"; OpResolve "c" (fails_at minute)].
Lemma failed_probe_not_repeated_witness :
  snd first_try = true /\
  let later := run_ops lower ∅ meanwhile (snd (fst first_try)) in
  "a/b" ∉ snd later /\ snd later = ["c"] /\
  snd (Resolve lower ∅ (fst later) "a/b" (fails_at (10 * minute))) = true.
Proof.
  split; [vm_compute; reflexivity|]. cbv zeta. split; [|split; vm_compute; reflexivity].
  pose proof (failed_probe_not_repeated lower ∅ (NewModelRegistry lower ∅) "A/b" (fails_at 0) meanwhile) as H.
  assert (Hp : snd first_try = true) by (vm_compute; reflexivity). unfold first_try in *.
  destruct (Resolve lower ∅ (NewModelRegistry lower ∅) "A/b" (fails_at 0)) as [[[meta ok] r1] probed].
  specialize (H Hp eq_refl eq_refl). assert (Hf : Forall (before (pr_end (fails_at 0) + negativeCacheTTL)) meanwhile).
  { constructor; [vm_compute; reflexivity|constructor; [exact I|constructor; [vm_compute; reflexivity|constructor]]]. }
  specialize (H Hf). cbn [fst snd]. destruct (run_ops lower ∅ meanwhile r1) as [r2 keys]. exact (proj1 H).
Defined.

(** *** What replacing a runtime entry leaves *)

(** After the runtime entry of ["a-b"] is replaced by one that observed no
    window, the twin ["ab"] still answers with the window of the replaced one,
    through what an earlier read of the twin cached. *)
Example stale_twin :
  let r1 := SetRuntimeMetadata lower "a-b" (window 8192) (NewModelRegistry lower ∅) in
  let r2 := snd (ResolveLocal lower ∅ r1 "ab") in
  let r3 := SetRuntimeMetadata lower "a-b" (mkMeta 0 4096 "" "" "" None false) r2 in
  ContextWindow (fst (fst (ResolveLocal lower ∅ r3 "ab"))) = 8192 /\
  ContextWindow (fst (fst (ResolveLocal lower ∅ r3 "a-b"))) = 128000.
Proof. vm_compute. done. Qed.

(** With vendor prefixes, a quantized spelling can win over the base. *)
Example base_loses :
  ContextWindow <$> buildNormalizedIndex lower {["b/m" := window 1; "a/m-gguf" := window 2]} !! "m" = Some 2.
Proof. vm_compute. done. Qed.

(** A bare name is not matched to the prefixed key of the same spelling, but to
    the least key with its normalized form. *)
Definition fp8_key : ModelMetadata := default (window 0) (makeBuiltInRegistry !! "zai-org/glm-5.2-fp8").
Definition fp8_bare : ModelMetadata := fst (ResolveBuiltInModel lower makeBuiltInRegistry "glm-5.2-fp8").
Example bare_spelling : ContextWindow fp8_key = 1048576 /\ ContextWindow fp8_bare = 1000000.
Proof. vm_compute. done. Qed.
