(* ===== verification/ToolCache.v ===== *)
(** * The tool result cache: [src/agent/tool_cache.go]

    Raw tool outputs under git-style abbreviated hashes.  The maps of the
    struct are [gmap]s; each exported method holds the mutex for its whole
    body (or re-resolves after taking the write lock, [Get]), so it is one
    function on the state.  SHA-256 in hexadecimal is a parameter of which only
    the length is used; clock readings are arguments in nanoseconds; the order
    in which [range] visits a map is an argument where it could matter. *)

From Stdlib Require Import ZArith Lia Ascii.
From stdpp Require Import base gmap strings list.
From S2P Require Import Prelude GoStr.
Open Scope sp4rk_scope.

(** ** Data *)

Definition minAbbrevLen : nat := 4.
Definition fullHashLen : nat := 64.
Definition maxCacheInputBytes : Z := 4 * 1024.

Record ToolResultCacheEntry := mkEntry {
  Hash : string;
  Content : string;
  ToolName : string;
  CreatedAt : Z;
  Input : string;
  FilePath : string;
  FileMtime : Z;
  FileSize : Z;
  FileBacked : bool;
  TTL : Z;
  IsMCP : bool;
}.

Record ToolCacheMeta := mkMeta {
  meta_FilePath : string;
  meta_FileMtime : Z;
  meta_FileSize : Z;
  meta_IsMCP : bool;
  meta_Input : string;
  meta_FileBacked : bool;
}.

Record ToolResultCache := mkCache {
  entries : gmap string ToolResultCacheEntry;
  fullToShort : gmap string string;
  retiredShort : gset string;
  ttl : Z;
  storeCount : Z;
}.

Definition NewToolResultCache (ttl : Z) : ToolResultCache := mkCache ∅ ∅ ∅ ttl 0.

(** [int64] arithmetic of the store counter. *)
Definition int64 (z : Z) : Z := (z + 2 ^ 63) mod 2 ^ 64 - 2 ^ 63.

Definition nul : string := String "000" "".

(** ** Operations *)

Section cache.
Variable sha256hex : string -> string.

Definition ComputeToolResultHash (toolName content : string) : string :=
  sha256hex (toolName +s+ nul +s+ content).

Definition ComputeFileBackedHash (toolName filePath : string) (mtime size : Z) : string :=
  sha256hex (toolName +s+ nul +s+ filePath +s+ nul +s+ itoa mtime +s+ nul +s+ itoa size).

(** The loop of [abbreviateLocked] from prefix length [n], [k] lengths left. *)
Fixpoint abbreviate_from (c : ToolResultCache) (full : string) (n k : nat) : string :=
  match k with
  | O => full
  | S k' =>
      let prefix := take_str n full in
      if bool_decide (is_Some (entries c !! prefix)) then abbreviate_from c full (S n) k'
      else if bool_decide (prefix ∈ retiredShort c) then abbreviate_from c full (S n) k'
      else prefix
  end.

Definition abbreviateLocked (c : ToolResultCache) (full : string) : string :=
  abbreviate_from c full minAbbrevLen (S fullHashLen - minAbbrevLen).

(** The scan of [resolveLocked] over the entries: the match so far, or [None]
    when a second one makes the prefix ambiguous. *)
Fixpoint resolve_scan (hash : string) (l : list (string * ToolResultCacheEntry))
    (m : option (string * ToolResultCacheEntry)) : option (string * ToolResultCacheEntry) :=
  match l with
  | [] => m
  | (short, e) :: r =>
      if String.eqb (Hash e) hash || has_prefix (Hash e) hash then
        match m with
        | Some _ => None
        | None => resolve_scan hash r (Some (short, e))
        end
      else resolve_scan hash r m
  end.

Definition resolveLocked (c : ToolResultCache) (hash : string)
    : option (string * ToolResultCacheEntry) :=
  if String.eqb hash "" then None
  else match entries c !! hash with
  | Some e => Some (hash, e)
  | None =>
      if bool_decide (hash ∈ retiredShort c) then None
      else resolve_scan hash (map_to_list (entries c)) None
  end.

(** [delete] of an entry and its index, the freed key retired. *)
Definition retire (c : ToolResultCache) (key : string) (e : ToolResultCacheEntry) : ToolResultCache :=
  mkCache (delete key (entries c)) (delete (Hash e) (fullToShort c))
          ({[key]} ∪ retiredShort c) (ttl c) (storeCount c).

(** The test of the eviction sweep and of [CheckCoherence]. *)
Definition expired (now : Z) (e : ToolResultCacheEntry) : bool :=
  (0 <? TTL e)%Z && (TTL e <? now - CreatedAt e)%Z.

(** One iteration of the sweep's [range] loop. *)
Definition evict_one (now : Z) (c : ToolResultCache) (short : string) : ToolResultCache :=
  match entries c !! short with
  | Some e => if expired now e then retire c short e else c
  | None => c
  end.

Definition evictExpiredLocked (order : list string) (now : Z) (c : ToolResultCache) : ToolResultCache :=
  fold_left (evict_one now) order c.

Definition full_hash (toolName content : string) (meta : ToolCacheMeta) : string :=
  if meta_FileBacked meta
  then ComputeFileBackedHash toolName (meta_FilePath meta) (meta_FileMtime meta) (meta_FileSize meta)
  else ComputeToolResultHash toolName content.

Definition new_entry (full toolName content : string) (meta : ToolCacheMeta) (now ttl : Z)
    : ToolResultCacheEntry :=
  {| Hash := full;
     ToolName := toolName;
     CreatedAt := now;
     Input := if (maxCacheInputBytes <? slen (meta_Input meta))%Z then "" else meta_Input meta;
     FilePath := meta_FilePath meta;
     FileMtime := meta_FileMtime meta;
     FileSize := meta_FileSize meta;
     IsMCP := meta_IsMCP meta;
     FileBacked := meta_FileBacked meta;
     Content := if meta_FileBacked meta then "" else content;
     TTL := if meta_IsMCP meta && (0 <? ttl)%Z then ttl else 0 |}.

Definition bump (c : ToolResultCache) : ToolResultCache :=
  mkCache (entries c) (fullToShort c) (retiredShort c) (ttl c) (int64 (storeCount c + 1)).

Definition insert_entry (c : ToolResultCache) (short : string) (e : ToolResultCacheEntry) : ToolResultCache :=
  mkCache (<[short := e]> (entries c)) (<[Hash e := short]> (fullToShort c))
          (retiredShort c) (ttl c) (storeCount c).

Definition Store (order : list string) (now : Z) (toolName content : string) (meta : ToolCacheMeta)
    (c : ToolResultCache) : ToolResultCache * string :=
  let full := full_hash toolName content meta in
  let c := bump c in
  match fullToShort c !! full with
  | Some short => (c, short)
  | None =>
      let short := abbreviateLocked c full in
      let c := insert_entry c short (new_entry full toolName content meta now (ttl c)) in
      (if (Z.rem (storeCount c) 100 =? 0)%Z then evictExpiredLocked order now c else c, short)
  end.

(** [Get]: the second resolution happens under the write lock; [c'] is the
    cache found then (another goroutine may have run in between), [now'] the
    second reading of the clock. *)
Definition fresh (now : Z) (e : ToolResultCacheEntry) : bool :=
  (TTL e =? 0)%Z || (now - CreatedAt e <=? TTL e)%Z.

Definition Get_slow (now' : Z) (hash : string) (c' : ToolResultCache)
    : ToolResultCache * option ToolResultCacheEntry :=
  match resolveLocked c' hash with
  | None => (c', None)
  | Some (key, e) => if fresh now' e then (c', Some e) else (retire c' key e, None)
  end.

Definition Get (now now' : Z) (hash : string) (c c' : ToolResultCache)
    : ToolResultCache * option ToolResultCacheEntry :=
  match resolveLocked c hash with
  | None => (c, None)
  | Some (_, e) => if fresh now e then (c, Some e) else Get_slow now' hash c'
  end.

(** [CheckCoherence]; [stat] is [os.Stat] at the time of the call: the
    modification time and size, or the error's text. *)
Definition CheckCoherence (stat : string -> res (Z * Z)) (now : Z) (hash : string)
    (c : ToolResultCache) : bool * string :=
  match resolveLocked c hash with
  | None => (false, "cache entry not found")
  | Some (_, e) =>
      if expired now e then (false, "cache entry expired")
      else if String.eqb (FilePath e) "" then (true, "")
      else match stat (FilePath e) with
      | Err err => (false, "file '" +s+ FilePath e +s+ "' no longer accessible: " +s+ err)
      | Ok (mtime, size) =>
          if negb (mtime =? FileMtime e)%Z || negb (size =? FileSize e)%Z
          then (false, "file '" +s+ FilePath e +s+ "' has been modified since the result was cached")
          else (true, "")
      end
  end.

Definition Len (c : ToolResultCache) : nat := size (entries c).

(** ** Every history of the cache *)

Inductive cstep : ToolResultCache -> ToolResultCache -> Prop :=
| StepStore c order now toolName content meta :
    cstep c (fst (Store order now toolName content meta c))
| StepGet c now' hash : cstep c (fst (Get_slow now' hash c)).

Inductive creachable (ttl : Z) : ToolResultCache -> Prop :=
| CInit : creachable ttl (NewToolResultCache ttl)
| CStep c c' : creachable ttl c -> cstep c c' -> creachable ttl c'.

(** What an entry's [Hash] field is the hash of. *)
Definition entry_hash (e : ToolResultCacheEntry) : string :=
  if FileBacked e
  then ComputeFileBackedHash (ToolName e) (FilePath e) (FileMtime e) (FileSize e)
  else ComputeToolResultHash (ToolName e) (Content e).

(** [abbrev k full]: [k] is a possible abbreviation of [full]. *)
Definition abbrev (k full : string) : Prop :=
  exists n, minAbbrevLen <= n <= fullHashLen /\ k = take_str n full.

Record cache_inv (c : ToolResultCache) : Prop := {
  ci_key : forall k e, entries c !! k = Some e -> abbrev k (Hash e);
  ci_hash : forall k e, entries c !! k = Some e -> Hash e = entry_hash e;
  ci_index : forall k e, entries c !! k = Some e -> fullToShort c !! Hash e = Some k;
  ci_live : forall f k, fullToShort c !! f = Some k ->
              exists e, entries c !! k = Some e /\ Hash e = f;
  ci_ttl : forall k e, entries c !! k = Some e -> (0 <= TTL e)%Z;
  ci_retired : forall k e, k ∈ retiredShort c -> entries c !! k = Some e -> k = Hash e;
}.

Hypothesis sha256hex_length : forall s, String.length (sha256hex s) = fullHashLen.

Lemma entry_hash_length e : String.length (entry_hash e) = fullHashLen.
Proof. unfold entry_hash, ComputeFileBackedHash, ComputeToolResultHash. by destruct (FileBacked e). Qed.

Lemma full_hash_length t ct m : String.length (full_hash t ct m) = fullHashLen.
Proof. unfold full_hash, ComputeFileBackedHash, ComputeToolResultHash. by destruct (meta_FileBacked m). Qed.

Lemma new_entry_hash t ct m now tl :
  entry_hash (new_entry (full_hash t ct m) t ct m now tl) = full_hash t ct m.
Proof. unfold entry_hash, full_hash. simpl. by destruct (meta_FileBacked m). Qed.

Lemma new_entry_ttl f t ct m now tl : (0 <= TTL (new_entry f t ct m now tl))%Z.
Proof. simpl. destruct (meta_IsMCP m); simpl; [|lia]. destruct (Z.ltb_spec 0 tl); lia. Qed.

(** What the abbreviation loop returns: the shortest free prefix, or the full
    hash when none is free. *)
Lemma abbreviate_from_spec c full k n :
  let free p := entries c !! p = None /\ p ∉ retiredShort c in
  (exists j, n <= j < n + k /\ abbreviate_from c full n k = take_str j full /\
     free (take_str j full) /\ forall i, n <= i < j -> ~ free (take_str i full)) \/
  (abbreviate_from c full n k = full /\ forall i, n <= i < n + k -> ~ free (take_str i full)).
Proof.
  intros free. revert n; induction k as [|k IH]; intros n; simpl; [right; split; [done|lia]|].
  assert (Hstep : ~ free (take_str n full) ->
    (exists j, S n <= j < S n + k /\ abbreviate_from c full (S n) k = take_str j full /\
       free (take_str j full) /\ forall i, S n <= i < j -> ~ free (take_str i full)) \/
    (abbreviate_from c full (S n) k = full /\ forall i, S n <= i < S n + k -> ~ free (take_str i full)) ->
    (exists j, n <= j < n + S k /\ abbreviate_from c full (S n) k = take_str j full /\
       free (take_str j full) /\ forall i, n <= i < j -> ~ free (take_str i full)) \/
    (abbreviate_from c full (S n) k = full /\ forall i, n <= i < n + S k -> ~ free (take_str i full))).
  { intros Hn [(j & Hj & Ha & Hf & Hi)|[Ha Hi]].
    - left. exists j. split; [lia|]. split; [done|]. split; [done|]. intros i ?.
      destruct (decide (i = n)) as [->|]; [done|]. apply Hi. lia.
    - right. split; [done|]. intros i ?. destruct (decide (i = n)) as [->|]; [done|]. apply Hi. lia. }
  case_bool_decide as H1.
  { apply Hstep; [|apply IH]. intros [Hn _]. rewrite Hn in H1. by apply is_Some_None in H1. }
  case_bool_decide as H2; [apply Hstep; [|apply IH]; by intros [_ ?]|].
  left. exists n. split; [lia|]. split; [done|]. split; [|lia]. split; [by apply eq_None_not_Some|done].
Qed.

Lemma take_str_all n s : String.length s <= n -> take_str n s = s.
Proof.
  revert s; induction n as [|n IH]; intros [|c s]; simpl; try done; try lia.
  intros ?. rewrite IH; [done|lia].
Qed.

Lemma abbreviateLocked_spec c full :
  String.length full = fullHashLen ->
  abbrev (abbreviateLocked c full) full /\
  ((entries c !! abbreviateLocked c full = None /\ abbreviateLocked c full ∉ retiredShort c) \/
   abbreviateLocked c full = full) /\
  (forall i, minAbbrevLen <= i < String.length (abbreviateLocked c full) ->
     is_Some (entries c !! take_str i full) \/ take_str i full ∈ retiredShort c).
Proof.
  intros Hl. unfold abbreviateLocked.
  assert (Hfree : forall p, ~ (entries c !! p = None /\ p ∉ retiredShort c) ->
            is_Some (entries c !! p) \/ p ∈ retiredShort c).
  { intros p Hp. destruct (entries c !! p); [left; eauto|].
    destruct (decide (p ∈ retiredShort c)); [by right|]. destruct Hp; auto. }
  destruct (abbreviate_from_spec c full (S fullHashLen - minAbbrevLen) minAbbrevLen)
    as [(j & Hj & -> & Hf & Hi)|[-> Hi]].
  - split; [|split].
    + exists j. unfold minAbbrevLen, fullHashLen in *. split; [lia|done].
    + by left.
    + intros i. rewrite length_take_str. intros ?. apply Hfree, Hi. lia.
  - split; [|split].
    + exists fullHashLen. unfold minAbbrevLen, fullHashLen in *. split; [lia|].
      symmetry. apply take_str_all. lia.
    + by right.
    + intros i ?. apply Hfree, Hi. unfold minAbbrevLen, fullHashLen in *. lia.
Qed.

(** A full-length abbreviation is the hash itself. *)
Lemma abbrev_full k full :
  String.length k = fullHashLen -> String.length full = fullHashLen -> abbrev k full -> k = full.
Proof.
  intros Hk Hf (n & Hn & ->). apply take_str_all.
  rewrite length_take_str in Hk. unfold fullHashLen in *. lia.
Qed.

(** ** The invariant holds in every history *)

Lemma inv_init t : cache_inv (NewToolResultCache t).
Proof. by constructor; simpl; intros; simplify_map_eq. Qed.

Lemma inv_bump c : cache_inv c -> cache_inv (bump c).
Proof. intros [? ? ? ? ? ?]. by constructor. Qed.

Lemma inv_retire c k e : entries c !! k = Some e -> cache_inv c -> cache_inv (retire c k e).
Proof.
  intros He [Hk Hh Hi Hl Ht Hr]. constructor; simpl.
  - intros k' e' [_ ?]%lookup_delete_Some. eauto.
  - intros k' e' [_ ?]%lookup_delete_Some. eauto.
  - intros k' e' [Hne ?]%lookup_delete_Some. apply lookup_delete_Some. split; [|eauto].
    intros Heq. apply Hne. pose proof (Hi k e He). pose proof (Hi k' e' ltac:(done)). congruence.
  - intros f k' [Hne Hf]%lookup_delete_Some. destruct (Hl _ _ Hf) as (e' & He' & <-).
    exists e'. split; [|done]. apply lookup_delete_Some. split; [|done].
    intros ->. rewrite He in He'. congruence.
  - intros k' e' [_ ?]%lookup_delete_Some. eauto.
  - intros k' e' [->%elem_of_singleton|Hin]%elem_of_union [? ?]%lookup_delete_Some; [done|eauto].
Qed.

Lemma inv_evict order now c : cache_inv c -> cache_inv (evictExpiredLocked order now c).
Proof.
  intros Hc. unfold evictExpiredLocked. apply (fold_left_inv cache_inv); [done|]. intros a k _ Ha. unfold evict_one.
  destruct (entries a !! k) as [e|] eqn:E; [|done].
  destruct (expired now e); [by apply inv_retire|done].
Qed.

(** A key that is not indexed is never handed to a second live entry. *)
Lemma abbreviate_not_live c full :
  String.length full = fullHashLen -> cache_inv c -> fullToShort c !! full = None ->
  entries c !! abbreviateLocked c full = None.
Proof.
  intros Hl Hc Hn. destruct (abbreviateLocked_spec c full Hl) as (_ & [[? _]|Heq] & _); [done|].
  rewrite Heq. destruct (entries c !! full) as [e|] eqn:E; [|done]. exfalso.
  assert (Hash e = full) as He.
  { symmetry. apply abbrev_full; [done| |by eapply ci_key].
    rewrite (ci_hash c Hc _ _ E). apply entry_hash_length. }
  pose proof (ci_index c Hc _ _ E) as Hx. rewrite He, Hn in Hx. done.
Qed.

Lemma inv_insert c e :
  cache_inv c -> fullToShort c !! Hash e = None -> Hash e = entry_hash e -> (0 <= TTL e)%Z ->
  cache_inv (insert_entry c (abbreviateLocked c (Hash e)) e).
Proof.
  intros Hc Hn Hh Ht. assert (Hl : String.length (Hash e) = fullHashLen) by (rewrite Hh; apply entry_hash_length).
  pose proof (abbreviate_not_live c _ Hl Hc Hn) as Hfree.
  destruct (abbreviateLocked_spec c _ Hl) as (Ha & Hor & _).
  set (s := abbreviateLocked c (Hash e)) in *. constructor; simpl.
  - intros k e' [[<- <-]|[_ ?]]%lookup_insert_Some; [done|by eapply ci_key].
  - intros k e' [[<- <-]|[_ ?]]%lookup_insert_Some; [done|by eapply ci_hash].
  - intros k e' [[<- <-]|[Hne He']]%lookup_insert_Some; [apply lookup_insert_eq|].
    pose proof (ci_index c Hc _ _ He') as Hi.
    rewrite lookup_insert_ne; [done|]. intros Heq. congruence.
  - intros f k [[<- <-]|[Hne Hf]]%lookup_insert_Some.
    + exists e. split; [apply lookup_insert_eq|done].
    + destruct (ci_live c Hc _ _ Hf) as (e' & He' & <-). exists e'. split; [|done].
      rewrite lookup_insert_ne; [done|]. intros <-. congruence.
  - intros k e' [[<- <-]|[_ ?]]%lookup_insert_Some; [done|by eapply ci_ttl].
  - intros k e' Hin [[<- <-]|[_ ?]]%lookup_insert_Some; [|by eapply ci_retired].
    destruct Hor as [[_ ?]|?]; done.
Qed.

(** The state [Store] leaves, in its two cases. *)
Lemma Store_cases order now t ct m c :
  let full := full_hash t ct m in
  (exists short, fullToShort c !! full = Some short /\ Store order now t ct m c = (bump c, short)) \/
  (fullToShort c !! full = None /\
   let short := abbreviateLocked (bump c) full in
   let c1 := insert_entry (bump c) short (new_entry full t ct m now (ttl c)) in
   Store order now t ct m c =
     (if (Z.rem (storeCount c1) 100 =? 0)%Z then evictExpiredLocked order now c1 else c1, short)).
Proof.
  intros full. unfold Store. fold full. change (fullToShort (bump c)) with (fullToShort c).
  destruct (fullToShort c !! full) as [s|]; [left; eauto|]. right. split; [done|]. reflexivity.
Qed.

Lemma inv_store order now t ct m c : cache_inv c -> cache_inv (fst (Store order now t ct m c)).
Proof.
  intros Hc. destruct (Store_cases order now t ct m c) as [(s & _ & ->)|[Hn ->]]; simpl.
  - by apply inv_bump.
  - set (c1 := insert_entry _ _ _). assert (cache_inv c1) as Hi.
    { apply inv_insert; [by apply inv_bump|exact Hn|by rewrite new_entry_hash|apply new_entry_ttl]. }
    destruct (_ =? 0)%Z; [by apply inv_evict|exact Hi].
Qed.

(** ** Resolution *)

Definition matches (hash : string) (e : ToolResultCacheEntry) : bool :=
  String.eqb (Hash e) hash || has_prefix (Hash e) hash.

Lemma resolve_scan_spec hash l m :
  resolve_scan hash l m =
  match List.filter (fun p => matches hash (snd p)) l, m with
  | [], _ => m
  | [p], None => Some p
  | _, _ => None
  end.
Proof.
  revert m; induction l as [|[s e] l IH]; intros m; simpl; [done|].
  fold (matches hash e). destruct (matches hash e); [|apply IH].
  destruct m as [p|]; [by destruct (List.filter _ l)|].
  rewrite IH. by destruct (List.filter _ l) as [|? [|? ?]].
Qed.

(** A scan that finds [p]: [p] is the only match. *)
Lemma resolve_scan_unique hash (m : gmap string ToolResultCacheEntry) k e :
  resolve_scan hash (map_to_list m) None = Some (k, e) <->
  m !! k = Some e /\ matches hash e = true /\
  forall k' e', m !! k' = Some e' -> matches hash e' = true -> k' = k.
Proof.
  rewrite resolve_scan_spec.
  pose proof (NoDup_fst_map_to_list m) as Hnd.
  assert (Hin : forall k e, (k, e) ∈ List.filter (fun p => matches hash (snd p)) (map_to_list m) <->
            m !! k = Some e /\ matches hash e = true)
    by (intros; by rewrite elem_of_List_filter, elem_of_map_to_list).
  pose proof (fmap_sublist fst _ _ (List_filter_sublist (fun p => matches hash (snd p)) (map_to_list m))) as Hsub.
  pose proof (sublist_NoDup _ _ Hnd Hsub) as Hnd'. clear Hnd Hsub.
  destruct (List.filter _ _) as [|[k1 e1] [|[k2 e2] l]].
  - split; [done|]. intros (H1 & H2 & _). pose proof (proj2 (Hin k e) (conj H1 H2)) as Hx. set_solver.
  - split.
    + intros [= -> ->]. destruct (proj1 (Hin k e) ltac:(set_solver)) as [? ?].
      split_and!; try done. intros k' e' H1 H2.
      pose proof (proj2 (Hin k' e') (conj H1 H2)) as Hx. apply list_elem_of_singleton in Hx. congruence.
    + intros (H1 & H2 & _). pose proof (proj2 (Hin k e) (conj H1 H2)) as Hx.
      apply list_elem_of_singleton in Hx. congruence.
  - split; [done|]. intros (_ & _ & Hu). exfalso.
    destruct (proj1 (Hin k1 e1) ltac:(set_solver)) as [? ?].
    destruct (proj1 (Hin k2 e2) ltac:(set_solver)) as [? ?].
    assert (k1 = k2) as -> by (rewrite (Hu k1 e1), (Hu k2 e2); done).
    csimpl in Hnd'. apply NoDup_cons in Hnd' as [Hnd' _]. set_solver.
Qed.

Lemma resolveLocked_some c hash k e :
  resolveLocked c hash = Some (k, e) -> entries c !! k = Some e.
Proof.
  unfold resolveLocked. destruct (String.eqb hash ""); [done|].
  destruct (entries c !! hash) as [x|] eqn:E; [by intros [= -> ->]|].
  case_bool_decide; [done|]. rewrite resolve_scan_unique. tauto.
Qed.

Lemma inv_get_slow now hash c : cache_inv c -> cache_inv (fst (Get_slow now hash c)).
Proof.
  intros Hc. unfold Get_slow. destruct (resolveLocked c hash) as [[k e]|] eqn:E; [|done].
  destruct (fresh now e); [done|]. apply inv_retire; [|done]. by eapply resolveLocked_some.
Qed.

Lemma inv_step c c' : cache_inv c -> cstep c c' -> cache_inv c'.
Proof. destruct 2; [by apply inv_store|by apply inv_get_slow]. Qed.

Lemma inv_reachable t c : creachable t c -> cache_inv c.
Proof. induction 1; [apply inv_init|by eapply inv_step]. Qed.

(** ** Issued keys *)

(** [k] was issued for the content with full hash [f]: it is the key of that
    entry, or retired. *)
Definition issued (c : ToolResultCache) (k f : string) : Prop :=
  (exists e, entries c !! k = Some e /\ Hash e = f) \/
  (entries c !! k = None /\ k ∈ retiredShort c /\ abbrev k f /\ String.length f = fullHashLen).

Lemma issued_retire c k' e k f :
  cache_inv c -> entries c !! k' = Some e -> issued c k f -> issued (retire c k' e) k f.
Proof.
  intros Hc He [(e' & He' & Hf)|(Hn & Hr & Ha)].
  - destruct (decide (k = k')) as [->|Hne].
    + right. simpl. rewrite lookup_delete_eq. split; [done|]. split; [set_solver|].
      rewrite <- Hf. split; [by eapply ci_key|]. rewrite (ci_hash c Hc _ _ He'). apply entry_hash_length.
    + left. exists e'. simpl. rewrite lookup_delete_ne by done. done.
  - right. simpl. split; [|split; [set_solver|done]]. apply lookup_delete_None. by right.
Qed.

Lemma issued_evict order now c k f :
  cache_inv c -> issued c k f -> issued (evictExpiredLocked order now c) k f.
Proof.
  intros Hc Hi. unfold evictExpiredLocked.
  apply (fold_left_inv (fun c => cache_inv c /\ issued c k f)); [done|].
  intros a b _ [Ha Hi']. unfold evict_one. destruct (entries a !! b) as [e|] eqn:E; [|done].
  destruct (expired now e); [|done]. split; [by apply inv_retire|by apply issued_retire].
Qed.

Lemma issued_insert c e k f :
  cache_inv c -> fullToShort c !! Hash e = None -> Hash e = entry_hash e ->
  issued c k f -> issued (insert_entry c (abbreviateLocked c (Hash e)) e) k f.
Proof.
  intros Hc Hn Hh. assert (Hl : String.length (Hash e) = fullHashLen) by (rewrite Hh; apply entry_hash_length).
  pose proof (abbreviate_not_live c _ Hl Hc Hn) as Hfree.
  destruct (abbreviateLocked_spec c _ Hl) as (_ & Hor & _).
  set (s := abbreviateLocked c (Hash e)) in *. intros [(e' & He' & Hf)|(Hk & Hr & Ha)].
  - left. exists e'. split; [|done]. simpl. rewrite lookup_insert_ne; [done|]. intros <-. congruence.
  - destruct (decide (s = k)) as [<-|Hne].
    + left. exists e. split; [apply lookup_insert_eq|]. destruct Hor as [[_ ?]|Heq]; [done|].
      rewrite <- Heq. destruct Ha as [Ha Hf]. apply abbrev_full; [by rewrite Heq|done..].
    + right. simpl. by rewrite lookup_insert_ne by done.
Qed.

Lemma issued_store order now t ct m c k f :
  cache_inv c -> issued c k f -> issued (fst (Store order now t ct m c)) k f.
Proof.
  intros Hc Hi. destruct (Store_cases order now t ct m c) as [(s & _ & ->)|[Hn ->]]; simpl; [exact Hi|].
  set (e := new_entry _ _ _ _ _ _).
  assert (Hh : Hash e = entry_hash e) by (symmetry; apply new_entry_hash).
  pose proof (inv_insert (bump c) e (inv_bump _ Hc) Hn Hh (new_entry_ttl _ _ _ _ _ _)) as Hinv.
  pose proof (issued_insert (bump c) e k f (inv_bump _ Hc) Hn Hh Hi) as Hi'.
  destruct (_ =? 0)%Z; [by apply issued_evict|exact Hi'].
Qed.

Lemma issued_steps c c' k f :
  cache_inv c -> issued c k f -> rtc cstep c c' -> issued c' k f.
Proof.
  intros Hc Hi Hr. induction Hr as [|a b d Hs _ IH]; [done|].
  apply IH; [by eapply inv_step|]. destruct Hs as [a order now tn ct m|a now' hash].
  - by apply issued_store.
  - unfold Get_slow. destruct (resolveLocked a hash) as [[k' e]|] eqn:E; [|done].
    destruct (fresh now' e); [done|]. apply issued_retire; [done| |done]. by eapply resolveLocked_some.
Qed.

(** The key [Store] returns is issued for the hash of what was stored. *)
Lemma Store_issues order now t ct m c :
  cache_inv c -> issued (fst (Store order now t ct m c)) (snd (Store order now t ct m c)) (full_hash t ct m).
Proof.
  intros Hc. destruct (Store_cases order now t ct m c) as [(s & Hs & ->)|[Hn ->]]; simpl.
  - left. by apply (ci_live c Hc).
  - set (e := new_entry _ _ _ _ _ _).
    assert (Hh : Hash e = entry_hash e) by (symmetry; apply new_entry_hash).
    pose proof (inv_insert (bump c) e (inv_bump _ Hc) Hn Hh (new_entry_ttl _ _ _ _ _ _)) as Hinv.
    assert (Hi : issued (insert_entry (bump c) (abbreviateLocked (bump c) (Hash e)) e)
              (abbreviateLocked (bump c) (Hash e)) (Hash e)).
    { left. exists e. split; [apply lookup_insert_eq|done]. }
    destruct (_ =? 0)%Z; [by apply issued_evict|exact Hi].
Qed.

(** An entry made now is not expired now, so the sweep that may follow keeps it. *)
Lemma evict_keeps order now c k e :
  entries c !! k = Some e -> expired now e = false ->
  entries (evictExpiredLocked order now c) !! k = Some e.
Proof.
  intros He Hx. unfold evictExpiredLocked.
  apply (fold_left_inv (fun x => entries x !! k = Some e)); [done|].
  intros a k' _ Ha. unfold evict_one. destruct (entries a !! k') as [e'|] eqn:Ek; [|done].
  destruct (expired now e') eqn:Ex; [|done]. simpl. rewrite lookup_delete_ne; [done|].
  intros ->. congruence.
Qed.

Lemma new_entry_fresh full t ct m now tl : expired now (new_entry full t ct m now tl) = false.
Proof.
  unfold expired. simpl. destruct (meta_IsMCP m && (0 <? tl)%Z) eqn:E; [|done].
  apply andb_true_iff in E as [_ E]. rewrite E. simpl. apply Z.ltb_lt in E. apply Z.ltb_ge. lia.
Qed.

(** Right after [Store] the key it returned is the key of a live entry for what
    was stored: the one made now, unless that content had one already. *)
Lemma Store_live order now t ct m c :
  cache_inv c ->
  exists e, entries (fst (Store order now t ct m c)) !! snd (Store order now t ct m c) = Some e /\
    Hash e = full_hash t ct m /\
    (fullToShort c !! full_hash t ct m = None -> e = new_entry (full_hash t ct m) t ct m now (ttl c)).
Proof.
  intros Hc. destruct (Store_cases order now t ct m c) as [(s & Hs & ->)|[Hn ->]]; simpl.
  - destruct (ci_live c Hc _ _ Hs) as (e & He & Hf). exists e. split; [done|]. split; [done|]. congruence.
  - eexists. split; [|split; [|done]]; [|reflexivity].
    destruct (_ =? 0)%Z; [apply evict_keeps; [|apply new_entry_fresh]|]; apply lookup_insert_eq.
Qed.

Lemma abbrev_nonempty f : String.length f = fullHashLen -> forall k, abbrev k f -> String.eqb k "" = false.
Proof.
  intros Hl k (n & Hn & ->). apply String.eqb_neq. intros He.
  assert (String.length (take_str n f) = 0) as H0 by by rewrite He.
  rewrite length_take_str in H0. unfold minAbbrevLen, fullHashLen in *. lia.
Qed.

(** A live key resolves to its entry, and [Get] returns that unless it has expired. *)
Lemma live_resolve c k e : cache_inv c -> entries c !! k = Some e -> resolveLocked c k = Some (k, e).
Proof.
  intros Hc He. unfold resolveLocked. rewrite (abbrev_nonempty (Hash e)); [by rewrite He| |by eapply ci_key].
  rewrite (ci_hash c Hc _ _ He). apply entry_hash_length.
Qed.

Lemma fresh_expired c k e now : cache_inv c -> entries c !! k = Some e -> fresh now e = negb (expired now e).
Proof.
  intros Hc He. pose proof (ci_ttl c Hc _ _ He) as Ht. unfold fresh, expired.
  destruct (Z.eqb_spec (TTL e) 0), (Z.leb_spec (now - CreatedAt e) (TTL e)),
    (Z.ltb_spec 0 (TTL e)), (Z.ltb_spec (TTL e) (now - CreatedAt e)); simpl; try done; lia.
Qed.

Lemma live_Get c k e now now' :
  cache_inv c -> entries c !! k = Some e -> expired now e = false ->
  Get now now' k c c = (c, Some e).
Proof.
  intros Hc He Hx. unfold Get. rewrite (live_resolve c k e Hc He), (fresh_expired c k e now Hc He). by rewrite Hx.
Qed.

(** An issued key resolves to its own entry or to nothing. *)
Lemma issued_resolve c k f r :
  cache_inv c -> issued c k f -> resolveLocked c k = Some r -> fst r = k /\ Hash (snd r) = f.
Proof.
  intros Hc Hi. unfold resolveLocked. destruct (String.eqb k ""); [done|].
  destruct Hi as [(e & -> & Hf)|(-> & Hr & _)]; [by intros [= <-]|].
  by rewrite bool_decide_eq_true_2 by done.
Qed.

(** A live entry that never expires stays under its key. *)
Lemma permanent_steps c c' k e :
  cache_inv c -> entries c !! k = Some e -> TTL e = 0%Z -> rtc cstep c c' -> entries c' !! k = Some e.
Proof.
  intros Hc He Ht Hr. induction Hr as [|a b d Hs _ IH]; [done|].
  apply IH; [by eapply inv_step|]. clear IH.
  assert (Hev : forall o n c0, entries c0 !! k = Some e ->
            entries (evictExpiredLocked o n c0) !! k = Some e).
  { intros o n c0 H0. unfold evictExpiredLocked.
    apply (fold_left_inv (fun c => entries c !! k = Some e)); [done|].
    intros x y _ Hx. unfold evict_one. destruct (entries x !! y) as [e'|] eqn:Ey; [|done].
    destruct (expired n e') eqn:Ex; [|done]. simpl. rewrite lookup_delete_ne; [done|].
    intros ->. assert (e' = e) as -> by congruence. unfold expired in Ex. by rewrite Ht in Ex. }
  destruct Hs as [a order now tn ct m|a now' hash].
  - destruct (Store_cases order now tn ct m a) as [(s & _ & ->)|[Hn ->]]; [exact He|].
    cbv zeta. set (c1 := insert_entry _ _ _). cbn [fst].
    assert (H1 : entries c1 !! k = Some e).
    { simpl. rewrite lookup_insert_ne; [exact He|]. intros Heq.
      pose proof (abbreviate_not_live (bump a) _ (full_hash_length tn ct m) (inv_bump _ Hc) Hn) as Hfree.
      rewrite Heq in Hfree. simpl in Hfree. congruence. }
    destruct (_ =? 0)%Z; [by apply Hev|exact H1].
  - unfold Get_slow. destruct (resolveLocked a hash) as [[k' e']|] eqn:E; [|done].
    destruct (fresh now' e') eqn:Ef; [done|]. simpl. apply resolveLocked_some in E.
    rewrite lookup_delete_ne; [done|]. intros ->. assert (e' = e) as -> by congruence.
    unfold fresh in Ef. by rewrite Ht in Ef.
Qed.

(** ** What the cache promises *)

(** C34: a short hash handed to the model is never re-used for other content:
    in every later state of the cache, whatever is stored, read or evicted in
    between, the hash [Store] returned resolves to nothing or to an entry with
    the very full hash that was stored, a hash of that entry's own contents. *)
Theorem Store_never_aliased t c order now tn ct m c' e
  (Hc : creachable t c)
  (Hsteps : rtc cstep (fst (Store order now tn ct m c)) c')
  (He : resolveLocked c' (snd (Store order now tn ct m c)) = Some e) :
  Hash (snd e) = full_hash tn ct m /\ entry_hash (snd e) = full_hash tn ct m.
Proof.
  apply inv_reachable in Hc.
  pose proof (inv_store order now tn ct m c Hc) as Hc1.
  pose proof (issued_steps _ _ _ _ Hc1 (Store_issues order now tn ct m c Hc) Hsteps) as Hi.
  assert (Hc' : cache_inv c').
  { clear -Hc1 Hsteps sha256hex_length. induction Hsteps; [done|]. by apply IHHsteps; eapply inv_step. }
  destruct (issued_resolve _ _ _ _ Hc' Hi He) as [_ Hh]. split; [done|].
  destruct e as [k e]. rewrite <- Hh. symmetry. by eapply ci_hash, resolveLocked_some.
Qed.

(** What is stored can be read back: a result with no expiry (any tool but
    an MCP one, or a cache with no TTL) that was not cached before is returned
    by [Get] with its content, tool name and capped input in every later state
    of the cache and at every later time. *)
Theorem Store_Get_roundtrip t c order now tn ct m c' now1 now2
  (Hc : creachable t c)
  (Hnew : fullToShort c !! full_hash tn ct m = None)
  (Httl : meta_IsMCP m = false \/ (ttl c <= 0)%Z)
  (Hsteps : rtc cstep (fst (Store order now tn ct m c)) c') :
  Get now1 now2 (snd (Store order now tn ct m c)) c' c' =
    (c', Some (new_entry (full_hash tn ct m) tn ct m now (ttl c))).
Proof.
  apply inv_reachable in Hc. pose proof (inv_store order now tn ct m c Hc) as Hc1.
  destruct (Store_cases order now tn ct m c) as [(s & Hs & _)|[_ Hst]]; [congruence|].
  cbv zeta in Hst. set (e := new_entry _ _ _ _ _ _) in *.
  assert (Ht : TTL e = 0%Z).
  { simpl. destruct Httl as [->|Hle]; [done|]. destruct (Z.ltb_spec 0 (ttl c)); [lia|]. by rewrite andb_false_r. }
  assert (He : entries (fst (Store order now tn ct m c)) !! snd (Store order now tn ct m c) = Some e).
  { destruct (Store_live order now tn ct m c Hc) as (e0 & He0 & _ & Hnew0). rewrite (Hnew0 Hnew) in He0. exact He0. }
  pose proof (permanent_steps _ _ _ _ Hc1 He Ht Hsteps) as He'.
  assert (Hr : resolveLocked c' (snd (Store order now tn ct m c)) = Some (snd (Store order now tn ct m c), e)).
  { unfold resolveLocked. rewrite Hst at 1. cbn [snd].
    rewrite (abbrev_nonempty (full_hash tn ct m) (full_hash_length _ _ _));
      [|apply abbreviateLocked_spec, full_hash_length]. by rewrite He'. }
  unfold Get. rewrite Hr. unfold fresh. by rewrite Ht.
Qed.

(** [Store] in a reachable cache: content seen before keeps its key and
    adds no entry; new content gets the shortest prefix of its full hash (at
    least four characters) that is neither a live nor a retired key, a key no
    live entry has, so no entry is overwritten; only when every prefix is
    taken is the whole hash used. *)
Theorem Store_key t c order now tn ct m (Hc : creachable t c) :
  let full := full_hash tn ct m in
  let short := snd (Store order now tn ct m c) in
  abbrev short full /\
  match fullToShort c !! full with
  | Some k => short = k /\ entries (fst (Store order now tn ct m c)) = entries c /\
              exists e, entries c !! k = Some e /\ Hash e = full
  | None =>
      entries c !! short = None /\
      (short ∉ retiredShort c \/ short = full) /\
      (forall i, minAbbrevLen <= i < String.length short ->
         is_Some (entries c !! take_str i full) \/ take_str i full ∈ retiredShort c)
  end.
Proof.
  apply inv_reachable in Hc. cbv zeta.
  destruct (Store_cases order now tn ct m c) as [(s & Hs & ->)|[Hn ->]]; cbn [fst snd].
  - rewrite Hs. destruct (ci_live c Hc _ _ Hs) as (e & He & Hf).
    split; [rewrite <- Hf; by eapply ci_key|]. split; [done|]. split; [done|]. eauto.
  - rewrite Hn. pose proof (full_hash_length tn ct m) as Hl.
    destruct (abbreviateLocked_spec (bump c) _ Hl) as (Ha & Hor & Hmin).
    split; [exact Ha|]. split; [by apply (abbreviate_not_live (bump c)); [|apply inv_bump|]|].
    split; [|exact Hmin]. destruct Hor as [[_ ?]|?]; [by left|by right].
Qed.

(** [CheckCoherence] accepts a hash exactly when [Get] would return an
    entry for it at the same instant and that entry's file, if it has one, is
    still there with the modification time and size it was cached with. *)
Theorem CheckCoherence_iff t c stat now hash (Hc : creachable t c) :
  fst (CheckCoherence stat now hash c) = true <->
  exists e, Get now now hash c c = (c, Some e) /\
    (FilePath e = "" \/ stat (FilePath e) = Ok (FileMtime e, FileSize e)).
Proof.
  apply inv_reachable in Hc. unfold CheckCoherence, Get, Get_slow.
  destruct (resolveLocked c hash) as [[k e]|] eqn:E; [|split; [done|intros (? & [=] & _)]].
  pose proof (resolveLocked_some _ _ _ _ E) as He.
  rewrite (fresh_expired c k e now Hc He). destruct (expired now e); simpl.
  { split; [done|intros (? & [=] & _)]. }
  destruct (String.eqb_spec (FilePath e) "") as [Hp|Hp].
  { split; [|done]. intros _. exists e. auto. }
  destruct (stat (FilePath e)) as [[mt sz]|err] eqn:Es.
  - destruct (Z.eqb_spec mt (FileMtime e)), (Z.eqb_spec sz (FileSize e)); simpl.
    + split; [|done]. intros _. exists e. split; [done|]. right. rewrite Es. congruence.
    + split; [done|]. intros (? & [= <-] & [?|?]); congruence.
    + split; [done|]. intros (? & [= <-] & [?|?]); congruence.
    + split; [done|]. intros (? & [= <-] & [?|?]); congruence.
  - split; [done|]. intros (? & [= <-] & [?|?]); congruence.
Qed.
End cache.

(** ** Concrete runs *)

Definition hex_pad : string :=
  "0000000000000000000000000000000000000000000000000000000000000000".

(** A hash function of the right length for the examples. *)
Definition toy_hash (s : string) : string := take_str fullHashLen (s +s+ hex_pad).

Lemma toy_hash_length s : String.length (toy_hash s) = fullHashLen.
Proof.
  unfold toy_hash. rewrite length_take_str.
  pose proof (slen_app s hex_pad) as H. unfold slen in H.
  assert (String.length hex_pad = 64) as Hp by reflexivity. unfold fullHashLen. lia.
Qed.

Definition plain_meta : ToolCacheMeta := mkMeta "" 0 0 false "{}" false.
Definition mcp_meta : ToolCacheMeta := mkMeta "" 0 0 true "{}" false.

Definition example_first : ToolResultCache :=
  fst (Store toy_hash [] 0 "read_file" "one" plain_meta (NewToolResultCache 5)).

Lemma example_first_reachable : creachable toy_hash 5 example_first.
Proof. eapply CStep; [apply CInit|apply StepStore]. Qed.

(** Two contents whose hashes share nine characters get different keys. *)
Lemma Store_never_aliased_witness :
  let st := Store toy_hash [] 1 "read_file" "two" plain_meta example_first in
  resolveLocked example_first "read" <> None /\ snd st = "read_" /\
  exists e, resolveLocked (fst st) (snd st) = Some e /\
    Hash (snd e) = full_hash toy_hash "read_file" "two" plain_meta.
Proof.
  cbv zeta. split; [vm_compute; discriminate|]. split; [vm_compute; reflexivity|].
  assert (is_Some (resolveLocked (fst (Store toy_hash [] 1 "read_file" "two" plain_meta example_first))
    (snd (Store toy_hash [] 1 "read_file" "two" plain_meta example_first)))) as [e He]
    by (vm_compute; eexists; reflexivity).
  exists e. split; [exact He|].
  exact (proj1 (Store_never_aliased toy_hash toy_hash_length 5 example_first [] 1 "read_file" "two"
    plain_meta _ e example_first_reachable (rtc_refl _ _) He)).
Defined.

Lemma Store_Get_roundtrip_witness :
  let st := Store toy_hash [] 1 "read_file" "two" plain_meta example_first in
  Get 900 900 "read_" (fst st) (fst st) =
    (fst st, Some (new_entry (full_hash toy_hash "read_file" "two" plain_meta) "read_file" "two" plain_meta 1 5)).
Proof.
  exact (Store_Get_roundtrip toy_hash toy_hash_length 5 example_first [] 1 "read_file" "two" plain_meta _
    900 900 example_first_reachable eq_refl (or_introl eq_refl) (rtc_refl _ _)).
Defined.

Lemma Store_key_witness :
  abbrev (snd (Store toy_hash [] 1 "read_file" "two" plain_meta example_first))
    (full_hash toy_hash "read_file" "two" plain_meta).
Proof.
  exact (proj1 (Store_key toy_hash toy_hash_length 5 example_first [] 1 "read_file" "two" plain_meta
    example_first_reachable)).
Defined.

Lemma CheckCoherence_iff_witness :
  exists e, Get 3 3 "read" example_first example_first = (example_first, Some e) /\ FilePath e = "".
Proof.
  destruct (proj1 (CheckCoherence_iff toy_hash toy_hash_length 5 example_first (fun _ => Err "gone") 3 "read"
    example_first_reachable) eq_refl) as (e & He & [Hp|Hp]); [exists e; auto|discriminate].
Defined.

(** A stored MCP result that expires, is read (and retired) and stored again:
    every round takes a longer prefix of the same full hash. *)
Fixpoint expire_rounds (n : nat) (c : ToolResultCache) : ToolResultCache :=
  match n with
  | O => c
  | S n' =>
      let t := (10 * Z.of_nat n)%Z in
      let '(c1, k) := Store toy_hash [] t "mcp" "x" mcp_meta c in
      expire_rounds n' (fst (Get_slow (t + 9) k c1))
  end.

(** The comment of [abbreviateLocked] says a retired key of full length cannot
    exist and the last return is unreachable; after 61 expiries of the same
    result it is reached and a retired key is issued again. *)
Example full_length_key_reissued :
  let c := expire_rounds 61 (NewToolResultCache 5) in
  let full := full_hash toy_hash "mcp" "x" mcp_meta in
  full ∈ retiredShort c /\ snd (Store toy_hash [] 0 "mcp" "x" mcp_meta c) = full.
Proof.
  cbv zeta. split; [|vm_compute; reflexivity].
  apply (bool_decide_eq_true_1 _). vm_compute. reflexivity.
Qed.

(** Content stored again after its TTL keeps the expired entry, so the key just
    returned resolves to nothing at once. *)
Example restored_expired_not_found :
  let '(c, k) := Store toy_hash [] 0 "mcp" "x" mcp_meta (NewToolResultCache 5) in
  let '(c', k') := Store toy_hash [] 10 "mcp" "x" mcp_meta c in
  k' = k /\ snd (Get 10 10 k' c' c') = None.
Proof. vm_compute. split; reflexivity. Qed.
