(* ===== verification/Watchdog.v ===== *)
(** * The tool-call watchdog: [src/agent/tool_watchdog.go]

    [executeToolCall] runs a tool on its own goroutine and waits in a [select]
    loop on its result, the context, the pause ticker and the timeout.  A run
    of the loop is a list of wake-ups: the arm [select] picked among the ready
    ones, and what the loop sees at that instant (a result already delivered,
    the context's error, the pause checker's answer).  The tool's own completion
    ends every run that no other arm ends. *)

From Stdlib Require Import ZArith Lia.
From stdpp Require Import base gmap strings list.
From S2P Require Import Prelude GoStr AgentTypes.
Open Scope Z_scope.

(** The two results of a tool call: a [ToolResult], or an error. *)
Definition tool_outcome : Type := ToolResult + gerror.

Definition err_paused : gerror := mkErr "executor paused at step boundary" [ErrPaused].
Definition err_tool_timeout : gerror := mkErr "tool call timed out" [ErrToolTimeout].

Definition isPauseError (err : gerror) : bool := errors_Is (Some err) ErrPaused.
Definition isToolTimeoutError (err : gerror) : bool := errors_Is (Some err) ErrToolTimeout.
Definition isContextError (err : gerror) : bool :=
  errors_Is (Some err) ContextCanceled || errors_Is (Some err) DeadlineExceeded.

Definition defaultToolCallTimeoutExemptTools : gset string :=
  list_to_set ["ask_user"; "declare_plan"; "propose_goal"; "delegate"; "execute_plan"].

(** What arms the watchdog. *)
Record wconfig := mkWatch {
  hasPauseChecker : bool;
  toolCallTimeout : Z;
  toolCallTimeoutExempt : gset string;
}.

Definition isToolCallTimeoutExempt (c : wconfig) (name : string) : bool :=
  bool_decide (name ∈ toolCallTimeoutExempt c).

Definition timeoutArmed (c : wconfig) (name : string) : bool :=
  (0 <? toolCallTimeout c) && negb (isToolCallTimeoutExempt c name).

Inductive arm := ArmDone | ArmCtx | ArmTick | ArmTimeout.

Record moment := mkMoment {
  m_arm : arm;
  m_done : option tool_outcome;  (** [drainToolResult] *)
  m_ctx : option gerror;         (** [ctx.Err()] *)
  m_pause : bool;                (** [e.pauseChecker(ctx)] *)
}.

(** [select] picks a ready arm; an unarmed channel is nil and never ready. *)
Definition enabled (c : wconfig) (name : string) (m : moment) : bool :=
  match m_arm m with
  | ArmDone => bool_decide (is_Some (m_done m))
  | ArmCtx => bool_decide (is_Some (m_ctx m))
  | ArmTick => hasPauseChecker c
  | ArmTimeout => timeoutArmed c name
  end.

(** One iteration: the result it returns, or [None] to wait again. *)
Definition select_arm (m : moment) : option tool_outcome :=
  match m_arm m, m_done m, m_ctx m with
  | ArmDone, out, _ => out
  | ArmCtx, Some out, _ => Some out
  | ArmCtx, None, Some e => Some (inr e)
  | ArmCtx, None, None => None
  | ArmTick, Some out, _ => Some out
  | ArmTick, None, Some e => Some (inr e)
  | ArmTick, None, None => if m_pause m then Some (inr err_paused) else None
  | ArmTimeout, Some out, _ => Some out
  | ArmTimeout, None, Some e => Some (inr e)
  | ArmTimeout, None, None => Some (inr err_tool_timeout)
  end.

Record tool_run := mkToolRun {
  run_start : option tool_outcome;  (** delivered before the loop starts *)
  run_moments : list moment;
  run_end : tool_outcome;           (** what the tool returns in the end *)
}.

(** A wake-up [select] cannot make is not one. *)
Fixpoint watch (c : wconfig) (name : string) (l : list moment) (final : tool_outcome) : tool_outcome :=
  match l with
  | [] => final
  | m :: r =>
      if enabled c name m then
        match select_arm m with
        | Some out => out
        | None => watch c name r final
        end
      else watch c name r final
  end.

Definition executeToolCall (c : wconfig) (name : string) (r : tool_run) : tool_outcome :=
  match run_start r with
  | Some out => out
  | None => watch c name (run_moments r) (run_end r)
  end.

(** The tool's goroutine sends once: what can be drained is what it returned. *)
Definition one_result (r : tool_run) : Prop :=
  (forall out, run_start r = Some out -> out = run_end r) /\
  (forall m out, m ∈ run_moments r -> m_done m = Some out -> out = run_end r).

(** The instant that decides the call. *)
Inductive decides (c : wconfig) (name : string) : list moment -> moment -> Prop :=
| DecHere m l : enabled c name m = true -> is_Some (select_arm m) -> decides c name (m :: l) m
| DecLater m m' l : (enabled c name m = true -> select_arm m = None) ->
    decides c name l m' -> decides c name (m :: l) m'.

Lemma watch_cases c name l final :
  (exists m out, decides c name l m /\ select_arm m = Some out /\ watch c name l final = out) \/
  ((forall m, m ∈ l -> enabled c name m = true -> select_arm m = None) /\ watch c name l final = final).
Proof.
  induction l as [|m l IH]; simpl; [right; split; [intros m Hm; by apply not_elem_of_nil in Hm|done]|].
  destruct (enabled c name m) eqn:E.
  - destruct (select_arm m) as [out|] eqn:Es.
    + left. exists m, out. split; [|done]. apply DecHere; [done|by rewrite Es].
    + destruct IH as [(m' & out & Hd & Ho & Hw)|[Hn Hw]].
      * left. exists m', out. split; [by apply DecLater|done].
      * right. split; [|done]. intros m' [->|Hm']%elem_of_cons Hen; [done|by apply Hn].
  - destruct IH as [(m' & out & Hd & Ho & Hw)|[Hn Hw]].
    + left. exists m', out. split; [apply DecLater; [congruence|done]|done].
    + right. split; [|done]. intros m' [->|Hm']%elem_of_cons Hen; [congruence|by apply Hn].
Qed.

Lemma decides_elem c name l m : decides c name l m -> m ∈ l /\ enabled c name m = true.
Proof. induction 1 as [m l He _|m m' l _ _ [IH ?]]; [split; [by left|done]|split; [by right|done]]. Qed.

(** The context's error explains a cancelled call. *)
Lemma select_arm_spec c name m out :
  enabled c name m = true -> select_arm m = Some out ->
  m_done m = Some out \/
  (m_done m = None /\ exists e, m_ctx m = Some e /\ out = inr e) \/
  (m_done m = None /\ m_ctx m = None /\ m_arm m = ArmTick /\ hasPauseChecker c = true /\
     m_pause m = true /\ out = inr err_paused) \/
  (m_done m = None /\ m_ctx m = None /\ m_arm m = ArmTimeout /\ timeoutArmed c name = true /\
     out = inr err_tool_timeout).
Proof.
  unfold enabled, select_arm. destruct (m_arm m), (m_done m) as [o|], (m_ctx m) as [e|], (m_pause m);
    intros He Hs; simplify_eq; try (left; reflexivity); try discriminate; naive_solver.
Qed.

(** What a watched tool call returns.  It is the tool's own result whenever
    that result was there at the instant the wait ended, whatever else was
    ready; otherwise the context's error if the run is cancelled, a pause only
    if the checker said so on a run that is not cancelled, and a timeout only
    for a tool with a positive ceiling that is not exempt, again on a run that
    is not cancelled. *)
Theorem executeToolCall_result c name r (Hr : one_result r) :
  executeToolCall c name r = run_end r \/
  exists m, m ∈ run_moments r /\ m_done m = None /\
    match m_ctx m with
    | Some e => executeToolCall c name r = inr e
    | None =>
        (executeToolCall c name r = inr err_paused /\ hasPauseChecker c = true /\ m_pause m = true) \/
        (executeToolCall c name r = inr err_tool_timeout /\ 0 < toolCallTimeout c /\
           name ∉ toolCallTimeoutExempt c)
    end.
Proof.
  destruct Hr as [Hs Hm]. unfold executeToolCall. destruct (run_start r) as [o|]; [left; auto|].
  destruct (watch_cases c name (run_moments r) (run_end r)) as [(m & out & Hd & Hsel & ->)|[_ ->]];
    [|by left].
  destruct (decides_elem _ _ _ _ Hd) as [Hin Hen].
  destruct (select_arm_spec _ _ _ _ Hen Hsel) as [Hdone|[(Hn & e & Hc & ->)|[(Hn & Hc & _ & Hp & Hq & ->)|
    (Hn & Hc & _ & Ht & ->)]]].
  - left. exact (Hm m out Hin Hdone).
  - right. exists m. rewrite Hc. auto.
  - right. exists m. rewrite Hc. auto 6.
  - right. exists m. rewrite Hc. split; [done|]. split; [done|]. right.
    unfold timeoutArmed, isToolCallTimeoutExempt in Ht. boolean.
    split; [done|]. split; [lia|done].
Qed.

(** A run where the tool finishes on the very tick the user pauses. *)
Definition example_tool_run : tool_run :=
  mkToolRun None
    [mkMoment ArmTick None None false;
     mkMoment ArmTimeout None None false;
     mkMoment ArmTick (Some (inl (mkToolResult "ok" false))) None true]
    (inl (mkToolResult "ok" false)).

Definition example_watch : wconfig := mkWatch true 300 defaultToolCallTimeoutExemptTools.

Lemma executeToolCall_result_witness :
  executeToolCall example_watch "ask_user" example_tool_run = run_end example_tool_run /\
  executeToolCall example_watch "bash_exec" example_tool_run = inr err_tool_timeout /\
  "bash_exec" ∉ toolCallTimeoutExempt example_watch.
Proof.
  split; [vm_compute; reflexivity|]. split; [vm_compute; reflexivity|].
  assert (Ho : one_result example_tool_run).
  { split; [discriminate|]. intros m out Hm Hd. simpl in Hm.
    repeat (apply elem_of_cons in Hm as [->|Hm]; [by simplify_eq/=|]). by apply not_elem_of_nil in Hm. }
  destruct (executeToolCall_result example_watch "bash_exec" example_tool_run Ho)
    as [Hx|(m & Hm & Hd & Hx)]; [vm_compute in Hx; discriminate|].
  destruct (m_ctx m) as [e|] eqn:Ec.
  - exfalso. simpl in Hm. repeat (apply elem_of_cons in Hm as [->|Hm]; [discriminate|]).
    by apply not_elem_of_nil in Hm.
  - destruct Hx as [(Hx & _)|(_ & _ & Hn)]; [vm_compute in Hx; discriminate|exact Hn].
Defined.
