(* ===== verification/ToolSyntax.v ===== *)
(** * Tool calls printed as text, and checklists

    [DetectToolCallSyntaxInContent] and its helpers ([src/agent/executor.go]),
    the checklist parser ([src/agent/checklist.go]) and the checklist helpers of
    [src/agent/executor_run.go].  The regular expressions of the sources are
    written out as recognisers. *)

From Stdlib Require Import ZArith Lia Ascii.
From stdpp Require Import base gmap strings list.
From S2P Require Import Prelude GoStr AgentTypes Nudges Json.
Open Scope sp4rk_scope.
Open Scope Z_scope.

(** ** Character classes of [regexp] *)

Definition re_space (c : ascii) : bool :=
  let b := byte_of c in (b =? 9) || (b =? 10) || (b =? 12) || (b =? 13) || (b =? 32).

Definition re_word (c : ascii) : bool :=
  let b := byte_of c in
  ((48 <=? b) && (b <=? 57)) || ((65 <=? b) && (b <=? 90)) || ((97 <=? b) && (b <=? 122)) || (b =? 95).

Fixpoint skip_while (p : ascii -> bool) (s : string) : string :=
  match s with
  | String c r => if p c then skip_while p r else s
  | EmptyString => s
  end.

Fixpoint take_while (p : ascii -> bool) (s : string) : string :=
  match s with
  | String c r => if p c then String c (take_while p r) else ""
  | EmptyString => ""
  end.

Definition fence : string := "```".

(** [\w+_\w+] at the front of a text. *)
Fixpoint underscored_tail (s : string) : bool :=
  match s with
  | String c r =>
      re_word c &&
      ((Ascii.eqb c "_" && match r with String d _ => re_word d | EmptyString => false end)
       || underscored_tail r)
  | EmptyString => false
  end.

Definition underscored (s : string) : bool :=
  match s with String c r => re_word c && underscored_tail r | EmptyString => false end.

(** [\s*```\w+_\w+] at the front of a text. *)
Definition tool_fence_here (s : string) : bool :=
  let r := skip_while re_space s in has_prefix r fence && underscored (str_drop 3 r).

(** [toolCallSyntaxRe] at some line start. *)
Fixpoint tool_fence_line (s : string) : bool :=
  match s with
  | EmptyString => false
  | String c r => (Ascii.eqb c "010" && tool_fence_here r) || tool_fence_line r
  end.

Definition toolCallSyntaxRe (s : string) : bool := tool_fence_here s || tool_fence_line s.

(** ** JSON envelopes *)

Definition jsonToolCallNameKeys : list string := ["name"; "tool"].
Definition jsonToolCallArgKeys : list string := ["arguments"; "args"; "parameters"; "input"].
Definition jsonToolCallServiceKeys : list string := ["id"; "type"; "index"].

(** The text in front of the last occurrence of [sub]. *)
Fixpoint cut_last (sub s : string) : option string :=
  match s with
  | EmptyString => None
  | String c r =>
      match cut_last sub r with
      | Some p => Some (String c p)
      | None => if has_prefix s sub then Some "" else None
      end
  end.

Definition isFenceTagByte (c : ascii) : bool :=
  let b := byte_of c in
  ((97 <=? b) && (b <=? 122)) || ((65 <=? b) && (b <=? 90)) || ((48 <=? b) && (b <=? 57)) ||
  bool_decide (c ∈ ["_"; "-"; "+"; "#"; "."]%char).

(** The text behind the first newline. *)
Fixpoint after_newline (s : string) : option string :=
  match s with
  | EmptyString => None
  | String c r => if Ascii.eqb c "010" then Some r else after_newline r
  end.

Definition stripSingleCodeFence (s : string) : string :=
  if negb (has_prefix s fence) then s
  else
    let body := str_drop 3 s in
    let body := match after_newline body with
                | Some r => r
                | None => skip_while isFenceTagByte body
                end in
    let body := default body (cut_last fence body) in
    trim_space body.

(** [json.Unmarshal] into a [map[string]json.RawMessage]. *)
Definition unmarshal_object (s : string) : option (gmap string string) :=
  match json_decode s with
  | Some (JObj l) => Some (fold_left (fun m kv => <[fst kv := snd kv]> m) l ∅)
  | Some JNull => Some ∅
  | _ => None
  end.

(** [json.Unmarshal(raw, &text) == nil] for a string [text]. *)
Definition is_json_string (raw : string) : bool :=
  match json_decode raw with Some (JStr _) | Some JNull => true | _ => false end.

Definition hasAnyKey (obj : gmap string string) (keys : list string) : bool :=
  existsb (fun k => bool_decide (is_Some (obj !! k))) keys.

Definition jsonKeyIsToolCallRelated (k : string) : bool :=
  bool_decide (k ∈ jsonToolCallNameKeys) || bool_decide (k ∈ jsonToolCallArgKeys) ||
  bool_decide (k ∈ jsonToolCallServiceKeys).

Definition jsonKeysAllToolCallRelated (obj : gmap string string) : bool :=
  forallb (fun kv => jsonKeyIsToolCallRelated (fst kv)) (map_to_list obj).

(** The value of the last of [keys] the object has. *)
Definition last_of (obj : gmap string string) (keys : list string) : option string :=
  fold_left (fun acc k => match obj !! k with Some v => Some v | None => acc end) keys None.

Definition ends_with (c : ascii) (s : string) : bool :=
  match String.rev s with String d _ => Ascii.eqb c d | EmptyString => false end.

Definition looksLikeJSONToolCall (content : string) : bool :=
  let trimmed := stripSingleCodeFence (trim_space content) in
  if negb (has_prefix trimmed "{") || negb (ends_with "}" trimmed) then false
  else match unmarshal_object trimmed with
  | None => false
  | Some obj =>
      match (if Nat.eqb (size obj) 1 then obj !! "answer" else None) with
      | Some raw => is_json_string raw
      | None =>
          let leaked :=
            match last_of obj jsonToolCallNameKeys, last_of obj jsonToolCallArgKeys with
            | Some nameVal, Some _ => jsonKeysAllToolCallRelated obj && is_json_string nameVal
            | _, _ => false
            end in
          if leaked then true
          else match obj !! "function" with
          | Some raw =>
              match unmarshal_object raw with
              | Some fn => hasAnyKey fn ["name"] && hasAnyKey fn jsonToolCallArgKeys
              | None => false
              end
          | None => false
          end
      end
  end.

Definition DetectToolCallSyntaxInContent (content : string) : bool :=
  if toolCallSyntaxRe content then true else looksLikeJSONToolCall content.

(** ** Checklists *)

Record TodoItem := mkTodo { Text : string; Checked : bool }.

(** [strings.TrimRight(line, " \t\r")] *)
Definition trim_line (s : string) : string :=
  trim_right_by (fun b => (b =? 32) || (b =? 9) || (b =? 13)) (fun _ _ => false) (fun _ _ _ => false) s.

Definition ParseTodoLine (line : string) : option TodoItem :=
  match trim_line line with
  | String "-" (String " " (String "[" (String m (String "]" (String " " (String c r)))))) =>
      if Ascii.eqb m "x" then Some (mkTodo (String c r) true)
      else if Ascii.eqb m " " then Some (mkTodo (String c r) false)
      else None
  | _ => None
  end.

Definition ParseTodoItems (rawTodoList : string) : list TodoItem :=
  omap ParseTodoLine (split_byte "010" rawTodoList).

Definition checklistItemsFromInput (input : string) : list TodoItem :=
  match unmarshal_string_field "todo_list" input with
  | Some todo => ParseTodoItems todo
  | None => []
  end.

(** [strconv.Atoi] on digits, at most the largest [int]. *)
Fixpoint digits_value (s : string) (acc : Z) : Z :=
  match s with
  | String c r => digits_value r (acc * 10 + (byte_of c - 48))
  | EmptyString => acc
  end.
Definition atoi (s : string) : Z := Z.min (digits_value s 0) (2 ^ 63 - 1).

(** [(\d+)/(\d+)\s+done] at the front of a text: the two numbers. *)
Definition done_here (s : string) : option (Z * Z) :=
  let d1 := take_while is_digit s in
  match skip_while is_digit s with
  | String "/" r =>
      let d2 := take_while is_digit r in
      let r' := skip_while is_digit r in
      let r'' := skip_while re_space r' in
      if negb (String.eqb d1 "") && negb (String.eqb d2 "") &&
         (slen r'' <? slen r') && has_prefix r'' "done"
      then Some (atoi d1, atoi d2) else None
  | _ => None
  end.

(** [checklistDoneRe.FindStringSubmatch] *)
Fixpoint checklistDoneRe (s : string) : option (Z * Z) :=
  match done_here s with
  | Some m => Some m
  | None => match s with String _ r => checklistDoneRe r | EmptyString => None end
  end.

(** The backward scan of [lastChecklistUnchecked], on the reversed steps. *)
Fixpoint unchecked_scan (rev_steps : list Step) : Z :=
  match rev_steps with
  | [] => 0
  | s :: r =>
      if negb (String.eqb (tc_name (s_action s)) "update_checklist") || s_is_error s ||
         String.eqb (s_observation s) "" then unchecked_scan r
      else match checklistDoneRe (s_observation s) with
      | Some (dn, total) => total - dn
      | None => 0
      end
  end.

Definition lastChecklistUnchecked (steps : list Step) : Z := unchecked_scan (rev steps).

(** The number of items unchecked before and checked now. *)
Definition newly_checked (prev curr : list TodoItem) : Z :=
  let prevChecked : gmap string bool := fold_left (fun m it => <[Text it := Checked it]> m) prev ∅ in
  Z.of_nat (length (List.filter (fun it =>
    Checked it && match prevChecked !! Text it with Some b => negb b | None => false end) curr)).

Example detect_answer_leak :
  DetectToolCallSyntaxInContent ("{" +s+ q "answer" +s+ ": " +s+ q "42" +s+ "}") = true.
Proof. vm_compute. reflexivity. Qed.
Example detect_envelope_leak :
  DetectToolCallSyntaxInContent
    (fence +s+ "json" +s+ nl +s+ "{" +s+ q "type" +s+ ":" +s+ q "tool_use" +s+ "," +s+ q "name" +s+ ":" +s+
     q "read_file" +s+ "," +s+ q "input" +s+ ":{}}" +s+ nl +s+ fence) = true.
Proof. vm_compute. reflexivity. Qed.
Example detect_fence : DetectToolCallSyntaxInContent ("text" +s+ nl +s+ " ```bash_exec") = true.
Proof. vm_compute. reflexivity. Qed.
Example no_leak_in_answer :
  DetectToolCallSyntaxInContent ("{" +s+ q "name" +s+ ":" +s+ q "report" +s+ "," +s+ q "summary" +s+ ":1," +s+
    q "parameters" +s+ ":{}}") = false.
Proof. vm_compute. reflexivity. Qed.
Example unchecked_example : checklistDoneRe "Checklist updated: 2/5 done" = Some (2, 5).
Proof. vm_compute. reflexivity. Qed.
