(* ===== verification/Oneshot.v ===== *)
(** * One-shot model calls: [src/oneshot/oneshot.go], [parse.go], [src/llm/jsonutil.go]

    A one-shot call asks the model for one structured answer: an unparseable
    response is sent back with a nudge that restates the format, twice at most,
    and then the policy of the call decides.  The helpers recover the answer
    from what models make of a format: fences, preambles, decorated KEY: value
    lines, JSON embedded in prose.  Theorems: what [Do] asks, how often, and
    what it returns; what [ExtractJSON] returns.

    The patterns of [regexp] are functions on bytes; a letter of a
    case-insensitive pattern matches the two non-ASCII characters that fold to
    an ASCII letter.  Parameters: the caller, whether the context is done before
    an attempt, the parse function of a call.  Logs and dumps are left out. *)

From Stdlib Require Import ZArith Lia Ascii.
From stdpp Require Import base gmap strings list.
From S2P Require Import Prelude GoStr AgentTypes Nudges Json ToolSyntax.
Open Scope sp4rk_scope.

(** ** Strings *)

(** [strings.Index], as the text before and behind the first occurrence. *)
Definition cut_first (sub s : string) : option (string * string) :=
  match String.index 0 sub s with
  | Some i => Some (take_str i s, str_drop (i + String.length sub) s)
  | None => None
  end.

Definition trim_prefix (s p : string) : string :=
  if has_prefix s p then str_drop (String.length p) s else s.
Definition has_suffix (s p : string) : bool :=
  String.eqb (str_drop (String.length s - String.length p) s) p.
Definition trim_suffix (s p : string) : string :=
  if has_suffix s p then take_str (String.length s - String.length p) s else s.

(** [strings.TrimRight] and [strings.Trim] of a set of ASCII characters. *)
Fixpoint trim_right_chars (p : ascii -> bool) (s : string) : string :=
  match s with
  | "" => ""
  | String c r =>
      match trim_right_chars p r with
      | "" => if p c then "" else String c ""
      | r' => String c r'
      end
  end.
Definition trim_chars (p : ascii -> bool) (s : string) : string := trim_right_chars p (skip_while p s).

Fixpoint filter_chars (p : ascii -> bool) (s : string) : string :=
  match s with "" => "" | String c r => if p c then String c (filter_chars p r) else filter_chars p r end.

Fixpoint map_chars (f : ascii -> ascii) (s : string) : string :=
  match s with "" => "" | String c r => String (f c) (map_chars f r) end.

(** The text in front of the first character of a set, and from it on. *)
Fixpoint cut_at (p : ascii -> bool) (s : string) : option (string * string) :=
  match s with
  | "" => None
  | String c r =>
      if p c then Some ("", s)
      else match cut_at p r with Some (a, b) => Some (String c a, b) | None => None end
  end.

Definition is_sep (c : ascii) : bool := Ascii.eqb c ":" || Ascii.eqb c "=".

(** ** Case-insensitive patterns *)

(** A lower-case letter of the pattern: ſ (U+017F) folds to s, K (U+212A) to k. *)
Definition ci_letter (p : ascii) (s : string) : option string :=
  match s with
  | "" => None
  | String c r =>
      if Ascii.eqb (fold_char c) p then Some r
      else if Ascii.eqb p "s" && has_prefix s (String "197" (String "191" "")) then Some (str_drop 2 s)
      else if Ascii.eqb p "k" && has_prefix s (String "226" (String "132" (String "170" ""))) then Some (str_drop 3 s)
      else None
  end.

Fixpoint ci_word (w s : string) : option string :=
  match w with
  | "" => Some s
  | String p w' => match ci_letter p s with Some r => ci_word w' r | None => None end
  end.

(** The first of the words, in order of preference. *)
Fixpoint ci_any (ws : list string) (s : string) : option string :=
  match ws with
  | [] => None
  | w :: ws => match ci_word w s with Some r => Some r | None => ci_any ws s end
  end.

(** ** Candidates *)

Definition candidate_fields (resp : ChatResponse) : list string :=
  [m_content (r_message resp); m_reasoning (r_message resp); r_reasoning resp].

Definition CandidateTexts (resp : option ChatResponse) : list string :=
  match resp with
  | None => []
  | Some r => List.filter (fun f => negb (String.eqb (trim_space f) "")) (candidate_fields r)
  end.

(** [fenceRe]: the language tag, blanks and a newline, then the shortest
    non-empty body in front of a closing fence that ends the text. *)
Definition is_tag_char (c : ascii) : bool :=
  let b := byte_of c in
  (((48 <=? b) && (b <=? 57)) || ((65 <=? b) && (b <=? 90)) || ((97 <=? b) && (b <=? 122)) || (b =? 43) || (b =? 45))%Z.
Definition is_blank (c : ascii) : bool := Ascii.eqb c " " || Ascii.eqb c "009".

Definition closing_fence (s : string) : bool :=
  match s with
  | String c r => Ascii.eqb c "010" && has_prefix r fence &&
                  String.eqb (skip_while is_blank (str_drop 3 r)) ""
  | "" => false
  end.
Fixpoint fence_body (s : string) : option string :=
  match s with
  | "" => None
  | String c r =>
      if closing_fence r then Some (String c "")
      else match fence_body r with Some b => Some (String c b) | None => None end
  end.
Definition fenceRe (s : string) : option string :=
  if has_prefix s fence then
    match skip_while is_blank (skip_while is_tag_char (str_drop 3 s)) with
    | String c r => if Ascii.eqb c "010" then fence_body r else None
    | "" => None
    end
  else None.

Definition StripFence (s : string) : string :=
  let trimmed := trim_space s in
  match fenceRe trimmed with
  | Some body => trim_space body
  | None => trimmed
  end.

(** The alternatives of [reasoningPrefixRe], in order. *)
Definition prime : string := String "226" (String "128" (String "178" "")).
Definition here_words : list string := ["here's "; "here" +s+ prime +s+ "s "; "heres "].
Definition all_of (parts : list (list string)) : list string :=
  foldr (fun p acc => p ≫= fun a => map (fun b => a +s+ b) acc) [""] parts.
Definition reasoning_prefixes : list string :=
  all_of [["based on my analysis"]; [", "; " of "; ": "]] ++
  all_of [here_words; ["the "; ""]; ["commit message"]; [", "; ": "]] ++
  all_of [["the commit message"]; [", "; " is "; ": "]] ++
  all_of [here_words; ["the "; ""]; ["optimized "; ""]; ["prompt"]; [", "; ": "]] ++
  all_of [["the optimized prompt"]; [", "; " is "; ": "]] ++
  ["this is the optimized prompt "; "sure, "; "sure "; "ok, "; "ok "; "ok sure, "; "ok sure "] ++
  all_of [here_words; ["an "; "a "]] ++
  all_of [["below"]; [", "; " is "; ": "]] ++
  ["according to my analysis "; "from the diff "; "from the provided diff "; "from the staged diff ";
   "this commit "; "this prompt "].

Definition StripReasoningPrefix (s : string) : string :=
  match ci_any reasoning_prefixes s with Some r => r | None => s end.

(** [Text]: the first field that leaves something. *)
Definition Text (resp : option ChatResponse) : string :=
  default "" (head (List.filter (fun t => negb (String.eqb t ""))
    (map (fun f => trim_space (StripReasoningPrefix (StripFence f))) (CandidateTexts resp)))).

(** ** Values *)

Definition is_emphasis (c : ascii) : bool :=
  Ascii.eqb c "*" || Ascii.eqb c "_" || Ascii.eqb c "`" || Ascii.eqb c " " || Ascii.eqb c "009".
Definition TrimEmphasis (s : string) : string := trim_chars is_emphasis s.

Definition is_quote (c : ascii) : bool := Ascii.eqb c "034" || Ascii.eqb c "'" || Ascii.eqb c "`".
Definition Unquote (s : string) : string :=
  let r := TrimEmphasis s in
  match r with
  | String first (String c t) =>
      let inner := String c t in
      if is_quote first && has_suffix inner (String first "")
      then trim_space (take_str (String.length inner - 1) inner) else r
  | _ => r
  end.

(** [keyLineListPrefixRe] removed. *)
Definition strip_list_marker (line : string) : string :=
  let marked (r : string) : option string :=
    match r with String c _ => if re_space c then Some (skip_while re_space r) else None | "" => None end in
  match line with
  | "" => ""
  | String c r =>
      let bullet := if Ascii.eqb c "-" || Ascii.eqb c "*" || Ascii.eqb c "+" then marked r else None in
      match bullet with
      | Some rest => rest
      | None =>
          if is_digit c then
            match skip_while is_digit r with
            | String d r' => if Ascii.eqb d "." then default line (marked r') else line
            | "" => line
            end
          else line
      end
  end.

Definition is_markup (c : ascii) : bool := Ascii.eqb c "*" || Ascii.eqb c "_" || Ascii.eqb c "`".

Definition StripLineDecoration (line : string) : string :=
  let line := trim_space line in
  let line := trim_prefix line fence in
  let line := trim_suffix line fence in
  let line := skip_while (fun c => Ascii.eqb c ">" || is_blank c) line in
  let line := strip_list_marker line in
  let line := match cut_at is_sep line with
    | Some (key, rest) => filter_chars (fun c => negb (is_markup c)) key +s+ rest
    | None => line
    end in
  trim_space line.

(** ** KEY: value lines *)

Record KeyValue := mkKV { kv_key : string; kv_value : string }.

Definition no_newline (s : string) : bool := negb (contains s nl).

(** [\w*] when case is ignored: ASCII word characters, ſ and the kelvin sign. *)
Fixpoint skip_word_ci (s : string) : string :=
  match s with
  | String c r =>
      if re_word c then skip_word_ci r
      else match r with
      | String d r2 =>
          if Ascii.eqb c "197" && Ascii.eqb d "191" then skip_word_ci r2
          else match r2 with
          | String e r3 =>
              if Ascii.eqb c "226" && Ascii.eqb d "132" && Ascii.eqb e "170" then skip_word_ci r3 else s
          | "" => s
          end
      | "" => s
      end
  | "" => s
  end.

(** [strings.ToLower] of a key: ASCII letters and the kelvin sign. *)
Fixpoint lower_key (s : string) : string :=
  match s with
  | String c r =>
      if has_prefix s (String "226" (String "132" (String "170" ""))) then
        match r with String _ (String _ r3) => String "k" (lower_key r3) | _ => s end
      else String (fold_char c) (lower_key r)
  | "" => ""
  end.

(** Behind a key: the rest of the word, a separator and the value, as the text
    from the separator on and the value. *)
Definition after_key (r : string) : option (string * string) :=
  let t := skip_while re_space (skip_word_ci r) in
  match t with
  | String c v =>
      let value := skip_while re_space v in
      if is_sep c && no_newline value then Some (t, value) else None
  | "" => None
  end.

Fixpoint match_key (keys : list string) (s : string) : option (string * string) :=
  match keys with
  | [] => None
  | k :: keys =>
      match ci_word k s ≫= after_key with
      | Some m => Some m
      | None => match_key keys s
      end
  end.

(** The text in front of a suffix, lower-cased as a key. *)
Definition key_before (s rest : string) : string :=
  lower_key (trim_space (take_str (String.length s - String.length rest) s)).

Definition ParseKeyLines (content : string) (keys : list string) : list KeyValue :=
  omap (fun raw =>
    let line := StripLineDecoration raw in
    match match_key keys line with
    | Some (rest, value) => Some (mkKV (key_before line rest) (trim_space value))
    | None => None
    end) (split_byte "010" content).

(** [SplitInline]: head, key and value; the search for a key at a word
    boundary, [prev] being the character before. *)
Fixpoint find_inline (keys : list string) (prev : bool) (s : string) : option (string * string * string) :=
  let here :=
    match s with
    | "" => None
    | String c _ => if xorb prev (re_word c) then match_key keys s else None
    end in
  match here with
  | Some (rest, value) => Some ("", key_before s rest, value)
  | None =>
      match s with
      | "" => None
      | String c r =>
          match find_inline keys (re_word c) r with
          | Some (h, k, v) => Some (String c h, k, v)
          | None => None
          end
      end
  end.

Definition SplitInline (value : string) (keys : list string) : option (string * string * string) :=
  match find_inline keys false value with
  | Some (h, k, v) => Some (trim_space h, k, trim_space v)
  | None => None
  end.

(** ** Markers and JSON *)

Definition BetweenMarkers (s start stop : string) : option string :=
  match cut_first start s with
  | None => None
  | Some (_, after) =>
      match cut_first stop after with
      | None => None
      | Some (inner, _) => Some (trim_space inner)
      end
  end.

Fixpoint first_some {A B} (f : A -> option B) (l : list A) : option B :=
  match l with
  | [] => None
  | x :: l => match f x with Some y => Some y | None => first_some f l end
  end.

Definition Marked (resp : option ChatResponse) (start stop : string) : option string :=
  first_some (fun c => BetweenMarkers c start stop) (CandidateTexts resp).

(** [ExtractJSON]: [back] is the text up to and with the current character,
    last character first.  The backward scan from a closing brace: [cand] is
    the text scanned so far, in order. *)
Fixpoint leading_backslashes (back : string) : nat :=
  match back with
  | String c r => if Ascii.eqb c "\" then S (leading_backslashes r) else 0
  | "" => 0
  end.

Fixpoint match_brace (back : string) (depth : nat) (in_str : bool) (cand : string) : option string :=
  match back with
  | "" => None
  | String ch r =>
      let cand := String ch cand in
      let quoted := Ascii.eqb ch "034" && Nat.even (leading_backslashes r) in
      if in_str then match_brace r depth (negb quoted) cand
      else if Ascii.eqb ch "034" then match_brace r depth quoted cand
      else if Ascii.eqb ch "}" then match_brace r (S depth) false cand
      else if Ascii.eqb ch "{" then
        match depth with
        | S (S d) => match_brace r (S d) false cand
        | _ => if json_valid cand then Some cand else None
        end
      else match_brace r depth false cand
  end.

Fixpoint scan_braces (back : string) : option string :=
  match back with
  | "" => None
  | String ch r =>
      if Ascii.eqb ch "}" then
        match match_brace back 0 false "" with
        | Some cand => Some cand
        | None => scan_braces r
        end
      else scan_braces r
  end.

Definition fenced_json (content : string) : option string :=
  match cut_first fence content with
  | None => None
  | Some (_, after) =>
      let after := match cut_first nl after with Some (_, r) => r | None => after end in
      match cut_first fence after with
      | None => None
      | Some (inner, _) => let block := trim_space inner in if json_valid block then Some block else None
      end
  end.

Definition ExtractJSON (content : string) : string :=
  let content := trim_space content in
  match fenced_json content with
  | Some block => block
  | None => match scan_braces (String.rev content) with Some cand => cand | None => content end
  end.

(** [ParseJSON]: [decode] is [json.Unmarshal] into the type; the error is the
    text of [errors.Join]. *)
Definition ErrNoJSON : string := "oneshot: no candidate text in response".

Fixpoint parse_candidates {A} (decode : string -> A + string) (l : list string) (lastErr : option string)
    : A + string :=
  match l with
  | [] => inr (match lastErr with None => ErrNoJSON | Some e => ErrNoJSON +s+ nl +s+ e end)
  | c :: l =>
      let raw := ExtractJSON c in
      if String.eqb raw "" then parse_candidates decode l lastErr
      else match decode raw with
      | inl v => inl v
      | inr e => parse_candidates decode l (Some e)
      end
  end.
Definition ParseJSON {A} (decode : string -> A + string) (resp : option ChatResponse) : A + string :=
  parse_candidates decode (CandidateTexts resp) None.

Example key_lines :
  ParseKeyLines ("**VERDICT:** ALLOW" +s+ nl +s+ "> 2. Reasoning = ok: 12:00 " +s+ nl +s+ "prose") ["verdict"; "reason"] =
  [mkKV "verdict" "** ALLOW"; mkKV "reasoning" "ok: 12:00"].
Proof. vm_compute. reflexivity. Qed.
Example inline_key : SplitInline "ALLOW - REASON: safe" ["reason"] = Some ("ALLOW -", "reason", "safe").
Proof. vm_compute. reflexivity. Qed.

(** ** The call *)

Inductive OnFailurePolicy := OnFailureError | OnFailureFallback | OnFailureFailSafe.

Definition maxParseRetries : nat := 2.
Definition kindOrDefault (kind : string) : string := if String.eqb kind "" then "call" else kind.

Definition echoText (resp : option ChatResponse) : string :=
  match CandidateTexts resp with c :: _ => c | [] => "(empty response)" end.

Definition nudgeMessage (hint : string) : string :=
  "[System] Your previous response could not be parsed." +s+ nl +s+
  (let hint := trim_space hint in if String.eqb hint "" then "" else hint +s+ nl) +s+
  "Respond again with only the corrected answer, strictly following the required output format.".

Definition text_msg (role content : string) : Message := mkMessage role content [] "" [] "" [].

Section call.
Context {T PE : Type}.

(** [Options]; [o_hint]: [RetryHintFn] or the constant [RetryHint], of the
    error of the caller's parse function, or of an answer that was nil. *)
Record Options := mkOptions {
  o_Kind : string;
  o_OnFailure : OnFailurePolicy;
  o_FallbackValue : T;
  o_hint : option PE -> string;
}.
(** The context's error, the caller's, or one that wraps the last parse error. *)
Inductive do_error :=
| CtxDone (e : string)
| TransportError (e : string)
| Unparseable (kind : string) (perr : option PE).
Definition parse_error_text (text : PE -> string) (perr : option PE) : string :=
  match perr with Some e => text e | None => "empty response (nil response with no error)" end.
Definition do_error_text (text : PE -> string) (e : do_error) : string :=
  match e with
  | CtxDone e | TransportError e => e
  | Unparseable kind perr =>
      "oneshot: " +s+ kindOrDefault kind +s+ ": response unparseable after " +s+
      itoa (Z.of_nat (S maxParseRetries)) +s+ " attempts: " +s+ parse_error_text text perr
  end.

Variable caller : nat -> list Message -> option ChatResponse + string.
Variable ctx_done : nat -> option string.
Variable messages : list Message. (** of the request *)
Variable parse : ChatResponse -> T + PE.
Variable opts : Options.

Definition parse_response (resp : option ChatResponse) : T + option PE :=
  match resp with
  | None => inr None
  | Some r => match parse r with inl v => inl v | inr e => inr (Some e) end
  end.

Definition refusal (perr : option PE) : T + do_error :=
  match o_OnFailure opts with
  | OnFailureError => inr (Unparseable (o_Kind opts) perr)
  | _ => inl (o_FallbackValue opts)
  end.

Definition nudge_pair (resp : option ChatResponse) (perr : option PE) : list Message :=
  [text_msg "assistant" (echoText resp); text_msg "user" (nudgeMessage (o_hint opts perr))].

(** The loop from an attempt on, with the nudges so far; the message lists of
    the requests it makes, and its result. *)
Fixpoint do_loop (tries attempt : nat) (nudges : list Message) : list (list Message) * (T + do_error) :=
  match tries with
  | O => ([], inr (CtxDone ""))
  | S tries =>
      match ctx_done attempt with
      | Some e => ([], inr (CtxDone e))
      | None =>
          let msgs := messages ++ nudges in
          match caller attempt msgs with
          | inr e => ([msgs], inr (TransportError e))
          | inl resp =>
              match parse_response resp with
              | inl v => ([msgs], inl v)
              | inr perr =>
                  if (maxParseRetries <=? attempt)%nat then ([msgs], refusal perr)
                  else
                    let '(reqs, out) := do_loop tries (S attempt) (nudges ++ nudge_pair resp perr) in
                    (msgs :: reqs, out)
              end
          end
      end
  end.

(** [Do], for a caller and a parse function. *)
Definition Do : list (list Message) * (T + do_error) := do_loop (S maxParseRetries) 0 [].

(** ** What [Do] does *)

(** The nudges of attempt [n]: there is one when all attempts before it were
    answered and none of the answers parsed. *)
Fixpoint nudges_at (n : nat) : option (list Message) :=
  match n with
  | O => Some []
  | S k =>
      match nudges_at k with
      | Some l =>
          match ctx_done k, caller k (messages ++ l) with
          | None, inl resp =>
              match parse_response resp with inr perr => Some (l ++ nudge_pair resp perr) | inl _ => None end
          | _, _ => None
          end
      | None => None
      end
  end.

(** How attempt [n] with the nudges [l] ends the call: the requests it makes
    and the result. *)
Inductive ends (n : nat) (l : list Message) : list (list Message) -> T + do_error -> Prop :=
| ends_done e : ctx_done n = Some e -> ends n l [] (inr (CtxDone e))
| ends_transport e : ctx_done n = None -> caller n (messages ++ l) = inr e -> ends n l [messages ++ l] (inr (TransportError e))
| ends_parsed resp v : ctx_done n = None -> caller n (messages ++ l) = inl resp -> parse_response resp = inl v ->
    ends n l [messages ++ l] (inl v)
| ends_refused resp perr : n = maxParseRetries -> ctx_done n = None -> caller n (messages ++ l) = inl resp ->
    parse_response resp = inr perr -> ends n l [messages ++ l] (refusal perr).

Lemma do_loop_spec tries n l :
  nudges_at n = Some l -> (n + tries)%nat = S maxParseRetries -> (0 < tries)%nat ->
  exists m l' before last, (n <= m <= maxParseRetries)%nat /\ nudges_at m = Some l' /\
    fst (do_loop tries n l) = before ++ last /\ length before = (m - n)%nat /\
    (forall k, (n <= k < m)%nat -> exists lk, nudges_at k = Some lk /\ before !! (k - n)%nat = Some (messages ++ lk)) /\
    ends m l' last (snd (do_loop tries n l)).
Proof.
  revert n l. induction tries as [|tries IH]; intros n l Hn Hsum Hpos; [lia|]. cbn [do_loop].
  assert (Hhere : forall last out, ends n l last out ->
    exists m l' before last', (n <= m <= maxParseRetries)%nat /\ nudges_at m = Some l' /\
      last = before ++ last' /\ length before = (m - n)%nat /\
      (forall k, (n <= k < m)%nat -> exists lk, nudges_at k = Some lk /\ before !! (k - n)%nat = Some (messages ++ lk)) /\
      ends m l' last' out).
  { intros last out He. exists n, l, [], last. repeat split; try done; simpl; lia. }
  destruct (ctx_done n) as [e|] eqn:Ec; [by apply Hhere, ends_done|].
  destruct (caller n (messages ++ l)) as [resp|e] eqn:Ea; [|by apply Hhere, ends_transport].
  destruct (parse_response resp) as [v|perr] eqn:Ep; [by eapply Hhere, ends_parsed|].
  destruct (Nat.leb_spec maxParseRetries n) as [Hm|Hm].
  { eapply Hhere, ends_refused; try done. unfold maxParseRetries in *. lia. }
  assert (Hn' : nudges_at (S n) = Some (l ++ nudge_pair resp perr)) by (simpl; by rewrite Hn, Ec, Ea, Ep).
  destruct (IH (S n) _ Hn' ltac:(lia) ltac:(unfold maxParseRetries in *; lia))
    as (m & l' & before & last & Hle & Hl' & Heq & Hlen & Hall & Hend).
  destruct (do_loop tries (S n) (l ++ nudge_pair resp perr)) as [reqs out]. simpl in *. subst reqs.
  exists m, l', ((messages ++ l) :: before), last. repeat split; try done; simpl; try lia.
  intros k Hk. destruct (decide (k = n)) as [->|Hne].
  - exists l. by rewrite Nat.sub_diag.
  - destruct (Hall k ltac:(lia)) as (lk & Hlk & Hb). exists lk. split; [done|].
    replace (k - n)%nat with (S (k - S n)) by lia. done.
Qed.

(** Each nudge echoes the model and corrects it, so that roles alternate. *)
Lemma nudges_at_pairs n l :
  nudges_at n = Some l ->
  map m_role l = concat (repeat ["assistant"; "user"] n) /\ Forall (fun m => m_content m <> "") l.
Proof.
  revert l. induction n as [|n IH]; intros l; [intros [= <-]; split; [done|constructor]|]. cbn [nudges_at].
  destruct (nudges_at n) as [l0|]; [|done]. destruct (ctx_done n); [done|].
  destruct (caller n _) as [resp|]; [|done]. destruct (parse_response resp) as [|perr]; [done|]. intros [= <-].
  destruct (IH l0 eq_refl) as [Hr Hc]. split.
  - rewrite map_app, Hr. clear. simpl. change ["assistant"; "user"] with (concat (repeat ["assistant"; "user"] 1)) at 2.
    rewrite <- concat_app, <- repeat_app, Nat.add_comm. done.
  - apply Forall_app. split; [done|]. repeat constructor; simpl; [|done].
    unfold echoText, CandidateTexts. destruct resp as [r|]; [|done].
    destruct (List.filter _ _) as [|c k] eqn:Ecand; [done|].
    assert (Hin : c ∈ List.filter (fun f => negb (String.eqb (trim_space f) "")) (candidate_fields r)) by (rewrite Ecand; by left).
    apply elem_of_List_filter in Hin as [_ Hv]. intros ->. done.
Qed.
End call.

(** A value is what an answer parsed to, or the fallback of the policy. *)
Lemma Do_value {T PE} caller ctx_done messages (parse : ChatResponse -> T + PE) opts reqs v :
  Do caller ctx_done messages parse opts = (reqs, inl v) ->
  (exists n msgs resp, caller n msgs = inl (Some resp) /\ parse resp = inl v) \/
  (o_OnFailure opts <> OnFailureError /\ v = o_FallbackValue opts).
Proof.
  unfold Do. intros H.
  destruct (do_loop_spec caller ctx_done messages parse opts (S maxParseRetries) 0 [] eq_refl eq_refl (Nat.lt_0_succ _))
    as (n & l & before & last & _ & _ & _ & _ & _ & Hend).
  rewrite H in Hend. simpl in Hend. remember (inl v) as out eqn:Eo. destruct Hend as [e|e|resp v' _ Hc Hp|resp perr _ _ _ _]; simplify_eq.
  - left. destruct resp as [resp|]; [|done]. cbn in Hp. destruct (parse resp) as [v'|] eqn:Ep; [|done]. injection Hp as ->.
    by exists n, (messages ++ l), resp.
  - right. unfold refusal in Eo. destruct (o_OnFailure opts); [done| |]; by injection Eo as <-.
Qed.
Lemma Do_requests {T PE} caller ctx_done messages (parse : ChatResponse -> T + PE) opts :
  (length (fst (Do caller ctx_done messages parse opts)) <= 3)%nat.
Proof.
  unfold Do.
  destruct (do_loop_spec caller ctx_done messages parse opts (S maxParseRetries) 0 [] eq_refl eq_refl (Nat.lt_0_succ _))
    as (n & l & before & last & Hle & _ & -> & Hlen & _ & Hend).
  unfold maxParseRetries in *. rewrite length_app, Hlen. destruct Hend; simpl; lia.
Qed.

(** A one-shot call asks at most three times.  Every request is the original
    one followed by the nudges so far, an echo of each unparseable answer and a
    correction in turn, none of them empty; it is repeated only after an answer
    that did not parse.  The call ends when the context is done or the transport
    fails, with that error, never retried; when an answer parses, with its
    value; or when the third answer does not parse, by the policy: the fallback
    value, or an error that names the last parse failure. *)
Theorem Do_contract {T PE} caller ctx_done messages (parse : ChatResponse -> T + PE) opts :
  let '(reqs, out) := Do caller ctx_done messages parse opts in
  let at_ n := nudges_at caller ctx_done messages parse opts n in
  (length reqs <= 3)%nat /\
  exists n l last, (n <= 2)%nat /\ at_ n = Some l /\ drop n reqs = last /\
    ends caller ctx_done messages parse opts n l last out /\
    (forall k, (k < n)%nat -> exists lk, at_ k = Some lk /\ reqs !! k = Some (messages ++ lk)) /\
    map m_role l = concat (repeat ["assistant"; "user"] n) /\ Forall (fun m => m_content m <> "") l.
Proof.
  unfold Do. pose proof (do_loop_spec caller ctx_done messages parse opts (S maxParseRetries) 0 [] eq_refl eq_refl
    (Nat.lt_0_succ _)) as (n & l & before & last & Hle & Hl & Heq & Hlen & Hall & Hend).
  destruct (do_loop _ _ _ _ _ _ _ _) as [reqs out]. simpl in Heq, Hend. subst reqs. rewrite Nat.sub_0_r in Hlen.
  unfold maxParseRetries in *. split.
  - rewrite length_app, Hlen. destruct Hend; simpl; lia.
  - exists n, l, last. split; [lia|]. split; [done|]. split; [rewrite <- Hlen; apply drop_app_length|].
    split; [done|]. split; [|by eapply nudges_at_pairs].
    intros k Hk. destruct (Hall k ltac:(lia)) as (lk & Hlk & Hb). exists lk. split; [done|].
    rewrite Nat.sub_0_r in Hb. by apply lookup_app_l_Some.
Qed.

(** ** [ExtractJSON] *)

(** A contiguous part of a text. *)
Definition infix_of (a b : string) : Prop := exists p q, b = p +s+ a +s+ q.

Lemma infix_refl a : infix_of a a.
Proof. exists "", "". by rewrite sapp_nil_r. Qed.
Lemma infix_trans a b c : infix_of a b -> infix_of b c -> infix_of a c.
Proof. intros (p & q & ->) (p' & q' & ->). exists (p' +s+ p), (q +s+ q'). by rewrite !sapp_assoc. Qed.
Lemma infix_drop n s : infix_of (str_drop n s) s.
Proof. exists (take_str n s), "". by rewrite sapp_nil_r, take_drop_str. Qed.
Lemma infix_take n s : infix_of (take_str n s) s.
Proof. exists "", (str_drop n s). by rewrite take_drop_str. Qed.

Lemma infix_rev a b : infix_of a b -> infix_of (String.rev a) (String.rev b).
Proof. intros (p & q & ->). exists (String.rev q), (String.rev p). by rewrite !rev_sapp, sapp_assoc. Qed.

Lemma infix_cons c a b : infix_of a b -> infix_of a (String c b).
Proof. intros (p & q & ->). by exists (String c p), q. Qed.
Lemma infix_trim_left p1 p2 p3 s : infix_of (trim_left_by p1 p2 p3 s) s.
Proof.
  assert (H : forall n s, (String.length s <= n)%nat -> infix_of (trim_left_by p1 p2 p3 s) s); [|by eapply H].
  clear s. induction n as [|n IH]; intros [|c0 s] Hlen; simpl in *; try lia; try apply infix_refl.
  destruct (p1 _); [apply infix_cons, IH; lia|]. destruct s as [|c1 s]; [apply infix_refl|].
  simpl in Hlen. destruct (p2 _ _); [apply infix_cons, infix_cons, IH; lia|].
  destruct s as [|c2 s]; [apply infix_refl|]. simpl in Hlen.
  destruct (p3 _ _ _); [|apply infix_refl]. apply infix_cons, infix_cons, infix_cons, IH. lia.
Qed.
Lemma infix_trim_space s : infix_of (trim_space s) s.
Proof.
  unfold trim_space, trim_right_by. eapply infix_trans; [|apply infix_trim_left].
  rewrite <- (rev_rev (trim_left_by space1 space2 space3 s)) at 2. apply infix_rev, infix_trim_left.
Qed.
Lemma infix_cut_first sub s a b : cut_first sub s = Some (a, b) -> infix_of a s /\ infix_of b s.
Proof.
  unfold cut_first. destruct (String.index _ _ _) as [i|]; [|done]. intros [= <- <-].
  split; [apply infix_take|apply infix_drop].
Qed.

Lemma match_brace_cand back depth in_str cand c :
  match_brace back depth in_str cand = Some c -> json_valid c = true /\ infix_of c (String.rev back +s+ cand).
Proof.
  revert depth in_str cand. induction back as [|ch r IH]; intros depth in_str cand; [done|]. cbn [match_brace].
  rewrite rev_cons, sapp_assoc. change (String ch "" +s+ cand) with (String ch cand).
  destruct in_str; [apply IH|]. destruct (Ascii.eqb ch "034"); [apply IH|].
  destruct (Ascii.eqb ch "}"); [apply IH|]. destruct (Ascii.eqb ch "{"); [|apply IH].
  assert (Hhere : (if json_valid (String ch cand) then Some (String ch cand) else None) = Some c ->
    json_valid c = true /\ infix_of c (String.rev r +s+ String ch cand)).
  { destruct (json_valid (String ch cand)) eqn:E; [|done]. intros [= <-]. split; [done|].
    exists (String.rev r), "". by rewrite sapp_nil_r. }
  destruct depth as [|[|d]]; [exact Hhere|exact Hhere|apply IH].
Qed.
Lemma scan_braces_cand back c :
  scan_braces back = Some c -> json_valid c = true /\ infix_of c (String.rev back).
Proof.
  induction back as [|ch r IH]; [done|]. cbn [scan_braces].
  assert (Hr : infix_of (String.rev r) (String.rev (String ch r))).
  { rewrite rev_cons. by exists "", (String ch ""). }
  assert (Hrest : scan_braces r = Some c -> json_valid c = true /\ infix_of c (String.rev (String ch r))).
  { intros H. destruct (IH H) as [Hv Hi]. split; [done|]. by eapply infix_trans. }
  destruct (Ascii.eqb ch "}"); [|done]. destruct (match_brace _ _ _ _) as [cand|] eqn:E; [|done].
  intros [= <-]. apply match_brace_cand in E. by rewrite sapp_nil_r in E.
Qed.
Lemma fenced_json_block s c : fenced_json s = Some c -> json_valid c = true /\ infix_of c s.
Proof.
  unfold fenced_json. destruct (cut_first fence s) as [[x after]|] eqn:E; [|done].
  apply infix_cut_first in E as [_ Ha].
  set (after' := match cut_first nl after with Some (_, r) => r | None => after end).
  assert (Ha' : infix_of after' s).
  { unfold after'. destruct (cut_first nl after) as [[y r]|] eqn:E; [|done].
    apply infix_cut_first in E as [_ E]. by eapply infix_trans. }
  destruct (cut_first fence after') as [[inner z]|] eqn:E; [|done]. apply infix_cut_first in E as [E _].
  destruct (json_valid _) eqn:Ev; [|done]. intros [= <-]. split; [done|].
  eapply infix_trans; [apply infix_trim_space|]. by eapply infix_trans.
Qed.

(** What [ExtractJSON] returns is a contiguous part of the answer, and it
    is valid JSON unless the answer holds neither a valid first fenced block
    nor a brace pair, matched outside of strings, that is valid: then it is
    the answer itself, trimmed. *)
Theorem ExtractJSON_valid content :
  let r := ExtractJSON content in
  infix_of r content /\
  (json_valid r = true \/
   r = trim_space content /\ fenced_json r = None /\ scan_braces (String.rev r) = None).
Proof.
  unfold ExtractJSON. assert (Ht := infix_trim_space content).
  destruct (fenced_json (trim_space content)) as [b|] eqn:Ef.
  { apply fenced_json_block in Ef as [Hv Hi]. split; [by eapply infix_trans|by left]. }
  destruct (scan_braces _) as [c|] eqn:Es.
  { apply scan_braces_cand in Es as [Hv Hi]. rewrite rev_rev in Hi. split; [by eapply infix_trans|by left]. }
  split; [done|]. by right.
Qed.

(** The alternative [ok sure,? ] of the preambles is never reached: [ok,? ]
    comes first and matches. *)
Example ok_sure : StripReasoningPrefix "OK sure, done" = "sure, done".
Proof. vm_compute. reflexivity. Qed.

(** A valid object one of whose strings holds an inline fence gives the fenced
    part, not the object. *)
Example inline_fence :
  let q := "{'note': 'use ```{}``` here'}" in
  let s := map_chars (fun c => if Ascii.eqb c "'" then "034"%char else c) q in
  json_valid s = true /\ ExtractJSON s = "{}".
Proof. vm_compute. done. Qed.

(** A brace inside a string does not end the object. *)
Example brace_in_string :
  let q := "Sure: {'a': '}{', 'b': {'c': 1}} bye" in
  let dq := map_chars (fun c => if Ascii.eqb c "'" then "034"%char else c) in
  ExtractJSON (dq q) = dq "{'a': '}{', 'b': {'c': 1}}".
Proof. vm_compute. done. Qed.
