(* ===== verification/PathChecks.v ===== *)
(** * Path checks of the tools layer

    src/tools/judge.go (path extraction and the session-root checks),
    src/tools/tool.go (SessionRoots, IsWithinRoot), src/tools/harmless_paths.go,
    src/tools/builtins/paths.go and file_judge.go, on a POSIX host.  The values
    of the context that matter are the record [PathCtx]; the file system is the
    [lstat] of [Paths].  [AllPathsInSessionRoots_sound] says what the judge's
    fast path guarantees of an input it approves, [judgeWrite_iff] which
    resolved targets a write is approved for. *)

From Stdlib Require Import ZArith Lia Ascii.
From stdpp Require Import base gmap strings list.
From S2P Require Import Prelude GoStr Paths Json JsonFacts Schema Registry ToolSyntax.
Open Scope sp4rk_scope.

(** ** Session roots *)

Record PathCtx := mkPathCtx {
  px_workspace : string;
  px_temp : string;
  px_allowed : list string;
  px_fold : bool;  (** [CaseInsensitivePathsFrom] *)
}.

Definition add_root (roots : list string) (r : string) : list string :=
  if String.eqb r "" || bool_decide (r ∈ roots) then roots else roots ++ [r].
Definition SessionRoots (ctx : PathCtx) : list string :=
  fold_left add_root (px_allowed ctx) (add_root (add_root [] (px_workspace ctx)) (px_temp ctx)).

(** ** Strings of a tool input *)

(** [ExtractJSONStrings] of the decoded text; [fuel] bounds the nesting. *)
Definition last_members (l : list (string * string)) : list string :=
  omap (fun k => obj_get k l) (remove_dups (map fst l)).
Fixpoint json_strings (fuel : nat) (raw : string) : list string :=
  match fuel with
  | O => []
  | S fuel =>
      match json_decode raw with
      | Some (JStr s) => [s]
      | Some (JArr l) => l ≫= json_strings fuel
      | Some (JObj l) => last_members l ≫= json_strings fuel
      | _ => []
      end
  end.
Definition ExtractJSONStrings (raw : string) : list string := json_strings (S (String.length raw)) raw.

(** ** Paths in a string *)

Definition is_letter (c : ascii) : bool :=
  let b := byte_of c in (((65 <=? b) && (b <=? 90)) || ((97 <=? b) && (b <=? 122)))%Z.
(** [a-zA-Z0-9._-~] *)
Definition isPathComponentChar (c : ascii) : bool :=
  is_letter c || is_digit c || Ascii.eqb c "." || Ascii.eqb c "_" || Ascii.eqb c "-" || Ascii.eqb c "~".
Definition is_backslash (c : ascii) : bool := Ascii.eqb c "\".
Definition any_slash (c : ascii) : bool := is_slash c || is_backslash c.
Definition path_char (c : ascii) : bool := isPathComponentChar c || is_slash c.
Definition drive_char (c : ascii) : bool := isPathComponentChar c || any_slash c.

(** [pathRegex] at the start of a text. *)
Definition match_path (s : string) : option string :=
  match s with
  | String c r =>
      if is_slash c then
        match take_while path_char r with "" => None | t => Some (String c t) end
      else if is_letter c then
        match r with
        | String d (String e t) =>
            if Ascii.eqb d ":" && any_slash e then Some (String c (String d (String e (take_while drive_char t)))) else None
        | _ => None
        end
      else None
  | "" => None
  end.

(** [FindAllStringIndex]: every match with the character before it; [skip]
    characters belong to the last match. *)
Fixpoint find_all (m : string -> option string) (skip : nat) (prev : option ascii) (s : string)
    : list (option ascii * string) :=
  match s with
  | "" => []
  | String c r =>
      match skip with
      | S k => find_all m k (Some c) r
      | O =>
          match m s with
          | Some tok => (prev, tok) :: find_all m (String.length tok - 1) (Some c) r
          | None => find_all m 0 (Some c) r
          end
      end
  end.

Definition all_chars_are (p : ascii -> bool) (s : string) : bool := negb (has_char (fun c => negb (p c)) s).
Definition isPureSeparatorRunToken (tok : string) : bool :=
  match tok with
  | String _ (String d (String e rest)) =>
      if Ascii.eqb d ":" then negb (String.eqb rest "") && all_chars_are any_slash (String e rest)
      else all_chars_are is_slash tok
  | String _ (String _ "") => all_chars_are is_slash tok
  | _ => false
  end.

Definition prev_component (prev : option ascii) : bool :=
  match prev with Some c => isPathComponentChar c | None => false end.
Definition ExtractPaths (s : string) : list string :=
  map snd (List.filter (fun '(prev, tok) =>
    negb (is_abs tok && prev_component prev) && negb (isPureSeparatorRunToken tok)) (find_all match_path 0 None s)).

(** [parentRefRe]; [start]: at the start of the text or behind a separator. *)
Definition parent_ref (s : string) : bool :=
  match s with
  | String "." (String "." r) => match r with "" => true | String c _ => any_slash c end
  | _ => false
  end.
Fixpoint parent_ref_in (start : bool) (s : string) : bool :=
  (start && parent_ref s) ||
  match s with "" => false | String c r => parent_ref_in (any_slash c) r end.
Definition HasRelativeEscape (s : string) : bool := parent_ref_in true s.

(** [windowsBackslashPathRe]: a run of [\component]s. *)
Fixpoint backslash_runs (fuel : nat) (s : string) : string :=
  match fuel with
  | O => ""
  | S fuel =>
      match s with
      | String c r =>
          if is_backslash c then
            match take_while isPathComponentChar r with
            | "" => ""
            | w => String c w +s+ backslash_runs fuel (skip_while isPathComponentChar r)
            end
          else ""
      | "" => ""
      end
  end.
Definition unc_start (c : ascii) : bool := is_letter c || is_digit c || Ascii.eqb c "_" || Ascii.eqb c "-".
Definition unc_char (c : ascii) : bool := unc_start c || Ascii.eqb c ".".
Definition match_unc (s : string) : option string :=
  match s with
  | String a (String b (String c r)) =>
      if is_backslash a && is_backslash b && unc_start c then
        let server := take_while unc_char r in
        match skip_while unc_char r with
        | String d t =>
            if any_slash d then
              Some (String a (String b (String c (server +s+ String d (take_while drive_char t)))))
            else None
        | "" => None
        end
      else None
  | _ => None
  end.
Definition runs (s : string) : string := backslash_runs (String.length s) s.
Definition match_rooted (s : string) : option string :=
  match s with
  | String a r =>
      if is_backslash a then
        let w := take_while isPathComponentChar r in
        let more := runs (skip_while isPathComponentChar r) in
        if (2 <=? String.length w)%nat && negb (String.eqb more "") then Some (String a (w +s+ more)) else None
      else None
  | "" => None
  end.
Definition match_drive_relative (s : string) : option string :=
  match s with
  | String a (String b r) =>
      if is_letter a && Ascii.eqb b ":" then
        let w := take_while isPathComponentChar r in
        let more := runs (skip_while isPathComponentChar r) in
        if negb (String.eqb w "") && negb (String.eqb more "") then Some (String a (String b (w +s+ more))) else None
      else None
  | _ => None
  end.
Definition windowsBackslashPathRe (s : string) : option string :=
  match match_unc s with
  | Some t => Some t
  | None => match match_rooted s with Some t => Some t | None => match_drive_relative s end
  end.
Definition hasUnextractedWindowsPath (s : string) : bool :=
  existsb (fun '(prev, _) =>
    match prev with Some c => negb (Ascii.eqb c ":" || isPathComponentChar c) | None => true end)
    (find_all windowsBackslashPathRe 0 None s).

(** [IsHarmlessDevicePath] on a POSIX host. *)
Definition IsHarmlessDevicePath (absPath : string) : bool :=
  if String.eqb absPath "" then false else String.eqb (Clean absPath) "/dev/null".

(** ** Containment *)

Section checks.
Variable lstat : bool -> list string -> Stat.
Variable to_lower : string -> string.

Definition IsWithinRoot (ctx : PathCtx) (root path : string) : bool :=
  if String.eqb root "" then false
  else default false (isWithinPath lstat to_lower root path (px_fold ctx)).

Definition pathInAnyRoot (ctx : PathCtx) (absPath : string) (roots : list string) : bool :=
  existsb (fun root => IsWithinRoot ctx root absPath) roots.

(** A string that can be assessed, and the body [AllPathsInDir] and
    [AllPathsInSessionRoots] share. *)
Definition assessable (s : string) : bool := negb (HasRelativeEscape s) && negb (hasUnextractedWindowsPath s).
Definition all_paths (inside : string -> bool) (input : string) : bool :=
  any_decodes input &&
  let strValues := ExtractJSONStrings input in
  forallb assessable strValues &&
  let allPaths := strValues ≫= ExtractPaths in
  negb (bool_decide (allPaths = [])) &&
  forallb (fun p => let cleaned := Clean p in IsHarmlessDevicePath cleaned || inside cleaned) allPaths.
Definition AllPathsInDir (ctx : PathCtx) (input dir : string) : bool :=
  if String.eqb dir "" then false else all_paths (fun p => IsWithinRoot ctx dir p) input.
Definition AllPathsInWorkspace (ctx : PathCtx) (input : string) : bool :=
  if String.eqb (px_workspace ctx) "" then false else AllPathsInDir ctx input (px_workspace ctx).
Definition AllPathsInSessionRoots (ctx : PathCtx) (input : string) : bool :=
  let roots := SessionRoots ctx in
  if bool_decide (roots = []) then false else all_paths (fun p => pathInAnyRoot ctx p roots) input.
End checks.

Example extract_examples :
  ExtractPaths "cat frontend/src/a.ts /etc/passwd 'x//y' C:\Temp // C:\\ >/dev/null" =
  ["/etc/passwd"; "C:\Temp"; "/dev/null"] /\
  map HasRelativeEscape ["a/../b"; ".."; "..\x"; "a..b"; "..."; "..config"] = [true; true; true; false; false; false] /\
  map hasUnextractedWindowsPath ["\\server\share"; "\Windows\System32"; "C:Win\x"; "a\nb\tc"; "src\lib\util"; "C:\Win\x"] =
    [true; true; true; false; false; false].
Proof. vm_compute. done. Qed.

(** ** Strings of an input *)

(** A string value somewhere in a JSON text. *)
Inductive str_in : string -> string -> Prop :=
| si_str raw s : json_decode raw = Some (JStr s) -> str_in raw s
| si_arr raw l x s : json_decode raw = Some (JArr l) -> x ∈ l -> str_in x s -> str_in raw s
| si_obj raw l k x s : json_decode raw = Some (JObj l) -> obj_get k l = Some x -> str_in x s -> str_in raw s.

Lemma elem_last_members l x : x ∈ last_members l <-> exists k, obj_get k l = Some x.
Proof.
  unfold last_members. rewrite list_elem_of_omap. split.
  - intros (k & _ & H). eauto.
  - intros [k H]. exists k. split; [|done]. apply elem_of_remove_dups, list_elem_of_fmap.
    exists (k, x). split; [done|by apply obj_get_elem].
Qed.
Lemma json_strings_iff fuel raw s : (String.length raw < fuel)%nat -> s ∈ json_strings fuel raw <-> str_in raw s.
Proof.
  revert raw. induction fuel as [|fuel IH]; intros raw Hf; [lia|]. cbn [json_strings]. split.
  - destruct (json_decode raw) as [[| | |t|l|l]|] eqn:E; try by intros ?%not_elem_of_nil.
    + rewrite list_elem_of_singleton. intros ->. by apply si_str.
    + intros (x & Hs & Hx)%list_elem_of_bind. pose proof (decode_array_len _ _ _ E Hx).
      eapply si_arr; [done|done|]. apply IH; [lia|done].
    + intros (x & Hs & [k Hk]%elem_last_members)%list_elem_of_bind.
      pose proof (decode_object_len _ _ _ _ E (obj_get_elem _ _ _ Hk)). eapply si_obj; [done|done|].
      apply IH; [lia|done].
  - intros H. inversion H as [? ? E|? l x ? E Hx Hs|? l k x ? E Hk Hs]; subst; rewrite E.
    + by apply list_elem_of_singleton.
    + pose proof (decode_array_len _ _ _ E Hx). apply list_elem_of_bind. exists x. split; [|done]. apply IH; [lia|done].
    + pose proof (decode_object_len _ _ _ _ E (obj_get_elem _ _ _ Hk)). apply list_elem_of_bind. exists x.
      split; [apply IH; [lia|done]|]. apply elem_last_members. eauto.
Qed.
Lemma ExtractJSONStrings_iff raw s : s ∈ ExtractJSONStrings raw <-> str_in raw s.
Proof. apply json_strings_iff. lia. Qed.

(** ** What extraction finds *)

Lemma take_skip_while p s : take_while p s +s+ skip_while p s = s.
Proof. induction s as [|c s IH]; [done|]. simpl. destruct (p c); [exact (f_equal (String c) IH)|done]. Qed.
Lemma take_while_all p s : has_char (fun c => negb (p c)) (take_while p s) = false.
Proof. induction s as [|c s IH]; [done|]. simpl. destruct (p c) eqn:E; [|done]. simpl. by rewrite E. Qed.
Lemma take_while_app p x b :
  has_char (fun c => negb (p c)) x = false -> match b with String c _ => p c = false | "" => True end ->
  take_while p (x +s+ b) = x.
Proof.
  intros Hx Hb. induction x as [|c x IH]; simpl in *.
  - destruct b as [|c b]; [done|]. simpl. by rewrite Hb.
  - apply orb_false_iff in Hx as [Hc Hx]. apply negb_false_iff in Hc. rewrite Hc. f_equal. by apply IH.
Qed.
Lemma has_char_impl p q s : (forall c, p c = true -> q c = true) -> has_char q s = false -> has_char p s = false.
Proof.
  intros H. induction s as [|c s IH]; [done|]. simpl. rewrite !orb_false_iff. intros [H1 H2]. split; [|auto].
  destruct (p c) eqn:E; [|done]. apply H in E. congruence.
Qed.

(** A character no match runs over. *)
Definition word_break (c : ascii) : bool := negb (drive_char c) && negb (Ascii.eqb c ":").
Lemma path_drive c : path_char c = true -> drive_char c = true.
Proof.
  unfold path_char, drive_char, any_slash. rewrite orb_true_iff. intros [-> | ->]; [done|apply orb_true_r].
Qed.
Lemma break_not_drive c : word_break c = true -> drive_char c = false.
Proof. unfold word_break. rewrite andb_true_iff, negb_true_iff. tauto. Qed.
Lemma match_path_spec s tok :
  match_path s = Some tok -> (exists r, s = tok +s+ r) /\ has_char word_break tok = false /\ tok <> "".
Proof.
  assert (Hdrive : forall t, has_char word_break (take_while drive_char t) = false).
  { intros t. eapply has_char_impl, take_while_all. intros c Hc%break_not_drive. simpl. by rewrite Hc. }
  destruct s as [|c s]; [done|]. simpl. destruct (is_slash c) eqn:Ec.
  - destruct (take_while path_char s) as [|d t] eqn:E; [done|]. intros [= <-]. split; [|split; [|done]].
    + exists (skip_while path_char s). change (String c s = String c (String d t +s+ skip_while path_char s)).
      rewrite <- E. by rewrite take_skip_while.
    + rewrite <- E. change (word_break c || has_char word_break (take_while path_char s) = false).
      apply orb_false_iff. split.
      * unfold word_break, drive_char, any_slash. by rewrite Ec, orb_true_r.
      * eapply has_char_impl, take_while_all. intros x Hx%break_not_drive. cbv beta.
        destruct (path_char x) eqn:Ex; [|done]. apply path_drive in Ex. by rewrite Ex in Hx.
  - destruct (is_letter c) eqn:El; [|done]. destruct s as [|d [|e t]]; try done.
    destruct (Ascii.eqb_spec d ":") as [->|]; [|done]. simpl. destruct (any_slash e) eqn:Ee; [|done].
    intros [= <-]. split; [|split; [|done]].
    + exists (skip_while drive_char t).
      change (String c (String ":" (String e t)) = String c (String ":" (String e (take_while drive_char t +s+ skip_while drive_char t)))).
      by rewrite take_skip_while.
    + simpl. rewrite Hdrive. unfold word_break, drive_char, isPathComponentChar. rewrite El, Ee. simpl.
      by rewrite orb_true_r.
Qed.

Fixpoint last_or (prev : option ascii) (s : string) : option ascii :=
  match s with "" => prev | String c r => last_or (Some c) r end.
Definition ends_with (p : ascii -> bool) (s : string) : bool :=
  match last_or None s with Some c => p c | None => false end.
Lemma last_or_cons x y s : s <> "" -> last_or x s = last_or y s.
Proof. destruct s; done. Qed.
Lemma ends_has p s : ends_with p s = true -> has_char p s = true.
Proof.
  unfold ends_with. induction s as [|c s IH]; [done|]. destruct s as [|d s]; [simpl; by intros ->|].
  intros H. cbn [has_char]. apply orb_true_iff. right. apply IH. exact H.
Qed.
Lemma prefix_shorter p tok r a t :
  tok +s+ r = a +s+ t -> has_char p tok = false -> has_char p a = true -> (String.length tok <= String.length a)%nat.
Proof.
  revert a. induction tok as [|c tok IH]; intros [|d a] H Ht Ha; simpl in *; try lia; try done.
  injection H as -> H. apply orb_false_iff in Ht as [Hd Ht]. rewrite Hd in Ha. specialize (IH a H Ht Ha). lia.
Qed.

Lemma find_all_app m a t skip prev :
  (forall s tok, m s = Some tok -> (exists r, s = tok +s+ r) /\ has_char word_break tok = false) ->
  (skip <= String.length a)%nat -> a = "" \/ ends_with word_break a = true ->
  forall x, x ∈ find_all m 0 (last_or prev a) t -> x ∈ find_all m skip prev (a +s+ t).
Proof.
  intros Hm. revert skip prev. induction a as [|c a IH]; intros skip prev Hs Ha x Hx.
  - simpl in Hs. assert (skip = 0%nat) as -> by lia. exact Hx.
  - destruct Ha as [|Ha]; [done|].
    assert (Ha' : a = "" \/ ends_with word_break a = true) by (destruct a; [by left|right; exact Ha]).
    change (String c a +s+ t) with (String c (a +s+ t)). cbn [find_all]. cbn [last_or] in Hx. simpl in Hs.
    destruct skip as [|k]; [|apply IH; [lia|done|done]].
    destruct (m (String c (a +s+ t))) as [tok|] eqn:E; [|apply IH; [lia|done|done]].
    right. apply IH; [|done|done]. apply Hm in E as [[r Hr] Hb].
    pose proof (prefix_shorter word_break tok r (String c a) t (eq_sym Hr) Hb (ends_has _ _ Ha)). simpl in *. lia.
Qed.

(** An absolute path that begins a word and is more than separators is
    extracted. *)
Lemma ExtractPaths_word a x b :
  a = "" \/ ends_with word_break a = true ->
  has_char (fun c => negb (path_char c)) x = false -> has_char (fun c => negb (is_slash c)) x = true ->
  match b with String c _ => path_char c = false | "" => True end ->
  sep +s+ x ∈ ExtractPaths (a +s+ sep +s+ x +s+ b).
Proof.
  intros Ha Hx Hs Hb. unfold ExtractPaths. apply list_elem_of_fmap. exists (last_or None a, sep +s+ x). split; [done|].
  apply elem_of_List_filter. split.
  - apply find_all_app; [|lia|done|].
    + intros s tok (H1 & H2 & _)%match_path_spec. done.
    + assert (Hm : match_path (sep +s+ x +s+ b) = Some (sep +s+ x)).
      { change (sep +s+ x +s+ b) with (String slash (x +s+ b)). cbn [match_path].
        change (is_slash slash) with true. cbv iota. rewrite take_while_app by done. destruct x; [done|reflexivity]. }
      change (sep +s+ x +s+ b) with (String slash (x +s+ b)) in *. cbn [find_all]. rewrite Hm. by left.
  - apply andb_true_iff. split.
    + apply negb_true_iff, andb_false_iff. right. destruct Ha as [->|Ha]; [done|].
      unfold ends_with in Ha. destruct (last_or None a) as [c|]; [|done]. simpl.
      destruct (isPathComponentChar c) eqn:E; [|done]. apply break_not_drive in Ha. unfold drive_char in Ha. by rewrite E in Ha.
    + apply negb_true_iff. assert (Hall : all_chars_are is_slash (sep +s+ x) = false).
      { unfold all_chars_are. apply negb_false_iff. simpl. exact Hs. }
      destruct x as [|c [|d x]]; [done|exact Hall|].
      change (sep +s+ String c (String d x)) with (String slash (String c (String d x))) in *.
      cbn [isPureSeparatorRunToken]. destruct (Ascii.eqb_spec c ":") as [->|]; [|exact Hall].
      exfalso. simpl in Hx. by vm_compute in Hx.
Qed.

(** [..] as a whole component, at either separator. *)
Definition starts_component (b : string) : Prop := match b with "" => True | String c _ => any_slash c = true end.
Definition parent_component (s : string) : Prop :=
  exists a b, s = a +s+ ".." +s+ b /\ (a = "" \/ ends_with any_slash a = true) /\ starts_component b.

Lemma parent_ref_spec s : parent_ref s = true <-> exists b, s = ".." +s+ b /\ starts_component b.
Proof.
  split.
  - destruct s as [|c [|d r]]; [done|each_char c; done|].
    each_char c; try done. each_char d; try done. cbn [parent_ref]. intros H. exists r. split; [done|].
    destruct r; [done|exact H].
  - intros (b & -> & Hb). simpl. destruct b; [done|exact Hb].
Qed.
Lemma parent_ref_in_spec start s :
  parent_ref_in start s = true <->
  exists a b, s = a +s+ ".." +s+ b /\ (a = "" /\ start = true \/ ends_with any_slash a = true) /\ starts_component b.
Proof.
  revert start. induction s as [|c s IH]; intros start.
  - simpl. split; [by rewrite orb_false_r, andb_false_r|]. intros (a & b & H & _). by destruct a.
  - cbn [parent_ref_in]. rewrite orb_true_iff, andb_true_iff, parent_ref_spec, IH. split.
    + intros [[-> (b & Hb & ?)]|(a & b & -> & Ha & Hb)]; [exists "", b; auto|].
      exists (String c a), b. split; [done|]. split; [|done]. right. unfold ends_with.
      destruct Ha as [[-> H]|H]; [exact H|]. by destruct a.
    + intros (a & b & Hs & Ha & Hb). destruct a as [|x a].
      * left. destruct Ha as [[_ ->]|?]; [|done]. split; [done|]. by exists b.
      * right. injection Hs as <- ->. exists a, b. split; [done|]. split; [|done].
        destruct Ha as [[? _]|Ha]; [done|]. destruct a as [|y a]; [by left|by right].
Qed.
Lemma HasRelativeEscape_iff s : HasRelativeEscape s = true <-> parent_component s.
Proof.
  unfold HasRelativeEscape. rewrite parent_ref_in_spec. split; intros (a & b & ? & Ha & ?); exists a, b;
    (split; [done|]); (split; [|done]).
  - destruct Ha as [[-> _]|?]; [by left|by right].
  - destruct Ha as [->|?]; [by left|by right].
Qed.

(** ** What the fast path guarantees *)

(** [IsWithinRoot] for one of the session roots, or the bit bucket. *)
Definition in_scope lstat to_lower (ctx : PathCtx) (p : string) : Prop :=
  IsHarmlessDevicePath (Clean p) = true \/
  exists root, root ∈ SessionRoots ctx /\ isWithinPath lstat to_lower root (Clean p) (px_fold ctx) = Some true.

Lemma all_paths_iff inside input :
  all_paths inside input = true <->
  any_decodes input = true /\
  (forall s, str_in input s -> assessable s = true) /\
  (exists s p, str_in input s /\ p ∈ ExtractPaths s) /\
  (forall s p, str_in input s -> p ∈ ExtractPaths s -> IsHarmlessDevicePath (Clean p) = true \/ inside (Clean p) = true).
Proof.
  unfold all_paths. cbv zeta. rewrite !andb_true_iff, negb_true_iff, bool_decide_eq_false, !forallb_Forall, !Forall_forall. split.
  - intros (Hd & Ha & Hn & Hp). split; [done|]. split; [intros s Hs; by apply Ha, ExtractJSONStrings_iff|]. split.
    + destruct (ExtractJSONStrings input ≫= ExtractPaths) as [|p l] eqn:El; [done|].
      assert (Hin : p ∈ ExtractJSONStrings input ≫= ExtractPaths) by (rewrite El; by left).
      apply list_elem_of_bind in Hin as (s & ? & ?). exists s, p. by rewrite <- ExtractJSONStrings_iff.
    + intros s p Hs Hin. apply orb_true_iff, Hp. apply list_elem_of_bind. exists s. by rewrite ExtractJSONStrings_iff.
  - intros (Hd & Ha & (s0 & p0 & Hs0 & Hp0) & Hp). split; [done|]. split; [intros s Hs; by apply Ha, ExtractJSONStrings_iff|]. split.
    + intros Hn. assert (Hin : p0 ∈ ExtractJSONStrings input ≫= ExtractPaths).
      { apply list_elem_of_bind. exists s0. by rewrite ExtractJSONStrings_iff. }
      rewrite Hn in Hin. by apply not_elem_of_nil in Hin.
    + intros p (s & Hps & Hs%ExtractJSONStrings_iff)%list_elem_of_bind. apply orb_true_iff. by eapply Hp.
Qed.
Lemma fast_path_iff lstat to_lower ctx input :
  AllPathsInSessionRoots lstat to_lower ctx input = true <->
  SessionRoots ctx <> [] /\ all_paths (fun p => pathInAnyRoot lstat to_lower ctx p (SessionRoots ctx)) input = true.
Proof.
  unfold AllPathsInSessionRoots. destruct (bool_decide_reflect (SessionRoots ctx = [])); [|tauto].
  split; [done|]. by intros [? _].
Qed.
Lemma pathInAnyRoot_iff lstat to_lower ctx p roots :
  pathInAnyRoot lstat to_lower ctx p roots = true ->
  exists root, root ∈ roots /\ isWithinPath lstat to_lower root p (px_fold ctx) = Some true.
Proof.
  unfold pathInAnyRoot. rewrite existsb_elem. intros (root & Hr & H). exists root. split; [done|].
  unfold IsWithinRoot in H. destruct (String.eqb root ""); [done|].
  by destruct (isWithinPath _ _ _ _ _) as [[]|].
Qed.

(** C16: an input the fast path approves names at least one path, and no string
    in it - at any depth, the last of equal keys counting - holds a [..]
    component at either separator; every absolute path that begins a word of
    such a string, and is more than a run of slashes, is, cleaned, the bit
    bucket or within a session root. *)
Theorem AllPathsInSessionRoots_sound lstat to_lower ctx input :
  AllPathsInSessionRoots lstat to_lower ctx input = true ->
  (exists s p, str_in input s /\ p ∈ ExtractPaths s) /\
  forall s, str_in input s ->
    ~ parent_component s /\
    forall a x b, s = a +s+ sep +s+ x +s+ b ->
      a = "" \/ ends_with word_break a = true ->
      has_char (fun c => negb (path_char c)) x = false -> has_char (fun c => negb (is_slash c)) x = true ->
      match b with String c _ => path_char c = false | "" => True end ->
      in_scope lstat to_lower ctx (sep +s+ x).
Proof.
  intros [_ (_ & Ha & He & Hp)%all_paths_iff]%fast_path_iff. split; [done|]. intros s Hs. split.
  - rewrite <- HasRelativeEscape_iff. specialize (Ha s Hs). unfold assessable in Ha.
    apply andb_true_iff in Ha as [Ha _]. apply negb_true_iff in Ha. congruence.
  - intros a x b -> Hw Hx Hn Hb. destruct (Hp _ _ Hs (ExtractPaths_word a x b Hw Hx Hn Hb)) as [H|H]; [by left|right].
    by apply pathInAnyRoot_iff.
Qed.

(** ** File tools: src/tools/builtins/paths.go *)

Definition git_internal := "git_internal_path".
Definition outside_session_roots := "outside_session_roots".
Definition unassessable_path := "unassessable_path".

(** [filepath.Rel] and [filepath.Base]. *)
Fixpoint strip_common (a b : list string) : list string * list string :=
  match a, b with
  | x :: a', y :: b' => if String.eqb x y then strip_common a' b' else (a, b)
  | _, _ => (a, b)
  end.
Definition clean_list (p : string) : list string := clean_comps (is_abs p) [] (pieces p).
Definition Rel (base targ : string) : option string :=
  if String.eqb (Clean base) (Clean targ) then Some "."
  else if Bool.eqb (is_abs base) (is_abs targ) then
    let '(b, t) := strip_common (clean_list base) (clean_list targ) in
    match b with
    | ".." :: _ => None
    | _ => Some (join sep (repeat ".." (length b) ++ t))
    end
  else None.
Definition trim_slashes (s : string) : string := String.rev (drop_slashes (String.rev s)).
Fixpoint last_component (s : string) : string :=
  match s with
  | "" => ""
  | String c r => if has_char is_slash r then last_component r else if is_slash c then r else s
  end.
Definition Base (p : string) : string :=
  if String.eqb p "" then "." else
  match last_component (trim_slashes p) with "" => sep | b => b end.

Section builtins.
Variable lstat : bool -> list string -> Stat.
Variable to_lower : string -> string.
Variable cwd : option string.  (** [os.Getwd] *)

Definition resolveWorkspaceRoot (ws : string) : option string :=
  match EvalSymlinks lstat (Clean ws) with
  | inl r => Some r
  | inr ENOENT => Some (Clean ws)
  | inr EOTHER => None
  end.
Definition rawJoin (base rel : string) : string :=
  let trimmed := match trim_slashes base with "" => sep | t => t end in
  if String.eqb rel "" then trimmed else trimmed +s+ sep +s+ rel.

Definition resolvePath (ctx : PathCtx) (path : string) : string :=
  if String.eqb (px_workspace ctx) "" then path
  else
    match resolveWorkspaceRoot (px_workspace ctx) with
    | None => ""
    | Some realWS =>
        if is_abs path then ResolveExistingPrefix lstat path
        else
          let resolved := ResolveExistingPrefix lstat (rawJoin realWS path) in
          if IsWithinRoot lstat to_lower ctx realWS resolved then resolved else ""
    end.

(** [filepath.Split] of a text without trailing slashes, the directory without
    its trailing slashes. *)
Definition resolveKeepFinal (rawAbs : string) : string :=
  let trimmed := trim_slashes rawAbs in
  if String.eqb trimmed "" then ResolveExistingPrefix lstat rawAbs
  else
    let base := last_component trimmed in
    let dir := trim_slashes (take_str (String.length trimmed - String.length base) trimmed) in
    let keep dir :=
      if String.eqb base "." || String.eqb base ".." then ResolveExistingPrefix lstat (rawJoin dir base)
      else Join2 (ResolveExistingPrefix lstat dir) base in
    if String.eqb dir "" then (if is_abs trimmed then keep sep else ResolveExistingPrefix lstat trimmed)
    else keep dir.

Definition resolvePathUnresolved (ctx : PathCtx) (path : string) : string :=
  if String.eqb (px_workspace ctx) "" then path
  else
    match resolveWorkspaceRoot (px_workspace ctx) with
    | None => ""
    | Some realWS =>
        if is_abs path then resolveKeepFinal path
        else
          let resolved := resolveKeepFinal (rawJoin realWS path) in
          if IsWithinRoot lstat to_lower ctx realWS resolved then resolved else ""
    end.

Definition isPathInRootStr (ctx : PathCtx) (absPath root : string) : bool :=
  if String.eqb root "" then false
  else
    match resolveWorkspaceRoot root with
    | None => false
    | Some rootAbs => IsWithinRoot lstat to_lower ctx rootAbs absPath
    end.
Definition isPathInSessionRoots (ctx : PathCtx) (absPath : string) : bool :=
  IsHarmlessDevicePath absPath || existsb (isPathInRootStr ctx absPath) (SessionRoots ctx).

(** [strings.EqualFold] with a name of ASCII letters without k and s. *)
Definition isGitPathComponent (component : string) : bool := String.eqb (fold_ascii component) ".git".
Definition pathContainsGitComponent (path : string) : bool := existsb isGitPathComponent (SplitPathComponents path).
Definition isPathInGitDir (ctx : PathCtx) (absPath : string) : bool :=
  existsb (fun root =>
    if String.eqb root "" then false
    else
      match resolveWorkspaceRoot root with
      | None => false
      | Some realRoot =>
          if negb (IsWithinRoot lstat to_lower ctx realRoot absPath) then false
          else
            match Rel realRoot absPath with
            | None => false
            | Some rel => pathContainsGitComponent rel || pathContainsGitComponent realRoot
            end
      end) (px_workspace ctx :: px_allowed ctx).

(** ** src/tools/builtins/file_judge.go *)

Definition softOutcome (allowed : bool) (reason code : string) : JudgeOutcome :=
  mkOutcome allowed reason JudgeSeveritySoft code.
Definition hardOutcome (allowed : bool) (reason code : string) : JudgeOutcome :=
  mkOutcome allowed reason JudgeSeverityHard code.
Definition formatOutsideRootsError (absPath : string) : string := "path is outside the session roots: " +s+ absPath.
Definition cannot_determine : JudgeOutcome := hardOutcome false "cannot determine target path" unassessable_path.

(** [filepath.Abs] *)
Definition Abs (path : string) : option string :=
  if is_abs path then Some (Clean path)
  else match cwd with Some d => Some (Join2 d path) | None => None end.

(** The path with its links resolved, or those of its directory. *)
Definition judged_path (absPath : string) : string :=
  let absPath := Clean absPath in
  match EvalSymlinks lstat absPath with
  | inl resolved => resolved
  | inr _ =>
      match EvalSymlinks lstat (Dir absPath) with
      | inl resolvedParent => Join2 resolvedParent (Base absPath)
      | inr _ => absPath
      end
  end.
Definition judged_link (absPath : string) : string :=
  let absPath := Clean absPath in
  match EvalSymlinks lstat (Clean (Dir absPath)) with
  | inl resolvedParent => Join2 resolvedParent (Base absPath)
  | inr _ => absPath
  end.

Definition write_outcome (ctx : PathCtx) (absPath : string) : JudgeOutcome :=
  if isPathInGitDir ctx absPath then hardOutcome false ("target path is inside git internals (.git): " +s+ absPath) git_internal
  else if isPathInSessionRoots ctx absPath then softOutcome true "target is within session workspace or temp directory" ""
  else softOutcome false (formatOutsideRootsError absPath) outside_session_roots.
Definition judgeWriteInSessionRoots (ctx : PathCtx) (path : string) : JudgeOutcome :=
  match Abs path with
  | None => cannot_determine
  | Some absPath => write_outcome ctx (judged_path absPath)
  end.
Definition judgeWriteInSessionRootsUnresolved (ctx : PathCtx) (path : string) : JudgeOutcome :=
  match Abs path with
  | None => cannot_determine
  | Some absPath => write_outcome ctx (judged_link absPath)
  end.
Definition judgeReadInSessionRootsForPath (ctx : PathCtx) (resolvedPath : string) : JudgeOutcome :=
  match Abs resolvedPath with
  | None => cannot_determine
  | Some absPath =>
      let absPath := judged_path absPath in
      if isPathInSessionRoots ctx absPath
      then softOutcome true "read-only file operation within session workspace or temp directory" ""
      else softOutcome false (formatOutsideRootsError absPath) outside_session_roots
  end.
Definition judgeReadWithPathDefault (ctx : PathCtx) (input : string) (pathOptional : bool) : JudgeOutcome :=
  match unmarshal_string_field "path" input with
  | None => cannot_determine
  | Some path =>
      if String.eqb path "" then
        if negb pathOptional then cannot_determine
        else if String.eqb (px_workspace ctx) "" then cannot_determine
        else judgeReadInSessionRootsForPath ctx (px_workspace ctx)
      else
        let resolved := resolvePath ctx path in
        if String.eqb resolved "" then softOutcome false "path is outside the session workspace" outside_session_roots
        else judgeReadInSessionRootsForPath ctx resolved
  end.
Definition judgeReadInSessionRoots (ctx : PathCtx) (input : string) : JudgeOutcome := judgeReadWithPathDefault ctx input false.
Definition judgeReadInSessionRootsOptionalPath (ctx : PathCtx) (input : string) : JudgeOutcome :=
  judgeReadWithPathDefault ctx input true.
End builtins.

(** ** The judges of the file tools *)

Lemma elem_add_root roots r x : x ∈ add_root roots r <-> x ∈ roots \/ (x = r /\ r <> "").
Proof.
  unfold add_root. destruct (String.eqb_spec r "") as [->|Hr]; [set_solver|]. simpl.
  destruct (bool_decide_reflect (r ∈ roots)) as [H|H]; [|set_solver]. split; [by left|]. by intros [?|[-> _]].
Qed.
Lemma elem_SessionRoots ctx x :
  x ∈ SessionRoots ctx <-> x <> "" /\ (x = px_workspace ctx \/ x = px_temp ctx \/ x ∈ px_allowed ctx).
Proof.
  unfold SessionRoots.
  assert (H : forall l acc, x ∈ fold_left add_root l acc <-> x ∈ acc \/ (x ∈ l /\ x <> "")).
  { intros l. induction l as [|r l IH]; intros acc; simpl; [set_solver|]. rewrite IH, elem_add_root, elem_of_cons. naive_solver. }
  rewrite H, !elem_add_root, elem_of_nil. naive_solver.
Qed.

Notation root_path := (path_string true).
(** The slashes and the last name of a canonical path. *)
Lemma trim_slashes_slashes l : l <> [] -> Forall (fun c => ordinary c = true) l -> trim_slashes (slashes l) = slashes l.
Proof.
  intros Hne Hl. pose proof (slashes_no_suffix l Hne Hl) as Hn. unfold trim_slashes. unfold has_suffix_sep in Hn.
  assert (Hd : drop_slashes (String.rev (slashes l)) = String.rev (slashes l)).
  { destruct (String.rev (slashes l)) as [|x r]; [done|]. cbn [drop_slashes]. by rewrite Hn. }
  by rewrite Hd, rev_rev.
Qed.
Lemma last_component_after s c : has_char is_slash c = false -> last_component (s +s+ sep +s+ c) = c.
Proof.
  intros Hs. induction s as [|x s IH].
  - change ("" +s+ sep +s+ c) with (String slash c). cbn [last_component]. by rewrite Hs.
  - change (String x s +s+ sep +s+ c) with (String x (s +s+ sep +s+ c)). cbn [last_component].
    rewrite has_char_app. change (has_char is_slash (sep +s+ c)) with true. by rewrite orb_true_r.
Qed.
Lemma slashes_snoc l c : slashes (l ++ [c]) = slashes l +s+ sep +s+ c.
Proof. rewrite slashes_app. cbn [slashes]. by rewrite sapp_nil_r. Qed.
Lemma Base_root l c : Forall (fun c => ordinary c = true) (l ++ [c]) -> Base (root_path (l ++ [c])) = c.
Proof.
  intros Hl. rewrite root_path_slashes by by destruct l. unfold Base. rewrite trim_slashes_slashes by (done || by destruct l).
  destruct (String.eqb_spec (slashes (l ++ [c])) "") as [E|_]; [by destruct l|].
  apply Forall_app in Hl as [Hl Hc]. inversion Hc as [|?? Ho _]; subst. rewrite slashes_snoc, last_component_after by by apply ordinary_slash_free.
  by destruct c.
Qed.

Section judges.
Context (lstat : bool -> list string -> Stat) (to_lower : string -> string) (cwd : option string) (ctx : PathCtx).
(** Every session root is an absolute path that exists, at a place, and letter
    case counts. *)
Context (place : string -> list string).
Context (Hroots : forall root, root ∈ SessionRoots ctx ->
  is_abs root = true /\ eval_comps lstat (Clean root) = inl (true, place root)).
Context (Hfold : px_fold ctx = false).

Lemma root_resolved root :
  root ∈ SessionRoots ctx ->
  resolveWorkspaceRoot lstat root = Some (root_path (place root)) /\ physical lstat (place root).
Proof.
  intros Hr. destruct (Hroots root Hr) as [Ha He]. unfold resolveWorkspaceRoot, EvalSymlinks. rewrite He.
  split; [done|]. by apply (eval_physical _ _ _ _ (Clean_abs _ Ha) He).
Qed.
Lemma within_place root l :
  root ∈ SessionRoots ctx -> settled lstat l ->
  IsWithinRoot lstat to_lower ctx (root_path (place root)) (root_path l) = bool_decide (place root `prefix_of` l).
Proof.
  intros Hr Hl. destruct (root_resolved root Hr) as [_ Hp]. unfold IsWithinRoot. rewrite Hfold.
  change (isWithinPath lstat to_lower (root_path (place root)) (root_path l) false)
    with (IsWithinPath lstat to_lower (root_path (place root)) (root_path l)).
  destruct (String.eqb_spec (root_path (place root)) "") as [E|_]; [done|].
  rewrite (IsWithinPath_located lstat to_lower _ _ (place root) l); [done|apply root_abs|apply root_abs| |by apply settled_located].
  rewrite Clean_root by apply Hp. by apply located_existing, physical_eval.
Qed.

Lemma in_roots_iff l :
  settled lstat l ->
  isPathInSessionRoots lstat to_lower ctx (root_path l) = true <->
  l = ["dev"; "null"] \/ exists root, root ∈ SessionRoots ctx /\ place root `prefix_of` l.
Proof.
  intros Hl. unfold isPathInSessionRoots. rewrite orb_true_iff, existsb_elem.
  match goal with |- ?A \/ ?B <-> ?C \/ ?D => cut ((A <-> C) /\ (B <-> D)); [tauto|split] end.
  - unfold IsHarmlessDevicePath. change (String.eqb (root_path l) "") with false. cbv iota.
    rewrite Clean_root by by eapply settled_ordinary. change "/dev/null" with (root_path ["dev"; "null"]).
    rewrite String.eqb_eq. split; [|by intros ->]. apply root_path_inj; [by eapply settled_ordinary|by repeat constructor].
  - f_equiv. intros root. split; intros [Hr H]; (split; [done|]); unfold isPathInRootStr in *;
      pose proof (proj1 (elem_SessionRoots _ _) Hr) as [Hn _]; rewrite (proj2 (String.eqb_neq _ _) Hn) in *;
      destruct (root_resolved root Hr) as [Hres _]; rewrite Hres in *; rewrite within_place in * by done.
    + by apply bool_decide_eq_true in H.
    + by apply bool_decide_eq_true.
Qed.

(** The relative path and its components. *)
Lemma strip_common_prefix a r : strip_common a (a ++ r) = ([], r).
Proof. induction a as [|x a IH]; [done|]. simpl. by rewrite String.eqb_refl. Qed.
Lemma clean_list_root l : Forall (fun c => ordinary c = true) l -> clean_list (root_path l) = l.
Proof. intros Hl. unfold clean_list. rewrite root_abs. by rewrite pieces_root_path. Qed.
Lemma Rel_root a r :
  Forall (fun c => ordinary c = true) (a ++ r) ->
  Rel (root_path a) (root_path (a ++ r)) = Some (if bool_decide (r = []) then "." else join sep r).
Proof.
  intros Ho. pose proof Ho as [Ha Hr]%Forall_app. unfold Rel. rewrite !Clean_root, !clean_list_root by done.
  destruct (bool_decide_reflect (r = [])) as [->|Hne].
  - rewrite app_nil_r. by rewrite String.eqb_refl.
  - destruct (String.eqb_spec (root_path a) (root_path (a ++ r))) as [E|_].
    { apply root_path_inj in E; [|done|done]. apply (f_equal length) in E. rewrite length_app in E. destruct r; [done|simpl in E; lia]. }
    rewrite !root_abs. simpl. by rewrite strip_common_prefix.
Qed.
Lemma components_join l : Forall (fun c => ordinary c = true) l -> SplitPathComponents (join sep l) = l.
Proof.
  intros Hl. unfold SplitPathComponents. destruct (decide (l = [])) as [->|Hne]; [done|].
  rewrite pieces_join by (done || by apply ordinary_names). clear Hne. induction Hl as [|c l Hc Hl IH]; [done|]. simpl.
  destruct (String.eqb_spec c "") as [->|]; [done|]. simpl. by f_equal.
Qed.
Lemma components_root l : Forall (fun c => ordinary c = true) l -> SplitPathComponents (root_path l) = l.
Proof.
  intros Hl. rewrite <- (components_join l Hl) at 2. unfold SplitPathComponents, path_string.
  change (sep +s+ join sep l) with ("" +s+ sep +s+ join sep l). by rewrite pieces_sep.
Qed.
Definition git_component (l : list string) : Prop := exists c, c ∈ l /\ isGitPathComponent c = true.

Lemma in_git_iff l :
  settled lstat l ->
  isPathInGitDir lstat to_lower ctx (root_path l) = true <->
  git_component l /\
  exists root, root <> "" /\ (root = px_workspace ctx \/ root ∈ px_allowed ctx) /\ place root `prefix_of` l.
Proof.
  intros Hl. unfold isPathInGitDir. rewrite existsb_elem. split.
  - intros (root & Hin & H). destruct (String.eqb_spec root "") as [|Hn]; [done|].
    assert (Hr : root ∈ SessionRoots ctx) by (apply elem_SessionRoots; apply elem_of_cons in Hin; tauto).
    destruct (root_resolved root Hr) as [Hres [Hop _]]. rewrite Hres, within_place in H by done.
    destruct (bool_decide_reflect (place root `prefix_of` l)) as [[r ->]|]; [|done]. cbn [negb] in H.
    pose proof (settled_ordinary _ _ Hl) as Ho. rewrite Rel_root in H by done. apply Forall_app in Ho as [_ Hor].
    split; [|exists root; split; [done|]; split; [by apply elem_of_cons in Hin|by apply prefix_app_r]].
    unfold pathContainsGitComponent in H. rewrite components_root in H by done. apply orb_true_iff in H as [H|H].
    + destruct (bool_decide_reflect (r = [])) as [->|_]; [done|]. rewrite components_join in H by done.
      apply existsb_elem in H as (c & Hc & H). exists c. split; [by apply elem_of_app; right|done].
    + apply existsb_elem in H as (c & Hc & H). exists c. split; [by apply elem_of_app; left|done].
  - intros ((c & Hc & Hg) & root & Hn & Hin & [r ->]). exists root. split; [by apply elem_of_cons|].
    rewrite (proj2 (String.eqb_neq _ _) Hn).
    assert (Hr : root ∈ SessionRoots ctx) by (apply elem_SessionRoots; tauto).
    destruct (root_resolved root Hr) as [-> [Hop _]]. rewrite within_place by done.
    rewrite bool_decide_eq_true_2 by by apply prefix_app_r. cbn [negb].
    pose proof (settled_ordinary _ _ Hl) as Ho. rewrite Rel_root by done. apply Forall_app in Ho as [_ Hor].
    unfold pathContainsGitComponent. rewrite components_root by done. apply orb_true_iff.
    apply elem_of_app in Hc as [Hc|Hc]; [right; apply existsb_elem; eauto|left].
    destruct (bool_decide_reflect (r = [])) as [->|_]; [by apply not_elem_of_nil in Hc|].
    rewrite components_join by done. apply existsb_elem. eauto.
Qed.

(** A settled path is judged as it is. *)
Lemma judged_settled l : settled lstat l -> judged_path lstat (root_path l) = root_path l.
Proof.
  intros Hl. pose proof (settled_ordinary _ _ Hl) as Ho. unfold judged_path, EvalSymlinks. rewrite Clean_root by done.
  destruct Hl as [Hp|(d & c & rest & -> & _ & Hd & Hs)]; [by rewrite physical_eval|].
  rewrite missing_eval by done.
  assert (Hlast : exists x y, d ++ c :: rest = x ++ [y] /\ (rest = [] /\ x = d \/ exists rest', x = d ++ c :: rest')).
  { destruct rest as [|y rest' _] using rev_ind; [exists d, c; auto|]. exists (d ++ c :: rest'), y. split; [by rewrite <- app_assoc|eauto]. }
  destruct Hlast as (x & y & Hxy & Hx). rewrite Hxy in *. rewrite Dir_root, Base_root by done.
  pose proof Ho as [Hox Hoy]%Forall_app. destruct Hx as [[-> ->]|[rest' ->]].
  - rewrite physical_eval by (split; [done|by left]). rewrite Join2_root; [|by inversion Hoy as [|?? Hy _]; destruct y|done].
    f_equal. inversion Hoy as [|?? Hy _]; subst. rewrite pieces_word by by apply ordinary_slash_free.
    by apply clean_comps_ordinary.
  - by rewrite missing_eval.
Qed.
End judges.

(** The judge of the mutating file tools, on a path as resolution returns
    it - existing, without links, or new below an existing directory - in a
    session whose roots exist and that counts letter case: a write is approved
    exactly when the target lies within the place of a session root, or is the
    bit bucket, and is not inside git internals, which is when any of its
    components is .git, in any case, and it lies within the workspace or an
    allowed root.  The git refusal is hard, the refusal for its place soft. *)
Theorem judgeWrite_iff lstat to_lower cwd ctx place l :
  (forall root, root ∈ SessionRoots ctx -> is_abs root = true /\ eval_comps lstat (Clean root) = inl (true, place root)) ->
  px_fold ctx = false -> settled lstat l ->
  let o := judgeWriteInSessionRoots lstat to_lower cwd ctx (path_string true l) in
  let git := git_component l /\
    exists root, root <> "" /\ (root = px_workspace ctx \/ root ∈ px_allowed ctx) /\ place root `prefix_of` l in
  (jo_allow o = true <->
   ~ git /\ (l = ["dev"; "null"] \/ exists root, root ∈ SessionRoots ctx /\ place root `prefix_of` l)) /\
  (jo_severity o = JudgeSeverityHard <-> git).
Proof.
  intros Hroots Hfold Hl o git. unfold o, judgeWriteInSessionRoots, Abs. rewrite root_abs.
  rewrite Clean_root, judged_settled by (done || by eapply settled_ordinary). unfold write_outcome.
  pose proof (in_git_iff lstat to_lower ctx place Hroots Hfold l Hl) as Hg.
  pose proof (in_roots_iff lstat to_lower ctx place Hroots Hfold l Hl) as Hr. fold git in Hg.
  destruct (isPathInGitDir _ _ _ _); [simpl; intuition congruence|].
  destruct (isPathInSessionRoots _ _ _ _); simpl; intuition congruence.
Qed.

(** ** Examples *)

Definition dq_object (k v : string) : string := "{" +s+ q k +s+ ":" +s+ q v +s+ "}".
Local Notation demo_ctx := (mkPathCtx "/ws" "" [] false).
Lemma AllPathsInSessionRoots_sound_witness :
  let input := dq_object "path" "/ws/new" in
  AllPathsInSessionRoots demo_fs (fun s => s) demo_ctx input = true /\
  exists s p, str_in input s /\ p ∈ ExtractPaths s.
Proof.
  assert (H : AllPathsInSessionRoots demo_fs (fun s => s) demo_ctx (dq_object "path" "/ws/new") = true)
    by (vm_compute; reflexivity).
  split; [exact H|]. exact (proj1 (AllPathsInSessionRoots_sound demo_fs (fun s => s) demo_ctx _ H)).
Defined.

Lemma judgeWrite_iff_witness :
  jo_allow (judgeWriteInSessionRoots demo_fs (fun s => s) None demo_ctx "/ws/new") = true /\
  jo_severity (judgeWriteInSessionRoots demo_fs (fun s => s) None demo_ctx "/ws/.GIT/config") = JudgeSeverityHard.
Proof.
  assert (Hroots : forall root, root ∈ SessionRoots demo_ctx ->
    is_abs root = true /\ eval_comps demo_fs (Clean root) = inl (true, ["ws"])).
  { intros root Hr. apply list_elem_of_singleton in Hr as ->. split; vm_compute; reflexivity. }
  assert (Hd : dirs demo_fs ["ws"]).
  { intros [|x a] b Hl Hne; [done|]. injection Hl as <- Hl. destruct a; [reflexivity|done]. }
  split.
  - apply (judgeWrite_iff demo_fs (fun s => s) None demo_ctx (fun _ => ["ws"]) ["ws"; "new"] Hroots eq_refl).
    + right. exists ["ws"], "new", []. split; [done|]. split; [by repeat constructor|]. split; [exact Hd|reflexivity].
    + split; [|right; exists "/ws"; split; [by left|by exists ["new"]]].
      intros [(c & Hc & Hg) _]. apply elem_of_cons in Hc as [->|Hc]; [done|]. by apply list_elem_of_singleton in Hc as ->.
  - apply (judgeWrite_iff demo_fs (fun s => s) None demo_ctx (fun _ => ["ws"]) ["ws"; ".GIT"; "config"] Hroots eq_refl).
    + right. exists ["ws"], ".GIT", ["config"]. split; [done|]. split; [by repeat constructor|]. split; [exact Hd|reflexivity].
    + split; [exists ".GIT"; split; [right; left|reflexivity]|].
      exists "/ws". split; [done|]. split; [by left|by exists [".GIT"; "config"]].
Defined.

(** The tools on links: a relative path through a link out of the workspace is
    refused, [..] behind the link climbs from its target, and a link that is
    deleted is judged by where it points. *)
Example file_tool_examples :
  resolvePath demo_fs (fun s => s) demo_ctx "link/passwd" = "" /\
  resolvePath demo_fs (fun s => s) demo_ctx "link/../ws/f" = "/ws/f" /\
  resolvePath demo_fs (fun s => s) demo_ctx "../etc/passwd" = "" /\
  resolvePathUnresolved demo_fs (fun s => s) demo_ctx "/ws/link" = "/ws/link" /\
  judgeWriteInSessionRootsUnresolved demo_fs (fun s => s) None demo_ctx "/ws/link" =
    mkOutcome false "path is outside the session roots: /ws/link" JudgeSeveritySoft "outside_session_roots" /\
  jo_allow (judgeReadInSessionRoots demo_fs (fun s => s) None demo_ctx (dq_object "path" "f")) = true.
Proof. vm_compute. repeat split. Qed.
