(* ===== verification/Symlink.v ===== *)
(** * The symlink gate: src/tools/symlink.go, src/tools/os_symlinks.go

    Which paths of a tool input are looked at, the walk over their components
    and the partition of the links found by where they lead, on a POSIX host.
    Parameters: the file system ([lstat]), the errors of [os.Lstat] that mean an
    invalid path, links that cannot be read, [strings.ToLower], and the words a
    bash parser finds in a command (mvdan.cc/sh). *)

From Stdlib Require Import ZArith Lia Ascii.
From stdpp Require Import base gmap strings list sorting.
From S2P Require Import Prelude GoStr AgentTypes Fence Json JsonFacts Oneshot Paths Registry PathChecks Judge.
Open Scope sp4rk_scope.

Record SymlinkTraversal := mkTraversal {
  st_OriginalPath : string;
  st_SymlinkAt : string;
  st_ResolvesTo : string;
  st_FullResolved : string;
  st_OutsideWorkspace : bool;
  st_Unresolvable : bool;
}.

(** ** Well-known links *)

Definition wellKnownOSSymlinks : list string :=
  ["/etc"; "/tmp"; "/var"; "/cores"; "/bin"; "/sbin"; "/lib"; "/lib32"; "/lib64"; "/libx32"; "/var/run"; "/var/lock";
   "c:\documents and settings"].

(** ** Path-like strings *)

Definition control_char (c : ascii) : bool := (byte_of c <? 32)%Z || (byte_of c =? 127)%Z.
Definition hasControlChar (s : string) : bool := has_char control_char s.
Definition looksLikeWindowsDriveLetter (s : string) : bool :=
  match s with
  | String c (String d (String e _)) => is_letter c && Ascii.eqb d ":" && (Ascii.eqb e "\" || Ascii.eqb e "/")
  | _ => false
  end.
Definition maxPathCandidateLen : Z := 4096.
Definition unc (s : string) : bool := has_prefix s "\\".

Section text.
Variable to_lower : string -> string.

Definition looksLikePathCore (s : string) : bool :=
  negb (String.eqb s "" || String.eqb s "." || String.eqb s "..") && negb (maxPathCandidateLen <? slen s)%Z &&
  negb (hasControlChar s) &&
  forallb (fun scheme => negb (has_prefix (to_lower s) scheme))
    ["http://"; "https://"; "ftp://"; "ssh://"; "file://"; "git://"].
Definition looksLikePath (s : string) : bool :=
  looksLikePathCore s && (has_char is_slash s || looksLikeWindowsDriveLetter s || unc s).
Definition poshRelativeSep (s : string) : bool :=
  match trim_prefix (trim_prefix s ".") "." with String c _ => Ascii.eqb c "\" || Ascii.eqb c "/" | "" => false end.
Definition poshLooksLikePath (s : string) : bool :=
  looksLikePathCore s && (looksLikeWindowsDriveLetter s || unc s || has_char is_slash s || poshRelativeSep s).

(** [""]: none. *)
Definition resolvePathCandidate (s workspace : string) : string :=
  if String.eqb s "" then "" else if is_abs s then s else if String.eqb workspace "" then "" else Join2 workspace s.
Definition resolvePoshPath (s workingDir workspace : string) : string :=
  if String.eqb s "" then ""
  else if looksLikeWindowsDriveLetter s || unc s || is_abs s then Clean s
  else
    let base := if String.eqb workingDir "" then workspace else workingDir in
    if String.eqb base "" then "" else Clean (Join2 base s).

(** The cleaned paths, each once. *)
Definition add_path (paths : list string) (resolved : string) : list string :=
  if String.eqb resolved "" then paths
  else let cleaned := Clean resolved in if bool_decide (cleaned ∈ paths) then paths else paths ++ [cleaned].
Definition collect_paths (workspace : string) (paths strs : list string) : list string :=
  fold_left (fun paths s => if looksLikePath s then add_path paths (resolvePathCandidate s workspace) else paths) strs paths.

Definition extractAllPathsFromJSON (input workspace : string) : list string :=
  if any_decodes input then collect_paths workspace [] (ExtractJSONStrings input) else [].

(** *** Fields of a schema *)

(** The properties, raw; [None]: the schema does not decode. *)
Definition schema_properties (schema : string) : option (list (string * string)) :=
  match json_decode schema with
  | Some (JObj l) =>
      fold_left (fun acc kv =>
        match acc with
        | None => None
        | Some props =>
            if String.eqb (fold_ascii (fst kv)) "properties" then
              match json_decode (snd kv) with
              | Some (JObj l') => Some (props ++ l')
              | Some JNull => Some []
              | _ => None
              end
            else acc
        end) l (Some [])
  | Some JNull => Some []
  | _ => None
  end.
(** A type that is no string leaves the field as it was. *)
Definition property_type (raw : string) : string :=
  match json_decode raw with
  | Some (JObj l) =>
      fold_left (fun t kv =>
        if String.eqb (fold_ascii (fst kv)) "type" then match json_decode (snd kv) with Some (JStr s) => s | _ => t end else t) l ""
  | _ => ""
  end.
Definition isStringTypedProperty (raw : string) : bool :=
  let t := property_type raw in String.eqb t "" || String.eqb t "string".
Definition pathFieldExactNames : list string :=
  ["path"; "file"; "dir"; "directory"; "filepath"; "filename"; "cwd"; "root"; "working_directory"; "workdir"; "dest"; "destination"].
Definition pathFieldSuffixes : list string := ["_path"; "_dir"; "_directory"; "_file"; "_filepath"; "_root"].
Definition isPathFieldName (name : string) : bool :=
  let lower := to_lower name in
  existsb (String.eqb lower) pathFieldExactNames || existsb (has_suffix lower) pathFieldSuffixes.
Definition isPathFieldProperty (name raw : string) : bool := isStringTypedProperty raw && isPathFieldName name.
Definition named_properties (schema : string) : list (string * string) :=
  match schema_properties schema with
  | Some props => map (fun k => (k, default "" (obj_get k props))) (merge_sort str_le (remove_dups (map fst props)))
  | None => []
  end.
Definition pathFieldNamesFromSchema (schema : string) : list string :=
  if String.eqb schema "" then []
  else map fst (List.filter (fun kv => isPathFieldProperty (fst kv) (snd kv)) (named_properties schema)).
Definition unrecognizedStringFieldNames (schema : string) (recognized : list string) : list string :=
  if String.eqb schema "" then []
  else map fst (List.filter (fun kv => negb (bool_decide (fst kv ∈ recognized)) && isStringTypedProperty (snd kv) &&
                                       negb (isPathFieldName (fst kv))) (named_properties schema)).

(** The fields in the order of their names; the range over the map has any. *)
Definition extractPathsFromFields (input : string) (fields : list string) (workspace : string) : list string :=
  match (if any_decodes input then json_decode input else None) with
  | Some (JObj l) =>
      fold_left (fun paths name =>
        match obj_get name l with
        | Some val => collect_paths workspace paths (ExtractJSONStrings val)
        | None => paths
        end) fields []
  | _ => []
  end.

(** *** Shell commands *)

(** The parts of a shell word; inside double quotes, the literals. *)
Inductive WordPart := Lit (value : string) | SglQuoted (value : string) | DblQuoted (parts : list (option string)) | OtherPart.
Definition part_literal (p : WordPart) : string :=
  match p with
  | Lit v | SglQuoted v => v
  | DblQuoted parts => join "" (omap id parts)
  | OtherPart => ""
  end.
Definition wordLiteral (w : list WordPart) : string := join "" (map part_literal w).
(** The words of a command in the order of the walk, none inside another;
    [None]: it does not parse. *)
Variable bash_words : string -> option (list (list WordPart)).
Definition extractBashPaths (command workingDirectory workspace : string) : list string :=
  fold_left (fun paths w =>
    let lit := wordLiteral w in
    if String.eqb lit "" || negb (looksLikePath lit) then paths
    else
      let resolved := resolvePathCandidate lit workingDirectory in
      add_path paths (if String.eqb resolved "" then resolvePathCandidate lit workspace else resolved))
    (default [] (bash_words command)) [].

Record poshToken := mkToken { pt_content : string; pt_dollarExp : bool }.
Definition poshMetachars (c : ascii) : bool :=
  existsb (Ascii.eqb c) [" "; "009"; "010"; "013"; "012"; "011"; "|"; ";"; "&"; "("; ")"; "{"; "}"]%char.
Inductive posh_mode := Outside | InSingle | InDouble | EscapedOutside | EscapedInDouble | LineComment | BlockComment.
Definition posh_flush (cur : string) (hasContent dollar : bool) : list poshToken :=
  if hasContent || dollar then [mkToken cur dollar] else [].
Fixpoint posh_scan (mode : posh_mode) (cur : string) (hasContent dollar : bool) (s : string) : list poshToken :=
  match s with
  | "" => posh_flush cur hasContent dollar
  | String c r =>
      let cur' := cur +s+ String c "" in
      match mode with
      | InSingle => if Ascii.eqb c "'" then posh_scan Outside cur hasContent dollar r else posh_scan InSingle cur' true dollar r
      | InDouble =>
          if Ascii.eqb c "034" then posh_scan Outside cur true dollar r
          else if Ascii.eqb c "`" then posh_scan EscapedInDouble cur true dollar r
          else posh_scan InDouble cur' true (dollar || Ascii.eqb c "$") r
      | EscapedInDouble => posh_scan InDouble cur' hasContent dollar r
      | EscapedOutside => posh_scan Outside cur' hasContent dollar r
      | LineComment =>
          if Ascii.eqb c "010" then posh_flush cur hasContent dollar ++ posh_scan Outside "" false false r
          else posh_scan LineComment cur hasContent dollar r
      | BlockComment =>
          match r with
          | String d r' =>
              if Ascii.eqb c "#" && Ascii.eqb d ">" then posh_scan Outside cur hasContent dollar r'
              else posh_scan BlockComment cur hasContent dollar r
          | "" => posh_flush cur hasContent dollar
          end
      | Outside =>
          let at_start := negb hasContent && negb dollar in
          match r with
          | String d r' =>
              if Ascii.eqb c "<" && Ascii.eqb d "#" && at_start then posh_scan BlockComment cur hasContent dollar r'
              else if Ascii.eqb c "#" && at_start then posh_scan LineComment cur hasContent dollar r
              else if Ascii.eqb c "'" then posh_scan InSingle cur true dollar r
              else if Ascii.eqb c "034" then posh_scan InDouble cur true dollar r
              else if Ascii.eqb c "`" then posh_scan EscapedOutside cur true dollar r
              else if poshMetachars c then posh_flush cur hasContent dollar ++ posh_scan Outside "" false false r
              else posh_scan Outside cur' true (dollar || Ascii.eqb c "$") r
          | "" =>
              if Ascii.eqb c "#" && at_start then posh_flush cur hasContent dollar
              else if Ascii.eqb c "'" || Ascii.eqb c "034" || Ascii.eqb c "`" then posh_flush cur true dollar
              else if poshMetachars c then posh_flush cur hasContent dollar
              else posh_flush cur' true (dollar || Ascii.eqb c "$")
          end
      end
  end.
Definition poshTokenize (command : string) : list poshToken := posh_scan Outside "" false false command.
Definition extractPoshPaths (command workingDir workspace : string) : list string :=
  fold_left (fun paths tok =>
    if pt_dollarExp tok || String.eqb (pt_content tok) "" || negb (poshLooksLikePath (pt_content tok)) then paths
    else add_path paths (resolvePoshPath (pt_content tok) workingDir workspace)) (poshTokenize command) [].
Definition shell_paths (extract : string -> string -> string -> list string) (input workspace : string) : list string :=
  match unmarshal_strings ["command"; "working_directory"] input with
  | Some [command; wd] =>
      if String.eqb command "" then [] else extract command (if String.eqb wd "" then workspace else wd) workspace
  | _ => []
  end.
Definition extractBashPathsFromInput : string -> string -> list string := shell_paths extractBashPaths.
Definition extractPoshPathsFromInput : string -> string -> list string := shell_paths extractPoshPaths.

Definition normalizeOSSymlinkPath (p : string) : string :=
  let cleaned := Clean p in if looksLikeWindowsDriveLetter cleaned then to_lower cleaned else cleaned.
Definition IsWellKnownOSSymlink (symlinkPath : string) : bool :=
  if String.eqb symlinkPath "" then false else existsb (String.eqb (normalizeOSSymlinkPath symlinkPath)) wellKnownOSSymlinks.
Definition IsOSLevelSymlink (symlinkPath : string) (roots : list string) : bool :=
  IsWellKnownOSSymlink symlinkPath ||
  (let cleaned := Clean symlinkPath in
   if String.eqb cleaned sep || String.eqb cleaned "." then false
   else existsb (fun root => negb (String.eqb root "") && has_prefix (Clean root +s+ sep) (cleaned +s+ sep)) roots).

(** ** The walk *)

Variable lstat : bool -> list string -> Stat.
(** The error of [os.Lstat] of these components is one of an invalid path. *)
Variable invalid_path : list string -> bool.
(** [os.Readlink] fails on this link. *)
Variable unreadable : list string -> bool.
Variable ctx : PathCtx.

(** [os.Lstat] of a path under the root: links in front of the last component
    are followed. *)
Definition os_Lstat (front : list string) (c : string) : Stat :=
  match walk lstat maxLinks true [] front with
  | inl (_, d) => lstat true (d ++ [c])
  | inr ENOENT => SNoent
  | inr EOTHER => SErr
  end.

Definition link_target (front : list string) (target : string) : string :=
  if is_abs target then target else Join2 (path_string true front) target.
Definition full_resolved (front : list string) (target : string) (tail : list string) : string :=
  let full := Join2 (link_target front target) (if bool_decide (tail = []) then "" else Clean (join sep tail)) in
  Clean (match EvalSymlinks lstat full with inl evaled => evaled | inr _ => full end).

Fixpoint walk_parts (absPath workspace : string) (front parts : list string) : list SymlinkTraversal :=
  match parts with
  | [] => []
  | part :: tail =>
      let current := path_string true (front ++ [part]) in
      let unresolved := mkTraversal absPath current "" "" false true in
      match os_Lstat front part with
      | SNoent => []
      | SErr =>
          if invalid_path (front ++ [part]) then []
          else if negb (String.eqb workspace "") && IsWithinRoot lstat to_lower ctx workspace current then [unresolved] else []
      | SDir | SFile => walk_parts absPath workspace (front ++ [part]) tail
      | SLink target =>
          if IsOSLevelSymlink current [workspace] then walk_parts absPath workspace (front ++ [part]) tail
          else if unreadable (front ++ [part]) then [unresolved]
          else mkTraversal absPath current target (full_resolved front target tail) false false ::
               walk_parts absPath workspace (front ++ [part]) tail
      end
  end.
Definition walkSymlinkComponents (absPath workspace : string) : list SymlinkTraversal :=
  if String.eqb absPath "" then [] else walk_parts absPath workspace [] (SplitPathComponents (Clean absPath)).

Definition set_outside (b : bool) (t : SymlinkTraversal) : SymlinkTraversal :=
  mkTraversal (st_OriginalPath t) (st_SymlinkAt t) (st_ResolvesTo t) (st_FullResolved t) b (st_Unresolvable t).
Definition in_some_root (roots : list string) (t : SymlinkTraversal) : bool :=
  existsb (fun root => negb (String.eqb root "") && IsWithinRoot lstat to_lower ctx root (st_FullResolved t)) roots.
Definition checkPathsForSymlinks (paths roots : list string) : list SymlinkTraversal * list SymlinkTraversal :=
  let found := paths ≫= fun p => walkSymlinkComponents p (default "" (head roots)) in
  let is_inside t := negb (st_Unresolvable t) && in_some_root roots t in
  (map (set_outside false) (List.filter is_inside found), map (set_outside true) (List.filter (fun t => negb (is_inside t)) found)).

Definition DetectSymlinksInToolInput (toolName input schema : string) : list SymlinkTraversal * list SymlinkTraversal :=
  let workspace := px_workspace ctx in
  let roots := SessionRoots ctx in
  if String.eqb toolName ToolBashExec then checkPathsForSymlinks (extractBashPathsFromInput input workspace) roots
  else if String.eqb toolName ToolPoshExec then checkPathsForSymlinks (extractPoshPathsFromInput input workspace) roots
  else
    let pathFields := pathFieldNamesFromSchema schema in
    checkPathsForSymlinks
      (if bool_decide (pathFields = []) then extractAllPathsFromJSON input workspace
       else extractPathsFromFields input pathFields workspace) roots.
End text.

(** [FormatSymlinkReasoning] *)
Definition arrow : string := " → ".
Definition traversal_line (where_ : string) (t : SymlinkTraversal) : string :=
  "  " +s+ st_OriginalPath t +s+ nl +s+ "    └─ " +s+
  (if st_Unresolvable t && String.eqb where_ "outside"
   then "component at: " +s+ st_SymlinkAt t +s+ " (could not be resolved — target unknown)"
   else "symlink at: " +s+ st_SymlinkAt t +s+ arrow +s+ st_FullResolved t +s+ " (" +s+ where_ +s+ " workspace)") +s+ nl2.
Definition traversal_lines (where_ : string) (ts : list SymlinkTraversal) : string :=
  join "" (map (traversal_line where_) (take 10 ts)) +s+
  (if (10 <? length ts)%nat then "  ... and " +s+ itoa (Z.of_nat (length ts - 10)) +s+ " more symlink(s)" +s+ nl else "").
Definition FormatSymlinkReasoning (inside outside : list SymlinkTraversal) : string :=
  trim_space (
    (if bool_decide (outside = []) then ""
     else "This tool call traverses symlinks that resolve OUTSIDE the workspace:" +s+ nl2 +s+ traversal_lines "outside" outside) +s+
    (if bool_decide (inside = []) then ""
     else "This tool call traverses symlinks (target is within workspace):" +s+ nl2 +s+ traversal_lines "inside" inside) +s+
    (if negb (bool_decide (outside = []))
     then "The agent will follow the symlink and operate on the actual target outside the workspace." +s+ nl
     else if negb (bool_decide (inside = []))
     then "The agent will follow the symlink and operate on the resolved target within the workspace." +s+ nl else "")).

Example posh_examples :
  map pt_content (poshTokenize "gc 'C:\a b'\c # x:\y") = ["gc"; "C:\a b\c"] /\
  poshTokenize "<# /etc #> ls $env:HOME/x" = [mkToken "ls" false; mkToken "$env:HOME/x" true] /\
  extractPoshPaths (fun s => s) "type .\notes.txt; cat a/b https://x/y" "/w" "/w" = ["/w/.\notes.txt"; "/w/a/b"].
Proof. vm_compute. done. Qed.

(** ** What an empty list of outside links means *)

Section gate.
Context (to_lower : string -> string) (lstat : bool -> list string -> Stat) (invalid_path unreadable : list string -> bool)
  (ctx : PathCtx).
Local Notation walk_to := (walk lstat).

(** The first link on the way. *)
Lemma walk_first_link links d comps e :
  walk_to links true d comps = inl (true, e) -> Forall (fun c => ordinary c = true) comps -> dirs lstat d ->
  e = d ++ comps \/
  exists pre c mid target, comps = pre ++ c :: mid /\ dirs lstat (d ++ pre) /\ lstat true (d ++ pre ++ [c]) = SLink target.
Proof.
  revert d. induction comps as [|c comps IH]; intros d Hw Ho Hd.
  - rewrite walk_nil in Hw. injection Hw as <-. left. by rewrite app_nil_r.
  - inversion Ho as [|?? Hc Ho']; subst. destruct (ordinary_tests c Hc) as [H1 H2]. rewrite walk_cons, H1, H2 in Hw.
    destruct (lstat true (d ++ [c])) as [| |target| |] eqn:Es; try done.
    + destruct (IH _ Hw Ho' (dirs_snoc _ _ _ Hd Es)) as [->|(pre & c' & mid & t & -> & Hp & Hs)].
      * left. by rewrite <- app_assoc.
      * right. exists (c :: pre), c', mid, t. rewrite <- !app_assoc in *. by split_and!.
    + destruct comps; [|done]. injection Hw as <-. by left.
    + right. exists [], c, comps, target. rewrite app_nil_r. by split_and!.
Qed.

(** A target whose [..] are all in front, and whose names are proper. *)
Fixpoint tidy (comps : list string) : bool :=
  match comps with
  | [] => true
  | c :: rest => if String.eqb c "" || String.eqb c "." || String.eqb c ".." then tidy rest else forallb ordinary comps
  end.

Lemma walk_more_links links links' d comps out :
  walk_to links true d comps = inl out -> (links <= links')%nat -> walk_to links' true d comps = inl out.
Proof. intros (n & Hn & H)%walk_resolves Hl. eapply resolves_walk; [exact H|lia]. Qed.

(** Resolving a tidy target from a real directory is resolving the cleaned path
    from the root. *)
Lemma walk_tidy links d comps rest :
  tidy comps = true -> dirs lstat d -> Forall (fun c => ordinary c = true) d ->
  walk_to links true d (comps ++ rest) = walk_to links true [] (clean_comps true d comps ++ rest).
Proof.
  revert d. induction comps as [|c comps IH]; intros d Ht Hd Ho.
  - cbn [clean_comps app]. by rewrite (walk_dirs lstat links [] d rest).
  - cbn [app]. rewrite walk_cons. cbn [clean_comps tidy] in *. destruct (String.eqb c "" || String.eqb c ".") eqn:E1; [by apply IH|].
    destruct (String.eqb_spec c "..") as [->|E2]; cbn [orb] in Ht.
    + destruct (climb_ordinary d Ho) as [k Hk]. rewrite Hk in *. apply IH; [done|by apply dirs_take|by apply Forall_take].
    + apply forallb_Forall in Ht. inversion Ht as [|?? Hc Ht']; subst.
      rewrite clean_comps_ordinary by done. rewrite <- !app_assoc.
      rewrite (walk_dirs lstat links [] d) by done. cbn [app]. rewrite walk_cons.
      destruct (ordinary_tests c Hc) as [H1 H2]. by rewrite H1, H2.
Qed.

Lemma walk_app n d a b e links :
  resolves lstat n true d a (true, e) -> dirs lstat e -> (n <= links)%nat ->
  walk_to links true d (a ++ b) = walk_to (links - n) true e b.
Proof.
  intros H He. revert links. remember (true, e) as out eqn:Eo. remember true as r eqn:Er in H |- * at 1.
  induction H as [rooted dest|n rooted dest c rest out H1 _ IH|n rooted dest rest out _ IH
    |n rooted dest c rest out H1 H2 H3 _ IH|rooted dest c H1 H2 H3|n rooted dest c rest target out H1 H2 H3 _ IH];
    intros links Hn; subst rooted; cbn [app].
  - injection Eo as ->. by rewrite Nat.sub_0_r.
  - rewrite walk_cons, H1. by apply IH.
  - rewrite walk_cons. by apply IH.
  - rewrite walk_cons, H1, (proj2 (String.eqb_neq _ _) H2), H3. by apply IH.
  - injection Eo as <-. exfalso. assert (Hd : dest ++ [c] <> []) by (by destruct dest).
    rewrite (He (dest ++ [c]) [] (eq_sym (app_nil_r _)) Hd) in H3. done.
  - rewrite walk_cons, H1, (proj2 (String.eqb_neq _ _) H2), H3. destruct links as [|links]; [lia|].
    rewrite Nat.sub_succ, app_assoc. rewrite orb_true_r in *. destruct (is_abs target); apply IH; (done || lia).
Qed.

(** What a path leads to: all of it exists, or a prefix resolves to a directory
    in which the next component is missing. *)
Definition leads_to (l place : list string) : Prop :=
  exists k e, walk_to maxLinks true [] (take k l) = inl (true, e) /\ place = e ++ drop k l /\
    (k = length l \/ exists x, l !! k = Some x /\ dirs lstat e /\ lstat true (e ++ [x]) = SNoent).

Lemma missing_leads l k e x j :
  Forall (fun c => ordinary c = true) l -> walk_to maxLinks true [] (take k l) = inl (true, e) -> l !! k = Some x ->
  dirs lstat e -> lstat true (e ++ [x]) = SNoent -> (k < j)%nat ->
  eval_comps lstat (root_path (take j l)) = inr ENOENT.
Proof.
  intros Ho Hw Hx He Hs Hj. rewrite eval_root_path by by apply Forall_take.
  rewrite <- (take_drop k (take j l)), take_take, Nat.min_l by lia.
  apply walk_resolves in Hw as (n & Hn & Hw). rewrite (walk_app _ _ _ _ _ _ Hw He Hn).
  rewrite skipn_firstn_comm, (drop_S _ _ _ Hx).
  destruct (j - k)%nat as [|m] eqn:Em; [lia|]. cbn [take firstn]. rewrite walk_cons.
  assert (Hox : ordinary x = true) by exact (proj1 (Forall_lookup _ _) Ho _ _ Hx).
  destruct (ordinary_tests x Hox) as [H1 H2]. by rewrite H1, H2, Hs.
Qed.
Lemma root_path_tail d l :
  Forall (fun c => ordinary c = true) l ->
  exists rest, root_path (d ++ l) = root_path d +s+ rest /\ forall d', clean_comps true d' (pieces rest) = d' ++ l.
Proof.
  intros Ho. destruct (decide (l = [])) as [->|Hl].
  { exists "". rewrite !app_nil_r, sapp_nil_r. split; [done|]. intros d'. by rewrite app_nil_r. }
  destruct (decide (d = [])) as [->|Hd].
  - exists (join sep l). split; [done|]. intros d'. rewrite pieces_join by (done || by apply ordinary_names).
    by apply clean_comps_ordinary.
  - exists (root_path l). split; [by apply root_path_app|]. intros d'. by apply pieces_root_path.
Qed.
Lemma located_leads l place :
  Forall (fun c => ordinary c = true) l -> leads_to l place -> located lstat (root_path l) place.
Proof.
  intros Ho (k & e & Hw & -> & [->|(x & Hx & He & Hs)]).
  { rewrite take_ge in Hw by done. rewrite drop_ge, app_nil_r by done. apply located_existing. by rewrite eval_root_path. }
  destruct (root_path_tail (take k l) (drop k l)) as (rest & Hr & Hc); [by apply Forall_drop|]. rewrite take_drop in Hr.
  assert (H : forall j, located_from lstat (root_path l) (root_path (take (k + j) l)) (e ++ drop k l)).
  { induction j as [|j IH].
    - rewrite Nat.add_0_r. rewrite <- Hc. eapply loc_here; [exact Hr|]. by rewrite eval_root_path by by apply Forall_take.
    - destruct (decide (length l <= k + j)%nat) as [Hk|Hk].
      { rewrite take_ge in * by lia. exact IH. }
      destruct (lookup_lt_is_Some_2 l (k + j)) as [y Hy]; [lia|].
      eapply loc_up; [eapply (missing_leads l k e x); try done; lia| |exact IH].
      rewrite Nat.add_succ_r, (take_S_r _ _ _ Hy). apply rawParent_root. rewrite <- (take_S_r _ _ _ Hy). by apply Forall_take. }
  specialize (H (length l)). rewrite take_ge in H by lia. exact H.
Qed.

(** *** Where the record of the first link points *)

Definition link_base (pre : list string) (target : string) : list string :=
  clean_comps true (if is_abs target then [] else pre) (pieces target).
Lemma link_base_ordinary pre target :
  Forall (fun c => ordinary c = true) pre -> Forall (fun c => ordinary c = true) (link_base pre target).
Proof. intros H. apply clean_comps_result; [by destruct (is_abs target)|apply pieces_slash_free]. Qed.
Lemma Clean_join tail :
  tail <> [] -> Forall (fun c => ordinary c = true) tail -> Clean (join sep tail) = join sep tail.
Proof.
  intros Hne Ho. unfold Clean. rewrite pieces_join by (done || by apply ordinary_names).
  destruct tail as [|c tail]; [done|]. inversion Ho as [|?? Hc _]; subst.
  assert (Ha : is_abs (join sep (c :: tail)) = false).
  { pose proof (ordinary_slash_free c Hc) as Hf. destruct c as [|a c]; [done|].
    cbn [has_char] in Hf. apply orb_false_iff in Hf as [Hf _]. unfold is_slash in Hf.
    destruct tail; cbn [join]; unfold is_abs; simpl; by rewrite Hf. }
  rewrite Ha, clean_comps_ordinary by done. done.
Qed.
Lemma Join2_clean a b : a <> "" -> is_abs a = true -> Join2 a b = root_path (clean_comps true [] (pieces a ++ pieces b)).
Proof.
  intros Hne Ha. unfold Join2. rewrite (proj2 (String.eqb_neq _ _) Hne). destruct (String.eqb_spec b "") as [->|Hb].
  - unfold Clean. rewrite Ha, clean_comps_app. done.
  - unfold Clean. rewrite pieces_sep. destruct (is_abs_spec _ Ha) as [t ->].
    assert (E : is_abs ((sep +s+ t) +s+ sep +s+ b) = true) by (rewrite sapp_assoc; unfold is_abs; simpl; apply has_prefix_nil).
    by rewrite E.
Qed.
Lemma link_full pre target tail :
  Forall (fun c => ordinary c = true) pre -> Forall (fun c => ordinary c = true) tail ->
  Join2 (link_target pre target) (if bool_decide (tail = []) then "" else Clean (join sep tail)) =
  root_path (link_base pre target ++ tail).
Proof.
  intros Hp Ht.
  assert (Hl : exists s, link_target pre target = s /\ s <> "" /\ is_abs s = true /\ clean_comps true [] (pieces s) = link_base pre target).
  { unfold link_target, link_base. destruct (is_abs target) eqn:Ha.
    - exists target. split; [done|]. split; [by intros ->|done].
    - eexists. split; [reflexivity|]. rewrite Join2_clean by (apply root_abs || done).
      rewrite clean_comps_app, pieces_root_path by done. split; [done|]. split; [apply root_abs|].
      rewrite pieces_root_path; [done|]. apply clean_comps_result; [done|apply pieces_slash_free]. }
  destruct Hl as (s & -> & Hne & Ha & Hc). rewrite Join2_clean, clean_comps_app, Hc by done. f_equal.
  case_bool_decide as E; [subst; by rewrite app_nil_r|].
  rewrite Clean_join, pieces_join, clean_comps_ordinary by (done || by apply ordinary_names). done.
Qed.

(** *** The walk of the gate reaches the first link *)

(** The first link of a path, and what follows it. *)
Definition first_link (l pre : list string) (c target : string) (tail : list string) : Prop :=
  l = pre ++ c :: tail /\ dirs lstat pre /\ lstat true (pre ++ [c]) = SLink target.

Lemma split_root_path l : Forall (fun c => ordinary c = true) l -> SplitPathComponents (root_path l) = l.
Proof.
  intros Ho. unfold SplitPathComponents. unfold path_string. change (sep +s+ join sep l) with ("" +s+ sep +s+ join sep l).
  rewrite pieces_sep. change (pieces "") with [""]. cbn [app List.filter String.eqb negb].
  destruct (decide (l = [])) as [->|Hl]; [done|]. rewrite pieces_join by (done || by apply ordinary_names).
  clear Hl. induction Ho as [|c l Hc _ IH]; [done|]. cbn [List.filter].
  destruct (ordinary_tests c Hc) as [H _]. apply orb_false_iff in H as [-> _]. cbn [negb]. by rewrite IH.
Qed.
Lemma os_Lstat_dirs front c :
  dirs lstat front -> Forall (fun c => ordinary c = true) front -> os_Lstat lstat front c = lstat true (front ++ [c]).
Proof.
  intros Hd Ho. unfold os_Lstat. rewrite <- (app_nil_r front) at 1. by rewrite (walk_dirs lstat _ [] front []), walk_nil.
Qed.
Local Notation walked := (walk_parts to_lower lstat invalid_path unreadable ctx).
Lemma walk_parts_dirs absPath ws front parts rest :
  dirs lstat (front ++ parts) -> Forall (fun c => ordinary c = true) (front ++ parts) ->
  walked absPath ws front (parts ++ rest) = walked absPath ws (front ++ parts) rest.
Proof.
  revert front. induction parts as [|c parts IH]; intros front Hd Ho; [by rewrite app_nil_r|]. cbn [app walk_parts].
  assert (Hc : lstat true (front ++ [c]) = SDir).
  { apply (Hd (front ++ [c]) parts); [by rewrite <- app_assoc|by destruct front]. }
  rewrite os_Lstat_dirs, Hc.
  - rewrite IH; rewrite <- app_assoc; done.
  - intros a b -> Ha. apply (Hd a (b ++ c :: parts)); [by rewrite <- app_assoc|done].
  - by apply Forall_app in Ho as [? _].
Qed.

(** The record of the first link, when it is not one of the operating system. *)
Lemma first_link_record l pre c target tail ws :
  Forall (fun c => ordinary c = true) l -> first_link l pre c target tail ->
  IsOSLevelSymlink to_lower (root_path (pre ++ [c])) [ws] = false ->
  exists t, t ∈ walkSymlinkComponents to_lower lstat invalid_path unreadable ctx (root_path l) ws /\
    (st_Unresolvable t = true \/ st_FullResolved t = full_resolved lstat pre target tail).
Proof.
  intros Ho (-> & Hd & Hs) Hos. unfold walkSymlinkComponents.
  rewrite Clean_root, split_root_path by done. change (String.eqb (root_path (pre ++ c :: tail)) "") with false. cbv iota.
  assert (Hp : Forall (fun c => ordinary c = true) pre) by by apply Forall_app in Ho as [? _].
  rewrite (walk_parts_dirs _ _ [] pre) by done. cbn [app walk_parts]. rewrite os_Lstat_dirs, Hs, Hos by done.
  destruct (unreadable (pre ++ [c])); eexists; (split; [apply elem_of_cons; by left|]); [by left|by right].
Qed.

(** What a link leads to, the path cut at it leads to. *)
Lemma first_link_leads l place :
  Forall (fun c => ordinary c = true) l -> leads_to l place ->
  place = l \/ exists pre c target tail, first_link l pre c target tail /\
    (tidy (pieces target) = true -> leads_to (link_base pre target ++ tail) place).
Proof.
  intros Ho (k & e & Hw & -> & Hk).
  destruct (walk_first_link maxLinks [] (take k l) e Hw) as [->|(pre & c & mid & target & El & Hd & Hs)];
    [by apply Forall_take|by intros [|??] ?|left; apply take_drop|right].
  cbn [app] in Hd, Hs. exists pre, c, target, (mid ++ drop k l). split.
  { split; [|done]. rewrite <- (take_drop k l) at 1. rewrite El. by rewrite <- app_assoc. }
  intros Ht. assert (Hp : Forall (fun c => ordinary c = true) (pre ++ c :: mid)) by (rewrite <- El; by apply Forall_take).
  apply Forall_app in Hp as [Hp Hc]. inversion Hc as [|?? Hc' _]; subst.
  rewrite El, (walk_dirs lstat _ [] pre) in Hw by done. cbn [app] in Hw. rewrite walk_cons in Hw.
  destruct (ordinary_tests c Hc') as [H1 H2]. rewrite H1, H2, Hs in Hw.
  destruct maxLinks as [|links] eqn:Em; [done|].
  assert (Hw' : walk_to links true [] (link_base pre target ++ mid) = inl (true, e)).
  { unfold link_base. destruct (is_abs target); rewrite <- walk_tidy; try done; apply dirs_nil. }
  exists (length (link_base pre target ++ mid)), e.
  rewrite app_assoc, take_app_length, drop_app_length. split_and!; [|done|].
  - rewrite Em. eapply walk_more_links; [exact Hw'|lia].
  - destruct Hk as [Hk|(x & Hx & He & Hn)].
    + left. rewrite drop_ge by lia. by rewrite app_nil_r.
    + right. exists x. split; [|done]. rewrite (lookup_app_r (link_base pre target ++ mid)) by lia.
      rewrite Nat.sub_diag, lookup_drop, Nat.add_0_r. done.
Qed.

Lemma full_resolved_located pre target tail place :
  Forall (fun c => ordinary c = true) pre -> Forall (fun c => ordinary c = true) tail ->
  leads_to (link_base pre target ++ tail) place ->
  is_abs (full_resolved lstat pre target tail) = true /\ located lstat (full_resolved lstat pre target tail) place.
Proof.
  intros Hp Ht Hl. assert (Hf : Forall (fun c => ordinary c = true) (link_base pre target ++ tail)).
  { apply Forall_app. split; [by apply link_base_ordinary|done]. }
  pose proof (located_leads _ _ Hf Hl) as Hloc. unfold full_resolved. rewrite link_full by done. unfold EvalSymlinks.
  destruct (eval_comps lstat (root_path (link_base pre target ++ tail))) as [[r p]|] eqn:He.
  - destruct (eval_physical _ _ _ _ (root_abs _) He) as [-> Hphys].
    rewrite (located_unique _ _ _ _ _ Hloc (located_existing _ _ _ He)).
    rewrite Clean_root by apply Hphys. split; [apply root_abs|]. by apply located_existing, physical_eval.
  - rewrite Clean_root by done. split; [apply root_abs|done].
Qed.
End gate.

(** What the gate says of a place. *)
Lemma in_some_root_located to_lower lstat ctx roots at_ t place :
  px_fold ctx = false ->
  (forall root, root ∈ roots -> root <> "" -> is_abs root = true /\ located lstat (Clean root) (at_ root)) ->
  is_abs (st_FullResolved t) = true -> located lstat (st_FullResolved t) place ->
  in_some_root to_lower lstat ctx roots t = true -> exists root, root ∈ roots /\ root <> "" /\ at_ root `prefix_of` place.
Proof.
  intros Hf Hr Ha Hl (root & Hin & Hw)%existsb_exists. apply list_elem_of_In in Hin. exists root. split; [done|].
  apply andb_true_iff in Hw as [Hne%negb_true_iff Hw]. apply String.eqb_neq in Hne. split; [done|].
  destruct (Hr root Hin Hne) as [Hra Hrl]. unfold IsWithinRoot in Hw. rewrite (proj2 (String.eqb_neq _ _) Hne), Hf in Hw.
  pose proof (IsWithinPath_located lstat to_lower root _ _ _ Hra Ha Hrl Hl) as Hi. unfold IsWithinPath in Hi.
  rewrite Hi in Hw. cbn [default] in Hw. by apply bool_decide_eq_true in Hw.
Qed.

Lemma outside_empty to_lower lstat invalid_path unreadable ctx paths roots p t :
  snd (checkPathsForSymlinks to_lower lstat invalid_path unreadable ctx paths roots) = [] -> p ∈ paths ->
  t ∈ walkSymlinkComponents to_lower lstat invalid_path unreadable ctx p (default "" (head roots)) ->
  st_Unresolvable t = false /\ in_some_root to_lower lstat ctx roots t = true.
Proof.
  unfold checkPathsForSymlinks. cbv zeta. cbn [snd]. intros He%map_eq_nil Hp Ht.
  destruct (negb (st_Unresolvable t) && in_some_root to_lower lstat ctx roots t) eqn:E.
  - apply andb_true_iff in E as [->%negb_true_iff ->]. done.
  - exfalso. assert (Hin : t ∈ (paths ≫= fun p => walkSymlinkComponents to_lower lstat invalid_path unreadable ctx p (default "" (head roots)))).
    { apply list_elem_of_bind. by exists p. }
    apply list_elem_of_In in Hin.
    assert (Hf : In t (List.filter (fun t => negb (negb (st_Unresolvable t) && in_some_root to_lower lstat ctx roots t))
      (paths ≫= fun p => walkSymlinkComponents to_lower lstat invalid_path unreadable ctx p (default "" (head roots))))).
    { apply filter_In. by rewrite E. }
    rewrite He in Hf. destruct Hf.
Qed.

(** The links of the operating system, by their places: twelve directories that
    systems keep as links, and the directories above the workspace. *)
Definition system_links : list (list string) :=
  [["etc"]; ["tmp"]; ["var"]; ["cores"]; ["bin"]; ["sbin"]; ["lib"]; ["lib32"]; ["lib64"]; ["libx32"]; ["var"; "run"]; ["var"; "lock"]].
Definition system_link (workspace : string) (place : list string) : Prop :=
  place ∈ system_links \/ workspace <> "" /\ place `prefix_of` clean_comps true [] (pieces workspace).

Lemma above_workspace place wl :
  Forall (fun c => ordinary c = true) place -> place <> [] -> Forall (fun c => ordinary c = true) wl ->
  has_prefix (root_path wl +s+ sep) (root_path place +s+ sep) = true -> place `prefix_of` wl.
Proof.
  intros Hp Hne Hw. assert (Hslash : exists b, root_path wl +s+ sep = slashes b /\ Forall (fun c => has_char is_slash c = false) b /\
    forall c r, b = place ++ c :: r -> place `prefix_of` wl).
  { destruct (decide (wl = [])) as [->|Hwl].
    - exists [""; ""]. split; [done|]. split; [by repeat constructor|]. intros c r E. destruct place as [|x place]; [done|].
      injection E as <- _. by inversion Hp.
    - exists (wl ++ [""]). rewrite root_path_slashes, slashes_app by done. split; [done|].
      split; [apply Forall_app; split; [by apply ordinary_names|by repeat constructor]|].
      intros c r E. destruct r as [|y r _] using rev_ind.
      + apply app_inj_tail in E as [-> _]. done.
      + rewrite app_comm_cons, app_assoc in E. apply app_inj_tail in E as [-> _]. by eexists. }
  destruct Hslash as (b & -> & Hb & Hpre). rewrite (root_path_slashes place) by done.
  rewrite slashes_prefix by (done || by apply ordinary_names). intros (c & r & E). by eapply Hpre.
Qed.
Lemma os_level_system to_lower ws place :
  (ws <> "" -> is_abs ws = true) -> Forall (fun c => ordinary c = true) place -> place <> [] ->
  IsOSLevelSymlink to_lower (root_path place) [ws] = true -> system_link ws place.
Proof.
  intros Hws Hp Hne. unfold IsOSLevelSymlink. rewrite orb_true_iff. intros [H|H].
  - left. unfold IsWellKnownOSSymlink, normalizeOSSymlinkPath in H. rewrite Clean_root in H by done.
    change (String.eqb (root_path place) "") with false in H. cbv iota in H.
    assert (Hd : looksLikeWindowsDriveLetter (root_path place) = false).
    { unfold path_string, looksLikeWindowsDriveLetter. simpl. by destruct (join sep place) as [|? [|? ?]]. }
    rewrite Hd in H. apply existsb_exists in H as (x & Hin & E%String.eqb_eq). subst x.
    change wellKnownOSSymlinks with (map root_path system_links ++ ["c:\documents and settings"]) in Hin.
    apply in_app_iff in Hin as [(l & E & Hl)%in_map_iff|[[=]|[]]]. apply list_elem_of_In in Hl.
    apply root_path_inj in E as <-; [done| |done].
    assert (Ha : Forall (Forall (fun c => ordinary c = true)) system_links) by by apply (bool_decide_unpack _).
    by apply (proj1 (Forall_forall _ _) Ha).
  - right. rewrite Clean_root in H by done. destruct (_ || _); [done|]. cbn [existsb] in H. rewrite orb_false_r in H.
    apply andb_true_iff in H as [Hn%negb_true_iff%String.eqb_neq H]. split; [done|]. unfold Clean in H. rewrite (Hws Hn) in H.
    apply above_workspace in H; [done..|]. apply clean_comps_result; [done|apply pieces_slash_free].
Qed.

(** C20: an empty list of outside links is a promise about places, on a host
    that tells upper and lower case apart: a path that leads somewhere - it
    exists, or its first missing component is in an existing directory, so that
    the call would create it there - either has no link on the way, or leads
    into one of the session roots.  The first link is the one that counts: the
    rest of the path, further links and all, is resolved behind it.  Left out
    are paths whose first link is one of the system's, by the list of
    [system_links] or above the workspace, and those whose first link has a
    target in which [..] follows a name.  Paths are taken as the gate spells
    them, cleaned (see [dotdot_behind_a_link]); and a path that ends in a link
    to a missing file leads nowhere here, though a write would follow it (see
    [dangling_chain]). *)
Theorem symlink_gate_sound to_lower lstat invalid_path unreadable ctx roots at_ paths l place :
  px_fold ctx = false ->
  (forall root, root ∈ roots -> root <> "" -> is_abs root = true /\ located lstat (Clean root) (at_ root)) ->
  Forall (fun c => ordinary c = true) l -> leads_to lstat l place -> root_path l ∈ paths ->
  (forall pre c target tail, first_link lstat l pre c target tail ->
    ~ system_link (default "" (head roots)) (pre ++ [c]) /\ tidy (pieces target) = true) ->
  snd (checkPathsForSymlinks to_lower lstat invalid_path unreadable ctx paths roots) = [] ->
  place = l \/ exists root, root ∈ roots /\ root <> "" /\ at_ root `prefix_of` place.
Proof.
  intros Hfold Hroots Ho Hl Hp Hfirst Hout.
  destruct (first_link_leads _ _ _ Ho Hl) as [->|(pre & c & target & tail & Hfl & Hlead)]; [by left|right].
  destruct (Hfirst _ _ _ _ Hfl) as [Hsys Ht].
  assert (Hos : IsOSLevelSymlink to_lower (root_path (pre ++ [c])) [default "" (head roots)] = false).
  { apply not_true_iff_false. intros H. apply Hsys. eapply os_level_system; [|  |by destruct pre|exact H].
    - destruct roots as [|root roots]; [done|]. intros Hne. apply (Hroots root); [by left|done].
    - destruct Hfl as (-> & _). apply Forall_app in Ho as [Hpre Hc]. apply Forall_app. split; [done|]. inversion Hc; subst. by constructor. }
  destruct (first_link_record to_lower lstat invalid_path unreadable ctx l _ _ _ _ (default "" (head roots)) Ho Hfl Hos) as (t & Hin & Hres).
  destruct (outside_empty _ _ _ _ _ _ _ _ _ Hout Hp Hin) as [Hu Hroot].
  destruct Hres as [Hres|Hres]; [congruence|]. destruct Hfl as (-> & _). apply Forall_app in Ho as [Hpre Hc].
  inversion Hc as [|?? _ Htail]; subst. destruct (full_resolved_located lstat pre target tail place Hpre Htail (Hlead Ht)) as [Ha Hloc].
  eapply in_some_root_located; [exact Hfold|exact Hroots| | |exact Hroot]; by rewrite Hres.
Qed.

(** ** Examples *)

(** [/ws] with a link to its own [data], one to [/etc], and a dangling link to
    the second. *)
Definition link_fs (rooted : bool) (l : list string) : Stat :=
  if negb rooted then SNoent
  else if bool_decide (l ∈ [["ws"]; ["ws"; "data"]; ["etc"]; ["ws"; "bin"]]) then SDir
  else if bool_decide (l = ["ws"; "cur"]) then SLink "data"
  else if bool_decide (l = ["ws"; "out"]) then SLink "/etc"
  else if bool_decide (l = ["ws"; "one"]) then SLink "/ws/two"
  else if bool_decide (l = ["ws"; "two"]) then SLink "/etc/new"
  else SNoent.
Definition link_ctx : PathCtx := mkPathCtx "/ws" "" [] false.
Definition link_gate (paths : list string) : list SymlinkTraversal * list SymlinkTraversal :=
  checkPathsForSymlinks (fun s => s) link_fs (fun _ => false) (fun _ => false) link_ctx paths (SessionRoots link_ctx).

Example link_gate_examples :
  map (fun ps => (map st_FullResolved (fst (link_gate ps)), map st_FullResolved (snd (link_gate ps))))
    [["/ws/cur/new"]; ["/ws/out/passwd"]; ["/ws/plain"]; ["/ws/out/../cur"]] =
  [(["/ws/data/new"], []); ([], ["/etc/passwd"]); ([], []); (["/ws/data"], [])].
Proof. vm_compute. done. Qed.

(** [..] behind a link is removed from the spelling before the walk: the link is
    not met, although the operating system climbs from its target. *)
Example dotdot_behind_a_link :
  link_gate ["/ws/out/../shadow"] = ([], []) /\
  walk link_fs maxLinks true [] ["ws"; "out"; ".."] = inl (true, []).
Proof. vm_compute. done. Qed.

(** A dangling link to a dangling link: the target of the first, inside the
    workspace, is reported; a write through it lands outside. *)
Example dangling_chain :
  map st_FullResolved (fst (link_gate ["/ws/one"])) = ["/ws/two"] /\ snd (link_gate ["/ws/one"]) = [] /\
  link_fs true ["ws"; "two"] = SLink "/etc/new".
Proof. vm_compute. done. Qed.

Lemma link_fs_leads : leads_to link_fs ["ws"; "cur"; "new"] ["ws"; "data"; "new"].
Proof.
  exists 2%nat, ["ws"; "data"]. split; [by vm_compute|]. split; [done|]. right. exists "new". split; [done|].
  split; [|by vm_compute]. intros a b E Ha. destruct a as [|a1 [|a2 [|a3 a]]]; [done| | |].
  - injection E as <- <-. by vm_compute.
  - injection E as <- <- <-. by vm_compute.
  - injection E as <- <- E. done.
Qed.
Lemma link_fs_first pre c target tail :
  first_link link_fs ["ws"; "cur"; "new"] pre c target tail -> pre = ["ws"] /\ c = "cur" /\ target = "data".
Proof.
  intros (E & Hd & Hs). destruct pre as [|a [|b [|d pre]]].
  - injection E as <- <-. by vm_compute in Hs.
  - injection E as <- <- <-. vm_compute in Hs. injection Hs as <-. done.
  - injection E as <- <- <- <-. specialize (Hd ["ws"; "cur"] [] eq_refl). vm_compute in Hd. by specialize (Hd (fun H => nil_cons (eq_sym H))).
  - injection E as <- <- <- E. by destruct pre.
Qed.
Lemma link_ws_located : located link_fs (Clean "/ws") ["ws"].
Proof. apply located_existing. by vm_compute. Qed.
Lemma symlink_gate_sound_witness :
  (["ws"; "data"; "new"] = ["ws"; "cur"; "new"]) \/
  exists root, root ∈ ["/ws"] /\ root <> "" /\ ["ws"] `prefix_of` ["ws"; "data"; "new"].
Proof.
  apply (symlink_gate_sound (fun s => s) link_fs (fun _ => false) (fun _ => false) link_ctx ["/ws"] (fun _ => ["ws"])
    ["/ws/cur/new"] ["ws"; "cur"; "new"] ["ws"; "data"; "new"]).
  - done.
  - intros root ->%list_elem_of_singleton _. split; [done|exact link_ws_located].
  - repeat constructor.
  - exact link_fs_leads.
  - by left.
  - intros pre c target tail (-> & -> & ->)%link_fs_first. split; [|by vm_compute].
    intros [H|[_ H]]; revert H; by apply (bool_decide_unpack _).
  - by vm_compute.
Defined.

(** A number that no float64 holds makes the decoding fail: no path is looked
    at, and the gate is silent about the link. *)
Example huge_number_hides_links :
  let gate number := DetectSymlinksInToolInput (fun s => s) (fun _ => None) link_fs (fun _ => false) (fun _ => false) link_ctx
    "other" ("{" +s+ q "p" +s+ ":" +s+ q "/ws/out/passwd" +s+ "," +s+ q "n" +s+ ":" +s+ number +s+ "}") "{}" in
  map st_FullResolved (snd (gate "1e99")) = ["/etc/passwd"] /\ gate "1e999" = ([], []).
Proof. vm_compute. done. Qed.
