(* ===== verification/FileSys.v ===== *)
(** * A file system and its system calls

    The tree the file tools act on: places are lists of names below the root,
    paths are walked as the kernel does, by [Paths.walk] over the tree.  A call
    of package os is a step of the state monad [M]; it may fail, by the fault
    the host [Os] has for its number, and leaves the tree it produced in the
    record of trees a crash may find.  Other processes do not touch the tree
    between the calls, and no directory is renamed. *)

From Stdlib Require Import ZArith Lia Ascii.
From stdpp Require Import base gmap strings list.
From S2P Require Import Prelude GoStr Paths PathChecks.
Open Scope sp4rk_scope.

(** ** Trees *)

Inductive node :=
| Regular (perm : Z) (data : string)
| Directory
| Link (target : string)
| Special.  (** a device or a pipe *)
Notation tree := (@gmap (list string) (@list_eq_dec string String.eq_dec) (@list_countable string String.eq_dec String.countable) node).
Definition entry (t : tree) (l : list string) : option node := match l with [] => Some Directory | _ => t !! l end.
Definition under (l k : list string) : Prop := l `prefix_of` k.
#[global] Instance under_dec l k : Decision (under l k) := decide (l `prefix_of` k).
Definition has_child (t : tree) (l : list string) : bool :=
  existsb (fun k => bool_decide (under l k /\ k <> l)) (map fst (map_to_list t)).

Inductive errno := E_NOENT | E_EXIST | E_NOTDIR | E_ISDIR | E_NOTEMPTY | E_INVAL | E_LOOP | E_NXIO
| E_RESOLVE  (** a file in the way, or too many links *)
| E_FAULT (n : Z).
#[global] Instance errno_eq_dec : EqDecision errno := ltac:(solve_decision).

(** The host: the fault of the n-th call with the bytes written before it, the
    directories a failed removal leaves, random numbers, the texts of errors, and
    what is fixed: the umask, the working directory, the links a walk may
    follow, the mode and size of what is not a regular file. *)
Record Os := mkOs {
  fault : nat -> option (Z * nat);
  survives : nat -> list string -> bool;
  rand : nat -> nat;
  strerror : errno -> string;
  umask : Z;
  cwd : list string;
  max_links : nat;
  other_mode : Z;
  other_size : Z;
}.

Inductive io_error :=
| PathError (op path : string) (e : errno)
| LinkError (op old new : string) (e : errno)
| SymlinkError (path : string)
| NotRegularError (path : string)
| TooLargeError (path : string) (limit : Z)
| ErrNotDirectory (path : string)
| OtherError (text : string).
Definition is_not_exist (e : io_error) : bool := match e with PathError _ _ E_NOENT => true | _ => false end.
Definition is_exist (e : io_error) : bool := match e with PathError _ _ E_EXIST => true | _ => false end.

Section sys.
Context (os : Os).

Definition error_text (e : io_error) : string :=
  match e with
  | PathError op path e => op +s+ " " +s+ path +s+ ": " +s+ strerror os e
  | LinkError op old new e => op +s+ " " +s+ old +s+ " " +s+ new +s+ ": " +s+ strerror os e
  | SymlinkError path => path +s+ " is a symlink"
  | NotRegularError path => path +s+ " is not a regular file"
  | TooLargeError path limit => path +s+ " is too large: exceeds the " +s+ itoa limit +s+ " byte read limit"
  | ErrNotDirectory path => "mkdirall " +s+ path +s+ ": not a directory"
  | OtherError text => text
  end.

(** [os.Lstat] as package filepath sees it, on places and on paths relative to
    the working directory. *)
Definition lstat_of (t : tree) (rooted : bool) (l : list string) : Stat :=
  match entry t (if rooted then l else clean_comps true (cwd os) l) with
  | None => SNoent
  | Some Directory => SDir
  | Some (Link target) => SLink target
  | Some _ => SFile
  end.

(** The place of a path, its links followed. *)
Definition start (p : string) : list string := if is_abs p then [] else cwd os.
Definition kernel_walk (t : tree) (from : list string) (p : string) : list string + errno :=
  match walk (lstat_of t) (max_links os) true from (pieces p) with
  | inl (_, l) => inl l
  | inr ENOENT => inr E_NOENT
  | inr EOTHER => inr E_RESOLVE
  end.
Definition resolve (t : tree) (p : string) : list string + errno :=
  if String.eqb p "" then inr E_NOENT else kernel_walk t (start p) p.
(** The directory that holds a path's last name, the name, and whether slashes
    follow it; [Dots]: the path ends in no name. *)
Inductive slot := Slot (d : list string) (name : string) (slashes : bool) | Dots | NoSlot (e : errno).
Definition slot_of (t : tree) (p : string) : slot :=
  let trimmed := trim_slashes p in
  if String.eqb p "" then NoSlot E_NOENT
  else if String.eqb trimmed "" then Dots
  else
    let name := last_component trimmed in
    if String.eqb name "." || String.eqb name ".." then Dots
    else
      match kernel_walk t (start p) (take_str (String.length trimmed - String.length name) trimmed) with
      | inr e => NoSlot e
      | inl d => match entry t d with
                 | Some Directory => Slot d name (negb (String.eqb trimmed p))
                 | _ => NoSlot E_NOTDIR
                 end
      end.

(** ** The state *)

(** The marks of the checker of concurrent edits. *)
Inductive mark := Locked (path : string) | Unlocked (path : string) | Recorded (path : string) | Deleted (path : string).
Record sys := mkSys {
  s_tree : tree;
  s_calls : nat;
  s_past : list tree;  (** the trees after the calls so far, oldest first *)
  s_marks : list mark;
}.
Definition M (A : Type) : Type := sys -> A * sys.
#[global] Instance M_ret : MRet M := fun A a s => (a, s).
#[global] Instance M_bind : MBind M := fun A B f m s => let '(a, s') := m s in f a s'.

(** A call that succeeds as [f], or fails by a fault after [broken]. *)
Definition call {A : Type} (f : nat -> tree -> (A + errno) * tree) (broken : nat -> nat -> tree -> tree) : M (A + errno) := fun s =>
  let k := s_calls s in
  let '(r, t) := match fault os k with
                 | Some (e, n) => (inr (E_FAULT e), broken k n (s_tree s))
                 | None => f k (s_tree s)
                 end in
  (r, mkSys t (S k) (s_past s ++ [t]) (s_marks s)).
Definition unbroken (k n : nat) (t : tree) : tree := t.
(** A call that only looks. *)
Definition look {A : Type} (f : tree -> A + errno) : M (A + errno) := call (fun _ t => (f t, t)) unbroken.
Definition get_tree : M tree := fun s => (s_tree s, s).
Definition put_mark (m : mark) : M unit := fun s => (tt, mkSys (s_tree s) (s_calls s) (s_past s) (s_marks s ++ [m])).
Definition fail_at {A} (op path : string) (m : M (A + errno)) : M (A + io_error) :=
  r ← m; mret (match r with inl a => inl a | inr e => inr (PathError op path e) end).

(** ** Package os *)

Definition stat_at (t : tree) (p : string) : node + errno :=
  match resolve t p with
  | inr e => inr e
  | inl l => match entry t l with Some n => inl n | None => inr E_NOENT end
  end.
Definition lstat_at (t : tree) (p : string) : node + errno :=
  match slot_of t p with
  | NoSlot e => inr e
  | Dots => stat_at t p
  | Slot d c slashes =>
      match entry t (d ++ [c]) with
      | None => inr E_NOENT
      | Some Directory => inl Directory
      | Some (Link target) => if slashes then stat_at t p else inl (Link target)
      | Some n => if slashes then inr E_NOTDIR else inl n
      end
  end.
Definition Stat (p : string) : M (node + io_error) := fail_at "stat" p (look (fun t => stat_at t p)).
Definition Lstat (p : string) : M (node + io_error) := fail_at "lstat" p (look (fun t => lstat_at t p)).
Definition mode_perm (n : node) : Z := match n with Regular perm _ => perm | _ => other_mode os end.
Definition size_of (n : node) : Z := match n with Regular _ data => Z.of_nat (String.length data) | _ => other_size os end.
Definition is_dir_node (n : node) : bool := match n with Directory => true | _ => false end.
Definition is_link (n : node) : bool := match n with Link _ => true | _ => false end.
Definition is_regular (n : node) : bool := match n with Regular _ _ => true | _ => false end.

(** The tree a path is looked up in is the one before the call. *)
Definition eval_symlinks (p : string) : M (string + path_error) := t ← get_tree; mret (EvalSymlinks (lstat_of t) p).

Definition mkdir_at (t : tree) (p : string) : (unit + errno) * tree :=
  match slot_of t p with
  | NoSlot e => (inr e, t)
  | Dots => (inr E_EXIST, t)
  | Slot d c _ =>
      match entry t (d ++ [c]) with
      | Some _ => (inr E_EXIST, t)
      | None => (inl tt, <[d ++ [c] := Directory]> t)
      end
  end.
Definition Mkdir (p : string) (perm : Z) : M (unit + io_error) := fail_at "mkdir" p (call (fun _ t => mkdir_at t p) unbroken).

(** [os.MkdirAll]: the text before the last name, that first. *)
Definition parent_text (p : string) : string :=
  let trimmed := trim_slashes p in take_str (String.length trimmed - String.length (last_component trimmed)) trimmed.
Fixpoint mkdir_all (fuel : nat) (p : string) (perm : Z) : M (unit + io_error) :=
  match fuel with
  | O => mret (inl tt)
  | S fuel =>
      n ← Stat p;
      match n with
      | inl Directory => mret (inl tt)
      | inl _ => mret (inr (PathError "mkdir" p E_NOTDIR))
      | inr _ =>
          r ← (if String.eqb (parent_text p) "" then mret (inl tt) else mkdir_all fuel (parent_text p) perm);
          match r with
          | inr e => mret (inr e)
          | inl _ =>
              r ← Mkdir p perm;
              match r with
              | inl _ => mret (inl tt)
              | inr e => n ← Lstat p; mret (match n with inl Directory => inl tt | _ => inr e end)
              end
          end
      end
  end.
Definition MkdirAll (p : string) (perm : Z) : M (unit + io_error) := mkdir_all (S (String.length p)) p perm.

(** [os.CreateTemp], whose last attempt has the number [rand]; the file is
    known by its name and, being open, by its place. *)
Definition joinPath (dir name : string) : string := if has_suffix_sep dir then dir +s+ name else dir +s+ sep +s+ name.
Definition create_at (t : tree) (p : string) (n : node) : (list string + errno) * tree :=
  match slot_of t p with
  | NoSlot e => (inr e, t)
  | Dots => (inr E_EXIST, t)
  | Slot d c slashes =>
      match entry t (d ++ [c]) with
      | Some _ => (inr E_EXIST, t)
      | None => if slashes then (inr E_ISDIR, t) else (inl (d ++ [c]), <[d ++ [c] := n]> t)
      end
  end.
Definition created (perm : Z) : node := Regular (Z.land perm (Z.lnot (umask os))) "".
Definition CreateTemp (dir prefix suffix : string) : M ((string * list string) + io_error) :=
  if has_char is_slash (prefix +s+ suffix) then mret (inr (OtherError ("createtemp " +s+ prefix +s+ "*" +s+ suffix +s+ ": pattern contains path separator")))
  else
    k ← (fun s => (s_calls s, s) : nat * sys);
    let name := joinPath dir (prefix +s+ itoa (Z.of_nat (rand os k)) +s+ suffix) in
    r ← fail_at "open" name (call (fun _ t => create_at t name (created 384)) unbroken);
    mret (match r with inl l => inl (name, l) | inr e => inr e end).

(** On an open file. *)
Definition appended (data : string) (l : list string) (t : tree) : tree :=
  match entry t l with Some (Regular perm old) => <[l := Regular perm (old +s+ data)]> t | _ => t end.
Definition Write (name : string) (l : list string) (data : string) : M (unit + io_error) :=
  fail_at "write" name (call (fun _ t => (inl tt, appended data l t)) (fun _ n t => appended (take_str n data) l t)).
Definition moded (perm : Z) (l : list string) (t : tree) : tree :=
  match entry t l with Some (Regular _ data) => <[l := Regular perm data]> t | _ => t end.
Definition Chmod (name : string) (l : list string) (perm : Z) : M (unit + io_error) :=
  fail_at "chmod" name (call (fun _ t => (inl tt, moded perm l t)) unbroken).
Definition Sync (name : string) : M (unit + io_error) := fail_at "sync" name (look (fun _ => inl tt)).
Definition Close (name : string) : M (unit + io_error) := fail_at "close" name (look (fun _ => inl tt)).

Definition remove_at (t : tree) (p : string) : (unit + errno) * tree :=
  match slot_of t p with
  | NoSlot e => (inr e, t)
  | Dots => (inr E_INVAL, t)
  | Slot d c slashes =>
      match entry t (d ++ [c]) with
      | None => (inr E_NOENT, t)
      | Some Directory => if has_child t (d ++ [c]) then (inr E_NOTEMPTY, t) else (inl tt, delete (d ++ [c]) t)
      | Some _ => if slashes then (inr E_NOTDIR, t) else (inl tt, delete (d ++ [c]) t)
      end
  end.
Definition Remove (p : string) : M (unit + io_error) := fail_at "remove" p (call (fun _ t => remove_at t p) unbroken).

(** [os.RemoveAll]: entries go children first; what survives keeps the
    directories above it. *)
Definition without (l : list string) (t : tree) : tree := filter (fun kn => ~ under l kn.1) t.
Definition thinned (keep : list string -> bool) (l : list string) (t : tree) : tree :=
  filter (fun kn => ~ under l kn.1 \/ existsb (fun k => bool_decide (under kn.1 k) && keep k) (map fst (map_to_list t)) = true) t.
Definition remove_all_at (k : nat) (t : tree) (p : string) : (unit + errno) * tree :=
  match slot_of t p with
  | NoSlot E_NOENT => (inl tt, t)
  | NoSlot e => (inr e, t)
  | Dots =>
      if String.eqb (last_component (trim_slashes p)) "." then (inr E_INVAL, t)
      else match resolve t p with
           | inl l => (inr E_INVAL, thinned (fun k => bool_decide (k = l)) l t)
           | inr e => (inr e, t)
           end
  | Slot d c _ => (inl tt, without (d ++ [c]) t)
  end.
Definition half_removed (p : string) (k n : nat) (t : tree) : tree :=
  match slot_of t p with Slot d c _ => thinned (survives os k) (d ++ [c]) t | _ => t end.
Definition RemoveAll (p : string) : M (unit + io_error) :=
  if String.eqb p "" then mret (inl tt) else fail_at "unlinkat" p (call (fun k t => remove_all_at k t p) (half_removed p)).

(** [os.Rename] of an entry that is no directory. *)
Definition rename_at (t : tree) (old new : string) : (unit + errno) * tree :=
  match slot_of t old, slot_of t new with
  | Slot d c false, Slot d' c' slashes =>
      match entry t (d ++ [c]) with
      | None => (inr E_NOENT, t)
      | Some Directory => (inr E_INVAL, t)
      | Some n =>
          match entry t (d' ++ [c']) with
          | Some Directory => (inr E_EXIST, t)
          | _ => if slashes then (inr E_NOTDIR, t) else (inl tt, <[d' ++ [c'] := n]> (delete (d ++ [c]) t))
          end
      end
  | NoSlot e, _ => (inr e, t)
  | _, NoSlot e => (inr e, t)
  | _, _ => (inr E_INVAL, t)
  end.
Definition Rename (old new : string) : M (unit + io_error) :=
  r ← call (fun _ t => rename_at t old new) unbroken; mret (match r with inl a => inl a | inr e => inr (LinkError "rename" old new e) end).

End sys.
