(* ===== verification/FileFacts.v ===== *)
(** * The file system: well-formed trees, canonical paths, what calls change

    A tree is well-formed when every entry has a name and lies in a directory;
    every call keeps it so.  On a canonical path - the place of an existing
    directory and a name in it - a call finds the entry of that name, before and
    after other entries change. *)

From Stdlib Require Import ZArith Lia Ascii DecimalString.
From stdpp Require Import base gmap strings list.
From S2P Require Import Prelude GoStr Paths PathChecks FileSys SafeIo.
Open Scope sp4rk_scope.

(** ** Well-formed trees *)

Definition plain_names (l : list string) : Prop := Forall (fun c => ordinary c = true) l.
Definition well_formed (t : tree) : Prop :=
  forall l n, t !! l = Some n -> exists d c, l = d ++ [c] /\ ordinary c = true /\ entry t d = Some Directory.

Lemma entry_snoc t d c : entry t (d ++ [c]) = t !! (d ++ [c]).
Proof. by destruct d. Qed.
Lemma entry_cons t l : l <> [] -> entry t l = t !! l.
Proof. by destruct l. Qed.
Lemma snoc_cancel (d d' : list string) c c' : d ++ [c] = d' ++ [c'] -> d = d' /\ c = c'.
Proof. apply app_inj_tail. Qed.
Lemma snoc_neq (d : list string) c : d ++ [c] <> d.
Proof. intros H. apply (f_equal length) in H. rewrite length_app in H. simpl in H. lia. Qed.
Lemma wf_parent t d c n : well_formed t -> t !! (d ++ [c]) = Some n -> ordinary c = true /\ entry t d = Some Directory.
Proof. intros H (d' & c' & [-> ->]%snoc_cancel & ?)%H. done. Qed.
Lemma wf_place t l n : well_formed t -> entry t l = Some n -> plain_names l /\ (forall a b, l = a ++ b -> b <> [] -> entry t a = Some Directory).
Proof.
  intros Hw. revert n. induction l as [|c l IH] using rev_ind; intros n He.
  { split; [constructor|]. intros a b Hl Hb. symmetry in Hl. by apply app_nil in Hl as [-> ->]. }
  rewrite entry_snoc in He. destruct (wf_parent _ _ _ _ Hw He) as [Hc Hd]. destruct (IH _ Hd) as [Ho Hpre].
  split; [apply Forall_app; by repeat split; repeat constructor|]. intros a b Hl Hb.
  destruct b as [|x b _] using rev_ind; [done|]. rewrite app_assoc in Hl. apply snoc_cancel in Hl as [-> _].
  destruct (decide (b = [])) as [->|Hb']; [by rewrite app_nil_r in Hd|]. by eapply Hpre.
Qed.
Lemma wf_prefix t l n a b : well_formed t -> entry t l = Some n -> l = a ++ b -> b <> [] -> entry t a = Some Directory.
Proof. intros Hw He. apply (wf_place _ _ _ Hw He). Qed.

(** ** Canonical paths *)

Section canonical.
Context (os : Os).

Lemma lstat_rooted t l : lstat_of os t true l = match entry t l with None => SNoent | Some Directory => SDir | Some (Link target) => SLink target | Some _ => SFile end.
Proof. done. Qed.
Lemma dirs_of t d : well_formed t -> entry t d = Some Directory -> dirs (lstat_of os t) d.
Proof.
  intros Hw Hd a b -> Hne. rewrite lstat_rooted. destruct (decide (b = [])) as [->|Hb]; [by rewrite app_nil_r in Hd; rewrite Hd|].
  by rewrite (wf_prefix _ _ _ a b Hw Hd eq_refl Hb).
Qed.
Lemma walk_dir t d k comps :
  well_formed t -> entry t d = Some Directory -> walk (lstat_of os t) k true [] (d ++ comps) = walk (lstat_of os t) k true d comps.
Proof. intros Hw Hd. rewrite walk_dirs; [done|by apply dirs_of|by apply (wf_place _ _ _ Hw Hd)]. Qed.
Lemma walk_stay t k rooted d comps : walk (lstat_of os t) k rooted d ("" :: comps) = walk (lstat_of os t) k rooted d comps.
Proof. by rewrite walk_cons. Qed.
Lemma pieces_slashes l : plain_names l -> pieces (slashes l) = "" :: l.
Proof.
  intros Hl. destruct (decide (l = [])) as [->|Hne]; [done|]. rewrite <- root_path_slashes by done.
  unfold path_string. change (sep +s+ join sep l) with ("" +s+ sep +s+ join sep l). rewrite pieces_sep.
  by rewrite pieces_join by (done || by apply ordinary_names).
Qed.
Lemma take_sapp_end a b : take_str (String.length (a +s+ b) - String.length b) (a +s+ b) = a.
Proof. rewrite length_sapp. rewrite Nat.add_sub. apply take_str_app. Qed.

(** The slot of a canonical path. *)
Lemma slot_canonical t d c :
  well_formed t -> entry t d = Some Directory -> ordinary c = true -> slot_of os t (root_path (d ++ [c])) = Slot d c false.
Proof.
  intros Hw Hd Hc. destruct (wf_place _ _ _ Hw Hd) as [Ho _].
  assert (Hoc : plain_names (d ++ [c])) by (apply Forall_app; by repeat split; repeat constructor).
  unfold slot_of. rewrite root_path_slashes by by destruct d. rewrite trim_slashes_slashes by (done || by destruct d).
  destruct (String.eqb_spec (slashes (d ++ [c])) "") as [E|_]; [by destruct d|].
  rewrite slashes_snoc, last_component_after by by apply ordinary_slash_free.
  destruct (ordinary_tests c Hc) as [H1 H2]. apply orb_false_iff in H1 as [_ H1]. rewrite H1, H2. cbn [orb].
  rewrite <- sapp_assoc, take_sapp_end, sapp_assoc, String.eqb_refl. cbn [negb].
  assert (Ha : is_abs (slashes d +s+ sep +s+ c) = true).
  { rewrite <- slashes_snoc, <- root_path_slashes by by destruct d. apply root_abs. }
  unfold kernel_walk, start. rewrite Ha. change (slashes d +s+ sep) with (slashes d +s+ sep +s+ ""). rewrite pieces_sep, pieces_slashes by done.
  cbn [app]. rewrite walk_stay, (walk_dir t d) by done. change (pieces "") with [""]. rewrite walk_stay, walk_nil. by rewrite Hd.
Qed.
Lemma resolve_dir t d : well_formed t -> entry t d = Some Directory -> resolve os t (root_path d) = inl d.
Proof.
  intros Hw Hd. destruct (wf_place _ _ _ Hw Hd) as [Ho _]. unfold resolve, kernel_walk, start. rewrite root_abs.
  destruct (String.eqb_spec (root_path d) "") as [E|_]; [done|].
  destruct (decide (d = [])) as [->|Hne]; [change (pieces (root_path [])) with ["";""]; by rewrite !walk_stay, walk_nil|].
  rewrite root_path_slashes, pieces_slashes by done. rewrite walk_stay.
  rewrite <- (app_nil_r d) at 1. by rewrite walk_dir, walk_nil by done.
Qed.
Lemma resolve_canonical t d c :
  well_formed t -> entry t d = Some Directory -> ordinary c = true ->
  resolve os t (root_path (d ++ [c])) =
    match entry t (d ++ [c]) with
    | None => inr E_NOENT
    | Some (Link target) => match walk (lstat_of os t) (max_links os) true d [c] with
                            | inl (_, l) => inl l
                            | inr ENOENT => inr E_NOENT
                            | inr EOTHER => inr E_RESOLVE
                            end
    | Some _ => inl (d ++ [c])
    end.
Proof.
  intros Hw Hd Hc. destruct (wf_place _ _ _ Hw Hd) as [Ho _].
  assert (Hoc : plain_names (d ++ [c])) by (apply Forall_app; by repeat split; repeat constructor).
  unfold resolve, kernel_walk, start. rewrite root_abs.
  destruct (String.eqb_spec (root_path (d ++ [c])) "") as [E|_]; [done|].
  rewrite root_path_slashes, pieces_slashes by (done || by destruct d). rewrite walk_stay, walk_dir by done.
  destruct (entry t (d ++ [c])) as [[| | |]|] eqn:E; try done; rewrite walk_cons; destruct (ordinary_tests c Hc) as [-> ->];
    rewrite lstat_rooted, E; [done|by rewrite walk_nil|done|done].
Qed.
Lemma canonical_stat t d c :
  well_formed t -> entry t d = Some Directory -> ordinary c = true ->
  stat_at os t (root_path (d ++ [c])) = match entry t (d ++ [c]) with
    | Some (Link _) => stat_at os t (root_path (d ++ [c])) | Some n => inl n | None => inr E_NOENT end.
Proof.
  intros Hw Hd Hc. unfold stat_at. rewrite resolve_canonical by done. destruct (entry t (d ++ [c])) as [[| | |]|] eqn:E; try done; by rewrite E.
Qed.
(** The place a resolved path names: a directory, or a name in one. *)
Lemma physical_entry t l : physical (lstat_of os t) l -> exists n, entry t l = Some n /\ is_link n = false.
Proof.
  intros [_ [Hd|(d & c & -> & Hd & Hs)]].
  - destruct (decide (l = [])) as [->|Hne]; [by exists Directory|]. specialize (Hd l [] (eq_sym (app_nil_r l)) Hne). rewrite lstat_rooted in Hd.
    destruct (entry t l) as [[| | |]|]; try done. by exists Directory.
  - rewrite lstat_rooted in Hs. destruct (entry t (d ++ [c])) as [[| | |]|]; try done; by eexists.
Qed.
End canonical.

(** ** Changes of a tree *)

Lemma entry_insert t l n : l <> [] -> entry (<[l := n]> t) l = Some n.
Proof. intros H. rewrite entry_cons by done. apply lookup_insert_eq. Qed.
Lemma entry_insert_ne t l k n : k <> l -> entry (<[l := n]> t) k = entry t k.
Proof. intros H. destruct k; [done|]. cbn [entry]. by rewrite lookup_insert_ne. Qed.
Lemma entry_delete_ne t l k : k <> l -> entry (delete l t) k = entry t k.
Proof. intros H. destruct k; [done|]. cbn [entry]. by rewrite lookup_delete_ne. Qed.
Lemma wf_root t : well_formed t -> t !! [] = None.
Proof. intros Hw. destruct (t !! []) as [n|] eqn:E; [|done]. destruct (Hw _ _ E) as (d & c & H & _). by destruct d. Qed.

Lemma wf_insert t d c n :
  well_formed t -> entry t d = Some Directory -> ordinary c = true ->
  (n = Directory \/ entry t (d ++ [c]) <> Some Directory) -> well_formed (<[d ++ [c] := n]> t).
Proof.
  intros Hw Hd Hc Hn l m H. destruct (decide (l = d ++ [c])) as [->|Hl].
  - exists d, c. split; [done|]. split; [done|]. rewrite entry_insert_ne; [done|]. intros E. symmetry in E. by apply snoc_neq in E.
  - rewrite lookup_insert_ne in H by done. destruct (Hw _ _ H) as (d' & c' & -> & Hc' & Hd'). exists d', c'. split; [done|]. split; [done|].
    destruct (decide (d' = d ++ [c])) as [->|Hne]; [|by rewrite entry_insert_ne].
    rewrite entry_insert by by destruct d. destruct Hn as [->|Hn]; [done|]. by rewrite Hd' in Hn.
Qed.
Lemma has_child_spec t l : has_child t l = true <-> exists k n, t !! k = Some n /\ under l k /\ k <> l.
Proof.
  unfold has_child. rewrite existsb_exists. split.
  - intros (k & Hk & H%bool_decide_eq_true). apply in_map_iff in Hk as ([k' n] & <- & Hk). apply list_elem_of_In, elem_of_map_to_list in Hk. by exists k', n.
  - intros (k & n & Hk & H). exists k. split; [|by apply bool_decide_eq_true]. apply in_map_iff. exists (k, n). split; [done|].
    by apply list_elem_of_In, elem_of_map_to_list.
Qed.
Lemma wf_filter t (P : list string * node -> Prop) `{!forall x, Decision (P x)} :
  well_formed t ->
  (forall d c n, t !! (d ++ [c]) = Some n -> P (d ++ [c], n) -> d <> [] -> P (d, Directory)) -> well_formed (filter P t).
Proof.
  intros Hw HP l n Hl. apply map_lookup_filter_Some in Hl as [Hl Hp]. destruct (Hw _ _ Hl) as (d & c & -> & Hc & Hd). exists d, c. split; [done|]. split; [done|].
  destruct d as [|x d]; [done|]. cbn [entry] in *. apply map_lookup_filter_Some. split; [done|]. by eapply HP.
Qed.
Lemma wf_delete t l : well_formed t -> has_child t l = false -> well_formed (delete l t).
Proof.
  intros Hw Hc k n H. apply lookup_delete_Some in H as [Hne H]. destruct (Hw _ _ H) as (d & c & -> & Ho & Hd). exists d, c. split; [done|]. split; [done|].
  rewrite entry_delete_ne; [done|]. intros ->. apply not_true_iff_false in Hc. apply Hc, has_child_spec. exists (l ++ [c]), n.
  split; [done|]. split; [by eexists|]. apply snoc_neq.
Qed.
Lemma no_child t l n : well_formed t -> entry t l = Some n -> n <> Directory -> has_child t l = false.
Proof.
  intros Hw He Hn. apply not_true_iff_false. intros (k & m & Hk & [r ->] & Hne)%has_child_spec.
  assert (Hr : r <> []) by (intros ->; by rewrite app_nil_r in Hne).
  rewrite <- entry_cons in Hk by by destruct l, r. rewrite (wf_prefix _ _ _ l r Hw Hk eq_refl Hr) in He. congruence.
Qed.
Lemma wf_without t l : well_formed t -> well_formed (without l t).
Proof.
  intros Hw. apply wf_filter; [done|]. intros d c n H Hp _. cbn [fst] in *. intros [r ->]. apply Hp. exists (r ++ [c]). by rewrite app_assoc.
Qed.
Lemma wf_thinned t keep l : well_formed t -> well_formed (thinned keep l t).
Proof.
  intros Hw. apply wf_filter; [done|]. intros d c n H Hp _. cbn [fst] in *. destruct Hp as [Hp|Hp].
  - left. intros [r ->]. apply Hp. exists (r ++ [c]). by rewrite app_assoc.
  - right. apply existsb_exists in Hp as (k & Hk & Hp). apply existsb_exists. exists k. split; [done|]. apply andb_true_iff in Hp as [Hp Hkeep].
    rewrite Hkeep, andb_true_r. apply bool_decide_eq_true in Hp. apply bool_decide_eq_true. destruct Hp as [r ->]. exists (c :: r). by rewrite <- app_assoc.
Qed.

(** ** Runs *)

(** A run of [m] from [s] ends in [Q]; every tree on the way satisfies [I]. *)
Definition wp {A : Type} (I : tree -> Prop) (m : M A) (Q : A -> sys -> Prop) (s : sys) : Prop :=
  let '(a, s') := m s in Q a s' /\ exists l, s_past s' = s_past s ++ l /\ Forall I l.

Lemma wp_ret {A : Type} (I : tree -> Prop) (a : A) Q s : Q a s -> wp I (mret a) Q s.
Proof. intros H. split; [done|]. exists []. by rewrite app_nil_r. Qed.
Lemma wp_bind {A B : Type} (I : tree -> Prop) (m : M A) (f : A -> M B) Q s : wp I m (fun a s' => wp I (f a) Q s') s -> wp I (m ≫= f) Q s.
Proof.
  unfold wp, mbind, M_bind. destruct (m s) as [a s1]. intros [H (l & Hl & HI)].
  destruct (f a s1) as [b s2]. destruct H as [HQ (l' & Hl' & HI')]. split; [done|]. exists (l ++ l').
  split; [by rewrite Hl', Hl, app_assoc|]. by apply Forall_app.
Qed.
Lemma wp_mono {A : Type} (I : tree -> Prop) (m : M A) (Q Q' : A -> sys -> Prop) s : wp I m Q s -> (forall a s', Q a s' -> Q' a s') -> wp I m Q' s.
Proof. unfold wp. destruct (m s) as [a s']. intros [H1 H2] H. split; [by apply H|done]. Qed.
Lemma wp_tree (I : tree -> Prop) (Q : tree -> sys -> Prop) s : Q (s_tree s) s -> wp I get_tree Q s.
Proof. intros H. split; [done|]. exists []. by rewrite app_nil_r. Qed.
Lemma wp_calls (I : tree -> Prop) (Q : nat -> sys -> Prop) s : Q (s_calls s) s -> wp I (fun s => (s_calls s, s) : nat * sys) Q s.
Proof. intros H. split; [done|]. exists []. by rewrite app_nil_r. Qed.
Lemma wp_mark (I : tree -> Prop) m (Q : unit -> sys -> Prop) s :
  Q tt (mkSys (s_tree s) (s_calls s) (s_past s) (s_marks s ++ [m])) -> wp I (put_mark m) Q s.
Proof. intros H. split; [done|]. exists []. by rewrite app_nil_r. Qed.
Lemma wp_fail_at {A : Type} (I : tree -> Prop) op p (m : M (A + errno)) (Q : A + io_error -> sys -> Prop) s :
  wp I m (fun r => Q (match r with inl a => inl a | inr e => inr (PathError op p e) end)) s -> wp I (fail_at op p m) Q s.
Proof. intros H. unfold fail_at. apply wp_bind. eapply wp_mono; [exact H|]. intros a s' Ha. by apply wp_ret. Qed.

Section calls.
Context (os : Os).

Definition faulty : Prop := exists k, fault os k <> None.
Definition after (s s' : sys) (t : tree) : Prop := s_tree s' = t /\ s_marks s' = s_marks s.
Lemma wp_call {A : Type} (I : tree -> Prop) f broken (Q : A + errno -> sys -> Prop) s :
  (forall e n s', faulty -> after s s' (broken (s_calls s) n (s_tree s)) -> I (s_tree s') /\ Q (inr (E_FAULT e)) s') ->
  (forall s', after s s' (f (s_calls s) (s_tree s)).2 -> I (s_tree s') /\ Q (f (s_calls s) (s_tree s)).1 s') ->
  wp I (call os f broken) Q s.
Proof.
  intros H1 H2. unfold wp, call. destruct (fault os (s_calls s)) as [[e n]|] eqn:Hf.
  - destruct (H1 e n (mkSys (broken (s_calls s) n (s_tree s)) (S (s_calls s)) (s_past s ++ [broken (s_calls s) n (s_tree s)]) (s_marks s))) as [HI HQ];
      [exists (s_calls s); congruence|done|].
    split; [exact HQ|]. eexists. split; [reflexivity|]. by constructor.
  - destruct (f (s_calls s) (s_tree s)) as [r t]. destruct (H2 (mkSys t (S (s_calls s)) (s_past s ++ [t]) (s_marks s))) as [HI HQ]; [done|].
    split; [exact HQ|]. eexists. split; [reflexivity|]. by constructor.
Qed.
(** A call that looks leaves the tree. *)
Lemma wp_look {A : Type} (I : tree -> Prop) (f : tree -> A + errno) (Q : A + errno -> sys -> Prop) s :
  I (s_tree s) -> (forall e s', faulty -> after s s' (s_tree s) -> Q (inr (E_FAULT e)) s') -> (forall s', after s s' (s_tree s) -> Q (f (s_tree s)) s') ->
  wp I (look os f) Q s.
Proof.
  intros HI H1 H2. apply wp_call.
  - intros e n s' Hf Hs. split; [by rewrite (proj1 Hs)|by apply H1].
  - intros s' Hs. split; [by rewrite (proj1 Hs)|by apply H2].
Qed.
Lemma wp_stat (I : tree -> Prop) p (Q : node + io_error -> sys -> Prop) s :
  I (s_tree s) -> (forall e s', faulty \/ (exists x, stat_at os (s_tree s) p = inr x) -> after s s' (s_tree s) -> Q (inr e) s') ->
  (forall n s', after s s' (s_tree s) -> stat_at os (s_tree s) p = inl n -> Q (inl n) s') -> wp I (Stat os p) Q s.
Proof.
  intros HI H1 H2. apply wp_fail_at, wp_look; [done|intros e s' Hf; apply H1; by left|]. intros s' Hs.
  destruct (stat_at os (s_tree s) p) as [n|e] eqn:E; [by apply H2|apply H1; [right; by eexists|done]].
Qed.
Lemma wp_lstat (I : tree -> Prop) p (Q : node + io_error -> sys -> Prop) s :
  I (s_tree s) -> (forall e s', faulty \/ (exists x, lstat_at os (s_tree s) p = inr x) -> after s s' (s_tree s) -> Q (inr e) s') ->
  (forall n s', after s s' (s_tree s) -> lstat_at os (s_tree s) p = inl n -> Q (inl n) s') -> wp I (Lstat os p) Q s.
Proof.
  intros HI H1 H2. apply wp_fail_at, wp_look; [done|intros e s' Hf; apply H1; by left|]. intros s' Hs.
  destruct (lstat_at os (s_tree s) p) as [n|e] eqn:E; [by apply H2|apply H1; [right; by eexists|done]].
Qed.
Lemma wp_idle (I : tree -> Prop) op p (Q : unit + io_error -> sys -> Prop) s :
  I (s_tree s) -> (forall r s', r = inl tt \/ faulty -> after s s' (s_tree s) -> Q r s') -> wp I (fail_at op p (look os (fun _ => inl tt))) Q s.
Proof. intros HI H. apply wp_fail_at, wp_look; [done|intros e s' Hf; apply H; by right|intros s'; apply H; by left]. Qed.
End calls.

(** ** Temporary files *)

Lemma digits_slash_free u : has_char is_slash (NilEmpty.string_of_uint u) = false.
Proof. by induction u. Qed.
Lemma itoa_slash_free n : has_char is_slash (itoa (Z.of_nat n)) = false.
Proof.
  unfold itoa. destruct (Z.to_int (Z.of_nat n)) as [u|u]; cbn [NilZero.string_of_int NilZero.string_of_uint].
  - destruct u; [done|..]; apply digits_slash_free.
  - destruct u; [done|..]; apply (digits_slash_free _).
Qed.
Lemma ordinary_long c : has_char is_slash c = false -> (3 <= String.length c)%nat -> ordinary c = true.
Proof.
  intros Hs Hl. unfold ordinary. rewrite Hs. destruct c as [|a [|b [|d c]]]; simpl in Hl; try lia.
  cbn [String.eqb]. by destruct (Ascii.eqb a "."), (Ascii.eqb b ".").
Qed.
Lemma joinPath_root d c : plain_names d -> c <> "" -> joinPath (root_path d) c = root_path (d ++ [c]).
Proof.
  intros Hd Hc. unfold joinPath. destruct (decide (d = [])) as [->|Hne]; [done|].
  rewrite root_path_slashes by done. rewrite slashes_no_suffix by done. rewrite root_path_slashes by by destruct d. by rewrite slashes_snoc.
Qed.
Lemma plain_snoc d c : plain_names d -> ordinary c = true -> plain_names (d ++ [c]).
Proof. intros H1 H2. apply Forall_app. by repeat split; repeat constructor. Qed.
Lemma plain_place t d c : well_formed t -> entry t d = Some Directory -> ordinary c = true -> plain_names (d ++ [c]).
Proof. intros Hw Hd Hc. apply plain_snoc; [|done]. by apply (wf_place _ _ _ Hw Hd). Qed.

Section temp.
Context (os : Os).

(** The name a temporary file gets. *)
Definition temp_name (prefix suffix nm : string) : Prop :=
  ordinary nm = true /\ (String.length prefix + String.length suffix < String.length nm)%nat.
Lemma create_temp_name prefix suffix n :
  has_char is_slash (prefix +s+ suffix) = false -> (3 <= String.length prefix)%nat -> temp_name prefix suffix (prefix +s+ itoa (Z.of_nat n) +s+ suffix).
Proof.
  intros Hs Hl. rewrite has_char_app in Hs. apply orb_false_iff in Hs as [H1 H2].
  assert (Hi : (1 <= String.length (itoa (Z.of_nat n)))%nat).
  { unfold itoa. destruct (Z.to_int (Z.of_nat n)) as [u|u]; [|simpl; lia]. destruct u; simpl; lia. }
  split; [|rewrite !length_sapp; lia]. apply ordinary_long; [|rewrite !length_sapp; lia].
  by rewrite !has_char_app, H1, itoa_slash_free, H2.
Qed.
Lemma wp_create_temp (I : tree -> Prop) d prefix suffix (Q : (string * list string) + io_error -> sys -> Prop) s :
  well_formed (s_tree s) -> entry (s_tree s) d = Some Directory ->
  has_char is_slash (prefix +s+ suffix) = false -> (3 <= String.length prefix)%nat ->
  I (s_tree s) ->
  (forall e s', faulty os \/ (exists nm n, temp_name prefix suffix nm /\ s_tree s !! (d ++ [nm]) = Some n) -> after s s' (s_tree s) -> Q (inr e) s') ->
  (forall nm s', temp_name prefix suffix nm -> s_tree s !! (d ++ [nm]) = None ->
     after s s' (<[d ++ [nm] := created os 384]> (s_tree s)) ->
     I (s_tree s') /\ Q (inl (root_path (d ++ [nm]), d ++ [nm])) s') ->
  wp I (CreateTemp os (root_path d) prefix suffix) Q s.
Proof.
  intros Hw Hd Hs Hl HI H1 H2. unfold CreateTemp. rewrite Hs. apply wp_bind, wp_calls, wp_bind. cbv zeta.
  pose proof (create_temp_name prefix suffix (rand os (s_calls s)) Hs Hl) as Hn.
  set (nm := prefix +s+ itoa (Z.of_nat (rand os (s_calls s))) +s+ suffix) in *. clearbody nm.
  assert (Hnm : nm <> "") by (intros ->; destruct Hn as [_ Hn]; simpl in Hn; lia).
  rewrite joinPath_root by (done || by apply (wf_place _ _ _ Hw Hd)). apply wp_fail_at, wp_call.
  - intros e n s' Hf Hs'. split; [by rewrite (proj1 Hs')|]. apply wp_ret, H1; [by left|done].
  - unfold create_at. rewrite slot_canonical by (done || apply Hn). rewrite entry_snoc.
    destruct (s_tree s !! (d ++ [nm])) as [n|] eqn:E; intros s' Hs'.
    + split; [by rewrite (proj1 Hs')|]. apply wp_ret, H1; [right; by exists nm, n|done].
    + destruct (H2 nm s' Hn E Hs') as [HI' HQ]. split; [done|]. by apply wp_ret.
Qed.

(** The calls on a temporary file that [t] does not have. *)
Lemma wp_append_file (I : tree -> Prop) (name : string) (t : tree) (l : list string) perm old data (Q : unit + io_error -> sys -> Prop) s :
  l <> [] -> s_tree s = <[l := Regular perm old]> t ->
  (forall e n s', faulty os -> after s s' (<[l := Regular perm (old +s+ take_str n data)]> t) -> I (s_tree s') /\ Q (inr e) s') ->
  (forall s', after s s' (<[l := Regular perm (old +s+ data)]> t) -> I (s_tree s') /\ Q (inl tt) s') -> wp I (Write os name l data) Q s.
Proof.
  intros Hl Hs H1 H2. apply wp_fail_at, wp_call.
  - intros e n s' Hf Hs'. unfold appended in Hs'. rewrite Hs, entry_insert, insert_insert_eq in Hs' by done. by eapply H1.
  - intros s' Hs'. cbn [snd fst] in *. unfold appended in Hs'. rewrite Hs, entry_insert, insert_insert_eq in Hs' by done. by apply H2.
Qed.
Lemma wp_chmod_file (I : tree -> Prop) (name : string) (t : tree) (l : list string) perm old perm' (Q : unit + io_error -> sys -> Prop) s :
  l <> [] -> s_tree s = <[l := Regular perm old]> t ->
  (forall e s', faulty os -> after s s' (s_tree s) -> I (s_tree s') /\ Q (inr e) s') ->
  (forall s', after s s' (<[l := Regular perm' old]> t) -> I (s_tree s') /\ Q (inl tt) s') -> wp I (Chmod os name l perm') Q s.
Proof.
  intros Hl Hs H1 H2. apply wp_fail_at, wp_call.
  - intros e n s' Hf Hs'. by eapply H1.
  - intros s' Hs'. cbn [snd fst] in *. unfold moded in Hs'. rewrite Hs, entry_insert, insert_insert_eq in Hs' by done. by apply H2.
Qed.
Lemma wp_rename_file (I : tree -> Prop) (t : tree) d nm c n (Q : unit + io_error -> sys -> Prop) s :
  well_formed t -> entry t d = Some Directory -> ordinary nm = true -> ordinary c = true -> nm <> c -> n <> Directory ->
  t !! (d ++ [nm]) = None -> s_tree s = <[d ++ [nm] := n]> t ->
  (forall e s', faulty os \/ entry t (d ++ [c]) = Some Directory -> after s s' (s_tree s) -> I (s_tree s') /\ Q (inr e) s') ->
  (forall s', entry t (d ++ [c]) <> Some Directory -> after s s' (<[d ++ [c] := n]> t) -> I (s_tree s') /\ Q (inl tt) s') ->
  wp I (Rename os (root_path (d ++ [nm])) (root_path (d ++ [c]))) Q s.
Proof.
  intros Hw Hd Hnm Hc Hne Hn Hfresh Hs H1 H2. apply wp_bind, wp_call.
  - intros e k s' Hf Hs'. edestruct H1 as [HI HQ]; [by left|exact Hs'|]. split; [exact HI|]. apply wp_ret, HQ.
  - assert (Hw' : well_formed (<[d ++ [nm] := n]> t)) by (apply wf_insert; try done; right; by rewrite entry_snoc, Hfresh).
    assert (Hd' : entry (<[d ++ [nm] := n]> t) d = Some Directory) by (rewrite entry_insert_ne; [done|intros E; symmetry in E; by apply snoc_neq in E]).
    assert (Hcn : d ++ [c] <> d ++ [nm]) by (intros [_ ->]%snoc_cancel; done).
    unfold rename_at. rewrite Hs, !slot_canonical, entry_insert by (done || by destruct d).
    rewrite entry_insert_ne, delete_insert_id by done.
    destruct n as [perm data| |target|] eqn:En.
    all: try done.
    all: destruct (entry t (d ++ [c])) as [[| | |]|] eqn:E; intros s' Hs'; rewrite <- ?Hs in Hs'; cbn [fst snd] in Hs' |- *.
    all: try (destruct (H1 (LinkError "rename" (root_path (d ++ [nm])) (root_path (d ++ [c])) E_EXIST) s' (or_intror eq_refl) Hs') as [HI HQ]; split; [exact HI|apply wp_ret, HQ]).
    all: destruct (H2 s') as [HI HQ]; [congruence|exact Hs'|split; [exact HI|apply wp_ret, HQ]].
Qed.
(** Removing a name that holds a file, or nothing. *)
Lemma wp_remove_file (I : tree -> Prop) d nm (Q : unit + io_error -> sys -> Prop) s :
  well_formed (s_tree s) -> entry (s_tree s) d = Some Directory -> ordinary nm = true -> entry (s_tree s) (d ++ [nm]) <> Some Directory ->
  (forall e s', faulty os \/ s_tree s !! (d ++ [nm]) = None -> after s s' (s_tree s) -> I (s_tree s') /\ Q (inr e) s') ->
  (forall n s', s_tree s !! (d ++ [nm]) = Some n -> after s s' (delete (d ++ [nm]) (s_tree s)) -> I (s_tree s') /\ Q (inl tt) s') ->
  wp I (Remove os (root_path (d ++ [nm]))) Q s.
Proof.
  intros Hw Hd Hnm Hn H1 H2. apply wp_fail_at, wp_call; [intros e n s' Hf Hs'; eapply H1; [by left|done]|].
  unfold remove_at. rewrite slot_canonical by done. rewrite entry_snoc in *.
  destruct (s_tree s !! (d ++ [nm])) as [[| | |]|] eqn:E; intros s' Hs'; try done; first [by eapply H2|eapply H1; [by right|done]].
Qed.
End temp.

(** ** Replacing a file *)

Section replacing.
Context (os : Os).

(** The tree, perhaps with one temporary file beside [c] in [d]. *)
Definition left_over (t : tree) (d : list string) (c : string) (t' : tree) : Prop :=
  t' = t \/ exists nm, ordinary nm = true /\ nm <> c /\ t !! (d ++ [nm]) = None /\ delete (d ++ [nm]) t' = t.
(** What is there while a file is replaced: the old entry of [c] or the whole new one. *)
Definition moment (t : tree) (d : list string) (c data : string) (t' : tree) : Prop :=
  left_over t d c t' \/ exists perm, t' = <[d ++ [c] := Regular perm data]> t.
Lemma moment_old t d c data : moment t d c data t.
Proof. left. by left. Qed.
Lemma left_over_insert t d c nm n :
  ordinary nm = true -> nm <> c -> t !! (d ++ [nm]) = None -> left_over t d c (<[d ++ [nm] := n]> t).
Proof. intros H1 H2 H3. right. exists nm. split_and!; [done..|]. by apply delete_insert_id. Qed.
Lemma temp_neq prefix suffix nm c : (String.length c <= String.length prefix)%nat -> temp_name prefix suffix nm -> nm <> c.
Proof. intros Hl [_ H] ->. lia. Qed.

(** The removal of the temporary file after a failure. *)
Lemma wp_cleanup {A : Type} (t : tree) d c nm n data (r : A) (Q : A -> sys -> Prop) s :
  well_formed t -> entry t d = Some Directory -> ordinary nm = true -> nm <> c -> t !! (d ++ [nm]) = None -> n <> Directory ->
  s_tree s = <[d ++ [nm] := n]> t ->
  (forall s', left_over t d c (s_tree s') -> faulty os \/ s_tree s' = t -> s_marks s' = s_marks s -> Q r s') ->
  wp (moment t d c data) (_ ← Remove os (root_path (d ++ [nm])); mret r) Q s.
Proof.
  intros Hw Hd Hnm Hne Hfresh Hn Hs HQ. assert (Hc : s_tree s !! (d ++ [nm]) = Some n) by (rewrite Hs; apply lookup_insert_eq).
  apply wp_bind, (wp_remove_file os _ d nm).
  - rewrite Hs. apply wf_insert; [done..|]. right. by rewrite entry_snoc, Hfresh.
  - rewrite Hs, entry_insert_ne; [done|]. intros E. symmetry in E. by apply snoc_neq in E.
  - done.
  - rewrite Hs, entry_insert by by destruct d. congruence.
  - intros e s' Hf [Ht Hm]. assert (Hl : left_over t d c (s_tree s')) by (rewrite Ht, Hs; by apply left_over_insert).
    split; [by left|]. apply wp_ret, HQ; [done|left; destruct Hf; [done|congruence]|done].
  - intros m s' _ [Ht Hm]. rewrite Hs, delete_insert_id in Ht by done. split; [rewrite Ht; apply moment_old|].
    apply wp_ret, HQ; [by left|by right|done].
Qed.

(** The reasons for which the replacement of [c] in [d] fails. *)
Definition obstructed (t : tree) (d : list string) (c prefix suffix : string) : Prop :=
  faulty os \/ (exists nm n, temp_name prefix suffix nm /\ t !! (d ++ [nm]) = Some n) \/ entry t (d ++ [c]) = Some Directory.
Definition failed (t : tree) (d : list string) (c prefix suffix : string) (t' : tree) : Prop :=
  left_over t d c t' /\ (faulty os \/ t' = t) /\ obstructed t d c prefix suffix.
End replacing.

(** After a failure: the removal, and what is left. *)
Ltac give_in Ht :=
  eapply wp_cleanup; [eassumption|eassumption|eassumption|eassumption|eassumption| |exact Ht|
    intros ? ? ? ?; split; [congruence|split_and!; [done|done|unfold obstructed; tauto]]]; done.
Ltac on_the_way Ht := rewrite Ht; left; apply left_over_insert; done.
Lemma wp_WriteFileAtomic os (t : tree) d c data perm s :
  well_formed t -> entry t d = Some Directory -> ordinary c = true -> s_tree s = t ->
  wp (moment t d c data) (WriteFileAtomic os (root_path (d ++ [c])) data perm) (fun r s' => s_marks s' = s_marks s /\
    match r with
    | inl _ => s_tree s' = <[d ++ [c] := Regular perm data]> t
    | inr _ => failed os t d c (c +s+ ".tmp") "" (s_tree s')
    end) s.
Proof.
  intros Hw Hd Hc Hs. pose proof (plain_place t d c Hw Hd Hc) as Ho. unfold WriteFileAtomic. rewrite Dir_root, Base_root by done.
  pose proof (ordinary_slash_free c Hc) as Hsf. apply wp_bind. apply wp_create_temp; rewrite ?Hs; try done.
  { rewrite sapp_nil_r, has_char_app, Hsf. done. }
  { rewrite length_sapp. destruct c; [done|]. simpl. lia. }
  { apply moment_old. }
  { intros e s1 Hf [H1 H2]. apply wp_ret. split; [done|]. split_and!; [by left|by right|unfold obstructed; tauto]. }
  intros nm s1 Hnm Hfresh [Ht1 Hm1]. assert (Hne : nm <> c).
  { eapply temp_neq; [|exact Hnm]. rewrite length_sapp. lia. }
  destruct Hnm as [Hnm _]. split; [on_the_way Ht1|]. unfold writeAndSync. apply wp_bind, wp_bind. unfold created in Ht1.
  eapply wp_chmod_file; [by destruct d|exact Ht1| |].
  { intros e s2 Hf [Ht2 Hm2]. rewrite Ht1 in Ht2. split; [on_the_way Ht2|]. apply wp_ret, wp_bind, wp_idle; [on_the_way Ht2|].
    intros r s3 _ [Ht3 Hm3]. rewrite Ht2 in Ht3. give_in Ht3. }
  intros s2 [Ht2 Hm2]. split; [on_the_way Ht2|]. apply wp_bind. eapply wp_append_file; [by destruct d|exact Ht2| |].
  { intros e n s3 Hf [Ht3 Hm3]. split; [on_the_way Ht3|]. apply wp_ret, wp_bind, wp_idle; [on_the_way Ht3|].
    intros r s4 _ [Ht4 Hm4]. rewrite Ht3 in Ht4. give_in Ht4. }
  intros s3 [Ht3 Hm3]. change ("" +s+ data) with data in Ht3. split; [on_the_way Ht3|]. apply wp_idle; [on_the_way Ht3|].
  intros r s4 Hf [Ht4 Hm4]. rewrite Ht3 in Ht4. destruct r as [u|e].
  2: { destruct Hf as [?|Hf]; [done|]. apply wp_bind, wp_idle; [on_the_way Ht4|]. intros r s5 _ [Ht5 Hm5]. rewrite Ht4 in Ht5. give_in Ht5. }
  apply wp_bind, wp_idle; [on_the_way Ht4|]. intros r s5 Hf' [Ht5 Hm5]. rewrite Ht4 in Ht5. destruct r as [u'|e].
  2: { destruct Hf' as [?|Hf']; [done|]. give_in Ht5. }
  apply wp_bind. eapply (wp_rename_file os _ t d nm c); [exact Hw|exact Hd|exact Hnm|exact Hc|exact Hne| |exact Hfresh|exact Ht5| |]; [done| |].
  - intros e s6 Hf6 [Ht6 Hm6]. rewrite Ht5 in Ht6. split; [on_the_way Ht6|]. give_in Ht6.
  - intros s6 _ [Ht6 Hm6]. split; [right; by exists perm|]. apply wp_ret. split; [congruence|done].
Qed.

(** ** Directories *)

(** The text of a place, perhaps with a slash behind. *)
Section texts.
Context (os : Os).

Definition tail_of (tail : string) : Prop := tail = "" \/ tail = sep.
Lemma drop_slashes_stop s : has_suffix_sep (String.rev s) = false -> drop_slashes s = s.
Proof. unfold has_suffix_sep. rewrite rev_rev. destruct s as [|c s]; [done|]. cbn [drop_slashes]. by intros ->. Qed.
Lemma trim_text l tail : l <> [] -> plain_names l -> tail_of tail -> trim_slashes (slashes l +s+ tail) = slashes l.
Proof.
  intros Hne Hl [->| ->]; [rewrite sapp_nil_r; by apply trim_slashes_slashes|]. unfold trim_slashes. rewrite rev_sapp.
  change (String.rev sep +s+ String.rev (slashes l)) with (String slash (String.rev (slashes l))). cbn [drop_slashes]. change (is_slash slash) with true. cbn iota.
  rewrite drop_slashes_stop, rev_rev; [done|]. rewrite rev_rev. by apply slashes_no_suffix.
Qed.
Lemma parent_text_snoc d c tail : plain_names (d ++ [c]) -> tail_of tail -> parent_text (slashes (d ++ [c]) +s+ tail) = slashes d +s+ sep.
Proof.
  intros Hl Ht. unfold parent_text. rewrite trim_text by (done || by destruct d). pose proof Hl as [_ Hc]%Forall_app. inversion Hc as [|?? Ho _]; subst.
  rewrite slashes_snoc, last_component_after by by apply ordinary_slash_free. by rewrite <- sapp_assoc, take_sapp_end.
Qed.
Lemma slot_text t d c tail :
  well_formed t -> entry t d = Some Directory -> ordinary c = true -> tail_of tail ->
  slot_of os t (slashes (d ++ [c]) +s+ tail) = Slot d c (negb (String.eqb tail "")).
Proof.
  intros Hw Hd Hc Ht. pose proof (slot_canonical os t d c Hw Hd Hc) as H. rewrite root_path_slashes in H by by destruct d.
  pose proof (plain_place t d c Hw Hd Hc) as Ho. unfold slot_of in *. rewrite trim_text by (done || by destruct d).
  rewrite trim_slashes_slashes in H by (done || by destruct d).
  assert (Hne : slashes (d ++ [c]) <> "") by by destruct d.
  assert (Hst : start os (slashes (d ++ [c]) +s+ tail) = start os (slashes (d ++ [c]))) by (unfold start; by rewrite is_abs_app).
  rewrite Hst. rewrite (proj2 (String.eqb_neq _ _) Hne) in *. destruct (String.eqb_spec (slashes (d ++ [c]) +s+ tail) "") as [E|_]; [by destruct d|].
  destruct (String.eqb _ "." || String.eqb _ ".."); [done|]. destruct (kernel_walk _ _ _ _) as [d'|]; [|done]. destruct (entry t d') as [[| | |]|]; try done.
  injection H as -> -> _. f_equal. destruct Ht as [->| ->]; [by rewrite sapp_nil_r, String.eqb_refl|]. cbn [String.eqb sep slash Ascii.eqb negb].
  destruct (String.eqb_spec (slashes (d ++ [c])) (slashes (d ++ [c]) +s+ sep)) as [E|_]; [|done].
  apply (f_equal String.length) in E. rewrite length_sapp in E. simpl in E. lia.
Qed.
Lemma stat_text_dir t l tail : well_formed t -> entry t l = Some Directory -> tail_of tail -> (l = [] -> tail = sep) -> stat_at os t (slashes l +s+ tail) = inl Directory.
Proof.
  intros Hw Hl Ht Hroot. unfold stat_at. assert (Hr : resolve os t (slashes l +s+ tail) = inl l); [|by rewrite Hr, Hl].
  destruct (wf_place _ _ _ Hw Hl) as [Ho _]. unfold resolve, kernel_walk, start. assert (Ha : is_abs (slashes l +s+ tail) = true).
  { destruct l as [|c l]; [by rewrite Hroot|]. rewrite is_abs_app by done. rewrite <- root_path_slashes by done. apply root_abs. }
  rewrite Ha. destruct (String.eqb_spec (slashes l +s+ tail) "") as [E|_]; [by rewrite E in Ha|].
  destruct Ht as [->| ->].
  - rewrite sapp_nil_r, pieces_slashes by done. rewrite walk_stay. rewrite <- (app_nil_r l) at 1. by rewrite walk_dir, walk_nil by done.
  - change sep with (sep +s+ "") at 1. rewrite pieces_sep, pieces_slashes by done. change (pieces "") with [""].
    cbn [app]. rewrite walk_stay, walk_dir by done. by rewrite walk_stay, walk_nil.
Qed.
Lemma stat_text_missing t d c rest tail :
  well_formed t -> entry t d = Some Directory -> t !! (d ++ [c]) = None -> plain_names (d ++ c :: rest) -> tail_of tail ->
  stat_at os t (slashes (d ++ c :: rest) +s+ tail) = inr E_NOENT.
Proof.
  intros Hw Hd Hc Ho Ht. unfold stat_at. assert (Hr : resolve os t (slashes (d ++ c :: rest) +s+ tail) = inr E_NOENT); [|by rewrite Hr].
  assert (Hne : d ++ c :: rest <> []) by by destruct d. unfold resolve, kernel_walk, start. assert (Ha : is_abs (slashes (d ++ c :: rest) +s+ tail) = true).
  { rewrite is_abs_app by by destruct d. rewrite <- root_path_slashes by done. apply root_abs. }
  rewrite Ha. destruct (String.eqb_spec (slashes (d ++ c :: rest) +s+ tail) "") as [E|_]; [by rewrite E in Ha|].
  assert (Hw' : forall more, walk (lstat_of os t) (max_links os) true [] ("" :: (d ++ c :: rest) ++ more) = inr ENOENT).
  { intros more. rewrite walk_stay, <- app_assoc, walk_dir by done. cbn [app]. rewrite walk_cons. apply Forall_app in Ho as [_ Ho].
    inversion Ho as [|?? Hoc _]; subst. destruct (ordinary_tests c Hoc) as [-> ->]. by rewrite lstat_rooted, entry_snoc, Hc. }
  destruct Ht as [->| ->].
  - rewrite sapp_nil_r, pieces_slashes by done. rewrite <- (app_nil_r (d ++ c :: rest)). by rewrite Hw'.
  - change sep with (sep +s+ "") at 1. rewrite pieces_sep, pieces_slashes by done. cbn [app]. by rewrite Hw'.
Qed.

(** The directories [a ++ take i b] for [i] up to [k]. *)
Definition made (t : tree) (a b : list string) (k : nat) : tree := fold_left (fun t i => <[a ++ take i b := Directory]> t) (seq 1 k) t.
Lemma made_S t a b k : made t a b (S k) = <[a ++ take (S k) b := Directory]> (made t a b k).
Proof. unfold made. by rewrite seq_S, fold_left_app. Qed.
Lemma made_entry t a b k :
  (k <= length b)%nat -> entry t a = Some Directory -> (forall i, (0 < i <= length b)%nat -> t !! (a ++ take i b) = None) ->
  entry (made t a b k) (a ++ take k b) = Some Directory /\ (forall i, (k < i <= length b)%nat -> made t a b k !! (a ++ take i b) = None).
Proof.
  intros Hk Ha Hmiss. induction k as [|k IH].
  - cbn [take]. rewrite app_nil_r. split; [done|]. intros i Hi. apply Hmiss. lia.
  - rewrite made_S. destruct IH as [_ IH]; [lia|]. split.
    + rewrite entry_insert; [done|]. destruct b; [simpl in Hk; lia|]. by destruct a.
    + intros i Hi. rewrite lookup_insert_ne; [apply IH; lia|]. intros E. apply app_inv_head in E. apply (f_equal length) in E.
      rewrite !length_take in E. lia.
Qed.
Lemma wf_made t a b k :
  (k <= length b)%nat -> well_formed t -> entry t a = Some Directory -> plain_names b -> (forall i, (0 < i <= length b)%nat -> t !! (a ++ take i b) = None) ->
  well_formed (made t a b k).
Proof.
  intros Hk Hw Ha Hb Hmiss. induction k as [|k IH]; [done|]. rewrite made_S. destruct (lookup_lt_is_Some_2 b k) as [c Hc]; [lia|].
  rewrite (take_S_r _ _ _ Hc), app_assoc. apply wf_insert; [apply IH; lia|by apply made_entry; [lia|..]| |by left].
  eapply Forall_lookup_1 in Hb; [exact Hb|exact Hc].
Qed.
Lemma made_other t a b k l : (forall i, (0 < i <= k)%nat -> l <> a ++ take i b) -> made t a b k !! l = t !! l.
Proof.
  induction k as [|k IH]; [done|]. intros H. rewrite made_S, lookup_insert_ne; [apply IH; intros i Hi; apply H; lia|].
  intros E. symmetry in E. by apply (H (S k)); [lia|].
Qed.
End texts.

Section mkdir.
Context (os : Os) (t : tree) (a b : list string) (perm : Z).
Context (Hw : well_formed t) (Ha : entry t a = Some Directory) (Hb : plain_names b).
Context (Hmiss : forall i, (0 < i <= length b)%nat -> t !! (a ++ take i b) = None).

Definition making (t' : tree) : Prop := exists j, (j <= length b)%nat /\ t' = made t a b j.
Lemma making_made j : (j <= length b)%nat -> making (made t a b j).
Proof. intros H. by exists j. Qed.
Lemma take_le k : (k <= length a)%nat -> take k (a ++ b) = take k a /\ entry t (take k a) = Some Directory.
Proof.
  intros Hk. rewrite take_app_le by done. split; [done|]. destruct (decide (k = length a)) as [->|Hne]; [by rewrite take_ge|].
  eapply (wf_prefix t a _ _ (drop k a) Hw Ha); [by rewrite take_drop|]. intros E. apply (f_equal length) in E. rewrite length_drop in E. simpl in E. lia.
Qed.
Lemma take_gt k : (length a <= k)%nat -> take k (a ++ b) = a ++ take (k - length a) b.
Proof. intros Hk. by rewrite take_app_ge by done. Qed.
Lemma made_place k :
  (k <= length (a ++ b))%nat -> well_formed (made t a b (k - length a)) /\ entry (made t a b (k - length a)) (take k (a ++ b)) = Some Directory.
Proof.
  rewrite length_app. intros Hk. split; [apply wf_made; [lia|done..]|]. destruct (decide (k <= length a)%nat) as [H|H].
  - replace (k - length a)%nat with 0%nat by lia. destruct (take_le k H) as [-> ?]. done.
  - rewrite take_gt by lia. apply made_entry; [lia|done|done].
Qed.

Definition mkdir_post (k : nat) (s : sys) (r : unit + io_error) (s' : sys) : Prop :=
  s_marks s' = s_marks s /\ match r with inl _ => s_tree s' = made t a b (k - length a) | inr _ => faulty os /\ making (s_tree s') end.
Lemma lstat_root : lstat_at os t (slashes [] +s+ sep) = inl Directory.
Proof. unfold lstat_at. change (slot_of os t (slashes [] +s+ sep)) with Dots. apply stat_text_dir; [done|done|by right|done]. Qed.
Lemma wp_mkdir_root fuel tail s : s_tree s = t -> tail = sep -> wp making (mkdir_all os (S fuel) (slashes [] +s+ tail) perm) (mkdir_post 0 s) s.
Proof.
  intros Hs ->. assert (Hm0 : making t) by (apply (making_made 0); lia). cbn [mkdir_all]. apply wp_bind, wp_stat; rewrite ?Hs; [done| |].
  2: { intros n s1 [Ht1 Hm1]. rewrite (stat_text_dir os t [] sep) by (done || by right). intros [= <-]. by apply wp_ret. }
  intros e s1 _ [Ht1 Hm1]. change (parent_text (slashes [] +s+ sep)) with "". cbn [String.eqb]. apply wp_bind, wp_ret, wp_bind, wp_fail_at, wp_call.
  - intros e' n s2 Hf [Ht2 Hm2]. unfold unbroken in Ht2. rewrite Ht1 in Ht2. split; [by rewrite Ht2|]. apply wp_bind, wp_lstat; rewrite ?Ht2; [done| |].
    + intros e2 s3 _ [Ht3 Hm3]. apply wp_ret. split; [congruence|]. split; [done|]. by rewrite Ht3.
    + intros n' s3 [Ht3 Hm3]. rewrite lstat_root. intros [= <-]. apply wp_ret. split; [congruence|done].
  - intros s2 [Ht2 Hm2]. unfold mkdir_at in *. change (slot_of os (s_tree s1) (slashes [] +s+ sep)) with Dots in *. cbn [fst snd] in *.
    rewrite Ht1 in Ht2. split; [by rewrite Ht2|]. apply wp_bind, wp_lstat; rewrite ?Ht2; [done| |].
    + rewrite lstat_root. intros e2 s3 [Hf|[x Hx]] [Ht3 Hm3]; [|done]. apply wp_ret. split; [congruence|]. split; [done|]. by rewrite Ht3.
    + intros n' s3 [Ht3 Hm3]. rewrite lstat_root. intros [= <-]. apply wp_ret. split; [congruence|done].
Qed.
Lemma wp_mkdir_all fuel k tail s :
  s_tree s = t -> (k <= length (a ++ b))%nat -> (k < fuel)%nat -> tail_of tail -> (k = 0%nat -> tail = sep) ->
  wp making (mkdir_all os fuel (slashes (take k (a ++ b)) +s+ tail) perm) (mkdir_post k s) s.
Proof.
  revert k tail s. induction fuel as [|fuel IH]; intros k tail s Hs Hk Hf Htail Hroot; [lia|].
  destruct k as [|k]; [apply wp_mkdir_root; [done|by apply Hroot]|]. assert (Hm0 : making t) by (apply (making_made 0); lia).
  destruct (lookup_lt_is_Some_2 (a ++ b) k) as [c Hc]; [lia|]. rewrite (take_S_r _ _ _ Hc).
  assert (Hall : plain_names (a ++ b)) by (apply Forall_app; split; [apply (wf_place _ _ _ Hw Ha)|done]).
  assert (Hoc : ordinary c = true) by (eapply Forall_lookup_1 in Hall; [exact Hall|exact Hc]).
  assert (Hpn : plain_names (take k (a ++ b) ++ [c])) by (rewrite <- (take_S_r _ _ _ Hc); by apply Forall_take).
  cbn [mkdir_all]. apply wp_bind, wp_stat; rewrite ?Hs; [done| |].
  2: { intros n s1 [Ht1 Hm1] Hst. rewrite <- (take_S_r _ _ _ Hc) in Hst. destruct (decide (S k <= length a)%nat) as [Hka|Hka].
    - destruct (take_le (S k) Hka) as [E He]. rewrite E in Hst. rewrite stat_text_dir in Hst by (done || (intros El; destruct a; [simpl in Hka; lia|done])).
      injection Hst as <-. apply wp_ret. split; [done|]. by replace (S k - length a)%nat with 0%nat by lia.
    - rewrite <- (take_S_r _ _ _ Hc), take_gt in Hpn by lia. rewrite take_gt in Hst by lia. rewrite length_app in Hk.
      destruct (take (S k - length a) b) as [|x rest] eqn:Et; [apply (f_equal length) in Et; rewrite length_take in Et; simpl in Et; lia|].
      rewrite (stat_text_missing os t a x rest tail Hw Ha) in Hst; [done| |exact Hpn|exact Htail].
      apply (f_equal (take 1)) in Et. rewrite take_take in Et. replace (1 `min` (S k - length a))%nat with 1%nat in Et by lia.
      cbn [take] in Et. change [x] with (x :: take 0 rest). rewrite <- Et. apply Hmiss. lia. }
  intros e s1 _ [Ht1 Hm1]. rewrite parent_text_snoc by done. destruct (String.eqb_spec (slashes (take k (a ++ b)) +s+ sep) "") as [E|_].
  { apply (f_equal String.length) in E. rewrite length_sapp in E. simpl in E. lia. }
  apply wp_bind. eapply wp_mono; [apply (IH k sep s1); [done|lia|lia|by right|done]|]. cbn beta. intros r s2 [Hm2 Hr].
  destruct r as [u|e']; [|apply wp_ret; split; [congruence|done]]. destruct (made_place k) as [Hw2 Hd2]; [lia|]. rewrite <- Hr in Hw2, Hd2.
  pose proof (slot_text os (s_tree s2) _ c tail Hw2 Hd2 Hoc Htail) as Hslot.
  assert (Hm2' : making (s_tree s2)) by (rewrite Hr; apply making_made; rewrite length_app in Hk; lia).
  destruct (decide (S k <= length a)%nat) as [Hka|Hka].
  - assert (Hex : entry (s_tree s2) (take k (a ++ b) ++ [c]) = Some Directory).
    { rewrite <- (take_S_r _ _ _ Hc), Hr. destruct (take_le (S k) Hka) as [-> He]. by replace (k - length a)%nat with 0%nat by lia. }
    assert (Hok : forall (x : io_error) s3, after s2 s3 (s_tree s2) ->
      wp making (n ← Lstat os (slashes (take k (a ++ b) ++ [c]) +s+ tail); mret (match n with inl Directory => inl tt | _ => inr x end))
        (mkdir_post (S k) s) s3).
    { intros x s3 [Ht3 Hm3]. assert (Hl : lstat_at os (s_tree s2) (slashes (take k (a ++ b) ++ [c]) +s+ tail) = inl Directory).
      { unfold lstat_at. by rewrite Hslot, Hex. }
      apply wp_bind, wp_lstat; rewrite ?Ht3, ?Hl; [done| |].
      - intros e' s4 [Hf4|[? ?]] [Ht4 Hm4]; [|done]. apply wp_ret. split; [congruence|]. split; [done|by rewrite Ht4].
      - intros n s4 [Ht4 Hm4] [= <-]. apply wp_ret. split; [congruence|]. rewrite Ht4, Hr. f_equal. lia. }
    apply wp_bind, wp_fail_at, wp_call.
    + intros e' n s3 _ Hs3. split; [by rewrite (proj1 Hs3)|]. by apply Hok.
    + unfold mkdir_at. rewrite Hslot, Hex. intros s3 Hs3. split; [by rewrite (proj1 Hs3)|]. by apply Hok.
  - assert (Hnone : entry (s_tree s2) (take k (a ++ b) ++ [c]) = None).
    { rewrite entry_snoc, <- (take_S_r _ _ _ Hc), Hr, take_gt by lia. rewrite length_app in Hk. apply made_entry; [lia|done|done|lia]. }
    assert (Hmade : <[take k (a ++ b) ++ [c] := Directory]> (s_tree s2) = made t a b (S k - length a)).
    { rewrite <- (take_S_r _ _ _ Hc), Hr, take_gt by lia. replace (S k - length a)%nat with (S (k - length a)) by lia. by rewrite made_S. }
    apply wp_bind, wp_fail_at, wp_call.
    + intros e' n s3 Hfl [Ht3 Hm3]. unfold unbroken in Ht3. split; [by rewrite Ht3|].
      assert (Hl : lstat_at os (s_tree s2) (slashes (take k (a ++ b) ++ [c]) +s+ tail) = inr E_NOENT) by (unfold lstat_at; by rewrite Hslot, Hnone).
      apply wp_bind, wp_lstat; rewrite ?Ht3, ?Hl; [done| |done].
      intros e2 s4 _ [Ht4 Hm4]. apply wp_ret. split; [congruence|]. split; [done|by rewrite Ht4].
    + unfold mkdir_at. rewrite Hslot, Hnone. intros s3 [Ht3 Hm3]. cbn [fst snd] in *. rewrite Hmade in Ht3.
      split; [rewrite Ht3; apply making_made; rewrite length_app in Hk; lia|]. apply wp_ret. split; [congruence|done].
Qed.
End mkdir.

(** ** Where a settled path lies *)

Section settled.
Context (os : Os).

Lemma wp_MkdirAll (t : tree) a b perm s :
  well_formed t -> entry t a = Some Directory -> plain_names b -> (forall i, (0 < i <= length b)%nat -> t !! (a ++ take i b) = None) -> s_tree s = t ->
  wp (making t a b) (MkdirAll os (root_path (a ++ b)) perm) (fun r s' => s_marks s' = s_marks s /\
    match r with inl _ => s_tree s' = made t a b (length b) | inr _ => faulty os /\ making t a b (s_tree s') end) s.
Proof.
  intros Hw Ha Hb Hmiss Hs. assert (H : forall tail, tail_of tail -> (length (a ++ b) = 0%nat -> tail = sep) -> root_path (a ++ b) = slashes (a ++ b) +s+ tail ->
    wp (making t a b) (MkdirAll os (root_path (a ++ b)) perm) (mkdir_post os t a b (length (a ++ b)) s) s).
  { intros tail Ht H0 Htext. unfold MkdirAll. rewrite Htext. rewrite <- (firstn_all (a ++ b)) at 2. apply wp_mkdir_all; try done.
    rewrite length_sapp. pose proof (length_slashes (a ++ b)). lia. }
  assert (Hpost : wp (making t a b) (MkdirAll os (root_path (a ++ b)) perm) (mkdir_post os t a b (length (a ++ b)) s) s).
  { destruct (decide (a ++ b = [])) as [E|Hne].
    - apply (H sep); [by right|done|by rewrite E].
    - apply (H ""); [by left| |by rewrite sapp_nil_r, root_path_slashes]. intros E. by apply nil_length_inv in E. }
  eapply wp_mono; [exact Hpost|]. unfold mkdir_post. cbn beta. rewrite length_app. replace (length a + length b - length a)%nat with (length b) by lia. done.
Qed.

Lemma dirs_entry t d : dirs (lstat_of os t) d -> entry t d = Some Directory.
Proof.
  intros Hd. destruct (decide (d = [])) as [->|Hne]; [done|]. specialize (Hd d [] (eq_sym (app_nil_r d)) Hne). rewrite lstat_rooted in Hd.
  by destruct (entry t d) as [[| | |]|].
Qed.
(** The directory of a settled place: a part that exists and a part to be made;
    the place itself holds no link. *)
Definition laid_out (t : tree) (d : list string) (c : string) (a b : list string) : Prop :=
  d = a ++ b /\ entry t a = Some Directory /\ plain_names (b ++ [c]) /\
  (forall i, (0 < i <= length b)%nat -> t !! (a ++ take i b) = None) /\
  (b <> [] -> t !! (d ++ [c]) = None) /\ (forall target, t !! (d ++ [c]) <> Some (Link target)).
Lemma missing_below t d c rest i : well_formed t -> t !! (d ++ [c]) = None -> (0 < i)%nat -> t !! (d ++ take i (c :: rest)) = None.
Proof.
  intros Hw Hc Hi. destruct (t !! (d ++ take i (c :: rest))) as [n|] eqn:E; [|done]. destruct i as [|i]; [lia|]. cbn [take] in E.
  replace (d ++ c :: take i rest) with ((d ++ [c]) ++ take i rest) in E by by rewrite <- app_assoc.
  destruct (decide (take i rest = [])) as [Er|Er]; [rewrite Er, app_nil_r in E; congruence|].
  assert (H : entry t (d ++ [c]) = Some Directory).
  { eapply (wf_prefix t _ n _ (take i rest) Hw); [|reflexivity|exact Er]. rewrite entry_cons; [exact E|]. by destruct d. }
  rewrite entry_snoc in H. congruence.
Qed.
Lemma settled_layout t d c : well_formed t -> settled (lstat_of os t) (d ++ [c]) -> exists a b, laid_out t d c a b.
Proof.
  intros Hw Hs. pose proof (settled_ordinary _ _ Hs) as Ho. assert (Hc : ordinary c = true).
  { apply Forall_app in Ho as [_ Ho]. by inversion Ho. }
  destruct Hs as [Hp|(d0 & c0 & rest & Hl & _ & Hd & Hn)].
  - destruct (physical_entry os t _ Hp) as (n & Hn & Hlink). rewrite entry_snoc in Hn. destruct (wf_parent _ _ _ _ Hw Hn) as [_ Hd].
    exists d, []. split_and!; [by rewrite app_nil_r|done|by repeat constructor|simpl; lia|done|]. intros target E. rewrite E in Hn. by injection Hn as <-.
  - rewrite lstat_rooted, entry_snoc in Hn. assert (Hmiss : t !! (d0 ++ [c0]) = None) by (destruct (t !! (d0 ++ [c0])) as [[| | |]|]; done).
    apply dirs_entry in Hd.
    destruct rest as [|x rest _] using rev_ind.
    + apply snoc_cancel in Hl as [-> ->]. exists d0, []. split_and!; [by rewrite app_nil_r|done|by repeat constructor|simpl; lia|done|]. by rewrite Hmiss.
    + replace (d0 ++ c0 :: rest ++ [x]) with ((d0 ++ c0 :: rest) ++ [x]) in Hl by by rewrite <- app_assoc. apply snoc_cancel in Hl as [-> ->].
      assert (Hend : t !! ((d0 ++ c0 :: rest) ++ [x]) = None).
      { pose proof (missing_below t d0 c0 (rest ++ [x]) (S (S (length rest))) Hw Hmiss) as H. rewrite take_ge in H by (simpl; rewrite length_app; simpl; lia).
        rewrite <- app_assoc. apply H. lia. }
      exists d0, (c0 :: rest). split_and!; [done|done| | |done|by rewrite Hend].
      * rewrite <- app_assoc in Ho. by apply Forall_app in Ho as [_ Ho].
      * intros i Hi. apply missing_below; [done|done|lia].
Qed.
End settled.

(** ** A small world *)

Definition sound_entry (t : tree) (l : list string) : bool :=
  match rev l with [] => false | c :: d => ordinary c && match entry t (rev d) with Some Directory => true | _ => false end end.
Lemma wf_checked (t : tree) : forallb (sound_entry t) (map fst (map_to_list t)) = true -> well_formed t.
Proof.
  intros H l n Hl. rewrite forallb_forall in H. specialize (H l). unfold sound_entry in H. rewrite in_map_iff in H.
  specialize (H (ex_intro _ (l, n) (conj eq_refl (proj1 (list_elem_of_In _ _) (proj2 (elem_of_map_to_list t l n) Hl))))).
  destruct (rev l) as [|c d] eqn:E; [done|]. apply andb_true_iff in H as [Hc Hd]. exists (rev d), c.
  split; [by rewrite <- (rev_involutive l), E|]. split; [done|]. by destruct (entry t (rev d)) as [[]|].
Qed.

(** A host where no call fails, and one file below each of two directories. *)
Definition sound_os : Os := mkOs (fun _ => None) (fun _ _ => false) (fun k => k) (fun _ => "errno") 18 ["ws"] 40 448 4096.
Definition small_tree : tree :=
  list_to_map [(["ws"], Directory); (["ws"; "f"], Regular 420 "abcab"); (["ws"; "up"], Link "../etc/passwd");
               (["etc"], Directory); (["etc"; "passwd"], Regular 420 "root"); (["etc"; "link"], Link "/ws/f")].
Definition small_sys : sys := mkSys small_tree 0 [] [].
Lemma small_wf : well_formed small_tree.
Proof. apply wf_checked. vm_compute. reflexivity. Qed.
