(* ===== verification/Planner.v ===== *)
(** * The planner: src/planner/planner.go, config.go, defaults.go, prompt_set.go, types.go

    How a plan is asked for, read and checked: the system prompts of the five
    modes, the reading of a plan from an answer, the retries, direct planning
    and planning after an exploration, revised plans and continuations.
    Parameters: the model's answers, the outcome of the exploring run (of
    [Executor.Run]; a run without error has a result), the host's context
    functions, the family from the model registry, the quoting of [%q], the
    texts of [encoding/json] errors and the JSON text of the plan to revise. *)

From Stdlib Require Import ZArith Lia Ascii.
From stdpp Require Import base gmap strings list sorting.
From S2P Require Import Prelude GoStr AgentTypes Tokens Plan PlanDag Blackboard Fence Prompt Json JsonFacts Oneshot Registry.
Open Scope sp4rk_scope.

(** A text with double quotes for the single ones. *)
Definition dquotes : string -> string := map_chars (fun c => if Ascii.eqb c "'" then "034"%char else c).

(** ** Modes and configuration *)

Record planPromptMode := mkMode {
  pm_preamble : string;
  pm_tot : string;
  pm_guidance : string;
  pm_extraSections : string;
  pm_tail : string;
  pm_jsonExample : string;
  pm_maxSteps : string;
}.

Definition planModeTail : string := "REFLECTIONS" +s+ nl.
Definition planModeJSONExample : string :=
  dquotes ("{'steps': [{'id': 'step_1', 'summary': 'Implement auth middleware', 'description': 'What: ...\nHow: " +s+
  "...\nWhere: ...\nAcceptance Criteria:\n- ...', 'depends_on': [], 'parallelizable': true, " +s+
  "'estimated_tools': ['tool1'], 'profile': {'role': 'coder', 'allowed_tools': ['read_file', " +s+
  "'write_file', 'edit_file', 'list_directory', 'ripgrep', 'glob', 'bash_exec', 'semantic_search', " +s+
  "'search_graph'], 'skills': ['go-testing'], 'domain': 'code', 'keep_last_n': 5, 'protected_tools': " +s+
  "['store_fact', 'search_facts']}}]}").
Definition singleStepJSONExample : string :=
  dquotes ("{'steps': [{'id': 'step_1', 'summary': '5-7 word task label', 'description': '## Task Title\n### " +s+
  "What:\nFull description of what needs to be done.\n### How:\nConcrete approach, techniques, tool " +s+
  "usage order.\n### Where:\nSpecific files, functions, modules.\n### Acceptance Criteria:\n- " +s+
  "Verifiable condition 1\n- Verifiable condition 2', 'depends_on': [], 'parallelizable': true, " +s+
  "'estimated_tools': ['tool1', 'tool2'], 'profile': {'role': 'executor', 'domain': 'code'}}]}").
Definition continuationModeJSONExample : string :=
  dquotes ("{'steps': [{'id': 'continuation_1', 'summary': 'Short 5-7 word label', 'description': 'What: " +s+
  "...\nHow: ...\nWhere: ...\nAcceptance Criteria:\n- ...', 'depends_on': ['<" +s+ "terminal-step-id>'], " +s+
  "'parallelizable': true, 'estimated_tools': ['tool1'], 'profile': {'role': 'coder', 'allowed_tools': " +s+
  "['read_file', 'write_file', 'edit_file', 'list_directory', 'ripgrep', 'glob', 'bash_exec', " +s+
  "'semantic_search', 'search_graph'], 'skills': ['go-testing'], 'domain': 'code'}}]}").
Definition continuationSingleStepJSONExample : string :=
  dquotes ("{'steps': [{'id': 'continuation_1', 'summary': '5-7 word continuation label', 'description': '## " +s+
  "Continuation Title\n### What:\nFull description of what needs to be done.\n### How:\nConcrete " +s+
  "approach building on completed work.\n### Where:\nSpecific files, functions, modules.\n### " +s+
  "Acceptance Criteria:\n- Verifiable condition 1\n- Verifiable condition 2', 'depends_on': " +s+
  "['<" +s+ "terminal-step-id>'], 'parallelizable': true, 'estimated_tools': ['tool1'], 'profile': {'role': " +s+
  "'executor', 'domain': 'code'}}]}").
Definition continuationModeTail : string :=
  "This is a continuation plan: a step's depends_on entries may reference either steps declared in " +s+
  "this plan or completed steps of the previous plan. Chain new work onto the previous plan's terminal " +s+
  "steps (listed under the prior-plan context above).".
Definition replanModePreamble : string :=
  "You are revising a plan whose execution failed. The original plan, the completed steps, the failed " +s+
  "step, and the reflection analysis are provided below.".

Record PromptSet := mkPrompts {
  BasePrompt : string;
  InformedPrompt : string;
  ReplanPrompt : string;
  PlanPreamble : string;
  SingleStepPreamble : string;
  MultiStepToT : string;
  SingleStepToT : string;
  MultiStepGuidance : string;
  SingleStepGuidance : string;
  ContinuationPreamble : string;
  ContinuationIncompletePreamble : string;
  ContinuationSingleStep : string;
  DomainAssignment : string;
  AgentProfiles : string;
  ExtraSections : string;
  FamilyPrompt : option (string -> string -> string);
  VerificationMandate : string;
}.

Record SkillDescriptor := mkSkill { sk_Name : string; sk_Description : string }.

(** [Config]: a context function as its value for the context of the call;
    [None]: not set. *)
Record Config := mkConfig {
  Prompts : PromptSet;
  DomainFromContext : option string;
  ComplexityFromContext : option Z;
  UserSkillsFromContext : option (list string);
  FormatSkillList : option (list SkillDescriptor -> string);
  FormatWorkspacePath : option string;
  AppendContextSections : option (string -> string);
  ToolRegistry : option (list ToolDescriptor); (** what [List] gives *)
  PlannerToolNames : gset string;
  ModelFamily : option string;                 (** resolved; [None]: no registry *)
  MaxExploreSteps : Z;
}.
Definition defaultMaxExploreSteps : Z := 7.
Definition withDefaults (c : Config) : Config :=
  mkConfig (Prompts c) (Some (default "" (DomainFromContext c))) (Some (default 0%Z (ComplexityFromContext c)))
    (Some (default [] (UserSkillsFromContext c))) (Some (default (fun _ => "None") (FormatSkillList c)))
    (Some (default "" (FormatWorkspacePath c))) (Some (default (fun base => base) (AppendContextSections c)))
    (ToolRegistry c) (PlannerToolNames c) (ModelFamily c)
    (if (MaxExploreSteps c <=? 0)%Z then defaultMaxExploreSteps else MaxExploreSteps c).
(** [NewPlanner], of a caller that is there. *)
Definition NewPlanner (cfg : Config) : Config := withDefaults cfg.

Definition getFamily (p : Config) : string :=
  match ModelFamily p with None => "default" | Some f => if String.eqb f "" then "default" else f end.
Definition familyPrompt (p : Config) : string :=
  match FamilyPrompt (Prompts p) with None => "" | Some f => f "planner" (getFamily p) end.

Definition multiStepMode (p : Config) : planPromptMode :=
  mkMode (PlanPreamble (Prompts p)) (MultiStepToT (Prompts p)) (MultiStepGuidance (Prompts p)) (ExtraSections (Prompts p))
    planModeTail planModeJSONExample "10".
Definition singleStepMode (p : Config) : planPromptMode :=
  mkMode (SingleStepPreamble (Prompts p)) (SingleStepToT (Prompts p)) (SingleStepGuidance (Prompts p)) (ExtraSections (Prompts p))
    planModeTail singleStepJSONExample "1".
Definition continuationMultiMode (p : Config) : planPromptMode :=
  mkMode (ContinuationPreamble (Prompts p)) (MultiStepToT (Prompts p)) (MultiStepGuidance (Prompts p)) (ExtraSections (Prompts p))
    continuationModeTail continuationModeJSONExample "10".
Definition continuationSingleMode (p : Config) : planPromptMode :=
  mkMode (ContinuationSingleStep (Prompts p)) (SingleStepToT (Prompts p)) (SingleStepGuidance (Prompts p)) (ExtraSections (Prompts p))
    continuationModeTail continuationSingleStepJSONExample "1".
Definition replanMode : planPromptMode := mkMode replanModePreamble "" "" "" "" planModeJSONExample "10".

(** ** Texts of the prompts *)

(** [agent.BuildGroupedToolList] *)
Definition isShellExecTool (name : string) : bool := String.eqb name "bash_exec" || String.eqb name "posh_exec".
Definition tool_tier (t : ToolDescriptor) : nat :=
  if isShellExecTool (desc_name t) then 3 else if String.eqb (desc_category t) SourceCategoryMCP then 2 else 1.
Definition writeGroup (label : string) (group : list ToolDescriptor) : string :=
  if bool_decide (group = []) then ""
  else label +s+ nl +s+ join "" (map (fun t => "- " +s+ desc_name t +s+ ": " +s+ desc_description t +s+ nl) group).
Definition BuildGroupedToolList (descriptors : list ToolDescriptor) : string :=
  let tier n := List.filter (fun t => Nat.eqb (tool_tier t) n) descriptors in
  writeGroup "Built-in tools (TIER 1):" (tier 1%nat) +s+
  writeGroup "MCP tools (TIER 2):" (tier 2%nat) +s+
  writeGroup "Fallback tools (TIER 3 — use only when no higher-tier tool fits):" (tier 3%nat).

Definition numbered_lines {A} (f : A -> string) (l : list A) : string :=
  join "" (imap (fun i x => itoa (Z.of_nat (S i)) +s+ ". " +s+ f x +s+ nl) l).
Definition formatPlanReflections (reflections : list Reflection) : string :=
  if bool_decide (reflections = []) then ""
  else "Reflections from past attempts (learn from them):" +s+ nl +s+
    numbered_lines (fun r => "Failure: " +s+ rf_failure_analysis r +s+ " | Root cause: " +s+ rf_root_cause r +s+
      " | Action plan: " +s+ rf_action_plan r) reflections.
Definition formatSessionReflections (reflections : list Reflection) : string :=
  if bool_decide (reflections = []) then ""
  else "Previous session reflections (showing cross-attempt failure patterns):" +s+ nl +s+
    numbered_lines (fun r => "Summary: " +s+ rf_summary r +s+ " | Root cause: " +s+ rf_root_cause r +s+
      " | Action plan: " +s+ rf_action_plan r +s+ " | Suggested: " +s+ rf_suggested_action r) reflections.
Definition formatConversationHistory (history : list Message) : string :=
  if bool_decide (history = []) then "(no previous conversation)"
  else join "" (map (fun m => m_role m +s+ ": " +s+ m_content m +s+ nl2) history).

Definition systemMessagesFromPrompt (systemPrompt : string) : list Message :=
  map (text_msg "system") (SplitCacheBreak systemPrompt).

Definition findTerminalSteps (plan : option Plan) : list string :=
  match plan with
  | None => []
  | Some p => List.filter (fun id => negb (bool_decide (id ∈ dependedUpon p))) (step_ids p)
  end.

(** The last result of a step counts. *)
Definition completed_map (completedSteps : list CompletedStep) : gmap string CompletedStep :=
  fold_left (fun m cs => <[cs_step_id cs := cs]> m) completedSteps ∅.
Definition plan_summary_line (completedMap : gmap string CompletedStep) (step : PlanStep) : string :=
  let cs := completedMap !! ps_id step in
  let status := match cs with
                | Some cs => match cs_error cs with None => "[COMPLETED]" | Some _ => "[FAILED]" end
                | None => "[PENDING]"
                end in
  "- " +s+ status +s+ " " +s+ ps_id step +s+ ": " +s+ ps_description step +s+
  match cs with
  | Some cs =>
      (if String.eqb (cs_output cs) "" then "" else " → " +s+ cs_output cs) +s+
      (match cs_error cs with Some e => " [Error: " +s+ err_text e +s+ "]" | None => "" end)
  | None => ""
  end +s+ nl.

Definition maxExplorationContextLen : Z := 4000.
Definition thought_line (s : Step) : string :=
  let thought := trim_space (s_thought s) in
  if String.eqb thought "" then ""
  else let toolName := tc_name (s_action s) in
    "- " +s+ thought +s+ (if String.eqb toolName "" then "" else " (via " +s+ toolName +s+ ")") +s+ nl.
Fixpoint thoughts (b : string) (steps : list Step) : string :=
  match steps with
  | [] => b
  | s :: steps =>
      let line := thought_line s in
      let b' := b +s+ line in
      if negb (String.eqb line "") && (maxExplorationContextLen <=? slen b')%Z then b' else thoughts b' steps
  end.
Definition summarizeExplorationSteps (steps : list Step) : string :=
  TruncateUTF8AtLineBoundary (thoughts "" steps) maxExplorationContextLen.

(** ** Reading JSON into structures *)

(** A decoder gets what is there already: [json.Unmarshal] leaves what an
    object does not name, and null leaves all but slices and interfaces.  [None]:
    a value of the wrong type, for which the whole text is refused.  An array
    decodes onto the elements there are. *)
Definition decoder (T : Type) : Type := T -> string -> option T.
Definition dec_string : decoder string := fun old raw =>
  match json_decode raw with Some (JStr s) => Some s | Some JNull => Some old | _ => None end.
Definition dec_bool : decoder bool := fun old raw =>
  match json_decode raw with Some (JBool b) => Some b | Some JNull => Some old | _ => None end.

Section decoders.
Context {T : Type}.
Fixpoint dec_elems (zero : T) (dec : decoder T) (olds : list T) (raws : list string) : option (list T) :=
  match raws with
  | [] => Some []
  | raw :: raws =>
      match dec (default zero (head olds)) raw, dec_elems zero dec (tail olds) raws with
      | Some x, Some l => Some (x :: l)
      | _, _ => None
      end
  end.
Definition dec_slice (zero : T) (dec : decoder T) : decoder (option (list T)) := fun old raw =>
  match json_decode raw with
  | Some (JArr raws) => match dec_elems zero dec (default [] old) raws with Some l => Some (Some l) | None => None end
  | Some JNull => Some None
  | _ => None
  end.
(** A structure: its fields by name; unknown members are ignored. *)
Fixpoint dec_member (fields : list (string * decoder T)) (key raw : string) (x : T) : option T :=
  match fields with
  | [] => Some x
  | (name, dec) :: fields => if String.eqb (fold_ascii key) (fold_ascii name) then dec x raw else dec_member fields key raw x
  end.
Definition dec_members (fields : list (string * decoder T)) (l : list (string * string)) (x : T) : option T :=
  fold_left (fun acc kv => match acc with Some x => dec_member fields (fst kv) (snd kv) x | None => None end) l (Some x).
Definition dec_struct (fields : list (string * decoder T)) : decoder T := fun old raw =>
  match json_decode raw with
  | Some (JObj l) => dec_members fields l old
  | Some JNull => Some old
  | _ => None
  end.
(** A field of a structure, from its getter and setter. *)
Definition field {F} (get : T -> F) (set : F -> T -> T) (dec : decoder F) : decoder T := fun x raw =>
  match dec (get x) raw with Some v => Some (set v x) | None => None end.
End decoders.

(** The [int] that a literal is after it has been a [float64]; literals whose
    value has no exact [float64] are taken by their value. *)
Definition int_of_number (raw : string) : option Z :=
  let '(m, e) := number_parts raw in
  let v := if (0 <=? e)%Z then Some (m * 10 ^ e)%Z
           else if (m mod 10 ^ (- e) =? 0)%Z then Some (m / 10 ^ (- e))%Z else None in
  match v with
  | Some v => if ((- 2 ^ 63 <=? v) && (v <? 2 ^ 63))%Z then Some v else None
  | None => None
  end.
Definition dec_int : decoder Z := fun old raw =>
  match json_decode raw with Some (JNum n) => int_of_number n | Some JNull => Some old | _ => None end.

Definition dec_any : decoder (option string) := fun _ raw =>
  match json_decode raw with
  | Some JNull => Some None
  | Some _ => if any_decodes raw then Some (Some raw) else None
  | None => None
  end.

(** ** Plans *)

Definition zero_step : PlanStep := mkPlanStep "" "" "" None false None "" None.
Definition step_fields : list (string * decoder PlanStep) :=
  [("id", field ps_id (fun v s => mkPlanStep v (ps_summary s) (ps_description s) (ps_depends_on s) (ps_parallelizable s)
      (ps_estimated_tools s) (ps_agent s) (ps_profile s)) dec_string);
   ("summary", field ps_summary (fun v s => mkPlanStep (ps_id s) v (ps_description s) (ps_depends_on s) (ps_parallelizable s)
      (ps_estimated_tools s) (ps_agent s) (ps_profile s)) dec_string);
   ("description", field ps_description (fun v s => mkPlanStep (ps_id s) (ps_summary s) v (ps_depends_on s) (ps_parallelizable s)
      (ps_estimated_tools s) (ps_agent s) (ps_profile s)) dec_string);
   ("depends_on", field ps_depends_on (fun v s => mkPlanStep (ps_id s) (ps_summary s) (ps_description s) v (ps_parallelizable s)
      (ps_estimated_tools s) (ps_agent s) (ps_profile s)) (dec_slice "" dec_string));
   ("parallelizable", field ps_parallelizable (fun v s => mkPlanStep (ps_id s) (ps_summary s) (ps_description s) (ps_depends_on s) v
      (ps_estimated_tools s) (ps_agent s) (ps_profile s)) dec_bool);
   ("estimated_tools", field ps_estimated_tools (fun v s => mkPlanStep (ps_id s) (ps_summary s) (ps_description s) (ps_depends_on s)
      (ps_parallelizable s) v (ps_agent s) (ps_profile s)) (dec_slice "" dec_string));
   ("agent", field ps_agent (fun v s => mkPlanStep (ps_id s) (ps_summary s) (ps_description s) (ps_depends_on s)
      (ps_parallelizable s) (ps_estimated_tools s) v (ps_profile s)) dec_string);
   ("profile", field ps_profile (fun v s => mkPlanStep (ps_id s) (ps_summary s) (ps_description s) (ps_depends_on s)
      (ps_parallelizable s) (ps_estimated_tools s) (ps_agent s) v) dec_any)].
Definition plan_fields : list (string * decoder (option (list PlanStep) * string)) :=
  [("steps", field fst (fun v p => (v, snd p)) (dec_slice zero_step (dec_struct step_fields)));
   ("exploration_context", field snd (fun v p => (fst p, v)) dec_string)].
Definition unmarshal_plan (raw : string) : option Plan :=
  match dec_struct plan_fields (None, "") raw with
  | Some (steps, exploration) => Some (mkPlan (default [] steps) exploration)
  | None => None
  end.

(** [AgentProfile]: the profile of a step of the planner. *)
Record AgentProfile := mkProfile {
  ap_Role : string;
  ap_SystemPrompt : string;
  ap_AllowedTools : option (list string);
  ap_Skills : option (list string);
  ap_MaxSteps : Z;
  ap_Domain : string;
  ap_KeepLastN : Z;
  ap_ProtectedTools : option (list string);
}.
Definition zero_profile : AgentProfile := mkProfile "" "" None None 0 "" 0 None.
Definition set_skills (v : option (list string)) (p : AgentProfile) : AgentProfile :=
  mkProfile (ap_Role p) (ap_SystemPrompt p) (ap_AllowedTools p) v (ap_MaxSteps p) (ap_Domain p) (ap_KeepLastN p) (ap_ProtectedTools p).
Definition profile_fields : list (string * decoder AgentProfile) :=
  [("role", field ap_Role (fun v p => mkProfile v (ap_SystemPrompt p) (ap_AllowedTools p) (ap_Skills p) (ap_MaxSteps p) (ap_Domain p)
      (ap_KeepLastN p) (ap_ProtectedTools p)) dec_string);
   ("system_prompt", field ap_SystemPrompt (fun v p => mkProfile (ap_Role p) v (ap_AllowedTools p) (ap_Skills p) (ap_MaxSteps p)
      (ap_Domain p) (ap_KeepLastN p) (ap_ProtectedTools p)) dec_string);
   ("allowed_tools", field ap_AllowedTools (fun v p => mkProfile (ap_Role p) (ap_SystemPrompt p) v (ap_Skills p) (ap_MaxSteps p)
      (ap_Domain p) (ap_KeepLastN p) (ap_ProtectedTools p)) (dec_slice "" dec_string));
   ("skills", field ap_Skills set_skills (dec_slice "" dec_string));
   ("max_steps", field ap_MaxSteps (fun v p => mkProfile (ap_Role p) (ap_SystemPrompt p) (ap_AllowedTools p) (ap_Skills p) v
      (ap_Domain p) (ap_KeepLastN p) (ap_ProtectedTools p)) dec_int);
   ("domain", field ap_Domain (fun v p => mkProfile (ap_Role p) (ap_SystemPrompt p) (ap_AllowedTools p) (ap_Skills p) (ap_MaxSteps p)
      v (ap_KeepLastN p) (ap_ProtectedTools p)) dec_string);
   ("keep_last_n", field ap_KeepLastN (fun v p => mkProfile (ap_Role p) (ap_SystemPrompt p) (ap_AllowedTools p) (ap_Skills p)
      (ap_MaxSteps p) (ap_Domain p) v (ap_ProtectedTools p)) dec_int);
   ("protected_tools", field ap_ProtectedTools (fun v p => mkProfile (ap_Role p) (ap_SystemPrompt p) (ap_AllowedTools p) (ap_Skills p)
      (ap_MaxSteps p) (ap_Domain p) (ap_KeepLastN p) v) (dec_slice "" dec_string))].

(** What a step's [Profile any] ends up as. *)
Inductive StepProfile := NoProfile | OtherProfile (json : string) | TypedProfile (p : AgentProfile).

(** A map marshals with its keys in order, each once. *)
Definition remarshal (l : list (string * string)) : list (string * string) :=
  map (fun k => (k, default "null" (obj_get k l))) (merge_sort str_le (remove_dups (map fst l))).
Definition keep_skills (skillAllowed : option (gset string)) (p : AgentProfile) : AgentProfile :=
  match skillAllowed, ap_Skills p with
  | Some allowed, Some (name :: names) => set_skills (Some (List.filter (fun n => bool_decide (n ∈ allowed)) (name :: names))) p
  | _, _ => p
  end.
Definition convert_profile (skillAllowed : option (gset string)) (profile : option string) : StepProfile :=
  match profile with
  | None => NoProfile
  | Some json =>
      match json_decode json with
      | Some (JObj l) =>
          match dec_members profile_fields (remarshal l) zero_profile with
          | Some p => TypedProfile (keep_skills skillAllowed p)
          | None => NoProfile
          end
      | _ => OtherProfile json
      end
  end.
Definition skill_names (availableSkills : list SkillDescriptor) : option (gset string) :=
  if bool_decide (availableSkills = []) then None else Some (list_to_set (map sk_Name availableSkills)).

(** A plan with the profiles of its steps. *)
Record Planned := mkPlanned { pl_plan : Plan; pl_profiles : list StepProfile }.

Inductive plan_error := NoObject | BadJSON (content : string) | InvalidDAG (e : dag_error) | ZeroSteps.

Definition parsePlanResponseWithPriorIDs (content : string) (availableSkills : list SkillDescriptor)
    (knownPriorIDs : gset string) : Planned + plan_error :=
  let jsonContent := ExtractJSON content in
  if negb (has_prefix (trim_space jsonContent) "{") then inr NoObject
  else
    match unmarshal_plan jsonContent with
    | None => inr (BadJSON jsonContent)
    | Some plan =>
        match validatePlanDAG (S (length (p_steps plan))) plan knownPriorIDs with
        | Some (Some e) => inr (InvalidDAG e)
        | _ => inl (mkPlanned plan (map (fun s => convert_profile (skill_names availableSkills) (ps_profile s)) (p_steps plan)))
        end
    end.
Definition parsePlanResponse (content : string) (availableSkills : list SkillDescriptor) : Planned + plan_error :=
  parsePlanResponseWithPriorIDs content availableSkills ∅.

(** ** Asking for a plan *)

Section planner.
Variable iterate : nat -> gmap string string -> list (string * string).
Variable quote : string -> string.
Variable json_error : string -> string.
Variable p : Config.
Variable caller : nat -> list Message -> option ChatResponse + string.
Variable ctx_done : nat -> option string.

Definition dag_error_text (e : dag_error) : string :=
  match e with
  | DuplicateID id => "invalid plan: duplicate step ID " +s+ quote id +s+ " — every step must have a unique ID"
  | UnknownDep id dep =>
      "invalid plan: step " +s+ quote id +s+ " depends on unknown step ID " +s+ quote dep +s+
      " — depends_on may only reference IDs of steps in this plan or completed steps of the previous plan"
  | Cycle id =>
      "invalid plan: dependency cycle detected involving step " +s+ quote id +s+ " — the depends_on graph must be acyclic"
  end.
Definition plan_error_text (e : plan_error) : string :=
  match e with
  | NoObject => "planner: no valid JSON object found in response"
  | BadJSON content => "planner: failed to unmarshal plan JSON: " +s+ json_error content
  | InvalidDAG e => dag_error_text e
  | ZeroSteps => "plan has zero steps — at least one step is required"
  end.

(** The hint names the problem in its own words; [None]: a nil answer. *)
Definition planRetryHint (parseErr : option plan_error) : string :=
  let text := parse_error_text plan_error_text parseErr in
  match parseErr with
  | Some ZeroSteps =>
      "Your response was valid JSON but contained zero steps. Error: " +s+ text +s+ nl2 +s+
      "The plan MUST contain at least one step with a summary, description, " +s+
      "and dependencies. Decompose the user's task into at least one concrete, " +s+
      "executable step. Respond ONLY with a valid JSON object containing a " +s+
      "non-empty " +s+ dquotes "'steps'" +s+ " array."
  | Some (InvalidDAG _) =>
      "Your response was valid JSON but the plan failed validation. Error: " +s+ text +s+ nl2 +s+
      "Fix the " +s+ dquotes "'steps'" +s+ " array so that: every step has a unique id; every " +s+
      "depends_on entry references either the id of a step declared in this " +s+
      "plan or (in continuation plans) the id of a completed step of the " +s+
      "previous plan; and the depends_on graph contains no cycles. " +s+
      "Respond ONLY with the corrected JSON object."
  | _ =>
      "Your response was invalid JSON. Error: " +s+ text +s+ nl2 +s+
      "Respond ONLY with a valid JSON object. " +s+
      "Do NOT use markdown code fences (```json ... ```). " +s+
      "Do NOT include any text, HTML, or commentary before or after the JSON. " +s+
      "Your entire response must start with { and end with } " +s+
      "and be parseable by a standard JSON parser."
  end.

Definition parse_plan (availableSkills : list SkillDescriptor) (knownPriorIDs : gset string) (resp : ChatResponse)
    : Planned + plan_error :=
  match parsePlanResponseWithPriorIDs (m_content (r_message resp)) availableSkills knownPriorIDs with
  | inr e => inr e
  | inl plan => if bool_decide (p_steps (pl_plan plan) = []) then inr ZeroSteps else inl plan
  end.
Definition no_plan : Planned := mkPlanned (mkPlan [] "") [].
Definition plan_options : Options (T := Planned) (PE := plan_error) :=
  mkOptions "plan_generation" OnFailureError no_plan planRetryHint.
(** The requests sent, and the plan or the error. *)
Definition planning : Type := list (list Message) * (Planned + string).
Definition callAndParsePlanWithPriorIDs (initialMessages : list Message) (availableSkills : list SkillDescriptor)
    (knownPriorIDs : gset string) : planning :=
  match Do caller ctx_done initialMessages (parse_plan availableSkills knownPriorIDs) plan_options with
  | (reqs, inl plan) => (reqs, inl plan)
  | (reqs, inr e) =>
      let text := do_error_text plan_error_text e in
      (reqs, inr (match e with
                  | Unparseable _ (Some _) => "planner: failed to parse plan response: " +s+ text
                  | _ => "planner: LLM call failed: " +s+ text
                  end))
  end.
Definition callAndParsePlan (initialMessages : list Message) (availableSkills : list SkillDescriptor) : planning :=
  callAndParsePlanWithPriorIDs initialMessages availableSkills ∅.

(** ** Prompts *)

Definition trusted_substitutions (mode : planPromptMode) : gmap string string :=
  list_to_map [("MODE-PREAMBLE", pm_preamble mode); ("MODE-TOT", pm_tot mode); ("MODE-GUIDANCE", pm_guidance mode);
    ("DOMAIN-ASSIGNMENT", DomainAssignment (Prompts p)); ("AGENT-PROFILES", AgentProfiles (Prompts p));
    ("MODE-EXTRA-SECTIONS", pm_extraSections mode); ("MODE-TAIL", pm_tail mode); ("MODE-JSON-EXAMPLE", pm_jsonExample mode);
    ("MAX-STEPS", pm_maxSteps mode)].
Definition skill_list (skills : list SkillDescriptor) : string :=
  match FormatSkillList p with Some f => f skills | None => "" end.
Definition data_substitutions (availableTools : list ToolDescriptor) (reflections : list Reflection)
    (availableSkills : list SkillDescriptor) (extra : list (string * string)) : gmap string string :=
  list_to_map (extra ++
   [("REFLECTIONS", formatPlanReflections reflections); ("AVAILABLE-TOOLS", BuildGroupedToolList availableTools);
    ("AVAILABLE-SKILLS", skill_list availableSkills); ("WORKSPACE-PATH", default "" (FormatWorkspacePath p));
    ("RECENT-CONVERSATION", "(no previous conversation)");
    ("ORIGINAL-REQUEST", "(n/a — this is the initial plan for the task)");
    ("COMPLETED-PLAN-SUMMARY", "(n/a — no prior plan)"); ("TERMINAL-STEPS", "(n/a — no prior plan)")]).
Definition prompt_builder (mode : planPromptMode) (baseTemplate : string) (data : gmap string string) : Builder :=
  ReplaceDataAll data (Builder_ReplaceAll (trusted_substitutions mode)
    (CacheBreak (Core (VerificationMandate (Prompts p)) (Core (familyPrompt p) (Core baseTemplate NewBuilder))))).
Definition append_sections (base : string) : string :=
  match AppendContextSections p with Some f => f base | None => base end.
Definition buildSystemPromptFromMode (mode : planPromptMode) (baseTemplate : string) (availableTools : list ToolDescriptor)
    (reflections : list Reflection) (availableSkills : list SkillDescriptor) (extra : list (string * string)) : string :=
  append_sections (Build iterate (prompt_builder mode baseTemplate
    (data_substitutions availableTools reflections availableSkills extra))).
Definition conversationSubstitutions (history : list Message) : list (string * string) :=
  [("RECENT-CONVERSATION", formatConversationHistory history)].
Definition buildPlanSystemPrompt mode availableTools reflections availableSkills history : string :=
  buildSystemPromptFromMode mode (BasePrompt (Prompts p)) availableTools reflections availableSkills (conversationSubstitutions history).
Definition buildInformedPlanSystemPrompt mode availableTools reflections availableSkills history : string :=
  buildSystemPromptFromMode mode (InformedPrompt (Prompts p)) availableTools reflections availableSkills (conversationSubstitutions history).

(** ** Planning *)

(** A single-step plan keeps the first of its steps. *)
Definition truncate_single (singleStep : bool) (plan : Planned) : Planned :=
  if singleStep && (1 <? Z.of_nat (length (p_steps (pl_plan plan))))%Z
  then mkPlanned (mkPlan (take 1 (p_steps (pl_plan plan))) (p_exploration (pl_plan plan))) (take 1 (pl_profiles plan))
  else plan.

Definition planDirect (task : string) (mode : planPromptMode) (availableTools : list ToolDescriptor)
    (reflections : list Reflection) (availableSkills : list SkillDescriptor) (singleStep : bool) (history : list Message)
    : planning :=
  let messages := systemMessagesFromPrompt (buildPlanSystemPrompt mode availableTools reflections availableSkills history) ++
                  [text_msg "user" task] in
  match callAndParsePlan messages availableSkills with
  | (reqs, inl plan) => (reqs, inl (truncate_single singleStep plan))
  | (reqs, inr e) => (reqs, inr e)
  end.

Definition getPlannerTools : list ToolDescriptor :=
  match ToolRegistry p with
  | None => []
  | Some all => List.filter (fun t => bool_decide (desc_name t ∈ PlannerToolNames p)) all
  end.

(** How the exploring run ended: with an error, the context's if it is done, or
    with a result. *)
Inductive explored := ExploreFailed (ctx_err : option string) | ExploreDone (r : ExecutorResult).
(** The run for a system prompt and a task, with these tools; [None]: there is
    no [ContextFactory]. *)
Variable explore : option (string -> string -> list ToolDescriptor -> explored).

Definition planWithExploration (task : string) (mode : planPromptMode) (availableTools : list ToolDescriptor)
    (reflections : list Reflection) (plannerTools : list ToolDescriptor) (availableSkills : list SkillDescriptor)
    (singleStep : bool) (history : list Message) : planning :=
  let direct := planDirect task mode availableTools reflections availableSkills singleStep history in
  match explore with
  | None => direct
  | Some run =>
      match run (buildInformedPlanSystemPrompt mode availableTools reflections availableSkills history) task plannerTools with
      | ExploreFailed (Some e) => ([], inr e)
      | ExploreFailed None => direct
      | ExploreDone result =>
          if String.eqb (er_output result) "" then direct
          else
            match parsePlanResponse (er_output result) availableSkills with
            | inr _ => direct
            | inl plan =>
                let plan := truncate_single singleStep plan in
                ([], inl (mkPlanned (mkPlan (p_steps (pl_plan plan)) (summarizeExplorationSteps (er_steps result)))
                            (pl_profiles plan)))
            end
      end
  end.

Definition Planner_Plan (task : string) (availableTools : list ToolDescriptor) (reflections : list Reflection)
    (availableSkills : list SkillDescriptor) (singleStep : bool) (history : list Message) : planning :=
  let mode := if singleStep then singleStepMode p else multiStepMode p in
  let plannerTools := getPlannerTools in
  if (String.eqb (default "" (DomainFromContext p)) "general" && (default 0 (ComplexityFromContext p) <? 4)%Z)
     || bool_decide (plannerTools = [])
  then planDirect task mode availableTools reflections availableSkills singleStep history
  else planWithExploration task mode availableTools reflections plannerTools availableSkills singleStep history.

Record replanContext := mkReplan {
  rc_originalPlan : string; (** its JSON *)
  rc_completedSteps : list CompletedStep;
  rc_failedStep : CompletedStep;
  rc_reflection : option Reflection;
  rc_sessionReflections : list Reflection;
  rc_availableSkills : list SkillDescriptor;
}.
Definition replan_substitutions (rc : replanContext) : list (string * string) :=
  [("ORIGINAL-PLAN", rc_originalPlan rc);
   ("COMPLETED-STEPS", join "" (map (fun cs => "- " +s+ cs_step_id cs +s+ ": " +s+ cs_output cs +s+ nl) (rc_completedSteps rc)));
   ("FAILED-STEP", cs_step_id (rc_failedStep rc) +s+ nl +s+
      match cs_error (rc_failedStep rc) with Some e => "Error: " +s+ err_text e +s+ nl | None => "" end +s+
      "Output: " +s+ cs_output (rc_failedStep rc));
   ("PREVIOUS-SESSION-REFLECTIONS", formatSessionReflections (rc_sessionReflections rc));
   ("CURRENT-REFLECTION",
      match rc_reflection rc with
      | Some r => "Reflection on failure:" +s+ nl +s+ "- Failure analysis: " +s+ rf_failure_analysis r +s+ nl +s+
                  "- Root cause: " +s+ rf_root_cause r +s+ nl +s+ "- Action plan: " +s+ rf_action_plan r +s+ nl
      | None => ""
      end)].
Definition buildReplanSystemPrompt (rc : replanContext) : string :=
  buildSystemPromptFromMode replanMode (ReplanPrompt (Prompts p)) (default [] (ToolRegistry p)) [] (rc_availableSkills rc)
    (replan_substitutions rc).
Definition Planner_Replan (rc : replanContext) : planning :=
  callAndParsePlan (systemMessagesFromPrompt (buildReplanSystemPrompt rc) ++ [text_msg "user" "Please provide the updated plan."])
    (rc_availableSkills rc).

Definition continuation_substitutions (originalRequest : string) (existingPlan : Plan) (completedSteps : list CompletedStep)
    (history : list Message) : list (string * string) :=
  [("ORIGINAL-REQUEST", originalRequest);
   ("COMPLETED-PLAN-SUMMARY", join "" (map (plan_summary_line (completed_map completedSteps)) (p_steps existingPlan)));
   ("TERMINAL-STEPS", join ", " (findTerminalSteps (Some existingPlan)));
   ("RECENT-CONVERSATION", formatConversationHistory history)].
Definition buildContinuationSystemPrompt mode originalRequest existingPlan completedSteps availableTools availableSkills history : string :=
  buildSystemPromptFromMode mode (BasePrompt (Prompts p)) availableTools [] availableSkills
    (continuation_substitutions originalRequest existingPlan completedSteps history).
Definition continuation_mode (singleStep taskComplete : bool) : planPromptMode :=
  let mode := if singleStep then continuationSingleMode p else continuationMultiMode p in
  if negb taskComplete && negb (String.eqb (ContinuationIncompletePreamble (Prompts p)) "")
  then mkMode (ContinuationIncompletePreamble (Prompts p)) (pm_tot mode) (pm_guidance mode) (pm_extraSections mode) (pm_tail mode)
         (pm_jsonExample mode) (pm_maxSteps mode)
  else mode.
Definition PlanContinuation (originalRequest : string) (existingPlan : option Plan) (completedSteps : list CompletedStep)
    (newMessage : string) (availableTools : list ToolDescriptor) (availableSkills : list SkillDescriptor)
    (singleStep : bool) (history : list Message) (taskComplete : bool) : planning :=
  match existingPlan with
  | None => ([], inr "planner: PlanContinuation requires a non-nil existing plan")
  | Some existing =>
      let systemPrompt := buildContinuationSystemPrompt (continuation_mode singleStep taskComplete) originalRequest existing
                            completedSteps availableTools availableSkills history in
      match callAndParsePlanWithPriorIDs (systemMessagesFromPrompt systemPrompt ++ [text_msg "user" newMessage]) availableSkills
              (list_to_set (step_ids existing)) with
      | (reqs, inl plan) => (reqs, inl (truncate_single singleStep plan))
      | (reqs, inr e) => (reqs, inr e)
      end
  end.
End planner.

(** ** What a plan that comes back is *)

(** A plan read from a text and checked. *)
Definition checked (availableSkills : list SkillDescriptor) (prior : gset string) (plan : Planned) : Prop :=
  valid_plan (pl_plan plan) prior /\
  length (pl_profiles plan) = length (p_steps (pl_plan plan)) /\
  forall ap s, TypedProfile ap ∈ pl_profiles plan -> s ∈ sl (ap_Skills ap) -> availableSkills <> [] -> s ∈ map sk_Name availableSkills.

Lemma keep_skills_allowed allowed ap s : s ∈ sl (ap_Skills (keep_skills (Some allowed) ap)) -> s ∈ allowed.
Proof.
  unfold keep_skills. destruct (ap_Skills ap) as [[|n names]|] eqn:E; [rewrite E; by intros ?%not_elem_of_nil| |
    rewrite E; by intros ?%not_elem_of_nil].
  set (l := n :: names). cbn [set_skills ap_Skills sl default]. by intros [_ ?%bool_decide_eq_true]%elem_of_List_filter.
Qed.
Lemma convert_profile_skills availableSkills json ap s :
  convert_profile (skill_names availableSkills) json = TypedProfile ap -> s ∈ sl (ap_Skills ap) -> availableSkills <> [] ->
  s ∈ map sk_Name availableSkills.
Proof.
  unfold convert_profile, skill_names. intros H Hs Hne. rewrite bool_decide_eq_false_2 in H by done.
  destruct json as [json|]; [|done]. destruct (json_decode json) as [[]|]; try done.
  destruct (dec_members _ _ _) as [q|]; [|done]. assert (ap = keep_skills (Some (list_to_set (map sk_Name availableSkills))) q) as -> by congruence.
  by apply keep_skills_allowed, elem_of_list_to_set in Hs.
Qed.

Lemma parse_checked content availableSkills prior plan :
  parsePlanResponseWithPriorIDs content availableSkills prior = inl plan -> checked availableSkills prior plan.
Proof.
  unfold parsePlanResponseWithPriorIDs. destruct (negb _); [done|]. destruct (unmarshal_plan _) as [pl|]; [|done].
  destruct (validatePlanDAG_outcome pl prior (S (length (p_steps pl))) ltac:(lia)) as (o & Ho & Hspec). rewrite Ho.
  destruct o as [e|]; [done|]. intros [= <-]. split; [exact (proj1 Hspec)|]. cbn [pl_profiles pl_plan]. split; [apply length_map|].
  intros ap s (st & Hst & _)%list_elem_of_fmap. symmetry in Hst. by eapply convert_profile_skills.
Qed.
Lemma asked_checked quote json_error caller ctx_done msgs availableSkills prior :
  let '(reqs, out) := callAndParsePlanWithPriorIDs quote json_error caller ctx_done msgs availableSkills prior in
  (length reqs <= 3)%nat /\
  forall plan, out = inl plan -> checked availableSkills prior plan /\ p_steps (pl_plan plan) <> [].
Proof.
  unfold callAndParsePlanWithPriorIDs.
  pose proof (Do_requests caller ctx_done msgs (parse_plan availableSkills prior) (plan_options quote json_error)) as Hl.
  destruct (Do _ _ _ _ _) as [reqs [v|e]] eqn:E; (split; [exact Hl|]); [|done]. intros plan [= <-].
  apply Do_value in E as [(n & m & resp & _ & Hp)|[Hp _]]; [|done]. unfold parse_plan in Hp.
  destruct (parsePlanResponseWithPriorIDs _ _ _) as [pl|] eqn:Ep; [|done]. case_bool_decide as Hz; [done|]. injection Hp as <-.
  split; [by eapply parse_checked|done].
Qed.

(** What planning returns: the steps of a checked plan, or the first of them. *)
Definition from_checked (singleStep : bool) (availableSkills : list SkillDescriptor) (prior : gset string) (plan : Planned) : Prop :=
  exists full, checked availableSkills prior full /\
    p_steps (pl_plan plan) = (if singleStep then take 1 else id) (p_steps (pl_plan full)) /\
    pl_profiles plan = (if singleStep then take 1 else id) (pl_profiles full).
Lemma truncate_from_checked singleStep availableSkills prior plan :
  checked availableSkills prior plan -> from_checked singleStep availableSkills prior (truncate_single singleStep plan).
Proof.
  intros Hc. exists plan. split; [done|]. unfold truncate_single. destruct singleStep; [|done]. cbn [andb].
  destruct (Z.ltb_spec 1 (Z.of_nat (length (p_steps (pl_plan plan))))) as [|Hle]; [done|].
  destruct Hc as (_ & Hl & _). rewrite !take_ge by lia. done.
Qed.
Lemma truncate_steps singleStep plan : p_steps (pl_plan plan) <> [] -> p_steps (pl_plan (truncate_single singleStep plan)) <> [].
Proof.
  intros Hne. unfold truncate_single. destruct (_ && _); [|done]. cbn. by destruct (p_steps (pl_plan plan)).
Qed.

Section returned.
Context (iterate : nat -> gmap string string -> list (string * string)) (quote json_error : string -> string) (p : Config)
  (caller : nat -> list Message -> option ChatResponse + string) (ctx_done : nat -> option string)
  (explore : option (string -> string -> list ToolDescriptor -> explored)).

Definition plan_back (singleStep : bool) (availableSkills : list SkillDescriptor) (prior : gset string) (r : planning) : Prop :=
  (length (fst r) <= 3)%nat /\
  match snd r with inl plan => from_checked singleStep availableSkills prior plan | inr _ => True end.
Definition some_step (r : planning) : Prop :=
  match snd r with inl plan => p_steps (pl_plan plan) <> [] | inr _ => True end.

Lemma truncated_back msgs singleStep availableSkills prior :
  let r := match callAndParsePlanWithPriorIDs quote json_error caller ctx_done msgs availableSkills prior with
           | (reqs, inl plan) => (reqs, inl (truncate_single singleStep plan))
           | (reqs, inr e) => (reqs, inr e)
           end in
  plan_back singleStep availableSkills prior r /\ some_step r.
Proof.
  pose proof (asked_checked quote json_error caller ctx_done msgs availableSkills prior) as H.
  destruct (callAndParsePlanWithPriorIDs _ _ _ _ _ _ _) as [reqs [plan|e]]; destruct H as [Hl H]; [|split; [split|]; done].
  destruct (H plan eq_refl) as [Hc Hne].
  split; [split; [exact Hl|by apply truncate_from_checked]|by apply truncate_steps].
Qed.
Lemma planDirect_back task mode tools reflections skills singleStep history :
  let r := planDirect iterate quote json_error p caller ctx_done task mode tools reflections skills singleStep history in
  plan_back singleStep skills ∅ r /\ some_step r.
Proof. apply truncated_back. Qed.
Lemma planWithExploration_back task mode tools reflections plannerTools skills singleStep history :
  let r := planWithExploration iterate quote json_error p caller ctx_done explore task mode tools reflections plannerTools skills
             singleStep history in
  plan_back singleStep skills ∅ r /\ (some_step r \/ fst r = []).
Proof.
  destruct (planDirect_back task mode tools reflections skills singleStep history) as [Hb Hs].
  unfold planWithExploration. destruct explore as [run|]; [|auto].
  destruct (run _ _ _) as [[e|]|result]; [split; [split; [simpl; lia|done]|by right]|auto|].
  destruct (String.eqb _ ""); [auto|]. destruct (parsePlanResponse _ _) as [plan|e] eqn:E; [|auto].
  apply parse_checked, (truncate_from_checked singleStep) in E. split; [split; [simpl; lia|exact E]|by right].
Qed.
End returned.

(** Every plan the planner returns was checked.  Its steps are those of a
    plan with unique IDs, known dependencies (of this plan or, in a
    continuation, of the existing one) and no cycle, or the first of them in
    single-step mode, and the typed profiles name available skills only.  At
    most three requests are sent; a plan that was asked for directly, revised or
    continued has a step. *)
Theorem plans_checked iterate quote json_error p caller ctx_done explore :
  (forall task tools reflections skills singleStep history,
     let r := Planner_Plan iterate quote json_error p caller ctx_done explore task tools reflections skills singleStep history in
     plan_back singleStep skills ∅ r /\ (some_step r \/ fst r = [])) /\
  (forall rc, let r := Planner_Replan iterate quote json_error p caller ctx_done rc in
     plan_back false (rc_availableSkills rc) ∅ r /\ some_step r) /\
  (forall originalRequest existingPlan completedSteps newMessage tools skills singleStep history taskComplete,
     let r := PlanContinuation iterate quote json_error p caller ctx_done originalRequest existingPlan completedSteps newMessage
                tools skills singleStep history taskComplete in
     plan_back singleStep skills (list_to_set (default [] (step_ids <$> existingPlan))) r /\ some_step r).
Proof.
  split; [|split].
  - intros. subst r. unfold Planner_Plan. destruct (_ || _); [|apply planWithExploration_back].
    pose proof (planDirect_back iterate quote json_error p caller ctx_done task
      (if singleStep then singleStepMode p else multiStepMode p) tools reflections skills singleStep history) as [? ?]. auto.
  - intros rc r. pose proof (truncated_back quote json_error caller ctx_done
      (systemMessagesFromPrompt (buildReplanSystemPrompt iterate p rc) ++ [text_msg "user" "Please provide the updated plan."])
      false (rc_availableSkills rc) ∅) as H.
    subst r. unfold Planner_Replan, callAndParsePlan. by destruct (callAndParsePlanWithPriorIDs _ _ _ _ _ _ _) as [? [?|?]].
  - intros. subst r. unfold PlanContinuation. destruct existingPlan as [existing|]; [|split; [split; [simpl; lia|done]|done]].
    apply truncated_back.
Qed.

(** ** What untrusted values do to a prompt *)

Definition fixed_names : list string :=
  ["REFLECTIONS"; "AVAILABLE-TOOLS"; "AVAILABLE-SKILLS"; "WORKSPACE-PATH"; "RECENT-CONVERSATION"; "ORIGINAL-REQUEST";
   "COMPLETED-PLAN-SUMMARY"; "TERMINAL-STEPS"].
Lemma dom_data_substitutions p tools reflections skills extra k :
  k ∈ dom (data_substitutions p tools reflections skills extra) <-> k ∈ map fst extra ++ fixed_names.
Proof.
  unfold data_substitutions. rewrite dom_list_to_map, elem_of_list_to_set. by rewrite fmap_app.
Qed.

Section inert.
Context (iterate : nat -> gmap string string -> list (string * string)) (p : Config).
(** The prompt of a mode over a template, as a text in which the values of the
    extra names and of the fixed ones stand at places of their own. *)
Definition inert (mode : planPromptMode) (base : string) (names : list string)
    (prompt : gmap string string -> string) : Prop :=
  let keys := names ++ fixed_names in
  exists parts,
    scans keys (fst (trusted_texts iterate (prompt_builder p mode base ∅))) (fst parts) /\
    scans keys (snd (trusted_texts iterate (prompt_builder p mode base ∅))) (snd parts) /\
    forall data, (forall k, k ∈ dom data <-> k ∈ keys) -> prompt data = append_sections p (put_in data parts).
Lemma builder_inert mode base names :
  "" ∉ names -> inert mode base names (fun data => append_sections p (Build iterate (prompt_builder p mode base data))).
Proof.
  intros Hn. destruct (Build_render iterate (prompt_builder p mode base ∅) (names ++ fixed_names)) as (parts & H1 & H2 & Hb).
  { rewrite elem_of_app. intros [?|H]; [done|]. unfold fixed_names in H.
    repeat (apply elem_of_cons in H as [H|H]; [done|]). by apply not_elem_of_nil in H. }
  exists parts. split; [done|]. split; [done|]. intros data Hd. rewrite <- (Hb data Hd).
  assert (E : prompt_builder p mode base data = with_data data (prompt_builder p mode base ∅)); [|by rewrite E].
  exact (f_equal (fun d => mkBuilder _ _ d _) (map_union_empty data)).
Qed.
End inert.

(** What a model, a user, a tool or a run wrote never changes what the planner
    is told.  For a mode and a configuration, each of the three prompts (of a new
    plan, of a continuation, of a revision) is one fixed text in which the
    values stand as they are at fixed places: names of placeholders inside a
    conversation, a request, an output, a reflection, a tool or a skill
    description are not expanded. *)
Theorem prompts_inert iterate p mode base :
  (let names := ["RECENT-CONVERSATION"] in
   exists f, inert iterate p mode base names f /\
     forall tools reflections skills history,
       buildSystemPromptFromMode iterate p mode base tools reflections skills (conversationSubstitutions history) =
       f (data_substitutions p tools reflections skills (conversationSubstitutions history))) /\
  (let names := ["ORIGINAL-REQUEST"; "COMPLETED-PLAN-SUMMARY"; "TERMINAL-STEPS"; "RECENT-CONVERSATION"] in
   exists f, inert iterate p mode (BasePrompt (Prompts p)) names f /\
     forall request existing completed tools skills history,
       buildContinuationSystemPrompt iterate p mode request existing completed tools skills history =
       f (data_substitutions p tools [] skills (continuation_substitutions request existing completed history))) /\
  (let names := ["ORIGINAL-PLAN"; "COMPLETED-STEPS"; "FAILED-STEP"; "PREVIOUS-SESSION-REFLECTIONS"; "CURRENT-REFLECTION"] in
   exists f, inert iterate p replanMode (ReplanPrompt (Prompts p)) names f /\
     forall rc, buildReplanSystemPrompt iterate p rc =
       f (data_substitutions p (default [] (ToolRegistry p)) [] (rc_availableSkills rc) (replan_substitutions rc))) /\
  (forall tools reflections skills extra k,
     k ∈ dom (data_substitutions p tools reflections skills extra) <-> k ∈ map fst extra ++ fixed_names).
Proof.
  split; [|split; [|split]]; cbv zeta.
  - eexists. split; [apply builder_inert|done]. by apply (bool_decide_unpack _).
  - eexists. split; [apply builder_inert|done]. by apply (bool_decide_unpack _).
  - eexists. split; [apply builder_inert|done]. by apply (bool_decide_unpack _).
  - intros. apply dom_data_substitutions.
Qed.

(** ** Concrete inputs *)

Definition demo_prompts : PromptSet :=
  mkPrompts "Plan. MODE-PREAMBLE TASKS: RECENT-CONVERSATION" "Explore." "Revise." "Decompose." "One step." "" "" "" "" "Go on." ""
    "One more." "" "" "" None "Verify.".
Definition demo_config : Config :=
  NewPlanner (mkConfig demo_prompts None (Some 5%Z) None None None None
    (Some [mkDescriptor "read_file" "reads" "{}" "core" "core" "local_read"]) {["read_file"]} None 0).
Definition demo_reply (text : string) (n : nat) (msgs : list Message) : option ChatResponse + string :=
  inl (Some (mkChatResponse "" "" (text_msg "assistant" text) "" (mkTokenUsage 0 0) "")).
Definition demo_plan (explore : option (string -> string -> list ToolDescriptor -> explored)) (reply : string) (singleStep : bool) : planning :=
  Planner_Plan (fun _ m => map_to_list m) (fun s => s) (fun _ => "") demo_config (demo_reply reply) (fun _ => None) explore
    "task" [] [] [mkSkill "go" ""] singleStep [].

Example reads_profiles :
  parsePlanResponse (dquotes
    "Here: {'steps': [{'id': 'a', 'ID': 'b', 'summary': 's', 'profile': {'role': 'coder', 'skills': ['go', 'x'], 'max_steps': 3.0}}]}")
    [mkSkill "go" ""] =
  inl (mkPlanned (mkPlan [mkPlanStep "b" "s" "" None false None ""
        (Some (dquotes "{'role': 'coder', 'skills': ['go', 'x'], 'max_steps': 3.0}"))] "")
       [TypedProfile (mkProfile "coder" "" None (Some ["go"]) 3 "" 0 None)]).
Proof. vm_compute. reflexivity. Qed.

(** The step that single-step mode keeps may wait for one that it drops. *)
Example kept_step_waits_for_dropped_one :
  match snd (demo_plan None (dquotes "{'steps': [{'id': 'a', 'depends_on': ['b']}, {'id': 'b'}]}") true) with
  | inl plan => step_ids (pl_plan plan) = ["a"] /\ FindReadySteps (Some (pl_plan plan)) ∅ = []
  | inr _ => False
  end.
Proof. vm_compute. done. Qed.

(** A plan without steps is refused everywhere but behind an exploration. *)
Example explored_plan_without_steps :
  (exists e, snd (demo_plan None (dquotes "{'steps': []}") false) = inr e) /\
  snd (demo_plan (Some (fun _ _ _ => ExploreDone (mkExecutorResult (dquotes "{'steps': []}") [] true "" ""))) "" false) =
    inl (mkPlanned (mkPlan [] "") []).
Proof. split; [eexists; vm_compute; reflexivity|vm_compute; reflexivity]. Qed.
