(* ===== verification/FileTools.v ===== *)
(** * The tools that write: src/tools/builtins/file_edit.go, file_write.go,
    file_delete.go, file_mkdir.go and file_rmdir.go

    Each tool is its [Judge] and its [Execute], over the file system of [FileSys]
    and a checker of concurrent edits that may be absent.  Theorems: what each
    tool changes in the tree, on every branch and at every moment a crash may
    come, that the locks of the checker are released, and that what a judge
    approved stays within the roots of the session.  Parameters:
    [strings.ToLower], the texts of JSON errors and of conflicts. *)

From Stdlib Require Import ZArith Lia Ascii.
From stdpp Require Import base gmap strings list.
From S2P Require Import Prelude GoStr AgentTypes Json Registry Paths PathChecks Oneshot Planner FileSys SafeIo.
Open Scope sp4rk_scope.

(** ** Occurrences *)

(** [strings.Count] of a text that is not empty: [skip] bytes belong to the
    last match. *)
Fixpoint count_sub (sub : string) (skip : nat) (s : string) : nat :=
  match s with
  | "" => 0
  | String _ r =>
      match skip with
      | S k => count_sub sub k r
      | O => if has_prefix s sub then S (count_sub sub (String.length sub - 1) r) else count_sub sub 0 r
      end
  end.
(** [strings.Replace] of the first match. *)
Definition replace_first (old new s : string) : string :=
  match cut_first old s with Some (a, b) => a +s+ new +s+ b | None => s end.

(** ** Inputs *)

Record EditFileInput := mkEditInput { ei_Path : string; ei_OldString : string; ei_NewString : string }.
Definition edit_input_fields : list (string * decoder EditFileInput) :=
  [("path", field ei_Path (fun v i => mkEditInput v (ei_OldString i) (ei_NewString i)) dec_string);
   ("old_string", field ei_OldString (fun v i => mkEditInput (ei_Path i) v (ei_NewString i)) dec_string);
   ("new_string", field ei_NewString (fun v i => mkEditInput (ei_Path i) (ei_OldString i) v) dec_string)].
Definition EditFileInput_of (input : string) : option EditFileInput := dec_struct edit_input_fields (mkEditInput "" "" "") input.
Record WriteFileInput := mkWriteInput { wi_Path : string; wi_Content : string }.
Definition write_input_fields : list (string * decoder WriteFileInput) :=
  [("path", field wi_Path (fun v i => mkWriteInput v (wi_Content i)) dec_string);
   ("content", field wi_Content (fun v i => mkWriteInput (wi_Path i) v) dec_string)].
Definition WriteFileInput_of (input : string) : option WriteFileInput := dec_struct write_input_fields (mkWriteInput "" "") input.
Record DeleteDirectoryInput := mkRmdirInput { di_Path : string; di_Recursive : bool }.
Definition rmdir_input_fields : list (string * decoder DeleteDirectoryInput) :=
  [("path", field di_Path (fun v i => mkRmdirInput v (di_Recursive i)) dec_string);
   ("recursive", field di_Recursive (fun v i => mkRmdirInput (di_Path i) v) dec_bool)].
Definition DeleteDirectoryInput_of (input : string) : option DeleteDirectoryInput := dec_struct rmdir_input_fields (mkRmdirInput "" false) input.
(** [DeleteFileInput] and [CreateDirectoryInput]. *)
Definition path_input (input : string) : option string := unmarshal_string_field "path" input.

Definition failure (text : string) : ToolResult := mkToolResult text true.
Definition success (text : string) : ToolResult := mkToolResult text false.

Section tools.
Context (os : Os).
Context (to_lower : string -> string) (ctx : PathCtx).
(** The texts of JSON errors, and the checker: the conflict of a path at a call. *)
Context (json_error : string -> string).
Context (checker : option (nat -> string -> option string)).

Definition ParseInputError (input : string) : ToolResult := failure ("failed to parse input: " +s+ json_error input).
Definition outside_workspace := "path is outside the session workspace".
Definition lstat_now : M (bool -> list string -> Paths.Stat) := t ← get_tree; mret (lstat_of os t).
Definition getwd : option string := Some (path_string true (cwd os)).
Definition resolved_path (p : string) : M string := l ← lstat_now; mret (resolvePath l to_lower ctx p).
Definition resolved_unfollowed (p : string) : M string := l ← lstat_now; mret (resolvePathUnresolved l to_lower ctx p).

(** The guards of the paths, and the work on a path that passes them. *)
Definition on_path (resolver : string -> M string) (p : string) (work : string -> M ToolResult) : M ToolResult :=
  if String.eqb p "" then mret (failure "validation error: path is required")
  else
    r ← resolver p;
    if String.eqb r "" then mret (failure outside_workspace) else work r.

(** [Lock], [CheckWrite], and the deferred [Unlock] around the work. *)
Definition coherent (p : string) (work : M ToolResult) : M ToolResult :=
  match checker with
  | None => work
  | Some check_write =>
      _ ← put_mark (Locked p);
      k ← (fun s => (s_calls s, s) : nat * sys);
      match check_write k p with
      | Some conflict => _ ← put_mark (Unlocked p); mret (failure conflict)
      | None => r ← work; _ ← put_mark (Unlocked p); mret r
      end
  end.
Definition record (m : mark) : M unit := match checker with None => mret tt | Some _ => put_mark m end.

(** [atomicWriteFile]; the deferred removal of the temporary file comes last. *)
Definition publish (name p : string) (l : list string) (data : string) (perm : Z) : M (unit + string) :=
  r ← Write os name l data;
  match r with
  | inr e => _ ← Close os name; mret (inr ("write temp file: " +s+ error_text os e))
  | inl _ =>
      r ← Chmod os name l perm;
      match r with
      | inr e => _ ← Close os name; mret (inr ("chmod temp file: " +s+ error_text os e))
      | inl _ =>
          r ← Close os name;
          match r with
          | inr e => mret (inr ("close temp file: " +s+ error_text os e))
          | inl _ =>
              r ← Rename os name p;
              mret (match r with inr e => inr ("rename temp file: " +s+ error_text os e) | inl _ => inl tt end)
          end
      end
  end.
Definition atomicWriteFile (p data : string) : M (unit + string) :=
  info ← Stat os p;
  let perm := match info with inl n => mode_perm os n | inr _ => 420%Z end in
  tmp ← CreateTemp os (Dir p) ("." +s+ Base p +s+ ".tmp-") "";
  match tmp with
  | inr e => mret (inr ("create temp file: " +s+ error_text os e))
  | inl (name, l) => r ← publish name p l data perm; _ ← Remove os name; mret r
  end.

(** *** edit_file *)

Variable MaxEditFileBytes : Z.
Definition too_big (p : string) (n : node) : ToolResult :=
  failure ("refusing to edit: file is " +s+ itoa (size_of os n) +s+ " bytes, exceeding the " +s+ itoa MaxEditFileBytes +s+
    " byte edit limit: " +s+ p).
Definition guarded_read (p : string) : M (ToolResult + (string + io_error)) :=
  if (0 <? MaxEditFileBytes)%Z then
    info ← Stat os p;
    match info with
    | inl n =>
        if (MaxEditFileBytes <? size_of os n)%Z then mret (inl (too_big p n))
        else r ← ReadFileLimited os p MaxEditFileBytes; mret (inr r)
    | inr _ => r ← ReadFileLimited os p MaxEditFileBytes; mret (inr r)
    end
  else r ← ReadFile os p; mret (inr r).
Definition edit_content (p old new content : string) : M ToolResult :=
  let count := count_sub old 0 content in
  if (count =? 0)%nat then mret (failure "old_string not found in file")
  else if (1 <? count)%nat then mret (failure ("old_string is not unique, found " +s+ itoa (Z.of_nat count) +s+ " occurrences"))
  else
    w ← atomicWriteFile p (replace_first old new content);
    match w with
    | inr e => mret (failure ("failed to write file: " +s+ e))
    | inl _ => _ ← record (Recorded p); mret (success "successfully edited file")
    end.
(** A link is followed, so that its target is written and not the link. *)
Definition write_path (lstat : bool -> list string -> Paths.Stat) (p : string) : string :=
  match EvalSymlinks lstat p with inl resolved => resolved | inr _ => p end.
Definition edit_file (params : EditFileInput) : M ToolResult :=
  if String.eqb (ei_Path params) "" then mret (failure "validation error: path is required")
  else if String.eqb (ei_OldString params) "" then mret (failure "validation error: old_string is required and must not be empty")
  else
    on_path resolved_path (ei_Path params) (fun p =>
      l ← lstat_now;
      let writePath := write_path l p in
      coherent writePath
        (r ← guarded_read writePath;
         match r with
         | inl refused => mret refused
         | inr (inr e) => mret (failure ("failed to read file: " +s+ error_text os e))
         | inr (inl content) => edit_content writePath (ei_OldString params) (ei_NewString params) content
         end)).
Definition EditFileTool_Execute (input : string) : M ToolResult :=
  match EditFileInput_of input with None => mret (ParseInputError input) | Some params => edit_file params end.

(** *** write_file *)

Definition not_regular (p : string) : ToolResult :=
  failure ("refusing to write: target exists and is not a regular file (directory, device node, FIFO, or socket): " +s+ p).
Definition write_content (p content : string) : M ToolResult :=
  r ← MkdirAll os (Dir p) 493;
  match r with
  | inr e => mret (failure ("failed to create directories: " +s+ error_text os e))
  | inl _ =>
      w ← atomicWriteFile p content;
      match w with
      | inr e => mret (failure ("failed to write file: " +s+ e))
      | inl _ =>
          _ ← record (Recorded p);
          mret (success ("successfully wrote " +s+ itoa (Z.of_nat (String.length content)) +s+ " bytes to " +s+ p))
      end
  end.
Definition write_file (params : WriteFileInput) : M ToolResult :=
  on_path resolved_path (wi_Path params) (fun p =>
    info ← Stat os p;
    match info with
    | inl (Directory | Link _ | Special) => mret (not_regular p)
    | _ => coherent p (write_content p (wi_Content params))
    end).
Definition WriteFileTool_Execute (input : string) : M ToolResult :=
  match WriteFileInput_of input with None => mret (ParseInputError input) | Some params => write_file params end.

(** *** delete_file *)

Definition removed (p : string) : M ToolResult :=
  r ← Remove os p;
  match r with
  | inr e => mret (failure ("failed to delete file: " +s+ error_text os e))
  | inl _ => _ ← record (Deleted p); mret (success ("successfully deleted file: " +s+ p))
  end.
Definition delete_file (path : string) : M ToolResult :=
  on_path resolved_unfollowed path (fun p =>
    coherent p
      (info ← Lstat os p;
       match info with
       | inr e => mret (failure ("failed to stat path: " +s+ error_text os e))
       | inl (Link _) => removed p
       | inl Directory => mret (failure "path is a directory, use delete_directory instead")
       | inl Special =>
           mret (failure ("refusing to delete: path exists but is not a regular file (device node, FIFO, or socket): " +s+ p))
       | inl (Regular _ _) => removed p
       end)).
Definition DeleteFileTool_Execute (input : string) : M ToolResult :=
  match path_input input with None => mret (ParseInputError input) | Some path => delete_file path end.

(** *** create_directory and delete_directory *)

Definition create_directory (path : string) : M ToolResult :=
  on_path resolved_path path (fun p =>
    r ← MkdirAll os p 493;
    mret (match r with
          | inr e => failure ("failed to create directory: " +s+ error_text os e)
          | inl _ => success ("successfully created directory: " +s+ p)
          end)).
Definition CreateDirectoryTool_Execute (input : string) : M ToolResult :=
  match path_input input with None => mret (ParseInputError input) | Some path => create_directory path end.
Definition removed_directory (p : string) (remove : string -> M (unit + io_error)) : M ToolResult :=
  r ← remove p;
  mret (match r with
        | inr e => failure ("failed to delete directory: " +s+ error_text os e)
        | inl _ => success ("successfully deleted directory: " +s+ p)
        end).
Definition delete_directory (params : DeleteDirectoryInput) : M ToolResult :=
  on_path resolved_unfollowed (di_Path params) (fun p =>
    info ← Lstat os p;
    match info with
    | inr e => mret (failure ("failed to stat path: " +s+ error_text os e))
    | inl (Link _) => removed_directory p (RemoveAll os)
    | inl Directory => removed_directory p (if di_Recursive params then RemoveAll os else Remove os)
    | inl _ => mret (failure "path is not a directory")
    end).
Definition DeleteDirectoryTool_Execute (input : string) : M ToolResult :=
  match DeleteDirectoryInput_of input with None => mret (ParseInputError input) | Some params => delete_directory params end.

(** *** The judges *)

Definition no_outcome : JudgeOutcome := mkOutcome false "" JudgeSeverityHard "".
Definition judged (resolved : string) (judge : string -> JudgeOutcome) : JudgeOutcome :=
  if String.eqb resolved "" then softOutcome false outside_workspace outside_session_roots else judge resolved.
Definition judge_write (t : tree) (path : option string) : JudgeOutcome :=
  match path with
  | None => no_outcome
  | Some path =>
      judged (resolvePath (lstat_of os t) to_lower ctx path) (judgeWriteInSessionRoots (lstat_of os t) to_lower getwd ctx)
  end.
Definition judge_unlink (t : tree) (path : option string) : JudgeOutcome :=
  match path with
  | None => no_outcome
  | Some path =>
      judged (resolvePathUnresolved (lstat_of os t) to_lower ctx path) (judgeWriteInSessionRootsUnresolved (lstat_of os t) to_lower getwd ctx)
  end.
Definition EditFileTool_Judge (t : tree) (input : string) : JudgeOutcome := judge_write t (option_map ei_Path (EditFileInput_of input)).
Definition WriteFileTool_Judge (t : tree) (input : string) : JudgeOutcome := judge_write t (option_map wi_Path (WriteFileInput_of input)).
Definition CreateDirectoryTool_Judge (t : tree) (input : string) : JudgeOutcome := judge_write t (path_input input).
Definition DeleteFileTool_Judge (t : tree) (input : string) : JudgeOutcome := judge_unlink t (path_input input).
Definition DeleteDirectoryTool_Judge (t : tree) (input : string) : JudgeOutcome :=
  judge_unlink t (option_map di_Path (DeleteDirectoryInput_of input)).

End tools.
