(* ===== verification/FileToolFacts.v ===== *)
(** * What the tools that write do

    The theorems about the tools of [FileTools]: an edit replaces one occurrence
    and nothing else, a deletion takes one entry and never what a link points
    to, locks are released, a crash finds the old file or the new one, and what
    a judge let pass stays within the session. *)

From Stdlib Require Import ZArith Lia Ascii.
From stdpp Require Import base gmap strings list.
From S2P Require Import Prelude GoStr AgentTypes Json Registry Paths PathChecks ToolCache Oneshot Planner FileSys SafeIo FileFacts FileTools.
Open Scope sp4rk_scope.

(** ** Occurrences *)

Lemma prefix_split sub s : String.prefix sub s = true -> s = sub +s+ str_drop (String.length sub) s.
Proof.
  revert s. induction sub as [|c sub IH]; intros s; [by destruct s|]. destruct s as [|d s]; [done|]. cbn [String.prefix].
  destruct (ascii_dec c d) as [->|]; [|done]. intros H. exact (f_equal (String d) (IH s H)).
Qed.
Lemma prefix_has sub s : String.prefix sub s = has_prefix s sub.
Proof.
  revert s. induction sub as [|c sub IH]; intros s; [by destruct s|]. destruct s as [|d s]; [done|]. cbn [String.prefix has_prefix].
  destruct (ascii_dec c d) as [->|Hne]; [by rewrite Ascii.eqb_refl|]. destruct (Ascii.eqb_spec d c); [congruence|done].
Qed.
Lemma index_split sub s i : String.index 0 sub s = Some i -> s = take_str i s +s+ sub +s+ str_drop (i + String.length sub) s.
Proof.
  revert i. induction s as [|c s IH]; intros i.
  - destruct sub; [|done]. by intros [= <-].
  - unfold String.index; fold String.index. destruct (String.prefix sub (String c s)) eqn:E.
    + intros [= <-]. exact (prefix_split _ _ E).
    + destruct (String.index 0 sub s) as [j|]; [|done]. intros [= <-]. exact (f_equal (String c) (IH _ eq_refl)).
Qed.
Lemma cut_first_split sub s a b : cut_first sub s = Some (a, b) -> s = a +s+ sub +s+ b.
Proof.
  unfold cut_first. destruct (String.index 0 sub s) as [i|] eqn:E; [|done]. intros [= <- <-]. by apply index_split.
Qed.
Lemma cut_first_none sub s : cut_first sub s = None -> count_sub sub 0 s = 0%nat.
Proof.
  unfold cut_first. destruct (String.index 0 sub s) as [i|] eqn:E; [done|]. intros _. induction s as [|c s IH]; [done|].
  unfold String.index in E; fold String.index in E. cbn [count_sub]. rewrite <- prefix_has. destruct (String.prefix sub (String c s)); [done|].
  apply IH. by destruct (String.index 0 sub s).
Qed.
Lemma replace_first_once old new s : count_sub old 0 s = 1%nat -> exists a b, s = a +s+ old +s+ b /\ replace_first old new s = a +s+ new +s+ b.
Proof.
  intros H. unfold replace_first. destruct (cut_first old s) as [[a b]|] eqn:E; [|by rewrite cut_first_none in H].
  exists a, b. split; [by apply cut_first_split|done].
Qed.

(** ** Paths of the tools *)

Section paths.
Context (os : Os) (to_lower : string -> string) (ctx : PathCtx).

Lemma rawJoin_abs base p : is_abs base = true -> is_abs (rawJoin base p) = true.
Proof.
  intros H. apply is_abs_spec in H as [t ->]. unfold rawJoin. set (u := trim_slashes (sep +s+ t)).
  assert (Hu : u = "" \/ is_abs u = true).
  { unfold u, trim_slashes. destruct (drop_slashes_spec (String.rev (sep +s+ t))) as (x & Hx & _). apply (f_equal String.rev) in Hx.
    rewrite rev_rev, rev_sapp in Hx. destruct (String.rev (drop_slashes (String.rev (sep +s+ t)))) as [|c r]; [by left|right].
    change (String c r +s+ String.rev x) with (String c (r +s+ String.rev x)) in Hx. injection Hx as <- _. apply has_prefix_nil. }
  destruct u as [|c u]; [by destruct (String.eqb p "")|]. destruct Hu as [?|Hu]; [done|].
  destruct (String.eqb p ""); [exact Hu|]. by rewrite is_abs_app.
Qed.
Lemma resolveWorkspaceRoot_abs lstat ws r : is_abs ws = true -> resolveWorkspaceRoot lstat ws = Some r -> is_abs r = true.
Proof.
  intros Ha. unfold resolveWorkspaceRoot, EvalSymlinks. pose proof (Clean_abs _ Ha) as Hc. destruct (eval_comps lstat (Clean ws)) as [[rooted l]|[|]] eqn:E; [|by intros [= <-]|done].
  intros [= <-]. destruct (eval_physical _ _ _ _ Hc E) as [-> _]. apply root_abs.
Qed.
Lemma ResolveExistingPrefix_abs lstat p : is_abs p = true -> is_abs (ResolveExistingPrefix lstat p) = true.
Proof.
  intros Ha. destruct (ResolveExistingPrefix_spec lstat p Ha) as (r & _ & -> & [(l & _ & _ & _ & _ & -> & _)|[_ ->]]); [apply root_abs|done].
Qed.
Lemma resolvePath_abs lstat p :
  is_abs (px_workspace ctx) = true -> resolvePath lstat to_lower ctx p = "" \/ is_abs (resolvePath lstat to_lower ctx p) = true.
Proof.
  intros Ha. unfold resolvePath. destruct (String.eqb_spec (px_workspace ctx) "") as [E|_]; [by rewrite E in Ha|].
  destruct (resolveWorkspaceRoot lstat (px_workspace ctx)) as [r|] eqn:E; [|by left]. destruct (is_abs p) eqn:Hp.
  - right. by apply ResolveExistingPrefix_abs.
  - destruct (IsWithinRoot _ _ _ _ _); [right|by left]. apply ResolveExistingPrefix_abs, rawJoin_abs. by eapply resolveWorkspaceRoot_abs.
Qed.

(** What the kernel finds, package filepath finds. *)
Lemma kernel_eval t p l : (max_links os <= maxLinks)%nat -> is_abs p = true -> resolve os t p = inl l -> eval_comps (lstat_of os t) p = inl (true, l).
Proof.
  intros Hm Ha. unfold resolve, kernel_walk, start. rewrite Ha. destruct (String.eqb p ""); [done|].
  destruct (walk (lstat_of os t) (max_links os) true [] (pieces p)) as [[rooted l']|[|]] eqn:E; try done. intros [= <-].
  apply walk_resolves in E as (n & Hn & E).
  assert (rooted = true) as ->.
  { destruct (resolves_physical _ _ _ _ _ _ E) as (l & [= -> _] & _); [done|apply dirs_nil|constructor|apply pieces_slash_free|done]. }
  rewrite eval_comps_walk, Ha. eapply resolves_walk; [exact E|lia].
Qed.
Lemma EvalSymlinks_inv lstat p q :
  is_abs p = true -> EvalSymlinks lstat p = inl q -> exists l, eval_comps lstat p = inl (true, l) /\ q = root_path l /\ physical lstat l.
Proof.
  intros Ha. unfold EvalSymlinks. destruct (eval_comps lstat p) as [[rooted l]|e] eqn:E; [|done]. intros [= <-].
  destruct (eval_physical _ _ _ _ Ha E) as [-> Hp]. by exists l.
Qed.
Lemma EvalSymlinks_of lstat p l : eval_comps lstat p = inl (true, l) -> EvalSymlinks lstat p = inl (root_path l).
Proof. intros E. unfold EvalSymlinks. by rewrite E. Qed.
Lemma eval_place t p r :
  well_formed t -> is_abs p = true -> EvalSymlinks (lstat_of os t) p = inl r ->
  exists l n, r = root_path l /\ entry t l = Some n /\ is_link n = false /\ resolve os t r = inl l /\
    (l = [] \/ exists d c, l = d ++ [c] /\ entry t d = Some Directory /\ ordinary c = true).
Proof.
  intros Hw Ha. unfold EvalSymlinks. destruct (eval_comps (lstat_of os t) p) as [[rooted l]|] eqn:E; [|done]. intros [= <-].
  destruct (eval_physical _ _ _ _ Ha E) as [-> Hp]. destruct (physical_entry _ _ _ Hp) as (n & Hn & Hl). exists l, n.
  split; [done|]. split; [done|]. split; [done|]. destruct l as [|c d _] using rev_ind.
  - split; [by apply resolve_dir|by left].
  - rewrite entry_snoc in Hn. destruct (wf_parent _ _ _ _ Hw Hn) as [Hc Hd]. split; [|right; by exists d, c].
    rewrite resolve_canonical by done. rewrite entry_snoc, Hn. by destruct n.
Qed.
End paths.

(** ** Parts of the tools *)

Section parts.
Context (os : Os) (checker : option (nat -> string -> option string)).

(** The mode a replaced file gets. *)
Definition mode_kept (t : tree) (p : string) (perm : Z) : Prop :=
  match stat_at os t p with inl n => perm = mode_perm os n | inr _ => perm = 420%Z end \/ (faulty os /\ perm = 420%Z).
Lemma wp_atomicWriteFile (t : tree) d c data s :
  well_formed t -> entry t d = Some Directory -> ordinary c = true -> s_tree s = t ->
  wp (moment t d c data) (atomicWriteFile os (root_path (d ++ [c])) data) (fun r s' => s_marks s' = s_marks s /\
    match r with
    | inl _ => exists perm, mode_kept t (root_path (d ++ [c])) perm /\ entry t (d ++ [c]) <> Some Directory /\
        s_tree s' = <[d ++ [c] := Regular perm data]> t
    | inr _ => failed os t d c ("." +s+ c +s+ ".tmp-") "" (s_tree s')
    end) s.
Proof.
  intros Hw Hd Hc Hs. pose proof (plain_place t d c Hw Hd Hc) as Ho. unfold atomicWriteFile. rewrite Dir_root, Base_root by done.
  pose proof (ordinary_slash_free c Hc) as Hsf. apply wp_bind.
  assert (Hgo : forall (info : node + io_error) s0, after s s0 t ->
    (let perm := match info with inl n => mode_perm os n | inr _ => 420%Z end in mode_kept t (root_path (d ++ [c])) perm) ->
    wp (moment t d c data)
      (tmp ← CreateTemp os (root_path d) ("." +s+ c +s+ ".tmp-") "";
       match tmp with
       | inr e => mret (inr ("create temp file: " +s+ error_text os e))
       | inl (name, l) =>
           r ← publish os name (root_path (d ++ [c])) l data (match info with inl n => mode_perm os n | inr _ => 420%Z end);
           _ ← Remove os name; mret r
       end)
      (fun r s' => s_marks s' = s_marks s /\
         match r with
         | inl _ => exists perm, mode_kept t (root_path (d ++ [c])) perm /\ entry t (d ++ [c]) <> Some Directory /\
             s_tree s' = <[d ++ [c] := Regular perm data]> t
         | inr _ => failed os t d c ("." +s+ c +s+ ".tmp-") "" (s_tree s')
         end) s0).
  2: { apply wp_stat; rewrite ?Hs; [apply moment_old| |].
    - intros e s0 Hf Hs0. apply (Hgo (inr e) s0 Hs0). unfold mode_kept. destruct Hf as [Hf|[x Hx]]; [by right|]. left. by rewrite Hx.
    - intros n s0 Hs0 Hn. apply (Hgo (inl n) s0 Hs0). left. by rewrite Hn. }
  intros info s0 [Ht0 Hm0] Hperm. cbv zeta in Hperm. set (perm := match info with inl n => mode_perm os n | inr _ => 420%Z end) in *. clearbody perm.
  apply wp_bind. apply wp_create_temp; rewrite ?Ht0; try done.
  { rewrite sapp_nil_r, !has_char_app, Hsf. done. }
  { rewrite !length_sapp. destruct c; [done|]. simpl. lia. }
  { apply moment_old. }
  { intros e s1 Hf [H1 H2]. apply wp_ret. split; [congruence|]. split_and!; [by left|by right|unfold obstructed; tauto]. }
  intros nm s1 Hnm Hfresh [Ht1 Hm1]. assert (Hne : nm <> c).
  { eapply temp_neq; [|exact Hnm]. rewrite !length_sapp. lia. }
  destruct Hnm as [Hnm _]. split; [on_the_way Ht1|]. apply wp_bind. unfold publish. apply wp_bind. unfold created in Ht1.
  eapply wp_append_file; [by destruct d|exact Ht1| |].
  { intros e n s2 Hf [Ht2 Hm2]. split; [on_the_way Ht2|]. apply wp_bind, wp_idle; [on_the_way Ht2|].
    intros r s3 _ [Ht3 Hm3]. rewrite Ht2 in Ht3. apply wp_ret. give_in Ht3. }
  intros s2 [Ht2 Hm2]. change ("" +s+ data) with data in Ht2. split; [on_the_way Ht2|]. apply wp_bind.
  eapply wp_chmod_file; [by destruct d|exact Ht2| |].
  { intros e s3 Hf [Ht3 Hm3]. rewrite Ht2 in Ht3. split; [on_the_way Ht3|]. apply wp_bind, wp_idle; [on_the_way Ht3|].
    intros r s4 _ [Ht4 Hm4]. rewrite Ht3 in Ht4. apply wp_ret. give_in Ht4. }
  intros s3 [Ht3 Hm3]. split; [on_the_way Ht3|]. apply wp_bind, wp_idle; [on_the_way Ht3|].
  intros r s4 Hf [Ht4 Hm4]. rewrite Ht3 in Ht4. destruct r as [u|e].
  2: { destruct Hf as [?|Hf]; [done|]. apply wp_ret. give_in Ht4. }
  apply wp_bind. eapply (wp_rename_file os _ t d nm c); [exact Hw|exact Hd|exact Hnm|exact Hc|exact Hne| |exact Hfresh|exact Ht4| |]; [done| |].
  - intros e s5 Hf5 [Ht5 Hm5]. rewrite Ht4 in Ht5. split; [on_the_way Ht5|]. apply wp_ret. give_in Ht5.
  - intros s5 Hnd [Ht5 Hm5]. split; [right; by exists perm|]. apply wp_ret, wp_bind.
    assert (Hnt : d ++ [nm] <> d ++ [c]) by (intros [_ E]%snoc_cancel; done).
    apply wp_remove_file; rewrite ?Ht5.
    + apply wf_insert; [done..|]. by right.
    + rewrite entry_insert_ne; [done|]. intros E. symmetry in E. by apply snoc_neq in E.
    + done.
    + rewrite entry_insert_ne, entry_snoc, Hfresh by done. done.
    + intros e s6 _ [Ht6 Hm6]. split; [right; exists perm; congruence|]. apply wp_ret. split; [congruence|]. exists perm. split; [done|]. split; [done|congruence].
    + intros n s6 Hn. by rewrite lookup_insert_ne, Hfresh in Hn by done.
Qed.

(** The checker's brackets around the work. *)
Definition bracket (p : string) (m : list mark) : list mark := match checker with None => m | Some _ => Locked p :: m ++ [Unlocked p] end.
Definition conflicts (p : string) : Prop := exists f k c, checker = Some f /\ f k p = Some c.
Lemma wp_coherent (I : tree -> Prop) p work (R : ToolResult -> tree -> list mark -> Prop) s :
  (forall c, conflicts p -> R (failure c) (s_tree s) []) ->
  (forall s0, s_tree s0 = s_tree s -> wp I work (fun r s' => exists m, s_marks s' = s_marks s0 ++ m /\ R r (s_tree s') m) s0) ->
  wp I (coherent checker p work) (fun r s' => exists m, s_marks s' = s_marks s ++ bracket p m /\ R r (s_tree s') m) s.
Proof.
  intros H1 H2. unfold coherent, bracket. destruct checker as [f|] eqn:Hf; [|by apply H2]. apply wp_bind, wp_mark, wp_bind, wp_calls.
  cbn [s_calls]. destruct (f (s_calls s) p) as [c|] eqn:Hc.
  - apply wp_bind, wp_mark, wp_ret. cbn [s_marks s_tree]. exists []. split; [by rewrite <- app_assoc|]. apply H1. by exists f, (s_calls s), c.
  - apply wp_bind. eapply wp_mono; [by apply H2|]. cbn beta. intros r s' (m & Hm & HR). apply wp_bind, wp_mark, wp_ret. cbn [s_marks s_tree] in *.
    exists m. split; [|done]. by rewrite Hm, <- !app_assoc.
Qed.
Lemma wp_record (I : tree -> Prop) m (Q : unit -> sys -> Prop) s :
  (forall s', s_tree s' = s_tree s -> s_marks s' = s_marks s ++ (match checker with None => [] | Some _ => [m] end) -> Q tt s') -> wp I (record checker m) Q s.
Proof.
  intros H. unfold record. destruct checker; [apply wp_mark, H; done|]. apply wp_ret, H; [done|by rewrite app_nil_r].
Qed.

(** Bounded reads. *)
Definition readable (t : tree) (l : list string) (limit : Z) (perm : Z) (content : string) : Prop :=
  entry t l = Some (Regular perm content) /\ (Z.of_nat (String.length content) <= limit)%Z.
Definition read_post (t : tree) (p : string) (l : list string) (limit : Z) (r : string + io_error) : Prop :=
  match r with
  | inl content => exists perm, readable t l limit perm content
  | inr _ => faulty os \/ (forall perm content, ~ readable t l limit perm content)
  end.
Lemma wp_ReadFileLimited (I : tree -> Prop) (t : tree) p l n limit s :
  I t -> s_tree s = t -> (0 <= limit)%Z -> resolve os t p = inl l -> entry t l = Some n ->
  wp I (ReadFileLimited os p limit) (fun r s' => after s s' t /\ read_post t p l limit r) s.
Proof.
  intros HI Hs Hl Hr Hn. unfold ReadFileLimited. rewrite (proj2 (Z.ltb_ge _ _) Hl). cbv zeta. apply wp_bind, wp_bind, wp_fail_at, wp_look; rewrite ?Hs; [done| |].
  { intros e s1 Hf [Ht Hm]. apply wp_ret, wp_ret. split; [done|]. by left. }
  intros s1 [Ht Hm]. unfold open_at. rewrite Hr, Hn. destruct n as [perm data| |target|]; apply wp_ret.
  2-4: apply wp_ret; split; [done|]; right; intros perm content [E _]; congruence.
  apply wp_bind, wp_fail_at, wp_look; rewrite ?Ht; [done| |].
  { intros e s2 Hf [Ht2 Hm2]. apply wp_bind, wp_idle; [by rewrite Ht2|]. intros r s3 _ [Ht3 Hm3]. apply wp_ret.
    split; [split; congruence|]. by left. }
  intros s2 [Ht2 Hm2]. apply wp_bind, wp_idle; [by rewrite Ht2|]. intros r s3 _ [Ht3 Hm3]. apply wp_ret.
  split; [split; congruence|]. unfold data_at. rewrite Hn, length_take_str.
  destruct (Z.ltb_spec limit (Z.of_nat (Nat.min (Z.to_nat (limit + 1)) (String.length data)))) as [H|H].
  - right. intros perm' content [E Hsz]. rewrite Hn in E. injection E as -> ->. lia.
  - exists perm. rewrite take_str_all by lia. split; [done|]. lia.
Qed.
Lemma wp_ReadFileLimited_closed (I : tree -> Prop) (t : tree) p limit (Q : string + io_error -> sys -> Prop) s :
  I t -> s_tree s = t -> (forall l, open_at os t p <> inl (Some l)) -> (forall e s', after s s' t -> Q (inr e) s') -> wp I (ReadFileLimited os p limit) Q s.
Proof.
  intros HI Hs Hr HQ. unfold ReadFileLimited. apply wp_bind, wp_bind, wp_fail_at, wp_look; rewrite ?Hs; [done| |].
  - intros e s1 Hf H1. apply wp_ret, wp_ret. by apply HQ.
  - intros s1 H1. destruct (open_at os t p) as [[l|]|e]; [by destruct (Hr l)|..]; apply wp_ret, wp_ret; by apply HQ.
Qed.
End parts.

(** ** edit_file *)

Section edit.
Context (os : Os) (to_lower : string -> string) (ctx : PathCtx).
Context (checker : option (nat -> string -> option string)) (MaxEditFileBytes : Z).

Definition edit_limit : Z := if (0 <? MaxEditFileBytes)%Z then MaxEditFileBytes else DefaultMaxFileSize.
Lemma wp_guarded_read (I : tree -> Prop) (t : tree) p l n s :
  I t -> s_tree s = t -> resolve os t p = inl l -> entry t l = Some n ->
  wp I (guarded_read os MaxEditFileBytes p) (fun r s' => after s s' t /\
    match r with
    | inl refused => tr_is_error refused = true /\ (forall perm content, ~ readable t l edit_limit perm content)
    | inr r => read_post os t p l edit_limit r
    end) s.
Proof.
  intros HI Hs Hr Hn. unfold guarded_read, edit_limit, ReadFile.
  assert (Hread : forall s0 limit, after s s0 t -> (0 <= limit)%Z ->
    wp I (r ← ReadFileLimited os p limit; mret (inr r : ToolResult + (string + io_error))) (fun r s' => after s s' t /\
      match r with
      | inl refused => tr_is_error refused = true /\ (forall perm content, ~ readable t l limit perm content)
      | inr r => read_post os t p l limit r
      end) s0).
  { intros s0 limit [Ht Hm] Hl. apply wp_bind. eapply wp_mono; [by eapply wp_ReadFileLimited|]. cbn beta. intros r s' [[Ht' Hm'] HR].
    apply wp_ret. split; [split; congruence|done]. }
  destruct (Z.ltb_spec 0 MaxEditFileBytes) as [Hmax|Hmax]; [|apply Hread; [by split|done]].
  assert (Hst : stat_at os t p = inl n) by (unfold stat_at; by rewrite Hr, Hn). apply wp_bind, wp_stat; rewrite ?Hs; [done| |].
  - intros e s0 Hf Hs0. apply Hread; [done|lia].
  - intros n' s0 Hs0. rewrite Hst. intros [= <-]. destruct (Z.ltb_spec MaxEditFileBytes (size_of os n)) as [H|H]; [|apply Hread; [done|lia]].
    apply wp_ret. split; [done|]. split; [done|]. intros perm content [E Hsz]. rewrite Hn in E. injection E as ->. cbn [size_of] in H. lia.
Qed.

(** An edit at a place. *)
Definition edits (old : string) (t : tree) (l : list string) (perm : Z) (content : string) : Prop :=
  readable t l edit_limit perm content /\ count_sub old 0 content = 1%nat.
Definition collision (prefix : string) (t : tree) (d : list string) : Prop := exists nm n, temp_name prefix "" nm /\ t !! (d ++ [nm]) = Some n.
Definition edit_done (old new : string) (t : tree) d c (r : ToolResult) (t' : tree) : Prop :=
  if tr_is_error r
  then left_over t d c t' /\ (faulty os \/ t' = t) /\
       (faulty os \/ conflicts checker (root_path (d ++ [c])) \/ collision ("." +s+ c +s+ ".tmp-") t d \/ forall perm content, ~ edits old t (d ++ [c]) perm content)
  else exists perm perm' a b, t !! (d ++ [c]) = Some (Regular perm (a +s+ old +s+ b)) /\ count_sub old 0 (a +s+ old +s+ b) = 1%nat /\
       t' = <[d ++ [c] := Regular perm' (a +s+ new +s+ b)]> t /\ (perm' = perm \/ (faulty os /\ perm' = 420%Z)).
Definition new_data (old new : string) (t : tree) (l : list string) : string := replace_first old new (data_at t l).
Definition bracketed (p : string) (r : ToolResult) (m : mark) : list mark :=
  bracket checker p (if tr_is_error r then [] else match checker with None => [] | Some _ => [m] end).

Lemma edit_refused old new t d c r :
  tr_is_error r = true -> (faulty os \/ conflicts checker (root_path (d ++ [c])) \/ forall perm content, ~ edits old t (d ++ [c]) perm content) ->
  edit_done old new t d c r t.
Proof. intros Hr H. unfold edit_done. rewrite Hr. split; [by left|]. split; [by right|]. tauto. Qed.
Lemma wp_edit_content (t : tree) d c old new perm content s :
  well_formed t -> entry t d = Some Directory -> ordinary c = true -> s_tree s = t -> entry t (d ++ [c]) = Some (Regular perm content) ->
  wp (moment t d c (new_data old new t (d ++ [c]))) (edit_content os checker (root_path (d ++ [c])) old new content)
    (fun r s' => s_marks s' = s_marks s ++ (if tr_is_error r then [] else match checker with None => [] | Some _ => [Recorded (root_path (d ++ [c]))] end) /\
       edit_done old new t d c r (s_tree s')) s.
Proof.
  intros Hw Hd Hc Hs He. assert (Hdata : replace_first old new content = new_data old new t (d ++ [c])) by (unfold new_data, data_at; by rewrite He).
  assert (Hno : forall k, count_sub old 0 content = k -> k <> 1%nat -> forall perm' content', ~ edits old t (d ++ [c]) perm' content').
  { intros k Hk Hk1 perm' content' [[E _] H]. rewrite He in E. injection E as -> ->. lia. }
  unfold edit_content. cbv zeta. destruct (Nat.eqb_spec (count_sub old 0 content) 0) as [H0|H0].
  { apply wp_ret. split; [by rewrite app_nil_r|]. rewrite Hs. apply edit_refused; [done|]. right. right. eapply Hno; [done|lia]. }
  destruct (Nat.ltb_spec 1 (count_sub old 0 content)) as [H1|H1].
  { apply wp_ret. split; [by rewrite app_nil_r|]. rewrite Hs. apply edit_refused; [done|]. right. right. eapply Hno; [done|lia]. }
  assert (Hone : count_sub old 0 content = 1%nat) by lia. destruct (replace_first_once old new content Hone) as (a & b & Hab & Hrep).
  apply wp_bind. eapply wp_mono; [rewrite Hdata; by apply wp_atomicWriteFile|]. cbn beta. intros r s' [Hm H]. destruct r as [[]|e].
  - apply wp_bind, wp_record. intros s1 Ht1 Hm1. apply wp_ret. split; [cbn [tr_is_error success]; by rewrite Hm1, Hm|]. destruct H as (perm' & Hperm & _ & Ht').
    unfold edit_done. cbn [tr_is_error success]. exists perm, perm', a, b. rewrite <- entry_snoc, <- Hab. split; [done|]. split; [done|].
    split; [congruence|]. unfold mode_kept in Hperm. rewrite canonical_stat, He in Hperm by done. destruct Hperm as [->|[? ->]]; [by left|by right].
  - apply wp_ret. split; [cbn [tr_is_error failure]; by rewrite app_nil_r|]. unfold edit_done. cbn [tr_is_error failure]. destruct H as (H2 & H3 & H4).
    split; [done|]. split; [done|]. destruct H4 as [?|[?|H4]]; [by left|right; right; by left|]. rewrite He in H4. done.
Qed.
Lemma wp_edit_at (t : tree) p l n old new s :
  well_formed t -> s_tree s = t -> p = root_path l -> resolve os t p = inl l -> entry t l = Some n ->
  forall d c, l = d ++ [c] -> entry t d = Some Directory -> ordinary c = true ->
  wp (moment t d c (new_data old new t l))
    (coherent checker p
      (r ← guarded_read os MaxEditFileBytes p;
       match r with
       | inl refused => mret refused
       | inr (inr e) => mret (failure ("failed to read file: " +s+ error_text os e))
       | inr (inl content) => edit_content os checker p old new content
       end))
    (fun r s' => s_marks s' = s_marks s ++ bracketed p r (Recorded p) /\ edit_done old new t d c r (s_tree s')) s.
Proof.
  intros Hw Hs Hp Hr Hn d c -> Hd Hc. eapply wp_mono.
  - apply (wp_coherent checker _ p _ (fun r t' m => edit_done old new t d c r t' /\
      m = if tr_is_error r then [] else match checker with None => [] | Some _ => [Recorded p] end)).
    + intros conflict Hf. rewrite Hs. split; [|done]. apply edit_refused; [done|]. right. left. by rewrite <- Hp.
    + intros s0 Ht0. rewrite Hs in Ht0. apply wp_bind. eapply wp_mono; [eapply wp_guarded_read; [apply moment_old|exact Ht0|exact Hr|exact Hn]|].
      cbn beta. intros g s1 [[Ht1 Hm1] Hg]. destruct g as [refused|[content|e]].
      * apply wp_ret. exists []. split; [by rewrite app_nil_r|]. destruct Hg as [He Hg]. rewrite Ht1, He. split; [|done]. apply edit_refused; [done|].
        right. right. intros perm content [H _]. by apply (Hg perm content).
      * destruct Hg as [perm [He Hsz]]. subst p. eapply wp_mono; [by eapply wp_edit_content|]. cbn beta. intros r s2 [Hm2 H2]. eexists. split; [|split; [done|reflexivity]]. congruence.
      * apply wp_ret. exists []. split; [by rewrite app_nil_r|]. rewrite Ht1. split; [|done]. apply edit_refused; [done|].
        destruct Hg as [?|Hg]; [by left|]. right. right. intros perm content [H _]. by apply (Hg perm content).
  - cbn beta. intros r s' (m & Hm & H & ->). split; [done|done].
Qed.
Lemma wp_guarded_read_closed (t : tree) p s :
  s_tree s = t -> (forall l, open_at os t p <> inl (Some l)) ->
  wp (eq t) (guarded_read os MaxEditFileBytes p) (fun r s' => after s s' t /\
    match r with inl refused => tr_is_error refused = true | inr (inl _) => False | inr (inr _) => True end) s.
Proof.
  intros Hs Hc. unfold guarded_read, ReadFile.
  assert (Hread : forall s0 limit, after s s0 t ->
    wp (eq t) (r ← ReadFileLimited os p limit; mret (inr r : ToolResult + (string + io_error))) (fun r s' => after s s' t /\
      match r with inl refused => tr_is_error refused = true | inr (inl _) => False | inr (inr _) => True end) s0).
  { intros s0 limit [Ht Hm]. apply wp_bind. eapply (wp_ReadFileLimited_closed os _ t); [done|done|exact Hc|]. intros e s' [Ht' Hm']. apply wp_ret.
    split; [split; congruence|done]. }
  destruct (0 <? MaxEditFileBytes)%Z; [|apply Hread; by split]. apply wp_bind, wp_stat; rewrite ?Hs; [done| |].
  - intros e s0 Hf Hs0. by apply Hread.
  - intros n s0 Hs0 _. destruct (MaxEditFileBytes <? size_of os n)%Z; [|by apply Hread]. by apply wp_ret.
Qed.
Lemma wp_edit_closed (t : tree) p old new s :
  s_tree s = t -> (forall l, open_at os t p <> inl (Some l)) ->
  wp (eq t)
    (coherent checker p
      (r ← guarded_read os MaxEditFileBytes p;
       match r with
       | inl refused => mret refused
       | inr (inr e) => mret (failure ("failed to read file: " +s+ error_text os e))
       | inr (inl content) => edit_content os checker p old new content
       end))
    (fun r s' => s_marks s' = s_marks s ++ bracketed p r (Recorded p) /\ tr_is_error r = true /\ s_tree s' = t) s.
Proof.
  intros Hs Hc. eapply wp_mono.
  - apply (wp_coherent checker _ p _ (fun r t' m => (tr_is_error r = true /\ t' = t) /\ m = [])).
    + intros conflict _. by rewrite Hs.
    + intros s0 Ht0. rewrite Hs in Ht0. apply wp_bind. eapply wp_mono; [by apply wp_guarded_read_closed|]. cbn beta.
      intros g s1 [[Ht1 Hm1] Hg]. destruct g as [refused|[content|e]]; [|done|]; apply wp_ret; exists []; (split; [by rewrite app_nil_r|done]).
  - cbn beta. intros r s' (m & Hm & [Hr Ht] & ->). split; [|done]. unfold bracketed. by rewrite Hr.
Qed.
Lemma open_resolved (t : tree) p l : open_at os t p = inl (Some l) -> resolve os t p = inl l /\ exists perm content, entry t l = Some (Regular perm content).
Proof.
  unfold open_at. destruct (resolve os t p) as [l'|]; [|done]. destruct (entry t l') as [[| | |]|] eqn:E; try done. intros [= ->]. split; [done|]. by do 2 eexists.
Qed.
Lemma wp_weaken {A : Type} (I I' : tree -> Prop) (m : M A) Q s : (forall t, I t -> I' t) -> wp I m Q s -> wp I' m Q s.
Proof.
  intros HI. unfold wp. destruct (m s) as [a s']. intros [H (l & Hl & HF)]. split; [done|]. exists l. split; [done|]. eapply Forall_impl; [exact HF|done].
Qed.
(** The file an edit is about, if there is one. *)
Definition edit_target (params : EditFileInput) (t : tree) : option (list string) :=
  let p := resolvePath (lstat_of os t) to_lower ctx (ei_Path params) in
  if String.eqb (ei_Path params) "" || String.eqb (ei_OldString params) "" || String.eqb p "" then None
  else match eval_comps (lstat_of os t) p with
       | inl (_, l) => match entry t l with Some (Regular _ _) => Some l | _ => None end
       | inr _ => None
       end.

Definition marked_by (s s' : sys) (r : ToolResult) (rec : string -> mark) : Prop :=
  exists marks, s_marks s' = s_marks s ++ marks /\ (marks = [] /\ tr_is_error r = true \/ exists q, marks = bracketed q r (rec q)).
Lemma wp_quit (t : tree) e rec s : s_tree s = t -> wp (eq t) (mret (failure e)) (fun r s' => tr_is_error r = true /\ s_tree s' = t /\ marked_by s s' r rec) s.
Proof. intros Ht. apply wp_ret. split; [done|]. split; [done|]. exists []. rewrite app_nil_r. split; [done|]. by left. Qed.
Lemma wp_resolved_path (I : tree -> Prop) p (Q : string -> sys -> Prop) s :
  Q (resolvePath (lstat_of os (s_tree s)) to_lower ctx p) s -> wp I (resolved_path os to_lower ctx p) Q s.
Proof. intros H. apply wp_bind, wp_bind, wp_tree, wp_ret, wp_ret, H. Qed.
(** The work on a path that resolves. *)
Lemma wp_on_path (I : tree -> Prop) p work (Q : ToolResult -> sys -> Prop) s :
  p <> "" -> resolvePath (lstat_of os (s_tree s)) to_lower ctx p <> "" ->
  wp I (work (resolvePath (lstat_of os (s_tree s)) to_lower ctx p)) Q s -> wp I (on_path (resolved_path os to_lower ctx) p work) Q s.
Proof.
  intros Hp Hr H. unfold on_path. rewrite (proj2 (String.eqb_neq _ _) Hp). apply wp_bind, wp_resolved_path.
  by rewrite (proj2 (String.eqb_neq _ _) Hr).
Qed.
Lemma wp_on_path_quit p work rec s :
  p = "" \/ resolvePath (lstat_of os (s_tree s)) to_lower ctx p = "" ->
  wp (eq (s_tree s)) (on_path (resolved_path os to_lower ctx) p work) (fun r s' => tr_is_error r = true /\ s_tree s' = s_tree s /\ marked_by s s' r rec) s.
Proof.
  intros H. unfold on_path. destruct (String.eqb_spec p "") as [Hp|Hp]; [by apply wp_quit|]. destruct H as [?|H]; [done|].
  apply wp_bind, wp_resolved_path. rewrite H. by apply wp_quit.
Qed.

Lemma write_path_closed (t : tree) p :
  (max_links os <= maxLinks)%nat -> well_formed t -> is_abs p = true ->
  (forall l perm content, eval_comps (lstat_of os t) p = inl (true, l) -> entry t l <> Some (Regular perm content)) ->
  forall l, open_at os t (write_path (lstat_of os t) p) <> inl (Some l).
Proof.
  intros Hk Hw Habs Hno l Ho. apply open_resolved in Ho as (Hr & perm & content & He). revert Hr. unfold write_path.
  destruct (EvalSymlinks (lstat_of os t) p) as [q|] eqn:Eq; intros Hr.
  - destruct (eval_place _ _ _ _ Hw Habs Eq) as (l' & n & Hq & Hn & _ & Hr' & _). rewrite Hr in Hr'. injection Hr' as <-.
    destruct (EvalSymlinks_inv _ _ _ Habs Eq) as (l' & Ec & Hq' & [Ho _]). rewrite Hq in Hq'.
    apply root_path_inj in Hq'; [|by apply (wf_place _ _ _ Hw He)|done]. subst l'. by apply (Hno l perm content).
  - apply kernel_eval, EvalSymlinks_of in Hr; [congruence|done|done].
Qed.
Lemma wp_edit_file_none params s :
  is_abs (px_workspace ctx) = true -> (max_links os <= maxLinks)%nat -> well_formed (s_tree s) -> edit_target params (s_tree s) = None ->
  wp (eq (s_tree s)) (edit_file os to_lower ctx checker MaxEditFileBytes params)
    (fun r s' => tr_is_error r = true /\ s_tree s' = s_tree s /\ marked_by s s' r Recorded) s.
Proof.
  intros Ha Hk Hw. unfold edit_file, edit_target. destruct (String.eqb_spec (ei_Path params) "") as [Hpath|Hpath]; [intros _; by apply wp_quit|].
  destruct (String.eqb_spec (ei_OldString params) "") as [Hold|Hold]; [intros _; by apply wp_quit|].
  destruct (resolvePath_abs to_lower ctx (lstat_of os (s_tree s)) (ei_Path params) Ha) as [E|Habs]; [intros _; apply wp_on_path_quit; by right|].
  assert (Hp : resolvePath (lstat_of os (s_tree s)) to_lower ctx (ei_Path params) <> "") by (intros E; by rewrite E in Habs).
  rewrite (proj2 (String.eqb_neq _ _) Hp). cbn [orb]. intros Htarget. apply wp_on_path; [exact Hpath|exact Hp|].
  apply wp_bind, wp_bind, wp_tree, wp_ret. revert Htarget Habs. generalize (resolvePath (lstat_of os (s_tree s)) to_lower ctx (ei_Path params)).
  intros p Htarget Habs.
  eapply wp_mono; [apply wp_edit_closed; [reflexivity|apply write_path_closed; [done|done|done|]]|].
  - intros l perm content Ec. rewrite Ec in Htarget. intros He. by rewrite He in Htarget.
  - cbn beta. intros r s' (Hm & Hr & Ht). split; [done|]. split; [done|]. eexists. split; [exact Hm|]. right. by eexists.
Qed.
Lemma wp_edit_file_some params l s :
  is_abs (px_workspace ctx) = true -> well_formed (s_tree s) -> edit_target params (s_tree s) = Some l ->
  exists d c, l = d ++ [c] /\
  wp (moment (s_tree s) d c (new_data (ei_OldString params) (ei_NewString params) (s_tree s) l)) (edit_file os to_lower ctx checker MaxEditFileBytes params)
    (fun r s' => edit_done (ei_OldString params) (ei_NewString params) (s_tree s) d c r (s_tree s') /\ marked_by s s' r Recorded) s.
Proof.
  intros Ha Hw. unfold edit_file, edit_target. destruct (String.eqb_spec (ei_Path params) "") as [Hpath|Hpath]; [done|].
  destruct (String.eqb_spec (ei_OldString params) "") as [Hold|Hold]; [done|].
  set (p := resolvePath _ _ _ _). destruct (String.eqb_spec p "") as [Hp|Hp]; [done|]. cbn [orb].
  destruct (resolvePath_abs to_lower ctx (lstat_of os (s_tree s)) (ei_Path params) Ha) as [E|Habs]; [done|]. fold p in Habs.
  destruct (eval_comps (lstat_of os (s_tree s)) p) as [[rooted l']|] eqn:Ec; [|done].
  destruct (entry (s_tree s) l') as [[perm content| | |]|] eqn:He; try done. intros [= ->].
  assert (Eq : EvalSymlinks (lstat_of os (s_tree s)) p = inl (root_path l)).
  { destruct (eval_physical _ _ _ _ Habs Ec) as [-> _]. by apply EvalSymlinks_of. }
  destruct (eval_place _ _ _ _ Hw Habs Eq) as (l' & n & Hl & Hn & _ & Hr & Hplace).
  apply root_path_inj in Hl; [|by apply (wf_place _ _ _ Hw He)|by apply (wf_place _ _ _ Hw Hn)]. subst l'.
  destruct Hplace as [->|(d & c & -> & Hd & Hc)]; [done|]. exists d, c. split; [done|]. apply wp_on_path; [done|done|]. fold p.
  apply wp_bind, wp_bind, wp_tree, wp_ret. unfold write_path. rewrite Eq. eapply wp_mono; [by eapply wp_edit_at|]. cbn beta. intros r s' [Hm Hr']. split; [done|].
  eexists. split; [exact Hm|]. right. by eexists.
Qed.
End edit.

(** C22: edit_file, from any well-formed tree, with any host, checker and input,
    in a session whose workspace is an absolute path.  When the path leads to a
    regular file: either the file holds the old text once, the edit succeeds,
    and the tree is the same but for that occurrence - the mode is kept unless
    the host fails to report it; or the result is an error, and the tree is as
    before but for a temporary file that a failing host did not remove, and the
    host failed, the checker reported a conflict, the temporary name was taken,
    or the file is too large or does not hold the text once.  At every moment
    the file has its old or its new content.  When the path leads to no regular
    file, the result is an error and nothing ever changes.  The lock of the
    checker is released, and the edit recorded exactly when it succeeded. *)
Theorem edit_file_contract os to_lower ctx checker max params s :
  well_formed (s_tree s) -> is_abs (px_workspace ctx) = true -> (max_links os <= maxLinks)%nat ->
  let t := s_tree s in
  let old := ei_OldString params in
  let new := ei_NewString params in
  let '(r, s') := edit_file os to_lower ctx checker max params s in
  exists past marks,
    s_past s' = s_past s ++ past /\ s_marks s' = s_marks s ++ marks /\
    (marks = [] /\ tr_is_error r = true \/ exists q, marks = bracketed checker q r (Recorded q)) /\
    match edit_target os to_lower ctx params t with
    | Some l => exists d c, l = d ++ [c] /\ edit_done os checker max old new t d c r (s_tree s') /\ Forall (moment t d c (new_data old new t l)) past
    | None => tr_is_error r = true /\ s_tree s' = t /\ Forall (eq t) past
    end.
Proof.
  intros Hw Ha Hk t old new. destruct (edit_target os to_lower ctx params t) as [l|] eqn:E.
  - destruct (wp_edit_file_some os to_lower ctx checker max params l s Ha Hw E) as (d & c & Hl & H). unfold wp in H.
    destruct (edit_file _ _ _ _ _ _ _) as [r s']. destruct H as [[Hdone (marks & Hm & Hmarks)] (past & Hpast & HF)].
    exists past, marks. repeat split; try done. by exists d, c.
  - pose proof (wp_edit_file_none os to_lower ctx checker max params s Ha Hk Hw E) as H. unfold wp in H.
    destruct (edit_file _ _ _ _ _ _ _) as [r s']. destruct H as [(Hr & Ht & marks & Hm & Hmarks) (past & Hpast & HF)].
    by exists past, marks.
Qed.

Notation small_ctx := (mkPathCtx "/ws" "" [] false).
Lemma edit_file_contract_witness :
  let '(r, s') := edit_file sound_os (fun s => s) small_ctx None 0 (mkEditInput "f" "c" "XY") small_sys in
  r = success "successfully edited file" /\ s_tree s' !! ["ws"; "f"] = Some (Regular 420 "abXYab") /\
  exists past marks, s_past s' = s_past small_sys ++ past /\ s_marks s' = s_marks small_sys ++ marks.
Proof.
  pose proof (edit_file_contract sound_os (fun s => s) small_ctx None 0 (mkEditInput "f" "c" "XY") small_sys small_wf eq_refl
    ltac:(apply Nat.leb_le; reflexivity)) as H. cbv zeta in H.
  assert (E : let '(r, s') := edit_file sound_os (fun s => s) small_ctx None 0 (mkEditInput "f" "c" "XY") small_sys in
    r = success "successfully edited file" /\ s_tree s' !! ["ws"; "f"] = Some (Regular 420 "abXYab")) by (vm_compute; split; reflexivity).
  destruct (edit_file _ _ _ _ _ _ _) as [r s']. destruct E as [E1 E2]. split; [exact E1|]. split; [exact E2|].
  destruct H as (past & marks & H1 & H2 & _). exists past, marks. exact (conj H1 H2).
Defined.

(** Occurrences are counted as they follow one another, so a text that overlaps
    itself is unique where it starts at two places; and a write without a
    workspace replaces a link, where a comment says that it is written through. *)
Example overlapping_edit :
  count_sub "aa" 0 "aaa" = 1%nat /\ has_prefix "aaa" "aa" = true /\ has_prefix (str_drop 1 "aaa") "aa" = true /\ replace_first "aa" "b" "aaa" = "ba".
Proof. vm_compute. repeat split. Qed.
Example link_replaced :
  let '(r, s') := write_file sound_os (fun s => s) (mkPathCtx "" "" [] false) None (mkWriteInput "/etc/link" "new") small_sys in
  tr_is_error r = false /\ s_tree s' !! ["etc"; "link"] = Some (Regular 420 "new") /\ s_tree s' !! ["ws"; "f"] = small_tree !! ["ws"; "f"].
Proof. vm_compute. repeat split. Qed.
