(* ===== verification/FileWrites.v ===== *)
(** * What write_file, create_directory and the deletions do

    write_file makes the directories of its target and replaces the target;
    create_directory makes directories; delete_file takes one entry, and of a
    link the link; delete_directory what lies under its path.  Last, what the
    judges let pass: every tree an approved write passes through differs from
    the first one only within the roots of the session. *)

From Stdlib Require Import ZArith Lia Ascii.
From stdpp Require Import base gmap strings list.
From S2P Require Import Prelude GoStr AgentTypes Json Registry Paths PathChecks Oneshot Planner FileSys SafeIo FileFacts FileTools FileToolFacts.
Open Scope sp4rk_scope.

Section writes.
Context (os : Os) (to_lower : string -> string) (ctx : PathCtx) (checker : option (nat -> string -> option string)).

(** ** write_file *)

(** The trees of a write to [c] in [a ++ b]: directories are being made, then
    the file is replaced. *)
Definition writing (t : tree) (a b : list string) (c data : string) (t' : tree) : Prop :=
  making t a b t' \/ moment (made t a b (length b)) (a ++ b) c data t'.
Definition write_done (content : string) (t : tree) (a b : list string) (c : string) (r : ToolResult) (t' : tree) : Prop :=
  let t1 := made t a b (length b) in
  if tr_is_error r
  then (making t a b t' \/ left_over t1 (a ++ b) c t') /\ (faulty os \/ t' = t \/ t' = t1) /\
       (faulty os \/ conflicts checker (root_path (a ++ b ++ [c])) \/ collision ("." +s+ c +s+ ".tmp-") t1 (a ++ b) \/
        exists n, t !! (a ++ b ++ [c]) = Some n /\ is_regular n = false)
  else exists perm, t' = <[a ++ b ++ [c] := Regular perm content]> t1 /\
       match t !! (a ++ b ++ [c]) with
       | Some (Regular perm' _) => perm = perm' \/ (faulty os /\ perm = 420%Z)
       | Some _ => faulty os
       | None => perm = 420%Z
       end.
Lemma write_refused content t a b c r :
  tr_is_error r = true -> (faulty os \/ conflicts checker (root_path (a ++ b ++ [c])) \/ exists n, t !! (a ++ b ++ [c]) = Some n /\ is_regular n = false) ->
  write_done content t a b c r t.
Proof. intros Hr H. unfold write_done. cbv zeta. rewrite Hr. split; [left; exists 0%nat; split; [lia|done]|]. split; [right; by left|]. tauto. Qed.
Lemma making_writing t a b c data t' : making t a b t' -> writing t a b c data t'.
Proof. by left. Qed.
Lemma making_start t a b : making t a b t.
Proof. exists 0%nat. split; [lia|done]. Qed.
Lemma made_same t a b c : t !! (a ++ b ++ [c]) = made t a b (length b) !! (a ++ b ++ [c]).
Proof.
  symmetry. apply made_other. intros i Hi E. apply app_inv_head in E. apply (f_equal length) in E. rewrite length_app, length_take in E. simpl in E. lia.
Qed.
Lemma made_stat t a b c :
  well_formed t -> entry t a = Some Directory -> plain_names (b ++ [c]) -> (forall i, (0 < i <= length b)%nat -> t !! (a ++ take i b) = None) ->
  well_formed (made t a b (length b)) /\ entry (made t a b (length b)) (a ++ b) = Some Directory.
Proof.
  intros Hw Ha [Hb _]%Forall_app Hmiss. split; [by apply wf_made|]. pose proof (made_entry t a b (length b)) as H. rewrite firstn_all in H. by apply H.
Qed.
Lemma wp_write_parts (t : tree) d c a b content s :
  well_formed t -> laid_out t d c a b -> (t !! (d ++ [c]) = Some Special -> faulty os) -> s_tree s = t ->
  wp (writing t a b c content)
    (write_content os checker (root_path (d ++ [c])) content)
    (fun r s' => s_marks s' = s_marks s ++ (if tr_is_error r then [] else match checker with None => [] | Some _ => [Recorded (root_path (d ++ [c]))] end) /\
       write_done content t a b c r (s_tree s')) s.
Proof.
  intros Hw (Hd & Ha & Hbc & Hmiss & Hend & Hlink) Hspecial Hs. destruct (made_stat t a b c Hw Ha Hbc Hmiss) as [Hw1 Hd1]. rewrite <- Hd in Hd1.
  pose proof Hbc as [Hb Hc]%Forall_app. inversion Hc as [|?? Hoc _]; subst x l. set (t1 := made t a b (length b)) in *.
  assert (Ho : plain_names (d ++ [c])) by (eapply plain_place; [exact Hw1|exact Hd1|exact Hoc]).
  unfold write_content. rewrite Dir_root by done. rewrite Hd at 1. assert (Hplace : a ++ b ++ [c] = d ++ [c]) by (by rewrite app_assoc, <- Hd).
  apply wp_bind. eapply wp_mono; [eapply wp_weaken; [apply making_writing|by apply wp_MkdirAll]|]. cbn beta. intros r s1 [Hm1 Hr]. destruct r as [u|e].
  2: { destruct Hr as [Hf Hmk]. apply wp_ret. split; [by rewrite app_nil_r|]. unfold write_done. cbn [tr_is_error failure].
       split; [by left|]. split; by left. }
  fold t1 in Hr. apply wp_bind. eapply wp_mono; [eapply wp_weaken; [|by apply (wp_atomicWriteFile os t1 d c content)]|].
  { intros t' Ht'. right. by rewrite <- Hd. }
  cbn beta. intros w s2 [Hm2 Hw2]. destruct w as [u'|e].
  2: { apply wp_ret. split; [by rewrite app_nil_r, Hm2|]. unfold write_done. cbn [tr_is_error failure]. fold t1. rewrite Hplace, <- Hd.
       destruct Hw2 as (H1 & H2 & H3). split; [by right|]. split; [destruct H2; [by left|by right; right]|].
       destruct H3 as [?|[?|H3]]; [by left|by right; right; left|]. right; right; right. exists Directory.
       rewrite entry_snoc, <- Hplace in H3. rewrite <- Hplace, made_same. done. }
  destruct Hw2 as (perm & Hperm & Hnd & Ht2). apply wp_bind, wp_record. intros s3 Ht3 Hm3. apply wp_ret. split; [by rewrite Hm3, Hm2, Hm1|].
  unfold write_done. cbn [tr_is_error success]. fold t1. exists perm. split; [rewrite Hplace; congruence|].
  rewrite made_same. fold t1. rewrite Hplace, <- entry_snoc. unfold mode_kept in Hperm. rewrite canonical_stat in Hperm by done.
  destruct (entry t1 (d ++ [c])) as [[perm' data| |target|]|] eqn:E; [|done| | |]; rewrite entry_snoc, <- Hplace in E; unfold t1 in E; rewrite <- made_same, Hplace in E.
  - destruct Hperm as [->|?]; [by left|by right].
  - by destruct (Hlink target).
  - by apply Hspecial.
  - by destruct Hperm as [->|[_ ->]].
Qed.
Lemma settled_stat (t : tree) d c a b :
  well_formed t -> laid_out t d c a b -> stat_at os t (root_path (d ++ [c])) = match t !! (d ++ [c]) with Some n => inl n | None => inr E_NOENT end.
Proof.
  intros Hw (Hd & Ha & Hbc & Hmiss & Hend & Hlink). pose proof Hbc as [Hb Hc]%Forall_app. inversion Hc as [|?? Hoc _]; subst x l.
  destruct (decide (b = [])) as [->|Hne].
  - rewrite app_nil_r in Hd. subst d. rewrite canonical_stat by done. rewrite entry_snoc. destruct (t !! (a ++ [c])) as [[| |target|]|] eqn:E; try done.
    by destruct (Hlink target).
  - rewrite (Hend Hne). destruct b as [|x b]; [done|]. pose proof (stat_text_missing os t a x (b ++ [c]) "" Hw Ha) as H.
    rewrite root_path_slashes by by destruct d. rewrite Hd, <- app_assoc. rewrite sapp_nil_r in H. apply H.
    + apply (Hmiss 1%nat). simpl. lia.
    + apply Forall_app. split; [apply (wf_place _ _ _ Hw Ha)|exact Hbc].
    + by left.
Qed.
(** write_file on the path it resolved. *)
Lemma wp_write_file (t : tree) params d c a b s :
  well_formed t -> s_tree s = t -> laid_out t d c a b -> wi_Path params <> "" ->
  resolvePath (lstat_of os t) to_lower ctx (wi_Path params) = root_path (d ++ [c]) ->
  wp (writing t a b c (wi_Content params)) (write_file os to_lower ctx checker params)
    (fun r s' => (exists marks, s_marks s' = s_marks s ++ marks /\
       (marks = [] /\ tr_is_error r = true \/ marks = bracketed checker (root_path (d ++ [c])) r (Recorded (root_path (d ++ [c]))))) /\
       write_done (wi_Content params) t a b c r (s_tree s')) s.
Proof.
  intros Hw Hs Hlay Hpath Hres. pose proof (settled_stat t d c a b Hw Hlay) as Hst. unfold write_file. rewrite <- Hs in Hres.
  apply wp_on_path; rewrite ?Hres; [done|done|]. rewrite Hs in Hres.
  assert (Hplace : a ++ b ++ [c] = d ++ [c]) by (destruct Hlay as [-> _]; by rewrite app_assoc).
  assert (Hgo : forall s0, after s s0 t -> (t !! (d ++ [c]) = Some Special -> faulty os) ->
    wp (writing t a b c (wi_Content params)) (coherent checker (root_path (d ++ [c])) (write_content os checker (root_path (d ++ [c])) (wi_Content params))) (fun r s' => (exists marks, s_marks s' = s_marks s ++ marks /\
       (marks = [] /\ tr_is_error r = true \/ marks = bracketed checker (root_path (d ++ [c])) r (Recorded (root_path (d ++ [c]))))) /\
       write_done (wi_Content params) t a b c r (s_tree s')) s0).
  { intros s0 [Ht0 Hm0] Hsp. eapply wp_mono.
    - apply (wp_coherent checker _ _ _ (fun r t' m => write_done (wi_Content params) t a b c r t' /\
        m = if tr_is_error r then [] else match checker with None => [] | Some _ => [Recorded (root_path (d ++ [c]))] end)).
      + intros conflict Hc. rewrite Ht0. split; [|done]. apply write_refused; [done|]. right. left. by rewrite Hplace.
      + intros s1 Ht1. rewrite Ht0 in Ht1. eapply wp_mono; [by eapply wp_write_parts|]. cbn beta. intros r s2 [Hm2 H2]. eexists. split; [exact Hm2|done].
    - cbn beta. intros r s' (m & Hm & H & ->). split; [|done]. eexists. split; [by rewrite Hm, Hm0|]. by right. }
  apply wp_bind, wp_stat; rewrite ?Hs; [apply making_writing, making_start| |].
  - intros e s1 [Hf|[x Hx]] Hs1; apply Hgo; [done|done|done|]. intros E. by rewrite Hst, E in Hx.
  - intros n s1 Hs1 Hn. rewrite Hst in Hn. destruct (t !! (d ++ [c])) as [n'|] eqn:E; [|done]. injection Hn as ->.
    assert (Hquit : is_regular n = false -> wp (writing t a b c (wi_Content params)) (mret (not_regular (root_path (d ++ [c])))) (fun r s' =>
       (exists marks, s_marks s' = s_marks s ++ marks /\
       (marks = [] /\ tr_is_error r = true \/ marks = bracketed checker (root_path (d ++ [c])) r (Recorded (root_path (d ++ [c]))))) /\
       write_done (wi_Content params) t a b c r (s_tree s')) s1).
    { intros Hreg. destruct Hs1 as [Ht1 Hm1]. apply wp_ret. split; [exists []; rewrite app_nil_r; split; [done|by left]|]. rewrite Ht1. apply write_refused; [done|].
      right. right. rewrite Hplace, E. by eexists. }
    destruct n as [perm data| | |]; try (by apply Hquit). apply Hgo; [done|done].
Qed.

(** ** create_directory *)

Lemma wp_MkdirAll_file (t : tree) d c n perm s :
  well_formed t -> entry t d = Some Directory -> t !! (d ++ [c]) = Some n -> is_dir_node n = false -> is_link n = false -> s_tree s = t ->
  wp (eq t) (MkdirAll os (root_path (d ++ [c])) perm) (fun r s' => s_marks s' = s_marks s /\ s_tree s' = t /\ exists e, r = inr e) s.
Proof.
  intros Hw Hd Hn Hnd Hnl Hs. destruct (wf_parent _ _ _ _ Hw Hn) as [Hc _]. pose proof (plain_place t d c Hw Hd Hc) as Ho.
  assert (Hst : stat_at os t (root_path (d ++ [c])) = inl n) by (rewrite canonical_stat, entry_snoc, Hn by done; by destruct n).
  assert (Hlst : lstat_at os t (root_path (d ++ [c])) = inl n) by (unfold lstat_at; rewrite slot_canonical, entry_snoc, Hn by done; by destruct n).
  unfold MkdirAll. cbn [mkdir_all]. apply wp_bind, wp_stat; rewrite ?Hs, ?Hst; [done| |].
  2: { intros n' s1 [Ht1 Hm1] [= <-]. destruct n; try done; apply wp_ret; (split; [done|split; [done|by eexists]]). }
  intros e s1 _ [Ht1 Hm1]. assert (Hpt : parent_text (root_path (d ++ [c])) = slashes d +s+ sep).
  { rewrite root_path_slashes by by destruct d. rewrite <- (sapp_nil_r (slashes (d ++ [c]))). apply parent_text_snoc; [done|by left]. }
  rewrite Hpt. destruct (String.eqb_spec (slashes d +s+ sep) "") as [E|_].
  { apply (f_equal String.length) in E. rewrite length_sapp in E. simpl in E. lia. }
  assert (Hup : forall fuel, (length d < fuel)%nat -> wp (making t d []) (mkdir_all os fuel (slashes d +s+ sep) perm) (mkdir_post os t d [] (length d) s1) s1).
  { intros fuel Hfuel. pose proof (wp_mkdir_all os t d [] perm) as H. rewrite app_nil_r in H.
    specialize (H Hw Hd (Forall_nil_2 _) ltac:(intros i Hi; simpl in Hi; lia) fuel (length d) sep s1 Ht1 ltac:(done) Hfuel ltac:(by right) ltac:(done)).
    by rewrite firstn_all in H. }
  apply wp_bind. eapply wp_mono; [eapply wp_weaken; [|apply Hup]|].
  2: { rewrite root_path_slashes, slashes_snoc, !length_sapp by by destruct d. pose proof (length_slashes d). simpl. lia. }
  { intros t' (j & Hj & ->). simpl in Hj. by replace j with 0%nat by lia. }
  unfold mkdir_post. cbn beta. intros r s2 [Hm2 Hr]. destruct r as [u|e'].
  2: { destruct Hr as [_ (j & Hj & Hr)]. simpl in Hj. replace j with 0%nat in Hr by lia. apply wp_ret. split; [congruence|]. split; [done|by eexists]. }
  assert (Ht2 : s_tree s2 = t) by (rewrite Hr; by rewrite Nat.sub_diag).
  assert (Hlook : forall (x : io_error) s3, after s2 s3 (s_tree s2) ->
    wp (eq t) (n ← Lstat os (root_path (d ++ [c])); mret (match n with inl Directory => inl tt | _ => inr x end))
      (fun r s' => s_marks s' = s_marks s /\ s_tree s' = t /\ exists e, r = inr e) s3).
  { intros x s3 [Ht3 Hm3]. rewrite Ht2 in Ht3. apply wp_bind, wp_lstat; rewrite ?Ht3, ?Hlst; [done| |].
    - intros e2 s4 _ [Ht4 Hm4]. apply wp_ret. split; [congruence|]. split; [done|by eexists].
    - intros n2 s4 [Ht4 Hm4] [= <-]. apply wp_ret. split; [congruence|]. split; [done|]. exists x. by destruct n. }
  apply wp_bind, wp_fail_at, wp_call.
  - intros e2 k s3 _ Hs3. split; [by rewrite (proj1 Hs3), <- Ht2|]. by apply Hlook.
  - unfold mkdir_at. rewrite Ht2, slot_canonical, entry_snoc, Hn by done. intros s3 Hs3. rewrite <- Ht2 in Hs3. split; [by rewrite (proj1 Hs3)|]. by apply Hlook.
Qed.

(** ** delete_file and delete_directory *)

(** What a deletion does to the entry its path names in the tree. *)
Definition deleted_at (t : tree) (p : string) (ok : node -> Prop) (r : ToolResult) (t' : tree) : Prop :=
  if tr_is_error r then t' = t
  else exists d c n, (exists slashes, slot_of os t p = Slot d c slashes) /\ entry t (d ++ [c]) = Some n /\ ok n /\ t' = delete (d ++ [c]) t.
Definition file_or_link (n : node) : Prop := is_regular n = true \/ is_link n = true.
(** The trees a deletion passes: the first one, and the one without the entry. *)
Definition deleting (t : tree) (p : string) (t' : tree) : Prop :=
  t' = t \/ exists d c sl, slot_of os t p = Slot d c sl /\ t' = delete (d ++ [c]) t.
Lemma wp_delete_entry (t : tree) p (Q : unit + io_error -> sys -> Prop) s :
  s_tree s = t ->
  (forall e s', after s s' t -> Q (inr e) s') ->
  (forall d c sl n s', slot_of os t p = Slot d c sl -> entry t (d ++ [c]) = Some n -> (n = Directory -> has_child t (d ++ [c]) = false) ->
     after s s' (delete (d ++ [c]) t) -> Q (inl tt) s') ->
  wp (deleting t p) (Remove os p) Q s.
Proof.
  intros Hs H1 H2. apply wp_fail_at, wp_call; rewrite ?Hs.
  - intros e n s' _ Hs'. split; [left; apply Hs'|]. by apply H1.
  - unfold remove_at. destruct (slot_of os t p) as [d c sl| |e] eqn:E.
    + destruct (entry t (d ++ [c])) as [[perm data| |target|]|] eqn:En; try (intros s' Hs'; split; [left; apply Hs'|by apply H1]).
      2: destruct (has_child t (d ++ [c])) eqn:Ec.
      2: intros s' Hs'; split; [left; apply Hs'|by apply H1].
      2: intros s' Hs'; (split; [right; exists d, c, sl; split; [done|apply Hs']|by eapply H2]).
      all: destruct sl; intros s' Hs'; first [split; [left; apply Hs'|by apply H1] | split; [right; exists d, c, false; split; [done|apply Hs']|by eapply H2]].
    + intros s' Hs'. split; [left; apply Hs'|by apply H1].
    + intros s' Hs'. split; [left; apply Hs'|by apply H1].
Qed.

Lemma wp_unfollowed (I : tree -> Prop) p work (Q : ToolResult -> sys -> Prop) s :
  (forall e, Q (failure e) s) ->
  wp I (work (resolvePathUnresolved (lstat_of os (s_tree s)) to_lower ctx p)) Q s -> wp I (on_path (resolved_unfollowed os to_lower ctx) p work) Q s.
Proof.
  intros Hq H. unfold on_path. destruct (String.eqb p ""); [by apply wp_ret|]. apply wp_bind, wp_bind, wp_bind, wp_tree, wp_ret, wp_ret.
  destruct (String.eqb _ ""); [by apply wp_ret|done].
Qed.
Lemma wp_removed (t : tree) p n s :
  s_tree s = t -> lstat_at os t p = inl n -> file_or_link n ->
  wp (deleting t p) (removed os checker p) (fun r s' => exists m, s_marks s' = s_marks s ++ m /\
    deleted_at t p file_or_link r (s_tree s') /\ m = if tr_is_error r then [] else match checker with None => [] | Some _ => [Deleted p] end) s.
Proof.
  intros Hs Hl Hn. unfold removed. apply wp_bind. eapply (wp_delete_entry t p); [done| |].
  - intros e s1 [Ht1 Hm1]. apply wp_ret. exists []. rewrite app_nil_r. split; [done|]. by rewrite Ht1.
  - intros d c sl m s1 Hslot Hm Hch [Ht1 Hm1]. apply wp_bind, wp_record. intros s2 Ht2 Hm2. apply wp_ret. eexists. split; [by rewrite Hm2, Hm1|].
    split; [|done]. unfold deleted_at. cbn [tr_is_error success]. exists d, c, m. split; [by eexists|]. split; [done|].
    split; [|congruence]. unfold lstat_at in Hl. rewrite Hslot, Hm in Hl.
    destruct m as [perm data| |target|]; [by left| |by right|].
    + injection Hl as <-. by destruct Hn.
    + destruct sl; [done|]. injection Hl as <-. by destruct Hn.
Qed.
Lemma wp_delete_file path s :
  let t := s_tree s in let p := resolvePathUnresolved (lstat_of os t) to_lower ctx path in
  wp (deleting t p) (delete_file os to_lower ctx checker path)
    (fun r s' => deleted_at t p file_or_link r (s_tree s') /\ marked_by checker s s' r Deleted) s.
Proof.
  intros t p. unfold delete_file. apply wp_unfollowed.
  { intros e. split; [done|]. exists []. rewrite app_nil_r. split; [done|by left]. }
  fold t p. eapply wp_mono.
  - apply (wp_coherent checker _ p _ (fun r t' m => deleted_at t p file_or_link r t' /\
      m = if tr_is_error r then [] else match checker with None => [] | Some _ => [Deleted p] end)).
    + intros c _. done.
    + intros s0 Ht0. assert (Hquit : forall e s1, after s0 s1 (s_tree s0) -> wp (deleting t p) (mret (failure e)) (fun r s' => exists m, s_marks s' = s_marks s0 ++ m /\
        deleted_at t p file_or_link r (s_tree s') /\ m = if tr_is_error r then [] else match checker with None => [] | Some _ => [Deleted p] end) s1).
      { intros e s1 [Ht1 Hm1]. apply wp_ret. exists []. rewrite app_nil_r. split; [done|]. split; [|done]. unfold deleted_at. cbn. by rewrite Ht1, Ht0. }
      apply wp_bind, wp_lstat; [rewrite Ht0; by left|intros e s1 _ Hs1; by apply Hquit|]. intros n s1 [Ht1 Hm1] Hl. rewrite Ht0 in Hl. fold t in Hl.
      destruct n as [perm data| |target|]; [|by apply Hquit| |by apply Hquit];
        (eapply wp_mono; [eapply wp_removed; [by rewrite Ht1|exact Hl|]|]; [by (left + right)|cbn beta; intros r s2; by rewrite Hm1]).
  - cbn beta. intros r s' (m & Hm & H & ->). split; [done|]. eexists. split; [exact Hm|]. right. by eexists.
Qed.
End writes.

(** C23: delete_file, from any tree, with any host, checker and input.  Success
    means that the path - its directory resolved, its last name as spelled - named
    a regular file or a link, and that this one entry is gone and every other
    entry as before: what a link points to is never touched.  On an error, of
    whatever origin, nothing has changed.  There is no tree in between.  The
    lock of the checker is released, and the deletion recorded exactly when it
    succeeded. *)
Theorem delete_file_contract os to_lower ctx checker path s :
  let t := s_tree s in
  let p := resolvePathUnresolved (lstat_of os t) to_lower ctx path in
  let '(r, s') := delete_file os to_lower ctx checker path s in
  exists past marks,
    s_past s' = s_past s ++ past /\ Forall (deleting os t p) past /\
    s_marks s' = s_marks s ++ marks /\ (marks = [] /\ tr_is_error r = true \/ exists q, marks = bracketed checker q r (Deleted q)) /\
    if tr_is_error r then s_tree s' = t
    else exists d c n, (exists slashes, slot_of os t p = Slot d c slashes) /\ entry t (d ++ [c]) = Some n /\ file_or_link n /\ s_tree s' = delete (d ++ [c]) t.
Proof.
  intros t p. pose proof (wp_delete_file os to_lower ctx checker path s) as H. cbv zeta in H. fold t p in H. unfold wp in H.
  destruct (delete_file _ _ _ _ _ _) as [r s']. destruct H as [[Hd (marks & Hm & Hmarks)] (past & Hpast & HF)]. by exists past, marks.
Qed.

(** ** What the judges let pass *)

Section contained.
Context (os : Os) (to_lower : string -> string) (ctx : PathCtx) (place : string -> list string) (t : tree).

(** Outside the roots of the session the tree is [t]. *)
Definition outside (k : list string) : Prop := forall root, root ∈ SessionRoots ctx -> ~ under (place root) k.
Definition contained (t' : tree) : Prop := forall k, outside k -> t' !! k = t !! k.
Definition run_contained (m : M ToolResult) (s : sys) : Prop :=
  let '(r, s') := m s in exists past, s_past s' = s_past s ++ past /\ Forall contained (s_tree s' :: past).
Lemma contained_refl : contained t.
Proof. done. Qed.
Lemma wp_contained (I : tree -> Prop) m (Q : ToolResult -> sys -> Prop) s :
  wp I m Q s -> (forall t', I t' -> contained t') -> (forall r s', Q r s' -> contained (s_tree s')) -> run_contained m s.
Proof.
  unfold wp, run_contained. destruct (m s) as [r s']. intros [HQ (past & Hp & HF)] H1 H2. exists past. split; [done|].
  constructor; [by eapply H2|]. eapply Forall_impl; [exact HF|done].
Qed.
Lemma outside_under root d k : root ∈ SessionRoots ctx -> under (place root) d -> outside k -> ~ under d k.
Proof. intros Hr Hd Hk [r ->]. apply (Hk root Hr). destruct Hd as [r' ->]. exists (r' ++ r). by rewrite app_assoc. Qed.
Lemma left_over_contained t1 root d c t' :
  root ∈ SessionRoots ctx -> under (place root) d -> contained t1 -> left_over t1 d c t' -> contained t'.
Proof.
  intros Hr Hd H1 [->|(nm & _ & _ & _ & <-)]; [done|]. intros k Hk. rewrite <- (H1 k Hk), lookup_delete_ne; [done|].
  intros <-. eapply outside_under; [exact Hr|exact Hd|exact Hk|by eexists].
Qed.
Lemma insert_contained t1 root d c n : root ∈ SessionRoots ctx -> under (place root) d -> contained t1 -> contained (<[d ++ [c] := n]> t1).
Proof.
  intros Hr Hd H1 k Hk. rewrite <- (H1 k Hk), lookup_insert_ne; [done|]. intros <-. eapply outside_under; [exact Hr|exact Hd|exact Hk|by eexists].
Qed.
Lemma moment_contained t1 root d c data t' :
  root ∈ SessionRoots ctx -> under (place root) d -> contained t1 -> moment t1 d c data t' -> contained t'.
Proof. intros Hr Hd H1 [H|[perm ->]]; [by eapply left_over_contained|by eapply insert_contained]. Qed.
Lemma made_contained root a b j : root ∈ SessionRoots ctx -> under (place root) a -> contained (made t a b j).
Proof.
  intros Hr Ha k Hk. apply made_other. intros i _ ->. eapply outside_under; [exact Hr|exact Ha|exact Hk|by eexists].
Qed.
Lemma making_contained root a b t' : root ∈ SessionRoots ctx -> under (place root) a -> making t a b t' -> contained t'.
Proof. intros Hr Ha (j & _ & ->). by eapply made_contained. Qed.

(** The root above an approved target lies above the part that exists. *)
Lemma root_above root a b :
  entry t (place root) = Some Directory -> under (place root) (a ++ b) -> (forall i, (0 < i <= length b)%nat -> entry t (a ++ take i b) <> Some Directory) ->
  under (place root) a.
Proof.
  intros He [r Hr] Hm. destruct (decide (length (place root) <= length a)%nat) as [H|H].
  - exists (drop (length (place root)) a). assert (E : take (length (place root)) (a ++ b) = place root) by (rewrite Hr; by rewrite take_app_length).
    rewrite take_app_le in E by done. rewrite <- E at 1. by rewrite take_drop.
  - exfalso. assert (E : place root = a ++ take (length (place root) - length a) b).
    { rewrite <- take_app_ge by lia. rewrite Hr. by rewrite take_app_length. }
    apply (Hm (length (place root) - length a)%nat); [|by rewrite <- E].
    apply (f_equal length) in Hr. rewrite !length_app in Hr. lia.
Qed.

Context (Hw : well_formed t) (Hlinks : (max_links os <= maxLinks)%nat) (Hfold : px_fold ctx = false) (Hws : is_abs (px_workspace ctx) = true).
Context (Hroots : forall root, root ∈ SessionRoots ctx ->
  is_abs root = true /\ eval_comps (lstat_of os t) (Clean root) = inl (true, place root) /\ entry t (place root) = Some Directory).

Lemma approved_root path l :
  resolvePath (lstat_of os t) to_lower ctx path = root_path l -> settled (lstat_of os t) l -> l <> ["dev"; "null"] ->
  jo_allow (judge_write os to_lower ctx t (Some path)) = true -> exists root, root ∈ SessionRoots ctx /\ under (place root) l.
Proof.
  intros Hp Hl Hdev. unfold judge_write, judged. rewrite Hp. destruct (String.eqb_spec (root_path l) "") as [E|_]; [done|].
  unfold judgeWriteInSessionRoots, Abs. rewrite root_abs, Clean_root, judged_settled by (done || by eapply settled_ordinary). unfold write_outcome.
  destruct (isPathInGitDir _ _ _ _); [done|]. destruct (isPathInSessionRoots _ _ _ _) eqn:E; [|done]. intros _.
  apply (in_roots_iff (lstat_of os t) to_lower ctx place) in E; [by destruct E|intros root Hr; by destruct (Hroots root Hr) as (? & ? & _)|done|done].
Qed.

Lemma edit_contained checker max path old new s l :
  s_tree s = t -> resolvePath (lstat_of os t) to_lower ctx path = root_path l -> settled (lstat_of os t) l ->
  (exists root, root ∈ SessionRoots ctx /\ under (place root) l) -> run_contained (edit_file os to_lower ctx checker max (mkEditInput path old new)) s.
Proof.
  intros Hs Hp Hl (root & Hr & Hu). set (params := mkEditInput path old new). destruct (edit_target os to_lower ctx params (s_tree s)) as [l'|] eqn:E.
  - destruct (wp_edit_file_some os to_lower ctx checker max params l' s Hws ltac:(by rewrite Hs) E) as (d & c & -> & Hwp). rewrite Hs in Hwp.
    assert (Hll : d ++ [c] = l /\ exists perm data, entry t l = Some (Regular perm data)).
    { revert E. rewrite Hs. unfold edit_target. cbn [ei_Path params]. rewrite Hp. destruct (_ || _); [done|].
      destruct (eval_comps (lstat_of os t) (root_path l)) as [[rooted l']|] eqn:Ec; [|done]. destruct (entry t l') as [[perm data| | |]|] eqn:En; try done.
      intros [= ->]. destruct Hl as [Hl|(d0 & c0 & rest & -> & Ho & Hd0 & Hn)].
      - rewrite (physical_eval _ _ Hl) in Ec. injection Ec as _ ->. split; [done|]. by exists perm, data.
      - by rewrite missing_eval in Ec. }
    destruct Hll as (<- & perm & data & En). assert (Hud : under (place root) d).
    { replace d with (d ++ []) by apply app_nil_r. destruct (Hroots root Hr) as (_ & _ & He). apply (root_above root d [c]) in Hu; [by rewrite app_nil_r|done|].
      intros i Hi. simpl in Hi. replace i with 1%nat by lia. cbn [take]. by rewrite En. }
    eapply wp_contained; [exact Hwp|intros t'; eapply moment_contained; [exact Hr|exact Hud|exact contained_refl]|].
    intros r s' [Hd _]. unfold edit_done in Hd. destruct (tr_is_error r); [by eapply left_over_contained; [..|apply Hd]|].
    destruct Hd as (p1 & p2 & a & b & _ & _ & -> & _). by eapply insert_contained.
  - eapply wp_contained; [by apply wp_edit_file_none; [..|rewrite Hs|]| |].
    + by intros t' <-; rewrite Hs.
    + intros r s' (_ & -> & _). by rewrite Hs.
Qed.
Lemma write_contained checker path content s d c :
  s_tree s = t -> resolvePath (lstat_of os t) to_lower ctx path = root_path (d ++ [c]) -> settled (lstat_of os t) (d ++ [c]) -> t !! (d ++ [c]) <> Some Directory ->
  (exists root, root ∈ SessionRoots ctx /\ under (place root) (d ++ [c])) -> run_contained (write_file os to_lower ctx checker (mkWriteInput path content)) s.
Proof.
  intros Hs Hp Hl Hnd (root & Hr & Hu). destruct (settled_layout os t d c Hw Hl) as (a & b & Hlay). destruct (Hroots root Hr) as (_ & _ & He).
  assert (Hpl : d ++ [c] = a ++ b ++ [c]) by (destruct Hlay as [-> _]; by rewrite app_assoc).
  assert (Hua : under (place root) a).
  { rewrite Hpl in Hu. apply (root_above root a (b ++ [c])); [done|done|]. intros i Hi. destruct Hlay as (_ & _ & _ & Hm & _).
    rewrite length_app in Hi. simpl in Hi. destruct (decide (i <= length b)%nat) as [Hib|Hib].
    - rewrite take_app_le by done. rewrite entry_cons, Hm; [done|lia|]. destruct b; [simpl in *; lia|]. destruct i; [lia|]. by destruct a.
    - rewrite take_ge by (rewrite length_app; simpl; lia). rewrite app_assoc, entry_snoc, <- app_assoc, <- Hpl. done. }
  assert (Hud : under (place root) (a ++ b)) by (destruct Hua as [r ->]; exists (r ++ b); by rewrite app_assoc).
  assert (Hc1 : contained (made t a b (length b))) by by eapply made_contained.
  destruct (decide (path = "")) as [->|Hpath].
  { unfold run_contained, write_file, on_path. cbn. exists []. rewrite app_nil_r, Hs. by repeat constructor. }
  eapply wp_contained; [by eapply (wp_write_file os to_lower ctx checker t (mkWriteInput path content) d c a b s)| |].
  - intros t' [H|H]; [exact (making_contained root a b t' Hr Hua H)|exact (moment_contained _ root _ _ _ _ Hr Hud Hc1 H)].
  - intros r s' [_ Hd]. unfold write_done in Hd. cbv zeta in Hd. destruct (tr_is_error r).
    + destruct Hd as [[H|H] _]; [exact (making_contained root a b _ Hr Hua H)|exact (left_over_contained _ root _ _ _ Hr Hud Hc1 H)].
    + destruct Hd as (perm & -> & _). rewrite app_assoc. exact (insert_contained _ root _ _ _ Hr Hud Hc1).
Qed.
Lemma create_contained path s l :
  s_tree s = t -> resolvePath (lstat_of os t) to_lower ctx path = root_path l -> settled (lstat_of os t) l ->
  (exists root, root ∈ SessionRoots ctx /\ under (place root) l) -> run_contained (create_directory os to_lower ctx path) s.
Proof.
  intros Hs Hp Hl (root & Hr & Hu). destruct (Hroots root Hr) as (_ & _ & He).
  destruct (decide (path = "")) as [->|Hpath].
  { unfold run_contained, create_directory, on_path. cbn. exists []. rewrite app_nil_r, Hs. by repeat constructor. }
  assert (Hgo : forall I : tree -> Prop, (forall t', I t' -> contained t') -> (forall s0, s_tree s0 = t ->
    wp I (MkdirAll os (root_path l) 493) (fun r s' => contained (s_tree s')) s0) -> run_contained (create_directory os to_lower ctx path) s).
  { intros I HI Hmk. apply (wp_contained I _ (fun r s' => contained (s_tree s'))); [|done|done]. unfold create_directory.
    apply wp_on_path; rewrite ?Hs, ?Hp; [done|done|]. apply wp_bind. eapply wp_mono; [by apply Hmk|]. cbn beta. intros r s' H. by apply wp_ret. }
  assert (Hmake : forall a b, l = a ++ b -> entry t a = Some Directory -> plain_names b -> (forall i, (0 < i <= length b)%nat -> t !! (a ++ take i b) = None) ->
    under (place root) a -> run_contained (create_directory os to_lower ctx path) s).
  { intros a b -> Ha Hb Hm Hua. apply (Hgo (making t a b)); [intros t'; by apply making_contained with root|]. intros s0 Hs0.
    eapply wp_mono; [by apply wp_MkdirAll|]. cbn beta. intros r s' [_ H].
    destruct r; [rewrite H; by apply made_contained with root|exact (making_contained root a b _ Hr Hua (proj2 H))]. }
  destruct l as [|x l0 _] using rev_ind.
  { apply (Hmake [] []); [done|done|constructor|simpl; lia|done]. }
  destruct (settled_layout os t l0 x Hw Hl) as (a & b & Hlay). pose proof Hlay as (Hd & Ha & Hbc & Hm & Hend & Hlink).
  destruct (t !! (l0 ++ [x])) as [n|] eqn:En.
  - destruct (wf_parent _ _ _ _ Hw En) as [Hx Hd0]. assert (Hb : b = []) by (destruct b; [done|by pose proof (Hend ltac:(done))]).
    destruct (decide (is_dir_node n = true)) as [Hn|Hn].
    + destruct n; try done. apply (Hmake (l0 ++ [x]) []); [by rewrite app_nil_r|by rewrite entry_snoc|constructor|simpl; lia|done].
    + apply (Hgo (eq t)); [by intros t' <-|]. intros s0 Hs0. eapply wp_mono.
      * apply (wp_MkdirAll_file os t l0 x n); try done; [by destruct (is_dir_node n)|destruct n; try done; by destruct (Hlink target)].
      * cbn beta. by intros r s' (_ & -> & _).
  - apply (Hmake a (b ++ [x])); [by rewrite Hd, <- app_assoc|done|done| |].
    + intros i Hi. rewrite length_app in Hi. simpl in Hi. destruct (decide (i <= length b)%nat) as [Hib|Hib].
      * rewrite take_app_le by done. apply Hm. lia.
      * rewrite take_ge by (rewrite length_app; simpl; lia). by rewrite app_assoc, <- Hd.
    + rewrite Hd, <- app_assoc in Hu. apply (root_above root a (b ++ [x])); [done|done|]. intros i Hi. rewrite length_app in Hi. simpl in Hi.
      destruct (decide (i <= length b)%nat) as [Hib|Hib].
      * rewrite take_app_le, entry_cons, Hm by (done || lia || (destruct b; [simpl in *; lia|]; destruct i; [lia|]; by destruct a)). done.
      * rewrite take_ge by (rewrite length_app; simpl; lia). by rewrite app_assoc, entry_snoc, <- Hd, En.
Qed.

(** A file is judged where it is deleted. *)
Lemma approved_file path d c perm data :
  resolvePathUnresolved (lstat_of os t) to_lower ctx path = root_path (d ++ [c]) -> t !! (d ++ [c]) = Some (Regular perm data) ->
  d ++ [c] <> ["dev"; "null"] -> jo_allow (judge_unlink os to_lower ctx t (Some path)) = true ->
  exists root, root ∈ SessionRoots ctx /\ under (place root) (d ++ [c]).
Proof.
  intros Hp Hn Hdev. destruct (wf_parent _ _ _ _ Hw Hn) as [Hc Hd]. pose proof (plain_place t d c Hw Hd Hc) as Ho.
  assert (Hl : settled (lstat_of os t) (d ++ [c])).
  { left. split; [done|]. right. exists d, c. split; [done|]. split; [by apply dirs_of|]. by rewrite lstat_rooted, entry_snoc, Hn. }
  unfold judge_unlink, judged. rewrite Hp. destruct (String.eqb_spec (root_path (d ++ [c])) "") as [E|_]; [done|].
  unfold judgeWriteInSessionRootsUnresolved, Abs. rewrite root_abs, Clean_root by done.
  assert (Hj : judged_link (lstat_of os t) (root_path (d ++ [c])) = root_path (d ++ [c])).
  { unfold judged_link. rewrite !Clean_root, Dir_root, Base_root by done. pose proof Ho as [Hod _]%Forall_app. rewrite Clean_root by done.
    rewrite (EvalSymlinks_of _ _ d) by (apply physical_eval; split; [done|]; left; by apply dirs_of).
    rewrite Join2_root by (done || by destruct c). f_equal. rewrite pieces_word by by apply ordinary_slash_free.
    by apply clean_comps_ordinary; repeat constructor. }
  rewrite Hj. unfold write_outcome. destruct (isPathInGitDir _ _ _ _); [done|]. destruct (isPathInSessionRoots _ _ _ _) eqn:E; [|done]. intros _.
  apply (in_roots_iff (lstat_of os t) to_lower ctx place) in E; [by destruct E|intros root Hr; by destruct (Hroots root Hr) as (? & ? & _)|done|done].
Qed.
Lemma delete_contained checker path s d c perm data :
  s_tree s = t -> resolvePathUnresolved (lstat_of os t) to_lower ctx path = root_path (d ++ [c]) -> t !! (d ++ [c]) = Some (Regular perm data) ->
  (exists root, root ∈ SessionRoots ctx /\ under (place root) (d ++ [c])) -> run_contained (delete_file os to_lower ctx checker path) s.
Proof.
  intros Hs Hp Hn (root & Hr & Hu). destruct (wf_parent _ _ _ _ Hw Hn) as [Hc Hd].
  assert (Hgone : contained (delete (d ++ [c]) t)).
  { intros k Hk. rewrite lookup_delete_ne; [done|]. intros <-. by apply (Hk root Hr). }
  pose proof (slot_canonical os t d c Hw Hd Hc) as Hslot.
  eapply wp_contained; [apply (wp_delete_file os to_lower ctx checker path s)| |]; rewrite Hs, Hp.
  - intros t' [->|(d' & c' & sl & E & ->)]; [done|]. rewrite Hslot in E. by injection E as <- <- _.
  - intros r s' [H _]. unfold deleted_at in H. destruct (tr_is_error r); [by rewrite H|]. destruct H as (d' & c' & n & [sl E] & _ & _ & ->).
    rewrite Hslot in E. by injection E as <- <- _.
Qed.
End contained.

(** C21: what the judge of write_file, edit_file and create_directory lets pass
    stays within the roots of the session: at every moment, whatever fails, the
    tree differs from the first one only at and below a root's place.  The roots
    exist, letter case counts, and the path is settled as resolution leaves it:
    it exists without links, or is new below an existing directory.  A write to
    a directory is left aside.  The same of delete_file and its judge, when the
    path is a file: of a link the judge looks at the target (see
    [link_outside_deleted]). *)
Theorem approved_writes_contained os to_lower ctx place checker max path s l :
  let t := s_tree s in
  well_formed t -> (max_links os <= maxLinks)%nat -> px_fold ctx = false -> is_abs (px_workspace ctx) = true ->
  (forall root, root ∈ SessionRoots ctx -> is_abs root = true /\ eval_comps (lstat_of os t) (Clean root) = inl (true, place root) /\
     entry t (place root) = Some Directory) ->
  l <> ["dev"; "null"] ->
  (resolvePath (lstat_of os t) to_lower ctx path = root_path l -> settled (lstat_of os t) l ->
   jo_allow (judge_write os to_lower ctx t (Some path)) = true ->
     (forall old new, run_contained ctx place t (edit_file os to_lower ctx checker max (mkEditInput path old new)) s) /\
     (entry t l <> Some Directory -> forall content, run_contained ctx place t (write_file os to_lower ctx checker (mkWriteInput path content)) s) /\
     run_contained ctx place t (create_directory os to_lower ctx path) s) /\
  (resolvePathUnresolved (lstat_of os t) to_lower ctx path = root_path l -> (exists perm data, t !! l = Some (Regular perm data)) ->
   jo_allow (judge_unlink os to_lower ctx t (Some path)) = true ->
     run_contained ctx place t (delete_file os to_lower ctx checker path) s).
Proof.
  intros t Hw Hk Hf Ha Hroots Hdev. split.
  - intros Hp Hl Hj. assert (Hr : exists root, root ∈ SessionRoots ctx /\ under (place root) l) by (eapply approved_root; eassumption). split_and!.
    + intros old new. by apply edit_contained with l.
    + intros Hnd content. destruct l as [|c d _] using rev_ind; [done|]. rewrite entry_snoc in Hnd. by apply write_contained with d c.
    + by apply create_contained with l.
  - intros Hp (perm & data & Hn) Hj. destruct l as [|c d _] using rev_ind; [by destruct (Hw _ _ Hn) as (d & c & E & _); destruct d|].
    eapply delete_contained; [exact Hw|done|exact Hp|exact Hn|]. eapply approved_file; eassumption.
Qed.

Lemma approved_writes_contained_witness :
  run_contained small_ctx (fun _ => ["ws"]) small_tree (edit_file sound_os (fun s => s) small_ctx None 0 (mkEditInput "f" "c" "XY")) small_sys /\
  run_contained small_ctx (fun _ => ["ws"]) small_tree (write_file sound_os (fun s => s) small_ctx None (mkWriteInput "new/g" "data")) small_sys /\
  run_contained small_ctx (fun _ => ["ws"]) small_tree (delete_file sound_os (fun s => s) small_ctx None "f") small_sys.
Proof.
  assert (Hroots : forall root, root ∈ SessionRoots small_ctx -> is_abs root = true /\
    eval_comps (lstat_of sound_os small_tree) (Clean root) = inl (true, ["ws"]) /\ entry small_tree ["ws"] = Some Directory).
  { intros root Hr. apply list_elem_of_singleton in Hr as ->. split; [reflexivity|]. split; vm_compute; reflexivity. }
  assert (Hd : dirs (lstat_of sound_os small_tree) ["ws"]).
  { intros [|x a] b Hl Hne; [done|]. injection Hl as <- Hl. destruct a; [vm_compute; reflexivity|done]. }
  assert (Hk : (max_links sound_os <= maxLinks)%nat) by (apply Nat.leb_le; reflexivity).
  pose proof (approved_writes_contained sound_os (fun s => s) small_ctx (fun _ => ["ws"]) None 0) as T.
  destruct (T "f" small_sys ["ws"; "f"] small_wf Hk eq_refl eq_refl Hroots ltac:(discriminate)) as [H1 H2].
  destruct H1 as (H1 & _ & _).
  { vm_compute. reflexivity. }
  { left. split; [by repeat constructor|]. right. exists ["ws"], "f". split; [done|]. split; [exact Hd|]. vm_compute. reflexivity. }
  { vm_compute. reflexivity. }
  split; [exact (H1 "c" "XY")|]. split.
  - destruct (T "new/g" small_sys ["ws"; "new"; "g"] small_wf Hk eq_refl eq_refl Hroots ltac:(discriminate)) as [(_ & H3 & _) _].
    + vm_compute. reflexivity.
    + right. exists ["ws"], "new", ["g"]. split; [done|]. split; [by repeat constructor|]. split; [exact Hd|vm_compute; reflexivity].
    + vm_compute. reflexivity.
    + apply H3. vm_compute. discriminate.
  - apply H2; [vm_compute; reflexivity|exists 420%Z, "abcab"; vm_compute; reflexivity|vm_compute; reflexivity].
Defined.

(** A link outside the roots that points into them is approved, and deleted:
    the judge means to look at the link, and its last step looks at the target. *)
Example link_outside_deleted :
  jo_allow (judge_unlink sound_os (fun s => s) small_ctx small_tree (Some "/etc/link")) = true /\
  let '(r, s') := delete_file sound_os (fun s => s) small_ctx None "/etc/link" small_sys in
  tr_is_error r = false /\ small_tree !! ["etc"; "link"] = Some (Link "/ws/f") /\ s_tree s' !! ["etc"; "link"] = None.
Proof. vm_compute. repeat split. Qed.
