(* ===== verification/Sse.v ===== *)
(** * Repair of event streams: src/llm/sse_sanitize.go

    The body of a streaming response is re-emitted event by event; events
    without data, and events whose data are no complete JSON value, are left
    out, since they would end the call in the SDK's decoder.  A body that does
    not look like an event stream is passed on byte for byte.  Theorems: what is
    delivered does not depend on how it is read, and an event-stream parser finds
    in it exactly the dispatchable events of the original.  Parameters:
    [strings.ToLower] on media types. *)

From Stdlib Require Import ZArith Lia Ascii.
From stdpp Require Import base gmap strings list.
From S2P Require Import Prelude GoStr Fence Json ToolSyntax Oneshot Judge Paths.
Open Scope sp4rk_scope.

(** What ends a stream. *)
Inductive read_error := EOF | Failed (text : string).

Section media.
Variable to_lower : string -> string.
Definition isEventStream (contentType : string) : bool := has_prefix (to_lower (trim_space contentType)) "text/event-stream".
End media.

Definition sseFieldPrefixes : list string := ["data:"; "event:"; "id:"; "retry:"; ":"].
Definition isSSEFieldLine (line : string) : bool :=
  if String.eqb line "" then false else existsb (has_prefix line) sseFieldPrefixes.

Definition is_lf (c : ascii) : bool := Ascii.eqb c "010".
Definition is_cr (c : ascii) : bool := Ascii.eqb c "013".
Definition trimSSELine (raw : string) : string := trim_right_chars is_cr (trim_right_chars is_lf raw).

(** [bufio.Reader.ReadString('\n')]: the line with its end, and the rest; [None]:
    the stream ended first. *)
Fixpoint read_line (s : string) : option (string * string) :=
  match s with
  | "" => None
  | String c r =>
      if is_lf c then Some (String c "", r)
      else match read_line r with Some (line, rest) => Some (String c line, rest) | None => None end
  end.

Definition ssePayloadIsCompleteJSON (data : string) : bool :=
  let t := trim_space data in
  match t with
  | "" => false
  | String c _ =>
      if has_prefix t "[DONE]" then true
      else if negb (Ascii.eqb c "{") && negb (Ascii.eqb c "[") then false
      else json_valid t
  end.

Record sseSanitizingBody := mkBody {
  b_src : string;             (** what the source has left *)
  b_end : read_error;         (** and how it ends *)
  b_decided : bool;
  b_raw : bool;
  b_head : string;
  b_detErr : option read_error;
  b_out : string;
  b_evData : string;
  b_evEvent : string;
  b_hasData : bool;
  b_eof : bool;
  b_err : option read_error;
}.
Definition newSSESanitizingBody (src : string) (e : read_error) (trusted : bool) : sseSanitizingBody :=
  mkBody src e trusted false "" None "" "" "" false false None.
Definition passthrough (b : sseSanitizingBody) : bool := b_decided b && b_raw b.

(** [emit]: the text of an event. *)
Definition event_text (event data : string) : string :=
  (if String.eqb event "" then "" else "event: " +s+ event +s+ nl) +s+
  join "" (map (fun line => "data: " +s+ line +s+ nl) (split_byte "010" data)) +s+ nl.
Definition with_event (data event : string) (has : bool) (out : string) (b : sseSanitizingBody) : sseSanitizingBody :=
  mkBody (b_src b) (b_end b) (b_decided b) (b_raw b) (b_head b) (b_detErr b) out data event has (b_eof b) (b_err b).
Definition dispatch (b : sseSanitizingBody) : sseSanitizingBody :=
  let out := if negb (b_hasData b) then b_out b
             else if negb (ssePayloadIsCompleteJSON (b_evData b)) then b_out b
             else b_out b +s+ event_text (b_evEvent b) (b_evData b) in
  with_event "" "" false out b.
Definition drop_space (value : string) : string := match value with String " " r => r | _ => value end.
Definition field_of (line : string) : string * string :=
  match cut_first ":" line with Some (name, value) => (name, drop_space value) | None => (line, "") end.
Definition handleLine (line : string) (b : sseSanitizingBody) : sseSanitizingBody :=
  if String.eqb line "" then dispatch b
  else
    let '(name, value) := field_of line in
    if String.eqb name "data" then
      with_event (b_evData b +s+ (if b_hasData b then nl else "") +s+ value) (b_evEvent b) true (b_out b) b
    else if String.eqb name "event" then with_event (b_evData b) value (b_hasData b) (b_out b) b
    else b.

Definition with_src (src : string) (b : sseSanitizingBody) : sseSanitizingBody :=
  mkBody src (b_end b) (b_decided b) (b_raw b) (b_head b) (b_detErr b) (b_out b) (b_evData b) (b_evEvent b) (b_hasData b) (b_eof b) (b_err b).
Definition decide_raw (raw : bool) (head : string) (detErr : option read_error) (b : sseSanitizingBody) : sseSanitizingBody :=
  mkBody (b_src b) (b_end b) true raw head detErr (b_out b) (b_evData b) (b_evEvent b) (b_hasData b) (b_eof b) (b_err b).
Definition stop_with (e : read_error) (b : sseSanitizingBody) : sseSanitizingBody :=
  mkBody "" (b_end b) (b_decided b) (b_raw b) (b_head b) (b_detErr b) (b_out b) (b_evData b) (b_evEvent b) (b_hasData b)
    (match e with EOF => true | Failed _ => b_eof b end) (Some e).

Definition detect (b : sseSanitizingBody) : sseSanitizingBody :=
  match read_line (b_src b) with
  | Some (line, rest) =>
      let trimmed := trimSSELine line in
      if isSSEFieldLine trimmed then handleLine trimmed (with_src rest (decide_raw false (b_head b) (b_detErr b) b))
      else with_src rest (decide_raw true line None b)
  | None => with_src "" (decide_raw true (b_src b) (Some (b_end b)) b)
  end.
Definition step (b : sseSanitizingBody) : sseSanitizingBody :=
  if negb (b_decided b) then detect b
  else match read_line (b_src b) with
  | Some (line, rest) => handleLine (trimSSELine line) (with_src rest b)
  | None => stop_with (b_end b) b
  end.

(** The loop of [Read]; each step takes a line or ends it. *)
Fixpoint read_loop (fuel : nat) (b : sseSanitizingBody) : sseSanitizingBody :=
  match fuel with
  | O => b
  | S fuel =>
      if String.eqb (b_out b) "" && negb (b_eof b) && (if b_err b is None then true else false) && negb (passthrough b)
      then read_loop fuel (step b) else b
  end.
Definition with_out (out : string) (b : sseSanitizingBody) : sseSanitizingBody :=
  with_event (b_evData b) (b_evEvent b) (b_hasData b) out b.
Definition with_head (head : string) (b : sseSanitizingBody) : sseSanitizingBody :=
  mkBody (b_src b) (b_end b) (b_decided b) (b_raw b) head (b_detErr b) (b_out b) (b_evData b) (b_evEvent b) (b_hasData b) (b_eof b) (b_err b).
Definition clear_detErr (b : sseSanitizingBody) : sseSanitizingBody :=
  mkBody (b_src b) (b_end b) (b_decided b) (b_raw b) (b_head b) None (b_out b) (b_evData b) (b_evEvent b) (b_hasData b) (b_eof b) (b_err b).
(** [Read] into a buffer of [S n] bytes; a read of the source itself returns
    [S m] of them, if there are as many. *)
Definition Read (n m : nat) (b : sseSanitizingBody) : string * option read_error * sseSanitizingBody :=
  let b := read_loop (S (S (String.length (b_src b)))) b in
  if passthrough b then
    if negb (String.eqb (b_head b) "") then (take_str (S n) (b_head b), None, with_head (str_drop (S n) (b_head b)) b)
    else match b_detErr b with
    | Some e => ("", Some e, clear_detErr b)
    | None =>
        if String.eqb (b_src b) "" then ("", Some (b_end b), b)
        else let k := S (Nat.min n m) in (take_str k (b_src b), None, with_src (str_drop k (b_src b)) b)
    end
  else if negb (String.eqb (b_out b) "") then (take_str (S n) (b_out b), None, with_out (str_drop (S n) (b_out b)) b)
  else match b_err b with
  | Some e => ("", Some e, b)
  | None => ("", Some EOF, b)
  end.
(** Reads, one after the other, until one fails. *)
Fixpoint drain (sizes : list (nat * nat)) (b : sseSanitizingBody) : string * option read_error :=
  match sizes with
  | [] => ("", None)
  | (n, m) :: sizes =>
      let '(bytes, err, b) := Read n m b in
      match err with
      | Some e => (bytes, Some e)
      | None => let '(more, e) := drain sizes b in (bytes +s+ more, e)
      end
  end.

(** ** Event streams *)

(** The lines a stream terminates. *)
Fixpoint stream_lines (fuel : nat) (s : string) : list string :=
  match fuel with
  | O => []
  | S fuel => match read_line s with Some (line, rest) => trimSSELine line :: stream_lines fuel rest | None => [] end
  end.
Definition lines_of (s : string) : list string := stream_lines (S (String.length s)) s.
(** The blocks a blank line terminates. *)
Fixpoint blocks (current lines : list string) : list (list string) :=
  match lines with
  | [] => []
  | line :: lines => if String.eqb line "" then current :: blocks [] lines else blocks (current ++ [line]) lines
  end.
Definition values (name : string) (block : list string) : list string :=
  map snd (List.filter (fun f => String.eqb (fst f) name) (map field_of block)).
(** The event of a block: its data lines, and the last name it gives. *)
Definition block_event (block : list string) : option (string * string) :=
  match values "data" block with
  | [] => None
  | data => Some (List.last (values "event" block) "", join nl data)
  end.
Definition events (s : string) : list (string * string) := omap block_event (blocks [] (lines_of s)).
Definition dispatchable (e : string * string) : bool := ssePayloadIsCompleteJSON (snd e).

(** What is delivered of a body, and how it ends. *)
Definition sanitized (s : string) : string := join "" (map (fun e => event_text (fst e) (snd e)) (List.filter dispatchable (events s))).
Definition is_stream (trusted : bool) (s : string) : bool :=
  trusted || match read_line s with Some (line, _) => isSSEFieldLine (trimSSELine line) | None => false end.
Definition delivered (trusted : bool) (s : string) : string := if is_stream trusted s then sanitized s else s.

(** ** Lines *)

Lemma read_line_length s line rest : read_line s = Some (line, rest) -> (String.length rest < String.length s)%nat.
Proof.
  revert line rest. induction s as [|c s IH]; intros line rest; cbn [read_line]; [done|]. destruct (is_lf c); [intros [= _ <-]; simpl; lia|].
  destruct (read_line s) as [[l r]|]; [|done]. intros [= _ <-]. specialize (IH _ _ eq_refl). simpl. lia.
Qed.
Lemma stream_lines_fuel f1 f2 s : (String.length s < f1)%nat -> (String.length s < f2)%nat -> stream_lines f1 s = stream_lines f2 s.
Proof.
  revert f2 s. induction f1 as [|f1 IH]; intros f2 s H1 H2; [lia|]. destruct f2 as [|f2]; [lia|]. cbn [stream_lines].
  destruct (read_line s) as [[line rest]|] eqn:E; [|done]. apply read_line_length in E. f_equal. apply IH; lia.
Qed.
Lemma lines_of_step s line rest : read_line s = Some (line, rest) -> lines_of s = trimSSELine line :: lines_of rest.
Proof.
  intros E. unfold lines_of at 1. cbn [stream_lines]. rewrite E. f_equal. apply stream_lines_fuel; apply read_line_length in E; lia.
Qed.
Lemma lines_of_end s : read_line s = None -> lines_of s = [].
Proof. intros E. unfold lines_of. cbn [stream_lines]. by rewrite E. Qed.

(** ** What a body still delivers *)

Definition texts (bs : list (list string)) : string :=
  join "" (map (fun e => event_text (fst e) (snd e)) (List.filter dispatchable (omap block_event bs))).
Lemma join_empty_cons x l : join "" (x :: l) = x +s+ join "" l.
Proof. destruct l as [|y l]; [cbn [join]; by rewrite sapp_nil_r|]. done. Qed.
Lemma join_empty_app a b : join "" (a ++ b) = join "" a +s+ join "" b.
Proof. induction a as [|x a IH]; [done|]. cbn [app]. by rewrite !join_empty_cons, IH, sapp_assoc. Qed.
Lemma texts_cons block bs :
  texts (block :: bs) =
    match block_event block with
    | Some e => if dispatchable e then event_text (fst e) (snd e) +s+ texts bs else texts bs
    | None => texts bs
    end.
Proof.
  unfold texts. cbn [omap list_omap]. destruct (block_event block) as [e|]; [|done]. cbn [List.filter].
  destruct (dispatchable e); [|done]. cbn [map]. apply join_empty_cons.
Qed.

(** The fields of the body hold the event of the lines read since the last blank one. *)
Definition holds (block : list string) (b : sseSanitizingBody) : Prop :=
  b_hasData b = (match values "data" block with [] => false | _ => true end) /\ b_evData b = join nl (values "data" block) /\
  b_evEvent b = List.last (values "event" block) "".
Lemma values_snoc name block line :
  values name (block ++ [line]) = values name block ++ (if String.eqb (fst (field_of line)) name then [snd (field_of line)] else []).
Proof.
  unfold values. rewrite map_app, List.filter_app, map_app. cbn [map List.filter]. by destruct (String.eqb (fst (field_of line)) name).
Qed.
Lemma join_snoc l x : l <> [] -> join nl (l ++ [x]) = join nl l +s+ nl +s+ x.
Proof.
  induction l as [|a l IH]; [done|]. intros _. destruct l as [|c l]; [done|]. change (join nl ((a :: c :: l) ++ [x])) with (a +s+ nl +s+ join nl ((c :: l) ++ [x])).
  rewrite IH by done. change (join nl (a :: c :: l)) with (a +s+ nl +s+ join nl (c :: l)). by rewrite !sapp_assoc.
Qed.
Lemma last_snoc (l : list string) x d : List.last (l ++ [x]) d = x.
Proof. apply List.last_last. Qed.

Definition same_but_event (b b' : sseSanitizingBody) : Prop :=
  b_src b' = b_src b /\ b_end b' = b_end b /\ b_decided b' = b_decided b /\ b_raw b' = b_raw b /\ b_head b' = b_head b /\
  b_detErr b' = b_detErr b /\ b_eof b' = b_eof b /\ b_err b' = b_err b.
Lemma handleLine_holds line block b :
  line <> "" -> holds block b -> holds (block ++ [line]) (handleLine line b) /\ b_out (handleLine line b) = b_out b /\ same_but_event b (handleLine line b).
Proof.
  intros Hl (H1 & H2 & H3). unfold handleLine, holds, same_but_event. rewrite (proj2 (String.eqb_neq _ _)) by done. rewrite !values_snoc.
  destruct (field_of line) as [name value]. cbn [fst snd]. destruct (String.eqb_spec name "data") as [->|Hd].
  - change (String.eqb "data" "event") with false. cbn iota. rewrite app_nil_r. cbn [b_hasData b_evData b_evEvent b_out with_event].
    split; [|done]. rewrite H1, H2, H3. destruct (values "data" block) as [|v vs]; [done|]. split_and!; [done| |done]. by rewrite join_snoc.
  - rewrite !app_nil_r. destruct (String.eqb_spec name "event") as [->|He].
    + cbn [b_hasData b_evData b_evEvent b_out with_event]. split; [|done]. by rewrite last_snoc.
    + rewrite app_nil_r. done.
Qed.
Lemma dispatch_holds block b :
  holds block b ->
  holds [] (dispatch b) /\ same_but_event b (dispatch b) /\
  forall bs, b_out (dispatch b) +s+ texts bs = b_out b +s+ texts (block :: bs).
Proof.
  intros (H1 & H2 & H3). split; [done|]. split; [done|]. intros bs. unfold dispatch. cbn [b_out with_event]. rewrite texts_cons. unfold block_event.
  rewrite H1, H2, H3. destruct (values "data" block) as [|v vs]; [done|]. cbn [negb]. unfold dispatchable. cbn [fst snd].
  destruct (ssePayloadIsCompleteJSON (join nl (v :: vs))); cbn [negb]; [by rewrite sapp_assoc|done].
Qed.

(** What a body delivers from here on. *)
Inductive todo (b : sseSanitizingBody) : string -> Prop :=
| todo_fresh : b_decided b = false -> b_raw b = false -> b_err b = None -> b_eof b = false -> b_out b = "" -> holds [] b -> b_detErr b = None ->
    todo b (delivered false (b_src b))
| todo_raw : b_decided b = true -> b_raw b = true -> b_err b = None -> b_eof b = false -> b_out b = "" ->
    (forall e, b_detErr b = Some e -> b_src b = "" /\ e = b_end b) -> todo b (b_head b +s+ b_src b)
| todo_live block : b_decided b = true -> b_raw b = false -> b_err b = None -> b_eof b = false -> holds block b ->
    todo b (b_out b +s+ texts (blocks block (lines_of (b_src b))))
| todo_done : b_decided b = true -> b_raw b = false -> b_err b = Some (b_end b) -> todo b (b_out b).

Lemma handle_live line block b :
  b_decided b = true -> b_raw b = false -> b_err b = None -> b_eof b = false -> holds block b ->
  todo (handleLine line b) (b_out b +s+ texts (blocks block (line :: lines_of (b_src b)))).
Proof.
  intros H1 H2 H3 H4 H5. cbn [blocks]. destruct (String.eqb_spec line "") as [->|Hl].
  - unfold handleLine. change (String.eqb "" "") with true. cbn iota. destruct (dispatch_holds block b H5) as (Hh & Hs & Ht).
    rewrite <- Ht. destruct Hs as (E1 & E2 & E3 & E4 & E5 & E6 & E7 & E8). rewrite <- E1. apply todo_live; congruence.
  - destruct (handleLine_holds line block b Hl H5) as (Hh & Ho & E1 & E2 & E3 & E4 & E5 & E6 & E7 & E8). rewrite <- Ho, <- E1.
    apply todo_live; congruence.
Qed.
Lemma stream_field_line line : isSSEFieldLine line = true -> line <> "".
Proof. by intros H ->. Qed.
Lemma step_todo b s :
  todo b s -> b_err b = None -> passthrough b = false -> todo (step b) s /\ b_end (step b) = b_end b /\
  (b_err (step b) = None -> passthrough (step b) = false -> (String.length (b_src (step b)) < String.length (b_src b))%nat).
Proof.
  intros Ht He Hp. unfold step. destruct Ht as [Hd Hr _ Heof Ho Hh Hdet|Hd Hr _ Heof Ho Hdet|block Hd Hr _ Heof Hh|Hd Hr He'].
  - rewrite Hd. cbn [negb]. unfold detect, delivered, is_stream. cbn [orb]. destruct (read_line (b_src b)) as [[line rest]|] eqn:E.
    + destruct (isSSEFieldLine (trimSSELine line)) eqn:Ef.
      * set (b1 := with_src rest (decide_raw false (b_head b) (b_detErr b) b)).
        assert (Hs : sanitized (b_src b) = b_out b1 +s+ texts (blocks [] (trimSSELine line :: lines_of (b_src b1)))).
        { cbn [b_out b1 with_src decide_raw b_src]. rewrite Ho. unfold sanitized, events. by rewrite (lines_of_step _ _ _ E). }
        rewrite Hs. split; [by apply handle_live|].
        destruct (handleLine_holds (trimSSELine line) [] b1 (stream_field_line _ Ef) Hh) as (_ & _ & E1 & E2 & _).
        split; [by rewrite E2|]. intros _ _. rewrite E1. cbn [b_src b1 with_src decide_raw]. by eapply read_line_length.
      * assert (Hl : b_src b = line +s+ rest).
        { clear -E. revert line rest E. induction (b_src b) as [|c s IH]; intros line rest; cbn [read_line]; [done|].
          destruct (is_lf c); [by intros [= <- <-]|]. destruct (read_line s) as [[l r]|]; [|done]. intros [= <- <-]. by rewrite (IH _ _ eq_refl). }
        rewrite Hl. split; [|split; [done|done]]. exact (todo_raw (with_src rest (decide_raw true line None b)) eq_refl eq_refl He Heof Ho (fun e H => ltac:(discriminate H))).
    + split; [|split; [done|done]].
      assert (Hraw := todo_raw (with_src "" (decide_raw true (b_src b) (Some (b_end b)) b)) eq_refl eq_refl He Heof Ho).
      cbn [b_head b_src b_detErr b_end with_src decide_raw] in Hraw. rewrite sapp_nil_r in Hraw. apply Hraw. by intros e [= <-].
  - unfold passthrough in Hp. by rewrite Hd, Hr in Hp.
  - rewrite Hd. cbn [negb]. destruct (read_line (b_src b)) as [[line rest]|] eqn:E.
    + rewrite (lines_of_step _ _ _ E). set (b1 := with_src rest b).
      change (b_out b) with (b_out b1). change (lines_of rest) with (lines_of (b_src b1)). split; [by apply handle_live|].
      assert (Hsb : same_but_event b1 (handleLine (trimSSELine line) b1)).
      { destruct (String.eqb_spec (trimSSELine line) "") as [->|Hl]; [done|]. by apply (handleLine_holds (trimSSELine line) block b1 Hl). }
      destruct Hsb as (E1 & E2 & _). split; [by rewrite E2|]. intros _ _. rewrite E1. by eapply read_line_length.
    + rewrite (lines_of_end _ E). cbn [blocks]. change (texts []) with "". rewrite sapp_nil_r. split; [|done].
      apply (todo_done (stop_with (b_end b) b)); done.
  - congruence.
Qed.

Lemma todo_eof b s : todo b s -> b_err b = None -> b_eof b = false.
Proof. intros Ht He. destruct Ht; congruence. Qed.
Lemma loop_todo fuel b s :
  todo b s -> (b_err b = None -> passthrough b = false -> (String.length (b_src b) < fuel)%nat) ->
  let b' := read_loop fuel b in todo b' s /\ b_end b' = b_end b /\ (b_out b' <> "" \/ b_err b' <> None \/ passthrough b' = true).
Proof.
  cbv zeta. revert b. induction fuel as [|fuel IH]; intros b Ht Hf; cbn [read_loop].
  { split; [done|]. split; [done|]. right. destruct (b_err b); [by left|]. right. destruct (passthrough b); [done|]. specialize (Hf eq_refl eq_refl). lia. }
  destruct (String.eqb_spec (b_out b) "") as [Ho|Ho]; cbn [andb]; [|split; [done|]; split; [done|by left]].
  destruct (b_err b) as [e|] eqn:He; [rewrite andb_false_r; cbn [andb]; split; [done|]; split; [done|]; right; left; by rewrite He|].
  rewrite (todo_eof b s Ht He). cbn [negb andb]. destruct (passthrough b) eqn:Hp; cbn [negb].
  { split; [done|]. split; [done|]. by right; right. }
  destruct (step_todo b s Ht He Hp) as (Ht' & He' & Hl). rewrite <- He'. apply IH; [done|]. intros H1 H2. specialize (Hl H1 H2). specialize (Hf eq_refl eq_refl). lia.
Qed.

Lemma take_str_nonempty n s : s <> "" -> take_str (S n) s <> "".
Proof. by destruct s. Qed.
Lemma take_drop_str' n s : s = take_str n s +s+ str_drop n s.
Proof. by rewrite take_drop_str. Qed.
(** A read delivers the next bytes, or the end when there are none. *)
Lemma Read_todo n m b s :
  todo b s ->
  let '(bytes, err, b') := Read n m b in
  b_end b' = b_end b /\
  match err with
  | None => bytes <> "" /\ exists s', s = bytes +s+ s' /\ todo b' s'
  | Some e => bytes = "" /\ s = "" /\ e = b_end b
  end.
Proof.
  intros Ht. unfold Read. destruct (loop_todo (S (S (String.length (b_src b)))) b s Ht) as (Ht' & He & Hfin); [lia|].
  set (b1 := read_loop _ b) in *. rewrite <- He. clearbody b1. clear Ht He b. rename b1 into b. destruct (passthrough b) eqn:Hp.
  - unfold passthrough in Hp. apply andb_true_iff in Hp as [Hd Hr].
    assert (Hraw : b_err b = None /\ b_eof b = false /\ b_out b = "" /\ (forall e, b_detErr b = Some e -> b_src b = "" /\ e = b_end b) /\ s = b_head b +s+ b_src b).
    { destruct Ht'; try congruence. by split_and!. }
    destruct Hraw as (H1 & H2 & H3 & H4 & ->). destruct (String.eqb_spec (b_head b) "") as [Hh|Hh]; cbn [negb].
    + rewrite Hh. destruct (b_detErr b) as [e|] eqn:Ed.
      * destruct (H4 e eq_refl) as [Hs He]. split; [done|]. by rewrite Hs.
      * destruct (String.eqb_spec (b_src b) "") as [Hs|Hs]; [split; [done|]; by rewrite Hs|]. split; [done|]. split; [by apply take_str_nonempty|].
        exists (str_drop (S (Nat.min n m)) (b_src b)). split; [apply take_drop_str'|].
        assert (Hn := todo_raw (with_src (str_drop (S (Nat.min n m)) (b_src b)) b) Hd Hr H1 H2 H3). cbn [b_head b_src b_detErr b_end with_src] in Hn.
        rewrite Hh in Hn. apply Hn. intros e He. congruence.
    + split; [done|]. split; [by apply take_str_nonempty|]. exists (str_drop (S n) (b_head b) +s+ b_src b).
      split; [by rewrite <- sapp_assoc, take_drop_str|].
      exact (todo_raw (with_head (str_drop (S n) (b_head b)) b) Hd Hr H1 H2 H3 H4).
  - destruct (String.eqb_spec (b_out b) "") as [Ho|Ho]; cbn [negb].
    + destruct Hfin as [?|[Hfin|?]]; [done| |congruence]. destruct (b_err b) as [e|] eqn:Ee; [|done]. destruct Ht'; try congruence.
      split; [done|]. split; [done|]. split; [done|congruence].
    + split; [done|]. split; [by apply take_str_nonempty|]. destruct Ht' as [? ? ? ? ? ? ?|? ? ? ? ? ?|block Hd Hr He Hf Hh|Hd Hr He]; [done|done| |].
      * exists (str_drop (S n) (b_out b) +s+ texts (blocks block (lines_of (b_src b)))). split; [by rewrite <- sapp_assoc, take_drop_str|].
        exact (todo_live (with_out (str_drop (S n) (b_out b)) b) block Hd Hr He Hf Hh).
      * exists (str_drop (S n) (b_out b)). split; [apply take_drop_str'|]. exact (todo_done (with_out (str_drop (S n) (b_out b)) b) Hd Hr He).
Qed.
Lemma drain_todo sizes b s :
  todo b s ->
  let '(out, err) := drain sizes b in
  match err with
  | Some e => out = s /\ e = b_end b
  | None => (exists rest, s = out +s+ rest) /\ (length sizes <= String.length out)%nat
  end.
Proof.
  revert b s. induction sizes as [|[n m] sizes IH]; intros b s Ht; cbn [drain]; [split; [by exists s|simpl; lia]|].
  pose proof (Read_todo n m b s Ht) as H. destruct (Read n m b) as [[bytes err] b']. destruct H as [He H]. destruct err as [e|].
  - destruct H as (-> & -> & ->). done.
  - destruct H as (Hne & s' & -> & Ht'). specialize (IH b' s' Ht'). destruct (drain sizes b') as [more [e|]].
    + destruct IH as [-> ->]. by rewrite He.
    + destruct IH as [[rest ->] Hlen]. split; [exists rest; by rewrite sapp_assoc|]. rewrite length_sapp. cbn [length]. destruct bytes; [done|]. simpl. lia.
Qed.
Lemma new_todo trusted src e : todo (newSSESanitizingBody src e trusted) (delivered trusted src).
Proof.
  destruct trusted; [|by constructor]. unfold delivered. cbn [is_stream orb].
  exact (todo_live (newSSESanitizingBody src e true) [] eq_refl eq_refl eq_refl eq_refl (conj eq_refl (conj eq_refl eq_refl))).
Qed.

(** ** What a parser finds in the output *)

(** A line as the stream has them: no line feed, no carriage return at its end. *)
Definition clean (s : string) : Prop := has_char is_lf s = false /\ trim_right_chars is_cr s = s.

Lemma trim_lf_free s : has_char is_lf s = false -> trim_right_chars is_lf s = s.
Proof.
  induction s as [|c s IH]; cbn [has_char trim_right_chars]; [done|]. intros [Hc H]%orb_false_iff. rewrite IH by done. rewrite Hc. by destruct s.
Qed.
Lemma trim_snoc p c s : p c = true -> trim_right_chars p (s +s+ String c "") = trim_right_chars p s.
Proof.
  intros Hc. induction s as [|d s IH].
  - change ("" +s+ String c "") with (String c ""). cbn [trim_right_chars]. by rewrite Hc.
  - change (String d s +s+ String c "") with (String d (s +s+ String c "")). cbn [trim_right_chars]. by rewrite IH.
Qed.
Lemma trim_idem p s : trim_right_chars p (trim_right_chars p s) = trim_right_chars p s.
Proof.
  induction s as [|c s IH]; cbn [trim_right_chars]; [done|]. destruct (trim_right_chars p s) as [|d t] eqn:E.
  - destruct (p c) eqn:Ec; [done|]. cbn [trim_right_chars]. by rewrite Ec.
  - change (trim_right_chars p (String c (String d t))) with (match trim_right_chars p (String d t) with "" => if p c then "" else String c "" | r' => String c r' end).
    by rewrite IH.
Qed.
Lemma trim_has p q s : has_char q s = false -> has_char q (trim_right_chars p s) = false.
Proof.
  induction s as [|c s IH]; cbn [has_char trim_right_chars]; [done|]. intros [Hc H]%orb_false_iff. specialize (IH H).
  destruct (trim_right_chars p s) as [|d t]; [destruct (p c); [done|]; cbn [has_char]; by rewrite Hc|]. cbn [has_char] in *. by rewrite Hc.
Qed.
Lemma trim_suffix_of p a v : trim_right_chars p (a +s+ v) = a +s+ v -> trim_right_chars p v = v.
Proof.
  induction a as [|c a IH]; [done|]. change (String c a +s+ v) with (String c (a +s+ v)). cbn [trim_right_chars]. intros H. apply IH.
  destruct (trim_right_chars p (a +s+ v)) as [|d t] eqn:E; [destruct (p c); [done|injection H as H; by rewrite <- H]|]. by injection H.
Qed.
Lemma trim_prefix_of p a v : v <> "" -> trim_right_chars p v = v -> trim_right_chars p (a +s+ v) = a +s+ v.
Proof.
  intros Hv H. induction a as [|c a IH]; [done|]. change (String c a +s+ v) with (String c (a +s+ v)). cbn [trim_right_chars]. rewrite IH.
  destruct a; [by destruct v|done].
Qed.
Lemma clean_suffix a v : clean (a +s+ v) -> clean v.
Proof. intros [H1 H2]. rewrite has_char_app in H1. apply orb_false_iff in H1 as [_ H1]. split; [done|by eapply trim_suffix_of]. Qed.

Lemma read_line_lf x rest : has_char is_lf x = false -> read_line (x +s+ nl +s+ rest) = Some (x +s+ nl, rest).
Proof.
  induction x as [|c x IH]; [done|]. cbn [has_char]. intros [Hc H]%orb_false_iff.
  change (String c x +s+ nl +s+ rest) with (String c (x +s+ nl +s+ rest)). change (String c x +s+ nl) with (String c (x +s+ nl)).
  cbn [read_line]. by rewrite Hc, IH.
Qed.
Lemma lines_of_line x rest : clean x -> lines_of (x +s+ nl +s+ rest) = x :: lines_of rest.
Proof.
  intros [H1 H2]. rewrite (lines_of_step _ _ _ (read_line_lf x rest H1)). f_equal. unfold trimSSELine, nl.
  rewrite trim_snoc by done. by rewrite trim_lf_free.
Qed.
Lemma lines_clean s : Forall clean (lines_of s).
Proof.
  unfold lines_of. generalize (S (String.length s)). intros fuel. revert s. induction fuel as [|fuel IH]; intros s; cbn [stream_lines]; [constructor|].
  destruct (read_line s) as [[line rest]|] eqn:E; [|constructor]. constructor; [|apply IH].
  assert (Hl : exists x, line = x +s+ nl /\ has_char is_lf x = false).
  { clear IH. revert line rest E. induction s as [|c s IH]; intros line rest; cbn [read_line]; [done|]. destruct (is_lf c) eqn:Ec.
    - intros [= <- _]. exists "". split; [|done]. unfold is_lf in Ec. apply Ascii.eqb_eq in Ec as ->. done.
    - destruct (read_line s) as [[l r]|]; [|done]. intros [= <- _]. destruct (IH _ _ eq_refl) as (x & -> & Hx). exists (String c x). split; [done|].
      cbn [has_char]. by rewrite Ec. }
  destruct Hl as (x & -> & Hx). unfold trimSSELine, nl. rewrite trim_snoc, trim_lf_free by done. split; [by apply trim_has|apply trim_idem].
Qed.

(** The lines of an event's text. *)
Definition event_lines (e : string * string) : list string :=
  (if String.eqb (fst e) "" then [] else ["event: " +s+ fst e]) ++ map (fun line => "data: " +s+ line) (split_byte "010" (snd e)).
Definition clean_event (e : string * string) : Prop := clean (fst e) /\ Forall clean (split_byte "010" (snd e)).

Lemma clean_labelled a v : clean (a +s+ " ") -> clean v -> clean (a +s+ " " +s+ v).
Proof.
  intros [H1 H2] [H3 H4]. split.
  - rewrite <- sapp_assoc, has_char_app, H1, H3. done.
  - rewrite <- sapp_assoc. destruct v as [|c v]; [by rewrite sapp_nil_r|]. by apply trim_prefix_of.
Qed.
Lemma lines_of_event e rest : clean_event e -> lines_of (event_text (fst e) (snd e) +s+ rest) = event_lines e ++ "" :: lines_of rest.
Proof.
  intros [He Hd]. unfold event_text, event_lines. destruct e as [event data]. cbn [fst snd] in *.
  assert (Hdata : forall l, Forall clean l -> lines_of ((join "" (map (fun line => "data: " +s+ line +s+ nl) l) +s+ nl) +s+ rest) =
    map (fun line => "data: " +s+ line) l ++ "" :: lines_of rest).
  { intros l Hl. induction Hl as [|x l Hx Hl IH]; [by apply (lines_of_line "" rest)|]. cbn [map]. rewrite join_empty_cons, !sapp_assoc.
    rewrite sapp_assoc in IH. rewrite <- (sapp_assoc "data: " x). rewrite lines_of_line; [by rewrite IH|]. by apply (clean_labelled "data:" x). }
  destruct (String.eqb_spec event "") as [->|Hev].
  - apply Hdata, Hd.
  - rewrite !sapp_assoc. rewrite <- (sapp_assoc "event: " event). rewrite lines_of_line; [|by apply (clean_labelled "event:" event)].
    rewrite <- (sapp_assoc (join "" _)). by rewrite Hdata.
Qed.
Lemma blocks_event current e rest :
  blocks current (event_lines e ++ "" :: rest) = (current ++ event_lines e) :: blocks [] rest.
Proof.
  assert (H : forall l current, Forall (fun x => x <> "") l -> blocks current (l ++ "" :: rest) = (current ++ l) :: blocks [] rest).
  { intros l. induction l as [|x l IH]; intros cur Hl; cbn [app blocks]; [by rewrite app_nil_r|]. apply Forall_cons in Hl as [Hx Hl].
    rewrite (proj2 (String.eqb_neq _ _)) by done. rewrite IH by done. by rewrite <- app_assoc. }
  apply H. unfold event_lines. apply Forall_app. split; [by destruct (String.eqb (fst e) ""); repeat constructor|].
  apply Forall_fmap, Forall_true. done.
Qed.

(** The values of clean lines are clean. *)
Lemma clean_empty : clean "".
Proof. done. Qed.
Lemma field_clean line : clean line -> clean (snd (field_of line)).
Proof.
  intros H. unfold field_of, cut_first. destruct (String.index 0 ":" line) as [i|]; [|exact clean_empty]. cbn [snd].
  rewrite (take_drop_str' (i + String.length ":") line) in H. apply clean_suffix in H. revert H. generalize (str_drop (i + String.length ":") line). intros v H.
  unfold drop_space. destruct v as [|c v]; [done|]. destruct c as [[] [] [] [] [] [] [] []]; try exact H. by apply (clean_suffix " " v).
Qed.
Lemma values_clean name block : Forall clean block -> Forall clean (values name block).
Proof.
  intros H. apply Forall_forall. intros v Hv. apply list_elem_of_In in Hv. unfold values in Hv. apply in_map_iff in Hv as (f & <- & Hf).
  apply filter_In in Hf as [Hf _]. apply in_map_iff in Hf as (line & <- & Hl). apply field_clean.
  rewrite Forall_forall in H. by apply H, list_elem_of_In.
Qed.
Lemma has_char_lf s : has_char (Ascii.eqb "010") s = has_char is_lf s.
Proof. induction s as [|c s IH]; [done|]. cbn [has_char]. unfold is_lf at 1. by rewrite IH, Ascii.eqb_sym. Qed.
Lemma split_join vs : vs <> [] -> Forall clean vs -> split_byte "010" (join nl vs) = vs.
Proof.
  induction vs as [|v vs IH]; [done|]. intros _ [[Hv _] Hvs]%Forall_cons. rewrite <- has_char_lf in Hv. destruct vs as [|w vs].
  - by apply split_byte_free.
  - change (join nl (v :: w :: vs)) with (v +s+ String "010" (join nl (w :: vs))). rewrite (split_byte_app _ v (join nl (w :: vs)) Hv). f_equal. by apply IH.
Qed.
Lemma last_clean l d : clean d -> Forall clean l -> clean (List.last l d).
Proof. intros Hd H. induction H as [|x l Hx H IH]; [done|]. by destruct l. Qed.
Lemma block_event_clean block e : Forall clean block -> block_event block = Some e -> clean_event e.
Proof.
  intros H. unfold block_event. pose proof (values_clean "data" block H) as Hd. destruct (values "data" block) as [|v vs] eqn:E; [done|]. intros [= <-].
  split; cbn [fst snd]; [by apply last_clean, values_clean|]. pose proof (split_join (v :: vs) ltac:(done) Hd) as Hj. cbn [join] in Hj. by rewrite Hj.
Qed.
Lemma field_data v : field_of ("data: " +s+ v) = ("data", v).
Proof. reflexivity. Qed.
Lemma field_event v : field_of ("event: " +s+ v) = ("event", v).
Proof. reflexivity. Qed.
Lemma values_app name a b : values name (a ++ b) = values name a ++ values name b.
Proof. unfold values. by rewrite map_app, List.filter_app, map_app. Qed.
Lemma values_data_lines l : values "data" (map (fun line => "data: " +s+ line) l) = l /\ values "event" (map (fun line => "data: " +s+ line) l) = [].
Proof.
  unfold values. induction l as [|x l [IH1 IH2]]; [done|]. cbn [map List.filter]. rewrite field_data. cbn [fst]. rewrite String.eqb_refl.
  change (String.eqb "data" "event") with false. cbn iota. cbn [map snd]. by rewrite IH1, IH2.
Qed.
Lemma block_event_lines e : block_event (event_lines e) = Some e.
Proof.
  pose proof (join_split "010" (snd e) : join nl _ = _) as Hj. pose proof (split_byte_nonempty "010" (snd e)) as Hne. destruct e as [event data]. cbn [snd] in *. unfold block_event, event_lines. rewrite !values_app. cbn [fst snd].
  destruct (values_data_lines (split_byte "010" data)) as [-> ->]. rewrite app_nil_r.
  destruct (String.eqb_spec event "") as [->|He].
  - change (values "data" []) with (@nil string). cbn [app]. destruct (split_byte "010" data) as [|v vs]; [done|]. by rewrite Hj.
  - change (values "data" ["event: " +s+ event]) with (@nil string). change (values "event" ["event: " +s+ event]) with [event]. cbn [app].
    destruct (split_byte "010" data) as [|v vs]; [done|]. by rewrite Hj.
Qed.
Lemma block_clean_event s e : In e (events s) -> clean_event e.
Proof.
  assert (H : forall lines current, Forall clean current -> Forall clean lines -> Forall (Forall clean) (blocks current lines)).
  { induction lines as [|x l IH]; intros cur Hc Hl; [constructor|]. cbn [blocks]. apply Forall_cons in Hl as [Hx Hl].
    destruct (String.eqb x ""); [constructor; [done|by apply IH]|]. apply IH; [|done]. apply Forall_app. split; [done|by constructor]. }
  intros He. apply list_elem_of_In in He. unfold events in He. apply list_elem_of_omap in He as (block & Hb & E).
  eapply block_event_clean; [|exact E]. specialize (H (lines_of s) [] (Forall_nil_2 _) (lines_clean s)). rewrite Forall_forall in H. by apply H.
Qed.
(** What is written for a list of events is read back as that list. *)
Lemma events_texts es : Forall clean_event es -> events (join "" (map (fun e => event_text (fst e) (snd e)) es)) = es.
Proof.
  intros H. induction H as [|e es He Hes IH]; [done|]. cbn [map]. rewrite join_empty_cons. unfold events in *. rewrite lines_of_event by done.
  rewrite blocks_event. cbn [app omap list_omap]. rewrite block_event_lines. by f_equal.
Qed.
Lemma events_sanitized s : events (sanitized s) = List.filter dispatchable (events s).
Proof.
  apply events_texts. apply Forall_forall. intros e He. apply list_elem_of_In, filter_In in He as [He _]. by eapply block_clean_event.
Qed.
Lemma sanitized_dispatchable s : List.filter dispatchable (events (sanitized s)) = events (sanitized s).
Proof.
  rewrite events_sanitized. induction (events s) as [|e l IH]; [done|]. cbn [List.filter]. destruct (dispatchable e) eqn:E; [|done].
  cbn [List.filter]. by rewrite E, IH.
Qed.
Lemma sanitized_idem s : sanitized (sanitized s) = sanitized s.
Proof. unfold sanitized at 1. rewrite sanitized_dispatchable, events_sanitized. done. Qed.

(** C40: Reading a wrapped body with any sequence of buffer sizes, the source
    returning any number of bytes per read, delivers a prefix of one text, all
    of it before the reads end, and they end with the source's own end or
    error, at the latest after one read per byte.  That text is the body itself,
    byte for byte, when neither the media type nor the first line makes it an
    event stream; for an event stream it is one in which a parser finds exactly
    the original's events that carry a complete JSON payload, with their names
    and data, in order, and nothing that is dropped: repairing it again changes
    nothing. *)
Theorem drain_delivers trusted src e sizes :
  (let '(out, err) := drain sizes (newSSESanitizingBody src e trusted) in
   match err with
   | Some x => out = delivered trusted src /\ x = e
   | None => (exists rest, delivered trusted src = out +s+ rest) /\ (length sizes <= String.length out)%nat
   end) /\
  (if is_stream trusted src
   then events (delivered trusted src) = List.filter dispatchable (events src) /\ sanitized (delivered trusted src) = delivered trusted src
   else delivered trusted src = src).
Proof.
  split; [apply (drain_todo sizes _ _ (new_todo trusted src e))|]. unfold delivered. destruct (is_stream trusted src); [|done].
  split; [apply events_sanitized|apply sanitized_idem].
Qed.

(** ** A stream *)

Definition demo_stream : string :=
  ": keep-alive" +s+ nl +s+ nl +s+ "event: a" +s+ nl +s+ "data:{}" +s+ nl +s+ "data" +s+ nl +s+ nl +s+ "data: {" +s+ nl +s+ nl +s+ "data: [1]".
Example demo_stream_sanitized :
  delivered false demo_stream = "event: a" +s+ nl +s+ "data: {}" +s+ nl +s+ "data: " +s+ nl +s+ nl /\
  drain (repeat (2, 0)%nat 40) (newSSESanitizingBody demo_stream (Failed "reset") false) = (delivered false demo_stream, Some (Failed "reset")).
Proof. split; vm_compute; reflexivity. Qed.
