(* ===== verification/McpServer.v ===== *)
(** * One MCP server: src/tools/mcp/server.go, mcptool.go and redirect.go

    The client library is third-party code: the [Wire] answers every request as
    a function of the events so far, so the theorems hold for every server,
    network and clock.  Operations return the new server and run over the trace
    of events.  Parameters: the texts of durations and quoted strings,
    strings.EqualFold and strings.ToUpper, the removal of userinfo by net/url. *)

From Stdlib Require Import ZArith Lia Ascii.
From stdpp Require Import base gmap strings list.
From S2P Require Import Prelude GoStr AgentTypes Nudges Registry Oneshot.
Open Scope sp4rk_scope.

(** ** Configuration *)

Record ServerConfig := mkConfig {
  sc_Transport : string;
  sc_Command : string;
  sc_Args : list string;
  sc_Env : gmap string string;
  sc_URL : string;
  sc_Headers : gmap string string;
  sc_WorkDir : string;
  sc_HTTPClient : option nat;  (** a pointer *)
  sc_ToolGroupOverride : string;
  sc_Timeout : Z;
  sc_CallTimeout : Z;
}.
Definition defaultMCPTimeout : Z := 60 * 1000000000.
Definition unhealthyTimeoutThreshold : Z := 3.
Definition defaultServerCloseGrace : Z := 2 * 1000000000.

Definition isValidToolGroupOverride (g : string) : bool :=
  negb (String.eqb g "") && negb (String.eqb g "system") && IsValidToolGroup g.
Definition effectiveToolGroup (override transportName : string) : string :=
  if isValidToolGroupOverride override then override else MCPToolGroup transportName.
Definition resolveTimeoutBounds (cfg : ServerConfig) : Z * Z :=
  let handshake := if (sc_Timeout cfg <=? 0)%Z then defaultMCPTimeout else sc_Timeout cfg in
  (handshake, if (sc_CallTimeout cfg <=? 0)%Z then handshake else sc_CallTimeout cfg).

(** ** The environment of a child process *)

Definition stdioEnvAllowlist : list string :=
  ["PATH"; "HOME"; "USER"; "SHELL"; "USERPROFILE"; "LANG"; "TERM"; "TMPDIR"; "TEMP"; "TMP";
   "APPDATA"; "LOCALAPPDATA"; "SYSTEMROOT"; "COMSPEC"; "PATHEXT";
   "HTTP_PROXY"; "HTTPS_PROXY"; "NO_PROXY"; "ALL_PROXY"; "http_proxy"; "https_proxy"; "no_proxy"; "all_proxy";
   "SSL_CERT_FILE"; "SSL_CERT_DIR"; "REQUESTS_CA_BUNDLE"; "CURL_CA_BUNDLE"; "NODE_EXTRA_CA_CERTS";
   "VIRTUAL_ENV"; "CONDA_PREFIX"; "CONDA_DEFAULT_ENV"; "CONDA_SHLVL"; "CONDA_PREFIX_1"; "CONDA_PROMPT_MODIFIER";
   "CONDA_EXE"; "CONDA_PYTHON_EXE"].

(** [strings.LastIndex] of a character. *)
Fixpoint last_index (c : ascii) (s : string) : option nat :=
  match s with
  | "" => None
  | String d r =>
      match last_index c r with
      | Some i => Some (S i)
      | None => if Ascii.eqb c d then Some 0%nat else None
      end
  end.

Section env.
Variable to_upper : string -> string.
Variable equal_fold : string -> string -> bool.
(** The text of a URL that net/url parses and that has userinfo, without it. *)
Variable url_without_user : string -> option string.

Definition stdioEnvKeyAllowed (key goos : string) : bool :=
  existsb (String.eqb (if String.eqb goos "windows" then to_upper key else key)) stdioEnvAllowlist.
Definition isAllowedStdioEnvVarForOS (entry goos : string) : bool :=
  match cut_first "=" entry with
  | None => false
  | Some (key, _) => stdioEnvKeyAllowed key goos || has_prefix key "LC_"
  end.
Definition isCredentialedProxyVar (key : string) : bool :=
  equal_fold key "HTTP_PROXY" || equal_fold key "HTTPS_PROXY" || equal_fold key "ALL_PROXY".
Definition stripUserinfo (value : string) : string :=
  match url_without_user value with
  | Some stripped => stripped
  | None =>
      match last_index "@" value with
      | Some i => if contains (take_str i value) "/" then value else str_drop (S i) value
      | None => value
      end
  end.
Definition sanitizeProxyEntry (entry : string) : string :=
  match cut_first "=" entry with
  | None => entry
  | Some (key, value) =>
      if negb (isCredentialedProxyVar key) then entry
      else
        let stripped := stripUserinfo value in
        if String.eqb stripped value then entry else key +s+ "=" +s+ stripped
  end.
Definition safeStdioEnvForOS (raw : list string) (goos : string) : list string :=
  map sanitizeProxyEntry (List.filter (fun e => isAllowedStdioEnvVarForOS e goos) raw).
(** The variables of the configuration come last; the order of a map's range
    does not show, since its keys differ. *)
Definition child_env (raw : list string) (goos : string) (cfg : ServerConfig) : list string :=
  safeStdioEnvForOS raw goos ++ map (fun '(k, v) => k +s+ "=" +s+ v) (map_to_list (sc_Env cfg)).
End env.

(** ** src/tools/mcp/redirect.go *)

(** A URL as net/url parsed it. *)
Record Url := mkUrl { u_Scheme : string; u_Hostname : string; u_Port : string; u_Redacted : string }.
Definition maxHTTPRedirects : Z := 10.
Definition effectivePort (u : Url) : string :=
  if negb (String.eqb (u_Port u) "") then u_Port u
  else if String.eqb (u_Scheme u) "http" then "80"
  else if String.eqb (u_Scheme u) "https" then "443"
  else "".
Section redirect.
Variable quote : string -> string.
Variable equal_fold : string -> string -> bool.
Definition refusal_of (target : Url) (why : string) : string := "mcp http transport: redirect to " +s+ quote (u_Redacted target) +s+ " refused: " +s+ why.
(** The policy for the origin [initialURL], parsed or not; [None]: the redirect
    to [target] after the requests [via] is followed. *)
Definition originPinnedRedirects (initialURL : string) (parsed : Url + string) (target : Url) (via : list Url) : option string :=
  match parsed with
  | inr parseErr => Some ("mcp http transport: redirect policy for " +s+ quote initialURL +s+ " unavailable: " +s+ parseErr)
  | inl origin =>
      if (maxHTTPRedirects <=? Z.of_nat (length via))%Z then Some ("mcp http transport: stopped after " +s+ itoa maxHTTPRedirects +s+ " redirects")
      else if negb (String.eqb (u_Scheme target) "http" || String.eqb (u_Scheme target) "https") then
        Some (refusal_of target ("scheme " +s+ quote (u_Scheme target) +s+ " is not http(s)"))
      else if negb (equal_fold (u_Hostname target) (u_Hostname origin)) then
        Some (refusal_of target ("host " +s+ quote (u_Hostname target) +s+ " crosses the origin of " +s+ quote (u_Redacted origin)))
      else if String.eqb (u_Scheme target) (u_Scheme origin) then
        if negb (String.eqb (effectivePort target) (effectivePort origin)) then
          Some (refusal_of target ("port " +s+ quote (effectivePort target) +s+ " leaves the origin of " +s+ quote (u_Redacted origin)))
        else None
      else if String.eqb (u_Scheme origin) "http" && String.eqb (u_Scheme target) "https" then None
      else Some (refusal_of target (u_Scheme origin +s+ "→" +s+ u_Scheme target +s+ " downgrade"))
  end.
End redirect.

(** ** Events and the client library *)

Inductive transport_kind := KStdio | KStreamable | KSSE.
(** What the server code does with the library.  A connection is numbered by
    the clients made before it. *)
Inductive event :=
| Opened (conn : nat) (kind : transport_kind) (cfg : ServerConfig) (env : list string)
| NotOpened (kind : transport_kind)
| Starting (conn : nat) (detached : bool)  (** [detached]: on a context the caller cannot cancel *)
| Initializing (conn : nat)
| Listing (conn : nat) (id : Z) (cursor : string)
| Calling (conn : nat) (tool arguments : string)
| Closing (conn : nat)
| Killed (conn : nat).
Notation trace := (list event).
Definition is_opened (e : event) : bool := match e with Opened _ _ _ _ => true | _ => false end.
Definition is_listing (e : event) : bool := match e with Listing _ _ _ => true | _ => false end.
Definition count_if (p : event -> bool) (tr : trace) : nat := length (List.filter p tr).

Inductive open_reply :=
| OpenOk
| OpenFailed (command_made : option bool) (e : string).  (** the command was made, and its process started *)
(** The race of [Start] against the caller and the handshake bound. *)
Inductive start_reply := StartReturned (e : option string) | StartCancelled (e : string) | StartTimer.
Inductive close_error := ExitError (text : string) | OtherError (text : string).
Definition close_text (e : close_error) : string := match e with ExitError t | OtherError t => t end.
Inductive close_reply := CloseReturned (e : option close_error) | CloseLate (e : option close_error).
Record rawTool := mkRawTool { rt_Name : string; rt_Description : string; rt_InputSchema : string }.
Inductive list_reply := ListPage (tools : list rawTool) (next : string) | ListError (e : string) | ListBadJson (e : string).
Inductive Content := TextContent (text : string) | OtherContent (json : string + string).  (** marshalled, or the error *)
Record CallToolResult := mkCallResult { cr_Content : list Content; cr_Structured : option (string + string); cr_IsError : bool }.
Record Wire := mkWire {
  host_env : trace -> list string;
  opens : trace -> transport_kind -> open_reply;
  starts : trace -> start_reply;
  initializes : trace -> option string;
  lists : trace -> list list_reply * string;  (** the replies to the requests in turn, and the error of the one after *)
  calls : trace -> option CallToolResult + string;
  closes : trace -> close_reply;
  caller_err : trace -> option string;  (** [ctx.Err()] of the caller *)
  bound_passed : trace -> bool;  (** the deadline of the context derived from it has passed *)
}.
Definition W (A : Type) : Type := trace -> A * trace.
#[global] Instance W_ret : MRet W := fun A a tr => (a, tr).
#[global] Instance W_bind : MBind W := fun A B f m tr => let '(a, tr') := m tr in f a tr'.
Definition say (e : event) : W unit := fun tr => (tt, tr ++ [e]).
Definition ask {A} (f : trace -> A) : W A := fun tr => (f tr, tr).

(** ** Errors *)

Inductive mcp_error :=
| Plain (s : string)
| TimeoutError (server op tool : string) (bound : Z)
| Wrapped (prefix : string) (e : mcp_error).
Definition is_timeout (e : mcp_error) : bool := match e with TimeoutError _ _ _ _ => true | _ => false end.

(** ** The server *)

Record ToolInfo := mkInfo { ti_Name : string; ti_Description : string; ti_InputSchema : string }.
Record Server := mkServer {
  sv_name : string;
  sv_client : option nat;
  sv_tools : list ToolInfo;
  sv_lastError : string;
  sv_transportType : string;
  sv_toolGroupOverride : string;
  sv_timeout : Z;
  sv_callTimeout : Z;
  sv_consecutiveTimeouts : Z;
  sv_unhealthy : bool;
  sv_stdioCmd : option bool;  (** the command, and whether its process started *)
  sv_closeGrace : Z;
}.
Definition newServer (name : string) : Server := mkServer name None [] "" "" "" 0 0 0 false None 0.
Definition set_error (e : string) (s : Server) : Server :=
  mkServer (sv_name s) (sv_client s) (sv_tools s) e (sv_transportType s) (sv_toolGroupOverride s) (sv_timeout s) (sv_callTimeout s)
    (sv_consecutiveTimeouts s) (sv_unhealthy s) (sv_stdioCmd s) (sv_closeGrace s).
Definition set_health (timeouts : Z) (unhealthy : bool) (e : string) (s : Server) : Server :=
  mkServer (sv_name s) (sv_client s) (sv_tools s) e (sv_transportType s) (sv_toolGroupOverride s) (sv_timeout s) (sv_callTimeout s)
    timeouts unhealthy (sv_stdioCmd s) (sv_closeGrace s).
Definition set_cmd (cmd : option bool) (s : Server) : Server :=
  mkServer (sv_name s) (sv_client s) (sv_tools s) (sv_lastError s) (sv_transportType s) (sv_toolGroupOverride s) (sv_timeout s) (sv_callTimeout s)
    (sv_consecutiveTimeouts s) (sv_unhealthy s) cmd (sv_closeGrace s).
Definition set_tools (tools : list ToolInfo) (s : Server) : Server :=
  mkServer (sv_name s) (sv_client s) tools (sv_lastError s) (sv_transportType s) (sv_toolGroupOverride s) (sv_timeout s) (sv_callTimeout s)
    (sv_consecutiveTimeouts s) (sv_unhealthy s) (sv_stdioCmd s) (sv_closeGrace s).
(** The fields [Connect] sets first, and those it sets on success. *)
Definition configured (cfg : ServerConfig) (s : Server) : Server :=
  let '(handshake, call) := resolveTimeoutBounds cfg in
  mkServer (sv_name s) (sv_client s) (sv_tools s) (sv_lastError s) (sv_transportType s) (sc_ToolGroupOverride cfg) handshake call 0 false
    (sv_stdioCmd s) (sv_closeGrace s).
Definition connected (conn : nat) (transportType : string) (s : Server) : Server :=
  mkServer (sv_name s) (Some conn) (sv_tools s) "" transportType (sv_toolGroupOverride s) (sv_timeout s) (sv_callTimeout s)
    (sv_consecutiveTimeouts s) (sv_unhealthy s) (sv_stdioCmd s) (sv_closeGrace s).
Definition detached (s : Server) : Server :=
  mkServer (sv_name s) None [] "" (sv_transportType s) (sv_toolGroupOverride s) (sv_timeout s) (sv_callTimeout s) 0 false None (sv_closeGrace s).

Definition ToolGroup (s : Server) : string := effectiveToolGroup (sv_toolGroupOverride s) (sv_transportType s).
Definition effectiveCloseGrace (s : Server) : Z := if (0 <? sv_closeGrace s)%Z then sv_closeGrace s else defaultServerCloseGrace.
Definition IsConnected (s : Server) : bool := match sv_client s with Some _ => true | None => false end.

Record ServerStatus := mkStatus {
  ss_Name : string; ss_Transport : string; ss_Connected : bool; ss_Unhealthy : bool; ss_Starting : bool;
  ss_ToolCount : Z; ss_Tools : list string; ss_Error : string;
}.
Definition Status (s : Server) : ServerStatus :=
  mkStatus (sv_name s) (sv_transportType s) (IsConnected s) (sv_unhealthy s) false (Z.of_nat (length (sv_tools s))) (map ti_Name (sv_tools s))
    (sv_lastError s).

Section server.
Context (w : Wire) (goos : string) (to_upper : string -> string) (equal_fold : string -> string -> bool) (url_without_user : string -> option string).
Context (quote : string -> string) (seconds : Z -> string).

Fixpoint error_text (e : mcp_error) : string :=
  match e with
  | Plain s => s
  | TimeoutError server op tool bound =>
      "MCP server " +s+ server +s+ ": " +s+ op +s+ (if String.eqb tool "" then "" else " " +s+ tool) +s+ " timed out after " +s+ seconds bound
  | Wrapped prefix e => prefix +s+ error_text e
  end.

(** Whether the deadline that was set for the request has passed, and the error
    to report for it. *)
Definition timeoutErrorFor (bound : Z) (fallback : mcp_error) : W (bool * option mcp_error) :=
  base ← ask (caller_err w);
  passed ← ask (bound_passed w);
  mret (match base with
        | Some e => (false, Some (Plain e))
        | None => if (0 <? bound)%Z && passed then (true, Some fallback) else (false, None)
        end).

(** ** Closing *)

Definition normalizeCloseError (e : option close_error) : option string :=
  match e with Some (OtherError t) => Some t | _ => None end.
Definition closeClientBounded (conn : nat) (cmd : option bool) (grace : Z) : W (option string) :=
  r ← ask (closes w);
  _ ← say (Closing conn);
  match r with
  | CloseReturned e => mret (normalizeCloseError e)
  | CloseLate e =>
      match cmd with
      | Some true =>
          _ ← say (Killed conn);
          mret (Some ("server did not exit within " +s+ seconds grace +s+ " of stdin close; killed" +s+
            match e with Some e => ": " +s+ close_text e | None => "" end))
      | _ => mret (Some ("server close did not return within " +s+ seconds grace +s+ "; abandoned"))
      end
  end.
(** [client.Close] without a bound, its result dropped. *)
Definition close_plain (conn : nat) : W unit := say (Closing conn).
(** [Close]; the calls in flight and their drain are in [McpFacts]. *)
Definition Close (s : Server) : W (option string * Server) :=
  match sv_client s with
  | None => mret (None, s)
  | Some conn =>
      e ← closeClientBounded conn (sv_stdioCmd s) (effectiveCloseGrace s);
      mret (e, match e with Some t => set_error t (detached s) | None => detached s end)
  end.

(** ** Connecting *)

(** A constructor of the library. *)
Definition open (kind : transport_kind) (cfg : ServerConfig) (env : list string) : W (nat + (option bool * string)) :=
  tr ← ask (fun tr => tr);
  match opens w tr kind with
  | OpenOk => let conn := count_if is_opened tr in _ ← say (Opened conn kind cfg env); mret (inl conn)
  | OpenFailed cmd e => _ ← say (NotOpened kind); mret (inr (cmd, e))
  end.
Definition initializeClient (s : Server) (detach : bool) (conn : nat) : W (option mcp_error) :=
  r ← ask (starts w);
  _ ← say (Starting conn detach);
  match r with
  | StartReturned (Some e) => mret (Some (Plain ("failed to start MCP client for " +s+ sv_name s +s+ ": " +s+ e)))
  | StartCancelled e => mret (Some (Plain e))
  | StartTimer => mret (Some (TimeoutError (sv_name s) "initialize" "" (sv_timeout s)))
  | StartReturned None =>
      r ← ask (initializes w);
      _ ← say (Initializing conn);
      match r with
      | None => mret None
      | Some e =>
          t ← timeoutErrorFor (sv_timeout s) (TimeoutError (sv_name s) "initialize" "" (sv_timeout s));
          mret (Some match t.2 with
                     | Some te => te
                     | None => Plain ("failed to initialize MCP server " +s+ sv_name s +s+ ": " +s+ e)
                     end)
      end
  end.
Definition no_command (s : Server) : string := "MCP server " +s+ sv_name s +s+ ": stdio transport requires a non-empty command".
Definition connectStdio (cfg : ServerConfig) (s : Server) : W ((nat + mcp_error) * Server) :=
  if String.eqb (sc_Command cfg) "" then mret (inr (Plain (no_command s)), s)
  else
    raw ← ask (host_env w);
    r ← open KStdio cfg (child_env to_upper equal_fold url_without_user raw goos cfg);
    match r with
    | inr (cmd, e) =>
        mret (inr (Plain ("failed to create stdio MCP client for " +s+ sv_name s +s+ ": " +s+ e)),
              match cmd with Some p => set_cmd (Some p) s | None => s end)
    | inl conn =>
        let s := set_cmd (Some true) s in
        e ← initializeClient s false conn;
        match e with
        | Some e => _ ← closeClientBounded conn (sv_stdioCmd s) (effectiveCloseGrace s); mret (inr e, set_cmd None s)
        | None => mret (inl conn, s)
        end
    end.
Definition connect_sse (cfg : ServerConfig) (s : Server) : W (nat + mcp_error) :=
  r ← open KSSE cfg [];
  match r with
  | inr (_, e) =>
      mret (inr (Plain ("failed to create HTTP MCP client for " +s+ sv_name s +s+ " (tried Streamable HTTP and SSE): " +s+ e)))
  | inl conn =>
      e ← initializeClient s true conn;
      match e with
      | Some e => _ ← close_plain conn; mret (inr e)
      | None => mret (inl conn)
      end
  end.
Definition connectHTTP (cfg : ServerConfig) (s : Server) : W (nat + mcp_error) :=
  if String.eqb (sc_URL cfg) "" then mret (inr (Plain ("http transport requires URL for MCP server " +s+ sv_name s)))
  else
    r ← open KStreamable cfg [];
    match r with
    | inr _ => connect_sse cfg s
    | inl conn =>
        e ← initializeClient s false conn;
        match e with
        | None => mret (inl conn)
        | Some _ => _ ← close_plain conn; connect_sse cfg s
        end
    end.
Definition transport_of (transport : string) : string := if String.eqb transport "" then "stdio" else transport.
Definition connect_result (transportType : string) (s : Server) (r : nat + mcp_error) : option mcp_error * Server :=
  match r with
  | inl conn => (None, connected conn transportType s)
  | inr e => (Some e, set_error (error_text e) s)
  end.
Definition Connect (cfg : ServerConfig) (s : Server) : W (option mcp_error * Server) :=
  let s := configured cfg s in
  let transportType := transport_of (sc_Transport cfg) in
  if String.eqb transportType "stdio" && String.eqb (sc_Command cfg) "" then
    mret (Some (Plain (no_command s)), set_error "stdio transport requires a non-empty command" s)
  else if String.eqb transportType "stdio" then
    r ← connectStdio cfg s; mret (connect_result transportType r.2 r.1)
  else if String.eqb transportType "http" then
    r ← connectHTTP cfg s; mret (connect_result transportType s r)
  else
    mret (Some (Plain ("unsupported transport type " +s+ quote transportType +s+ " for MCP server " +s+ sv_name s)),
          set_error ("unsupported transport type " +s+ quote transportType) s).

(** ** Discovery *)

Definition mcpRawRequestIDBase : Z := Z.shiftl 1 30.
(** The counter is shared by the servers of the process. *)
Definition next_id (tr : trace) : Z := (mcpRawRequestIDBase + Z.of_nat (S (count_if is_listing tr)))%Z.
Definition empty_schema : string := "{" +s+ dq +s+ "type" +s+ dq +s+ ":" +s+ dq +s+ "object" +s+ dq +s+ "}".
Definition tool_info (t : rawTool) : ToolInfo :=
  mkInfo (rt_Name t) (rt_Description t) (if String.eqb (rt_InputSchema t) "" then empty_schema else rt_InputSchema t).
Fixpoint list_pages (conn : nat) (replies : list list_reply) (last : string) (tools : list ToolInfo) (cursor : string) : W (list ToolInfo + string) :=
  tr ← ask (fun tr => tr);
  _ ← say (Listing conn (next_id tr) cursor);
  match replies with
  | [] => mret (inr last)
  | ListError e :: _ => mret (inr e)
  | ListBadJson e :: _ => mret (inr ("failed to unmarshal tools/list response: " +s+ e))
  | ListPage page next :: replies =>
      let tools := tools ++ map tool_info page in
      if String.eqb next "" then mret (inl tools) else list_pages conn replies last tools next
  end.
Definition listToolsRaw (conn : nat) : W (list ToolInfo + string) :=
  r ← ask (lists w); list_pages conn r.1 r.2 [] "".
Definition not_connected (s : Server) : string := "mcp server " +s+ sv_name s +s+ " is not connected".
Definition DiscoverTools (s : Server) : W (option mcp_error * Server) :=
  match sv_client s with
  | None => mret (Some (Plain (not_connected s)), s)
  | Some conn =>
      r ← listToolsRaw conn;
      match r with
      | inl tools => mret (None, set_tools tools s)
      | inr e =>
          t ← timeoutErrorFor (sv_timeout s) (TimeoutError (sv_name s) "list_tools" "" (sv_timeout s));
          mret (Some match t.2 with
                     | Some te => te
                     | None => Plain ("failed to list tools from MCP server " +s+ sv_name s +s+ ": " +s+ e)
                     end, s)
      end
  end.

(** ** Calls *)

(** What a call takes along, under the lock. *)
Definition begin_call (s : Server) : option (nat * Z) := option_map (fun conn => (conn, sv_callTimeout s)) (sv_client s).
Definition streak_text (n bound : Z) : string := itoa n +s+ " consecutive tool-call timeouts (last timeout: " +s+ seconds bound +s+ ")".
Definition record_timeout (s : Server) : Server :=
  let n := (sv_consecutiveTimeouts s + 1)%Z in
  if (unhealthyTimeoutThreshold <=? n)%Z then set_health n true (streak_text n (sv_callTimeout s)) s
  else set_health n (sv_unhealthy s) (sv_lastError s) s.
Definition record_success (s : Server) : Server := set_health 0 false "" s.
(** What a call leaves behind: the reply, and whether the caller or the bound
    ended it. *)
Inductive call_end := CallOk | CallTimedOut | CallFailed.
Definition end_call (c : call_end) (s : Server) : Server :=
  match c with CallOk => record_success s | CallTimedOut => record_timeout s | CallFailed => s end.
Definition CallTool (name arguments : string) (s : Server) : W ((option CallToolResult + mcp_error) * Server) :=
  match begin_call s with
  | None => mret (inr (Plain (not_connected s)), s)
  | Some (conn, callTimeout) =>
      r ← ask (calls w);
      _ ← say (Calling conn name arguments);
      match r with
      | inl result => mret (inl result, end_call CallOk s)
      | inr e =>
          t ← timeoutErrorFor callTimeout (TimeoutError (sv_name s) "call_tool" name callTimeout);
          match t with
          | (true, Some te) => mret (inr te, end_call CallTimedOut s)
          | (false, Some te) => mret (inr te, end_call CallFailed s)
          | (_, None) => mret (inr (Plain e), end_call CallFailed s)
          end
      end
  end.

(** ** src/tools/mcp/mcptool.go *)

Definition extractTextFromContent (c : Content) : string :=
  match c with
  | TextContent text => text
  | OtherContent (inl json) => json
  | OtherContent (inr e) => "(failed to serialize content: " +s+ e +s+ ")"
  end.
Definition convertMCPResult (r : option CallToolResult) : ToolResult :=
  match r with
  | None => mkToolResult "" false
  | Some r =>
      let content := join nl (List.filter (fun t => negb (String.eqb t "")) (map extractTextFromContent (cr_Content r))) in
      let content :=
        match content, cr_Structured r with
        | "", Some (inl json) => json
        | "", Some (inr e) => "(failed to serialize structured content: " +s+ e +s+ ")"
        | _, _ => content
        end in
      mkToolResult content (cr_IsError r)
  end.
(** The decoder of an object, or the text of its error. *)
Context (parse_arguments : string -> string + string).
Definition Tool_Execute (name input : string) (s : Server) : W (ToolResult * Server) :=
  match (if String.eqb input "" then inl "" else parse_arguments input) with
  | inr e => mret (mkToolResult ("failed to parse input: " +s+ e) true, s)
  | inl arguments =>
      r ← CallTool name arguments s;
      mret (match r.1 with
            | inl result => convertMCPResult result
            | inr e => mkToolResult ("MCP tool call failed: " +s+ error_text e) true
            end, r.2)
  end.
End server.

(** The schema of a tool after the sanitizers, and the tool as it is registered
    with the code [execute] that runs it. *)
Definition sanitized (sanitizers : list (option (string -> string -> string))) (source schema : string) : string :=
  fold_left (fun schema f => match f with Some f => f source schema | None => schema end) sanitizers schema.
Definition NewTool (server : Server) (info : ToolInfo) (execute : string -> ToolResult * option string)
    (sanitizers : list (option (string -> string -> string))) : Tool :=
  mkTool (ti_Name info) (ti_Description info) (sanitized sanitizers (sv_name server) (ti_InputSchema info)) execute PolicyUserConfirm true
    (Some (ToolGroup server)) (Some (fun _ => mkOutcome false "" JudgeSeverityHard "")) None.

(** ** The tail of standard error *)

Definition stderrRingBytes : nat := 8 * 1024.
Definition stderrRing_Write (p buf : string) : string :=
  if (stderrRingBytes <=? String.length p)%nat then str_drop (String.length p - stderrRingBytes) p
  else if (stderrRingBytes <? String.length buf + String.length p)%nat
       then str_drop (String.length buf + String.length p - stderrRingBytes) buf +s+ p
       else buf +s+ p.
