(* ===== verification/McpGateway.v ===== *)
(** * The servers of a process: src/tools/mcp/gateway.go

    The gateway connects the configured servers, registers their tools and
    follows changes of the configuration.  Every method holds the lock for its
    whole body, so an operation is a function on the gateway, the registry and
    the trace.  Where the code ranges over a map, the members are an argument, in
    any order. *)

From Stdlib Require Import ZArith Lia Ascii.
From stdpp Require Import base gmap strings list sorting.
From S2P Require Import Prelude GoStr AgentTypes Fence Registry McpServer.
Open Scope sp4rk_scope.

(** ** Configuration *)

Record ServerEntry := mkEntry {
  se_Transport : string;
  se_Command : string;
  se_Args : list string;
  se_Env : gmap string string;
  se_URL : string;
  se_Headers : gmap string string;
  se_WorkDir : string;
  se_ToolGroupOverride : string;
  se_Timeout : Z;
  se_CallTimeout : Z;
}.
Notation sanitizer := (option (string -> string -> string)).
Record GatewayConfig := mkGatewayConfig {
  gc_Servers : list (string * ServerEntry);
  gc_DefaultWorkDir : string;
  gc_HTTPClient : option nat;
  gc_SchemaSanitizer : sanitizer;
}.
Definition serverConfigFromEntry (entry : ServerEntry) (workDir : string) (httpClient : option nat) (expandEnv : string -> string) : ServerConfig :=
  mkConfig (se_Transport entry) (se_Command entry) (se_Args entry) (expandEnv <$> se_Env entry) (expandEnv (se_URL entry))
    (expandEnv <$> se_Headers entry) workDir httpClient (se_ToolGroupOverride entry) (se_Timeout entry) (se_CallTimeout entry).
Definition with_WorkDir (dir : string) (cfg : ServerConfig) : ServerConfig :=
  mkConfig (sc_Transport cfg) (sc_Command cfg) (sc_Args cfg) (sc_Env cfg) (sc_URL cfg) (sc_Headers cfg) dir (sc_HTTPClient cfg)
    (sc_ToolGroupOverride cfg) (sc_Timeout cfg) (sc_CallTimeout cfg).

(** A Go map that lacks a key reads as its zero value. *)
Definition map_changed (old new : gmap string string) : bool :=
  negb (size old =? size new)%nat || existsb (fun '(k, v) => negb (String.eqb (default "" (new !! k)) v)) (map_to_list old).
Definition args_changed (old new : list string) : bool :=
  negb (length old =? length new)%nat || existsb (fun '(a, b) => negb (String.eqb a b)) (zip old new).
Definition config_changed (oldCfg newCfg : ServerConfig) : bool :=
  let '(oldHandshake, oldCall) := resolveTimeoutBounds oldCfg in
  let '(newHandshake, newCall) := resolveTimeoutBounds newCfg in
  if negb (String.eqb (sc_Transport oldCfg) (sc_Transport newCfg)) || negb (String.eqb (sc_Command oldCfg) (sc_Command newCfg)) ||
     negb (String.eqb (sc_URL oldCfg) (sc_URL newCfg)) || negb (String.eqb (sc_WorkDir oldCfg) (sc_WorkDir newCfg)) then true
  else if negb (oldHandshake =? newHandshake)%Z || negb (oldCall =? newCall)%Z then true
  else if negb (String.eqb (effectiveToolGroup (sc_ToolGroupOverride oldCfg) (sc_Transport oldCfg))
                           (effectiveToolGroup (sc_ToolGroupOverride newCfg) (sc_Transport newCfg))) then true
  else args_changed (sc_Args oldCfg) (sc_Args newCfg) || map_changed (sc_Env oldCfg) (sc_Env newCfg) ||
       map_changed (sc_Headers oldCfg) (sc_Headers newCfg).

(** ** The gateway *)

Record Gateway := mkGateway {
  g_servers : gmap string Server;
  g_expandedConfigs : gmap string ServerConfig;
  g_failedServers : gmap string ServerStatus;
  g_defaultWorkDir : string;
  g_schemaSanitizer : sanitizer;
  g_stopped : bool;
}.
Definition newGateway : Gateway := mkGateway ∅ ∅ ∅ "" None false.
Definition SetDefaultWorkDir (dir : string) (g : Gateway) : Gateway :=
  let old := g_defaultWorkDir g in
  mkGateway (g_servers g)
    (if String.eqb old dir then g_expandedConfigs g
     else (fun cfg => if String.eqb (sc_WorkDir cfg) old then with_WorkDir dir cfg else cfg) <$> g_expandedConfigs g)
    (g_failedServers g) dir (g_schemaSanitizer g) (g_stopped g).
Definition defaultWorkDirForLocked (g : Gateway) (dir : string) : string := if String.eqb dir "" then g_defaultWorkDir g else dir.
Definition failed_status (name transport error : string) : ServerStatus :=
  mkStatus name (transport_of transport) false false false 0 [] error.
Definition recordFailureLocked (name transport error : string) (g : Gateway) : Gateway :=
  mkGateway (g_servers g) (g_expandedConfigs g) (<[name := failed_status name transport error]> (g_failedServers g)) (g_defaultWorkDir g)
    (g_schemaSanitizer g) (g_stopped g).
Definition admit_server (name : string) (server : Server) (cfg : ServerConfig) (g : Gateway) : Gateway :=
  mkGateway (<[name := server]> (g_servers g)) (<[name := cfg]> (g_expandedConfigs g)) (delete name (g_failedServers g)) (g_defaultWorkDir g)
    (g_schemaSanitizer g) (g_stopped g).
Definition drop_server (name : string) (g : Gateway) : Gateway :=
  mkGateway (delete name (g_servers g)) (delete name (g_expandedConfigs g)) (g_failedServers g) (g_defaultWorkDir g) (g_schemaSanitizer g)
    (g_stopped g).
Definition configChanged (g : Gateway) (name : string) (newCfg : ServerConfig) : bool :=
  match g_expandedConfigs g !! name with None => true | Some oldCfg => config_changed oldCfg newCfg end.
Definition errors_text (single many unit_text : string) (errors : list string) : string :=
  match errors with
  | [e] => single +s+ ": " +s+ e
  | _ => many +s+ ": " +s+ itoa (Z.of_nat (length errors)) +s+ " " +s+ unit_text
  end.
Definition StartError : list string -> string := errors_text "MCP gateway start error" "MCP gateway start errors" "servers failed to connect".
Definition StopError : list string -> string := errors_text "MCP gateway stop error" "MCP gateway stop errors" "servers failed to stop cleanly".
Definition ReconfigureError : list string -> string := errors_text "MCP gateway reconfigure error" "MCP gateway reconfigure errors" "operations failed".
Definition reported (f : list string -> string) (errs : list string) : option string := match errs with [] => None | _ => Some (f errs) end.

Section gateway.
Context (w : Wire) (goos : string) (to_upper : string -> string) (equal_fold : string -> string -> bool) (url_without_user : string -> option string).
Context (quote : string -> string) (seconds : Z -> string).
(** How a registered tool runs: the server, the tool and the input. *)
Context (execute : string -> string -> string -> ToolResult * option string).

Local Notation text := (error_text seconds).
(** A new connection with its tools, or the errors and the failure to record. *)
Definition dial (connect_label discover_label name : string) (cfg : ServerConfig) : W (Server + list string * mcp_error) :=
  c ← Connect w goos to_upper equal_fold url_without_user quote seconds cfg (newServer name);
  match c with
  | (Some e, _) => mret (inr (["server " +s+ name +s+ ": " +s+ connect_label +s+ text e], e))
  | (None, server) =>
      d ← DiscoverTools w server;
      match d with
      | (None, server) => mret (inl server)
      | (Some e, server) =>
          cl ← Close w seconds server;
          mret (inr ((match cl.1 with Some t => ["server " +s+ name +s+ ": close after discovery failure: " +s+ t] | None => [] end) ++
                     ["server " +s+ name +s+ ": " +s+ discover_label +s+ text e], e))
      end
  end.
Definition dialled (name : string) (cfg : ServerConfig) (r : Server + list string * mcp_error) (g : Gateway) : Gateway * list string :=
  match r with
  | inl server => (admit_server name server cfg g, [])
  | inr (errs, e) => (recordFailureLocked name (sc_Transport cfg) (text e) g, errs)
  end.

Fixpoint start_loop (configs : list (string * ServerConfig)) (g : Gateway) (errs : list string) : W (Gateway * list string) :=
  match configs with
  | [] => mret (g, errs)
  | (name, cfg) :: configs =>
      c ← ask (caller_err w);
      match c with
      | Some e => mret (g, errs ++ ["gateway start aborted: " +s+ e])
      | None =>
          let cfg := with_WorkDir (defaultWorkDirForLocked g (sc_WorkDir cfg)) cfg in
          r ← dial "" "failed to discover tools: " name cfg;
          let '(g, new) := dialled name cfg r g in start_loop configs g (errs ++ new)
      end
  end.
Definition Start (configs : list (string * ServerConfig)) (g : Gateway) : W (Gateway * option string) :=
  r ← start_loop configs g []; mret (r.1, reported StartError r.2).

(** A tool that is refused is logged. *)
Definition register_server (sanitize : sanitizer) (name : string) (server : Server) (registry : ToolRegistry) : ToolRegistry :=
  fold_left (fun registry info =>
    snd (RegisterWithSourceCategory quote (NewTool server info (execute name (ti_Name info)) [sanitize]) name SourceCategoryMCP registry))
    (sv_tools server) registry.
Definition RegisterTools (order : list string) (g : Gateway) (registry : ToolRegistry) : ToolRegistry :=
  fold_left (fun registry name =>
    match g_servers g !! name with
    | Some server => register_server (g_schemaSanitizer g) name server registry
    | None => registry
    end) order registry.

Fixpoint close_all (order : list string) (g : Gateway) (errs : list string) : W (list string) :=
  match order with
  | [] => mret errs
  | name :: order =>
      match g_servers g !! name with
      | None => close_all order g errs
      | Some server =>
          r ← Close w seconds server;
          close_all order g (errs ++ match r.1 with Some e => ["server " +s+ name +s+ ": " +s+ e] | None => [] end)
      end
  end.
Definition Stop (order : list string) (g : Gateway) : W (Gateway * option string) :=
  errs ← close_all order g [];
  mret (mkGateway ∅ ∅ ∅ (g_defaultWorkDir g) (g_schemaSanitizer g) true, reported StopError errs).

(** *** Reconfigure *)

(** The tools, the connection and the entries of a server go. *)
Definition retire_server (name : string) (server : Server) (g : Gateway) (registry : ToolRegistry) : W (Gateway * ToolRegistry * list string) :=
  r ← Close w seconds server;
  mret (drop_server name g, UnregisterBySource name registry,
        match r.1 with Some e => ["server " +s+ name +s+ ": disconnect: " +s+ e] | None => [] end).
Fixpoint remove_loop (current newNames : list string) (g : Gateway) (registry : ToolRegistry) (errs : list string)
    : W (Gateway * ToolRegistry * list string) :=
  match current with
  | [] => mret (g, registry, errs)
  | name :: current =>
      if bool_decide (name ∈ newNames) then remove_loop current newNames g registry errs
      else
        match g_servers g !! name with
        | None => remove_loop current newNames g registry errs
        | Some server => r ← retire_server name server g registry; let '(g, registry, new) := r in remove_loop current newNames g registry (errs ++ new)
        end
  end.
Definition forget_failed (newNames : list string) (default_dir : string) (g : Gateway) : Gateway :=
  mkGateway (g_servers g) (g_expandedConfigs g) (filter (fun kv => kv.1 ∈ newNames) (g_failedServers g))
    (if String.eqb default_dir "" then g_defaultWorkDir g else default_dir) (g_schemaSanitizer g) (g_stopped g).
Definition add_server (name : string) (cfg : ServerConfig) (g : Gateway) (registry : ToolRegistry) : W (Gateway * ToolRegistry * list string) :=
  r ← dial "connect: " "discover tools: " name cfg;
  let '(g, errs) := dialled name cfg r g in
  mret (g, match r with inl server => register_server (g_schemaSanitizer g) name server registry | inr _ => registry end, errs).
Definition configure_one (current : list string) (name : string) (newCfg : ServerConfig) (g : Gateway) (registry : ToolRegistry)
    : W (Gateway * ToolRegistry * list string) :=
  if bool_decide (name ∈ current) then
    if negb (configChanged g name newCfg) then mret (g, registry, [])
    else
      match g_servers g !! name with
      | None => mret (g, registry, [])
      | Some server =>
          r ← retire_server name server g registry;
          let '(g, registry, errs) := r in
          a ← add_server name newCfg g registry;
          let '(g, registry, new) := a in mret (g, registry, errs ++ new)
      end
  else add_server name newCfg g registry.
Fixpoint configure_loop (expandEnv : string -> string) (httpClient : option nat) (current : list string) (entries : list (string * ServerEntry))
    (g : Gateway) (registry : ToolRegistry) (errs : list string) : W (Gateway * ToolRegistry * list string) :=
  match entries with
  | [] => mret (g, registry, errs)
  | (name, entry) :: entries =>
      r ← configure_one current name (serverConfigFromEntry entry (defaultWorkDirForLocked g (se_WorkDir entry)) httpClient expandEnv) g registry;
      let '(g, registry, new) := r in configure_loop expandEnv httpClient current entries g registry (errs ++ new)
  end.
Definition stopped_error := "mcp gateway: reconfigure rejected: gateway has been stopped".
Definition Reconfigure (expandEnv : string -> string) (newConfig : GatewayConfig) (current : list string) (g : Gateway) (registry : ToolRegistry)
    : W (Gateway * ToolRegistry * option string) :=
  if g_stopped g then mret (g, registry, Some stopped_error)
  else
    let newNames := map fst (gc_Servers newConfig) in
    r ← remove_loop current newNames g registry [];
    let '(g, registry, errs) := r in
    r ← configure_loop expandEnv (gc_HTTPClient newConfig) current (gc_Servers newConfig) (forget_failed newNames (gc_DefaultWorkDir newConfig) g)
          registry errs;
    let '(g, registry, errs) := r in mret (g, registry, reported ReconfigureError errs).

(** *** Queries *)

Definition GetServer (g : Gateway) (name : string) : option Server := g_servers g !! name.

Definition ToolCount (g : Gateway) : Z := Z.of_nat (sum_list_with (fun kv => length (sv_tools kv.2)) (map_to_list (g_servers g))).
Definition name_le (a b : ServerStatus) : Prop := str_le (ss_Name a) (ss_Name b).
#[global] Instance name_le_dec : RelDecision name_le := fun a b => decide (str_le (ss_Name a) (ss_Name b)).
Definition gateway_Status (g : Gateway) : list ServerStatus :=
  merge_sort name_le
    (map (fun kv => Status kv.2) (map_to_list (g_servers g)) ++
     omap (fun kv => match g_servers g !! kv.1 with Some _ => None | None => Some kv.2 end) (map_to_list (g_failedServers g))).

Definition StartGateway (expandEnv : string -> string) (cfg : GatewayConfig) (orders : Gateway -> list string) (registry : ToolRegistry)
    : W (option Gateway * ToolRegistry) :=
  match gc_Servers cfg with
  | [] => mret (None, registry)
  | servers =>
      r ← Start (map (fun '(name, entry) => (name, serverConfigFromEntry entry (se_WorkDir entry) (gc_HTTPClient cfg) expandEnv)) servers)
            (mkGateway ∅ ∅ ∅ (gc_DefaultWorkDir cfg) (gc_SchemaSanitizer cfg) false);
      mret (Some r.1, RegisterTools (orders r.1) r.1 registry)
  end.
End gateway.
