(* ===== verification/McpFacts.v ===== *)
(** * What servers and gateway do

    Every connection is closed once or belongs to one server, and none is used
    after it was closed; a changed configuration is followed, and what did not
    change is left alone; no redirect leaves the origin; what a child process
    inherits.  Last, calls that overlap the end of a connection. *)

From Stdlib Require Import ZArith Lia Ascii.
From stdpp Require Import base gmap strings list sorting.
From S2P Require Import Prelude GoStr AgentTypes Fence Nudges Oneshot Registry McpServer McpGateway.
Open Scope sp4rk_scope.

(** ** Traces *)

Definition live_step (o : gset nat) (e : event) : gset nat :=
  match e with Opened c _ _ _ => {[c]} ∪ o | Closing c => o ∖ {[c]} | _ => o end.
Definition live (tr : trace) : gset nat := fold_left live_step tr ∅.
Definition opened (tr : trace) : nat := count_if is_opened tr.
(** A connection gets the next number, is used and closed while it is live, and
    its process is killed after that. *)
Definition event_ok (tr : trace) (e : event) : Prop :=
  match e with
  | Opened c _ _ _ => c = opened tr
  | NotOpened _ => True
  | Starting c _ | Initializing c | Listing c _ _ | Calling c _ _ | Closing c => c ∈ live tr
  | Killed c => (c < opened tr)%nat /\ c ∉ live tr
  end.
Inductive disciplined : trace -> Prop :=
| disciplined_nil : disciplined []
| disciplined_snoc tr e : disciplined tr -> event_ok tr e -> disciplined (tr ++ [e]).
Definition conn_of (e : event) : option nat :=
  match e with
  | Opened c _ _ _ | Starting c _ | Initializing c | Listing c _ _ | Calling c _ _ | Closing c | Killed c => Some c
  | NotOpened _ => None
  end.

Lemma live_snoc tr e : live (tr ++ [e]) = live_step (live tr) e.
Proof. unfold live. by rewrite fold_left_app. Qed.
Lemma opened_snoc tr e : opened (tr ++ [e]) = (opened tr + if is_opened e then 1 else 0)%nat.
Proof. unfold opened, count_if. rewrite List.filter_app, length_app. cbn. by destruct (is_opened e). Qed.
Lemma live_opened tr c : disciplined tr -> c ∈ live tr -> (c < opened tr)%nat.
Proof.
  intros H. revert c. induction H as [|tr e H IH Hok]; intros c Hc; [by apply elem_of_empty in Hc|].
  rewrite live_snoc in Hc. rewrite opened_snoc. destruct e; cbn in *; try (apply IH in Hc; lia).
  - apply elem_of_union in Hc as [Hc|Hc]; [apply elem_of_singleton in Hc; lia|apply IH in Hc; lia].
  - apply elem_of_difference in Hc as [Hc _]. apply IH in Hc. lia.
Qed.

(** [post m Q tr]: [m], run after [tr], ends with a result and a trace in [Q]. *)
Definition post {A} (m : W A) (Q : A -> trace -> Prop) (tr : trace) : Prop := let '(a, tr') := m tr in Q a tr'.
Lemma post_ret {A} (a : A) (Q : A -> trace -> Prop) tr : Q a tr -> post (mret a) Q tr.
Proof. done. Qed.
Lemma post_bind {A B} (m : W A) (f : A -> W B) Q tr : post m (fun a tr' => post (f a) Q tr') tr -> post (m ≫= f) Q tr.
Proof. unfold post, mbind, W_bind. by destruct (m tr). Qed.
Lemma post_mono {A} (m : W A) (P Q : A -> trace -> Prop) tr : post m P tr -> (forall a tr', P a tr' -> Q a tr') -> post m Q tr.
Proof. unfold post. destruct (m tr). auto. Qed.
Lemma post_ask {A} (f : trace -> A) (Q : A -> trace -> Prop) tr : Q (f tr) tr -> post (ask f) Q tr.
Proof. done. Qed.
Lemma post_say e (Q : unit -> trace -> Prop) tr : Q tt (tr ++ [e]) -> post (say e) Q tr.
Proof. done. Qed.

(** Nothing is taken back from the trace. *)
Definition grows {A} (m : W A) : Prop := forall tr, tr `prefix_of` (m tr).2.
Lemma grows_ret {A} (a : A) : grows (mret a).
Proof. intros tr. exists []. symmetry. apply app_nil_r. Qed.
Lemma grows_ask {A} (f : trace -> A) : grows (ask f).
Proof. intros tr. exists []. symmetry. apply app_nil_r. Qed.
Lemma grows_say e : grows (say e).
Proof. intros tr. by exists [e]. Qed.
Lemma grows_bind {A B} (m : W A) (f : A -> W B) : grows m -> (forall a, grows (f a)) -> grows (m ≫= f).
Proof.
  intros Hm Hf tr. unfold mbind, W_bind. specialize (Hm tr). destruct (m tr) as [a tr1]. cbn in Hm. etrans; [exact Hm|apply Hf].
Qed.
Lemma post_grows {A} (m : W A) (Q : A -> trace -> Prop) tr :
  grows m -> post m Q tr -> post m (fun a tr' => Q a tr' /\ tr `prefix_of` tr') tr.
Proof. unfold post. intros Hm. specialize (Hm tr). by destruct (m tr). Qed.
Create HintDb grows discriminated.
#[export] Hint Resolve grows_ret grows_ask grows_say : grows.
Ltac grows :=
  repeat first [solve [auto with grows] | apply grows_bind; [|intros ?]
    | match goal with |- grows (match ?x with _ => _ end) => destruct x end].

(** The connection [c] was opened with the whole configuration [cfg]. *)
Definition opened_with (cfg : ServerConfig) (c : nat) (tr : trace) : Prop := exists kind env, Opened c kind cfg env ∈ tr.
Lemma opened_with_mono cfg c tr tr' : tr `prefix_of` tr' -> opened_with cfg c tr -> opened_with cfg c tr'.
Proof. intros [evs ->] (kind & env & H). exists kind, env. apply elem_of_app. by left. Qed.

Section runs.
(** The trace a run starts with, and the connections it must leave alone. *)
Context (tr0 : trace) (K : gset nat).
Definition now (L : gset nat) (tr : trace) : Prop :=
  disciplined tr /\ live tr = L /\ K ⊆ L /\
  exists evs, tr = tr0 ++ evs /\ Forall (fun e => forall c, conn_of e = Some c -> c ∉ K) evs.
Lemma now_say L tr e :
  now L tr -> event_ok tr e -> (forall c, conn_of e = Some c -> c ∉ K) -> now (live_step L e) (tr ++ [e]).
Proof.
  intros (Hd & Hl & HK & evs & -> & HF) Hok He. split; [by constructor|]. split; [by rewrite live_snoc, Hl|]. split.
  - destruct e; cbn in *; set_solver.
  - exists (evs ++ [e]). rewrite app_assoc. split; [done|]. apply Forall_app. split; [done|]. by repeat constructor.
Qed.
(** The number of a connection made in the run. *)
Definition brand_new (L : gset nat) (c : nat) : Prop := c ∉ L /\ c ∉ K /\ (opened tr0 <= c)%nat.
Lemma now_open L tr kind cfg env :
  now L tr -> let c := opened tr in brand_new L c /\ now ({[c]} ∪ L) (tr ++ [Opened c kind cfg env]).
Proof.
  intros H c. pose proof H as (Hd & Hl & HK & evs & Htr & _). assert (Hc : c ∉ L).
  { intros Hc. rewrite <- Hl in Hc. apply (live_opened tr c Hd) in Hc. unfold c in Hc. lia. }
  assert (HcK : c ∉ K) by set_solver.
  split; [split_and!; [done|done|unfold c, opened, count_if; rewrite Htr, List.filter_app, length_app; lia]|]. apply (now_say L tr (Opened c kind cfg env)); [done|done|].
  by intros ? [= <-].
Qed.
Lemma now_use L tr e c : now L tr -> c ∈ L -> c ∉ K -> conn_of e = Some c -> event_ok tr e -> live_step L e = L -> now L (tr ++ [e]).
Proof. intros H Hc HK He Hok <-. apply now_say; [done|done|]. rewrite He. by intros ? [= <-]. Qed.
Lemma now_close L tr c : now L tr -> c ∈ L -> c ∉ K -> now (L ∖ {[c]}) (tr ++ [Closing c]).
Proof.
  intros H Hc HK. apply (now_say L tr (Closing c)); [done| |by intros ? [= <-]]. cbn. by rewrite (proj1 (proj2 H)).
Qed.
Lemma now_skip L tr kind : now L tr -> now L (tr ++ [NotOpened kind]).
Proof. intros H. by apply (now_say L tr (NotOpened kind)). Qed.
End runs.

(** ** One server *)

Section growth.
Context (w : Wire) (goos : string) (to_upper : string -> string) (equal_fold : string -> string -> bool) (url_without_user : string -> option string).
Context (quote : string -> string) (seconds : Z -> string) (execute : string -> string -> string -> ToolResult * option string).
Lemma grows_timeoutErrorFor bound fallback : grows (timeoutErrorFor w bound fallback).
Proof. unfold timeoutErrorFor. grows. Qed.
Lemma grows_closeClientBounded c cmd grace : grows (closeClientBounded w seconds c cmd grace).
Proof. unfold closeClientBounded. grows. Qed.
Lemma grows_close_plain c : grows (close_plain c).
Proof. unfold close_plain. grows. Qed.
Local Hint Resolve grows_timeoutErrorFor grows_closeClientBounded grows_close_plain : grows.
Lemma grows_Close s : grows (Close w seconds s).
Proof. unfold Close. grows. Qed.
Lemma grows_open kind cfg env : grows (open w kind cfg env).
Proof. unfold open. grows. Qed.
Lemma grows_initializeClient s detach c : grows (initializeClient w s detach c).
Proof. unfold initializeClient. grows. Qed.
Local Hint Resolve grows_Close grows_open grows_initializeClient : grows.
Lemma grows_connectStdio cfg s : grows (connectStdio w goos to_upper equal_fold url_without_user seconds cfg s).
Proof. unfold connectStdio. grows. Qed.
Lemma grows_connect_sse cfg s : grows (connect_sse w cfg s).
Proof. unfold connect_sse. grows. Qed.
Local Hint Resolve grows_connectStdio grows_connect_sse : grows.
Lemma grows_connectHTTP cfg s : grows (connectHTTP w cfg s).
Proof. unfold connectHTTP. grows. Qed.
Local Hint Resolve grows_connectHTTP : grows.
Lemma grows_Connect cfg s : grows (Connect w goos to_upper equal_fold url_without_user quote seconds cfg s).
Proof. unfold Connect. grows. Qed.
Lemma grows_list_pages c replies last tools cursor : grows (list_pages c replies last tools cursor).
Proof. revert tools cursor. induction replies as [|r replies IH]; intros tools cursor; cbn [list_pages]; grows. Qed.
Local Hint Resolve grows_Connect grows_list_pages : grows.
Lemma grows_DiscoverTools s : grows (DiscoverTools w s).
Proof. unfold DiscoverTools, listToolsRaw. grows. Qed.
Local Hint Resolve grows_DiscoverTools : grows.
Lemma grows_CallTool name args s : grows (CallTool w seconds name args s).
Proof. unfold CallTool. grows. Qed.
Lemma grows_dial l1 l2 name cfg : grows (dial w goos to_upper equal_fold url_without_user quote seconds l1 l2 name cfg).
Proof. unfold dial. grows. Qed.
Lemma grows_retire_server name s g registry : grows (retire_server w seconds name s g registry).
Proof. unfold retire_server. grows. Qed.
Local Hint Resolve grows_dial grows_retire_server : grows.
Lemma grows_add_server name cfg g registry :
  grows (add_server w goos to_upper equal_fold url_without_user quote seconds execute name cfg g registry).
Proof. unfold add_server. grows. Qed.
Local Hint Resolve grows_add_server : grows.
Lemma grows_configure_one current name cfg g registry :
  grows (configure_one w goos to_upper equal_fold url_without_user quote seconds execute current name cfg g registry).
Proof. unfold configure_one. grows. Qed.
Local Hint Resolve grows_configure_one : grows.
Lemma grows_configure_loop expandEnv httpClient current entries g registry errs :
  grows (configure_loop w goos to_upper equal_fold url_without_user quote seconds execute expandEnv httpClient current entries g registry errs).
Proof.
  revert g registry errs. induction entries as [|[name entry] entries IH]; intros g registry errs; cbn [configure_loop]; grows.
Qed.
End growth.

Lemma close_opened (c : nat) (L : gset nat) : c ∉ L -> ({[c]} ∪ L) ∖ {[c]} = L.
Proof. set_solver. Qed.

Section server.
Context (w : Wire) (goos : string) (to_upper : string -> string) (equal_fold : string -> string -> bool) (url_without_user : string -> option string).
Context (quote : string -> string) (seconds : Z -> string).
Context (tr0 : trace) (K : gset nat).
Local Notation now := (now tr0 K).

(** A request on a live connection. *)
Ltac on_live H c := eapply (now_use tr0 K _ _ _ c H); [done|done|reflexivity|cbn; by rewrite (proj1 (proj2 H))|reflexivity].

Lemma timeoutErrorFor_post bound fallback L tr : now L tr -> post (timeoutErrorFor w bound fallback) (fun _ tr' => now L tr') tr.
Proof. intros H. apply post_bind, post_ask, post_bind, post_ask, post_ret. done. Qed.
Lemma closeClientBounded_post c cmd grace L tr :
  now L tr -> c ∈ L -> c ∉ K -> post (closeClientBounded w seconds c cmd grace) (fun _ tr' => now (L ∖ {[c]}) tr') tr.
Proof using Type.
  intros H Hc HK. pose proof H as (Hd & Hl & _). apply post_bind, post_ask, post_bind, post_say.
  pose proof (now_close tr0 K L tr c H Hc HK) as H1. destruct (closes w tr) as [e|e]; [by apply post_ret|].
  destruct cmd as [[]|]; try by apply post_ret. apply post_bind, post_say, post_ret.
  change (now (live_step (L ∖ {[c]}) (Killed c)) ((tr ++ [Closing c]) ++ [Killed c])). apply now_say; [done| |by intros ? [= <-]]. cbn.
  rewrite live_snoc, opened_snoc. cbn. split; [|intros [_ Hn]%elem_of_difference; by apply Hn, elem_of_singleton]. rewrite <- Hl in Hc. pose proof (live_opened tr c Hd Hc). lia.
Qed.
Lemma close_plain_post c L tr : now L tr -> c ∈ L -> c ∉ K -> post (close_plain c) (fun _ tr' => now (L ∖ {[c]}) tr') tr.
Proof. intros H Hc HK. apply post_say. by apply now_close. Qed.
Lemma Close_post s L tr :
  now L tr -> (forall c, sv_client s = Some c -> c ∈ L /\ c ∉ K) ->
  post (Close w seconds s) (fun r tr' => sv_client r.2 = None /\ now (match sv_client s with Some c => L ∖ {[c]} | None => L end) tr') tr.
Proof.
  intros H Hs. unfold Close. destruct (sv_client s) as [c|] eqn:E; [|by apply post_ret]. destruct (Hs c eq_refl) as [Hc HK].
  apply post_bind. eapply post_mono; [by apply closeClientBounded_post|]. intros e tr' H'. apply post_ret. split; [by destruct e|done].
Qed.

Definition gained (cfg : ServerConfig) (L : gset nat) (r : nat + mcp_error) (tr' : trace) : Prop :=
  match r with inl c => (brand_new tr0 K L c /\ now ({[c]} ∪ L) tr') /\ opened_with cfg c tr' | inr _ => now L tr' end.
Lemma open_post kind cfg env L tr :
  now L tr -> post (open w kind cfg env) (fun r tr' => match r with inl c => (brand_new tr0 K L c /\ now ({[c]} ∪ L) tr') /\ opened_with cfg c tr' | inr _ => now L tr' end) tr.
Proof.
  intros H. apply post_bind, post_ask. destruct (opens w tr kind) as [|cmd e].
  - apply post_bind, post_say, post_ret. split; [by apply now_open|]. exists kind, env. apply elem_of_app. right. by left.
  - apply post_bind, post_say, post_ret. by apply now_skip.
Qed.
Lemma initializeClient_post s detach c L tr :
  now L tr -> c ∈ L -> c ∉ K -> post (initializeClient w s detach c) (fun _ tr' => now L tr') tr.
Proof.
  intros H Hc HK. apply post_bind, post_ask, post_bind, post_say.
  assert (H1 : now L (tr ++ [Starting c detach])) by on_live H c.
  destruct (starts w tr) as [[e|]|e|]; try by apply post_ret. apply post_bind, post_ask, post_bind, post_say.
  assert (H2 : now L ((tr ++ [Starting c detach]) ++ [Initializing c])) by on_live H1 c.
  destruct (initializes w _) as [e|]; [|by apply post_ret]. apply post_bind. eapply post_mono; [by apply timeoutErrorFor_post|].
  intros t tr' H'. by apply post_ret.
Qed.
Lemma connectStdio_post cfg s L tr :
  now L tr -> post (connectStdio w goos to_upper equal_fold url_without_user seconds cfg s)
    (fun r tr' => gained cfg L r.1 tr' /\ exists cmd, r.2 = set_cmd cmd s) tr.
Proof.
  intros H. assert (Hself : s = set_cmd (sv_stdioCmd s) s) by by destruct s. unfold connectStdio.
  destruct (String.eqb _ _); [apply post_ret; split; [done|by eexists]|]. apply post_bind, post_ask, post_bind.
  eapply post_mono; [by apply open_post|]. cbn beta. intros r tr1 Hr. destruct r as [c|[cmd e]].
  2: { apply post_ret. split; [done|]. destruct cmd; cbn; [by eexists|by eexists]. }
  destruct Hr as [[Hnew H1] Hw]. pose proof Hnew as (Hc & HK & _). apply post_bind. eapply post_mono; [apply post_grows; [apply grows_initializeClient|apply initializeClient_post; [exact H1|set_solver|done]]|]. cbn beta.
  intros e tr2 [H2 Hp]. destruct e as [e|]; [|apply post_ret; split; [split; [done|by eapply opened_with_mono]|by eexists]].
  apply post_bind. eapply post_mono; [apply closeClientBounded_post; [exact H2|set_solver|done]|]. cbn beta. intros _ tr3 H3.
  rewrite close_opened in H3 by done. apply post_ret. split; [done|by eexists].
Qed.
Lemma connect_sse_post cfg s L tr : now L tr -> post (connect_sse w cfg s) (gained cfg L) tr.
Proof.
  intros H. apply post_bind. eapply post_mono; [by apply open_post|]. cbn beta. intros r tr1 Hr. destruct r as [c|[cmd e]]; [|by apply post_ret].
  destruct Hr as [[Hnew H1] Hw]. pose proof Hnew as (Hc & HK & _). apply post_bind. eapply post_mono; [apply post_grows; [apply grows_initializeClient|apply initializeClient_post; [exact H1|set_solver|done]]|]. cbn beta.
  intros e tr2 [H2 Hp]. destruct e as [e|]; [|apply post_ret; split; [done|by eapply opened_with_mono]]. apply post_bind.
  eapply post_mono; [apply close_plain_post; [exact H2|set_solver|done]|]. cbn beta. intros _ tr3 H3. apply post_ret. cbn. by rewrite close_opened in H3.
Qed.
Lemma connectHTTP_post cfg s L tr : now L tr -> post (connectHTTP w cfg s) (gained cfg L) tr.
Proof.
  intros H. unfold connectHTTP. destruct (String.eqb _ _); [by apply post_ret|]. apply post_bind. eapply post_mono; [by apply open_post|]. cbn beta.
  intros r tr1 Hr. destruct r as [c|[cmd e]]; [|by apply connect_sse_post]. destruct Hr as [[Hnew H1] Hw]. pose proof Hnew as (Hc & HK & _). apply post_bind.
  eapply post_mono; [apply post_grows; [apply grows_initializeClient|apply initializeClient_post; [exact H1|set_solver|done]]|]. cbn beta. intros e tr2 [H2 Hp]. destruct e as [e|]; [|apply post_ret; split; [done|by eapply opened_with_mono]].
  apply post_bind. eapply post_mono; [apply close_plain_post; [exact H2|set_solver|done]|]. cbn beta. intros _ tr3 H3.
  rewrite close_opened in H3 by done. by apply connect_sse_post.
Qed.

(** What a server remembers of the configuration it was connected with. *)
Definition agrees (s : Server) (cfg : ServerConfig) : Prop :=
  sv_transportType s = transport_of (sc_Transport cfg) /\ sv_toolGroupOverride s = sc_ToolGroupOverride cfg /\
  (sv_timeout s, sv_callTimeout s) = resolveTimeoutBounds cfg /\ (0 <= sv_consecutiveTimeouts s)%Z /\
  (sv_unhealthy s = true <-> (unhealthyTimeoutThreshold <= sv_consecutiveTimeouts s)%Z).
Lemma Connect_post cfg name L tr :
  now L tr ->
  post (Connect w goos to_upper equal_fold url_without_user quote seconds cfg (newServer name)) (fun r tr' =>
    sv_name r.2 = name /\ sv_tools r.2 = [] /\
    match r.1 with
    | None => exists c, sv_client r.2 = Some c /\ brand_new tr0 K L c /\ now ({[c]} ∪ L) tr' /\ agrees r.2 cfg /\ opened_with cfg c tr'
    | Some _ => sv_client r.2 = None /\ now L tr'
    end) tr.
Proof.
  intros H. unfold Connect. destruct (resolveTimeoutBounds cfg) as [hs ct] eqn:Eb.
  assert (Ha : forall cmd c, agrees (connected c (transport_of (sc_Transport cfg)) (set_cmd cmd (configured cfg (newServer name)))) cfg).
  { intros cmd c. unfold configured. rewrite Eb. split; [done|]. split; [done|]. rewrite Eb. split; [done|]. cbn. split; [done|].
    unfold unhealthyTimeoutThreshold. split; [done|lia]. }
  assert (Hsame : configured cfg (newServer name) = set_cmd None (configured cfg (newServer name))) by (unfold configured; by rewrite Eb).
  assert (Hfin : forall r cmd tr', gained cfg L r tr' -> let res := connect_result seconds (transport_of (sc_Transport cfg)) (set_cmd cmd (configured cfg (newServer name))) r in
    sv_name res.2 = name /\ sv_tools res.2 = [] /\
    match res.1 with
    | None => exists c, sv_client res.2 = Some c /\ brand_new tr0 K L c /\ now ({[c]} ∪ L) tr' /\ agrees res.2 cfg /\ opened_with cfg c tr'
    | Some _ => sv_client res.2 = None /\ now L tr'
    end).
  { intros r cmd tr' Hg. unfold configured in *. rewrite Eb in *. destruct r as [c|e]; cbn; (split; [done|split; [done|]]); [|done].
    destruct Hg as [[? ?] ?]. exists c. by split_and!. }
  destruct (String.eqb _ _ && _) eqn:E0; [apply post_ret; unfold configured; by rewrite Eb|].
  destruct (String.eqb (transport_of (sc_Transport cfg)) "stdio").
  { apply post_bind. eapply post_mono; [by apply connectStdio_post|]. cbn beta. intros [r s] tr' [Hg [cmd Hs]]. cbn in Hs, Hg. subst s.
    apply post_ret. by apply (Hfin r cmd). }
  destruct (String.eqb (transport_of (sc_Transport cfg)) "http").
  { apply post_bind. eapply post_mono; [by apply connectHTTP_post|]. cbn beta. intros r tr' Hg. apply post_ret. rewrite Hsame. by apply (Hfin r None). }
  apply post_ret. unfold configured. by rewrite Eb.
Qed.
Lemma list_pages_post c replies last tools cursor L tr :
  now L tr -> c ∈ L -> c ∉ K -> post (list_pages c replies last tools cursor) (fun _ tr' => now L tr') tr.
Proof.
  intros H Hc HK. revert tools cursor tr H. induction replies as [|r replies IH]; intros tools cursor tr H; cbn [list_pages]; apply post_bind, post_ask, post_bind, post_say.
  - apply post_ret. on_live H c.
  - assert (H1 : now L (tr ++ [Listing c (next_id tr) cursor])) by on_live H c.
    destruct r as [page next|e|e]; [|by apply post_ret|by apply post_ret]. destruct (String.eqb next ""); [by apply post_ret|by apply IH].
Qed.
Lemma DiscoverTools_post s L tr :
  now L tr -> (forall c, sv_client s = Some c -> c ∈ L /\ c ∉ K) ->
  post (DiscoverTools w s) (fun r tr' => now L tr' /\ exists tools, r.2 = set_tools tools s) tr.
Proof.
  intros H Hs. assert (Hself : exists tools, s = set_tools tools s) by (exists (sv_tools s); by destruct s). unfold DiscoverTools.
  destruct (sv_client s) as [c|] eqn:E; [|by apply post_ret]. destruct (Hs c eq_refl) as [Hc HK]. apply post_bind, post_bind, post_ask.
  eapply post_mono; [by apply list_pages_post|]. cbn beta. intros r tr1 H1. destruct r as [tools|e]; [apply post_ret; split; [done|by eexists]|].
  apply post_bind. eapply post_mono; [by apply timeoutErrorFor_post|]. cbn beta. intros t tr2 H2. by apply post_ret.
Qed.
Lemma end_call_agrees e s cfg : agrees s cfg -> agrees (end_call seconds e s) cfg.
Proof.
  intros (H1 & H2 & H3 & H4 & H5). unfold agrees, end_call, record_timeout, record_success, unhealthyTimeoutThreshold in *.
  destruct e; cbn; [split_and!; try done; lia| |by split_and!]. destruct (Z.leb_spec 3 (sv_consecutiveTimeouts s + 1)) as [H|H]; cbn; split_and!; try done; try lia.
  rewrite H5. lia.
Qed.
(** What a call may change in a server. *)
Definition same_connection (s s' : Server) : Prop :=
  sv_name s' = sv_name s /\ sv_client s' = sv_client s /\ sv_tools s' = sv_tools s /\ sv_stdioCmd s' = sv_stdioCmd s /\
  forall cfg, agrees s cfg -> agrees s' cfg.
Lemma end_call_same e s : same_connection s (end_call seconds e s).
Proof.
  split_and!; try (intros cfg; apply end_call_agrees);
    unfold end_call, record_timeout; destruct e; try done; by destruct (unhealthyTimeoutThreshold <=? _)%Z.
Qed.
Lemma CallTool_post name args s L tr :
  now L tr -> (forall c, sv_client s = Some c -> c ∈ L /\ c ∉ K) ->
  post (CallTool w seconds name args s) (fun r tr' => now L tr' /\ same_connection s r.2) tr.
Proof.
  intros H Hs. unfold CallTool, begin_call. destruct (sv_client s) as [c|] eqn:E; cbn [option_map].
  2: { apply post_ret. split; [done|]. by split_and!. }
  destruct (Hs c eq_refl) as [Hc HK]. apply post_bind, post_ask, post_bind, post_say.
  assert (H1 : now L (tr ++ [Calling c name args])) by on_live H c.
  destruct (calls w tr) as [r|e]; [apply post_ret; split; [done|apply end_call_same]|]. apply post_bind.
  eapply post_mono; [by apply timeoutErrorFor_post|]. cbn beta. intros [[] [te|]] tr2 H2; apply post_ret; (split; [done|apply end_call_same]).
Qed.

(** A server that [dial] returns is new. *)
Definition fresh_server (name : string) (cfg : ServerConfig) (L : gset nat) (s : Server) (tr' : trace) : Prop :=
  sv_name s = name /\ agrees s cfg /\
  exists c, sv_client s = Some c /\ brand_new tr0 K L c /\ now ({[c]} ∪ L) tr' /\ opened_with cfg c tr'.
Lemma dial_post l1 l2 name cfg L tr :
  now L tr -> post (dial w goos to_upper equal_fold url_without_user quote seconds l1 l2 name cfg)
    (fun r tr' => match r with inl s => fresh_server name cfg L s tr' | inr (errs, _) => now L tr' /\ errs <> [] end) tr.
Proof.
  intros H. unfold dial. apply post_bind. eapply post_mono; [by apply Connect_post|]. cbn beta. intros [[e|] s] tr1 (Hn & Ht & Hr); cbn [fst snd] in *.
  { apply post_ret. by split; [apply Hr|]. }
  destruct Hr as (c & Hcl & Hnew & H1 & Ha & Hw). pose proof Hnew as (Hc & HK & _). apply post_bind.
  eapply post_mono; [apply post_grows; [apply grows_DiscoverTools|apply DiscoverTools_post; [exact H1|]]|]. { rewrite Hcl. intros ? [= <-]. split; [set_solver|done]. }
  cbn beta. intros [[e|] s2] tr2 [[H2 [tools Hs2]] Hp]; cbn [fst snd] in *; subst s2.
  - apply post_bind. eapply post_mono; [apply Close_post; [exact H2|]|]. { cbn. rewrite Hcl. intros ? [= <-]. split; [set_solver|done]. }
    cbn beta. intros [t s3] tr3 [_ H3]. cbn in H3. rewrite Hcl, close_opened in H3 by done. apply post_ret. split; [done|]. by destruct t.
  - apply post_ret. split; [done|]. split; [done|]. exists c. split_and!; [done..|]. by eapply opened_with_mono.
Qed.
End server.

(** ** The gateway *)

(** The connection was opened with the configuration, up to the working
    directory, which a move of the default directory changes on record. *)
Definition runs_with (cfg : ServerConfig) (c : nat) (tr : trace) : Prop :=
  exists cfg0, opened_with cfg0 c tr /\ cfg = with_WorkDir (sc_WorkDir cfg) cfg0.
(** Every server is connected, on a live connection of its own that was opened
    with its recorded configuration, and as that says; every live connection
    belongs to a server; and a server that failed is not among them. *)
Record gateway_ok (g : Gateway) (L : gset nat) (tr : trace) : Prop := mkGatewayOk {
  ok_server n s : g_servers g !! n = Some s ->
    sv_name s = n /\ exists c cfg, sv_client s = Some c /\ c ∈ L /\ g_expandedConfigs g !! n = Some cfg /\ agrees s cfg /\ runs_with cfg c tr;
  ok_config n cfg : g_expandedConfigs g !! n = Some cfg -> exists s, g_servers g !! n = Some s;
  ok_own n1 n2 s1 s2 : g_servers g !! n1 = Some s1 -> g_servers g !! n2 = Some s2 -> sv_client s1 = sv_client s2 -> n1 = n2;
  ok_owned c : c ∈ L -> exists n s, g_servers g !! n = Some s /\ sv_client s = Some c;
  ok_failed n st : g_failedServers g !! n = Some st -> g_servers g !! n = None /\ ss_Name st = n /\ ss_Connected st = false;
}.
Lemma ok_new dir sanitize stopped tr : gateway_ok (mkGateway ∅ ∅ ∅ dir sanitize stopped) ∅ tr.
Proof. split; intros; cbn in *; try (by rewrite lookup_empty in *); set_solver. Qed.
Lemma ok_admit g L tr name s cfg c :
  gateway_ok g L tr -> g_servers g !! name = None -> sv_name s = name -> agrees s cfg -> sv_client s = Some c -> c ∉ L -> opened_with cfg c tr ->
  gateway_ok (admit_server name s cfg g) ({[c]} ∪ L) tr.
Proof.
  intros [H1 H2 H3 H4 H5] Hnone Hname Ha Hc Hfresh Hw.
  assert (Hother : forall n s', g_servers g !! n = Some s' -> sv_client s' <> Some c).
  { intros n s' (_ & c' & cfg' & Hc' & HL & _)%H1 E. congruence. }
  split; cbn.
  - intros n s'. rewrite lookup_insert_Some. intros [[-> ->]|[Hne Hn]].
    + split; [done|]. exists c, cfg. rewrite lookup_insert_eq. split_and!; [done|set_solver|done|done|]. exists cfg. split; [done|]. by destruct cfg.
    + apply H1 in Hn as (Hn & c' & cfg' & ? & ? & ? & ? & ?). split; [done|]. exists c', cfg'. rewrite lookup_insert_ne by done. split_and!; [done|set_solver|done|done|done].
  - intros n cfg'. rewrite lookup_insert_Some. intros [[-> _]|[Hne Hn]]; [exists s; by rewrite lookup_insert_eq|].
    rewrite lookup_insert_ne by done. by eapply H2.
  - intros n1 n2 s1 s2. rewrite !lookup_insert_Some. intros [[-> <-]|[Hne1 Hn1]] [[-> <-]|[Hne2 Hn2]] E; [done| | |by eapply H3].
    + exfalso. eapply Hother; [exact Hn2|congruence].
    + exfalso. eapply Hother; [exact Hn1|congruence].
  - intros c' [Hc'|Hc']%elem_of_union.
    + apply elem_of_singleton in Hc' as ->. exists name, s. by rewrite lookup_insert_eq.
    + apply H4 in Hc' as (n & s' & Hn & Hs'). exists n, s'. rewrite lookup_insert_ne; [done|]. congruence.
  - intros n st. rewrite lookup_delete_Some. intros [Hne Hst]. rewrite lookup_insert_ne by done. by apply H5.
Qed.
Lemma ok_drop g L tr name s c :
  gateway_ok g L tr -> g_servers g !! name = Some s -> sv_client s = Some c -> gateway_ok (drop_server name g) (L ∖ {[c]}) tr.
Proof.
  intros [H1 H2 H3 H4 H5] Hs Hc. split; cbn.
  - intros n s'. rewrite lookup_delete_Some. intros [Hne Hn]. pose proof Hn as (Hname & c' & cfg' & Hc' & HL & Hcfg & Ha & Hw)%H1. split; [done|].
    exists c', cfg'. rewrite lookup_delete_ne by done. split_and!; try done. apply elem_of_difference. split; [done|].
    intros ->%elem_of_singleton. apply Hne. eapply H3; [exact Hs|exact Hn|congruence].
  - intros n cfg. rewrite lookup_delete_Some. intros [Hne Hn]. rewrite lookup_delete_ne by done. by eapply H2.
  - intros n1 n2 s1 s2. rewrite !lookup_delete_Some. intros [_ ?] [_ ?]. by eapply H3.
  - intros c' [Hc' Hne]%elem_of_difference. apply H4 in Hc' as (n & s' & Hn & Hs'). exists n, s'. rewrite lookup_delete_ne; [done|].
    intros ->. apply Hne, elem_of_singleton. congruence.
  - intros n st Hst. pose proof (H5 n st Hst) as (? & ? & ?). split_and!; try done. destruct (decide (n = name)) as [->|Hne]; [by rewrite lookup_delete_eq|].
    by rewrite lookup_delete_ne.
Qed.
Lemma ok_fail g L tr name transport e : gateway_ok g L tr -> g_servers g !! name = None -> gateway_ok (recordFailureLocked name transport e g) L tr.
Proof.
  intros [H1 H2 H3 H4 H5] Hn. split; cbn; try done. intros n st. rewrite lookup_insert_Some. intros [[-> <-]|[_ Hst]]; [done|by apply H5].
Qed.
Lemma ok_call g L tr name s s' :
  gateway_ok g L tr -> g_servers g !! name = Some s -> same_connection s s' ->
  gateway_ok (mkGateway (<[name := s']> (g_servers g)) (g_expandedConfigs g) (g_failedServers g) (g_defaultWorkDir g) (g_schemaSanitizer g) (g_stopped g)) L tr.
Proof.
  intros [H1 H2 H3 H4 H5] Hs (Hname & Hc & _ & _ & Ha).
  assert (Hold : forall n x, <[name := s']> (g_servers g) !! n = Some x -> exists y, g_servers g !! n = Some y /\ sv_client x = sv_client y).
  { intros n x. rewrite lookup_insert_Some. intros [[-> <-]|[_ Hx]]; by eexists. }
  split; cbn.
  - intros n x. rewrite lookup_insert_Some. intros [[-> <-]|[_ Hx]]; [|by apply H1]. apply H1 in Hs as (Hn & c & cfg & ? & ? & ? & ? & ?).
    split; [congruence|]. exists c, cfg. split_and!; [congruence|done|done|by apply Ha|done].
  - intros n cfg [x Hx]%H2. destruct (decide (n = name)) as [->|Hne]; [rewrite lookup_insert_eq|rewrite lookup_insert_ne by done]; by eexists.
  - intros n1 n2 s1 s2 (y1 & Hy1 & E1)%Hold (y2 & Hy2 & E2)%Hold E. eapply H3; [exact Hy1|exact Hy2|congruence].
  - intros c' (n & x & Hn & Hx)%H4. destruct (decide (n = name)) as [->|Hne].
    + exists name, s'. rewrite lookup_insert_eq. split; [done|]. congruence.
    + exists n, x. by rewrite lookup_insert_ne.
  - intros n st Hst. pose proof (H5 n st Hst) as (Hno & ? & ?). split_and!; try done. rewrite lookup_insert_ne; [done|]. congruence.
Qed.
Lemma ok_workdir g L tr dir : gateway_ok g L tr -> gateway_ok (SetDefaultWorkDir dir g) L tr.
Proof.
  intros [H1 H2 H3 H4 H5]. unfold SetDefaultWorkDir. split; cbn; try done.
  - intros n s (Hn & c & cfg & Hc & HL & Hcfg & Ha & Hw)%H1. split; [done|]. destruct (String.eqb _ dir); [by exists c, cfg|]. rewrite lookup_fmap, Hcfg. cbn.
    eexists c, _. split_and!; [done|done|reflexivity|by destruct (String.eqb (sc_WorkDir cfg) _)|].
    destruct (String.eqb (sc_WorkDir cfg) _); [|done]. destruct Hw as (cfg0 & Hw & ->). by exists cfg0.
  - intros n cfg. destruct (String.eqb _ dir); [by apply H2|]. rewrite lookup_fmap. intros (cfg' & Hcfg & _)%fmap_Some. by eapply H2.
Qed.
Lemma ok_forget g L tr names dir : gateway_ok g L tr -> gateway_ok (forget_failed names dir g) L tr.
Proof. intros [H1 H2 H3 H4 H5]. split; cbn; try done. intros n st [Hst _]%map_lookup_filter_Some. by apply H5. Qed.
Lemma ok_mono g L tr tr' : tr `prefix_of` tr' -> gateway_ok g L tr -> gateway_ok g L tr'.
Proof.
  intros Hp [H1 H2 H3 H4 H5]. split; try done. intros n s (Hn & c & cfg & ? & ? & ? & ? & cfg0 & Hw & ?)%H1. split; [done|].
  exists c, cfg. split_and!; try done. exists cfg0. split; [by eapply opened_with_mono|done].
Qed.

Section gateway.
Context (w : Wire) (goos : string) (to_upper : string -> string) (equal_fold : string -> string -> bool) (url_without_user : string -> option string).
Context (quote : string -> string) (seconds : Z -> string) (execute : string -> string -> string -> ToolResult * option string).
Context (tr0 : trace) (K : gset nat).
Local Notation now := (now tr0 K).
Local Notation dials := (dial w goos to_upper equal_fold url_without_user quote seconds).
Local Notation add_server := (add_server w goos to_upper equal_fold url_without_user quote seconds execute).
Local Notation configure_one := (configure_one w goos to_upper equal_fold url_without_user quote seconds execute).
Local Notation configure_loop := (configure_loop w goos to_upper equal_fold url_without_user quote seconds execute).

(** Only what is recorded about [name] differs. *)
Definition only (name : string) (g g' : Gateway) : Prop :=
  (forall n, n <> name -> g_servers g' !! n = g_servers g !! n /\ g_expandedConfigs g' !! n = g_expandedConfigs g !! n /\
     g_failedServers g' !! n = g_failedServers g !! n) /\
  g_defaultWorkDir g' = g_defaultWorkDir g /\ g_schemaSanitizer g' = g_schemaSanitizer g /\ g_stopped g' = g_stopped g.
(** The outcome of a connection attempt: a new connection, or a failure on record. *)
Definition attempted (name : string) (cfg : ServerConfig) (g' : Gateway) (tr' : trace) : Prop :=
  (exists s c, g_servers g' !! name = Some s /\ sv_client s = Some c /\ (opened tr0 <= c)%nat /\ opened_with cfg c tr' /\ agrees s cfg /\
     g_expandedConfigs g' !! name = Some cfg /\ g_failedServers g' !! name = None) \/
  (g_servers g' !! name = None /\ exists e, g_failedServers g' !! name = Some (failed_status name (sc_Transport cfg) e)).
Definition good (g : Gateway) (tr : trace) : Prop := exists L, now L tr /\ gateway_ok g L tr.
Lemma attempted_mono name cfg g' tr tr' : tr `prefix_of` tr' -> attempted name cfg g' tr -> attempted name cfg g' tr'.
Proof.
  intros Hp [(s & c & ? & ? & ? & Hw & Ha & ? & ?)|?]; [left|by right]. exists s, c. split_and!; try done. by eapply opened_with_mono.
Qed.
Lemma only_trans name g1 g2 g3 : only name g1 g2 -> only name g2 g3 -> only name g1 g3.
Proof.
  intros (H1 & H2 & H3 & H4) (H1' & H2' & H3' & H4'). split; [|split_and!; congruence].
  intros n Hn. destruct (H1 n Hn) as (? & ? & ?), (H1' n Hn) as (? & ? & ?). split_and!; congruence.
Qed.
(** The registry holds no tool of a source. *)
Definition no_tool_of (source : string) (r : ToolRegistry) : Prop := forall t, toolSources r !! t <> Some source.
Lemma UnregisterBySource_sources source r t s :
  toolSources (UnregisterBySource source r) !! t = Some s -> toolSources r !! t = Some s /\ s <> source.
Proof.
  unfold UnregisterBySource. set (names := map fst _).
  assert (H : toolSources (foldr Unregister r names) !! t = if bool_decide (t ∈ names) then None else toolSources r !! t).
  { generalize names. clear. induction names as [|n names IH]; [done|]. cbn [foldr Unregister toolSources]. destruct (decide (t = n)) as [->|Hne].
    - rewrite lookup_delete_eq. by rewrite bool_decide_true by by left.
    - rewrite lookup_delete_ne, IH by done. by rewrite (bool_decide_ext (t ∈ n :: names) (t ∈ names)) by (rewrite elem_of_cons; naive_solver). }
  rewrite H. destruct (bool_decide_reflect (t ∈ names)) as [|Hn]; [done|]. intros Ht. split; [done|]. intros ->. apply Hn.
  apply list_elem_of_fmap. exists (t, source). split; [done|]. apply elem_of_map_to_list, map_lookup_filter_Some. done.
Qed.
Lemma register_server_sources sanitize name s r source :
  source <> name -> no_tool_of source r -> no_tool_of source (register_server quote execute sanitize name s r).
Proof.
  intros Hne. unfold register_server. revert r. induction (sv_tools s) as [|info infos IH]; intros r H; cbn [fold_left]; [done|]. apply IH.
  unfold RegisterWithSourceCategory, registerLocked. destruct (match tools r !! _ with Some _ => _ | None => _ end); [done|]. cbn.
  intros t. cbn [toolSources]. destruct (decide (t = ti_Name info)) as [->|Hn]; [rewrite lookup_insert_eq; congruence|rewrite lookup_insert_ne by done; apply H].
Qed.
(** A name that is not connected has no tools. *)
Definition tidy (g : Gateway) (r : ToolRegistry) (N : string -> Prop) : Prop := forall n, N n -> g_servers g !! n = None -> no_tool_of n r.
Definition keeps_tidy (g : Gateway) (r : ToolRegistry) (g' : Gateway) (r' : ToolRegistry) : Prop := forall N, tidy g r N -> tidy g' r' N.
Lemma keeps_tidy_trans g1 r1 g2 r2 g3 r3 : keeps_tidy g1 r1 g2 r2 -> keeps_tidy g2 r2 g3 r3 -> keeps_tidy g1 r1 g3 r3.
Proof. intros H1 H2 N HN. by apply H2, H1. Qed.
Lemma dialled_post l1 l2 name cfg g tr :
  good g tr -> g_servers g !! name = None ->
  post (dials l1 l2 name cfg) (fun r tr' =>
    let '(g', errs) := dialled seconds name cfg r g in
    good g' tr' /\ only name g g' /\ attempted name cfg g' tr' /\ (errs = [] -> g_failedServers g' !! name = None)) tr.
Proof.
  intros (L & Hnow & Hok) Hnone. eapply post_mono; [apply post_grows; [apply grows_dial|by apply dial_post]|]. cbn beta.
  intros r tr' [Hr Hp]. apply (ok_mono _ _ _ _ Hp) in Hok. revert Hr. destruct r as [s|[errs e]].
  - intros (Hn & Ha & c & Hc & (Hfresh & HK & Hnew) & H' & Hw). unfold dialled. split; [|split; [|split]].
    + exists ({[c]} ∪ L). split; [done|]. by apply ok_admit.
    + split; [|done]. intros n Hne. cbn. by rewrite !lookup_insert_ne, lookup_delete_ne.
    + left. exists s, c. cbn. by rewrite !lookup_insert_eq, lookup_delete_eq.
    + intros _. cbn. by rewrite lookup_delete_eq.
  - intros [H' Herrs]. unfold dialled. split; [|split; [|split]].
    + exists L. split; [done|]. by apply ok_fail.
    + split; [|done]. intros n Hne. cbn. by rewrite lookup_insert_ne.
    + right. split; [done|]. eexists. cbn. by rewrite lookup_insert_eq.
    + by intros ->.
Qed.
Lemma start_loop_post configs g errs tr :
  good g tr -> NoDup (map fst configs) -> (forall n, n ∈ map fst configs -> g_servers g !! n = None) ->
  post (start_loop w goos to_upper equal_fold url_without_user quote seconds configs g errs) (fun r tr' => good r.1 tr') tr.
Proof.
  revert g errs tr. induction configs as [|[name cfg] configs IH]; intros g errs tr Hg Hnd Hnone; cbn [start_loop]; [by apply post_ret|].
  inversion Hnd as [|?? Hnotin Hnd']; subst. apply post_bind, post_ask. destruct (caller_err w tr); [by apply post_ret|].
  apply post_bind. eapply post_mono; [apply dialled_post; [exact Hg|apply Hnone; by left]|]. cbn beta. intros r tr'.
  destruct (dialled _ _ _ _) as [g' new]. intros (Hg' & [Honly _] & _). apply IH; [done|done|]. intros n Hn.
  rewrite (proj1 (Honly n ltac:(by intros ->))). apply Hnone. by right.
Qed.
Lemma add_server_post name cfg g registry tr :
  good g tr -> g_servers g !! name = None ->
  post (add_server name cfg g registry) (fun r tr' =>
    good r.1.1 tr' /\ only name g r.1.1 /\ attempted name cfg r.1.1 tr' /\ (r.2 = [] -> g_failedServers r.1.1 !! name = None) /\
    keeps_tidy g registry r.1.1 r.1.2) tr.
Proof.
  intros Hg Hnone. apply post_bind. eapply post_mono; [by apply dialled_post|]. cbn beta. intros r tr'.
  destruct (dialled seconds name cfg r g) as [g' errs] eqn:E. intros (H1 & H2 & H3 & H4). apply post_ret. cbn [fst snd]. split_and!; try done.
  intros N HN n Hn Hn'. destruct (decide (n = name)) as [->|Hne].
  - destruct r as [s|[errs' e]]; [|by apply HN]. injection E as <- <-. cbn in Hn'. by rewrite lookup_insert_eq in Hn'.
  - destruct H2 as [Honly _]. rewrite (proj1 (Honly n Hne)) in Hn'. specialize (HN n Hn Hn').
    destruct r as [s|[errs' e]]; [by apply register_server_sources|done].
Qed.
Lemma retire_server_post name s c g registry tr :
  good g tr -> g_servers g !! name = Some s -> sv_client s = Some c -> c ∉ K ->
  post (retire_server w seconds name s g registry) (fun r tr' => good r.1.1 tr' /\ only name g r.1.1 /\ g_servers r.1.1 !! name = None /\
    g_failedServers r.1.1 = g_failedServers g /\ keeps_tidy g registry r.1.1 r.1.2) tr.
Proof.
  intros (L & Hnow & Hok) Hs Hc HK. apply post_bind. eapply post_mono; [apply post_grows; [apply grows_Close|apply Close_post; [exact Hnow|]]|].
  { intros c' Hc'. destruct (ok_server _ _ _ Hok name s Hs) as (_ & c'' & _ & Hc'' & HL & _). split; congruence. }
  cbn beta. intros [e s'] tr' [[_ H'] Hp]. apply (ok_mono _ _ _ _ Hp) in Hok. rewrite Hc in H'. apply post_ret. cbn [fst snd].
  split; [|split; [|split; [|split; [done|]]]].
  - exists (L ∖ {[c]}). split; [done|]. by eapply ok_drop.
  - split; [|done]. intros n Hne. cbn. by rewrite !lookup_delete_ne.
  - cbn. by rewrite lookup_delete_eq.
  - intros N HN n Hn Hn' t [Ht Hne]%UnregisterBySource_sources. cbn in Hn'. rewrite lookup_delete_ne in Hn' by done. by apply (HN n Hn Hn' t).
Qed.
(** What [name] has become after the configuration asked for [cfg]. *)
Definition unchanged (current : list string) (g : Gateway) (name : string) (cfg : ServerConfig) : Prop :=
  name ∈ current /\ configChanged g name cfg = false.
Definition settled (current : list string) (g g' : Gateway) (tr' : trace) (name : string) (cfg : ServerConfig) : Prop :=
  (unchanged current g name cfg -> g_servers g' !! name = g_servers g !! name /\ g_expandedConfigs g' !! name = g_expandedConfigs g !! name) /\
  (~ unchanged current g name cfg -> attempted name cfg g' tr').
(** Servers in use are replaced only if they may be. *)
Definition replaceable (current : list string) (g : Gateway) (name : string) (cfg : ServerConfig) : Prop :=
  if bool_decide (name ∈ current)
  then exists s c, g_servers g !! name = Some s /\ sv_client s = Some c /\ (configChanged g name cfg = true -> c ∉ K)
  else g_servers g !! name = None.
Lemma configure_one_post current name cfg g registry tr :
  good g tr -> replaceable current g name cfg ->
  post (configure_one current name cfg g registry) (fun r tr' =>
    good r.1.1 tr' /\ only name g r.1.1 /\ settled current g r.1.1 tr' name cfg /\ (r.2 = [] -> g_failedServers r.1.1 !! name = None) /\
    keeps_tidy g registry r.1.1 r.1.2) tr.
Proof.
  intros Hg Hrep. unfold McpGateway.configure_one, replaceable, settled, unchanged in *. destruct (bool_decide_reflect (name ∈ current)) as [Hin|Hin].
  - destruct Hrep as (s & c & Hs & Hc & HK). destruct (configChanged g name cfg) eqn:E; cbn [negb].
    + rewrite Hs. apply post_bind. eapply post_mono; [eapply retire_server_post; [exact Hg|exact Hs|exact Hc|by apply HK]|]. cbn beta.
      intros [[g1 r1] errs] tr1 (Hg1 & Honly1 & Hnone & _ & Ht1). cbn [fst snd] in *. apply post_bind. eapply post_mono; [by apply add_server_post|].
      cbn beta. intros [[g2 r2] new] tr2 (Hg2 & Honly2 & Hatt & Hf & Ht2). cbn [fst snd] in *. apply post_ret. cbn [fst snd].
      split; [done|]. split; [by eapply only_trans|]. split; [split; [by intros [_ ?]|done]|].
      split; [intros [_ E2]%app_nil; by apply Hf|by eapply keeps_tidy_trans].
    + apply post_ret. cbn [fst snd]. split; [done|]. split; [by split; [|done]|]. split; [by split; [|intros []]|]. split; [|by intros N]. intros _.
      destruct Hg as (L & _ & Hok). destruct (g_failedServers g !! name) as [st|] eqn:Ef; [|done]. apply (ok_failed _ _ _ Hok) in Ef as [Ef _]. congruence.
  - eapply post_mono; [by apply add_server_post|]. cbn beta. intros r tr' (Hg' & Honly & Hatt & Hf & Ht). split; [done|]. split; [done|].
    split; [|done]. split; [by intros [? _]|done].
Qed.

Context (expandEnv : string -> string) (httpClient : option nat).
Definition requested (g : Gateway) (entry : ServerEntry) : ServerConfig :=
  serverConfigFromEntry entry (defaultWorkDirForLocked g (se_WorkDir entry)) httpClient expandEnv.
Lemma configChanged_at g g' name cfg : g_expandedConfigs g' !! name = g_expandedConfigs g !! name -> configChanged g' name cfg = configChanged g name cfg.
Proof. unfold configChanged. by intros ->. Qed.
Lemma settled_before current name0 g g1 g' tr' name cfg :
  only name0 g g1 -> name <> name0 -> settled current g1 g' tr' name cfg -> settled current g g' tr' name cfg.
Proof.
  intros [Honly _] Hne [H1 H2]. destruct (Honly name Hne) as (Es & Ee & Ef). unfold settled, unchanged in *.
  rewrite (configChanged_at g g1 name cfg Ee), Es, Ee in *. done.
Qed.
Lemma settled_after current g g1 g2 tr1 tr2 name cfg : tr1 `prefix_of` tr2 ->
  g_servers g2 !! name = g_servers g1 !! name -> g_expandedConfigs g2 !! name = g_expandedConfigs g1 !! name ->
  g_failedServers g2 !! name = g_failedServers g1 !! name -> settled current g g1 tr1 name cfg -> settled current g g2 tr2 name cfg.
Proof.
  intros Hp Es Ee Ef [H1 H2]. unfold settled. rewrite Es, Ee. split; [done|]. intros Hch.
  apply (attempted_mono name cfg g2 tr1 tr2 Hp). specialize (H2 Hch). unfold attempted in *. by rewrite Es, Ee, Ef.
Qed.
Lemma configure_loop_post current entries g registry errs tr :
  good g tr -> NoDup (map fst entries) -> (forall name entry, (name, entry) ∈ entries -> replaceable current g name (requested g entry)) ->
  post (configure_loop expandEnv httpClient current entries g registry errs) (fun r tr' =>
    let g' := r.1.1 in
    good g' tr' /\ g_stopped g' = g_stopped g /\
    (forall n, n ∉ map fst entries -> g_servers g' !! n = g_servers g !! n /\ g_expandedConfigs g' !! n = g_expandedConfigs g !! n /\
       g_failedServers g' !! n = g_failedServers g !! n) /\
    (forall name entry, (name, entry) ∈ entries -> settled current g g' tr' name (requested g entry)) /\
    keeps_tidy g registry g' r.1.2 /\
    exists more, r.2 = errs ++ more /\ (more = [] -> forall name, name ∈ map fst entries -> g_failedServers g' !! name = None)) tr.
Proof.
  revert g registry errs tr. induction entries as [|[name entry] entries IH]; intros g registry errs tr Hg Hnd Hrep; cbn [McpGateway.configure_loop].
  { apply post_ret. cbn [fst snd map]. split_and!; try done; [by intros ? ? ?%elem_of_nil|by intros N|exists []; rewrite app_nil_r; split; [done|by intros _ ? ?%elem_of_nil]]. }
  inversion Hnd as [|?? Hnotin Hnd']; subst. apply post_bind.
  eapply post_mono; [apply configure_one_post; [exact Hg|apply Hrep; by left]|]. cbn beta. intros [[g1 r1] new] tr1 (Hg1 & Honly & Hset & Hf & Ht1).
  cbn [fst snd] in *. pose proof Honly as (Hmaps & Hdir & _ & Hstop).
  assert (Hne : forall n, n ∈ map fst entries -> n <> name) by by intros n Hn ->.
  assert (Hreq : forall e, requested g1 e = requested g e) by (intros e; unfold requested, defaultWorkDirForLocked; by rewrite Hdir).
  assert (Hname : forall n e, (n, e) ∈ entries -> n <> name) by (intros n e Hin; apply Hne, list_elem_of_fmap; by exists (n, e)).
  eapply post_mono; [apply post_grows; [apply grows_configure_loop|apply IH; [exact Hg1|exact Hnd'|]]|].
  { intros n e Hin. rewrite Hreq. specialize (Hrep n e ltac:(by right)).
    destruct (Hmaps n (Hname n e Hin)) as (Es & Ee & _). unfold replaceable in *. by rewrite (configChanged_at g g1 n _ Ee), Es. }
  cbn beta zeta. intros [[g2 r2] errs2] tr2 [(Hg2 & Hstop2 & Hother & Hall & Ht2 & more & Herrs & Hmore) Hp]. cbn [fst snd] in *.
  destruct (Hother name Hnotin) as (Es & Ee & Ef). split; [done|]. split; [congruence|]. split; [|split; [|split; [by eapply keeps_tidy_trans|]]].
  - intros n [Hn1 Hn2]%not_elem_of_cons. destruct (Hother n Hn2) as (-> & -> & ->). by apply Hmaps.
  - intros n e [[= -> ->]|Hin]%elem_of_cons; [by apply (settled_after current g g1 g2 tr1 tr2)|].
    specialize (Hall n e Hin). rewrite Hreq in Hall. eapply settled_before; [exact Honly|by eapply Hname|exact Hall].
  - exists (new ++ more). rewrite app_assoc. split; [done|]. intros [E1 E2]%app_nil n [->|Hn]%elem_of_cons; [cbn [fst]; rewrite Ef; by apply Hf|by apply Hmore].
Qed.

Lemma remove_loop_post current newNames g registry errs tr :
  good g tr -> (forall n s c, n ∈ current -> n ∉ newNames -> g_servers g !! n = Some s -> sv_client s = Some c -> c ∉ K) ->
  post (remove_loop w seconds current newNames g registry errs) (fun r tr' =>
    let g' := r.1.1 in
    good g' tr' /\ g_failedServers g' = g_failedServers g /\ g_defaultWorkDir g' = g_defaultWorkDir g /\ g_stopped g' = g_stopped g /\
    (forall n, n ∈ newNames -> g_servers g' !! n = g_servers g !! n /\ g_expandedConfigs g' !! n = g_expandedConfigs g !! n) /\
    (forall n, n ∈ current -> n ∉ newNames -> g_servers g' !! n = None) /\
    (forall n, g_servers g !! n = None -> g_servers g' !! n = None) /\
    keeps_tidy g registry g' r.1.2) tr.
Proof.
  revert g registry errs tr. induction current as [|name current IH]; intros g registry errs tr Hg HK; cbn [remove_loop].
  { apply post_ret. cbn [fst snd]. split_and!; try done; [by intros n ?%elem_of_nil|by intros N]. }
  assert (Hskip : (name ∈ newNames \/ g_servers g !! name = None) ->
    post (remove_loop w seconds current newNames g registry errs) (fun r tr' =>
    let g' := r.1.1 in
    good g' tr' /\ g_failedServers g' = g_failedServers g /\ g_defaultWorkDir g' = g_defaultWorkDir g /\ g_stopped g' = g_stopped g /\
    (forall n, n ∈ newNames -> g_servers g' !! n = g_servers g !! n /\ g_expandedConfigs g' !! n = g_expandedConfigs g !! n) /\
    (forall n, n ∈ name :: current -> n ∉ newNames -> g_servers g' !! n = None) /\
    (forall n, g_servers g !! n = None -> g_servers g' !! n = None) /\
    keeps_tidy g registry g' r.1.2) tr).
  { intros Hwhy. eapply post_mono; [apply IH; [exact Hg|intros n s c Hn; apply HK; by right]|]. cbn beta zeta.
    intros r tr' (H1 & H2 & H3 & H4 & H5 & H6 & H7 & H8). split_and!; try done. intros n [->|Hn]%elem_of_cons Hnew; [|by apply H6].
    destruct Hwhy as [?|Hnone]; [done|by apply H7]. }
  destruct (bool_decide_reflect (name ∈ newNames)) as [Hin|Hin]; [apply Hskip; by left|].
  destruct (g_servers g !! name) as [s|] eqn:Es; [|apply Hskip; by right]. clear Hskip. apply post_bind.
  pose proof Hg as (L & _ & Hok). destruct (ok_server _ _ _ Hok name s Es) as (_ & c & _ & Hc & _).
  eapply post_mono; [eapply retire_server_post; [exact Hg|exact Es|exact Hc|apply (HK name s c); [by left|done..]]|]. cbn beta.
  intros [[g1 r1] new] tr1 (Hg1 & [Honly (Hdir & _ & Hstop)] & Hnone & Hfail & Ht1). cbn [fst snd] in *.
  eapply post_mono; [apply IH; [exact Hg1|]|].
  { intros n s' c' Hn Hnew Hs' Hc'. destruct (decide (n = name)) as [->|Hne]; [congruence|]. rewrite (proj1 (Honly n Hne)) in Hs'.
    apply (HK n s' c'); [by right|done..]. }
  cbn beta zeta. intros r tr' (H1 & H2 & H3 & H4 & H5 & H6 & H7 & H8).
  split; [done|]. split; [congruence|]. split; [congruence|]. split; [congruence|].
  split_and!.
  - intros n Hn. assert (Hne : n <> name) by by intros ->. destruct (H5 n Hn) as [-> ->]. destruct (Honly n Hne) as (-> & -> & _). done.
  - intros n [->|Hn]%elem_of_cons Hnew; [by apply H7|by apply H6].
  - intros n Hn. apply H7. destruct (decide (n = name)) as [->|Hne]; [done|]. by rewrite (proj1 (Honly n Hne)).
  - by eapply keeps_tidy_trans.
Qed.
End gateway.

Lemma now_start tr K : disciplined tr -> K ⊆ live tr -> now tr K (live tr) tr.
Proof. intros Hd HK. split_and!; [done|done|done|]. exists []. by rewrite app_nil_r. Qed.

Section reconfigure.
Context (w : Wire) (goos : string) (to_upper : string -> string) (equal_fold : string -> string -> bool) (url_without_user : string -> option string).
Context (quote : string -> string) (seconds : Z -> string) (execute : string -> string -> string -> ToolResult * option string).
Context (expandEnv : string -> string) (newConfig : GatewayConfig) (g : Gateway) (tr0 : trace) (current : list string).
Local Notation names := (map fst (gc_Servers newConfig)).
(** The directory that servers without one of their own inherit. *)
Definition new_default : string := if String.eqb (gc_DefaultWorkDir newConfig) "" then g_defaultWorkDir g else gc_DefaultWorkDir newConfig.
Definition wanted (entry : ServerEntry) : ServerConfig :=
  serverConfigFromEntry entry (if String.eqb (se_WorkDir entry) "" then new_default else se_WorkDir entry) (gc_HTTPClient newConfig) expandEnv.
Definition spared (K : gset nat) : Prop :=
  forall n s c, g_servers g !! n = Some s -> sv_client s = Some c -> c ∈ K ->
    n ∈ names /\ forall entry, (n, entry) ∈ gc_Servers newConfig -> configChanged g n (wanted entry) = false.
Lemma Reconfigure_post K registry :
  disciplined tr0 -> K ⊆ live tr0 -> gateway_ok g (live tr0) tr0 -> g_stopped g = false -> NoDup names ->
  current ≡ₚ map fst (map_to_list (g_servers g)) -> spared K ->
  post (Reconfigure w goos to_upper equal_fold url_without_user quote seconds execute expandEnv newConfig current g registry) (fun r tr' =>
    let g' := r.1.1 in
    good tr0 K g' tr' /\ g_stopped g' = false /\
    (forall n, n ∉ names -> g_servers g' !! n = None /\ g_failedServers g' !! n = None) /\
    (forall name entry, (name, entry) ∈ gc_Servers newConfig -> settled tr0 current g g' tr' name (wanted entry)) /\
    keeps_tidy g registry g' r.1.2 /\
    (r.2 = None -> forall name, name ∈ names -> g_failedServers g' !! name = None)) tr0.
Proof.
  intros Hd HK Hok Hstop Hnd Hcur Hspare. unfold Reconfigure. rewrite Hstop.
  assert (Hin : forall n, n ∈ current <-> exists s, g_servers g !! n = Some s).
  { intros n. rewrite Hcur, list_elem_of_fmap. split; [intros ([n' s] & -> & Hs%elem_of_map_to_list); by exists s|].
    intros [s Hs]. exists (n, s). split; [done|by apply elem_of_map_to_list]. }
  assert (Hg : good tr0 K g tr0) by (exists (live tr0); split; [by apply now_start|done]).
  apply post_bind. eapply post_mono; [apply remove_loop_post; [exact Hg|]|].
  { intros n s c _ Hnew Hs Hc HcK. by destruct (Hspare n s c Hs Hc HcK) as [? _]. }
  cbn beta zeta. intros [[g1 r1] errs1] tr1 (Hg1 & Hf1 & Hdir1 & Hst1 & Hkeep & Hgone & Hnone & Ht1). cbn [fst snd] in *.
  set (g2 := forget_failed names (gc_DefaultWorkDir newConfig) g1).
  assert (Hreq : forall entry, requested expandEnv (gc_HTTPClient newConfig) g2 entry = wanted entry).
  { intros entry. unfold requested, wanted, defaultWorkDirForLocked, new_default, g2. cbn. by rewrite Hdir1. }
  assert (Hname : forall name entry, (name, entry) ∈ gc_Servers newConfig -> name ∈ names) by (intros name entry H; apply list_elem_of_fmap; by exists (name, entry)).
  assert (Hg2 : good tr0 K g2 tr1) by (destruct Hg1 as (L & ? & ?); exists L; split; [done|by apply ok_forget]).
  apply post_bind. eapply post_mono; [apply configure_loop_post; [exact Hg2|exact Hnd|]|].
  { intros name entry Hent. rewrite Hreq. destruct (Hkeep name (Hname _ _ Hent)) as [Es Ee]. unfold replaceable.
    change (g_servers g2) with (g_servers g1). rewrite Es. destruct (bool_decide_reflect (name ∈ current)) as [Hc|Hc].
    - apply Hin in Hc as [s Hs]. destruct (ok_server _ _ _ Hok name s Hs) as (_ & c & _ & Hc & _). exists s, c. split; [done|]. split; [done|].
      intros Hch HcK. destruct (Hspare name s c Hs Hc HcK) as [_ Hsame]. specialize (Hsame entry Hent).
      rewrite (configChanged_at g g2 name _ Ee) in Hch. congruence.
    - destruct (g_servers g !! name) eqn:E; [|done]. exfalso. apply Hc, Hin. by eexists. }
  cbn beta zeta. intros [[g3 r3] errs] tr3 (Hg3 & Hst3 & Hother & Hall & Ht3 & more & Herrs & Hmore). cbn [fst snd] in *. apply post_ret. cbn [fst snd].
  split; [done|]. split; [by rewrite Hst3; cbn; rewrite Hst1|]. split; [|split; [|split]].
  - intros n Hn. destruct (Hother n Hn) as (-> & _ & ->). cbn. split.
    + destruct (decide (n ∈ current)) as [Hc|Hc]; [by apply Hgone|]. apply Hnone. destruct (g_servers g !! n) eqn:E; [|done]. exfalso. apply Hc, Hin. by eexists.
    + apply map_lookup_filter_None. right. intros x _. by cbn.
  - intros name entry Hent. specialize (Hall name entry Hent). rewrite Hreq in Hall. destruct (Hkeep name (Hname _ _ Hent)) as [Es Ee].
    destruct Hall as [Hk Ha]. unfold settled, unchanged in *. rewrite (configChanged_at g g2 name _ Ee) in *. cbn [g2 forget_failed g_servers g_expandedConfigs] in *.
    by rewrite Es, Ee in Hk.
  - eapply keeps_tidy_trans; [exact Ht1|]. intros N HN. by apply Ht3.
  - rewrite Herrs. intros Hnil. apply Hmore. unfold reported in Hnil. destruct (errs1 ++ more) eqn:E; [|done]. by apply app_nil in E as [_ ->].
Qed.
End reconfigure.

Section reach.
Context (w : Wire) (goos : string) (to_upper : string -> string) (equal_fold : string -> string -> bool) (url_without_user : string -> option string).
Context (quote : string -> string) (seconds : Z -> string) (execute : string -> string -> string -> ToolResult * option string).

Lemma close_all_post order g errs L tr0 tr :
  now tr0 ∅ L tr -> NoDup order -> (forall n s, n ∈ order -> g_servers g !! n = Some s -> exists c, sv_client s = Some c /\ c ∈ L) ->
  (forall n1 n2 s1 s2, g_servers g !! n1 = Some s1 -> g_servers g !! n2 = Some s2 -> sv_client s1 = sv_client s2 -> n1 = n2) ->
  post (close_all w seconds order g errs) (fun _ tr' => exists L', now tr0 ∅ L' tr' /\
    forall c, c ∈ L' -> c ∈ L /\ forall n s, n ∈ order -> g_servers g !! n = Some s -> sv_client s <> Some c) tr.
Proof.
  intros Hnow Hnd Hlive Hown. revert errs L tr Hnow Hlive. induction order as [|name order IH]; intros errs L tr Hnow Hlive; cbn [close_all].
  { apply post_ret. exists L. split; [done|]. intros c Hc. split; [done|]. by intros n s ?%elem_of_nil. }
  inversion Hnd as [|?? Hnotin Hnd']; subst. destruct (g_servers g !! name) as [s|] eqn:Es.
  2: { eapply post_mono; [apply IH; [done|exact Hnow|intros n s Hn; apply Hlive; by right]|]. cbn beta. intros _ tr' (L' & H' & Hsub). exists L'.
       split; [done|]. intros c Hc. destruct (Hsub c Hc) as [HL Hno]. split; [done|]. intros n s [->|Hn]%elem_of_cons Hs; [congruence|by eapply Hno]. }
  destruct (Hlive name s ltac:(by left) Es) as (c0 & Hc0 & HL0). apply post_bind. eapply post_mono; [apply Close_post; [exact Hnow|]|].
  { rewrite Hc0. intros ? [= <-]. split; [done|by apply not_elem_of_empty]. }
  cbn beta. intros [e s'] tr1 [_ H1]. rewrite Hc0 in H1. cbn [fst]. eapply post_mono; [apply IH; [done|exact H1|]|].
  { intros n s1 Hn Hs1. destruct (Hlive n s1 ltac:(by right) Hs1) as (c & Hc & HL). exists c. split; [done|]. apply elem_of_difference. split; [done|].
    intros ->%elem_of_singleton. apply Hnotin. replace name with n; [done|]. eapply Hown; [exact Hs1|exact Es|congruence]. }
  cbn beta. intros _ tr' (L' & H' & Hsub). exists L'. split; [done|]. intros c Hc. destruct (Hsub c Hc) as [[HL Hne]%elem_of_difference Hno]. split; [done|].
  intros n s1 [->|Hn]%elem_of_cons Hs1; [|by eapply Hno]. rewrite Es in Hs1. injection Hs1 as <-. rewrite Hc0. intros [= ->]. by apply Hne, elem_of_singleton.
Qed.

(** The life of a gateway: it is started once, then reconfigured, called,
    stopped and moved, with any registry and in any order. *)
Definition with_server (name : string) (s : Server) (g : Gateway) : Gateway :=
  mkGateway (<[name := s]> (g_servers g)) (g_expandedConfigs g) (g_failedServers g) (g_defaultWorkDir g) (g_schemaSanitizer g) (g_stopped g).
Definition all_names (g : Gateway) (order : list string) : Prop := order ≡ₚ map fst (map_to_list (g_servers g)).
Inductive reach : Gateway -> trace -> Prop :=
| reach_start expandEnv cfg orders registry g r tr :
    NoDup (map fst (gc_Servers cfg)) ->
    StartGateway w goos to_upper equal_fold url_without_user quote seconds execute expandEnv cfg orders registry [] = ((Some g, r), tr) -> reach g tr
| reach_reconfigure g tr expandEnv newConfig current registry g' r e tr' :
    reach g tr -> NoDup (map fst (gc_Servers newConfig)) -> all_names g current ->
    Reconfigure w goos to_upper equal_fold url_without_user quote seconds execute expandEnv newConfig current g registry tr = ((g', r, e), tr') -> reach g' tr'
| reach_call g tr name s tool arguments r s' tr' :
    reach g tr -> g_servers g !! name = Some s -> CallTool w seconds tool arguments s tr = ((r, s'), tr') -> reach (with_server name s' g) tr'
| reach_workdir g tr dir : reach g tr -> reach (SetDefaultWorkDir dir g) tr
| reach_stop g tr order g' e tr' : reach g tr -> all_names g order -> Stop w seconds order g tr = ((g', e), tr') -> reach g' tr'.

Lemma good_ok g tr : good [] ∅ g tr -> disciplined tr /\ gateway_ok g (live tr) tr.
Proof. intros (L & (Hd & <- & _) & Hok). done. Qed.
Lemma start_ok expandEnv cfg orders registry g r tr :
  NoDup (map fst (gc_Servers cfg)) ->
  StartGateway w goos to_upper equal_fold url_without_user quote seconds execute expandEnv cfg orders registry [] = ((Some g, r), tr) ->
  disciplined tr /\ gateway_ok g (live tr) tr.
Proof.
  intros Hnd. unfold StartGateway. destruct (gc_Servers cfg) as [|e l]; [done|]. set (configs := map _ (e :: l)).
  set (g0 := mkGateway ∅ ∅ ∅ _ _ false). assert (Hg0 : good [] ∅ g0 []).
  { exists ∅. split; [|apply ok_new]. apply (now_start [] ∅); [constructor|done]. }
  assert (Hnames : map fst configs = map fst (e :: l)) by (unfold configs; rewrite map_map; by apply map_ext; intros []).
  pose proof (start_loop_post w goos to_upper equal_fold url_without_user quote seconds [] ∅ configs g0 [] [] Hg0 ltac:(by rewrite Hnames)
    ltac:(intros n _; apply lookup_empty)) as H. unfold post in H.
  unfold Start, mbind, W_bind. destruct (start_loop _ _ _ _ _ _ _ _ _ _) as [[g1 errs] tr1]. intros [= <- _ <-]. by apply good_ok.
Qed.
Lemma stop_ok g tr order g' e tr' :
  disciplined tr -> gateway_ok g (live tr) tr -> all_names g order -> Stop w seconds order g tr = ((g', e), tr') ->
  disciplined tr' /\ gateway_ok g' (live tr') tr' /\ live tr' = ∅ /\ g_stopped g' = true.
Proof.
  intros Hd Hok Hord. pose proof (close_all_post order g [] (live tr) tr tr (now_start tr ∅ Hd ltac:(set_solver))) as H. unfold post in H.
  unfold Stop, mbind, W_bind. destruct (close_all _ _ _ _ _ _) as [errs tr1]. intros [= <- _ <-].
  destruct H as (L' & (Hd' & Hl' & _) & Hsub).
  - rewrite Hord. apply NoDup_fst_map_to_list.
  - intros n s _ Hs. destruct (ok_server _ _ _ Hok n s Hs) as (_ & c & _ & Hc & HL & _). by exists c.
  - apply (ok_own _ _ _ Hok).
  - assert (Hempty : L' = ∅).
    { apply set_eq. intros c. split; [|by intros ?%not_elem_of_empty]. intros Hc. exfalso. destruct (Hsub c Hc) as [HL Hno].
      destruct (ok_owned _ _ _ Hok c HL) as (n & s & Hs & Hcl). apply (Hno n s); [|done|done]. rewrite Hord. apply list_elem_of_fmap.
      exists (n, s). split; [done|by apply elem_of_map_to_list]. }
    split; [done|]. split; [|by rewrite Hl', Hempty]. rewrite Hl', Hempty. apply ok_new.
Qed.
Lemma call_ok g tr name s tool arguments r s' tr' :
  disciplined tr -> gateway_ok g (live tr) tr -> g_servers g !! name = Some s -> CallTool w seconds tool arguments s tr = ((r, s'), tr') ->
  disciplined tr' /\ gateway_ok (with_server name s' g) (live tr') tr'.
Proof.
  intros Hd Hok Hs E. destruct (ok_server _ _ _ Hok name s Hs) as (_ & c & _ & Hc & HL & _).
  pose proof (CallTool_post w seconds tr ∅ tool arguments s (live tr) tr (now_start tr ∅ Hd ltac:(set_solver))) as H. unfold post in H. rewrite E in H.
  destruct H as ((Hd' & Hl' & _) & Hsame). { rewrite Hc. intros ? [= <-]. split; [done|by apply not_elem_of_empty]. }
  split; [done|]. rewrite Hl'. eapply ok_call; [|exact Hs|exact Hsame]. eapply ok_mono; [|exact Hok].
  pose proof (grows_CallTool w seconds tool arguments s tr) as Hp. by rewrite E in Hp.
Qed.
Lemma reach_ok g tr : reach g tr -> disciplined tr /\ gateway_ok g (live tr) tr.
Proof.
  induction 1 as [expandEnv cfg orders registry g r tr Hnd E|g tr expandEnv newConfig current registry g' r e tr' _ [Hd Hok] Hnd Hcur E
    |g tr name s tool arguments r s' tr' _ [Hd Hok] Hs E|g tr dir _ [Hd Hok]|g tr order g' e tr' _ [Hd Hok] Hord E].
  - by eapply start_ok.
  - destruct (g_stopped g) eqn:Hst; [unfold Reconfigure in E; rewrite Hst in E; by injection E as <- _ _ <-|].
    pose proof (Reconfigure_post w goos to_upper equal_fold url_without_user quote seconds execute expandEnv newConfig g tr current ∅ registry
      Hd ltac:(set_solver) Hok Hst Hnd Hcur) as H. unfold post in H. rewrite E in H.
    destruct H as ((L & (Hd' & <- & _) & Hok') & _); [|done]. intros n s c _ _ ?%not_elem_of_empty. done.
  - by eapply call_ok.
  - split; [done|by apply ok_workdir].
  - destruct (stop_ok g tr order g' e tr' Hd Hok Hord E) as (? & ? & _). done.
Qed.
End reach.

Lemma tool_group_not_system override transport : effectiveToolGroup override transport <> "system".
Proof.
  unfold effectiveToolGroup. destruct (isValidToolGroupOverride override) eqn:E.
  - unfold isValidToolGroupOverride in E. apply andb_true_iff in E as [[_ E]%andb_true_iff _]. intros ->. done.
  - unfold MCPToolGroup. by destruct (String.eqb transport "http").
Qed.

(** C7: whatever the servers, the network and the callers do, in every state a
    gateway reaches from its start through reconfigurations, calls, moves of
    the working directory and stops: a connection is used only between its
    opening and its one closing; the open ones are exactly those of the
    gateway's servers, one each; every server runs on a connection opened with
    its recorded configuration (but for the working directory, which a move of
    the default rewrites on record), under the bounds, transport and group that
    says and never in the system group, is marked unhealthy exactly from the third timeout in a row on, and is not
    among the failures.  After a stop nothing is open, and a reconfiguration
    changes nothing. *)
Theorem gateway_connections w goos to_upper equal_fold url_without_user quote seconds execute g tr :
  reach w goos to_upper equal_fold url_without_user quote seconds execute g tr ->
  disciplined tr /\ gateway_ok g (live tr) tr /\
  (forall n s, g_servers g !! n = Some s -> ToolGroup s <> "system") /\
  (forall order, all_names g order ->
     let '((g', e), tr') := Stop w seconds order g tr in
     disciplined tr' /\ live tr' = ∅ /\
     forall expandEnv newConfig current registry,
       Reconfigure w goos to_upper equal_fold url_without_user quote seconds execute expandEnv newConfig current g' registry tr' =
       ((g', registry, Some stopped_error), tr')).
Proof.
  intros H. apply reach_ok in H as [Hd Hok]. split; [done|]. split; [done|]. split; [intros n s _; apply tool_group_not_system|].
  intros order Hord. destruct (Stop w seconds order g tr) as [[g' e] tr'] eqn:E.
  destruct (stop_ok w seconds g tr order g' e tr' Hd Hok Hord E) as (Hd' & _ & Hl' & Hst). split; [done|]. split; [done|].
  intros. unfold Reconfigure. by rewrite Hst.
Qed.

Lemma entry_unique {A : Type} (l : list (string * A)) k a b : NoDup (map fst l) -> (k, a) ∈ l -> (k, b) ∈ l -> a = b.
Proof.
  intros Hnd Ha Hb. apply (elem_of_list_to_map_1 (M := gmap string)) in Ha, Hb; [congruence|done..].
Qed.
(** The connections [c] plays no part in what is new. *)
Definition undisturbed (c : nat) (tr tr' : trace) : Prop := exists evs, tr' = tr ++ evs /\ Forall (fun e => conn_of e <> Some c) evs.

(** ** The same configuration

    Two configurations of a server are the same when every field is, the bounds
    and the tool group as they take effect; the HTTP client, which is the
    process's, is not part of it.  The variables and headers are the same maps,
    with one exception: where an old map has variables without a value, a new
    one of the same size may lack them. *)
Definition same_variables (old new : gmap string string) : Prop :=
  old = new \/
  (exists k, old !! k = Some "") /\ size old = size new /\
  forall k v, old !! k = Some v -> new !! k = Some v \/ v = "" /\ new !! k = None.
Record same_configuration (old new : ServerConfig) : Prop := mkSame {
  same_transport : sc_Transport old = sc_Transport new;
  same_command : sc_Command old = sc_Command new;
  same_args : sc_Args old = sc_Args new;
  same_url : sc_URL old = sc_URL new;
  same_workdir : sc_WorkDir old = sc_WorkDir new;
  same_bounds : resolveTimeoutBounds old = resolveTimeoutBounds new;
  same_group : effectiveToolGroup (sc_ToolGroupOverride old) (sc_Transport old) = effectiveToolGroup (sc_ToolGroupOverride new) (sc_Transport new);
  same_env : same_variables (sc_Env old) (sc_Env new);
  same_headers : same_variables (sc_Headers old) (sc_Headers new);
}.
(** A configured server that runs with the same configuration on record. *)
Definition kept (current : list string) (g : Gateway) (name : string) (cfg : ServerConfig) : Prop :=
  name ∈ current /\ exists old, g_expandedConfigs g !! name = Some old /\ same_configuration old cfg.

Lemma map_changed_iff old new : map_changed old new = false <-> same_variables old new.
Proof.
  assert (Hread : map_changed old new = false <-> size old = size new /\ forall k v, old !! k = Some v -> default "" (new !! k) = v).
  { unfold map_changed. rewrite orb_false_iff, negb_false_iff, Nat.eqb_eq. apply and_iff_compat_l.
    rewrite <- not_true_iff_false, existsb_elem. split.
    - intros H k v Hk. destruct (String.eqb_spec (default "" (new !! k)) v) as [|Hne]; [done|]. destruct H. exists (k, v).
      split; [by apply elem_of_map_to_list|]. by apply negb_true_iff, String.eqb_neq.
    - intros H ([k v] & Hk%elem_of_map_to_list & Hv%negb_true_iff%String.eqb_neq). by apply Hv, H. }
  rewrite Hread. unfold same_variables. split.
  - intros [Hsize H]. destruct (decide (Exists (fun kv => kv.2 = "") (map_to_list old))) as [He|He].
    + right. apply Exists_exists in He as ([k v] & Hk%elem_of_map_to_list & Hv). cbn in Hv. subst v. split; [by exists k|]. split; [done|].
      intros k' v Hk'. specialize (H k' v Hk'). destruct (new !! k') as [x|]; cbn in H; subst; [by left|by right].
    + left. apply map_subseteq_size_eq; [|lia]. apply map_subseteq_spec. intros k v Hk. specialize (H k v Hk).
      destruct (new !! k) as [x|]; cbn in H; subst; [done|]. destruct He. apply Exists_exists. exists (k, ""). split; [by apply elem_of_map_to_list|done].
  - intros [->|(_ & Hsize & H)]; [split; [done|by intros k v ->]|]. split; [done|]. intros k v [->|[-> ->]]%H; done.
Qed.
Lemma args_changed_iff old new : args_changed old new = false <-> old = new.
Proof.
  unfold args_changed. revert new. induction old as [|a old IH]; intros [|b new]; cbn; try done. specialize (IH new).
  destruct (String.eqb_spec a b) as [->|Hne]; cbn.
  - rewrite IH. split; [by intros ->|by intros [= ->]].
  - rewrite orb_true_r. split; [done|]. intros [= ? ?]. done.
Qed.
Lemma config_changed_iff old new : config_changed old new = false <-> same_configuration old new.
Proof.
  unfold config_changed. destruct (resolveTimeoutBounds old) as [oh oc] eqn:Eo, (resolveTimeoutBounds new) as [nh nc] eqn:En.
  assert (Hif : forall (b c : bool), (if b then true else c) = false <-> b = false /\ c = false) by (intros [] []; naive_solver).
  rewrite !Hif, !orb_false_iff, !negb_false_iff, !String.eqb_eq, !Z.eqb_eq, args_changed_iff, !map_changed_iff. split.
  - intros ((((? & ?) & ?) & ?) & (? & ?) & ? & (? & ?) & ?). constructor; try done. rewrite Eo, En. congruence.
  - intros [? ? ? ? ? Hb ? ? ?]. rewrite Eo, En in Hb. injection Hb as ? ?. done.
Qed.
Lemma kept_iff current g name cfg : kept current g name cfg <-> unchanged current g name cfg.
Proof.
  unfold kept, unchanged, configChanged. apply and_iff_compat_l. destruct (g_expandedConfigs g !! name) as [old|].
  - rewrite config_changed_iff. split; [by intros (? & [= ->] & ?)|by exists old].
  - split; [by intros (? & [=] & _)|done].
Qed.

(** C8: a reconfiguration of a gateway that was not stopped.  Names that are
    not configured any more are gone, from the servers and the failures.  A
    server on record with the same configuration (transport, command,
    arguments, URL, working directory, variables, headers, bounds and tool
    group) is the same as before, and its connection plays no part in what
    happens.  Every other configured server has been connected anew, by a
    connection opened with the wanted configuration in full, or is recorded as
    failed; without an error none is.  Tools of names that are not connected do
    not stay in the registry.  What counts as the same has the exception in
    [same_variables], variables without a value (see [env_change_unseen]), and
    the record is what is compared, whose directory a move of the default
    rewrites (see [moved_default_unseen]). *)
Theorem Reconfigure_follows w goos to_upper equal_fold url_without_user quote seconds execute expandEnv newConfig current registry g tr :
  reach w goos to_upper equal_fold url_without_user quote seconds execute g tr -> g_stopped g = false ->
  NoDup (map fst (gc_Servers newConfig)) -> all_names g current ->
  let '((g', r', err), tr') := Reconfigure w goos to_upper equal_fold url_without_user quote seconds execute expandEnv newConfig current g registry tr in
  (forall n, n ∉ map fst (gc_Servers newConfig) -> g_servers g' !! n = None /\ g_failedServers g' !! n = None) /\
  (forall name entry, (name, entry) ∈ gc_Servers newConfig ->
     let cfg := wanted expandEnv newConfig g entry in
     (kept current g name cfg ->
        g_expandedConfigs g' !! name = g_expandedConfigs g !! name /\
        exists s c, g_servers g !! name = Some s /\ g_servers g' !! name = Some s /\ sv_client s = Some c /\ undisturbed c tr tr') /\
     (~ kept current g name cfg -> attempted tr name cfg g' tr') /\
     (err = None -> exists s, g_servers g' !! name = Some s)) /\
  keeps_tidy g registry g' r'.
Proof.
  intros [Hd Hok]%reach_ok Hst Hnd Hcur.
  pose proof (fun K HK => Reconfigure_post w goos to_upper equal_fold url_without_user quote seconds execute expandEnv newConfig g tr current K registry
    Hd HK Hok Hst Hnd Hcur) as H. unfold post in H. destruct (Reconfigure _ _ _ _ _ _ _ _ _ _ _ _ _ _) as [[[g' r'] err] tr']. cbn [fst snd] in H.
  destruct (H ∅ ltac:(set_solver) ltac:(by intros n s c _ _ ?%not_elem_of_empty)) as (_ & _ & Hgone & Hall & Htidy & Herr).
  assert (Hin : forall n, n ∈ current -> exists s, g_servers g !! n = Some s).
  { intros n. rewrite Hcur, list_elem_of_fmap. intros ([n' s] & -> & Hs%elem_of_map_to_list). by exists s. }
  split; [done|]. split; [|done]. intros name entry Hent cfg. rewrite kept_iff. destruct (Hall name entry Hent) as [Hkept Hatt]. split; [|split; [done|]].
  - intros Hun. destruct (Hkept Hun) as [Es Ee]. split; [done|]. destruct Hun as [Hc Hch]. destruct (Hin name Hc) as [s Hs].
    destruct (ok_server _ _ _ Hok name s Hs) as (_ & c & _ & Hcl & HL & _). exists s, c. split; [done|]. split; [congruence|]. split; [done|].
    destruct (H {[c]}) as ((L & (_ & _ & _ & evs & Htr & HF) & _) & _).
    + intros c' ->%elem_of_singleton. done.
    + intros n s' c' Hs' Hc' ->%elem_of_singleton. assert (n = name) as -> by (eapply (ok_own _ _ _ Hok); [exact Hs'|exact Hs|congruence]).
      split; [apply list_elem_of_fmap; by exists (name, entry)|]. intros entry' Hent'. by rewrite (entry_unique _ _ _ _ Hnd Hent' Hent).
    + exists evs. split; [done|]. eapply Forall_impl; [exact HF|]. cbn. intros e He E. apply (He c E). by apply elem_of_singleton.
  - intros Hnone. specialize (Herr Hnone name ltac:(apply list_elem_of_fmap; by exists (name, entry))).
    destruct (decide (name ∈ current)) as [Hc|Hc].
    + destruct (configChanged g name cfg) eqn:Hch.
      * destruct (Hatt ltac:(intros [_ E]; subst cfg; congruence)) as [(s & c & Hs & _)|(_ & e & He)]; [by exists s|congruence].
      * destruct (Hkept ltac:(by split)) as [Es _]. destruct (Hin name Hc) as [s Hs]. exists s. congruence.
    + destruct (Hatt ltac:(by intros [? _])) as [(s & c & Hs & _)|(_ & e & He)]; [by exists s|congruence].
Qed.

(** ** Redirects *)

(** The redirects the policy lets pass one after the other, from the requests
    made so far. *)
Fixpoint followed (quote : string -> string) (equal_fold : string -> string -> bool) (initialURL : string) (origin : Url) (via targets : list Url) : Prop :=
  match targets with
  | [] => True
  | t :: targets =>
      originPinnedRedirects quote equal_fold initialURL (inl origin) t via = None /\
      followed quote equal_fold initialURL origin (via ++ [t]) targets
  end.
Definition pinned (equal_fold : string -> string -> bool) (origin t : Url) : Prop :=
  equal_fold (u_Hostname t) (u_Hostname origin) = true /\
  (u_Scheme t = u_Scheme origin /\ effectivePort t = effectivePort origin \/ u_Scheme origin = "http" /\ u_Scheme t = "https").
(** A chain of redirects that the policy follows has fewer than ten hops.  Every
    hop goes to the host of the endpoint, by http or https, with the endpoint's
    scheme and port or up from http to https; from an https endpoint none goes
    down. *)
Lemma redirects_pinned quote equal_fold initialURL origin first targets :
  followed quote equal_fold initialURL origin [first] targets ->
  (length targets < 10)%nat /\
  Forall (fun t => pinned equal_fold origin t /\ (u_Scheme t = "http" \/ u_Scheme t = "https") /\ (u_Scheme origin = "https" -> u_Scheme t = "https")) targets.
Proof.
  assert (H : forall via, (1 <= length via <= 10)%nat -> followed quote equal_fold initialURL origin via targets ->
    (length via + length targets <= 10)%nat /\ Forall (fun t => pinned equal_fold origin t /\ (u_Scheme t = "http" \/ u_Scheme t = "https") /\
      (u_Scheme origin = "https" -> u_Scheme t = "https")) targets).
  2: { intros Hf. destruct (H [first] ltac:(simpl; lia) Hf) as [Hlen HF]. simpl in Hlen. split; [lia|done]. }
  induction targets as [|t targets IH]; intros via Hvia Hf; [simpl; split; [lia|done]|]. destruct Hf as [Hp Hf]. unfold originPinnedRedirects in Hp.
  destruct (Z.leb_spec maxHTTPRedirects (Z.of_nat (length via))) as [|Hlen]; [done|]. unfold maxHTTPRedirects in Hlen.
  destruct (IH (via ++ [t])) as [Hlen' HF]; [rewrite length_app; simpl; lia|done|]. rewrite length_app in Hlen'. simpl in Hlen'.
  split; [simpl; lia|]. constructor; [|done].
  assert (Hscheme : u_Scheme t = "http" \/ u_Scheme t = "https").
  { destruct (String.eqb_spec (u_Scheme t) "http"); [by left|]. destruct (String.eqb_spec (u_Scheme t) "https"); [by right|done]. }
  destruct (negb (_ || _)); [done|]. destruct (equal_fold (u_Hostname t) (u_Hostname origin)) eqn:Eh; [|done]. cbn [negb] in Hp. split; [|split; [done|]].
  - split; [done|]. destruct (String.eqb_spec (u_Scheme t) (u_Scheme origin)) as [Es|_].
    + destruct (String.eqb_spec (effectivePort t) (effectivePort origin)); [by left|done].
    + destruct (String.eqb_spec (u_Scheme origin) "http"), (String.eqb_spec (u_Scheme t) "https"); try done. by right.
  - intros Ho. destruct (String.eqb_spec (u_Scheme t) (u_Scheme origin)) as [Es|_]; [congruence|].
    rewrite Ho in Hp. cbn [String.eqb Ascii.eqb Bool.eqb andb] in Hp. done.
Qed.

(** ** The environment of a child *)

(** What a child inherits has an allowed name, and a proxy's value is without
    what [stripUserinfo] takes away; the rest is configured. *)
Lemma child_env_allowed to_upper equal_fold url_without_user raw goos cfg e :
  e ∈ child_env to_upper equal_fold url_without_user raw goos cfg ->
  (exists k v, sc_Env cfg !! k = Some v /\ e = k +s+ "=" +s+ v) \/
  exists entry key value, entry ∈ raw /\ cut_first "=" entry = Some (key, value) /\
    (stdioEnvKeyAllowed to_upper key goos = true \/ has_prefix key "LC_" = true) /\
    (e = entry \/ isCredentialedProxyVar equal_fold key = true /\ e = key +s+ "=" +s+ stripUserinfo url_without_user value).
Proof.
  unfold child_env, safeStdioEnvForOS. intros [H|H]%elem_of_app.
  - right. apply list_elem_of_fmap in H as (entry & -> & Hin). apply elem_of_List_filter in Hin as [Hin Hall]. unfold isAllowedStdioEnvVarForOS in Hall.
    destruct (cut_first "=" entry) as [[key value]|] eqn:E; [|done]. exists entry, key, value. split; [done|]. split; [done|].
    split; [by apply orb_true_iff in Hall|]. unfold sanitizeProxyEntry. rewrite E. destruct (isCredentialedProxyVar equal_fold key); [|by left]. cbn [negb].
    destruct (String.eqb _ value); [by left|by right].
  - left. apply list_elem_of_fmap in H as ([k v] & -> & Hin%elem_of_map_to_list). by exists k, v.
Qed.

(** ** Examples *)

(** A quiet world, with one tool behind every server. *)
Definition quiet_wire : Wire :=
  mkWire (fun _ => ["PATH=/bin"; "API_KEY=secret"]) (fun _ _ => OpenOk) (fun _ => StartReturned None) (fun _ => None)
    (fun _ => ([ListPage [mkRawTool "search" "" ""] ""], "")) (fun _ => inl None) (fun _ => CloseReturned None) (fun _ => None) (fun _ => false).
Definition same (s : string) : string := s.
Definition quiet_execute (server tool input : string) : ToolResult * option string := (mkToolResult server false, None).
Definition command_entry (command : string) (env : gmap string string) (dir : string) : ServerEntry :=
  mkEntry "stdio" command [] env "" ∅ dir "" 0 0.
Definition quiet_config (servers : list (string * ServerEntry)) (dir : string) : GatewayConfig := mkGatewayConfig servers dir None None.
Definition two_servers : list (string * ServerEntry) := [("a", command_entry "srv" ∅ ""); ("b", command_entry "srv" ∅ "")].
Definition quiet_start (servers : list (string * ServerEntry)) : (option Gateway * ToolRegistry) * trace :=
  StartGateway quiet_wire "linux" same String.eqb (fun _ => None) same itoa quiet_execute same (quiet_config servers "/ws") (fun _ => map fst servers)
    NewToolRegistry [].
Definition gateway_of (r : (option Gateway * ToolRegistry) * trace) : Gateway := default newGateway (fst (fst r)).
Lemma quiet_reach : reach quiet_wire "linux" same String.eqb (fun _ => None) same itoa quiet_execute (gateway_of (quiet_start two_servers)) (snd (quiet_start two_servers)).
Proof.
  apply (reach_start _ _ _ _ _ _ _ _ same (quiet_config two_servers "/ws") (fun _ => map fst two_servers) NewToolRegistry _ (snd (fst (quiet_start two_servers)))).
  - by apply (bool_decide_unpack _).
  - vm_compute. reflexivity.
Qed.
Lemma gateway_connections_witness :
  let g := gateway_of (quiet_start two_servers) in
  let tr := snd (quiet_start two_servers) in
  disciplined tr /\ gateway_ok g (live tr) tr /\ live tr = {[0%nat; 1%nat]} /\
  let '(_, tr') := Stop quiet_wire itoa ["a"; "b"] g tr in live tr' = ∅.
Proof.
  destruct (gateway_connections quiet_wire "linux" same String.eqb (fun _ => None) same itoa quiet_execute _ _ quiet_reach) as (H1 & H2 & _ & H3).
  split; [exact H1|]. split; [exact H2|]. split; [vm_compute; reflexivity|].
  specialize (H3 ["a"; "b"] ltac:(vm_compute; reflexivity)). cbv zeta in H3.
  destruct (Stop quiet_wire itoa ["a"; "b"] (gateway_of (quiet_start two_servers)) (snd (quiet_start two_servers))) as [[g' e] tr'].
  exact (proj1 (proj2 H3)).
Defined.
Lemma Reconfigure_follows_witness :
  let g := gateway_of (quiet_start two_servers) in
  let tr := snd (quiet_start two_servers) in
  let config := quiet_config [("b", command_entry "srv" ∅ ""); ("c", command_entry "other" ∅ "")] "" in
  let '((g', r', err), tr') := Reconfigure quiet_wire "linux" same String.eqb (fun _ => None) same itoa quiet_execute same config ["a"; "b"] g NewToolRegistry tr in
  g_servers g' !! "a" = None /\ g_servers g' !! "b" = g_servers g !! "b" /\ undisturbed 1 tr tr' /\ err = None /\
  attempted tr "c" (wanted same config g (command_entry "other" ∅ "")) g' tr'.
Proof.
  intros g tr config.
  pose proof (Reconfigure_follows quiet_wire "linux" same String.eqb (fun _ => None) same itoa quiet_execute same config ["a"; "b"] NewToolRegistry g tr
    quiet_reach eq_refl ltac:(by apply (bool_decide_unpack _)) ltac:(vm_compute; reflexivity)) as H.
  assert (E : snd (fst (Reconfigure quiet_wire "linux" same String.eqb (fun _ => None) same itoa quiet_execute same config ["a"; "b"] g NewToolRegistry tr)) = None)
    by (vm_compute; reflexivity).
  destruct (Reconfigure _ _ _ _ _ _ _ _ _ _ _ _ _ _) as [[[g' r'] err] tr']. cbn [fst snd] in E. destruct H as (Hgone & Hall & _).
  destruct (Hall "b" (command_entry "srv" ∅ "") ltac:(by left)) as (Hb & _).
  destruct (Hall "c" (command_entry "other" ∅ "") ltac:(right; by left)) as (_ & Hc & _).
  destruct Hb as (_ & s & c & Hs & Hs' & Hcl & Hun). { split; [right; by left|]. eexists. split; [vm_compute; reflexivity|]. split; try (vm_compute; reflexivity); left; vm_compute; reflexivity. }
  split; [by apply Hgone; apply (bool_decide_unpack _)|]. split; [congruence|]. split; [|split; [exact E|]].
  - replace 1%nat with c; [exact Hun|]. assert (Hs1 : g_servers g !! "b" ≫= sv_client = Some 1%nat) by (vm_compute; reflexivity).
    rewrite Hs in Hs1. cbn in Hs1. congruence.
  - apply Hc. intros [Hin _]. revert Hin. by apply (bool_decide_unpack _).
Defined.

(** A variable without a value is as good as absent: replacing it by another
    variable is not seen as a change. *)
Example env_change_unseen :
  let cfg env := wanted same (quiet_config [] "") newGateway (command_entry "srv" env "") in
  config_changed (cfg {["DEBUG" := ""]}) (cfg {["TOKEN" := "x"]}) = false.
Proof. vm_compute. reflexivity. Qed.
(** The default directory moves while a server runs in the old one; asked for by
    name, the new directory is taken for the one it runs in. *)
Example moved_default_unseen :
  let g := SetDefaultWorkDir "/new" (gateway_of (quiet_start [("a", command_entry "srv" ∅ "")])) in
  let tr := snd (quiet_start [("a", command_entry "srv" ∅ "")]) in
  (exists cfg env, In (Opened 0 KStdio cfg env) tr /\ sc_WorkDir cfg = "/ws") /\
  let '((g', _, err), tr') := Reconfigure quiet_wire "linux" same String.eqb (fun _ => None) same itoa quiet_execute same
    (quiet_config [("a", command_entry "srv" ∅ "/new")] "") ["a"] g NewToolRegistry tr in
  err = None /\ tr' = tr.
Proof. vm_compute. split; [eexists _, _; split; [by left|reflexivity]|split; reflexivity]. Qed.
(** Two servers offer a tool of the same name; when the one that registered last
    is removed, the other, connected and unchanged, has lost its tool. *)
Example shadowed_tool_lost :
  let '((g, registry), tr) := quiet_start two_servers in
  let '((g', registry', err), _) := Reconfigure quiet_wire "linux" same String.eqb (fun _ => None) same itoa quiet_execute same
    (quiet_config [("a", command_entry "srv" ∅ "")] "") ["a"; "b"] (default newGateway g) registry tr in
  option_map (fun s => map ti_Name (sv_tools s)) (g_servers g' !! "a") = Some ["search"] /\ err = None /\
  is_Some (tools registry !! "search") /\ tools registry' !! "search" = None.
Proof. vm_compute. split; [reflexivity|]. split; [reflexivity|]. split; [by eexists|reflexivity]. Qed.
(** The policy compares with the endpoint and not with the hop before, so a chain
    from an http endpoint may go up to https and down again. *)
Example downgrade_followed :
  let http := mkUrl "http" "h" "" "http://h" in
  let https := mkUrl "https" "h" "" "https://h" in
  followed same String.eqb "http://h" http [http] [https; http].
Proof. vm_compute. repeat split. Qed.
(** Calls that were in flight when the connection was detached still count. *)
Example closed_unhealthy :
  let s := connected 0 "stdio" (configured (wanted same (quiet_config [] "") newGateway (command_entry "srv" ∅ "")) (newServer "a")) in
  begin_call s <> None /\
  let closed := Nat.iter 3 (end_call itoa CallTimedOut) (detached s) in
  ss_Connected (Status closed) = false /\ ss_Unhealthy (Status closed) = true.
Proof. vm_compute. split; [discriminate|split; reflexivity]. Qed.
