(* ===== verification/Chunker.v ===== *)
(** * Splitting files for the index: src/embedding/chunker.go

    A file is cut into chunks that carry the lines they come from: code at blank
    lines, Markdown at its second-level headers, configuration at top-level keys,
    anything too long into windows of a fixed number of runes that overlap.
    [ChunkFile_contract]: chunks are slices of the file within the size limit, at
    the lines they claim, and nothing but line ends and blank pieces is left out.
    Lines of a configuration file that begins with an empty line are off by one
    ([config_lines_shifted]).  [strings.ToLower] is a parameter. *)

From Stdlib Require Import ZArith Lia Ascii.
From stdpp Require Import base gmap strings list.
From S2P Require Import Prelude GoStr Fence Json ToolSyntax Oneshot Paths PathChecks.
Open Scope sp4rk_scope.
Open Scope Z_scope.

Record Chunk := mkChunk {
  Content : string; FilePath : string; FileName : string; StartLine : Z; EndLine : Z; Language : string }.
Record ChunkerConfig := mkCfg { MaxChunkSize : Z; Overlap : Z }.
Definition withDefaults (c : ChunkerConfig) : ChunkerConfig :=
  let size := if MaxChunkSize c <=? 0 then 1500 else MaxChunkSize c in
  let overlap := if Overlap c <=? 0 then 200 else Overlap c in
  mkCfg size (if size <=? overlap then size / 5 else overlap).

(** ** Kinds of files *)

Inductive fileType := fileTypeCode | fileTypeMarkdown | fileTypeConfig | fileTypeOther.
Definition codeExtensions : list string :=
  [".go"; ".ts"; ".tsx"; ".js"; ".jsx"; ".py"; ".rs"; ".java"; ".c"; ".cpp"; ".h"; ".rb"; ".swift"; ".kt"].
Definition configExtensions : list string := [".json"; ".yaml"; ".yml"; ".toml"; ".xml"; ".env"; ".ini"; ".properties"].
Definition languageMap : list (string * string) :=
  [(".go", "go"); (".ts", "typescript"); (".tsx", "typescript"); (".js", "javascript"); (".jsx", "javascript"); (".py", "python");
   (".rs", "rust"); (".java", "java"); (".rb", "ruby"); (".c", "c"); (".h", "c"); (".cpp", "cpp"); (".swift", "swift"); (".kt", "kotlin");
   (".md", "markdown"); (".mdx", "markdown"); (".json", "json"); (".yaml", "yaml"); (".yml", "yaml"); (".toml", "toml"); (".xml", "xml");
   (".html", "html"); (".css", "css"); (".sql", "sql"); (".sh", "shell"); (".bash", "shell"); (".dockerfile", "dockerfile")].
Definition detectLanguage (ext : string) : string :=
  match List.find (fun kv => String.eqb (fst kv) ext) languageMap with Some (_, lang) => lang | None => "text" end.
Definition classifyFile (ext : string) : fileType :=
  if String.eqb ext ".md" || String.eqb ext ".mdx" then fileTypeMarkdown
  else if bool_decide (ext ∈ codeExtensions) then fileTypeCode
  else if bool_decide (ext ∈ configExtensions) then fileTypeConfig
  else fileTypeOther.
(** [filepath.Ext]: from the last dot of the last element on. *)
Fixpoint Ext (p : string) : string :=
  match p with
  | "" => ""
  | String c r => if has_char (fun d => is_slash d || Ascii.eqb d ".") r then Ext r else if Ascii.eqb c "." then p else ""
  end.

(** ** Pieces *)

Record piece := mkPiece { p_text : string; p_startLine : Z }.
Record section := mkSection { s_text : string; s_startLine : Z; s_endLine : Z }.

Fixpoint count_byte (b : ascii) (s : string) : Z :=
  match s with "" => 0 | String c r => (if Ascii.eqb c b then 1 else 0) + count_byte b r end.
Definition lineCount (s : string) : Z := if String.eqb s "" then 0 else count_byte "010" s + 1.
Definition split_lines (s : string) : list string := split_byte "010" s.
Definition some_lines (l : list string) : bool := match l with [] => false | _ => true end.

(** Groups of lines, as the loops collect them in [current]: a line that opens a
    section closes the group in front of it. *)
Fixpoint split_before (opens : nat -> string -> bool) (i : nat) (current lines : list string) : list (list string) :=
  match lines with
  | [] => if some_lines current then [current] else []
  | line :: rest =>
      if opens i line && some_lines current then current :: split_before opens (S i) [line] rest
      else split_before opens (S i) (current ++ [line]) rest
  end.
(** A blank line closes the group it ends. *)
Fixpoint split_after_blank (current lines : list string) : list (list string) :=
  match lines with
  | [] => if some_lines current then [current] else []
  | line :: rest =>
      if String.eqb (trim_space line) "" && some_lines current then (current ++ [line]) :: split_after_blank [] rest
      else split_after_blank (current ++ [line]) rest
  end.
(** [startLine += len(current)] *)
Fixpoint number_groups (startLine : Z) (groups : list (list string)) : list piece :=
  match groups with
  | [] => []
  | g :: groups => mkPiece (join nl g) startLine :: number_groups (startLine + Z.of_nat (length g)) groups
  end.

Definition splitBySingleBlanks (p : piece) : list piece :=
  number_groups (p_startLine p) (split_after_blank [] (split_lines (p_text p))).

Definition splitOversized (parts : list piece) (cfg : ChunkerConfig) (splitter : piece -> list piece) : list piece :=
  parts ≫= fun p => if MaxChunkSize cfg <? rune_count (p_text p) then splitter p else [p].

Definition countNewlines (rs : list Z) : Z := Z.of_nat (length (List.filter (Z.eqb 10) rs)).
(** The loop of [fixedSizePieces] from the rune [i] on. *)
Fixpoint windows (fuel : nat) (cfg : ChunkerConfig) (startLine : Z) (rs : list Z) (i : nat) : list piece :=
  match fuel with
  | O => []
  | S fuel =>
      if (i <? length rs)%nat then
        let end_ := Nat.min (i + Z.to_nat (MaxChunkSize cfg)) (length rs) in
        mkPiece (string_of_runes (take (end_ - i) (drop i rs))) (startLine + countNewlines (take i rs)) ::
        if (end_ =? length rs)%nat then [] else windows fuel cfg startLine rs (Z.to_nat (Z.of_nat end_ - Overlap cfg))
      else []
  end.
Definition fixedSizePieces (cfg : ChunkerConfig) (p : piece) : list piece :=
  let rs := runes (p_text p) in
  if Z.of_nat (length rs) <=? MaxChunkSize cfg then [p] else windows (S (length rs)) cfg (p_startLine p) rs 0.

Definition piecesToSections (parts : list piece) : list section :=
  omap (fun p => if String.eqb (p_text p) "" then None
    else Some (mkSection (p_text p) (p_startLine p) (p_startLine p + lineCount (p_text p) - 1))) parts.
Fixpoint pieces_from (currentLine : Z) (parts : list string) : list piece :=
  match parts with
  | [] => []
  | p :: parts => mkPiece p currentLine :: pieces_from (currentLine + lineCount p) parts
  end.
Definition piecesFromContiguousLines (parts : list string) : list piece := pieces_from 1 parts.

Definition chunkCode (text : string) (cfg : ChunkerConfig) : list section :=
  piecesToSections (splitOversized (splitBySingleBlanks (mkPiece text 1)) cfg (fixedSizePieces cfg)).

Definition opens_markdown (_ : nat) (line : string) : bool := has_prefix line "## ".
Definition chunkMarkdown (text : string) (cfg : ChunkerConfig) : list section :=
  let parts := number_groups 1 (split_before opens_markdown 0 [] (split_lines text)) in
  let parts := splitOversized parts cfg splitBySingleBlanks in
  piecesToSections (splitOversized parts cfg (fixedSizePieces cfg)).

(** [jsonTopLevelKeyRe] and [yamlTopLevelKeyRe]. *)
Definition is_quote (c : ascii) : bool := Ascii.eqb c "034".
Definition starts_with (p : ascii -> bool) (s : string) : bool := match s with String c _ => p c | "" => false end.
Definition jsonTopLevelKeyRe (line : string) : bool :=
  starts_with re_s line &&
  match skip_s line with
  | String c r =>
      is_quote c && starts_with (fun c => negb (is_quote c)) r &&
      match cut_at is_quote r with Some (_, String _ r) => starts_with (fun c => Ascii.eqb c ":") (skip_s r) | _ => false end
  | "" => false
  end.
Definition key_first (c : ascii) : bool := is_letter c || Ascii.eqb c "_".
Definition yamlTopLevelKeyRe (line : string) : bool :=
  starts_with key_first line &&
  starts_with (fun c => Ascii.eqb c ":") (skip_s (skip_while (fun c => key_first c || is_digit c || Ascii.eqb c "-") line)).
Definition splitJSONTopLevel (text : string) : list string :=
  map (join nl) (split_before (fun _ line => jsonTopLevelKeyRe line) 0 [] (split_lines text)).
Definition splitYAMLTopLevel (text : string) : list string :=
  map (join nl) (split_before (fun i line => (0 <? i)%nat && yamlTopLevelKeyRe line) 0 [] (split_lines text)).
Definition opens_generic (i : nat) (line : string) : bool :=
  (0 <? i)%nat && starts_with (fun c => negb (Ascii.eqb c " ") && negb (Ascii.eqb c "009")) line &&
  starts_with (fun c => negb (Ascii.eqb c "#") && negb (Ascii.eqb c ";")) (trim_space line).
Definition splitGenericConfig (text : string) : list string :=
  map (join nl) (split_before opens_generic 0 [] (split_lines text)).

Definition config_parts (text ext : string) : list string :=
  if String.eqb ext ".json" then splitJSONTopLevel text
  else if String.eqb ext ".yaml" || String.eqb ext ".yml" then splitYAMLTopLevel text
  else splitGenericConfig text.
Definition chunkConfig (text ext : string) (cfg : ChunkerConfig) : list section :=
  if rune_count text <=? MaxChunkSize cfg then piecesToSections [mkPiece text 1]
  else
    let parts := config_parts text ext in
    if (length parts <=? 1)%nat then piecesToSections (fixedSizePieces cfg (mkPiece text 1))
    else piecesToSections (splitOversized (piecesFromContiguousLines parts) cfg (fixedSizePieces cfg)).
Definition fixedSizeSplit (text : string) (cfg : ChunkerConfig) : list section :=
  piecesToSections (fixedSizePieces cfg (mkPiece text 1)).

Definition is_binary (content : string) : bool := has_char (fun c => Ascii.eqb c "000") (take_str 512 content).

Section file.
Variable to_lower : string -> string.
Definition file_sections (filePath content : string) (cfg : ChunkerConfig) : list section :=
  let ext := to_lower (Ext filePath) in
  match classifyFile ext with
  | fileTypeCode => chunkCode content cfg
  | fileTypeMarkdown => chunkMarkdown content cfg
  | fileTypeConfig => chunkConfig content ext cfg
  | fileTypeOther => fixedSizeSplit content cfg
  end.
Definition ChunkFile (filePath content : string) (cfg : ChunkerConfig) : list Chunk :=
  let cfg := withDefaults cfg in
  if String.eqb content "" then []
  else if is_binary content then []
  else
    omap (fun s => if String.eqb (trim_space (s_text s)) "" then None
      else Some (mkChunk (s_text s) filePath (Base filePath) (s_startLine s) (s_endLine s) (detectLanguage (to_lower (Ext filePath)))))
    (file_sections filePath content cfg).
End file.

(** ** Lines and runes *)

Lemma not_cont x : x < 128 -> is_cont x = false.
Proof. intros H. unfold is_cont. by rewrite (proj2 (Z.leb_gt _ _)). Qed.
Lemma not_utf8_2 a x : x < 128 -> utf8_2 a x = false.
Proof. intros H. unfold utf8_2. by rewrite (not_cont x H), andb_false_r. Qed.
Lemma not_utf8_3_last a b x : x < 128 -> utf8_3 a b x = false.
Proof. intros H. unfold utf8_3. by rewrite (not_cont x H), andb_false_r. Qed.
Lemma not_utf8_3_mid a x b : x < 128 -> utf8_3 a x b = false.
Proof.
  intros H. unfold utf8_3. rewrite (not_cont x H), !andb_false_r. rewrite (proj2 (Z.leb_gt 160 x)), (proj2 (Z.leb_gt 128 x)) by lia.
  by rewrite !andb_false_r.
Qed.
Lemma not_utf8_4_last a b c x : x < 128 -> utf8_4 a b c x = false.
Proof. intros H. unfold utf8_4. by rewrite (not_cont x H), andb_false_r. Qed.
Lemma not_utf8_4_third a b x c : x < 128 -> utf8_4 a b x c = false.
Proof. intros H. unfold utf8_4. by rewrite (not_cont x H), andb_false_r. Qed.
Lemma not_utf8_4_mid a x b c : x < 128 -> utf8_4 a x b c = false.
Proof.
  intros H. unfold utf8_4. rewrite (not_cont x H), !andb_false_r. rewrite (proj2 (Z.leb_gt 144 x)), (proj2 (Z.leb_gt 128 x)) by lia.
  by rewrite !andb_false_r.
Qed.
Lemma runes_eq c0 s1 :
  runes (String c0 s1) =
    let b0 := byte_of c0 in
    if b0 <? 128 then b0 :: runes s1
    else match s1 with
    | "" => [rune_error]
    | String c1 s2 =>
        if utf8_2 b0 (byte_of c1) then rune2 b0 (byte_of c1) :: runes s2
        else match s2 with
        | "" => rune_error :: runes s1
        | String c2 s3 =>
            if utf8_3 b0 (byte_of c1) (byte_of c2) then rune3 b0 (byte_of c1) (byte_of c2) :: runes s3
            else match s3 with
            | "" => rune_error :: runes s1
            | String c3 s4 =>
                if utf8_4 b0 (byte_of c1) (byte_of c2) (byte_of c3) then rune4 b0 (byte_of c1) (byte_of c2) (byte_of c3) :: runes s4
                else rune_error :: runes s1
            end
        end
    end.
Proof. reflexivity. Qed.

(** A line end cuts between runes, also in ill-formed text. *)
Lemma runes_cut c a b : byte_of c < 128 -> runes (a +s+ String c b) = runes a ++ byte_of c :: runes b.
Proof.
  intros Hc. remember (String.length a) as n eqn:Hn. revert a Hn. induction n as [n IH] using lt_wf_ind. intros a ->.
  assert (IHs : forall s, (String.length s < String.length a)%nat -> runes (s +s+ String c b) = runes s ++ byte_of c :: runes b) by (intros; by eapply IH).
  clear IH. assert (Hnil : runes (String c b) = byte_of c :: runes b) by (rewrite runes_eq; cbv zeta; by rewrite (proj2 (Z.ltb_lt _ _))).
  destruct a as [|c0 s1]; [exact Hnil|]. change ((String c0 s1) +s+ String c b) with (String c0 (s1 +s+ String c b)). rewrite !runes_eq. cbv zeta.
  pose proof (IHs s1 ltac:(simpl; lia)) as H1. destruct (byte_of c0 <? 128); [by rewrite H1|].
  destruct s1 as [|c1 s2].
  { change ("" +s+ String c b) with (String c b) in *. cbv beta iota. rewrite (not_utf8_2 _ _ Hc).
    destruct b as [|d b]; [by rewrite Hnil|]. rewrite (not_utf8_3_mid _ _ _ Hc). destruct b as [|e b]; [by rewrite Hnil|].
    by rewrite (not_utf8_4_mid _ _ _ _ Hc), Hnil. }
  change ((String c1 s2) +s+ String c b) with (String c1 (s2 +s+ String c b)) in *. cbv beta iota. rewrite H1.
  destruct (utf8_2 (byte_of c0) (byte_of c1)); [by rewrite IHs by (simpl; lia)|].
  destruct s2 as [|c2 s3].
  { change ("" +s+ String c b) with (String c b) in *. cbv beta iota. rewrite (not_utf8_3_last _ _ _ Hc). destruct b as [|d b]; [done|].
    by rewrite (not_utf8_4_third _ _ _ _ Hc). }
  change ((String c2 s3) +s+ String c b) with (String c2 (s3 +s+ String c b)) in *. cbv beta iota.
  destruct (utf8_3 (byte_of c0) (byte_of c1) (byte_of c2)); [by rewrite IHs by (simpl; lia)|].
  destruct s3 as [|c3 s4].
  { change ("" +s+ String c b) with (String c b) in *. cbv beta iota. by rewrite (not_utf8_4_last _ _ _ _ Hc). }
  change ((String c3 s4) +s+ String c b) with (String c3 (s4 +s+ String c b)) in *. cbv beta iota.
  destruct (utf8_4 (byte_of c0) (byte_of c1) (byte_of c2) (byte_of c3)); [by rewrite IHs by (simpl; lia)|done].
Qed.
Lemma runes_nl a b : runes (a +s+ nl +s+ b) = runes a ++ 10 :: runes b.
Proof. apply (runes_cut "010"). done. Qed.

Lemma eqb_nl c : Ascii.eqb c "010" = (byte_of c =? 10).
Proof.
  destruct (Ascii.eqb_spec c "010") as [->|Hn]; [done|]. symmetry. apply Z.eqb_neq. intros H. apply Hn.
  rewrite <- (ascii_of_byte_of c), H. done.
Qed.
Lemma utf8_2_range a b : utf8_2 a b = true -> 128 <= a /\ 128 <= b /\ rune2 a b <> 10.
Proof. unfold utf8_2, is_cont, rune2. rewrite !andb_true_iff, !Z.leb_le. lia. Qed.
Lemma utf8_3_range a b c : utf8_3 a b c = true -> 128 <= a /\ 128 <= b /\ 128 <= c /\ rune3 a b c <> 10.
Proof. unfold utf8_3, is_cont, rune3. rewrite !andb_true_iff, !orb_true_iff, !andb_true_iff, !Z.leb_le, !Z.eqb_eq. lia. Qed.
Lemma utf8_4_range a b c d : utf8_4 a b c d = true -> 128 <= a /\ 128 <= b /\ 128 <= c /\ 128 <= d /\ rune4 a b c d <> 10.
Proof. unfold utf8_4, is_cont, rune4. rewrite !andb_true_iff, !orb_true_iff, !andb_true_iff, !Z.leb_le, !Z.eqb_eq. lia. Qed.
Lemma newlines_cons x rs : countNewlines (x :: rs) = (if 10 =? x then 1 else 0) + countNewlines rs.
Proof. unfold countNewlines. cbn [List.filter]. destruct (10 =? x); [|done]. simpl length. lia. Qed.
Lemma count_other x rs : x <> 10 -> countNewlines (x :: rs) = countNewlines rs.
Proof. intros H. rewrite newlines_cons. by rewrite (proj2 (Z.eqb_neq _ _)). Qed.
Lemma byte_other c r : 128 <= byte_of c -> count_byte "010" (String c r) = count_byte "010" r.
Proof. intros H. cbn [count_byte]. rewrite eqb_nl. by rewrite (proj2 (Z.eqb_neq _ _)) by lia. Qed.
Lemma count_byte_runes s : count_byte "010" s = countNewlines (runes s).
Proof.
  remember (String.length s) as n eqn:Hn. revert s Hn. induction n as [n IH] using lt_wf_ind. intros s ->.
  assert (IHs : forall t, (String.length t < String.length s)%nat -> count_byte "010" t = countNewlines (runes t)) by (intros; by eapply IH).
  clear IH. destruct s as [|c0 s1]; [done|]. rewrite runes_eq. cbv zeta. pose proof (IHs s1 ltac:(simpl; lia)) as H1.
  destruct (Z.ltb_spec (byte_of c0) 128) as [H0|H0].
  { rewrite newlines_cons, <- H1. cbn [count_byte]. by rewrite eqb_nl, (Z.eqb_sym 10). }
  rewrite (byte_other c0) by done. assert (He : count_byte "010" s1 = countNewlines (rune_error :: runes s1)) by (by rewrite count_other).
  destruct s1 as [|c1 s2]; [done|]. destruct (utf8_2 _ _) eqn:E2.
  { apply utf8_2_range in E2 as (_ & Hb & Hr). rewrite (byte_other c1), count_other by done. apply IHs. simpl; lia. }
  destruct s2 as [|c2 s3]; [done|]. destruct (utf8_3 _ _ _) eqn:E3.
  { apply utf8_3_range in E3 as (_ & Hb & Hc & Hr). rewrite (byte_other c1), (byte_other c2), count_other by done. apply IHs. simpl; lia. }
  destruct s3 as [|c3 s4]; [done|]. destruct (utf8_4 _ _ _ _) eqn:E4; [|done].
  apply utf8_4_range in E4 as (_ & Hb & Hc & Hd & Hr). rewrite (byte_other c1), (byte_other c2), (byte_other c3), count_other by done. apply IHs. simpl; lia.
Qed.
Lemma count_app a b : countNewlines (a ++ b) = countNewlines a + countNewlines b.
Proof. unfold countNewlines. rewrite List.filter_app, length_app. lia. Qed.

(** Joined lines. *)
Definition line_free (l : string) : Prop := count_byte "010" l = 0.
Lemma split_lines_free s : Forall line_free (split_lines s).
Proof.
  unfold split_lines, line_free. induction s as [|c s IH]; cbn [split_byte]; [by repeat constructor|].
  destruct (Ascii.eqb c "010") eqn:E; [by constructor|].
  destruct (split_byte "010" s) as [|h t]; [constructor; [|done]; cbn [count_byte]; by rewrite E|].
  inversion_clear IH. constructor; [|done]. cbn [count_byte]. by rewrite E.
Qed.
Lemma join_lines_cons a l : l <> [] -> join nl (a :: l) = a +s+ nl +s+ join nl l.
Proof. by destruct l. Qed.
Lemma join_runes_app a b : a <> [] -> b <> [] -> runes (join nl (a ++ b)) = runes (join nl a) ++ 10 :: runes (join nl b).
Proof.
  intros Ha Hb. induction a as [|x a IH]; [done|]. destruct a as [|y a].
  - cbn [app]. rewrite join_lines_cons by done. change (join nl [x]) with x. apply runes_nl.
  - change ((x :: y :: a) ++ b) with (x :: (y :: a) ++ b). rewrite join_lines_cons by done. rewrite (join_lines_cons x (y :: a)) by done.
    rewrite !runes_nl, IH by done. by rewrite <- app_assoc.
Qed.
Lemma join_count l : l <> [] -> Forall line_free l -> countNewlines (runes (join nl l)) = Z.of_nat (length l) - 1.
Proof.
  intros Hn Hf. induction Hf as [|x l Hx Hf IH]; [done|]. destruct l as [|y l].
  - change (join nl [x]) with x. by rewrite <- count_byte_runes, Hx.
  - rewrite join_lines_cons, runes_nl, count_app, newlines_cons, <- count_byte_runes, Hx, IH, Z.eqb_refl by done. cbn [length]. lia.
Qed.

(** ** Slices *)

(** [p] is the slice of the runes [rs] from the offset [o] on, and its line is
    that of the offset, the first line being [base]. *)
Definition slice_at (rs : list Z) (base : Z) (p : piece) (o : nat) : Prop :=
  exists a b, rs = a ++ runes (p_text p) ++ b /\ length a = o /\ p_startLine p = base + countNewlines a.
Definition within (p : piece) (o k : nat) : Prop := (o <= k < o + length (runes (p_text p)))%nat.
(** Pieces are slices, and all but line ends is in one. *)
Definition faithful (rs : list Z) (base : Z) (ps : list piece) : Prop :=
  (forall p, p ∈ ps -> exists o, slice_at rs base p o) /\
  (forall k c, rs !! k = Some c -> c <> 10 -> exists p o, p ∈ ps /\ slice_at rs base p o /\ within p o k).

Lemma count_nil : countNewlines [] = 0.
Proof. done. Qed.
Lemma slice_self p : slice_at (runes (p_text p)) (p_startLine p) p 0.
Proof. exists [], []. rewrite app_nil_r, count_nil. split_and!; [done|done|lia]. Qed.
Lemma faithful_self p : faithful (runes (p_text p)) (p_startLine p) [p].
Proof.
  split.
  - intros q ->%list_elem_of_singleton. exists 0%nat. apply slice_self.
  - intros k c Hk _. exists p, 0%nat. split_and!; [by left|apply slice_self|]. apply lookup_lt_Some in Hk. unfold within. lia.
Qed.
Lemma slice_trans rs base p o q o' :
  slice_at rs base p o -> slice_at (runes (p_text p)) (p_startLine p) q o' -> slice_at rs base q (o + o').
Proof.
  intros (a & b & E1 & E2 & E3) (a' & b' & F1 & F2 & F3). exists (a ++ a'), (b' ++ b). rewrite count_app, length_app. split_and!; [|lia|lia].
  rewrite E1, F1. by rewrite <- !app_assoc.
Qed.
Lemma faithful_bind rs base ps f :
  faithful rs base ps -> (forall p, p ∈ ps -> faithful (runes (p_text p)) (p_startLine p) (f p)) -> faithful rs base (ps ≫= f).
Proof.
  intros [H1 H2] Hf. split.
  - intros q (p & Hq & Hp)%list_elem_of_bind. destruct (H1 p Hp) as [o Ho]. destruct (Hf p Hp) as [G1 _]. destruct (G1 q Hq) as [o' Ho'].
    exists (o + o')%nat. by eapply slice_trans.
  - intros k c Hk Hc. destruct (H2 k c Hk Hc) as (p & o & Hp & Ho & Hw). destruct (Hf p Hp) as [_ G2]. unfold within in Hw.
    assert (Hk' : runes (p_text p) !! (k - o)%nat = Some c).
    { destruct Ho as (a & b & E1 & E2 & _). rewrite E1, lookup_app_r in Hk by lia. rewrite lookup_app_l in Hk by lia. by rewrite E2 in Hk. }
    destruct (G2 _ _ Hk' Hc) as (q & o' & Hq & Ho' & Hw'). exists q, (o + o')%nat. split_and!.
    + apply list_elem_of_bind. by exists p.
    + by eapply slice_trans.
    + unfold within in *. lia.
Qed.
(** Behind a part [a] that ends a line. *)
Lemma slice_behind a rs base p o : slice_at rs (base + countNewlines a) p o -> slice_at (a ++ rs) base p (length a + o).
Proof.
  intros (c & b & E1 & E2 & E3). exists (a ++ c), b. rewrite length_app, count_app. split_and!; [by rewrite E1, <- app_assoc|lia|lia].
Qed.
Lemma slice_longer rs b base p o : slice_at rs base p o -> slice_at (rs ++ b) base p o.
Proof. intros (a & c & E1 & E2 & E3). exists a, (c ++ b). split_and!; [rewrite E1; by rewrite <- !app_assoc|done|done]. Qed.

(** ** The splitters are faithful *)

Lemma faithful_groups base gs :
  Forall (fun g => g <> []) gs -> Forall line_free (concat gs) -> faithful (runes (join nl (concat gs))) base (number_groups base gs).
Proof.
  revert base. induction gs as [|g gs IH]; intros base Hne Hf.
  { split; [by intros p ?%elem_of_nil|]. intros k c Hk. vm_compute in Hk; discriminate Hk. }
  apply Forall_cons in Hne as [Hg Hne]. cbn [concat] in Hf |- *. apply Forall_app in Hf as [Hfg Hf]. cbn [number_groups].
  destruct gs as [|g2 gs].
  { cbn [concat number_groups]. rewrite app_nil_r. apply (faithful_self (mkPiece (join nl g) base)). }
  assert (Hc : concat (g2 :: gs) <> []) by (apply Forall_cons in Hne as [Hg2 _]; cbn [concat]; by destruct g2).
  set (rest := g2 :: gs) in *. rewrite (join_runes_app g _ Hg Hc).
  destruct (IH (base + Z.of_nat (length g)) Hne Hf) as [H1 H2]. set (rs := runes (join nl (concat rest))) in *.
  set (a := runes (join nl g) ++ [10]).
  assert (Ha : runes (join nl g) ++ 10 :: rs = a ++ rs) by (unfold a; by rewrite <- app_assoc).
  assert (Hn : countNewlines a = Z.of_nat (length g)).
  { unfold a. rewrite count_app, (join_count g Hg Hfg), newlines_cons, count_nil, Z.eqb_refl. lia. }
  assert (Hb : forall p o, slice_at rs (base + Z.of_nat (length g)) p o -> slice_at (a ++ rs) base p (length a + o)).
  { intros p o Hp. apply slice_behind. by rewrite Hn. }
  rewrite Ha. split.
  - intros p [->|Hp]%elem_of_cons.
    + exists 0%nat. unfold a. rewrite <- app_assoc. apply (slice_longer (runes (p_text (mkPiece (join nl g) base)))). apply slice_self.
    + destruct (H1 p Hp) as [o Ho]. eauto.
  - intros k c Hk Hc10. destruct (decide (k < length a)%nat) as [Hlt|Hge].
    + rewrite lookup_app_l in Hk by done. unfold a in Hk, Hlt. rewrite length_app in Hlt. cbn [length] in Hlt.
      assert (Hk2 : (k < length (runes (join nl g)))%nat).
      { destruct (decide (k = length (runes (join nl g)))) as [->|]; [|lia]. rewrite lookup_app_r, Nat.sub_diag in Hk by lia. cbn in Hk. congruence. }
      exists (mkPiece (join nl g) base), 0%nat. split_and!; [by left| |unfold within; cbn [p_text]; lia].
      unfold a. rewrite <- app_assoc. apply (slice_longer (runes (p_text (mkPiece (join nl g) base)))). apply slice_self.
    + rewrite lookup_app_r in Hk by lia. destruct (H2 _ _ Hk Hc10) as (p & o & Hp & Ho & Hw). exists p, (length a + o)%nat.
      split_and!; [by right|by apply Hb|unfold within in *; lia].
Qed.

Lemma split_before_spec opens i current lines :
  Forall (fun g => g <> []) (split_before opens i current lines) /\ concat (split_before opens i current lines) = current ++ lines.
Proof.
  revert i current. induction lines as [|x lines IH]; intros i current; cbn [split_before].
  - destruct current as [|c l]; cbn [some_lines]; [by split|]. cbn [concat]. split; [by constructor|done].
  - destruct (opens i x && some_lines current) eqn:E.
    + apply andb_true_iff in E as [_ E]. destruct (IH (S i) [x]) as [H1 H2]. cbn [concat]. rewrite H2. split; [|done].
      constructor; [by destruct current|done].
    + destruct (IH (S i) (current ++ [x])) as [H1 H2]. rewrite H2. split; [done|]. by rewrite <- app_assoc.
Qed.
Lemma split_after_blank_spec current lines :
  Forall (fun g => g <> []) (split_after_blank current lines) /\ concat (split_after_blank current lines) = current ++ lines.
Proof.
  revert current. induction lines as [|x lines IH]; intros current; cbn [split_after_blank].
  - destruct current as [|c l]; cbn [some_lines]; [by split|]. cbn [concat]. split; [by constructor|done].
  - destruct (_ && some_lines current) eqn:E.
    + destruct (IH []) as [H1 H2]. cbn [concat]. rewrite H2. split; [|by rewrite <- app_assoc]. constructor; [by destruct current|done].
    + destruct (IH (current ++ [x])) as [H1 H2]. rewrite H2. split; [done|]. by rewrite <- app_assoc.
Qed.
Lemma join_split_lines s : join nl (split_lines s) = s.
Proof. apply (join_split "010"). Qed.
Lemma faithful_numbered base s gs :
  Forall (fun g => g <> []) gs -> concat gs = split_lines s -> faithful (runes s) base (number_groups base gs).
Proof.
  intros H1 H2. rewrite <- (join_split_lines s), <- H2. apply faithful_groups; [done|]. rewrite H2. apply split_lines_free.
Qed.
Lemma faithful_blanks p : faithful (runes (p_text p)) (p_startLine p) (splitBySingleBlanks p).
Proof.
  destruct (split_after_blank_spec [] (split_lines (p_text p))) as [H1 H2]. by apply faithful_numbered.
Qed.

(** *** Windows *)

(** Sizes after [withDefaults]. *)
Definition sizes_ok (cfg : ChunkerConfig) : Prop := 0 <= Overlap cfg < MaxChunkSize cfg.
Lemma withDefaults_ok c : sizes_ok (withDefaults c).
Proof.
  unfold sizes_ok, withDefaults. cbn [Overlap MaxChunkSize].
  assert (H5 : forall n, 0 < n -> 0 <= n / 5 < n) by (intros n Hn; split; [apply Z.div_pos; lia|apply Z.div_lt; lia]).
  assert (Hs : 0 < (if MaxChunkSize c <=? 0 then 1500 else MaxChunkSize c)) by (destruct (Z.leb_spec (MaxChunkSize c) 0); lia).
  assert (Ho : 0 < (if Overlap c <=? 0 then 200 else Overlap c)) by (destruct (Z.leb_spec (Overlap c) 0); lia).
  destruct (Z.leb_spec (if MaxChunkSize c <=? 0 then 1500 else MaxChunkSize c) (if Overlap c <=? 0 then 200 else Overlap c)); [by apply H5|lia].
Qed.

Section windows.
Variable cfg : ChunkerConfig.
Hypothesis Hcfg : sizes_ok cfg.
Variable rs : list Z.
Hypothesis Hvalid : Forall (fun r => valid_rune r = true) rs.

Lemma window_slice startLine i n :
  (i + n <= length rs)%nat ->
  runes (string_of_runes (take n (drop i rs))) = take n (drop i rs) /\
  slice_at rs startLine (mkPiece (string_of_runes (take n (drop i rs))) (startLine + countNewlines (take i rs))) i.
Proof.
  intros Hn. assert (Hr : runes (string_of_runes (take n (drop i rs))) = take n (drop i rs)).
  { apply runes_string_of_runes. by apply Forall_take, Forall_drop. }
  split; [done|]. exists (take i rs), (drop n (drop i rs)). cbn [p_text p_startLine]. rewrite Hr, take_drop, take_drop, length_take. split_and!; [done|lia|done].
Qed.
(** With fuel for every rune that is left, the windows from [i] on are slices
    and reach the end. *)
Lemma windows_faithful fuel startLine i :
  (length rs - i < fuel)%nat ->
  (forall p, p ∈ windows fuel cfg startLine rs i -> exists o, slice_at rs startLine p o) /\
  (forall k, (i <= k < length rs)%nat -> exists p o, p ∈ windows fuel cfg startLine rs i /\ slice_at rs startLine p o /\ within p o k).
Proof.
  unfold sizes_ok in Hcfg. revert i. induction fuel as [|fuel IH]; intros i Hf; [lia|]. cbn [windows].
  destruct (Nat.ltb_spec i (length rs)) as [Hi|Hi]; [|split; [by intros p ?%elem_of_nil|intros k Hk; lia]].
  set (end_ := Nat.min (i + Z.to_nat (MaxChunkSize cfg)) (length rs)).
  destruct (window_slice startLine i (end_ - i)) as [Hr Hs]; [lia|].
  set (p0 := mkPiece _ _) in *. assert (Hlen : length (runes (p_text p0)) = (end_ - i)%nat).
  { unfold p0. cbn [p_text]. rewrite Hr, length_take, length_drop. lia. }
  assert (Hw : forall k, (i <= k < end_)%nat -> within p0 i k) by (intros k Hk; unfold within; rewrite Hlen; lia).
  destruct (Nat.eqb_spec end_ (length rs)) as [He|He].
  - split; [intros p ->%list_elem_of_singleton; eauto|]. intros k Hk. exists p0, i. split_and!; [by left|done|apply Hw; lia].
  - destruct (IH (Z.to_nat (Z.of_nat end_ - Overlap cfg))) as [H1 H2]; [lia|]. split.
    + intros p [->|Hp]%elem_of_cons; [eauto|by apply H1].
    + intros k Hk. destruct (decide (k < end_)%nat) as [Hlt|Hge].
      * exists p0, i. split_and!; [by left|done|apply Hw; lia].
      * destruct (H2 k) as (p & o & Hp & Ho & Hwk); [lia|]. exists p, o. split_and!; [by right|done|done].
Qed.
Lemma windows_small fuel startLine i p :
  p ∈ windows fuel cfg startLine rs i -> rune_count (p_text p) <= MaxChunkSize cfg.
Proof.
  unfold sizes_ok in Hcfg. revert i. induction fuel as [|fuel IH]; intros i; cbn [windows]; [by intros ?%elem_of_nil|].
  destruct (Nat.ltb_spec i (length rs)) as [Hi|Hi]; [|by intros ?%elem_of_nil].
  set (end_ := Nat.min (i + Z.to_nat (MaxChunkSize cfg)) (length rs)). intros [->|Hp]%elem_of_cons.
  - cbn [p_text]. unfold rune_count. rewrite (proj1 (window_slice startLine i (end_ - i) ltac:(lia))), length_take, length_drop. lia.
  - destruct (end_ =? length rs)%nat; [by apply elem_of_nil in Hp|by eapply IH].
Qed.
End windows.

Lemma faithful_fixed cfg p : sizes_ok cfg -> faithful (runes (p_text p)) (p_startLine p) (fixedSizePieces cfg p).
Proof.
  intros Hcfg. unfold fixedSizePieces. cbv zeta. destruct (_ <=? _); [apply faithful_self|].
  destruct (windows_faithful cfg Hcfg (runes (p_text p)) (runes_valid _) (S (length (runes (p_text p)))) (p_startLine p) 0) as [H1 H2]; [lia|].
  split; [done|]. intros k c Hk _. apply H2. apply lookup_lt_Some in Hk. lia.
Qed.
Lemma fixed_small cfg p q : sizes_ok cfg -> q ∈ fixedSizePieces cfg p -> rune_count (p_text q) <= MaxChunkSize cfg.
Proof.
  intros Hcfg. unfold fixedSizePieces. cbv zeta. destruct (Z.leb_spec (Z.of_nat (length (runes (p_text p)))) (MaxChunkSize cfg)) as [H|H].
  - by intros ->%list_elem_of_singleton.
  - apply windows_small; [done|apply runes_valid].
Qed.
Lemma faithful_oversized cfg rs base ps f :
  faithful rs base ps -> (forall p, faithful (runes (p_text p)) (p_startLine p) (f p)) -> faithful rs base (splitOversized ps cfg f).
Proof. intros H Hf. apply faithful_bind; [done|]. intros p _. destruct (_ <? _); [apply Hf|apply faithful_self]. Qed.
Lemma oversized_small cfg ps q : sizes_ok cfg -> q ∈ splitOversized ps cfg (fixedSizePieces cfg) -> rune_count (p_text q) <= MaxChunkSize cfg.
Proof.
  intros Hcfg (p & Hq & _)%list_elem_of_bind. destruct (Z.ltb_spec (MaxChunkSize cfg) (rune_count (p_text p))).
  - by eapply fixed_small.
  - by apply list_elem_of_singleton in Hq as ->.
Qed.

(** *** Configuration *)

(** Parts numbered by their line counts are numbered by their groups, unless a
    group is one empty line. *)
Lemma pieces_from_groups base gs :
  Forall (fun g => g <> []) gs -> Forall line_free (concat gs) -> Forall (fun g => join nl g <> "") gs ->
  pieces_from base (map (join nl) gs) = number_groups base gs.
Proof.
  intros Hne Hf Hj. revert base. induction gs as [|g gs IH]; intros base; [done|]. cbn [map pieces_from number_groups].
  apply Forall_cons in Hne as [Hg Hne]. cbn [concat] in Hf. apply Forall_app in Hf as [Hfg Hf]. apply Forall_cons in Hj as [Hjg Hj].
  rewrite IH by done. f_equal. f_equal. unfold lineCount. rewrite (proj2 (String.eqb_neq _ _)) by done.
  rewrite count_byte_runes, join_count by done. lia.
Qed.
(** A group behind the first begins with the line that opened it. *)
Lemma split_before_opened opens i current lines g :
  g ∈ split_before opens i current lines ->
  (exists rest, g = current ++ rest) \/ exists j line rest, g = line :: rest /\ opens j line = true.
Proof.
  revert i current. induction lines as [|x lines IH]; intros i current; cbn [split_before].
  - destruct current; cbn [some_lines]; [by intros ?%elem_of_nil|]. intros ->%list_elem_of_singleton. left. exists []. by rewrite app_nil_r.
  - destruct (opens i x && some_lines current) eqn:E.
    + intros [->|Hg]%elem_of_cons; [left; exists []; by rewrite app_nil_r|]. apply andb_true_iff in E as [E _].
      apply IH in Hg as [(rest & ->)|H]; right; [by exists i, x, rest|done].
    + intros Hg. apply IH in Hg as [(rest & ->)|H]; [|by right]. left. exists (x :: rest). by rewrite <- app_assoc.
Qed.
Lemma join_nonempty line rest : line <> "" -> join nl (line :: rest) <> "".
Proof. intros H. destruct line as [|c l]; [done|]. by destruct rest. Qed.
Lemma groups_nonempty opens text :
  (forall j, opens j "" = false) -> has_prefix text nl = false -> text <> "" ->
  Forall (fun g => join nl g <> "") (split_before opens 0 [] (split_lines text)).
Proof.
  intros Ho Hp Hne. destruct (split_lines text) as [|x lines] eqn:E; [by constructor|].
  assert (Hx : x <> "").
  { intros ->. unfold split_lines in E. destruct text as [|c text]; [done|]. cbn [split_byte] in E.
    destruct (Ascii.eqb c "010") eqn:Ec; [apply Ascii.eqb_eq in Ec as ->; by destruct text|].
    by destruct (split_byte "010" text). }
  cbn [split_before some_lines]. rewrite andb_false_r. cbn [app].
  apply Forall_forall. intros g Hg. apply split_before_opened in Hg as [(rest & ->)|(j & line & rest & -> & Hl)].
  - by apply join_nonempty.
  - apply join_nonempty. intros ->. by rewrite Ho in Hl.
Qed.

Lemma opens_config_empty ext :
  exists opens, (forall text, config_parts text ext = map (join nl) (split_before opens 0 [] (split_lines text))) /\ forall j, opens j "" = false.
Proof.
  unfold config_parts. destruct (String.eqb ext ".json"); [|destruct (String.eqb ext ".yaml" || String.eqb ext ".yml")].
  - eexists. split; [reflexivity|done].
  - eexists. split; [reflexivity|]. intros j. apply andb_false_r.
  - exists opens_generic. split; [reflexivity|]. intros j. unfold opens_generic. by rewrite andb_false_r.
Qed.
Lemma config_faithful text ext :
  text <> "" -> has_prefix text nl = false -> faithful (runes text) 1 (piecesFromContiguousLines (config_parts text ext)).
Proof.
  intros Hne Hp. destruct (opens_config_empty ext) as (opens & Hc & Ho). rewrite Hc.
  destruct (split_before_spec opens 0 [] (split_lines text)) as [H1 H2]. unfold piecesFromContiguousLines. rewrite pieces_from_groups; [|done| |].
  - by apply faithful_numbered.
  - rewrite H2. apply split_lines_free.
  - by apply groups_nonempty.
Qed.

Section contract.
Variable to_lower : string -> string.

Lemma file_sections_pieces filePath content cfg :
  sizes_ok cfg -> content <> "" ->
  exists ps, file_sections to_lower filePath content cfg = piecesToSections ps /\
    (forall p, p ∈ ps -> rune_count (p_text p) <= MaxChunkSize cfg) /\
    ((classifyFile (to_lower (Ext filePath)) = fileTypeConfig -> has_prefix content nl = false) -> faithful (runes content) 1 ps).
Proof.
  intros Hcfg Hne. pose proof (fun p => faithful_fixed cfg p Hcfg) as Hfix. unfold file_sections. cbv zeta.
  set (ext := to_lower (Ext filePath)). destruct (classifyFile ext).
  - eexists. split; [reflexivity|]. split; [intros p; by apply oversized_small|]. intros _.
    apply faithful_oversized; [|done]. apply (faithful_blanks (mkPiece content 1)).
  - eexists. split; [reflexivity|]. split; [intros p; by apply oversized_small|]. intros _.
    apply faithful_oversized; [|done]. apply faithful_oversized; [|apply faithful_blanks].
    destruct (split_before_spec opens_markdown 0 [] (split_lines content)) as [H1 H2]. by apply faithful_numbered.
  - unfold chunkConfig. cbv zeta. destruct (Z.leb_spec (rune_count content) (MaxChunkSize cfg)).
    { eexists. split; [reflexivity|]. split; [by intros p ->%list_elem_of_singleton|]. intros _. apply (faithful_self (mkPiece content 1)). }
    destruct (_ <=? 1)%nat.
    { eexists. split; [reflexivity|]. split; [intros p; by apply fixed_small|]. intros _. apply (Hfix (mkPiece content 1)). }
    eexists. split; [reflexivity|]. split; [intros p; by apply oversized_small|]. intros Hl. apply faithful_oversized; [|done].
    apply config_faithful; [done|by apply Hl].
  - eexists. split; [reflexivity|]. split; [intros p; by apply fixed_small|]. intros _. apply (Hfix (mkPiece content 1)).
Qed.

(** The slice a chunk is, and the lines of its first and its last rune. *)
Definition chunk_at (content : string) (ch : Chunk) (o : nat) : Prop :=
  exists a b, runes content = a ++ runes (Content ch) ++ b /\ length a = o /\
    StartLine ch = 1 + countNewlines a /\ EndLine ch = 1 + countNewlines (a ++ runes (Content ch)).

Lemma section_elem ps s :
  s ∈ piecesToSections ps <-> exists p, p ∈ ps /\ p_text p <> "" /\ s = mkSection (p_text p) (p_startLine p) (p_startLine p + lineCount (p_text p) - 1).
Proof.
  unfold piecesToSections. rewrite list_elem_of_omap. split.
  - intros (p & Hp & H). exists p. destruct (String.eqb_spec (p_text p) ""); [done|]. by injection H as <-.
  - intros (p & Hp & Hn & ->). exists p. split; [done|]. by rewrite (proj2 (String.eqb_neq _ _)).
Qed.
Definition chunk_of (filePath : string) (p : piece) : Chunk :=
  mkChunk (p_text p) filePath (Base filePath) (p_startLine p) (p_startLine p + lineCount (p_text p) - 1) (detectLanguage (to_lower (Ext filePath))).
Lemma chunk_of_at filePath content p o : p_text p <> "" -> slice_at (runes content) 1 p o -> chunk_at content (chunk_of filePath p) o.
Proof.
  intros Hn (a & b & E1 & E2 & E3). exists a, b. cbn [Content StartLine EndLine chunk_of]. split_and!; [done|done|done|].
  unfold lineCount. rewrite (proj2 (String.eqb_neq _ _)), count_byte_runes, count_app, E3 by done. lia.
Qed.
Lemma ChunkFile_elem filePath content cfg ps ch :
  content <> "" -> is_binary content = false -> file_sections to_lower filePath content (withDefaults cfg) = piecesToSections ps ->
  ch ∈ ChunkFile to_lower filePath content cfg <->
  exists p, p ∈ ps /\ p_text p <> "" /\ trim_space (p_text p) <> "" /\ ch = chunk_of filePath p.
Proof.
  intros Hne Hb E. unfold ChunkFile. cbv zeta. rewrite (proj2 (String.eqb_neq _ _)), Hb, E by done. rewrite list_elem_of_omap.
  setoid_rewrite section_elem. split.
  - intros (s & (p & Hp & Hn & ->) & H). cbn [s_text s_startLine s_endLine] in H. exists p.
    destruct (String.eqb_spec (trim_space (p_text p)) ""); [done|]. by injection H as <-.
  - intros (p & Hp & Hn & Ht & ->). eexists. split; [exists p; split_and!; [done|done|reflexivity]|]. cbn [s_text].
    by rewrite (proj2 (String.eqb_neq _ _)).
Qed.
End contract.

(** The chunks of a file: each is at most the configured number of runes and
    not blank; each is a contiguous slice of the file that begins and ends on the
    lines it claims; and every rune but a line end is in a chunk or in a slice of
    nothing but white space.  Only a configuration file that begins with an empty
    line is exempt from the line numbers. *)
Theorem ChunkFile_contract to_lower filePath content cfg :
  let chunks := ChunkFile to_lower filePath content cfg in
  (forall ch, ch ∈ chunks -> rune_count (Content ch) <= MaxChunkSize (withDefaults cfg) /\ trim_space (Content ch) <> "" /\
    FilePath ch = filePath /\ is_binary content = false) /\
  ((classifyFile (to_lower (Ext filePath)) = fileTypeConfig -> has_prefix content nl = false) ->
    (forall ch, ch ∈ chunks -> exists o, chunk_at content ch o) /\
    (is_binary content = false -> forall k c, runes content !! k = Some c -> c <> 10 ->
      (exists ch o, ch ∈ chunks /\ chunk_at content ch o /\ (o <= k < o + length (runes (Content ch)))%nat) \/
      (exists a s b, runes content = a ++ runes s ++ b /\ (length a <= k < length a + length (runes s))%nat /\ trim_space s = ""))).
Proof.
  cbv zeta. destruct (String.eqb_spec content "") as [->|Hne].
  { split; [by intros ch ?%elem_of_nil|]. intros _. split; [by intros ch ?%elem_of_nil|]. intros _ k c Hk. vm_compute in Hk. discriminate Hk. }
  destruct (is_binary content) eqn:Hb.
  { assert (Hnil : ChunkFile to_lower filePath content cfg = []).
    { unfold ChunkFile. cbv zeta. by rewrite (proj2 (String.eqb_neq _ _)), Hb. }
    rewrite Hnil. split; [by intros ch ?%elem_of_nil|]. intros _. split; [by intros ch ?%elem_of_nil|done]. }
  destruct (file_sections_pieces to_lower filePath content (withDefaults cfg) (withDefaults_ok cfg) Hne) as (ps & E & Hsmall & Hf).
  pose proof (fun ch => ChunkFile_elem to_lower filePath content cfg ps ch Hne Hb E) as Hel. split.
  - intros ch (p & Hp & Hn & Ht & ->)%Hel. split_and!; [by apply Hsmall|done|done|done].
  - intros Hl. destruct (Hf Hl) as [H1 H2]. split.
    + intros ch (p & Hp & Hn & Ht & ->)%Hel. destruct (H1 p Hp) as [o Ho]. exists o. by apply chunk_of_at.
    + intros _ k c Hk Hc. destruct (H2 k c Hk Hc) as (p & o & Hp & Ho & Hw). unfold within in Hw.
      assert (Hn : p_text p <> "") by (intros Hn; rewrite Hn in Hw; simpl in Hw; lia).
      destruct (decide (trim_space (p_text p) = "")) as [Ht|Ht].
      * right. destruct Ho as (a & b & E1 & E2 & _). exists a, (p_text p), b. split_and!; [done|lia|lia|done].
      * left. exists (chunk_of to_lower filePath p), o. split_and!; [apply Hel; by exists p|by apply chunk_of_at|lia|cbn [Content chunk_of]; lia].
Qed.

Definition code_text : string := "func a()" +s+ nl +s+ "{}" +s+ nl +s+ nl +s+ "func b() { return }".
Lemma ChunkFile_contract_witness :
  map (fun ch => (Content ch, StartLine ch, EndLine ch)) (ChunkFile (fun s => s) "m.go" code_text (mkCfg 12 4)) =
    [("func a()" +s+ nl +s+ "{}" +s+ nl, 1, 3); ("func b() { r", 4, 4); (" { return }", 4, 4)] /\
  forall ch, ch ∈ ChunkFile (fun s => s) "m.go" code_text (mkCfg 12 4) -> exists o, chunk_at code_text ch o.
Proof.
  split; [vm_compute; reflexivity|].
  assert (Hc : classifyFile (Ext "m.go") = fileTypeConfig -> has_prefix code_text nl = false) by (intros H; vm_compute in H; discriminate H).
  exact (proj1 (proj2 (ChunkFile_contract (fun s => s) "m.go" code_text (mkCfg 12 4)) Hc)).
Defined.

(** The empty first line counts as no line: both keys are a line too early. *)
Example config_lines_shifted :
  map (fun ch => (Content ch, StartLine ch)) (ChunkFile (fun s => s) "m.ini" (nl +s+ "key=1" +s+ nl +s+ "other=2") (mkCfg 8 0)) =
    [("key=1", 1); ("other=2", 2)].
Proof. vm_compute. reflexivity. Qed.
