(* ===== verification/ShellAnalysis.v ===== *)
(** * Static analysis of shell commands: src/tools/shellanalysis.go

    A third-party analyzer turns a command into a report of its effects; this
    file turns the report into the criteria C1 to C10, the outcome the shell
    judges report, the digest for the model judges with its verification marker
    and its signature, on a POSIX host.  Parameters: the analyzer, the names of
    its kinds and modes, the texts of JSON errors, [%q], the file system and
    [strings.ToLower].  A report is a record of what the code reads of it. *)

From Stdlib Require Import ZArith Lia Ascii.
From stdpp Require Import base gmap strings list sorting.
From S2P Require Import Prelude GoStr Fence Json Oneshot Paths Registry PathChecks Judge.
Open Scope sp4rk_scope.
Open Scope Z_scope.

(** ** Reports *)

Inductive Lang := LangBash | LangPowerShell | LangOther (name : string).
Inductive EffectKind :=
| KindPrivEsc | KindCredAccess | KindNetEgress | KindNetIngress | KindCodeExec | KindProcSpawn
| KindFSRead | KindFSWrite | KindFSMeta | KindEnvWrite | KindOther (name : string).
Inductive EffectMode := ModeDirect | ModeOther (name : string).
#[export] Instance EffectKind_eq_dec : EqDecision EffectKind.
Proof. solve_decision. Defined.
#[export] Instance EffectMode_eq_dec : EqDecision EffectMode.
Proof. solve_decision. Defined.
#[export] Instance Lang_eq_dec : EqDecision Lang.
Proof. solve_decision. Defined.

Record Effect := mkEffect {
  e_Kind : EffectKind;
  e_Mode : EffectMode;
  e_Certainty : string;
  e_IsTop : bool;          (** [Target.IsTop()] *)
  e_Targets : list string; (** [Target.Targets()] *)
  e_Reversible : bool;
  e_Key : string;          (** [Key()] *)
}.
Record Score := mkScore {
  sc_Destructiveness : string; sc_Irreversibility : string; sc_Breadth : string;
  sc_Influence : string; sc_Exfil : string; sc_Confidence : Z; sc_Reversible : bool; sc_Grade : string;
  sc_ExfilPairs : list (Effect * Effect);
  sc_CradleFlows : list (Effect * Effect);
  sc_IngestFlows : list (Effect * Effect);
}.
Record CallRedirect := mkRedirect { rd_Op : string; rd_Target : string; rd_Known : bool }.
Record CommandCall := mkCall { cc_Resolved : string; cc_Args : list string; cc_Redirs : list CallRedirect }.
Record Report := mkReport {
  rp_Lang : string; rp_Top : bool; rp_Conservative : bool; rp_Reason : string; rp_Commands : Z;
  rp_Resolution : string * string * string;             (** invoked, kind, name *)
  rp_Effects : list Effect;
  rp_Score : Score;
  rp_Destructive : list (string * string * string);     (** command, spec, class *)
  rp_CommandCalls : list CommandCall;
  rp_Canonical : option (list Effect);                  (** the effects of [Canonical] *)
}.

Record ShellCriterion := mkCriterion { cr_Fired : string; cr_Severity : JudgeSeverity; cr_Canonical : bool }.

(** ** Reason codes: [src/tools/safety.go] *)

Definition ReasonCodeCommandExfilFlow := "command_exfil_flow".
Definition ReasonCodeCommandPrivilegeEscalation := "command_privilege_escalation".
Definition ReasonCodeCommandSystemWrite := "command_system_write".
Definition ReasonCodeCommandDestructiveOutsideRoots := "command_destructive_outside_roots".
Definition ReasonCodeCommandDownloadCradle := "command_download_cradle".
Definition ReasonCodeCommandUnboundedAnalysis := "command_unbounded_analysis".
Definition ReasonCodeCommandExternalContentIngest := "command_external_content_ingest".
Definition ReasonCodeCredentialAccess := "credential_access".
Definition ReasonCodeOutsideSessionRoots := "outside_session_roots".
Definition ReasonCodeCommandExecOutsideRoots := "command_exec_outside_roots".
Definition ReasonCodeCommandAnalysisUnavailable := "command_analysis_unavailable".

Definition canonicalReasonCodes : list string :=
  ["command_blacklist"; ReasonCodeCommandExfilFlow; ReasonCodeCommandPrivilegeEscalation; ReasonCodeCommandSystemWrite;
   ReasonCodeCommandDestructiveOutsideRoots; ReasonCodeCommandDownloadCradle; ReasonCodeCommandAnalysisUnavailable;
   "ssrf_private_address"; "ssrf_protection_degraded"; "unassessable_url"; "unassessable_path"; "symlink_escape"; "git_internal_path"].
Definition IsCanonicalReasonCode (code : string) : bool := bool_decide (code ∈ canonicalReasonCodes).

(** ** Targets *)

Definition bs : string := "\".
Definition shellIsSedScript (t : string) : bool := has_prefix t "s/" && contains (str_drop 2 t) "/".
Definition shellPathLikeTarget (target : string) : bool :=
  if String.eqb target "" || String.eqb target "-" then false
  else if has_prefix target "-" || has_prefix target "+" then false
  else negb (shellIsSedScript target).

Definition isASCIILetter (b : ascii) : bool :=
  let n := nat_of_ascii b in ((97 <=? n) && (n <=? 122))%nat || ((65 <=? n) && (n <=? 90))%nat.
Definition shellIsWindowsAbsPath (s : string) : bool :=
  has_prefix s (bs +s+ bs) ||
  match s with
  | String a (String b (String c _)) => isASCIILetter a && Ascii.eqb b ":" && (is_backslash c || is_slash c)
  | _ => false
  end.
(** [filepath.IsAbs] and [filepath.Clean] are those of package path here. *)
Definition shellResolveTarget (target base : string) : option string :=
  if shellIsWindowsAbsPath target then Some (Clean target)
  else if has_prefix target "/" then Some (Clean target)
  else if negb (String.eqb base "") then Some (Join2 base target)
  else None.

Definition harmlessPOSIXDevices : list string := ["/dev/null"].
Definition shellIsHarmlessDevicePath (absPath : string) : bool :=
  if String.eqb absPath "" then false
  else if bool_decide (Clean absPath ∈ harmlessPOSIXDevices) then true
  else IsHarmlessDevicePath absPath.
Definition shellIsRawDeviceTarget (absPath : string) : bool :=
  if String.eqb absPath "" then false
  else let posix := Clean absPath in String.eqb posix "/dev" || has_prefix posix "/dev/".

Definition posixSystemPathPrefixes : list string := ["/etc"; "/usr"; "/boot"; "/bin"; "/sbin"; "/dev"].
Definition windowsSystemPathPrefixes : list string :=
  ["c:\windows"; "\windows"; "c:\program files"; "\program files"; "c:\program files (x86)"; "\program files (x86)"].
Definition under (sep p prefix : string) : bool := String.eqb p prefix || has_prefix p (prefix +s+ sep).
Fixpoint back_slashed (s : string) : string :=
  match s with "" => "" | String c r => String (if is_slash c then "\"%char else c) (back_slashed r) end.

(** ** Effects *)

Definition shellHasEffectKind (report : Report) (kind : EffectKind) : bool :=
  existsb (fun e => bool_decide (e_Kind e = kind)) (rp_Effects report).
Definition shellHasDestructiveClassDE (report : Report) : bool :=
  existsb (fun d => String.eqb (snd d) "D" || String.eqb (snd d) "E") (rp_Destructive report).
Definition is_direct (e : Effect) : bool := bool_decide (e_Mode e = ModeDirect).
Definition shellHasUnboundedWrite (report : Report) : bool :=
  existsb (fun e => bool_decide (e_Kind e = KindFSWrite) && is_direct e && e_IsTop e && negb (e_Reversible e)) (rp_Effects report).
Definition shellFSWriteKinds : list EffectKind := [KindFSWrite].
Definition shellFSAllKinds : list EffectKind := [KindFSRead; KindFSWrite; KindFSMeta].
Definition shellExecKinds : list EffectKind := [KindCodeExec; KindProcSpawn].
Definition shellEffectKindsHas (kinds : list EffectKind) (e : Effect) : bool := bool_decide (e_Kind e ∈ kinds).

Section analysis.
Variable lstat : bool -> list string -> Stat.
Variable to_lower : string -> string.
Variable kind_name : EffectKind -> string.
Variable mode_name : EffectMode -> string.
Variable quote : string -> string. (** [%q] *)
(** The message of the error of [json.Unmarshal]. *)
Variable json_error : string -> string.
(** [shellFlowshAnalyzer], and [AnalyzeWith] of the analyzer it returns. *)
Variable analyzer : (Lang -> string -> gmap string string -> Report) + string.

Definition shellIsSystemOrRawDevicePath (absPath : string) (lang : Lang) : bool :=
  if String.eqb absPath "" then false
  else
    let posix := Clean absPath in
    let system prefix := under sep posix prefix && negb (String.eqb prefix "/dev" && shellIsHarmlessDevicePath absPath) in
    if existsb system posixSystemPathPrefixes then true
    else if bool_decide (lang = LangBash) && has_prefix absPath "/" then false
    else
      let win := trim_prefix (back_slashed (to_lower absPath)) (bs +s+ bs +s+ "?" +s+ bs) in
      existsb (under bs win) windowsSystemPathPrefixes.

(** The concrete, path-shaped targets of an effect that resolve against [base]. *)
Definition resolved_targets (e : Effect) (base : string) : list string :=
  omap (fun t => if shellPathLikeTarget t then shellResolveTarget t base else None) (e_Targets e).

Definition shellSystemOrDeviceTargets (report : Report) (lang : Lang) : list string :=
  rp_Effects report ≫= fun e =>
    if negb (shellEffectKindsHas [KindFSWrite; KindFSMeta] e) || negb (is_direct e) || e_IsTop e then []
    else List.filter (fun abs => shellIsSystemOrRawDevicePath abs lang) (resolved_targets e "").

Definition resolution_base (ctx : PathCtx) (workDir : string) : string :=
  if String.eqb workDir "" then px_workspace ctx else workDir.
Definition in_roots (ctx : PathCtx) (abs : string) : bool := existsb (fun root => IsWithinRoot lstat to_lower ctx root abs) (SessionRoots ctx).
Definition shellOutsideRoots (ctx : PathCtx) (report : Report) (workDir : string) (kinds : list EffectKind) (directOnly : bool)
    : list (string * EffectKind) :=
  if bool_decide (SessionRoots ctx = []) then []
  else
    let base := resolution_base ctx workDir in
    rp_Effects report ≫= fun e =>
      if negb (shellEffectKindsHas kinds e) || e_IsTop e then []
      else if directOnly && negb (is_direct e) then []
      else map (fun abs => (abs, e_Kind e))
        (List.filter (fun abs => negb (shellIsHarmlessDevicePath abs) && negb (in_roots ctx abs)) (resolved_targets e base)).
Definition shellOutsideRootExecTargets (ctx : PathCtx) (report : Report) (workDir : string) : bool :=
  negb (bool_decide (shellOutsideRoots ctx report workDir shellExecKinds true = [])).
Definition shellOutsideRootDirectNonSystemTargets (ctx : PathCtx) (report : Report) (workDir : string) (lang : Lang) : list string :=
  omap (fun t =>
    let '(path, kind) := t in
    if bool_decide (kind ∈ [KindFSWrite; KindFSMeta])
    then if shellIsSystemOrRawDevicePath path lang then None else Some path
    else if shellIsRawDeviceTarget path then None else Some path)
  (shellOutsideRoots ctx report workDir shellFSAllKinds true).

(** ** Criteria *)

Definition nonempty {A} (l : list A) : bool := match l with [] => false | _ => true end.

(** Each criterion with the condition it is fired on, in order. *)
Definition conditions (ctx : PathCtx) (workDir : string) (lang : Lang) (report : Report) : list (bool * ShellCriterion) :=
  let hasExfilPair := nonempty (sc_ExfilPairs (rp_Score report)) in
  let unbounded := rp_Top report || rp_Conservative report in
  let unboundedWrite := shellHasUnboundedWrite report in
  let bounded := negb unbounded && negb unboundedWrite in
  let hasCradleFlow := nonempty (sc_CradleFlows (rp_Score report)) in
  let hasIngestFlow := nonempty (sc_IngestFlows (rp_Score report)) in
  [(hasExfilPair, mkCriterion ReasonCodeCommandExfilFlow JudgeSeverityHard true);
   (shellHasEffectKind report KindPrivEsc, mkCriterion ReasonCodeCommandPrivilegeEscalation JudgeSeverityHard true);
   (nonempty (shellSystemOrDeviceTargets report lang), mkCriterion ReasonCodeCommandSystemWrite JudgeSeverityHard true);
   (shellHasDestructiveClassDE report && negb (sc_Reversible (rp_Score report)) &&
      nonempty (shellOutsideRoots ctx report workDir shellFSWriteKinds false),
    mkCriterion ReasonCodeCommandDestructiveOutsideRoots JudgeSeverityHard true);
   (hasCradleFlow, mkCriterion ReasonCodeCommandDownloadCradle JudgeSeverityHard true);
   (unboundedWrite || (unbounded && negb hasCradleFlow), mkCriterion ReasonCodeCommandUnboundedAnalysis JudgeSeverityHard false);
   (hasIngestFlow, mkCriterion ReasonCodeCommandExternalContentIngest JudgeSeverityHard false);
   (shellHasEffectKind report KindCredAccess && negb hasExfilPair, mkCriterion ReasonCodeCredentialAccess JudgeSeveritySoft false);
   (nonempty (shellOutsideRootDirectNonSystemTargets ctx report workDir lang), mkCriterion ReasonCodeOutsideSessionRoots JudgeSeveritySoft false);
   (bounded && shellOutsideRootExecTargets ctx report workDir, mkCriterion ReasonCodeCommandExecOutsideRoots JudgeSeverityHard false)].
Definition fired (l : list (bool * ShellCriterion)) : list ShellCriterion := map snd (List.filter fst l).

Definition is_hard (s : JudgeSeverity) : bool := match s with JudgeSeverityHard => true | JudgeSeveritySoft => false end.
(** [shellWinningCriterion] of [c :: rest]. *)
Definition shellWinningCriterion (c : ShellCriterion) (rest : list ShellCriterion) : ShellCriterion :=
  fold_left (fun winner c => if is_hard (cr_Severity c) && negb (is_hard (cr_Severity winner)) then c else winner) rest c.

Definition shellCriterionReason (code : string) : string :=
  if String.eqb code ReasonCodeCommandExfilFlow then
    "Shell analysis: secret/credential read paired with tainted network egress (exfiltration flow)"
  else if String.eqb code ReasonCodeCommandPrivilegeEscalation then "Shell analysis: privilege escalation effect detected"
  else if String.eqb code ReasonCodeCommandSystemWrite then
    "Shell analysis: filesystem write/metadata effect on a system path or raw device"
  else if String.eqb code ReasonCodeCommandDestructiveOutsideRoots then
    "Shell analysis: irreversible destructive command writing outside the session roots"
  else if String.eqb code ReasonCodeCommandDownloadCradle then
    "Shell analysis: downloaded network content reaches code execution (download cradle)"
  else if String.eqb code ReasonCodeCommandUnboundedAnalysis then
    "Shell analysis: command could not be bounded by static analysis — top/conservative without a download-cradle flow, or an irreversible write whose target could not be resolved"
  else if String.eqb code ReasonCodeCommandExternalContentIngest then
    "Shell analysis: download client wrote fetched external content to a file (external-content ingest)"
  else if String.eqb code ReasonCodeCredentialAccess then
    "Shell analysis: credential/secret material accessed without a paired egress"
  else if String.eqb code ReasonCodeCommandExecOutsideRoots then "Shell analysis: code execution/process spawn outside the session roots"
  else if String.eqb code ReasonCodeOutsideSessionRoots then "Shell analysis: filesystem effect outside the session roots"
  else "Shell analysis: criterion " +s+ code +s+ " fired".

(** ** The verification marker *)

Definition shellVerificationDrivers : list (string * option (list string)) :=
  [("go", Some ["test"; "vet"; "build"; "fmt"; "list"; "env"; "version"; "doc"]); ("gofmt", None); ("gofumpt", None);
   ("golangci-lint", Some ["run"; "fmt"; "version"]); ("tsc", None); ("vitest", None); ("jest", None); ("eslint", None);
   ("prettier", None); ("rg", None); ("ripgrep", None); ("npm", Some ["test"; "run"])].
Definition shellVerificationPlumbing : list string :=
  ["cd"; "pwd"; "echo"; "printf"; "ls"; "cat"; "head"; "tail"; "grep"; "egrep"; "fgrep"; "sed"; "find"; "wc"; "file"; "which";
   "jq"; "sort"; "uniq"; "cut"; "tr"; "column"; "basename"; "dirname"; "realpath"; "date"; "sleep"; "true"; "false"; "test"; "["].
Definition shellDriverForbiddenFlags : list (string * list string) :=
  [("rg", ["--pre"; "--pre-exec"]); ("ripgrep", ["--pre"; "--pre-exec"]);
   ("find", ["-exec"; "-execdir"; "-ok"; "-okdir"; "-delete"; "-fprint"; "-fprintf"; "-fls"]); ("go", ["-mod=mod"])].
Definition shellVerificationSafeEnv : list (string * list string) :=
  [("CI", ["1"; "true"; "false"; ""]); ("NO_COLOR", ["1"; "true"; ""]); ("TERM", ["dumb"]);
   ("GOFLAGS", ["-mod=readonly"; "-mod=vendor"]); ("GOPROXY", ["off"]); ("GOWORK", ["off"])].
Definition shellDependencyManifests : list string :=
  ["go.mod"; "go.sum"; "go.work"; "go.work.sum"; "package.json"; "package-lock.json"; "npm-shrinkwrap.json"; "yarn.lock";
   "pnpm-lock.yaml"; "bun.lockb"; "cargo.toml"; "cargo.lock"; "requirements.txt"; "pyproject.toml"; "pipfile"; "pipfile.lock";
   "poetry.lock"; "composer.json"; "composer.lock"; "gemfile"; "gemfile.lock"].
Fixpoint table_get {A} (k : string) (l : list (string * A)) : option A :=
  match l with [] => None | (k', v) :: l => if String.eqb k k' then Some v else table_get k l end.

(** The submatches of [shellEnvAssignRe], every match in turn; [skip] bytes of a
    match are left, and [start] tells whether a name may begin here: at the
    beginning of the text, or behind a byte that belongs to no name and to no
    match. *)
Definition name_start (c : ascii) : bool := isASCIILetter c || Ascii.eqb c "_".
Definition name_char (c : ascii) : bool := name_start c || is_digit c.
Definition value_char (c : ascii) : bool :=
  negb (re_s c || Ascii.eqb c ";" || Ascii.eqb c "&" || Ascii.eqb c "|" || Ascii.eqb c "(" || Ascii.eqb c ")" || Ascii.eqb c "<" || Ascii.eqb c ">").
Fixpoint span (p : ascii -> bool) (s : string) : string * string :=
  match s with
  | "" => ("", "")
  | String c r => if p c then let '(a, b) := span p r in (String c a, b) else ("", s)
  end.
Definition assignment_at (s : string) : option (string * string) :=
  match s with
  | String c r =>
      if name_start c then
        match span name_char r with
        | (name, String e r) =>
            if Ascii.eqb e "=" then match fst (span value_char r) with "" => None | value => Some (String c name, value) end
            else None
        | _ => None
        end
      else None
  | "" => None
  end.
Fixpoint assignments (skip : nat) (start : bool) (s : string) : list (string * string) :=
  match s with
  | "" => []
  | String c r =>
      match skip with
      | S skip => assignments skip false r
      | O =>
          match (if start then assignment_at s else None) with
          | Some (name, value) => (name, value) :: assignments (String.length name + String.length value) false r
          | None => assignments 0 (negb (name_char c)) r
          end
      end
  end.
Definition shellEnvAssignRe (command : string) : list (string * string) := assignments 0 true command.

Definition shellFirstFlagFreeOperand (args : list string) : option string :=
  List.find (fun a => negb (String.eqb a "" || has_prefix a "-")) args.
Definition shellFirstOperand (args : list string) (allowed : option (list string)) : bool :=
  match allowed with
  | None => true
  | Some allowed => match shellFirstFlagFreeOperand args with Some a => bool_decide (a ∈ allowed) | None => true end
  end.
Definition shellDriverArgsScreened (resolved : string) (args : list string) : bool :=
  let forbidden := default [] (table_get resolved shellDriverForbiddenFlags) in
  forallb (fun a => forallb (fun f => negb (String.eqb a f || (has_prefix f "--" && has_prefix a (f +s+ "=")))) forbidden) args.

Definition shellMarkerTargetInRoots (ctx : PathCtx) (base target : string) : bool :=
  match shellResolveTarget target base with
  | None => false
  | Some abs => if shellIsHarmlessDevicePath abs then true else in_roots ctx abs
  end.
Definition shellIsDependencyManifest (target : string) : bool :=
  if String.eqb target "" then false
  else bool_decide (to_lower (Base (trim_prefix (trim_prefix target bs) "/")) ∈ shellDependencyManifests).

Definition pathKinds (k : EffectKind) : bool :=
  match k with KindFSRead | KindFSWrite | KindFSMeta | KindProcSpawn | KindCodeExec => true | _ => false end.
Definition marker_effect (ctx : PathCtx) (workDir : string) (e : Effect) : bool :=
  if bool_decide (e_Kind e ∈ [KindNetEgress; KindNetIngress]) then false
  else if e_IsTop e then bool_decide (e_Kind e = KindCodeExec)
  else if negb (pathKinds (e_Kind e)) then true
  else
    let manifestWrite := bool_decide (e_Kind e ∈ [KindFSWrite; KindFSMeta]) in
    forallb (fun t =>
      if negb (shellPathLikeTarget t) then true
      else if manifestWrite && shellIsDependencyManifest t then false
      else shellMarkerTargetInRoots ctx workDir t) (e_Targets e).
Definition shellMarkerEffectsSafe (ctx : PathCtx) (workDir : string) (report : Report) : bool :=
  forallb (marker_effect ctx workDir) (rp_Effects report).

Definition all_digits (s : string) : bool := negb (has_char (fun c => negb (is_digit c)) s).
Definition shellIsFdTarget (t : string) : bool := if String.eqb t "" then false else all_digits (trim_prefix t "&").

Definition shellRedirectMarkerSafe (ctx : PathCtx) (base : string) (r : CallRedirect) : bool :=
  if negb (rd_Known r) || String.eqb (rd_Target r) "" then false
  else
    let posix := Clean (rd_Target r) in
    if under sep posix "/dev/tcp" || under sep posix "/dev/udp" then false
    else if shellIsFdTarget (rd_Target r) || negb (shellPathLikeTarget (rd_Target r)) then true
    else
      let write := contains (rd_Op r) ">" && negb (String.eqb (rd_Op r) "<") in
      if write && shellIsDependencyManifest (rd_Target r) then false
      else shellMarkerTargetInRoots ctx base (rd_Target r).

(** The operand an argument stands for; [None]: a flag without a path. *)
Definition operand_of (a : string) : option string :=
  if has_prefix a "-" then
    match cut_first "=" a with
    | Some (_, operand) =>
        if String.eqb operand "" || (negb (has_prefix operand "/") && negb (shellIsWindowsAbsPath operand)) then None else Some operand
    | None => None
    end
  else Some a.
Definition arg_in_roots (ctx : PathCtx) (base a : string) : bool :=
  match operand_of a with
  | None => true
  | Some operand =>
      if shellIsFdTarget operand || negb (shellPathLikeTarget operand) then true
      else shellMarkerTargetInRoots ctx base operand
  end.
Definition shellCallOperandsInRoots (ctx : PathCtx) (base : string) (call : CommandCall) : bool :=
  forallb (arg_in_roots ctx base) (cc_Args call) && forallb (shellRedirectMarkerSafe ctx base) (cc_Redirs call).

Definition is_driver (call : CommandCall) : bool :=
  if table_get (cc_Resolved call) shellVerificationDrivers is Some _ then true else false.
Definition marker_call (ctx : PathCtx) (base : string) (call : CommandCall) : bool :=
  match table_get (cc_Resolved call) shellVerificationDrivers with
  | Some allowedSubs => shellFirstOperand (cc_Args call) allowedSubs
  | None => bool_decide (cc_Resolved call ∈ shellVerificationPlumbing)
  end && shellDriverArgsScreened (cc_Resolved call) (cc_Args call) && shellCallOperandsInRoots ctx base call.
Definition shellMarkerCallsSafe (ctx : PathCtx) (workDir : string) (report : Report) : bool :=
  forallb (marker_call ctx (resolution_base ctx workDir)) (rp_CommandCalls report) && existsb is_driver (rp_CommandCalls report).

Definition shellMarkerEnvSafe (command : string) (report : Report) : bool :=
  let envNames := rp_Effects report ≫= fun e => if bool_decide (e_Kind e <> KindEnvWrite) || e_IsTop e then [] else e_Targets e in
  let values name := map snd (List.filter (fun nv => String.eqb (fst nv) name)
    (map (fun nv => (fst nv, trim_chars (fun c => Ascii.eqb c "034") (snd nv))) (shellEnvAssignRe command))) in
  forallb (fun name =>
    match table_get name shellVerificationSafeEnv with
    | None => false
    | Some allowed => nonempty (values name) && forallb (fun v => bool_decide (v ∈ allowed)) (values name)
    end) envNames.

Definition shellWorkspaceScopedVerification (ctx : PathCtx) (workDir command : string) (report : Report) : bool :=
  if rp_Top report || negb (nonempty (rp_CommandCalls report)) then false
  else if bool_decide (SessionRoots ctx = []) then false
  else if negb (Z.of_nat (length (rp_CommandCalls report)) =? rp_Commands report) then false
  else shellMarkerEffectsSafe ctx workDir report && (shellMarkerCallsSafe ctx workDir report && shellMarkerEnvSafe command report).

(** ** The signature *)

(** What is seen the first time, sorted: a loop over a [seen] map, then
    [sort.Strings]. *)
Definition distinct (l : list string) : list string := remove_dups l.
Definition sorted (l : list string) : list string := merge_sort str_le l.
Definition call_token (call : CommandCall) : option string :=
  match table_get (cc_Resolved call) shellVerificationDrivers with
  | None => None
  | Some allowedSubs =>
      if String.eqb (cc_Resolved call) "" then None
      else Some (match allowedSubs, shellFirstFlagFreeOperand (cc_Args call) with
                 | Some _, Some sub => cc_Resolved call +s+ ":" +s+ sub
                 | _, _ => cc_Resolved call
                 end)
  end.
Definition effect_token (e : Effect) : string := e_Key e +s+ (if e_Reversible e then "|R" else "|I").
Definition shellEffectSignature (report : Report) (criteria : list ShellCriterion) (marker : bool) : string :=
  let bins := sorted (distinct (omap call_token (rp_CommandCalls report))) in
  let fx := sorted (distinct (map effect_token (default [] (rp_Canonical report)))) in
  let codes := sorted (distinct (map cr_Fired criteria)) in
  join "|" ["sig1"; "bins=" +s+ join "," bins; "fx=" +s+ join ";" fx; "crit=" +s+ join "," codes;
            "B=" +s+ (if marker then "true" else "false")].

(** ** Digest and outcome *)

Definition ShellDigestSchemaVersion : string := "sp4rk-shell-analysis/v4".
Record ShellEffectDigest := mkEffectDigest {
  ed_Kind : string; ed_Mode : string; ed_Certainty : string; ed_Targets : list string; ed_Arbitrary : bool; ed_Reversible : bool }.
Record ShellScoreDigest := mkScoreDigest {
  sd_Destructiveness : string; sd_Irreversibility : string; sd_Breadth : string; sd_Influence : string; sd_Exfil : string;
  sd_Confidence : Z; sd_Reversible : bool; sd_Grade : string }.
Record ShellAnalysisDigest := mkDigest {
  dg_SchemaVersion : string; dg_Lang : string; dg_Top : bool; dg_Conservative : bool; dg_Reason : string; dg_Commands : Z;
  dg_Resolution : string * string * string;
  dg_Effects : list ShellEffectDigest;
  dg_Score : ShellScoreDigest;
  dg_ExfilPairs : list (string * string); dg_CradleFlows : list (string * string); dg_IngestFlows : list (string * string);
  dg_Destructive : list (string * string * string);
  dg_Criteria : list ShellCriterion;
  dg_WorkspaceScopedVerification : bool;
  dg_Signature : string;
}.
Definition flow_keys (p : Effect * Effect) : string * string := (e_Key (fst p), e_Key (snd p)).
Definition effect_digest (e : Effect) : ShellEffectDigest :=
  mkEffectDigest (kind_name (e_Kind e)) (mode_name (e_Mode e)) (e_Certainty e) (e_Targets e) (e_IsTop e) (e_Reversible e).
Definition newShellAnalysisDigest (ctx : PathCtx) (workDir command : string) (report : Report) (criteria : list ShellCriterion)
    : ShellAnalysisDigest :=
  let marker := shellWorkspaceScopedVerification ctx workDir command report in
  let sc := rp_Score report in
  mkDigest ShellDigestSchemaVersion (rp_Lang report) (rp_Top report) (rp_Conservative report) (rp_Reason report) (rp_Commands report)
    (rp_Resolution report) (map effect_digest (rp_Effects report))
    (mkScoreDigest (sc_Destructiveness sc) (sc_Irreversibility sc) (sc_Breadth sc) (sc_Influence sc) (sc_Exfil sc) (sc_Confidence sc)
      (sc_Reversible sc) (sc_Grade sc))
    (map flow_keys (sc_ExfilPairs sc)) (map flow_keys (sc_CradleFlows sc)) (map flow_keys (sc_IngestFlows sc))
    (rp_Destructive report) criteria marker (shellEffectSignature report criteria marker).

Record ShellAnalysis := mkAnalysis { sa_Digest : ShellAnalysisDigest; sa_Outcome : JudgeOutcome; sa_Canonical : bool }.

Definition evaluateShellReport (ctx : PathCtx) (workDir command : string) (lang : Lang) (report : Report) : ShellAnalysis :=
  let criteria := fired (conditions ctx workDir lang report) in
  let digest := newShellAnalysisDigest ctx workDir command report criteria in
  match criteria with
  | c :: rest =>
      let winner := shellWinningCriterion c rest in
      mkAnalysis digest (mkOutcome false (shellCriterionReason (cr_Fired winner)) (cr_Severity winner) (cr_Fired winner)) (cr_Canonical winner)
  | [] => mkAnalysis digest (mkOutcome true "" JudgeSeverityHard "") false
  end.

(** ** Entry points *)

Definition shellToolLangs (toolName : string) : option Lang :=
  if String.eqb toolName "bash_exec" then Some LangBash
  else if String.eqb toolName "posh_exec" then Some LangPowerShell
  else None.
Definition lang_string (l : Lang) : string :=
  match l with LangBash => "bash" | LangPowerShell => "powershell" | LangOther s => s end.

(** The context: what the path checks read of it, the attached analysis, the
    variable bindings. *)
Record ShellCtx := mkShellCtx {
  sx_paths : PathCtx;
  sx_analysis : option (ShellAnalysis + string);
  sx_vars : gmap string string;
}.
Definition WithShellAnalysis (ctx : ShellCtx) (a : ShellAnalysis + string) : ShellCtx := mkShellCtx (sx_paths ctx) (Some a) (sx_vars ctx).
Definition WithShellVarBindings (ctx : ShellCtx) (vars : gmap string string) : ShellCtx :=
  if decide (vars = ∅) then ctx else mkShellCtx (sx_paths ctx) (sx_analysis ctx) vars.

Definition AnalyzeShellCommandForJudgeWithDialect (ctx : ShellCtx) (lang : Lang) (input : string) : ShellAnalysis + string :=
  if bool_decide (lang <> LangBash) && bool_decide (lang <> LangPowerShell) then
    inr ("shell analysis: unsupported dialect " +s+ quote (lang_string lang) +s+ " (want bash or powershell)")
  else match unmarshal_string_field "command" input, unmarshal_string_field "working_directory" input with
  | Some command, Some workDir =>
      match analyzer with
      | inl AnalyzeWith => inl (evaluateShellReport (sx_paths ctx) workDir command lang (AnalyzeWith lang command (sx_vars ctx)))
      | inr err => inr ("shell analysis: flowsh analyzer init: " +s+ err)
      end
  | _, _ => inr ("shell analysis: parse shell tool input: " +s+ json_error input)
  end.
Definition AnalyzeShellCommandForJudge (ctx : ShellCtx) (toolName input : string) : ShellAnalysis + string :=
  match shellToolLangs toolName with
  | Some lang => AnalyzeShellCommandForJudgeWithDialect ctx lang input
  | None => inr ("shell analysis: unsupported tool " +s+ quote toolName +s+ " (want bash_exec or posh_exec)")
  end.
Definition ShellJudgeOutcome (ctx : ShellCtx) : JudgeOutcome :=
  match sx_analysis ctx with
  | Some (inr err) =>
      mkOutcome false ("deterministic shell analysis is unavailable: " +s+ err) JudgeSeverityHard ReasonCodeCommandAnalysisUnavailable
  | Some (inl analysis) => sa_Outcome analysis
  | None => mkOutcome false "" JudgeSeverityHard ""
  end.
End analysis.
