(* ===== verification/ShellInvocation.v ===== *)
(** * How a shell command is launched: src/tools/shell_invocation.go

    A shell kind of a closed set, and a launch: a binary and an argument
    template of which one element stands for the command.  A launch that
    validates passes the command on verbatim, as one argument, to a shell whose
    language the analysis reads.  [%q] is a parameter. *)

From Stdlib Require Import ZArith Lia Ascii.
From stdpp Require Import base gmap strings list.
From S2P Require Import Prelude GoStr ShellAnalysis.
Open Scope sp4rk_scope.
Open Scope Z_scope.

Definition bash_kinds : list string := ["bash"; "sh"; "zsh"; "ksh"; "dash"].
Definition posh_kinds : list string := ["powershell"; "pwsh"].
Definition ShellCommandPlaceholder : string := "{command}".

Inductive ShellFamily := ShellFamilyBash | ShellFamilyPowerShell.
Definition Family (k : string) : option ShellFamily :=
  if bool_decide (k ∈ bash_kinds) then Some ShellFamilyBash
  else if bool_decide (k ∈ posh_kinds) then Some ShellFamilyPowerShell
  else None.
Definition ShellKindToAnalysisLang (k : string) : option Lang :=
  match Family k with
  | Some ShellFamilyBash => Some LangBash
  | Some ShellFamilyPowerShell => Some LangPowerShell
  | None => None
  end.
(** [declared]: the kind of a tool that implements [DeclaredShellKinder]. *)
Definition ShellAnalysisLangForTool (declared : option string) (toolName : string) : option Lang :=
  match declared ≫= ShellKindToAnalysisLang with
  | Some lang => Some lang
  | None => shellToolLangs toolName
  end.

Record ShellInvocation := mkInvocation { Binary : string; Args : list string; Kind : string }.

Section invocation.
Variable quote : string -> string. (** [%q] *)

Definition ParseShellKind (s : string) : string + string :=
  if bool_decide (s ∈ bash_kinds ++ posh_kinds) then inl s
  else inr ("unsupported shell kind " +s+ quote s +s+ " (want one of: bash, sh, zsh, ksh, dash, powershell, pwsh)").

(** The loop over the arguments: the placeholders counted, or the error. *)
Fixpoint count_placeholders (n : Z) (args : list string) : Z + string :=
  match args with
  | [] => inl n
  | arg :: args =>
      if String.eqb arg ShellCommandPlaceholder then count_placeholders (n + 1) args
      else if contains arg ShellCommandPlaceholder then
        inr ("shell invocation: " +s+ ShellCommandPlaceholder +s+ " must be a standalone argv element, not embedded in " +s+ quote arg)
      else count_placeholders n args
  end.
(** [None]: the launch is well-formed. *)
Definition Validate (inv : ShellInvocation) : option string :=
  if String.eqb (trim_space (Binary inv)) "" then Some "shell invocation: binary is required"
  else if String.eqb (Binary inv) ShellCommandPlaceholder then
    Some ("shell invocation: binary must not be the " +s+ ShellCommandPlaceholder +s+ " placeholder")
  else if bool_decide (Args inv = []) then
    Some ("shell invocation: args must contain the " +s+ ShellCommandPlaceholder +s+ " placeholder")
  else match count_placeholders 0 (Args inv) with
  | inr err => Some err
  | inl placeholders =>
      if negb (placeholders =? 1) then
        Some ("shell invocation: args must contain exactly one " +s+ ShellCommandPlaceholder +s+ " element, got " +s+ itoa placeholders)
      else match ParseShellKind (Kind inv) with
      | inr err => Some ("shell invocation: " +s+ err)
      | inl _ => None
      end
  end.

Definition IsZero (inv : ShellInvocation) : bool :=
  String.eqb (Binary inv) "" && bool_decide (Args inv = []) && String.eqb (Kind inv) "".
Definition Equal (a b : ShellInvocation) : bool :=
  String.eqb (Binary a) (Binary b) && String.eqb (Kind a) (Kind b) && bool_decide (Args a = Args b).

Fixpoint render_args (command : string) (replaced : bool) (args : list string) : list string :=
  match args with
  | [] => if replaced then [] else [command]
  | arg :: args =>
      if String.eqb arg ShellCommandPlaceholder && negb replaced then command :: render_args command true args
      else arg :: render_args command replaced args
  end.
Definition Argv (inv : ShellInvocation) (command : string) : list string := render_args command false (Args inv).

Definition quoted (s : string) : string := if contains s " " || contains s (String "009" "") then quote s else s.
Definition DisplayCommand (inv : ShellInvocation) : string :=
  join " " (quoted (Binary inv) ::
    map (fun arg => if String.eqb arg ShellCommandPlaceholder then "<" +s+ "command>" else quoted arg) (Args inv)).

Definition DefaultBashInvocation : ShellInvocation := mkInvocation "bash" ["-c"; ShellCommandPlaceholder] "bash".
Definition DefaultPoshInvocation : ShellInvocation :=
  mkInvocation "powershell.exe" ["-NoProfile"; "-NonInteractive"; "-Command"; ShellCommandPlaceholder] "powershell".

(** ** The command crosses verbatim *)

Lemma count_placeholders_spec n args m :
  count_placeholders n args = inl m ->
  m = n + Z.of_nat (length (List.filter (String.eqb ShellCommandPlaceholder) args)) /\
  forall a, a ∈ args -> a = ShellCommandPlaceholder \/ contains a ShellCommandPlaceholder = false.
Proof.
  revert n. induction args as [|a args IH]; intros n; cbn [count_placeholders List.filter].
  { intros [= <-]. split; [simpl; lia|]. by intros a ?%elem_of_nil. }
  rewrite (String.eqb_sym ShellCommandPlaceholder a). destruct (String.eqb_spec a ShellCommandPlaceholder) as [->|Hne].
  - intros [-> Hf]%IH. split; [simpl length; lia|]. intros a [->|Ha]%elem_of_cons; [by left|by apply Hf].
  - destruct (contains a ShellCommandPlaceholder) eqn:E; [done|]. intros [-> Hf]%IH. split; [done|].
    intros b [->|Hb]%elem_of_cons; [by right|by apply Hf].
Qed.
Lemma render_args_absent command args :
  ShellCommandPlaceholder ∉ args -> render_args command true args = args.
Proof.
  induction args as [|a args IH]; intros Hn; cbn [render_args]; [done|]. apply not_elem_of_cons in Hn as [? ?].
  rewrite andb_false_r. by rewrite IH.
Qed.
Lemma render_args_once pre post command :
  ShellCommandPlaceholder ∉ pre -> ShellCommandPlaceholder ∉ post ->
  render_args command false (pre ++ ShellCommandPlaceholder :: post) = pre ++ command :: post.
Proof.
  intros Hpre Hpost. induction pre as [|a pre IH]; cbn [app render_args].
  { rewrite String.eqb_refl. cbn [andb negb]. by rewrite render_args_absent. }
  apply not_elem_of_cons in Hpre as [Ha Hpre]. rewrite (proj2 (String.eqb_neq _ _)) by done. cbn [andb]. by rewrite IH.
Qed.
Lemma one_occurrence args :
  length (List.filter (String.eqb ShellCommandPlaceholder) args) = 1%nat ->
  exists pre post, args = pre ++ ShellCommandPlaceholder :: post /\ ShellCommandPlaceholder ∉ pre /\ ShellCommandPlaceholder ∉ post.
Proof.
  assert (Hnone : forall l, length (List.filter (String.eqb ShellCommandPlaceholder) l) = 0%nat -> ShellCommandPlaceholder ∉ l).
  { intros l Hl Hin. apply nil_length_inv in Hl. apply (not_elem_of_nil ShellCommandPlaceholder). rewrite <- Hl.
    apply list_elem_of_In, filter_In. split; [by apply list_elem_of_In|apply String.eqb_refl]. }
  induction args as [|a args IH]; cbn [List.filter]; [done|]. destruct (String.eqb_spec ShellCommandPlaceholder a) as [<-|Hne].
  - cbn [length]. intros [= H]. exists [], args. split_and!; [done|apply not_elem_of_nil|by apply Hnone].
  - intros (pre & post & -> & H1 & H2)%IH. exists (a :: pre), post. split_and!; [done|by apply not_elem_of_cons|done].
Qed.
Lemma kinds_analysable k : k ∈ bash_kinds ++ posh_kinds -> exists lang, ShellKindToAnalysisLang k = Some lang.
Proof.
  unfold ShellKindToAnalysisLang, Family. intros [H|H]%elem_of_app.
  - rewrite bool_decide_eq_true_2 by done. by eexists.
  - destruct (bool_decide (k ∈ bash_kinds)); [by eexists|]. rewrite bool_decide_eq_true_2 by done. by eexists.
Qed.

Lemma Validate_spec inv :
  Validate inv = None ->
  exists pre post lang,
    Args inv = pre ++ ShellCommandPlaceholder :: post /\
    (forall a, a ∈ pre ++ post -> contains a ShellCommandPlaceholder = false) /\
    ShellKindToAnalysisLang (Kind inv) = Some lang /\ trim_space (Binary inv) <> "" /\ Binary inv <> ShellCommandPlaceholder /\
    forall command, Argv inv command = pre ++ command :: post.
Proof.
  unfold Validate. destruct (String.eqb_spec (trim_space (Binary inv)) ""); [done|].
  destruct (String.eqb_spec (Binary inv) ShellCommandPlaceholder); [done|]. destruct (bool_decide (Args inv = [])); [done|].
  destruct (count_placeholders 0 (Args inv)) as [m|] eqn:E; [|done]. destruct (Z.eqb_spec m 1) as [->|]; cbn [negb]; [|done].
  unfold ParseShellKind. destruct (bool_decide_reflect (Kind inv ∈ bash_kinds ++ posh_kinds)) as [Hk|]; [|done]. intros _.
  apply count_placeholders_spec in E as [Hm Hf]. destruct (one_occurrence (Args inv)) as (pre & post & Ha & H1 & H2); [lia|].
  destruct (kinds_analysable _ Hk) as [lang Hl]. exists pre, post, lang. split_and!; [done| |done|done|done|].
  - intros a Hin. destruct (Hf a) as [->|]; [|by apply elem_of_app in Hin as [?|?]|done].
    rewrite Ha. apply elem_of_app in Hin as [?|?]; apply elem_of_app; [by left|right; by right].
  - intros command. unfold Argv. rewrite Ha. by apply render_args_once.
Qed.
End invocation.

Example default_invocations :
  Validate (fun s => s) DefaultBashInvocation = None /\ Validate (fun s => s) DefaultPoshInvocation = None /\
  Argv DefaultBashInvocation "echo {command}" = ["-c"; "echo {command}"].
Proof. done. Qed.
