(* ===== verification/ShellFacts.v ===== *)
(** * What the analysis of a shell command promises

    When a command raises no criterion, and what the outcome of one that does
    says; what the verification marker guarantees; that the signature depends on
    the effects and not on their order. *)

From Stdlib Require Import ZArith Lia Ascii.
From stdpp Require Import base gmap strings list sorting.
From S2P Require Import Prelude GoStr Fence Json Oneshot Paths Registry PathChecks Judge ShellAnalysis.
Open Scope sp4rk_scope.
Open Scope Z_scope.

Lemma nonempty_false {A} (l : list A) : nonempty l = false <-> l = [].
Proof. destruct l; split; done. Qed.
Lemma nonempty_elem {A} (l : list A) : nonempty l = true <-> exists x, x ∈ l.
Proof.
  destruct l as [|x l]; cbn [nonempty].
  - split; [done|]. intros [x H]. by apply not_elem_of_nil in H.
  - split; [|done]. intros _. exists x. by left.
Qed.
Lemma empty_elem {A} (l : list A) : nonempty l = false <-> forall x, x ∉ l.
Proof. rewrite nonempty_false. split; [intros -> x; apply not_elem_of_nil|]. destruct l as [|x l]; [done|]. intros H. destruct (H x). by left. Qed.

(** ** The winner *)

Definition hard (c : ShellCriterion) : bool := is_hard (cr_Severity c).

(** The first hard criterion, else the first. *)
Lemma shellWinningCriterion_find c rest : shellWinningCriterion c rest = default c (List.find hard (c :: rest)).
Proof.
  unfold shellWinningCriterion. revert c. induction rest as [|d rest IH]; intros c; cbn [fold_left List.find].
  { by destruct (hard c). }
  rewrite IH. cbn [List.find]. unfold hard. destruct (is_hard (cr_Severity c)) eqn:Ec; cbn [negb].
  - rewrite andb_false_r. by rewrite Ec.
  - rewrite andb_true_r. destruct (is_hard (cr_Severity d)) eqn:Ed; [by rewrite Ed|]. rewrite Ec. by destruct (List.find _ rest).
Qed.
Lemma winner_elem c rest : shellWinningCriterion c rest ∈ c :: rest.
Proof.
  rewrite shellWinningCriterion_find. destruct (List.find hard (c :: rest)) as [w|] eqn:E; [|by left].
  apply find_some in E as [E _]. by apply list_elem_of_In.
Qed.
Lemma winner_soft c rest d : cr_Severity (shellWinningCriterion c rest) = JudgeSeveritySoft -> d ∈ c :: rest -> cr_Severity d = JudgeSeveritySoft.
Proof.
  rewrite shellWinningCriterion_find. destruct (List.find hard (c :: rest)) as [w|] eqn:E; intros Hs Hd.
  - apply find_some in E as [_ E]. unfold hard in E. simpl in Hs. by rewrite Hs in E.
  - eapply (find_none _ _) in E; [|by apply list_elem_of_In]. unfold hard in E. by destruct (cr_Severity d).
Qed.

Lemma fired_elem l c : c ∈ fired l <-> (true, c) ∈ l.
Proof.
  unfold fired. rewrite list_elem_of_fmap. split.
  - intros ([b c'] & -> & Hin). apply list_elem_of_In, filter_In in Hin as [Hin Hb]. cbn in Hb. subst b. by apply list_elem_of_In.
  - intros Hin. exists (true, c). split; [done|]. apply list_elem_of_In, filter_In. split; [by apply list_elem_of_In|done].
Qed.
Lemma fired_nil l : fired l = [] <-> Forall (fun p => fst p = false) l.
Proof.
  unfold fired. induction l as [|[b c] l IH]; [by split|]. cbn [List.filter fst]. destruct b; cbn [map].
  - split; [done|]. by intros [? _]%Forall_cons.
  - rewrite IH, Forall_cons. naive_solver.
Qed.

Section facts.
Variable lstat : bool -> list string -> Stat.
Variable to_lower : string -> string.
Local Notation system := (shellIsSystemOrRawDevicePath to_lower).
Local Notation conditions := (conditions lstat to_lower).
Local Notation outside_roots := (shellOutsideRoots lstat to_lower).

(** ** Targets *)

(** [abs] is a path an effect of the report is known to touch. *)
Definition touches (report : Report) (e : Effect) (base abs : string) : Prop :=
  e ∈ rp_Effects report /\ e_IsTop e = false /\
  exists t, t ∈ e_Targets e /\ shellPathLikeTarget t = true /\ shellResolveTarget t base = Some abs.
(** The bit bucket, or within a session root. *)
Definition in_place (ctx : PathCtx) (abs : string) : Prop :=
  shellIsHarmlessDevicePath abs = true \/ exists root, root ∈ SessionRoots ctx /\ IsWithinRoot lstat to_lower ctx root abs = true.

Lemma resolved_targets_elem e base abs :
  abs ∈ resolved_targets e base <-> exists t, t ∈ e_Targets e /\ shellPathLikeTarget t = true /\ shellResolveTarget t base = Some abs.
Proof.
  unfold resolved_targets. rewrite list_elem_of_omap. split; intros (t & Hin & H); exists t; (split; [done|]).
  - by destruct (shellPathLikeTarget t).
  - destruct H as [-> H]. done.
Qed.
Lemma not_in_place ctx abs :
  negb (shellIsHarmlessDevicePath abs) && negb (in_roots lstat to_lower ctx abs) = true <-> ~ in_place ctx abs.
Proof.
  unfold in_place, in_roots. rewrite andb_true_iff, !negb_true_iff. split.
  - intros [H1 H2] [H|(root & Hr & H)]; [congruence|]. apply Bool.not_true_iff_false in H2. apply H2, existsb_elem. eauto.
  - intros H. split; apply Bool.not_true_iff_false; intros H2; apply H; [by left|right]. by apply existsb_elem in H2.
Qed.
Lemma in_place_dec ctx abs : in_place ctx abs \/ ~ in_place ctx abs.
Proof.
  destruct (negb (shellIsHarmlessDevicePath abs) && negb (in_roots lstat to_lower ctx abs)) eqn:E; [right; by apply not_in_place|left].
  apply andb_false_iff in E as [E|E]; apply negb_false_iff in E; [by left|right]. by apply existsb_elem.
Qed.

Lemma shellHasEffectKind_iff report k : shellHasEffectKind report k = true <-> exists e, e ∈ rp_Effects report /\ e_Kind e = k.
Proof. unfold shellHasEffectKind. rewrite existsb_elem. by setoid_rewrite bool_decide_eq_true. Qed.

Lemma system_targets_elem report lang abs :
  abs ∈ shellSystemOrDeviceTargets to_lower report lang <->
  exists e, touches report e "" abs /\ e_Kind e ∈ [KindFSWrite; KindFSMeta] /\ e_Mode e = ModeDirect /\ system abs lang = true.
Proof.
  unfold shellSystemOrDeviceTargets. rewrite list_elem_of_bind. split.
  - intros (e & Hin & He). exists e. unfold shellEffectKindsHas, is_direct in Hin.
    destruct (bool_decide_reflect (e_Kind e ∈ [KindFSWrite; KindFSMeta])) as [Hk|]; cbn [negb orb] in Hin; [|by apply not_elem_of_nil in Hin].
    destruct (bool_decide_reflect (e_Mode e = ModeDirect)) as [Hm|]; cbn [negb orb] in Hin; [|by apply not_elem_of_nil in Hin].
    destruct (e_IsTop e) eqn:Ht; [by apply not_elem_of_nil in Hin|]. apply elem_of_List_filter in Hin as [Hin Hs].
    apply resolved_targets_elem in Hin. by repeat split.
  - intros (e & (He & Ht & Hin) & Hk & Hm & Hs). exists e. split; [|done]. unfold shellEffectKindsHas, is_direct.
    rewrite !bool_decide_eq_true_2 by done. cbn [negb orb]. rewrite Ht. apply elem_of_List_filter. by rewrite resolved_targets_elem.
Qed.
Lemma outside_elem ctx report workDir kinds directOnly abs k :
  (abs, k) ∈ outside_roots ctx report workDir kinds directOnly <->
  SessionRoots ctx <> [] /\ ~ in_place ctx abs /\
  exists e, touches report e (resolution_base ctx workDir) abs /\ e_Kind e = k /\ k ∈ kinds /\ (directOnly = true -> e_Mode e = ModeDirect).
Proof.
  unfold shellOutsideRoots. destruct (bool_decide_reflect (SessionRoots ctx = [])) as [Hr|Hr].
  { split; [intros H; by apply not_elem_of_nil in H|]. by intros [? _]. }
  rewrite list_elem_of_bind. split.
  - intros (e & Hin & He). unfold shellEffectKindsHas, is_direct in Hin.
    destruct (bool_decide_reflect (e_Kind e ∈ kinds)) as [Hk|]; cbn [negb orb] in Hin; [|by apply not_elem_of_nil in Hin].
    destruct (e_IsTop e) eqn:Ht; [by apply not_elem_of_nil in Hin|].
    destruct (directOnly && negb (bool_decide (e_Mode e = ModeDirect))) eqn:Ed; [by apply not_elem_of_nil in Hin|].
    apply list_elem_of_fmap in Hin as (abs' & [= -> ->] & Hin). apply elem_of_List_filter in Hin as [Hin Hp].
    split; [done|]. split; [by apply not_in_place|]. exists e. apply resolved_targets_elem in Hin. split; [by repeat split|].
    split_and!; [done|done|]. intros ->. cbn [andb] in Ed. by apply negb_false_iff, bool_decide_eq_true in Ed.
  - intros (_ & Hp & e & (He & Ht & Hin) & <- & Hk & Hd). exists e. split; [|done]. unfold shellEffectKindsHas, is_direct.
    rewrite bool_decide_eq_true_2 by done. cbn [negb orb]. rewrite Ht.
    assert (Ed : directOnly && negb (bool_decide (e_Mode e = ModeDirect)) = false).
    { destruct directOnly; [|done]. by rewrite bool_decide_eq_true_2 by auto. }
    rewrite Ed. apply list_elem_of_fmap. exists abs. split; [done|]. apply elem_of_List_filter.
    split; [by apply resolved_targets_elem|by apply not_in_place].
Qed.

(** ** When nothing fires *)

Definition is_write (e : Effect) : Prop := e_Kind e = KindFSWrite \/ e_Kind e = KindFSMeta.
Definition destructive (report : Report) : Prop :=
  (exists d, d ∈ rp_Destructive report /\ (snd d = "D" \/ snd d = "E")) /\ sc_Reversible (rp_Score report) = false.

(** The analyzer bounded the command. *)
Definition bounded (report : Report) : Prop :=
  rp_Top report = false /\ rp_Conservative report = false /\
  forall e, e ∈ rp_Effects report -> e_Kind e = KindFSWrite -> e_Mode e = ModeDirect -> e_IsTop e = true -> e_Reversible e = true.
(** What an effect may touch when session roots are set. *)
Definition scoped (ctx : PathCtx) (workDir : string) (lang : Lang) (report : Report) : Prop :=
  SessionRoots ctx <> [] -> forall e abs, touches report e (resolution_base ctx workDir) abs ->
    (e_Kind e = KindFSWrite -> destructive report -> in_place ctx abs) /\
    (e_Mode e = ModeDirect ->
      (e_Kind e = KindFSRead -> in_place ctx abs \/ shellIsRawDeviceTarget abs = true) /\
      (is_write e -> in_place ctx abs \/ system abs lang = true) /\
      (e_Kind e = KindCodeExec \/ e_Kind e = KindProcSpawn -> in_place ctx abs)).
Definition unremarkable (ctx : PathCtx) (workDir : string) (lang : Lang) (report : Report) : Prop :=
  sc_ExfilPairs (rp_Score report) = [] /\ sc_CradleFlows (rp_Score report) = [] /\ sc_IngestFlows (rp_Score report) = [] /\
  bounded report /\
  (forall e, e ∈ rp_Effects report -> e_Kind e <> KindPrivEsc /\ e_Kind e <> KindCredAccess) /\
  (forall e abs, touches report e "" abs -> is_write e -> e_Mode e = ModeDirect -> system abs lang = false) /\
  scoped ctx workDir lang report.

Lemma kind_absent report k : shellHasEffectKind report k = false <-> forall e, e ∈ rp_Effects report -> e_Kind e <> k.
Proof.
  rewrite <- Bool.not_true_iff_false, shellHasEffectKind_iff. naive_solver.
Qed.
Lemma unbounded_write_false report :
  shellHasUnboundedWrite report = false <->
  forall e, e ∈ rp_Effects report -> e_Kind e = KindFSWrite -> e_Mode e = ModeDirect -> e_IsTop e = true -> e_Reversible e = true.
Proof.
  unfold shellHasUnboundedWrite, is_direct. rewrite <- Bool.not_true_iff_false, existsb_elem. split.
  - intros H e He Hk Hm Ht. destruct (e_Reversible e) eqn:Er; [done|]. destruct H. exists e. split; [done|].
    by rewrite !bool_decide_eq_true_2, Ht, Er.
  - intros H (e & He & Hb). rewrite !andb_true_iff, !bool_decide_eq_true, negb_true_iff in Hb. destruct Hb as [[[Hk Hm] Ht] Hr].
    specialize (H e He Hk Hm Ht). congruence.
Qed.
Lemma destructive_iff report :
  shellHasDestructiveClassDE report && negb (sc_Reversible (rp_Score report)) = true <-> destructive report.
Proof.
  unfold shellHasDestructiveClassDE, destructive. rewrite andb_true_iff, negb_true_iff, existsb_elem.
  setoid_rewrite orb_true_iff. by setoid_rewrite String.eqb_eq.
Qed.
Lemma is_write_elem e : e_Kind e ∈ [KindFSWrite; KindFSMeta] <-> is_write e.
Proof. rewrite !elem_of_cons. unfold is_write. split; [intros [?|[?|H]]; [by left|by right|by apply not_elem_of_nil in H]|naive_solver]. Qed.
Lemma all_kinds_elem e : e_Kind e ∈ shellFSAllKinds <-> e_Kind e = KindFSRead \/ is_write e.
Proof.
  unfold shellFSAllKinds. rewrite elem_of_cons, is_write_elem. done.
Qed.
Lemma exec_kinds_elem e : e_Kind e ∈ shellExecKinds <-> e_Kind e = KindCodeExec \/ e_Kind e = KindProcSpawn.
Proof.
  unfold shellExecKinds. rewrite !elem_of_cons. split; [|tauto]. intros [?|[?|H]]; [by left|by right|by apply not_elem_of_nil in H].
Qed.

(** The four conditions that look at paths. *)
Lemma system_write_false report lang :
  nonempty (shellSystemOrDeviceTargets to_lower report lang) = false <->
  forall e abs, touches report e "" abs -> is_write e -> e_Mode e = ModeDirect -> system abs lang = false.
Proof.
  rewrite empty_elem. setoid_rewrite system_targets_elem. setoid_rewrite is_write_elem. split.
  - intros H e abs Ht Hw Hm. apply Bool.not_true_iff_false. intros Hs. apply (H abs). eauto.
  - intros H abs (e & Ht & Hw & Hm & Hs). specialize (H e abs Ht Hw Hm). congruence.
Qed.
Lemma destructive_outside_false ctx workDir report :
  shellHasDestructiveClassDE report && negb (sc_Reversible (rp_Score report)) &&
    nonempty (outside_roots ctx report workDir shellFSWriteKinds false) = false <->
  (SessionRoots ctx <> [] -> forall e abs, touches report e (resolution_base ctx workDir) abs ->
    e_Kind e = KindFSWrite -> destructive report -> in_place ctx abs).
Proof.
  rewrite <- Bool.not_true_iff_false, andb_true_iff, destructive_iff, nonempty_elem. split.
  - intros H Hr e abs Ht Hk Hd. destruct (in_place_dec ctx abs) as [|Hn]; [done|]. destruct H. split; [done|].
    exists (abs, e_Kind e). apply outside_elem. split; [done|]. split; [done|]. exists e. split_and!; [done|done|rewrite Hk; by left|done].
  - intros H [Hd [[abs k] Hin]]. apply outside_elem in Hin as (Hr & Hp & e & Ht & <- & Hk & _). apply Hp, (H Hr e); [done| |done].
    by apply list_elem_of_singleton in Hk.
Qed.
Lemma non_system_targets_elem ctx report workDir lang abs :
  abs ∈ shellOutsideRootDirectNonSystemTargets lstat to_lower ctx report workDir lang <->
  exists k, (abs, k) ∈ outside_roots ctx report workDir shellFSAllKinds true /\
    (if bool_decide (k ∈ [KindFSWrite; KindFSMeta]) then system abs lang = false else shellIsRawDeviceTarget abs = false).
Proof.
  unfold shellOutsideRootDirectNonSystemTargets. rewrite list_elem_of_omap. split.
  - intros ([abs' k] & Hin & H). exists k. destruct (bool_decide (k ∈ [KindFSWrite; KindFSMeta])).
    + destruct (system abs' lang) eqn:E; [done|]. by injection H as ->.
    + destruct (shellIsRawDeviceTarget abs') eqn:E; [done|]. by injection H as ->.
  - intros (k & Hin & H). exists (abs, k). split; [done|]. destruct (bool_decide _); by rewrite H.
Qed.
Lemma scope_false ctx workDir lang report :
  nonempty (shellOutsideRootDirectNonSystemTargets lstat to_lower ctx report workDir lang) = false <->
  (SessionRoots ctx <> [] -> forall e abs, touches report e (resolution_base ctx workDir) abs -> e_Mode e = ModeDirect ->
    (e_Kind e = KindFSRead -> in_place ctx abs \/ shellIsRawDeviceTarget abs = true) /\
    (is_write e -> in_place ctx abs \/ system abs lang = true)).
Proof.
  rewrite empty_elem. setoid_rewrite non_system_targets_elem. split.
  - intros H Hr e abs Ht Hm.
    assert (Hin : ~ in_place ctx abs -> e_Kind e = KindFSRead \/ is_write e -> (abs, e_Kind e) ∈ outside_roots ctx report workDir shellFSAllKinds true).
    { intros Hn Hk. apply outside_elem. split; [done|]. split; [done|]. exists e. split_and!; [done|done|by apply all_kinds_elem|done]. }
    destruct (in_place_dec ctx abs) as [|Hn]; [tauto|]. split.
    + intros Hk. right. apply Bool.not_false_iff_true. intros Hd. apply (H abs). exists (e_Kind e). split; [apply Hin; tauto|]. by rewrite Hk.
    + intros Hw. right. apply Bool.not_false_iff_true. intros Hd. apply (H abs). exists (e_Kind e). split; [apply Hin; tauto|].
      rewrite bool_decide_eq_true_2; [done|by apply is_write_elem].
  - intros H abs (k & Hin & Hs). apply outside_elem in Hin as (Hr & Hp & e & Ht & <- & Hk & Hm). specialize (H Hr e abs Ht (Hm eq_refl)) as [H1 H2].
    apply all_kinds_elem in Hk as [Hk|Hw].
    + rewrite Hk in Hs. change (shellIsRawDeviceTarget abs = false) in Hs. destruct (H1 Hk); [done|congruence].
    + rewrite bool_decide_eq_true_2 in Hs by (by apply is_write_elem). destruct (H2 Hw); [done|congruence].
Qed.
Lemma exec_false ctx workDir report :
  shellOutsideRootExecTargets lstat to_lower ctx report workDir = false <->
  (SessionRoots ctx <> [] -> forall e abs, touches report e (resolution_base ctx workDir) abs -> e_Mode e = ModeDirect ->
    e_Kind e = KindCodeExec \/ e_Kind e = KindProcSpawn -> in_place ctx abs).
Proof.
  unfold shellOutsideRootExecTargets. rewrite negb_false_iff, bool_decide_eq_true, <- nonempty_false, empty_elem. split.
  - intros H Hr e abs Ht Hm Hk. destruct (in_place_dec ctx abs) as [|Hn]; [done|]. destruct (H (abs, e_Kind e)).
    apply outside_elem. split; [done|]. split; [done|]. exists e. split_and!; [done|done|by apply exec_kinds_elem|done].
  - intros H [abs k] Hin. apply outside_elem in Hin as (Hr & Hp & e & Ht & <- & Hk & Hm). apply Hp.
    apply (H Hr e abs Ht (Hm eq_refl)). by apply exec_kinds_elem.
Qed.

Lemma conditions_false ctx workDir lang report :
  Forall (fun p => fst p = false) (conditions ctx workDir lang report) <-> unremarkable ctx workDir lang report.
Proof.
  unfold ShellAnalysis.conditions. cbv zeta. rewrite !Forall_cons, Forall_nil. cbn [fst].
  rewrite system_write_false, destructive_outside_false, scope_false. rewrite orb_false_iff, !andb_false_iff, exec_false, !negb_false_iff, !kind_absent.
  rewrite unbounded_write_false, !nonempty_false, !orb_false_iff.
  unfold unremarkable, bounded, scoped. split.
  - intros (He & Hp & Hs & Hd & Hc & [Hw Hu] & Hi & Hcr & Hsc & Hx & _).
    assert (Hu' : rp_Top report = false /\ rp_Conservative report = false).
    { destruct Hu as [Hu|Hu]; [done|]. by rewrite Hc in Hu. }
    destruct Hu' as [Ht Hcon]. split_and!; [done|done|done|done|done|done| |done|].
    + intros e Hin. split; [by apply Hp|]. destruct Hcr as [Hcr|Hcr]; [by apply Hcr|by rewrite He in Hcr].
    + intros Hr e abs Hto. split; [by apply Hd|]. intros Hm. destruct (Hsc Hr e abs Hto Hm). split_and!; [done|done|].
      destruct Hx as [[Hx|Hx]|Hx]; [by rewrite Ht, Hcon in Hx| |by apply Hx].
      apply Bool.not_false_iff_true in Hx. destruct Hx. by apply unbounded_write_false.
  - intros (He & Hc & Hi & (Ht & Hcon & Hw) & Hk & Hs & Hsc). split_and!; [done|intros e Hin; by apply Hk|done| |done|done|by left|done| | | |done].
    + intros Hr e abs Hto. by apply Hsc.
    + left. intros e Hin. by apply Hk.
    + intros Hr e abs Hto Hm. destruct (Hsc Hr e abs Hto) as [_ H]. by destruct (H Hm) as (? & ? & ?).
    + right. intros Hr e abs Hto Hm. destruct (Hsc Hr e abs Hto) as [_ H]. by destruct (H Hm) as (? & ? & ?).
Qed.

(** ** When the reason is canonical *)

Definition canonical_cause (ctx : PathCtx) (workDir : string) (lang : Lang) (report : Report) : Prop :=
  sc_ExfilPairs (rp_Score report) <> [] \/ sc_CradleFlows (rp_Score report) <> [] \/
  (exists e, e ∈ rp_Effects report /\ e_Kind e = KindPrivEsc) \/
  (exists e abs, touches report e "" abs /\ is_write e /\ e_Mode e = ModeDirect /\ system abs lang = true) \/
  (destructive report /\ SessionRoots ctx <> [] /\
   exists e abs, touches report e (resolution_base ctx workDir) abs /\ e_Kind e = KindFSWrite /\ ~ in_place ctx abs).

Lemma conditions_codes ctx workDir lang report :
  Forall (fun p => cr_Canonical (snd p) = IsCanonicalReasonCode (cr_Fired (snd p))) (conditions ctx workDir lang report).
Proof. by repeat (apply Forall_cons; split; [vm_compute; reflexivity|]). Qed.
Lemma first_five ctx workDir lang report :
  Forall (fun p => cr_Canonical (snd p) = true /\ hard (snd p) = true) (take 5 (conditions ctx workDir lang report)) /\
  Forall (fun p => cr_Canonical (snd p) = false) (drop 5 (conditions ctx workDir lang report)).
Proof. split; repeat (apply Forall_cons; split; [done|]); apply Forall_nil; done. Qed.
Lemma some_fires b c (l : list (bool * ShellCriterion)) :
  (exists d, (true, d) ∈ (b, c) :: l) <-> b = true \/ exists d, (true, d) ∈ l.
Proof.
  setoid_rewrite elem_of_cons. split.
  - intros (d & [[= <- _]|H]); eauto.
  - intros [->|(d & H)]; [exists c; by left|exists d; by right].
Qed.
Lemma none_fires : (exists d : ShellCriterion, (true, d) ∈ []) <-> False.
Proof. split; [|done]. intros (d & H). by apply not_elem_of_nil in H. Qed.
Lemma canonical_cause_iff ctx workDir lang report :
  (exists c, (true, c) ∈ take 5 (conditions ctx workDir lang report)) <-> canonical_cause ctx workDir lang report.
Proof.
  unfold ShellAnalysis.conditions. cbv zeta. cbn [take firstn]. rewrite !some_fires, none_fires.
  rewrite andb_true_iff, destructive_iff, shellHasEffectKind_iff, <- !(Bool.not_false_iff_true (nonempty _)).
  rewrite !(nonempty_false (sc_ExfilPairs _)), !(nonempty_false (sc_CradleFlows _)), !Bool.not_false_iff_true, !nonempty_elem.
  setoid_rewrite system_targets_elem. setoid_rewrite is_write_elem. unfold canonical_cause.
  assert (Hd : (exists x, x ∈ outside_roots ctx report workDir shellFSWriteKinds false) <->
    SessionRoots ctx <> [] /\ exists e abs, touches report e (resolution_base ctx workDir) abs /\ e_Kind e = KindFSWrite /\ ~ in_place ctx abs).
  { split.
    - intros [[abs k] Hin]. apply outside_elem in Hin as (Hr & Hp & e & Ht & <- & Hk & _). apply list_elem_of_singleton in Hk. eauto 8.
    - intros (Hr & e & abs & Ht & Hk & Hp). exists (abs, e_Kind e). apply outside_elem. split; [done|]. split; [done|]. exists e.
      split_and!; [done|done|rewrite Hk; by left|done]. }
  rewrite Hd. clear Hd. split.
  - intros [H|[H|[(abs & e & H)|[H|[H|H]]]]]; eauto 10; done.
  - intros [H|[H|[H|[(e & abs & H)|H]]]]; eauto 10.
Qed.
End facts.

(** The winner of a list whose first part is canonical and hard, and whose second
    part is not canonical. *)
Lemma fired_app l1 l2 : fired (l1 ++ l2) = fired l1 ++ fired l2.
Proof. unfold fired. by rewrite List.filter_app, map_app. Qed.
Lemma winner_canonical l1 l2 c rest :
  Forall (fun p => cr_Canonical (snd p) = true /\ hard (snd p) = true) l1 -> Forall (fun p => cr_Canonical (snd p) = false) l2 ->
  fired (l1 ++ l2) = c :: rest ->
  (cr_Canonical (shellWinningCriterion c rest) = true <-> exists d, (true, d) ∈ l1).
Proof.
  intros H1 H2 E. rewrite fired_app in E. rewrite Forall_forall in H1, H2. destruct (fired l1) as [|d l] eqn:E1; cbn [app] in E.
  - pose proof (winner_elem c rest) as Hw. rewrite <- E in Hw. apply fired_elem, H2 in Hw. cbn [snd] in Hw. rewrite Hw. split; [done|].
    intros (d & Hd). apply fired_elem in Hd. rewrite E1 in Hd. by apply not_elem_of_nil in Hd.
  - injection E as -> _. assert (Hc : (true, c) ∈ l1) by (apply fired_elem; rewrite E1; by left). split; [by eauto|intros _].
    destruct (H1 _ Hc) as [Hcan Hh]. cbn [snd] in *. rewrite shellWinningCriterion_find. cbn [List.find]. by rewrite Hh.
Qed.

(** C24: a command raises no criterion exactly when the analysis proved no flow
    from secrets to the network, from the network to code or to a file, bounded
    the command, saw no privilege escalation and no credential access, and found
    every effect in its place: no direct write to a system path given as
    absolute, and, where session roots are set, reads, writes and executed code
    within them, but for raw devices that are read and system paths that are
    written.  Otherwise the outcome is the first hard criterion, else the first,
    with its published code; it is canonical - as flag and as code - exactly when
    one of the five canonical causes holds, whatever else fired, and soft only
    when nothing hard fired. *)
Theorem evaluateShellReport_contract lstat to_lower kind_name mode_name ctx workDir command lang report :
  let a := evaluateShellReport lstat to_lower kind_name mode_name ctx workDir command lang report in
  let o := sa_Outcome a in
  (jo_allow o = true <-> unremarkable lstat to_lower ctx workDir lang report) /\
  (sa_Canonical a = true <-> canonical_cause lstat to_lower ctx workDir lang report) /\
  (jo_allow o = false ->
    (exists c rest, dg_Criteria (sa_Digest a) = c :: rest /\ let w := default c (List.find hard (c :: rest)) in
       o = mkOutcome false (shellCriterionReason (cr_Fired w)) (cr_Severity w) (cr_Fired w)) /\
    sa_Canonical a = IsCanonicalReasonCode (jo_reason_code o) /\
    (jo_severity o = JudgeSeveritySoft -> forall c, c ∈ dg_Criteria (sa_Digest a) -> cr_Severity c = JudgeSeveritySoft)).
Proof.
  cbv zeta. rewrite <- (conditions_false lstat to_lower), <- (canonical_cause_iff lstat to_lower), <- fired_nil.
  pose proof (conditions_codes lstat to_lower ctx workDir lang report) as Hcodes.
  destruct (first_five lstat to_lower ctx workDir lang report) as [H5 Hr].
  pose proof (fun c rest => winner_canonical _ _ c rest H5 Hr) as Hw. rewrite take_drop in Hw. clear H5 Hr.
  unfold evaluateShellReport. set (l := conditions lstat to_lower ctx workDir lang report) in *.
  destruct (fired l) as [|c rest] eqn:E; cbn [sa_Outcome sa_Canonical sa_Digest jo_allow jo_reason_code jo_severity].
  - split; [done|]. split; [|done]. split; [done|]. intros (d & Hd). exfalso. apply (not_elem_of_nil d). rewrite <- E. apply fired_elem.
    rewrite <- (take_drop 5 l). apply elem_of_app. by left.
  - split; [done|]. split; [by apply Hw|]. intros _. split_and!.
    + exists c, rest. split; [done|]. cbv zeta. by rewrite shellWinningCriterion_find.
    + pose proof (winner_elem c rest) as Hin. rewrite <- E in Hin. apply fired_elem in Hin. rewrite Forall_forall in Hcodes. by apply Hcodes in Hin.
    + intros Hs d Hd. by eapply winner_soft.
Qed.

(** ** The marker *)

Section marker.
Variable lstat : bool -> list string -> Stat.
Variable to_lower : string -> string.
Local Notation target_ok := (shellMarkerTargetInRoots lstat to_lower).
Local Notation manifest := (shellIsDependencyManifest to_lower).

(** A path-shaped operand that resolves, in place. *)
Definition operand_in_place (ctx : PathCtx) (base t : string) : Prop :=
  shellPathLikeTarget t = true -> exists abs, shellResolveTarget t base = Some abs /\ in_place lstat to_lower ctx abs.
(** The calls that may be made.  A driver with subcommands shows one of its
    verifying ones as its first argument that is no flag, if it has any. *)
Definition plain_driver (binary : string) : Prop :=
  binary ∈ ["gofmt"; "gofumpt"; "tsc"; "vitest"; "jest"; "eslint"; "prettier"; "rg"; "ripgrep"].
Inductive driver_subcommand : string -> string -> Prop :=
  | go_verifies sub : sub ∈ ["test"; "vet"; "build"; "fmt"; "list"; "env"; "version"; "doc"] -> driver_subcommand "go" sub
  | lint_verifies sub : sub ∈ ["run"; "fmt"; "version"] -> driver_subcommand "golangci-lint" sub
  | npm_verifies sub : sub ∈ ["test"; "run"] -> driver_subcommand "npm" sub.
Definition driver_called (call : CommandCall) : Prop :=
  plain_driver (cc_Resolved call) \/
  cc_Resolved call ∈ ["go"; "golangci-lint"; "npm"] /\
  forall pre a post, cc_Args call = pre ++ a :: post -> Forall (fun x => x = "" \/ has_prefix x "-" = true) pre ->
    a <> "" -> has_prefix a "-" = false -> driver_subcommand (cc_Resolved call) a.
Definition plumbing_called (call : CommandCall) : Prop :=
  cc_Resolved call ∈
    ["cd"; "pwd"; "echo"; "printf"; "ls"; "cat"; "head"; "tail"; "grep"; "egrep"; "fgrep"; "sed"; "find"; "wc"; "file"; "which";
     "jq"; "sort"; "uniq"; "cut"; "tr"; "column"; "basename"; "dirname"; "realpath"; "date"; "sleep"; "true"; "false"; "test"; "["].
(** The arguments that make a catalogued binary run another one, write or
    delete: a long flag also with its value attached. *)
Inductive forbidden_argument : string -> string -> Prop :=
  | pre_flag binary f : binary ∈ ["rg"; "ripgrep"] -> f ∈ ["--pre"; "--pre-exec"] -> forbidden_argument binary f
  | pre_flag_value binary f value : binary ∈ ["rg"; "ripgrep"] -> f ∈ ["--pre"; "--pre-exec"] -> forbidden_argument binary (f +s+ "=" +s+ value)
  | find_action f : f ∈ ["-exec"; "-execdir"; "-ok"; "-okdir"; "-delete"; "-fprint"; "-fprintf"; "-fls"] -> forbidden_argument "find" f
  | go_mod_mod : forbidden_argument "go" "-mod=mod".
Definition arguments_screened (call : CommandCall) : Prop :=
  (driver_called call \/ plumbing_called call) /\
  forall a, a ∈ cc_Args call -> ~ forbidden_argument (cc_Resolved call) a.
Definition redirect_ok (ctx : PathCtx) (base : string) (r : CallRedirect) : Prop :=
  rd_Known r = true /\ under sep (Clean (rd_Target r)) "/dev/tcp" = false /\ under sep (Clean (rd_Target r)) "/dev/udp" = false /\
  (shellIsFdTarget (rd_Target r) = false -> operand_in_place ctx base (rd_Target r) /\
    (shellPathLikeTarget (rd_Target r) = true -> contains (rd_Op r) ">" = true -> manifest (rd_Target r) = false)).
Definition call_ok (ctx : PathCtx) (base : string) (call : CommandCall) : Prop :=
  arguments_screened call /\
  (forall a t, a ∈ cc_Args call -> operand_of a = Some t -> shellIsFdTarget t = false -> operand_in_place ctx base t) /\
  (forall r, r ∈ cc_Redirs call -> redirect_ok ctx base r).
Definition effect_ok (ctx : PathCtx) (workDir : string) (e : Effect) : Prop :=
  e_Kind e <> KindNetEgress /\ e_Kind e <> KindNetIngress /\ (e_IsTop e = true -> e_Kind e = KindCodeExec) /\
  (e_IsTop e = false -> pathKinds (e_Kind e) = true -> forall t, t ∈ e_Targets e ->
    operand_in_place ctx workDir t /\ (is_write e -> shellPathLikeTarget t = true -> manifest t = false)).
(** The values that may be set. *)
Inductive safe_value : string -> string -> Prop :=
  | ci_value v : v ∈ ["1"; "true"; "false"; ""] -> safe_value "CI" v
  | color_value v : v ∈ ["1"; "true"; ""] -> safe_value "NO_COLOR" v
  | term_value : safe_value "TERM" "dumb"
  | goflags_value v : v ∈ ["-mod=readonly"; "-mod=vendor"] -> safe_value "GOFLAGS" v
  | goproxy_value : safe_value "GOPROXY" "off"
  | gowork_value : safe_value "GOWORK" "off".
(** Every variable the analysis sees set is assigned in the text, and each of its
    assignments there is to a safe value as far as the scan reads it: up to the
    first space or metacharacter, double quotes at either end dropped. *)
Definition environment_ok (command : string) (report : Report) : Prop :=
  forall e name, e ∈ rp_Effects report -> e_Kind e = KindEnvWrite -> e_IsTop e = false -> name ∈ e_Targets e ->
    (exists value, (name, value) ∈ shellEnvAssignRe command) /\
    forall v, (name, v) ∈ shellEnvAssignRe command -> safe_value name (trim_chars (fun c => Ascii.eqb c "034") v).

(** *** The tables *)

Lemma table_get_elem {A} k (l : list (string * A)) v : table_get k l = Some v -> (k, v) ∈ l.
Proof.
  induction l as [|[k' v'] l IH]; cbn [table_get]; [done|]. destruct (String.eqb_spec k k') as [->|]; [intros [= ->]; by left|].
  intros H. right. by apply IH.
Qed.
(** A member of a list written out is one of them. *)
Ltac each H :=
  lazymatch type of H with
  | _ ∈ _ :: _ => apply elem_of_cons in H as [H|H]; [simplify_eq|each H]
  | _ ∈ [] => by apply not_elem_of_nil in H
  end.

Lemma first_operand_find args pre a post :
  args = pre ++ a :: post -> Forall (fun x => x = "" \/ has_prefix x "-" = true) pre -> a <> "" -> has_prefix a "-" = false ->
  shellFirstFlagFreeOperand args = Some a.
Proof.
  intros -> Hp Ha Hf. unfold shellFirstFlagFreeOperand. induction Hp as [|x pre Hx _ IH]; cbn [app List.find].
  - apply String.eqb_neq in Ha. by rewrite Ha, Hf.
  - assert (E : negb (String.eqb x "" || has_prefix x "-") = false) by (destruct Hx as [->|Hx]; [done|rewrite Hx; by rewrite orb_true_r]).
    by rewrite E.
Qed.
Lemma driver_screened call subs :
  table_get (cc_Resolved call) shellVerificationDrivers = Some subs -> shellFirstOperand (cc_Args call) subs = true -> driver_called call.
Proof.
  intros Ht%table_get_elem Hs. unfold driver_called, plain_driver.
  assert (Hfirst : forall l, subs = Some l -> forall pre a post, cc_Args call = pre ++ a :: post ->
    Forall (fun x => x = "" \/ has_prefix x "-" = true) pre -> a <> "" -> has_prefix a "-" = false -> a ∈ l).
  { intros l -> pre a post E Hp Ha Hf. unfold shellFirstOperand in Hs. rewrite (first_operand_find _ _ _ _ E Hp Ha Hf) in Hs.
    by apply bool_decide_eq_true in Hs. }
  destruct call as [binary args redirs]. cbn [cc_Resolved cc_Args] in *. unfold shellVerificationDrivers in Ht.
  each Ht; first [left; by apply (bool_decide_unpack _) | right; split; [by apply (bool_decide_unpack _)|]; intros pre a post E Hp Ha Hf;
    specialize (Hfirst _ eq_refl pre a post E Hp Ha Hf); by constructor].
Qed.
Lemma forbidden_screened binary args :
  shellDriverArgsScreened binary args = true -> forall a, a ∈ args -> ~ forbidden_argument binary a.
Proof.
  unfold shellDriverArgsScreened. rewrite forallb_Forall, Forall_forall. intros H a Ha Hf. specialize (H a Ha). revert H.
  apply not_true_iff_false. rewrite <- not_true_iff_false, forallb_Forall, Forall_forall. intros H.
  assert (Hall : forall f, f ∈ default [] (table_get binary shellDriverForbiddenFlags) -> a <> f /\ (has_prefix f "--" = true -> has_prefix a (f +s+ "=") = false)).
  { intros f Hin. specialize (H f Hin). apply negb_true_iff, orb_false_iff in H as [H1 H2]. apply String.eqb_neq in H1. split; [done|].
    intros Hp. by rewrite Hp in H2. }
  assert (Hpre : forall f v, has_prefix ((f +s+ "=" +s+ v)) (f +s+ "=") = true).
  { intros f v. apply has_prefix_spec. exists v. by rewrite sapp_assoc. }
  destruct Hf as [binary f Hb Hf|binary f v Hb Hf|f Hf|].
  - assert (Hin : f ∈ default [] (table_get binary shellDriverForbiddenFlags)) by (by each Hb). by destruct (Hall f Hin).
  - assert (Hin : f ∈ default [] (table_get binary shellDriverForbiddenFlags)) by (by each Hb). destruct (Hall f Hin) as [_ Hv].
    rewrite Hpre in Hv. assert (Hd : has_prefix f "--" = true) by (by each Hf). by specialize (Hv Hd).
  - by destruct (Hall f Hf).
  - destruct (Hall "-mod=mod") as [Hn _]; [by left|done].
Qed.
Lemma safe_table name allowed v : table_get name shellVerificationSafeEnv = Some allowed -> v ∈ allowed -> safe_value name v.
Proof.
  intros Ht%table_get_elem Hv. unfold shellVerificationSafeEnv in Ht.
  each Ht; first [by constructor | apply list_elem_of_singleton in Hv as ->; constructor].
Qed.

Lemma target_ok_iff ctx base t :
  target_ok ctx base t = true <-> exists abs, shellResolveTarget t base = Some abs /\ in_place lstat to_lower ctx abs.
Proof.
  unfold shellMarkerTargetInRoots, in_place, in_roots. destruct (shellResolveTarget t base) as [abs|].
  - split.
    + intros H. exists abs. split; [done|]. destruct (shellIsHarmlessDevicePath abs); [by left|right; by apply existsb_elem].
    + intros (abs' & [= <-] & [H|H]); [by rewrite H|]. destruct (shellIsHarmlessDevicePath abs); [done|by apply existsb_elem].
  - split; [done|]. by intros (abs & ? & _).
Qed.
Lemma marker_effect_ok ctx workDir e : marker_effect lstat to_lower ctx workDir e = true -> effect_ok ctx workDir e.
Proof.
  unfold marker_effect, effect_ok. destruct (bool_decide_reflect (e_Kind e ∈ [KindNetEgress; KindNetIngress])) as [|Hn]; [done|].
  apply not_elem_of_cons in Hn as [H1 Hn]. apply not_elem_of_cons in Hn as [H2 _]. intros H. split; [done|]. split; [done|].
  destruct (e_IsTop e); [split; [intros _; by apply bool_decide_eq_true in H|done]|]. split; [done|]. intros _ Hp t Ht. rewrite Hp in H. cbn [negb] in H.
  cbv zeta in H. rewrite forallb_Forall, Forall_forall in H. specialize (H t Ht). unfold operand_in_place. destruct (shellPathLikeTarget t); [|done]. cbn [negb] in H.
  split.
  - intros _. apply target_ok_iff. by destruct (_ && _).
  - intros Hw _. rewrite bool_decide_eq_true_2 in H by (by apply is_write_elem). cbn [andb] in H. by destruct (manifest t).
Qed.
Lemma redirect_ok_sound ctx base r : shellRedirectMarkerSafe lstat to_lower ctx base r = true -> redirect_ok ctx base r.
Proof.
  unfold shellRedirectMarkerSafe, redirect_ok, operand_in_place. destruct (rd_Known r); [|done]. cbn [negb orb].
  destruct (String.eqb (rd_Target r) ""); [done|]. cbv zeta. destruct (under _ _ "/dev/tcp"); [done|]. destruct (under _ _ "/dev/udp"); [done|].
  cbn [orb]. intros H. split_and!; [done|done|done|]. intros Hf. rewrite Hf in H. cbn [orb] in H. destruct (shellPathLikeTarget (rd_Target r)); [|done].
  cbn [negb] in H. split.
  - intros _. apply target_ok_iff. by destruct (_ && _).
  - intros _ Hop. rewrite Hop in H. cbn [andb] in H. destruct (String.eqb_spec (rd_Op r) "<") as [Ho|]; [by rewrite Ho in Hop|].
    cbn [negb andb] in H. by destruct (manifest (rd_Target r)).
Qed.
Lemma marker_call_ok ctx base call : marker_call lstat to_lower ctx base call = true -> call_ok ctx base call.
Proof.
  unfold marker_call, call_ok, shellCallOperandsInRoots. rewrite !andb_true_iff, !forallb_Forall, !Forall_forall.
  intros [[Hd Hs] [Ha Hr]]. split_and!.
  - split; [|by apply forbidden_screened].
    destruct (table_get (cc_Resolved call) shellVerificationDrivers) as [subs|] eqn:E; [left; by eapply driver_screened|right].
    by apply bool_decide_eq_true in Hd.
  - intros a t Hin Ho Hf Hp. specialize (Ha a Hin). unfold arg_in_roots in Ha. rewrite Ho, Hf, Hp in Ha. cbn [orb negb] in Ha. by apply target_ok_iff.
  - intros r Hin. by apply redirect_ok_sound, Hr.
Qed.
Lemma marker_driver ctx base call : marker_call lstat to_lower ctx base call = true -> is_driver call = true -> driver_called call.
Proof.
  unfold marker_call, is_driver. destruct (table_get (cc_Resolved call) shellVerificationDrivers) as [subs|] eqn:E; [|done].
  rewrite !andb_true_iff. intros [[H _] _] _. by eapply driver_screened.
Qed.
Lemma marker_env_ok command report : shellMarkerEnvSafe command report = true -> environment_ok command report.
Proof.
  unfold shellMarkerEnvSafe, environment_ok. cbv zeta. rewrite forallb_Forall, Forall_forall. intros H e name He Hk Ht Hn.
  specialize (H name). rewrite list_elem_of_bind in H.
  assert (Hin : exists e0, name ∈ (if bool_decide (e_Kind e0 <> KindEnvWrite) || e_IsTop e0 then [] else e_Targets e0) /\ e0 ∈ rp_Effects report).
  { exists e. split; [|done]. rewrite bool_decide_eq_false_2 by (by intros ?). by rewrite Ht. }
  specialize (H Hin). destruct (table_get name shellVerificationSafeEnv) as [allowed|] eqn:Et; [|done].
  apply andb_true_iff in H as [H1 H2]. rewrite forallb_Forall, Forall_forall in H2.
  assert (Hv : forall v, (name, v) ∈ shellEnvAssignRe command <-> exists w, w = trim_chars (fun c => Ascii.eqb c "034") v /\ (name, v) ∈ shellEnvAssignRe command) by naive_solver.
  apply nonempty_elem in H1 as [v Hv1]. apply list_elem_of_fmap in Hv1 as ([n w] & -> & Hin2). apply elem_of_List_filter in Hin2 as [Hin2 Hn2].
  cbn [fst] in Hn2. apply String.eqb_eq in Hn2 as ->. apply list_elem_of_fmap in Hin2 as ([n' u] & [= -> ->] & Hin3).
  split; [by exists u|]. intros v Hin4. specialize (H2 (trim_chars (fun c => Ascii.eqb c "034") v)). rewrite bool_decide_eq_true in H2.
  eapply safe_table; [exact Et|]. apply H2, list_elem_of_fmap. exists (n', trim_chars (fun c => Ascii.eqb c "034") v). split; [done|]. apply elem_of_List_filter.
  split; [|apply String.eqb_refl]. apply list_elem_of_fmap. by exists (n', v).
Qed.
Lemma resolve_base t b abs : shellResolveTarget t "" = Some abs -> shellResolveTarget t b = Some abs.
Proof. unfold shellResolveTarget. destruct (shellIsWindowsAbsPath t); [done|]. by destruct (has_prefix t "/"). Qed.
Lemma effect_ok_in_place ctx workDir report e abs :
  effect_ok ctx workDir e -> pathKinds (e_Kind e) = true -> touches report e (resolution_base ctx workDir) abs -> in_place lstat to_lower ctx abs.
Proof.
  intros (_ & _ & _ & H) Hk (_ & Ht & t & Hin & Hp & Hr). destruct (H Ht Hk t Hin) as [Ho _]. destruct (Ho Hp) as (abs' & Hr' & Hi).
  unfold resolution_base in Hr. destruct (String.eqb_spec workDir "") as [->|].
  - apply (resolve_base t (px_workspace ctx)) in Hr'. congruence.
  - congruence.
Qed.
(** Under the marker no criterion of containment fires. *)
Lemma marker_no_containment ctx workDir lang report c :
  (forall e, e ∈ rp_Effects report -> effect_ok ctx workDir e) ->
  c ∈ fired (conditions lstat to_lower ctx workDir lang report) ->
  cr_Fired c <> ReasonCodeCommandDestructiveOutsideRoots /\ cr_Fired c <> ReasonCodeOutsideSessionRoots /\
  cr_Fired c <> ReasonCodeCommandExecOutsideRoots.
Proof.
  intros He Hc. apply fired_elem in Hc.
  assert (Hin : forall e abs, pathKinds (e_Kind e) = true -> touches report e (resolution_base ctx workDir) abs -> in_place lstat to_lower ctx abs).
  { intros e abs Hk Ht. eapply effect_ok_in_place; [apply He, Ht|done|done]. }
  assert (H4 : shellHasDestructiveClassDE report && negb (sc_Reversible (rp_Score report)) &&
      nonempty (shellOutsideRoots lstat to_lower ctx report workDir shellFSWriteKinds false) = false).
  { apply destructive_outside_false. intros _ e abs Ht Hk _. apply (Hin e); [by rewrite Hk|done]. }
  assert (H9 : nonempty (shellOutsideRootDirectNonSystemTargets lstat to_lower ctx report workDir lang) = false).
  { apply scope_false. intros _ e abs Ht _. split; [intros Hk|intros [Hk|Hk]]; left; (apply (Hin e); [by rewrite Hk|done]). }
  assert (H10 : shellOutsideRootExecTargets lstat to_lower ctx report workDir = false).
  { apply exec_false. intros _ e abs Ht _ [Hk|Hk]; (apply (Hin e); [by rewrite Hk|done]). }
  unfold conditions in Hc. cbv zeta in Hc. rewrite H4, H9, H10, andb_false_r in Hc. rewrite !elem_of_cons in Hc.
  repeat (destruct Hc as [E|Hc]; [first [discriminate E|injection E as _ ->; done]|]). by apply not_elem_of_nil in Hc.
Qed.
End marker.

(** C25: what the verification marker says of a command: session roots are set,
    the analysis is not unbounded and accounts for every statement; every binary
    is a catalogued driver or plumbing, one at least a driver; a driver with
    subcommands has one of its verifying ones as its first argument that is no
    flag; no argument is one of the forbidden ones, alone or, for a long flag,
    with its value attached; every path-shaped operand, redirection and effect
    target resolves into a session root or to the bit bucket; there is no
    network effect and no network pseudo-device, nothing unresolved but the
    target of code execution, no write to a dependency manifest; every variable
    set is one of six, and every assignment to it in the text, read up to the
    first space or metacharacter, is to a safe value.  Hence no criterion of
    containment fires beside it.  It does not say that the first such argument is
    the subcommand, which the value of a flag may precede
    ([flag_value_as_subcommand]), nor that a quoted value with a space is safe
    behind it ([quoted_value]). *)
Theorem shellWorkspaceScopedVerification_sound lstat to_lower ctx workDir command report :
  shellWorkspaceScopedVerification lstat to_lower ctx workDir command report = true ->
  SessionRoots ctx <> [] /\ rp_Top report = false /\ Z.of_nat (length (rp_CommandCalls report)) = rp_Commands report /\
  (exists call, call ∈ rp_CommandCalls report /\ driver_called call) /\
  (forall call, call ∈ rp_CommandCalls report -> call_ok lstat to_lower ctx (resolution_base ctx workDir) call) /\
  (forall e, e ∈ rp_Effects report -> effect_ok lstat to_lower ctx workDir e) /\
  environment_ok command report /\
  (forall lang c, c ∈ fired (conditions lstat to_lower ctx workDir lang report) ->
    cr_Fired c <> ReasonCodeCommandDestructiveOutsideRoots /\ cr_Fired c <> ReasonCodeOutsideSessionRoots /\
    cr_Fired c <> ReasonCodeCommandExecOutsideRoots).
Proof.
  unfold shellWorkspaceScopedVerification, shellMarkerEffectsSafe, shellMarkerCallsSafe.
  destruct (rp_Top report); [done|]. destruct (nonempty (rp_CommandCalls report)); [|done]. cbn [negb orb].
  destruct (bool_decide_reflect (SessionRoots ctx = [])); [done|]. destruct (Z.eqb_spec (Z.of_nat (length (rp_CommandCalls report))) (rp_Commands report)); [|done].
  cbn [negb]. rewrite !andb_true_iff, !forallb_Forall, !Forall_forall, existsb_elem. intros (He & [Hc Hd] & Henv).
  assert (Heff : forall e, e ∈ rp_Effects report -> effect_ok lstat to_lower ctx workDir e) by (intros e0 Hin; by apply marker_effect_ok, He).
  split_and!; [done|done|done| |intros call Hin; by apply marker_call_ok, Hc|done|by apply marker_env_ok|].
  { destruct Hd as (call & Hin & Hd). exists call. split; [done|]. eapply marker_driver; [by apply Hc|done]. }
  intros lang c. by apply marker_no_containment.
Qed.

(** ** The signature *)

Lemma sorted_distinct l1 l2 : (forall x, x ∈ l1 <-> x ∈ l2) -> sorted (distinct l1) = sorted (distinct l2).
Proof.
  intros H. unfold sorted, distinct. apply (StronglySorted_unique str_le); [apply StronglySorted_merge_sort; apply _|apply StronglySorted_merge_sort; apply _|].
  rewrite !(merge_sort_Permutation str_le). apply NoDup_Permutation; [apply NoDup_remove_dups|apply NoDup_remove_dups|].
  intros x. by rewrite !elem_of_remove_dups.
Qed.

(** Two analyses have the same signature whenever they agree on the drivers
    invoked, the canonical effects with their reversibility, the codes that fired
    and the marker, in whatever order and however often each occurs. *)
Theorem shellEffectSignature_sets r1 r2 cs1 cs2 marker :
  (forall t, t ∈ omap call_token (rp_CommandCalls r1) <-> t ∈ omap call_token (rp_CommandCalls r2)) ->
  (forall t, t ∈ map effect_token (default [] (rp_Canonical r1)) <-> t ∈ map effect_token (default [] (rp_Canonical r2))) ->
  (forall t, t ∈ map cr_Fired cs1 <-> t ∈ map cr_Fired cs2) ->
  shellEffectSignature r1 cs1 marker = shellEffectSignature r2 cs2 marker.
Proof.
  intros Hb Hf Hc. unfold shellEffectSignature. cbv zeta.
  by rewrite (sorted_distinct _ _ Hb), (sorted_distinct _ _ Hf), (sorted_distinct _ _ Hc).
Qed.

(** ** At concrete reports *)

Definition all_dirs (rooted : bool) (l : list string) : Stat := SDir.
Definition ws_ctx : PathCtx := mkPathCtx "/home/u/ws" "" [] false.
Definition same (s : string) : string := s.
Definition no_score : Score := mkScore "" "" "" "" "" 0 true "" [] [] [].
Definition writes (t : string) : Effect := mkEffect KindFSWrite ModeDirect "" false [t] true t.
Definition report_of (effects : list Effect) (calls : list CommandCall) : Report :=
  mkReport "bash" false false "" (Z.of_nat (length calls)) ("", "", "") effects no_score [] calls (Some effects).
Definition outcome_of (report : Report) : JudgeOutcome :=
  sa_Outcome (evaluateShellReport all_dirs same (fun _ => "") (fun _ => "") ws_ctx "/home/u/ws" "" LangBash report).

(** A write given as absolute is a system write; a relative one to the same file
    fires nothing: the third criterion does not resolve it, the ninth leaves
    system paths to the third. *)
Example relative_system_write :
  jo_reason_code (outcome_of (report_of [writes "/etc/passwd"] [])) = ReasonCodeCommandSystemWrite /\
  shellResolveTarget "../../../etc/passwd" "/home/u/ws" = Some "/etc/passwd" /\
  jo_allow (outcome_of (report_of [writes "../../../etc/passwd"] [])) = true.
Proof. vm_compute. repeat split. Qed.

(** A file below a directory [s] has the shape of a sed script, so it is in no
    criterion wherever it leads. *)
Example sed_shaped_path :
  jo_reason_code (outcome_of (report_of [writes "t/../../other"] [])) = ReasonCodeOutsideSessionRoots /\
  jo_allow (outcome_of (report_of [writes "s/../../other"] [])) = true.
Proof. vm_compute. repeat split. Qed.

Definition marker_of (command : string) (report : Report) : bool :=
  shellWorkspaceScopedVerification all_dirs same ws_ctx "/home/u/ws" command report.
Definition go_test : list CommandCall := [mkCall "go" ["test"; "./..."] []].
Definition sets (name : string) : Effect := mkEffect KindEnvWrite ModeDirect "" false [name] true name.
Definition quot : string := String "034" "".

(** A value is read up to the first space, also inside quotes: what follows the
    safe part is not looked at. *)
Example quoted_value :
  marker_of ("GOFLAGS=" +s+ quot +s+ "-toolexec=/tmp/x" +s+ quot +s+ " go test ./...") (report_of [sets "GOFLAGS"] go_test) = false /\
  marker_of ("GOFLAGS=" +s+ quot +s+ "-mod=readonly -toolexec=/tmp/x" +s+ quot +s+ " go test ./...") (report_of [sets "GOFLAGS"] go_test) = true.
Proof. vm_compute. repeat split. Qed.

(** The value of a flag is taken for the subcommand. *)
Example flag_value_as_subcommand :
  marker_of "" (report_of [] [mkCall "npm" ["install"; "left-pad"] []]) = false /\
  marker_of "" (report_of [] [mkCall "npm" ["--prefix"; "test"; "install"; "left-pad"] []]) = true.
Proof. vm_compute. repeat split. Qed.

Definition verified : Report :=
  report_of [sets "CI"; mkEffect KindCodeExec ModeDirect "" true [] true "CodeExec|Direct|[]"]
    [mkCall "go" ["test"; "./..."] [mkRedirect ">" "out.txt" true]; mkCall "tail" ["-5"; "out.txt"] []].
Lemma shellWorkspaceScopedVerification_sound_witness :
  marker_of "CI=1 go test ./... > out.txt; tail -5 out.txt" verified = true /\
  SessionRoots ws_ctx <> [] /\ effect_ok all_dirs same ws_ctx "/home/u/ws" (sets "CI").
Proof.
  assert (Hm : marker_of "CI=1 go test ./... > out.txt; tail -5 out.txt" verified = true) by (vm_compute; reflexivity).
  split; [exact Hm|].
  destruct (shellWorkspaceScopedVerification_sound all_dirs same ws_ctx "/home/u/ws" "CI=1 go test ./... > out.txt; tail -5 out.txt" verified Hm)
    as (Hr & _ & _ & _ & _ & He & _).
  split; [exact Hr|]. apply He. left.
Defined.

Definition tsc (args : list string) : CommandCall := mkCall "tsc" args [].
Lemma shellEffectSignature_sets_witness :
  shellEffectSignature (report_of [writes "a"; writes "b"; writes "a"] [tsc ["--noEmit"]; mkCall "wc" ["a"] []]) [] true =
  shellEffectSignature (report_of [writes "b"; writes "a"] [mkCall "grep" ["x"] []; tsc []; tsc []]) [] true.
Proof.
  apply shellEffectSignature_sets; [| |intros t; split; intros H; exact H].
  - intros t. change (t ∈ ["tsc"] <-> t ∈ ["tsc"; "tsc"]). rewrite !elem_of_cons. tauto.
  - intros t. change (t ∈ ["a|R"; "b|R"; "a|R"] <-> t ∈ ["b|R"; "a|R"]). rewrite !elem_of_cons. tauto.
Defined.
