(* ===== verification/ExecState.v ===== *)
(** * The state of an executor run and its environment

    [Executor] and [runState] of [src/agent/executor.go] and
    [src/agent/executor_run.go]: the fields that change during [Run], grouped
    by the mechanism that owns them; the configuration fixed before [Run]; and
    the interfaces the loop calls.  Everything the loop makes observable is
    recorded in a trace, and the environment (human, model, tools, context
    manager, clock) answers as a function of that trace, so its behaviour is
    arbitrary but every answer is reproducible. *)

From Stdlib Require Import ZArith QArith Qround Lia.
From stdpp Require Import base gmap strings list.
From S2P Require Import Prelude GoStr GoFloat AgentTypes Nudges ToolCache Watchdog.
Open Scope sp4rk_scope.
Open Scope Z_scope.

Section state.
Context `{Float64}.

(** ** What [Run] makes observable *)

Inductive detail := DStr (s : string) | DInt (z : Z) | DFloat (f : F).

Record FillCheck := mkFill {
  Percent : F;
  Status : string;
  Used : Z;
  Max : Z;
}.

Inductive event :=
(* agent.Events *)
| EvStepStart (stepNum : Z)
| EvThought (stepNum : Z) (content reasoning : string)
| EvToolCall (stepNum callIdx : Z) (name args source : string)
| EvToolResult (stepNum callIdx len : Z) (preview : string) (isError : bool)
| EvStepComplete (stepNum : Z)
| EvAssistantChunk (text : string)
| EvAssistantDone (text : string) (inTokens outTokens : Z)
| EvContextFill (fill : FillCheck)
| EvContextCompaction (before after : F)
| EvFinishing (stepNum : Z) (summary : string)
| EvDiagnostic (stepNum : Z) (name : string) (details : list (string * detail))
(* agent.ContextManager *)
| CwAddStep (s : Step)
| CwCompact
| CwSetToolOverhead
| CwConsumeInterjection
(* calls to the other interfaces *)
| LLMCall
| ToolExecuted (name input : string)
| AskedToolCall (name input : string)
| AskedStepLimit (current max : Z) (reason : string)
| VerifyRan
| TrajectorySync (steps : list Step).

Definition history := list event.

Definition count_events (p : event -> bool) (h : history) : nat := length (List.filter p h).
Definition is_llm_call (ev : event) : bool := match ev with LLMCall => true | _ => false end.

(** ** Configuration fixed before [Run] *)

Record ToolTruncationConfig := mkTrunc { MaxLines : Z; MaxBytes : Z }.

Record Config := mkConfig {
  maxSteps : Z;
  suppressAssistantEvents : bool;
  streaming : bool;
  HardCapTokens : Z;
  MaxFillFraction : F;
  perToolTruncation : gmap string ToolTruncationConfig;
  nonCacheableTools : gset string;
  mutationRequired : bool;
  checklistGateEnabled : bool;
  preWarningPercent : Z;
  stopTools : gset string;
  verifyOnEditCap : Z;
  watchdog : wconfig;
  taskTools : list string;
  resumeSteps : list Step;
}.

(** ** The environment *)

Record HITLToolDecision := mkDecision {
  Allow : bool;
  ModifiedInput : string;
  Reason : string;
}.

Record EditVerifyResult := mkVerify {
  ve_Output : string;
  ve_ExitCode : Z;
  ve_TimedOut : bool;
  ve_Timeout : Z;
  ve_TimeoutText : string; (** [Timeout.String()] *)
  ve_Err : option string;
}.

(** The text deltas a call streamed, and how it ended. *)
Record llm_outcome := mkOutcome {
  lo_deltas : list string;
  lo_result : option ChatResponse + gerror;
}.

Record World := mkWorld {
  w_OnStepLimit : history -> Z -> Z -> string -> res StepLimitResponse;
  w_OnToolCall : history -> string -> string -> option HITLToolDecision + gerror;
  w_toolRun : history -> string -> string -> tool_run;
  w_GetToolSource : string -> string;
  w_IsToolUntrusted : string -> bool;
  w_ContentBacked : string -> string -> bool; (** [CacheStrategy] is content-backed *)
  w_LLM : history -> llm_outcome;
  w_ctxErr : history -> option gerror;
  w_pauseChecker : option (history -> bool);
  w_userMessageSource : option (history -> string);
  w_finishGuard : option (history -> option string);
  w_CheckFill : history -> FillCheck;
  w_AvailableTokens : history -> Z;
  w_OutputLimit : history -> Z;
  w_VulnerableOutputs : history -> list (string * string);
  w_Compact : history -> option (F * F);
  w_ContextWindowSize : option (history -> Z);
  w_ToolOverheadAware : bool;
  w_InterjectionConsumer : bool;
  w_TrajectoryStore : bool;
  w_verifyOnEdit : option (history -> EditVerifyResult);
  w_verifyAtCheckpoint : history -> option EditVerifyResult; (** [None]: not within the budget *)
  w_workspaceStat : history -> string -> option (string * Z * Z);
  w_now : history -> Z;
  w_rangeOrder : history -> list string;
  w_sha256hex : string -> string;
  w_ToLower : string -> string;
  w_quote : string -> string; (** ["%q"] *)
  w_jsonError : string -> string; (** the text of [json.Unmarshal]'s error *)
  w_mergeFragmentWindow : string -> string -> string; (** re-encoded arguments, for display only *)
}.

(** ** Mutable fields of [Executor] *)

Record RepeatTracker := mkRepeat {
  consecutiveRepeatCount : Z;
  lastToolKey : string;
  lastToolResultIsError : bool;
}.

Record ParseTracker := mkParse {
  consecutiveParseErrorTool : string;
  consecutiveParseErrorCount : Z;
}.

Record FruitlessTracker := mkFruitless {
  consecutiveFruitlessCount : Z;
  fruitlessNudgeAttempted : bool;
}.

Record SameToolTracker := mkSame {
  sameToolConsecutiveCount : Z;
  sameToolLastName : string;
  sameToolLastResultLen : Z;
  sameToolLastResultIsError : bool;
  sameToolNudgeAttempted : bool;
}.

Record FinishGates := mkGates {
  finishNudgeAttempted : bool;
  mutationNudgeAttempted : bool;
  checklistMissingNudgeAttempted : bool;
  checklistUncheckedNudgeAttempted : bool;
}.

Record Executor := mkExecutor {
  circuitBreaker : CircuitBreakerConfig;
  repeat_ : RepeatTracker;
  consecutiveTruncationCount : Z;
  parse_ : ParseTracker;
  fruitless_ : FruitlessTracker;
  same_ : SameToolTracker;
  gates : FinishGates;
  responseGroupCounter : Z;
  toolCache : option ToolResultCache;
}.

(** ** Fields of [runState] *)

Record NudgeState := mkNudges {
  implicitFinishNudgeCount : Z;
  toolCallSyntaxNudgeCount : Z;
  wrapUpNudgeAttempted : bool;
  preCompactionNudgeEmitted : bool;
  checklistStaleNudgeCount : Z;
}.

Record StreamState := mkStream {
  assistantStreamed : bool;
  assistantStreamOpen : bool;
  assistantStreamText : string;
  assistantStreamUsageIn : Z;
  assistantStreamUsageOut : Z;
}.

Record runState := mkRun {
  stepNum : Z;
  allSteps : list Step;
  unlimitedSteps : bool;
  effectiveMaxSteps : Z;
  finishResult : option ExecutorResult;
  circuitBreakerTriggered : bool;
  responseGroup : Z;
  reactiveCompactAttempted : bool;
  pendingVerifyEdit : bool;
  nearServerLimitLatched : bool;
  nudges : NudgeState;
  stream : StreamState;
}.

Record xstate := mkX { ex : Executor; run : runState; trace : history }.

(** The result of a helper that steers the loop. *)
Inductive loopAction := actionNone | actionContinue | actionBreak | actionReturn.

(** ** Updates *)

Definition on_ex (f : Executor -> Executor) (s : xstate) : xstate := mkX (f (ex s)) (run s) (trace s).
Definition on_run (f : runState -> runState) (s : xstate) : xstate := mkX (ex s) (f (run s)) (trace s).

Definition emit (ev : event) (s : xstate) : xstate := mkX (ex s) (run s) (trace s ++ [ev]).

Definition set_cb v := on_ex (fun e => mkExecutor v (repeat_ e) (consecutiveTruncationCount e) (parse_ e)
  (fruitless_ e) (same_ e) (gates e) (responseGroupCounter e) (toolCache e)).
Definition set_repeat v := on_ex (fun e => mkExecutor (circuitBreaker e) v (consecutiveTruncationCount e)
  (parse_ e) (fruitless_ e) (same_ e) (gates e) (responseGroupCounter e) (toolCache e)).
Definition set_truncation v := on_ex (fun e => mkExecutor (circuitBreaker e) (repeat_ e) v (parse_ e)
  (fruitless_ e) (same_ e) (gates e) (responseGroupCounter e) (toolCache e)).
Definition set_parse v := on_ex (fun e => mkExecutor (circuitBreaker e) (repeat_ e)
  (consecutiveTruncationCount e) v (fruitless_ e) (same_ e) (gates e) (responseGroupCounter e) (toolCache e)).
Definition set_fruitless v := on_ex (fun e => mkExecutor (circuitBreaker e) (repeat_ e)
  (consecutiveTruncationCount e) (parse_ e) v (same_ e) (gates e) (responseGroupCounter e) (toolCache e)).
Definition set_same v := on_ex (fun e => mkExecutor (circuitBreaker e) (repeat_ e)
  (consecutiveTruncationCount e) (parse_ e) (fruitless_ e) v (gates e) (responseGroupCounter e) (toolCache e)).
Definition set_gates v := on_ex (fun e => mkExecutor (circuitBreaker e) (repeat_ e)
  (consecutiveTruncationCount e) (parse_ e) (fruitless_ e) (same_ e) v (responseGroupCounter e) (toolCache e)).
Definition set_groupCounter v := on_ex (fun e => mkExecutor (circuitBreaker e) (repeat_ e)
  (consecutiveTruncationCount e) (parse_ e) (fruitless_ e) (same_ e) (gates e) v (toolCache e)).
Definition set_toolCache v := on_ex (fun e => mkExecutor (circuitBreaker e) (repeat_ e)
  (consecutiveTruncationCount e) (parse_ e) (fruitless_ e) (same_ e) (gates e) (responseGroupCounter e) v).

Definition set_stepNum v := on_run (fun r => mkRun v (allSteps r) (unlimitedSteps r) (effectiveMaxSteps r)
  (finishResult r) (circuitBreakerTriggered r) (responseGroup r) (reactiveCompactAttempted r)
  (pendingVerifyEdit r) (nearServerLimitLatched r) (nudges r) (stream r)).
Definition set_allSteps v := on_run (fun r => mkRun (stepNum r) v (unlimitedSteps r) (effectiveMaxSteps r)
  (finishResult r) (circuitBreakerTriggered r) (responseGroup r) (reactiveCompactAttempted r)
  (pendingVerifyEdit r) (nearServerLimitLatched r) (nudges r) (stream r)).
Definition set_unlimited v := on_run (fun r => mkRun (stepNum r) (allSteps r) v (effectiveMaxSteps r)
  (finishResult r) (circuitBreakerTriggered r) (responseGroup r) (reactiveCompactAttempted r)
  (pendingVerifyEdit r) (nearServerLimitLatched r) (nudges r) (stream r)).
Definition set_effectiveMax v := on_run (fun r => mkRun (stepNum r) (allSteps r) (unlimitedSteps r) v
  (finishResult r) (circuitBreakerTriggered r) (responseGroup r) (reactiveCompactAttempted r)
  (pendingVerifyEdit r) (nearServerLimitLatched r) (nudges r) (stream r)).
Definition set_finish v := on_run (fun r => mkRun (stepNum r) (allSteps r) (unlimitedSteps r)
  (effectiveMaxSteps r) v (circuitBreakerTriggered r) (responseGroup r) (reactiveCompactAttempted r)
  (pendingVerifyEdit r) (nearServerLimitLatched r) (nudges r) (stream r)).
Definition set_triggered v := on_run (fun r => mkRun (stepNum r) (allSteps r) (unlimitedSteps r)
  (effectiveMaxSteps r) (finishResult r) v (responseGroup r) (reactiveCompactAttempted r)
  (pendingVerifyEdit r) (nearServerLimitLatched r) (nudges r) (stream r)).
Definition set_group v := on_run (fun r => mkRun (stepNum r) (allSteps r) (unlimitedSteps r)
  (effectiveMaxSteps r) (finishResult r) (circuitBreakerTriggered r) v (reactiveCompactAttempted r)
  (pendingVerifyEdit r) (nearServerLimitLatched r) (nudges r) (stream r)).
Definition set_reactive v := on_run (fun r => mkRun (stepNum r) (allSteps r) (unlimitedSteps r)
  (effectiveMaxSteps r) (finishResult r) (circuitBreakerTriggered r) (responseGroup r) v
  (pendingVerifyEdit r) (nearServerLimitLatched r) (nudges r) (stream r)).
Definition set_pendingVerify v := on_run (fun r => mkRun (stepNum r) (allSteps r) (unlimitedSteps r)
  (effectiveMaxSteps r) (finishResult r) (circuitBreakerTriggered r) (responseGroup r)
  (reactiveCompactAttempted r) v (nearServerLimitLatched r) (nudges r) (stream r)).
Definition set_latched v := on_run (fun r => mkRun (stepNum r) (allSteps r) (unlimitedSteps r)
  (effectiveMaxSteps r) (finishResult r) (circuitBreakerTriggered r) (responseGroup r)
  (reactiveCompactAttempted r) (pendingVerifyEdit r) v (nudges r) (stream r)).
Definition set_nudges v := on_run (fun r => mkRun (stepNum r) (allSteps r) (unlimitedSteps r)
  (effectiveMaxSteps r) (finishResult r) (circuitBreakerTriggered r) (responseGroup r)
  (reactiveCompactAttempted r) (pendingVerifyEdit r) (nearServerLimitLatched r) v (stream r)).
Definition set_stream v := on_run (fun r => mkRun (stepNum r) (allSteps r) (unlimitedSteps r)
  (effectiveMaxSteps r) (finishResult r) (circuitBreakerTriggered r) (responseGroup r)
  (reactiveCompactAttempted r) (pendingVerifyEdit r) (nearServerLimitLatched r) (nudges r) v).

(** [state.allSteps = append(state.allSteps, step)] *)
Definition push_step (st : Step) (s : xstate) : xstate := set_allSteps (allSteps (run s) ++ [st]) s.
(** The append followed by [cw.AddStep(step)]. *)
Definition add_step (st : Step) (s : xstate) : xstate := emit (CwAddStep st) (push_step st s).

(** An unfinished result holding the trajectory so far. *)
Definition unfinished (output : string) (s : xstate) : ExecutorResult :=
  mkExecutorResult output (allSteps (run s)) false "" "".

Definition setPreCompaction (v : bool) (s : xstate) : xstate :=
  let n := nudges (run s) in
  set_nudges (mkNudges (implicitFinishNudgeCount n) (toolCallSyntaxNudgeCount n)
    (wrapUpNudgeAttempted n) v (checklistStaleNudgeCount n)) s.

(** ** The state a run starts in *)

Definition DefaultCircuitBreakerConfig : CircuitBreakerConfig := {|
  RepeatNudgeThreshold := 3;
  RepeatAbortThreshold := 5;
  TruncationAbortThreshold := 3;
  ParseErrorAbortThreshold := 3;
  FruitlessNudgeThreshold := 5;
  FruitlessAbortThreshold := 8;
  FruitlessMaxResultLen := 48;
  SameToolRepeatNudgeThreshold := 8;
  SameToolRepeatAbortThreshold := 12;
  SameToolResultSizeDelta := 128;
|}.

Definition NewExecutor (cb : CircuitBreakerConfig) (cache : option ToolResultCache) : Executor :=
  mkExecutor cb (mkRepeat 0 "" false) 0 (mkParse "" 0) (mkFruitless 0 false)
    (mkSame 0 "" 0 false false) (mkGates false false false false) 0 cache.

(** [&runState{effectiveMaxSteps: e.maxSteps}] *)
Definition new_run (maxSteps : Z) : runState :=
  mkRun 0 [] false maxSteps None false 0 false false false (mkNudges 0 0 false false 0)
    (mkStream false false "" 0 0).

(** The state at the first step. *)
Definition set_stepNum_run (n : Z) (r : runState) : runState := run (set_stepNum n (mkX
  (NewExecutor DefaultCircuitBreakerConfig None) r [])).

(** ** [mutatingTools], [circuitBreakerExemptTools] and the predicates on steps *)

Definition mutatingTools : list string :=
  ["write_file"; "edit_file"; "create_directory"; "delete_file"; "delete_directory"].

Definition circuitBreakerExemptTools : list string :=
  ["write_file"; "edit_file"; "create_directory"; "delete_file"; "delete_directory";
   "update_checklist"; "set_step_status"; "store_fact"].

Definition defaultNonCacheableTools : list string :=
  ["tool_result_read"; "finish"; "read_step_output"; "list_step_outputs"; "read_final_result";
   "read_attachment"; "store_fact"; "search_facts"; "update_checklist"; "batch"].

Definition isSuccessfulMutationStep (s : Step) : bool :=
  if String.eqb (tc_name (s_action s)) "" then false
  else if negb (bool_decide (tc_name (s_action s) ∈ mutatingTools)) then false
  else if has_prefix (s_observation s) "[Tool call rejected" then false
  else negb (s_is_error s).

Definition hasMutatingToolExecuted (steps : list Step) : bool :=
  existsb isSuccessfulMutationStep steps.

(** The backward scan of [recentSuccessfulMutation], on the reversed steps. *)
Fixpoint recent_scan (rev_steps : list Step) (seen lookback : Z) : bool :=
  match rev_steps with
  | [] => false
  | s :: r =>
      if negb (seen <? lookback) then false
      else if String.eqb (tc_name (s_action s)) "" then recent_scan r seen lookback
      else if isSuccessfulMutationStep s then true
      else recent_scan r (seen + 1) lookback
  end.

Definition recentSuccessfulMutation (steps : list Step) (lookback : Z) : bool :=
  recent_scan (rev steps) 0 lookback.

Definition is_checklist_update (s : Step) : bool :=
  String.eqb (tc_name (s_action s)) "update_checklist" && negb (s_is_error s).

Definition hasChecklistUpdate (steps : list Step) : bool := existsb is_checklist_update steps.

Definition isProductiveCall (name : string) : bool :=
  negb (String.eqb name "" || String.eqb name "finish" || String.eqb name "update_checklist").

Definition count_productive (steps : list Step) : Z :=
  Z.of_nat (length (List.filter (fun s => isProductiveCall (tc_name (s_action s))) steps)).

Definition countProductiveToolCalls (steps : list Step) : Z := count_productive steps.

(** The steps before, at and after the last successful [update_checklist]. *)
Fixpoint lastChecklistUpdateIndex (rev_steps : list Step) : Z :=
  match rev_steps with
  | [] => -1
  | s :: r => if is_checklist_update s then Z.of_nat (length r) else lastChecklistUpdateIndex r
  end.

Definition productiveCallsSinceLastChecklistUpdate (steps : list Step) : Z :=
  let startIdx := lastChecklistUpdateIndex (rev steps) + 1 in
  count_productive (drop (Z.to_nat startIdx) steps).

(** Nothing but the trajectory and the trace changes: what [emit] and the
    appends keep. *)
Lemma run_emit ev s : run (emit ev s) = run s.
Proof. done. Qed.
Lemma allSteps_add st s : allSteps (run (add_step st s)) = allSteps (run s) ++ [st].
Proof. done. Qed.

End state.

(** ** A scripted environment for the examples *)

Section scripted.
Local Existing Instance Float64_Q.

(** The model answers from a script, the tools all return [tool], the human
    answers [limit] at every limit and allows every call, except those to a
    tool named "forbidden", and the context is never full. *)
Definition scripted (script : list llm_outcome) (tool : ToolResult) (limit : res StepLimitResponse)
    : World := {|
  w_OnStepLimit _ _ _ _ := limit;
  w_OnToolCall _ name _ :=
    if String.eqb name "forbidden" then inl (Some (mkDecision false "" "")) else inl None;
  w_toolRun _ _ _ := mkToolRun (Some (inl tool)) [] (inl tool);
  w_GetToolSource _ := "core";
  w_IsToolUntrusted _ := false;
  w_ContentBacked _ _ := false;
  w_LLM h := nth (count_events is_llm_call h) script (mkOutcome [] (inr (mkErr "script over" [])));
  w_ctxErr _ := None;
  w_pauseChecker := None;
  w_userMessageSource := None;
  w_finishGuard := None;
  w_CheckFill _ := mkFill (0#1)%Q "ok" 0 100000;
  w_AvailableTokens _ := 100000;
  w_OutputLimit _ := 4096;
  w_VulnerableOutputs _ := [];
  w_Compact _ := None;
  w_ContextWindowSize := None;
  w_ToolOverheadAware := true;
  w_InterjectionConsumer := true;
  w_TrajectoryStore := false;
  w_verifyOnEdit := None;
  w_verifyAtCheckpoint _ := None;
  w_workspaceStat _ _ := None;
  w_now _ := 0;
  w_rangeOrder _ := [];
  w_sha256hex := toy_hash;
  w_ToLower s := s;
  w_quote s := dq +s+ s +s+ dq;
  w_jsonError _ := "invalid";
  w_mergeFragmentWindow _ frag := frag;
|}.

Definition example_config (steps : Z) : Config := {|
  maxSteps := steps;
  suppressAssistantEvents := false;
  streaming := false;
  HardCapTokens := 0;
  MaxFillFraction := (2 # 5)%Q;
  perToolTruncation := ∅;
  nonCacheableTools := list_to_set defaultNonCacheableTools;
  mutationRequired := false;
  checklistGateEnabled := true;
  preWarningPercent := 0;
  stopTools := ∅;
  verifyOnEditCap := 4000;
  watchdog := mkWatch false 0 defaultToolCallTimeoutExemptTools;
  taskTools := ["read_file"; "write_file"];
  resumeSteps := [];
|}.

(** A response with text and tool calls. *)
Definition example_response (text stop : string) (calls : list ToolCall) : ChatResponse :=
  mkChatResponse "m" "f" (mkMessage "assistant" text [] "" calls "" []) "" (mkTokenUsage 10 5) stop.

Definition example_start (steps : Z) : xstate :=
  mkX (NewExecutor DefaultCircuitBreakerConfig None) (set_stepNum_run 1 (new_run steps)) [].
End scripted.
