(* ===== verification/Breaker.v ===== *)
(** * Step limit and circuit breakers: [src/agent/executor_run.go]

    The step-limit boundary, the four circuit breakers on tool calls (identical
    calls, fruitless results, one tool with similar results, malformed
    arguments), the breaker on truncated responses, and the mid-run nudges.
    Each handler is a function on the run's state that returns what its Go
    counterpart returns next to the new state. *)

From Stdlib Require Import ZArith Lia.
From stdpp Require Import base gmap strings list.
From S2P Require Import Prelude GoStr GoFloat AgentTypes Nudges Json ToolCache Watchdog ExecState.
Open Scope sp4rk_scope.
Open Scope Z_scope.

Section breaker.
Context `{Float64} (cfg : Config) (w : World).

(** [e.hitl.OnStepLimit]: [None] is an error of the handler. *)
Definition OnStepLimit (reason : string) (s : xstate) : option StepLimitResponse * xstate :=
  let r := run s in
  (match w_OnStepLimit w (trace s) (stepNum r) (effectiveMaxSteps r) reason with
   | Ok a => Some a
   | Err _ => None
   end,
   emit (AskedStepLimit (stepNum r) (effectiveMaxSteps r) reason) s).

Definition diag (name : string) (details : list (string * detail)) (s : xstate) : xstate :=
  emit (EvDiagnostic (stepNum (run s)) name details) s.

Definition tool_result_event (callIdx : Z) (text : string) (isError : bool) (s : xstate) : xstate :=
  emit (EvToolResult (stepNum (run s)) callIdx (slen text) text isError) s.

Definition handleStepLimitBoundary (s : xstate) : loopAction * xstate :=
  if unlimitedSteps (run s) || (stepNum (run s) <=? effectiveMaxSteps (run s)) then (actionNone, s)
  else
    let '(resp, s) := OnStepLimit "" s in
    match resp with
    | None => (actionReturn, set_finish (Some (unfinished "" s)) s)
    | Some StepLimitAllowOnce =>
        (actionNone, add_step (nudge_step step_limit_once_nudge)
                       (set_effectiveMax (effectiveMaxSteps (run s) + 1) s))
    | Some StepLimitAllowMore =>
        let grant := if maxSteps cfg <? 1 then 1 else maxSteps cfg in
        (actionNone, add_step (nudge_step (step_limit_more_nudge grant))
                       (set_effectiveMax (effectiveMaxSteps (run s) + grant) s))
    | Some StepLimitAllowAlways =>
        (actionNone, add_step (nudge_step step_limit_always_nudge) (set_unlimited true s))
    | Some StepLimitDeny => (actionBreak, s)
    | Some (StepLimitOther _) => (actionBreak, s)
    end.

(** The switch every breaker applies to the answer at its abort threshold:
    [reset] clears its counters, [disable] lifts its threshold. *)
Definition breaker_switch (resp : option StepLimitResponse) (reset disable : xstate -> xstate)
    (ack : bool -> string) (override : string) (s : xstate) : xstate :=
  match resp with
  | Some StepLimitAllowOnce => set_triggered true (add_step (nudge_step (ack false)) (reset s))
  | Some StepLimitAllowMore => set_triggered true (add_step (nudge_step (ack true)) (reset s))
  | Some StepLimitAllowAlways =>
      set_triggered true (add_step (nudge_step override) (disable (reset s)))
  | _ => s
  end.

(** ** Identical calls *)

Definition compactJSON (raw : string) : string := default raw (json_compact raw).

Definition toolKey (action : ToolCall) : string := tc_name action +s+ ":" +s+ compactJSON (tc_input action).

(** The tracker after the call [key] arrives. *)
Definition track_repeat (key : string) (t : RepeatTracker) : RepeatTracker :=
  if String.eqb key (lastToolKey t)
  then mkRepeat (consecutiveRepeatCount t + 1) (lastToolKey t) (lastToolResultIsError t)
  else mkRepeat 1 key false.

(** A threshold, one lower after an error (0 stays disabled). *)
Definition lowered (isError : bool) (threshold : Z) : Z :=
  if isError && (0 <? threshold) then threshold - 1 else threshold.

Definition reset_repeat (s : xstate) : xstate :=
  let t := repeat_ (ex s) in
  set_repeat (mkRepeat 0 (lastToolKey t) (lastToolResultIsError t)) s.

Definition with_RepeatAbort (v : Z) (c : CircuitBreakerConfig) : CircuitBreakerConfig :=
  mkCircuitBreakerConfig (RepeatNudgeThreshold c) v (TruncationAbortThreshold c)
    (ParseErrorAbortThreshold c) (FruitlessNudgeThreshold c) (FruitlessAbortThreshold c)
    (FruitlessMaxResultLen c) (SameToolRepeatNudgeThreshold c) (SameToolRepeatAbortThreshold c)
    (SameToolResultSizeDelta c).

Definition usage_sum (resp : ChatResponse) : Z := u_in (r_usage resp) + u_out (r_usage resp).

(** The first call of a response carries its thought and reasoning. *)
Definition carry {A} (first : bool) (v zero : A) : A := if first then v else zero.

Definition intercepted_step (action : ToolCall) (callIdx : Z) (thought obs : string)
    (resp : ChatResponse) (group : Z) : Step :=
  let first := callIdx =? 0 in
  {| s_thought := carry first thought "";
     s_reasoning := carry first (m_reasoning (r_message resp)) "";
     s_reasoning_items := carry first (m_reasoning_items (r_message resp)) [];
     s_action := action;
     s_observation := obs;
     s_is_error := true;
     s_tokens := usage_sum resp;
     s_nudge := "";
     s_group := group;
     s_untrusted := false;
     s_cache_hash := "" |}.

Definition checkRepeatIdenticalTool (action : ToolCall) (callIdx : Z) (thought : string)
    (resp : ChatResponse) (s : xstate) : loopAction * option ExecutorResult * xstate :=
  let group := responseGroup (run s) in
  let s := set_repeat (track_repeat (toolKey action) (repeat_ (ex s))) s in
  let t := repeat_ (ex s) in
  let cb := circuitBreaker (ex s) in
  let n := consecutiveRepeatCount t in
  let nudgeThreshold := lowered (lastToolResultIsError t) (RepeatNudgeThreshold cb) in
  let abortThreshold := lowered (lastToolResultIsError t) (RepeatAbortThreshold cb) in
  if (0 <? abortThreshold) && (abortThreshold <=? n) then
    let s := diag "repeated_tool_call_abort" [("tool", DStr (tc_name action)); ("repeat_count", DInt n)] s in
    let '(a, s) := OnStepLimit (repeat_reason (tc_name action) n) s in
    let s := breaker_switch a reset_repeat
               (fun s => set_cb (with_RepeatAbort (2 ^ 30) (circuitBreaker (ex s))) s)
               repeat_ack_nudge repeat_override_nudge s in
    if circuitBreakerTriggered (run s) then (actionBreak, None, s)
    else
      let msg := repeat_abort (tc_name action) (consecutiveRepeatCount (repeat_ (ex s))) in
      let s := tool_result_event callIdx msg true s in
      (actionNone, Some (unfinished msg s), s)
  else if (0 <? nudgeThreshold) && (nudgeThreshold <=? n) then
    let msg := if lastToolResultIsError t then repeatErrorNudgeMessage else repeatNudgeMessage in
    let s := diag "repeated_tool_call_nudge" [("tool", DStr (tc_name action)); ("repeat_count", DInt n)] s in
    let s := tool_result_event callIdx msg true s in
    let s := add_step (intercepted_step action callIdx thought msg resp group) s in
    (actionBreak, None, set_triggered true s)
  else (actionNone, None, s).

(** ** Fruitless results *)

Definition exempt (name : string) : bool := bool_decide (name ∈ circuitBreakerExemptTools).

Definition with_FruitlessAbort (v : Z) (c : CircuitBreakerConfig) : CircuitBreakerConfig :=
  mkCircuitBreakerConfig (RepeatNudgeThreshold c) (RepeatAbortThreshold c) (TruncationAbortThreshold c)
    (ParseErrorAbortThreshold c) (FruitlessNudgeThreshold c) v
    (FruitlessMaxResultLen c) (SameToolRepeatNudgeThreshold c) (SameToolRepeatAbortThreshold c)
    (SameToolResultSizeDelta c).

Definition fruitlessMaxLen (cb : CircuitBreakerConfig) : Z :=
  if FruitlessMaxResultLen cb =? 0 then 32 else FruitlessMaxResultLen cb.

(** The counter after a result of a tool that is not exempt. *)
Definition track_fruitless (cb : CircuitBreakerConfig) (observation : string) (isError : bool)
    (t : FruitlessTracker) : FruitlessTracker :=
  if negb isError && (slen observation <=? fruitlessMaxLen cb)
  then mkFruitless (consecutiveFruitlessCount t + 1) (fruitlessNudgeAttempted t)
  else if negb isError then mkFruitless 0 (fruitlessNudgeAttempted t)
  else t.

Definition checkFruitlessResult (action : ToolCall) (callIdx : Z) (observation : string)
    (isError : bool) (s : xstate) : loopAction * option ExecutorResult * xstate :=
  if exempt (tc_name action) then
    (actionNone, None, set_fruitless (mkFruitless 0 (fruitlessNudgeAttempted (fruitless_ (ex s)))) s)
  else
    let cb := circuitBreaker (ex s) in
    let s := set_fruitless (track_fruitless cb observation isError (fruitless_ (ex s))) s in
    let n := consecutiveFruitlessCount (fruitless_ (ex s)) in
    if (0 <? FruitlessAbortThreshold cb) && (FruitlessAbortThreshold cb <=? n) then
      let s := diag "fruitless_abort" [("consecutive", DInt n)] s in
      let s := tool_result_event callIdx observation isError s in
      let '(a, s) := OnStepLimit (fruitless_reason n) s in
      let s := breaker_switch a (set_fruitless (mkFruitless 0 false))
                 (fun s => set_cb (with_FruitlessAbort 0 (circuitBreaker (ex s))) s)
                 fruitless_ack_nudge fruitless_override_nudge s in
      if circuitBreakerTriggered (run s) then (actionBreak, None, s)
      else (actionNone, Some (unfinished (fruitless_abort (consecutiveFruitlessCount (fruitless_ (ex s)))) s), s)
    else if (0 <? FruitlessNudgeThreshold cb) && (FruitlessNudgeThreshold cb <=? n) &&
            negb (fruitlessNudgeAttempted (fruitless_ (ex s))) then
      let s := set_fruitless (mkFruitless n true) s in
      let s := diag "fruitless_nudge" [("consecutive", DInt n)] s in
      let s := tool_result_event callIdx observation false s in
      let s := add_step (nudge_step (executorFruitlessNudge n)) s in
      (actionBreak, None, set_triggered true s)
    else (actionNone, None, s).

(** ** One tool with similar results *)

Definition with_SameToolAbort (v : Z) (c : CircuitBreakerConfig) : CircuitBreakerConfig :=
  mkCircuitBreakerConfig (RepeatNudgeThreshold c) (RepeatAbortThreshold c) (TruncationAbortThreshold c)
    (ParseErrorAbortThreshold c) (FruitlessNudgeThreshold c) (FruitlessAbortThreshold c)
    (FruitlessMaxResultLen c) (SameToolRepeatNudgeThreshold c) v (SameToolResultSizeDelta c).

Definition sizeDelta (cb : CircuitBreakerConfig) : Z :=
  if SameToolResultSizeDelta cb =? 0 then 64 else SameToolResultSizeDelta cb.

Definition track_same (cb : CircuitBreakerConfig) (name : string) (result : ToolResult)
    (t : SameToolTracker) : SameToolTracker :=
  let resultLen := slen (tr_content result) in
  let count :=
    if sameToolLastResultIsError t && negb (tr_is_error result) then 1
    else if String.eqb name (sameToolLastName t) &&
            (Z.abs (resultLen - sameToolLastResultLen t) <=? sizeDelta cb)
    then sameToolConsecutiveCount t + 1
    else 1 in
  mkSame count name resultLen (tr_is_error result) (sameToolNudgeAttempted t).

Definition checkSameToolRepetition (action : ToolCall) (callIdx : Z) (observation : string)
    (result : ToolResult) (s : xstate) : loopAction * option ExecutorResult * xstate :=
  if exempt (tc_name action) then
    (actionNone, None, set_same (mkSame 0 "" 0 false (sameToolNudgeAttempted (same_ (ex s)))) s)
  else
    let cb := circuitBreaker (ex s) in
    let s := set_same (track_same cb (tc_name action) result (same_ (ex s))) s in
    let t := same_ (ex s) in
    let n := sameToolConsecutiveCount t in
    if (0 <? SameToolRepeatAbortThreshold cb) && (SameToolRepeatAbortThreshold cb <=? n) then
      let s := diag "same_tool_repeat_abort" [("tool", DStr (tc_name action)); ("consecutive", DInt n)] s in
      let s := tool_result_event callIdx observation (tr_is_error result) s in
      let '(a, s) := OnStepLimit (same_reason (tc_name action) n) s in
      let s := breaker_switch a
                 (set_same (mkSame 0 (sameToolLastName t) (sameToolLastResultLen t)
                              (sameToolLastResultIsError t) false))
                 (fun s => set_cb (with_SameToolAbort 0 (circuitBreaker (ex s))) s)
                 same_ack_nudge same_override_nudge s in
      if circuitBreakerTriggered (run s) then (actionBreak, None, s)
      else (actionNone,
            Some (unfinished (same_abort (tc_name action) (sameToolConsecutiveCount (same_ (ex s)))) s), s)
    else if (0 <? SameToolRepeatNudgeThreshold cb) && (SameToolRepeatNudgeThreshold cb <=? n) &&
            negb (sameToolNudgeAttempted t) then
      let s := set_same (mkSame n (sameToolLastName t) (sameToolLastResultLen t)
                           (sameToolLastResultIsError t) true) s in
      let s := diag "same_tool_repeat_nudge" [("tool", DStr (tc_name action)); ("consecutive", DInt n)] s in
      let s := tool_result_event callIdx observation false s in
      let s := add_step (nudge_step (executorSameToolRepeatNudge (tc_name action) n)) s in
      (actionBreak, None, set_triggered true s)
    else (actionNone, None, s).

(** ** Malformed arguments *)

Definition isParseError (content : string) : bool := contains content "failed to parse input".

Definition parseErrorNudgeErrPrefix : Z := 200.
Definition parseErrorNudgeRawPrefix : Z := 300.

Definition formatParseErrorNudge (rawInput observation : string) (count : Z) : string :=
  let errDesc := TruncateUTF8 (trim_space observation) parseErrorNudgeErrPrefix in
  let rawExcerpt := TruncateUTF8 rawInput parseErrorNudgeRawPrefix in
  let rawExcerpt := if String.eqb (trim_space rawExcerpt) "" then "(empty)" else rawExcerpt in
  parseErrorNudgeFmt count errDesc parseErrorNudgeRawPrefix rawExcerpt.

Definition with_ParseErrorAbort (v : Z) (c : CircuitBreakerConfig) : CircuitBreakerConfig :=
  mkCircuitBreakerConfig (RepeatNudgeThreshold c) (RepeatAbortThreshold c) (TruncationAbortThreshold c)
    v (FruitlessNudgeThreshold c) (FruitlessAbortThreshold c)
    (FruitlessMaxResultLen c) (SameToolRepeatNudgeThreshold c) (SameToolRepeatAbortThreshold c)
    (SameToolResultSizeDelta c).

Definition track_parse (name : string) (t : ParseTracker) : ParseTracker :=
  if String.eqb name (consecutiveParseErrorTool t)
  then mkParse (consecutiveParseErrorTool t) (consecutiveParseErrorCount t + 1)
  else mkParse name 1.

Definition checkParseErrors (action : ToolCall) (callIdx : Z) (observation : string)
    (result : ToolResult) (s : xstate) : string * loopAction * option ExecutorResult * xstate :=
  if tr_is_error result && isParseError observation then
    let cb := circuitBreaker (ex s) in
    let s := set_parse (track_parse (tc_name action) (parse_ (ex s))) s in
    let t := parse_ (ex s) in
    let n := consecutiveParseErrorCount t in
    if (0 <? ParseErrorAbortThreshold cb) && (ParseErrorAbortThreshold cb <=? n) then
      let s := diag "parse_error_abort"
                 [("tool", DStr (tc_name action)); ("consecutive_parse_errors", DInt n)] s in
      let s := tool_result_event callIdx observation true s in
      let '(a, s) := OnStepLimit (parse_reason (tc_name action) n) s in
      let s := breaker_switch a (set_parse (mkParse (consecutiveParseErrorTool t) 0))
                 (fun s => set_cb (with_ParseErrorAbort (2 ^ 30) (circuitBreaker (ex s))) s)
                 parse_ack_nudge parse_override_nudge s in
      if circuitBreakerTriggered (run s) then (observation, actionBreak, None, s)
      else (observation, actionNone,
            Some (unfinished (parse_abort (tc_name action) (consecutiveParseErrorCount (parse_ (ex s)))) s), s)
    else
      let s := diag "parse_error_nudge"
                 [("tool", DStr (tc_name action)); ("consecutive_parse_errors", DInt n)] s in
      (observation +s+ nl2 +s+ formatParseErrorNudge (tc_input action) observation n, actionNone, None, s)
  else if negb (tr_is_error result) then (observation, actionNone, None, set_parse (mkParse "" 0) s)
  else (observation, actionNone, None, s).

(** ** Truncated responses *)

Definition with_TruncationAbort (v : Z) (c : CircuitBreakerConfig) : CircuitBreakerConfig :=
  mkCircuitBreakerConfig (RepeatNudgeThreshold c) (RepeatAbortThreshold c) v
    (ParseErrorAbortThreshold c) (FruitlessNudgeThreshold c) (FruitlessAbortThreshold c)
    (FruitlessMaxResultLen c) (SameToolRepeatNudgeThreshold c) (SameToolRepeatAbortThreshold c)
    (SameToolResultSizeDelta c).

(** A step that carries the response's thought and reasoning, no call. *)
Definition response_step (thought nudge : string) (tokens : Z) (resp : ChatResponse) : Step :=
  mkStep thought (m_reasoning (r_message resp)) (m_reasoning_items (r_message resp)) no_tool_call
    "" false tokens nudge 0 false "".

Definition handleTruncationStopReason (resp : ChatResponse) (thought : string) (s : xstate)
    : option ExecutorResult * loopAction * xstate :=
  match m_tool_calls (r_message resp) with
  | [] => (None, actionNone, s) (* not called: an index out of range in Go *)
  | truncAction :: _ =>
      let tool := tc_name truncAction in
      let step_complete s := emit (EvStepComplete (stepNum (run s))) s in
      let s := emit (EvToolCall (stepNum (run s)) 0 tool (tc_input truncAction) (w_GetToolSource w tool)) s in
      let n := consecutiveTruncationCount (ex s) + 1 in
      let s := set_truncation n s in
      let cb := circuitBreaker (ex s) in
      let notice s :=
        let truncObs := truncationMessage tool in
        let s := diag "truncation_detected" [("tool", DStr tool); ("consecutive", DInt n)] s in
        let step := mkStep thought (m_reasoning (r_message resp)) (m_reasoning_items (r_message resp))
                      truncAction truncObs true (usage_sum resp) "" 0 false "" in
        let s := tool_result_event 0 truncObs true (add_step step s) in
        (None, actionContinue, step_complete s) in
      if (0 <? TruncationAbortThreshold cb) && (TruncationAbortThreshold cb <=? n) then
        let s := diag "truncation_abort" [("tool", DStr tool); ("consecutive", DInt n)] s in
        let '(a, s) := OnStepLimit (truncation_reason tool n) s in
        let reprieved nudge s :=
          (None, actionContinue, step_complete (add_step (response_step thought nudge 0 resp) s)) in
        match a with
        | Some StepLimitAllowOnce => reprieved (truncation_ack_nudge false) (set_truncation 0 s)
        | Some StepLimitAllowMore => reprieved (truncation_ack_nudge true) (set_truncation 0 s)
        | Some StepLimitAllowAlways =>
            reprieved truncation_override_nudge
              (set_cb (with_TruncationAbort (2 ^ 30) (circuitBreaker (ex s))) (set_truncation 0 s))
        | _ => (Some (unfinished (truncation_abort tool n) s), actionNone, s)
        end
      else notice s
  end.

(** ** Nudges between steps *)

Definition wrapUpActiveLookback : Z := 5.

Definition handleWrapUpNudge (s : xstate) : xstate :=
  let r := run s in let n := nudges r in
  if (3 <? effectiveMaxSteps r) && (effectiveMaxSteps r - 3 <=? stepNum r) && negb (wrapUpNudgeAttempted n) then
    let remaining := effectiveMaxSteps r - stepNum r in
    let active := recentSuccessfulMutation (allSteps r) wrapUpActiveLookback in
    let msg := if active then executorWrapUpNudgeActive remaining else executorWrapUpNudge remaining in
    let s := set_nudges (mkNudges (implicitFinishNudgeCount n) (toolCallSyntaxNudgeCount n) true
                           (preCompactionNudgeEmitted n) (checklistStaleNudgeCount n)) s in
    diag "executor_wrapup_nudge"
      [("remaining", DInt remaining); ("mode", DStr (if active then "active_progress" else "default"))]
      (add_step (nudge_step msg) s)
  else s.

Definition checklistAvailable : bool := bool_decide ("update_checklist" ∈ taskTools cfg).
Definition checklistStaleNudgeCap : Z := 2.
Definition checklistStalenessThreshold : Z := 3.

Definition handleChecklistStalenessNudge (s : xstate) : xstate :=
  let r := run s in let n := nudges r in
  if negb (checklistGateEnabled cfg) || negb checklistAvailable || negb (hasChecklistUpdate (allSteps r)) then s
  else if checklistStaleNudgeCap <=? checklistStaleNudgeCount n then s
  else
    let sinceUpdate := productiveCallsSinceLastChecklistUpdate (allSteps r) in
    if sinceUpdate <? checklistStalenessThreshold then s
    else
      let k := checklistStaleNudgeCount n + 1 in
      let s := set_nudges (mkNudges (implicitFinishNudgeCount n) (toolCallSyntaxNudgeCount n)
                 (wrapUpNudgeAttempted n) (preCompactionNudgeEmitted n) k) s in
      diag "checklist_stale_nudge" [("calls_since_update", DInt sinceUpdate); ("nudge_count", DInt k)]
        (add_step (nudge_step (executorChecklistStaleNudge sinceUpdate)) s).

(** ** Compaction after a step *)

Definition compact_context (s : xstate) : xstate :=
  let result := w_Compact w (trace s) in
  let s := emit CwCompact s in
  match result with
  | Some (b, a) => emit (EvContextCompaction b a) s
  | None => s
  end.

Inductive compact_error := BudgetTooSmall (max : Z) | WindowFull (percent : F) (max : Z).

Definition handleCompactionAfterStep (s : xstate) : loopAction * option compact_error * xstate :=
  let fill := w_CheckFill w (trace s) in
  let s := emit (EvContextFill fill) s in
  if String.eqb (Status fill) "compact" || String.eqb (Status fill) "warning" ||
     String.eqb (Status fill) "emergency" then
    (actionNone, None, setPreCompaction false (set_reactive false (compact_context s)))
  else if String.eqb (Status fill) "reject" then
    if Max fill <=? 0 then (actionNone, Some (BudgetTooSmall (Max fill)), s)
    else if negb (reactiveCompactAttempted (run s)) then
      (actionContinue, None, setPreCompaction false (compact_context (set_reactive true s)))
    else (actionNone, Some (WindowFull (Percent fill) (Max fill)), s)
  else (actionNone, None, set_reactive false s).

(** ** What a breaker may do *)

(** The outcome of a breaker check, from a state no breaker has tripped in: it
    lets the call go on and adds nothing; or it trips, flags the response and
    adds exactly one step to both the trajectory and the context; or it ends
    the run, unfinished, with the trajectory as it is, and only when the human
    did not grant a reprieve. *)
Definition breaker_ok (s : xstate) (o : loopAction * option ExecutorResult * xstate) : Prop :=
  let '(act, res, s') := o in
  match act, res with
  | actionNone, None =>
      allSteps (run s') = allSteps (run s) /\ circuitBreakerTriggered (run s') = false
  | actionBreak, None =>
      circuitBreakerTriggered (run s') = true /\
      exists st, allSteps (run s') = allSteps (run s) ++ [st] /\ CwAddStep st ∈ trace s'
  | actionNone, Some r =>
      er_finished r = false /\ er_steps r = allSteps (run s) /\
      allSteps (run s') = allSteps (run s) /\ circuitBreakerTriggered (run s') = false /\
      exists h n m why, AskedStepLimit n m why ∈ trace s' /\
        match w_OnStepLimit w h n m why with
        | Ok StepLimitAllowOnce | Ok StepLimitAllowMore | Ok StepLimitAllowAlways => False
        | _ => True
        end
  | _, _ => False
  end.

(** The tail shared by the breakers: ask, switch, break or abort. *)
Lemma breaker_tail reason reset disable ack override (msg : xstate -> string)
    (post : xstate -> xstate) s s0 :
  allSteps (run s) = allSteps (run s0) -> circuitBreakerTriggered (run s) = false ->
  (forall x, allSteps (run (reset x)) = allSteps (run x)) ->
  (forall x, allSteps (run (disable x)) = allSteps (run x)) ->
  (forall x, run (post x) = run x /\ trace x `sublist_of` trace (post x)) ->
  breaker_ok s0
    (let '(a, s) := OnStepLimit reason s in
     let s := breaker_switch a reset disable ack override s in
     if circuitBreakerTriggered (run s) then (actionBreak, None, s)
     else (actionNone, Some (unfinished (msg s) (post s)), post s)).
Proof.
  intros Hs Ht Hr Hd Hp. unfold OnStepLimit. cbv zeta.
  set (s1 := emit _ s).
  assert (H1 : allSteps (run s1) = allSteps (run s0)) by exact Hs.
  assert (H2 : circuitBreakerTriggered (run s1) = false) by exact Ht.
  assert (Hask : AskedStepLimit (stepNum (run s)) (effectiveMaxSteps (run s)) reason ∈ trace s1).
  { simpl. apply elem_of_app. right. by apply list_elem_of_singleton. }
  assert (Hbreak : forall nudge x, allSteps (run x) = allSteps (run s0) ->
    breaker_ok s0 (if circuitBreakerTriggered (run (set_triggered true (add_step nudge x)))
      then (actionBreak, None, set_triggered true (add_step nudge x))
      else (actionNone, Some (unfinished (msg (set_triggered true (add_step nudge x)))
              (post (set_triggered true (add_step nudge x)))), post (set_triggered true (add_step nudge x))))).
  { intros nudge x Hx. simpl. split; [done|]. exists nudge. split; [by rewrite Hx|].
    apply elem_of_app. right. by apply list_elem_of_singleton. }
  destruct (w_OnStepLimit w (trace s) _ _ reason) as [a|e] eqn:Ea; simpl breaker_switch.
  - destruct a; cbv beta iota; try (apply Hbreak; rewrite ?Hd, Hr; exact H1).
    all: rewrite H2; destruct (Hp s1) as [Hp1 Hp2]; simpl; rewrite !Hp1.
    all: split; [done|]; split; [done|]; split; [done|]; split; [done|].
    all: exists (trace s), (stepNum (run s)), (effectiveMaxSteps (run s)), reason.
    all: rewrite Ea; split; [|done].
    all: eapply sublist_subseteq; [exact Hp2|exact Hask].
  - cbv beta iota. rewrite H2. destruct (Hp s1) as [Hp1 Hp2]. simpl. rewrite !Hp1.
    split; [done|]; split; [done|]; split; [done|]; split; [done|].
    exists (trace s), (stepNum (run s)), (effectiveMaxSteps (run s)), reason. rewrite Ea. split; [|done].
    eapply sublist_subseteq; [exact Hp2|exact Hask].
Qed.

(** A trip that adds a nudge step after some events. *)
Lemma breaker_nudge s0 s st :
  allSteps (run s) = allSteps (run s0) ->
  breaker_ok s0 (actionBreak, None, set_triggered true (add_step st s)).
Proof.
  intros Hs. simpl. split; [done|]. exists st. split; [by rewrite Hs|].
  apply elem_of_app. right. by apply list_elem_of_singleton.
Qed.

Lemma checkRepeat_ok action callIdx thought resp s :
  circuitBreakerTriggered (run s) = false ->
  breaker_ok s (checkRepeatIdenticalTool action callIdx thought resp s).
Proof.
  intros Ht. unfold checkRepeatIdenticalTool. cbv zeta.
  destruct (_ && _).
  - apply (breaker_tail _ _ _ _ _
      (fun s => repeat_abort (tc_name action) (consecutiveRepeatCount (repeat_ (ex s))))
      (fun s => tool_result_event callIdx
        (repeat_abort (tc_name action) (consecutiveRepeatCount (repeat_ (ex s)))) true s)); try done.
    intros x. split; [done|]. apply sublist_inserts_r. done.
  - destruct (_ && _); [by apply breaker_nudge|done].
Qed.

Lemma checkFruitless_ok action callIdx observation isError s :
  circuitBreakerTriggered (run s) = false ->
  breaker_ok s (checkFruitlessResult action callIdx observation isError s).
Proof.
  intros Ht. unfold checkFruitlessResult. cbv zeta.
  destruct (exempt (tc_name action)); [done|]. destruct (_ && _).
  - by apply (breaker_tail _ _ _ _ _
      (fun s => fruitless_abort (consecutiveFruitlessCount (fruitless_ (ex s)))) (fun s => s)).
  - destruct (_ && _); [by apply breaker_nudge|done].
Qed.

Lemma checkSameTool_ok action callIdx observation result s :
  circuitBreakerTriggered (run s) = false ->
  breaker_ok s (checkSameToolRepetition action callIdx observation result s).
Proof.
  intros Ht. unfold checkSameToolRepetition. cbv zeta.
  destruct (exempt (tc_name action)); [done|]. destruct (_ && _).
  - by apply (breaker_tail _ _ _ _ _
      (fun s => same_abort (tc_name action) (sameToolConsecutiveCount (same_ (ex s)))) (fun s => s)).
  - destruct (_ && _); [by apply breaker_nudge|done].
Qed.

(** The parse breaker returns the observation, too. *)
Lemma checkParse_ok action callIdx observation result s :
  circuitBreakerTriggered (run s) = false ->
  let '(_, act, res, s') := checkParseErrors action callIdx observation result s in
  breaker_ok s (act, res, s').
Proof.
  intros Ht. unfold checkParseErrors. cbv zeta. destruct (_ && _).
  - destruct (_ && _); [|done].
    pose proof (breaker_tail
      (parse_reason (tc_name action) (consecutiveParseErrorCount (track_parse (tc_name action) (parse_ (ex s)))))
      (set_parse (mkParse (consecutiveParseErrorTool (track_parse (tc_name action) (parse_ (ex s)))) 0))
      (fun s => set_cb (with_ParseErrorAbort (2 ^ 30) (circuitBreaker (ex s))) s)
      parse_ack_nudge parse_override_nudge
      (fun s => parse_abort (tc_name action) (consecutiveParseErrorCount (parse_ (ex s)))) (fun s => s)) as Htail.
    match goal with |- context [OnStepLimit _ ?x] => specialize (Htail x s eq_refl Ht) end.
    specialize (Htail ltac:(done) ltac:(done) ltac:(done)).
    destruct (OnStepLimit _ _) as [a s1]. cbv zeta in Htail |- *. simpl ex in Htail |- *.
    match goal with |- context [if ?c then _ else _] =>
      match type of Htail with context [if ?d then _ else _] => change d with c in Htail; destruct c end
    end; exact Htail.
  - destruct (negb _); done.
Qed.

(** ** How long a loop can go on *)

(** [identical_calls K k s s']: from [s], [k] calls with key [K] in a row were
    let through to execution; in between the executor may change anything but
    the configuration and the count and key of the tracker (it records whether
    the call failed). *)
Inductive identical_calls (K : string) : nat -> xstate -> xstate -> Prop :=
| IC0 s : identical_calls K 0 s s
| ICS k s s1 s2 s3 action callIdx thought resp :
    identical_calls K k s s1 ->
    toolKey action = K ->
    checkRepeatIdenticalTool action callIdx thought resp s1 = (actionNone, None, s2) ->
    circuitBreaker (ex s3) = circuitBreaker (ex s2) ->
    consecutiveRepeatCount (repeat_ (ex s3)) = consecutiveRepeatCount (repeat_ (ex s2)) ->
    lastToolKey (repeat_ (ex s3)) = lastToolKey (repeat_ (ex s2)) ->
    identical_calls K (S k) s s3.

(** A call that is let through only moved the tracker, below both thresholds. *)
Lemma checkRepeat_proceeds action callIdx thought resp s s' :
  checkRepeatIdenticalTool action callIdx thought resp s = (actionNone, None, s') ->
  let t := track_repeat (toolKey action) (repeat_ (ex s)) in
  s' = set_repeat t s /\
  (forall th, th = RepeatNudgeThreshold (circuitBreaker (ex s)) \/
              th = RepeatAbortThreshold (circuitBreaker (ex s)) ->
     2 <= th -> consecutiveRepeatCount t < th).
Proof.
  unfold checkRepeatIdenticalTool. cbv zeta.
  set (s1 := set_repeat _ s). change (repeat_ (ex s1)) with (track_repeat (toolKey action) (repeat_ (ex s))).
  set (t := track_repeat _ _). change (circuitBreaker (ex s1)) with (circuitBreaker (ex s)).
  assert (Hl : forall th, 2 <= th -> 0 < lowered (lastToolResultIsError t) th <= th).
  { intros th Hth. unfold lowered. destruct (lastToolResultIsError t); simpl; [|lia].
    destruct (Z.ltb_spec 0 th); lia. }
  destruct (_ && _) eqn:Ea.
  { destruct (OnStepLimit _ _) as [a s2]. destruct (circuitBreakerTriggered _); by intros [=]. }
  destruct ((0 <? lowered _ (RepeatNudgeThreshold _)) && _) eqn:En; [by intros [=]|].
  intros [= <-]. split; [done|].
  intros th [->| ->] Hth; specialize (Hl _ Hth).
  - apply andb_false_iff in En as [En|En]; boolean; lia.
  - apply andb_false_iff in Ea as [Ea|Ea]; boolean; lia.
Qed.

Lemma identical_calls_count K k s s' th :
  identical_calls K k s s' -> 0 <= consecutiveRepeatCount (repeat_ (ex s)) ->
  th = RepeatNudgeThreshold (circuitBreaker (ex s)) \/ th = RepeatAbortThreshold (circuitBreaker (ex s)) ->
  2 <= th ->
  circuitBreaker (ex s') = circuitBreaker (ex s) /\
  ((0 < k)%nat -> lastToolKey (repeat_ (ex s')) = K) /\
  Z.of_nat k <= consecutiveRepeatCount (repeat_ (ex s')) /\
  ((0 < k)%nat -> consecutiveRepeatCount (repeat_ (ex s')) < th).
Proof.
  intros Hc H0 Hth H2. induction Hc as [s|k s s1 s2 s3 action callIdx thought resp _ IH HK Hchk Hcb Hn Hk].
  { split; [done|]. split; [lia|]. split; [lia|lia]. }
  specialize (IH H0 Hth). destruct IH as (IHcb & IHK & IHn & _).
  apply checkRepeat_proceeds in Hchk as [-> Hlt]. simpl in Hcb, Hn, Hk.
  rewrite Hcb, IHcb, Hn, Hk. rewrite HK in *. specialize (Hlt th). rewrite IHcb in Hlt. specialize (Hlt Hth H2).
  split; [done|]. unfold track_repeat in *. destruct (String.eqb_spec K (lastToolKey (repeat_ (ex s1)))) as [He|Hne]; simpl in *.
  - split; [done|]. split; [lia|done].
  - split; [done|]. split; [|done]. destruct k; [lia|]. exfalso. apply Hne. symmetry. apply IHK. lia.
Qed.

(** [fruitless_calls k s s']: [k] short successful results in a row of tools
    that are not exempt were let through. *)
Inductive fruitless_calls : nat -> xstate -> xstate -> Prop :=
| FC0 s : fruitless_calls 0 s s
| FCS k s s1 s2 s3 action callIdx observation :
    fruitless_calls k s s1 ->
    exempt (tc_name action) = false ->
    slen observation <= fruitlessMaxLen (circuitBreaker (ex s1)) ->
    checkFruitlessResult action callIdx observation false s1 = (actionNone, None, s2) ->
    circuitBreaker (ex s3) = circuitBreaker (ex s2) ->
    fruitless_ (ex s3) = fruitless_ (ex s2) ->
    fruitless_calls (S k) s s3.

Lemma checkFruitless_proceeds action callIdx observation s s' :
  exempt (tc_name action) = false -> slen observation <= fruitlessMaxLen (circuitBreaker (ex s)) ->
  checkFruitlessResult action callIdx observation false s = (actionNone, None, s') ->
  let t := fruitless_ (ex s) in
  s' = set_fruitless (mkFruitless (consecutiveFruitlessCount t + 1) (fruitlessNudgeAttempted t)) s /\
  (0 < FruitlessAbortThreshold (circuitBreaker (ex s)) ->
     consecutiveFruitlessCount t + 1 < FruitlessAbortThreshold (circuitBreaker (ex s))).
Proof.
  intros Hx Hl. unfold checkFruitlessResult. rewrite Hx. cbv zeta. unfold track_fruitless.
  rewrite (proj2 (Z.leb_le _ _) Hl). cbn [negb andb]. set (s1 := set_fruitless _ s).
  change (consecutiveFruitlessCount (fruitless_ (ex s1))) with (consecutiveFruitlessCount (fruitless_ (ex s)) + 1).
  destruct ((0 <? FruitlessAbortThreshold _) && _) eqn:Ea.
  { destruct (OnStepLimit _ _) as [a s2]. destruct (circuitBreakerTriggered _); by intros [=]. }
  match goal with |- (if ?c then _ else _) = _ -> _ => destruct c end; [by intros [=]|].
  intros [= <-]. split; [done|].
  intros H0. apply andb_false_iff in Ea as [Ea|Ea]; boolean; lia.
Qed.

Lemma fruitless_calls_count k s s' :
  fruitless_calls k s s' ->
  circuitBreaker (ex s') = circuitBreaker (ex s) /\
  consecutiveFruitlessCount (fruitless_ (ex s')) = consecutiveFruitlessCount (fruitless_ (ex s)) + Z.of_nat k /\
  (0 < FruitlessAbortThreshold (circuitBreaker (ex s)) -> (0 < k)%nat ->
     consecutiveFruitlessCount (fruitless_ (ex s')) < FruitlessAbortThreshold (circuitBreaker (ex s))).
Proof.
  intros Hc. induction Hc as [s|k s s1 s2 s3 action callIdx observation _ IH Hx Hl Hchk Hcb Hf].
  { split; [done|]. split; [lia|lia]. }
  destruct IH as (IHcb & IHn & _). apply checkFruitless_proceeds in Hchk as [-> Hlt]; [|done..].
  rewrite Hcb, Hf. simpl. rewrite <- IHcb. split; [done|]. split; [lia|]. intros H0 _. by apply Hlt.
Qed.

(** Every breaker check, met by a state in which none has tripped, either
    lets the call through without adding to the trajectory, or trips and adds
    exactly one step, to the trajectory and to the context alike, or ends the
    run unfinished with the trajectory intact, the last only after the human
    was asked and did not grant more. *)
Theorem breaker_contract action callIdx thought resp observation result isError s
  (Ht : circuitBreakerTriggered (run s) = false) :
  breaker_ok s (checkRepeatIdenticalTool action callIdx thought resp s) /\
  breaker_ok s (checkFruitlessResult action callIdx observation isError s) /\
  breaker_ok s (checkSameToolRepetition action callIdx observation result s) /\
  (let '(_, act, res, s') := checkParseErrors action callIdx observation result s in
   breaker_ok s (act, res, s')).
Proof.
  split; [by apply checkRepeat_ok|]. split; [by apply checkFruitless_ok|].
  split; [by apply checkSameTool_ok|by apply checkParse_ok].
Qed.

(** A loop of identical calls is cut: whatever happens in between, fewer
    identical calls than the nudge threshold, and fewer than the abort
    threshold, are ever let through in a row (thresholds of two or more). *)
Theorem identical_calls_bounded K k s s' (Hcalls : identical_calls K k s s')
  (Hcount : 0 <= consecutiveRepeatCount (repeat_ (ex s))) (Hk : (0 < k)%nat) :
  let cb := circuitBreaker (ex s) in
  (2 <= RepeatNudgeThreshold cb -> Z.of_nat k < RepeatNudgeThreshold cb) /\
  (2 <= RepeatAbortThreshold cb -> Z.of_nat k < RepeatAbortThreshold cb).
Proof.
  split; intros H2.
  - destruct (identical_calls_count K k s s' _ Hcalls Hcount (or_introl eq_refl) H2) as (_ & _ & Hle & Hlt).
    specialize (Hlt Hk). lia.
  - destruct (identical_calls_count K k s s' _ Hcalls Hcount (or_intror eq_refl) H2) as (_ & _ & Hle & Hlt).
    specialize (Hlt Hk). lia.
Qed.

(** Fruitless results are cut: with an abort threshold set, fewer short
    successful results than the threshold are let through in a row, across all
    tools that are not exempt. *)
Theorem fruitless_calls_bounded k s s' (Hcalls : fruitless_calls k s s')
  (Hcount : 0 <= consecutiveFruitlessCount (fruitless_ (ex s))) (Hk : (0 < k)%nat)
  (Hset : 0 < FruitlessAbortThreshold (circuitBreaker (ex s))) :
  Z.of_nat k < FruitlessAbortThreshold (circuitBreaker (ex s)).
Proof.
  destruct (fruitless_calls_count k s s' Hcalls) as (_ & Hn & Hlt). specialize (Hlt Hset Hk). lia.
Qed.

End breaker.

(** ** Examples *)

Section examples.
Local Existing Instance Float64_Q.

Definition denying : World := scripted [] (mkToolResult "x" false) (Ok StepLimitDeny).
Definition example_call : ToolCall := mkToolCall "c1" "read_file" "{ }".
Definition example_resp : ChatResponse := example_response "" "tool_use" [example_call].

(** One call let through by the repeat check. *)
Definition through_repeat (s : xstate) : xstate :=
  snd (checkRepeatIdenticalTool denying example_call 0 "" example_resp s).

(** Two calls pass, the third is intercepted. *)
Lemma identical_calls_bounded_witness :
  let s := example_start 10 in
  fst (checkRepeatIdenticalTool denying example_call 0 "" example_resp (through_repeat (through_repeat s)))
    = (actionBreak, None) /\
  Z.of_nat 2 < RepeatNudgeThreshold (circuitBreaker (ex s)).
Proof.
  cbv zeta. split; [vm_compute; reflexivity|].
  apply (identical_calls_bounded denying "read_file:{}" 2 (example_start 10)
    (through_repeat (through_repeat (example_start 10)))); [|simpl; lia|lia|simpl; lia].
  eapply (ICS _ _ _ _ (through_repeat (example_start 10)) _ _ example_call 0 "" example_resp);
    [|vm_compute; reflexivity..].
  eapply (ICS _ _ _ _ (example_start 10) _ _ example_call 0 "" example_resp);
    [constructor|vm_compute; reflexivity..].
Defined.

Definition through_fruitless (s : xstate) : xstate :=
  snd (checkFruitlessResult denying example_call 0 "none" false s).

Lemma fruitless_calls_bounded_witness :
  Z.of_nat 1 < FruitlessAbortThreshold (circuitBreaker (ex (example_start 10))).
Proof.
  apply (fruitless_calls_bounded denying 1 (example_start 10) (through_fruitless (example_start 10)));
    [|simpl; lia|lia|simpl; lia].
  eapply (FCS _ _ _ (example_start 10) _ _ example_call 0 "none");
    [constructor|vm_compute; reflexivity|vm_compute; discriminate|vm_compute; reflexivity..].
Defined.

(** A denied abort of the repeat breaker ends the run. *)
Definition repeated_five : xstate :=
  set_repeat (mkRepeat 4 (toolKey example_call) false) (example_start 10).

Lemma breaker_contract_witness :
  fst (fst (checkRepeatIdenticalTool denying example_call 0 "" example_resp repeated_five)) = actionNone /\
  breaker_ok denying repeated_five
    (checkRepeatIdenticalTool denying example_call 0 "" example_resp repeated_five).
Proof.
  split; [vm_compute; reflexivity|].
  exact (proj1 (breaker_contract denying example_call 0 "" example_resp "none" (mkToolResult "none" false)
    false repeated_five eq_refl)).
Defined.

(** The hypothesis of the contract matters: when a breaker (or a rejected call)
    earlier in the same response has set the flag, the human's denial is lost
    and the run goes on. *)
Example denial_swallowed :
  fst (checkRepeatIdenticalTool denying example_call 0 "" example_resp
         (set_triggered true repeated_five)) = (actionBreak, None).
Proof. vm_compute. reflexivity. Qed.

End examples.
