(* ===== verification/ToolResult.v ===== *)
(** * From a tool's result to the observation: [src/agent/executor.go],
    [processToolResult] of [src/agent/executor_run.go]

    Stage 1 cuts a result at a per-tool line or byte limit, stage 2 at a token
    budget that follows the free space of the context; in between the full
    result is cached, so that what is cut can be read back by its hash. *)

From Stdlib Require Import ZArith QArith Lia Ascii.
From stdpp Require Import base gmap strings list.
From S2P Require Import Prelude GoStr GoFloat AgentTypes Nudges Json ToolCache Watchdog ExecState.
Open Scope sp4rk_scope.
Open Scope Z_scope.

(** [utf8.ValidString]: decoding and encoding gives the string back. *)
Definition utf8_valid (s : string) : bool := String.eqb (string_of_runes (runes s)) s.

(** The loop that walks back from [s[:n]] to a valid prefix. *)
Fixpoint walk_back (n : nat) (s : string) : string :=
  match n with
  | O => ""
  | S n' => if utf8_valid (take_str n s) then take_str n s else walk_back n' s
  end.

Section result.
Context `{Float64} (cfg : Config) (w : World).

(** ** Stage 1 *)

Definition truncate_lines (maxLines : Z) (content : string) : string * bool :=
  if 0 <? maxLines then
    let lines := split_byte "010"%char content in
    if maxLines <? Z.of_nat (length lines)
    then (join nl (take (Z.to_nat maxLines) lines), true)
    else (content, false)
  else (content, false).

Definition truncate_bytes (maxBytes : Z) (content : string) (truncated : bool) : string * bool :=
  if (0 <? maxBytes) && (maxBytes <? slen content)
  then (walk_back (Z.to_nat maxBytes) content, true)
  else (content, truncated).

Definition applyPerToolTruncation (content toolName : string) : string * bool :=
  match perToolTruncation cfg !! toolName with
  | None => (content, false)
  | Some c =>
      let '(content, truncated) := truncate_lines (MaxLines c) content in
      truncate_bytes (MaxBytes c) content truncated
  end.

(** ** Stage 2 *)

(** [None]: the budget is disabled. *)
Definition computeBudgetCap (s : xstate) : option Z :=
  if HardCapTokens cfg <=? 0 then None
  else
    let available := w_AvailableTokens w (trace s) in
    let adaptiveCap := f_to_int (f_mul (f_of_int available) (MaxFillFraction cfg)) in
    let capTokens := if adaptiveCap <? HardCapTokens cfg then adaptiveCap else HardCapTokens cfg in
    Some (if capTokens <? 256 then 256 else capTokens).

Definition willBudgetTruncate (observation : string) (s : xstate) : bool :=
  match computeBudgetCap s with
  | None => false
  | Some capTokens =>
      let observationTokens := Z.quot (slen observation) 4 in
      if observationTokens <=? capTokens then false
      else capTokens * 4 <? slen observation
  end.

Definition getTruncationHint (toolName : string) : string :=
  if String.eqb toolName "read_file" then
    "Re-read the file with start_line/end_line to see specific sections, or use ripgrep to search for specific content."
  else if String.eqb toolName "ripgrep" || String.eqb toolName "grep" then
    "Narrow your search pattern or add path filters to reduce results."
  else if String.eqb toolName "glob" then "Use a more specific glob pattern to reduce results."
  else if String.eqb toolName "web_fetch" then
    "The page content was truncated. Ask the user to open the URL directly, or try fetching a more specific page."
  else "Break into smaller operations or use targeted queries.".

Definition budgetHashHint (cacheHash : string) : string :=
  if String.eqb cacheHash "" then ""
  else " This output was truncated by token budget. Hash: " +s+ cacheHash +s+ ". " +s+
       "Use tool_result_read(hash=" +s+ dq +s+ cacheHash +s+ dq +s+
       ", start_line=N, num_lines=M) to read the full cached result in fragments.".

Definition applyToolResultBudget (observation : string) (s : xstate) (toolName cacheHash : string) : string :=
  match computeBudgetCap s with
  | None => observation
  | Some capTokens =>
      let observationTokens := Z.quot (slen observation) 4 in
      if observationTokens <=? capTokens then observation
      else
        let charLimit := capTokens * 4 in
        if slen observation <=? charLimit then observation
        else
          let truncated := walk_back (Z.to_nat charLimit) observation in
          let percent := f_mul (f_div (f_of_int capTokens) (f_of_int observationTokens)) (f_of_int 100) in
          truncated +s+ nl2 +s+ "[OUTPUT TRUNCATED: showing ~" +s+ itoa capTokens +s+ " of ~" +s+
          itoa observationTokens +s+ " tokens (" +s+ f_fmt 0 percent +s+ "%)." +s+
          budgetHashHint cacheHash +s+ " " +s+ getTruncationHint toolName +s+ "]"
  end.

(** ** Recovery nudges *)

Definition FormatFragmentationNudge (hash toolName : string) (maxSliceHint : Z) : string :=
  if maxSliceHint =? 0 then
    nl2 +s+ "[This output was truncated to the configured byte limit for '" +s+ toolName +s+ "'. " +s+
    "The full result is cached with hash: " +s+ hash +s+ ". " +s+
    "Use tool_result_read(hash=" +s+ dq +s+ hash +s+ dq +s+
    ", start_line=1, num_lines=N) to read fragments. num_lines must not exceed 2000.]"
  else
    nl2 +s+ "[This output was truncated to " +s+ itoa maxSliceHint +s+ " lines for '" +s+ toolName +s+ "'. " +s+
    "The full result is cached with hash: " +s+ hash +s+ ". " +s+
    "Use tool_result_read(hash=" +s+ dq +s+ hash +s+ dq +s+
    ", start_line=1, num_lines=N) to read fragments. num_lines must not exceed " +s+ itoa maxSliceHint +s+ ".]".

Definition formatFileBackedNudge (hash : string) : string :=
  nl2 +s+ "[File content cached with hash: " +s+ hash +s+ ". " +s+
  "Use tool_result_read(hash=" +s+ dq +s+ hash +s+ dq +s+
  ", start_line=N, num_lines=M) to read additional fragments.]".

(** ** Caching *)

(** Path resolution, the workspace check and [os.Stat] are the environment's
    [w_workspaceStat]. *)
Definition buildCacheMeta (s : xstate) (toolName input : string) : ToolCacheMeta :=
  let source := w_GetToolSource w toolName in
  if negb (String.eqb source "") && negb (String.eqb source "core")
  then mkMeta "" 0 0 true input false
  else if String.eqb toolName "read_file" || String.eqb toolName "write_file" || String.eqb toolName "edit_file" then
    match unmarshal_string_field "path" input with
    | Some path =>
        if String.eqb path "" then mkMeta "" 0 0 false input false
        else match w_workspaceStat w (trace s) path with
        | Some (absPath, mtime, size) =>
            mkMeta absPath mtime size false input
              (String.eqb toolName "read_file" && negb (w_ContentBacked w toolName input))
        | None => mkMeta "" 0 0 false input false
        end
    | None => mkMeta "" 0 0 false input false
    end
  else mkMeta "" 0 0 false input false.

(** [e.toolCache.Store(toolName, fullResult, meta)] *)
Definition store_result (c : ToolResultCache) (toolName fullResult input : string) (s : xstate)
    : string * ToolCacheMeta * xstate :=
  let meta := buildCacheMeta s toolName input in
  let '(c', hash) := Store (w_sha256hex w) (w_rangeOrder w (trace s)) (w_now w (trace s))
                       toolName fullResult meta c in
  (hash, meta, set_toolCache (Some c') s).

Definition maxSliceHint (toolName : string) : Z :=
  match perToolTruncation cfg !! toolName with Some c => MaxLines c | None => 0 end.

(** The cached hash (empty when nothing is cached) and the stage-1 nudge. *)
Definition cache_stage (observation fullResult toolName input : string) (wasTruncated : bool) (s : xstate)
    : string * string * xstate :=
  match toolCache (ex s) with
  | None => ("", "", s)
  | Some c =>
      if negb (bool_decide (toolName ∈ nonCacheableTools cfg)) then
        let '(hash, meta, s) := store_result c toolName fullResult input s in
        (hash,
         if wasTruncated then FormatFragmentationNudge hash toolName (maxSliceHint toolName)
         else if meta_FileBacked meta then formatFileBackedNudge hash
         else "", s)
      else if wasTruncated || willBudgetTruncate observation s then
        let '(hash, _, s) := store_result c toolName fullResult input s in
        (hash,
         if wasTruncated then FormatFragmentationNudge hash toolName (maxSliceHint toolName) else "", s)
      else ("", "", s)
  end.

Definition processToolResult (observation fullResult toolName input : string) (s : xstate)
    : string * string * xstate :=
  let '(observation, wasTruncated) := applyPerToolTruncation observation toolName in
  let '(cacheHash, stage1Nudge, s) := cache_stage observation fullResult toolName input wasTruncated s in
  let budgetHash := if String.eqb stage1Nudge "" then cacheHash else "" in
  let observation := applyToolResultBudget observation s toolName budgetHash in
  (observation +s+ stage1Nudge, cacheHash, s).

(** ** Truncation keeps a prefix within the limit *)

Lemma walk_back_spec n s :
  exists k, (k <= n)%nat /\ walk_back n s = take_str k s /\ utf8_valid (walk_back n s) = true /\
    forall j, (k < j <= n)%nat -> utf8_valid (take_str j s) = false.
Proof.
  induction n as [|n IH].
  { exists 0%nat. split; [lia|]. split; [done|]. split; [done|lia]. }
  change (walk_back (S n) s) with (if utf8_valid (take_str (S n) s) then take_str (S n) s else walk_back n s).
  destruct (utf8_valid (take_str (S n) s)) eqn:E.
  - exists (S n). split; [lia|]. split; [done|]. split; [exact E|lia].
  - destruct IH as (k & Hk & Hw & Hv & Hj). exists k. split; [lia|]. split; [done|]. split; [done|].
    intros j Hj'. destruct (decide (j = S n)) as [->|]; [done|]. apply Hj. lia.
Qed.

Lemma join_cons sep x l : l <> [] -> join sep (x :: l) = x +s+ sep +s+ join sep l.
Proof. by destruct l. Qed.

Lemma join_take sep n l : exists r, join sep l = join sep (take n l) +s+ r.
Proof.
  revert n; induction l as [|x l IH]; intros n; [by exists ""; rewrite take_nil|].
  destruct n as [|n]; [by exists (join sep (x :: l))|]. rewrite firstn_cons.
  destruct l as [|y l]; [exists ""; by rewrite take_nil, sapp_nil_r|].
  destruct n as [|n]; [by exists (sep +s+ join sep (y :: l))|].
  destruct (IH (S n)) as [r Hr]. rewrite firstn_cons in Hr |- *. exists r.
  rewrite (join_cons sep x (y :: l)), (join_cons sep x (y :: take n l)) by done.
  rewrite Hr, !sapp_assoc. done.
Qed.

(** ** Observations stay recoverable *)

(** [hash] is the key of a live entry of [c'] for [fullResult]: its full hash is
    that of the result, and of its own contents; it is the entry made at [now]
    unless [c] already had one for the very same result, in particular it is
    not expired at [now]; [Get] returns it under [hash] at every time at which
    it has not expired, and when it never expires it stays under [hash] in
    every later state of the cache. *)
Definition held (sha : string -> string) (now : Z) (c c' : ToolResultCache)
    (hash toolName fullResult : string) (meta : ToolCacheMeta) : Prop :=
  let full := full_hash sha toolName fullResult meta in
  exists e, entries c' !! hash = Some e /\ Hash e = full /\ entry_hash sha e = full /\
    (fullToShort c !! full = None ->
       e = new_entry full toolName fullResult meta now (ttl c) /\ expired now e = false) /\
    (forall now', expired now' e = false -> Get now' now' hash c' c' = (c', Some e)) /\
    (TTL e = 0 -> forall later now', rtc (cstep sha) c' later ->
       Get now' now' hash later later = (later, Some e)).

(** No budget cut, no change. *)
Lemma budget_untouched observation s toolName hash :
  willBudgetTruncate observation s = false -> applyToolResultBudget observation s toolName hash = observation.
Proof.
  unfold willBudgetTruncate, applyToolResultBudget. destruct (computeBudgetCap s) as [cap|]; [|done].
  cbv zeta. destruct (_ <=? cap); [done|]. destruct (Z.ltb_spec (cap * 4) (slen observation)); [done|].
  intros _. by rewrite (proj2 (Z.leb_le _ _)) by lia.
Qed.

(** [t] quotes [hash]. *)
Definition quotes (t hash : string) : Prop := exists a b, t = a +s+ hash +s+ b.

Lemma quotes_here hash u : quotes (hash +s+ u) hash.
Proof. exists "", u. done. Qed.
Lemma quotes_pre t u hash : quotes u hash -> quotes (t +s+ u) hash.
Proof. intros (a & b & ->). exists (t +s+ a), b. by rewrite !sapp_assoc. Qed.
Lemma quotes_app t u hash : quotes t hash -> quotes (t +s+ u) hash.
Proof. intros (a & b & ->). exists a, (b +s+ u). by rewrite !sapp_assoc. Qed.

Ltac quoted := repeat first [apply quotes_here | apply quotes_pre].

Lemma fragmentation_quotes hash toolName k : quotes (FormatFragmentationNudge hash toolName k) hash.
Proof. unfold FormatFragmentationNudge. destruct (k =? 0); quoted. Qed.

Lemma fileBacked_quotes hash : quotes (formatFileBackedNudge hash) hash.
Proof. unfold formatFileBackedNudge. quoted. Qed.

Lemma quotes_nonempty t hash : hash <> "" -> quotes t hash -> t <> "".
Proof. intros Hh (a & b & ->). destruct a; [|done]. by destruct hash. Qed.

Lemma budget_quotes observation s toolName hash :
  willBudgetTruncate observation s = true -> hash <> "" ->
  quotes (applyToolResultBudget observation s toolName hash) hash.
Proof.
  unfold willBudgetTruncate, applyToolResultBudget. destruct (computeBudgetCap s) as [cap|]; [|done].
  cbv zeta. destruct (_ <=? cap); [done|]. destruct (Z.ltb_spec (cap * 4) (slen observation)); [|done].
  intros _ Hh. rewrite (proj2 (Z.leb_gt _ _)) by lia. unfold budgetHashHint.
  rewrite (proj2 (String.eqb_neq hash "") Hh).
  do 9 apply quotes_pre. apply quotes_app. quoted.
Qed.

(** The budget looks at nothing but the trace. *)
Lemma budget_trace observation s s' toolName hash :
  trace s' = trace s -> applyToolResultBudget observation s' toolName hash = applyToolResultBudget observation s toolName hash.
Proof. intros Ht. unfold applyToolResultBudget, computeBudgetCap. by rewrite Ht. Qed.

Section recover.
Hypothesis sha_length : forall s, String.length (w_sha256hex w s) = fullHashLen.

Lemma Store_held order now toolName fullResult meta c :
  cache_inv (w_sha256hex w) c ->
  let st := Store (w_sha256hex w) order now toolName fullResult meta c in
  snd st <> "" /\ cache_inv (w_sha256hex w) (fst st) /\
  held (w_sha256hex w) now c (fst st) (snd st) toolName fullResult meta.
Proof.
  intros Hc st. pose proof (inv_store _ sha_length order now toolName fullResult meta c Hc) as Hinv.
  destruct (Store_live _ order now toolName fullResult meta c Hc) as (e & He & Hh & Hnew).
  fold st in Hinv, He. pose proof (ci_key _ _ Hinv _ _ He) as Ha. pose proof (ci_hash _ _ Hinv _ _ He) as Heh.
  split; [|split; [done|exists e; repeat split]]; try done.
  - apply String.eqb_neq, (abbrev_nonempty (Hash e)); [|exact Ha].
    rewrite Heh. by apply entry_hash_length.
  - by rewrite <- Heh.
  - by apply Hnew.
  - rewrite (Hnew H0). apply new_entry_fresh.
  - intros now' Hx. by apply (live_Get _ sha_length).
  - intros Ht later now' Hl. pose proof (permanent_steps _ sha_length _ _ _ _ Hinv He Ht Hl) as He'.
    apply (live_Get _ sha_length); [|done|by unfold expired; rewrite Ht].
    clear -Hinv Hl sha_length. induction Hl; [done|]. apply IHHl. by eapply inv_step.
Qed.

(** What [store_result] leaves. *)
Lemma store_result_facts c toolName fullResult input s hash meta s' :
  cache_inv (w_sha256hex w) c -> store_result c toolName fullResult input s = (hash, meta, s') ->
  meta = buildCacheMeta s toolName input /\ trace s' = trace s /\ hash <> "" /\
  exists c', toolCache (ex s') = Some c' /\ cache_inv (w_sha256hex w) c' /\
    held (w_sha256hex w) (w_now w (trace s)) c c' hash toolName fullResult (buildCacheMeta s toolName input).
Proof.
  intros Hc. unfold store_result. cbv zeta.
  pose proof (Store_held (w_rangeOrder w (trace s)) (w_now w (trace s)) toolName fullResult
    (buildCacheMeta s toolName input) c Hc) as Hst.
  destruct (Store _ _ _ _ _ _ _) as [c' h]. simpl in Hst. intros [= <- <- <-]. simpl.
  destruct Hst as (Hne & Hinv & Hheld). split; [done|]. split; [done|]. split; [done|]. by exists c'.
Qed.

(** C39: no tool result is cut without a way back: when the observation that
    reaches the model does not contain the tool's whole observation, it quotes
    a non-empty hash, which is the step's, and right after the call the cache
    has a live entry for the full result under that hash: the entry made by
    this call (a copy of the full result, or for a file-backed result the file
    with its time and size), unless the very same result was cached before, in
    which case its older entry.  [Get] returns it under that hash as long as it
    has not expired, and in every later state of the cache when it never
    expires; only results of MCP tools expire, and an older entry of one may
    be expired already. *)
Theorem truncation_recoverable observation fullResult toolName input s c
  (Hcache : toolCache (ex s) = Some c) (Hinv : cache_inv (w_sha256hex w) c) :
  let '(observation', hash, s') := processToolResult observation fullResult toolName input s in
  (exists suffix, observation' = observation +s+ suffix) \/
  (hash <> "" /\ quotes observation' hash /\
   exists c', toolCache (ex s') = Some c' /\ cache_inv (w_sha256hex w) c' /\
     held (w_sha256hex w) (w_now w (trace s)) c c' hash toolName fullResult (buildCacheMeta s toolName input)).
Proof.
  unfold processToolResult.
  destruct (applyPerToolTruncation observation toolName) as [obs1 was] eqn:Ep.
  destruct (cache_stage obs1 fullResult toolName input was s) as [[hash nudge] s'] eqn:Ec.
  assert (Hobs : was = false -> obs1 = observation).
  { intros ->. revert Ep. unfold applyPerToolTruncation, truncate_lines, truncate_bytes.
    destruct (perToolTruncation cfg !! toolName); [|by intros [= ->]].
    repeat step_match; by intros [= ->]. }
  revert Ec. unfold cache_stage. rewrite Hcache.
  destruct (negb _) eqn:Ecache.
  - destruct (store_result c toolName fullResult input s) as [[h meta] s1] eqn:Est. intros [= -> <- ->].
    destruct (store_result_facts _ _ _ _ _ _ _ _ Hinv Est) as (_ & Ht & Hne & Hc').
    destruct was; [right; split; [done|]; split; [apply quotes_pre, fragmentation_quotes|done]|].
    rewrite (Hobs eq_refl). destruct (meta_FileBacked meta).
    + right. split; [done|]. split; [apply quotes_pre, fileBacked_quotes|done].
    + rewrite (budget_trace _ s) by done. destruct (willBudgetTruncate observation s) eqn:Ew.
      * right. split; [done|]. split; [by apply quotes_app, budget_quotes|done].
      * left. exists "". by rewrite budget_untouched.
  - destruct (was || willBudgetTruncate obs1 s) eqn:Ew.
    + destruct (store_result c toolName fullResult input s) as [[h meta] s1] eqn:Est. intros [= -> <- ->].
      destruct (store_result_facts _ _ _ _ _ _ _ _ Hinv Est) as (_ & Ht & Hne & Hc').
      right. split; [done|]. split; [|done].
      destruct was; [apply quotes_pre, fragmentation_quotes|]. simpl in Ew.
      rewrite (budget_trace _ s) by done. by apply quotes_app, budget_quotes.
    + intros [= <- <- <-]. left. exists "". apply orb_false_iff in Ew as [-> Ew].
      by rewrite budget_untouched, (Hobs eq_refl).
Qed.

(** Stage 1 returns a prefix of the result: at most [MaxBytes] bytes, cut at
    the [MaxLines]-th line, valid UTF-8 after a byte cut, and reported as not
    truncated exactly when it is the result unchanged. *)
Theorem applyPerToolTruncation_prefix content toolName c
  (Hc : perToolTruncation cfg !! toolName = Some c) :
  let '(out, truncated) := applyPerToolTruncation content toolName in
  (exists rest, content = out +s+ rest) /\
  (0 < MaxBytes c -> slen out <= MaxBytes c) /\
  (truncated = false -> out = content) /\
  (truncated = true -> out = join nl (take (Z.to_nat (MaxLines c)) (split_byte "010"%char content)) \/
                       utf8_valid out = true).
Proof.
  unfold applyPerToolTruncation. rewrite Hc.
  assert (Hl : let '(out, tr) := truncate_lines (MaxLines c) content in
    (exists rest, content = out +s+ rest) /\ (tr = false -> out = content) /\
    (tr = true -> out = join nl (take (Z.to_nat (MaxLines c)) (split_byte "010"%char content)))).
  { unfold truncate_lines. destruct (0 <? MaxLines c); [|split; [exists ""; by rewrite sapp_nil_r|done]].
    destruct (_ <? Z.of_nat _); [|split; [exists ""; by rewrite sapp_nil_r|done]].
    split; [|done]. destruct (join_take nl (Z.to_nat (MaxLines c)) (split_byte "010"%char content)) as [r Hr].
    exists r. rewrite <- Hr. symmetry. apply join_split. }
  destruct (truncate_lines (MaxLines c) content) as [out tr]. destruct Hl as ([rest Hr] & Hf & Ht).
  unfold truncate_bytes. destruct (Z.ltb_spec 0 (MaxBytes c)), (Z.ltb_spec (MaxBytes c) (slen out)); simpl.
  - destruct (walk_back_spec (Z.to_nat (MaxBytes c)) out) as (k & Hk & Hw & Hv & _). split; [|split; [|split]].
    + rewrite Hw. exists (str_drop k out +s+ rest). by rewrite <- sapp_assoc, take_drop_str.
    + intros _. rewrite Hw. unfold slen. rewrite length_take_str. lia.
    + done.
    + by right.
  - split; [eauto|]. split; [lia|]. split; [done|]. intros Htr. left. auto.
  - split; [eauto|]. split; [lia|]. split; [done|]. intros Htr. left. auto.
  - split; [eauto|]. split; [lia|]. split; [done|]. intros Htr. left. auto.
Qed.
End recover.
End result.

Section examples.
Local Existing Instance Float64_Q.

Definition small_reads : Config := {|
  maxSteps := 10; suppressAssistantEvents := false; streaming := false;
  HardCapTokens := 0; MaxFillFraction := (2 # 5)%Q;
  perToolTruncation := {[ "bash_exec" := mkTrunc 1 0; "cat" := mkTrunc 0 5 ]};
  nonCacheableTools := list_to_set defaultNonCacheableTools;
  mutationRequired := false; checklistGateEnabled := true; preWarningPercent := 0;
  stopTools := ∅; verifyOnEditCap := 4000;
  watchdog := mkWatch false 0 ∅; taskTools := []; resumeSteps := [] |}.

Definition quiet : World := scripted [] (mkToolResult "" false) (Ok StepLimitDeny).
Definition with_cache : xstate :=
  mkX (NewExecutor DefaultCircuitBreakerConfig (Some (NewToolResultCache 0))) (new_run 10) [].

Lemma inv_new_cache : cache_inv (w_sha256hex quiet) (NewToolResultCache 0).
Proof. apply (inv_init (w_sha256hex quiet)). Qed.

Definition two_lines : string := "one" +s+ nl +s+ "two".

Definition example_cut : string * string * xstate :=
  processToolResult small_reads quiet two_lines two_lines "bash_exec" "{}" with_cache.

Lemma truncation_recoverable_witness :
  fst example_cut = ("one" +s+ FormatFragmentationNudge "bash" "bash_exec" 1, "bash") /\
  quotes (fst (fst example_cut)) (snd (fst example_cut)) /\
  exists c' e, toolCache (ex (snd example_cut)) = Some c' /\ Content e = two_lines /\
    Get 7 7 "bash" c' c' = (c', Some e).
Proof.
  split; [vm_compute; reflexivity|].
  assert (Hsha : forall s, String.length (w_sha256hex quiet s) = fullHashLen) by (intros; apply toy_hash_length).
  pose proof (truncation_recoverable small_reads quiet Hsha two_lines two_lines "bash_exec" "{}" with_cache
    (NewToolResultCache 0) eq_refl inv_new_cache) as Hp.
  fold example_cut in Hp. destruct example_cut as [[obs h] s'] eqn:E.
  destruct Hp as [[suffix Hs]|(_ & Hq & c' & Hc' & _ & e & _ & _ & _ & Hnew & Hget & _)].
  2: { split; [exact Hq|]. destruct (Hnew eq_refl) as [He _].
    assert (Hh : h = "bash") by (change h with (snd (fst (obs, h, s'))); rewrite <- E; vm_compute; reflexivity).
    subst h. exists c', e. split; [exact Hc'|]. split; [rewrite He; vm_compute; reflexivity|].
    apply Hget. rewrite He. vm_compute. reflexivity. }
  exfalso. assert (Ho : obs = fst (fst example_cut)) by (rewrite E; reflexivity).
  rewrite Ho in Hs. apply (f_equal (String.get 4)) in Hs. vm_compute in Hs. discriminate.
Defined.

Lemma applyPerToolTruncation_prefix_witness :
  applyPerToolTruncation small_reads "longer" "cat" = ("longe", true) /\
  (0 < 5 -> slen "longe" <= 5).
Proof.
  split; [vm_compute; reflexivity|].
  exact (proj1 (proj2 (applyPerToolTruncation_prefix small_reads "longer" "cat" (mkTrunc 0 5) eq_refl))).
Defined.

(** Walking back to "the last valid codepoint boundary" goes past every byte up
    to the first invalid one: one stray byte at the front and a cut result is
    empty. *)
Example invalid_byte_drops_all :
  applyPerToolTruncation small_reads (String "255"%char "longer") "cat" = ("", true).
Proof. vm_compute. reflexivity. Qed.
End examples.
