(* ===== verification/Finish.v ===== *)
(** * How a run ends: [src/agent/executor_run.go], [src/agent/verify_on_edit.go]

    The verify-on-edit hook, the assistant stream, the implicit finish of a
    response without tool calls, the [finish] call with its gates, and the stop
    tools. *)

From Stdlib Require Import ZArith QArith Lia Ascii.
From stdpp Require Import base gmap strings list.
From S2P Require Import Prelude GoStr GoFloat AgentTypes Nudges Json ToolSyntax ToolCache Watchdog ExecState Breaker.
Open Scope sp4rk_scope.
Open Scope Z_scope.

Section finish.
Context `{Float64} (cfg : Config) (w : World).

(** ** Verify on edit *)

Definition DefaultVerifyOnEditCap : Z := 4000.

Definition IsFileEditTool (name : string) : bool :=
  String.eqb name "write_file" || String.eqb name "edit_file".

Definition truncateVerifyOutput (output : string) (maxChars : Z) : string :=
  let output := trim_space output in
  let rs := runes output in
  let n := Z.of_nat (length rs) in
  if n <=? maxChars then output
  else string_of_runes (take (Z.to_nat maxChars) rs) +s+ nl +s+ "[...truncated " +s+
       itoa (n - maxChars) +s+ " chars...]".

Definition FormatVerifyNote (res : EditVerifyResult) (maxChars : Z) : string :=
  let maxChars := if maxChars <=? 0 then DefaultVerifyOnEditCap else maxChars in
  let out := truncateVerifyOutput (ve_Output res) maxChars in
  match ve_Err res with
  | Some err =>
      "[verify_on_edit] could not run verification command: " +s+ err +s+
      (if String.eqb out "" then "" else nl +s+ "Output:" +s+ nl +s+ out)
  | None =>
      if ve_TimedOut res then
        "[verify_on_edit] verification command timed out" +s+
        (if 0 <? ve_Timeout res then " (limit " +s+ ve_TimeoutText res +s+ ")" else "") +s+
        ". The edit was NOT verified — re-run the command manually or raise the timeout budget " +s+
        "(the verification timeout is additionally capped by the bash tool's max timeout). Partial output:" +s+
        nl +s+ out
      else if 0 <? ve_ExitCode res then
        "[verify_on_edit] VERIFICATION FAILED (exit " +s+ itoa (ve_ExitCode res) +s+
        "). Fix these failures before finishing:" +s+ nl +s+ out
      else if ve_ExitCode res <? 0 then
        "[verify_on_edit] verification command did not complete (blocked or killed — no exit code). " +s+
        "The edit was NOT verified; inspect the output and re-run the command manually:" +s+ nl +s+ out
      else "[verify_on_edit] verification command passed (exit 0). Output:" +s+ nl +s+ out
  end.

Definition runVerifyOnEditHook (toolName : string) (resultIsError lastCallInGroup : bool)
    (observation : string) (s : xstate) : string * xstate :=
  match w_verifyOnEdit w with
  | None => (observation, s)
  | Some runner =>
      let s := if IsFileEditTool toolName && negb resultIsError then set_pendingVerify true s else s in
      if negb lastCallInGroup || negb (pendingVerifyEdit (run s)) then (observation, s)
      else
        let s := set_pendingVerify false s in
        let note := FormatVerifyNote (runner (trace s)) (verifyOnEditCap cfg) in
        let s := emit VerifyRan s in
        if String.eqb note "" then (observation, s)
        else if String.eqb observation "" then (note, s)
        else (observation +s+ nl2 +s+ note, s)
  end.

Definition flushPendingVerifyOnEdit (s : xstate) : string * xstate :=
  match w_verifyOnEdit w with
  | None => ("", s)
  | Some runner =>
      if negb (pendingVerifyEdit (run s)) then ("", s)
      else
        let s := set_pendingVerify false s in
        (FormatVerifyNote (runner (trace s)) (verifyOnEditCap cfg), emit VerifyRan s)
  end.

(** [budgetText] is the checkpoint budget as [%s] prints it. *)
Definition flushPendingVerifyOnEditAtCheckpoint (budgetText : string) (s : xstate) : xstate :=
  match w_verifyOnEdit w with
  | None => s
  | Some _ =>
      if negb (pendingVerifyEdit (run s)) then s
      else
        let s := set_pendingVerify false s in
        let res := w_verifyAtCheckpoint w (trace s) in
        let s := emit VerifyRan s in
        match res with
        | None =>
            push_step (nudge_step (
              "[verify_on_edit] verification did not complete within the " +s+ budgetText +s+
              " pause-checkpoint budget; the pause proceeds without it and the edit remains UNVERIFIED " +s+
              "— re-run the command manually or after the next edit.")) s
        | Some r =>
            let note := FormatVerifyNote r (verifyOnEditCap cfg) in
            if String.eqb note "" then s else push_step (nudge_step note) s
        end
  end.

(** ** The assistant stream *)

Definition closeAssistantStream (s : xstate) : xstate :=
  set_stream (mkStream (assistantStreamed (stream (run s))) false "" 0 0) s.

Definition emitAssistantEvents (output : string) (resp : ChatResponse) (s : xstate) : xstate :=
  if suppressAssistantEvents cfg then s
  else
    let s := if assistantStreamed (stream (run s)) then s else emit (EvAssistantChunk output) s in
    closeAssistantStream
      (emit (EvAssistantDone output (u_in (r_usage resp)) (u_out (r_usage resp))) s).

Definition finalizeAssistantStream (s : xstate) : xstate :=
  let st := stream (run s) in
  if suppressAssistantEvents cfg || negb (assistantStreamOpen st) then s
  else emit (EvAssistantDone (assistantStreamText st) (assistantStreamUsageIn st) (assistantStreamUsageOut st))
         (closeAssistantStream s).

(** ** A response without tool calls *)

Definition step_complete (s : xstate) : xstate := emit (EvStepComplete (stepNum (run s))) s.

(** The acceptance shared by the two implicit-finish branches. *)
Definition accept_implicit (resp : ChatResponse) (thought : string) (s : xstate)
    : option ExecutorResult * loopAction * xstate :=
  let s := push_step (response_step thought "" (usage_sum resp) resp) s in
  let s := step_complete s in
  let '(note, s) := flushPendingVerifyOnEdit s in
  let output := if String.eqb note "" then thought else thought +s+ nl2 +s+ note in
  let s := emitAssistantEvents output resp s in
  (Some (mkExecutorResult output (allSteps (run s)) true "" ""), actionNone, s).

(** The one-time demand for an explicit finish. *)
Definition finish_nudge (resp : ChatResponse) (thought : string) (s : xstate)
    : option ExecutorResult * loopAction * xstate :=
  let g := gates (ex s) in
  let s := set_gates (mkGates true (mutationNudgeAttempted g) (checklistMissingNudgeAttempted g)
                        (checklistUncheckedNudgeAttempted g)) s in
  let s := add_step (response_step thought executorFinishNudge (usage_sum resp) resp) s in
  (None, actionContinue,
   diag "executor_finish_nudge" [("reason", DStr "implicit_finish_without_tool")] s).

Definition handleImplicitFinish (resp : ChatResponse) (thought : string) (hasTools : bool) (s : xstate)
    : option ExecutorResult * loopAction * xstate :=
  let n := nudges (run s) in
  if hasTools && DetectToolCallSyntaxInContent thought then
    if toolCallSyntaxNudgeCount n <? 3 then
      let k := toolCallSyntaxNudgeCount n + 1 in
      let s := set_nudges (mkNudges (implicitFinishNudgeCount n) k (wrapUpNudgeAttempted n)
                 (preCompactionNudgeEmitted n) (checklistStaleNudgeCount n)) s in
      let s := add_step (response_step thought executorToolCallSyntaxNudge (usage_sum resp) resp) s in
      (None, actionContinue,
       diag "tool_call_syntax_nudge" [("reason", DStr "tool_call_syntax_as_text"); ("attempt", DInt k)] s)
    else
      let s := diag "tool_call_syntax_abort" [("attempts", DInt (toolCallSyntaxNudgeCount n))] s in
      (Some (unfinished syntax_abort s), actionNone, s)
  else if String.eqb (r_stop_reason resp) "end_turn" then
    if suppressAssistantEvents cfg && negb (finishNudgeAttempted (gates (ex s)))
    then finish_nudge resp thought s
    else accept_implicit resp thought s
  else if hasTools && (implicitFinishNudgeCount n <? 2) then
    let k := implicitFinishNudgeCount n + 1 in
    let s := set_nudges (mkNudges k (toolCallSyntaxNudgeCount n) (wrapUpNudgeAttempted n)
               (preCompactionNudgeEmitted n) (checklistStaleNudgeCount n)) s in
    let s := add_step (response_step thought executorNudge (usage_sum resp) resp) s in
    (None, actionContinue,
     diag "executor_nudge" [("reason", DStr "no_tools_no_end_turn_on_step_1"); ("attempt", DInt k)] s)
  else if suppressAssistantEvents cfg && negb (finishNudgeAttempted (gates (ex s)))
  then finish_nudge resp thought s
  else accept_implicit resp thought s.

(** ** The finish call *)

Definition checklistTrivialThreshold : Z := 2.

(** A gate's nudge: it carries the response's thought and reasoning items when
    no earlier call of the response has a step. *)
Definition gate_step (first : bool) (thought nudge : string) (resp : ChatResponse) : Step :=
  mkStep (carry first thought "") "" (carry first (m_reasoning_items (r_message resp)) []) no_tool_call
    "" false (usage_sum resp) nudge 0 false "".

Definition finish_answer (input : string) : string :=
  match unmarshal_string_field "answer" input with
  | Some a => a
  | None => input
  end.

(** The step and the result of an accepted finish. *)
Definition accept_finish (action : ToolCall) (emitIdx : Z) (first : bool) (resp : ChatResponse)
    (thought : string) (group : Z) (answer : string) (s : xstate) : xstate :=
  let step := mkStep (carry first thought "") (carry first (m_reasoning (r_message resp)) "")
                (carry first (m_reasoning_items (r_message resp)) []) action "" false
                (usage_sum resp) "" group false "" in
  let s := push_step step s in
  let '(answer, s) := runVerifyOnEditHook (tc_name action) false true answer s in
  let s := tool_result_event emitIdx answer false s in
  let rejected := mutationRequired cfg && negb (hasMutatingToolExecuted (allSteps (run s))) in
  let s := if rejected
           then diag "mutation_gate_rejected" [("reason", DStr "finish_without_mutation_after_nudge")] s
           else s in
  set_finish (Some (mkExecutorResult answer (allSteps (run s)) (negb rejected)
    (if rejected then "finish rejected: required mutation was not performed" else "") "")) s.

Definition guard_error (s : xstate) : option string :=
  match w_finishGuard w with Some guard => guard (trace s) | None => None end.

Definition handleFinishCall (action : ToolCall) (emitIdx : Z) (first : bool) (resp : ChatResponse)
    (thought : string) (group : Z) (s : xstate) : loopAction * xstate :=
  match guard_error s with
  | Some reason =>
      (actionBreak, diag "finish_guard_rejected" [("reason", DStr reason)]
                      (add_step (gate_step first thought reason resp) s))
  | None =>
      let answer := finish_answer (tc_input action) in
      let s := emit (EvFinishing (stepNum (run s)) answer) s in
      let g := gates (ex s) in
      let steps := allSteps (run s) in
      if mutationRequired cfg && negb (hasMutatingToolExecuted steps) && negb (mutationNudgeAttempted g) then
        let s := set_gates (mkGates (finishNudgeAttempted g) true (checklistMissingNudgeAttempted g)
                              (checklistUncheckedNudgeAttempted g)) s in
        (actionBreak, diag "mutation_gate_nudge" [("reason", DStr "finish_without_mutation")]
                        (add_step (gate_step first thought executorMutationNudge resp) s))
      else if checklistGateEnabled cfg && checklistAvailable cfg && negb (hasChecklistUpdate steps) &&
              (checklistTrivialThreshold <? countProductiveToolCalls steps) &&
              negb (checklistMissingNudgeAttempted g) then
        let s := set_gates (mkGates (finishNudgeAttempted g) (mutationNudgeAttempted g) true
                              (checklistUncheckedNudgeAttempted g)) s in
        (actionBreak, diag "checklist_gate_nudge" [("reason", DStr "finish_without_checklist")]
                        (add_step (gate_step first thought executorChecklistMissingNudge resp) s))
      else
        let unchecked := lastChecklistUnchecked steps in
        if checklistGateEnabled cfg && checklistAvailable cfg &&
           negb (checklistUncheckedNudgeAttempted g) && (0 <? unchecked) then
          let s := set_gates (mkGates (finishNudgeAttempted g) (mutationNudgeAttempted g)
                                (checklistMissingNudgeAttempted g) true) s in
          (actionBreak,
           diag "checklist_unchecked_nudge"
             [("reason", DStr "finish_with_unchecked_checklist"); ("unchecked", DInt unchecked)]
             (add_step (gate_step first thought (executorChecklistUncheckedNudge unchecked) resp) s))
        else (actionBreak, accept_finish action emitIdx first resp thought group answer s)
  end.

(** ** Stop tools *)

Definition stopToolTermination (toolName observation thought : string) (isError : bool)
    (resp : ChatResponse) (s : xstate) : loopAction * xstate :=
  if isError then (actionNone, s)
  else if negb (bool_decide (toolName ∈ stopTools cfg)) then (actionNone, s)
  else match guard_error s with
  | Some reason =>
      let st := mkStep "" "" [] no_tool_call "" false (usage_sum resp) reason 0 false "" in
      (actionBreak, diag "stop_tool_guard_rejected" [("tool", DStr toolName); ("reason", DStr reason)]
                      (add_step st s))
  | None =>
      let s := diag "stop_tool_terminated" [("tool", DStr toolName)] s in
      (actionBreak, set_finish (Some (mkExecutorResult observation (allSteps (run s)) true "" thought)) s)
  end.

(** ** Checklist corrections *)

Definition checklistBatchingSuffix (input : string) (s : xstate) : string * xstate :=
  let steps := allSteps (run s) in
  let prevIdx := lastChecklistUpdateIndex (rev steps) in
  if prevIdx <? 0 then ("", s)
  else
    let prevInput := match steps !! Z.to_nat prevIdx with Some st => tc_input (s_action st) | None => "" end in
    let prevItems := checklistItemsFromInput prevInput in
    let currItems := checklistItemsFromInput input in
    let k := newly_checked prevItems currItems in
    if Nat.eqb (length currItems) 0 then ("", s)
    else if k <=? 0 then ("", s)
    else if k =? 1 then (checklistBatchPositiveSuffix, s)
    else (checklistBatchWarningFmt k, diag "checklist_batched_update" [("newly_checked", DInt k)] s).

(** ** What an accepted finish guarantees *)

Lemma runVerify_frame toolName e l obs s :
  let '(_, s') := runVerifyOnEditHook toolName e l obs s in
  allSteps (run s') = allSteps (run s) /\ ex s' = ex s /\ finishResult (run s') = finishResult (run s) /\
  trace s `sublist_of` trace s'.
Proof.
  unfold runVerifyOnEditHook. destruct (w_verifyOnEdit w); [|done].
  assert (Hl : forall (h : history) ev, h `sublist_of` h ++ [ev]) by (intros; by apply sublist_inserts_r).
  cbv zeta. destruct (IsFileEditTool toolName && negb e); destruct (negb l || _); simpl; try done;
    repeat step_match; simpl; auto.
Qed.

(** A mutation counted by the gate is a step of the trajectory. *)
Lemma hasMutating_true steps :
  hasMutatingToolExecuted steps = true <-> exists st, st ∈ steps /\ isSuccessfulMutationStep st = true.
Proof. apply existsb_elem. Qed.

(** The finish step itself never counts as a mutation. *)
Lemma hasMutating_app_finish steps st :
  tc_name (s_action st) = "finish" ->
  hasMutatingToolExecuted (steps ++ [st]) = hasMutatingToolExecuted steps.
Proof.
  intros Hn. unfold hasMutatingToolExecuted. rewrite existsb_app. simpl.
  unfold isSuccessfulMutationStep. rewrite Hn. simpl. by rewrite !orb_false_r.
Qed.

(** ** The gates, stated on the trajectory

    What a gate asks for, in the terms of the steps taken: a successful call of
    a mutating tool, a successful checklist update, three productive calls, and
    the last update that reported on the items. *)

Definition mutates (st : Step) : Prop :=
  tc_name (s_action st) ∈ mutatingTools /\ s_is_error st = false /\
  has_prefix (s_observation st) "[Tool call rejected" = false.

Definition updates_checklist (st : Step) : Prop :=
  tc_name (s_action st) = "update_checklist" /\ s_is_error st = false.

Definition productive (st : Step) : Prop :=
  tc_name (s_action st) ∉ [""; "finish"; "update_checklist"].

(** The last update with an observation reads [dn/total done]. *)
Definition last_report (steps : list Step) (dn total : Z) : Prop :=
  exists pre st post, steps = pre ++ st :: post /\
    updates_checklist st /\ s_observation st <> "" /\
    checklistDoneRe (s_observation st) = Some (dn, total) /\
    Forall (fun x => ~ (updates_checklist x /\ s_observation x <> "")) post.

Definition mutation_due (s : xstate) : Prop :=
  mutationRequired cfg = true /\ Forall (fun st => ~ mutates st) (allSteps (run s)) /\
  mutationNudgeAttempted (gates (ex s)) = false.

Definition checklist_on : Prop :=
  checklistGateEnabled cfg = true /\ "update_checklist" ∈ taskTools cfg.

Definition checklist_due (s : xstate) : Prop :=
  checklist_on /\ Forall (fun st => ~ updates_checklist st) (allSteps (run s)) /\
  (exists three, three `sublist_of` allSteps (run s) /\ length three = 3%nat /\ Forall productive three) /\
  checklistMissingNudgeAttempted (gates (ex s)) = false.

Definition unchecked_due (s : xstate) (k : Z) : Prop :=
  checklist_on /\ (exists dn total, last_report (allSteps (run s)) dn total /\ k = total - dn) /\ 0 < k /\
  checklistUncheckedNudgeAttempted (gates (ex s)) = false.

(** The gate that objects, with its nudge and the flags it leaves: the guard
    first, then the gates in their order, each at most once in a run. *)
Inductive objection (s : xstate) : string -> FinishGates -> Prop :=
  | guard_objects reason :
      guard_error s = Some reason -> objection s reason (gates (ex s))
  | mutation_objects :
      guard_error s = None -> mutation_due s ->
      objection s executorMutationNudge
        (mkGates (finishNudgeAttempted (gates (ex s))) true
           (checklistMissingNudgeAttempted (gates (ex s))) (checklistUncheckedNudgeAttempted (gates (ex s))))
  | checklist_objects :
      guard_error s = None -> ~ mutation_due s -> checklist_due s ->
      objection s executorChecklistMissingNudge
        (mkGates (finishNudgeAttempted (gates (ex s))) (mutationNudgeAttempted (gates (ex s))) true
           (checklistUncheckedNudgeAttempted (gates (ex s))))
  | unchecked_objects k :
      guard_error s = None -> ~ mutation_due s -> ~ checklist_due s -> unchecked_due s k ->
      objection s (executorChecklistUncheckedNudge k)
        (mkGates (finishNudgeAttempted (gates (ex s))) (mutationNudgeAttempted (gates (ex s)))
           (checklistMissingNudgeAttempted (gates (ex s))) true).

(** The outcome of a finish call, from a state with no result yet. *)
Definition finish_ok (action : ToolCall) (s : xstate) (o : loopAction * xstate) : Prop :=
  let '(act, s') := o in
  act = actionBreak /\
  match finishResult (run s') with
  | None =>
      exists nudge, objection s nudge (gates (ex s')) /\
      exists st, allSteps (run s') = allSteps (run s) ++ [st] /\ tc_name (s_action st) = "" /\
        s_nudge st = nudge /\ CwAddStep st ∈ trace s'
  | Some r =>
      guard_error s = None /\ ~ mutation_due s /\ ~ checklist_due s /\ (forall k, ~ unchecked_due s k) /\
      gates (ex s') = gates (ex s) /\
      er_steps r = allSteps (run s') /\
      (exists st, allSteps (run s') = allSteps (run s) ++ [st] /\ s_action st = action) /\
      (exists note, er_output r = finish_answer (tc_input action) +s+ note) /\
      (er_finished r = true <->
       mutationRequired cfg = false \/ exists st, st ∈ allSteps (run s) /\ mutates st)
  end.

(** *** The code's tests decide the gates *)

Lemma mutating_iff st : isSuccessfulMutationStep st = true <-> mutates st.
Proof.
  unfold isSuccessfulMutationStep, mutates. destruct (String.eqb_spec (tc_name (s_action st)) "") as [E|E].
  { rewrite E. split; [done|]. intros [Hin _]. apply list_elem_of_In in Hin.
    repeat (destruct Hin as [Hin|Hin]; [discriminate Hin|]). by destruct Hin. }
  destruct (bool_decide_reflect (tc_name (s_action st) ∈ mutatingTools)); simpl; [|naive_solver].
  destruct (has_prefix _ _), (s_is_error st); simpl; naive_solver.
Qed.

Lemma hasMutating_iff steps :
  hasMutatingToolExecuted steps = true <-> exists st, st ∈ steps /\ mutates st.
Proof. rewrite hasMutating_true. by setoid_rewrite mutating_iff. Qed.

Lemma hasMutating_false steps :
  negb (hasMutatingToolExecuted steps) = true <-> Forall (fun st => ~ mutates st) steps.
Proof.
  rewrite negb_true_iff, <- not_true_iff_false, hasMutating_iff, Forall_forall. naive_solver.
Qed.

Lemma update_iff st : is_checklist_update st = true <-> updates_checklist st.
Proof.
  unfold is_checklist_update, updates_checklist. rewrite andb_true_iff, String.eqb_eq, negb_true_iff. done.
Qed.

Lemma hasUpdate_false steps :
  negb (hasChecklistUpdate steps) = true <-> Forall (fun st => ~ updates_checklist st) steps.
Proof.
  unfold hasChecklistUpdate. rewrite negb_true_iff, <- not_true_iff_false, existsb_elem, Forall_forall.
  setoid_rewrite update_iff. naive_solver.
Qed.

Lemma productive_iff st : isProductiveCall (tc_name (s_action st)) = true <-> productive st.
Proof.
  unfold isProductiveCall, productive. rewrite negb_true_iff, !orb_false_iff, !String.eqb_neq.
  rewrite !not_elem_of_cons. pose proof (not_elem_of_nil (tc_name (s_action st))). naive_solver.
Qed.

Lemma threshold_iff steps :
  (checklistTrivialThreshold <? countProductiveToolCalls steps) = true <->
  exists three, three `sublist_of` steps /\ length three = 3%nat /\ Forall productive three.
Proof.
  rewrite Z.ltb_lt. unfold countProductiveToolCalls, count_productive, checklistTrivialThreshold.
  set (f := fun s : Step => isProductiveCall (tc_name (s_action s))). split.
  - intros Hn. exists (take 3 (List.filter f steps)).
    assert (Hsub : List.filter f steps `sublist_of` steps).
    { clear. induction steps as [|x l IH]; simpl; [constructor|]. destruct (f x); by constructor. }
    split; [etrans; [apply sublist_take|exact Hsub]|]. split; [rewrite length_take; lia|].
    apply Forall_take, Forall_forall. intros x Hx. apply productive_iff.
    by apply elem_of_List_filter in Hx as [_ Hx].
  - intros (three & Hs & Hl & Hp).
    assert (Hm : (length three <= length (List.filter f steps))%nat); [|lia]. clear Hl.
    induction Hs as [|x l k Hs IH|x l k Hs IH]; simpl; [lia| |].
    + apply Forall_cons in Hp as [Hx Hp]. apply productive_iff in Hx.
      change (f x = true) in Hx. rewrite Hx. simpl. specialize (IH Hp). lia.
    + specialize (IH Hp). destruct (f x); simpl; lia.
Qed.

Lemma unchecked_scan_report rs k : 0 < k ->
  unchecked_scan rs = k <-> exists dn total, last_report (rev rs) dn total /\ k = total - dn.
Proof.
  intros Hk. unfold last_report.
  induction rs as [|x rs IH]; simpl.
  { split; [lia|]. intros (dn & total & (pre & st & post & E & _) & _). by destruct pre. }
  destruct (negb (String.eqb (tc_name (s_action x)) "update_checklist") || s_is_error x ||
            String.eqb (s_observation x) "") eqn:Eskip.
  - assert (Hno : ~ (updates_checklist x /\ s_observation x <> "")).
    { intros [[H1 H2] H3]. rewrite H1, H2 in Eskip. apply String.eqb_neq in H3. by rewrite H3 in Eskip. }
    rewrite IH. split; intros (dn & total & (pre & st & post & E & Hu & Ho & Hd & Hp) & ->);
      exists dn, total; split; try done.
    + exists pre, st, (post ++ [x]). rewrite E, <- app_assoc. repeat (split; [done|]).
      apply Forall_app. by split; [|apply Forall_singleton].
    + destruct post as [|y post' _] using rev_ind.
      { apply app_inj_tail in E as [_ ->]. by destruct Hno. }
      rewrite app_comm_cons, app_assoc in E. apply app_inj_tail in E as [E ->].
      apply Forall_app in Hp as [Hp _]. exists pre, st, post'. done.
  - apply orb_false_iff in Eskip as [Eskip Hobs]. apply orb_false_iff in Eskip as [Hn He].
    apply negb_false_iff, String.eqb_eq in Hn. apply String.eqb_neq in Hobs.
    split.
    + destruct (checklistDoneRe (s_observation x)) as [[dn total]|] eqn:Ed; [|lia].
      intros <-. exists dn, total. split; [|done]. exists (rev rs), x, []. by repeat split.
    + intros (dn & total & (pre & st & post & E & Hu & Ho & Hd & Hp) & ->).
      destruct post as [|y post' _] using rev_ind.
      { apply app_inj_tail in E as [_ ->]. by rewrite Hd. }
      rewrite app_comm_cons, app_assoc in E. apply app_inj_tail in E as [_ ->].
      apply Forall_app in Hp as [_ Hp]. apply Forall_inv in Hp. exfalso. apply Hp. by repeat split.
Qed.

Lemma checklist_on_iff : checklistGateEnabled cfg && checklistAvailable cfg = true <-> checklist_on.
Proof. unfold checklist_on, checklistAvailable. by rewrite andb_true_iff, bool_decide_eq_true. Qed.

Lemma mutation_due_iff s :
  mutationRequired cfg && negb (hasMutatingToolExecuted (allSteps (run s))) &&
    negb (mutationNudgeAttempted (gates (ex s))) = true <-> mutation_due s.
Proof. unfold mutation_due. rewrite !andb_true_iff, hasMutating_false, negb_true_iff. tauto. Qed.

Lemma checklist_due_iff s :
  checklistGateEnabled cfg && checklistAvailable cfg && negb (hasChecklistUpdate (allSteps (run s))) &&
    (checklistTrivialThreshold <? countProductiveToolCalls (allSteps (run s))) &&
    negb (checklistMissingNudgeAttempted (gates (ex s))) = true <-> checklist_due s.
Proof.
  unfold checklist_due. rewrite !(andb_true_iff (_ && _)), checklist_on_iff, hasUpdate_false, threshold_iff,
    negb_true_iff. tauto.
Qed.

Lemma unchecked_due_iff s k :
  unchecked_due s k <->
  checklistGateEnabled cfg && checklistAvailable cfg && negb (checklistUncheckedNudgeAttempted (gates (ex s))) &&
    (0 <? lastChecklistUnchecked (allSteps (run s))) = true /\ k = lastChecklistUnchecked (allSteps (run s)).
Proof.
  unfold unchecked_due, lastChecklistUnchecked. rewrite !(andb_true_iff (_ && _)), checklist_on_iff, negb_true_iff,
    Z.ltb_lt.
  pose proof (fun Hk => unchecked_scan_report (rev (allSteps (run s))) k Hk) as Hr.
  rewrite rev_involutive in Hr. split.
  - intros (Hon & Hx & Hk & Hf). apply (Hr Hk) in Hx. subst k. done.
  - intros [((Hon & Hf) & Hk) ->]. split; [done|]. by split; [apply Hr|].
Qed.

Lemma gate_nudge_ok action first thought nudge resp s x name d :
  finishResult (run x) = None -> allSteps (run x) = allSteps (run s) -> objection s nudge (gates (ex x)) ->
  finish_ok action s (actionBreak, diag name d (add_step (gate_step first thought nudge resp) x)).
Proof.
  intros Hf Ha Hn. split; [done|]. cbn [run ex diag emit add_step push_step set_allSteps on_run finishResult gates].
  rewrite Hf. exists nudge. split; [exact Hn|]. exists (gate_step first thought nudge resp). simpl. rewrite Ha.
  split; [done|]. split; [done|]. split; [done|].
  apply elem_of_app. left. apply elem_of_app. right. by apply list_elem_of_singleton.
Qed.

Lemma hook_answer toolName e l obs s :
  exists note, fst (runVerifyOnEditHook toolName e l obs s) = obs +s+ note.
Proof.
  assert (Hnil : exists note, obs = obs +s+ note) by (exists ""; by rewrite sapp_nil_r).
  unfold runVerifyOnEditHook. destruct (w_verifyOnEdit w); [|exact Hnil]. cbv zeta.
  destruct (_ || _); [exact Hnil|]. destruct (String.eqb (FormatVerifyNote _ _) ""); [exact Hnil|].
  destruct (String.eqb_spec obs "") as [->|]; eexists; reflexivity.
Qed.

Lemma accept_finish_ok action emitIdx first resp thought group s x :
  tc_name action = "finish" -> guard_error s = None ->
  ~ mutation_due s -> ~ checklist_due s -> (forall k, ~ unchecked_due s k) ->
  allSteps (run x) = allSteps (run s) -> ex x = ex s ->
  finish_ok action s
    (actionBreak, accept_finish action emitIdx first resp thought group (finish_answer (tc_input action)) x).
Proof.
  intros Hname Hg Hm Hc Hu Hx Hex. split; [done|]. unfold accept_finish.
  set (st := mkStep _ _ _ action _ _ _ _ _ _ _). set (answer := finish_answer _). cbv zeta.
  pose proof (runVerify_frame (tc_name action) false true answer (push_step st x)) as Hv.
  pose proof (hook_answer (tc_name action) false true answer (push_step st x)) as Hout.
  destruct (runVerifyOnEditHook _ _ _ _ _) as [ans s1]. destruct Hv as (Hs & He & _ & _).
  cbv zeta. change (allSteps (run (push_step st x))) with (allSteps (run x) ++ [st]) in Hs.
  set (s2 := tool_result_event emitIdx ans false s1).
  assert (Hs2 : allSteps (run s2) = allSteps (run s) ++ [st]) by (rewrite <- Hx; exact Hs).
  assert (He2 : ex s2 = ex s) by (rewrite <- Hex; exact He).
  set (rej := mutationRequired cfg && _).
  set (s3 := if rej then _ else s2).
  assert (Hs3 : allSteps (run s3) = allSteps (run s) ++ [st]) by (unfold s3; destruct rej; exact Hs2).
  assert (He3 : ex s3 = ex s) by (unfold s3; destruct rej; exact He2).
  simpl. rewrite Hs3, He3. repeat (split; [done|]). split; [by exists st|]. split; [exact Hout|].
  unfold rej. rewrite <- hasMutating_iff, negb_true_iff. clear -Hs2 Hname.
  rewrite Hs2, hasMutating_app_finish by done.
  destruct (mutationRequired cfg), (hasMutatingToolExecuted _); simpl; naive_solver.
Qed.

(** C33: what a [finish] call does.  If the guard objects, or else a gate is due,
    the run goes on with exactly one more step, which holds the nudge of the
    first that objects, that gate's flag is set, and no result is set.  The
    gates are due in this order, and each at most once: a required mutation
    that no step has performed; on a step with three productive calls, a
    checklist never updated; a last checklist report with unchecked items.  A
    finish is accepted exactly when neither the guard nor any gate objects:
    the result holds the trajectory with the finish step at its end and the
    answer of the call, and is a finished one exactly when the step needs no
    mutation or a mutating tool has succeeded before the call. *)
Theorem handleFinishCall_gates action emitIdx first resp thought group s
  (Hname : tc_name action = "finish") (Hnone : finishResult (run s) = None) :
  finish_ok action s (handleFinishCall action emitIdx first resp thought group s).
Proof.
  unfold handleFinishCall. destruct (guard_error s) as [reason|] eqn:Eg.
  { apply gate_nudge_ok; [done..|]. by apply guard_objects. }
  cbv zeta. cbn [emit run ex].
  destruct (mutationRequired cfg && _ && _) eqn:Em.
  { apply gate_nudge_ok; [done..|]. apply mutation_objects; [done|]. by apply mutation_due_iff. }
  assert (Hm : ~ mutation_due s) by (rewrite <- mutation_due_iff; congruence).
  destruct (_ && (checklistTrivialThreshold <? _) && _) eqn:Ec.
  { apply gate_nudge_ok; [done..|]. apply checklist_objects; [done|done|]. by apply checklist_due_iff. }
  assert (Hc : ~ checklist_due s) by (rewrite <- checklist_due_iff; congruence).
  destruct (_ && (0 <? _)) eqn:Eu.
  { apply gate_nudge_ok; [done..|]. apply unchecked_objects; [done..|]. by apply unchecked_due_iff. }
  apply accept_finish_ok; try done. intros k Hk. apply unchecked_due_iff in Hk as [Hk _]. congruence.
Qed.

(** A gate nudges once: after the finish calls of a run have nudged for a
    missing mutation, a missing checklist and unchecked items, and with a guard
    that agrees, the next finish call is accepted. *)
Theorem finish_nudges_exhausted action emitIdx first resp thought group s
  (Hguard : guard_error s = None)
  (Hm : mutationNudgeAttempted (gates (ex s)) = true)
  (Hc : checklistMissingNudgeAttempted (gates (ex s)) = true)
  (Hu : checklistUncheckedNudgeAttempted (gates (ex s)) = true) :
  is_Some (finishResult (run (snd (handleFinishCall action emitIdx first resp thought group s)))).
Proof.
  unfold handleFinishCall. rewrite Hguard. cbv zeta. cbn [emit ex]. rewrite Hm, Hc, Hu.
  cbn [negb]. rewrite !andb_false_r. cbn [andb snd]. unfold accept_finish. cbv zeta.
  destruct (runVerifyOnEditHook _ _ _ _ _) as [ans s1]. eexists. reflexivity.
Qed.

(** ** The implicit finish *)

(** A response without tool calls. *)
Definition implicit_ok (resp : ChatResponse) (thought : string) (s : xstate)
    (o : option ExecutorResult * loopAction * xstate) : Prop :=
  let '(res, act, s') := o in
  match res with
  | None => act = actionContinue /\ exists st, allSteps (run s') = allSteps (run s) ++ [st] /\ s_nudge st <> "" /\
              s_reasoning_items st = m_reasoning_items (r_message resp)
  | Some r =>
      act = actionNone /\ er_steps r = allSteps (run s') /\
      (er_finished r = true ->
         allSteps (run s') = allSteps (run s) ++ [response_step thought "" (usage_sum resp) resp] /\
         exists suffix, er_output r = thought +s+ suffix) /\
      (er_finished r = false -> allSteps (run s') = allSteps (run s))
  end.

Lemma flush_frame s :
  let '(_, s') := flushPendingVerifyOnEdit s in allSteps (run s') = allSteps (run s).
Proof. unfold flushPendingVerifyOnEdit. destruct (w_verifyOnEdit w); [|done]. by destruct (negb _). Qed.

Lemma accept_implicit_ok resp thought s : implicit_ok resp thought s (accept_implicit resp thought s).
Proof.
  unfold accept_implicit. cbv zeta. set (st := response_step _ _ _ _).
  pose proof (flush_frame (step_complete (push_step st s))) as Hf.
  destruct (flushPendingVerifyOnEdit _) as [note s1]. cbv zeta.
  set (out := if String.eqb note "" then _ else _).
  assert (Hs : allSteps (run (emitAssistantEvents out resp s1)) = allSteps (run s1)).
  { unfold emitAssistantEvents. destruct (suppressAssistantEvents cfg); [done|]. simpl.
    by destruct (assistantStreamed _). }
  split; [done|]. split; [done|]. split; [|done]. intros _. split; [by rewrite Hs, Hf|]. simpl. unfold out.
  destruct (String.eqb note ""); [exists ""; by rewrite sapp_nil_r|by exists (nl2 +s+ note)].
Qed.

(** A response without tool calls either gets one nudge, carrying the
    response's reasoning, or ends the run; it ends it unfinished only for
    tool-call syntax printed as text after three nudges, and a finished result
    starts with the model's text and records the response as its last step. *)
Theorem handleImplicitFinish_contract resp thought hasTools s :
  implicit_ok resp thought s (handleImplicitFinish resp thought hasTools s) /\
  (let '(res, _, _) := handleImplicitFinish resp thought hasTools s in
   (exists r, res = Some r /\ er_finished r = false) <->
   hasTools = true /\ DetectToolCallSyntaxInContent thought = true /\
   3 <= toolCallSyntaxNudgeCount (nudges (run s))).
Proof.
  assert (Hnudge : implicit_ok resp thought s (finish_nudge resp thought s)).
  { unfold finish_nudge. split; [done|]. eexists. split; [reflexivity|]. done. }
  assert (Hacc : forall r, fst (fst (accept_implicit resp thought s)) = Some r -> er_finished r = true).
  { unfold accept_implicit. cbv zeta. destruct (flushPendingVerifyOnEdit _) as [note s1].
    by intros r [= <-]. }
  assert (Hnn : forall r, fst (fst (finish_nudge resp thought s)) = Some r -> er_finished r = true).
  { intros r Hr. discriminate Hr. }
  unfold handleImplicitFinish. cbv zeta.
  destruct (hasTools && DetectToolCallSyntaxInContent thought) eqn:Ed.
  - apply andb_true_iff in Ed as [-> Hd]. destruct (Z.ltb_spec (toolCallSyntaxNudgeCount (nudges (run s))) 3).
    + split; [|split; [by intros (r & [=] & _)|lia]]. split; [done|]. eexists. split; [reflexivity|]. done.
    + split; [done|]. split; [|intros _; eauto]. intros _. split; [done|]. split; [done|lia].
  - assert (Hno : forall o, (forall r, fst (fst o) = Some r -> er_finished r = true) ->
      implicit_ok resp thought s o -> implicit_ok resp thought s o /\
      (let '(res, _, _) := o in (exists r, res = Some r /\ er_finished r = false) <->
       hasTools = true /\ DetectToolCallSyntaxInContent thought = true /\
       3 <= toolCallSyntaxNudgeCount (nudges (run s)))).
    { intros [[res act] s'] Hr Ho. split; [done|]. split.
      - intros (r & -> & Hf). by rewrite (Hr r eq_refl) in Hf.
      - intros (-> & Hd & _). by rewrite Hd in Ed. }
    destruct (String.eqb (r_stop_reason resp) "end_turn").
    + destruct (_ && negb _); [exact (Hno _ Hnn Hnudge)|exact (Hno _ Hacc (accept_implicit_ok _ _ _))].
    + destruct (hasTools && (implicitFinishNudgeCount (nudges (run s)) <? 2)).
      * apply (Hno (None, actionContinue, _)); [intros r Hr; discriminate Hr|]. split; [done|]. eexists. split; [reflexivity|]. done.
      * destruct (_ && negb _); [exact (Hno _ Hnn Hnudge)|exact (Hno _ Hacc (accept_implicit_ok _ _ _))].
Qed.

End finish.

Section examples.
Local Existing Instance Float64_Q.

Definition code_step : Config := {|
  maxSteps := 10; suppressAssistantEvents := true; streaming := false;
  HardCapTokens := 0; MaxFillFraction := (2 # 5)%Q; perToolTruncation := ∅; nonCacheableTools := ∅;
  mutationRequired := true; checklistGateEnabled := true; preWarningPercent := 0;
  stopTools := ∅; verifyOnEditCap := 4000; watchdog := mkWatch false 0 ∅;
  taskTools := ["write_file"]; resumeSteps := [] |}.

Definition finish_call : ToolCall := mkToolCall "c9" "finish" ("{" +s+ q "answer" +s+ ":" +s+ q "done" +s+ "}").
Definition plain_resp : ChatResponse := example_response "ok" "end_turn" [finish_call].

Definition first_finish : loopAction * xstate :=
  handleFinishCall code_step denying finish_call 0 true plain_resp "ok" 0 (example_start 10).

(** The first finish of a mutating step without a mutation is nudged, the
    second accepted but not finished. *)
Lemma handleFinishCall_gates_witness :
  finish_ok code_step denying finish_call (example_start 10) first_finish /\
  finishResult (run (snd first_finish)) = None /\
  exists r, finishResult (run (snd
    (handleFinishCall code_step denying finish_call 0 true plain_resp "ok" 0 (snd first_finish)))) = Some r /\
    er_finished r = false /\ er_output r = "done".
Proof.
  split.
  - apply (handleFinishCall_gates code_step denying finish_call 0 true plain_resp "ok" 0 (example_start 10));
      reflexivity.
  - split; [vm_compute; reflexivity|]. eexists. split; [vm_compute; reflexivity|]. split; reflexivity.
Defined.

Definition all_nudged : xstate := set_gates (mkGates true true true true) (example_start 10).

Lemma finish_nudges_exhausted_witness :
  is_Some (finishResult (run (snd
    (handleFinishCall code_step denying finish_call 0 true plain_resp "ok" 0 all_nudged)))).
Proof.
  exact (finish_nudges_exhausted code_step denying finish_call 0 true plain_resp "ok" 0 all_nudged
    eq_refl eq_refl eq_refl eq_refl).
Defined.

(** Text alone ends a plan step as finished after one nudge, without the
    mutation its configuration requires. *)
Example implicit_finish_without_mutation :
  let s1 := snd (handleImplicitFinish code_step denying plain_resp "all good" true (example_start 10)) in
  match handleImplicitFinish code_step denying plain_resp "all good" true s1 with
  | (Some r, _, _) => er_finished r = true /\ hasMutatingToolExecuted (er_steps r) = false
  | _ => False
  end.
Proof. vm_compute. split; reflexivity. Qed.

End examples.
