(* ===== verification/Executor.v ===== *)
(** * The ReAct loop: [Run] of [src/agent/executor.go] and the tool-call
    processing of [src/agent/executor_run.go] *)

From Stdlib Require Import ZArith QArith Lia Ascii.
From stdpp Require Import base gmap strings list.
From S2P Require Import Prelude GoStr GoFloat AgentTypes Nudges Json ToolSyntax ToolCache Watchdog ExecState.
From S2P Require Import Breaker ToolResult Finish.
Open Scope sp4rk_scope.
Open Scope Z_scope.

Section executor.
Context `{Float64} (cfg : Config) (w : World).

(** ** Display of [tool_result_read] *)

Definition resolveToolResultReadDisplay (name input : string) (s : xstate) : option (string * string) * xstate :=
  match toolCache (ex s) with
  | None => (None, s)
  | Some c =>
      if negb (String.eqb name "tool_result_read") then (None, s)
      else match unmarshal_string_field "hash" input with
      | None => (None, s)
      | Some hash =>
          if String.eqb hash "" then (None, s)
          else
            let now := w_now w (trace s) in
            let '(c', found) := Get now now hash c c in
            let s := set_toolCache (Some c') s in
            match found with
            | None => (None, s)
            | Some entry =>
                (Some (ToolName entry,
                       if String.eqb (Input entry) "" then input
                       else w_mergeFragmentWindow w (Input entry) input), s)
            end
      end
  end.

(** ** Pieces shared by single and batched calls *)

Definition formatPreCompactionNudge (fillPercent : F) (vulnerable : list (string * string)) : string :=
  "--- CONTEXT PRESSURE WARNING ---" +s+ nl +s+ "Context is " +s+ f_fmt 0 fillPercent +s+
  "% full. The following tool outputs will be pruned within the next few steps:" +s+ nl +s+
  join "" (map (fun v =>
    if negb (String.eqb (snd v) "") then "- " +s+ fst v +s+ "(" +s+ w_quote w (snd v) +s+ ")" +s+ nl
    else "- " +s+ fst v +s+ nl) vulnerable) +s+
  "If you need information from these outputs later, call store_fact NOW to preserve key findings." +s+ nl +s+
  "After pruning, only search_facts or re-reading the source will recover this information.".

Definition preCompactionNudge (last : bool) (observation : string) (s : xstate) : string * xstate :=
  if last && (0 <? preWarningPercent cfg) && negb (preCompactionNudgeEmitted (nudges (run s))) then
    let fill := w_CheckFill w (trace s) in
    if String.eqb (Status fill) "ok" && f_le (f_of_int (preWarningPercent cfg)) (Percent fill) then
      match w_VulnerableOutputs w (trace s) with
      | [] => (observation, s)
      | vulnerable =>
          (observation +s+ nl2 +s+ formatPreCompactionNudge (Percent fill) vulnerable,
           diag "pre_compaction_nudge"
             [("fill_percent", DFloat (Percent fill));
              ("vulnerable_count", DInt (Z.of_nat (length vulnerable)))]
             (setPreCompaction true s))
      end
    else (observation, s)
  else (observation, s).

(** The step of a call: the first of a response carries thought and reasoning. *)
Definition call_step (first : bool) (thought obs : string) (action : ToolCall) (isError untrusted : bool)
    (hash : string) (resp : ChatResponse) (group : Z) : Step :=
  mkStep (carry first thought "") (carry first (m_reasoning (r_message resp)) "")
    (carry first (m_reasoning_items (r_message resp)) []) action obs isError (usage_sum resp) "" group
    untrusted hash.

Definition rejection (reason : string) : string :=
  "[Tool call rejected: " +s+ (if String.eqb reason "" then "rejected by user" else reason) +s+ "]".

Definition non_empty (observation : string) : string :=
  if String.eqb observation "" then "(no output)" else observation.

Definition with_lastError (b : bool) (s : xstate) : xstate :=
  let t := repeat_ (ex s) in set_repeat (mkRepeat (consecutiveRepeatCount t) (lastToolKey t) b) s.

Definition watch_config : wconfig :=
  mkWatch (match w_pauseChecker w with Some _ => true | None => false end)
    (toolCallTimeout (watchdog cfg)) (toolCallTimeoutExempt (watchdog cfg)).

(** [e.executeToolCall(execCtx, name, input)] *)
Definition execute (name input : string) (s : xstate) : tool_outcome * xstate :=
  (executeToolCall watch_config name (w_toolRun w (trace s) name input), emit (ToolExecuted name input) s).

Definition defaultVerifyOnEditCheckpointBudget : string := "5s".

Definition timeout_error (name : string) : gerror :=
  mkErr ("tool " +s+ w_quote w name +s+ ": tool call timed out") [ErrToolTimeout].

(** The two results of a call processor, its error, and the state. *)
Definition call_out : Type := option ExecutorResult * loopAction * option gerror * xstate.

(** ** One tool call *)

(** From the result of an executed call to the end of its processing. *)
Definition finish_single (action : ToolCall) (input : string) (callIdx : Z) (last : bool)
    (resp : ChatResponse) (thought : string) (group : Z) (result : ToolResult) (s : xstate) : call_out :=
  let observation := tr_content result in
  let s := with_lastError (tr_is_error result) s in
  let isUntrusted := w_IsToolUntrusted w (tc_name action) in
  let '(act, res, s) := checkFruitlessResult w action callIdx observation (tr_is_error result) s in
  match act, res with
  | actionNone, None =>
      let '(act, res, s) := checkSameToolRepetition w action callIdx observation result s in
      match act, res with
      | actionNone, None =>
          let observation := non_empty observation in
          let '(observation, act, res, s) := checkParseErrors w action callIdx observation result s in
          match act, res with
          | actionNone, None =>
              let '(observation, cacheHash, s) :=
                processToolResult cfg w observation (tr_content result) (tc_name action) input s in
              let '(observation, s) :=
                runVerifyOnEditHook cfg w (tc_name action) (tr_is_error result) last observation s in
              let s := tool_result_event callIdx observation (tr_is_error result) s in
              let '(observation, s) := preCompactionNudge last observation s in
              let '(observation, s) :=
                if checklistGateEnabled cfg && checklistAvailable cfg &&
                   String.eqb (tc_name action) "update_checklist" && negb (tr_is_error result)
                then let '(suffix, s) := checklistBatchingSuffix (tc_input action) s in
                     (if String.eqb suffix "" then observation else observation +s+ nl2 +s+ suffix, s)
                else (observation, s) in
              let s := add_step (call_step (callIdx =? 0) thought observation action (tr_is_error result)
                                   isUntrusted cacheHash resp group) s in
              let '(act, s) := stopToolTermination cfg w (tc_name action) observation thought
                                 (tr_is_error result) resp s in
              (None, act, None, s)
          | act, res => (res, act, None, s)
          end
      | act, res => (res, act, None, s)
      end
  | act, res => (res, act, None, s)
  end.

(** The arms that abandon a tool whose call returned an error. *)
Definition abandon (name : string) (err : gerror) (s : xstate) : call_out :=
  if isPauseError err then
    let s := flushPendingVerifyOnEditAtCheckpoint cfg w defaultVerifyOnEditCheckpointBudget s in
    (Some (unfinished "" s), actionNone, Some err_paused, s)
  else if isToolTimeoutError err then (None, actionNone, Some (timeout_error name), s)
  else (None, actionNone, Some err, s).

Definition hitl_error (name : string) (err : gerror) : gerror :=
  mkErr ("HITL handler error for tool " +s+ w_quote w name +s+ ": " +s+ err_text err) (err_chain err).

(** [e.hitl.OnToolCall] *)
Definition OnToolCall (name input : string) (s : xstate) : (option HITLToolDecision + gerror) * xstate :=
  (w_OnToolCall w (trace s) name input, emit (AskedToolCall name input) s).

(** A call of an ordinary tool, from its display to its end. *)
Definition process_tool (action : ToolCall) (callIdx : Z) (last : bool) (resp : ChatResponse)
    (thought : string) (s : xstate) : call_out :=
  let group := responseGroup (run s) in
  let '(display, s) := resolveToolResultReadDisplay (tc_name action) (tc_input action) s in
  let '(name, args) := match display with
                       | Some (base, args) => (base +s+ " (cached)", args)
                       | None => (tc_name action, tc_input action)
                       end in
  let s := emit (EvToolCall (stepNum (run s)) callIdx name args (w_GetToolSource w (tc_name action))) s in
  let '(act, res, s) := checkRepeatIdenticalTool w action callIdx thought resp s in
  match act, res with
  | actionNone, None =>
      let '(decision, s) := OnToolCall (tc_name action) (tc_input action) s in
      match decision with
      | inr err => (None, actionNone, Some (hitl_error (tc_name action) err), s)
      | inl (Some (mkDecision false _ reason)) =>
          let '(obs, s) := runVerifyOnEditHook cfg w (tc_name action) true last (rejection reason) s in
          let s := tool_result_event callIdx obs true s in
          let first := callIdx =? 0 in
          let st := mkStep thought (carry first (m_reasoning (r_message resp)) "")
                      (carry first (m_reasoning_items (r_message resp)) []) action obs true
                      (usage_sum resp) "" group false "" in
          (None, actionNone, None, set_triggered true (add_step st s))
      | inl d =>
          let input := match d with
                       | Some dec => if String.eqb (ModifiedInput dec) "" then tc_input action else ModifiedInput dec
                       | None => tc_input action
                       end in
          let '(out, s) := execute (tc_name action) input s in
          match out with
          | inr err => abandon (tc_name action) err s
          | inl result => finish_single action input callIdx last resp thought group result s
          end
      end
  | act, res => (res, act, None, s)
  end.

(** ** The batch meta-tool *)

Definition batchIndexBase : Z := 10000.

(** Every member of the name, case-insensitively, in turn: the last one counts. *)
Definition raw_field (name : string) (l : list (string * string)) : option string :=
  fold_left (fun acc kv => if String.eqb (fold_ascii (fst kv)) (fold_ascii name) then Some (snd kv) else acc) l None.

(** One element of [calls]: tool and input ([None]: not decodable). *)
Definition decode_sub (raw : string) : option (string * string) :=
  match json_decode raw with
  | Some (JObj l) =>
      match string_field "tool" "" l with
      | Some tool => Some (tool, default "" (raw_field "input" l))
      | None => None
      end
  | Some JNull => Some ("", "")
  | _ => None
  end.

Definition decode_batch (input : string) : option (list (string * string)) :=
  match json_decode input with
  | Some (JObj l) =>
      match raw_field "calls" l with
      | None => Some []
      | Some raw =>
          match json_decode raw with
          | Some (JArr elems) => mapM decode_sub elems
          | Some JNull => Some []
          | _ => None
          end
      end
  | Some JNull => Some []
  | _ => None
  end.

(** The error step of a batch that has no calls to run. *)
Definition batch_failed (action : ToolCall) (callIdx : Z) (obs : string) (resp : ChatResponse)
    (thought : string) (s : xstate) : call_out :=
  let s := emit (EvToolCall (stepNum (run s)) callIdx (tc_name action) (tc_input action)
                   (w_GetToolSource w (tc_name action))) s in
  let s := tool_result_event callIdx obs true s in
  (None, actionNone, None,
   add_step (call_step true thought obs action true false "" resp (responseGroup (run s))) s).

Definition sub_call (s : xstate) (callIdx subIdx : Z) (sub : string * string) : ToolCall :=
  mkToolCall ("batch_" +s+ itoa (stepNum (run s)) +s+ "_" +s+ itoa callIdx +s+ "_sub_" +s+ itoa subIdx)
    (fst sub) (snd sub).

(** From the result of an executed sub-call to the end of its processing. *)
Definition finish_sub (subCall : ToolCall) (subInput : string) (effectiveIdx : Z) (first last : bool)
    (resp : ChatResponse) (thought : string) (group : Z) (result : ToolResult) (s : xstate) : call_out :=
  let observation := tr_content result in
  let s := with_lastError (tr_is_error result) s in
  let '(act, res, s) := checkFruitlessResult w subCall effectiveIdx observation (tr_is_error result) s in
  match act, res with
  | actionNone, None =>
      let '(act, res, s) := checkSameToolRepetition w subCall effectiveIdx observation result s in
      match act, res with
      | actionNone, None =>
          let observation := non_empty observation in
          let isUntrusted := w_IsToolUntrusted w (tc_name subCall) in
          let '(observation, hash, s) :=
            processToolResult cfg w observation (tr_content result) (tc_name subCall) subInput s in
          let '(observation, s) :=
            runVerifyOnEditHook cfg w (tc_name subCall) (tr_is_error result) last observation s in
          let s := tool_result_event effectiveIdx observation (tr_is_error result) s in
          let '(observation, s) := preCompactionNudge last observation s in
          let s := add_step (call_step first thought observation subCall (tr_is_error result)
                               isUntrusted hash resp group) s in
          let '(act, s) := stopToolTermination cfg w (tc_name subCall) observation thought
                             (tr_is_error result) resp s in
          (None, act, None, s)
      | act, res => (res, act, None, s)
      end
  | act, res => (res, act, None, s)
  end.

Definition process_sub (callIdx subIdx : Z) (last : bool) (sub : string * string) (resp : ChatResponse)
    (thought : string) (s : xstate) : call_out :=
  let group := responseGroup (run s) in
  let effectiveIdx := (callIdx + 1) * batchIndexBase + subIdx in
  let subCall := sub_call s callIdx subIdx sub in
  let first := (subIdx =? 0) && (callIdx =? 0) in
  if String.eqb (tc_name subCall) "batch" then
    let obs := "error: batch cannot be nested inside another batch call" in
    let s := emit (EvToolCall (stepNum (run s)) effectiveIdx "batch (batched)" (snd sub)
                     (w_GetToolSource w (fst sub))) s in
    let s := tool_result_event effectiveIdx obs true s in
    (None, actionNone, None, add_step (call_step first thought obs subCall true false "" resp group) s)
  else if String.eqb (tc_name subCall) "finish" then
    let '(act, s) := handleFinishCall cfg w subCall effectiveIdx first resp thought group s in
    (None, act, None, s)
  else
    let '(display, s) := resolveToolResultReadDisplay (fst sub) (snd sub) s in
    let '(name, args) := match display with
                         | Some (base, args) => (base +s+ " (batched)", args)
                         | None => (fst sub +s+ " (batched)", snd sub)
                         end in
    let s := emit (EvToolCall (stepNum (run s)) effectiveIdx name args (w_GetToolSource w (fst sub))) s in
    let '(act, res, s) := checkRepeatIdenticalTool w subCall effectiveIdx thought resp s in
    match act, res with
    | actionNone, None =>
        let '(decision, s) := OnToolCall (tc_name subCall) (tc_input subCall) s in
        match decision with
        | inl (Some (mkDecision false _ reason)) =>
            let '(obs, s) := runVerifyOnEditHook cfg w (tc_name subCall) true last (rejection reason) s in
            let s := tool_result_event effectiveIdx obs true s in
            let s := add_step (call_step first thought obs subCall true false "" resp group) s in
            (None, actionNone, None, set_triggered true s)
        | inr err =>
            let result := mkToolResult (err_text (hitl_error (tc_name subCall) err)) true in
            finish_sub subCall (tc_input subCall) effectiveIdx first last resp thought group result s
        | inl d =>
            let subInput := match d with
                            | Some dec => if String.eqb (ModifiedInput dec) "" then tc_input subCall
                                          else ModifiedInput dec
                            | None => tc_input subCall
                            end in
            let '(out, s) := execute (tc_name subCall) subInput s in
            match out with
            | inl result => finish_sub subCall subInput effectiveIdx first last resp thought group result s
            | inr err =>
                if isPauseError err || isToolTimeoutError err || isContextError err
                then abandon (tc_name subCall) err s
                else
                  let result := mkToolResult ("error executing " +s+ w_quote w (tc_name subCall) +s+ ": " +s+
                                              err_text err) true in
                  finish_sub subCall subInput effectiveIdx first last resp thought group result s
            end
        end
    | act, res => (res, act, None, s)
    end.

(** The loop over the sub-calls; an accepted sub-call lets the next one run. *)
Fixpoint batch_loop (callIdx subIdx : Z) (lastCall : bool) (subs : list (string * string))
    (resp : ChatResponse) (thought : string) (s : xstate) : call_out :=
  match subs with
  | [] => (None, actionNone, None, s)
  | sub :: rest =>
      let last := bool_decide (rest = []) && lastCall in
      match process_sub callIdx subIdx last sub resp thought s with
      | (None, actionNone, None, s) => batch_loop callIdx (subIdx + 1) lastCall rest resp thought s
      | out => out
      end
  end.

Definition processBatchTool (action : ToolCall) (callIdx : Z) (lastCall : bool) (resp : ChatResponse)
    (thought : string) (s : xstate) : call_out :=
  match decode_batch (tc_input action) with
  | None =>
      batch_failed action callIdx ("batch parse error: " +s+ w_jsonError w (tc_input action)) resp thought s
  | Some [] => batch_failed action callIdx "batch: no calls provided (empty calls array)" resp thought s
  | Some subs => batch_loop callIdx 0 lastCall subs resp thought s
  end.

(** ** All calls of a response *)

Definition processSingleToolCall (action : ToolCall) (callIdx : Z) (last : bool) (resp : ChatResponse)
    (thought : string) (s : xstate) : call_out :=
  if String.eqb (tc_name action) "batch" then processBatchTool action callIdx last resp thought s
  else if String.eqb (tc_name action) "finish" then
    let '(act, s) := handleFinishCall cfg w action callIdx (callIdx =? 0) resp thought
                       (responseGroup (run s)) s in
    (None, act, None, s)
  else process_tool action callIdx last resp thought s.

Fixpoint calls_loop (callIdx : Z) (calls : list ToolCall) (resp : ChatResponse) (thought : string)
    (s : xstate) : option ExecutorResult * option gerror * xstate :=
  match calls with
  | [] => (None, None, s)
  | action :: rest =>
      match processSingleToolCall action callIdx (bool_decide (rest = [])) resp thought s with
      | (res, _, Some err, s) => (res, Some err, s)
      | (Some r, _, None, s) => (Some r, None, s)
      | (None, actionBreak, None, s) => (None, None, s)
      | (None, _, None, s) => calls_loop (callIdx + 1) rest resp thought s
      end
  end.

Definition processToolCalls (resp : ChatResponse) (thought : string) (s : xstate)
    : option ExecutorResult * option gerror * xstate :=
  let toolCalls := m_tool_calls (r_message resp) in
  let s := if (1 <? Z.of_nat (length toolCalls))
           then let g := responseGroupCounter (ex s) + 1 in set_group g (set_groupCounter g s)
           else set_group 0 s in
  let s := set_triggered false (set_finish None s) in
  match calls_loop 0 toolCalls resp thought s with
  | (res, Some err, s) => (res, Some err, s)
  | (Some r, None, s) => (Some r, None, s)
  | (None, None, s) =>
      match finishResult (run s) with
      | Some r => (Some r, None, step_complete s)
      | None => (None, None, s)
      end
  end.

(** ** The model call *)

Definition isContextExceededError (err : gerror) : bool :=
  errors_Is (Some err) ContextExceeded ||
  existsb (contains (w_ToLower w (err_text err)))
    ["context length exceeded"; "maximum context length"; "context_length_exceeded"; "too many tokens";
     "request too large"; "input is too long"; "prompt is too long"; "context size has been exceeded"].

(** [req.DeltaSink] *)
Definition delta_sink (s : xstate) (text : string) : xstate :=
  if String.eqb text "" then s
  else
    let st := stream (run s) in
    emit (EvAssistantChunk text)
      (set_stream (mkStream true true (assistantStreamText st +s+ text) (assistantStreamUsageIn st)
                     (assistantStreamUsageOut st)) s).

Definition near_server_limit (resp : ChatResponse) (s : xstate) : xstate :=
  match w_ContextWindowSize w with
  | None => s
  | Some size =>
      let window := size (trace s) in
      let inTok := u_in (r_usage resp) in
      if (0 <? window) && (0 <? inTok) then
        let outputLimit := w_OutputLimit w (trace s) in
        let estimated := inTok + outputLimit in
        if f_le (f_mul (f_of_int window) (f_div (f_of_int 9) (f_of_int 10))) (f_of_int estimated) then
          if nearServerLimitLatched (run s) then s
          else diag "context_near_server_limit"
                 [("input_tokens", DInt inTok); ("output_limit", DInt outputLimit);
                  ("context_window", DInt window); ("estimated", DInt estimated)] (set_latched true s)
        else set_latched false s
      else s
  end.

(** [inl None] is [actionContinue]. *)
Definition callLLMWithReactiveCompaction (s : xstate) : (option ChatResponse + gerror) * xstate :=
  let st := stream (run s) in
  let s := set_stream (mkStream false (assistantStreamOpen st) (assistantStreamText st)
                         (assistantStreamUsageIn st) (assistantStreamUsageOut st)) s in
  let out := w_LLM w (trace s) in
  let s := emit LLMCall s in
  let s := if streaming cfg && negb (suppressAssistantEvents cfg)
           then fold_left delta_sink (lo_deltas out) s else s in
  match lo_result out with
  | inr err =>
      if isContextExceededError err && assistantStreamed (stream (run s)) then
        (inr err, diag "reactive_compaction_skipped_streamed" [("error", DStr (err_text err))] s)
      else if isContextExceededError err && negb (reactiveCompactAttempted (run s)) then
        (inl None, diag "reactive_compaction_api_error" [("error", DStr (err_text err))]
                     (compact_context w (set_reactive true s)))
      else (inr err, s)
  | inl None =>
      (inr (mkErr ("llm returned empty response at step " +s+ itoa (stepNum (run s))) []), s)
  | inl (Some resp) =>
      let st := stream (run s) in
      let s := if assistantStreamed st
               then set_stream (mkStream true (assistantStreamOpen st) (assistantStreamText st)
                      (assistantStreamUsageIn st + u_in (r_usage resp))
                      (assistantStreamUsageOut st + u_out (r_usage resp))) s
               else s in
      let s := near_server_limit resp s in
      let s := if w_InterjectionConsumer w then emit CwConsumeInterjection s else s in
      (inl (Some resp), s)
  end.

(** ** The loop *)

Definition compact_error_text (e : compact_error) : gerror :=
  match e with
  | BudgetTooSmall max =>
      mkErr ("context budget is " +s+ itoa max +s+ " usable tokens before any content: the model's context " +s+
             "window is too small for the configured output limit and safety margin (and the tool-schema " +s+
             "reserve); compaction cannot recover") []
  | WindowFull percent max =>
      mkErr ("context window full after reactive compaction (" +s+ f_fmt 1 percent +s+ "% of " +s+
             itoa max +s+ " tokens)") []
  end.

(** One iteration: leave [Run], leave the loop, or go on to the next step. *)
Inductive iter_out :=
| Exit (res : option ExecutorResult) (err : option gerror) (s : xstate)
| Break (s : xstate)
| Next (s : xstate).

(** From a response to the end of the iteration. *)
Definition after_tools (s : xstate) : iter_out :=
  let s := step_complete s in
  if circuitBreakerTriggered (run s) then Next (set_triggered false s)
  else
    let s := handleChecklistStalenessNudge cfg (handleWrapUpNudge s) in
    match handleCompactionAfterStep w s with
    | (_, Some e, s) => Exit None (Some (compact_error_text e)) s
    | (_, None, s) => Next s
    end.

Definition run_tools (resp : ChatResponse) (thought : string) (s : xstate) : iter_out :=
  let s := set_truncation 0 s in
  match processToolCalls resp thought s with
  | (res, Some err, s) => if isPauseError err then Exit res (Some err) s else Exit None (Some err) s
  | (Some r, None, s) => Exit (Some r) None s
  | (None, None, s) => after_tools s
  end.

Definition handle_response (resp : ChatResponse) (s : xstate) : iter_out :=
  let thought := m_content (r_message resp) in
  let s := if negb (String.eqb thought "") || negb (String.eqb (r_reasoning resp) "")
           then emit (EvThought (stepNum (run s)) thought (r_reasoning resp)) s else s in
  let hasTools := negb (bool_decide (taskTools cfg = [])) in
  match m_tool_calls (r_message resp) with
  | [] =>
      match handleImplicitFinish cfg w resp thought hasTools s with
      | (Some r, _, s) => Exit (Some r) None s
      | (None, actionContinue, s) => Next s
      | (None, _, s) => run_tools resp thought s
      end
  | _ :: _ =>
      if String.eqb (r_stop_reason resp) "max_tokens" then
        match handleTruncationStopReason w resp thought s with
        | (Some r, _, s) => Exit (Some r) None s
        | (None, actionContinue, s) => Next s
        | (None, _, s) => run_tools resp thought s
        end
      else run_tools resp thought s
  end.

(** The user's live message, delivered as a nudge-only step. *)
Definition live_message (s : xstate) : xstate :=
  match w_userMessageSource w with
  | None => s
  | Some source =>
      let msg := source (trace s) in
      if HasVisibleContent msg
      then diag "live_user_message" [("length", DInt (slen msg))] (add_step (nudge_step msg) s)
      else s
  end.

(** The iteration behind the step-limit boundary. *)
Definition iteration_body (s : xstate) : iter_out :=
  let s := emit (EvStepStart (stepNum (run s))) s in
  match w_ctxErr w (trace s) with
  | Some err => Exit None (Some err) s
  | None =>
      if match w_pauseChecker w with Some paused => paused (trace s) | None => false end
      then Exit (Some (unfinished "" s)) (Some err_paused) s
      else
        match callLLMWithReactiveCompaction (live_message s) with
        | (inr err, s) => Exit None (Some err) s
        | (inl None, s) => Next s
        | (inl (Some resp), s) => handle_response resp s
        end
  end.

Definition sync_trajectory (s : xstate) : xstate :=
  if w_TrajectoryStore w then emit (TrajectorySync (allSteps (run s))) s else s.

Definition iteration (s : xstate) : iter_out :=
  match handleStepLimitBoundary cfg w (sync_trajectory s) with
  | (actionReturn, s) => Exit (finishResult (run s)) None s
  | (actionBreak, s) => Break s
  | (_, s) => iteration_body s
  end.

(** The [for] loop; [None]: out of fuel. *)
Fixpoint run_loop (fuel : nat) (s : xstate) : option (option ExecutorResult * option gerror * xstate) :=
  if negb (unlimitedSteps (run s) || (stepNum (run s) <=? effectiveMaxSteps (run s) + 1))
  then Some (Some (unfinished "" s), None, s)
  else match fuel with
  | O => None
  | S fuel' =>
      match iteration s with
      | Exit res err s => Some (res, err, s)
      | Break s => Some (Some (unfinished "" s), None, s)
      | Next s => run_loop fuel' (set_stepNum (stepNum (run s) + 1) s)
      end
  end.

(** The highest response group of the resumed steps, or the counter's value. *)
Definition seed_groups (steps : list Step) (counter : Z) : Z :=
  fold_left (fun g st => if g <? s_group st then s_group st else g) steps counter.

Definition start_run (e : Executor) : xstate :=
  let n := Z.of_nat (length (resumeSteps cfg)) in
  let e := mkExecutor (circuitBreaker e) (repeat_ e) (consecutiveTruncationCount e) (parse_ e) (fruitless_ e)
             (same_ e) (gates e) (seed_groups (resumeSteps cfg) (responseGroupCounter e)) (toolCache e) in
  let s := set_allSteps (resumeSteps cfg) (set_stepNum (n + 1) (mkX e (new_run (maxSteps cfg)) [])) in
  if w_ToolOverheadAware w then emit CwSetToolOverhead s else s.

(** [Run]: the loop, then the deferred end of an open assistant stream. *)
Definition Run (fuel : nat) (e : Executor) : option (option ExecutorResult * option gerror * xstate) :=
  match run_loop fuel (start_run e) with
  | Some (res, err, s) => Some (res, err, finalizeAssistantStream cfg s)
  | None => None
  end.

End executor.
