(* ===== verification/ExecutorFacts.v ===== *)
(** * What a run of the executor guarantees

    Every handler of the loop extends the trajectory and the trace, keeps the
    step counter, the budget and the response group, tags its steps with that
    group or none, and keeps the tool cache consistent: the relation [Ext],
    closed under the updates of [ExecState] and proved handler by handler.
    The properties of [Run] follow by induction on the loop. *)

From Stdlib Require Import ZArith QArith Lia Ascii.
From stdpp Require Import base gmap strings list.
From S2P Require Import Prelude GoStr GoFloat AgentTypes Nudges Json ToolSyntax ToolCache Watchdog ExecState.
From S2P Require Import Breaker ToolResult Finish Executor.
Open Scope sp4rk_scope.
Open Scope Z_scope.

Section facts.
Context `{Float64} (cfg : Config) (w : World).
Hypothesis sha_length : forall s, String.length (w_sha256hex w s) = fullHashLen.

(** The tool cache, if there is one, is consistent. *)
Definition cinv (s : xstate) : Prop :=
  match toolCache (ex s) with
  | Some c => cache_inv (w_sha256hex w) c
  | None => True
  end.

Section handlers.
(** The response group the steps of a handler may carry. *)
Variable grp : Z.

Definition ok_group (st : Step) : Prop := s_group st = 0 \/ s_group st = grp.

Record Ext (s s' : xstate) : Prop := {
  ext_steps : exists l, allSteps (run s') = allSteps (run s) ++ l /\ Forall ok_group l;
  ext_trace : exists t, trace s' = trace s ++ t /\ LLMCall ∉ t;
  ext_num : stepNum (run s') = stepNum (run s);
  ext_max : effectiveMaxSteps (run s') = effectiveMaxSteps (run s);
  ext_unlimited : unlimitedSteps (run s') = unlimitedSteps (run s);
  ext_group : responseGroup (run s') = responseGroup (run s);
  ext_counter : responseGroupCounter (ex s') = responseGroupCounter (ex s);
  ext_finish : finishResult (run s') = finishResult (run s);
  ext_cache : cinv s -> cinv s';
}.

Lemma Ext_refl s : Ext s s.
Proof.
  constructor; try done; [exists []|exists []]; rewrite app_nil_r; (split; [done|]); [constructor|set_solver].
Qed.

Lemma Ext_trans a b c : Ext a b -> Ext b c -> Ext a c.
Proof.
  intros [(l1 & H1 & G1) (t1 & T1 & N1) ? ? ? Hg ? ? ?] [(l2 & H2 & G2) (t2 & T2 & N2) ? ? ? ? ? ? ?].
  constructor; try congruence; try tauto.
  - exists (l1 ++ l2). split; [by rewrite H2, H1, app_assoc|]. by apply Forall_app.
  - exists (t1 ++ t2). split; [by rewrite T2, T1, app_assoc|]. set_solver.
Qed.

(** ** Closure under the updates *)

Lemma Ext_emit s x ev : ev <> LLMCall -> Ext s x -> Ext s (emit ev x).
Proof.
  intros Hev Hx. apply (Ext_trans s x); [done|]. constructor; try done.
  - exists []. rewrite app_nil_r. done.
  - exists [ev]. split; [done|]. rewrite list_elem_of_singleton. congruence.
Qed.

Lemma Ext_push s x st : ok_group st -> Ext s x -> Ext s (push_step st x).
Proof.
  intros Hst Hx. apply (Ext_trans s x); [done|]. constructor; try done.
  - exists [st]. split; [done|]. by constructor.
  - exists []. rewrite app_nil_r. split; [done|set_solver].
Qed.

Lemma Ext_add s x st : ok_group st -> Ext s x -> Ext s (add_step st x).
Proof. intros Hst Hx. apply Ext_emit; [done|by apply Ext_push]. Qed.

Lemma Ext_diag s x n d : Ext s x -> Ext s (diag n d x).
Proof. by apply Ext_emit. Qed.
Lemma Ext_tool_result s x i t e : Ext s x -> Ext s (tool_result_event i t e x).
Proof. by apply Ext_emit. Qed.
Lemma Ext_step_complete s x : Ext s x -> Ext s (step_complete x).
Proof. by apply Ext_emit. Qed.

(** An update of a field no clause mentions. *)
Lemma Ext_neutral s x y :
  allSteps (run y) = allSteps (run x) -> trace y = trace x -> stepNum (run y) = stepNum (run x) ->
  effectiveMaxSteps (run y) = effectiveMaxSteps (run x) -> unlimitedSteps (run y) = unlimitedSteps (run x) ->
  responseGroup (run y) = responseGroup (run x) ->
  responseGroupCounter (ex y) = responseGroupCounter (ex x) ->
  finishResult (run y) = finishResult (run x) -> toolCache (ex y) = toolCache (ex x) ->
  Ext s x -> Ext s y.
Proof.
  intros Hs Ht Hn Hm Hu Hg Hc Hf Hca Hx. apply (Ext_trans s x); [done|]. constructor; try done.
  - exists []. rewrite app_nil_r. done.
  - exists []. rewrite app_nil_r. split; [done|set_solver].
  - unfold cinv. by rewrite Hca.
Qed.

Lemma Ext_set_cb s x v : Ext s x -> Ext s (set_cb v x). Proof. by apply Ext_neutral. Qed.
Lemma Ext_set_repeat s x v : Ext s x -> Ext s (set_repeat v x). Proof. by apply Ext_neutral. Qed.
Lemma Ext_set_truncation s x v : Ext s x -> Ext s (set_truncation v x). Proof. by apply Ext_neutral. Qed.
Lemma Ext_set_parse s x v : Ext s x -> Ext s (set_parse v x). Proof. by apply Ext_neutral. Qed.
Lemma Ext_set_fruitless s x v : Ext s x -> Ext s (set_fruitless v x). Proof. by apply Ext_neutral. Qed.
Lemma Ext_set_same s x v : Ext s x -> Ext s (set_same v x). Proof. by apply Ext_neutral. Qed.
Lemma Ext_set_gates s x v : Ext s x -> Ext s (set_gates v x). Proof. by apply Ext_neutral. Qed.
Lemma Ext_set_triggered s x v : Ext s x -> Ext s (set_triggered v x). Proof. by apply Ext_neutral. Qed.
Lemma Ext_set_reactive s x v : Ext s x -> Ext s (set_reactive v x). Proof. by apply Ext_neutral. Qed.
Lemma Ext_set_pending s x v : Ext s x -> Ext s (set_pendingVerify v x). Proof. by apply Ext_neutral. Qed.
Lemma Ext_set_latched s x v : Ext s x -> Ext s (set_latched v x). Proof. by apply Ext_neutral. Qed.
Lemma Ext_set_nudges s x v : Ext s x -> Ext s (set_nudges v x). Proof. by apply Ext_neutral. Qed.
Lemma Ext_set_stream s x v : Ext s x -> Ext s (set_stream v x). Proof. by apply Ext_neutral. Qed.
Lemma Ext_setPreCompaction s x v : Ext s x -> Ext s (setPreCompaction v x). Proof. by apply Ext_neutral. Qed.
Lemma Ext_with_lastError s x v : Ext s x -> Ext s (with_lastError v x). Proof. by apply Ext_neutral. Qed.

Lemma Ext_set_cache s x c : (cinv x -> cache_inv (w_sha256hex w) c) -> Ext s x -> Ext s (set_toolCache (Some c) x).
Proof.
  intros Hc Hx. apply (Ext_trans s x); [done|]. constructor; try done.
  - exists []. rewrite app_nil_r. done.
  - exists []. rewrite app_nil_r. split; [done|set_solver].
Qed.

#[local] Hint Resolve Ext_refl Ext_diag Ext_tool_result Ext_step_complete Ext_set_cb Ext_set_repeat
  Ext_set_truncation Ext_set_parse Ext_set_fruitless Ext_set_same Ext_set_gates
  Ext_set_triggered Ext_set_reactive Ext_set_pending Ext_set_latched Ext_set_nudges Ext_set_stream
  Ext_setPreCompaction Ext_with_lastError : ext.
#[local] Hint Extern 2 (Ext _ (emit _ _)) => apply Ext_emit; [discriminate|] : ext.
#[local] Hint Extern 2 (Ext _ (add_step _ _)) => apply Ext_add : ext.
#[local] Hint Extern 2 (Ext _ (push_step _ _)) => apply Ext_push : ext.
#[local] Hint Extern 2 (ok_group _) => first [by left | right; simpl; congruence] : ext.

(** The state a handler returns, whatever comes with it. *)
Ltac ext := eauto 20 with ext.

(** ** Results

    A result is complete when it holds the whole trajectory; a handler either
    leaves [finishResult] alone or breaks with a complete one in it. *)

Definition complete (res : option ExecutorResult) (s : xstate) : Prop :=
  forall r, res = Some r -> er_steps r = allSteps (run s).

Inductive Ends (s : xstate) (act : loopAction) (s' : xstate) : Prop :=
| Ends_ext : Ext s s' -> Ends s act s'
| Ends_finish x r : act = actionBreak -> Ext s x -> er_steps r = allSteps (run x) ->
    s' = set_finish (Some r) x -> Ends s act s'.

Lemma Ends_set s x r : Ext s x -> er_steps r = allSteps (run x) -> Ends s actionBreak (set_finish (Some r) x).
Proof. intros Hx Hr. by eapply Ends_finish. Qed.

(** What a call processor returns. *)
Definition Out (s : xstate) (o : call_out) : Prop :=
  let '(res, act, _, s') := o in Ends s act s' /\ complete res s'.

Lemma complete_none s : complete None s.
Proof. by intros r [=]. Qed.
Lemma complete_unfinished m s : complete (Some (unfinished m s)) s.
Proof. by intros r [= <-]. Qed.

Lemma Ends_trans a b act c : Ext a b -> Ends b act c -> Ends a act c.
Proof.
  intros Hab [Hbc|x r Ha Hbx Hr ->]; [left; by eapply Ext_trans|].
  eapply Ends_finish; [done|by eapply Ext_trans|exact Hr|done].
Qed.

Lemma Out_trans a b o : Ext a b -> Out b o -> Out a o.
Proof. destruct o as [[[res act] err] s]. intros Hab [He Hc]. split; [by eapply Ends_trans|done]. Qed.

Lemma Out_leaf s0 res act err s : Ext s0 s -> complete res s -> Out s0 (res, act, err, s).
Proof. intros. split; [by left|done]. Qed.

Lemma Out_ends s0 act err s : Ends s0 act s -> Out s0 (None, act, err, s).
Proof. intros. split; [done|apply complete_none]. Qed.

#[local] Hint Resolve complete_none complete_unfinished : ext.

(** ** Handler by handler *)

Lemma OnStepLimit_ext s0 r s : Ext s0 s -> Ext s0 (snd (OnStepLimit w r s)).
Proof. intros. unfold OnStepLimit. simpl. ext. Qed.

Lemma breaker_switch_ext s0 resp reset disable ack override s :
  (forall x, Ext s0 x -> Ext s0 (reset x)) -> (forall x, Ext s0 x -> Ext s0 (disable x)) ->
  Ext s0 s -> Ext s0 (breaker_switch resp reset disable ack override s).
Proof. intros Hr Hd Hs. unfold breaker_switch. destruct resp as [[]|]; ext. Qed.
#[local] Hint Resolve OnStepLimit_ext breaker_switch_ext : ext.

Lemma checkRepeat_ext a i t resp s :
  responseGroup (run s) = grp -> Ext s (snd (checkRepeatIdenticalTool w a i t resp s)).
Proof.
  intros Hg. unfold checkRepeatIdenticalTool. cbv zeta. destruct (_ && _).
  - match goal with |- context [OnStepLimit w ?r ?x] =>
      assert (Hx : Ext s (snd (OnStepLimit w r x))) by ext; destruct (OnStepLimit w r x) as [ans s1] end.
    simpl in Hx. destruct (circuitBreakerTriggered _); simpl; unfold reset_repeat; ext.
  - destruct (_ && _); simpl; ext.
Qed.

Lemma checkFruitless_ext a i o e s : Ext s (snd (checkFruitlessResult w a i o e s)).
Proof.
  unfold checkFruitlessResult. cbv zeta. destruct (exempt _); [simpl; ext|]. destruct (_ && _).
  - match goal with |- context [OnStepLimit w ?r ?x] =>
      assert (Hx : Ext s (snd (OnStepLimit w r x))) by ext; destruct (OnStepLimit w r x) as [ans s1] end.
    simpl in Hx. destruct (circuitBreakerTriggered _); simpl; ext.
  - destruct (_ && _); simpl; ext.
Qed.
Lemma checkSame_ext a i o r s : Ext s (snd (checkSameToolRepetition w a i o r s)).
Proof.
  unfold checkSameToolRepetition. cbv zeta. destruct (exempt _); [simpl; ext|]. destruct (_ && _).
  - match goal with |- context [OnStepLimit w ?r ?x] =>
      assert (Hx : Ext s (snd (OnStepLimit w r x))) by ext; destruct (OnStepLimit w r x) as [ans s1] end.
    simpl in Hx. destruct (circuitBreakerTriggered _); simpl; ext.
  - destruct (_ && _); simpl; ext.
Qed.

Lemma checkParse_ext a i o r s : Ext s (snd (checkParseErrors w a i o r s)).
Proof.
  unfold checkParseErrors. cbv zeta. destruct (_ && _); [|destruct (negb _); simpl; ext].
  destruct (_ && _); [|simpl; ext].
  match goal with |- context [OnStepLimit w ?r ?x] =>
    assert (Hx : Ext s (snd (OnStepLimit w r x))) by ext; destruct (OnStepLimit w r x) as [ans s1] end.
  simpl in Hx. destruct (circuitBreakerTriggered _); simpl; ext.
Qed.

Lemma handleTruncation_ext resp t s : Ext s (snd (handleTruncationStopReason w resp t s)).
Proof.
  unfold handleTruncationStopReason. destruct (m_tool_calls _); [ext|]. cbv zeta.
  destruct (_ && _); [|simpl; ext].
  match goal with |- context [OnStepLimit w ?r ?x] =>
    assert (Hx : Ext s (snd (OnStepLimit w r x))) by ext; destruct (OnStepLimit w r x) as [ans s1] end.
  simpl in Hx. destruct ans as [[]|]; simpl; ext.
Qed.

(** The result of a breaker, if any, is complete. *)
Ltac complete_breaker :=
  repeat first [ progress cbn [fst snd] | apply complete_none | apply complete_unfinished
               | match goal with |- context [OnStepLimit w ?r ?x] => destruct (OnStepLimit w r x) end
               | step_match ].

Lemma checkRepeat_complete a i t resp s :
  let o := checkRepeatIdenticalTool w a i t resp s in complete (snd (fst o)) (snd o).
Proof. unfold checkRepeatIdenticalTool. cbv zeta. complete_breaker. Qed.
Lemma checkFruitless_complete a i o e s :
  let o := checkFruitlessResult w a i o e s in complete (snd (fst o)) (snd o).
Proof. unfold checkFruitlessResult. cbv zeta. complete_breaker. Qed.
Lemma checkSame_complete a i o r s :
  let o := checkSameToolRepetition w a i o r s in complete (snd (fst o)) (snd o).
Proof. unfold checkSameToolRepetition. cbv zeta. complete_breaker. Qed.
Lemma checkParse_complete a i o r s :
  let o := checkParseErrors w a i o r s in complete (snd (fst o)) (snd o).
Proof. unfold checkParseErrors. cbv zeta. complete_breaker. Qed.
Lemma handleTruncation_complete resp t s :
  let o := handleTruncationStopReason w resp t s in complete (fst (fst o)) (snd o).
Proof. unfold handleTruncationStopReason. cbv zeta. destruct (m_tool_calls _); complete_breaker. Qed.

Lemma handleWrapUp_ext s0 s : Ext s0 s -> Ext s0 (handleWrapUpNudge s).
Proof. intros Hs. unfold handleWrapUpNudge. cbv zeta. destruct (_ && _); ext. Qed.

Lemma handleStale_ext s0 s : Ext s0 s -> Ext s0 (handleChecklistStalenessNudge cfg s).
Proof. intros Hs. unfold handleChecklistStalenessNudge. cbv zeta. repeat step_match; ext. Qed.

Lemma compact_ext s0 s : Ext s0 s -> Ext s0 (compact_context w s).
Proof. intros Hs. unfold compact_context. destruct (w_Compact w _) as [[]|]; ext. Qed.
#[local] Hint Resolve handleWrapUp_ext handleStale_ext compact_ext : ext.

Lemma handleCompaction_ext s0 s : Ext s0 s -> Ext s0 (snd (handleCompactionAfterStep w s)).
Proof. intros Hs. unfold handleCompactionAfterStep. cbv zeta. repeat step_match; simpl; ext. Qed.

(** ** Results, verification, ends *)

Lemma cache_stage_ext o f t i b s : Ext s (snd (cache_stage cfg w o f t i b s)).
Proof.
  assert (Hst : forall c, toolCache (ex s) = Some c -> Ext s (snd (store_result w c t f i s))).
  { intros c Hc. unfold store_result. cbv zeta. destruct (Store _ _ _ _ _ _ _) as [c' h] eqn:E. simpl.
    apply Ext_set_cache; [|ext]. unfold cinv. rewrite Hc. intros Hinv.
    pose proof (inv_store _ sha_length (w_rangeOrder w (trace s)) (w_now w (trace s)) t f
      (buildCacheMeta w s t i) c Hinv) as Hs. by rewrite E in Hs. }
  unfold cache_stage. destruct (toolCache (ex s)) as [c|]; [|simpl; ext]. specialize (Hst c eq_refl).
  destruct (negb _); [|destruct (_ || _); [|simpl; ext]].
  all: destruct (store_result w c t f i s) as [[h m] s1]; exact Hst.
Qed.

Lemma processToolResult_ext o f t i s : Ext s (snd (processToolResult cfg w o f t i s)).
Proof.
  unfold processToolResult. destruct (applyPerToolTruncation cfg o t) as [o1 b].
  pose proof (cache_stage_ext o1 f t i b s) as Hx.
  by destruct (cache_stage cfg w o1 f t i b s) as [[h n] s1].
Qed.

Lemma verifyHook_ext n e l o s : Ext s (snd (runVerifyOnEditHook cfg w n e l o s)).
Proof. unfold runVerifyOnEditHook. cbv zeta. repeat step_match; simpl; ext. Qed.

Lemma flush_ext s : Ext s (snd (flushPendingVerifyOnEdit cfg w s)).
Proof. unfold flushPendingVerifyOnEdit. repeat step_match; simpl; ext. Qed.

Lemma checkpoint_ext b s : Ext s (flushPendingVerifyOnEditAtCheckpoint cfg w b s).
Proof. unfold flushPendingVerifyOnEditAtCheckpoint. cbv zeta. repeat step_match; ext. Qed.

Lemma emitAssistant_ext s0 o resp s : Ext s0 s -> Ext s0 (emitAssistantEvents cfg o resp s).
Proof.
  intros Hs. unfold emitAssistantEvents, closeAssistantStream. cbv zeta. repeat step_match; ext.
Qed.
#[local] Hint Resolve emitAssistant_ext : ext.

Lemma finalize_ext s : Ext s (finalizeAssistantStream cfg s).
Proof. unfold finalizeAssistantStream, closeAssistantStream. cbv zeta. step_match; ext. Qed.

Lemma accept_implicit_ext resp t s : Ext s (snd (accept_implicit cfg w resp t s)).
Proof.
  unfold accept_implicit. cbv zeta.
  match goal with |- context [flushPendingVerifyOnEdit cfg w ?x] =>
    assert (Hx : Ext s x) by ext;
    pose proof (Ext_trans _ _ _ Hx (flush_ext x)) as Hy; clear Hx;
    destruct (flushPendingVerifyOnEdit cfg w x) as [note s1] end.
  simpl in *. ext.
Qed.

Lemma handleImplicit_ext resp t h s : Ext s (snd (handleImplicitFinish cfg w resp t h s)).
Proof.
  unfold handleImplicitFinish, finish_nudge. cbv zeta.
  repeat step_match; first [apply accept_implicit_ext | simpl; ext].
Qed.

Lemma handleImplicit_complete resp t h s :
  let o := handleImplicitFinish cfg w resp t h s in complete (fst (fst o)) (snd o).
Proof.
  unfold handleImplicitFinish, finish_nudge, accept_implicit. cbv zeta.
  repeat first [ progress cbn [fst snd] | apply complete_none | apply complete_unfinished
               | match goal with |- context [flushPendingVerifyOnEdit cfg w ?x] =>
                   destruct (flushPendingVerifyOnEdit cfg w x) end
               | by intros r [= <-] | step_match ].
Qed.

Lemma accept_finish_ends s0 a i f resp t g ans s :
  g = grp -> Ext s0 s -> Ends s0 actionBreak (accept_finish cfg w a i f resp t g ans s).
Proof.
  intros Hg Hs. unfold accept_finish. cbv zeta.
  match goal with |- context [runVerifyOnEditHook cfg w ?a ?b ?c ?d ?x] =>
    assert (Hx : Ext s0 x) by (apply Ext_push; [by right|done]);
    pose proof (Ext_trans _ _ _ Hx (verifyHook_ext a b c d x)) as Hy; clear Hx;
    destruct (runVerifyOnEditHook cfg w a b c d x) as [o s1] end.
  simpl in *. apply Ends_set; [|done]. destruct (_ && _); ext.
Qed.

Lemma handleFinish_ends a i f resp t g s :
  g = grp -> let o := handleFinishCall cfg w a i f resp t g s in Ends s (fst o) (snd o).
Proof.
  intros Hg. unfold handleFinishCall. cbv zeta. destruct (guard_error w s); [simpl; left; ext|].
  repeat match goal with |- context [if ?c then (actionBreak, _) else _] => destruct c; [simpl; left; ext|] end.
  simpl. apply accept_finish_ends; [done|ext].
Qed.

Lemma stopTool_ends n o t e resp s :
  let o := stopToolTermination cfg w n o t e resp s in Ends s (fst o) (snd o).
Proof.
  unfold stopToolTermination. cbv zeta. destruct e; [left; ext|]. destruct (negb _); [left; ext|].
  destruct (guard_error w s); cbn [fst snd]; [left; ext|].
  apply Ends_set; [ext|done].
Qed.

Lemma batching_ext i s : Ext s (snd (checklistBatchingSuffix i s)).
Proof. unfold checklistBatchingSuffix. cbv zeta. repeat step_match; simpl; ext. Qed.

Lemma preCompaction_ext l o s : Ext s (snd (preCompactionNudge cfg w l o s)).
Proof. unfold preCompactionNudge. cbv zeta. repeat step_match; simpl; ext. Qed.

Lemma display_ext n i s : Ext s (snd (resolveToolResultReadDisplay w n i s)).
Proof.
  unfold resolveToolResultReadDisplay. destruct (toolCache (ex s)) as [c|] eqn:Ec; [|simpl; ext].
  destruct (negb _); [simpl; ext|]. destruct (unmarshal_string_field _ _) as [h|]; [|simpl; ext].
  destruct (String.eqb h ""); [simpl; ext|]. cbv zeta.
  assert (Hg : cache_inv (w_sha256hex w) c ->
    cache_inv (w_sha256hex w) (fst (Get (w_now w (trace s)) (w_now w (trace s)) h c c))).
  { intros Hc. unfold Get. destruct (resolveLocked c h) as [[k e]|]; [|done].
    destruct (fresh _ e); [done|]. by apply (inv_get_slow (w_sha256hex w)). }
  destruct (Get _ _ h c c) as [c' found]. simpl in Hg.
  destruct found; simpl; (apply Ext_set_cache; [|ext]); unfold cinv; by rewrite Ec.
Qed.

(** ** Calls *)

(** The group of a state related to one whose group is known. *)
Lemma Ext_grp s s' : responseGroup (run s) = grp -> Ext s s' -> responseGroup (run s') = grp.
Proof. intros Hg Hs. by rewrite (ext_group _ _ Hs). Qed.
Ltac group := first [assumption | match goal with Hg : responseGroup (run ?s0) = grp |- _ =>
  apply (Ext_grp s0); [exact Hg|ext] end].

(** The state the goal relates the rest of a handler to. *)
Ltac with_base tac :=
  lazymatch goal with
  | |- Ext ?s0 _ => tac s0
  | |- Out ?s0 _ => tac s0
  end.

(** [thread x s lem]: run the handler call [x] on state [s]; [lem] relates [s]
    to the state [x] returns. *)
Ltac thread x s lem :=
  with_base ltac:(fun s0 =>
    let H0 := fresh in let Hn := fresh "Hext" in
    assert (H0 : Ext s0 s) by ext;
    pose proof (Ext_trans s0 s _ H0 lem) as Hn; clear H0;
    destruct x as [? ?]; cbn [fst snd] in *;
    repeat match goal with p : (_ * _)%type |- _ => destruct p end; cbn [fst snd] in *).

(** The next handler call whose state is known. *)
Ltac next :=
  match goal with
  | |- context [checkRepeatIdenticalTool w ?a ?i ?t ?r ?s] =>
      let Hg := fresh in assert (Hg : responseGroup (run s) = grp) by group;
      pose proof (checkRepeat_complete a i t r s); cbv zeta in *;
      thread (checkRepeatIdenticalTool w a i t r s) s (checkRepeat_ext a i t r s Hg)
  | |- context [checkFruitlessResult w ?a ?i ?o ?e ?s] =>
      pose proof (checkFruitless_complete a i o e s); cbv zeta in *;
      thread (checkFruitlessResult w a i o e s) s (checkFruitless_ext a i o e s)
  | |- context [checkSameToolRepetition w ?a ?i ?o ?r ?s] =>
      pose proof (checkSame_complete a i o r s); cbv zeta in *;
      thread (checkSameToolRepetition w a i o r s) s (checkSame_ext a i o r s)
  | |- context [checkParseErrors w ?a ?i ?o ?r ?s] =>
      pose proof (checkParse_complete a i o r s); cbv zeta in *;
      thread (checkParseErrors w a i o r s) s (checkParse_ext a i o r s)
  | |- context [processToolResult cfg w ?o ?f ?t ?i ?s] =>
      thread (processToolResult cfg w o f t i s) s (processToolResult_ext o f t i s)
  | |- context [runVerifyOnEditHook cfg w ?n ?e ?l ?o ?s] =>
      thread (runVerifyOnEditHook cfg w n e l o s) s (verifyHook_ext n e l o s)
  | |- context [preCompactionNudge cfg w ?l ?o ?s] =>
      thread (preCompactionNudge cfg w l o s) s (preCompaction_ext l o s)
  | |- context [checklistBatchingSuffix ?i ?s] =>
      thread (checklistBatchingSuffix i s) s (batching_ext i s)
  | |- context [resolveToolResultReadDisplay w ?n ?i ?s] =>
      thread (resolveToolResultReadDisplay w n i s) s (display_ext n i s)
  end.

(** The stop tools end a call. *)
Ltac stop_tool :=
  match goal with |- Out ?s0 (let '(_, _) := stopToolTermination cfg w ?n ?o ?t ?e ?r ?s in _) =>
    let H0 := fresh in
    assert (H0 : Ext s0 s) by ext;
    pose proof (Ends_trans s0 s _ _ H0 (stopTool_ends n o t e r s));
    destruct (stopToolTermination cfg w n o t e r s) as [? ?]; cbn [fst snd] in *; by apply Out_ends
  end.

Ltac leaf := apply Out_leaf; [solve [ext]|first [assumption|solve [ext]]].

Lemma finish_single_out a i k l resp t g r s :
  g = grp -> Out s (finish_single cfg w a i k l resp t g r s).
Proof.
  intros Hgrp. unfold finish_single. cbv zeta.
  repeat first [next | stop_tool | leaf | step_match; cbn [snd fst]].
Qed.

Lemma abandon_out n e s : Out s (abandon cfg w n e s).
Proof.
  unfold abandon. cbv zeta. destruct (isPauseError e).
  { apply Out_leaf; [apply checkpoint_ext|apply complete_unfinished]. }
  destruct (isToolTimeoutError e); leaf.
Qed.

(** The two calls of the environment that only leave a mark. *)
Lemma execute_ext n i s : Ext s (snd (execute cfg w n i s)).
Proof. simpl. ext. Qed.
Lemma OnToolCall_ext n i s : Ext s (snd (OnToolCall w n i s)).
Proof. simpl. ext. Qed.

Ltac next_call :=
  match goal with
  | |- context [execute cfg w ?n ?i ?s] => thread (execute cfg w n i s) s (execute_ext n i s)
  | |- context [OnToolCall w ?n ?i ?s] => thread (OnToolCall w n i s) s (OnToolCall_ext n i s)
  | _ => next
  end.

(** The tail of a call, from a related state. *)
Lemma finish_single_from s0 a i k l resp t r s :
  responseGroup (run s0) = grp ->
  Ext s0 s -> Out s0 (finish_single cfg w a i k l resp t (responseGroup (run s0)) r s).
Proof. intros Hg Hs. eapply Out_trans; [exact Hs|by apply finish_single_out]. Qed.

Lemma abandon_from s0 n e s : Ext s0 s -> Out s0 (abandon cfg w n e s).
Proof. intros Hs. eapply Out_trans; [exact Hs|apply abandon_out]. Qed.

Lemma process_tool_out a k l resp t s :
  responseGroup (run s) = grp -> Out s (process_tool cfg w a k l resp t s).
Proof.
  intros Hg. unfold process_tool. cbv zeta.
  repeat first [next_call | apply abandon_from; solve [ext] | apply finish_single_from; [exact Hg|solve [ext]]
    | leaf | step_match; cbn [snd fst]].
Qed.

Lemma batch_failed_out a k o resp t s :
  responseGroup (run s) = grp -> Out s (batch_failed w a k o resp t s).
Proof. intros Hg. unfold batch_failed. cbv zeta. leaf. Qed.

Lemma finish_sub_from s0 a i k f l resp t r s :
  responseGroup (run s0) = grp -> Ext s0 s -> Out s0 (finish_sub cfg w a i k f l resp t (responseGroup (run s0)) r s).
Proof.
  intros Hg Hs. unfold finish_sub. cbv zeta.
  repeat first [next | stop_tool | leaf | step_match; cbn [snd fst]].
Qed.

Lemma handleFinish_out a i f resp t s :
  responseGroup (run s) = grp ->
  Out s (let '(act, s) := handleFinishCall cfg w a i f resp t (responseGroup (run s)) s in (None, act, None, s)).
Proof.
  intros Hg. pose proof (handleFinish_ends a i f resp t (responseGroup (run s)) s Hg) as Hf.
  destruct (handleFinishCall _ _ _ _ _ _ _ _ _) as [act s1]. by apply Out_ends.
Qed.

Lemma process_sub_out k j l sub resp t s :
  responseGroup (run s) = grp -> Out s (process_sub cfg w k j l sub resp t s).
Proof.
  intros Hg. unfold process_sub. cbv zeta. destruct (String.eqb _ "batch"); [leaf|].
  destruct (String.eqb _ "finish"); [by apply handleFinish_out|].
  repeat first [next_call | apply abandon_from; solve [ext] | apply finish_sub_from; [exact Hg|solve [ext]]
    | leaf | step_match; cbn [snd fst]].
Qed.

(** A call that does not break leaves [finishResult] as it was. *)
Lemma Out_next s0 act err s : act <> actionBreak -> Out s0 (None, act, err, s) -> Ext s0 s.
Proof. intros Ha [[Hx|x r Hb _ _ _] _]; [exact Hx|by rewrite Hb in Ha]. Qed.

Lemma batch_loop_out k j l subs resp t s :
  responseGroup (run s) = grp -> Out s (batch_loop cfg w k j l subs resp t s).
Proof.
  revert j s; induction subs as [|sub rest IH]; intros j s Hg; cbn [batch_loop]; [leaf|].
  pose proof (process_sub_out k j (bool_decide (rest = []) && l) sub resp t s Hg) as Hx.
  destruct (process_sub _ _ _ _ _ _ _ _ _) as [[[res act] err] s1].
  destruct res, act, err; try exact Hx. apply Out_next in Hx; [|done].
  eapply Out_trans; [exact Hx|apply IH; by eapply Ext_grp].
Qed.

Lemma processSingle_out a k l resp t s :
  responseGroup (run s) = grp -> Out s (processSingleToolCall cfg w a k l resp t s).
Proof.
  intros Hg. unfold processSingleToolCall. destruct (String.eqb _ "batch").
  { unfold processBatchTool. destruct (decode_batch _) as [[|]|];
      [by apply batch_failed_out|by apply batch_loop_out|by apply batch_failed_out]. }
  destruct (String.eqb _ "finish"); [by apply handleFinish_out|by apply process_tool_out].
Qed.

Lemma calls_loop_out k calls resp t s :
  responseGroup (run s) = grp ->
  let '(res, err, s') := calls_loop cfg w k calls resp t s in Out s (res, actionBreak, err, s').
Proof.
  revert k s; induction calls as [|a rest IH]; intros k s Hg; cbn [calls_loop]; [leaf|].
  pose proof (processSingle_out a k (bool_decide (rest = [])) resp t s Hg) as Hx.
  destruct (processSingleToolCall _ _ _ _ _ _ _ _) as [[[res act] err] s1].
  assert (Hw : forall r, Out s (r, act, err, s1) -> Out s (r, actionBreak, err, s1)).
  { intros r [[He|x r' _ He Hr Hs] Hc]; (split; [|exact Hc]); [by left|by eapply Ends_finish]. }
  assert (Hrec : act <> actionBreak -> res = None -> let '(r, e, s') := calls_loop cfg w (k + 1) rest resp t s1 in
    Out s (r, actionBreak, e, s')).
  { intros Ha ->. apply Out_next in Hx; [|done]. specialize (IH (k + 1) s1 (Ext_grp _ _ Hg Hx)).
    destruct (calls_loop _ _ _ _ _ _ _) as [[r e] s']. by eapply Out_trans. }
  destruct res, act, err; cbv iota; first [exact (Hw _ Hx) | by apply Hrec].
Qed.

End handlers.

(** ** Responses and iterations

    Over an iteration the response group may move on by one: the relation
    between loop states. *)

Definition calls_of (t : history) : nat := count_events is_llm_call t.

Lemma calls_of_app t u : calls_of (t ++ u) = (calls_of t + calls_of u)%nat.
Proof. unfold calls_of, count_events. by rewrite List.filter_app, length_app. Qed.

Lemma no_calls t : LLMCall ∉ t -> calls_of t = 0%nat.
Proof.
  induction t as [|ev t IH]; [done|]. rewrite not_elem_of_cons. intros [Hne Hn].
  unfold calls_of, count_events in *. simpl. destruct ev; try by apply IH. done.
Qed.

(** [Step_ext k s s']: at most [k] model calls. *)
Record Step_ext (k : nat) (s s' : xstate) : Prop := {
  se_steps : exists l, allSteps (run s') = allSteps (run s) ++ l /\
    Forall (fun st => s_group st = 0 \/
      (s_group st = responseGroupCounter (ex s') /\
       responseGroupCounter (ex s') = responseGroupCounter (ex s) + 1)) l;
  se_trace : exists t, trace s' = trace s ++ t /\ (calls_of t <= k)%nat;
  se_num : stepNum (run s') = stepNum (run s);
  se_max : effectiveMaxSteps (run s') = effectiveMaxSteps (run s);
  se_unlimited : unlimitedSteps (run s') = unlimitedSteps (run s);
  se_counter : responseGroupCounter (ex s) <= responseGroupCounter (ex s') <= responseGroupCounter (ex s) + 1;
  se_cache : cinv s -> cinv s';
}.

(** A handler that tags no step. *)
Lemma Ext_step s s' : Ext 0 s s' -> Step_ext 0 s s'.
Proof.
  intros [(l & Hl & Hg) (t & Ht & Hc0) Hn Hm Hu _ Hc _ Hca]. constructor; try done; [| |lia].
  - exists l. split; [done|]. eapply Forall_impl; [exact Hg|]. by intros st [?|?]; left.
  - exists t. split; [done|]. by rewrite no_calls.
Qed.

Lemma Step_ext_pre k a b c : Ext 0 a b -> Step_ext k b c -> Step_ext k a c.
Proof.
  intros [(l1 & H1 & G1) (t1 & T1 & N1) ? ? ? ? Hc ? ?] [(l2 & H2 & G2) (t2 & T2 & N2) ? ? ? Hc2 ?].
  constructor; try congruence; try tauto; try lia.
  - exists (l1 ++ l2). split; [by rewrite H2, H1, app_assoc|]. apply Forall_app. split.
    + eapply Forall_impl; [exact G1|]. by intros st [?|?]; left.
    + eapply Forall_impl; [exact G2|]. intros st. by rewrite Hc.
  - exists (t1 ++ t2). split; [by rewrite T2, T1, app_assoc|]. rewrite calls_of_app, (no_calls t1) by done. lia.
Qed.

Lemma Step_ext_post k a b c : Step_ext k a b -> Ext 0 b c -> Step_ext k a c.
Proof.
  intros [(l1 & H1 & G1) (t1 & T1 & N1) ? ? ? Hc1 ?] [(l2 & H2 & G2) (t2 & T2 & N2) ? ? ? ? Hc ? ?].
  constructor; try congruence; try tauto; try lia.
  - exists (l1 ++ l2). split; [by rewrite H2, H1, app_assoc|]. apply Forall_app. split.
    + eapply Forall_impl; [exact G1|]. intros st. by rewrite Hc.
    + eapply Forall_impl; [exact G2|]. by intros st [?|?]; left.
  - exists (t1 ++ t2). split; [by rewrite T2, T1, app_assoc|]. rewrite calls_of_app, (no_calls t2) by done. lia.
Qed.

Lemma Step_ext_trans0 k a b c : Step_ext k a b -> responseGroupCounter (ex b) = responseGroupCounter (ex a) ->
  Step_ext 0 b c -> Step_ext k a c.
Proof.
  intros [(l1 & H1 & G1) (t1 & T1 & N1) ? ? ? Hc1 ?] Hc [(l2 & H2 & G2) (t2 & T2 & N2) ? ? ? Hc2 ?].
  constructor; try congruence; try tauto; try lia.
  - exists (l1 ++ l2). split; [by rewrite H2, H1, app_assoc|]. apply Forall_app. split.
    + eapply Forall_impl; [exact G1|]. intros st [?|[? ?]]; [by left|lia].
    + eapply Forall_impl; [exact G2|]. intros st. by rewrite Hc.
  - exists (t1 ++ t2). split; [by rewrite T2, T1, app_assoc|]. rewrite calls_of_app. lia.
Qed.

Lemma Step_ext_finish k s s' v : Step_ext k s s' -> Step_ext k s (set_finish v s').
Proof. by intros [Hs Ht Hn Hm Hu Hc Hca]; constructor. Qed.

(** The state the calls of a response start from. *)
Definition calls_start (resp : ChatResponse) (s : xstate) : xstate :=
  set_triggered false (set_finish None
    (if 1 <? Z.of_nat (length (m_tool_calls (r_message resp)))
     then set_group (responseGroupCounter (ex s) + 1) (set_groupCounter (responseGroupCounter (ex s) + 1) s)
     else set_group 0 s)).

(** What the calls do from there is a step of the loop. *)
Lemma calls_start_ext resp s y :
  Ext (responseGroup (run (calls_start resp s))) (calls_start resp s) y -> Step_ext 0 s y.
Proof.
  set (s2 := calls_start resp s).
  assert (Hg : (responseGroup (run s2) = 0 /\ responseGroupCounter (ex s2) = responseGroupCounter (ex s)) \/
               (responseGroup (run s2) = responseGroupCounter (ex s2) /\
                responseGroupCounter (ex s2) = responseGroupCounter (ex s) + 1)).
  { unfold s2, calls_start. destruct (1 <? _); simpl; [by right|by left]. }
  assert (Hs2 : allSteps (run s2) = allSteps (run s) /\ trace s2 = trace s /\ stepNum (run s2) = stepNum (run s) /\
    effectiveMaxSteps (run s2) = effectiveMaxSteps (run s) /\ unlimitedSteps (run s2) = unlimitedSteps (run s) /\
    toolCache (ex s2) = toolCache (ex s)).
  { unfold s2, calls_start. by destruct (1 <? _). }
  clearbody s2. destruct Hs2 as (Ha & Htr & Hnum & Hmax & Hunl & Hca).
  intros [(l & Hl & Hlg) (tr & Ht & Hn) ? ? ? ? Hctr _ Hcache]. constructor; try congruence.
  - exists l. split; [congruence|]. eapply Forall_impl; [exact Hlg|]. unfold ok_group.
    intros st [?|Hst]; [by left|]. destruct Hg as [[Hg _]|[Hg Hc]]; [left; congruence|].
    right. rewrite Hctr. split; congruence.
  - exists tr. split; [congruence|]. by rewrite no_calls.
  - rewrite Hctr. lia.
  - unfold cinv in *. rewrite <- Hca. done.
Qed.

Lemma processToolCalls_ext resp t s :
  let '(res, _, s') := processToolCalls cfg w resp t s in Step_ext 0 s s' /\ complete res s'.
Proof.
  unfold processToolCalls.
  set (s2 := set_triggered false (set_finish None (if 1 <? _ then _ else _))).
  change s2 with (calls_start resp s). clear s2. cbv zeta.
  pose proof (calls_loop_out (responseGroup (run (calls_start resp s))) 0 (m_tool_calls (r_message resp))
    resp t (calls_start resp s) eq_refl) as Hx.
  destruct (calls_loop _ _ _ _ _ _ _) as [[res err] s3]. destruct Hx as [Hends Hc].
  assert (Hs3 : Step_ext 0 s s3).
  { destruct Hends as [Hx|x r _ Hx _ ->]; [|apply Step_ext_finish]; by apply (calls_start_ext resp). }
  destruct err, res as [r|]; try done. destruct (finishResult (run s3)) as [r|] eqn:Ef; [|by split].
  split.
  - eapply Step_ext_post; [exact Hs3|apply Ext_step_complete, Ext_refl].
  - intros r' [= <-]. destruct Hends as [Hx|x r2 _ _ Hr Hs].
    + by rewrite (ext_finish _ _ _ Hx) in Ef.
    + rewrite Hs in Ef |- *. injection Ef as <-. exact Hr.
Qed.

(** The state an iteration ends in. *)
Definition iter_state (o : iter_out) : xstate :=
  match o with Exit _ _ s | Break s | Next s => s end.

(** An iteration: a step of the loop, with a complete result if it leaves. *)
Definition Iter (k : nat) (s : xstate) (o : iter_out) : Prop :=
  Step_ext k s (iter_state o) /\ match o with Exit res _ s' => complete res s' | _ => True end.

Lemma Iter_pre k a b o : Ext 0 a b -> Iter k b o -> Iter k a o.
Proof. intros Hab [Ho Hc]. split; [by eapply Step_ext_pre|done]. Qed.

(** Leaving with an error alone, going on. *)
Lemma Iter_error k s s' e : Step_ext k s s' -> Iter k s (Exit None e s').
Proof. intros Hs. split; [exact Hs|apply complete_none]. Qed.
Lemma Iter_next k s s' : Step_ext k s s' -> Iter k s (Next s').
Proof. by split. Qed.

Lemma after_tools_ext s :
  let o := after_tools cfg w s in
  Ext 0 s (iter_state o) /\ match o with Exit res _ s' => complete res s' | _ => True end.
Proof.
  unfold after_tools. cbv zeta.
  assert (Hs : Ext 0 s (step_complete s)) by (apply Ext_step_complete, Ext_refl).
  destruct (circuitBreakerTriggered _); [by split; [apply Ext_set_triggered|]|].
  pose proof (handleCompaction_ext 0 s _ (handleStale_ext 0 s _ (handleWrapUp_ext 0 s _ Hs))) as Hx.
  destruct (handleCompactionAfterStep w _) as [[act [e|]] s1]; cbn [snd] in Hx;
    (split; [done|]); [apply complete_none|done].
Qed.

Lemma run_tools_ext resp t s : Iter 0 s (run_tools cfg w resp t s).
Proof.
  unfold run_tools. cbv zeta. pose proof (processToolCalls_ext resp t (set_truncation 0 s)) as H1.
  destruct (processToolCalls _ _ _ _ _) as [[res err] s1]. destruct H1 as [H1 Hc].
  assert (H2 : Step_ext 0 s s1) by (eapply Step_ext_pre; [apply Ext_set_truncation, Ext_refl|exact H1]).
  destruct err as [e|], res as [r|]; try (destruct (isPauseError e); [by split|by apply Iter_error]); [by split|].
  destruct (after_tools_ext s1) as [Ha Hac]. split; [by eapply Step_ext_post|done].
Qed.

Lemma handle_response_ext resp s : Iter 0 s (handle_response cfg w resp s).
Proof.
  unfold handle_response. cbv zeta.
  set (s1 := if negb _ || negb _ then _ else s).
  assert (H1 : Ext 0 s s1) by (unfold s1; destruct (_ || _); [by apply Ext_emit, Ext_refl|apply Ext_refl]).
  clearbody s1. set (thought := m_content (r_message resp)). apply (Iter_pre _ _ s1); [exact H1|]. clear H1.
  assert (Hend : forall (o : option ExecutorResult * loopAction * xstate),
    Ext 0 s1 (snd o) -> complete (fst (fst o)) (snd o) ->
    Iter 0 s1 (match o with
               | (Some r, _, y) => Exit (Some r) None y
               | (None, actionContinue, y) => Next y
               | (None, _, y) => run_tools cfg w resp thought y
               end)).
  { intros [[res act] y] Hy Hc. cbn [fst snd] in *. destruct res; [split; [by apply Ext_step|done]|].
    destruct act; try (by apply Iter_next, Ext_step); (eapply Iter_pre; [exact Hy|apply run_tools_ext]). }
  destruct (m_tool_calls (r_message resp)) as [|call calls].
  - apply Hend; [apply handleImplicit_ext|apply handleImplicit_complete].
  - destruct (String.eqb _ "max_tokens"); [|apply run_tools_ext].
    apply Hend; [apply handleTruncation_ext|apply handleTruncation_complete].
Qed.

Lemma delta_sink_ext s0 l s : Ext 0 s0 s -> Ext 0 s0 (fold_left delta_sink l s).
Proof.
  intros Hs. apply (fold_left_inv (Ext 0 s0)); [done|]. intros a d _ Ha. unfold delta_sink.
  destruct (String.eqb d ""); [done|]. by apply Ext_emit, Ext_set_stream.
Qed.

Lemma near_limit_ext s0 resp s : Ext 0 s0 s -> Ext 0 s0 (near_server_limit w resp s).
Proof.
  intros Hs. unfold near_server_limit. cbv zeta. repeat step_match; try done.
  - by apply Ext_diag, Ext_set_latched.
  - by apply Ext_set_latched.
Qed.

Lemma Step_ext_llm s : Step_ext 1 s (emit LLMCall s).
Proof.
  constructor; try done; [| |simpl; lia].
  - exists []. rewrite app_nil_r. done.
  - exists [LLMCall]. done.
Qed.

Lemma callLLM_ext s :
  Step_ext 1 s (snd (callLLMWithReactiveCompaction cfg w s)) /\
  responseGroupCounter (ex (snd (callLLMWithReactiveCompaction cfg w s))) = responseGroupCounter (ex s).
Proof.
  unfold callLLMWithReactiveCompaction. cbv zeta.
  set (s1 := set_stream _ s). assert (H1 : Ext 0 s s1) by apply Ext_set_stream, Ext_refl. clearbody s1.
  set (out := w_LLM w (trace s1)). set (s2 := emit LLMCall s1).
  set (s3 := if streaming cfg && _ then _ else s2).
  assert (H3 : Ext 0 s2 s3) by (unfold s3; destruct (_ && _); [apply delta_sink_ext|]; apply Ext_refl).
  assert (Hfin : forall y, Ext 0 s3 y ->
    Step_ext 1 s y /\ responseGroupCounter (ex y) = responseGroupCounter (ex s)).
  { intros y Hy. split.
    - eapply Step_ext_pre; [exact H1|]. eapply Step_ext_post; [apply Step_ext_llm|].
      eapply Ext_trans; [exact H3|exact Hy].
    - rewrite (ext_counter _ _ _ Hy), (ext_counter _ _ _ H3). apply (ext_counter _ _ _ H1). }
  clearbody s3. destruct (lo_result out) as [[resp|]|err]; cbn [snd].
  - apply Hfin. assert (Ht : forall b x, Ext 0 s3 x -> Ext 0 s3 (if b : bool then emit CwConsumeInterjection x else x)).
    { intros [] x Hx; [by apply Ext_emit|done]. }
    apply Ht, near_limit_ext. destruct (assistantStreamed _); [apply Ext_set_stream|]; apply Ext_refl.
  - apply Hfin, Ext_refl.
  - destruct (_ && _); [apply Hfin, Ext_diag, Ext_refl|].
    destruct (_ && _); [|apply Hfin, Ext_refl].
    apply Hfin, Ext_diag, compact_ext, Ext_set_reactive, Ext_refl.
Qed.

Lemma live_message_ext s0 s : Ext 0 s0 s -> Ext 0 s0 (live_message w s).
Proof.
  intros Hs. unfold live_message. destruct (w_userMessageSource w); [|done]. cbv zeta.
  destruct (HasVisibleContent _); [|done]. apply Ext_diag, Ext_add; [by left|done].
Qed.

Lemma iteration_body_ext s : Iter 1 s (iteration_body cfg w s).
Proof.
  unfold iteration_body. cbv zeta. set (s1 := emit _ s).
  assert (H1 : Ext 0 s s1) by (by apply Ext_emit, Ext_refl). clearbody s1.
  assert (H0 : forall y, Ext 0 s y -> Step_ext 1 s y).
  { intros y Hy. destruct (Ext_step _ _ Hy) as [? (t & ? & ?) ? ? ? ? ?]. constructor; try done.
    exists t. split; [done|lia]. }
  destruct (w_ctxErr w _); [by apply Iter_error, H0|].
  destruct (match w_pauseChecker w with Some _ => _ | None => _ end).
  { split; [by apply H0|apply complete_unfinished]. }
  pose proof (live_message_ext s s1 H1) as H2. set (s2 := live_message w s1) in *. clearbody s2.
  apply (Iter_pre _ _ s2); [exact H2|]. clear H0 H1 H2. destruct (callLLM_ext s2) as [Hc Hctr].
  destruct (callLLMWithReactiveCompaction cfg w s2) as [[[resp|]|err] s3]; cbn [snd] in Hc, Hctr;
    [|by apply Iter_next|by apply Iter_error].
  destruct (handle_response_ext resp s3) as [Hr Hrc]. split; [|done]. by eapply Step_ext_trans0.
Qed.

(** ** The boundary *)

Lemma sync_ext s : Ext 0 s (sync_trajectory w s).
Proof. unfold sync_trajectory. destruct (w_TrajectoryStore w); [by apply Ext_emit, Ext_refl|apply Ext_refl]. Qed.

(** What an iteration does to the trajectory, at the boundary or not. *)
Record Grow (s s' : xstate) : Prop := {
  gw_steps : exists l, allSteps (run s') = allSteps (run s) ++ l /\
    Forall (fun st => s_group st = 0 \/
      (s_group st = responseGroupCounter (ex s') /\
       responseGroupCounter (ex s') = responseGroupCounter (ex s) + 1)) l;
  gw_counter : responseGroupCounter (ex s) <= responseGroupCounter (ex s') <= responseGroupCounter (ex s) + 1;
  gw_calls : (calls_of (trace s') <= calls_of (trace s) + 1)%nat;
  gw_num : stepNum (run s') = stepNum (run s);
  gw_cache : cinv s -> cinv s';
}.

Lemma Step_Grow k s s' : (k <= 1)%nat -> Step_ext k s s' -> Grow s s'.
Proof.
  intros Hk [Hs (t & Ht & Hc) ? ? ? ? ?]. constructor; try done. rewrite Ht, calls_of_app. lia.
Qed.

Lemma Grow_pre a b c :
  (exists l, allSteps (run b) = allSteps (run a) ++ l /\ Forall (fun st => s_group st = 0) l) ->
  responseGroupCounter (ex b) = responseGroupCounter (ex a) -> calls_of (trace b) = calls_of (trace a) ->
  stepNum (run b) = stepNum (run a) -> (cinv a -> cinv b) -> Grow b c -> Grow a c.
Proof.
  intros (l1 & H1 & G1) Hc Hcalls Hn Hca [(l2 & H2 & G2) ? ? ? ?].
  constructor; try (by rewrite <- ?Hc, <- ?Hcalls, <- ?Hn); [|tauto].
  exists (l1 ++ l2). split; [by rewrite H2, H1, app_assoc|]. apply Forall_app. split.
  - eapply Forall_impl; [exact G1|]. by left.
  - by rewrite <- Hc.
Qed.

Lemma boundary_grow s :
  let s' := snd (handleStepLimitBoundary cfg w s) in
  (exists l, allSteps (run s') = allSteps (run s) ++ l /\ Forall (fun st => s_group st = 0) l) /\
  responseGroupCounter (ex s') = responseGroupCounter (ex s) /\ calls_of (trace s') = calls_of (trace s) /\
  stepNum (run s') = stepNum (run s) /\ (cinv s -> cinv s').
Proof.
  unfold handleStepLimitBoundary, OnStepLimit. cbv zeta.
  assert (Hid : forall s' : xstate, allSteps (run s') = allSteps (run s) ->
    exists l, allSteps (run s') = allSteps (run s) ++ l /\ Forall (fun st => s_group st = 0) l)
    by (intros s' ->; exists []; by rewrite app_nil_r).
  assert (H1 : forall st, s_group st = 0 ->
    exists l, allSteps (run s) ++ [st] = allSteps (run s) ++ l /\ Forall (fun st => s_group st = 0) l)
    by (intros st Hst; exists [st]; split; [done|by constructor]).
  destruct (_ || _); [by split; [apply Hid|]|].
  destruct (w_OnStepLimit w _ _ _ _) as [[]|]; cbn [snd];
    (split; [first [by apply Hid|by apply H1]|]); (split; [done|]);
    (split; [unfold calls_of, count_events; simpl; rewrite ?List.filter_app, ?length_app; simpl; lia|]); (split; [done|]); done.
Qed.

Lemma sync_step s :
  let s' := sync_trajectory w s in
  run s' = run s /\ ex s' = ex s /\ calls_of (trace s') = calls_of (trace s).
Proof.
  unfold sync_trajectory. destruct (w_TrajectoryStore w); [|done]. split; [done|]. split; [done|].
  unfold calls_of, count_events. simpl. rewrite List.filter_app, length_app. simpl. lia.
Qed.

Lemma iteration_grow s :
  let o := iteration cfg w s in
  Grow s (iter_state o) /\ match o with Exit res _ s' => complete res s' | _ => True end.
Proof.
  unfold iteration. destruct (sync_step s) as (Hr & He & Hc). set (s0 := sync_trajectory w s) in *.
  assert (Hsync : forall y, Grow s0 y -> Grow s y).
  { intros y Hy. eapply (Grow_pre s s0); rewrite ?Hr, ?He; try done.
    - exists []. by rewrite app_nil_r.
    - unfold cinv. by rewrite He. }
  destruct (boundary_grow s0) as (Ha & Hb & Hd & Hn & Hca).
  assert (Hres : match handleStepLimitBoundary cfg w s0 with
                 | (actionReturn, s1) => complete (finishResult (run s1)) s1 | _ => True end).
  { unfold handleStepLimitBoundary. destruct (_ || _); [done|]. simpl.
    destruct (w_OnStepLimit w _ _ _ _) as [[]|]; try done. by intros r [= <-]. }
  destruct (handleStepLimitBoundary cfg w s0) as [act s1]. cbn [snd] in *.
  assert (Hfin : forall y, Grow s1 y -> Grow s y) by (intros y Hy; by apply Hsync, (Grow_pre s0 s1 y)).
  assert (Hrefl : Grow s1 s1) by (eapply (Step_Grow 0); [lia|]; apply Ext_step, Ext_refl).
  assert (Hbody : Grow s1 (iter_state (iteration_body cfg w s1)) /\
    match iteration_body cfg w s1 with Exit res _ s' => complete res s' | _ => True end).
  { destruct (iteration_body_ext s1) as [Hs Hi]. split; [eapply (Step_Grow 1); [lia|exact Hs]|exact Hi]. }
  destruct act; cbn [iter_state]; try (by split; [apply Hfin|]);
    destruct Hbody as [Hg Hi]; (split; [by apply Hfin|exact Hi]).
Qed.

(** ** The limits *)

(** Room for one more step. *)
Definition room (s : xstate) : Prop := unlimitedSteps (run s) = true \/ stepNum (run s) <= effectiveMaxSteps (run s).

(** At the boundary the run ends with its limits as they were, or has room. *)
Lemma boundary_limits s :
  stepNum (run s) <= effectiveMaxSteps (run s) + 1 \/ unlimitedSteps (run s) = true ->
  let '(act, s') := handleStepLimitBoundary cfg w s in
  (unlimitedSteps (run s) = true -> unlimitedSteps (run s') = true) /\
  match act with
  | actionReturn | actionBreak =>
      effectiveMaxSteps (run s') = effectiveMaxSteps (run s) /\ unlimitedSteps (run s') = unlimitedSteps (run s)
  | _ => room s'
  end.
Proof.
  intros Hc. unfold handleStepLimitBoundary.
  destruct (unlimitedSteps (run s)) eqn:Eu; simpl; [by split; [|left]|].
  destruct (Z.leb_spec (stepNum (run s)) (effectiveMaxSteps (run s))); [by split; [|right]|].
  destruct Hc as [Hc|]; [|done].
  destruct (w_OnStepLimit w _ _ _ _) as [[]|]; simpl; (split; [done|]); try done; unfold room; simpl;
    [right; lia|right; destruct (Z.ltb_spec (maxSteps cfg) 1); lia|by left].
Qed.

Lemma sync_limits s :
  unlimitedSteps (run (sync_trajectory w s)) = unlimitedSteps (run s) /\
  effectiveMaxSteps (run (sync_trajectory w s)) = effectiveMaxSteps (run s) /\
  stepNum (run (sync_trajectory w s)) = stepNum (run s).
Proof. destruct (sync_step s) as (-> & _). done. Qed.

(** After an iteration: either no call was made, the limits are as before and
    the loop is left, or the step that was made had room. *)
Lemma iteration_limits s :
  stepNum (run s) <= effectiveMaxSteps (run s) + 1 \/ unlimitedSteps (run s) = true ->
  let s' := iter_state (iteration cfg w s) in
  (unlimitedSteps (run s) = true -> unlimitedSteps (run s') = true) /\
  (room s' \/
   (calls_of (trace s') = calls_of (trace s) /\ effectiveMaxSteps (run s') = effectiveMaxSteps (run s) /\
    match iteration cfg w s with Next _ => False | _ => True end)).
Proof.
  intros Hc. unfold iteration. destruct (sync_limits s) as (Hu & He & Hn).
  pose proof (boundary_limits (sync_trajectory w s)) as Hb. rewrite Hu, He, Hn in Hb. specialize (Hb Hc).
  destruct (boundary_grow (sync_trajectory w s)) as (_ & _ & Hcalls & _ & _).
  destruct (sync_step s) as (_ & _ & Hsc). rewrite Hsc in Hcalls.
  destruct (handleStepLimitBoundary cfg w (sync_trajectory w s)) as [act s1]. cbn [snd] in Hcalls.
  destruct Hb as [Hu1 Hb].
  destruct (iteration_body_ext s1) as [[_ _ Hn2 He2 Hu2 _ _] _].
  assert (Hroom : room s1 -> room (iter_state (iteration_body cfg w s1)))
    by (unfold room; by rewrite Hn2, He2, Hu2).
  destruct act; cbn [iter_state]; rewrite ?Hu2; (split; [exact Hu1|]);
    first [left; by apply Hroom | right; destruct Hb; split; [exact Hcalls|done]].
Qed.

End facts.
