(* ===== verification/RunFacts.v ===== *)
(** * The guarantees of [Run]

    The relations of [ExecutorFacts] carried through the loop of
    [src/agent/executor.go]: the trajectory a run leaves extends the one it
    resumed, its response groups are new and consecutive, its result holds all
    of it, the tool cache stays consistent, the step budget bounds the model
    calls, and a run whose limits nobody lifts ends. *)

From Stdlib Require Import ZArith QArith Lia Sorted.
From stdpp Require Import base gmap strings list.
From S2P Require Import Prelude GoStr GoFloat AgentTypes Nudges Json ToolCache Watchdog ExecState.
From S2P Require Import Breaker ToolResult Finish Executor ExecutorFacts.
Open Scope sp4rk_scope.
Open Scope Z_scope.

(** The groups of the steps that belong to one. *)
Definition groups (l : list Step) : list Z := List.filter (fun g => negb (g =? 0)) (map s_group l).

Lemma groups_app l m : groups (l ++ m) = groups l ++ groups m.
Proof. unfold groups. by rewrite map_app, List.filter_app. Qed.

(** Steps of one response after those of earlier ones. *)
Lemma groups_of_response c c' l :
  c <= c' <= c + 1 -> Forall (fun st => s_group st = 0 \/ (s_group st = c' /\ c' = c + 1)) l ->
  StronglySorted Z.le (groups l) /\ Forall (fun g => c < g <= c') (groups l).
Proof.
  intros Hc Hl. induction Hl as [|st l Hst _ [IHs IHf]]; [split; constructor|].
  unfold groups in *. cbn [map List.filter]. destruct (Z.eqb_spec (s_group st) 0) as [|Hne]; [done|].
  destruct Hst as [?|[He Hcc]]; [done|]. cbn [negb]. split; constructor; try done; [|lia].
  rewrite Forall_forall in *. intros g Hg. specialize (IHf g Hg). lia.
Qed.

Lemma sorted_app (l m : list Z) (c : Z) :
  StronglySorted Z.le l -> StronglySorted Z.le m -> Forall (fun g => g <= c) l -> Forall (fun g => c < g) m ->
  StronglySorted Z.le (l ++ m).
Proof.
  intros Hl Hm Hlc Hmc. induction Hl as [|a l Hl IH Ha]; [done|]. apply Forall_cons in Hlc as [Hac Hlc].
  cbn. constructor; [by apply IH|]. apply Forall_app. split; [done|].
  eapply Forall_impl; [exact Hmc|]. simpl. intros. lia.
Qed.

Lemma seed_groups_ge steps c :
  c <= seed_groups steps c /\ Forall (fun st => s_group st <= seed_groups steps c) steps.
Proof.
  unfold seed_groups. revert c; induction steps as [|st l IH]; intros c; simpl; [split; [lia|constructor]|].
  destruct (Z.ltb_spec c (s_group st)).
  - destruct (IH (s_group st)). split; [lia|]. by constructor.
  - destruct (IH c). split; [done|]. constructor; [lia|done].
Qed.

Section run.
Context `{Float64} (cfg : Config) (w : World).

(** Never lifting a limit: what a human who allows nothing beyond it answers. *)
Definition granting (a : res StepLimitResponse) : bool :=
  match a with
  | Ok (StepLimitAllowOnce | StepLimitAllowMore | StepLimitAllowAlways) => true
  | _ => false
  end.

Definition never_grants : Prop := forall h step limit reason, granting (w_OnStepLimit w h step limit reason) = false.

Section loop.
Hypothesis sha_length : forall s, String.length (w_sha256hex w s) = fullHashLen.

(** What the loop does from [s] to its last state [s']. *)
Record Run_ext (s s' : xstate) : Prop := {
  rx_steps : exists l, allSteps (run s') = allSteps (run s) ++ l /\ StronglySorted Z.le (groups l) /\
    Forall (fun g => responseGroupCounter (ex s) < g <= responseGroupCounter (ex s')) (groups l);
  rx_counter : responseGroupCounter (ex s) <= responseGroupCounter (ex s');
  rx_cache : cinv w s -> cinv w s';
}.

Lemma Grow_run s s' : Grow w s s' -> Run_ext s s'.
Proof.
  intros [(l & Hl & Hg) Hc _ _ Hca]. constructor; [|lia|done]. exists l. split; [done|].
  by apply groups_of_response.
Qed.

Lemma Run_ext_refl s : Run_ext s s.
Proof. constructor; [|lia|done]. exists []. rewrite app_nil_r. split; [done|]. split; constructor. Qed.

Lemma Run_ext_trans a b c : Run_ext a b -> Run_ext b c -> Run_ext a c.
Proof.
  intros [(l1 & H1 & S1 & G1) C1 K1] [(l2 & H2 & S2 & G2) C2 K2].
  constructor; [|lia|tauto]. exists (l1 ++ l2). split; [by rewrite H2, H1, app_assoc|].
  rewrite groups_app. split.
  - apply (sorted_app _ _ (responseGroupCounter (ex b))); try done; eapply Forall_impl;
      [exact G1| |exact G2|]; simpl; intros; lia.
  - apply Forall_app. split; eapply Forall_impl; [exact G1| |exact G2|]; simpl; intros; lia.
Qed.

(** The step counter is no part of it. *)
Lemma Run_ext_num n a b : Run_ext (set_stepNum n a) b -> Run_ext a b.
Proof. by intros [Hs Hc Hca]; constructor. Qed.

Lemma run_loop_ext fuel s res err s' :
  run_loop cfg w fuel s = Some (res, err, s') -> Run_ext s s' /\ complete res s'.
Proof.
  revert s; induction fuel as [|fuel IH]; intros s; cbn [run_loop].
  - destruct (negb _); [|done]. intros [= <- <- <-]. split; [apply Run_ext_refl|apply complete_unfinished].
  - destruct (negb _).
    { intros [= <- <- <-]. split; [apply Run_ext_refl|apply complete_unfinished]. }
    destruct (iteration_grow cfg w sha_length s) as [Hg Hc]. apply Grow_run in Hg.
    destruct (iteration cfg w s) as [r e y|y|y]; cbn [iter_state] in Hg.
    + by intros [= <- <- <-].
    + intros [= <- <- <-]. split; [done|apply complete_unfinished].
    + intros Hr. destruct (IH _ Hr) as [Hx Hcomp]. split; [|done].
      eapply Run_ext_trans; [exact Hg|by eapply Run_ext_num].
Qed.

(** ** The budget *)

Lemma run_loop_budget b fuel s res err s' :
  run_loop cfg w fuel s = Some (res, err, s') ->
  b < stepNum (run s) ->
  Z.of_nat (calls_of (trace s)) <= stepNum (run s) - 1 - b ->
  calls_of (trace s) = 0%nat \/ unlimitedSteps (run s) = true \/ stepNum (run s) <= effectiveMaxSteps (run s) + 1 ->
  unlimitedSteps (run s') = false ->
  (calls_of (trace s') <= Z.to_nat (effectiveMaxSteps (run s') - b))%nat.
Proof.
  revert s; induction fuel as [|fuel IH]; intros s; cbn [run_loop].
  - destruct (negb _) eqn:En; [|done]. intros [= <- <- <-] Hb Hc [Hz|[Hu|Hn]] Hf; [lia|congruence|lia].
  - destruct (negb _) eqn:En.
    { intros [= <- <- <-] Hb Hc [Hz|[Hu|Hn]] Hf; [lia|congruence|lia]. }
    apply negb_false_iff, orb_true_iff in En.
    assert (Hcond : stepNum (run s) <= effectiveMaxSteps (run s) + 1 \/ unlimitedSteps (run s) = true)
      by (destruct En as [|En]; [by right|left; lia]).
    destruct (iteration_limits cfg w sha_length s Hcond) as [Hmono Hlim].
    destruct (iteration_grow cfg w sha_length s) as [[_ _ Hcalls Hnum _] _].
    assert (Hdone : forall y, y = iter_state (iteration cfg w s) -> b < stepNum (run s) ->
      Z.of_nat (calls_of (trace s)) <= stepNum (run s) - 1 - b -> unlimitedSteps (run y) = false ->
      (calls_of (trace y) <= Z.to_nat (effectiveMaxSteps (run y) - b))%nat).
    { intros y -> Hb Hc Hf. destruct Hcond as [Hcond|Hu]; [|rewrite Hmono in Hf; done].
      destruct Hlim as [[Hu|Hr]|(Hcc & He & _)]; [congruence| |]; [rewrite Hnum in Hr|rewrite Hcc, He]; lia. }
    destruct (iteration cfg w s) as [r e y|y|y]; cbn [iter_state] in *.
    + intros [= <- <- <-] Hb Hc _ Hf. by apply Hdone.
    + intros [= <- <- <-] Hb Hc _ Hf. by apply Hdone.
    + intros Hr Hb Hc _ Hf. apply (IH _ Hr); cbn [run set_stepNum on_run stepNum trace unlimitedSteps effectiveMaxSteps];
        try lia; [|done].
      right. destruct Hlim as [[Hu|Hle]|(_ & _ & [])]; [by left|right; lia].
Qed.

(** ** Ending *)

Lemma iteration_no_grant s :
  never_grants ->
  unlimitedSteps (run s) = false -> stepNum (run s) <= effectiveMaxSteps (run s) + 1 ->
  let s' := iter_state (iteration cfg w s) in
  effectiveMaxSteps (run s') = effectiveMaxSteps (run s) /\ unlimitedSteps (run s') = false.
Proof.
  intros Hng Hu Hn. unfold iteration. destruct (sync_limits w s) as (Hu' & He & Hn').
  assert (Hb : let '(_, s1) := handleStepLimitBoundary cfg w (sync_trajectory w s) in
    effectiveMaxSteps (run s1) = effectiveMaxSteps (run s) /\ unlimitedSteps (run s1) = false).
  { unfold handleStepLimitBoundary. rewrite Hu', Hn', He, Hu. cbn [orb].
    destruct (_ <=? _); [by rewrite He, Hu'|]. unfold OnStepLimit. cbv zeta.
    match goal with |- context [w_OnStepLimit w ?a ?b ?c ?d] =>
      pose proof (Hng a b c d) as Hg; destruct (w_OnStepLimit w a b c d) as [[]|] end;
      try discriminate Hg; simpl; by rewrite He, Hu'. }
  destruct (handleStepLimitBoundary cfg w (sync_trajectory w s)) as [act s1]. destruct Hb as [Hb1 Hb2].
  destruct (iteration_body_ext cfg w sha_length s1) as [[_ _ _ He2 Hu2 _ _] _].
  destruct act; cbn [iter_state]; rewrite ?He2, ?Hu2; done.
Qed.

Lemma run_loop_ends fuel s :
  never_grants -> unlimitedSteps (run s) = false ->
  (Z.to_nat (effectiveMaxSteps (run s) + 2 - stepNum (run s)) <= fuel)%nat ->
  exists r, (forall fuel', (fuel <= fuel')%nat -> run_loop cfg w fuel' s = Some r) /\
    unlimitedSteps (run (snd r)) = false /\ effectiveMaxSteps (run (snd r)) = effectiveMaxSteps (run s).
Proof.
  intros Hng. revert s; induction fuel as [|fuel IH]; intros s Hu Hf.
  - exists (Some (unfinished "" s), None, s). split; [|done]. intros fuel' _.
    assert (Hc : negb (unlimitedSteps (run s) || (stepNum (run s) <=? effectiveMaxSteps (run s) + 1)) = true)
      by (rewrite Hu; lia).
    by destruct fuel'; cbn [run_loop]; rewrite Hc.
  - destruct (negb (unlimitedSteps (run s) || (stepNum (run s) <=? effectiveMaxSteps (run s) + 1))) eqn:Ec.
    { exists (Some (unfinished "" s), None, s). split; [|done]. intros [|fuel'] _; cbn [run_loop]; by rewrite Ec. }
    assert (Hn : stepNum (run s) <= effectiveMaxSteps (run s) + 1) by (rewrite Hu in Ec; cbn [orb] in Ec; lia).
    destruct (iteration_no_grant s Hng Hu Hn) as [He' Hu'].
    destruct (iteration_grow cfg w sha_length s) as [[_ _ _ Hnum _] _].
    assert (Hstep : forall fuel', (S fuel <= fuel')%nat -> exists k, fuel' = S k /\ (fuel <= k)%nat).
    { intros [|k] Hk; [lia|]. exists k. split; [done|lia]. }
    destruct (iteration cfg w s) as [r e y|y|y] eqn:Ei; cbn [iter_state] in *.
    + exists (r, e, y). split; [|done]. intros fuel' (k & -> & _)%Hstep. cbn [run_loop]. by rewrite Ec, Ei.
    + exists (Some (unfinished "" y), None, y). split; [|done].
      intros fuel' (k & -> & _)%Hstep. cbn [run_loop]. by rewrite Ec, Ei.
    + destruct (IH (set_stepNum (stepNum (run y) + 1) y)) as (r & Hr & Hru & Hre).
      * done.
      * cbn [run set_stepNum on_run stepNum effectiveMaxSteps]. lia.
      * exists r. split; [|by rewrite Hru, Hre]. intros fuel' (k & -> & Hk)%Hstep.
        cbn [run_loop]. rewrite Ec, Ei. by apply Hr.
Qed.
End loop.

(** ** [Run] *)

(** The trajectory of [s] continues the resumed one. *)
Definition continues (s : xstate) : Prop := exists new, allSteps (run s) = resumeSteps cfg ++ new.

(** The consistency of the cache a state holds, if any. *)
Definition cache_ok (s : xstate) : Prop :=
  match toolCache (ex s) with
  | Some c => cache_inv (w_sha256hex w) c
  | None => True
  end.

Lemma finalize_same s :
  let s' := finalizeAssistantStream cfg s in
  allSteps (run s') = allSteps (run s) /\ ex s' = ex s /\ calls_of (trace s') = calls_of (trace s) /\
  unlimitedSteps (run s') = unlimitedSteps (run s) /\ effectiveMaxSteps (run s') = effectiveMaxSteps (run s).
Proof.
  unfold finalizeAssistantStream. cbv zeta. destruct (_ || _); [done|]. do 2 (split; [done|]). split; [|done].
  unfold calls_of, count_events. simpl. rewrite List.filter_app, length_app. simpl. lia.
Qed.

(** The steps [Run] starts with. *)
Definition resumed : Z := Z.of_nat (length (resumeSteps cfg)).

Lemma start_run_state e :
  let s := start_run cfg w e in
  allSteps (run s) = resumeSteps cfg /\ stepNum (run s) = resumed + 1 /\
  effectiveMaxSteps (run s) = maxSteps cfg /\ unlimitedSteps (run s) = false /\
  responseGroupCounter (ex s) = seed_groups (resumeSteps cfg) (responseGroupCounter e) /\
  toolCache (ex s) = toolCache e /\ calls_of (trace s) = 0%nat.
Proof. unfold start_run. cbv zeta. by destruct (w_ToolOverheadAware w). Qed.

Lemma Run_loop fuel e res err s' :
  Run cfg w fuel e = Some (res, err, s') ->
  exists s1, run_loop cfg w fuel (start_run cfg w e) = Some (res, err, s1) /\ s' = finalizeAssistantStream cfg s1.
Proof.
  unfold Run. destruct (run_loop _ _ _ _) as [[[r er] s1]|]; [|done]. intros [= <- <- <-]. by exists s1.
Qed.

(** C1: whatever way a run ends - finished, out of budget, stopped by a breaker
    or paused - the result it hands back, if any, holds exactly the trajectory
    of its last state, and that trajectory is the resumed one followed by the
    new steps: a paused result is a complete checkpoint, whatever was resumed. *)
Theorem Run_result_complete (Hsha : forall s, String.length (w_sha256hex w s) = fullHashLen)
    fuel e res err s' (Hrun : Run cfg w fuel e = Some (res, err, s')) :
  continues s' /\ (forall r, res = Some r -> er_steps r = allSteps (run s')).
Proof.
  unfold continues. apply Run_loop in Hrun as (s1 & Hl & ->). destruct (finalize_same s1) as (Hs & _). rewrite Hs.
  destruct (run_loop_ext Hsha _ _ _ _ _ Hl) as [[(l & Hg & _) _ _] Hc].
  destruct (start_run_state e) as (Ha & _). rewrite Ha in Hg. split; [by exists l|exact Hc].
Qed.

(** The response groups of a run are its own: on the new steps they never
    decrease, and each is greater than every group of a resumed step (and than
    the executor's counter), so no step of an earlier response, resumed or not,
    shares a group with a later response. *)
Theorem Run_groups_fresh (Hsha : forall s, String.length (w_sha256hex w s) = fullHashLen)
    fuel e res err s' (Hrun : Run cfg w fuel e = Some (res, err, s')) :
  exists new, allSteps (run s') = resumeSteps cfg ++ new /\
    StronglySorted Z.le (groups new) /\
    Forall (fun g => responseGroupCounter e < g /\ Forall (fun st => s_group st < g) (resumeSteps cfg)) (groups new).
Proof.
  apply Run_loop in Hrun as (s1 & Hl & ->). destruct (finalize_same s1) as (Hs & _). rewrite Hs.
  destruct (run_loop_ext Hsha _ _ _ _ _ Hl) as [[(l & Hg & Hsort & Hf) _ _] _].
  destruct (start_run_state e) as (Ha & _ & _ & _ & Hctr & _). rewrite Ha in Hg. rewrite Hctr in Hf.
  exists l. split; [done|]. split; [done|].
  destruct (seed_groups_ge (resumeSteps cfg) (responseGroupCounter e)) as [Hge Hall].
  eapply Forall_impl; [exact Hf|]. simpl. intros g [Hg1 _]. split; [lia|].
  eapply Forall_impl; [exact Hall|]. simpl. intros. lia.
Qed.

(** A run keeps the tool cache consistent, through every store, read and
    eviction its calls make, on every way out of the loop. *)
Theorem Run_cache_inv (Hsha : forall s, String.length (w_sha256hex w s) = fullHashLen)
    fuel e c res err s' (Hrun : Run cfg w fuel e = Some (res, err, s'))
    (Hc : toolCache e = Some c) (Hinv : cache_inv (w_sha256hex w) c) :
  cache_ok s'.
Proof.
  unfold cache_ok. apply Run_loop in Hrun as (s1 & Hl & ->). destruct (finalize_same s1) as (_ & He & _). rewrite He.
  destruct (run_loop_ext Hsha _ _ _ _ _ Hl) as [[_ _ Hca] _]. unfold cinv in Hca.
  destruct (start_run_state e) as (_ & _ & _ & _ & _ & Ht & _). rewrite Ht, Hc in Hca. by apply Hca.
Qed.

(** The step budget bounds the model calls: a run that was never made
    unlimited makes at most as many calls as the limit it ends with leaves
    beyond the resumed steps. *)
Theorem Run_call_budget (Hsha : forall s, String.length (w_sha256hex w s) = fullHashLen)
    fuel e res err s' (Hrun : Run cfg w fuel e = Some (res, err, s'))
    (Hlim : unlimitedSteps (run s') = false) :
  (calls_of (trace s') <= Z.to_nat (effectiveMaxSteps (run s') - resumed))%nat.
Proof.
  apply Run_loop in Hrun as (s1 & Hl & ->). destruct (finalize_same s1) as (_ & _ & Hc & Hu & He).
  rewrite Hc, He. rewrite Hu in Hlim.
  destruct (start_run_state e) as (_ & Hn & _ & _ & _ & _ & Hz).
  apply (run_loop_budget Hsha _ _ _ _ _ _ Hl); [lia| |by left|done]. rewrite Hz, Hn. lia.
Qed.

(** C2: when the human never lifts a limit, a run ends: with fuel for the steps
    that are left and two more it has one result, whatever the fuel, after at
    most as many model calls as steps were left, whatever model, tools and
    pauses do. *)
Theorem Run_terminates (Hsha : forall s, String.length (w_sha256hex w s) = fullHashLen)
    (Hng : never_grants) e :
  exists r, (forall fuel, (Z.to_nat (maxSteps cfg - resumed) + 2 <= fuel)%nat -> Run cfg w fuel e = Some r) /\
    (calls_of (trace (snd r)) <= Z.to_nat (maxSteps cfg - resumed))%nat.
Proof.
  destruct (start_run_state e) as (_ & Hn & Hm & Hu & _ & _ & Hz).
  set (fuel0 := (Z.to_nat (maxSteps cfg - resumed) + 2)%nat).
  destruct (run_loop_ends Hsha fuel0 (start_run cfg w e) Hng Hu) as ([[res err] s1] & Hr & Hru & Hre);
    [rewrite Hn, Hm; unfold fuel0; lia|]. cbn [snd] in Hru, Hre.
  exists (res, err, finalizeAssistantStream cfg s1). split.
  - intros fuel Hf. unfold Run. by rewrite (Hr fuel Hf).
  - cbn [snd]. destruct (finalize_same s1) as (_ & _ & -> & _ & _). rewrite <- Hm, <- Hre.
    apply (run_loop_budget Hsha _ _ _ _ _ _ (Hr fuel0 (le_n _))); [lia| |by left|done]. rewrite Hz, Hn. lia.
Qed.

End run.

(** ** A run, evaluated *)

Section examples.
Local Existing Instance Float64_Q.

Definition answers (l : list (string + list ToolCall)) : list llm_outcome :=
  map (fun x => mkOutcome [] (match x with
    | inl e => inr (mkErr e [])
    | inr calls => inl (Some (example_response "ok" "tool_use" calls))
    end)) l.

Definition read_call (id : string) : ToolCall := mkToolCall id "read_file" "{}".
Definition done_call : ToolCall :=
  mkToolCall "f" "finish" ("{" +s+ q "answer" +s+ ":" +s+ q "done" +s+ "}").

(** A step of the checkpoint, of a response with the group 4. *)
Definition old_step : Step :=
  mkStep "" "" [] (read_call "o") "old" false 0 "" 4 false "".

Definition resuming (steps : Z) (l : list Step) : Config := {|
  maxSteps := steps; suppressAssistantEvents := false; streaming := false;
  HardCapTokens := 0; MaxFillFraction := (2 # 5)%Q; perToolTruncation := ∅; nonCacheableTools := ∅;
  mutationRequired := false; checklistGateEnabled := false; preWarningPercent := 0;
  stopTools := ∅; verifyOnEditCap := 4000; watchdog := mkWatch false 0 ∅;
  taskTools := ["read_file"]; resumeSteps := l |}.

(** Two reads in one response, then the finish call. *)
Definition demo_world : World :=
  scripted (answers [inr [read_call "a"; read_call "b"]; inr [done_call]])
    (mkToolResult "a result long enough to count as one, fifty characters" false) (Ok StepLimitDeny).
Definition demo_cfg : Config := resuming 5 [old_step].
Definition demo_exec : Executor := NewExecutor DefaultCircuitBreakerConfig (Some (NewToolResultCache 5)).
Definition demo_run := Run demo_cfg demo_world 10 demo_exec.

Definition demo_sha : forall s, String.length (w_sha256hex demo_world s) = fullHashLen := toy_hash_length.

(** The demo as the properties see it. *)
Definition demo_says (P : option ExecutorResult -> option gerror -> xstate -> Prop) : Prop :=
  match demo_run with
  | Some (res, err, s') => P res err s'
  | None => False
  end.

Example demo_runs : demo_says (fun res err s' =>
  match res with
  | Some r => er_finished r = true /\ er_output r = "done" /\ length (er_steps r) = 5%nat
  | None => False
  end /\ err = None /\ groups (allSteps (run s')) = [4; 5; 5] /\ calls_of (trace s') = 2%nat).
Proof. vm_compute. repeat split. Qed.

Lemma defined {A} (o : option A) : match o with Some _ => true | None => false end = true -> o <> None.
Proof. by destruct o. Qed.

Lemma demo_defined : demo_run <> None.
Proof. apply defined. vm_compute. reflexivity. Qed.

Lemma Run_result_complete_witness : demo_says (fun res _ s' =>
  (exists new, allSteps (run s') = [old_step] ++ new) /\
  (forall r, res = Some r -> er_steps r = allSteps (run s'))).
Proof.
  unfold demo_says, demo_run. destruct (Run demo_cfg demo_world 10 demo_exec) as [[[res err] s']|] eqn:E;
    [|by destruct (demo_defined E)].
  exact (Run_result_complete demo_cfg demo_world demo_sha 10 demo_exec res err s' E).
Defined.

Lemma Run_groups_fresh_witness : demo_says (fun _ _ s' =>
  exists new, allSteps (run s') = [old_step] ++ new /\ StronglySorted Z.le (groups new) /\
    Forall (fun g => 0 < g /\ Forall (fun st => s_group st < g) [old_step]) (groups new)).
Proof.
  unfold demo_says, demo_run. destruct (Run demo_cfg demo_world 10 demo_exec) as [[[res err] s']|] eqn:E;
    [|by destruct (demo_defined E)].
  exact (Run_groups_fresh demo_cfg demo_world demo_sha 10 demo_exec res err s' E).
Defined.

Lemma Run_cache_inv_witness : demo_says (fun _ _ s' =>
  match toolCache (ex s') with Some c' => cache_inv toy_hash c' | None => True end).
Proof.
  unfold demo_says, demo_run. destruct (Run demo_cfg demo_world 10 demo_exec) as [[[res err] s']|] eqn:E;
    [|by destruct (demo_defined E)].
  refine (Run_cache_inv demo_cfg demo_world demo_sha 10 demo_exec _ res err s' E eq_refl _).
  apply inv_init.
Defined.

Lemma Run_call_budget_witness : demo_says (fun _ _ s' =>
  unlimitedSteps (run s') = false -> (calls_of (trace s') <= Z.to_nat (effectiveMaxSteps (run s') - 1))%nat).
Proof.
  unfold demo_says, demo_run. destruct (Run demo_cfg demo_world 10 demo_exec) as [[[res err] s']|] eqn:E;
    [|by destruct (demo_defined E)].
  exact (Run_call_budget demo_cfg demo_world demo_sha 10 demo_exec res err s' E).
Defined.

(** The limits of the demo are never lifted. *)
Lemma demo_unlimited : demo_says (fun _ _ s' => unlimitedSteps (run s') = false /\ effectiveMaxSteps (run s') = 5).
Proof. vm_compute. split; reflexivity. Qed.

(** A model that calls tools for ever is stopped after the four steps left. *)
Definition endless : World :=
  scripted (answers (repeat (inr [read_call "a"]) 20)) (mkToolResult "x" false) (Ok StepLimitDeny).

Lemma Run_terminates_witness :
  (exists r, (forall fuel, (6 <= fuel)%nat -> Run demo_cfg endless fuel demo_exec = Some r) /\
    (calls_of (trace (snd r)) <= 4)%nat) /\
  match Run demo_cfg endless 6 demo_exec with Some (_, _, s) => calls_of (trace s) = 4%nat | None => False end.
Proof.
  split; [|vm_compute; reflexivity].
  exact (Run_terminates demo_cfg endless toy_hash_length (fun _ _ _ _ => eq_refl) demo_exec).
Defined.

(** ** Two edges of resuming

    A checkpoint with more steps than the budget plus one - one response of
    several calls adds several steps - ends at once: no model call, and the
    human, whom a run at its limit asks, is not asked. *)
Example resume_past_budget_unasked :
  match Run (resuming 2 [old_step; old_step; old_step]) demo_world 5 demo_exec with
  | Some (Some r, None, s) => er_finished r = false /\ trace s = [CwSetToolOverhead]
  | _ => False
  end /\
  match Run (resuming 2 [old_step; old_step]) demo_world 5 demo_exec with
  | Some (Some r, None, s) => er_finished r = false /\ trace s = [CwSetToolOverhead; AskedStepLimit 3 2 ""]
  | _ => False
  end.
Proof. vm_compute. repeat split. Qed.

Definition batch_call : ToolCall :=
  mkToolCall "b" "batch" ("{" +s+ q "calls" +s+ ":[{" +s+ q "tool" +s+ ":" +s+ q "read_file" +s+ "," +s+
    q "input" +s+ ":{}}]}").

(** The identifiers of the calls of a run's steps. *)
Definition ids_after (o : option (option ExecutorResult * option gerror * xstate)) : list string :=
  match o with
  | Some (_, _, s) => map (fun st => tc_id (s_action st)) (allSteps (run s))
  | None => []
  end.

(** A context error uses up a step number without a step, so a resumed run
    reaches a number its checkpoint has used, and a batch repeats its
    identifiers. *)
Definition before_resume : Config := resuming 2 [].
Definition compacting : World :=
  scripted (answers [inl "context length exceeded"; inr [batch_call]])
    (mkToolResult "x" false) (Ok StepLimitDeny).

Definition checkpoint : list Step :=
  match Run before_resume compacting 10 demo_exec with Some (_, _, s) => allSteps (run s) | None => [] end.

Example batch_ids_repeat_after_resume :
  ids_after (Run before_resume compacting 10 demo_exec) = ["batch_2_0_sub_0"] /\
  ids_after (Run (resuming 2 checkpoint)
    (scripted (answers [inr [batch_call]]) (mkToolResult "x" false) (Ok StepLimitDeny)) 10 demo_exec) =
    ["batch_2_0_sub_0"; "batch_2_0_sub_0"].
Proof. split; vm_compute; reflexivity. Qed.

End examples.
