(* ===== verification/SubAgent.v ===== *)
(** * Sub-agents: [src/agent/subagent.go]

    A sub-agent is a run of the executor on a goroutine of its own, reported by
    a launch and one terminal event and by the result it sends;
    [RunSubAgentsParallel] runs many under a cap.  Theorems: event and result
    agree, whatever the executor does, a panic included; under every
    interleaving the cap holds and all results come back in input order.

    Parameters: how each executor run ends ([run_ending]: [Executor.Run] gives
    one unless it panics, see [ending_of]).  The emitter is taken to return;
    durations, the logger and the context values are left out. *)

From Stdlib Require Import ZArith Lia.
From stdpp Require Import base gmap strings list.
From S2P Require Import Prelude GoStr GoFloat AgentTypes Nudges ToolSyntax ExecState Executor.
Open Scope sp4rk_scope.
Open Scope Z_scope.

Record SubAgentResult := mkSubResult {
  sub_StepID : string;
  sub_Output : string;
  sub_Error : option gerror;
  sub_Steps : list Step;
  sub_Summary : string;
}.

Inductive sub_event :=
| SubAgentLaunch (stepID taskDesc : string)
| SubAgentPaused (stepID : string)
| SubAgentComplete (stepID : string) (success : bool) (errMsg : string).

(** How [executor.Run] ends. *)
Inductive run_ending :=
| Returned (result : option ExecutorResult) (err : option gerror)
| Panicked (value : string).

Definition nil_dereference : string := "runtime error: invalid memory address or nil pointer dereference".

Definition plain_error (text : string) : gerror := mkErr text [].

Definition isPaused (err : option gerror) : bool := errors_Is err ErrPaused.

(** The deferred [recover]. *)
Definition recovered (stepID value : string) : list sub_event * SubAgentResult :=
  let panicErr := plain_error ("subagent " +s+ stepID +s+ " panicked: " +s+ value) in
  ([SubAgentComplete stepID false (err_text panicErr)], mkSubResult stepID "" (Some panicErr) [] "").

Definition leaked_syntax : gerror :=
  plain_error "model printed tool-call syntax as text instead of using tool_use blocks".

(** The text a failed or unfinished run is reported with. *)
Definition failure_reason (result : option ExecutorResult) (err : option gerror) : string :=
  match err with
  | Some e => err_text e
  | None =>
      match result with
      | Some r =>
          if er_finished r then ""
          else if negb (String.eqb (er_abort_reason r) "") then er_abort_reason r
          else if negb (String.eqb (er_output r) "") then er_output r
          else "step execution did not complete within max steps"
      | None => ""
      end
  end.

(** From the end of the run to the result sent. *)
Definition settle (stepID : string) (ending : run_ending) : list sub_event * SubAgentResult :=
  match ending with
  | Panicked value => recovered stepID value
  | Returned None None => recovered stepID nil_dereference
  | Returned result err =>
      let success := match err, result with None, Some r => er_finished r | _, _ => false end in
      let leaked := match result with
        | Some r => success && (DetectToolCallSyntaxInContent (er_output r) || DetectToolCallSyntaxInContent (er_summary r))
        | None => false
        end in
      let success := if leaked then false else success in
      let err := if leaked then Some leaked_syntax else err in
      let errMsg := failure_reason result err in
      let completion := if isPaused err then SubAgentPaused stepID else SubAgentComplete stepID success errMsg in
      let steps := match result with Some r => er_steps r | None => [] end in
      let out := match result with Some r => er_output r | None => "" end in
      let summary := match result with Some r => er_summary r | None => "" end in
      ([completion],
       match err, result with
       | Some e, _ => mkSubResult stepID "" (Some e) steps ""
       | None, Some r =>
           if er_finished r then mkSubResult stepID out None steps summary
           else mkSubResult stepID out (Some (plain_error errMsg)) steps summary
       | None, None => mkSubResult stepID "" None [] ""
       end)
  end.

(** The events of [RunSubAgent] and what its channel delivers. *)
Definition RunSubAgent (stepID taskDesc : string) (ending : run_ending) : list sub_event * SubAgentResult :=
  let '(events, result) := settle stepID ending in (SubAgentLaunch stepID taskDesc :: events, result).

(** A run of [Executor.Run] that returned. *)
Definition ending_of `{Float64} (out : option ExecutorResult * option gerror * xstate) : run_ending :=
  let '(res, err, _) := out in Returned res err.

(** What the terminal event says of a result. *)
Definition completion_of (r : SubAgentResult) : sub_event :=
  match sub_Error r with
  | None => SubAgentComplete (sub_StepID r) true ""
  | Some e => if errors_Is (Some e) ErrPaused then SubAgentPaused (sub_StepID r)
              else SubAgentComplete (sub_StepID r) false (err_text e)
  end.

(** A sub-agent reports one launch and one terminal event, and the event
    says what the result says: a completion without an error exactly for a
    result without one, a pause exactly for the pause sentinel, and otherwise a
    failure with the text of the result's error.  There is no error exactly
    when the executor returned a finished result without one, in whose output
    and summary no tool call is printed as text; then output and summary are
    the executor's.  The trajectory is kept on every path but a panic. *)
Theorem RunSubAgent_reports stepID taskDesc ending :
  let '(events, r) := RunSubAgent stepID taskDesc ending in
  events = [SubAgentLaunch stepID taskDesc; completion_of r] /\
  sub_StepID r = stepID /\
  (sub_Error r = None <-> exists er, ending = Returned (Some er) None /\ er_finished er = true /\
     DetectToolCallSyntaxInContent (er_output er) = false /\ DetectToolCallSyntaxInContent (er_summary er) = false) /\
  (forall er err, ending = Returned (Some er) err ->
     sub_Steps r = er_steps er /\
     (sub_Error r = None -> sub_Output r = er_output er /\ sub_Summary r = er_summary er) /\
     (forall e, err = Some e -> sub_Error r = Some e)).
Proof.
  unfold RunSubAgent. destruct ending as [[er|] [e|]|v]; cbn -[String.append DetectToolCallSyntaxInContent].
  - repeat split; naive_solver.
  - destruct (er_finished er) eqn:Ef; cbn -[String.append DetectToolCallSyntaxInContent].
    + destruct (_ || _) eqn:El; cbn -[String.append DetectToolCallSyntaxInContent].
      * repeat split; [done| |naive_solver..]. intros (er' & [= <-] & _ & H1 & H2). by rewrite H1, H2 in El.
      * apply orb_false_iff in El. rewrite Ef. repeat split; naive_solver.
    + repeat split; [done|intros (? & [= <-] & ? & _); congruence|naive_solver..].
  - repeat split; naive_solver.
  - repeat split; naive_solver.
  - repeat split; naive_solver.
Qed.

(** ** [RunSubAgentsParallel] *)

(** Where the goroutine of an agent is: before, in and behind its slot, and
    behind [wg.Done]. *)
Inductive phase := Waiting | Running | Settled | Released | Exited.

#[export] Instance phase_eq_dec : EqDecision phase.
Proof. solve_decision. Defined.

Inductive pool_event := Launched (i : nat) | Finished (i : nat) (r : SubAgentResult).

Record pool := mkPool {
  phases : list phase;
  results : list SubAgentResult;
  log : list pool_event;
}.

Definition holds_slot (p : phase) : nat := match p with Running | Settled => 1 | _ => 0 end.
(** The length of [sem]. *)
Definition held (s : pool) : nat := sum_list_with holds_slot (phases s).

Definition effective_cap (maxConcurrency : Z) (n : nat) : nat :=
  if (maxConcurrency <=? 0) || (Z.of_nat n <? maxConcurrency) then n else Z.to_nat maxConcurrency.

Definition zero_result : SubAgentResult := mkSubResult "" "" None [] "".

Section parallel.
Variable agents : list (string * string). (** step IDs and task descriptions *)
Variable maxConcurrency : Z.

Definition pool_init : pool :=
  mkPool (replicate (length agents) Waiting) (replicate (length agents) zero_result) [].

(** What the channel of an agent delivers, for some end of its run. *)
Definition delivers (i : nat) (r : SubAgentResult) : Prop :=
  exists stepID desc ending, agents !! i = Some (stepID, desc) /\ r = snd (RunSubAgent stepID desc ending).

Inductive pool_step : pool -> pool -> Prop :=
| P_acquire i s : phases s !! i = Some Waiting -> (held s < effective_cap maxConcurrency (length agents))%nat ->
    pool_step s (mkPool (<[i := Running]> (phases s)) (results s) (log s ++ [Launched i]))
| P_settle i r s : phases s !! i = Some Running -> delivers i r ->
    pool_step s (mkPool (<[i := Settled]> (phases s)) (<[i := r]> (results s)) (log s ++ [Finished i r]))
| P_release i s : phases s !! i = Some Settled ->
    pool_step s (mkPool (<[i := Released]> (phases s)) (results s) (log s))
| P_exit i s : phases s !! i = Some Released ->
    pool_step s (mkPool (<[i := Exited]> (phases s)) (results s) (log s)).

(** [wg.Wait] returns. *)
Definition joined (s : pool) : Prop := forall p, p ∈ phases s -> p = Exited.

Definition rank (p : phase) : nat :=
  match p with Waiting => 4 | Running => 3 | Settled => 2 | Released => 1 | Exited => 0 end.
Definition steps_left (s : pool) : nat := sum_list_with rank (phases s).

Lemma sum_insert (f : phase -> nat) l i x y :
  l !! i = Some x -> (sum_list_with f (<[i := y]> l) + f x = sum_list_with f l + f y)%nat.
Proof.
  revert i. induction l as [|z l IH]; intros [|i]; simpl; try done.
  - intros [= ->]. lia.
  - intros Hi. specialize (IH i Hi). lia.
Qed.

(** One agent's view of the pool. *)
Definition agent_ok (s : pool) (i : nat) (p : phase) : Prop :=
  match p with
  | Waiting => Launched i ∉ log s /\ forall r, Finished i r ∉ log s
  | Running => Launched i ∈ log s /\ forall r, Finished i r ∉ log s
  | _ => Launched i ∈ log s /\ exists r, delivers i r /\ results s !! i = Some r /\
           forall r', Finished i r' ∈ log s <-> r' = r
  end.

Definition launches (l : list pool_event) : list nat :=
  omap (fun e => match e with Launched i => Some i | _ => None end) l.

Record pool_inv (s : pool) : Prop := {
  pi_phases : length (phases s) = length agents;
  pi_results : length (results s) = length agents;
  pi_cap : (held s <= effective_cap maxConcurrency (length agents))%nat;
  pi_agents : forall i p, phases s !! i = Some p -> agent_ok s i p;
  pi_once : NoDup (launches (log s));
}.

Lemma elem_of_launches i l : i ∈ launches l <-> Launched i ∈ l.
Proof.
  unfold launches. rewrite list_elem_of_omap. split; [intros ([] & ? & ?); by simplify_eq|eauto].
Qed.

Lemma held_step s s' : pool_step s s' -> (held s <= effective_cap maxConcurrency (length agents))%nat ->
  (held s' <= effective_cap maxConcurrency (length agents))%nat.
Proof.
  destruct 1 as [i s Hi|i r s Hi|i s Hi|i s Hi]; unfold held in *; simpl; intros;
    match goal with |- context [<[i := ?y]> _] => pose proof (sum_insert holds_slot _ i _ y Hi) as E end;
    simpl in E; lia.
Qed.

(** A step of one agent leaves the others as they were. *)
Lemma agent_frame s s' l i j p :
  i <> j -> results s' !! j = results s !! j -> log s' = log s ++ l ->
  Forall (fun e => e = Launched i \/ exists r, e = Finished i r) l ->
  agent_ok s j p -> agent_ok s' j p.
Proof.
  intros Hij Hr Hlog Hl. unfold agent_ok. rewrite Hr, Hlog.
  assert (Hno : forall e, e ∈ l -> e <> Launched j /\ forall r, e <> Finished j r).
  { intros e He. eapply Forall_forall in Hl; [|exact He]. destruct Hl as [->|[? ->]]; split; congruence. }
  assert (HL : Launched j ∈ log s ++ l <-> Launched j ∈ log s).
  { rewrite elem_of_app. split; [|auto]. intros [?|Hj]; [done|]. by destruct (Hno _ Hj). }
  assert (HF : forall r, Finished j r ∈ log s ++ l <-> Finished j r ∈ log s).
  { intros r. rewrite elem_of_app. split; [|auto]. intros [?|Hj]; [done|]. destruct (Hno _ Hj) as [_ HN]. by destruct (HN r). }
  destruct p; (intros [HLs H]; split; [by rewrite HL|]);
    first [intros r; rewrite HF; apply H
          |destruct H as (r & Hd & Hres & H); exists r; split_and!; [done..|intros r'; rewrite HF; apply H]].
Qed.

(** The agent a step is about, the step's log entries, and the agent after it. *)
Lemma step_local s s' : pool_step s s' -> pool_inv s ->
  exists i p l, phases s' = <[i := p]> (phases s) /\ log s' = log s ++ l /\
    Forall (fun e => e = Launched i \/ exists r, e = Finished i r) l /\ is_Some (phases s !! i) /\
    (forall j, i <> j -> results s' !! j = results s !! j) /\ length (results s') = length (results s) /\
    agent_ok s' i p /\ NoDup (launches (log s')).
Proof.
  intros Hs [Hlp Hlr _ Ha Hn]. destruct Hs as [i s Hi _|i r s Hi Hd|i s Hi|i s Hi];
    specialize (Ha i _ Hi); simpl in Ha; destruct Ha as [HL HF].
  - exists i, Running, [Launched i]. simpl. split_and!; try done; [apply Forall_singleton; by left| | |].
    + set_solver.
    + intros r. rewrite elem_of_app, list_elem_of_singleton. intros [?|?]; [by eapply HF|done].
    + unfold launches. rewrite omap_app. apply NoDup_app. repeat split; [done| |repeat constructor; set_solver].
      intros j Hj Hj'. csimpl in Hj'. apply list_elem_of_singleton in Hj' as ->. by apply elem_of_launches in Hj.
  - exists i, Settled, [Finished i r]. simpl. split_and!; try done; [apply Forall_singleton; eauto| | | | |].
    + intros j Hij. by rewrite list_lookup_insert_ne.
    + by rewrite length_insert.
    + set_solver.
    + exists r. split; [done|]. split.
      * apply list_lookup_insert_eq. rewrite Hlr, <- Hlp. by eapply lookup_lt_Some.
      * intros r'. rewrite elem_of_app, list_elem_of_singleton. split; [intros [?|?]; [by destruct (HF r')|congruence]|].
        intros ->. by right.
    + unfold launches. rewrite omap_app. by rewrite app_nil_r.
  - exists i, Released, []. simpl. rewrite app_nil_r. split_and!; eauto.
  - exists i, Exited, []. simpl. rewrite app_nil_r. split_and!; eauto.
Qed.

Lemma pool_step_inv s s' : pool_step s s' -> pool_inv s -> pool_inv s'.
Proof.
  intros Hs HI. destruct (step_local _ _ Hs HI) as (i & p & l & Hp & Hlog & Hl & Hi & Hr & Hlen & Hok & Hn).
  destruct HI as [Hlp Hlr Hc Ha _]. split; [by rewrite Hp, length_insert|congruence|by eapply held_step| |done].
  intros j q. rewrite Hp. destruct (decide (i = j)) as [<-|Hij].
  - rewrite list_lookup_insert_eq by (by apply lookup_lt_is_Some). by intros [= <-].
  - rewrite list_lookup_insert_ne by done. intros Hq. exact (agent_frame s s' l i j q Hij (Hr _ Hij) Hlog Hl (Ha _ _ Hq)).
Qed.

Lemma sum_replicate_zero (f : phase -> nat) p n : sum_list_with f (replicate n p) = (n * f p)%nat.
Proof. induction n; simpl; lia. Qed.

Lemma pool_init_inv : pool_inv pool_init.
Proof.
  split; simpl; rewrite ?length_replicate; try done; [| |constructor].
  - unfold held. simpl. rewrite sum_replicate_zero. simpl. lia.
  - intros i p Hi. apply lookup_replicate in Hi as [-> _]. split; [set_solver|intros ?; set_solver].
Qed.

Lemma pool_reach_inv s : rtc pool_step pool_init s -> pool_inv s.
Proof.
  intros H. remember pool_init as s0 eqn:E. assert (HI : pool_inv s0) by (subst; apply pool_init_inv). clear E.
  induction H; [done|]. eauto using pool_step_inv.
Qed.

(** A pool that is not joined can move. *)
Lemma pool_moves s : pool_inv s -> ~ joined s -> exists s', pool_step s s'.
Proof.
  intros HI Hj.
  destruct (decide (Exists (fun p => p <> Waiting /\ p <> Exited) (phases s))) as [He|He].
  - apply Exists_exists in He as (p & Hp & Hw & Hx). apply list_elem_of_lookup_1 in Hp as [i Hi].
    destruct p; try done; [|eexists; by eapply P_release|eexists; by eapply P_exit].
    assert (is_Some (agents !! i)) as [[id desc] Ha].
    { apply lookup_lt_is_Some. rewrite <- (pi_phases _ HI). by eapply lookup_lt_Some. }
    eexists. eapply (P_settle i _ s Hi). exists id, desc, (Panicked ""). done.
  - assert (held s = 0%nat /\ exists i, phases s !! i = Some Waiting) as [Hz [i Hi]].
    { unfold joined in Hj. unfold held. clear HI. revert Hj He. generalize (phases s). intros l Hj He.
      rewrite <- Forall_Exists_neg in He. split.
      - clear Hj. induction He as [|p l Hp _ IH]; simpl; [done|]. rewrite IH. destruct p; simpl; try done; destruct Hp; done.
      - induction He as [|p l Hp _ IH]; [destruct Hj; intros ? Hx; by apply not_elem_of_nil in Hx|].
        destruct p; try (destruct Hp; done); [by exists 0%nat|].
        destruct IH as [i Hi]; [|by exists (S i)]. intros Hall. apply Hj. intros q Hq.
        apply elem_of_cons in Hq as [->|?]; auto. }
    eexists. apply (P_acquire i s Hi). rewrite Hz. apply lookup_lt_Some in Hi. rewrite (pi_phases _ HI) in Hi.
    unfold effective_cap. destruct (_ || _) eqn:E; [lia|]. boolean. lia.
Qed.

Lemma step_decreases s s' : pool_step s s' -> S (steps_left s') = steps_left s.
Proof.
  destruct 1 as [i s Hi|i r s Hi|i s Hi|i s Hi]; unfold steps_left; simpl;
    match goal with |- context [<[i := ?y]> _] => pose proof (sum_insert rank _ i _ y Hi) as E end; simpl in E; lia.
Qed.
End parallel.

(** Under every interleaving of its goroutines a parallel run keeps at most
    the capped number of sub-agents between launch and release, launches none
    twice, and delivers the results in input order: when all have exited, the
    result at each index is the one that agent's channel delivered, and no
    other was. *)
Theorem parallel_results agents maxConcurrency s :
  rtc (pool_step agents maxConcurrency) (pool_init agents) s ->
  (held s <= effective_cap maxConcurrency (length agents))%nat /\
  NoDup (launches (log s)) /\
  (joined s -> length (results s) = length agents /\
     forall i, (i < length agents)%nat -> Launched i ∈ log s /\
       exists r, delivers agents i r /\ results s !! i = Some r /\ forall r', Finished i r' ∈ log s <-> r' = r).
Proof.
  intros Hr. destruct (pool_reach_inv _ _ _ Hr) as [Hp Hlr Hc Ha Hn]. split; [done|]. split; [done|].
  intros Hj. split; [done|]. intros i Hi. rewrite <- Hp in Hi.
  apply lookup_lt_is_Some in Hi as [p Hi]. pose proof (Ha _ _ Hi) as Hok.
  rewrite (Hj p) in Hok by by eapply list_elem_of_lookup_2. done.
Qed.

(** A parallel run always comes to its end: however its goroutines
    interleave, it makes at most four moves per agent, and while not all have
    exited one of them can move, whatever the cap. *)
Theorem parallel_terminates agents maxConcurrency n s :
  nsteps (pool_step agents maxConcurrency) n (pool_init agents) s ->
  (n <= 4 * length agents)%nat /\
  (joined s \/ exists s', pool_step agents maxConcurrency s s').
Proof.
  intros Hn. split.
  - assert (steps_left (pool_init agents) = (4 * length agents)%nat) as <-.
    { unfold steps_left. simpl. rewrite sum_replicate_zero. simpl. lia. }
    induction Hn as [|n x y z Hxy _ IH]; [lia|]. apply step_decreases in Hxy. lia.
  - assert (HI : pool_inv agents maxConcurrency s) by (apply pool_reach_inv, rtc_nsteps; eauto).
    assert (Hd : joined s \/ ~ joined s).
    { unfold joined. destruct (decide (Forall (fun p => p = Exited) (phases s))) as [H|H];
        rewrite Forall_forall in H; auto. }
    destruct Hd as [Hd|Hd]; [by left|]. right. by apply pool_moves.
Qed.

(** ** Examples *)

Definition demo_agents : list (string * string) := [("s1", "read"); ("s2", "write")].
Definition demo_ending : run_ending := Returned (Some (mkExecutorResult "done" [] true "" "")) None.
Definition demo_result (id desc : string) : SubAgentResult := snd (RunSubAgent id desc demo_ending).
Definition demo_end : pool :=
  mkPool [Exited; Exited] [demo_result "s1" "read"; demo_result "s2" "write"]
    [Launched 1; Finished 1 (demo_result "s2" "write"); Launched 0; Finished 0 (demo_result "s1" "read")].

(** One slot: the second agent runs first, yet comes second. *)
Lemma demo_run : nsteps (pool_step demo_agents 1) 8 (pool_init demo_agents) demo_end.
Proof.
  eapply nsteps_l; [apply (P_acquire _ _ 1%nat); [reflexivity|vm_compute; lia]|].
  eapply nsteps_l; [apply (P_settle _ _ 1%nat (demo_result "s2" "write")); [reflexivity|by exists "s2", "write", demo_ending]|].
  eapply nsteps_l; [apply (P_release _ _ 1%nat); reflexivity|].
  eapply nsteps_l; [apply (P_acquire _ _ 0%nat); [reflexivity|vm_compute; lia]|].
  eapply nsteps_l; [apply (P_exit _ _ 1%nat); reflexivity|].
  eapply nsteps_l; [apply (P_settle _ _ 0%nat (demo_result "s1" "read")); [reflexivity|by exists "s1", "read", demo_ending]|].
  eapply nsteps_l; [apply (P_release _ _ 0%nat); reflexivity|].
  eapply nsteps_l; [apply (P_exit _ _ 0%nat); reflexivity|]. apply nsteps_O.
Qed.

Lemma parallel_results_witness :
  (held demo_end <= 1)%nat /\ NoDup [1%nat; 0%nat] /\
  (joined demo_end -> length (results demo_end) = 2%nat /\
     forall i, (i < 2)%nat -> Launched i ∈ log demo_end /\
       exists r, delivers demo_agents i r /\ results demo_end !! i = Some r /\
         forall r', Finished i r' ∈ log demo_end <-> r' = r).
Proof. exact (parallel_results demo_agents 1 demo_end (rtc_nsteps_2 8 _ _ demo_run)). Defined.

Lemma parallel_terminates_witness :
  (8 <= 4 * 2)%nat /\ (joined demo_end \/ exists s', pool_step demo_agents 1 demo_end s').
Proof. exact (parallel_terminates demo_agents 1 8 demo_end demo_run). Defined.

(** An executor that returns nothing is reported as a panic; a cap beyond the
    number of agents is none. *)
Example nil_result_reported :
  sub_Error (snd (RunSubAgent "s1" "" (Returned None None))) =
    Some (plain_error ("subagent s1 panicked: " +s+ nil_dereference)).
Proof. reflexivity. Qed.
Example cap_beyond_count : effective_cap 9 2 = 2%nat /\ effective_cap (-1) 2 = 2%nat.
Proof. split; reflexivity. Qed.
