(* ===== verification/Conductor.v ===== *)
(** * The conductor: [src/orchestration/conductor.go]

    A conductor runs one task: it prepares the context manager (task, prior
    conversation, resumed steps, the user's nudge, a first compaction),
    configures an executor with a guard against abandoned delegations, runs it,
    and reports how the run ended.  It is composed of the executor's [Run] and
    of any context manager with the capabilities of the interface
    [ContextManager]; [Window] is an instance.  Theorems: what is reported for
    every end of the executor's run, that nothing runs on an incoherent resume,
    and what the first prompt of a run holds.

    Parameters: the host ([World], a function of the prepared context manager,
    so that the executor's environment may depend on it), the model registry,
    the factories, the delegation registry, the blackboard as the tools leave
    it.  Context values and the tracker wired into the caller are left out. *)

From Stdlib Require Import ZArith QArith Lia.
From stdpp Require Import base gmap strings list sorting.
From S2P Require Import Prelude GoStr GoFloat AgentTypes Tokens Blackboard Nudges Fence Window WindowFacts Router ToolCache Watchdog ExecState Finish Executor ExecutorFacts RunFacts.
Open Scope sp4rk_scope.
Open Scope Z_scope.

(** ** The context manager and its optional capabilities:
    [src/orchestration/interfaces.go] *)

Class ContextManager `{Float64} (CM : Type) := {
  cm_SetTask : option (string -> CM -> CM);                           (** [TaskAware] *)
  cm_SetTaskWithBlocks : option (string -> list ContentBlock -> CM -> CM); (** [BlockTaskAware] *)
  cm_SetPriorConversation : option (list Message -> CM -> CM);        (** [ConversationAware] *)
  cm_SeedSteps : option (list Step -> CM -> CM);                      (** [StepSeedable] *)
  cm_SetPendingUserInterjection : option (string -> CM -> CM);        (** [InterjectionAware] *)
  cm_Compact : CM -> option (F * F) * CM;
  cm_type : string;                                                   (** ["%T"] *)
}.

(** [ExecutionStatus] *)
Inductive ExecutionStatus := StatusSuccess | StatusPartial | StatusFailed | StatusAborted | StatusCancelled | StatusPaused.

Record ExecutionResult := mkExecution {
  xr_Output : string;
  xr_Summary : string;
  xr_Steps : list Step;
  xr_Status : ExecutionStatus;
  xr_Blackboard : MapBlackboard;
  xr_Reflections : list Reflection;
}.

#[export] Instance status_eq_dec : EqDecision ExecutionStatus.
Proof. solve_decision. Defined.

Section conductor.
Context `{Float64} {CM : Type} `{!ContextManager CM}.

Record ConductorConfig := mkConductor {
  cc_Model : string;
  cc_Resolve : option (string -> ModelMetadata);                       (** [ModelRegistry] *)
  cc_ContextFactory : option (string -> ModelMetadata -> string -> CM);
  cc_SystemPrompt : option (string -> ModelMetadata -> string);
  cc_MaxSteps : Z;
  cc_HardCapTokens : Z;                                                (** [ToolResultBudget] *)
  cc_MaxFillFraction : F;
  cc_CircuitBreaker : CircuitBreakerConfig;
  cc_ToolCache : option ToolResultCache;
  cc_PerToolTruncation : option (gmap string ToolTruncationConfig);
  cc_ReasoningEffort : string;
  cc_PreWarningPercent : Z;
  cc_Streaming : bool;
  cc_VerifyOnEdit : option (history -> EditVerifyResult);
  cc_VerifyOnEditMaxOutputChars : Z;
  cc_NonCacheableTools : list string;
  cc_StopTools : list string;
  cc_ConversationHistory : list Message;
  cc_ResumeSteps : list Step;
  cc_ContentBlocks : list ContentBlock;
  cc_PendingUserInterjection : string;
  cc_PauseChecker : option (history -> bool);
  cc_ToolCallTimeout : Z;
  cc_ToolCallTimeoutExemptTools : option (list string);                (** [None]: nil *)
  cc_UserMessageSource : option (history -> string);
  cc_CompactOnStart : bool;
}.

Definition NewConductor (cfg : ConductorConfig) : ConductorConfig :=
  let '(mkConductor m r f sp steps hc mf cb tc pt re pw st ve vm nc so ch rs bl pu pc ct te us co) := cfg in
  mkConductor m r f sp (if steps =? 0 then 80 else steps) hc mf cb tc pt re pw st ve vm nc so ch rs bl pu pc ct te us co.

Definition SetReasoningEffort (effort : string) (cfg : ConductorConfig) : ConductorConfig :=
  let '(mkConductor m r f sp steps hc mf cb tc pt _ pw st ve vm nc so ch rs bl pu pc ct te us co) := cfg in
  mkConductor m r f sp steps hc mf cb tc pt effort pw st ve vm nc so ch rs bl pu pc ct te us co.

Definition Conductor_SetModel (model : string) (cfg : ConductorConfig) : ConductorConfig :=
  let '(mkConductor _ r f sp steps hc mf cb tc pt re pw st ve vm nc so ch rs bl pu pc ct te us co) := cfg in
  mkConductor model r f sp steps hc mf cb tc pt re pw st ve vm nc so ch rs bl pu pc ct te us co.

Variable cfg : ConductorConfig.

(** ** Preparing the context manager *)

Definition use {A} (capability : option A) (f : A -> CM) (cm : CM) : CM :=
  match capability with Some op => f op | None => cm end.

Definition setTaskOnContextManager (cm : CM) (message : string) (bs : list ContentBlock) : CM :=
  match bs, cm_SetTaskWithBlocks with
  | _ :: _, Some set => set message bs cm
  | _, _ => use cm_SetTask (fun set => set message cm) cm
  end.

Definition resolveMetadata : ModelMetadata :=
  let meta := match cc_Resolve cfg with Some resolve => resolve (cc_Model cfg) | None => no_meta end in
  if mm_ContextWindow meta =? 0
  then Router.mkMeta 128000 4096 (mm_Family meta) (mm_Protocol meta) "approximate" (mm_temperature meta)
         (mm_GuessedCapabilities meta)
  else meta.

Definition not_seedable : string :=
  "conductor: ResumeSteps configured (" +s+ itoa (Z.of_nat (length (cc_ResumeSteps cfg))) +s+
  " steps) but ContextManager " +s+ cm_type +s+ " does not implement StepSeedable; " +s+
  "the resumed steps could not be seeded into the prompt".

(** Everything before the executor: the context manager, and the percentages of
    a first compaction. *)
Definition prepare (message compactionStrategy : string) : res (CM * option (F * F)) :=
  match cc_ContextFactory cfg, cc_SystemPrompt cfg with
  | None, _ => Err "conductor: context factory not configured"
  | _, None => Err "conductor: system prompt factory not configured"
  | Some ContextFactory, Some SystemPrompt =>
      let compactionStrategy := if String.eqb compactionStrategy "" then "sliding_window" else compactionStrategy in
      let modelMeta := resolveMetadata in
      let systemPrompt := SystemPrompt message modelMeta in
      let cm := ContextFactory systemPrompt modelMeta compactionStrategy in
      let cm := setTaskOnContextManager cm message (cc_ContentBlocks cfg) in
      let cm := if bool_decide (cc_ConversationHistory cfg = []) then cm
                else use cm_SetPriorConversation (fun set => set (cc_ConversationHistory cfg) cm) cm in
      let seeded :=
        if bool_decide (cc_ResumeSteps cfg = []) then Some cm
        else match cm_SeedSteps with Some seed => Some (seed (cc_ResumeSteps cfg) cm) | None => None end in
      match seeded with
      | None => Err not_seedable
      | Some cm =>
          let cm := if String.eqb (cc_PendingUserInterjection cfg) "" then cm
                    else use cm_SetPendingUserInterjection (fun set => set (cc_PendingUserInterjection cfg) cm) cm in
          if cc_CompactOnStart cfg
          then let '(percents, cm) := cm_Compact cm in Ok (cm, percents)
          else Ok (cm, None)
      end
  end.

(** ** The executor *)

(** The setters of [src/agent/executor.go] that drop empty names. *)
Definition name_set (names : list string) : gset string :=
  list_to_set (List.filter (fun n => negb (String.eqb n "")) names).

Definition executor_config (availableTools : list string) : Config := {|
  maxSteps := cc_MaxSteps cfg;
  suppressAssistantEvents := false;
  streaming := cc_Streaming cfg;
  HardCapTokens := cc_HardCapTokens cfg;
  MaxFillFraction := cc_MaxFillFraction cfg;
  perToolTruncation := default ∅ (cc_PerToolTruncation cfg);
  nonCacheableTools := list_to_set defaultNonCacheableTools ∪ list_to_set (cc_NonCacheableTools cfg);
  mutationRequired := false;
  checklistGateEnabled := true;
  preWarningPercent := if 0 <? cc_PreWarningPercent cfg then cc_PreWarningPercent cfg else 0;
  stopTools := name_set (cc_StopTools cfg);
  verifyOnEditCap :=
    match cc_VerifyOnEdit cfg with
    | Some _ => if 0 <? cc_VerifyOnEditMaxOutputChars cfg then cc_VerifyOnEditMaxOutputChars cfg else DefaultVerifyOnEditCap
    | None => 0
    end;
  watchdog := mkWatch (match cc_PauseChecker cfg with Some _ => true | None => false end) (cc_ToolCallTimeout cfg)
    (match cc_ToolCallTimeoutExemptTools cfg with
     | Some names => name_set names
     | None => defaultToolCallTimeoutExemptTools
     end);
  taskTools := availableTools;
  resumeSteps := cc_ResumeSteps cfg;
|}.

Definition new_executor : Executor := NewExecutor (cc_CircuitBreaker cfg) (cc_ToolCache cfg).

Definition pending_error (pending : list string) : string :=
  "you have " +s+ itoa (Z.of_nat (length pending)) +s+ " pending async delegation(s): " +s+ join ", " pending +s+
  ". Call cancel_delegation for each if you no longer need them, or wait for them to complete via read_step_output " +s+
  "before calling finish".

(** The guard [SetFinishGuard] installs; [delegations]: [ListPending] of the
    registry in the context, if there is one. *)
Definition finish_guard (delegations : option (history -> list string)) (h : history) : option string :=
  match delegations with
  | Some ListPending =>
      match ListPending h with [] => None | pending => Some (pending_error pending) end
  | None => None
  end.

(** The executor's environment: the host's, with what the conductor installs. *)
Definition executor_world (delegations : option (history -> list string)) (w : World) : World := {|
  w_OnStepLimit := w_OnStepLimit w;
  w_OnToolCall := w_OnToolCall w;
  w_toolRun := w_toolRun w;
  w_GetToolSource := w_GetToolSource w;
  w_IsToolUntrusted := w_IsToolUntrusted w;
  w_ContentBacked := w_ContentBacked w;
  w_LLM := w_LLM w;
  w_ctxErr := w_ctxErr w;
  w_pauseChecker := cc_PauseChecker cfg;
  w_userMessageSource := cc_UserMessageSource cfg;
  w_finishGuard := Some (finish_guard delegations);
  w_CheckFill := w_CheckFill w;
  w_AvailableTokens := w_AvailableTokens w;
  w_OutputLimit := w_OutputLimit w;
  w_VulnerableOutputs := w_VulnerableOutputs w;
  w_Compact := w_Compact w;
  w_ContextWindowSize := w_ContextWindowSize w;
  w_ToolOverheadAware := w_ToolOverheadAware w;
  w_InterjectionConsumer := w_InterjectionConsumer w;
  w_TrajectoryStore := w_TrajectoryStore w;
  w_verifyOnEdit := cc_VerifyOnEdit cfg;
  w_verifyAtCheckpoint := w_verifyAtCheckpoint w;
  w_workspaceStat := w_workspaceStat w;
  w_now := w_now w;
  w_rangeOrder := w_rangeOrder w;
  w_sha256hex := w_sha256hex w;
  w_ToLower := w_ToLower w;
  w_quote := w_quote w;
  w_jsonError := w_jsonError w;
  w_mergeFragmentWindow := w_mergeFragmentWindow w;
|}.

(** ** Reporting *)

Definition status_of (result : option ExecutorResult) (err ctxErr : option gerror) : ExecutionStatus :=
  match err with
  | Some _ =>
      if errors_Is err ErrPaused then StatusPaused
      else if errors_Is err ContextCanceled || bool_decide (is_Some ctxErr) then StatusCancelled
      else StatusFailed
  | None =>
      match result with
      | Some r => if er_finished r then StatusSuccess else StatusPartial
      | None => StatusPartial
      end
  end.

Definition pending_note (pending : list string) : string :=
  nl +s+ nl +s+ "[Note: " +s+ itoa (Z.of_nat (length pending)) +s+ " async delegation(s) still pending: " +s+
  join ", " pending +s+ "]".

Definition report (result : option ExecutorResult) (err ctxErr : option gerror) (pending : list string)
    (bb : MapBlackboard) : ExecutionResult :=
  let status := status_of result err ctxErr in
  let output := match result with Some r => er_output r | None => "" end in
  let output :=
    match err with
    | Some e => if String.eqb output "" && negb (match status with StatusPaused => true | _ => false end)
                then err_text e else output
    | None => output
    end in
  let output :=
    match err, pending with
    | None, _ :: _ => output +s+ pending_note pending
    | _, _ => output
    end in
  mkExecution output (match result with Some r => er_summary r | None => "" end)
    (match result with Some r => er_steps r | None => [] end) status bb (sl (GetReflections bb)).

(** [Conductor.Run]: result and error, the percentages of the first compaction,
    and the executor's last state; [None]: out of fuel. *)
Inductive conductor_out :=
| NotStarted (err : string)
| Ran (cm : CM) (percents : option (F * F)) (result : ExecutionResult) (err : option gerror) (last : xstate).

Definition Conductor_Run (host : CM -> World) (delegations : option (history -> list string))
    (blackboard : history -> MapBlackboard) (message compactionStrategy : string) (availableTools : list string)
    (fuel : nat) : option conductor_out :=
  match prepare message compactionStrategy with
  | Err e => Some (NotStarted e)
  | Ok (cm, percents) =>
      match Run (executor_config availableTools) (executor_world delegations (host cm)) fuel new_executor with
      | None => None
      | Some (result, err, s) =>
          let pending := match delegations with Some ListPending => ListPending (trace s) | None => [] end in
          Some (Ran cm percents (report result err (w_ctxErr (host cm) (trace s)) pending (blackboard (trace s))) err s)
      end
  end.
End conductor.

(** ** Reports *)

Section reports.
Context `{Float64} {CM : Type} `{!ContextManager CM}.

(** A run of the conductor is a run of the executor on what was prepared. *)
Lemma Conductor_Run_ran (cfg : ConductorConfig) host delegations bb message strategy tools fuel cm percents r err last :
  Conductor_Run cfg host delegations bb message strategy tools fuel = Some (Ran cm percents r err last) ->
  prepare cfg message strategy = Ok (cm, percents) /\
  exists result,
    Run (executor_config cfg tools) (executor_world cfg delegations (host cm)) fuel (new_executor cfg)
      = Some (result, err, last) /\
    r = report result err (w_ctxErr (host cm) (trace last))
          (match delegations with Some ListPending => ListPending (trace last) | None => [] end) (bb (trace last)).
Proof.
  unfold Conductor_Run. destruct (prepare _ _ _) as [[cm' p']|]; [|done].
  destruct (Run _ _ _ _) as [[[result err'] s]|] eqn:E; [|done]. intros [= <- <- <- <- <-]. eauto.
Qed.

Lemma status_err result e ctx :
  let st := status_of result (Some e) ctx in
  (st = StatusPaused <-> ErrPaused ∈ err_chain e) /\
  (st = StatusFailed <-> ErrPaused ∉ err_chain e /\ ContextCanceled ∉ err_chain e /\ ctx = None) /\
  (st = StatusPaused \/ st = StatusFailed \/ st = StatusCancelled).
Proof.
  unfold status_of, errors_Is. destruct (decide (ErrPaused ∈ err_chain e)) as [H1|H1].
  { rewrite (bool_decide_true _ H1). intuition congruence. }
  rewrite (bool_decide_false _ H1). destruct (decide (ContextCanceled ∈ err_chain e)) as [H2|H2].
  { rewrite (bool_decide_true _ H2). simpl. intuition congruence. }
  rewrite (bool_decide_false _ H2). destruct ctx; simpl; intuition congruence.
Qed.
End reports.

(** C30: the conductor reports a run as it ended.  With the executor's result
    and error at hand: paused exactly when the error is the pause sentinel,
    cancelled when it is the cancellation of the context or the context has
    ended, failed for any other error; without an error a success when the
    executor finished, partial otherwise.  The steps of an executor result are
    the whole trajectory, the resumed steps first, so that a paused run can be
    resumed from its report; a pause never shows an error as output; and a run
    that ends without an error while delegations are pending says so. *)
Theorem Conductor_Run_reports `{Float64} {CM} `{!ContextManager CM} (cfg : ConductorConfig) host delegations bb
    message strategy tools fuel cm percents r err last
    (Hsha : forall s, String.length (w_sha256hex (host cm) s) = fullHashLen)
    (Hrun : Conductor_Run cfg host delegations bb message strategy tools fuel = Some (Ran cm percents r err last)) :
  exists result,
    Run (executor_config cfg tools) (executor_world cfg delegations (host cm)) fuel (new_executor cfg)
      = Some (result, err, last) /\
    (exists new, allSteps (run last) = cc_ResumeSteps cfg ++ new) /\
    xr_Steps r = match result with Some _ => allSteps (run last) | None => [] end /\
    match err with
    | Some e =>
        (xr_Status r = StatusPaused <-> ErrPaused ∈ err_chain e) /\
        (xr_Status r = StatusFailed <-> ErrPaused ∉ err_chain e /\ ContextCanceled ∉ err_chain e /\
           w_ctxErr (host cm) (trace last) = None) /\
        (xr_Status r = StatusPaused \/ xr_Status r = StatusFailed \/ xr_Status r = StatusCancelled) /\
        xr_Output r = match result with
          | Some er => if String.eqb (er_output er) "" && negb (bool_decide (xr_Status r = StatusPaused))
                       then err_text e else er_output er
          | None => if bool_decide (xr_Status r = StatusPaused) then "" else err_text e
          end
    | None =>
        (xr_Status r = StatusSuccess <-> exists er, result = Some er /\ er_finished er = true) /\
        (xr_Status r = StatusSuccess \/ xr_Status r = StatusPartial) /\
        exists note, xr_Output r = default "" (er_output <$> result) +s+ note /\
          (note = "" <-> match delegations with Some f => f (trace last) = [] | None => True end)
    end.
Proof.
  apply Conductor_Run_ran in Hrun as (_ & result & Hrun & ->). exists result. split; [done|].
  pose proof (Run_loop _ _ _ _ _ _ _ Hrun) as (s1 & Hl & Hlast).
  assert (Hs : allSteps (run last) = allSteps (run s1))
    by (rewrite Hlast; by destruct (finalize_same (executor_config cfg tools) s1) as (-> & _)).
  destruct (run_loop_ext _ (executor_world cfg delegations (host cm)) Hsha _ _ _ _ _ Hl) as [[(l & Hg & _) _ _] Hc].
  destruct (start_run_state (executor_config cfg tools) (executor_world cfg delegations (host cm)) (new_executor cfg))
    as (Ha & _). rewrite Ha in Hg. split; [exists l; by rewrite Hs|]. split.
  { simpl. destruct result as [er|]; [|done]. rewrite Hs. by apply Hc. }
  destruct err as [e|].
  - pose proof (status_err result e (w_ctxErr (host cm) (trace last))) as (Hp & Hf & Hall).
    split; [exact Hp|]. split; [exact Hf|]. split; [exact Hall|].
    cbn [xr_Output xr_Status report]. 
    destruct (status_of _ _ _), result as [er|]; simpl; try destruct (String.eqb_spec (er_output er) "") as [Ee|]; done.
  - simpl. split; [|split].
    + destruct result as [er|]; [destruct (er_finished er) eqn:Ef|]; (split; [by eauto|intros (er' & ? & ?); by simplify_eq; congruence]).
    + destruct result as [er|]; [destruct (er_finished er) eqn:Ef|]; auto.
    + destruct delegations as [f|]; [destruct (f (trace last)) eqn:Ef|];
        [exists ""|eexists|exists ""]; try (by rewrite sapp_nil_r; destruct result).
      by destruct result.
Qed.

(** ** With the window of package memory *)

Section window.
Context `{Float64} `{TokenCounter}.

#[export] Instance ContextWindow_manager : ContextManager ContextWindow := {|
  cm_SetTask := Some SetTask;
  cm_SetTaskWithBlocks := Some SetTaskWithBlocks;
  cm_SetPriorConversation := Some SetPriorConversation;
  cm_SeedSteps := Some SeedSteps;
  cm_SetPendingUserInterjection := Some SetPendingUserInterjection;
  cm_Compact := Compact;
  cm_type := "*memory.ContextWindow";
|}.

(** The calls on the context manager a run records, made on the window;
    [overhead]: the estimate of the tool schemas. *)
Definition replay_event (overhead : Z) (c : ContextWindow) (ev : event) : ContextWindow :=
  match ev with
  | CwAddStep s => AddStep s c
  | CwCompact => snd (Compact c)
  | CwSetToolOverhead => SetToolOverhead overhead c
  | CwConsumeInterjection => ConsumePendingUserInterjection c
  | _ => c
  end.
Definition replay (overhead : Z) (c : ContextWindow) (h : history) : ContextWindow :=
  fold_left (replay_event overhead) h c.

Lemma replay_reach overhead c h : wreach c -> wreach (replay overhead c h).
Proof.
  intros Hc. unfold replay. apply (fold_left_inv (fun c => wreach c)); [done|]. intros c' ev _ Hc'.
  destruct ev; simpl; try done; eapply W_step; try exact Hc'; [apply W_add|apply W_compact|apply W_overhead|apply W_pending].
Qed.

(** What compaction leaves of the fields a prompt is built from. *)
Lemma Compact_keeps c :
  let c' := snd (Compact c) in
  systemPrompt c' = systemPrompt c /\ taskContent c' = taskContent c /\ taskContentBlocks c' = taskContentBlocks c /\
  planContent c' = planContent c /\ priorConversation c' = priorConversation c /\ steps c' = steps c /\
  pendingUserInterjection c' = pendingUserInterjection c.
Proof. destruct (Compact_cases c) as [->|(? & ? & _ & ->)]; done. Qed.

(** A reachable window that holds the given task, history and nudge. *)
Record holding (task : string) (bs : list ContentBlock) (prior : list Message) (st : list Step) (nudge : string)
    (c : ContextWindow) : Prop := {
  ho_task : taskContent c = task;
  ho_blocks : taskContentBlocks c = bs;
  ho_prior : priorConversation c = prior;
  ho_steps : steps c = st;
  ho_pending : pendingUserInterjection c = nudge;
  ho_reach : wreach c;
}.

Lemma task_holding wc message bs :
  holding message bs [] [] "" (setTaskOnContextManager (NewContextWindow wc) message bs).
Proof.
  unfold setTaskOnContextManager. simpl. destruct bs as [|b bs]; split; try done;
    (eapply W_step; [apply W_new|]); [apply (W_task message [])|apply W_task].
Qed.

Lemma prior_holding task bs st nudge l c :
  answered [] l = true -> holding task bs [] st nudge c -> holding task bs l st nudge (SetPriorConversation l c).
Proof. intros Hl []. split; try done. eapply W_step; [done|by apply W_prior]. Qed.
Lemma seed_holding task bs prior nudge st l c :
  holding task bs prior st nudge c -> holding task bs prior l nudge (SeedSteps l c).
Proof. intros []. split; try done. eapply W_step; [done|apply W_seed]. Qed.
Lemma nudge_holding task bs prior st old nudge c :
  holding task bs prior st old c -> holding task bs prior st nudge (SetPendingUserInterjection nudge c).
Proof. intros []. split; try done. eapply W_step; [done|apply W_pending]. Qed.
Lemma compact_holding task bs prior st nudge c :
  holding task bs prior st nudge c -> holding task bs prior st nudge (snd (Compact c)).
Proof.
  intros []. pose proof (Compact_keeps c) as (_ & Ht & Hb & _ & Hp & Hs & Hn). simpl in *.
  split; try congruence. eapply W_step; [done|apply W_compact].
Qed.

Variable cfg : ConductorConfig (CM := ContextWindow).

Definition prepared (message : string) (c : ContextWindow) : Prop :=
  holding message (cc_ContentBlocks cfg) (cc_ConversationHistory cfg) (cc_ResumeSteps cfg)
    (cc_PendingUserInterjection cfg) c.

Hypothesis answered_history : answered [] (cc_ConversationHistory cfg) = true.

(** Every window is prepared, for a factory of empty ones. *)
Lemma prepare_window factory message strategy :
  cc_ContextFactory cfg = Some factory -> is_Some (cc_SystemPrompt cfg) ->
  (forall p meta st, exists wc, factory p meta st = NewContextWindow wc) ->
  exists c percents, prepare cfg message strategy = Ok (c, percents) /\ prepared message c.
Proof.
  intros Hf [sp Hsp] Hnew. unfold prepare. rewrite Hf, Hsp.
  match goal with |- context [factory ?p ?m ?s] => destruct (Hnew p m s) as [wc ->] end. cbv zeta.
  pose proof (task_holding wc message (cc_ContentBlocks cfg)) as H1.
  set (c1 := setTaskOnContextManager _ _ _) in *. clearbody c1.
  set (c2 := if bool_decide (cc_ConversationHistory cfg = []) then c1 else _).
  assert (H2 : holding message (cc_ContentBlocks cfg) (cc_ConversationHistory cfg) [] "" c2).
  { unfold c2. case_bool_decide as E; [by rewrite E|]. by apply prior_holding. }
  clearbody c2.
  assert (H3 : exists c3, (if bool_decide (cc_ResumeSteps cfg = []) then Some c2
      else match cm_SeedSteps with Some seed => Some (seed (cc_ResumeSteps cfg) c2) | None => None end) = Some c3 /\
    holding message (cc_ContentBlocks cfg) (cc_ConversationHistory cfg) (cc_ResumeSteps cfg) "" c3).
  { case_bool_decide as E; [exists c2; by rewrite E|]. eexists. split; [done|]. by eapply seed_holding. }
  destruct H3 as (c3 & -> & H3).
  set (c4 := if String.eqb (cc_PendingUserInterjection cfg) "" then c3 else _).
  assert (H4 : prepared message c4).
  { unfold c4, prepared. destruct (String.eqb_spec (cc_PendingUserInterjection cfg) "") as [E|E]; [by rewrite E|].
    by eapply nudge_holding. }
  clearbody c4. destruct (cc_CompactOnStart cfg); [|by eauto].
  apply compact_holding in H4. simpl in *. destruct (Compact c4) as [pc c5]. by eauto.
Qed.
End window.

(** A run over the memory package's window starts from what it was
    configured with, and every prompt on the way is well-formed.  With a factory
    of new windows, a system prompt and a well-formed prior conversation,
    preparation succeeds; the first prompt holds the prior conversation, then
    the task - as content blocks when there are any - and ends with the user's
    nudge, whether or not the seeded steps were compacted first; and after any
    sequence of the calls the run makes on the window its prompt is still
    answered call by call. *)
Theorem Conductor_prompts `{Float64} `{TokenCounter} quote (cfg : ConductorConfig (CM := ContextWindow)) factory
    message strategy overhead :
  cc_ContextFactory cfg = Some factory -> is_Some (cc_SystemPrompt cfg) ->
  (forall p meta st, exists wc, factory p meta st = NewContextWindow wc) ->
  answered [] (cc_ConversationHistory cfg) = true ->
  exists c percents, prepare cfg message strategy = Ok (c, percents) /\
    steps c = cc_ResumeSteps cfg /\
    (exists before middle,
      BuildPrompt quote c = before ++ cc_ConversationHistory cfg ++
        (if bool_decide (cc_ContentBlocks cfg = [])
         then (if String.eqb message "" then [] else [user_msg message])
         else [mkMessage "user" message (cc_ContentBlocks cfg) "" [] "" []]) ++ middle ++
        (if HasVisibleContent (cc_PendingUserInterjection cfg)
         then [user_msg (trim_invisible (cc_PendingUserInterjection cfg))] else [])) /\
    (forall h, answered [] (BuildPrompt quote (replay overhead c h)) = true).
Proof.
  intros Hf Hsp Hnew Hans. destruct (prepare_window cfg Hans factory message strategy Hf Hsp Hnew)
    as (c & percents & Hp & [Ht Hb Hpr Hs Hn Hr]).
  exists c, percents. split; [done|]. split; [done|]. split.
  - unfold BuildPrompt, buildNudgeMsg. rewrite Ht, Hb, Hpr, Hn. eexists _, (_ ++ _). f_equal. f_equal.
    rewrite <- app_assoc. by destruct (cc_ContentBlocks cfg).
  - intros h. by apply wreach_answered, replay_reach.
Qed.

(** A resume that cannot be seeded never starts: without the capability
    every run with resumed steps returns an error, whatever host, tools and
    fuel. *)
Lemma resume_needs_seeding `{Float64} {CM} `{!ContextManager CM} (cfg : ConductorConfig) host delegations bb
    message strategy tools fuel :
  cm_SeedSteps = None -> cc_ResumeSteps cfg <> [] ->
  exists e, Conductor_Run cfg host delegations bb message strategy tools fuel = Some (NotStarted e).
Proof.
  intros Hs Hr. unfold Conductor_Run, prepare. destruct (cc_ContextFactory cfg); [|by eexists].
  destruct (cc_SystemPrompt cfg); [|by eexists]. rewrite (bool_decide_false _ Hr), Hs. by eexists.
Qed.

(** ** Examples *)

Section examples.
Local Existing Instance Float64_Q.
#[local] Instance simple_counter : TokenCounter := NewSimpleTokenCounter.

Definition demo_factory (sp : string) (meta : ModelMetadata) (_ : string) : ContextWindow :=
  NewContextWindow (mkWindowConfig sp (mm_ContextWindow meta) (mm_OutputLimit meta) NewContextTokenTracker
    (mkThresholds 0 0 0) (Some (NewSlidingWindowStrategy 2 4)) 0 true DefaultToolOutputPruning).

(** A run resumed with a nudge and compacted first. *)
Definition demo_conductor : ConductorConfig (CM := ContextWindow) := {|
  cc_Model := "m"; cc_Resolve := None; cc_ContextFactory := Some demo_factory;
  cc_SystemPrompt := Some (fun _ _ => "You are careful."); cc_MaxSteps := 5; cc_HardCapTokens := 0;
  cc_MaxFillFraction := (2 # 5)%Q; cc_CircuitBreaker := DefaultCircuitBreakerConfig;
  cc_ToolCache := Some (NewToolResultCache 5); cc_PerToolTruncation := None; cc_ReasoningEffort := "";
  cc_PreWarningPercent := 0; cc_Streaming := false; cc_VerifyOnEdit := None; cc_VerifyOnEditMaxOutputChars := 0;
  cc_NonCacheableTools := []; cc_StopTools := []; cc_ConversationHistory := [user_msg "before"];
  cc_ResumeSteps := [old_step]; cc_ContentBlocks := []; cc_PendingUserInterjection := "go on";
  cc_PauseChecker := None; cc_ToolCallTimeout := 0; cc_ToolCallTimeoutExemptTools := None;
  cc_UserMessageSource := None; cc_CompactOnStart := true |}.

Local Notation demo_report delegations :=
  (Conductor_Run demo_conductor (fun _ => RunFacts.demo_world) delegations (fun _ => NewMapBlackboard 0) "task" ""
    ["read_file"] 10).

(** What a report says. *)
Definition reports {CM} (out : option (conductor_out (CM := CM)))
    (P : ExecutionResult -> option gerror -> xstate -> Prop) : Prop :=
  match out with Some (Ran _ _ r err last) => P r err last | _ => False end.

Example demo_succeeds : reports (demo_report None) (fun r err last =>
  xr_Output r = "done" /\ xr_Status r = StatusSuccess /\ err = None /\ length (xr_Steps r) = 5%nat).
Proof. vm_compute. repeat split. Qed.

Lemma reports_defined {CM} (out : option (conductor_out (CM := CM))) : match out with Some (Ran _ _ _ _ _) => true | _ => false end = true ->
  exists cm percents r err last, out = Some (Ran cm percents r err last).
Proof. destruct out as [[|cm percents r err last]|]; [done| |done]. by exists cm, percents, r, err, last. Qed.

Lemma report_defined : exists cm percents r err last, demo_report None = Some (Ran cm percents r err last).
Proof. apply reports_defined. vm_compute. reflexivity. Qed.

Lemma Conductor_Run_reports_witness : reports (demo_report None) (fun r err last =>
  (exists new, allSteps (run last) = [old_step] ++ new) /\
  exists result, xr_Steps r = match result : option ExecutorResult with Some _ => allSteps (run last) | None => [] end).
Proof.
  destruct report_defined as (cm & percents & r & err & last & E). rewrite E. cbn [reports].
  destruct (Conductor_Run_reports demo_conductor (fun _ => RunFacts.demo_world) None (fun _ => NewMapBlackboard 0) "task" ""
    ["read_file"] 10 cm percents r err last toy_hash_length E) as (result & _ & Hnew & Hs & _).
  split; [exact Hnew|exact (ex_intro _ result Hs)].
Defined.

(** Pending delegations are named in the output; the guard turns the finish
    call down. *)
Example pending_is_noted :
  match demo_report (Some (fun _ => ["d1"; "d2"])) with
  | Some (Ran _ _ r None _) => contains "[Note: 2 async delegation(s) still pending: d1, d2]" (xr_Output r) = true
  | Some (Ran _ _ r (Some _) last) => xr_Status r = StatusFailed /\ length (allSteps (run last)) = 5%nat
  | _ => False
  end.
Proof. vm_compute. split; reflexivity. Qed.

Lemma Conductor_prompts_witness :
  match prepare demo_conductor "task" "" with
  | Ok (c, _) => BuildPrompt WindowFacts.demo_q c =
      [system_msg "You are careful."; user_msg "before"; user_msg "task";
       mkMessage "assistant" "" [] "" [RunFacts.read_call "o"] "" []; tool_msg "old" "o"; user_msg "go on"]
  | Err _ => False
  end /\
  exists c percents, prepare demo_conductor "task" "" = Ok (c, percents) /\ steps c = [old_step].
Proof.
  split; [vm_compute; reflexivity|].
  destruct (Conductor_prompts WindowFacts.demo_q demo_conductor demo_factory "task" "" 0 eq_refl (mk_is_Some _ _ eq_refl)
    (fun p meta st => ex_intro _ _ eq_refl) eq_refl) as (c & percents & Hp & Hs & _).
  exists c, percents. exact (conj Hp Hs).
Defined.

End examples.
