(* ===== verification/Reasoning.v ===== *)
(** * Reasoning efforts: [src/llm/reasoning.go], [src/llm/reasoning_openai.go]

    Which efforts a model offers, by family and by version, and the one a call
    asks for.  Theorem: what [ReasoningForCall] sends is an effort of the model,
    never a disabling one when the cheapest effort is wanted, and nothing
    exactly when the code says so.

    Parameters: [strings.ToLower] and the catalog of models. *)

From Stdlib Require Import ZArith Lia Ascii.
From stdpp Require Import base gmap strings list.
From S2P Require Import Prelude GoStr Json AgentTypes ToolSyntax Router ModelTable ModelRegistry.
Open Scope sp4rk_scope.
Open Scope Z_scope.

(** ** Options of families *)

(** The options and the preferred one. *)
Definition FamilyReasoningOptions (family : string) : option (list string * string) :=
  if String.eqb family "anthropic" then Some (["On"; "Off"], "On")
  else if String.eqb family "openai_flagship" || String.eqb family "openai_standard" then Some (["minimal"; "low"; "medium"; "high"], "high")
  else if String.eqb family "openai_codex" then Some (["minimal"; "low"; "medium"; "high"; "max"], "max")
  else if String.eqb family "google" then Some (["MINIMAL"; "LOW"; "MEDIUM"; "HIGH"], "HIGH")
  else if String.eqb family "deepseek" then Some (["Off"; "High"; "Max"], "Max")
  else if String.eqb family "qwen" then Some (["xhigh"; "medium"; "low"; "Off"], "xhigh")
  else if String.eqb family "glm" then Some (["On"; "Off"], "On")
  else None.

(** ** Versions *)

(** [strconv.Atoi] of digits; [None]: out of range. *)
Definition Atoi (digits : string) : option Z :=
  let v := ToolSyntax.digits_value digits 0 in if v <? 2 ^ 63 then Some v else None.

(** [^prefix(\d+)(?:\.(\d+))?]: the digits of major and minor version. *)
Definition version_of (prefix bare : string) : option (string * string) :=
  if has_prefix bare prefix then
    let rest := str_drop (String.length prefix) bare in
    match take_while is_digit rest with
    | "" => None
    | major => Some (major, match skip_while is_digit rest with
                            | String c r => if Ascii.eqb c "." then take_while is_digit r else ""
                            | "" => ""
                            end)
    end
  else None.
Definition version_at_least (prefix bare : string) (major minor : Z) : bool :=
  match version_of prefix bare with
  | None => false
  | Some (m, n) =>
      match Atoi m with
      | None => false
      | Some v =>
          let k := if String.eqb n "" then 0 else default 0 (Atoi n) in
          (major <? v) || ((v =? major) && (minor <=? k))
      end
  end.

Section models.
Variable to_lower : string -> string.
Variable builtIn : gmap string ModelMetadata.

Definition bare_name (model : string) : string := to_lower (trim_space (BareModel model)).
Definition IsGLM52OrLater (model : string) : bool := version_at_least "glm-" (bare_name model) 5 2.
Definition glmAlwaysThinking (model : string) : bool := version_at_least "glm-" (bare_name model) 5 3.
Definition qwen38ArchitectureAliases : list string :=
  map (normalizeModelID to_lower) ["prism-ml/ternary-bonsai-2-27b"; "bonsai 2 27b"].
Definition IsQwen38OrLater (model : string) : bool :=
  existsb (String.eqb (normalizeModelID to_lower model)) qwen38ArchitectureAliases ||
  version_at_least "qwen" (bare_name model) 3 8.

(** ** Options of models *)

Definition variant (bare base : string) : bool := String.eqb bare base || has_prefix bare (base +s+ "-").
Definition any_variant (bare : string) (bases : list string) : bool := existsb (variant bare) bases.

Definition openAIModelReasoningOptions (model : string) : option (list string * string) :=
  let bare := bare_name model in
  if any_variant bare ["gpt-5-pro"; "o1-pro"] then Some (["high"], "high")
  else if contains bare "codex" then
    if any_variant bare ["gpt-5.3-codex"; "gpt-5.2-codex"; "gpt-5.1-codex-max"] then Some (["low"; "medium"; "high"; "xhigh"], "xhigh")
    else Some (["low"; "medium"; "high"], "high")
  else if any_variant bare ["gpt-5.2-pro"; "gpt-5.4-pro"; "gpt-5.5-pro"] then Some (["medium"; "high"; "xhigh"], "xhigh")
  else if any_variant bare ["gpt-5.1"] then Some (["none"; "low"; "medium"; "high"], "high")
  else if any_variant bare ["gpt-5.2"; "gpt-5.4"; "gpt-5.5"] then Some (["none"; "low"; "medium"; "high"; "xhigh"], "xhigh")
  else if any_variant bare ["gpt-5.6"] then Some (["none"; "low"; "medium"; "high"; "xhigh"; "max"], "max")
  else if any_variant bare ["gpt-6"; "gpt-6.1"] then Some (["low"; "medium"; "high"; "xhigh"; "max"], "max")
  else if any_variant bare ["o1"; "o3"; "o4"] then Some (["low"; "medium"; "high"], "high")
  else None.

Definition ModelReasoningOptions (family model : string) : option (list string * string) :=
  match (if has_prefix family "openai_" then openAIModelReasoningOptions model else None) with
  | Some o => Some o
  | None =>
      if String.eqb family "glm" && IsGLM52OrLater model then
        if glmAlwaysThinking model then Some (["max"; "high"; "low"], "max") else Some (["none"; "max"; "high"], "max")
      else if String.eqb family "qwen" && negb (IsQwen38OrLater model) then Some (["On"; "Off"], "On")
      else FamilyReasoningOptions family
  end.

(** ** The effort of a call *)

Definition ReasoningTierOff : string := "off".
Definition ReasoningTierMinimal : string := "minimal".
Definition reasoningEffortRank : gmap string Z :=
  list_to_map [("minimal", 0); ("on", 0); ("low", 1); ("medium", 2); ("high", 3); ("xhigh", 4); ("max", 5)].
Definition reasoningUnknownEffortRank : Z := 2 ^ 30.

(** [strings.EqualFold] with "off" or "none": no letter of these folds to one
    outside ASCII. *)
Definition disables (opt : string) : bool := String.eqb (fold_ascii opt) "off" || String.eqb (fold_ascii opt) "none".
Definition reasoningDisableSpelling (options : list string) : string := default "" (head (List.filter disables options)).
Definition effort_rank (opt : string) : Z := default reasoningUnknownEffortRank (reasoningEffortRank !! to_lower opt).
Definition minimalReasoningEffort (options : list string) : string :=
  fst (fold_left (fun '(best, bestRank) opt =>
    if disables opt then (best, bestRank)
    else if effort_rank opt <? bestRank then (opt, effort_rank opt) else (best, bestRank))
  options ("", reasoningUnknownEffortRank + 1)).

Definition kimiMinimalReasoningEffort : string := "low".

Definition ReasoningForCall (family model tier : string) : string :=
  if negb (String.eqb tier ReasoningTierOff || String.eqb tier ReasoningTierMinimal) then ""
  else
  let '(meta, known) := ResolveBuiltInModel to_lower builtIn model in
  if known && match Capabilities meta with Some c => negb (Reasoning c) | None => false end then ""
  else match ModelReasoningOptions family model with
  | None => if String.eqb family "kimi" then kimiMinimalReasoningEffort else ""
  | Some (options, _) =>
      let off := if String.eqb tier ReasoningTierOff then reasoningDisableSpelling options else "" in
      if negb (String.eqb off "") then off else minimalReasoningEffort options
  end.
End models.

(** ** What a call asks for *)

Section calls.
Variable to_lower : string -> string.
Variable builtIn : gmap string ModelMetadata.
Notation rank := (effort_rank to_lower).

Lemma rank_known opt : rank opt <= reasoningUnknownEffortRank.
Proof.
  unfold effort_rank. destruct (reasoningEffortRank !! to_lower opt) as [r|] eqn:E; [|done]. cbn [default].
  apply elem_of_list_to_map_2 in E. rewrite !elem_of_cons in E.
  repeat (destruct E as [[= _ ->]|E]; [by vm_compute|]). by apply elem_of_nil in E.
Qed.

(** The cheapest effort that does not disable, the first of equal ones. *)
Lemma minimal_spec options :
  let e := minimalReasoningEffort to_lower options in
  ((exists o, o ∈ options /\ disables o = false) -> e ∈ options /\ disables e = false) /\
  forall o, o ∈ options -> disables o = false -> rank e <= rank o.
Proof.
  cbv zeta. unfold minimalReasoningEffort.
  set (step := fun '(best, bestRank) opt => if disables opt then (best, bestRank)
    else if rank opt <? bestRank then (opt, rank opt) else (best, bestRank)).
  assert (H : let '(best, bestRank) := fold_left step options ("", reasoningUnknownEffortRank + 1) in
    (forall o, o ∈ options -> disables o = false -> bestRank <= rank o) /\
    ((bestRank = reasoningUnknownEffortRank + 1 /\ forall o, o ∈ options -> disables o = true) \/
     (best ∈ options /\ disables best = false /\ rank best = bestRank))).
  { induction options as [|o options IH] using rev_ind.
    - cbn [fold_left]. split; [by intros o H%elem_of_nil|]. left. split; [done|]. by intros o H%elem_of_nil.
    - rewrite fold_left_app. destruct (fold_left step options _) as [best bestRank]. destruct IH as [Hle Hb]. cbn [fold_left step].
      destruct (disables o) eqn:Ed; [|destruct (Z.ltb_spec (rank o) bestRank) as [Hlt|Hge]].
      + split; [intros x [H| ->%list_elem_of_singleton]%elem_of_app; [by apply Hle|congruence]|].
        destruct Hb as [[E Hd]|(Hin & Hd & E)]; [left|right; split_and!; [apply elem_of_app; by left|done..]].
        split; [done|]. intros x [H| ->%list_elem_of_singleton]%elem_of_app; [by apply Hd|done].
      + split; [intros x [H| ->%list_elem_of_singleton]%elem_of_app Hx; [specialize (Hle x H Hx); lia|lia]|].
        right. split_and!; [apply elem_of_app; right; by left|done..].
      + pose proof (rank_known o) as Hk. split; [intros x [H| ->%list_elem_of_singleton]%elem_of_app Hx; [by apply Hle|lia]|].
        destruct Hb as [[E _]|(Hin & Hd & E)]; [lia|right; split_and!; [apply elem_of_app; by left|done..]]. }
  destruct (fold_left step options _) as [best bestRank]. cbn [fst]. destruct H as [Hle [[E Hd]|(Hin & Hd & E)]].
  - split.
    + intros (o & Ho & Hx). rewrite (Hd o Ho) in Hx. done.
    + intros o Ho Hx. rewrite (Hd o Ho) in Hx. done.
  - split; [done|]. intros o Ho Hx. rewrite E. by apply Hle.
Qed.

Lemma options_preferred family model options preferred :
  ModelReasoningOptions to_lower family model = Some (options, preferred) ->
  preferred ∈ options /\ disables preferred = false.
Proof.
  unfold ModelReasoningOptions, openAIModelReasoningOptions, FamilyReasoningOptions.
  repeat match goal with |- context [if ?c then _ else _] => destruct c end; intros [= <- <-].
  all: split; [apply (bool_decide_unpack _); vm_compute; reflexivity|vm_compute; reflexivity].
Qed.

Lemma disable_spelling options :
  let off := reasoningDisableSpelling options in
  if existsb disables options then off ∈ options /\ disables off = true else off = "".
Proof.
  cbv zeta. unfold reasoningDisableSpelling. induction options as [|o options IH]; [done|]. cbn [existsb List.filter].
  destruct (disables o) eqn:E; [split; [by left|done]|]. cbn [orb]. destruct (existsb disables options); [|done].
  destruct IH as [Hin Hd]. split; [by right|done].
Qed.

(** Calls for which no effort is sent, whatever the options. *)
Definition silent (model tier : string) : bool :=
  negb (String.eqb tier ReasoningTierOff || String.eqb tier ReasoningTierMinimal) ||
  (let '(meta, known) := ResolveBuiltInModel to_lower builtIn model in
   known && match Capabilities meta with Some c => negb (Reasoning c) | None => false end).

(** What [ReasoningForCall] puts on the wire.  Nothing for an unknown tier
    and for a model the catalog declares without reasoning.  Else, for a model
    with options, one of them: the tier off gives a disabling option exactly
    when there is one; in all other cases it is an effort none of the model's
    is cheaper than.  Without options, nothing but the floor of the kimi family. *)
Theorem ReasoningForCall_contract family model tier :
  let e := ReasoningForCall to_lower builtIn family model tier in
  if silent model tier then e = ""
  else match ModelReasoningOptions to_lower family model with
  | None => e = if String.eqb family "kimi" then "low" else ""
  | Some (options, _) =>
      e ∈ options /\
      disables e = (String.eqb tier "off" && existsb disables options) /\
      (disables e = false -> forall o, o ∈ options -> disables o = false -> rank e <= rank o)
  end.
Proof.
  cbv zeta. unfold ReasoningForCall, silent. destruct (negb _); [done|]. cbn [orb].
  destruct (ResolveBuiltInModel to_lower builtIn model) as [meta known]. destruct (known && _); [done|].
  destruct (ModelReasoningOptions to_lower family model) as [[options preferred]|] eqn:Eo; [|done].
  pose proof (options_preferred _ _ _ _ Eo) as Hp. destruct (minimal_spec options) as [Hin Hle]. cbv zeta in Hin, Hle.
  destruct Hin as [Hin Hd]; [by exists preferred|]. pose proof (disable_spelling options) as Hoff. cbv zeta in Hoff.
  unfold ReasoningTierOff. destruct (String.eqb tier "off"); cbn [andb]; [|by split_and!].
  destruct (existsb disables options); [|rewrite Hoff; by split_and!].
  destruct Hoff as [Ho1 Ho2]. destruct (String.eqb_spec (reasoningDisableSpelling options) "") as [E|_]; cbn [negb].
  - rewrite E in Ho2. done.
  - split_and!; [done..|congruence].
Qed.
End calls.

(** ** Examples *)

Section examples.
Notation call := (ReasoningForCall fold_ascii makeBuiltInRegistry).

(** The spellings of the tiers differ by family and version. *)
Example efforts_off :
  map (fun '(family, model) => call family model "off")
    [("glm", "zai/GLM-5.2"); ("glm", "glm-5.3-flash"); ("glm", "glm-4.7"); ("qwen", "qwen3.8-27b"); ("qwen", "qwen3-coder-480b");
     ("qwen", "embedded/Bonsai 2 27B"); ("openai_flagship", "gpt-5.2-pro"); ("openai_flagship", "gpt-5.4"); ("google", "gemini-2.5-pro"); ("kimi", "k3")]
  = ["none"; "low"; "Off"; "Off"; ""; "Off"; "medium"; "none"; "MINIMAL"; "low"].
Proof. vm_compute. reflexivity. Qed.
Example efforts_minimal :
  map (fun '(family, model) => call family model "minimal")
    [("glm", "glm-5.2"); ("glm", "glm-4.7"); ("deepseek", "deepseek-v4-pro"); ("openai_codex", "gpt-5.3-codex"); ("mistral", "devstral")]
  = ["high"; "On"; "High"; "low"; ""].
Proof. vm_compute. reflexivity. Qed.

(** A version is read as a number: a dated name counts as a late one. *)
Example dated_name_is_late : IsGLM52OrLater fold_ascii "glm-20250101" = true /\ glmAlwaysThinking fold_ascii "glm-20250101" = true.
Proof. vm_compute. split; reflexivity. Qed.
End examples.
