(* ===== verification/OpenAI.v ===== *)
(** * Chat Completions: [src/llm/provider_openai.go], [src/llm/provider_helpers.go]

    The provider for OpenAI and what speaks its protocol: the request it builds
    (system messages first, reasoning controls in the spelling of the family),
    the answer it reads, and the answer it assembles from a stream.

    Parameters: what the client library delivers (answers, chunks, errors),
    [strings.ToLower], the catalog, the text of floats in schemas, and the sink
    of a stream as a function of what it got so far.  Logging is left out. *)

From Stdlib Require Import ZArith Lia Ascii.
From stdpp Require Import base gmap strings list sorting.
From S2P Require Import Prelude GoStr GoFloat AgentTypes Tokens Nudges Json AnyJson ToolSyntax Router ModelTable ModelRegistry Sanitize Planner Reasoning.
Open Scope sp4rk_scope.
Open Scope Z_scope.

(** ** Helpers of the providers *)

Definition openAIStopReasonMap : gmap string string :=
  list_to_map [("stop", "end_turn"); ("tool_calls", "tool_use"); ("length", "max_tokens")].
Definition MapStopReason (reason : string) (mapping : gmap string string) : string :=
  if String.eqb reason "" then "end_turn" else default reason (mapping !! reason).

Definition is_system (m : Message) : bool := String.eqb (m_role m) "system".
Definition ExtractSystemPrompt (messages : list Message) : string * list Message :=
  fold_left (fun '(systemPrompt, filtered) msg =>
    if is_system msg
    then ((if String.eqb systemPrompt "" then systemPrompt else systemPrompt +s+ nl) +s+ m_content msg, filtered)
    else (systemPrompt, filtered ++ [msg])) messages ("", []).
Definition ExtractSystemPromptParts (messages : list Message) : list string * list Message :=
  fold_left (fun '(parts, filtered) msg =>
    if is_system msg
    then ((if String.eqb (m_content msg) "" then parts else parts ++ [m_content msg]), filtered)
    else (parts, filtered ++ [msg])) messages ([], []).

(** [extractReasoningContent] of the JSON of a message or delta. *)
Definition reasoning_field : list (string * decoder string) := [("reasoning_content", field (fun s => s) (fun v _ => v) dec_string)].
Definition extractReasoningContent (rawJSON : string) : string :=
  if String.eqb rawJSON "" then "" else default "" (dec_struct reasoning_field "" rawJSON).

(** ** Requests *)

(** A value among the extra fields of a request. *)
Inductive scalar := SBool (b : bool) | SText (s : string).
Inductive extra {Fl : Type} := XScalar (v : scalar) | XObject (m : gmap string scalar) | XInt (z : Z) | XFloat (f : Fl).
Arguments extra : clear implicits.

Inductive content_part := TextPart (text : string) | ImagePart (url : string).
(** [reasoning]: the extra field [reasoning_content] of an assistant message. *)
Inductive wire_message :=
| WSystem (content : string)
| WUser (content : string)
| WUserParts (parts : list content_part)
| WAssistant (content : string) (calls : list AgentTypes.ToolCall) (reasoning : option string)
| WTool (content toolCallID : string).

Section requests.
Context `{Float64}.
Variable to_lower : string -> string.
Variable builtIn : gmap string ModelMetadata.
Variable float_text : string -> string.

Record chat_tool := mkTool { ct_name : string; ct_description : string; ct_parameters : option schema }.
Record chat_params := mkParams {
  cp_Model : string;
  cp_Messages : list wire_message;
  cp_MaxCompletionTokens : option Z;
  cp_Temperature : option F;
  cp_TopP : option F;
  cp_PresencePenalty : option F;
  cp_ReasoningEffort : string;
  cp_extra : gmap string (extra F);
  cp_Tools : list chat_tool;
  cp_IncludeUsage : bool;
}.

(** What the provider is asked: the router's request and what it does not touch. *)
Record completion_request := mkCompletion {
  cr_request : ChatRequest;
  cr_MaxTokens : Z;
  cr_Tools : list ToolDefinition;
  cr_ReasoningEffort : string;
}.
Record OpenAIProvider := mkProvider {
  op_name : string;
  op_baseURL : string;
  op_reasoningWire : string;
  op_omitReasoningHistory : bool;
}.
Definition ReasoningWireChatTemplateKwargs : string := "chat_template_kwargs".

(** *** Messages *)

Definition user_part (blk : ContentBlock) : option content_part :=
  if String.eqb (cb_type blk) "text" then Some (TextPart (cb_text blk))
  else if String.eqb (cb_type blk) "image" then Some (ImagePart ("data:" +s+ cb_media_type blk +s+ ";base64," +s+ cb_image_b64 blk))
  else None.
Definition convertRequestMessage (p : OpenAIProvider) (msg : Message) : wire_message :=
  let content := if String.eqb (m_role msg) "tool" && String.eqb (m_content msg) "" then "(no output)" else m_content msg in
  if String.eqb (m_role msg) "system" then WSystem content
  else if String.eqb (m_role msg) "user" then
    match NormalizeContentBlocks msg with
    | [] => WUser content
    | blocks => WUserParts (omap user_part blocks)
    end
  else if String.eqb (m_role msg) "assistant" then
    WAssistant content (m_tool_calls msg) (if op_omitReasoningHistory p then None else Some (m_reasoning msg))
  else if String.eqb (m_role msg) "tool" then WTool content (m_tool_call_id msg)
  else WUser content.

(** *** Reasoning controls *)

Definition set_extra (m : gmap string (extra F)) (params : chat_params) : chat_params :=
  mkParams (cp_Model params) (cp_Messages params) (cp_MaxCompletionTokens params) (cp_Temperature params) (cp_TopP params)
    (cp_PresencePenalty params) (cp_ReasoningEffort params) m (cp_Tools params) (cp_IncludeUsage params).
Definition set_effort (effort : string) (params : chat_params) : chat_params :=
  mkParams (cp_Model params) (cp_Messages params) (cp_MaxCompletionTokens params) (cp_Temperature params) (cp_TopP params)
    (cp_PresencePenalty params) effort (cp_extra params) (cp_Tools params) (cp_IncludeUsage params).
Definition mergeExtraFields (more : gmap string (extra F)) (params : chat_params) : chat_params :=
  set_extra (more ∪ cp_extra params) params.

(** [strings.EqualFold] with one of the spellings, none of whose letters folds
    to one outside ASCII. *)
Definition equal_fold (s spelling : string) : bool := String.eqb (fold_ascii s) spelling.
Definition bool_field (b : bool) : extra F := XScalar (SBool b).
Definition text_field (s : string) : extra F := XScalar (SText s).
Definition thinking_type (t : string) : extra F := XObject {[ "type" := SText t ]}.

Definition legacy_on (effort : string) : bool :=
  String.eqb effort "On" || String.eqb effort "xhigh" || String.eqb effort "medium" || String.eqb effort "low".
Definition applyQwenReasoningChatTemplateKwargs (model effort : string) (params : chat_params) : chat_params :=
  let kwargs : gmap string scalar :=
    if equal_fold effort "off" then {[ "enable_thinking" := SBool false ]}
    else if negb (IsQwen38OrLater to_lower model) then {[ "enable_thinking" := SBool (legacy_on effort) ]}
    else if String.eqb effort "On" || String.eqb effort "xhigh" then {[ "enable_thinking" := SBool true ]}
    else if String.eqb effort "medium" || String.eqb effort "low"
    then {[ "enable_thinking" := SBool true; "reasoning_effort" := SText effort ]}
    else {[ "enable_thinking" := SBool false ]} in
  mergeExtraFields {[ "chat_template_kwargs" := XObject kwargs ]} params.
Definition applyQwenReasoning (model effort wire : string) (params : chat_params) : chat_params :=
  if String.eqb wire ReasoningWireChatTemplateKwargs then applyQwenReasoningChatTemplateKwargs model effort params
  else if equal_fold effort "off" then set_extra {[ "enable_thinking" := bool_field false ]} params
  else if negb (IsQwen38OrLater to_lower model) then set_extra {[ "enable_thinking" := bool_field (legacy_on effort) ]} params
  else if String.eqb effort "On" || String.eqb effort "xhigh" then set_extra {[ "enable_thinking" := bool_field true ]} params
  else if String.eqb effort "medium" || String.eqb effort "low" then set_extra {[ "reasoning_effort" := text_field effort ]} params
  else set_extra {[ "enable_thinking" := bool_field false ]} params.

Definition thinking_disabled (params : chat_params) : chat_params := set_extra {[ "thinking" := thinking_type "disabled" ]} params.
Definition thinking_at (effort : string) (params : chat_params) : chat_params :=
  set_extra {[ "thinking" := thinking_type "enabled"; "reasoning_effort" := text_field effort ]} params.
Definition applyDeepSeekReasoning (effort : string) (params : chat_params) : chat_params :=
  if equal_fold effort "off" || equal_fold effort "none" then thinking_disabled params
  else if equal_fold effort "low" || equal_fold effort "minimal" then thinking_at "low" params
  else if equal_fold effort "medium" || equal_fold effort "xhigh" || equal_fold effort "high" then thinking_at "high" params
  else if equal_fold effort "max" then thinking_at "max" params
  else thinking_disabled params.

Definition applyGLMReasoning (model effort : string) (params : chat_params) : chat_params :=
  if IsGLM52OrLater to_lower model then
    let '(options, preferred) := default ([], "") (ModelReasoningOptions to_lower "glm" model) in
    let native := reasoningDisableSpelling options in
    let native := if String.eqb native "" then minimalReasoningEffort to_lower options else native in
    let native := if equal_fold effort "on" then preferred
                  else default native (head (List.filter (fun option => equal_fold effort (fold_ascii option)) options)) in
    if equal_fold native "none" || equal_fold native "off" then thinking_disabled params else thinking_at native params
  else set_extra {[ "thinking" := thinking_type (if equal_fold effort "on" then "enabled" else "disabled") ]} params.

(** [(^|[-_.])k3([-_.]|$)]; [start]: at the start or behind a separator. *)
Definition is_boundary (c : ascii) : bool := Ascii.eqb c "-" || Ascii.eqb c "_" || Ascii.eqb c ".".
Fixpoint k3_series (start : bool) (s : string) : bool :=
  match s with
  | "" => false
  | String c r =>
      (start && has_prefix s "k3" && match str_drop 2 s with "" => true | String d _ => is_boundary d end) ||
      k3_series (is_boundary c) r
  end.
Definition applyKimiReasoning (model effort : string) (params : chat_params) : chat_params :=
  if negb (k3_series true (bare_name to_lower model)) then params
  else if String.eqb effort "low" || String.eqb effort "high" || String.eqb effort "max" then set_effort effort params
  else params.

Definition apply_reasoning (p : OpenAIProvider) (family model effort : string) (params : chat_params) : chat_params :=
  if String.eqb effort "" then params
  else let family := if String.eqb family "" then DetectFamily to_lower model else family in
  if String.eqb family "openai_flagship" || String.eqb family "openai_standard" || String.eqb family "openai_codex" then set_effort effort params
  else if String.eqb family "deepseek" then applyDeepSeekReasoning effort params
  else if String.eqb family "qwen" then applyQwenReasoning model effort (op_reasoningWire p) params
  else if String.eqb family "glm" then applyGLMReasoning model effort params
  else if String.eqb family "kimi" then applyKimiReasoning model effort params
  else params.

(** *** The whole request *)

Definition defaultObjectSchema : schema :=
  [("type", AStr "object"); ("properties", AObj []); ("required", AArr []); ("additionalProperties", ABool false)].
(** [None]: a nil map, which the text null is. *)
Definition convertSchemaToMap (raw : string) : option schema :=
  if String.eqb raw "" then Some defaultObjectSchema
  else match Unmarshal_map float_text raw with Some m => m | None => Some defaultObjectSchema end.

Definition chat_messages (p : OpenAIProvider) (messages : list Message) : list wire_message :=
  let '(systemPrompt, filtered) := ExtractSystemPrompt messages in
  (if String.eqb systemPrompt "" then [] else [WSystem systemPrompt]) ++ map (convertRequestMessage p) filtered.
(** The fields only compatible servers know. *)
Definition sampling_extras (sd : SamplingDefaults) : gmap string (extra F) :=
  match sd_TopK sd with Some k => {[ "top_k" := XInt k ]} | None => ∅ end ∪
  match sd_RepetitionPenalty sd with Some f => {[ "repetition_penalty" := XFloat f ]} | None => ∅ end.
Definition buildChatParams (p : OpenAIProvider) (req : completion_request) : chat_params :=
  let q := cr_request req in
  let sd := rq_sampling q in
  let params := mkParams (rq_Model q) (chat_messages p (rq_Messages q)) (if 0 <? cr_MaxTokens req then Some (cr_MaxTokens req) else None)
    (sd_Temperature sd) (sd_TopP sd) (sd_PresencePenalty sd) "" ∅ [] false in
  let params := apply_reasoning p (rq_ModelFamily q) (rq_Model q) (cr_ReasoningEffort req) params in
  let params := if negb (String.eqb (op_baseURL p) "") then mergeExtraFields (sampling_extras sd) params else params in
  mkParams (cp_Model params) (cp_Messages params) (cp_MaxCompletionTokens params) (cp_Temperature params) (cp_TopP params)
    (cp_PresencePenalty params) (cp_ReasoningEffort params) (cp_extra params)
    (map (fun tool => mkTool (td_name tool) (td_description tool) (convertSchemaToMap (SanitizeSchemaForOpenAINonStrict float_text (td_input_schema tool)))) (cr_Tools req))
    (cp_IncludeUsage params).
End requests.

(** ** Errors *)

(** An error of the client library.  [we_api]: an [oai.Error] in the chain, its
    status, its message and the body that can be read; [we_http]: the status of
    an [llm.Error] that was there before; [we_transient]: what [classifyNetError]
    says; [we_kind]: [TransportKind]. *)
Record wire_error := mkWireError {
  we_text : string;
  we_api : option (Z * string * string);
  we_transient : bool;
  we_cancelled : bool;
  we_kind : string;
}.

Definition maxErrorBodySize : nat := 4096.
(** [io.LimitReader]: one byte more than the cap is read. *)
Definition readOpenAIErrorBody (body : string) : string :=
  let t := trim_space (take_str (S maxErrorBodySize) body) in
  if (maxErrorBodySize <? String.length t)%nat then take_str maxErrorBodySize t +s+ "..." else t.
Definition enrichOpenAIError (message body : string) : string :=
  let msg := trim_space message in if String.eqb msg "" then readOpenAIErrorBody body else msg.
Definition wrapError (name : string) (err : wire_error) : error :=
  match we_api err with
  | Some (status, message, body) =>
      let msg := enrichOpenAIError message body in
      of_Error (WrapProviderError name status (if String.eqb msg "" then we_text err else msg +s+ ": " +s+ we_text err) (we_transient err))
  | None => of_Error (WrapProviderError name 0 (we_text err) (we_transient err))
  end.
(** [request_bytes]: the size of the marshalled request, -1 when it cannot be. *)
Definition annotateChatTransport (request_bytes : Z) (err : wire_error) (wrapped : error) : error :=
  if we_cancelled err then wrapped
  else match snd wrapped with
  | None => wrapped
  | Some e =>
      if negb (e_status e =? 0) then wrapped
      else (fst wrapped +s+ " (transport=" +s+ (if String.eqb (we_kind err) "" then "other" else we_kind err) +s+
            ", request_bytes=" +s+ itoa request_bytes +s+ ")", Some e)
  end.
Definition isResponsesEndpointUnsupported (err : error) : bool :=
  match snd err with Some e => (e_status e =? 404) || (e_status e =? 405) | None => false end.
Definition isStreamOptionsUnsupported (err : error) : bool :=
  match snd err with Some e => (e_status e =? 400) && contains (fst err) "stream_options" | None => false end.

(** ** Answers *)

(** A completion as the client library decodes it; [cm_raw]: the JSON of the
    message. *)
Record chat_message := mkChatMessage {
  cm_role : string;
  cm_content : string;
  cm_refusal : string;
  cm_raw : string;
  cm_calls : list AgentTypes.ToolCall;
}.
Record completion := mkAnswer { co_choices : list (chat_message * string); co_usage : TokenUsage }.

Definition assistant_message (role content refusal reasoning : string) (calls : list AgentTypes.ToolCall) : Message :=
  mkMessage role (if String.eqb content "" then refusal else content) [] reasoning calls "" [].
Definition convertChatResponseMessage (msg : chat_message) : Message :=
  assistant_message (cm_role msg) (cm_content msg) (cm_refusal msg) (extractReasoningContent (cm_raw msg)) (cm_calls msg).
Definition chat_response (message : Message) (finish : string) (usage : TokenUsage) : ChatResponse :=
  mkChatResponse "" "" message (m_reasoning message) usage (MapStopReason finish openAIStopReasonMap).

(** The answer to a call without a sink; [None]: a body that is null. *)
Definition sync_answer (name : string) (request_bytes : Z) (answer : option completion + wire_error) : ChatResponse + error :=
  match answer with
  | inr err => inr (annotateChatTransport request_bytes err (wrapError name err))
  | inl None => inr (of_Error (NewError name 0 true "openai chat completion: provider returned HTTP 200 with a null body"))
  | inl (Some c) =>
      match co_choices c with
      | [] => inr (of_Error (WrapProviderError name 0 "no choices in response" false))
      | (msg, finish) :: _ => inl (chat_response (convertChatResponseMessage msg) finish (co_usage c))
      end
  end.

(** ** Streams *)

Record tool_delta := mkToolDelta { td_index : Z; td_id : string; td_fname : string; td_args : string }.
Record choice_delta := mkDelta {
  cd_index : Z;
  cd_content : string;
  cd_refusal : string;
  cd_raw : string;
  cd_tools : list tool_delta;
  cd_finish : string;
}.
Record chunk := mkChunk { ck_usage : option TokenUsage; ck_choices : list choice_delta }.

Inductive StreamDelta := DText (s : string) | DReasoning (s : string).
(** [streamToolCall] *)
Record streamToolCall := mkStreamCall { st_id : string; st_name : string; st_args : string }.
Record stream_state := mkStream {
  ss_content : string;
  ss_refusal : string;
  ss_reasoning : string;
  ss_tools : gmap Z streamToolCall;
  ss_finish : string;
  ss_usage : TokenUsage;
  ss_sent : list StreamDelta;
}.
Definition stream_start : stream_state := mkStream "" "" "" ∅ "" (mkTokenUsage 0 0) [].

Definition add_fragment (tools : gmap Z streamToolCall) (tc : tool_delta) : gmap Z streamToolCall :=
  let acc := default (mkStreamCall "" "" "") (tools !! td_index tc) in
  <[td_index tc := mkStreamCall (if String.eqb (td_id tc) "" then st_id acc else td_id tc) (st_name acc +s+ td_fname tc) (st_args acc +s+ td_args tc)]> tools.

Section stream.
(** The error of the sink for a delta, after those it took before. *)
Variable sink : list StreamDelta -> StreamDelta -> option string.

Definition send (d : StreamDelta) (s : stream_state) : stream_state + string * stream_state :=
  let s' := mkStream (ss_content s) (ss_refusal s) (ss_reasoning s) (ss_tools s) (ss_finish s) (ss_usage s) (ss_sent s ++ [d]) in
  match sink (ss_sent s) d with Some e => inr (e, s') | None => inl s' end.
Definition append_content (t : string) (s : stream_state) : stream_state :=
  mkStream (ss_content s +s+ t) (ss_refusal s) (ss_reasoning s) (ss_tools s) (ss_finish s) (ss_usage s) (ss_sent s).
Definition append_refusal (t : string) (s : stream_state) : stream_state :=
  mkStream (ss_content s) (ss_refusal s +s+ t) (ss_reasoning s) (ss_tools s) (ss_finish s) (ss_usage s) (ss_sent s).
Definition append_reasoning (t : string) (s : stream_state) : stream_state :=
  mkStream (ss_content s) (ss_refusal s) (ss_reasoning s +s+ t) (ss_tools s) (ss_finish s) (ss_usage s) (ss_sent s).
Definition add_tools (tools : list tool_delta) (s : stream_state) : stream_state :=
  mkStream (ss_content s) (ss_refusal s) (ss_reasoning s) (fold_left add_fragment tools (ss_tools s)) (ss_finish s) (ss_usage s) (ss_sent s).
Definition set_finish (f : string) (s : stream_state) : stream_state :=
  mkStream (ss_content s) (ss_refusal s) (ss_reasoning s) (ss_tools s) (if String.eqb f "" then ss_finish s else f) (ss_usage s) (ss_sent s).
Definition set_usage (u : option TokenUsage) (s : stream_state) : stream_state :=
  mkStream (ss_content s) (ss_refusal s) (ss_reasoning s) (ss_tools s) (ss_finish s) (default (ss_usage s) u) (ss_sent s).

(** A piece of text: nothing when it is empty, else it is kept and sent. *)
Definition deliver (t : string) (keep : string -> stream_state -> stream_state) (d : string -> StreamDelta) (s : stream_state)
    : stream_state + string * stream_state :=
  if String.eqb t "" then inl s else send (d t) (keep t s).
Definition then_ (r : stream_state + string * stream_state) (f : stream_state -> stream_state + string * stream_state) :=
  match r with inl s => f s | inr e => inr e end.

Definition choice_step (s : stream_state) (c : choice_delta) : stream_state + string * stream_state :=
  if negb (cd_index c =? 0) then inl s
  else then_ (deliver (cd_content c) append_content DText s) (fun s =>
       then_ (deliver (cd_refusal c) append_refusal DText s) (fun s =>
       then_ (deliver (extractReasoningContent (cd_raw c)) append_reasoning DReasoning s) (fun s =>
       inl (set_finish (cd_finish c) (add_tools (cd_tools c) s))))).
Fixpoint choices_loop (l : list choice_delta) (s : stream_state) : stream_state + string * stream_state :=
  match l with [] => inl s | c :: l => then_ (choice_step s c) (choices_loop l) end.
Fixpoint chunks_loop (l : list chunk) (s : stream_state) : stream_state + string * stream_state :=
  match l with [] => inl s | c :: l => then_ (choices_loop (ck_choices c) (set_usage (ck_usage c) s)) (chunks_loop l) end.

(** The calls in the order of their indices. *)
Definition stream_calls (tools : gmap Z streamToolCall) : list AgentTypes.ToolCall :=
  omap (fun i => match tools !! i with Some acc => Some (AgentTypes.mkToolCall (st_id acc) (st_name acc) (st_args acc)) | None => None end)
    (merge_sort Z.le (map fst (map_to_list tools))).

Definition unexpected_eof : wire_error := mkWireError "openai chat completion (stream): unexpected EOF" None true false "eof".

(** The chunks, and the error the stream ended with, if any; the result, and
    what the sink got. *)
Definition chatCompletionStream (name : string) (request_bytes : Z) (chunks : list chunk) (stream_err : option wire_error)
    : (ChatResponse + error) * list StreamDelta :=
  match chunks_loop chunks stream_start with
  | inr (e, s) => (inr (e, None), ss_sent s)
  | inl s =>
      (match stream_err with
       | Some err => inr (annotateChatTransport request_bytes err (wrapError name err))
       | None =>
           if String.eqb (ss_finish s) "" then inr (wrapError name unexpected_eof)
           else inl (chat_response (assistant_message "assistant" (ss_content s) (ss_refusal s) (ss_reasoning s) (stream_calls (ss_tools s)))
                       (ss_finish s) (ss_usage s))
       end, ss_sent s)
  end.
End stream.

(** ** The call *)

Inductive api := ResponsesAPI | AnthropicAPI | GoogleAPI | ChatCompletionsAPI.
(** The protocol a request is sent by. *)
Definition api_of (to_lower : string -> string) (protocol model : string) : api :=
  let protocol := if String.eqb protocol "" then DetectProtocol to_lower model else protocol in
  if String.eqb protocol "responses" then ResponsesAPI
  else if String.eqb protocol "anthropic" then AnthropicAPI
  else if String.eqb protocol "google" then GoogleAPI
  else ChatCompletionsAPI.

Section call.
Context `{Float64}.
Variable name : string.
(** What the endpoint does with a request, and its size. *)
Variable answer : chat_params -> option completion + wire_error.
Variable stream : chat_params -> list chunk * option wire_error.
Variable size_of : chat_params -> Z.

Definition with_usage (on : bool) (params : chat_params) : chat_params :=
  mkParams (cp_Model params) (cp_Messages params) (cp_MaxCompletionTokens params) (cp_Temperature params) (cp_TopP params)
    (cp_PresencePenalty params) (cp_ReasoningEffort params) (cp_extra params) (cp_Tools params) on.
Definition run_stream (sink : list StreamDelta -> StreamDelta -> option string) (params : chat_params) : (ChatResponse + error) * list StreamDelta :=
  let '(chunks, err) := stream params in chatCompletionStream sink name (size_of params) chunks err.
(** The path of [ChatCompletion] behind the choice of the protocol; the second
    stream goes on with the sink that had what the first one sent. *)
Definition chat_completion (sink : option (list StreamDelta -> StreamDelta -> option string)) (params : chat_params)
    : (ChatResponse + error) * list StreamDelta :=
  match sink with
  | None => (sync_answer name (size_of params) (answer params), [])
  | Some sink =>
      match run_stream sink (with_usage true params) with
      | (inr err, sent) =>
          if isStreamOptionsUnsupported err then
            let '(r, more) := run_stream (fun past d => sink (sent ++ past) d) (with_usage false params) in (r, sent ++ more)
          else (inr err, sent)
      | r => r
      end
  end.
End call.

(** The images of a request are checked before anything is sent. *)
Definition first_invalid (messages : list Message) : option string :=
  head (omap (fun msg => ValidateContentBlocks (m_blocks msg)) messages).

(** ** The answer of a stream *)

(** *** Reference *)

Definition joined (l : list string) : string := fold_right String.append "" l.
Definition is_set (s : string) : bool := negb (String.eqb s "").
(** The last text that is not empty. *)
Definition last_set (l : list string) : string := default "" (last (List.filter is_set l)).

(** The calls the fragments are of: one for each index, by index. *)
Definition call_at (frags : list tool_delta) (i : Z) : AgentTypes.ToolCall :=
  let mine := List.filter (fun f => td_index f =? i) frags in
  AgentTypes.mkToolCall (last_set (map td_id mine)) (joined (map td_fname mine)) (joined (map td_args mine)).
Definition calls_of (frags : list tool_delta) : list AgentTypes.ToolCall :=
  map (call_at frags) (merge_sort Z.le (remove_dups (map td_index frags))).

(** The pieces of choice 0, and what the sink is to get of them. *)
Definition pieces (chunks : list chunk) : list choice_delta := List.filter (fun c => cd_index c =? 0) (flat_map ck_choices chunks).
Definition deltas_of (c : choice_delta) : list StreamDelta :=
  map DText (List.filter is_set [cd_content c; cd_refusal c]) ++
  map DReasoning (List.filter is_set [extractReasoningContent (cd_raw c)]).
(** The message a synchronous answer carries, with the JSON [raw]. *)
Definition whole_message (raw : string) (cs : list choice_delta) : chat_message :=
  mkChatMessage "assistant" (joined (map cd_content cs)) (joined (map cd_refusal cs)) raw (calls_of (flat_map cd_tools cs)).
Definition whole_usage (chunks : list chunk) : TokenUsage := default (mkTokenUsage 0 0) (last (omap ck_usage chunks)).
Definition whole_answer (raw : string) (chunks : list chunk) : completion :=
  mkAnswer [(whole_message raw (pieces chunks), last_set (map cd_finish (pieces chunks)))] (whole_usage chunks).

(** A sink takes deltas one by one, and may refuse one. *)
Fixpoint accept (sink : list StreamDelta -> StreamDelta -> option string) (past ds : list StreamDelta) : list StreamDelta * option string :=
  match ds with
  | [] => (past, None)
  | d :: ds => match sink past d with Some e => (past ++ [d], Some e) | None => accept sink (past ++ [d]) ds end
  end.

(** *** Joining *)

Lemma joined_app l l' : joined (l ++ l') = joined l +s+ joined l'.
Proof. induction l as [|s l IH]; [done|]. cbn [joined fold_right app]. fold (joined (l ++ l')). rewrite IH. by rewrite sapp_assoc. Qed.
Lemma joined_one s : joined [s] = s.
Proof. apply sapp_nil_r. Qed.
Lemma last_set_snoc l s : last_set (l ++ [s]) = if String.eqb s "" then last_set l else s.
Proof.
  unfold last_set. rewrite List.filter_app. cbn [List.filter]. unfold is_set at 2.
  destruct (String.eqb_spec s "") as [->|Hs]; cbn [negb]; [by rewrite app_nil_r|by rewrite last_snoc].
Qed.

Lemma finish_missing l : String.eqb (last_set l) "" = negb (existsb is_set l).
Proof.
  induction l as [|s l IH] using rev_ind; [done|]. rewrite last_set_snoc, existsb_app. cbn [existsb].
  unfold is_set at 2. destruct (String.eqb s "") eqn:E; cbn [negb orb]; [by rewrite orb_false_r|by rewrite E, orb_true_r].
Qed.

Section assembly.
Variable sink : list StreamDelta -> StreamDelta -> option string.
Notation accept := (accept sink).

Lemma accept_app past ds ds' :
  accept past (ds ++ ds') = match accept past ds with (p, None) => accept p ds' | r => r end.
Proof. revert past. induction ds as [|d ds IH]; intros past; [done|]. cbn [app OpenAI.accept]. destruct (sink past d); [done|apply IH]. Qed.
Lemma accept_all past ds p : accept past ds = (p, None) -> p = past ++ ds.
Proof.
  revert past. induction ds as [|d ds IH]; intros past; cbn [OpenAI.accept]; [intros H; injection H as <-; by rewrite app_nil_r|].
  destruct (sink past d); [done|]. intros ->%IH. by rewrite <- app_assoc.
Qed.

(** *** The table of calls *)

Definition table (frags : list tool_delta) : gmap Z streamToolCall := fold_left add_fragment frags ∅.
Lemma table_lookup frags i :
  table frags !! i = if existsb (fun f => td_index f =? i) frags
    then Some (mkStreamCall (tc_id (call_at frags i)) (tc_name (call_at frags i)) (tc_input (call_at frags i))) else None.
Proof.
  unfold table. induction frags as [|f frags IH] using rev_ind; [done|]. rewrite fold_left_app. cbn [fold_left].
  set (T := fold_left add_fragment frags ∅) in *. unfold add_fragment. rewrite existsb_app. unfold call_at. rewrite List.filter_app. cbn [existsb List.filter tc_id tc_name tc_input].
  destruct (Z.eqb_spec (td_index f) i) as [<-|Hne].
  - cbv zeta. rewrite lookup_insert_eq, orb_true_r, !map_app, !joined_app. cbn [map]. rewrite last_set_snoc, !joined_one. rewrite IH.
    destruct (existsb _ frags) eqn:E; [done|]. cbn [default st_id st_name st_args].
    assert (Hnone : List.filter (fun x => td_index x =? td_index f) frags = []).
    { clear IH. induction frags as [|g frags IH]; [done|]. cbn [existsb List.filter] in *. apply orb_false_iff in E as [Hg E]. rewrite Hg. by apply IH. }
    by rewrite Hnone.
  - rewrite lookup_insert_ne by done. rewrite !orb_false_r, !app_nil_r. apply IH.
Qed.

Lemma stream_calls_of frags : stream_calls (table frags) = calls_of frags.
Proof.
  unfold stream_calls, calls_of.
  assert (Hk : merge_sort Z.le (map fst (map_to_list (table frags))) = merge_sort Z.le (remove_dups (map td_index frags))).
  { apply (Sorted_unique Z.le); [apply Sorted_merge_sort; intros ? ?; lia|apply Sorted_merge_sort; intros ? ?; lia|].
    rewrite !merge_sort_Permutation. apply NoDup_Permutation; [apply NoDup_fst_map_to_list|apply NoDup_remove_dups|].
    intros i. rewrite elem_of_remove_dups. split.
    - intros ([j acc] & Ej & H%elem_of_map_to_list)%list_elem_of_fmap. cbn [fst] in Ej. subst i. rewrite table_lookup in H.
      destruct (existsb _ frags) eqn:E; [|done]. apply existsb_exists in E as (f & Hf & Hi%Z.eqb_eq).
      apply list_elem_of_fmap. exists f. split; [done|by apply list_elem_of_In].
    - intros (f & -> & Hf)%list_elem_of_fmap. apply list_elem_of_fmap.
      eexists (td_index f, _). split; [done|]. apply elem_of_map_to_list. rewrite table_lookup.
      assert (existsb (fun g => td_index g =? td_index f) frags = true) as ->; [|done].
      apply existsb_exists. exists f. split; [by apply list_elem_of_In|apply Z.eqb_refl]. }
  rewrite Hk. assert (Hin : forall i, i ∈ merge_sort Z.le (remove_dups (map td_index frags)) -> existsb (fun f => td_index f =? i) frags = true).
  { intros i Hi. rewrite merge_sort_Permutation, elem_of_remove_dups in Hi. apply list_elem_of_fmap in Hi as (f & -> & Hf).
    apply existsb_exists. exists f. split; [by apply list_elem_of_In|apply Z.eqb_refl]. }
  clear Hk. induction (merge_sort Z.le _) as [|i l IH]; [reflexivity|]. cbn [omap list_omap map]. rewrite table_lookup, Hin by apply list_elem_of_here.
  rewrite IH by (intros j Hj; apply Hin; by right). by destruct (call_at frags i).
Qed.

(** *** The loops *)

(** The state behind the pieces [cs]. *)
Definition state_of (cs : list choice_delta) (u : TokenUsage) (sent : list StreamDelta) : stream_state :=
  mkStream (joined (map cd_content cs)) (joined (map cd_refusal cs)) (joined (map (fun c => extractReasoningContent (cd_raw c)) cs))
    (table (flat_map cd_tools cs)) (last_set (map cd_finish cs)) u sent.

(** What [r] is when the sink ends up with [p], refusing with [e] or not. *)
Definition settles (p : list StreamDelta * option string) (ok : stream_state) (r : stream_state + string * stream_state) : Prop :=
  match p with
  | (_, None) => r = inl ok
  | (sent, Some e) => exists s, r = inr (e, s) /\ ss_sent s = sent
  end.

Lemma settles_then past ds ds' mid ok r f :
  settles (accept past ds) mid r -> settles (accept (past ++ ds) ds') ok (f mid) ->
  settles (accept past (ds ++ ds')) ok (then_ r f).
Proof.
  rewrite accept_app. destruct (accept past ds) as [p [e|]] eqn:E; cbn [settles].
  - intros (s & -> & Hs) _. by exists s.
  - intros -> H. by rewrite (accept_all _ _ _ E).
Qed.
Lemma settles_deliver t keep d s :
  ss_sent (keep t s) = ss_sent s -> (t = "" -> keep t s = s) ->
  settles (accept (ss_sent s) (map d (List.filter is_set [t])))
    (let s' := keep t s in mkStream (ss_content s') (ss_refusal s') (ss_reasoning s') (ss_tools s') (ss_finish s') (ss_usage s')
       (ss_sent s ++ map d (List.filter is_set [t])))
    (deliver sink t keep d s).
Proof.
  intros Hk He. cbn [List.filter]. unfold is_set, deliver. destruct (String.eqb_spec t "") as [Et|Et]; cbn [negb map].
  - cbn [OpenAI.accept settles]. rewrite (He Et), app_nil_r. by destruct s.
  - cbn [OpenAI.accept]. unfold send. rewrite Hk. destruct (sink (ss_sent s) (d t)) as [e|]; cbn [settles]; [|done].
    eexists. split; [reflexivity|]. done.
Qed.

Lemma settles_choice cs u sent c :
  settles (accept sent (if cd_index c =? 0 then deltas_of c else []))
    (if cd_index c =? 0 then state_of (cs ++ [c]) u (sent ++ deltas_of c) else state_of cs u sent)
    (choice_step sink (state_of cs u sent) c).
Proof.
  unfold choice_step. destruct (cd_index c =? 0); cbn [negb]; [|reflexivity].
  assert (Hd : deltas_of c = map DText (List.filter is_set [cd_content c]) ++ map DText (List.filter is_set [cd_refusal c]) ++
    map DReasoning (List.filter is_set [extractReasoningContent (cd_raw c)]) ++ []).
  { unfold deltas_of. rewrite app_nil_r, app_assoc, <- map_app. change [cd_content c; cd_refusal c] with ([cd_content c] ++ [cd_refusal c]).
    by rewrite List.filter_app. }
  rewrite Hd. eapply settles_then.
  { apply (settles_deliver _ append_content DText (state_of cs u sent)); [done|]. intros ->. unfold append_content. cbn. by rewrite sapp_nil_r. }
  cbv zeta. cbn [append_content ss_content ss_refusal ss_reasoning ss_tools ss_finish ss_usage ss_sent state_of]. eapply settles_then.
  { set (s := mkStream _ _ _ _ _ _ _). change (sent ++ _) with (ss_sent s).
    apply (settles_deliver _ append_refusal DText s); [done|]. intros ->. unfold append_refusal. destruct s. cbn. by rewrite sapp_nil_r. }
  cbv zeta. cbn [append_refusal ss_content ss_refusal ss_reasoning ss_tools ss_finish ss_usage ss_sent]. eapply settles_then.
  { set (s := mkStream _ _ _ _ _ _ _). change ((sent ++ _) ++ _) with (ss_sent s).
    apply (settles_deliver _ append_reasoning DReasoning s); [done|]. intros ->. unfold append_reasoning. destruct s. cbn. by rewrite sapp_nil_r. }
  cbn [OpenAI.accept settles]. f_equal.
  cbv zeta. unfold set_finish, add_tools, append_reasoning, state_of, table.
  cbn [ss_content ss_refusal ss_reasoning ss_tools ss_finish ss_usage ss_sent].
  rewrite !map_app, !joined_app, flat_map_app, fold_left_app. cbn [map flat_map]. rewrite !joined_one, last_set_snoc, !app_nil_r, <- !app_assoc. done.
Qed.

Definition own (l : list choice_delta) : list choice_delta := List.filter (fun c => cd_index c =? 0) l.
Lemma settles_choices l cs u sent :
  settles (accept sent (flat_map deltas_of (own l))) (state_of (cs ++ own l) u (sent ++ flat_map deltas_of (own l)))
    (choices_loop sink l (state_of cs u sent)).
Proof.
  revert cs sent. induction l as [|c l IH]; intros cs sent.
  - cbn [own List.filter flat_map choices_loop OpenAI.accept settles]. by rewrite !app_nil_r.
  - cbn [choices_loop]. pose proof (settles_choice cs u sent c) as Hc. unfold own in *. cbn [List.filter].
    destruct (cd_index c =? 0); cbn [flat_map].
    + eapply settles_then; [exact Hc|]. specialize (IH (cs ++ [c]) (sent ++ deltas_of c)).
      rewrite <- !app_assoc in IH. exact IH.
    + cbn [OpenAI.accept settles] in Hc. rewrite Hc. cbn [then_]. apply IH.
Qed.

Lemma settles_chunks l cs u sent :
  settles (accept sent (flat_map deltas_of (pieces l)))
    (state_of (cs ++ pieces l) (default u (last (omap ck_usage l))) (sent ++ flat_map deltas_of (pieces l)))
    (chunks_loop sink l (state_of cs u sent)).
Proof.
  revert cs u sent. induction l as [|c l IH]; intros cs u sent.
  - cbn [pieces flat_map List.filter chunks_loop OpenAI.accept settles]. by rewrite !app_nil_r.
  - cbn [chunks_loop]. unfold pieces. cbn [flat_map]. rewrite List.filter_app, flat_map_app. fold (pieces l). fold (own (ck_choices c)).
    eapply settles_then; [apply (settles_choices (ck_choices c) cs (default u (ck_usage c)) sent)|].
    specialize (IH (cs ++ own (ck_choices c)) (default u (ck_usage c)) (sent ++ flat_map deltas_of (own (ck_choices c)))).
    rewrite <- !app_assoc in IH.
    assert (Hu : default u (last (omap ck_usage (c :: l))) = default (default u (ck_usage c)) (last (omap ck_usage l))).
    { cbn [omap list_omap]. destruct (ck_usage c) as [x|]; [|done]. cbn [default]. rewrite last_cons. by destruct (last (omap ck_usage l)). }
    rewrite Hu. exact IH.
Qed.
End assembly.

(** C10: Streaming gives the answer a call without a sink gives.  However the
    chunks fragment it, choice 0 alone counts; the sink gets the pieces of its
    text and its reasoning in the order they arrive, up to the first it refuses,
    whose error is the result; and the response is the synchronous one to the
    whole message: the texts joined, a call for each index in the order of the
    indices with its last id and its fragments joined, the last finish reason
    and the last usage.  A stream that ends with an error, or with no finish
    reason, is never an answer. *)
Theorem stream_is_the_answer sink name request_bytes chunks stream_err raw
    (Hraw : extractReasoningContent raw = joined (map (fun c => extractReasoningContent (cd_raw c)) (pieces chunks))) :
  let '(sent, refused) := accept sink [] (flat_map deltas_of (pieces chunks)) in
  chatCompletionStream sink name request_bytes chunks stream_err =
  (match refused, stream_err with
   | Some e, _ => inr (e, None)
   | None, Some err => inr (annotateChatTransport request_bytes err (wrapError name err))
   | None, None =>
       if existsb is_set (map cd_finish (pieces chunks)) then sync_answer name request_bytes (inl (Some (whole_answer raw chunks)))
       else inr (wrapError name unexpected_eof)
   end, sent).
Proof.
  pose proof (settles_chunks sink chunks [] (mkTokenUsage 0 0) []) as H. cbn [app] in H.
  unfold chatCompletionStream. change stream_start with (state_of [] (mkTokenUsage 0 0) []).
  destruct (accept sink [] _) as [sent [e|]] eqn:Ea; cbn [settles] in H.
  - destruct H as (s & -> & <-). done.
  - rewrite H, (accept_all _ _ _ _ Ea). cbn [app ss_sent ss_finish ss_content ss_refusal ss_reasoning ss_tools ss_usage state_of]. f_equal.
    destruct stream_err; [done|]. rewrite finish_missing. destruct (existsb _ _); [|done]. cbn [negb].
    unfold sync_answer, whole_answer. cbn [co_choices co_usage]. unfold convertChatResponseMessage, whole_message.
    cbn [cm_role cm_content cm_refusal cm_raw cm_calls]. by rewrite Hraw, stream_calls_of.
Qed.

(** ** What is asked *)

(** *** The system prompt *)

(** The contents joined by line feeds; those in front that are empty count for
    nothing. *)
Fixpoint system_text (contents : list string) : string :=
  match contents with
  | [] => ""
  | c :: r => if String.eqb c "" then system_text r else join nl (c :: r)
  end.
(** A text is put on a new line behind what is there. *)
Definition put_line (s c : string) : string := (if String.eqb s "" then s else s +s+ nl) +s+ c.
Lemma put_lines l : fold_left put_line l "" = system_text l.
Proof.
  assert (Hne : forall l s, s <> "" -> fold_left put_line l s = join nl (s :: l)).
  { clear l. induction l as [|c l IH]; intros s Hs; [done|]. cbn [fold_left]. unfold put_line at 2. destruct (String.eqb_spec s ""); [done|].
    rewrite IH by (destruct s; done). destruct l; cbn [join]; by rewrite !sapp_assoc. }
  induction l as [|c l IH]; [done|]. cbn [fold_left system_text]. unfold put_line at 2. cbn [String.eqb String.append].
  destruct (String.eqb_spec c "") as [->|Hc]; [done|]. by apply Hne.
Qed.
Lemma system_text_empty l : system_text l = "" <-> Forall (fun c => c = "") l.
Proof.
  induction l as [|c l IH]; [done|]. cbn [system_text]. rewrite Forall_cons. destruct (String.eqb_spec c "") as [->|Hc]; [by rewrite IH; intuition|].
  split; [|by intros [E _]]. intros E. exfalso. apply Hc. destruct l; cbn [join] in E; destruct c; done.
Qed.
Lemma ExtractSystemPrompt_spec messages :
  ExtractSystemPrompt messages =
  (system_text (map m_content (List.filter is_system messages)), List.filter (fun m => negb (is_system m)) messages).
Proof.
  unfold ExtractSystemPrompt. rewrite <- put_lines.
  assert (Hsplit : forall messages s past, fold_left (fun '(systemPrompt, filtered) msg =>
      if is_system msg then ((if String.eqb systemPrompt "" then systemPrompt else systemPrompt +s+ nl) +s+ m_content msg, filtered)
      else (systemPrompt, filtered ++ [msg])) messages (s, past) =
      (fold_left put_line (map m_content (List.filter is_system messages)) s, past ++ List.filter (fun m => negb (is_system m)) messages)).
  { clear messages. induction messages as [|m messages IH]; intros s past; cbn [fold_left List.filter]; [by rewrite app_nil_r|].
    destruct (is_system m); cbn [negb map fold_left]; rewrite IH; [done|]. by rewrite <- app_assoc. }
  by rewrite Hsplit.
Qed.
Lemma ExtractSystemPromptParts_spec messages :
  ExtractSystemPromptParts messages =
  (List.filter is_set (map m_content (List.filter is_system messages)), List.filter (fun m => negb (is_system m)) messages).
Proof.
  unfold ExtractSystemPromptParts.
  assert (Hsplit : forall messages parts past, fold_left (fun '(parts, filtered) msg =>
      if is_system msg then ((if String.eqb (m_content msg) "" then parts else parts ++ [m_content msg]), filtered)
      else (parts, filtered ++ [msg])) messages (parts, past) =
      (parts ++ List.filter is_set (map m_content (List.filter is_system messages)), past ++ List.filter (fun m => negb (is_system m)) messages)).
  { clear messages. induction messages as [|m messages IH]; intros parts past; cbn [fold_left List.filter]; [by rewrite !app_nil_r|].
    destruct (is_system m); cbn [negb map List.filter]; rewrite IH; [|by rewrite <- app_assoc].
    unfold is_set at 2. destruct (String.eqb (m_content m) ""); cbn [negb]; [done|by rewrite <- app_assoc]. }
  by rewrite Hsplit.
Qed.

Section asked.
Context `{Float64}.
Variable to_lower : string -> string.
Variable builtIn : gmap string ModelMetadata.
Variable float_text : string -> string.
Notation buildChatParams := (buildChatParams to_lower float_text).

Definition request_family (q : ChatRequest) : string :=
  if String.eqb (rq_ModelFamily q) "" then DetectFamily to_lower (rq_Model q) else rq_ModelFamily q.
(** The controls of the reasoning, before the sampling fields are merged. *)
Definition controls (p : OpenAIProvider) (req : completion_request) : chat_params :=
  apply_reasoning to_lower p (rq_ModelFamily (cr_request req)) (rq_Model (cr_request req)) (cr_ReasoningEffort req)
    (mkParams "" [] None None None None "" ∅ [] false).

(** The controls leave the other fields alone, and do not depend on them. *)
Lemma apply_reasoning_local p family model effort params :
  cp_extra params = ∅ -> cp_ReasoningEffort params = "" ->
  let c := apply_reasoning to_lower p family model effort (mkParams "" [] None None None None "" ∅ [] false) in
  apply_reasoning to_lower p family model effort params = set_extra (cp_extra c) (set_effort (cp_ReasoningEffort c) params).
Proof.
  intros Hx He. destruct params as [a b c d e f g x t u]. cbn [cp_extra cp_ReasoningEffort] in Hx, He. subst.
  cbv zeta. unfold apply_reasoning, applyDeepSeekReasoning, applyQwenReasoning, applyQwenReasoningChatTemplateKwargs, applyGLMReasoning, applyKimiReasoning.
  repeat match goal with
  | |- context [match ?c with _ => _ end] =>
      match c with context [match _ with _ => _ end] => fail 1 | default _ _ => destruct c | _ => destruct c end
  end; reflexivity.
Qed.

Lemma merge_lookup (sd : SamplingDefaults) (m : gmap string (extra F)) k :
  (sampling_extras sd ∪ m) !! k =
  if String.eqb k "top_k" then match sd_TopK sd with Some z => Some (XInt z) | None => m !! k end
  else if String.eqb k "repetition_penalty" then match sd_RepetitionPenalty sd with Some f => Some (XFloat f) | None => m !! k end
  else m !! k.
Proof.
  unfold sampling_extras. rewrite !lookup_union.
  destruct (String.eqb_spec k "top_k") as [->|H1]; [|destruct (String.eqb_spec k "repetition_penalty") as [->|H2]].
  - destruct (sd_TopK sd), (sd_RepetitionPenalty sd); rewrite ?lookup_singleton_eq, ?lookup_singleton_ne, ?lookup_empty by done;
      by destruct (m !! _).
  - destruct (sd_TopK sd), (sd_RepetitionPenalty sd); rewrite ?lookup_singleton_eq, ?lookup_singleton_ne, ?lookup_empty by done;
      by destruct (m !! _).
  - destruct (sd_TopK sd), (sd_RepetitionPenalty sd); rewrite ?lookup_singleton_ne, ?lookup_empty by done; by destruct (m !! _).
Qed.

Lemma convert_not_system p msg t : is_system msg = false -> convertRequestMessage p msg <> WSystem t.
Proof.
  unfold is_system, convertRequestMessage. intros ->. destruct (String.eqb (m_role msg) "user"); [by destruct (NormalizeContentBlocks msg)|].
  destruct (String.eqb (m_role msg) "assistant"); [done|]. by destruct (String.eqb (m_role msg) "tool").
Qed.
Lemma buildChatParams_eq p req :
  let q := cr_request req in
  let c := controls p req in
  buildChatParams p req =
  mkParams (rq_Model q) (chat_messages p (rq_Messages q)) (if 0 <? cr_MaxTokens req then Some (cr_MaxTokens req) else None)
    (sd_Temperature (rq_sampling q)) (sd_TopP (rq_sampling q)) (sd_PresencePenalty (rq_sampling q)) (cp_ReasoningEffort c)
    (if String.eqb (op_baseURL p) "" then cp_extra c else sampling_extras (rq_sampling q) ∪ cp_extra c)
    (map (fun tool => mkTool (td_name tool) (td_description tool)
       (convertSchemaToMap float_text (SanitizeSchemaForOpenAINonStrict float_text (td_input_schema tool)))) (cr_Tools req)) false.
Proof.
  cbv zeta. unfold OpenAI.buildChatParams. cbv zeta. rewrite apply_reasoning_local by done. cbv zeta. fold (controls p req).
  destruct (String.eqb (op_baseURL p) ""); reflexivity.
Qed.

(** What a request puts on the wire.  The system messages, wherever they
    were, are one message in front of all others, which follow in their order;
    there is none when they are empty.  Every field the reasoning controls set
    is kept; [top_k] and [repetition_penalty] are added exactly when they are
    given and the endpoint is not the official one; and no other field is. *)
Theorem chat_request_built p req :
  let q := cr_request req in
  let params := buildChatParams p req in
  let system := system_text (map m_content (List.filter is_system (rq_Messages q))) in
  let others := map (convertRequestMessage p) (List.filter (fun m => negb (is_system m)) (rq_Messages q)) in
  cp_Messages params = (if String.eqb system "" then [] else [WSystem system]) ++ others /\
  (forall t, WSystem t ∉ others) /\
  cp_ReasoningEffort params = cp_ReasoningEffort (controls p req) /\
  forall k, cp_extra params !! k =
    let added := if String.eqb (op_baseURL p) "" then None
      else if String.eqb k "top_k" then XInt <$> sd_TopK (rq_sampling q)
      else if String.eqb k "repetition_penalty" then XFloat <$> sd_RepetitionPenalty (rq_sampling q) else None in
    match added with Some v => Some v | None => cp_extra (controls p req) !! k end.
Proof.
  cbv zeta. rewrite buildChatParams_eq. cbn [cp_Messages cp_ReasoningEffort cp_extra]. split_and!; [| |done|].
  - unfold chat_messages. by rewrite ExtractSystemPrompt_spec.
  - intros t (m & Et & Hm)%list_elem_of_fmap. apply list_elem_of_In, List.filter_In in Hm as [_ Hm%negb_true_iff].
    by apply (convert_not_system p m t Hm).
  - intros k. destruct (String.eqb (op_baseURL p) ""); [done|]. rewrite merge_lookup.
    destruct (String.eqb k "top_k"); [by destruct (sd_TopK _)|].
    destruct (String.eqb k "repetition_penalty"); [by destruct (sd_RepetitionPenalty _)|done].
Qed.

(** *** Tiers *)

(** Whether a server that reads these fields thinks; [None]: they do not say. *)
Definition thinking_of (m : gmap string (extra F)) : option bool :=
  match m !! "thinking", m !! "enable_thinking", m !! "chat_template_kwargs", m !! "reasoning_effort" with
  | Some (XObject o), _, _, _ => match o !! "type" with Some (SText t) => Some (String.eqb t "enabled") | _ => None end
  | None, Some (XScalar (SBool b)), _, _ => Some b
  | None, None, Some (XObject o), _ => match o !! "enable_thinking" with Some (SBool b) => Some b | _ => None end
  | None, None, None, Some _ => Some true
  | _, _, _, _ => None
  end.
(** The effort among them. *)
Definition effort_of (m : gmap string (extra F)) : option string :=
  match m !! "reasoning_effort", m !! "chat_template_kwargs" with
  | Some (XScalar (SText t)), _ => Some t
  | None, Some (XObject o) => match o !! "reasoning_effort" with Some (SText t) => Some t | _ => None end
  | _, _ => None
  end.
(** The families whose thinking is switched by such fields. *)
Definition switched (family : string) : bool :=
  String.eqb family "deepseek" || String.eqb family "qwen" || String.eqb family "glm".

Notation bare_params := (mkParams "" [] None None None None "" ∅ [] false).
Definition says (effort : string) (m : gmap string (extra F)) : Prop :=
  thinking_of m = Some (negb (disables effort)) /\ match effort_of m with Some w => w = fold_ascii effort | None => True end.

Lemma deepseek_says effort : effort ∈ ["Off"; "High"; "Max"] -> says effort (cp_extra (applyDeepSeekReasoning effort bare_params)).
Proof.
  rewrite !elem_of_cons. intros [->|[->|[->|H0]]]; [..|by apply elem_of_nil in H0]; (split; [vm_compute; reflexivity|vm_compute; auto]).
Qed.
Lemma qwen_says model effort wire options preferred :
  ModelReasoningOptions to_lower "qwen" model = Some (options, preferred) -> effort ∈ options ->
  says effort (cp_extra (applyQwenReasoning to_lower model effort wire bare_params)).
Proof.
  unfold ModelReasoningOptions, applyQwenReasoning, applyQwenReasoningChatTemplateKwargs.
  cbn [has_prefix String.prefix String.eqb Ascii.eqb Bool.eqb andb].
  destruct (IsQwen38OrLater to_lower model), (String.eqb wire ReasoningWireChatTemplateKwargs); cbn [negb];
    intros [= <- <-]; rewrite !elem_of_cons;
    repeat (intros [->|He]; [split; [vm_compute; reflexivity|vm_compute; auto]|revert He]); by intros ?%elem_of_nil.
Qed.
Lemma glm_says model effort options preferred :
  ModelReasoningOptions to_lower "glm" model = Some (options, preferred) -> effort ∈ options ->
  says effort (cp_extra (applyGLMReasoning to_lower model effort bare_params)).
Proof.
  unfold applyGLMReasoning, ModelReasoningOptions. cbn [has_prefix String.prefix String.eqb Ascii.eqb Bool.eqb andb].
  destruct (IsGLM52OrLater to_lower model); [destruct (glmAlwaysThinking to_lower model)|]; 
    intros [= <- <-]; rewrite !elem_of_cons;
    repeat (intros [->|He]; [split; [vm_compute; reflexivity|vm_compute; auto]|revert He]); by intros ?%elem_of_nil.
Qed.
Lemma options_set family model options preferred :
  ModelReasoningOptions to_lower family model = Some (options, preferred) -> "" ∉ options.
Proof.
  unfold ModelReasoningOptions, openAIModelReasoningOptions, FamilyReasoningOptions.
  repeat match goal with |- context [if ?c then _ else _] => destruct c end; intros [= <- <-].
  all: apply (bool_decide_unpack _); vm_compute; reflexivity.
Qed.
Lemma option_says p family model effort options preferred :
  switched family = true -> ModelReasoningOptions to_lower family model = Some (options, preferred) -> effort ∈ options ->
  says effort (cp_extra (apply_reasoning to_lower p family model effort bare_params)).
Proof.
  unfold switched. intros Hf Ho He. unfold apply_reasoning.
  destruct (String.eqb_spec effort "") as [->|_]; [by destruct (options_set _ _ _ _ Ho)|].
  destruct (String.eqb_spec family "deepseek") as [->|_]; [|destruct (String.eqb_spec family "qwen") as [->|_]];
    [..|cbn [orb] in Hf; apply String.eqb_eq in Hf as ->]; cbn [String.eqb Ascii.eqb Bool.eqb orb].
  - injection Ho as <- <-. by apply deepseek_says.
  - by eapply qwen_says.
  - by eapply glm_says.
Qed.
Lemma says_merged sd effort m : says effort m -> says effort (sampling_extras sd ∪ m).
Proof. unfold says, thinking_of, effort_of. by rewrite !merge_lookup. Qed.

Lemma switched_has_options family model : switched family = true -> ModelReasoningOptions to_lower family model <> None.
Proof.
  unfold switched. intros Hf. unfold ModelReasoningOptions.
  destruct (String.eqb_spec family "deepseek") as [->|_]; [by cbn|]. destruct (String.eqb_spec family "qwen") as [->|_].
  - cbn [has_prefix String.prefix String.eqb Ascii.eqb Bool.eqb andb]. by destruct (IsQwen38OrLater to_lower model).
  - cbn [orb] in Hf. apply String.eqb_eq in Hf as ->. cbn [has_prefix String.prefix String.eqb Ascii.eqb Bool.eqb andb].
    destruct (IsGLM52OrLater to_lower model); [by destruct (glmAlwaysThinking to_lower model)|done].
Qed.
Lemma apply_reasoning_family p q effort params :
  apply_reasoning to_lower p (rq_ModelFamily q) (rq_Model q) effort params =
  apply_reasoning to_lower p (request_family q) (rq_Model q) effort params.
Proof.
  unfold apply_reasoning, request_family. destruct (String.eqb effort ""); [done|].
  destruct (String.eqb (rq_ModelFamily q) "") eqn:E; [|by rewrite E].
  by destruct (String.eqb (DetectFamily to_lower (rq_Model q)) "").
Qed.

(** C11: The tier of a call reaches the wire.  For the families whose thinking a
    request switches, and the effort the tier gives, what is sent to whatever
    endpoint and in either spelling says: do not think, exactly when the tier is
    off and the model can be kept from it; and think, in all other cases.  An
    effort sent along is the wire spelling of the effort of the tier. *)
Theorem tier_reaches_the_wire p req tier
    (Hfamily : switched (request_family (cr_request req)) = true)
    (Heffort : cr_ReasoningEffort req =
      ReasoningForCall to_lower builtIn (request_family (cr_request req)) (rq_Model (cr_request req)) tier)
    (Hspoken : silent to_lower builtIn (rq_Model (cr_request req)) tier = false) :
  exists options preferred,
    ModelReasoningOptions to_lower (request_family (cr_request req)) (rq_Model (cr_request req)) = Some (options, preferred) /\
    thinking_of (cp_extra (buildChatParams p req)) = Some (negb (String.eqb tier "off" && existsb disables options)) /\
    forall w, effort_of (cp_extra (buildChatParams p req)) = Some w -> w = fold_ascii (cr_ReasoningEffort req) /\ cr_ReasoningEffort req ∈ options.
Proof.
  pose proof (ReasoningForCall_contract to_lower builtIn (request_family (cr_request req)) (rq_Model (cr_request req)) tier) as Hc.
  cbv zeta in Hc. rewrite Hspoken, <- Heffort in Hc.
  destruct (ModelReasoningOptions _ _ _) as [[options preferred]|] eqn:Eo; [|by destruct (switched_has_options _ _ Hfamily Eo)].
  destruct Hc as (Hin & Hd & _). exists options, preferred. split; [done|].
  assert (Hs : says (cr_ReasoningEffort req) (cp_extra (buildChatParams p req))).
  { rewrite buildChatParams_eq. cbn [cp_extra]. assert (says (cr_ReasoningEffort req) (cp_extra (controls p req))) as Hsay.
    { unfold controls. rewrite apply_reasoning_family. by eapply option_says. }
    destruct (String.eqb (op_baseURL p) ""); [done|by apply says_merged]. }
  destruct Hs as [Ht Hw]. rewrite <- Hd. split; [done|]. intros w Ew. by rewrite Ew in Hw.
Qed.
End asked.

(** ** The second stream *)

Section again.
Context `{Float64}.
Variable name : string.
Variable answer : chat_params -> option completion + wire_error.
Variable stream : chat_params -> list chunk * option wire_error.
Variable size_of : chat_params -> Z.
(** The client library: an answer with an error status has no chunks. *)
Hypothesis no_chunks : forall params chunks err, stream params = (chunks, Some err) -> we_api err <> None -> chunks = [].

(** What [stream_options] costs: the stream is opened a second time, without
    it, only when the first was refused before any delta, and the sink gets
    what one stream delivers. *)
Theorem one_stream_is_delivered sink params :
  exists on, chat_completion name answer stream size_of (Some sink) params = run_stream name stream size_of sink (with_usage on params) /\
    (on = false -> snd (run_stream name stream size_of sink (with_usage true params)) = []).
Proof.
  unfold chat_completion. destruct (run_stream name stream size_of sink (with_usage true params)) as [[r|err] sent] eqn:E; [by exists true|].
  destruct (isStreamOptionsUnsupported err) eqn:Eu; [|by exists true]. exists false.
  assert (sent = []) as ->; [|split; [|done]; change (fun past d => sink ([] ++ past) d) with sink; by destruct (run_stream name stream size_of sink (with_usage false params))].
  unfold run_stream in E. destruct (stream (with_usage true params)) as [chunks serr] eqn:Es.
  unfold chatCompletionStream in E. destruct (chunks_loop sink chunks stream_start) as [s|[e s]] eqn:El; [|by injection E as <- <-].
  destruct serr as [werr|]; [|by destruct (String.eqb (ss_finish s) ""); [injection E as <- <-|]].
  injection E as <- <-. enough (chunks = []) as -> by (cbn in El; by injection El as <-).
  apply (no_chunks _ _ _ Es). intros Hn. unfold annotateChatTransport, wrapError in Eu. rewrite Hn in Eu.
  destruct (we_cancelled werr); [done|]. unfold isStreamOptionsUnsupported, of_Error in Eu. done.
Qed.
End again.

(** ** Examples *)

Section examples.
Local Existing Instance Float64_Q.
Definition ask (family model effort : string) (sd : SamplingDefaults) (messages : list Message) (schema : string) : completion_request :=
  mkCompletion (mkRequest model family "" messages "" sd false) 100 [mkToolDefinition "read" "reads" schema] effort.
Definition says_text (role text : string) : Message := mkMessage role text [] "" [] "" [].
Definition custom : OpenAIProvider := mkProvider "zen" "http://zen" "" false.
Notation build := (buildChatParams fold_ascii (fun t => t)).

(** A plan behind the user's words is sent in front. *)
Definition late_plan : completion_request :=
  ask "glm" "glm-5.2" "none" (mkSampling None None (Some 40) None None)
    [says_text "user" "go"; says_text "system" "plan"; says_text "tool" ""] "{}".
Example late_plan_hoisted :
  cp_Messages (build custom late_plan) = [WSystem "plan"; WUser "go"; WTool "(no output)" ""] /\
  cp_extra (build custom late_plan) = {[ "thinking" := thinking_type "disabled"; "top_k" := XInt 40 ]}.
Proof. vm_compute. split; reflexivity. Qed.

(** A name and arguments in pieces, of a second choice nothing. *)
Definition bit (content : string) (tools : list tool_delta) (finish : string) : choice_delta := mkDelta 0 content "" "" tools finish.
Definition fragments : list chunk := [
  mkChunk None [bit "Hel" [] ""; mkDelta 1 "other" "" "" [] "stop"];
  mkChunk None [bit "lo" [mkToolDelta 1 "b" "ls" "{}"; mkToolDelta 0 "a" "get_" "{"] ""];
  mkChunk None [mkDelta 0 "" "" ("{" +s+ q "reasoning_content" +s+ ":" +s+ q "hm" +s+ "}") [mkToolDelta 0 "" "weather" "}"] "tool_calls"];
  mkChunk (Some (mkTokenUsage 7 3)) []].
Definition takes_all (past : list StreamDelta) (d : StreamDelta) : option string := None.
Definition refuses_reasoning (past : list StreamDelta) (d : StreamDelta) : option string :=
  match d with DReasoning _ => Some "stop" | _ => None end.
Example fragments_joined :
  chatCompletionStream takes_all "zen" 5 fragments None =
  (inl (mkChatResponse "" "" (mkMessage "assistant" "Hello" [] "hm" [AgentTypes.mkToolCall "a" "get_weather" "{}"; AgentTypes.mkToolCall "b" "ls" "{}"] "" [])
     "hm" (mkTokenUsage 7 3) "tool_use"), [DText "Hel"; DText "lo"; DReasoning "hm"]) /\
  chatCompletionStream refuses_reasoning "zen" 5 fragments None = (inr ("stop", None), [DText "Hel"; DText "lo"; DReasoning "hm"]).
Proof. vm_compute. split; reflexivity. Qed.
Definition hm_json : string := "{" +s+ q "reasoning_content" +s+ ":" +s+ q "hm" +s+ "}".
Lemma stream_is_the_answer_witness :
  fst (chatCompletionStream takes_all "zen" 5 fragments None) = sync_answer "zen" 5 (inl (Some (whole_answer hm_json fragments))).
Proof. pose proof (stream_is_the_answer takes_all "zen" 5 fragments None hm_json eq_refl) as H. exact (f_equal fst H). Defined.

(** The switch of a title call, merged with a sampling field. *)
Definition titled (p : OpenAIProvider) : completion_request :=
  ask "qwen" "qwen3-32b" "Off" (mkSampling None None (Some 20) None None) [says_text "user" "title"] "{}".
Definition llama : OpenAIProvider := mkProvider "llama" "http://llama" ReasoningWireChatTemplateKwargs false.
Lemma tier_reaches_the_wire_witness :
  exists options preferred, ModelReasoningOptions fold_ascii "deepseek" "deepseek-v4-pro" = Some (options, preferred) /\
    thinking_of (cp_extra (build llama (ask "deepseek" "deepseek-v4-pro" "High" no_sampling [says_text "user" "title"] "{}"))) =
    Some (negb (String.eqb "minimal" "off" && existsb disables options)).
Proof.
  destruct (tier_reaches_the_wire fold_ascii makeBuiltInRegistry (fun t => t) llama
    (ask "deepseek" "deepseek-v4-pro" "High" no_sampling [says_text "user" "title"] "{}") "minimal") as (options & preferred & Ho & Ht & _);
    [vm_compute; reflexivity..|]. exists options, preferred. split; [exact Ho|exact Ht].
Defined.

Example null_schema : map ct_parameters (cp_Tools (build custom (ask "glm" "glm-5.2" "" no_sampling [] "null"))) = [None].
Proof. vm_compute. reflexivity. Qed.
End examples.
