(* ===== verification/Responses.v ===== *)
(** * Responses: [src/llm/provider_openai_responses.go]

    The provider of the models that are served by the Responses protocol only:
    the names a request may carry, the request, the reading of an answer, and
    the answer put together from the events of a stream whose last event may
    leave out what was streamed.

    Parameters: what the client library delivers (responses, events, errors),
    its method that joins the text of a response, and the sink of a stream. *)

From Stdlib Require Import ZArith Lia Ascii.
From stdpp Require Import base gmap strings list.
From S2P Require Import Prelude GoStr GoFloat AgentTypes Tokens Fence Json AnyJson ToolSyntax Router Sanitize OpenAI.
Open Scope sp4rk_scope.
Open Scope Z_scope.

(** ** Names on the wire *)

(** [[a-zA-Z0-9_-]] *)
Definition wire_rune (r : Z) : bool :=
  ((97 <=? r) && (r <=? 122)) || ((65 <=? r) && (r <=? 90)) || ((48 <=? r) && (r <=? 57)) || (r =? 95) || (r =? 45).
(** An underscore for every rune that may not be sent. *)
Definition clean_runes (s : string) : string := string_of_runes (map (fun r => if wire_rune r then r else 95) (runes s)).
Definition sanitizeResponsesFunctionName (name : string) : string :=
  let name := if (64 <? String.length name)%nat then take_str 64 name else name in
  if String.eqb (clean_runes name) "" then "unknown" else clean_runes name.

(** ** Requests *)

Inductive input_item :=
| InUser (content : string)
| InUserParts (parts : list content_part)
| InReasoning (id : string) (summary : list string) (encrypted : option string)
| InAssistant (content : string)
| InCall (callID name arguments : string)
| InOutput (callID output : string).

(** [isValidResponsesReasoningEffort] *)
Definition isValidResponsesReasoningEffort (effort : string) : bool :=
  bool_decide (effort ∈ ["none"; "minimal"; "low"; "medium"; "high"; "xhigh"; "max"]).

Definition reasoning_item (ri : ReasoningItem) : input_item :=
  InReasoning (ri_id ri) (if String.eqb (ri_summary ri) "" then [] else [ri_summary ri])
    (if String.eqb (ri_encrypted ri) "" then None else Some (ri_encrypted ri)).
Definition call_item (tc : AgentTypes.ToolCall) : input_item :=
  InCall (tc_id tc) (sanitizeResponsesFunctionName (tc_name tc)) (tc_input tc).
Definition message_items (msg : Message) : list input_item :=
  if String.eqb (m_role msg) "user" then
    match NormalizeContentBlocks msg with
    | [] => [InUser (m_content msg)]
    | blocks => [InUserParts (omap user_part blocks)]
    end
  else if String.eqb (m_role msg) "assistant" then
    map reasoning_item (m_reasoning_items msg) ++
    (if String.eqb (m_content msg) "" then [] else [InAssistant (m_content msg)]) ++
    map call_item (m_tool_calls msg)
  else if String.eqb (m_role msg) "tool" then
    [InOutput (m_tool_call_id msg) (if String.eqb (m_content msg) "" then "(no output)" else m_content msg)]
  else [].
Definition convertToResponsesInput (messages : list Message) : list input_item := flat_map message_items messages.

Record response_tool := mkRTool { rt_name : string; rt_description : option string; rt_parameters : option schema; rt_strict : bool }.

Section requests.
Context `{Float64}.
Variable float_text : string -> string.

(** [json.Unmarshal] of a text into a map with members: the members of the
    text are set, and the text null makes it nil. *)
Definition unmarshal_into (text : string) (m : schema) : option (option schema) :=
  match Unmarshal_map float_text text with
  | None => None
  | Some None => Some None
  | Some (Some more) => Some (Some (fold_left (fun acc kv => map_set (fst kv) (snd kv) acc) more m))
  end.
Definition convertToResponsesTool (tool : ToolDefinition) : response_tool :=
  let params :=
    if String.eqb (td_input_schema tool) "" then Some defaultObjectSchema
    else default (Some defaultObjectSchema) (unmarshal_into (SanitizeSchemaForOpenAI float_text (td_input_schema tool)) defaultObjectSchema) in
  mkRTool (td_name tool) (if String.eqb (td_description tool) "" then None else Some (td_description tool)) params true.
Definition convertToResponsesTools (tools : list ToolDefinition) : list response_tool := map convertToResponsesTool tools.

Record response_params := mkRParams {
  rp_Model : string;
  rp_Input : list input_item;
  rp_Store : option bool;
  rp_Instructions : option string;
  rp_MaxOutputTokens : option Z;
  rp_Temperature : option F;
  rp_TopP : option F;
  rp_Effort : string;      (** empty: no reasoning parameter *)
  rp_Include : list string;
  rp_Tools : list response_tool;
}.
Definition buildResponsesParams (req : completion_request) (baseURL : string) : response_params :=
  let q := cr_request req in
  let '(systemPrompt, filteredMsgs) := ExtractSystemPrompt (rq_Messages q) in
  mkRParams (rq_Model q) (convertToResponsesInput filteredMsgs)
    (if String.eqb baseURL "" then Some false else None)
    (if String.eqb systemPrompt "" then None else Some systemPrompt)
    (if 0 <? cr_MaxTokens req then Some (cr_MaxTokens req) else None)
    (sd_Temperature (rq_sampling q)) (sd_TopP (rq_sampling q))
    (if isValidResponsesReasoningEffort (cr_ReasoningEffort req) then cr_ReasoningEffort req else "")
    [] (convertToResponsesTools (cr_Tools req)).

(** The request of the streaming path. *)
Definition stream_params (req : completion_request) (baseURL : string) (requireStreaming : bool) : response_params :=
  let p := buildResponsesParams req baseURL in
  if negb requireStreaming then p
  else mkRParams (rp_Model p) (rp_Input p) (Some false) (rp_Instructions p) None (rp_Temperature p) (rp_TopP p)
    (if String.eqb (rp_Effort p) "minimal" || String.eqb (rp_Effort p) "none" then "low" else rp_Effort p)
    (rp_Include p ++ ["reasoning.encrypted_content"]) (rp_Tools p).
End requests.

(** ** Answers *)

Record part := mkPart { pt_type : string; pt_text : string; pt_refusal : string }.
Record output_item := mkItem {
  oi_type : string;
  oi_id : string;
  oi_summary : list string;
  oi_encrypted : string;
  oi_call_id : string;
  oi_name : string;
  oi_arguments : string;
  oi_content : list part;
}.
Record response := mkResponse {
  rs_output : list output_item;
  rs_status : string;
  rs_incomplete : string;
  rs_usage : TokenUsage;
  rs_error_code : string;
  rs_error_message : string;
}.

Definition is_item (t : string) (item : output_item) : bool := String.eqb (oi_type item) t.
Definition responsesReasoningSummary (item : output_item) : string :=
  fold_left (fun b s => if String.eqb s "" then b else (if String.eqb b "" then b else b +s+ nl) +s+ s) (oi_summary item) "".
Definition mapResponsesStopReason (resp : response) : string :=
  if existsb (is_item "function_call") (rs_output resp) then "tool_use"
  else if String.eqb (rs_status resp) "incomplete" then
    if String.eqb (rs_incomplete resp) "max_output_tokens" then "max_tokens" else "end_turn"
  else if String.eqb (rs_status resp) "failed" then "error"
  else "end_turn".

Definition kept_reasoning (item : output_item) : ReasoningItem :=
  mkReasoningItem (oi_id item) (responsesReasoningSummary item) (oi_encrypted item).
Definition kept_call (item : output_item) : AgentTypes.ToolCall := AgentTypes.mkToolCall (oi_call_id item) (oi_name item) (oi_arguments item).
Definition refusals (item : output_item) : list string :=
  map pt_refusal (List.filter (fun p => String.eqb (pt_type p) "refusal" && is_set (pt_refusal p)) (oi_content item)).
(** What the loop over the output collects: summaries, refusals, reasoning
    items, calls. *)
Record collected := mkCollected {
  co_reasoning : list string;
  co_refusals : list string;
  co_items : list ReasoningItem;
  co_calls : list AgentTypes.ToolCall;
}.
Definition collect (c : collected) (item : output_item) : collected :=
  if is_item "reasoning" item then
    let summary := responsesReasoningSummary item in
    mkCollected (if String.eqb summary "" then co_reasoning c else co_reasoning c ++ [summary]) (co_refusals c)
      (if String.eqb (oi_id item) "" then co_items c else co_items c ++ [kept_reasoning item]) (co_calls c)
  else if is_item "function_call" item then mkCollected (co_reasoning c) (co_refusals c) (co_items c) (co_calls c ++ [kept_call item])
  else if is_item "message" item then mkCollected (co_reasoning c) (co_refusals c ++ refusals item) (co_items c) (co_calls c)
  else c.

Section answers.
(** The method of the client library that joins the text of a response. *)
Variable OutputText : response -> string.

Definition convertResponsesResponse (resp : option response) : ChatResponse + error :=
  match resp with
  | None => inr ("responses API: nil response", None)
  | Some resp =>
      let c := fold_left collect (rs_output resp) (mkCollected [] [] [] []) in
      let content := if String.eqb (OutputText resp) "" && negb (bool_decide (co_refusals c = [])) then join nl (co_refusals c) else OutputText resp in
      let message := mkMessage "assistant" content [] (join nl (co_reasoning c)) (co_calls c) "" (co_items c) in
      inl (mkChatResponse "" "" message (m_reasoning message) (rs_usage resp) (mapResponsesStopReason resp))
  end.

(** ** What was streamed and left out at the end *)

Definition texts (item : output_item) : string :=
  if is_item "message" item
  then fold_left (fun b p => if String.eqb (pt_type p) "output_text" then b +s+ pt_text p else b) (oi_content item) ""
  else "".
Definition done_text (doneItems : list output_item) : string := fold_left (fun b item => b +s+ texts item) doneItems "".
Definition done_reasoning (doneItems : list output_item) : string :=
  join nl (List.filter is_set (map responsesReasoningSummary (List.filter (is_item "reasoning") doneItems))).

(** The items that are new: [known] holds the identifiers of those that are
    not, first of the reasoning items, then of the calls. *)
Definition merge_item (acc : (gset string * list ReasoningItem) * (gset string * list AgentTypes.ToolCall)) (item : output_item) :=
  let '((knownReasoning, items), (knownCalls, calls)) := acc in
  if is_item "reasoning" item then
    if String.eqb (oi_id item) "" || bool_decide (oi_id item ∈ knownReasoning) then acc
    else (({[oi_id item]} ∪ knownReasoning, items ++ [kept_reasoning item]), (knownCalls, calls))
  else if is_item "function_call" item then
    if String.eqb (oi_call_id item) "" || bool_decide (oi_call_id item ∈ knownCalls) then acc
    else ((knownReasoning, items), ({[oi_call_id item]} ∪ knownCalls, calls ++ [kept_call item]))
  else acc.
Definition applyStreamedOutputFallback (converted : ChatResponse) (text refusal reasoning : string) (doneItems : list output_item) : ChatResponse :=
  let m := r_message converted in
  let content :=
    if negb (String.eqb (m_content m) "") then m_content m
    else if negb (String.eqb text "") then text
    else if negb (String.eqb refusal "") then refusal
    else done_text doneItems in
  let thought := if negb (String.eqb (m_reasoning m) "") then m_reasoning m
                 else if negb (String.eqb reasoning "") then reasoning else done_reasoning doneItems in
  let shown := if String.eqb (m_reasoning m) "" && negb (String.eqb thought "") then thought else r_reasoning converted in
  let '((_, items), (_, calls)) := fold_left merge_item doneItems
    ((list_to_set (List.filter is_set (map ri_id (m_reasoning_items m))), m_reasoning_items m),
     (list_to_set (List.filter is_set (map tc_id (m_tool_calls m))), m_tool_calls m)) in
  mkChatResponse (r_model converted) (r_family converted)
    (mkMessage (m_role m) content (m_blocks m) thought calls (m_tool_call_id m) items) shown (r_usage converted)
    (match calls with [] => r_stop_reason converted | _ :: _ => "tool_use" end).

(** ** Streams *)

(** [isTransientResponsesSSECode] *)
Definition isTransientResponsesSSECode (code : string) : bool :=
  bool_decide (code ∈ ["server_error"; "server_busy"; "timeout"; "rate_limit_exceeded"; "overloaded_error"; "engine_overloaded"; "service_unavailable"]).
Definition responsesSSEKindForCode (code : string) : string :=
  if String.eqb code "rate_limit_exceeded" then "rate_limit"
  else if String.eqb code "server_busy" || String.eqb code "overloaded_error" then "overloaded" else "".
Definition responsesSSEError (providerName kind code message : string) : Router.Error :=
  mkError providerName 0 (isTransientResponsesSSECode code) (responsesSSEKindForCode code)
    ("responses API (stream): " +s+ kind +s+ ": " +s+ code +s+ ": " +s+ message).
Definition wrapResponsesError (providerName : string) (err : wire_error) : error :=
  match we_api err with
  | Some (status, message, body) =>
      let msg := enrichOpenAIError message body in
      of_Error (WrapProviderError providerName status
        ("responses API: " +s+ (if String.eqb msg "" then we_text err else msg +s+ ": " +s+ we_text err)) (we_transient err))
  | None => of_Error (WrapProviderError providerName 0 ("responses API: " +s+ we_text err) (we_transient err))
  end.
Definition no_terminal_event : string := "responses API (stream): stream ended without a terminal response event: unexpected EOF".

(** An event, with the fields the code reads of the flat union. *)
Record event := mkEvent {
  ev_type : string;
  ev_delta : string;
  ev_item : output_item;
  ev_code : string;
  ev_message : string;
  ev_response : response;
}.
Record events_state := mkEvents {
  es_text : string;
  es_refusal : string;
  es_reasoning : string;
  es_done : list output_item;
  es_terminal : option response;
  es_sent : list StreamDelta;
}.
Definition events_start : events_state := mkEvents "" "" "" [] None [].

Definition is_event (t : string) (ev : event) : bool := String.eqb (ev_type ev) t.
Definition text_event : string := "response.output_text.delta".
Definition refusal_event : string := "response.refusal.delta".
Definition reasoning_event : string := "response.reasoning_summary_text.delta".
Definition done_event : string := "response.output_item.done".

Section stream.
Variable sink : option (list StreamDelta -> StreamDelta -> option string).
Variable providerName : string.

(** The delta goes to the sink when there is one. *)
Definition forward (d : StreamDelta) (s : events_state) : events_state + error * events_state :=
  match sink with
  | None => inl s
  | Some f =>
      let s' := mkEvents (es_text s) (es_refusal s) (es_reasoning s) (es_done s) (es_terminal s) (es_sent s ++ [d]) in
      match f (es_sent s) d with Some e => inr ((e, None), s') | None => inl s' end
  end.
Definition event_step (s : events_state) (ev : event) : events_state + error * events_state :=
  let d := ev_delta ev in
  if is_event text_event ev then
    if String.eqb d "" then inl s
    else forward (DText d) (mkEvents (es_text s +s+ d) (es_refusal s) (es_reasoning s) (es_done s) (es_terminal s) (es_sent s))
  else if is_event refusal_event ev then
    if String.eqb d "" then inl s
    else forward (DText d) (mkEvents (es_text s) (es_refusal s +s+ d) (es_reasoning s) (es_done s) (es_terminal s) (es_sent s))
  else if is_event reasoning_event ev then
    if String.eqb d "" then inl s
    else forward (DReasoning d) (mkEvents (es_text s) (es_refusal s) (es_reasoning s +s+ d) (es_done s) (es_terminal s) (es_sent s))
  else if is_event done_event ev then
    inl (mkEvents (es_text s) (es_refusal s) (es_reasoning s) (es_done s ++ [ev_item ev]) (es_terminal s) (es_sent s))
  else if is_event "error" ev then
    inr (of_Error (responsesSSEError providerName "error event" (ev_code ev) (ev_message ev)), s)
  else if is_event "response.completed" ev || is_event "response.incomplete" ev then
    inl (mkEvents (es_text s) (es_refusal s) (es_reasoning s) (es_done s) (Some (ev_response ev)) (es_sent s))
  else if is_event "response.failed" ev then
    inr (of_Error (responsesSSEError providerName "response failed" (rs_error_code (ev_response ev)) (rs_error_message (ev_response ev))), s)
  else inl s.
Fixpoint events_loop (evs : list event) (s : events_state) : events_state + error * events_state :=
  match evs with
  | [] => inl s
  | ev :: evs => match event_step s ev with inl s => events_loop evs s | inr e => inr e end
  end.

(** The events, and the error the stream ended with, if any. *)
Definition responsesAPICompletionStream (evs : list event) (stream_err : option wire_error) : (ChatResponse + error) * list StreamDelta :=
  match events_loop evs events_start with
  | inr (e, s) => (inr e, es_sent s)
  | inl s =>
      (match stream_err with
       | Some err => inr (wrapResponsesError providerName err)
       | None =>
           match es_terminal s with
           | None => inr (of_Error (WrapProviderError providerName 0 no_terminal_event true))
           | Some terminal =>
               match convertResponsesResponse (Some terminal) with
               | inr e => inr e
               | inl converted => inl (applyStreamedOutputFallback converted (es_text s) (es_refusal s) (es_reasoning s) (es_done s))
               end
           end
       end, es_sent s)
  end.
End stream.

(** The answer to a call without streaming. *)
Definition responsesAPICompletion (providerName : string) (answer : option response + wire_error) : ChatResponse + error :=
  match answer with
  | inr err => inr (wrapResponsesError providerName err)
  | inl resp => convertResponsesResponse resp
  end.

(** The branch of [ChatCompletion]: what the endpoint does not serve is named. *)
Definition responses_branch (quote : string -> string) (model name : string) (r : ChatResponse + error) : ChatResponse + error :=
  match r with
  | inl resp => inl resp
  | inr err =>
      if isResponsesEndpointUnsupported err then
        inr ("openai: model " +s+ quote model +s+ " requires the Responses API (/responses) which is unavailable on provider " +s+ quote name +s+
             " (HTTP 404/405): " +s+ fst err, snd err)
      else inr err
  end.
End answers.

(** ** Names *)

Lemma clean_runes_spec s :
  String.length (clean_runes s) = length (runes s) /\ all_chars (fun c => wire_rune (byte_of c)) (clean_runes s) = true.
Proof.
  unfold clean_runes. induction (runes s) as [|r rs [IHl IHc]]; [done|]. cbn [map string_of_runes].
  set (x := if wire_rune r then r else 95).
  assert (Hx : wire_rune x = true) by (unfold x; destruct (wire_rune r) eqn:E; [exact E|reflexivity]).
  assert (Hr : 45 <= x < 128) by (revert Hx; unfold wire_rune; rewrite !orb_true_iff, !andb_true_iff, !Z.leb_le, !Z.eqb_eq; lia).
  assert (Henc : string_of_bytes (encode_rune x) = String (ascii_of x) "").
  { unfold encode_rune, valid_rune. replace ((0 <=? x) && (x <? 55296)) with true by (symmetry; apply andb_true_iff; lia).
    cbn [orb negb]. by replace (x <? 128) with true by (symmetry; apply Z.ltb_lt; lia). }
  rewrite Henc, length_sapp, all_chars_app. cbn [String.length all_chars length]. rewrite IHl, IHc, byte_of_ascii_of by lia. by rewrite Hx.
Qed.
Lemma runes_ascii s : all_chars (fun c => wire_rune (byte_of c)) s = true -> runes s = map byte_of (String.list_ascii_of_string s).
Proof.
  induction s as [|c s IH]; [done|]. cbn [all_chars]. intros [Hc Hs]%andb_true_iff. cbn [String.list_ascii_of_string map runes].
  assert ((byte_of c <? 128) = true) as -> by (revert Hc; unfold wire_rune; rewrite !orb_true_iff, !andb_true_iff, !Z.leb_le, !Z.eqb_eq, Z.ltb_lt; lia).
  by rewrite IH.
Qed.
Lemma clean_runes_id s : all_chars (fun c => wire_rune (byte_of c)) s = true -> clean_runes s = s.
Proof.
  intros H. unfold clean_runes. rewrite runes_ascii by done. induction s as [|c s IH]; [done|].
  cbn [all_chars] in H. apply andb_true_iff in H as [Hc Hs]. cbn [String.list_ascii_of_string map string_of_runes]. rewrite Hc, IH by done.
  assert (byte_of c < 128) by (revert Hc; unfold wire_rune; rewrite !orb_true_iff, !andb_true_iff, !Z.leb_le, !Z.eqb_eq; lia).
  assert (0 <= byte_of c) by apply byte_of_range.
  unfold encode_rune, valid_rune. replace ((0 <=? byte_of c) && (byte_of c <? 55296)) with true by (symmetry; apply andb_true_iff; lia).
  cbn [orb negb]. replace (byte_of c <? 128) with true by (symmetry; apply Z.ltb_lt; lia). cbn [string_of_bytes].
  by rewrite ascii_of_byte_of.
Qed.

Definition sendable (name : string) : Prop :=
  name <> "" /\ (String.length name <= 64)%nat /\ all_chars (fun c => wire_rune (byte_of c)) name = true.
Lemma length_clean_runes s : (String.length (clean_runes s) <= String.length s)%nat.
Proof. destruct (clean_runes_spec s) as [-> _]. pose proof (rune_count_le_slen s). unfold rune_count, slen in *. lia. Qed.

(** A name that can be sent, and the same one when it could be sent. *)
Theorem sanitizeResponsesFunctionName_contract name :
  sendable (sanitizeResponsesFunctionName name) /\ (sendable name -> sanitizeResponsesFunctionName name = name).
Proof.
  unfold sanitizeResponsesFunctionName. set (cut := if (64 <? String.length name)%nat then take_str 64 name else name).
  assert (Hcut : (String.length cut <= 64)%nat).
  { unfold cut. destruct (Nat.ltb_spec 64 (String.length name)); [rewrite length_take_str|]; lia. }
  split.
  - destruct (String.eqb_spec (clean_runes cut) "") as [_|Hne]; [split_and!; [done|cbn; lia|done]|].
    split_and!; [done|pose proof (length_clean_runes cut); lia|apply clean_runes_spec].
  - intros (Hne & Hlen & Hc). assert (cut = name) as -> by (unfold cut; destruct (Nat.ltb_spec 64 (String.length name)); [lia|done]).
    rewrite clean_runes_id by done. by destruct (String.eqb_spec name "").
Qed.

(** ** What a request may carry *)

Section asked.
Context `{Float64}.
Variable float_text : string -> string.

Definition call_of (i : input_item) : option (string * string) := match i with InCall id _ args => Some (id, args) | _ => None end.
Definition output_of (i : input_item) : option string := match i with InOutput id _ => Some id | _ => None end.
(** The efforts a backend that only streams takes. *)
Definition ladder : list string := ["low"; "medium"; "high"; "xhigh"; "max"].

Lemma omap_app_flat {A B C} (f : B -> option C) (g : A -> list B) l : omap f (flat_map g l) = flat_map (fun x => omap f (g x)) l.
Proof. induction l as [|x l IH]; [done|]. cbn [flat_map]. by rewrite omap_app, IH. Qed.
Lemma omap_none {A B} (f : A -> option B) l : (forall x, x ∈ l -> f x = None) -> omap f l = [].
Proof. intros Hf. induction l as [|x l IH]; [done|]. cbn [omap list_omap]. rewrite Hf by by left. apply IH. intros y Hy. apply Hf. by right. Qed.
Lemma omap_map_some {A B C} (f : B -> option C) (g : A -> B) (h : A -> C) l : (forall x, f (g x) = Some (h x)) -> omap f (map g l) = map h l.
Proof. intros Hf. induction l as [|x l IH]; [done|]. cbn [map omap list_omap]. by rewrite Hf, IH. Qed.

Definition role_is (r : string) (msg : Message) : bool := String.eqb (m_role msg) r.
Lemma message_items_cases msg :
  let items := message_items msg in
  omap call_of items = (if role_is "assistant" msg then map (fun tc => (tc_id tc, tc_input tc)) (m_tool_calls msg) else []) /\
  omap output_of items = (if role_is "tool" msg then [m_tool_call_id msg] else []) /\
  forall id name args, InCall id name args ∈ items -> sendable name.
Proof.
  cbv zeta. unfold message_items, role_is. destruct (String.eqb_spec (m_role msg) "user") as [->|_].
  - destruct (NormalizeContentBlocks msg); split_and!; try done; by intros id name args [=]%list_elem_of_singleton.
  - destruct (String.eqb_spec (m_role msg) "assistant") as [->|_].
    + rewrite !omap_app. rewrite (omap_none call_of (map reasoning_item _)), (omap_none output_of (map reasoning_item _)),
        (omap_none output_of (map call_item _)) by (intros x (y & -> & _)%list_elem_of_fmap; done).
      rewrite (omap_map_some call_of call_item (fun tc => (tc_id tc, tc_input tc))) by done.
      destruct (String.eqb (m_content msg) ""); (split_and!; [done|done|]); intros id name args; rewrite !elem_of_app, ?list_elem_of_singleton;
        (intros [(y & Hy & _)%list_elem_of_fmap|[Hc|(y & Hy & _)%list_elem_of_fmap]]; [done| |]);
        try (by apply elem_of_nil in Hc); try done;
        injection Hy as -> -> ->; apply sanitizeResponsesFunctionName_contract.
    + destruct (String.eqb_spec (m_role msg) "tool") as [_|_]; [|split_and!; try done; by intros id name args H0%elem_of_nil].
      split_and!; [done..|]. by intros id name args [=]%list_elem_of_singleton.
Qed.

(** A request of the Responses protocol carries nothing its endpoint
    rejects.  Every name of a call in its history can be sent; the calls of the
    assistant and the outputs they got keep their identifiers, arguments and
    order; an effort is one of the protocol; and to a backend that only streams
    it carries no cap of the output, stores nothing, asks for the reasoning in
    a form that can be sent back, and its effort is one that backend takes. *)
Theorem responses_request_accepted (req : completion_request) baseURL requireStreaming :
  let p := stream_params float_text req baseURL requireStreaming in
  let history := List.filter (fun m => negb (is_system m)) (rq_Messages (cr_request req)) in
  (forall id name args, InCall id name args ∈ rp_Input p -> sendable name) /\
  omap call_of (rp_Input p) = flat_map (fun m => if role_is "assistant" m then map (fun tc => (tc_id tc, tc_input tc)) (m_tool_calls m) else []) history /\
  omap output_of (rp_Input p) = flat_map (fun m => if role_is "tool" m then [m_tool_call_id m] else []) history /\
  (rp_Effort p = "" \/ isValidResponsesReasoningEffort (rp_Effort p) = true) /\
  (requireStreaming = true -> rp_Store p = Some false /\ rp_MaxOutputTokens p = None /\
     "reasoning.encrypted_content" ∈ rp_Include p /\ (rp_Effort p = "" \/ rp_Effort p ∈ ladder)).
Proof.
  cbv zeta. set (history := List.filter _ _).
  assert (Hin : rp_Input (stream_params float_text req baseURL requireStreaming) = convertToResponsesInput history).
  { unfold stream_params, buildResponsesParams. rewrite ExtractSystemPrompt_spec. by destruct requireStreaming. }
  rewrite Hin. unfold convertToResponsesInput. rewrite !omap_app_flat. split_and!.
  - intros id name args H1. apply list_elem_of_In, in_flat_map in H1 as (m & _ & Hi%list_elem_of_In). by apply (message_items_cases m) in Hi.
  - apply flat_map_ext. intros m. apply message_items_cases.
  - apply flat_map_ext. intros m. apply message_items_cases.
  - unfold stream_params, buildResponsesParams. rewrite ExtractSystemPrompt_spec.
    destruct requireStreaming; cbn [negb rp_Effort]; destruct (isValidResponsesReasoningEffort (cr_ReasoningEffort req)) eqn:E; auto.
    destruct (_ || _); auto.
  - intros ->. unfold stream_params, buildResponsesParams. rewrite ExtractSystemPrompt_spec. cbn [negb rp_Store rp_MaxOutputTokens rp_Include rp_Effort app].
    split_and!; [done|done|by left|]. unfold isValidResponsesReasoningEffort. case_bool_decide as E; [|by left]. right.
    rewrite !elem_of_cons in E. destruct E as [->|[->|[->|[->|[->|[->|[->|E%elem_of_nil]]]]]]]; [..|done];
      apply (bool_decide_unpack _); vm_compute; reflexivity.
Qed.
End asked.

(** ** Events *)

Section events.
Variable sink : option (list StreamDelta -> StreamDelta -> option string).
Variable providerName : string.

Definition opt_list {A} (o : option A) : list A := match o with Some x => [x] | None => [] end.
(** What the sink takes of deltas, if there is one. *)
Definition heard (past ds : list StreamDelta) : list StreamDelta * option string :=
  match sink with Some f => accept f past ds | None => (past, None) end.
Lemma heard_app past ds ds' : heard past (ds ++ ds') = match heard past ds with (p, None) => heard p ds' | r => r end.
Proof. unfold heard. destruct sink; [apply accept_app|done]. Qed.

Definition is_text (ev : event) : bool := is_event text_event ev.
Definition is_refusal (ev : event) : bool := negb (is_text ev) && is_event refusal_event ev.
Definition is_summary (ev : event) : bool := negb (is_text ev || is_event refusal_event ev) && is_event reasoning_event ev.
Definition is_done (ev : event) : bool := is_event done_event ev.
Definition is_terminal (ev : event) : bool := is_event "response.completed" ev || is_event "response.incomplete" ev.
Definition event_delta (ev : event) : option StreamDelta :=
  if String.eqb (ev_delta ev) "" then None
  else if is_text ev || is_event refusal_event ev then Some (DText (ev_delta ev))
  else if is_event reasoning_event ev then Some (DReasoning (ev_delta ev)) else None.
(** The error an event is. *)
Definition fatal (ev : event) : option Router.Error :=
  if is_event "error" ev then Some (responsesSSEError providerName "error event" (ev_code ev) (ev_message ev))
  else if is_event "response.failed" ev
  then Some (responsesSSEError providerName "response failed" (rs_error_code (ev_response ev)) (rs_error_message (ev_response ev)))
  else None.
Definition said (p : event -> bool) (evs : list event) : string := joined (map ev_delta (List.filter p evs)).
Definition done_items (evs : list event) : list output_item := map ev_item (List.filter is_done evs).
Definition terminals (evs : list event) : list response := map ev_response (List.filter is_terminal evs).
(** The state behind events none of which is an error. *)
Definition gathered (evs : list event) (sent : list StreamDelta) : events_state :=
  mkEvents (said is_text evs) (said is_refusal evs) (said is_summary evs) (done_items evs) (last (terminals evs)) sent.

Lemma said_snoc p evs ev : said p (evs ++ [ev]) = said p evs +s+ (if p ev then ev_delta ev else "").
Proof.
  unfold said. rewrite List.filter_app, map_app, joined_app. cbn [List.filter]. destruct (p ev); [cbn [map]; by rewrite joined_one|change (joined (map ev_delta [])) with ""; by rewrite !sapp_nil_r].
Qed.
Lemma done_items_snoc evs ev : done_items (evs ++ [ev]) = done_items evs ++ (if is_done ev then [ev_item ev] else []).
Proof. unfold done_items. rewrite List.filter_app, map_app. cbn [List.filter]. by destruct (is_done ev). Qed.
Lemma terminals_snoc evs ev : last (terminals (evs ++ [ev])) = if is_terminal ev then Some (ev_response ev) else last (terminals evs).
Proof.
  unfold terminals. rewrite List.filter_app, map_app. cbn [List.filter].
  destruct (is_terminal ev); [cbn [map]; by rewrite last_snoc|by rewrite app_nil_r].
Qed.

Lemma event_step_gathered evs sent ev :
  fatal ev = None ->
  match heard sent (opt_list (event_delta ev)) with
  | (sent', None) => event_step sink providerName (gathered evs sent) ev = inl (gathered (evs ++ [ev]) sent')
  | (sent', Some e) => exists s, event_step sink providerName (gathered evs sent) ev = inr ((e, None), s) /\ es_sent s = sent'
  end.
Proof.
  destruct ev as [t d item c m r]. unfold fatal, gathered. rewrite !said_snoc, done_items_snoc, terminals_snoc.
  unfold event_step, event_delta, is_refusal, is_summary, is_done, is_terminal, is_text, is_event, text_event, refusal_event, reasoning_event, done_event.
  cbn [es_text es_refusal es_reasoning es_done es_terminal es_sent ev_type ev_delta ev_item ev_code ev_message ev_response].
  repeat match goal with |- context [String.eqb t ?x] => destruct (String.eqb_spec t x) as [->|?] end; try discriminate; intros _;
    cbn [String.eqb Ascii.eqb Bool.eqb orb andb negb]; destruct (String.eqb_spec d "") as [->|Hd]; cbn [opt_list].
  all: rewrite ?sapp_nil_r, ?app_nil_r; unfold heard, forward, opt_list; cbn [accept es_text es_refusal es_reasoning es_done es_terminal es_sent].
  all: destruct sink as [f|]; [try match goal with |- context [match ?u with Some _ => _ | None => _ end] => destruct u end|]; eauto.
Qed.

Lemma events_loop_gathered rest evs sent :
  Forall (fun ev => fatal ev = None) rest ->
  match heard sent (omap event_delta rest) with
  | (sent', None) => events_loop sink providerName rest (gathered evs sent) = inl (gathered (evs ++ rest) sent')
  | (sent', Some e) => exists s, events_loop sink providerName rest (gathered evs sent) = inr ((e, None), s) /\ es_sent s = sent'
  end.
Proof.
  revert evs sent. induction rest as [|ev rest IH]; intros evs sent Hr.
  - cbn [omap list_omap events_loop]. rewrite app_nil_r. unfold heard. by destruct sink.
  - apply Forall_cons in Hr as [Hev Hr]. assert (omap event_delta (ev :: rest) = opt_list (event_delta ev) ++ omap event_delta rest) as ->.
    { cbn [omap list_omap]. by destruct (event_delta ev). }
    rewrite heard_app. pose proof (event_step_gathered evs sent ev Hev) as Hstep. cbn [events_loop].
    destruct (heard sent (opt_list (event_delta ev))) as [sent' [e|]].
    + destruct Hstep as (s & -> & Hs). by exists s.
    + rewrite Hstep. specialize (IH (evs ++ [ev]) sent' Hr). by rewrite <- app_assoc in IH.
Qed.
End events.

(** ** What the last event leaves out *)

Section whole.
(** The client library joins the [output_text] parts of the messages. *)
Variable OutputText : response -> string.
Hypothesis joins_texts : forall r, OutputText r = done_text (rs_output r).

Definition with_output (items : list output_item) (r : response) : response :=
  mkResponse items (rs_status r) (rs_incomplete r) (rs_usage r) (rs_error_code r) (rs_error_message r).
Definition reasonings (items : list output_item) : list output_item := List.filter (is_item "reasoning") items.
Definition calls_in (items : list output_item) : list output_item := List.filter (is_item "function_call") items.
Definition all_refusals (items : list output_item) : list string := flat_map refusals (List.filter (is_item "message") items).
Definition has_id (item : output_item) : bool := is_set (oi_id item).

Lemma collect_spec items :
  fold_left collect items (mkCollected [] [] [] []) =
  mkCollected (List.filter is_set (map responsesReasoningSummary (reasonings items))) (all_refusals items)
    (map kept_reasoning (List.filter has_id (reasonings items))) (map kept_call (calls_in items)).
Proof.
  induction items as [|item items IH] using rev_ind; [done|].
  rewrite fold_left_app, IH. unfold reasonings, all_refusals, calls_in. rewrite !List.filter_app. cbn [fold_left List.filter]. unfold collect.
  unfold is_item. destruct (String.eqb_spec (oi_type item) "reasoning") as [E|_].
  - rewrite E. cbn [String.eqb Ascii.eqb Bool.eqb co_reasoning co_refusals co_items co_calls]. rewrite !app_nil_r, map_app, !List.filter_app, map_app.
    cbn [map List.filter]. unfold has_id, is_set. f_equal.
    + by destruct (String.eqb (responsesReasoningSummary item) ""); rewrite ?app_nil_r.
    + by destruct (String.eqb (oi_id item) ""); rewrite ?app_nil_r.
  - cbn [app]. rewrite !app_nil_r. destruct (String.eqb_spec (oi_type item) "function_call") as [E|_].
    + rewrite E. cbn [String.eqb Ascii.eqb Bool.eqb co_reasoning co_refusals co_items co_calls]. by rewrite app_nil_r, map_app.
    + destruct (String.eqb (oi_type item) "message"); cbn [co_reasoning co_refusals co_items co_calls]; rewrite ?app_nil_r; [|done].
      rewrite flat_map_app. cbn [flat_map]. by rewrite !app_nil_r.
Qed.

(** The pieces agree with the items: each part of the answer was streamed as it
    is in the items or not at all, and the items can be told apart. *)
Record agrees (items : list output_item) (text refusal reasoning : string) : Prop := {
  ag_text : done_text items <> "" -> text = done_text items \/ (text = "" /\ refusal = "");
  ag_refusal : done_text items = "" -> text = "" /\ refusal = join nl (all_refusals items);
  ag_reasoning : reasoning = "" \/ reasoning = done_reasoning items;
  ag_calls : NoDup (map oi_call_id (calls_in items)) /\ "" ∉ map oi_call_id (calls_in items);
  ag_items : NoDup (map oi_id (List.filter has_id (reasonings items)));
}.

Lemma merge_known items K1 L1 K2 L2 :
  (forall i, i ∈ items -> is_item "reasoning" i = true -> oi_id i = "" \/ oi_id i ∈ K1) ->
  (forall i, i ∈ items -> is_item "function_call" i = true -> oi_call_id i = "" \/ oi_call_id i ∈ K2) ->
  fold_left merge_item items ((K1, L1), (K2, L2)) = ((K1, L1), (K2, L2)).
Proof.
  induction items as [|i items IH]; intros H1 H2; [done|]. cbn [fold_left].
  assert (merge_item ((K1, L1), (K2, L2)) i = ((K1, L1), (K2, L2))) as ->; [|apply IH; intros j Hj; [apply H1|apply H2]; by right].
  unfold merge_item. destruct (is_item "reasoning" i) eqn:E1.
  - destruct (H1 i) as [->|Hk]; [by left|done|done|]. rewrite (bool_decide_eq_true_2 _ Hk). by rewrite orb_true_r.
  - destruct (is_item "function_call" i) eqn:E2; [|done].
    destruct (H2 i) as [->|Hk]; [by left|done|done|]. rewrite (bool_decide_eq_true_2 _ Hk). by rewrite orb_true_r.
Qed.
Lemma merge_new items K1 L1 K2 L2 :
  NoDup (map oi_id (List.filter has_id (reasonings items))) ->
  (forall i, i ∈ items -> is_item "reasoning" i = true -> oi_id i ∉ K1) ->
  NoDup (map oi_call_id (calls_in items)) -> "" ∉ map oi_call_id (calls_in items) ->
  (forall i, i ∈ items -> is_item "function_call" i = true -> oi_call_id i ∉ K2) ->
  let '((_, L1'), (_, L2')) := fold_left merge_item items ((K1, L1), (K2, L2)) in
  L1' = L1 ++ map kept_reasoning (List.filter has_id (reasonings items)) /\ L2' = L2 ++ map kept_call (calls_in items).
Proof.
  revert K1 L1 K2 L2. induction items as [|i items IH]; intros K1 L1 K2 L2 N1 H1 N2 Hne H2.
  - cbn [fold_left reasonings calls_in List.filter map]. by rewrite !app_nil_r.
  - assert (H1' : forall j, j ∈ items -> is_item "reasoning" j = true -> oi_id j ∉ K1) by (intros j Hj; apply H1; by right).
    assert (H2' : forall j, j ∈ items -> is_item "function_call" j = true -> oi_call_id j ∉ K2) by (intros j Hj; apply H2; by right).
    cbn [fold_left]. unfold merge_item at 2. revert N1 N2 Hne. unfold reasonings, calls_in. cbn [List.filter].
    destruct (is_item "reasoning" i) eqn:E1.
    + assert (is_item "function_call" i = false) as ->.
      { unfold is_item in *. apply String.eqb_eq in E1 as ->. done. }
      cbn [List.filter]. destruct (String.eqb_spec (oi_id i) "") as [Ei|Ei].
      { assert (has_id i = false) as -> by (unfold has_id, is_set; by rewrite Ei). intros N1 N2 Hne. by apply IH. }
      assert (has_id i = true) as -> by (unfold has_id, is_set; by destruct (String.eqb_spec (oi_id i) "")).
      assert (Hk : oi_id i ∉ K1) by (apply H1; [by left|done]). rewrite (bool_decide_eq_false_2 _ Hk). cbn [orb map]. intros [Hni N1]%NoDup_cons N2 Hne.
      specialize (IH ({[oi_id i]} ∪ K1) (L1 ++ [kept_reasoning i]) K2 L2). rewrite <- app_assoc in IH. apply IH; try done.
      intros j Hj Ej. rewrite elem_of_union, elem_of_singleton. intros [Eq|Hk']; [|by apply (H1' j Hj Ej)].
      apply Hni. rewrite <- Eq. apply list_elem_of_fmap_2, list_elem_of_In, List.filter_In. split; [apply List.filter_In; split; [by apply list_elem_of_In|done]|].
      unfold has_id, is_set. by rewrite Eq, (proj2 (String.eqb_neq _ _) Ei).
    + destruct (is_item "function_call" i) eqn:E2; [|intros N1 N2 Hne; by apply IH].
      cbn [map]. intros N1 [Hni N2]%NoDup_cons Hne. rewrite not_elem_of_cons in Hne. destruct Hne as [Hne0 Hne].
      assert (Hk : oi_call_id i ∉ K2) by (apply H2; [by left|done]).
      rewrite (proj2 (String.eqb_neq _ _) (fun e => Hne0 (eq_sym e))), (bool_decide_eq_false_2 _ Hk). cbn [orb].
      specialize (IH K1 L1 ({[oi_call_id i]} ∪ K2) (L2 ++ [kept_call i])). rewrite <- app_assoc in IH. apply IH; try done.
      intros j Hj Ej. rewrite elem_of_union, elem_of_singleton. intros [Eq|Hk']; [|by apply (H2' j Hj Ej)].
      apply Hni. rewrite <- Eq. apply list_elem_of_fmap_2, list_elem_of_In, List.filter_In. split; [by apply list_elem_of_In|done].
Qed.

Notation convert := (convertResponsesResponse OutputText).

Lemma convert_eq r :
  convert (Some r) =
  let content := if String.eqb (done_text (rs_output r)) "" then join nl (all_refusals (rs_output r)) else done_text (rs_output r) in
  let thought := done_reasoning (rs_output r) in
  inl (mkChatResponse "" "" (mkMessage "assistant" content [] thought (map kept_call (calls_in (rs_output r))) ""
    (map kept_reasoning (List.filter has_id (reasonings (rs_output r))))) thought (rs_usage r) (mapResponsesStopReason r)).
Proof.
  unfold convertResponsesResponse. rewrite collect_spec, joins_texts. cbv zeta. cbn [co_reasoning co_refusals co_items co_calls m_reasoning].
  fold (done_reasoning (rs_output r)). repeat f_equal.
  destruct (String.eqb_spec (done_text (rs_output r)) "") as [E|_]; [|done]. cbn [andb].
  destruct (all_refusals (rs_output r)); [exact E|done].
Qed.
Lemma stop_reason items r :
  mapResponsesStopReason (with_output items r) =
  match map kept_call (calls_in items) with [] => mapResponsesStopReason (with_output [] r) | _ :: _ => "tool_use" end.
Proof.
  unfold mapResponsesStopReason, calls_in. cbn [rs_output with_output rs_status rs_incomplete existsb].
  induction items as [|i items IH]; [done|]. cbn [existsb List.filter]. destruct (is_item "function_call" i); [done|exact IH].
Qed.
Lemma set_ids {A} (id : A -> string) l x : x ∈ (list_to_set (List.filter is_set (map id l)) : gset string) <-> x <> "" /\ x ∈ map id l.
Proof.
  rewrite elem_of_list_to_set, list_elem_of_In, List.filter_In, list_elem_of_In. unfold is_set.
  destruct (String.eqb_spec x ""); split; intros [? ?]; split; done.
Qed.

Lemma content_completes items text refusal o :
  (done_text items <> "" -> text = done_text items \/ (text = "" /\ refusal = "")) ->
  (done_text items = "" -> text = "" /\ refusal = join nl (all_refusals items)) -> o = [] \/ o = items ->
  let content o := if String.eqb (done_text o) "" then join nl (all_refusals o) else done_text o in
  (if negb (String.eqb (content o) "") then content o
   else if negb (String.eqb text "") then text else if negb (String.eqb refusal "") then refusal else done_text items) = content items.
Proof.
  intros Ht Hr Ho. cbv zeta. destruct (String.eqb_spec (done_text items) "") as [E|E].
  - destruct (Hr E) as [-> Hrf]. destruct Ho as [->| ->].
    + cbn [done_text fold_left String.eqb negb all_refusals List.filter flat_map join]. rewrite Hrf, E.
      by destruct (String.eqb_spec (join nl (all_refusals items)) "") as [->|].
    + rewrite E. cbn [String.eqb negb]. rewrite Hrf. by destruct (String.eqb_spec (join nl (all_refusals items)) "") as [->|].
  - destruct Ho as [->| ->].
    + cbn [done_text fold_left String.eqb negb all_refusals List.filter flat_map join].
      destruct (Ht E) as [->|[-> ->]]; by rewrite (proj2 (String.eqb_neq _ _) E).
    + apply String.eqb_neq in E. by rewrite !E.
Qed.
Lemma merge_completes items o :
  NoDup (map oi_id (List.filter has_id (reasonings items))) ->
  NoDup (map oi_call_id (calls_in items)) -> "" ∉ map oi_call_id (calls_in items) -> o = [] \/ o = items ->
  let kept o := map kept_reasoning (List.filter has_id (reasonings o)) in
  let asked o := map kept_call (calls_in o) in
  let '((_, items'), (_, calls')) := fold_left merge_item items
      ((list_to_set (List.filter is_set (map ri_id (kept o))), kept o), (list_to_set (List.filter is_set (map tc_id (asked o))), asked o)) in
  items' = kept items /\ calls' = asked items.
Proof.
  intros Hi Hc Hc0 Ho. cbv zeta. destruct Ho as [->| ->].
  - cbn [reasonings calls_in List.filter map list_to_set].
    by apply (merge_new items ∅ [] ∅ []); [..|intros; apply not_elem_of_empty|done|done|intros; apply not_elem_of_empty].
  - rewrite merge_known; [done|intros i Hii Ei|intros i Hii Ei].
    + destruct (decide (oi_id i = "")) as [|Hne]; [by left|right]. apply set_ids. split; [done|]. rewrite map_map.
      apply (list_elem_of_fmap_2 (fun x => ri_id (kept_reasoning x))), list_elem_of_In, List.filter_In.
      split; [apply List.filter_In; split; [by apply list_elem_of_In|done]|]. unfold has_id, is_set. by rewrite (proj2 (String.eqb_neq _ _) Hne).
    + destruct (decide (oi_call_id i = "")) as [|Hne]; [by left|right]. apply set_ids. split; [done|]. rewrite map_map.
      apply (list_elem_of_fmap_2 (fun x => tc_id (kept_call x))), list_elem_of_In, List.filter_In. split; [by apply list_elem_of_In|done].
Qed.

(** Whether the last event has the whole output or none of it, what was
    streamed makes up for the rest. *)
Lemma fallback_completes items r text refusal reasoning o :
  agrees items text refusal reasoning -> o = [] \/ o = items ->
  match convert (Some (with_output o r)) with
  | inl c => inl (applyStreamedOutputFallback c text refusal reasoning items)
  | inr e => inr e
  end = convert (Some (with_output items r)).
Proof.
  intros [Ht Hr Hre [Hc Hc0] Hi] Ho. rewrite !convert_eq. cbv zeta. f_equal. unfold applyStreamedOutputFallback.
  cbn [r_message m_content m_reasoning m_tool_calls m_reasoning_items m_role m_blocks m_tool_call_id r_reasoning r_model r_family r_usage r_stop_reason with_output rs_output].
  pose proof (content_completes items text refusal o Ht Hr Ho) as Hcontent. cbv zeta in Hcontent. rewrite Hcontent.
  assert (Hthought : (if negb (String.eqb (done_reasoning o) "") then done_reasoning o
      else if negb (String.eqb reasoning "") then reasoning else done_reasoning items) = done_reasoning items).
  { destruct (String.eqb_spec (done_reasoning o) "") as [E|E]; cbn [negb].
    - destruct Hre as [->| ->]; [done|]. by destruct (String.eqb (done_reasoning items) "").
    - destruct Ho as [->| ->]; done. }
  rewrite Hthought. pose proof (merge_completes items o Hi Hc Hc0 Ho) as Hmerge. cbv zeta in Hmerge.
  destruct (fold_left merge_item items _) as [[k1 items'] [k2 calls']]. destruct Hmerge as [-> ->].
  assert (Hshown : (if String.eqb (done_reasoning o) "" && negb (String.eqb (done_reasoning items) "") then done_reasoning items else done_reasoning o) =
    done_reasoning items).
  { destruct Ho as [->| ->]; [|by destruct (String.eqb _ _)]. change (done_reasoning []) with "". cbn [String.eqb andb].
    by destruct (String.eqb_spec (done_reasoning items) "") as [->|]. }
  rewrite Hshown. f_equal. rewrite (stop_reason items). destruct (map kept_call (calls_in items)) eqn:Ec; [|done].
  destruct Ho as [->| ->]; [done|]. by rewrite stop_reason, Ec.
Qed.

Lemma with_output_own r : with_output (rs_output r) r = r.
Proof. by destruct r. Qed.

(** C12: The answer of a stream is the answer of a call without one, even when
    the last event leaves out what was streamed.  When the last event's output
    is the finished items or nothing at all, and the pieces agree with the
    items, the result is the synchronous one to the whole output; the sink gets
    the pieces in their order up to the first it refuses, whose error is the
    result; and a stream that fails is no answer. *)
Theorem responses_stream_whole sink name evs r stream_err
    (Hquiet : Forall (fun ev => fatal name ev = None) evs)
    (Hlast : last (terminals evs) = Some r)
    (Hout : rs_output r = [] \/ rs_output r = done_items evs)
    (Hagree : agrees (done_items evs) (said is_text evs) (said is_refusal evs) (said is_summary evs)) :
  let '(sent, refused) := heard sink [] (omap event_delta evs) in
  responsesAPICompletionStream OutputText sink name evs stream_err =
  (match refused, stream_err with
   | Some e, _ => inr (e, None)
   | None, Some err => inr (wrapResponsesError name err)
   | None, None => responsesAPICompletion OutputText name (inl (Some (with_output (done_items evs) r)))
   end, sent).
Proof.
  pose proof (events_loop_gathered sink name evs [] [] Hquiet) as Hl. cbn [app] in Hl.
  unfold responsesAPICompletionStream. change events_start with (gathered [] []).
  destruct (heard sink [] (omap event_delta evs)) as [sent [e|]].
  - destruct Hl as (s & -> & <-). done.
  - rewrite Hl. cbn [gathered es_sent es_terminal es_text es_refusal es_reasoning es_done]. destruct stream_err; [done|]. rewrite Hlast. f_equal.
    pose proof (fallback_completes _ r _ _ _ (rs_output r) Hagree Hout) as Hf. rewrite with_output_own in Hf.
    cbn [responsesAPICompletion]. rewrite <- Hf. by destruct (convert (Some r)).
Qed.
End whole.

(** An event that is an error ends the stream with it, whatever follows. *)
Theorem fatal_event_ends OutputText sink name before ev after stream_err e sent :
  Forall (fun ev => fatal name ev = None) before -> fatal name ev = Some e ->
  heard sink [] (omap event_delta before) = (sent, None) ->
  responsesAPICompletionStream OutputText sink name (before ++ ev :: after) stream_err = (inr (of_Error e), sent).
Proof.
  intros Hb He Hs. pose proof (events_loop_gathered sink name before [] [] Hb) as Hl. rewrite Hs in Hl. cbn [app] in Hl.
  unfold responsesAPICompletionStream. change events_start with (gathered [] []).
  assert (Happ : forall l s, events_loop sink name (l ++ ev :: after) s =
    match events_loop sink name l s with inl s => events_loop sink name (ev :: after) s | inr x => inr x end).
  { induction l as [|x l IH]; intros s; [done|]. cbn [app events_loop]. destruct (event_step sink name s x); [apply IH|done]. }
  rewrite Happ, Hl. cbn [events_loop]. assert (Hstep : event_step sink name (gathered before sent) ev = inr (of_Error e, gathered before sent)); [|by rewrite Hstep].
  revert He. unfold fatal, event_step, is_event, text_event, refusal_event, reasoning_event, done_event.
  destruct (String.eqb_spec (ev_type ev) "error") as [->|_]; [intros [= <-]; done|].
  destruct (String.eqb_spec (ev_type ev) "response.failed") as [->|_]; [intros [= <-]; done|done].
Qed.

(** ** Examples *)

Section examples.
Local Existing Instance Float64_Q.
Definition library_text (r : response) : string := done_text (rs_output r).
Definition said_message (parts : list part) : output_item := mkItem "message" "" [] "" "" "" "" parts.
Definition thought_item : output_item := mkItem "reasoning" "rs1" ["plan"] "enc" "" "" "" [].
Definition asked_call : output_item := mkItem "function_call" "" [] "" "c1" "read" "{}" [].
Definition empty_end : response := mkResponse [] "completed" "" (mkTokenUsage 9 4) "" "".
Definition delta_ev (t d : string) : event := mkEvent t d asked_call "" "" empty_end.
Definition done_ev (i : output_item) : event := mkEvent done_event "" i "" "" empty_end.
Definition end_ev : event := mkEvent "response.completed" "" asked_call "" "" empty_end.

(** An end with no output: the answer is put together from what came before. *)
Definition bare_end : list event :=
  [delta_ev reasoning_event "plan"; done_ev thought_item; delta_ev text_event "Hel"; delta_ev text_event "lo";
   done_ev (said_message [mkPart "output_text" "Hello" ""]); done_ev asked_call; end_ev].
Definition listens : option (list StreamDelta -> StreamDelta -> option string) := Some (fun _ _ => None).
Lemma bare_end_agrees : agrees (done_items bare_end) (said is_text bare_end) (said is_refusal bare_end) (said is_summary bare_end).
Proof.
  split; [intros _; left; vm_compute; reflexivity|intros E; vm_compute in E; discriminate|right; vm_compute; reflexivity| |].
  - split; [apply (bool_decide_unpack _); vm_compute; reflexivity|apply (bool_decide_unpack _); vm_compute; reflexivity].
  - apply (bool_decide_unpack _); vm_compute; reflexivity.
Qed.
Lemma responses_stream_whole_witness :
  responsesAPICompletionStream library_text listens "openai" bare_end None =
  (responsesAPICompletion library_text "openai" (inl (Some (with_output (done_items bare_end) empty_end))),
   [DReasoning "plan"; DText "Hel"; DText "lo"]).
Proof.
  exact (responses_stream_whole library_text (fun _ => eq_refl) listens "openai" bare_end empty_end None
    ltac:(repeat constructor) eq_refl (or_introl eq_refl) bare_end_agrees).
Defined.

(** A refusal that only the finished item carries is lost behind an empty end;
    the call without a stream shows it. *)
Definition refusal_item : output_item := said_message [mkPart "refusal" "" "I cannot"].
Example done_refusal_lost :
  match fst (responsesAPICompletionStream library_text listens "openai" [done_ev refusal_item; end_ev] None) with
  | inl r => m_content (r_message r) = "" /\ r_stop_reason r = "end_turn"
  | inr _ => False
  end /\
  match responsesAPICompletion library_text "openai" (inl (Some (with_output [refusal_item] empty_end))) with
  | inl r => m_content (r_message r) = "I cannot"
  | inr _ => False
  end.
Proof. vm_compute. done. Qed.

(** A made-up name may become the name of a tool. *)
Example cleaned_name_is_a_tool : sanitizeResponsesFunctionName "mcp.files.read" = "mcp_files_read" /\ sanitizeResponsesFunctionName "" = "unknown".
Proof. vm_compute. done. Qed.

Example null_response_schema : rt_parameters (convertToResponsesTool (fun t => t) (mkToolDefinition "ping" "" "null")) = None.
Proof. vm_compute. reflexivity. Qed.

Definition codex_request : completion_request :=
  mkCompletion (mkRequest "gpt-5.3-codex" "openai_codex" ""
    [mkMessage "system" "s" [] "" [] "" []; mkMessage "assistant" "" [] "" [AgentTypes.mkToolCall "c1" "functions.ls" "{}"] "" [mkReasoningItem "rs1" "" "enc"];
     mkMessage "tool" "" [] "" [] "c1" []] "" no_sampling false) 500 [] "minimal".
Example codex_request_built :
  let p := stream_params (fun t => t) codex_request "http://codex" true in
  rp_Input p = [InReasoning "rs1" [] (Some "enc"); InCall "c1" "functions_ls" "{}"; InOutput "c1" "(no output)"] /\
  rp_Effort p = "low" /\ rp_MaxOutputTokens p = None /\ rp_Instructions p = Some "s".
Proof. vm_compute. done. Qed.
End examples.
