(* ===== verification/Anthropic.v ===== *)
(** * Messages: [src/llm/provider_anthropic.go]

    The provider of the Claude models and of endpoints that speak their
    protocol: the request, which the endpoint rejects as a whole when one part
    of it is malformed; the answer, which may be an error in disguise; the
    stream, whose callbacks cannot fail; and the bounded copy of the body that
    diagnostics quote.

    Parameters: what the client library delivers, rounding to float32, and the
    sink of a stream. *)

From Stdlib Require Import ZArith Lia Ascii.
From stdpp Require Import base gmap strings list.
From S2P Require Import Prelude GoStr GoFloat AgentTypes Tokens Fence Json AnyJson ToolSyntax Oneshot Router Sanitize OpenAI Responses.
Open Scope sp4rk_scope.
Open Scope Z_scope.

Definition defaultAnthropicMaxTokens : Z := 8192.
Definition sanitizeAnthropicToolID (id : string) : string := clean_runes id.

Definition normalizeAnthropicBaseURL (base : string) : string :=
  let trimmed := trim_right_byte "/" base in
  if has_suffix trimmed "/v1" then trimmed else trimmed +s+ "/v1".

(** ** The copy of a body *)

Definition maxCapturedBodyBytes : Z := 65536.
(** [capturedBody.write]; [cap]: [maxCapturedBodyBytes]. *)
Definition capture_write (cap : Z) (buf p : string) : string :=
  let room := cap - slen buf in
  if room <=? 0 then buf
  else buf +s+ (if room <? slen p then take_str (Z.to_nat room) p else p).
(** [capturingBody.Read], read after read. *)
Definition captured (reads : list string) : string := fold_left (capture_write maxCapturedBodyBytes) reads "".

Definition maxErrorText : nat := 2048.
Definition truncateForError (b : string) : string :=
  let s := trim_space b in
  if (maxErrorText <? String.length s)%nat then take_str maxErrorText s +s+ " …(truncated)" else s.

(** ** Requests *)

Inductive block :=
| BText (text : string)
| BImage (media data : string)
| BToolUse (id name input : string)
| BToolResult (id content : string) (is_error : bool).
Record anthropic_message := mkAMessage { am_role : string; am_content : list block }.

Definition user_block (blk : ContentBlock) : option block :=
  if String.eqb (cb_type blk) "text" then Some (BText (cb_text blk))
  else if String.eqb (cb_type blk) "image" then Some (BImage (cb_media_type blk) (cb_image_b64 blk))
  else None.
Definition convertMessage (msg : Message) : anthropic_message + string :=
  if String.eqb (m_role msg) "user" then
    inl (mkAMessage "user" (match NormalizeContentBlocks msg with
                            | [] => [BText (m_content msg)]
                            | blocks => omap user_block blocks
                            end))
  else if String.eqb (m_role msg) "assistant" then
    inl (mkAMessage "assistant" ((if String.eqb (m_content msg) "" then [] else [BText (m_content msg)]) ++
      map (fun tc => BToolUse (sanitizeAnthropicToolID (tc_id tc)) (tc_name tc) (tc_input tc)) (m_tool_calls msg)))
  else if String.eqb (m_role msg) "tool" then
    inl (mkAMessage "user" [BToolResult (sanitizeAnthropicToolID (m_tool_call_id msg)) (m_content msg) false])
  else inr ("unsupported message role: " +s+ m_role msg).

(** Nothing to render. *)
Definition is_blank (msg : Message) : bool :=
  String.eqb (m_content msg) "" && bool_decide (m_blocks msg = []) && bool_decide (m_tool_calls msg = []) && String.eqb (m_tool_call_id msg) "".
Fixpoint convert_messages (messages : list Message) : list anthropic_message + string :=
  match messages with
  | [] => inl []
  | msg :: rest =>
      if is_blank msg then convert_messages rest
      else match convertMessage msg with
      | inr e => inr e
      | inl m =>
          match convert_messages rest with
          | inr e => inr e
          | inl ms => inl (match am_content m with [] => ms | _ :: _ => m :: ms end)
          end
      end
  end.
Definition historyHasAssistantToolUse (msgs : list Message) : bool :=
  existsb (fun msg => String.eqb (m_role msg) "assistant" && negb (bool_decide (m_tool_calls msg = []))) msgs.

(** The text of a schema, or the map that stands for none. *)
Record anthropic_tool := mkATool { at_name : string; at_description : string; at_schema : string + schema }.
(** A part of the system prompt, and whether it is marked to be cached. *)
Inductive system_prompt := NoSystem | System (text : string) | MultiSystem (parts : list (string * bool)).

Section requests.
Context `{Float64}.
(** The conversion to float32. *)
Variable float32 : F -> F.
Variable float_text : string -> string.

Record anthropic_request := mkARequest {
  ar_Model : string;
  ar_Messages : list anthropic_message;
  ar_MaxTokens : Z;
  ar_System : system_prompt;
  ar_Temperature : option F;
  ar_TopP : option F;
  ar_TopK : option Z;
  ar_Thinking : option Z;   (** the budget *)
  ar_Tools : list anthropic_tool;
}.

Definition system_of (systemParts : list string) : system_prompt :=
  match systemParts with
  | [] => NoSystem
  | [part] => System part
  | parts => MultiSystem (imap (fun i part => (part, bool_decide (S i < length parts)%nat)) parts)
  end.
Definition convert_tool (tool : ToolDefinition) : anthropic_tool :=
  let sanitized := SanitizeSchemaForAnthropic float_text (td_input_schema tool) in
  mkATool (td_name tool) (td_description tool) (if String.eqb sanitized "" then inr defaultObjectSchema else inl sanitized).
Definition thinking_budget (effort : string) (filteredMsgs : list Message) (maxTokens : Z) : option Z :=
  if String.eqb effort "On" && negb (historyHasAssistantToolUse filteredMsgs) then
    let budget := if maxTokens <=? 32000 then maxTokens / 2 else 32000 in
    if 1024 <=? budget then Some budget else None
  else None.

Definition buildRequest (req : completion_request) : anthropic_request + string :=
  let q := cr_request req in
  match first_invalid (rq_Messages q) with
  | Some e => inr ("anthropic: " +s+ e)
  | None =>
      let '(systemParts, filteredMsgs) := ExtractSystemPromptParts (rq_Messages q) in
      match convert_messages filteredMsgs with
      | inr e => inr e
      | inl messages =>
          let maxTokens := if cr_MaxTokens req <=? 0 then defaultAnthropicMaxTokens else cr_MaxTokens req in
          let thinking := thinking_budget (cr_ReasoningEffort req) filteredMsgs maxTokens in
          let unless_thinking {A} (v : option A) : option A := match thinking with Some _ => None | None => v end in
          let sd := rq_sampling q in
          inl (mkARequest (rq_Model q) messages maxTokens (system_of systemParts)
            (unless_thinking (float32 <$> sd_Temperature sd)) (unless_thinking (float32 <$> sd_TopP sd)) (unless_thinking (sd_TopK sd))
            thinking (map convert_tool (cr_Tools req)))
      end
  end.
End requests.

(** ** Answers *)

Inductive answer_block :=
| ATextBlock (text : string)
| AThinkingBlock (thinking : option string)
| AToolUseBlock (call : option AgentTypes.ToolCall)
| AOtherBlock.
Record messages_response := mkAResponse {
  as_type : string;
  as_content : list answer_block;
  as_stop : string;
  as_input : Z;
  as_cache_creation : Z;
  as_cache_read : Z;
  as_output : Z;
}.

Definition error_detail (rawBody : string) : string :=
  let detail := truncateForError rawBody in if String.eqb detail "" then "(no response body captured)" else detail.
(** Content, reasoning and calls, block after block. *)
Definition read_block (acc : string * string * list AgentTypes.ToolCall) (b : answer_block) : string * string * list AgentTypes.ToolCall :=
  let '(content, reasoning, calls) := acc in
  match b with
  | ATextBlock text => ((if String.eqb content "" then content else content +s+ nl) +s+ text, reasoning, calls)
  | AThinkingBlock (Some t) => (content, (if String.eqb reasoning "" then reasoning else reasoning +s+ nl) +s+ t, calls)
  | AToolUseBlock (Some call) => (content, reasoning, calls ++ [call])
  | _ => acc
  end.
Section answers.
Variable quote : string -> string.
Variable name : string.

Definition parseResponse (resp : messages_response) (rawBody : string) : ChatResponse + error :=
  if String.eqb (as_type resp) "error" then
    inr ("anthropic: endpoint " +s+ quote name +s+ " returned an error response: " +s+ error_detail rawBody, None)
  else
    let '(content, reasoning, calls) := fold_left read_block (as_content resp) ("", "", []) in
    if String.eqb content "" && bool_decide (calls = []) then
      inr ("anthropic: endpoint " +s+ quote name +s+ " returned a 200 response with no content (stop_reason=" +s+ quote (as_stop resp) +s+
           ") — this usually indicates a non-compliant Anthropic-compatible endpoint; verify the base_url includes the correct API path. Raw body: " +s+
           error_detail rawBody, None)
    else inl (mkChatResponse "" "" (mkMessage "assistant" content [] "" calls "" []) reasoning
      (mkTokenUsage (as_input resp + as_cache_creation resp + as_cache_read resp) (as_output resp)) (as_stop resp)).

(** An error of the client library: its text, its own class of error if it has
    one, the status of a failed request if it has one, and what
    [classifyNetError] says. *)
Inductive api_class := RateLimited | Overloaded | ApiFailed | OtherApiError.
Record anthropic_error := mkAError { ae_text : string; ae_api : option api_class; ae_status : option Z; ae_transient : bool }.
Definition wrapAnthropicError (err : anthropic_error) : error :=
  let text := "anthropic: API error: " +s+ ae_text err in
  match ae_api err with
  | Some c =>
      of_Error (mkError name 0 (match c with OtherApiError => false | _ => true end)
        (match c with RateLimited => "rate_limit" | Overloaded => "overloaded" | _ => "" end) text)
  | None => of_Error (WrapProviderError name (default 0 (ae_status err)) text (ae_transient err))
  end.
Definition anthropic_eof : anthropic_error := mkAError "unexpected EOF" None None true.

(** ** The call *)

(** What the callbacks are called with. *)
Inductive callback := OnTextDelta (text : string) | OnThinkingDelta (thinking : option string) | OnOtherDelta | OnMessageStop.
Record callback_state := mkCallbacks { cs_sinkErr : option string; cs_stop : bool; cs_sent : list StreamDelta }.
Section stream.
Variable sink : list StreamDelta -> StreamDelta -> option string.
Definition give (d : StreamDelta) (s : callback_state) : callback_state :=
  mkCallbacks (sink (cs_sent s) d) (cs_stop s) (cs_sent s ++ [d]).
Definition callback_step (s : callback_state) (c : callback) : callback_state :=
  match c with
  | OnMessageStop => mkCallbacks (cs_sinkErr s) true (cs_sent s)
  | _ =>
      if cs_sinkErr s then s
      else match c with
      | OnTextDelta text => if String.eqb text "" then s else give (DText text) s
      | OnThinkingDelta (Some t) => if String.eqb t "" then s else give (DReasoning t) s
      | _ => s
      end
  end.
(** The calls of the library, and what it returns in the end. *)
Definition anthropicStream (calls : list callback) (result : messages_response + anthropic_error) (rawBody : string)
    : (ChatResponse + error) * list StreamDelta :=
  let s := fold_left callback_step calls (mkCallbacks None false []) in
  (match cs_sinkErr s with
   | Some e => inr (e, None)
   | None =>
       match result with
       | inr err => inr (wrapAnthropicError err)
       | inl resp => if cs_stop s then parseResponse resp rawBody else inr (wrapAnthropicError anthropic_eof)
       end
   end, cs_sent s).
End stream.
Definition anthropicSync (result : messages_response + anthropic_error) (rawBody : string) : ChatResponse + error :=
  match result with inr err => inr (wrapAnthropicError err) | inl resp => parseResponse resp rawBody end.
End answers.

(** ** What is sent *)

Definition tool_use (b : block) : option (string * string * string) := match b with BToolUse id name input => Some (id, name, input) | _ => None end.
Definition tool_result (b : block) : option (string * string) := match b with BToolResult id content _ => Some (id, content) | _ => None end.
Definition id_sendable (b : block) : Prop :=
  match b with
  | BToolUse id _ _ | BToolResult id _ _ => all_chars (fun c => wire_rune (byte_of c)) id = true
  | _ => True
  end.
Definition known_role (msg : Message) : bool := role_is "user" msg || role_is "assistant" msg || role_is "tool" msg.
(** The calls and results of the history, as they are sent. *)
Definition uses_in (msg : Message) : list (string * string * string) :=
  if role_is "assistant" msg then map (fun tc => (clean_runes (tc_id tc), tc_name tc, tc_input tc)) (m_tool_calls msg) else [].
Definition results_in (msg : Message) : list (string * string) :=
  if role_is "tool" msg && negb (is_blank msg) then [(clean_runes (m_tool_call_id msg), m_content msg)] else [].

Lemma user_block_plain blk b : user_block blk = Some b -> tool_use b = None /\ tool_result b = None /\ id_sendable b.
Proof. unfold user_block. destruct (String.eqb (cb_type blk) "text"); [by intros [= <-]|]. destruct (String.eqb (cb_type blk) "image"); [by intros [= <-]|done]. Qed.
Lemma user_blocks_plain blocks :
  omap tool_use (omap user_block blocks) = [] /\ omap tool_result (omap user_block blocks) = [] /\ Forall id_sendable (omap user_block blocks).
Proof.
  assert (Hp : forall b, b ∈ omap user_block blocks -> tool_use b = None /\ tool_result b = None /\ id_sendable b).
  { intros b (blk & _ & Hb)%list_elem_of_omap. by eapply user_block_plain. }
  split_and!; [apply omap_none; intros b Hb; by apply Hp|apply omap_none; intros b Hb; by apply Hp|].
  apply Forall_forall. intros b Hb. by apply Hp.
Qed.

Lemma convertMessage_spec msg :
  match convertMessage msg with
  | inl m => known_role msg = true /\ (am_role m = "user" \/ am_role m = "assistant") /\ Forall id_sendable (am_content m) /\
      omap tool_use (am_content m) = uses_in msg /\ (is_blank msg = false -> omap tool_result (am_content m) = results_in msg)
  | inr _ => known_role msg = false
  end.
Proof.
  unfold convertMessage, known_role, uses_in, results_in, role_is.
  destruct (String.eqb_spec (m_role msg) "user") as [->|_].
  - cbn [orb am_role am_content]. destruct (NormalizeContentBlocks msg) as [|b bs]; [split_and!; eauto; by repeat constructor|].
    destruct (user_blocks_plain (b :: bs)) as (H1 & H2 & H3). split_and!; auto.
  - destruct (String.eqb_spec (m_role msg) "assistant") as [->|_].
    + cbn [orb am_role am_content]. split_and!; auto.
      * apply Forall_app. split; [by destruct (String.eqb (m_content msg) ""); repeat constructor|].
        apply Forall_map, Forall_true. intros tc. apply clean_runes_spec.
      * rewrite omap_app. rewrite (omap_map_some tool_use _ (fun tc => (clean_runes (tc_id tc), tc_name tc, tc_input tc))) by done.
        by destruct (String.eqb (m_content msg) "").
      * intros _. rewrite omap_app, (omap_none tool_result (map _ _)) by (intros b (tc & -> & _)%list_elem_of_fmap; done).
        by destruct (String.eqb (m_content msg) "").
    + destruct (String.eqb (m_role msg) "tool"); [|done]. cbn [orb am_role am_content andb]. split_and!; auto.
      * repeat constructor. apply clean_runes_spec.
      * intros ->. done.
Qed.
Lemma blank_uses msg : is_blank msg = true -> uses_in msg = [] /\ results_in msg = [].
Proof.
  intros Hb. unfold results_in, uses_in. rewrite Hb, andb_false_r. unfold is_blank in Hb. rewrite !andb_true_iff, !bool_decide_eq_true in Hb.
  destruct Hb as [[[_ _] ->] _]. by destruct (role_is "assistant" msg).
Qed.

(** What becomes of the history. *)
Lemma convert_messages_spec messages :
  match convert_messages messages with
  | inl ms =>
      Forall (fun m => is_blank m = true \/ known_role m = true) messages /\
      Forall (fun m => am_content m <> [] /\ (am_role m = "user" \/ am_role m = "assistant") /\ Forall id_sendable (am_content m)) ms /\
      flat_map (fun m => omap tool_use (am_content m)) ms = flat_map uses_in messages /\
      flat_map (fun m => omap tool_result (am_content m)) ms = flat_map results_in messages
  | inr _ => Exists (fun m => is_blank m = false /\ known_role m = false) messages
  end.
Proof.
  induction messages as [|msg rest IH]; [split_and!; constructor|]. cbn [convert_messages flat_map].
  destruct (is_blank msg) eqn:Eb.
  - destruct (blank_uses msg Eb) as [-> ->]. destruct (convert_messages rest); [|by right].
    destruct IH as (H1 & H2 & H3 & H4). split_and!; try done. constructor; auto.
  - pose proof (convertMessage_spec msg) as Hm. destruct (convertMessage msg) as [m|e]; [|by left].
    destruct Hm as (Hk & Hr & Hid & Hu & Hres). specialize (Hres Eb).
    destruct (convert_messages rest) as [ms|e]; [|by right]. destruct IH as (H1 & H2 & H3 & H4).
    rewrite <- Hu, <- Hres, <- H3, <- H4. destruct (am_content m) eqn:Ec; [split_and!; auto|].
    split_and!; [auto| |cbn [flat_map]; by rewrite Ec..]. constructor; [|done]. by rewrite Ec.
Qed.

Section sent.
Context `{Float64}.
Variable float32 : F -> F.
Variable float_text : string -> string.

(** C13: What the Claude models are sent can be accepted.  Every message has
    content and one of two roles; every identifier of a call has only the
    characters that are allowed, and no call and no result of the history is
    lost; the cap of the output is positive; and thinking is asked for only with
    a budget of at least 1024 tokens below the cap, without any sampling
    parameter and with no call in the history.  A request is refused only for
    an invalid image or a message with content whose role is unknown. *)
Theorem anthropic_request_valid req :
  let history := List.filter (fun m => negb (is_system m)) (rq_Messages (cr_request req)) in
  match buildRequest float32 float_text req with
  | inl r =>
      0 < ar_MaxTokens r /\
      Forall (fun m => am_content m <> [] /\ (am_role m = "user" \/ am_role m = "assistant") /\ Forall id_sendable (am_content m)) (ar_Messages r) /\
      flat_map (fun m => omap tool_use (am_content m)) (ar_Messages r) = flat_map uses_in history /\
      flat_map (fun m => omap tool_result (am_content m)) (ar_Messages r) = flat_map results_in history /\
      forall budget, ar_Thinking r = Some budget ->
        1024 <= budget < ar_MaxTokens r /\ ar_Temperature r = None /\ ar_TopP r = None /\ ar_TopK r = None /\
        flat_map (fun m => omap tool_use (am_content m)) (ar_Messages r) = []
  | inr _ => first_invalid (rq_Messages (cr_request req)) <> None \/ Exists (fun m => is_blank m = false /\ known_role m = false) history
  end.
Proof.
  cbv zeta. set (history := List.filter _ _). unfold buildRequest. rewrite ExtractSystemPromptParts_spec. fold history.
  destruct (first_invalid _); [by left|]. pose proof (convert_messages_spec history) as Hh.
  destruct (convert_messages history) as [ms|e]; [|by right]. destruct Hh as (_ & Hms & Hu & Hr).
  cbn [ar_MaxTokens ar_Messages ar_Thinking ar_Temperature ar_TopP ar_TopK].
  set (cap := if cr_MaxTokens req <=? 0 then defaultAnthropicMaxTokens else cr_MaxTokens req).
  assert (Hcap : 0 < cap) by (unfold cap; destruct (Z.leb_spec (cr_MaxTokens req) 0); [done|lia]).
  split_and!; try done. intros budget Hb. rewrite Hb. unfold thinking_budget in Hb.
  destruct (String.eqb (cr_ReasoningEffort req) "On"); [|done]. destruct (historyHasAssistantToolUse history) eqn:Ht; [done|].
  cbn [andb negb] in Hb. destruct (Z.leb_spec 1024 (if cap <=? 32000 then cap / 2 else 32000)) as [Hle|]; [|done]. injection Hb as <-.
  split_and!; try done; [|].
  - destruct (Z.leb_spec cap 32000); [|lia]. apply Z.div_lt; lia.
  - rewrite Hu. clear -Ht. induction history as [|m l IH]; [done|]. cbn [historyHasAssistantToolUse existsb] in Ht.
    apply orb_false_iff in Ht as [Hm Hl]. cbn [flat_map]. rewrite (IH Hl), app_nil_r. unfold uses_in, role_is.
    destruct (String.eqb (m_role m) "assistant"); [|done]. cbn [andb] in Hm. apply negb_false_iff, bool_decide_eq_true in Hm as ->. done.
Qed.
End sent.

(** ** What is read *)

Definition block_text (b : answer_block) : option string := match b with ATextBlock t => Some t | _ => None end.
Definition block_thought (b : answer_block) : option string := match b with AThinkingBlock t => t | _ => None end.
Definition block_call (b : answer_block) : option AgentTypes.ToolCall := match b with AToolUseBlock c => c | _ => None end.
Lemma read_blocks l content reasoning calls :
  fold_left read_block l (content, reasoning, calls) =
  (fold_left put_line (omap block_text l) content, fold_left put_line (omap block_thought l) reasoning, calls ++ omap block_call l).
Proof.
  revert content reasoning calls. induction l as [|b l IH]; intros content reasoning calls; [cbn; by rewrite app_nil_r|].
  cbn [fold_left omap list_omap]. destruct b as [t|[t|]|[c|]|]; cbn [read_block block_text block_thought block_call];
    rewrite IH; [done..|by rewrite <- app_assoc|done|done].
Qed.

(** An answer is never empty: it has the texts, the thoughts and the calls of
    the response; and it is refused exactly when it is an error or has neither
    text nor call. *)
Theorem parseResponse_contract quote name resp rawBody :
  let texts := omap block_text (as_content resp) in
  let calls := omap block_call (as_content resp) in
  match parseResponse quote name resp rawBody with
  | inl r =>
      (m_content (r_message r) <> "" \/ m_tool_calls (r_message r) <> []) /\
      m_content (r_message r) = system_text texts /\ r_reasoning r = system_text (omap block_thought (as_content resp)) /\
      m_tool_calls (r_message r) = calls /\ r_stop_reason r = as_stop resp
  | inr (text, e) => e = None /\ (as_type resp = "error" \/ (Forall (fun t => t = "") texts /\ calls = []))
  end.
Proof.
  cbv zeta. unfold parseResponse. destruct (String.eqb_spec (as_type resp) "error") as [E|E]; [by split; [|left]|].
  rewrite read_blocks, !put_lines. cbn [app].
  destruct (String.eqb_spec (system_text (omap block_text (as_content resp))) "") as [Et|Et]; cbn [andb]; [case_bool_decide as Ec|].
  - split; [done|right]. split; [by apply system_text_empty|done].
  - cbn [r_message m_content m_tool_calls r_reasoning r_stop_reason]. split_and!; try done. by right.
  - cbn [r_message m_content m_tool_calls r_reasoning r_stop_reason]. split_and!; try done. by left.
Qed.

(** *** Streams *)

Definition callback_delta (c : callback) : option StreamDelta :=
  match c with
  | OnTextDelta t => if String.eqb t "" then None else Some (DText t)
  | OnThinkingDelta (Some t) => if String.eqb t "" then None else Some (DReasoning t)
  | _ => None
  end.
Definition is_stop (c : callback) : bool := match c with OnMessageStop => true | _ => false end.

Lemma callbacks_spec sink calls stop sent :
  fold_left (callback_step sink) calls (mkCallbacks None stop sent) =
  let '(sent', refused) := accept sink sent (omap callback_delta calls) in mkCallbacks refused (stop || existsb is_stop calls) sent'.
Proof.
  assert (Hoff : forall calls e stop sent, fold_left (callback_step sink) calls (mkCallbacks (Some e) stop sent) =
    mkCallbacks (Some e) (stop || existsb is_stop calls) sent).
  { clear. induction calls as [|c calls IH]; intros e stop sent; [by rewrite orb_false_r|]. cbn [fold_left existsb].
    destruct c; cbn [callback_step cs_sinkErr is_stop cs_stop cs_sent]; rewrite IH; [done..|by destruct stop]. }
  assert (Hgive : forall d calls stop sent,
    (forall stop sent, fold_left (callback_step sink) calls (mkCallbacks None stop sent) =
       let '(sent', refused) := accept sink sent (omap callback_delta calls) in mkCallbacks refused (stop || existsb is_stop calls) sent') ->
    fold_left (callback_step sink) calls (give sink d (mkCallbacks None stop sent)) =
    let '(sent', refused) := accept sink sent (d :: omap callback_delta calls) in mkCallbacks refused (stop || existsb is_stop calls) sent').
  { clear -Hoff. intros d calls stop sent IH. unfold give. cbn [cs_sent cs_stop accept]. destruct (sink sent d); [apply Hoff|apply IH]. }
  revert stop sent. induction calls as [|c calls IH]; intros stop sent; [cbn; by rewrite orb_false_r|]. cbn [fold_left omap list_omap existsb].
  destruct c as [t|[t|]| |]; cbn [callback_step cs_sinkErr callback_delta is_stop orb].
  - destruct (String.eqb t ""); [apply IH|by apply Hgive].
  - destruct (String.eqb t ""); [apply IH|by apply Hgive].
  - apply IH.
  - apply IH.
  - cbn [cs_stop cs_sent]. rewrite IH. by destruct stop.
Qed.

(** The sink gets the deltas in order up to the first it refuses, whose error
    is the result, whatever the library does after it was told to stop; a stream
    without its last event is no answer; every other one is the answer of a
    call without a sink. *)
Theorem anthropic_stream_is_sync quote name sink calls result rawBody :
  let '(sent, refused) := accept sink [] (omap callback_delta calls) in
  anthropicStream quote name sink calls result rawBody =
  (match refused, result with
   | Some e, _ => inr (e, None)
   | None, inl _ => if existsb is_stop calls then anthropicSync quote name result rawBody else inr (wrapAnthropicError name anthropic_eof)
   | None, inr _ => anthropicSync quote name result rawBody
   end, sent).
Proof.
  unfold anthropicStream, anthropicSync. rewrite callbacks_spec. destruct (accept sink [] _) as [sent [e|]]; [done|]. cbn [cs_sinkErr cs_stop cs_sent orb].
  by destruct result.
Qed.

(** *** The copy *)

Lemma take_str_short n a : (String.length a <= n)%nat -> take_str n a = a.
Proof. revert n; induction a as [|c a IH]; intros [|n] Hl; cbn in *; [done..|lia|]. f_equal. apply IH. lia. Qed.
Lemma take_str_sapp n a b : take_str n (a +s+ b) = take_str n a +s+ take_str (n - String.length a) b.
Proof.
  revert n; induction a as [|c a IH]; intros n; [cbn [String.length]; rewrite Nat.sub_0_r; by destruct n|]. destruct n as [|n]; [done|].
  cbn [String.length Nat.sub]. change (String c a +s+ b) with (String c (a +s+ b)). cbn [take_str]. by rewrite IH.
Qed.
Lemma capture_write_spec cap body p : 0 <= cap -> capture_write cap (take_str (Z.to_nat cap) body) p = take_str (Z.to_nat cap) (body +s+ p).
Proof.
  intros Hm. unfold capture_write. unfold slen. rewrite length_take_str, take_str_sapp.
  destruct (Z.leb_spec (cap - Z.of_nat (Z.to_nat cap `min` String.length body)) 0) as [Hle|Hgt].
  - assert ((Z.to_nat cap - String.length body)%nat = 0%nat) as -> by lia. by destruct p; cbn [take_str]; rewrite sapp_nil_r.
  - rewrite (take_str_short (Z.to_nat cap) body) by lia. f_equal.
    destruct (Z.ltb_spec (cap - Z.of_nat (Z.to_nat cap `min` String.length body)) (Z.of_nat (String.length p))) as [Hp|Hp].
    + f_equal. lia.
    + symmetry. apply take_str_short. lia.
Qed.
Lemma capture_all cap reads body :
  0 <= cap -> fold_left (capture_write cap) reads (take_str (Z.to_nat cap) body) = take_str (Z.to_nat cap) (body +s+ joined reads).
Proof.
  intros Hm. revert body. induction reads as [|p reads IH]; intros body; [cbn [fold_left joined fold_right]; by rewrite sapp_nil_r|].
  cbn [fold_left]. rewrite capture_write_spec, IH by done. by rewrite sapp_assoc.
Qed.
Lemma capture_from_nothing cap reads : 0 <= cap -> fold_left (capture_write cap) reads "" = take_str (Z.to_nat cap) (joined reads).
Proof. intros Hm. pose proof (capture_all cap reads "" Hm) as H. by destruct (Z.to_nat cap). Qed.
(** However the body is read, the copy is its first 64 KiB. *)
Theorem captured_is_prefix reads : captured reads = take_str (Z.to_nat maxCapturedBodyBytes) (joined reads).
Proof. apply capture_from_nothing. unfold maxCapturedBodyBytes. lia. Qed.

(** ** Examples *)

Section examples.
Local Existing Instance Float64_Q.
Notation build := (buildRequest (fun f => f) (fun t => t)).
Definition user_says (text : string) : Message := mkMessage "user" text [] "" [] "" [].
Definition on_request (cap : Z) (messages : list Message) : completion_request :=
  mkCompletion (mkRequest "claude" "anthropic" "" messages "" (mkSampling None None (Some 5) None None) false) cap [] "On".

(** A small cap leaves half of it for thinking, or none; a call in the history
    turns it off, and then the sampling parameters stay. *)
Example budgets :
  (forall cap budget, (cap, budget) ∈ [(0, Some 4096); (2047, None); (2048, Some 1024); (32000, Some 16000); (64000, Some 32000)] ->
     match build (on_request cap [user_says "go"]) with
     | inl r => ar_Thinking r = budget /\ ar_TopK r = match budget with None => Some 5 | Some _ => None end
     | inr _ => False
     end) /\
  match build (on_request 64000 [user_says "go"; mkMessage "assistant" "" [] "" [AgentTypes.mkToolCall "a.1" "ls" "{}"] "" []; mkMessage "tool" "ok" [] "" [] "a.1" []]) with
  | inl r => ar_Thinking r = None /\ map am_content (ar_Messages r) = [[BText "go"]; [BToolUse "a_1" "ls" "{}"]; [BToolResult "a_1" "ok" false]]
  | inr _ => False
  end.
Proof.
  split; [|vm_compute; done]. intros cap budget. rewrite !elem_of_cons.
  repeat (intros [[= -> ->]|Hin]; [vm_compute; done|revert Hin]). by intros ?%elem_of_nil.
Qed.
Example system_marks :
  map system_of [[]; ["a"]; ["a"; "b"; "c"]] = [NoSystem; System "a"; MultiSystem [("a", true); ("b", true); ("c", false)]].
Proof. vm_compute. reflexivity. Qed.
Example base_urls :
  map normalizeAnthropicBaseURL ["https://api.z.ai/api/anthropic"; "http://x/v1/"; "http://x/v1"] =
  ["https://api.z.ai/api/anthropic/v1"; "http://x/v1"; "http://x/v1"].
Proof. vm_compute. reflexivity. Qed.
Example null_input_schema : at_schema (convert_tool (fun t => t) (mkToolDefinition "ping" "" "null")) = inl "null".
Proof. vm_compute. reflexivity. Qed.
End examples.
