(* ===== verification/TaskRouter.v ===== *)
(** * The task router: [src/agent/router/router.go], [src/agent/router/types.go]

    The router asks the model for the domain and the complexity of a request
    and for the skills and tools that match it, and puts right what the model
    gets wrong.  Theorem: what [Route] asks and what it returns.

    Parameters: as for the planner, the order of ranges over maps, texts of JSON
    errors, the caller, whether the context is done before an attempt. *)

From Stdlib Require Import ZArith Lia Ascii.
From stdpp Require Import base gmap strings list.
From S2P Require Import Prelude GoStr AgentTypes Prompt Json Oneshot Registry Planner ModelTable Reasoning.
Open Scope sp4rk_scope.
Open Scope Z_scope.

(** ** Decisions *)

Definition DomainCode : string := "code".
Definition DomainResearch : string := "research".
Definition DomainGeneral : string := "general".
Definition DomainMixed : string := "mixed".

(** A slice is [None] when it is nil. *)
Record RoutingDecision := mkDecision {
  rd_Domain : string;
  rd_Complexity : Z;
  rd_NeedsClarification : bool;
  rd_MatchedSkills : option (list string);
  rd_MatchedTools : option (list string);
}.

(** A JSON number into an [int]: an integer literal in range. *)
Definition int_literal (raw : string) : option Z :=
  let '(sign, digits) := match raw with
    | String c r => if Ascii.eqb c "-" then (-1, r) else (1, raw)
    | "" => (1, "")
    end in
  if String.eqb digits "" || negb (String.eqb (skip_digits digits) "") then None
  else let v := sign * Json.digits_value digits 0 in
       if (- 2 ^ 63 <=? v) && (v <? 2 ^ 63) then Some v else None.
Definition dec_literal : decoder Z := fun old raw =>
  match json_decode raw with Some (JNum n) => int_literal n | Some JNull => Some old | _ => None end.

Definition zero_decision : RoutingDecision := mkDecision "" 0 false None None.
Definition decision_fields : list (string * decoder RoutingDecision) :=
  [("domain", field rd_Domain (fun v d => mkDecision v (rd_Complexity d) (rd_NeedsClarification d) (rd_MatchedSkills d) (rd_MatchedTools d)) dec_string);
   ("complexity", field rd_Complexity (fun v d => mkDecision (rd_Domain d) v (rd_NeedsClarification d) (rd_MatchedSkills d) (rd_MatchedTools d)) dec_literal);
   ("needs_clarification", field rd_NeedsClarification (fun v d => mkDecision (rd_Domain d) (rd_Complexity d) v (rd_MatchedSkills d) (rd_MatchedTools d)) dec_bool);
   ("matched_skills", field rd_MatchedSkills (fun v d => mkDecision (rd_Domain d) (rd_Complexity d) (rd_NeedsClarification d) v (rd_MatchedTools d)) (dec_slice "" dec_string));
   ("matched_tools", field rd_MatchedTools (fun v d => mkDecision (rd_Domain d) (rd_Complexity d) (rd_NeedsClarification d) (rd_MatchedSkills d) v) (dec_slice "" dec_string))].

Fixpoint dedupe (seen : gset string) (values : list string) : list string :=
  match values with
  | [] => []
  | v :: values =>
      let v := trim_space v in
      if String.eqb v "" || bool_decide (v ∈ seen) then dedupe seen values else v :: dedupe ({[ v ]} ∪ seen) values
  end.
Definition dedupeAndTrimStrings (values : option (list string)) : option (list string) :=
  match values with
  | None | Some [] => values
  | Some l => Some (dedupe ∅ l)
  end.
Definition valid_domain (d : string) : bool :=
  String.eqb d DomainCode || String.eqb d DomainResearch || String.eqb d DomainGeneral || String.eqb d DomainMixed.
Definition validateRoutingDecision (d : RoutingDecision) : RoutingDecision :=
  let low := if rd_Complexity d <? 1 then 1 else rd_Complexity d in
  mkDecision (if valid_domain (rd_Domain d) then rd_Domain d else DomainGeneral) (if 5 <? low then 5 else low) (rd_NeedsClarification d)
    (dedupeAndTrimStrings (rd_MatchedSkills d)) (dedupeAndTrimStrings (rd_MatchedTools d)).

(** ** The prompt *)

Record router_config := mkRouterConfig {
  ro_SystemPrompt : string;
  ro_HistoryWindow : Z;
  ro_AppendContextSections : option string;                       (** what the hook makes of the context *)
  ro_ToolMatching : bool;
  ro_ReasoningEffort : string;
  ro_Family : string;
  ro_Model : string;
}.
(** A caller's configuration has no effort yet. *)
Definition Router_New (cfg : router_config) : router_config :=
  mkRouterConfig (ro_SystemPrompt cfg) (if ro_HistoryWindow cfg <=? 0 then 10 else ro_HistoryWindow cfg) (ro_AppendContextSections cfg)
    (ro_ToolMatching cfg) "" (ro_Family cfg) (ro_Model cfg).
Definition Router_SetReasoningEffort (effort : string) (r : router_config) : router_config :=
  mkRouterConfig (ro_SystemPrompt r) (ro_HistoryWindow r) (ro_AppendContextSections r) (ro_ToolMatching r) effort (ro_Family r) (ro_Model r).
Definition SetToolMatching (enabled : bool) (r : router_config) : router_config :=
  mkRouterConfig (ro_SystemPrompt r) (ro_HistoryWindow r) (ro_AppendContextSections r) enabled (ro_ReasoningEffort r) (ro_Family r) (ro_Model r).
Definition router_effort (to_lower : string -> string) (builtIn : gmap string ModelMetadata) (r : router_config) : string :=
  if negb (String.eqb (ro_ReasoningEffort r) "") then ro_ReasoningEffort r
  else ReasoningForCall to_lower builtIn (ro_Family r) (ro_Model r) ReasoningTierOff.

Definition toolMatchingInstruction : string :=
  "## Tool Selection" +s+ nl2 +s+
  "From the available tools listed above, select the ones most relevant to this request and return their exact names in the " +s+
  dquotes "'matched_tools'" +s+
  " array. Only include tools that are clearly needed; omit speculative or unrelated tools. Return an empty array when no tools apply.".
Definition schema_of (fields : string) : string :=
  "Respond with ONLY a JSON object in this exact format:" +s+ nl +s+ dquotes fields.
Definition routingJSONSchemaDefault : string :=
  schema_of "{'domain':'code','complexity':3,'needs_clarification':false,'matched_skills':[]}".
Definition routingJSONSchemaWithTools : string :=
  schema_of "{'domain':'code','complexity':3,'needs_clarification':false,'matched_skills':[],'matched_tools':[]}".
Definition projectContextMarker : string := String "000" ("PROJECTCTXINS" +s+ String "000" "").

Definition formatSkillList (skills : list SkillDescriptor) : string :=
  match skills with
  | [] => "None"
  | _ => join nl (map (fun s => "- " +s+ sk_Name s +s+ ": " +s+ sk_Description s) skills)
  end.

Section route.
Variable iterate : nat -> gmap string string -> list (string * string).
Variable json_error : string -> string.
Variable r : router_config.
Variable caller : nat -> list Message -> option ChatResponse + string.
Variable ctx_done : nat -> option string.

Definition json_schema : string := if ro_ToolMatching r then routingJSONSchemaWithTools else routingJSONSchemaDefault.
Definition has_context_placeholder : bool := contains (ro_SystemPrompt r) "PROJECT-CONTEXT".
Definition router_builder (availableTools : list ToolDescriptor) (availableSkills : list SkillDescriptor) (projectContext : string) : Builder :=
  let b := ReplaceData "AVAILABLE-SKILLS" (formatSkillList availableSkills)
    (ReplaceData "AVAILABLE-TOOLS" (BuildGroupedToolList availableTools)
    (Replace "JSON-OUTPUT-SCHEMA" (json_schema +s+ (if has_context_placeholder then "" else projectContextMarker))
    (Replace "TOOL-MATCHING" (if ro_ToolMatching r then toolMatchingInstruction else "") (Core (ro_SystemPrompt r) NewBuilder)))) in
  if has_context_placeholder then ReplaceData "PROJECT-CONTEXT" projectContext b else b.
Definition router_prompt (availableTools : list ToolDescriptor) (availableSkills : list SkillDescriptor) : string :=
  let projectContext := default "" (ro_AppendContextSections r) in
  let systemPrompt := Build iterate (router_builder availableTools availableSkills projectContext) in
  if has_context_placeholder then systemPrompt
  else if negb (String.eqb projectContext "") then
    match cut_first projectContextMarker systemPrompt with
    | Some (front, back) => front +s+ projectContext +s+ nl2 +s+ back
    | None => projectContext +s+ nl2 +s+ systemPrompt
    end
  else ReplaceAll systemPrompt projectContextMarker "".

(** The last [historyWindow] messages. *)
Definition recent (history : list Message) : list Message :=
  drop (length history - Z.to_nat (ro_HistoryWindow r)) history.
Definition router_messages (userMessage : string) (availableTools : list ToolDescriptor) (history : list Message)
    (availableSkills : list SkillDescriptor) : list Message :=
  text_msg "system" (router_prompt availableTools availableSkills) :: recent history ++ [text_msg "user" ("Classify this request: " +s+ userMessage)].

(** ** Route *)

Definition decode_decision (raw : string) : RoutingDecision + string :=
  match dec_struct decision_fields zero_decision raw with Some d => inl d | None => inr (json_error raw) end.
(** The error wraps [ErrRoutingParse]. *)
Definition parse_decision (resp : ChatResponse) : RoutingDecision + string :=
  match ParseJSON decode_decision (Some resp) with
  | inl d => inl d
  | inr e => inr ("routing decision parse failed: " +s+ e)
  end.
Definition router_options : Options (T := RoutingDecision) (PE := string) :=
  mkOptions "routing_decision" OnFailureError zero_decision (fun _ => json_schema).

Definition Route (userMessage : string) (availableTools : list ToolDescriptor) (history : list Message)
    (availableSkills : list SkillDescriptor) : list (list Message) * (RoutingDecision + string) :=
  match Do caller ctx_done (router_messages userMessage availableTools history availableSkills) parse_decision router_options with
  | (reqs, inl d) => (reqs, inl (validateRoutingDecision d))
  | (reqs, inr e) =>
      let text := do_error_text (fun e => e) e in
      (reqs, inr (match e with
                  | Unparseable _ (Some _) => "router: routing decision unparseable after repair attempts: " +s+ text
                  | _ => "router LLM call failed: " +s+ text
                  end))
  end.
End route.

(** ** What comes back *)

Lemma dedupe_spec seen values :
  NoDup (dedupe seen values) /\
  (forall v, v ∈ dedupe seen values <-> v ∈ map trim_space values /\ v <> "" /\ v ∉ seen) /\
  sublist (dedupe seen values) (map trim_space values).
Proof.
  revert seen. induction values as [|x values IH]; intros seen; cbn [dedupe map].
  - split_and!; [constructor| |constructor]. intros v. split; [by intros H%elem_of_nil|by intros [H%elem_of_nil _]].
  - destruct (String.eqb_spec (trim_space x) "") as [E|E]; cbn [orb]; [|case_bool_decide as Hs].
    + destruct (IH seen) as (H1 & H2 & H3). split_and!; [done| |by constructor]. intros v. rewrite H2, elem_of_cons. split; [tauto|].
      intros ([-> |H] & Hv & Hn); [done|tauto].
    + destruct (IH seen) as (H1 & H2 & H3). split_and!; [done| |by constructor]. intros v. rewrite H2, elem_of_cons. split; [tauto|].
      intros ([-> |H] & Hv & Hn); [done|tauto].
    + destruct (IH ({[ trim_space x ]} ∪ seen)) as (H1 & H2 & H3). split_and!; [| |by constructor].
      * constructor; [|done]. rewrite H2, elem_of_union, elem_of_singleton. tauto.
      * intros v. rewrite !elem_of_cons, H2, elem_of_union, elem_of_singleton. destruct (decide (v = trim_space x)) as [-> |Hv]; tauto.
Qed.

Ltac clamps := match goal with |- context [(?a <? 1)%Z] => destruct (Z.ltb_spec a 1) end; match goal with |- context [(5 <? ?b)%Z] => destruct (Z.ltb_spec 5 b) end; lia.

(** A list of names as it comes back: of the model's names, trimmed, every one
    that is not empty, once, in their order; nil stays nil. *)
Definition cleaned (answer out : option (list string)) : Prop :=
  match answer, out with
  | None, None => True
  | Some l, Some l' => NoDup l' /\ (forall v, v ∈ l' <-> v ∈ map trim_space l /\ v <> "") /\ sublist l' (map trim_space l)
  | _, _ => False
  end.
Lemma dedupeAndTrim_cleaned l : cleaned l (dedupeAndTrimStrings l).
Proof.
  destruct l as [[|x l]|]; cbn [dedupeAndTrimStrings cleaned]; [|destruct (dedupe_spec ∅ (x :: l)) as (H1 & H2 & H3)|done].
  - split_and!; [constructor| |constructor]. intros v. split; [by intros H%elem_of_nil|by intros [H%elem_of_nil _]].
  - split_and!; [done| |done]. intros v. rewrite H2. pose proof (not_elem_of_empty (C := gset string) v). tauto.
Qed.

Section returned.
Variable iterate : nat -> gmap string string -> list (string * string).
Variable json_error : string -> string.
Variable r : router_config.
Variable caller : nat -> list Message -> option ChatResponse + string.
Variable ctx_done : nat -> option string.

Lemma parse_candidates_value {A} (decode : string -> A + string) l e v :
  parse_candidates decode l e = inl v -> exists c, c ∈ l /\ decode (ExtractJSON c) = inl v.
Proof.
  revert e. induction l as [|c l IH]; intros e H; [done|]. cbn [parse_candidates] in H.
  destruct (String.eqb (ExtractJSON c) ""); [destruct (IH _ H) as (c' & Hc & Hd); exists c'; split; [by right|done]|].
  destruct (decode (ExtractJSON c)) eqn:E; [exists c; split; [left|congruence]|].
  destruct (IH _ H) as (c' & Hc & Hd). exists c'. split; [by right|done].
Qed.

(** A routing decision that [Route] returns has one of the four domains and
    a complexity between 1 and 5 and comes from JSON in a field of an answer of
    the model, whose domain, complexity and clarification it keeps where they
    are valid; of the names of skills and tools the model gave it has every
    non-empty one exactly once, trimmed and in order.  There are at most three
    requests, and without a decision there is an error. *)
Theorem Route_returns userMessage availableTools history availableSkills :
  let '(reqs, out) := Route iterate json_error r caller ctx_done userMessage availableTools history availableSkills in
  (length reqs <= 3)%nat /\
  match out with
  | inl d => valid_domain (rd_Domain d) = true /\ 1 <= rd_Complexity d <= 5 /\
      exists n msgs resp field y, caller n msgs = inl (Some resp) /\ field ∈ CandidateTexts (Some resp) /\
        dec_struct decision_fields zero_decision (ExtractJSON field) = Some y /\
        (valid_domain (rd_Domain y) = true -> rd_Domain d = rd_Domain y) /\
        (1 <= rd_Complexity y <= 5 -> rd_Complexity d = rd_Complexity y) /\
        rd_NeedsClarification d = rd_NeedsClarification y /\
        cleaned (rd_MatchedSkills y) (rd_MatchedSkills d) /\ cleaned (rd_MatchedTools y) (rd_MatchedTools d)
  | inr e => e <> ""
  end.
Proof.
  unfold Route. set (messages := router_messages _ _ _ _ _ _). set (parse := parse_decision json_error). set (opts := router_options r).
  pose proof (Do_requests caller ctx_done messages parse opts) as Hn.
  destruct (Do caller ctx_done messages parse opts) as [reqs [d|e]] eqn:E; cbn [fst] in Hn.
  2: { split; [done|]. by destruct e as [| |kind []]. }
  split; [done|]. apply Do_value in E as [(n & msgs & resp & Hc & Hp)|[Hno _]]; [|done].
  unfold parse, parse_decision in Hp. destruct (ParseJSON (decode_decision json_error) (Some resp)) as [d'|] eqn:Ej; [|done]. injection Hp as ->.
  unfold ParseJSON in Ej. apply parse_candidates_value in Ej as (c & Hin & Hd).
  unfold decode_decision in Hd. destruct (dec_struct _ _ _) as [y|] eqn:Ed; [|done]. injection Hd as ->.
  unfold validateRoutingDecision. cbn [rd_Domain rd_Complexity rd_NeedsClarification rd_MatchedSkills rd_MatchedTools]. split_and!.
  - by destruct (valid_domain (rd_Domain d)) eqn:Ev.
  - clamps.
  - clamps.
  - exists n, msgs, resp, c, d. split_and!; [done|done|done|by intros ->| |done|apply dedupeAndTrim_cleaned|apply dedupeAndTrim_cleaned].
    intros H. clamps.
Qed.

(** What is asked: the prompt, at most [HistoryWindow] of the latest messages
    as they are, and the request. *)
Lemma router_messages_window userMessage availableTools history availableSkills :
  exists older, history = older ++ recent r history /\
    length (recent r history) = Nat.min (length history) (Z.to_nat (ro_HistoryWindow r)) /\
    router_messages iterate r userMessage availableTools history availableSkills =
      text_msg "system" (router_prompt iterate r availableTools availableSkills) :: recent r history ++
      [text_msg "user" ("Classify this request: " +s+ userMessage)].
Proof.
  exists (take (length history - Z.to_nat (ro_HistoryWindow r)) history). unfold recent. split_and!; [by rewrite take_drop| |done].
  rewrite length_drop. lia.
Qed.
End returned.

(** ** Examples *)

Section examples.
Definition demo_router (template : string) (context : option string) : router_config :=
  Router_New (mkRouterConfig template 0 context false "" "" "").
Definition prompt_for (template : string) (context : option string) : string :=
  router_prompt (fun _ m => map_to_list m) (demo_router template context) [] [mkSkill "pdf" "reads PROJECT-CONTEXT"].

(** The context is put in once: at its placeholder, behind the format, or in
    front; a placeholder's name in a skill stays text. *)
Example context_placed :
  prompt_for "[AVAILABLE-SKILLS] PROJECT-CONTEXT JSON-OUTPUT-SCHEMA" (Some "rules") =
    "[- pdf: reads PROJECT-CONTEXT] rules " +s+ routingJSONSchemaDefault /\
  prompt_for "JSON-OUTPUT-SCHEMA end" (Some "rules") = routingJSONSchemaDefault +s+ "rules" +s+ nl2 +s+ " end" /\
  prompt_for "JSON-OUTPUT-SCHEMA end" None = routingJSONSchemaDefault +s+ " end" /\
  prompt_for "end" (Some "rules") = "rules" +s+ nl2 +s+ "end".
Proof. vm_compute. split_and!; reflexivity. Qed.

(** A template that names the format twice keeps an internal marker, with its
    NUL bytes, in the prompt when there is a project context. *)
Example marker_left_in_prompt :
  contains (prompt_for "JSON-OUTPUT-SCHEMA - JSON-OUTPUT-SCHEMA" (Some "rules")) projectContextMarker = true /\
  contains (prompt_for "JSON-OUTPUT-SCHEMA - JSON-OUTPUT-SCHEMA" None) projectContextMarker = false.
Proof. vm_compute. split; reflexivity. Qed.

Example decision_put_right :
  validateRoutingDecision (mkDecision "poetry" 9 true (Some [" a "; "b"; "a"; "  "]) None) = mkDecision "general" 5 true (Some ["a"; "b"]) None.
Proof. vm_compute. reflexivity. Qed.
Example fraction_refused : dec_struct decision_fields zero_decision (dquotes "{'domain': 'code', 'complexity': 3.0}") = None.
Proof. vm_compute. reflexivity. Qed.
End examples.
