(* ===== verification/Google.v ===== *)
(** * Generate content: [src/llm/provider_google.go]

    The models that are asked through generateContent: a conversation becomes
    turns in which the results of the calls of one turn come back together, by
    the name of the function; a signature of a call rides in its identifier; a
    body is read up to a limit; and what a failed request says never shows the
    key in its address.

    Parameters: the HTTP client and its errors, with what net/url makes of their
    addresses, and [classifyNetError]. *)

From Stdlib Require Import ZArith Lia Ascii.
From stdpp Require Import base gmap strings list.
From S2P Require Import Prelude GoStr GoFloat AgentTypes Tokens Fence Json JsonEncode AnyJson ToolSyntax Planner Router Sanitize TaskRouter OpenAI Responses Anthropic.
Open Scope sp4rk_scope.
Open Scope Z_scope.

(** ** Parts *)

Record googlePart := mkGPart {
  gp_Text : string;
  gp_InlineData : option (string * string);     (** type and data *)
  gp_FunctionCall : option (string * string);   (** name and arguments *)
  gp_FunctionResp : option (string * string);   (** name and payload *)
  gp_Thought : bool;
  gp_ThoughtSignature : string;
}.
Definition no_part : googlePart := mkGPart "" None None None false "".
Definition text_part (t : string) : googlePart := mkGPart t None None None false "".
Record googleContent := mkGContent { gc_Role : string; gc_Parts : list googlePart }.

(** ** Signatures *)

Definition googleThoughtSigSep : ascii := "031".
Definition googleThoughtSignatureID (name sig : string) : string :=
  if String.eqb sig "" then name else name +s+ String googleThoughtSigSep sig.
(** The text behind the first separator. *)
Fixpoint googleThoughtSignatureFromID (id : string) : string :=
  match id with
  | "" => ""
  | String c r => if Ascii.eqb c googleThoughtSigSep then r else googleThoughtSignatureFromID r
  end.

(** ** Requests *)

Definition buildToolCallIDIndex (msgs : list Message) : gmap string string :=
  fold_left (fun idx m => fold_left (fun idx tc =>
    if negb (String.eqb (tc_id tc) "") && negb (String.eqb (tc_name tc) "") then <[tc_id tc := tc_name tc]> idx else idx)
    (m_tool_calls m) idx) msgs ∅.
Definition googleFunctionResponsePayload (content : string) : string :=
  let trimmed := trim_space content in
  if has_prefix trimmed "{" && json_valid trimmed then trimmed else json_object [("result", content)].
Definition googleFunctionResponsePart (idx : gmap string string) (msg : Message) : googlePart :=
  mkGPart "" None None (Some (default (m_tool_call_id msg) (idx !! m_tool_call_id msg), googleFunctionResponsePayload (m_content msg))) false "".

Definition google_user_part (blk : ContentBlock) : option googlePart :=
  if String.eqb (cb_type blk) "text" then Some (text_part (cb_text blk))
  else if String.eqb (cb_type blk) "image" then Some (mkGPart "" (Some (cb_media_type blk, cb_image_b64 blk)) None None false "")
  else None.
Definition google_call_part (tc : AgentTypes.ToolCall) : googlePart :=
  mkGPart "" None (Some (tc_name tc, tc_input tc)) None false (googleThoughtSignatureFromID (tc_id tc)).
Definition convertGoogleMessage (idx : gmap string string) (msg : Message) : googleContent :=
  if String.eqb (m_role msg) "user" then
    mkGContent "user" (match NormalizeContentBlocks msg with
                       | [] => if String.eqb (m_content msg) "" then [] else [text_part (m_content msg)]
                       | blocks => omap google_user_part blocks
                       end)
  else if String.eqb (m_role msg) "assistant" then
    mkGContent "model" ((if String.eqb (m_content msg) "" then [] else [text_part (m_content msg)]) ++ map google_call_part (m_tool_calls msg))
  else if String.eqb (m_role msg) "tool" then mkGContent "user" [googleFunctionResponsePart idx msg]
  else mkGContent "user" [text_part (m_content msg)].

Definition is_tool (msg : Message) : bool := String.eqb (m_role msg) "tool".
(** A tool message without anything to render. *)
Definition blank_tool (msg : Message) : bool :=
  String.eqb (m_content msg) "" && bool_decide (m_blocks msg = []) && String.eqb (m_tool_call_id msg) "".
(** The turns; [run]: the parts of the tool messages that were just read. *)
Definition flush (run : list googlePart) : list googleContent := match run with [] => [] | _ :: _ => [mkGContent "user" run] end.
Fixpoint google_turns (idx : gmap string string) (run : list googlePart) (msgs : list Message) : list googleContent :=
  match msgs with
  | [] => flush run
  | msg :: msgs =>
      if is_tool msg then google_turns idx (if blank_tool msg then run else run ++ [googleFunctionResponsePart idx msg]) msgs
      else flush run ++ (if is_blank msg then [] else [convertGoogleMessage idx msg]) ++ google_turns idx [] msgs
  end.

Section requests.
Context `{Float64}.
Variable float_text : string -> string.
Record google_request := mkGRequest {
  gq_SystemInstruction : option googleContent;
  gq_Contents : list googleContent;
  gq_Tools : list (string * string * string);   (** name, description, schema *)
  gq_GenerationConfig : option (option Z * option F * option F * option Z);
}.
Definition buildGoogleRequest (req : completion_request) : google_request :=
  let q := cr_request req in
  let sd := rq_sampling q in
  let '(systemPrompt, filtered) := ExtractSystemPrompt (rq_Messages q) in
  mkGRequest (if String.eqb systemPrompt "" then None else Some (mkGContent "" [text_part systemPrompt]))
    (google_turns (buildToolCallIDIndex filtered) [] filtered)
    (map (fun tool => (td_name tool, td_description tool, SanitizeSchemaForGoogle float_text (td_input_schema tool))) (cr_Tools req))
    (match 0 <? cr_MaxTokens req, sd_Temperature sd, sd_TopP sd, sd_TopK sd with
     | false, None, None, None => None
     | positive, temperature, topP, topK => Some (if positive then Some (cr_MaxTokens req) else None, temperature, topP, topK)
     end).
Definition google_endpoint (baseURL model : string) : string := trim_right_byte "/" baseURL +s+ "/models/" +s+ model +s+ ":generateContent".
End requests.

(** ** Answers *)

Definition googleFinishReasonMap : gmap string string :=
  list_to_map [("STOP", "end_turn"); ("MAX_TOKENS", "max_tokens"); ("SAFETY", "end_turn"); ("RECITATION", "end_turn"); ("OTHER", "end_turn")].
Definition mapGoogleFinishReason (reason : string) (hasToolCalls : bool) : string :=
  if hasToolCalls then "tool_use"
  else if String.eqb reason "" then "end_turn"
  else default reason (googleFinishReasonMap !! reason).

Record googleCandidate := mkCandidate { ca_Content : googleContent; ca_FinishReason : string }.
Record googleUsageMetadata := mkGUsage { gu_Prompt : Z; gu_Candidates : Z; gu_Total : Z }.
Record googleGenerateResponse := mkGResponse { gr_Candidates : option (list googleCandidate); gr_Usage : option googleUsageMetadata }.

(** A pointer: null makes it nil, anything else decodes into what it points to. *)
Definition dec_ptr {T} (zero : T) (dec : decoder T) : decoder (option T) := fun old raw =>
  match json_decode raw with
  | Some JNull => Some None
  | _ => option_map Some (dec (default zero old) raw)
  end.
(** [json.RawMessage] takes the text as it is. *)
Definition dec_raw : decoder string := fun _ raw => Some raw.
Definition pair_fields (first second : string) (dec : decoder string) : list (string * decoder (string * string)) :=
  [(first, field fst (fun v p => (v, snd p)) dec_string); (second, field snd (fun v p => (fst p, v)) dec)].
Definition part_fields : list (string * decoder googlePart) :=
  [("text", field gp_Text (fun v p => mkGPart v (gp_InlineData p) (gp_FunctionCall p) (gp_FunctionResp p) (gp_Thought p) (gp_ThoughtSignature p)) dec_string);
   ("inlineData", field gp_InlineData (fun v p => mkGPart (gp_Text p) v (gp_FunctionCall p) (gp_FunctionResp p) (gp_Thought p) (gp_ThoughtSignature p))
      (dec_ptr ("", "") (dec_struct (pair_fields "mimeType" "data" dec_string))));
   ("functionCall", field gp_FunctionCall (fun v p => mkGPart (gp_Text p) (gp_InlineData p) v (gp_FunctionResp p) (gp_Thought p) (gp_ThoughtSignature p))
      (dec_ptr ("", "") (dec_struct (pair_fields "name" "args" dec_raw))));
   ("functionResponse", field gp_FunctionResp (fun v p => mkGPart (gp_Text p) (gp_InlineData p) (gp_FunctionCall p) v (gp_Thought p) (gp_ThoughtSignature p))
      (dec_ptr ("", "") (dec_struct (pair_fields "name" "response" dec_raw))));
   ("thought", field gp_Thought (fun v p => mkGPart (gp_Text p) (gp_InlineData p) (gp_FunctionCall p) (gp_FunctionResp p) v (gp_ThoughtSignature p)) dec_bool);
   ("thoughtSignature", field gp_ThoughtSignature (fun v p => mkGPart (gp_Text p) (gp_InlineData p) (gp_FunctionCall p) (gp_FunctionResp p) (gp_Thought p) v) dec_string)].
Definition content_fields : list (string * decoder (string * option (list googlePart))) :=
  [("role", field fst (fun v c => (v, snd c)) dec_string);
   ("parts", field snd (fun v c => (fst c, v)) (dec_slice no_part (dec_struct part_fields)))].
Definition dec_content : decoder googleContent := fun old raw =>
  option_map (fun c => mkGContent (fst c) (default [] (snd c))) (dec_struct content_fields (gc_Role old, Some (gc_Parts old)) raw).
Definition google_candidate_fields : list (string * decoder googleCandidate) :=
  [("content", field ca_Content (fun v c => mkCandidate v (ca_FinishReason c)) dec_content);
   ("finishReason", field ca_FinishReason (fun v c => mkCandidate (ca_Content c) v) dec_string)].
Definition usage_fields : list (string * decoder googleUsageMetadata) :=
  [("promptTokenCount", field gu_Prompt (fun v u => mkGUsage v (gu_Candidates u) (gu_Total u)) dec_literal);
   ("candidatesTokenCount", field gu_Candidates (fun v u => mkGUsage (gu_Prompt u) v (gu_Total u)) dec_literal);
   ("totalTokenCount", field gu_Total (fun v u => mkGUsage (gu_Prompt u) (gu_Candidates u) v) dec_literal)].
Definition response_fields : list (string * decoder googleGenerateResponse) :=
  [("candidates", field gr_Candidates (fun v r => mkGResponse v (gr_Usage r)) (dec_slice (mkCandidate (mkGContent "" []) "") (dec_struct google_candidate_fields)));
   ("usageMetadata", field gr_Usage (fun v r => mkGResponse (gr_Candidates r) v) (dec_ptr (mkGUsage 0 0 0) (dec_struct usage_fields)))].
Definition unmarshal_response (raw : string) : option googleGenerateResponse := dec_struct response_fields (mkGResponse None None) raw.

Definition part_call (p : googlePart) : option AgentTypes.ToolCall :=
  match gp_FunctionCall p with
  | Some (name, args) => Some (AgentTypes.mkToolCall (googleThoughtSignatureID name (gp_ThoughtSignature p)) name args)
  | None => None
  end.
Definition read_part (acc : string * string * list AgentTypes.ToolCall) (p : googlePart) : string * string * list AgentTypes.ToolCall :=
  let '(content, reasoning, calls) := acc in
  let calls := match part_call p with Some call => calls ++ [call] | None => calls end in
  if String.eqb (gp_Text p) "" then (content, reasoning, calls)
  else if gp_Thought p then (content, (if String.eqb reasoning "" then reasoning else reasoning +s+ nl) +s+ gp_Text p, calls)
  else ((if String.eqb content "" then content else content +s+ nl) +s+ gp_Text p, reasoning, calls).

Section answers.
Variable quote : string -> string.
Variable providerName : string.

Definition parseGoogleResponse (model : string) (resp : googleGenerateResponse) (rawBody : string) : ChatResponse + error :=
  match default [] (gr_Candidates resp) with
  | [] => inr (providerName +s+ ": google response has no candidates (body: " +s+ truncateForError rawBody +s+ ")", None)
  | candidate :: _ =>
      let '(content, reasoning, calls) := fold_left read_part (gc_Parts (ca_Content candidate)) ("", "", []) in
      let hasToolCalls := negb (bool_decide (calls = [])) in
      if String.eqb content "" && negb hasToolCalls then
        inr (providerName +s+ ": google response has no content (finishReason=" +s+ quote (ca_FinishReason candidate) +s+
             "); verify base_url/model. Raw body: " +s+ truncateForError rawBody, None)
      else inl (mkChatResponse model "" (mkMessage "assistant" content [] reasoning calls "" []) reasoning
        (match gr_Usage resp with Some u => mkTokenUsage (gu_Prompt u) (gu_Candidates u) | None => mkTokenUsage 0 0 end)
        (mapGoogleFinishReason (ca_FinishReason candidate) hasToolCalls))
  end.

(** ** The call *)

(** An error of the HTTP client.  [ce_url]: a [url.Error] in the chain: its
    operation, its address, the address without a query if it parses, and the
    text of what it wraps. *)
Record client_error := mkCError { ce_text : string; ce_url : option (string * string * option string * string); ce_transient : bool }.
Definition redactKeyFromURLError (err : client_error) : string :=
  match ce_url err with
  | Some (op, _, Some redacted, inner) => op +s+ " " +s+ quote redacted +s+ ": " +s+ inner
  | Some (op, _, None, inner) => op +s+ " " +s+ quote "[redacted]" +s+ ": " +s+ inner
  | None => ce_text err
  end.

Definition maxGoogleResponseBytes : Z := 33554432.
(** What comes back: no response; or its status and its body, or the error of
    reading it. *)
Inductive exchange := NoResponse (err : client_error) | Responded (status : Z) (body : string + client_error).
Definition google_exchange (model : string) (decode_error : string -> string) (x : exchange) : ChatResponse + error :=
  match x with
  | NoResponse err => inr (of_Error (WrapProviderError providerName 0 (redactKeyFromURLError err) (ce_transient err)))
  | Responded status (inr err) => inr (of_Error (WrapProviderError providerName status ("google: read response body: " +s+ ce_text err) (ce_transient err)))
  | Responded status (inl body) =>
      if maxGoogleResponseBytes <? slen body then
        inr (of_Error (WrapProviderError providerName status ("google: response body exceeds " +s+ itoa maxGoogleResponseBytes +s+ " byte limit") false))
      else if (status <? 200) || (300 <=? status) then
        inr (of_Error (WrapProviderError providerName status
          ("google generateContent failed (HTTP " +s+ itoa status +s+ "): " +s+ truncateForError body) false))
      else match unmarshal_response body with
      | None => inr (providerName +s+ ": failed to decode google response: " +s+ decode_error body +s+ " (body: " +s+ truncateForError body +s+ ")", None)
      | Some resp => parseGoogleResponse model resp body
      end
  end.
End answers.

(** ** Signatures survive *)

Definition sep_free (s : string) : Prop := all_chars (fun c => negb (Ascii.eqb c googleThoughtSigSep)) s = true.
Fixpoint before_sep (id : string) : string :=
  match id with
  | "" => ""
  | String c r => if Ascii.eqb c googleThoughtSigSep then "" else String c (before_sep r)
  end.
Lemma signature_roundtrip name sig : sep_free name -> googleThoughtSignatureFromID (googleThoughtSignatureID name sig) = sig.
Proof.
  unfold sep_free, googleThoughtSignatureID. intros Hn. destruct (String.eqb_spec sig "") as [->|_].
  - induction name as [|c r IH]; [done|]. cbn [all_chars] in Hn. apply andb_true_iff in Hn as [Hc Hr]. cbn [googleThoughtSignatureFromID].
    apply negb_true_iff in Hc as ->. by apply IH.
  - induction name as [|c r IH]; [done|]. cbn [all_chars] in Hn. apply andb_true_iff in Hn as [Hc Hr].
    change (String c r +s+ String googleThoughtSigSep sig) with (String c (r +s+ String googleThoughtSigSep sig)). cbn [googleThoughtSignatureFromID].
    apply negb_true_iff in Hc as ->. by apply IH.
Qed.
Lemma name_of_id name sig : sep_free name -> before_sep (googleThoughtSignatureID name sig) = name.
Proof.
  unfold sep_free, googleThoughtSignatureID. intros Hn. destruct (String.eqb_spec sig "") as [->|_];
    (induction name as [|c r IH]; [done|]; cbn [all_chars] in Hn; apply andb_true_iff in Hn as [Hc Hr]; apply negb_true_iff in Hc).
  - cbn [before_sep]. by rewrite Hc, IH.
  - change (String c r +s+ String googleThoughtSigSep sig) with (String c (r +s+ String googleThoughtSigSep sig)). cbn [before_sep]. by rewrite Hc, IH.
Qed.
(** A call that was read is sent back as the part it came in. *)
Lemma call_part_roundtrip p name args call :
  gp_FunctionCall p = Some (name, args) -> sep_free name -> part_call p = Some call ->
  google_call_part call = mkGPart "" None (gp_FunctionCall p) None false (gp_ThoughtSignature p).
Proof.
  intros Hp Hn. unfold part_call. rewrite Hp. intros [= <-]. unfold google_call_part. cbn [tc_name tc_input tc_id]. by rewrite signature_roundtrip.
Qed.

(** ** Names of calls *)

Definition calls_in_history (msgs : list Message) : list AgentTypes.ToolCall := flat_map m_tool_calls msgs.
(** Identifiers tell the names. *)
Definition tellable (msgs : list Message) : Prop :=
  (forall c, c ∈ calls_in_history msgs -> tc_id c <> "" /\ tc_name c <> "") /\
  forall c c', c ∈ calls_in_history msgs -> c' ∈ calls_in_history msgs -> tc_id c = tc_id c' -> tc_name c = tc_name c'.
Definition index_call (idx : gmap string string) (tc : AgentTypes.ToolCall) : gmap string string :=
  if negb (String.eqb (tc_id tc) "") && negb (String.eqb (tc_name tc) "") then <[tc_id tc := tc_name tc]> idx else idx.
Lemma index_flat msgs : buildToolCallIDIndex msgs = fold_left index_call (calls_in_history msgs) ∅.
Proof.
  unfold buildToolCallIDIndex, calls_in_history. generalize (∅ : gmap string string). induction msgs as [|m msgs IH]; intros idx; [done|].
  cbn [fold_left flat_map]. rewrite fold_left_app. apply IH.
Qed.
Lemma index_lookup msgs c : tellable msgs -> c ∈ calls_in_history msgs -> buildToolCallIDIndex msgs !! tc_id c = Some (tc_name c).
Proof.
  intros [Hset Htell] Hc. rewrite index_flat. revert Hset Htell Hc. generalize (calls_in_history msgs). clear msgs.
  induction l as [|d l IH] using rev_ind; intros Hset Htell Hc; [by apply elem_of_nil in Hc|].
  rewrite fold_left_app. cbn [fold_left]. unfold index_call at 1.
  assert (Hd : tc_id d <> "" /\ tc_name d <> "") by (apply Hset, elem_of_app; right; by left).
  destruct (String.eqb_spec (tc_id d) ""), (String.eqb_spec (tc_name d) ""); [tauto..|]. cbn [negb andb].
  destruct (decide (tc_id d = tc_id c)) as [E|Hne].
  - rewrite E, lookup_insert_eq. f_equal. apply Htell; [apply elem_of_app; right; by left|done|done].
  - rewrite lookup_insert_ne by done. apply IH.
    + intros x Hx. apply Hset, elem_of_app. by left.
    + intros x y Hx Hy. apply Htell; apply elem_of_app; by left.
    + apply elem_of_app in Hc as [Hc|Hc%list_elem_of_singleton]; [done|congruence].
Qed.
(** What the protocol's own answers give: an identifier is a name with a signature. *)
Lemma sourced_tellable msgs :
  (forall c, c ∈ calls_in_history msgs -> tc_name c <> "" /\ sep_free (tc_name c) /\ exists sig, tc_id c = googleThoughtSignatureID (tc_name c) sig) ->
  tellable msgs.
Proof.
  intros Hs. split.
  - intros c Hc. destruct (Hs c Hc) as (Hn & _ & sig & E). split; [|done]. rewrite E. unfold googleThoughtSignatureID. destruct (String.eqb sig ""); [done|].
    by destruct (tc_name c).
  - intros c c' Hc Hc' E. destruct (Hs c Hc) as (_ & Hf & sig & Ec). destruct (Hs c' Hc') as (_ & Hf' & sig' & Ec').
    rewrite <- (name_of_id (tc_name c) sig Hf), <- (name_of_id (tc_name c') sig' Hf'), <- Ec, <- Ec'. by rewrite E.
Qed.

(** ** Turns *)

Lemma turns_split idx run before msg rest :
  is_tool msg = false -> is_blank msg = false ->
  exists pre, google_turns idx run (before ++ msg :: rest) = pre ++ convertGoogleMessage idx msg :: google_turns idx [] rest.
Proof.
  intros Ht Hb. revert run. induction before as [|m before IH]; intros run; cbn [app google_turns].
  - rewrite Ht, Hb. by exists (flush run).
  - destruct (is_tool m); [apply IH|]. destruct (IH []) as (pre & ->). eexists. by rewrite !app_assoc.
Qed.
Lemma turns_tools idx run tools rest :
  Forall (fun m => is_tool m = true /\ blank_tool m = false) tools ->
  google_turns idx run (tools ++ rest) = google_turns idx (run ++ map (googleFunctionResponsePart idx) tools) rest.
Proof.
  intros Ht. revert run. induction Ht as [|m tools [Hm Hb] _ IH]; intros run; [by rewrite app_nil_r|]. cbn [app google_turns map].
  rewrite Hm, Hb, IH. by rewrite <- app_assoc.
Qed.
Lemma turns_flush idx run rest :
  match rest with [] => True | m :: _ => is_tool m = false end -> exists post, google_turns idx run rest = flush run ++ post.
Proof. destruct rest as [|m rest]; cbn [google_turns]; intros Hm; [exists []; by rewrite app_nil_r|]. rewrite Hm. eauto. Qed.

Lemma payload_is_object content : exists l, json_decode (googleFunctionResponsePayload content) = Some (JObj l).
Proof.
  unfold googleFunctionResponsePayload. destruct (has_prefix (trim_space content) "{" && json_valid (trim_space content)) eqn:E.
  - apply andb_true_iff in E as [Hp Hv]. apply has_prefix_spec in Hp as (t & Et). unfold json_decode. rewrite Hv, Et. cbn [negb].
    change (skip_ws ("{" +s+ t)) with (String "{" t). eexists. reflexivity.
  - rewrite json_object_decode by done. eauto.
Qed.

Lemma results_shown results (calls : list AgentTypes.ToolCall) :
  Forall (fun m => is_tool m = true) results -> map m_tool_call_id results = map tc_id calls -> (forall c, c ∈ calls -> tc_id c <> "") ->
  Forall (fun m => is_tool m = true /\ blank_tool m = false) results.
Proof.
  revert calls. induction results as [|m results IH]; intros [|c calls] Ht Hids Hset; try done; try by constructor.
  apply Forall_cons in Ht as [Hm Ht]. injection Hids as Hid Hids. constructor; [split; [done|]|].
  - unfold blank_tool. rewrite Hid, (proj2 (String.eqb_neq _ _) (Hset c ltac:(by left))). by rewrite andb_false_r.
  - eapply IH; [done|exact Hids|]. intros x Hx. apply Hset. by right.
Qed.

(** C14: What comes back of a turn of calls.  When every call of the turn has its
    result behind it, in the order of the calls, the request has the turn of the
    model with every call as it was, its signature included, and right behind it
    one turn with exactly one response per call, in their order, under the name
    of its function, the payload a JSON object. *)
Theorem google_calls_answered msgs before asked results after
    (Hmsgs : msgs = before ++ asked :: results ++ after)
    (Hnames : tellable msgs)
    (Hasked : role_is "assistant" asked = true /\ m_tool_calls asked <> [])
    (Hresults : Forall (fun m => is_tool m = true) results /\ map m_tool_call_id results = map tc_id (m_tool_calls asked))
    (Hafter : match after with [] => True | m :: _ => is_tool m = false end) :
  exists pre post texts responses,
    google_turns (buildToolCallIDIndex msgs) [] msgs =
      pre ++ mkGContent "model" (texts ++ map google_call_part (m_tool_calls asked)) :: mkGContent "user" responses :: post /\
    map gp_FunctionResp responses =
      zip_with (fun c m => Some (tc_name c, googleFunctionResponsePayload (m_content m))) (m_tool_calls asked) results /\
    Forall (fun p => match gp_FunctionResp p with Some (_, payload) => exists l, json_decode payload = Some (JObj l) | None => False end) responses.
Proof.
  destruct Hasked as [Hrole Hcalls], Hresults as [Htools Hids]. set (idx := buildToolCallIDIndex msgs).
  assert (Hin : forall c, c ∈ m_tool_calls asked -> c ∈ calls_in_history msgs).
  { intros c Hc. unfold calls_in_history. rewrite Hmsgs. apply list_elem_of_In, in_flat_map. exists asked.
    split; [apply List.in_app_iff; right; by left|by apply list_elem_of_In]. }
  assert (Hnotool : is_tool asked = false) by (unfold is_tool, role_is in *; by apply String.eqb_eq in Hrole as ->).
  assert (Hnoblank : is_blank asked = false).
  { unfold is_blank. rewrite (bool_decide_eq_false_2 (m_tool_calls asked = [])) by done. by rewrite andb_false_r. }
  rewrite Hmsgs. destruct (turns_split idx [] before asked (results ++ after) Hnotool Hnoblank) as (pre & ->).
  rewrite turns_tools; [|exact (results_shown _ _ Htools Hids (fun c Hc => proj1 (proj1 Hnames c (Hin c Hc))))].
  destruct (turns_flush idx (map (googleFunctionResponsePart idx) results) after Hafter) as (post & Hpost). cbn [app]. rewrite Hpost.
  exists pre, post, (if String.eqb (m_content asked) "" then [] else [text_part (m_content asked)]), (map (googleFunctionResponsePart idx) results).
  split_and!.
  - unfold convertGoogleMessage. unfold role_is in Hrole. apply String.eqb_eq in Hrole as ->. cbn [String.eqb Ascii.eqb Bool.eqb].
    destruct results as [|m results]; [|done]. destruct (m_tool_calls asked); [done|discriminate Hids].
  - clear -Hids Hin Hnames. revert Hids Hin. generalize (m_tool_calls asked) as calls. induction results as [|m results IH]; intros [|c calls] Hids Hin; try done.
    cbn [map] in Hids. injection Hids as Hid Hids. cbn [map zip_with]. f_equal; [|apply IH; [done|intros x Hx; apply Hin; by right]].
    unfold googleFunctionResponsePart. cbn [gp_FunctionResp]. rewrite Hid. unfold idx. rewrite (index_lookup msgs c Hnames) by (apply Hin; by left). done.
  - apply Forall_map, Forall_true. intros m. cbn. apply payload_is_object.
Qed.

(** ** What is read *)

Definition part_text (thought : bool) (p : googlePart) : option string :=
  if String.eqb (gp_Text p) "" then None else if Bool.eqb (gp_Thought p) thought then Some (gp_Text p) else None.
Lemma read_parts l content reasoning calls :
  fold_left read_part l (content, reasoning, calls) =
  (fold_left put_line (omap (part_text false) l) content, fold_left put_line (omap (part_text true) l) reasoning, calls ++ omap part_call l).
Proof.
  revert content reasoning calls. induction l as [|p l IH]; intros content reasoning calls; [cbn; by rewrite app_nil_r|].
  cbn [fold_left omap list_omap]. unfold read_part at 2.
  change (part_text false p) with (if String.eqb (gp_Text p) "" then None else if Bool.eqb (gp_Thought p) false then Some (gp_Text p) else None).
  change (part_text true p) with (if String.eqb (gp_Text p) "" then None else if Bool.eqb (gp_Thought p) true then Some (gp_Text p) else None).
  destruct (part_call p); (destruct (String.eqb (gp_Text p) ""); [|destruct (gp_Thought p)]); cbn [Bool.eqb fold_left]; rewrite IH; by rewrite <- ?app_assoc.
Qed.

(** A response has what the first candidate has: its texts, its thoughts apart
    from them, its calls; it is refused exactly when there is no candidate or
    neither text nor call. *)
Theorem parseGoogleResponse_contract quote name model resp rawBody :
  let parts := match default [] (gr_Candidates resp) with c :: _ => gc_Parts (ca_Content c) | [] => [] end in
  match parseGoogleResponse quote name model resp rawBody with
  | inl r =>
      m_content (r_message r) = system_text (omap (part_text false) parts) /\ r_reasoning r = system_text (omap (part_text true) parts) /\
      m_tool_calls (r_message r) = omap part_call parts /\ (r_stop_reason r = "tool_use" \/ m_content (r_message r) <> "") /\
      (m_tool_calls (r_message r) <> [] -> r_stop_reason r = "tool_use")
  | inr (_, e) => e = None /\ Forall (fun t => t = "") (omap (part_text false) parts) /\ omap part_call parts = []
  end.
Proof.
  cbv zeta. unfold parseGoogleResponse. destruct (default [] (gr_Candidates resp)) as [|c cs]; [by split_and!|].
  rewrite read_parts, !put_lines. cbn [app].
  destruct (String.eqb_spec (system_text (omap (part_text false) (gc_Parts (ca_Content c)))) "") as [Et|Et]; cbn [andb]; case_bool_decide as Ec; cbn [negb].
  - split_and!; [done|by apply system_text_empty|done].
  - cbn [r_message m_content m_tool_calls r_reasoning r_stop_reason]. split_and!; try done. by left.
  - cbn [r_message m_content m_tool_calls r_reasoning r_stop_reason]. split_and!; try done. by right.
  - cbn [r_message m_content m_tool_calls r_reasoning r_stop_reason]. split_and!; try done. by left.
Qed.

(** The text of a failed request depends on its address only through the form
    without a query. *)
Theorem key_not_shown quote text text' op url url' redacted inner transient :
  redactKeyFromURLError quote (mkCError text (Some (op, url, redacted, inner)) transient) =
  redactKeyFromURLError quote (mkCError text' (Some (op, url', redacted, inner)) transient).
Proof. by destruct redacted. Qed.

(** ** Examples *)

Section examples.
Definition answer_body : string :=
  "{" +s+ q "candidates" +s+ ":[{" +s+ q "content" +s+ ":{" +s+ q "parts" +s+ ":[{" +s+ q "text" +s+ ":" +s+ q "hm" +s+ "," +s+ q "thought" +s+ ":true},{" +s+
  q "functionCall" +s+ ":{" +s+ q "name" +s+ ":" +s+ q "ls" +s+ "," +s+ q "args" +s+ ":{}}," +s+ q "thoughtSignature" +s+ ":" +s+ q "c2ln" +s+ "}]}}]," +s+
  q "usageMetadata" +s+ ":{" +s+ q "promptTokenCount" +s+ ":7}}".
Example answer_read :
  match google_exchange (fun t => t) "zen" "gemini" (fun _ => "") (Responded 200 (inl answer_body)) with
  | inl r => r_reasoning r = "hm" /\ m_content (r_message r) = "" /\ u_in (r_usage r) = 7 /\ r_stop_reason r = "tool_use" /\
      map google_call_part (m_tool_calls (r_message r)) = [mkGPart "" None (Some ("ls", "{}")) None false "c2ln"]
  | inr _ => False
  end.
Proof. vm_compute. done. Qed.

Definition asked_twice : Message :=
  mkMessage "assistant" "" [] "" [AgentTypes.mkToolCall (googleThoughtSignatureID "ls" "s1") "ls" "{}"; AgentTypes.mkToolCall "cat" "cat" "{}"] "" [].
Definition tool_says (id content : string) : Message := mkMessage "tool" content [] "" [] id [].
Definition two_results : list Message := [tool_says (googleThoughtSignatureID "ls" "s1") "a.go"; tool_says "cat" "{}"].
Definition two_calls : list Message := mkMessage "user" "go" [] "" [] "" [] :: asked_twice :: two_results ++ [].
Lemma two_calls_tellable : tellable two_calls.
Proof.
  apply sourced_tellable. unfold calls_in_history. cbn [flat_map two_calls asked_twice m_tool_calls two_results tool_says app].
  intros c. rewrite !elem_of_cons. intros [->|[->|H%elem_of_nil]]; [..|done]; (split_and!; [done|reflexivity|]).
  - by exists "s1".
  - by exists "".
Qed.
Lemma google_calls_answered_witness :
  (exists pre post texts responses,
    google_turns (buildToolCallIDIndex two_calls) [] two_calls =
      pre ++ mkGContent "model" (texts ++ map google_call_part (m_tool_calls asked_twice)) :: mkGContent "user" responses :: post /\
    length responses = 2%nat) /\
  map gc_Parts (google_turns (buildToolCallIDIndex two_calls) [] two_calls) =
    [[text_part "go"]; [mkGPart "" None (Some ("ls", "{}")) None false "s1"; mkGPart "" None (Some ("cat", "{}")) None false ""];
     [mkGPart "" None None (Some ("ls", "{" +s+ q "result" +s+ ":" +s+ q "a.go" +s+ "}")) false ""; mkGPart "" None None (Some ("cat", "{}")) false ""]].
Proof.
  split; [|vm_compute; reflexivity].
  assert (H2 : role_is "assistant" asked_twice = true /\ m_tool_calls asked_twice <> []) by (split; [reflexivity|discriminate]).
  assert (H3 : Forall (fun m => is_tool m = true) two_results /\ map m_tool_call_id two_results = map tc_id (m_tool_calls asked_twice)).
  { split; [|reflexivity]. repeat (constructor; [reflexivity|]). constructor. }
  pose proof (google_calls_answered two_calls [mkMessage "user" "go" [] "" [] "" []] asked_twice two_results [] eq_refl two_calls_tellable H2 H3 I) as H.
  destruct H as (pre & post & texts & responses & Ht & Hr & _).
  exists pre, post, texts, responses. split; [exact Ht|]. apply (f_equal (@length _)) in Hr. rewrite length_map in Hr. exact Hr.
Defined.

(** A message that has blocks of unknown kinds only becomes a turn without
    parts, which the protocol rejects. *)
Example empty_turn_sent :
  google_turns ∅ [] [mkMessage "user" "" [mkContentBlock "audio" "" "x" "audio/wav"] "" [] "" []] = [mkGContent "user" []].
Proof. vm_compute. reflexivity. Qed.
(** Two calls of one function share their identifier. *)
Example same_function_twice :
  omap part_call [mkGPart "" None (Some ("ls", "{}")) None false ""; mkGPart "" None (Some ("ls", "[]")) None false ""] =
  [AgentTypes.mkToolCall "ls" "ls" "{}"; AgentTypes.mkToolCall "ls" "ls" "[]"].
Proof. reflexivity. Qed.
End examples.
