(* ===== verification/Task.v ===== *)
(** * The plan, execute, reflect loop: [src/task.go]

    [TaskBuilder.Execute] plans a task, runs the plan's steps by the conductor
    in the order their dependencies allow, retries a step that failed, asks the
    reflector in between, and starts over on a revised plan when it says so.

    The parts the loop drives (conductor, planner, reflector, router) answer
    through a record of functions of the events so far, so that what is proved
    holds whatever they do; [Conductor], [Planner], [Reflector] and [Router] say
    what they do.  An answer of the conductor brings the blackboard it leaves.
    A blackboard with a checkpointer behaves to the loop as a plain one. *)

From Stdlib Require Import ZArith Lia.
From stdpp Require Import base gmap strings list.
From S2P Require Import Prelude GoStr GoFloat AgentTypes Plan PlanDag Blackboard Nudges Router ToolCache Planner ExecState Executor Conductor.
Open Scope sp4rk_scope.
Open Scope Z_scope.

(** ** Events *)

(** [orchestration.PlanStepEvent] *)
Record PlanStepEvent := mkStepEvent {
  pe_ID : string;
  pe_Summary : string;
  pe_Description : string;
  pe_DependsOn : option (list string);
}.

Definition planStepsToEvents (plan : Plan) : list PlanStepEvent :=
  map (fun s => mkStepEvent (ps_id s) (ps_summary s) (ps_description s) (ps_depends_on s)) (p_steps plan).

(** The calls the loop makes and the notifications it sends. *)
Inductive task_event :=
| ModelSwitched (model : string)                                  (** [router.SetModel] *)
| ConductorSized (model : string)                                 (** [conductor.SetModel] *)
| PlanAsked
| StepRun (description : string)                                  (** [conductor.Run] *)
| ReflectAsked
| ReplanAsked (failed : CompletedStep)
| OnPlanGenerated (count : Z) (steps : list PlanStepEvent)
| OnStepStarted (id description summary : string)
| OnStepCompleted (id : string) (success : bool) (toolCalls : Z) (errMsg : string)
| OnReflected (r : Reflection) (attempt maxRetries : Z)
| OnReplanFailed (err : string)
| OnServiceMeta (text model : string).

Notation events := (list task_event).

(** ** What the loop drives *)

(** A run of the conductor: its result and error, the trajectory that was
    synced, and the blackboard it leaves. *)
Record step_run := mkStepRun {
  sr_result : option ExecutionResult;
  sr_err : option gerror;
  sr_trajectory : list Step;
  sr_bb : MapBlackboard;
}.

Record TaskWorld := mkWorld {
  tw_ctxErr : events -> bool;                                     (** [ctx.Err() != nil] *)
  tw_quote : string -> string;                                    (** ["%q"] *)
  tw_SetModel : events -> string -> option string;
  tw_NewConductor : option string;
  tw_resolvePlanner : option string;
  tw_Plan : events -> Plan + string;
  tw_Run : events -> string -> MapBlackboard -> step_run;
  (** [None]: an error, or no reflection *)
  tw_Reflect : events -> list Step -> option Plan -> list Reflection -> option Reflection;
  tw_Replan : events -> option Plan -> list CompletedStep -> CompletedStep -> Reflection -> list Reflection -> Plan + string;
  (** The order of [range] over a map. *)
  tw_range : events -> gmap string CompletedStep -> list CompletedStep;
  tw_range_all : forall h m, tw_range h m ≡ₚ snd <$> map_to_list m;
}.

(** ** The builder *)

Record TaskBuilder := mkTask {
  tb_task : string;
  tb_system : string;
  tb_systemFn : option (string -> ModelMetadata -> string);
  tb_usePlanner : bool;
  tb_useReflector : bool;
  tb_maxRetries : Z;
  tb_maxReplans : Z;
  tb_planModel : string;
  tb_execModel : string;
  tb_workspace : string;
  tb_skills : list SkillDescriptor;
  tb_compaction : string;
  tb_err : option string;
}.

Definition newTaskBuilder (task : string) : TaskBuilder :=
  mkTask task "" None false false 2 3 "" "" "" [] "sliding_window" None.

Section setters.
Variable b : TaskBuilder.
Definition System (prompt : string) : TaskBuilder :=
  mkTask (tb_task b) prompt (tb_systemFn b) (tb_usePlanner b) (tb_useReflector b) (tb_maxRetries b) (tb_maxReplans b)
    (tb_planModel b) (tb_execModel b) (tb_workspace b) (tb_skills b) (tb_compaction b) (tb_err b).
Definition SystemFactory (fn : string -> ModelMetadata -> string) : TaskBuilder :=
  mkTask (tb_task b) (tb_system b) (Some fn) (tb_usePlanner b) (tb_useReflector b) (tb_maxRetries b) (tb_maxReplans b)
    (tb_planModel b) (tb_execModel b) (tb_workspace b) (tb_skills b) (tb_compaction b) (tb_err b).
(** [Plan], and [Planner] for a planner of the caller's. *)
Definition with_planner : TaskBuilder :=
  mkTask (tb_task b) (tb_system b) (tb_systemFn b) true (tb_useReflector b) (tb_maxRetries b) (tb_maxReplans b)
    (tb_planModel b) (tb_execModel b) (tb_workspace b) (tb_skills b) (tb_compaction b) (tb_err b).
(** [Reflect], and [Reflector]. *)
Definition with_reflector : TaskBuilder :=
  mkTask (tb_task b) (tb_system b) (tb_systemFn b) (tb_usePlanner b) true (tb_maxRetries b) (tb_maxReplans b)
    (tb_planModel b) (tb_execModel b) (tb_workspace b) (tb_skills b) (tb_compaction b) (tb_err b).
Definition MaxRetries (n : Z) : TaskBuilder :=
  mkTask (tb_task b) (tb_system b) (tb_systemFn b) (tb_usePlanner b) (tb_useReflector b) n (tb_maxReplans b)
    (tb_planModel b) (tb_execModel b) (tb_workspace b) (tb_skills b) (tb_compaction b) (tb_err b).
Definition MaxReplans (n : Z) : TaskBuilder :=
  mkTask (tb_task b) (tb_system b) (tb_systemFn b) (tb_usePlanner b) (tb_useReflector b) (tb_maxRetries b) n
    (tb_planModel b) (tb_execModel b) (tb_workspace b) (tb_skills b) (tb_compaction b) (tb_err b).
Definition Models (planModel execModel : string) : TaskBuilder :=
  mkTask (tb_task b) (tb_system b) (tb_systemFn b) (tb_usePlanner b) (tb_useReflector b) (tb_maxRetries b) (tb_maxReplans b)
    planModel execModel (tb_workspace b) (tb_skills b) (tb_compaction b) (tb_err b).
Definition Workspace (dir : string) : TaskBuilder :=
  mkTask (tb_task b) (tb_system b) (tb_systemFn b) (tb_usePlanner b) (tb_useReflector b) (tb_maxRetries b) (tb_maxReplans b)
    (tb_planModel b) (tb_execModel b) dir (tb_skills b) (tb_compaction b) (tb_err b).
Definition Skills (s : list SkillDescriptor) : TaskBuilder :=
  mkTask (tb_task b) (tb_system b) (tb_systemFn b) (tb_usePlanner b) (tb_useReflector b) (tb_maxRetries b) (tb_maxReplans b)
    (tb_planModel b) (tb_execModel b) (tb_workspace b) s (tb_compaction b) (tb_err b).
Definition Compaction (strategy : string) : TaskBuilder :=
  mkTask (tb_task b) (tb_system b) (tb_systemFn b) (tb_usePlanner b) (tb_useReflector b) (tb_maxRetries b) (tb_maxReplans b)
    (tb_planModel b) (tb_execModel b) (tb_workspace b) (tb_skills b) strategy (tb_err b).
End setters.

(** ** The state of a run *)

Record tstate := mkT {
  t_trace : events;
  t_bb : MapBlackboard;
  t_completed : gmap string CompletedStep;
  t_reflections : list Reflection;
  t_aborted : bool;
  t_paused : bool;
  t_replan : option Plan;
}.

Definition emit (e : task_event) (s : tstate) : tstate :=
  mkT (t_trace s ++ [e]) (t_bb s) (t_completed s) (t_reflections s) (t_aborted s) (t_paused s) (t_replan s).
Definition with_bb (f : MapBlackboard -> MapBlackboard) (s : tstate) : tstate :=
  mkT (t_trace s) (f (t_bb s)) (t_completed s) (t_reflections s) (t_aborted s) (t_paused s) (t_replan s).
Definition with_completed (m : gmap string CompletedStep) (s : tstate) : tstate :=
  mkT (t_trace s) (t_bb s) m (t_reflections s) (t_aborted s) (t_paused s) (t_replan s).
Definition add_reflection (r : Reflection) (s : tstate) : tstate :=
  mkT (t_trace s) (AddReflection r (t_bb s)) (t_completed s) (t_reflections s ++ [r]) (t_aborted s) (t_paused s) (t_replan s).
Definition abort (s : tstate) : tstate :=
  mkT (t_trace s) (t_bb s) (t_completed s) (t_reflections s) true (t_paused s) (t_replan s).
Definition pause (s : tstate) : tstate :=
  mkT (t_trace s) (t_bb s) (t_completed s) (t_reflections s) (t_aborted s) true (t_replan s).
Definition set_replan (p : option Plan) (s : tstate) : tstate :=
  mkT (t_trace s) (t_bb s) (t_completed s) (t_reflections s) (t_aborted s) (t_paused s) p.

(** [aborted || paused || replanPlan != nil] *)
Definition halted (s : tstate) : bool :=
  t_aborted s || t_paused s || match t_replan s with Some _ => true | None => false end.

Section loop.
Variable b : TaskBuilder.
Variable w : TaskWorld.

Definition both_models : bool := negb (String.eqb (tb_planModel b) "") && negb (String.eqb (tb_execModel b) "").

Definition switchModelMidLoop (model : string) (s : tstate) : tstate :=
  let err := tw_SetModel w (t_trace s) model in
  let s := emit (ModelSwitched model) s in
  match err with
  | Some e => emit (OnServiceMeta ("failed to switch model to " +s+ tw_quote w model +s+ ": " +s+ e +s+ " (continuing on active model)") model) s
  | None => s
  end.
Definition switch_if (cond : bool) (model : string) (s : tstate) : tstate :=
  if cond then switchModelMidLoop model s else s.

Definition completedInOrder (h : events) (completed : gmap string CompletedStep) (plan : option Plan) : list CompletedStep :=
  match plan with
  | None => tw_range w h completed
  | Some p => omap (fun s => completed !! ps_id s) (p_steps p)
  end.

(** ** One step *)

(** What the attempt says next: the step is settled, or the next attempt with
    the message of this one, or none ([break]). *)
Inductive attempt_end := Settled | NextAttempt (lastErrMsg : string) | GiveUp (lastErrMsg : string).

(** The reflection behind a failed attempt. *)
Definition reflect_on (step : PlanStep) (attempt : Z) (trajectory : list Step) (lastErrMsg : string) (s : tstate)
    : tstate * attempt_end :=
  let s := switch_if both_models (tb_planModel b) s in
  let answer := tw_Reflect w (t_trace s) trajectory (GetPlan (t_bb s)) (t_reflections s) in
  let s := emit ReflectAsked s in
  let restore := switch_if both_models (tb_execModel b) in
  match answer with
  | None => (restore s, NextAttempt lastErrMsg)
  | Some r =>
      let s := emit (OnReflected r attempt (tb_maxRetries b)) (add_reflection r s) in
      if String.eqb (rf_suggested_action r) "abort" then
        let s := abort (restore s) in
        let s := with_completed (<[ps_id step := mkCompletedStep (ps_id step) "" (Some (mkErr "aborted by reflection" [])) []]> (t_completed s)) s in
        (emit (OnStepCompleted (ps_id step) false 0 "aborted by reflection") s, Settled)
      else if String.eqb (rf_suggested_action r) "replan" then
        let failed := mkCompletedStep (ps_id step) lastErrMsg None trajectory in
        let plan := GetPlan (t_bb s) in
        let answer := tw_Replan w (t_trace s) plan (completedInOrder (t_trace s) (t_completed s) plan) failed r (t_reflections s) in
        let s := emit (ReplanAsked failed) s in
        match answer with
        | inr e => (restore (emit (OnReplanFailed e) s), NextAttempt lastErrMsg)
        | inl newPlan =>
            (emit (OnStepCompleted (ps_id step) false 0 "replanning after reflection") (set_replan (Some newPlan) (restore s)), Settled)
        end
      else (restore s, NextAttempt lastErrMsg)
  end.

Definition succeeded (run : step_run) : option ExecutionResult :=
  match sr_err run, sr_result run with
  | None, Some r => if bool_decide (xr_Status r = StatusSuccess) then Some r else None
  | _, _ => None
  end.
Definition suspended (run : step_run) : bool :=
  match sr_result run with Some r => bool_decide (xr_Status r = StatusPaused) | None => false end.
Definition attempt_error (run : step_run) (lastErrMsg : string) : string :=
  match sr_err run, sr_result run with
  | Some e, _ => err_text e
  | None, Some r => xr_Output r
  | None, None => lastErrMsg
  end.

Definition run_attempt (step : PlanStep) (attempt : Z) (lastErrMsg : string) (s : tstate) : tstate * attempt_end :=
  let run := tw_Run w (t_trace s) (ps_description step) (t_bb s) in
  let s := with_bb (fun _ => sr_bb run) (emit (StepRun (ps_description step)) s) in
  match succeeded run with
  | Some r =>
      let s := with_completed (<[ps_id step := mkCompletedStep (ps_id step) (xr_Output r) None (sr_trajectory run)]> (t_completed s)) s in
      let s := with_bb (SetStepResult (ps_id step) (xr_Output r) None (sr_trajectory run)) s in
      (emit (OnStepCompleted (ps_id step) true 0 "") s, Settled)
  | None =>
      if suspended run then
        let s := with_bb (SetStepResult (ps_id step) "" None (sr_trajectory run)) s in
        (pause (emit (OnStepCompleted (ps_id step) false 0 "paused") s), Settled)
      else
        let lastErrMsg := attempt_error run lastErrMsg in
        if tw_ctxErr w (t_trace s) then (s, GiveUp lastErrMsg)
        else if (attempt <=? tb_maxRetries b) && tb_useReflector b
        then reflect_on step attempt (sr_trajectory run) lastErrMsg s
        else (s, NextAttempt lastErrMsg)
  end.

(** The [for] over the attempts, [n] of them left. *)
Fixpoint attempts (n : nat) (step : PlanStep) (attempt : Z) (lastErrMsg : string) (s : tstate) : tstate * attempt_end :=
  match n with
  | O => (s, GiveUp lastErrMsg)
  | S n =>
      match run_attempt step attempt lastErrMsg s with
      | (s, NextAttempt e) => attempts n step (attempt + 1) e s
      | stop => stop
      end
  end.

(** [b.maxRetries + 1], an [int]. *)
Definition maxAttempts : Z := int64 (tb_maxRetries b + 1).

Definition runStep (step : PlanStep) (s : tstate) : tstate :=
  match attempts (Z.to_nat maxAttempts) step 1 "max retries exceeded" s with
  | (s, Settled) => s
  | (s, NextAttempt e) | (s, GiveUp e) =>
      let failed := mkCompletedStep (ps_id step) "" (Some (mkErr ("failed after retries: " +s+ e) [])) [] in
      emit (OnStepCompleted (ps_id step) false 0 e) (with_completed (<[ps_id step := failed]> (t_completed s)) s)
  end.

(** ** The loop *)

Fixpoint wave (ready : list PlanStep) (s : tstate) : tstate :=
  match ready with
  | [] => s
  | step :: ready =>
      let s := runStep step (emit (OnStepStarted (ps_id step) (ps_description step) (ps_summary step)) s) in
      if halted s then s else wave ready s
  end.

Definition budget_error (replans : Z) : string :=
  "replan budget exhausted after " +s+ itoa replans +s+ " replans; stopping execution".

(** A revised plan takes over, with what survives of the results. *)
Definition carried_over (newPlan : Plan) (s : tstate) : gmap string CompletedStep :=
  match BuildCarryForward (S (length (p_steps newPlan))) (completedInOrder (t_trace s) (t_completed s) (GetPlan (t_bb s))) (Some newPlan) with
  | Some (Some c) => c
  | _ => ∅
  end.
Definition announce_plan (plan : Plan) (s : tstate) : tstate :=
  emit (OnPlanGenerated (Z.of_nat (length (p_steps plan))) (planStepsToEvents plan)) s.
Definition adopt (newPlan : Plan) (s : tstate) : tstate :=
  announce_plan newPlan (with_bb (SetPlan (Some newPlan)) (with_completed (carried_over newPlan s) (set_replan None s))).

(** [None]: out of fuel. *)
Fixpoint task_loop (fuel : nat) (plan : Plan) (replans : Z) (s : tstate) : option (Plan * tstate) :=
  match fuel with
  | O => None
  | S fuel =>
      if tw_ctxErr w (t_trace s) then Some (plan, s)
      else match FindReadySteps (Some plan) (t_completed s) with
      | [] => Some (plan, s)
      | ready =>
          let s := wave ready s in
          if t_aborted s || t_paused s then Some (plan, s)
          else match t_replan s with
          | Some newPlan =>
              if tb_maxReplans b <=? replans then Some (plan, emit (OnReplanFailed (budget_error replans)) s)
              else task_loop fuel newPlan (replans + 1) (adopt newPlan s)
          | None => task_loop fuel plan replans s
          end
      end
  end.

(** ** The outcome *)

(** [ErrExecutionIncomplete], wrapped with how many steps are completed. *)
Inductive task_error := Incomplete (done total : Z).

Definition failed_steps (completed : gmap string CompletedStep) : Z :=
  Z.of_nat (size (filter (fun kv => is_Some (cs_error (snd kv))) completed)).

Definition planCompletionStatus (completed : gmap string CompletedStep) (plan : Plan) (aborted paused : bool)
    : ExecutionStatus * Z * option task_error :=
  let failed := failed_steps completed in
  if aborted then (StatusAborted, failed, None)
  else if paused then (StatusPaused, failed, None)
  else if 0 <? failed then (StatusFailed, failed, None)
  else if (size completed <? length (p_steps plan))%nat
  then (StatusPartial, failed, Some (Incomplete (Z.of_nat (size completed)) (Z.of_nat (length (p_steps plan)))))
  else (StatusSuccess, failed, None).

(** [orchestration.ExecutionResult] of a planned task. *)
Record PlannedResult := mkPlannedResult {
  pr_Output : string;
  pr_Plan : Plan;
  pr_Blackboard : MapBlackboard;
  pr_Reflections : list Reflection;
  pr_Status : ExecutionStatus;
  pr_FailedSteps : Z;
}.

Definition result_of (plan : Plan) (s : tstate) : PlannedResult * option task_error :=
  let '(status, failed, err) := planCompletionStatus (t_completed s) plan (t_aborted s) (t_paused s) in
  (mkPlannedResult (AggregateOutput (t_completed s) (Some plan) ∅) plan (t_bb s) (t_reflections s) status failed, err).

(** The switches that are not survived. *)
Definition switch_model (phase model : string) (s : tstate) : tstate + string :=
  if String.eqb model "" then inl s
  else match tw_SetModel w (t_trace s) model with
  | Some e => inr ("TaskF: switch to " +s+ phase +s+ " model " +s+ tw_quote w model +s+ ": " +s+ e)
  | None => inl (emit (ModelSwitched model) s)
  end.

(** What [Execute] returns: an error alone, the result of a single run, or the
    result of a plan with its error. *)
Inductive outcome :=
| NoResult (err : string)
| RunResult (r : option ExecutionResult)
| PlanResult (r : PlannedResult) (err : option task_error).

Definition runPlanned (fuel : nat) (s : tstate) : option (tstate * outcome) :=
  match tw_resolvePlanner w with
  | Some e => Some (s, NoResult e)
  | None =>
  match switch_model "plan" (tb_planModel b) s with
  | inr e => Some (s, NoResult e)
  | inl s =>
  let answer := tw_Plan w (t_trace s) in
  let s := emit PlanAsked s in
  match answer with
  | inr e => Some (s, NoResult ("TaskF: plan: " +s+ e))
  | inl plan =>
  let s := with_bb (SetPlan (Some plan)) (announce_plan plan s) in
  match switch_model "exec" (tb_execModel b) s with
  | inr e => Some (s, NoResult e)
  | inl s =>
  match task_loop fuel plan 0 s with
  | None => None
  | Some (plan, s) =>
      let s := switch_if both_models (tb_planModel b) s in
      let '(r, err) := result_of plan s in Some (s, PlanResult r err)
  end end end end end.

Definition errTaskNoSystem : string :=
  "TaskF: system prompt is required — use .System(...) or .SystemFactory(...)".

(** A task starts with an empty blackboard that holds the request. *)
Definition initial : tstate := mkT [] (SetOriginalRequest (tb_task b) (NewMapBlackboard 0)) ∅ [] false false None.

Definition Task_Execute (fuel : nat) : option (tstate * outcome) :=
  match tb_err b with
  | Some e => Some (initial, NoResult e)
  | None =>
  if String.eqb (tb_system b) "" && match tb_systemFn b with None => true | Some _ => false end
  then Some (initial, NoResult errTaskNoSystem)
  else match tw_NewConductor w with
  | Some e => Some (initial, NoResult ("TaskF: " +s+ e))
  | None =>
      let s := if tb_usePlanner b && negb (String.eqb (tb_execModel b) "")
               then emit (ConductorSized (tb_execModel b)) initial else initial in
      if tb_usePlanner b then runPlanned fuel s
      else
        let run := tw_Run w (t_trace s) (tb_task b) (t_bb s) in
        let s := with_bb (fun _ => sr_bb run) (emit (StepRun (tb_task b)) s) in
        match sr_err run with
        | Some e => Some (s, NoResult ("TaskF: " +s+ err_text e))
        | None => Some (s, RunResult (sr_result run))
        end
  end end.

End loop.
