(* ===== verification/TaskFacts.v ===== *)
(** * The plan, execute, reflect loop: what holds of every run

    The conductor, planner, reflector and router are any functions of the events
    so far ([TaskWorld]).  Theorems: a planned task comes to an end, within the
    budgets of replans and attempts; a step is started only behind the steps it
    depends on, and only on the execution model; what the status of the result
    says about the run. *)

From Stdlib Require Import ZArith Lia.
From stdpp Require Import base gmap strings list.
From S2P Require Import Prelude GoStr GoFloat AgentTypes Plan PlanDag Blackboard Nudges ToolCache Planner ExecState Executor Conductor Task.
Open Scope sp4rk_scope.

Notation events := (list task_event).

(** ** Reading a trace *)

Definition is_run (e : task_event) : bool := match e with StepRun _ => true | _ => false end.
Definition runs (h : events) : nat := length (List.filter is_run h).
Definition plan_size (e : task_event) : nat := match e with OnPlanGenerated _ steps => length steps | _ => 0 end.
Definition is_plan (e : task_event) : bool := match e with OnPlanGenerated _ _ => true | _ => false end.
(** The plans adopted, and the steps in all of them. *)
Definition plans (h : events) : nat := length (List.filter is_plan h).
Definition planned_steps (h : events) : nat := sum_list_with plan_size h.
(** The steps of the plan in force. *)
Definition last_plan (h : events) : list PlanStepEvent :=
  fold_left (fun p e => match e with OnPlanGenerated _ steps => steps | _ => p end) h [].
Definition last_model (h : events) : option string :=
  fold_left (fun m e => match e with ModelSwitched x => Some x | _ => m end) h None.
Definition completed_event (id : string) : task_event := OnStepCompleted id true 0 "".

(** Events between the start of a step and the next one. *)
Definition inner (e : task_event) : bool :=
  match e with OnPlanGenerated _ _ | OnStepStarted _ _ _ => false | _ => true end.

Lemma runs_app h l : runs (h ++ l) = (runs h + runs l)%nat.
Proof. unfold runs. by rewrite List.filter_app, length_app. Qed.
Lemma plans_app h l : plans (h ++ l) = (plans h + plans l)%nat.
Proof. unfold plans. by rewrite List.filter_app, length_app. Qed.
Lemma planned_steps_app h l : planned_steps (h ++ l) = (planned_steps h + planned_steps l)%nat.
Proof. unfold planned_steps. induction h as [|e h IH]; [done|]. cbn [app sum_list_with]. lia. Qed.
#[export] Hint Rewrite runs_app plans_app planned_steps_app : trace.

(** No plan is announced in the events. *)
Definition planless (l : events) : Prop := Forall (fun e => is_plan e = false) l.
Lemma inner_planless l : Forall (fun e => inner e = true) l -> planless l.
Proof. intros H. eapply Forall_impl; [exact H|]. by intros []. Qed.
Lemma planless_last h l : planless l -> last_plan (h ++ l) = last_plan h.
Proof.
  intros H. unfold last_plan. rewrite fold_left_app. generalize (fold_left (fun p e => match e with OnPlanGenerated _ steps => steps | _ => p end) h []).
  induction H as [|e l He _ IH]; intros p; [done|]. cbn [fold_left]. rewrite IH. by destruct e.
Qed.
Lemma planless_plans l : planless l -> plans l = 0%nat /\ planned_steps l = 0%nat.
Proof. induction 1 as [|e l He _ [IH1 IH2]]; [done|]. unfold plans, planned_steps in *. destruct e; try done; cbn [List.filter is_plan sum_list_with plan_size]; split; lia. Qed.

(** A step is started only when the plan in force has it and what it depends on
    has been completed. *)
Definition starts_met (h : events) (e : task_event) : Prop :=
  match e with
  | OnStepStarted id description summary =>
      exists deps, mkStepEvent id summary description deps ∈ last_plan h /\
        forall d, d ∈ sl deps -> completed_event d ∈ h
  | _ => True
  end.
Definition always (P : events -> task_event -> Prop) (h : events) : Prop :=
  forall h1 e h2, h = h1 ++ e :: h2 -> P h1 e.

Lemma always_nil P : always P [].
Proof. intros h1 e h2 H. by destruct h1. Qed.
Lemma always_snoc P h e : always P h -> P h e -> always P (h ++ [e]).
Proof.
  intros Hh He h1 e' h2 E. destruct h2 as [|e2 h2 _] using rev_ind.
  - apply app_inj_tail in E as [-> ->]. done.
  - rewrite app_comm_cons, app_assoc in E. apply app_inj_tail in E as [-> ->]. by eapply Hh.
Qed.
Lemma always_inner h l : always starts_met h -> Forall (fun e => inner e = true) l -> always starts_met (h ++ l).
Proof.
  intros Hh Hl. revert h Hh. induction Hl as [|e l He _ IH]; intros h Hh; [by rewrite app_nil_r|].
  rewrite cons_middle, app_assoc. apply IH, always_snoc; [done|]. by destruct e.
Qed.

(** ** One step *)

Section step.
Variables (b : TaskBuilder) (w : TaskWorld).

(** The revised plans are answers of the planner. *)
Definition revised (p : Plan) : Prop := exists h plan done failed r rs, tw_Replan w h plan done failed r rs = inl p.

(** How a step that is settled leaves the state. *)
Inductive settled (id : string) (s s' : tstate) : Prop :=
| was_completed cs
    (Hset : t_completed s' = <[id := cs]> (t_completed s)) (Hid : cs_step_id cs = id)
    (Hcs : match cs_error cs with
           | None => completed_event id ∈ t_trace s'
           | Some _ => exists msg, OnStepCompleted id false 0 msg ∈ t_trace s'
           end)
    (Hab : t_aborted s' = true -> t_aborted s = true \/ exists r, r ∈ t_reflections s' /\ rf_suggested_action r = "abort")
    (Hpa : t_paused s' = t_paused s) (Hre : t_replan s' = t_replan s)
| was_paused
    (Hset : t_completed s' = t_completed s) (Hab : t_aborted s' = t_aborted s)
    (Hpa : t_paused s' = true) (Hev : OnStepCompleted id false 0 "paused" ∈ t_trace s') (Hre : t_replan s' = t_replan s)
| was_replanned p
    (Hset : t_completed s' = t_completed s) (Hab : t_aborted s' = t_aborted s)
    (Hpa : t_paused s' = t_paused s) (Hre : t_replan s' = Some p) (Hp : revised p).

Record moved (n : nat) (s s' : tstate) : Prop := {
  mv_trace : exists l, t_trace s' = t_trace s ++ l /\ Forall (fun e => inner e = true) l /\ (runs l <= n)%nat;
  mv_reflections : exists k, t_reflections s' = t_reflections s ++ k;
}.

Lemma moved_refl n s : moved n s s.
Proof. split; exists []; rewrite app_nil_r; split_and?; try done. cbn. lia. Qed.
Lemma moved_emit n s s' e : inner e = true -> is_run e = false -> moved n s s' -> moved n s (emit e s').
Proof.
  intros Hi Hr [(l & E & H & R) K]. split; [|exact K]. exists (l ++ [e]). cbn [emit t_trace]. rewrite E, app_assoc, runs_app. split_and!; [done| |].
  - apply Forall_app. split; [done|by constructor].
  - unfold runs at 2. cbn [List.filter]. rewrite Hr. cbn [length]. lia.
Qed.
Lemma moved_run n s s' d : moved n s s' -> moved (S n) s (emit (StepRun d) s').
Proof.
  intros [(l & E & H & R) K]. split; [|exact K]. exists (l ++ [StepRun d]). cbn [emit t_trace]. rewrite E, app_assoc, runs_app. split_and!; [done| |].
  - apply Forall_app. split; [done|by constructor].
  - cbn. lia.
Qed.
Lemma moved_bb n s s' f : moved n s s' -> moved n s (with_bb f s').
Proof. intros [H K]. by split. Qed.
Lemma moved_completed n s s' m : moved n s s' -> moved n s (with_completed m s').
Proof. intros [H K]. by split. Qed.
Lemma moved_abort n s s' : moved n s s' -> moved n s (abort s').
Proof. intros [H K]. by split. Qed.
Lemma moved_pause n s s' : moved n s s' -> moved n s (pause s').
Proof. intros [H K]. by split. Qed.
Lemma moved_replan n s s' p : moved n s s' -> moved n s (set_replan p s').
Proof. intros [H K]. by split. Qed.
Lemma moved_reflection n s s' r : moved n s s' -> moved n s (add_reflection r s').
Proof. intros [H (k & K)]. split; [done|]. exists (k ++ [r]). cbn [add_reflection t_reflections]. by rewrite K, app_assoc. Qed.
Lemma moved_switch n s s' c m : moved n s s' -> moved n s (switch_if w c m s').
Proof.
  intros H. unfold switch_if, switchModelMidLoop. destruct c; [|done].
  destruct (tw_SetModel w _ _); repeat (apply moved_emit; [done..|]); done.
Qed.
Lemma moved_trans n m s1 s2 s3 : moved n s1 s2 -> moved m s2 s3 -> moved (n + m) s1 s3.
Proof.
  intros [(l1 & E1 & H1 & R1) (k1 & K1)] [(l2 & E2 & H2 & R2) (k2 & K2)]. split.
  - exists (l1 ++ l2). rewrite E2, E1, app_assoc, runs_app. split_and!; [done|by apply Forall_app|lia].
  - exists (k1 ++ k2). by rewrite K2, K1, app_assoc.
Qed.
Lemma switch_if_fields c m s :
  t_completed (switch_if w c m s) = t_completed s /\ t_aborted (switch_if w c m s) = t_aborted s /\
  t_paused (switch_if w c m s) = t_paused s /\ t_replan (switch_if w c m s) = t_replan s /\
  t_reflections (switch_if w c m s) = t_reflections s /\ t_bb (switch_if w c m s) = t_bb s.
Proof. unfold switch_if, switchModelMidLoop. destruct c; [|done]. by destruct (tw_SetModel w _ _). Qed.

Definition unsettled (s s' : tstate) : Prop :=
  t_completed s' = t_completed s /\ t_aborted s' = t_aborted s /\ t_paused s' = t_paused s /\ t_replan s' = t_replan s.

Definition attempted (id : string) (n : nat) (s : tstate) (out : tstate * attempt_end) : Prop :=
  moved n s (fst out) /\ match snd out with Settled => settled id s (fst out) | _ => unsettled s (fst out) end.

Ltac fields := cbn [t_trace t_bb t_completed t_reflections t_aborted t_paused t_replan emit with_bb with_completed add_reflection abort pause set_replan fst snd].
Ltac moves := repeat first
  [ apply moved_refl | apply moved_switch | apply moved_run | (apply moved_emit; [done|done|]) | apply moved_bb | apply moved_completed
  | apply moved_abort | apply moved_pause | apply moved_replan | apply moved_reflection ].
(** The fields a switch of the model keeps. *)
Ltac switches := repeat match goal with |- context [switch_if ?w ?c ?m ?s] =>
  let E := fresh in destruct (switch_if_fields c m s) as (E1 & E2 & E3 & E4 & E5 & E6);
  rewrite ?E1, ?E2, ?E3, ?E4, ?E5, ?E6; clear E1 E2 E3 E4 E5 E6; fields end.

Lemma reflect_on_attempted step attempt trajectory e s :
  attempted (ps_id step) 0 s (reflect_on b w step attempt trajectory e s).
Proof.
  unfold reflect_on. set (s1 := switch_if w (both_models b) (tb_planModel b) s).
  assert (H1 : moved 0 s (emit ReflectAsked s1)) by (unfold s1; moves).
  assert (U1 : unsettled s (emit ReflectAsked s1)) by (unfold unsettled, s1; fields; by switches).
  destruct (tw_Reflect w _ _ _ _) as [r|]; [|split; [by fields; moves|unfold unsettled; fields; by switches]].
  destruct (String.eqb_spec (rf_suggested_action r) "abort") as [Ha|_].
  { split; [by fields; moves|]. unfold s1. eapply was_completed; fields; switches; try done.
    - fields. exists "aborted by reflection". apply elem_of_app. right. by left.
    - intros _. right. exists r. split; [|done]. apply elem_of_app. right. by left. }
  destruct (String.eqb (rf_suggested_action r) "replan"); [|split; [by fields; moves|unfold unsettled, s1; fields; by switches]].
  destruct (tw_Replan w _ _ _ _ _ _) as [p|err] eqn:Ep; [|split; [by fields; moves|unfold unsettled, s1; fields; by switches]].
  split; [by fields; moves|]. unfold s1. eapply was_replanned; fields; switches; try done. unfold revised. eauto 10.
Qed.

Lemma run_attempt_attempted step attempt e s : attempted (ps_id step) 1 s (run_attempt b w step attempt e s).
Proof.
  unfold run_attempt. set (run := tw_Run w (t_trace s) (ps_description step) (t_bb s)).
  destruct (succeeded run) as [r|].
  { split; [by fields; moves|]. eapply was_completed; fields; try done; [|by left]. fields. apply elem_of_app. right. by left. }
  destruct (suspended run).
  { split; [by fields; moves|]. eapply was_paused; fields; try done. apply elem_of_app. right. by left. }
  destruct (tw_ctxErr w _); [split; [by fields; moves|by unfold unsettled; fields]|].
  destruct (_ && _); [|split; [by fields; moves|by unfold unsettled; fields]].
  match goal with |- attempted _ _ _ (reflect_on b w step attempt ?t ?e ?s1) =>
    pose proof (reflect_on_attempted step attempt t e s1) as [Hm Hs]; set (out := reflect_on b w step attempt t e s1) in * end.
  split; [by eapply (moved_trans 1 0); [|exact Hm]; moves|]. destruct (snd out); try exact Hs.
  destruct Hs as [cs ? ? ? ? ? ?| |p]; [eapply was_completed|eapply was_paused|eapply was_replanned]; eauto.
Qed.

Lemma settled_later id s s1 s' : unsettled s s1 -> settled id s1 s' -> settled id s s'.
Proof.
  intros (Ec & Ea & Ep & Er) [cs Hset Hid Hcs Hab Hpa Hre|Hset Hab Hpa Hev Hre|p Hset Hab Hpa Hre Hp].
  - eapply was_completed; rewrite <- ?Ec, <- ?Ea, <- ?Ep, <- ?Er; eauto.
  - eapply was_paused; rewrite <- ?Ec, <- ?Ea, <- ?Ep, <- ?Er; eauto.
  - eapply was_replanned; rewrite <- ?Ec, <- ?Ea, <- ?Ep, <- ?Er; eauto.
Qed.
Lemma unsettled_trans s s1 s' : unsettled s s1 -> unsettled s1 s' -> unsettled s s'.
Proof. unfold unsettled. intros (-> & -> & -> & ->). done. Qed.

Lemma attempts_attempted n step attempt e s : attempted (ps_id step) n s (attempts b w n step attempt e s).
Proof.
  revert attempt e s. induction n as [|n IH]; intros attempt e s; [by split; [apply moved_refl|]|]. cbn [attempts].
  pose proof (run_attempt_attempted step attempt e s) as [Hm Hs]. destruct (run_attempt b w step attempt e s) as [s1 []]; cbn [fst snd] in *.
  1, 3: split; [by apply (moved_trans 1 n _ _ _ Hm), moved_refl|done].
  destruct (IH (attempt + 1)%Z lastErrMsg s1) as [Hm' Hs']. split; [by apply (moved_trans 1 n _ _ _ Hm)|].
  destruct (snd _); [by eapply settled_later|by eapply unsettled_trans..].
Qed.

(** The most attempts a step gets. *)
Definition max_runs : nat := Z.to_nat (maxAttempts b).

(** A step that was run is settled, after at most so many runs of the conductor. *)
Lemma runStep_settled step s : moved max_runs s (runStep b w step s) /\ settled (ps_id step) s (runStep b w step s).
Proof.
  unfold runStep, max_runs. destruct (attempts_attempted (Z.to_nat (maxAttempts b)) step 1 "max retries exceeded" s) as [Hm Hs].
  destruct (attempts b w _ _ _ _ _) as [s1 []]; cbn [fst snd] in *; [done| |]; (split; [by moves|]).
  all: destruct Hs as (Ec & Ea & Ep & Er); eapply was_completed; fields; rewrite ?Ec, ?Ea, ?Ep, ?Er; try done; [|by left].
  all: fields; eexists; apply elem_of_app; right; by left.
Qed.
End step.

(** ** A wave of steps *)

Section wave.
Variables (b : TaskBuilder) (w : TaskWorld).

(** What the trace says of a result that is kept. *)
Definition told (h : events) (cs : CompletedStep) : Prop :=
  match cs_error cs with
  | None => completed_event (cs_step_id cs) ∈ h
  | Some _ => exists msg, OnStepCompleted (cs_step_id cs) false 0 msg ∈ h
  end.

Record consistent (plan : Plan) (s : tstate) : Prop := {
  co_plan : last_plan (t_trace s) = planStepsToEvents plan;
  co_starts : always starts_met (t_trace s);
  co_ids : forall id, is_Some (t_completed s !! id) -> id ∈ step_ids plan;
  co_told : forall id cs, t_completed s !! id = Some cs -> cs_step_id cs = id /\ told (t_trace s) cs;
  co_abort : t_aborted s = true -> exists r, r ∈ t_reflections s /\ rf_suggested_action r = "abort";
  co_pause : t_paused s = true -> exists id, OnStepCompleted id false 0 "paused" ∈ t_trace s;
  co_replan : forall p, t_replan s = Some p -> revised w p;
}.

Lemma told_more h l cs : told h cs -> told (h ++ l) cs.
Proof. unfold told. destruct (cs_error cs); [intros (m & H); exists m|intros H]; apply elem_of_app; by left. Qed.

(** A ready step: the plan has it and what it depends on is completed. *)
Definition may_start (plan : Plan) (h : events) (step : PlanStep) : Prop :=
  step ∈ p_steps plan /\ forall d, d ∈ deps_of step -> completed_event d ∈ h.

Lemma consistent_start plan s step :
  consistent plan s -> may_start plan (t_trace s) step ->
  consistent plan (emit (OnStepStarted (ps_id step) (ps_description step) (ps_summary step)) s).
Proof.
  intros [Hp Hs Hi Ht Ha Hpa Hr] [Hin Hd]. split; cbn [emit t_trace t_completed t_aborted t_paused t_replan t_reflections]; try done.
  - rewrite planless_last; [done|by repeat constructor].
  - apply always_snoc; [done|]. exists (ps_depends_on step). split; [|done]. rewrite Hp.
    apply list_elem_of_fmap. by exists step.
  - intros id cs H. destruct (Ht id cs H) as [E T]. split; [done|by apply told_more].
  - intros H. destruct (Hpa H) as [id E]. exists id. apply elem_of_app. by left.
Qed.

Lemma consistent_run plan s step :
  consistent plan s -> step ∈ p_steps plan -> consistent plan (runStep b w step s).
Proof.
  intros [Hp Hs Hi Ht Ha Hpa Hr] Hin.
  destruct (runStep_settled b w step s) as [[(l & El & Hl & _) (k & Ek)] Hset].
  assert (Hold : forall id cs, t_completed s !! id = Some cs -> cs_step_id cs = id /\ told (t_trace (runStep b w step s)) cs).
  { intros id cs H. destruct (Ht id cs H) as [E T]. split; [done|]. rewrite El. by apply told_more. }
  assert (Hab : t_aborted s = true -> exists r, r ∈ t_reflections (runStep b w step s) /\ rf_suggested_action r = "abort").
  { intros H. destruct (Ha H) as (r & Hr1 & Hr2). exists r. split; [|done]. rewrite Ek. apply elem_of_app. by left. }
  assert (Hpp : t_paused s = true -> exists id, OnStepCompleted id false 0 "paused" ∈ t_trace (runStep b w step s)).
  { intros H. destruct (Hpa H) as [id E]. exists id. rewrite El. apply elem_of_app. by left. }
  split.
  - by rewrite El, planless_last by by apply inner_planless.
  - rewrite El. by apply always_inner.
  - intros id H. destruct Hset as [cs E _ _ _ _ _|E _ _ _ _|p E _ _ _ _]; rewrite E in H; [|by apply Hi..].
    destruct (decide (ps_id step = id)) as [<-|Hne]; [apply list_elem_of_fmap; by exists step|]. rewrite lookup_insert_ne in H by done. by apply Hi.
  - intros id cs H. destruct Hset as [cs' E Hid Hcs _ _ _|E _ _ _ _|p E _ _ _ _]; rewrite E in H; [|by apply Hold..].
    apply lookup_insert_Some in H as [[<- <-]|[_ H]]; [|by apply Hold]. split; [done|]. unfold told. by rewrite Hid.
  - intros H. destruct Hset as [cs E _ _ Hb _ _|_ E _ _ _|p _ E _ _ _]; [|rewrite E in H; by apply Hab..].
    destruct (Hb H) as [H'|H']; [by apply Hab|done].
  - intros H. destruct Hset as [cs _ _ _ _ E _|_ _ _ Hev _|p _ _ E _ _]; [rewrite E in H; by apply Hpp|by exists (ps_id step)|rewrite E in H; by apply Hpp].
  - intros p H. destruct Hset as [cs _ _ _ _ _ E|_ _ _ _ E|p' _ _ _ E Hp']; [rewrite E in H; by apply Hr..|]. congruence.
Qed.

(** A step that does not halt the loop is completed. *)
Lemma runStep_completes step s :
  halted s = false -> halted (runStep b w step s) = false ->
  exists cs, t_completed (runStep b w step s) = <[ps_id step := cs]> (t_completed s).
Proof.
  intros _ H. destruct (runStep_settled b w step s) as [_ [cs E _ _ _ _ _|_ _ E _ _|p _ _ _ E _]]; [by exists cs| |];
    unfold halted in H; rewrite E in H; by destruct (t_aborted _), (t_paused _).
Qed.

Lemma may_start_more plan h l step : may_start plan h step -> may_start plan (h ++ l) step.
Proof. intros [H Hd]. split; [done|]. intros d H'. apply elem_of_app. left. by apply Hd. Qed.

Lemma wave_facts plan ready s :
  consistent plan s -> halted s = false -> Forall (may_start plan (t_trace s)) ready ->
  let s' := wave b w ready s in
  consistent plan s' /\
  (exists l, t_trace s' = t_trace s ++ l /\ planless l /\ (runs l <= max_runs b * length ready)%nat) /\
  (halted s' = false ->
    (forall id, is_Some (t_completed s !! id) -> is_Some (t_completed s' !! id)) /\
    Forall (fun step => is_Some (t_completed s' !! ps_id step)) ready).
Proof.
  revert s. induction ready as [|step ready IH]; intros s Hc Hh Hr; cbn [wave].
  { split_and!; [done|exists []; rewrite app_nil_r; split_and!; [done|constructor|cbn; lia]|done]. }
  inversion Hr as [|? ? Hstep Hrest]; subst.
  set (s0 := emit (OnStepStarted (ps_id step) (ps_description step) (ps_summary step)) s). set (s1 := runStep b w step s0).
  assert (Hc1 : consistent plan s1) by (apply consistent_run; [by apply consistent_start|apply Hstep]).
  destruct (runStep_settled b w step s0) as [[(l & El & Hl & Hn) _] _]. fold s1 in El.
  assert (El' : t_trace s1 = t_trace s ++ OnStepStarted (ps_id step) (ps_description step) (ps_summary step) :: l) by (rewrite El; unfold s0; cbn [emit t_trace]; by rewrite <- app_assoc).
  assert (Hpl : planless (OnStepStarted (ps_id step) (ps_description step) (ps_summary step) :: l)) by (constructor; [done|by apply inner_planless]).
  destruct (halted s1) eqn:E1.
  - split_and!; [done| |congruence]. eexists. split_and!; [exact El'|done|]. cbn [length]. change (runs l <= max_runs b * S (length ready))%nat. lia.
  - destruct (IH s1 Hc1 E1) as (Hc2 & (l2 & El2 & Hpl2 & Hn2) & Hd).
    { rewrite El'. eapply Forall_impl; [exact Hrest|]. intros x. apply may_start_more. }
    split_and!; [done| |].
    + rewrite El', <- app_assoc in El2. eexists. split_and!; [exact El2|by apply Forall_app|]. rewrite runs_app. cbn [length].
      change (runs l + runs l2 <= max_runs b * S (length ready))%nat. lia.
    + intros H. destruct (Hd H) as [Hk Hall]. destruct (runStep_completes step s0 Hh E1) as [cs Ecs]. fold s1 in Ecs.
      assert (Hk1 : forall id, is_Some (t_completed s !! id) -> is_Some (t_completed s1 !! id)).
      { intros id Hid. rewrite Ecs. destruct (decide (ps_id step = id)) as [<-|Hne]; [by rewrite lookup_insert_eq|by rewrite lookup_insert_ne]. }
      split; [intros id Hid; by apply Hk, Hk1|]. constructor; [|done]. apply Hk. rewrite Ecs. by rewrite lookup_insert_eq.
Qed.
End wave.

(** ** The loop *)

Section loop.
Variables (b : TaskBuilder) (w : TaskWorld).

(** What is carried over are earlier results, of steps the new plan has too. *)
Lemma in_order_kept h completed plan cs :
  cs ∈ completedInOrder w h completed plan -> exists id, completed !! id = Some cs.
Proof.
  unfold completedInOrder. destruct plan as [p|].
  - rewrite list_elem_of_omap. intros (s & _ & H). by exists (ps_id s).
  - rewrite (tw_range_all w h completed), list_elem_of_fmap. intros ([id c] & -> & H). exists id. by apply elem_of_map_to_list.
Qed.
Lemma carried_over_kept p s id cs :
  carried_over w p s !! id = Some cs ->
  id ∈ step_ids p /\ cs_step_id cs = id /\ cs_error cs = None /\ exists id', t_completed s !! id' = Some cs.
Proof.
  unfold carried_over, BuildCarryForward. set (done := completedInOrder _ _ _ _). set (ids := list_to_set (step_ids p) : gset string).
  pose proof (carry_candidates_size p done) as Hsz.
  destruct (carry_loop_facts ids (p_steps p) (S (length (p_steps p))) (carry_candidates ids done)) as (carried & Hloop & Hsub & _ & _); [unfold ids; lia|].
  rewrite Hloop. destruct (decide _) as [_|_]; [by rewrite lookup_empty|]. intros H.
  pose proof (lookup_weaken _ _ _ _ H Hsub) as Hc. rewrite carry_candidates_lookup in Hc. case_bool_decide as Hin; [|done].
  split; [by apply elem_of_list_to_set in Hin|]. unfold last_ok in Hc. apply last_Some_elem_of, elem_of_List_filter in Hc as [Hd Ht].
  apply andb_true_iff in Ht as [Hid He]. apply bool_decide_eq_true in Hid, He. split_and!; [done..|]. by eapply in_order_kept.
Qed.

(** The plans come from the planner. *)
Definition from_planner (p : Plan) : Prop := (exists h, tw_Plan w h = inl p) \/ revised w p.

Record running (plan : Plan) (replans : Z) (s : tstate) : Prop := {
  ru_consistent : consistent w plan s;
  ru_planned : from_planner plan;
  ru_going : halted s = false;
  ru_plans : plans (t_trace s) = S (Z.to_nat replans);
  ru_replans : (0 <= replans <= Z.max 0 (tb_maxReplans b))%Z;
  ru_runs : (runs (t_trace s) + max_runs b * length (left_of plan (t_completed s)) <= max_runs b * planned_steps (t_trace s))%nat;
}.

Lemma adopt_running plan replans p s :
  consistent w plan s -> t_replan s = Some p -> t_aborted s = false -> t_paused s = false ->
  plans (t_trace s) = S (Z.to_nat replans) -> (0 <= replans < tb_maxReplans b)%Z ->
  (runs (t_trace s) <= max_runs b * planned_steps (t_trace s))%nat ->
  running p (replans + 1) (adopt w p s).
Proof.
  intros [Hp Hs Hi Ht Ha Hpa Hr] Hre Eab Epa Hpl Hn Hru.
  assert (Htr : t_trace (adopt w p s) = t_trace s ++ [OnPlanGenerated (Z.of_nat (length (p_steps p))) (planStepsToEvents p)]) by done.
  assert (Hco : t_completed (adopt w p s) = carried_over w p s) by done.
  assert (Hle : (length (left_of p (carried_over w p s)) <= length (p_steps p))%nat) by apply filter_length_le.
  split; [split|..]; rewrite ?Htr, ?Hco; cbn [adopt announce_plan emit with_bb with_completed set_replan t_aborted t_paused t_replan t_reflections]; try done.
  - unfold last_plan. by rewrite fold_left_app.
  - by apply always_snoc.
  - intros id [cs H]. by apply carried_over_kept in H as (? & _).
  - intros id cs H. apply carried_over_kept in H as (_ & Hid & He & id' & H'). split; [done|].
    destruct (Ht id' cs H') as [_ T]. by apply told_more.
  - intros H. destruct (Hpa H) as [id E]. exists id. apply elem_of_app. by left.
  - right. by apply Hr.
  - unfold halted. cbn [adopt announce_plan emit with_bb with_completed set_replan t_aborted t_paused t_replan]. by rewrite Eab, Epa.
  - rewrite plans_app, Hpl. change (plans [_]) with 1%nat. lia.
  - lia.
  - rewrite runs_app, planned_steps_app. change (runs [_]) with 0%nat.
    replace (planned_steps [_]) with (length (p_steps p)); [nia|].
    unfold planned_steps. cbn [sum_list_with plan_size]. unfold planStepsToEvents. rewrite length_map. lia.
Qed.

Lemma ready_may_start plan s : consistent w plan s -> Forall (may_start plan (t_trace s)) (FindReadySteps (Some plan) (t_completed s)).
Proof.
  intros Hc. apply Forall_forall. intros step. rewrite FindReadySteps_filter, elem_of_List_filter, ready_step_spec.
  intros [Hin [_ Hd]]. split; [done|]. intros d H. destruct (Hd d H) as (cs & Hcs & He). destruct (co_told _ _ _ Hc d cs Hcs) as [<- T].
  unfold told in T. by rewrite He in T.
Qed.

Lemma left_shrinks plan (before after : gmap string CompletedStep) :
  (forall id, is_Some (before !! id) -> is_Some (after !! id)) ->
  Forall (fun step => is_Some (after !! ps_id step)) (FindReadySteps (Some plan) before) ->
  (length (left_of plan after) + length (FindReadySteps (Some plan) before) <= length (left_of plan before))%nat.
Proof.
  intros Hk Hall. rewrite FindReadySteps_filter in *. unfold left_of. rewrite Forall_forall in Hall.
  assert (Hall' : forall x, x ∈ p_steps plan -> ready_step before x = true -> is_Some (after !! ps_id x)).
  { intros x Hx Hr. apply Hall. by apply elem_of_List_filter. }
  clear Hall. induction (p_steps plan) as [|x l IH]; [done|].
  assert (Hx : ready_step before x = true -> before !! ps_id x = None) by (intros H; by apply ready_step_spec in H as [? _]).
  specialize (IH (fun y Hy => Hall' y (list_elem_of_further _ _ _ Hy))).
  assert (Hx' := Hall' x (list_elem_of_here _ _)). specialize (Hk (ps_id x)). cbn [List.filter].
  destruct (ready_step before x) eqn:Er.
  - rewrite (bool_decide_eq_true_2 (before !! ps_id x = None)) by by apply Hx.
    destruct (Hx' eq_refl) as [c ->]. cbn [bool_decide length]. simpl. lia.
  - case_bool_decide as E1; case_bool_decide as E2; cbn [length]; try lia.
    destruct (before !! ps_id x) as [c|]; [|done]. destruct Hk as [? ?]; [done|congruence].
Qed.

Lemma ready_le_left plan m : (length (FindReadySteps (Some plan) m) <= length (left_of plan m))%nat.
Proof.
  rewrite FindReadySteps_filter. unfold left_of. induction (p_steps plan) as [|x l IH]; [done|]. cbn [List.filter].
  destruct (ready_step m x) eqn:Er; [|case_bool_decide; cbn [length]; lia].
  apply ready_step_spec in Er as [E _]. rewrite bool_decide_eq_true_2 by done. cbn [length]. lia.
Qed.

(** Why the loop stopped. *)
Inductive stopped (plan : Plan) (s : tstate) : Prop :=
| by_cancellation : tw_ctxErr w (t_trace s) = true -> stopped plan s
| nothing_ready : halted s = false -> FindReadySteps (Some plan) (t_completed s) = [] -> stopped plan s
| by_halt : t_aborted s || t_paused s = true -> stopped plan s
| by_budget : OnReplanFailed (budget_error (Z.max 0 (tb_maxReplans b))) ∈ t_trace s -> stopped plan s.

Record ended (plan : Plan) (s : tstate) : Prop := {
  en_consistent : consistent w plan s;
  en_planned : from_planner plan;
  en_plans : (plans (t_trace s) <= S (Z.to_nat (tb_maxReplans b)))%nat;
  en_runs : (runs (t_trace s) <= max_runs b * planned_steps (t_trace s))%nat;
  en_stopped : stopped plan s;
}.

Lemma running_ended plan replans s : running plan replans s -> stopped plan s -> ended plan s.
Proof. intros [Hc Hf _ Hp Hr Hru] Hs. split; [done..|lia|lia|done]. Qed.

Lemma consistent_emit plan s err : consistent w plan s -> consistent w plan (emit (OnReplanFailed err) s).
Proof.
  intros [Hp Hs Hi Ht Ha Hpa Hr]. split; cbn [emit t_trace t_completed t_aborted t_paused t_replan t_reflections]; try done.
  - rewrite planless_last; [done|by repeat constructor].
  - by apply always_snoc.
  - intros id cs H. destruct (Ht id cs H) as [E T]. split; [done|by apply told_more].
  - intros H. destruct (Hpa H) as [id E]. exists id. apply elem_of_app. by left.
Qed.

(** One turn of the loop that found a step to run. *)
Lemma turn plan replans s ready :
  running plan replans s -> FindReadySteps (Some plan) (t_completed s) = ready -> ready <> [] ->
  let s' := wave b w ready s in
  if t_aborted s' || t_paused s' then ended plan s'
  else match t_replan s' with
  | Some p => if (tb_maxReplans b <=? replans)%Z then ended plan (emit (OnReplanFailed (budget_error replans)) s')
              else running p (replans + 1) (adopt w p s')
  | None => running plan replans s' /\ (length (left_of plan (t_completed s')) < length (left_of plan (t_completed s)))%nat
  end.
Proof.
  intros [Hc Hf Hh Hp Hr Hru] Er Hne s'. pose proof (ready_may_start plan s Hc) as Hm. rewrite Er in Hm.
  assert (Hnl : (1 <= length ready)%nat) by (destruct ready; [done|cbn; lia]).
  assert (Hsz : (length ready <= length (left_of plan (t_completed s)))%nat) by (rewrite <- Er; apply ready_le_left).
  destruct (wave_facts b w plan ready s Hc Hh Hm) as (Hc' & (l & El & Hpl & Hn) & Hd). fold s' in Hc', El, Hd.
  destruct (planless_plans l Hpl) as [Hl0 Hl1].
  assert (Epl : plans (t_trace s') = plans (t_trace s)) by (rewrite El, plans_app; lia).
  assert (Eps : planned_steps (t_trace s') = planned_steps (t_trace s)) by (rewrite El, planned_steps_app; lia).
  assert (Eru : (runs (t_trace s') <= runs (t_trace s) + max_runs b * length ready)%nat) by (rewrite El, runs_app; lia).
  assert (Hends : stopped plan s' -> ended plan s') by (intros Hs; split; [done..|lia|rewrite Eps; nia|done]).
  destruct (t_aborted s' || t_paused s') eqn:Eh; [by apply Hends, by_halt|]. apply orb_false_iff in Eh as [Ea Ep].
  destruct (t_replan s') as [p|] eqn:Ere.
  - destruct (Z.leb_spec (tb_maxReplans b) replans) as [Hge|Hlt].
    + split; [by apply consistent_emit|done|cbn [emit t_trace]; rewrite plans_app; change (plans [_]) with 0%nat; lia| |].
      * cbn [emit t_trace]. rewrite runs_app, planned_steps_app. change (runs [_]) with 0%nat. change (planned_steps [_]) with 0%nat. rewrite Eps. nia.
      * apply by_budget. cbn [emit t_trace]. apply elem_of_app. right. replace (Z.max 0 (tb_maxReplans b)) with replans by lia. by left.
    + apply (adopt_running plan); [done..|by rewrite Epl|lia|rewrite Eps; nia].
  - assert (Hh' : halted s' = false) by (unfold halted; by rewrite Ea, Ep, Ere). destruct (Hd Hh') as [Hk Hall]. subst ready.
    pose proof (left_shrinks plan _ _ Hk Hall) as Hlt. split; [split; [done..|by rewrite Epl|done|rewrite Eps; nia]|lia].
Qed.

Lemma loop_ends plan replans s : running plan replans s ->
  exists fuel plan' s', task_loop b w fuel plan replans s = Some (plan', s') /\ ended plan' s'.
Proof.
  remember (Z.to_nat (Z.max 0 (tb_maxReplans b) - replans)) as n eqn:En. revert plan replans s En.
  induction n as [n IHn] using lt_wf_ind. intros plan replans s En.
  remember (length (left_of plan (t_completed s))) as m eqn:Em. revert s Em.
  induction m as [m IHm] using lt_wf_ind. intros s Em Hru.
  destruct (tw_ctxErr w (t_trace s)) eqn:Ec.
  { exists 1%nat, plan, s. cbn [task_loop]. rewrite Ec. split; [done|]. by apply (running_ended _ _ _ Hru), by_cancellation. }
  destruct (FindReadySteps (Some plan) (t_completed s)) as [|x ready] eqn:Er.
  { exists 1%nat, plan, s. cbn [task_loop]. rewrite Ec, Er. split; [done|]. by apply (running_ended _ _ _ Hru), nothing_ready; [apply Hru|]. }
  pose proof (turn plan replans s _ Hru Er ltac:(done)) as Ht. cbv zeta in Ht. set (s' := wave b w (x :: ready) s) in *.
  destruct (t_aborted s' || t_paused s') eqn:Eh.
  { exists 1%nat, plan, s'. cbn [task_loop]. rewrite Ec, Er. fold s'. by rewrite Eh. }
  destruct (t_replan s') as [p|] eqn:Ep.
  - destruct (tb_maxReplans b <=? replans)%Z eqn:Eb.
    { exists 1%nat, plan, (emit (OnReplanFailed (budget_error replans)) s'). cbn [task_loop]. rewrite Ec, Er. fold s'. by rewrite Eh, Ep, Eb. }
    destruct (IHn (Z.to_nat (Z.max 0 (tb_maxReplans b) - (replans + 1)))) with (plan := p) (replans := (replans + 1)%Z) (s := adopt w p s') as (fuel & plan' & s2 & E & He); [|done|done|].
    { apply Z.leb_gt in Eb. destruct Hru as [_ _ _ _ Hr _]. lia. }
    exists (S fuel), plan', s2. split; [|done]. cbn [task_loop]. rewrite Ec, Er. fold s'. by rewrite Eh, Ep, Eb.
  - destruct Ht as [Hru' Hlt]. destruct (IHm (length (left_of plan (t_completed s')))) with (s := s') as (fuel & plan' & s2 & E & He); [lia|done|done|].
    exists (S fuel), plan', s2. split; [|done]. cbn [task_loop]. rewrite Ec, Er. fold s'. by rewrite Eh, Ep.
Qed.

Lemma loop_more fuel fuel' plan replans s out :
  task_loop b w fuel plan replans s = Some out -> (fuel <= fuel')%nat -> task_loop b w fuel' plan replans s = Some out.
Proof.
  revert fuel' plan replans s. induction fuel as [|fuel IH]; intros [|fuel'] plan replans s H Hle; [done..|lia|]. cbn [task_loop] in *.
  destruct (tw_ctxErr w (t_trace s)); [done|]. destruct (FindReadySteps _ _) as [|x ready]; [done|].
  destruct (_ || _); [done|]. destruct (t_replan _); [|by apply IH; [|lia]]. destruct (_ <=? _)%Z; [done|]. apply IH; [done|lia].
Qed.
End loop.

(** ** The whole task *)

Section task.
Variables (b : TaskBuilder) (w : TaskWorld).

(** Up to the loop: no plan yet, and what was emitted. *)
Lemma switch_model_inl phase m s s' : switch_model w phase m s = inl s' ->
  s' = (if String.eqb m "" then s else emit (ModelSwitched m) s).
Proof. unfold switch_model. destruct (String.eqb m ""); [congruence|]. destruct (tw_SetModel w _ _); congruence. Qed.

Definition before_loop (s : tstate) : Prop :=
  t_completed s = ∅ /\ halted s = false /\ runs (t_trace s) = 0%nat /\ plans (t_trace s) = 0%nat /\ always starts_met (t_trace s).

Lemma before_loop_emit s e : inner e = true -> is_run e = false -> before_loop s -> before_loop (emit e s).
Proof.
  intros Hi Hr (E & H & R & P & A). unfold before_loop. cbn [emit t_trace t_completed]. rewrite runs_app, plans_app, R, P. split_and!; [done|done| | |].
  - unfold runs. cbn [List.filter]. by rewrite Hr.
  - by destruct e.
  - apply always_snoc; [done|]. by destruct e.
Qed.
Lemma before_loop_switch phase m s s' : before_loop s -> switch_model w phase m s = inl s' -> before_loop s'.
Proof. intros H ->%switch_model_inl. destruct (String.eqb m ""); [done|]. by apply before_loop_emit. Qed.

Lemma plan_running s s' plan h :
  before_loop s -> tw_Plan w h = inl plan ->
  switch_model w "exec" (tb_execModel b) (with_bb (SetPlan (Some plan)) (announce_plan plan s)) = inl s' -> running b w plan 0 s'.
Proof.
  intros (Ec & Hh & Hr & Hp & Ha) Ew ->%switch_model_inl.
  set (s1 := with_bb (SetPlan (Some plan)) (announce_plan plan s)).
  assert (Hs1 : running b w plan 0 s1).
  { unfold halted in Hh. apply orb_false_iff in Hh as [[Eab Epa]%orb_false_iff Ere].
    assert (Et : t_trace s1 = t_trace s ++ [OnPlanGenerated (Z.of_nat (length (p_steps plan))) (planStepsToEvents plan)]) by done.
    assert (Hle : (length (left_of plan ∅) <= length (p_steps plan))%nat) by apply filter_length_le.
    split; [split|..]; rewrite ?Et; cbn [s1 announce_plan emit with_bb t_aborted t_paused t_replan t_completed t_reflections]; rewrite ?Ec.
    - unfold last_plan. by rewrite fold_left_app.
    - by apply always_snoc.
    - intros id [cs H]. by rewrite lookup_empty in H.
    - intros id cs H. by rewrite lookup_empty in H.
    - congruence.
    - congruence.
    - intros p H. rewrite H in Ere. done.
    - left. by exists h.
    - unfold halted. cbn [s1 announce_plan emit with_bb t_aborted t_paused t_replan]. by rewrite Eab, Epa, Ere.
    - rewrite plans_app, Hp. done.
    - lia.
    - rewrite runs_app, planned_steps_app, Hr. change (runs [_]) with 0%nat.
      replace (planned_steps [_]) with (length (p_steps plan)); [nia|]. unfold planned_steps. cbn [sum_list_with plan_size].
      unfold planStepsToEvents. rewrite length_map. lia. }
  destruct (String.eqb (tb_execModel b) ""); [done|].
  destruct Hs1 as [[C1 C2 C3 C4 C5 C6 C7] H2 H3 H4 H5 H6]. split; [split|..]; cbn [emit t_trace t_completed t_aborted t_paused t_replan t_reflections]; try done.
  - rewrite planless_last; [done|by repeat constructor].
  - by apply always_snoc.
  - intros id cs H. destruct (C4 id cs H) as [E T]. split; [done|by apply told_more].
  - intros H. destruct (C6 H) as [id E]. exists id. apply elem_of_app. by left.
  - rewrite plans_app, H4. change (plans [_]) with 0%nat. lia.
  - rewrite runs_app, planned_steps_app. change (runs [_]) with 0%nat. change (planned_steps [_]) with 0%nat. lia.
Qed.

(** How a task ends: without a plan, or with a loop that ended. *)
Inductive task_end (s : tstate) : outcome -> Prop :=
| unplanned out : (runs (t_trace s) <= if tb_usePlanner b then 0 else 1)%nat -> (plans (t_trace s) <= 1)%nat ->
    always starts_met (t_trace s) -> (forall r err, out <> PlanResult r err) -> task_end s out
| planned plan s0 l r err : tb_usePlanner b = true -> ended b w plan s0 -> t_trace s = t_trace s0 ++ l ->
    Forall (fun e => inner e && negb (is_run e) = true) l -> result_of plan s = (r, err) ->
    t_completed s = t_completed s0 -> t_aborted s = t_aborted s0 -> t_paused s = t_paused s0 -> t_reflections s = t_reflections s0 ->
    task_end s (PlanResult r err).

Lemma loop_ended plan replans s fuel plan' s' :
  running b w plan replans s -> task_loop b w fuel plan replans s = Some (plan', s') -> ended b w plan' s'.
Proof.
  intros Hr H. destruct (loop_ends b w plan replans s Hr) as (fuel2 & plan2 & s2 & H2 & He).
  pose proof (loop_more b w _ (Nat.max fuel fuel2) _ _ _ _ H ltac:(lia)) as E1.
  pose proof (loop_more b w _ (Nat.max fuel fuel2) _ _ _ _ H2 ltac:(lia)) as E2. by assert ((plan', s') = (plan2, s2)) as [= -> ->] by congruence.
Qed.

Lemma switch_tail c m s : exists l, t_trace (switch_if w c m s) = t_trace s ++ l /\ Forall (fun e => inner e && negb (is_run e) = true) l.
Proof.
  unfold switch_if, switchModelMidLoop. destruct c; [|exists []; by rewrite app_nil_r]. destruct (tw_SetModel w _ _).
  - eexists. cbn [emit t_trace]. rewrite <- app_assoc. split; [done|]. cbn. by repeat constructor.
  - eexists. cbn [emit t_trace]. split; [done|]. by repeat constructor.
Qed.

Lemma runPlanned_result fuel s0 : tb_usePlanner b = true -> before_loop s0 ->
  match runPlanned b w fuel s0 with Some (s, out) => task_end s out | None => True end /\
  (exists n, forall fuel', (n <= fuel')%nat -> is_Some (runPlanned b w fuel' s0)).
Proof.
  intros Hu H0.
  assert (Hno : forall s e, before_loop s -> task_end s (NoResult e)).
  { intros s e (_ & _ & Hr & Hp & Ha). apply unplanned; [rewrite Hr; lia|lia|done|done]. }
  unfold runPlanned. destruct (tw_resolvePlanner w) as [e|]; [split; [by apply Hno|by exists 0%nat]|].
  destruct (switch_model w "plan" (tb_planModel b) s0) as [s1|e] eqn:E1; [|split; [by apply Hno|by exists 0%nat]].
  assert (H1 : before_loop (emit PlanAsked s1)) by (apply before_loop_emit; [done..|by eapply before_loop_switch]).
  destruct (tw_Plan w (t_trace s1)) as [plan|e] eqn:Ep; [|split; [by apply Hno|by exists 0%nat]].
  destruct (switch_model w "exec" (tb_execModel b) _) as [s2|e] eqn:E2.
  2: { split; [|by exists 0%nat]. destruct H1 as (_ & _ & Hr & Hp & Ha).
    apply unplanned; cbn [with_bb announce_plan emit t_trace] in *; [|by rewrite plans_app, Hp| |done].
    - rewrite runs_app, Hr. cbn. lia.
    - by apply always_snoc. }
  pose proof (plan_running _ _ _ _ H1 Ep E2) as Hr. split.
  - destruct (task_loop b w fuel plan 0 s2) as [[plan' s3]|] eqn:El; [|done].
    pose proof (loop_ended _ _ _ _ _ _ Hr El) as He.
    destruct (switch_tail (both_models b) (tb_planModel b) s3) as (l & Et & Hl).
    destruct (switch_if_fields w (both_models b) (tb_planModel b) s3) as (F1 & F2 & F3 & _ & F5 & _).
    destruct (result_of plan' _) as [r err] eqn:Eres. by eapply planned.
  - destruct (loop_ends b w _ _ _ Hr) as (n & plan' & s3 & El & _). exists n. intros fuel' Hle.
    rewrite (loop_more b w _ _ _ _ _ _ El Hle). by destruct (result_of plan' _).
Qed.

Lemma Task_Execute_result fuel :
  match Task_Execute b w fuel with Some (s, out) => task_end s out | None => True end /\
  (exists n, forall fuel', (n <= fuel')%nat -> is_Some (Task_Execute b w fuel')).
Proof.
  assert (H0 : before_loop (initial b)) by (split_and!; try done; apply always_nil).
  assert (Hno : forall e, task_end (initial b) (NoResult e)) by (intros e; apply unplanned; [cbn; lia|cbn; lia|apply always_nil|done]).
  unfold Task_Execute. destruct (tb_err b); [split; [done|by exists 0%nat]|]. destruct (_ && _); [split; [done|by exists 0%nat]|].
  destruct (tw_NewConductor w); [split; [done|by exists 0%nat]|].
  destruct (tb_usePlanner b) eqn:Eu.
  - apply runPlanned_result; [done|]. destruct (_ && _); [by apply before_loop_emit|done].
  - cbn [andb]. set (s := with_bb _ _).
    assert (Hs : forall out, (forall r err, out <> PlanResult r err) -> task_end s out).
    { intros out Hout. apply unplanned; [rewrite Eu; cbn; lia|cbn; lia| |done]. by apply (always_snoc _ []); [apply always_nil|]. }
    destruct (sr_err _); (split; [by apply Hs|by exists 0%nat]).
Qed.
End task.

(** ** The execution model *)

Section exec.
Variables (b : TaskBuilder) (w : TaskWorld).

Definition on_exec_model (h : events) (e : task_event) : Prop :=
  match e with StepRun _ => tb_usePlanner b = true -> tb_execModel b <> "" -> last_model h = Some (tb_execModel b) | _ => True end.
Record on (m : option string) (s : tstate) : Prop := {
  on_runs : always on_exec_model (t_trace s);
  on_model : tb_execModel b <> "" -> last_model (t_trace s) = m;
}.
Notation exec := (Some (tb_execModel b)).

Lemma on_emit m s e : (match e with ModelSwitched _ => false | StepRun _ => false | _ => true end) = true -> on m s -> on m (emit e s).
Proof.
  intros He [Hr Hm]. split; cbn [emit t_trace]; [apply always_snoc; [done|by destruct e]|].
  intros H. specialize (Hm H). unfold last_model in *. rewrite fold_left_app. cbn [fold_left]. rewrite Hm. by destruct e.
Qed.
Lemma on_run s d : on exec s -> on exec (emit (StepRun d) s).
Proof.
  intros [Hr Hm]. split; cbn [emit t_trace]; [apply always_snoc; [done|]; by intros _|].
  intros H. specialize (Hm H). unfold last_model in *. by rewrite fold_left_app.
Qed.
Lemma on_same m s s' : t_trace s' = t_trace s -> on m s -> on m s'.
Proof. intros E [Hr Hm]. split; by rewrite E. Qed.
Lemma on_switched m x s : on m s -> on (Some x) (emit (ModelSwitched x) s).
Proof. intros [Hr _]. split; cbn [emit t_trace]; [by apply always_snoc|]. intros _. unfold last_model. by rewrite fold_left_app. Qed.
Lemma on_switch m x s : on m s -> on (Some x) (switchModelMidLoop w x s).
Proof.
  intros H. unfold switchModelMidLoop. destruct (tw_SetModel w _ _); [apply on_emit; [done|]|]; by eapply on_switched.
Qed.

(** Between the plan model's calls and the restoring switch. *)
Definition away (s : tstate) : Prop := exists m, on m s /\ (both_models b = false -> m = exec).
Lemma away_leave x s : on exec s -> away (switch_if w (both_models b) x s).
Proof. intros H. unfold away, switch_if. destruct (both_models b); [exists (Some x); split; [by eapply on_switch|done]|by exists exec]. Qed.
Lemma away_back s : away s -> on exec (switch_if w (both_models b) (tb_execModel b) s).
Proof. intros (m & H & Hm). unfold switch_if. destruct (both_models b); [by eapply on_switch|]. by rewrite <- Hm. Qed.
Lemma away_emit s e : (match e with ModelSwitched _ => false | StepRun _ => false | _ => true end) = true -> away s -> away (emit e s).
Proof. intros He (m & H & Hm). exists m. split; [by apply on_emit|done]. Qed.
Lemma away_same s s' : t_trace s' = t_trace s -> away s -> away s'.
Proof. intros E (m & H & Hm). exists m. split; [by eapply on_same|done]. Qed.

Lemma reflect_on_on step attempt trajectory e s : on exec s -> on exec (fst (reflect_on b w step attempt trajectory e s)).
Proof.
  intros H. unfold reflect_on. assert (Ha := away_leave (tb_planModel b) s H).
  set (s1 := switch_if w (both_models b) (tb_planModel b) s) in *. clearbody s1.
  assert (Ha1 : away (emit ReflectAsked s1)) by by apply away_emit.
  destruct (tw_Reflect w _ _ _ _) as [r|]; [|cbn [fst]; by apply away_back].
  set (s2 := emit (OnReflected r attempt (tb_maxRetries b)) (add_reflection r (emit ReflectAsked s1))).
  assert (H2 : away s2) by (apply away_emit; [done|]; by eapply away_same; [|exact Ha1]). clearbody s2.
  destruct (String.eqb _ "abort").
  { cbn [fst]. apply on_emit; [done|]. eapply on_same; [|by apply away_back]. done. }
  destruct (String.eqb _ "replan"); [|cbn [fst]; by apply away_back].
  match goal with |- context [ReplanAsked ?f] => assert (H3 : away (emit (ReplanAsked f) s2)) by by apply away_emit end.
  destruct (tw_Replan w _ _ _ _ _ _) as [p|err]; cbn [fst]; [|by apply away_back, away_emit].
  apply on_emit; [done|]. eapply on_same; [|by apply away_back]. done.
Qed.

Lemma run_attempt_on step attempt e s : on exec s -> on exec (fst (run_attempt b w step attempt e s)).
Proof.
  intros H. unfold run_attempt. set (run := tw_Run w _ _ _).
  assert (H1 : on exec (with_bb (fun _ => sr_bb run) (emit (StepRun (ps_description step)) s))) by by eapply on_same; [|by apply (on_run s)].
  destruct (succeeded run); [cbn [fst]; by apply on_emit; [|eapply on_same; [|exact H1]]|].
  destruct (suspended run); [cbn [fst]; eapply on_same; [|apply (on_emit exec _ (OnStepCompleted (ps_id step) false 0 "paused") eq_refl H1)]; done|].
  destruct (tw_ctxErr w _); [done|]. destruct (_ && _); [by apply reflect_on_on|done].
Qed.
Lemma attempts_on n step attempt e s : on exec s -> on exec (fst (attempts b w n step attempt e s)).
Proof.
  revert attempt e s. induction n as [|n IH]; intros attempt e s H; [done|]. cbn [attempts].
  pose proof (run_attempt_on step attempt e s H) as H1. destruct (run_attempt b w step attempt e s) as [s1 []]; [done|by apply IH|done].
Qed.
Lemma runStep_on step s : on exec s -> on exec (runStep b w step s).
Proof.
  intros H. unfold runStep. pose proof (attempts_on (Z.to_nat (maxAttempts b)) step 1 "max retries exceeded" s H) as H1.
  destruct (attempts b w _ _ _ _ _) as [s1 []]; cbn [fst] in H1; [done| |]; (apply on_emit; [done|]; by eapply on_same; [|exact H1]).
Qed.
Lemma wave_on ready s : on exec s -> on exec (wave b w ready s).
Proof.
  revert s. induction ready as [|step ready IH]; intros s H; [done|]. cbn [wave].
  assert (H1 : on exec (runStep b w step (emit (OnStepStarted (ps_id step) (ps_description step) (ps_summary step)) s))) by by apply runStep_on, on_emit.
  destruct (halted _); [done|by apply IH].
Qed.
Lemma loop_on fuel plan replans s plan' s' :
  on exec s -> task_loop b w fuel plan replans s = Some (plan', s') -> on exec s'.
Proof.
  revert plan replans s. induction fuel as [|fuel IH]; intros plan replans s H E; [done|]. cbn [task_loop] in E.
  destruct (tw_ctxErr w (t_trace s)); [congruence|]. destruct (FindReadySteps _ _) as [|x ready]; [congruence|].
  pose proof (wave_on (x :: ready) s H) as Hw. set (s1 := wave b w (x :: ready) s) in *. clearbody s1.
  destruct (_ || _); [congruence|]. destruct (t_replan s1) as [p|]; [|by eapply IH].
  destruct (_ <=? _)%Z; [injection E as <- <-; by apply on_emit|]. eapply IH; [|exact E].
  unfold adopt, announce_plan. by apply on_emit; [|eapply on_same; [|exact Hw]].
Qed.

Lemma Task_Execute_on fuel s out :
  Task_Execute b w fuel = Some (s, out) -> always on_exec_model (t_trace s).
Proof.
  assert (H0 : exists m, on m (initial b)) by (exists None; by split; [apply always_nil|]).
  unfold Task_Execute. destruct (tb_err b); [intros [= <- _]; apply always_nil|]. destruct (_ && _); [intros [= <- _]; apply always_nil|].
  destruct (tw_NewConductor w); [intros [= <- _]; apply always_nil|].
  destruct (tb_usePlanner b) eqn:Eu.
  2: { cbn [andb]. set (s1 := with_bb _ _). assert (H1 : always on_exec_model (t_trace s1)) by (apply (always_snoc _ []); [apply always_nil|]; cbn; congruence).
       destruct (sr_err _); intros [= <- _]; done. }
  set (s1 := if true && negb (String.eqb (tb_execModel b) "") then emit (ConductorSized (tb_execModel b)) (initial b) else initial b).
  assert (H1 : exists m : option string, on m s1) by (destruct H0 as [m H0]; exists m; unfold s1; destruct (_ && _); [by apply on_emit|done]).
  clearbody s1. unfold runPlanned. destruct H1 as [m H1].
  destruct (tw_resolvePlanner w); [intros [= <- _]; apply H1|].
  destruct (switch_model w "plan" _ s1) as [s2|e] eqn:E2; [|intros [= <- _]; apply H1].
  assert (H2 : exists m : option string, on m s2) by (apply switch_model_inl in E2 as ->; destruct (String.eqb _ ""); [by exists m|eexists; by eapply on_switched]).
  destruct H2 as [m2 H2].
  destruct (tw_Plan w _) as [plan|e]; [|intros [= <- _]; by apply (on_emit m2 _ PlanAsked)].
  set (s3 := with_bb _ _). assert (H3 : on m2 s3).
  { eapply on_same; [|apply (on_emit m2 _ (OnPlanGenerated (Z.of_nat (length (p_steps plan))) (planStepsToEvents plan)) eq_refl (on_emit m2 _ PlanAsked eq_refl H2))]. done. }
  clearbody s3. destruct (switch_model w "exec" _ s3) as [s4|e] eqn:E4; [|intros [= <- _]; apply H3].
  assert (H4 : on exec s4).
  { apply switch_model_inl in E4 as ->. destruct (String.eqb_spec (tb_execModel b) "") as [E|_]; [|by eapply on_switched]. split; [apply H3|done]. }
  destruct (task_loop b w fuel plan 0 s4) as [[plan' s5]|] eqn:El; [|done].
  pose proof (loop_on _ _ _ _ _ _ H4 El) as H5. assert (H6 : exists m : option string, on m (switch_if w (both_models b) (tb_planModel b) s5)).
  { unfold switch_if. destruct (both_models b); [eexists; by eapply on_switch|by eexists]. }
  destruct (result_of plan' _) as [r err]. intros [= <- _]. destruct H6 as [m' H6]. apply H6.
Qed.
End exec.

Lemma Task_Execute_more b w fuel fuel' out :
  Task_Execute b w fuel = Some out -> (fuel <= fuel')%nat -> Task_Execute b w fuel' = Some out.
Proof.
  unfold Task_Execute, runPlanned. intros H Hle. destruct (tb_err b); [done|]. destruct (_ && _); [done|]. destruct (tw_NewConductor w); [done|].
  destruct (tb_usePlanner b); [|done]. destruct (tw_resolvePlanner w); [done|].
  destruct (switch_model w "plan" _ _); [|done]. destruct (tw_Plan w _); [|done]. destruct (switch_model w "exec" _ _); [|done].
  destruct (task_loop b w fuel _ _ _) as [[plan s]|] eqn:E; [|done]. by rewrite (loop_more b w _ _ _ _ _ _ E Hle).
Qed.

(** ** What every task keeps *)

(** C4: [Execute] returns, whatever the conductor, planner, reflector and router
    answer: there is an outcome, the same however much fuel is left.  At most
    one plan more than the budget of replans is announced, and the conductor is
    run at most [maxRetries + 1] times for each step of the plans announced
    (once without a planner). *)
Theorem task_terminates b w :
  exists n s out, (forall fuel, (n <= fuel)%nat -> Task_Execute b w fuel = Some (s, out)) /\
    (plans (t_trace s) <= 1 + Z.to_nat (tb_maxReplans b))%nat /\
    (runs (t_trace s) <= if tb_usePlanner b then Z.to_nat (maxAttempts b) * planned_steps (t_trace s) else 1)%nat.
Proof.
  destruct (Task_Execute_result b w 0) as [_ (n & Hn)]. destruct (Hn n ltac:(lia)) as [[s out] E].
  exists n, s, out. split; [intros fuel Hf; by eapply Task_Execute_more|].
  destruct (Task_Execute_result b w n) as [Hr _]. rewrite E in Hr. destruct Hr as [out Hru Hpl _ _|plan s0 l r err Hu [_ _ Hp Hm _] Et Hl _ _ _ _ _].
  - split; [lia|]. destruct (tb_usePlanner b); lia.
  - rewrite Hu, Et. assert (Hq : plans l = 0%nat /\ planned_steps l = 0%nat).
    { apply planless_plans. eapply Forall_impl; [exact Hl|]. by intros []. }
    assert (Hr0 : runs l = 0%nat) by (clear -Hl; induction Hl as [|e l He _ IH]; [done|]; unfold runs in *; by destruct e).
    rewrite plans_app, runs_app, planned_steps_app. unfold max_runs in Hm. lia.
Qed.

(** C3: a step is started only when the plan in force has it and every step it
    depends on has been completed, under this plan or an earlier one; and when
    an execution model is set, every run of the conductor is made after the
    router was last told to switch to it. *)
Theorem steps_in_order b w fuel s out (Hrun : Task_Execute b w fuel = Some (s, out)) :
  always starts_met (t_trace s) /\ always (on_exec_model b) (t_trace s).
Proof.
  split; [|by eapply Task_Execute_on].
  pose proof (proj1 (Task_Execute_result b w fuel)) as Hr. rewrite Hrun in Hr.
  destruct Hr as [out _ _ Ha _|plan s0 l r err _ [Hc _ _ _ _] Et Hl _ _ _ _ _]; [done|].
  rewrite Et. apply always_inner; [apply Hc|]. eapply Forall_impl; [exact Hl|]. intros e. cbn beta. by destruct (inner e).
Qed.

(** *** The status of the result *)

Lemma failed_none m : failed_steps m = 0%Z -> forall id cs, m !! id = Some cs -> cs_error cs = None.
Proof.
  unfold failed_steps. intros H id cs Hid. destruct (cs_error cs) as [e|] eqn:E; [exfalso|done].
  assert (H0 : filter (fun kv : string * CompletedStep => is_Some (cs_error (snd kv))) m = ∅) by (apply map_size_empty_inv; lia).
  assert (Hx : filter (fun kv : string * CompletedStep => is_Some (cs_error (snd kv))) m !! id = Some cs) by (apply map_lookup_filter_Some; split; [done|]; cbn [snd]; by rewrite E).
  by rewrite H0, lookup_empty in Hx.
Qed.
Lemma failed_some m : (0 < failed_steps m)%Z -> exists id cs, m !! id = Some cs /\ is_Some (cs_error cs).
Proof.
  unfold failed_steps. intros H.
  destruct (map_choose (filter (fun kv : string * CompletedStep => is_Some (cs_error (snd kv))) m)) as (id & cs & Hx).
  { intros E. rewrite E, map_size_empty in H. lia. }
  apply map_lookup_filter_Some in Hx as [H1 H2]. by exists id, cs.
Qed.

(** As many results as steps, all of steps of the plan: every step has one. *)
Lemma all_completed (m : gmap string CompletedStep) p :
  (forall id, is_Some (m !! id) -> id ∈ step_ids p) -> (length (p_steps p) <= size m)%nat ->
  forall step, step ∈ p_steps p -> is_Some (m !! ps_id step).
Proof.
  intros Hi Hle step Hs. rewrite <- elem_of_dom.
  assert (Hsub : dom m ⊆ list_to_set (step_ids p)) by (intros id H; apply elem_of_list_to_set, Hi; by apply elem_of_dom).
  pose proof (size_list_to_set_le (step_ids p)) as Hl. unfold step_ids in Hl at 2. rewrite length_map in Hl.
  pose proof (subseteq_size _ _ Hsub) as Hd. rewrite size_dom in Hd.
  assert (E : dom m ≡ list_to_set (step_ids p)) by (apply set_subseteq_size_equiv; [done|rewrite size_dom; lia]).
  apply E, elem_of_list_to_set, list_elem_of_fmap. by exists step.
Qed.
Lemma some_missing (m : gmap string CompletedStep) p :
  (forall id, is_Some (m !! id) -> id ∈ step_ids p) -> NoDup (step_ids p) -> (size m < length (p_steps p))%nat ->
  exists step, step ∈ p_steps p /\ m !! ps_id step = None.
Proof.
  intros Hi Hnd Hlt. destruct (decide (Exists (fun step => m !! ps_id step = None) (p_steps p))) as [H|H]; [by apply Exists_exists in H|].
  exfalso. assert (Hs : list_to_set (step_ids p) ⊆ dom m).
  { intros id Hid. apply elem_of_list_to_set, list_elem_of_fmap in Hid as (step & -> & Hst). apply elem_of_dom.
    destruct (m !! ps_id step) eqn:E; [done|]. destruct H. apply Exists_exists. by exists step. }
  pose proof (subseteq_size _ _ Hs) as Hd. rewrite size_dom, size_list_to_set in Hd by done. unfold step_ids in Hd. rewrite length_map in Hd. lia.
Qed.

(** The planner's answers have passed its checks ([Planner.plans_checked]). *)
Definition plans_valid (w : TaskWorld) : Prop := forall p, from_planner w p -> valid_plan p ∅.

(** What each status says of the run. *)
Definition status_says (b : TaskBuilder) (w : TaskWorld) (h : events) (r : PlannedResult) : Prop :=
  match pr_Status r with
  | StatusSuccess => forall step, step ∈ p_steps (pr_Plan r) -> completed_event (ps_id step) ∈ h
  | StatusPartial => plans_valid w ->
      (exists before after, h = before ++ after /\ tw_ctxErr w before = true) \/
      OnReplanFailed (budget_error (Z.max 0 (tb_maxReplans b))) ∈ h
  | StatusFailed => exists id msg, OnStepCompleted id false 0 msg ∈ h
  | StatusAborted => exists x, x ∈ pr_Reflections r /\ rf_suggested_action x = "abort"
  | StatusPaused => exists id, OnStepCompleted id false 0 "paused" ∈ h
  | StatusCancelled => False
  end.

(** C5: what the result of a planned task says.  Success: every step of the
    plan of the result was completed without an error.  Failed: a step failed.
    Aborted: a reflection asked for it.  Paused: a run of the conductor was.
    Partial: with plans that passed the planner's checks, the context was
    cancelled between two waves or the budget of replans was used up.  There is
    an error exactly with the partial status, and failed steps are counted
    exactly when one of the kept results is an error. *)
Theorem status_meaning b w fuel s r err (Hrun : Task_Execute b w fuel = Some (s, PlanResult r err)) :
  status_says b w (t_trace s) r /\
  last_plan (t_trace s) = planStepsToEvents (pr_Plan r) /\
  (is_Some err <-> pr_Status r = StatusPartial) /\
  match pr_Status r with StatusFailed => 0 < pr_FailedSteps r | StatusSuccess | StatusPartial => pr_FailedSteps r = 0 | _ => True end%Z.
Proof.
  pose proof (proj1 (Task_Execute_result b w fuel)) as Hr. rewrite Hrun in Hr.
  inversion Hr as [out _ _ _ Hno|plan s0 l r' err' _ [Hc Hf _ _ Hs] Et Hl Hres Ec Ea Ep Erf]; subst; [by destruct (Hno r err)|].
  destruct Hc as [Hp _ Hi Ht Hab Hpa _].
  assert (Hlast : last_plan (t_trace s) = planStepsToEvents plan).
  { rewrite Et, planless_last; [done|]. eapply Forall_impl; [exact Hl|]. by intros []. }
  assert (Hin : forall e, e ∈ t_trace s0 -> e ∈ t_trace s) by (intros e H; rewrite Et; apply elem_of_app; by left).
  unfold result_of, planCompletionStatus in Hres. rewrite Ec, Ea, Ep, Erf in Hres.
  destruct (t_aborted s0) eqn:E1; [|destruct (t_paused s0) eqn:E2; [|destruct (Z.ltb_spec 0 (failed_steps (t_completed s0))) as [E3|E3];
    [|destruct (Nat.ltb_spec (size (t_completed s0)) (length (p_steps plan))) as [E4|E4]]]];
    injection Hres as <- <-; unfold status_says; cbn [pr_Status pr_Plan pr_Reflections pr_FailedSteps];
    (split; [|split; [exact Hlast|split; [by split; [intros [? ?]|intros ?]|]]]); try done.
  - by apply Hab.
  - destruct (Hpa eq_refl) as [id H]. exists id. by apply Hin.
  - destruct (failed_some _ E3) as (id & cs & Hid & He). destruct (Ht id cs Hid) as [<- T]. unfold told in T.
    destruct (cs_error cs) as [e|]; [|by destruct He]. destruct T as [msg T]. exists (cs_step_id cs), msg. by apply Hin.
  - intros Hv. destruct Hs as [Hs|_ Hs|Hs|Hs].
    + left. by exists (t_trace s0), l.
    + exfalso. specialize (Hv plan Hf). destruct (some_missing (t_completed s0) plan Hi (vp_unique _ _ Hv) E4) as (step & Hst & Hn).
      apply (FindReadySteps_progress plan ∅ (t_completed s0)); [done|by intros d Hd%elem_of_empty| |by exists step|done].
      apply failed_none. unfold failed_steps in *. lia.
    + by rewrite E1, E2 in Hs.
    + right. by apply Hin.
  - unfold failed_steps in *. lia.
  - intros step Hst. apply Hin. destruct (all_completed _ _ Hi E4 step Hst) as [cs Hcs]. destruct (Ht _ _ Hcs) as [<- T].
    unfold told in T. rewrite (failed_none (t_completed s0)) with (id := ps_id step) in T; [done|unfold failed_steps in *; lia|done].
  - unfold failed_steps in *. lia.
Qed.

(** ** Examples *)

Section examples.
Open Scope Z_scope.

Definition demo_step (id description : string) (deps : list string) : PlanStep :=
  mkPlanStep id "" description (Some deps) false None "" None.
Definition demo_plan : Plan := mkPlan [demo_step "a" "look" []; demo_step "b" "leap" ["a"]] "".
Definition demo_replan : Plan := mkPlan [demo_step "a" "look" []; demo_step "c" "step" ["a"]] "".

Definition demo_result (status : ExecutionStatus) (output : string) : ExecutionResult :=
  mkExecution output "" [] status (NewMapBlackboard 0) [].
(** Every run ends as the table says, and leaves the blackboard as it was. *)
Definition demo_run (ends : string -> option ExecutionResult * option gerror) (_ : events) (d : string) (bb : MapBlackboard) : step_run :=
  mkStepRun (fst (ends d)) (snd (ends d)) [] bb.
Definition fails_at (bad d : string) : option ExecutionResult * option gerror :=
  if String.eqb d bad then (Some (demo_result StatusPartial "out of steps"), None) else (Some (demo_result StatusSuccess ("did " +s+ d)), None).

Definition demo_world (cancelled : events -> bool) (ends : string -> option ExecutionResult * option gerror) (advice : string) (replan : Plan) : TaskWorld := {|
  tw_ctxErr := cancelled;
  tw_quote := fun s => s;
  tw_SetModel := fun _ _ => None;
  tw_NewConductor := None;
  tw_resolvePlanner := None;
  tw_Plan := fun _ => inl demo_plan;
  tw_Run := demo_run ends;
  tw_Reflect := fun _ _ _ _ => Some (mkReflection "" [] advice "" "" "" "" 0);
  tw_Replan := fun _ _ _ _ _ _ => inl replan;
  tw_range := fun _ m => snd <$> map_to_list m;
  tw_range_all := fun _ m => Permutation_refl _;
|}.
Definition demo_task : TaskBuilder := Models (with_reflector (with_planner (System (newTaskBuilder "go") "be brief"))) "big" "small".
Definition never (_ : events) : bool := false.

Definition trace_of (out : option (tstate * outcome)) : events := match out with Some (s, _) => t_trace s | None => [] end.
Definition status_of_task (out : option (tstate * outcome)) : option (ExecutionStatus * Z * option task_error) :=
  match out with Some (_, PlanResult r err) => Some (pr_Status r, pr_FailedSteps r, err) | _ => None end.

(** The second step fails, the plan is revised, and the first step's result is
    carried over: it is not run again. *)
Definition revising : TaskWorld := demo_world never (fails_at "leap") "replan" demo_replan.
Example revised_plan_runs :
  status_of_task (Task_Execute demo_task revising 10) = Some (StatusSuccess, 0, None) /\
  List.filter is_run (trace_of (Task_Execute demo_task revising 10)) = [StepRun "look"; StepRun "leap"; StepRun "step"].
Proof. vm_compute. split; reflexivity. Qed.

Definition end_of (out : option (tstate * outcome)) (default : tstate * outcome) : tstate * outcome :=
  match out with Some o => o | None => default end.
Definition revising_end : tstate * outcome := end_of (Task_Execute demo_task revising 10) (initial demo_task, NoResult "").

Lemma steps_in_order_witness :
  always starts_met (t_trace (fst revising_end)) /\ always (on_exec_model demo_task) (t_trace (fst revising_end)).
Proof. apply (steps_in_order demo_task revising 10 (fst revising_end) (snd revising_end)). vm_compute. reflexivity. Defined.

(** The revised plan fails where the first one did: with a budget of one replan
    the second proposal is refused, and the result is partial though no
    dependency is missing. *)
Definition stubborn : TaskWorld := demo_world never (fails_at "leap") "replan" demo_plan.
Example budget_used_up :
  status_of_task (Task_Execute (MaxReplans demo_task 1) stubborn 10) = Some (StatusPartial, 0, Some (Incomplete 1 2)).
Proof. vm_compute. reflexivity. Qed.

Definition planned_of (o : outcome) : PlannedResult * option task_error :=
  match o with PlanResult r err => (r, err) | _ => (mkPlannedResult "" demo_plan (NewMapBlackboard 0) [] StatusCancelled 0, None) end.
Definition stubborn_end : tstate * outcome :=
  end_of (Task_Execute (MaxReplans demo_task 1) stubborn 10) (initial demo_task, NoResult "").
Lemma status_meaning_witness :
  let r := fst (planned_of (snd stubborn_end)) in
  status_says (MaxReplans demo_task 1) stubborn (t_trace (fst stubborn_end)) r /\
  last_plan (t_trace (fst stubborn_end)) = planStepsToEvents (pr_Plan r) /\
  (is_Some (snd (planned_of (snd stubborn_end))) <-> pr_Status r = StatusPartial) /\
  match pr_Status r with StatusFailed => 0 < pr_FailedSteps r | StatusSuccess | StatusPartial => pr_FailedSteps r = 0 | _ => True end.
Proof.
  apply (status_meaning (MaxReplans demo_task 1) stubborn 10 (fst stubborn_end) (fst (planned_of (snd stubborn_end))) (snd (planned_of (snd stubborn_end)))).
  vm_compute. reflexivity.
Defined.

(** A cancelled context never shows in the status.  Between two waves it makes
    the result partial, on a plan without cycles or dangling dependencies; in
    a run it makes the step a failed one. *)
Definition once_run (h : events) : bool := (1 <=? Z.of_nat (runs h)).
Definition cancelled_between : TaskWorld := demo_world once_run (fails_at "") "retry" demo_plan.
Definition cancelled_within : TaskWorld :=
  demo_world once_run (fun _ => (Some (demo_result StatusCancelled "context canceled"), Some (mkErr "context canceled" [ContextCanceled]))) "retry" demo_plan.
Example cancellation_unreported :
  status_of_task (Task_Execute demo_task cancelled_between 10) = Some (StatusPartial, 0, Some (Incomplete 1 2)) /\
  status_of_task (Task_Execute demo_task cancelled_within 10) = Some (StatusFailed, 1, None).
Proof. vm_compute. split; reflexivity. Qed.

(** A failed step keeps its dependents from being attempted at all: the status
    is failed, which is said to mean that every step was attempted. *)
Example failed_unattempted :
  status_of_task (Task_Execute demo_task (demo_world never (fails_at "look") "retry" demo_plan) 10) = Some (StatusFailed, 1, None) /\
  List.filter is_run (trace_of (Task_Execute demo_task (demo_world never (fails_at "look") "retry" demo_plan) 10)) =
    [StepRun "look"; StepRun "look"; StepRun "look"].
Proof. vm_compute. split; reflexivity. Qed.

(** Results of steps that are not in the plan are left out, not appended. *)
Example outsiders_left_out :
  completedInOrder revising [] {[ "x" := mkCompletedStep "x" "out" None [] ]} (Some demo_plan) = [].
Proof. vm_compute. reflexivity. Qed.

(** No attempts, no run: with a negative number of retries each step that is
    ready fails as if its retries had been used up. *)
Example no_attempts :
  status_of_task (Task_Execute (MaxRetries demo_task (-1)) revising 10) = Some (StatusFailed, 1, None) /\
  runs (trace_of (Task_Execute (MaxRetries demo_task (-1)) revising 10)) = 0%nat.
Proof. vm_compute. split; reflexivity. Qed.
End examples.
